(* ===== verification/_CoqProject ===== *)
-Q . S2P
Prelude.v
CMem.v
CString.v
CStringFacts.v
Ctype.v
CText.v
CTextFacts.v
CNumFacts.v
Printf.v
PrintfFacts.v
PrintfSpec.v
TypesList.v
ByteQueue.v
Ring.v
Pipe.v
Pmm.v
Alloc.v
AllocFacts.v
Paging.v
Sched.v
SchedFacts.v
Tty.v
TtyFacts.v
FdTable.v
Socket.v
SocketFacts.v
Tree.v
Path.v
Tmpfs.v
Vfs.v
TmpfsTable.v
VfsFacts.v
VfsTmpfs.v
Tar.v
Signals.v
BlockDev.v
Ext2.v
Ext2Facts.v
Ext2Dir.v
Ext2Write.v
Family.v
Shm.v
Mmap.v
MmapFacts.v
Stdio.v
StdioFacts.v
Fprintf.v
Clock.v
Env.v
Input.v
Vt.v
Compose.v
ComposeFacts.v
ComposeRemove.v
ComposeSpec.v
ComposeClient.v
Fb.v
FbFacts.v
FbSpec.v
