(* ===== verification/Prelude.v ===== *)
(** * A verification library for ScalesOS

    ScalesOS is a 32-bit kernel for i686 with its own C library and user programs.  This
    library models the parts of the kernel that keep state (memory, processes, file systems,
    terminals, sockets) and the routines of libc they are built on, as functions translated
    from the C code, and proves what they do.  Source paths are relative to src/.

    ** How the code is modelled

    A C integer is a [Z]; where the code computes at a width the wrap-around is written out
    ([u32], [s32], ...).  A C function that can go wrong returns [res]: [Ok], [Panic]
    (a call of [k_panic] or [abort]), [Fault] (undefined behaviour: a dangling or NULL
    pointer, an access outside an object, an indeterminate value) or [OutOfFuel] (the loop
    did not end within the fuel given).  Objects that are shared by pointers live in maps from
    addresses; the address that [k_malloc] gives a new object is an argument or a counter.
    Lists of list.c are the sequences that TypesList shows them to be.  A call that sleeps
    takes what the other processes do meanwhile as an element of a list of environment
    actions.  An operation that holds a lock for its whole length is one transition.

    Loops that count take their number of rounds from the count; other loops take fuel, one
    unit per round, and each theorem says how much is enough or that any amount is used up:
    the statements [*_livelocks], [*_diverges] hold for every fuel.

    ** Files and the code they model

    - Prelude: integers, outcomes, error numbers, automation and lemmas for all files.
    - CMem, CString, Ctype, CText (statements in CStringFacts, CTextFacts, CNumFacts):
      byte memory and libc/src/string, ctype, strtol, atoi, itoa.
    - TypesList, Tree: types/src/list.c and tree.c.
    - ByteQueue: the interface of a bounded byte queue; Ring (ringbuffer.c) and Pipe (pipe.c)
      are its instances.
    - Pmm, Paging (paging.c and memory.c), Alloc and AllocFacts (libc's alloc.c as the kernel
      heap), Shm (shm.c), Mmap and MmapFacts (mmap.c and its system calls): memory.  Paging
      takes frames from Pmm, Shm and Mmap use both, Mmap reads files through Vfs.
    - Sched and SchedFacts (wait queues, ready queue, timers, sending signals), Signals
      (acting on signals), Family (fork, exit, wait), FdTable (descriptors): process.c, each
      file with the part of [process_t] it works on.
    - Tty and TtyFacts: the line discipline of dev/tty.c on two rings.
    - Path, Vfs and VfsFacts: path.c and vfs.c.  A file system is an instance of the class
      [fs_table], the table of operations of vfs.h.
    - Tmpfs, TmpfsTable and VfsTmpfs: tmpfs.c, its table as an instance of [fs_table], and the
      composition with Vfs.
    - BlockDev: the interface of block devices, with the RAM disk and the partitions of
      modules/dospart as instances; Tar: tar.c on a RAM disk; Ext2, Ext2Facts, Ext2Dir,
      Ext2Write: modules/ext2/main.c on any device that keeps the interface.
    - Socket and SocketFacts: local stream sockets.
    - Stdio and StdioFacts: the buffered streams of libc's stdio.c on any descriptor that
      behaves as a regular file (the class [RegularFile]).
    - Printf, PrintfFacts, PrintfSpec: libc's printf.c for any output function; [formats] is
      the relation between a format, its argument words and the text it stands for, and the
      entry points are shown to send exactly that text.  Fprintf composes it with Stdio.
    - Clock: the CMOS clock, seconds since 1970 (kernel/src/dev/timer.c against a calendar),
      libc's mktime and the 64-bit division.
    - Env: libc's environment (env.c), the array environ and its strings.
    - Input and Vt: the keyboard and mouse from the interrupt through the pipes to libinput's
      packets (kernel/src/dev/ps2.c, libs/libinput), and the virtual terminals (vt.c): their
      switching as a machine of requests and releases, typing, histories, control requests.
    - Compose (the server of libs/libcompose), ComposeFacts (its invariant, kept by every
      request that fits its structure: requests, and the events in them, carry the size the
      client gave them, and the server's heap says how far it can read), ComposeRemove (removal of windows and clients), ComposeSpec (coordinates,
      stacking, resizing as a protocol, hostile requests), ComposeClient (the clients: waiting
      for events, and both sides together).
    - Fb (libs/libfb), FbFacts (drawing as plotting a sequence of points; lines), FbSpec (what
      lines, rectangles, bitmaps and characters show; drawing stays inside the buffer).

    ** What is proved

    - Memory: the frame allocator takes the first fit and frees exactly; mapping a page
      changes that translation only; heap blocks never overlap and calls leave the others
      alone; anonymous memory is made of fresh frames and given back whole; shared memory
      neither loses frames nor shares them between objects; a page fault brings in the page
      of the file.
    - Data structures: lists refine sequences, trees stay trees, rings and pipes are FIFO
      byte streams, string routines meet their reference functions, numbers round-trip.
    - Processes: waiters and queues describe one relation, the tree of processes, their list
      and their states agree in every state reachable before the 32-bit counter of process
      numbers is used up, an exit answers the wait of the parent,
      descriptors open at the lowest free number and closing drops exactly one reference,
      handlers of signals run in order and return to where they interrupted.
    - Files: a path is canonical after canonizing, the node found for a path is the one that
      walking the mount tree and the file systems gives, creating and opening a file of a
      mounted tmpfs works through all layers, archives and ext2 volumes are read as their
      layouts say.
    - Terminals and sockets: each input character has the effect of an abstract line
      discipline; connections are symmetric pairs and carry byte streams.
    - What goes wrong: theorems that exhibit a defect of the code state the exact inputs and
      the effect, for instance searches that never end, writes to the wrong place, pages
      handed out twice.  Their doc comments say what the code does.  Where a theorem on
      reachable states asks something of the callers (sizes given to malloc, what is freed,
      which node is removed, what a client puts into a request), its doc comment says so, and
      what happens otherwise is the subject of one of these.

    ** Not modelled

    Interrupt and descriptor tables, ports and device registers, start-up of
    processors and the assembler files are input and output of hardware.  Switching page
    directories and stacks has no effect on the state the models keep, and cloning the image
    of a process copies memory through hardware mappings.  The conversion of
    floating point numbers of printf.c uses the registers of the coprocessor.  The spin locks and mutexes are not modelled: operations are atomic
    where the code holds its lock throughout.  The look-aside buffer of the processor is
    invalidated by the code after every change and is left out.  What the server of the
    window system draws is a list of operations.
    The picture decoders and the user programs are not modelled. *)

From Stdlib Require Export ZArith Lia.
From stdpp Require Export base tactics option numbers gmap.
From stdpp Require Export list.

(** ** Machine integers

    Every C integer is a [Z]; an operation that the C code performs at a
    fixed width is followed by the wrap-around of that width, written out. *)

Definition u8 (x : Z) : Z := x mod 2 ^ 8.
Definition u16 (x : Z) : Z := x mod 2 ^ 16.
Definition u32 (x : Z) : Z := x mod 2 ^ 32.
Definition u64 (x : Z) : Z := x mod 2 ^ 64.

(** Conversion of a bit pattern to the signed type of the same width. *)
Definition s8 (x : Z) : Z := (x + 2 ^ 7) mod 2 ^ 8 - 2 ^ 7.
Definition s32 (x : Z) : Z := (x + 2 ^ 31) mod 2 ^ 32 - 2 ^ 31.
Definition s64 (x : Z) : Z := (x + 2 ^ 63) mod 2 ^ 64 - 2 ^ 63.

(** C's truth value of an integer, and of a comparison. *)
Definition truthy (x : Z) : bool := negb (x =? 0)%Z.
Definition b2z (b : bool) : Z := if b then 1%Z else 0%Z.

(** ** Outcomes of a C function

    [Ok] is a normal return.  [Panic] is a call of [k_panic] or [abort], which
    does not return.  [Fault] is an access outside every live object (undefined
    in C).  [OutOfFuel] is the answer of a loop whose fuel ran out; the theorems
    that say what a function returns always show that some fuel gives [Ok]. *)

Inductive res (A : Type) : Type :=
| Ok (a : A)
| Panic
| Fault
| OutOfFuel.
Arguments Ok {A} a.
Arguments Panic {A}.
Arguments Fault {A}.
Arguments OutOfFuel {A}.

#[export] Instance res_ret : MRet res := λ A a, Ok a.
#[export] Instance res_bind : MBind res := λ A B f r,
  match r with
  | Ok a => f a
  | Panic => Panic
  | Fault => Fault
  | OutOfFuel => OutOfFuel
  end.

#[export] Instance res_eq_dec `{EqDecision A} : EqDecision (res A).
Proof. solve_decision. Defined.

(** A partial lookup used as a memory access. *)
Definition of_option {A} (o : option A) : res A :=
  match o with Some a => Ok a | None => Fault end.

Lemma bind_ok {A B} (f : A → res B) a : (Ok a ≫= f) = f a.
Proof. done. Qed.

Lemma Ok_inj {A} (a b : A) : Ok a = Ok b → a = b.
Proof. by intros [=]. Qed.

Lemma bind_ok_inv {A B} (r : res A) (f : A → res B) b :
  r ≫= f = Ok b → ∃ a, r = Ok a ∧ f a = Ok b.
Proof. destruct r; cbn; intros; naive_solver. Qed.

Lemma of_option_ok {A} (o : option A) a : of_option o = Ok a ↔ o = Some a.
Proof. destruct o; cbn; naive_solver. Qed.

(** The computation returns. *)
Definition is_ok {A} (r : res A) : bool := match r with Ok _ => true | _ => false end.

Lemma is_ok_inv {A} (r : res A) : is_ok r = true → ∃ a, r = Ok a.
Proof. destruct r as [a| | |]; [by exists a|done..]. Qed.

(** ** Error numbers (libc/include/errno.h) *)

Local Open Scope Z_scope.
Definition EPERM : Z := 1.
Definition ENOENT : Z := 2.
Definition EINTR : Z := 4.
Definition ECHILD : Z := 10.
Definition EAGAIN : Z := 11.
Definition ENODEV : Z := 19.
Definition ENOTDIR : Z := 20.
Definition EISDIR : Z := 21.
Definition EINVAL : Z := 22.
Definition ENOBUFS : Z := 105.
Definition ECONNREFUSED : Z := 111.
Definition EISCONN : Z := 127.
Definition ENOTCONN : Z := 128.
Definition ENOTSUP : Z := 134.
Definition ERESTARTSYS : Z := 512.

(** ** Flags of nodes and readiness events (kernel/include/fs/vfs.h), of open files
    (libc/include/stdio.h) *)

Definition VFS_FILE : Z := 1.
Definition VFS_DIR : Z := 2.
Definition VFS_SYMLINK : Z := 4.
Definition VFS_MAPPER : Z := 32.
Definition O_RDONLY : Z := 1.
Definition O_WRONLY : Z := 2.
Definition O_CREAT : Z := 4.
Definition O_NOFOLLOW : Z := 32.
Definition O_NOBLOCK : Z := Z.shiftl 1 6.

Definition SEEK_SET : Z := 0.
Definition SEEK_CUR : Z := 1.
Definition SEEK_END : Z := 2.

Definition VFS_EVENT_READ : Z := 1.
Definition VFS_EVENT_WRITE : Z := 2.
Definition VFS_EVENT_EXCEPT : Z := 4.

(** ** Automation *)

Create HintDb scales.

(** Splits a successful monadic computation in a hypothesis into its steps. *)
Ltac inv_ok :=
  repeat match goal with
  | H : (_ ≫= _) = Ok _ |- _ =>
      let a := fresh "a" in let H1 := fresh H in
      apply bind_ok_inv in H as [a [H1 H]]
  | H : of_option _ = Ok _ |- _ => apply of_option_ok in H
  | H : Ok _ = Ok _ |- _ => injection H as H
  | H : mret _ = Ok _ |- _ => injection H as H
  | H : Panic = Ok _ |- _ => discriminate H
  | H : Fault = Ok _ |- _ => discriminate H
  | H : OutOfFuel = Ok _ |- _ => discriminate H
  | p : prod _ _ |- _ => destruct p
  end; subst.

(** Reflects the boolean tests of the code into the context. *)
Ltac breflect :=
  repeat match goal with
  | H : (_ && _)%bool = true |- _ => apply andb_true_iff in H as [? ?]
  | H : (_ && _)%bool = false |- _ => apply andb_false_iff in H
  | H : (_ || _)%bool = true |- _ => apply orb_true_iff in H
  | H : (_ || _)%bool = false |- _ => apply orb_false_iff in H as [? ?]
  | H : negb _ = true |- _ => apply negb_true_iff in H
  | H : negb _ = false |- _ => apply negb_false_iff in H
  | H : Z.eqb _ _ = true |- _ => apply Z.eqb_eq in H
  | H : Z.eqb _ _ = false |- _ => apply Z.eqb_neq in H
  | H : Z.ltb _ _ = true |- _ => apply Z.ltb_lt in H
  | H : Z.ltb _ _ = false |- _ => apply Z.ltb_ge in H
  | H : Z.leb _ _ = true |- _ => apply Z.leb_le in H
  | H : Z.leb _ _ = false |- _ => apply Z.leb_gt in H
  | H : Nat.eqb _ _ = true |- _ => apply Nat.eqb_eq in H
  | H : Nat.eqb _ _ = false |- _ => apply Nat.eqb_neq in H
  | H : Nat.ltb _ _ = true |- _ => apply Nat.ltb_lt in H
  | H : Nat.ltb _ _ = false |- _ => apply Nat.ltb_ge in H
  | H : truthy _ = true |- _ => unfold truthy in H
  | H : truthy _ = false |- _ => unfold truthy in H
  | H : bool_decide _ = true |- _ => apply bool_decide_eq_true_1 in H
  | H : bool_decide _ = false |- _ => apply bool_decide_eq_false_1 in H
  end.

(** Case analysis on the condition of the first [if] of the goal. *)
Ltac case_if :=
  match goal with
  | |- context [if ?b then _ else _] =>
      lazymatch type of b with
      | bool => let E := fresh "E" in destruct b eqn:E
      end
  end; breflect.

Open Scope Z_scope.

(** ** Lemmas on machine integers *)

Section words.
Implicit Types x : Z.

Lemma u32_small x : 0 ≤ x < 2 ^ 32 → u32 x = x.
Proof. apply Z.mod_small. Qed.
Lemma u64_small x : 0 ≤ x < 2 ^ 64 → u64 x = x.
Proof. apply Z.mod_small. Qed.
Lemma u8_small x : 0 ≤ x < 2 ^ 8 → u8 x = x.
Proof. apply Z.mod_small. Qed.
Lemma u32_range x : 0 ≤ u32 x < 2 ^ 32.
Proof. by apply Z.mod_pos_bound. Qed.
Lemma u64_range x : 0 ≤ u64 x < 2 ^ 64.
Proof. by apply Z.mod_pos_bound. Qed.
Lemma u8_range x : 0 ≤ u8 x < 2 ^ 8.
Proof. by apply Z.mod_pos_bound. Qed.
Lemma s32_small x : -2 ^ 31 ≤ x < 2 ^ 31 → s32 x = x.
Proof. intros. unfold s32. rewrite Z.mod_small; lia. Qed.
Lemma s32_range x : -2 ^ 31 ≤ s32 x < 2 ^ 31.
Proof. unfold s32. pose proof (Z.mod_pos_bound (x + 2 ^ 31) (2 ^ 32)). lia. Qed.
Lemma s8_small x : -2 ^ 7 ≤ x < 2 ^ 7 → s8 x = x.
Proof. intros. unfold s8. rewrite Z.mod_small; lia. Qed.
Lemma truthy_0 : truthy 0 = false.
Proof. done. Qed.
Lemma truthy_true x : truthy x = true ↔ x ≠ 0.
Proof. unfold truthy. rewrite negb_true_iff, Z.eqb_neq. done. Qed.
Lemma truthy_false x : truthy x = false ↔ x = 0.
Proof. unfold truthy. rewrite negb_false_iff, Z.eqb_eq. done. Qed.
End words.

#[export] Hint Resolve u32_small u64_small u8_small s32_small s8_small : scales.
#[export] Hint Resolve u32_range u64_range u8_range s32_range : scales.

(** ** Single bits *)

Section bits.
Implicit Types w i j : Z.

Lemma testbit_shiftl_1 i j : 0 ≤ i → 0 ≤ j → Z.testbit (Z.shiftl 1 i) j = (i =? j).
Proof.
  intros Hi Hj. rewrite Z.shiftl_1_l, Z.pow2_bits_eqb by done. done.
Qed.

Lemma land_bit w i :
  0 ≤ i → Z.land w (Z.shiftl 1 i) = if Z.testbit w i then Z.shiftl 1 i else 0.
Proof.
  intros Hi. apply Z.bits_inj'. intros j Hj.
  rewrite Z.land_spec, testbit_shiftl_1 by done.
  destruct (Z.eqb_spec i j) as [->|].
  - destruct (Z.testbit w j); [by rewrite testbit_shiftl_1, Z.eqb_refl|by rewrite Z.bits_0].
  - rewrite andb_false_r. destruct (Z.testbit w i); [|by rewrite Z.bits_0].
    rewrite testbit_shiftl_1 by done. symmetry. by apply Z.eqb_neq.
Qed.

Lemma truthy_land_bit w i : 0 ≤ i → truthy (Z.land w (Z.shiftl 1 i)) = Z.testbit w i.
Proof.
  intros Hi. rewrite land_bit by done. destruct (Z.testbit w i); [|done].
  apply truthy_true. rewrite Z.shiftl_1_l. pose proof (Z.pow_pos_nonneg 2 i). lia.
Qed.

Lemma testbit_lor_bit w i j :
  0 ≤ i → 0 ≤ j → Z.testbit (Z.lor w (Z.shiftl 1 i)) j = (i =? j) || Z.testbit w j.
Proof. intros. rewrite Z.lor_spec, testbit_shiftl_1 by done. apply orb_comm. Qed.

Lemma testbit_clear_bit w i j :
  0 ≤ i → 0 ≤ j →
  Z.testbit (Z.land w (Z.lnot (Z.shiftl 1 i))) j = negb (i =? j) && Z.testbit w j.
Proof.
  intros. rewrite Z.land_spec, Z.lnot_spec, testbit_shiftl_1 by done. apply andb_comm.
Qed.

(** Numbers of [0, 2 ^ n) are those with no bit from [n] on. *)
Lemma testbit_high w n i : 0 ≤ w < 2 ^ n → n ≤ i → 0 ≤ n → Z.testbit w i = false.
Proof.
  intros Hw Hi Hn. destruct (Z.eq_dec w 0) as [->|]; [apply Z.bits_0|].
  apply Z.bits_above_log2; [lia|]. apply Z.log2_lt_pow2; [lia|].
  pose proof (Z.pow_le_mono_r 2 n i). lia.
Qed.

Lemma bits_range w n :
  0 ≤ n → 0 ≤ w → (∀ i, n ≤ i → Z.testbit w i = false) → w < 2 ^ n.
Proof.
  intros Hn Hw Hb. destruct (Z.eq_dec w 0) as [->|]; [by apply Z.pow_pos_nonneg|].
  apply Z.log2_lt_pow2; [lia|]. destruct (Z.lt_ge_cases (Z.log2 w) n) as [|Hge]; [done|].
  apply Hb in Hge. rewrite Z.bit_log2 in Hge by lia. done.
Qed.
End bits.

(** ** Lemmas on lists *)

Section lists.
Context {A : Type}.
Implicit Types (l : list A) (x : A).

Lemma take_S_lookup l i x : l !! i = Some x → take (S i) l = take i l ++ [x].
Proof. apply take_S_r. Qed.

Lemma drop_lookup_cons l i x : l !! i = Some x → drop i l = x :: drop (S i) l.
Proof. intros. by rewrite (drop_S _ x). Qed.

Lemma lookup_lt_is_Some_1' l i : (i < length l)%nat → ∃ x, l !! i = Some x.
Proof. intros H. by apply lookup_lt_is_Some in H. Qed.
End lists.

Lemma fmap_rev {A B} (f : A → B) l : f <$> rev l = rev (f <$> l).
Proof. induction l as [|x l IH]; cbn; [done|]. by rewrite fmap_app, IH. Qed.
