(* ===== verification/CMem.v ===== *)
(** * Byte-addressed memory

    The memory a C program sees: a finite map from addresses to bytes.  An
    address outside the domain belongs to no live object, and accessing it is a
    [Fault].  Bytes are numbers of [0, 256); [s8] gives the value of a plain
    (signed) [char].  The file also holds the two predicates all string
    specifications use: [bytes_at] (an array holds these bytes) and [cstr]
    (an array holds this NUL-terminated string). *)

From S2P Require Import Prelude.

Abbreviation mem := (gmap Z Z).

Definition load (m : mem) (p : Z) : res Z := of_option (m !! p).

Definition store (m : mem) (p b : Z) : res mem :=
  match m !! p with
  | Some _ => Ok (<[p := b]> m)
  | None => Fault
  end.

(** [mapped m p n]: the [n] bytes from [p] belong to live objects. *)
Definition mapped (m : mem) (p n : Z) : Prop :=
  ∀ a, p ≤ a < p + n → is_Some (m !! a).

Definition bytes_at (m : mem) (p : Z) (l : list Z) : Prop :=
  ∀ i b, l !! i = Some b → m !! (p + Z.of_nat i) = Some b.

(** The characters of a C string: non-zero bytes. *)
Definition chars (s : list Z) : Prop := Forall (λ b, 0 < b < 256) s.

Definition cstr (m : mem) (p : Z) (s : list Z) : Prop :=
  chars s ∧ bytes_at m p (s ++ [0]).

(** The memory after an array of bytes is stored at [p]. *)
Fixpoint store_bytes (m : mem) (p : Z) (l : list Z) : mem :=
  match l with
  | [] => m
  | b :: l' => store_bytes (<[p := b]> m) (p + 1) l'
  end.

(** [mem_of p l]: a memory holding exactly [l] at [p]; used by examples. *)
Definition mem_of (p : Z) (l : list Z) : mem := store_bytes ∅ p l.

(** A 32-bit word, little endian. *)
Definition word_bytes (w : Z) : list Z :=
  [w mod 256; (w / 2 ^ 8) mod 256; (w / 2 ^ 16) mod 256; (w / 2 ^ 24) mod 256].

Definition load32 (m : mem) (p : Z) : res Z :=
  b0 ← load m p; b1 ← load m (p + 1); b2 ← load m (p + 2); b3 ← load m (p + 3);
  Ok (b0 + 2 ^ 8 * b1 + 2 ^ 16 * b2 + 2 ^ 24 * b3).

Definition store32 (m : mem) (p w : Z) : res mem :=
  m0 ← store m p (w mod 256);
  m1 ← store m0 (p + 1) ((w / 2 ^ 8) mod 256);
  m2 ← store m1 (p + 2) ((w / 2 ^ 16) mod 256);
  store m2 (p + 3) ((w / 2 ^ 24) mod 256).

Section memory.
Implicit Types (m : mem) (p a b : Z) (l s : list Z).

Lemma load_ok m p b : m !! p = Some b → load m p = Ok b.
Proof. unfold load. by intros ->. Qed.

Lemma store_ok m p b : is_Some (m !! p) → store m p b = Ok (<[p := b]> m).
Proof. unfold store. by intros [? ->]. Qed.

Lemma lookup_store_bytes m p l a :
  store_bytes m p l !! a =
    if decide (p ≤ a < p + Z.of_nat (length l))
    then l !! Z.to_nat (a - p) else m !! a.
Proof.
  revert m p. induction l as [|b l IH]; intros m p; cbn [store_bytes length].
  - case_decide; [lia|done].
  - rewrite IH. destruct (decide (a = p)) as [->|Hne].
    + rewrite lookup_insert_eq, decide_False by lia.
      by rewrite decide_True, Z.sub_diag by lia.
    + rewrite lookup_insert_ne by done. repeat case_decide; try lia; [|done].
      by replace (Z.to_nat (a - p)) with (S (Z.to_nat (a - (p + 1)))) by lia.
Qed.

Lemma store_bytes_app m p l1 l2 :
  store_bytes m p (l1 ++ l2) =
  store_bytes (store_bytes m p l1) (p + Z.of_nat (length l1)) l2.
Proof.
  revert m p. induction l1 as [|b l1 IH]; intros m p; cbn.
  - f_equal. lia.
  - rewrite IH. f_equal. lia.
Qed.

Lemma store_bytes_snoc m p l b :
  <[p + Z.of_nat (length l) := b]> (store_bytes m p l) =
  store_bytes m p (l ++ [b]).
Proof. by rewrite store_bytes_app. Qed.

Lemma store_bytes_cons_r m p b l :
  <[p := b]> (store_bytes m (p + 1) l) = store_bytes m p (b :: l).
Proof.
  apply map_eq. intros a. cbn. rewrite lookup_store_bytes.
  destruct (decide (a = p)) as [->|].
  - rewrite lookup_insert_eq. case_decide; [lia|].
    by rewrite lookup_insert_eq.
  - rewrite lookup_insert_ne by done. rewrite lookup_store_bytes.
    case_decide; [done|]. by rewrite lookup_insert_ne.
Qed.

Lemma bytes_at_store_bytes m p l : bytes_at (store_bytes m p l) p l.
Proof.
  intros i b Hi. rewrite lookup_store_bytes.
  apply lookup_lt_Some in Hi as Hlt. case_decide; [|lia].
  by replace (Z.to_nat _) with i by lia.
Qed.

Lemma bytes_at_store_bytes_ne m p l q k :
  q + Z.of_nat (length k) ≤ p ∨ p + Z.of_nat (length l) ≤ q →
  bytes_at m q k → bytes_at (store_bytes m p l) q k.
Proof.
  intros Hd Hk i b Hi. apply lookup_lt_Some in Hi as Hlt.
  rewrite lookup_store_bytes. case_decide; [lia|]. by apply Hk.
Qed.

Lemma bytes_at_app m p l1 l2 :
  bytes_at m p (l1 ++ l2) ↔
  bytes_at m p l1 ∧ bytes_at m (p + Z.of_nat (length l1)) l2.
Proof.
  split.
  - intros H. split; intros i b Hi.
    + apply H. by apply lookup_app_l_Some.
    + replace (p + Z.of_nat (length l1) + Z.of_nat i)
        with (p + Z.of_nat (length l1 + i)) by lia.
      apply H. rewrite lookup_app_r by lia. by replace (_ - _)%nat with i by lia.
  - intros [H1 H2] i b Hi. apply lookup_app_Some in Hi as [Hi|[Hlt Hi]].
    + by apply H1.
    + apply H2 in Hi. rewrite <- Hi. f_equal. lia.
Qed.

Lemma bytes_at_cons m p b l :
  bytes_at m p (b :: l) ↔ m !! p = Some b ∧ bytes_at m (p + 1) l.
Proof.
  change (b :: l) with ([b] ++ l). rewrite bytes_at_app. cbn.
  split; intros [H1 H2]; (split; [|done]).
  - specialize (H1 0%nat b eq_refl). by rewrite Z.add_0_r in H1.
  - intros [|i] b' Hi; cbn in Hi; simplify_eq. by rewrite Z.add_0_r.
Qed.

Lemma bytes_at_nil m p : bytes_at m p [].
Proof. intros i b Hi. by rewrite lookup_nil in Hi. Qed.

Lemma bytes_at_mapped m p l : bytes_at m p l → mapped m p (Z.of_nat (length l)).
Proof.
  intros H a Ha. destruct (lookup_lt_is_Some_1' l (Z.to_nat (a - p))) as [x Hx]; [lia|].
  apply H in Hx. rewrite Z2Nat.id in Hx by lia.
  replace (p + (a - p)) with a in Hx by lia. by exists x.
Qed.

Lemma mapped_head m p n : 0 < n → mapped m p n → is_Some (m !! p).
Proof. intros ? H. apply H. lia. Qed.

Lemma mapped_insert m p n q b : mapped m p n → mapped (<[q := b]> m) p n.
Proof.
  intros H a Ha. destruct (decide (q = a)) as [->|].
  - rewrite lookup_insert_eq. eauto.
  - rewrite lookup_insert_ne by done. by apply H.
Qed.

Lemma mapped_sub m p n p' n' :
  mapped m p n → p ≤ p' → p' + n' ≤ p + n → mapped m p' n'.
Proof. intros H ?? a Ha. apply H. lia. Qed.

Lemma mapped_store_bytes m p n q l : mapped m p n → mapped (store_bytes m q l) p n.
Proof.
  revert m q. induction l as [|b l IH]; intros m q H; cbn; [done|].
  by apply IH, mapped_insert.
Qed.

Lemma store32_ok m p w : mapped m p 4 → store32 m p w = Ok (store_bytes m p (word_bytes w)).
Proof.
  intros H. unfold store32, word_bytes. cbn [store_bytes].
  pose proof (λ q b, mapped_insert _ p 4 q b H) as H1.
  pose proof (λ q b q' b', mapped_insert _ p 4 q' b' (H1 q b)) as H2.
  pose proof (λ q b q' b' q'' b'', mapped_insert _ p 4 q'' b'' (H2 q b q' b')) as H3.
  rewrite store_ok, bind_ok by (apply H; lia). rewrite store_ok, bind_ok by (apply H1; lia).
  rewrite store_ok, bind_ok by (apply H2; lia). rewrite store_ok by (apply H3; lia).
  replace (p + 1 + 1) with (p + 2) by lia. by replace (p + 2 + 1) with (p + 3) by lia.
Qed.

Lemma load32_ok m p w :
  0 ≤ w < 2 ^ 32 → bytes_at m p (word_bytes w) → load32 m p = Ok w.
Proof.
  intros Hw. unfold word_bytes. rewrite !bytes_at_cons. intros (H0 & H1 & H2 & H3 & _).
  replace (p + 1 + 1) with (p + 2) in * by lia. replace (p + 2 + 1) with (p + 3) in * by lia.
  unfold load32. rewrite !(load_ok _ _ _ H0), !(load_ok _ _ _ H1), !(load_ok _ _ _ H2),
    !(load_ok _ _ _ H3), !bind_ok. f_equal. Z.div_mod_to_equations. lia.
Qed.

Lemma cstr_cons m p c s :
  cstr m p (c :: s) ↔ (0 < c < 256 ∧ m !! p = Some c ∧ cstr m (p + 1) s).
Proof.
  unfold cstr, chars. cbn [app]. rewrite bytes_at_cons, list.Forall_cons. tauto.
Qed.

Lemma cstr_nil m p : cstr m p [] ↔ m !! p = Some 0.
Proof.
  unfold cstr, chars. cbn [app]. rewrite bytes_at_cons. split; [tauto|].
  intros ?. split_and!; [constructor|done|apply bytes_at_nil].
Qed.

Lemma cstr_app m p s1 s2 :
  cstr m p (s1 ++ s2) →
  bytes_at m p s1 ∧ chars s1 ∧ cstr m (p + Z.of_nat (length s1)) s2.
Proof.
  unfold cstr, chars. rewrite <- app_assoc, Forall_app, bytes_at_app. tauto.
Qed.

Lemma cstr_store_bytes m p s : chars s → cstr (store_bytes m p (s ++ [0])) p s.
Proof. split; [done|]. apply bytes_at_store_bytes. Qed.

Lemma cstr_store_bytes_ne m p l q s :
  q + Z.of_nat (length s) + 1 ≤ p ∨ p + Z.of_nat (length l) ≤ q →
  cstr m q s → cstr (store_bytes m p l) q s.
Proof.
  intros Hd [Hs Hb]. split; [done|]. apply bytes_at_store_bytes_ne; [|done].
  rewrite length_app. cbn. lia.
Qed.
End memory.

(** ** Deciding the predicates on concrete memories *)

Fixpoint bytes_check (m : mem) (p : Z) (l : list Z) : bool :=
  match l with
  | [] => true
  | b :: l' => bool_decide (m !! p = Some b) && bytes_check m (p + 1) l'
  end.

Definition cstr_check (m : mem) (p : Z) (s : list Z) : bool :=
  forallb (λ b, (0 <? b) && (b <? 256)) s && bytes_check m p (s ++ [0]).

Definition mapped_check (m : mem) (p : Z) (n : nat) : bool :=
  forallb (λ i, bool_decide (is_Some (m !! (p + Z.of_nat i)))) (seq 0 n).

Lemma bytes_check_ok m p l : bytes_check m p l = true → bytes_at m p l.
Proof.
  revert p. induction l as [|b l IH]; intros p H; [apply bytes_at_nil|].
  cbn in H. breflect. apply bytes_at_cons. auto.
Qed.

Lemma cstr_check_ok m p s : cstr_check m p s = true → cstr m p s.
Proof.
  unfold cstr_check. intros [Hc Hb]%andb_true_iff. split; [|by apply bytes_check_ok].
  unfold chars. apply Forall_forall. intros b Hb'%list_elem_of_In.
  rewrite List.forallb_forall in Hc. apply Hc in Hb'. breflect. lia.
Qed.

Lemma mapped_check_ok m p n : mapped_check m p n = true → mapped m p (Z.of_nat n).
Proof.
  unfold mapped_check. rewrite List.forallb_forall. intros H a Ha.
  specialize (H (Z.to_nat (a - p))). rewrite Z2Nat.id in H by lia.
  replace (p + (a - p)) with a in H by lia.
  eapply bool_decide_eq_true_1, H, List.in_seq. lia.
Qed.

(** Discharges [cstr], [bytes_at] and [mapped] of a concrete memory. *)
Ltac mem_check :=
  match goal with
  | |- cstr _ _ _ => apply cstr_check_ok; vm_compute; reflexivity
  | |- bytes_at _ _ _ => apply bytes_check_ok; vm_compute; reflexivity
  | |- mapped ?m ?p ?n =>
      apply (mapped_check_ok m p (Z.to_nat n)); vm_compute; reflexivity
  end.

#[export] Hint Resolve mapped_insert mapped_store_bytes bytes_at_nil : scales.
