(* ===== verification/CString.v ===== *)
(** * libc/src/string: the C string routines

    One definition per routine, on byte memory.  A loop over a counted region
    recurses on the count; a loop that runs to a terminator takes fuel, one unit
    per iteration.  Pointers are addresses; [NULL] is 0. *)

From S2P Require Import Prelude CMem.

(** ** Counted regions: memcpy.c, memset.c, memmove.c, memcmp.c *)

(** [while(n) { *(pszDest++) = *(pszSource++); --n; }] *)
Fixpoint copy_forward (n : nat) (m : mem) (dst src : Z) : res mem :=
  match n with
  | O => Ok m
  | S n' =>
      c ← load m src;
      m' ← store m dst c;
      copy_forward n' m' (dst + 1) (src + 1)
  end.

(** The portable branch of [memcpy]; the assembler version
    ([HAS_ARCH_MEMSET]) is a [rep movsb], the same forward copy. *)
Definition memcpy (m : mem) (dest src n : Z) : res mem :=
  if truthy dest && truthy src then copy_forward (Z.to_nat n) m dest src
  else Ok m.

(** [while (n > 0) { *p = c; p++; n--; }] *)
Fixpoint memset_loop (n : nat) (m : mem) (p c : Z) : res mem :=
  match n with
  | O => Ok m
  | S n' => m' ← store m p (u8 c); memset_loop n' m' (p + 1) c
  end.

Definition memset (m : mem) (dest c n : Z) : res mem :=
  memset_loop (Z.to_nat n) m dest c.

(** [for(i = n-1; i >= 0; i--) to[i] = from[i];] *)
Fixpoint copy_backward (n : nat) (m : mem) (dst src : Z) : res mem :=
  match n with
  | O => Ok m
  | S i =>
      c ← load m (src + Z.of_nat i);
      m' ← store m (dst + Z.of_nat i) c;
      copy_backward i m' dst src
  end.

Definition memmove (m : mem) (dest src n : Z) : res mem :=
  let from := src in
  let to := dest in
  if (from =? to) || (n =? 0) then Ok m
  else if (from <? to) && (s32 (to - from) <? s32 n) then
    (* the signed index starts at (int) n - 1 *)
    copy_backward (Z.to_nat (s32 n)) m to from
  else if (to <? from) && (s32 (from - to) <? s32 n) then
    copy_forward (Z.to_nat n) m to from
  else memcpy m dest src n.

Fixpoint memcmp_loop (n : nat) (m : mem) (s1 s2 : Z) : res Z :=
  match n with
  | O => Ok 0
  | S n' =>
      u1 ← load m s1;
      u2 ← load m s2;
      if negb (u1 =? u2) then Ok (u1 - u2)
      else memcmp_loop n' m (s1 + 1) (s2 + 1)
  end.

Definition memcmp (m : mem) (s1 s2 n : Z) : res Z :=
  memcmp_loop (Z.to_nat n) m s1 s2.

(** ** Terminated strings *)

(** [for (s = str; *s; ++s);] *)
Fixpoint strlen_loop (fuel : nat) (m : mem) (s : Z) : res Z :=
  match fuel with
  | O => OutOfFuel
  | S f =>
      c ← load m s;
      if truthy c then strlen_loop f m (s + 1) else Ok s
  end.

Definition strlen (fuel : nat) (m : mem) (str : Z) : res Z :=
  s ← strlen_loop fuel m str; Ok (u32 (s - str)).

(** [while( *s1 && ( *s1 == *s2)) { s1++; s2++; }] *)
Fixpoint strcmp_loop (fuel : nat) (m : mem) (s1 s2 : Z) : res (Z * Z) :=
  match fuel with
  | O => OutOfFuel
  | S f =>
      c1 ← load m s1;
      if truthy c1 then
        c2 ← load m s2;
        if c1 =? c2 then strcmp_loop f m (s1 + 1) (s2 + 1) else Ok (s1, s2)
      else Ok (s1, s2)
  end.

Definition strcmp (fuel : nat) (m : mem) (s1 s2 : Z) : res Z :=
  '(p1, p2) ← strcmp_loop fuel m s1 s2;
  c1 ← load m p1;
  c2 ← load m p2;
  Ok (c1 - c2).

(** [while (n && *s1 && ( *s1 == *s2)) { ++s1; ++s2; --n; }] then the test of [n]. *)
Fixpoint strncmp_loop (n : nat) (m : mem) (s1 s2 : Z) : res Z :=
  match n with
  | O => Ok 0
  | S n' =>
      c1 ← load m s1;
      if truthy c1 then
        c2 ← load m s2;
        if c1 =? c2 then strncmp_loop n' m (s1 + 1) (s2 + 1) else Ok (c1 - c2)
      else c2 ← load m s2; Ok (c1 - c2)
  end.

Definition strncmp (m : mem) (s1 s2 n : Z) : res Z :=
  strncmp_loop (Z.to_nat n) m s1 s2.

(** The copying loop shared by [strcpy] and [strcat]:
    [while ( *source != 0) *ptr++ = *source++; *ptr = 0;] *)
Fixpoint strcpy_loop (fuel : nat) (m : mem) (dst src : Z) : res mem :=
  match fuel with
  | O => OutOfFuel
  | S f =>
      c ← load m src;
      if truthy c then
        m' ← store m dst c;
        strcpy_loop f m' (dst + 1) (src + 1)
      else store m dst 0
  end.

Definition strcpy (fuel : nat) (m : mem) (destination source : Z) : res (Z * mem) :=
  if destination =? 0 then Ok (0, m)
  else m' ← strcpy_loop fuel m destination source; Ok (destination, m').

Definition strcat (fuel : nat) (m : mem) (destination source : Z) : res (Z * mem) :=
  len ← strlen fuel m destination;
  m' ← strcpy_loop fuel m (destination + len) source;
  Ok (destination, m').

(** The bounded loop shared by [strncpy] and [strncat]:
    [while ( *source && num--) *ptr++ = *source++; *ptr = 0;] *)
Fixpoint strncpy_loop (num : nat) (m : mem) (dst src : Z) : res mem :=
  c ← load m src;
  if truthy c then
    match num with
    | O => store m dst 0
    | S num' =>
        m' ← store m dst c;
        strncpy_loop num' m' (dst + 1) (src + 1)
    end
  else store m dst 0.

Definition strncpy (m : mem) (destination source num : Z) : res (Z * mem) :=
  if destination =? 0 then Ok (0, m)
  else m' ← strncpy_loop (Z.to_nat num) m destination source; Ok (destination, m').

Definition strncat (fuel : nat) (m : mem) (destination source num : Z) : res (Z * mem) :=
  len ← strlen fuel m destination;
  m' ← strncpy_loop (Z.to_nat num) m (destination + len) source;
  Ok (destination, m').

(** [while ( *s != (char) c) if (!*s++) return NULL; return s;] *)
Fixpoint strchr (fuel : nat) (m : mem) (s c : Z) : res Z :=
  match fuel with
  | O => OutOfFuel
  | S f =>
      x ← load m s;
      if x =? u8 c then Ok s
      else if truthy x then strchr f m (s + 1) c else Ok 0
  end.

(** [while ( *s) { if (c == *s) break; s++; } return s;]: [c] is an [int], [*s] a
    signed [char]. *)
Fixpoint strchrnul (fuel : nat) (m : mem) (s c : Z) : res Z :=
  match fuel with
  | O => OutOfFuel
  | S f =>
      x ← load m s;
      if truthy x then
        if c =? s8 x then Ok s else strchrnul f m (s + 1) c
      else Ok s
  end.

(** [BITOP]: word [b / 32], bit [b mod 32] of an array of eight [size_t]. *)
Definition byteset_set (bs : list Z) (b : Z) : list Z :=
  alter (λ w, Z.lor w (Z.shiftl 1 (b mod 32))) (Z.to_nat (b / 32)) bs.
Definition byteset_get (bs : list Z) (b : Z) : bool :=
  match bs !! Z.to_nat (b / 32) with
  | Some w => truthy (Z.land w (Z.shiftl 1 (b mod 32)))
  | None => false
  end.

Fixpoint strcspn_fill (fuel : nat) (m : mem) (bs : list Z) (c : Z) : res (list Z) :=
  match fuel with
  | O => OutOfFuel
  | S f =>
      x ← load m c;
      if truthy x then strcspn_fill f m (byteset_set bs x) (c + 1) else Ok bs
  end.

Fixpoint strcspn_scan (fuel : nat) (m : mem) (bs : list Z) (s : Z) : res Z :=
  match fuel with
  | O => OutOfFuel
  | S f =>
      x ← load m s;
      if truthy x && negb (byteset_get bs x) then strcspn_scan f m bs (s + 1)
      else Ok s
  end.

Definition strcspn (fuel : nat) (m : mem) (s c : Z) : res Z :=
  c0 ← load m c;
  single ← (if truthy c0 then c1 ← load m (c + 1); Ok (negb (truthy c1)) else Ok true);
  if (single : bool) then e ← strchrnul fuel m s (s8 c0); Ok (u32 (e - s))
  else
    bs ← strcspn_fill fuel m (replicate 8 0) c;
    e ← strcspn_scan fuel m bs s;
    Ok (u32 (e - s)).

(** [reverse]: the two indices walk towards each other. *)
Fixpoint reverse_loop (fuel : nat) (m : mem) (s i j : Z) : res mem :=
  match fuel with
  | O => OutOfFuel
  | S f =>
      if i <? j then
        ci ← load m (s + i);
        cj ← load m (s + j);
        m1 ← store m (s + i) cj;
        m2 ← store m1 (s + j) ci;
        reverse_loop f m2 s (i + 1) (j - 1)
      else Ok m
  end.

Definition reverse (fuel : nat) (m : mem) (s : Z) : res mem :=
  len ← strlen fuel m s;
  reverse_loop fuel m s 0 (s32 (len - 1)).

(** [strdup]: the buffer comes from [malloc], an argument of the model. *)
Definition strdup (malloc : Z → mem → res (Z * mem)) (fuel : nat) (m : mem) (str : Z)
    : res (Z * mem) :=
  len ← strlen fuel m str;
  '(buff, m1) ← malloc (u32 (len + 1)) m;
  '(_, m2) ← strcpy fuel m1 buff str;
  Ok (buff, m2).
