(* ===== verification/CStringFacts.v ===== *)
(** * Correctness of the string routines of libc/src/string *)

From S2P Require Import Prelude CMem CString.

(** ** Reference functions on strings as values *)

(** First difference of two strings, a string's end counting as 0. *)
Fixpoint str_diff (s t : list Z) : Z :=
  match s, t with
  | [], [] => 0
  | [], d :: _ => 0 - d
  | c :: _, [] => c - 0
  | c :: s', d :: t' => if c =? d then str_diff s' t' else c - d
  end.

(** Lexicographic order on byte strings. *)
Fixpoint str_lt (s t : list Z) : Prop :=
  match s, t with
  | _, [] => False
  | [], _ :: _ => True
  | c :: s', d :: t' => c < d ∨ (c = d ∧ str_lt s' t')
  end.

(** Length of the longest prefix without a byte satisfying [P]. *)
Fixpoint span_not (P : Z → bool) (s : list Z) : nat :=
  match s with
  | [] => O
  | c :: s' => if P c then O else S (span_not P s')
  end.

Definition mem_byte (set : list Z) (c : Z) : bool := bool_decide (c ∈ set).

Lemma str_diff_zero s t : chars s → chars t → str_diff s t = 0 ↔ s = t.
Proof.
  revert t. induction s as [|c s IH]; intros [|d t] Hs Ht; cbn; try done.
  - apply list.Forall_cons in Ht as [? _]. split; [lia|done].
  - apply list.Forall_cons in Hs as [? _]. split; [lia|done].
  - apply list.Forall_cons in Ht as [? Ht]. apply list.Forall_cons in Hs as [? Hs].
    case_if; [|split; [lia|naive_solver]]. subst. rewrite IH by done. naive_solver.
Qed.

Lemma str_diff_neg s t : chars s → chars t → str_diff s t < 0 ↔ str_lt s t.
Proof.
  revert t. induction s as [|c s IH]; intros [|d t] Hs Ht; cbn; try done.
  - apply list.Forall_cons in Ht as [? _]. split; [done|lia].
  - apply list.Forall_cons in Hs as [? _]. split; [lia|done].
  - apply list.Forall_cons in Ht as [? Ht]. apply list.Forall_cons in Hs as [? Hs].
    case_if; [|split; [lia|lia]]. subst. rewrite IH by done. split; [auto|].
    intros [?|[_ ?]]; [lia|done].
Qed.

Section loops.
Implicit Types (m : mem) (p dst src : Z) (l s : list Z).

Lemma copy_forward_ok m dst src l :
  bytes_at m src l → mapped m dst (Z.of_nat (length l)) →
  dst ≤ src ∨ src + Z.of_nat (length l) ≤ dst →
  copy_forward (length l) m dst src = Ok (store_bytes m dst l).
Proof.
  revert m dst src. induction l as [|b l IH]; intros m dst src Hb Hd Ho; [done|].
  apply bytes_at_cons in Hb as [H0 Hb]. cbn [length copy_forward store_bytes] in *.
  rewrite (load_ok _ _ _ H0), bind_ok, store_ok, bind_ok
    by (apply Hd; lia).
  apply IH.
  - intros i x Hi. apply lookup_lt_Some in Hi as Hlt.
    rewrite lookup_insert_ne by lia. by apply Hb.
  - apply mapped_insert. eapply mapped_sub; [done|lia|lia].
  - lia.
Qed.

Lemma memset_loop_ok m p c n :
  mapped m p (Z.of_nat n) → memset_loop n m p c = Ok (store_bytes m p (replicate n (u8 c))).
Proof.
  revert m p. induction n as [|n IH]; intros m p Hm; cbn [memset_loop replicate store_bytes]; [done|].
  rewrite store_ok, bind_ok by (apply Hm; lia). apply IH, mapped_insert.
  apply (mapped_sub _ _ _ _ _ Hm); lia.
Qed.

Lemma copy_backward_ok m dst src l :
  bytes_at m src l → mapped m dst (Z.of_nat (length l)) → src ≤ dst →
  copy_backward (length l) m dst src = Ok (store_bytes m dst l).
Proof.
  revert m. induction l as [|b l IH] using rev_ind; intros m Hb Hd Ho; [done|].
  apply bytes_at_app in Hb as [Hb H0]. apply bytes_at_cons in H0 as [H0 _].
  rewrite length_app, Nat.add_1_r in *. cbn [copy_backward].
  rewrite (load_ok _ _ _ H0), bind_ok, store_ok, bind_ok by (apply Hd; lia).
  rewrite IH.
  - f_equal. rewrite <- store_bytes_snoc. apply map_eq. intros a.
    rewrite lookup_store_bytes. case_decide.
    + by rewrite lookup_insert_ne, lookup_store_bytes, decide_True by lia.
    + destruct (decide (dst + Z.of_nat (length l) = a)) as [<-|].
      * by rewrite !lookup_insert_eq.
      * by rewrite !lookup_insert_ne, lookup_store_bytes, decide_False by lia.
  - intros i x Hi. apply lookup_lt_Some in Hi as Hlt.
    rewrite lookup_insert_ne by lia. by apply Hb.
  - apply mapped_insert. eapply mapped_sub; [done|lia|lia].
  - done.
Qed.

Lemma strlen_loop_ok m p s fuel :
  cstr m p s → (length s < fuel)%nat →
  strlen_loop fuel m p = Ok (p + Z.of_nat (length s)).
Proof.
  revert p s. induction fuel as [|f IH]; intros p s Hs Hf; [lia|].
  destruct s as [|c s]; cbn [strlen_loop].
  - apply cstr_nil in Hs. rewrite (load_ok _ _ _ Hs), bind_ok. cbn. f_equal. lia.
  - apply cstr_cons in Hs as (Hc & H0 & Hs). rewrite (load_ok _ _ _ H0), bind_ok.
    rewrite (proj2 (truthy_true c)) by lia. cbn in Hf.
    rewrite (IH _ s) by (done || lia). f_equal. cbn. lia.
Qed.

Lemma strlen_ok m p s fuel :
  cstr m p s → (length s < fuel)%nat → Z.of_nat (length s) < 2 ^ 32 →
  strlen fuel m p = Ok (Z.of_nat (length s)).
Proof.
  intros Hs Hf Hl. unfold strlen. rewrite (strlen_loop_ok _ _ s), bind_ok by done.
  f_equal. rewrite u32_small; lia.
Qed.

Lemma strcpy_loop_ok m dst src s fuel :
  cstr m src s → mapped m dst (Z.of_nat (length s) + 1) →
  (dst < src ∨ src + Z.of_nat (length s) < dst) → (length s < fuel)%nat →
  strcpy_loop fuel m dst src = Ok (store_bytes m dst (s ++ [0])).
Proof.
  revert m dst src s. induction fuel as [|f IH]; intros m dst src s Hs Hd Ho Hf; [lia|].
  destruct s as [|c s]; cbn [strcpy_loop app length] in *.
  - apply cstr_nil in Hs. rewrite (load_ok _ _ _ Hs), bind_ok. cbn.
    apply store_ok, Hd. lia.
  - apply cstr_cons in Hs as (Hc & H0 & Hs). rewrite (load_ok _ _ _ H0), bind_ok.
    rewrite (proj2 (truthy_true c)) by lia.
    rewrite store_ok, bind_ok by (apply Hd; lia). cbn [store_bytes].
    apply IH; [|apply mapped_insert; eapply mapped_sub; [done|lia|lia]|lia|lia].
    change (<[dst:=c]> m) with (store_bytes m dst [c]).
    apply cstr_store_bytes_ne; [cbn; lia|done].
Qed.

Lemma strncpy_loop_ok m dst src s num :
  cstr m src s → mapped m dst (Z.of_nat (min num (length s)) + 1) →
  (dst < src ∨ src + Z.of_nat (length s) < dst) →
  strncpy_loop num m dst src = Ok (store_bytes m dst (take num s ++ [0])).
Proof.
  revert m dst src s. induction num as [|n IH]; intros m dst src s Hs Hd Ho;
    destruct s as [|c s]; cbn [strncpy_loop app length take] in *.
  1,3: apply cstr_nil in Hs; rewrite (load_ok _ _ _ Hs), bind_ok; cbn;
    apply store_ok, Hd; lia.
  all: apply cstr_cons in Hs as (Hc & H0 & Hs); rewrite (load_ok _ _ _ H0), bind_ok;
    rewrite (proj2 (truthy_true c)) by lia.
  - apply store_ok, Hd. lia.
  - rewrite store_ok, bind_ok by (apply Hd; lia). cbn [store_bytes].
    apply IH; [|apply mapped_insert; eapply mapped_sub; [done|lia|lia]|lia].
    change (<[dst:=c]> m) with (store_bytes m dst [c]).
    apply cstr_store_bytes_ne; [cbn; lia|done].
Qed.
End loops.

Lemma memmove_ok (m : mem) (dest src : Z) (l : list Z) :
  0 < dest < 2 ^ 32 → 0 < src < 2 ^ 32 → Z.of_nat (length l) < 2 ^ 31 →
  bytes_at m src l → mapped m dest (Z.of_nat (length l)) →
  memmove m dest src (Z.of_nat (length l)) = Ok (store_bytes m dest l).
Proof.
  intros Hd Hs Hn Hb Hm. unfold memmove. rewrite (s32_small (Z.of_nat _)) by lia.
  case_if.
  - destruct E as [E|E]; breflect.
    + subst dest. f_equal. apply map_eq. intros a. rewrite lookup_store_bytes.
      case_decide as Ha; [|done].
      destruct (lookup_lt_is_Some_1' l (Z.to_nat (a - src))) as [x Hx]; [lia|].
      rewrite Hx. apply Hb in Hx. rewrite <- Hx. f_equal. lia.
    + destruct l; [done|cbn in *; lia].
  - case_if; [rewrite Nat2Z.id; apply copy_backward_ok; auto with lia|].
    case_if; [rewrite Nat2Z.id; apply copy_forward_ok; auto with lia|].
    unfold memcpy. rewrite !(proj2 (truthy_true _)) by lia. cbn [andb].
    rewrite Nat2Z.id. apply copy_forward_ok; [done|done|].
    assert (s32 (dest - src) ≤ dest - src ∨ dest < src) by
      (unfold s32; Z.div_mod_to_equations; lia).
    lia.
Qed.

(** [memmove] is correct for every overlap of the two regions: the destination
    receives the bytes the source held before the call, and no other byte changes. *)
Theorem memmove_snapshot (m : mem) (dest src : Z) (l : list Z) :
  0 < dest < 2 ^ 32 → 0 < src < 2 ^ 32 → Z.of_nat (length l) < 2 ^ 31 →
  bytes_at m src l → mapped m dest (Z.of_nat (length l)) →
  memmove m dest src (Z.of_nat (length l)) = Ok (store_bytes m dest l).
Proof. apply memmove_ok. Qed.

Lemma memmove_snapshot_witness :
  memmove (mem_of 100 [1;2;3;4;5]) 102 100 3 =
    Ok (store_bytes (mem_of 100 [1;2;3;4;5]) 102 [1;2;3]).
Proof. apply (memmove_snapshot _ 102 100 [1;2;3]); try lia; try mem_check; cbn; lia. Defined.

(** ** Comparison *)

Lemma strcmp_diff m p1 p2 s t fuel :
  cstr m p1 s → cstr m p2 t → (length s < fuel)%nat →
  strcmp fuel m p1 p2 = Ok (str_diff s t).
Proof.
  revert p1 p2 s t. induction fuel as [|f IH]; intros p1 p2 s t Hs Ht Hf; [lia|].
  unfold strcmp in *.
  destruct s as [|c s]; [apply cstr_nil in Hs as H0|apply cstr_cons in Hs as (Hc & H0 & Hs')].
  all: cbn [strcmp_loop]; rewrite (load_ok _ _ _ H0), bind_ok.
  all: destruct t as [|d t];
    [apply cstr_nil in Ht as H1|apply cstr_cons in Ht as (Hd & H1 & Ht')].
  1,2: cbn; by rewrite (load_ok _ _ _ H0), bind_ok, (load_ok _ _ _ H1).
  all: rewrite (proj2 (truthy_true c)), (load_ok _ _ _ H1), bind_ok by lia; cbn [str_diff].
  - case_if; [lia|]. cbn. by rewrite (load_ok _ _ _ H0), bind_ok, (load_ok _ _ _ H1).
  - case_if; [apply IH; [done|done|cbn in Hf; lia]|].
    cbn. by rewrite (load_ok _ _ _ H0), bind_ok, (load_ok _ _ _ H1).
Qed.

(** [strcmp] returns on two terminated strings; its result is 0 exactly when the
    strings are equal and negative exactly when the first one is lexicographically
    smaller (as unsigned bytes). *)
Theorem strcmp_correct (m : mem) (p1 p2 : Z) (s t : list Z) (fuel : nat) :
  cstr m p1 s → cstr m p2 t → (length s < fuel)%nat →
  ∃ r, strcmp fuel m p1 p2 = Ok r ∧ (r = 0 ↔ s = t) ∧ (r < 0 ↔ str_lt s t).
Proof.
  intros Hs Ht Hf. exists (str_diff s t). split; [by apply strcmp_diff|].
  destruct Hs as [Hs _], Ht as [Ht _].
  auto using str_diff_zero, str_diff_neg.
Qed.

Lemma strcmp_correct_witness :
  ∃ r, strcmp 5 (mem_of 100 [97;98;0;97;99;0]) 100 103 = Ok r ∧
    (r = 0 ↔ [97;98] = [97;99]) ∧ (r < 0 ↔ str_lt [97;98] [97;99]).
Proof. apply (strcmp_correct _ 100 103 [97;98] [97;99] 5); try mem_check; cbn; lia. Defined.

(** ** Bounded copies *)

(** [strncpy] stores the first [num] characters of the source followed by a
    terminator, [min num (strlen source) + 1] bytes in all: one byte more than [num]
    when the source does not fit, and no padding when it does. *)
Theorem strncpy_writes (m : mem) (dest src : Z) (s : list Z) (num : Z) :
  cstr m src s → 0 ≤ num → dest ≠ 0 →
  mapped m dest (Z.min num (Z.of_nat (length s)) + 1) →
  (dest < src ∨ src + Z.of_nat (length s) < dest) →
  strncpy m dest src num =
    Ok (dest, store_bytes m dest (take (Z.to_nat num) s ++ [0])).
Proof.
  intros Hs Hn Hd Hm Ho. unfold strncpy. rewrite (proj2 (Z.eqb_neq _ _) Hd).
  rewrite (strncpy_loop_ok _ _ _ s); [done|done| |done].
  by replace (Z.of_nat (_ `min` _)) with (Z.min num (Z.of_nat (length s))) by lia.
Qed.

Lemma strncpy_writes_witness :
  strncpy (mem_of 100 [97;98;99;0;7;7;7;7]) 104 100 2 =
    Ok (104, store_bytes (mem_of 100 [97;98;99;0;7;7;7;7]) 104 [97;98;0]).
Proof. apply (strncpy_writes _ 104 100 [97;98;99] 2); try mem_check; cbn; lia. Defined.

(** A destination object of exactly [num] bytes is overrun by [strncpy] as soon
    as the source has [num] characters: the terminator is stored at [dest + num]. *)
Theorem strncpy_overruns (m : mem) (dest src : Z) (s : list Z) (num : nat) :
  cstr m src s → dest ≠ 0 → (num ≤ length s)%nat →
  mapped m dest (Z.of_nat num) → m !! (dest + Z.of_nat num) = None →
  (dest < src ∨ src + Z.of_nat (length s) < dest) →
  strncpy m dest src (Z.of_nat num) = Fault.
Proof.
  intros Hs Hd Hlen Hm Hend Ho. unfold strncpy. rewrite (proj2 (Z.eqb_neq _ _) Hd).
  rewrite Nat2Z.id. enough (strncpy_loop num m dest src = Fault) as -> by done. clear Hd.
  revert m dest src s Hs Hlen Hm Hend Ho.
  induction num as [|n IH]; intros m dest src s Hs Hlen Hm Hend Ho.
  - rewrite Z.add_0_r in Hend. destruct s as [|c s]; cbn [strncpy_loop].
    + apply cstr_nil in Hs. rewrite (load_ok _ _ _ Hs), bind_ok. cbn.
      unfold store. by rewrite Hend.
    + apply cstr_cons in Hs as (Hc & H0 & _). rewrite (load_ok _ _ _ H0), bind_ok.
      rewrite (proj2 (truthy_true c)) by lia. unfold store. by rewrite Hend.
  - destruct s as [|c s]; [cbn in Hlen; lia|]. cbn [strncpy_loop].
    apply cstr_cons in Hs as (Hc & H0 & Hs). rewrite (load_ok _ _ _ H0), bind_ok.
    rewrite (proj2 (truthy_true c)) by lia. rewrite store_ok, bind_ok by (apply Hm; lia).
    cbn in Hlen, Ho. apply IH with (s := s); [| lia | | |lia].
    + change (<[dest:=c]> m) with (store_bytes m dest [c]).
      apply cstr_store_bytes_ne; [cbn; lia|done].
    + apply mapped_insert. eapply mapped_sub; [done|lia|lia].
    + rewrite lookup_insert_ne by lia. rewrite <- Hend. f_equal. lia.
Qed.

Lemma strncpy_overruns_witness :
  strncpy (mem_of 100 [97;98;99;0;7;7]) 104 100 2 = Fault.
Proof.
  apply (strncpy_overruns _ 104 100 [97;98;99] 2); try mem_check; try reflexivity; cbn; lia.
Defined.
