(* ===== verification/Ctype.v ===== *)
(** * libc/src/ctype/ctype.c: character classes

    [int] arguments and results are [Z]; a comparison yields 0 or 1. *)

From S2P Require Import Prelude.

Definition isspace (c : Z) : Z :=
  b2z ((c =? 9) || (c =? 10) || (c =? 11) || (c =? 12) || (c =? 13) || (c =? 32)).
Definition isalpha (c : Z) : Z :=
  b2z (((65 <=? c) && (c <=? 90)) || ((97 <=? c) && (c <=? 122))).
Definition isdigit (c : Z) : Z := b2z ((48 <=? c) && (c <=? 57)).
Definition isalnum (c : Z) : Z := b2z (truthy (isalpha c) || truthy (isdigit c)).
Definition isblank (c : Z) : Z := isspace c.
Definition iscntrl (c : Z) : Z := b2z ((c =? 127) || ((0 <=? c) && (c <=? 31))).
Definition isgraph (c : Z) : Z := b2z ((33 <=? c) && (c <=? 126)).
Definition islower (c : Z) : Z := b2z ((97 <=? c) && (c <=? 122)).
Definition isupper (c : Z) : Z := b2z ((65 <=? c) && (c <=? 90)).
Definition isprint (c : Z) : Z := b2z ((32 <=? c) && (c <=? 126)).
Definition ispunct (c : Z) : Z :=
  b2z (negb (c =? 32) && negb (truthy (isalnum c)) && truthy (isprint c)).
Definition isxdigit (c : Z) : Z :=
  b2z (truthy (isdigit c) || ((65 <=? c) && (c <=? 70)) || ((97 <=? c) && (c <=? 102))).
Definition toupper (c : Z) : Z := if truthy (islower c) then c - 97 + 65 else c.
Definition tolower (c : Z) : Z := if truthy (isupper c) then c - 65 + 97 else c.

Lemma truthy_b2z b : truthy (b2z b) = b.
Proof. by destruct b. Qed.


(** Reduces a goal about character classes to linear arithmetic. *)
Ltac ctype_solve :=
  unfold isspace, isalpha, isdigit, isalnum, isblank, iscntrl, isgraph, islower,
    isupper, isprint, ispunct, isxdigit, toupper, tolower in *;
  rewrite ?truthy_b2z in *; unfold b2z in *; rewrite ?truthy_b2z in *;
  repeat case_if; lia.

(** The classes partition the 7-bit characters the way the C locale does: each
    is exactly one of control, space, digit, upper case, lower case or punctuation;
    the graphic ones are the alphanumeric and punctuation ones, and the case
    conversions are inverse to each other on letters and the identity elsewhere. *)
Theorem ctype_partition (c : Z) :
  0 ≤ c < 128 →
  iscntrl c + b2z (c =? 32) + isdigit c + isupper c + islower c + ispunct c = 1 ∧
  isgraph c = isalnum c + ispunct c ∧
  isprint c = isgraph c + b2z (c =? 32) ∧
  (islower c = 1 → isupper (toupper c) = 1 ∧ tolower (toupper c) = c) ∧
  (isupper c = 1 → islower (tolower c) = 1 ∧ toupper (tolower c) = c) ∧
  (isalpha c = 0 → toupper c = c ∧ tolower c = c).
Proof.
  intros Hc.
  assert (H : Forall (λ c,
    iscntrl c + b2z (c =? 32) + isdigit c + isupper c + islower c + ispunct c = 1 ∧
    isgraph c = isalnum c + ispunct c ∧
    isprint c = isgraph c + b2z (c =? 32) ∧
    (islower c = 1 → isupper (toupper c) = 1 ∧ tolower (toupper c) = c) ∧
    (isupper c = 1 → islower (tolower c) = 1 ∧ toupper (tolower c) = c) ∧
    (isalpha c = 0 → toupper c = c ∧ tolower c = c)) (Z.of_nat <$> seq 0 128)).
  { apply Forall_fmap, Forall_seq. intros j Hj. cbn in Hj.
    do 128 (destruct j as [|j]; [vm_compute; intuition congruence|]). lia. }
  rewrite Forall_forall in H. apply (H c). apply list_elem_of_fmap.
  exists (Z.to_nat c). split; [lia|]. apply elem_of_seq. lia.
Qed.

Lemma ctype_partition_witness : iscntrl 65 + isupper 65 = 1.
Proof. destruct (ctype_partition 65) as [H _]; [lia|]. vm_compute in H. exact H. Defined.
