(* ===== verification/CText.v ===== *)
(** * libc/src/string and libc/src/stdlib: searching, splitting, numbers

    [strstr], [strnstr], [strtok], [strtol], [atoi] and [itoa] on byte memory. *)

From S2P Require Import Prelude CMem CString Ctype.

(** ** strstr.c *)

(** The inner [while(1)]: does the string at [b] start at [a]? *)
Fixpoint strstr_match (fuel : nat) (m : mem) (a b : Z) : res bool :=
  match fuel with
  | O => OutOfFuel
  | S f =>
      cb ← load m b;
      if cb =? 0 then Ok true
      else
        ca ← load m a;
        if negb (ca =? cb) then Ok false else strstr_match f m (a + 1) (b + 1)
  end.

Fixpoint strstr_loop (fuel inner : nat) (m : mem) (string substring : Z) : res Z :=
  match fuel with
  | O => OutOfFuel
  | S f =>
      c ← load m string;
      if truthy c then
        b ← load m substring;
        if negb (c =? b) then strstr_loop f inner m (string + 1) substring
        else
          found ← strstr_match inner m string substring;
          if (found : bool) then Ok string
          else strstr_loop f inner m (string + 1) substring
      else Ok 0
  end.

Definition strstr (fuel : nat) (m : mem) (string substring : Z) : res Z :=
  b ← load m substring;
  if b =? 0 then Ok string else strstr_loop fuel fuel m string substring.

(** ** strnstr.c *)

(** The inner [do ... while (sc != c)]: returns the position after the matching
    character and the remaining count, or [None] for [return NULL]. *)
Fixpoint strnstr_skip (fuel : nat) (m : mem) (s c slen : Z) : res (option (Z * Z)) :=
  match fuel with
  | O => OutOfFuel
  | S f =>
      sc ← load m s;
      if (sc =? 0) || (slen <? 1) then Ok None
      else if sc =? c then Ok (Some (s + 1, u32 (slen - 1)))
      else strnstr_skip f m (s + 1) c (u32 (slen - 1))
  end.

Fixpoint strnstr_loop (fuel inner : nat) (m : mem) (s find c len slen : Z) : res Z :=
  match fuel with
  | O => OutOfFuel
  | S f =>
      r ← strnstr_skip inner m s c slen;
      match r with
      | None => Ok 0
      | Some (s', slen') =>
          if slen' <? len then Ok 0
          else
            d ← strncmp m s' find len;
            if d =? 0 then Ok (s' - 1) else strnstr_loop f inner m s' find c len slen'
      end
  end.

Definition strnstr (fuel : nat) (m : mem) (s find slen : Z) : res Z :=
  c ← load m find;
  if truthy c then
    len ← strlen fuel m (find + 1);
    strnstr_loop fuel fuel m s (find + 1) c len slen
  else Ok s.

(** ** strtok.c *)

Fixpoint is_delim (fuel : nat) (m : mem) (c delim : Z) : res bool :=
  match fuel with
  | O => OutOfFuel
  | S f =>
      d ← load m delim;
      if d =? 0 then Ok false
      else if c =? d then Ok true else is_delim f m c (delim + 1)
  end.

(** The first [while(1)]: skips delimiters; [None] at the end of the string. *)
Fixpoint strtok_skip (fuel inner : nat) (m : mem) (s delim : Z) : res (option Z) :=
  match fuel with
  | O => OutOfFuel
  | S f =>
      c ← load m s;
      d ← is_delim inner m c delim;
      if (d : bool) then strtok_skip f inner m (s + 1) delim
      else if c =? 0 then Ok None else Ok (Some s)
  end.

(** The second [while(1)]: ends the token; returns the new [backup_string]. *)
Fixpoint strtok_end (fuel inner : nat) (m : mem) (s delim : Z) : res (Z * mem) :=
  match fuel with
  | O => OutOfFuel
  | S f =>
      c ← load m s;
      if c =? 0 then Ok (s, m)
      else
        d ← is_delim inner m c delim;
        if (d : bool) then m' ← store m s 0; Ok (s + 1, m')
        else strtok_end f inner m (s + 1) delim
  end.

(** [strtok backup srcString delim] returns the token, the new value of the static
    [backup_string] and the memory. *)
Definition strtok (fuel : nat) (m : mem) (backup srcString delim : Z)
    : res (Z * Z * mem) :=
  let src := if srcString =? 0 then backup else srcString in
  if src =? 0 then Ok (0, backup, m)
  else
    r ← strtok_skip fuel fuel m src delim;
    match r with
    | None => Ok (0, backup, m)
    | Some ret =>
        '(b, m') ← strtok_end fuel fuel m ret delim;
        Ok (ret, b, m')
    end.

(** ** strtol.c ([long] has 32 bits) *)

Definition LONG_MAX : Z := 2 ^ 31 - 1.
Definition LONG_MIN : Z := - 2 ^ 31.

(** [do { c = ( unsigned char) *s++; } while (isspace(c));] *)
Fixpoint strtol_space (fuel : nat) (m : mem) (s : Z) : res (Z * Z) :=
  match fuel with
  | O => OutOfFuel
  | S f =>
      c ← load m s;
      if truthy (isspace c) then strtol_space f m (s + 1) else Ok (c, s + 1)
  end.

(** The value of a digit character, [None] where the loop breaks. *)
Definition digit_value (c base : Z) : option Z :=
  let v :=
    if truthy (isdigit c) then Some (c - 48)
    else if truthy (isalpha c) then
      Some (if truthy (isupper c) then c - (65 - 10) else c - (97 - 10))
    else None in
  match v with
  | Some d => if base <=? d then None else Some d
  | None => None
  end.

(** One accumulation step: the new accumulator and [any]. *)
Definition strtol_accumulate (neg : bool) (base cutoff cutlim acc any d : Z) : Z * Z :=
  if any <? 0 then (acc, any)
  else if neg then
    if (acc <? cutoff) || ((acc =? cutoff) && (cutlim <? d)) then (LONG_MIN, -1)
    else (acc * base - d, 1)
  else
    if (cutoff <? acc) || ((acc =? cutoff) && (cutlim <? d)) then (LONG_MAX, -1)
    else (acc * base + d, 1).

Fixpoint strtol_loop (fuel : nat) (m : mem) (neg : bool) (base cutoff cutlim : Z)
    (s c acc any : Z) : res (Z * Z * Z) :=
  match fuel with
  | O => OutOfFuel
  | S f =>
      match digit_value c base with
      | None => Ok (acc, any, s)
      | Some d =>
          let '(acc', any') := strtol_accumulate neg base cutoff cutlim acc any d in
          c' ← load m s;
          strtol_loop f m neg base cutoff cutlim (s + 1) c' acc' any'
      end
  end.

(** Cut-off and last digit of the limit; C's division truncates. *)
Definition strtol_limits (neg : bool) (base : Z) : Z * Z :=
  let limit := if neg then LONG_MIN else LONG_MAX in
  let cutlim := Z.rem limit base in
  let cutoff := Z.quot limit base in
  if neg then
    if 0 <? cutlim then (cutoff + 1, - (cutlim - base)) else (cutoff, - cutlim)
  else (cutoff, cutlim).

(** The sign, if any: whether it is negative, the next character and position. *)
Definition strtol_sign (m : mem) (c s : Z) : res (bool * Z * Z) :=
  if c =? 45 then c' ← load m s; Ok (true, s8 c', s + 1)
  else if c =? 43 then c' ← load m s; Ok (false, s8 c', s + 1)
  else Ok (false, c, s).

(** The part after the sign: the base prefix, the limits and the digits. *)
Definition strtol_number (fuel : nat) (m : mem) (nptr base0 : Z) (neg : bool) (c s : Z)
    : res (Z * Z) :=
  '(c, s, base) ←
    (if ((base0 =? 0) || (base0 =? 16)) && (c =? 48) then
       x ← load m s;
       if (x =? 120) || (x =? 88) then
         c' ← load m (s + 1); Ok (s8 c', s + 2, 16)
       else Ok (c, s, base0)
     else Ok (c, s, base0) : res (Z * Z * Z));
  let base := if base =? 0 then (if c =? 48 then 8 else 10) else base in
  let '(cutoff, cutlim) := strtol_limits neg base in
  '(acc, any, s) ← strtol_loop fuel m neg base cutoff cutlim s c 0 0;
  Ok (acc, if truthy any then s - 1 else nptr).

(** Returns the value and [*endptr]. *)
Definition strtol (fuel : nat) (m : mem) (nptr base0 : Z) : res (Z * Z) :=
  '(c, s) ← strtol_space fuel m nptr;
  '(neg, c, s) ← strtol_sign m c s;
  strtol_number fuel m nptr base0 neg c s.

(** ** atoi.c *)

(** [for (i = 0; str[i] != 0; ++i) res = res * 10 + str[i] - '0';] *)
Fixpoint atoi_loop (fuel : nat) (m : mem) (p acc : Z) : res Z :=
  match fuel with
  | O => OutOfFuel
  | S f =>
      c ← load m p;
      if c =? 0 then Ok acc
      else atoi_loop f m (p + 1) (s32 (acc * 10 + s8 c - 48))
  end.

Definition atoi (fuel : nat) (m : mem) (str : Z) : res Z := atoi_loop fuel m str 0.

(** The [do ... while ((n /= radix) > 0)] of [itoa]: stores the digits from the
    least significant one and returns the index after the last. *)
Fixpoint itoa_digits (fuel : nat) (m : mem) (s i n radix : Z) : res (Z * mem) :=
  match fuel with
  | O => OutOfFuel
  | S f =>
      let digit := Z.rem n radix in
      let ch := if digit <? 10 then digit + 48 else digit + 97 in
      m' ← store m (s + i) (u8 ch);
      let n' := Z.quot n radix in
      if 0 <? n' then itoa_digits f m' s (i + 1) n' radix else Ok (i + 1, m')
  end.

Definition itoa (fuel : nat) (m : mem) (n s radix : Z) : res (Z * mem) :=
  let n1 := if n <? 0 then s32 (- n) else n in
  '(i, m1) ← itoa_digits fuel m s 0 n1 radix;
  '(i, m2) ← (if n <? 0 then m' ← store m1 (s + i) 45; Ok (i + 1, m')
              else Ok (i, m1) : res (Z * mem));
  m3 ← store m2 (s + i) 0;
  m4 ← reverse fuel m3 s;
  Ok (s, m4).

(** ** abs.c *)

Definition abs (num : Z) : Z := if num <? 0 then s32 (- num) else num.
