(* ===== verification/CTextFacts.v ===== *)
(** * Correctness of the searching, splitting and number routines *)

From S2P Require Import Prelude CMem CString CStringFacts Ctype CText.

(** ** strcspn *)

Section strcspn.
Implicit Types (m : mem) (s set : list Z).

Lemma byteset_get_set bs b c :
  length bs = 8%nat → 0 ≤ b < 256 → 0 ≤ c < 256 →
  byteset_get (byteset_set bs b) c = (b =? c) || byteset_get bs c.
Proof.
  intros Hl Hb Hc. unfold byteset_get, byteset_set.
  destruct (lookup_lt_is_Some_1' bs (Z.to_nat (c / 32))) as [w Hw].
  { rewrite Hl. apply Nat2Z.inj_lt. rewrite Z2Nat.id by (apply Z.div_pos; lia).
    apply Z.div_lt_upper_bound; lia. }
  rewrite list_lookup_alter, Hw.
  pose proof (Z.mod_pos_bound b 32). pose proof (Z.mod_pos_bound c 32).
  assert (0 ≤ b / 32 ∧ 0 ≤ c / 32) as [??] by (split; apply Z.div_pos; lia).
  case_decide as E; cbn.
  - rewrite E, Hw. cbn. rewrite !truthy_land_bit, testbit_lor_bit by lia. f_equal.
    apply Z2Nat.inj in E; [|done|done].
    destruct (Z.eqb_spec b c) as [->|Hne]; [apply Z.eqb_refl|].
    apply Z.eqb_neq. intros ?. apply Hne.
    rewrite (Z.div_mod b 32), (Z.div_mod c 32) by lia. congruence.
  - destruct (Z.eqb_spec b c) as [->|]; [done|]. done.
Qed.

Lemma byteset_set_length bs b : length (byteset_set bs b) = length bs.
Proof. apply length_alter. Qed.

Lemma strcspn_fill_ok m bs p set fuel :
  cstr m p set → (length set < fuel)%nat → length bs = 8%nat →
  ∃ bs', strcspn_fill fuel m bs p = Ok bs' ∧
    ∀ c, 0 ≤ c < 256 → byteset_get bs' c = mem_byte set c || byteset_get bs c.
Proof.
  revert p set bs. induction fuel as [|f IH]; intros p set bs Hs Hf Hl; [lia|].
  destruct set as [|b set]; cbn [strcspn_fill].
  - apply cstr_nil in Hs. rewrite (load_ok _ _ _ Hs), bind_ok. exists bs. split; [done|].
    intros c _. unfold mem_byte. rewrite bool_decide_eq_false_2; [done|]. apply not_elem_of_nil.
  - apply cstr_cons in Hs as (Hb & H0 & Hs). rewrite (load_ok _ _ _ H0), bind_ok.
    rewrite (proj2 (truthy_true b)) by lia. cbn in Hf.
    destruct (IH (p + 1) set (byteset_set bs b)) as (bs' & -> & Hbs');
      [done|lia|by rewrite byteset_set_length|].
    exists bs'. split; [done|]. intros c Hc.
    rewrite Hbs', byteset_get_set by (done || lia). unfold mem_byte.
    rewrite orb_assoc. f_equal.
    destruct (Z.eqb_spec b c) as [->|Hne].
    + rewrite orb_true_r. symmetry. apply bool_decide_eq_true_2. by left.
    + rewrite orb_false_r. apply bool_decide_ext. rewrite elem_of_cons. naive_solver.
Qed.

Lemma strcspn_scan_ok m bs p s fuel :
  cstr m p s → (length s < fuel)%nat →
  strcspn_scan fuel m bs p = Ok (p + Z.of_nat (span_not (byteset_get bs) s)).
Proof.
  revert p s. induction fuel as [|f IH]; intros p s Hs Hf; [lia|].
  destruct s as [|c s]; cbn [strcspn_scan span_not].
  - apply cstr_nil in Hs. rewrite (load_ok _ _ _ Hs), bind_ok. cbn. f_equal. lia.
  - apply cstr_cons in Hs as (Hc & H0 & Hs). rewrite (load_ok _ _ _ H0), bind_ok.
    rewrite (proj2 (truthy_true c)) by lia. cbn [andb]. cbn in Hf.
    destruct (byteset_get bs c); cbn [negb]; [f_equal; lia|].
    rewrite (IH _ s) by (done || lia). f_equal. lia.
Qed.

Lemma s8_inj x y : 0 ≤ x < 256 → 0 ≤ y < 256 → s8 x = s8 y → x = y.
Proof. unfold s8. intros. Z.div_mod_to_equations. lia. Qed.

Lemma strchrnul_ok m p s c fuel :
  cstr m p s → 0 ≤ c < 256 → (length s < fuel)%nat →
  strchrnul fuel m p (s8 c) = Ok (p + Z.of_nat (span_not (Z.eqb c) s)).
Proof.
  revert p s. induction fuel as [|f IH]; intros p s Hs Hc Hf; [lia|].
  destruct s as [|x s]; cbn [strchrnul span_not].
  - apply cstr_nil in Hs. rewrite (load_ok _ _ _ Hs), bind_ok. cbn. f_equal. lia.
  - apply cstr_cons in Hs as (Hx & H0 & Hs). rewrite (load_ok _ _ _ H0), bind_ok.
    rewrite (proj2 (truthy_true x)) by lia. cbn in Hf.
    destruct (Z.eqb_spec c x) as [->|Hne].
    + rewrite Z.eqb_refl. f_equal. lia.
    + rewrite (proj2 (Z.eqb_neq (s8 c) (s8 x))) by (intros ?%s8_inj; lia).
      rewrite (IH _ s) by (done || lia). f_equal. lia.
Qed.

Lemma span_not_ext P Q s : Forall (λ c, P c = Q c) s → span_not P s = span_not Q s.
Proof. induction 1 as [|c s Hc _ IH]; cbn; [done|]. by rewrite Hc, IH. Qed.

Lemma span_not_le P s : (span_not P s ≤ length s)%nat.
Proof. induction s as [|c s IH]; cbn; [lia|]. destruct (P c); lia. Qed.
End strcspn.

(** [strcspn], with its one-character shortcut and its 256-bit set, computes the
    length of the longest prefix free of the given characters. *)
Theorem strcspn_correct (m : mem) (p q : Z) (s set : list Z) (fuel : nat) :
  cstr m p s → cstr m q set → (length s < fuel)%nat → (length set < fuel)%nat →
  Z.of_nat (length s) < 2 ^ 32 →
  strcspn fuel m p q = Ok (Z.of_nat (span_not (mem_byte set) s)).
Proof.
  intros Hs Hq Hf1 Hf2 Hlen. unfold strcspn.
  pose proof (span_not_le (mem_byte set) s).
  assert (Hsm : u32 (p + Z.of_nat (span_not (mem_byte set) s) - p)
                = Z.of_nat (span_not (mem_byte set) s)) by (rewrite u32_small; lia).
  assert (Hchars : Forall (λ c, 0 < c < 256) s) by apply Hs.
  destruct set as [|a set].
  { apply cstr_nil in Hq. rewrite (load_ok _ _ _ Hq), bind_ok, truthy_0, bind_ok.
    rewrite (strchrnul_ok _ _ s 0), bind_ok by (done || lia).
    rewrite <- Hsm. do 5 f_equal. apply span_not_ext. eapply Forall_impl; [done|].
    intros c Hc. cbn beta in *. unfold mem_byte. rewrite bool_decide_eq_false_2 by apply not_elem_of_nil.
    apply Z.eqb_neq. lia. }
  apply cstr_cons in Hq as Hq'. destruct Hq' as (Ha & H0 & Hq1).
  rewrite (load_ok _ _ _ H0), bind_ok, (proj2 (truthy_true a)) by lia.
  destruct set as [|b set].
  { apply cstr_nil in Hq1. rewrite (load_ok _ _ _ Hq1), !bind_ok, truthy_0. cbn [negb].
    rewrite (strchrnul_ok _ _ s a), bind_ok by (done || lia).
    rewrite <- Hsm. do 5 f_equal. apply span_not_ext. apply Forall_true. intros c.
    unfold mem_byte. rewrite (bool_decide_ext _ (a = c)) by set_solver.
    destruct (Z.eqb_spec a c); [by rewrite bool_decide_eq_true_2|by rewrite bool_decide_eq_false_2]. }
  apply cstr_cons in Hq1 as (Hb & H1 & _).
  rewrite (load_ok _ _ _ H1), !bind_ok, (proj2 (truthy_true b)) by lia. cbn [negb].
  destruct (strcspn_fill_ok m (replicate 8 0) q (a :: b :: set) fuel Hq Hf2) as (bs & -> & Hbs);
    [done|]. rewrite bind_ok, (strcspn_scan_ok _ _ _ s), bind_ok by done.
  rewrite <- Hsm. do 5 f_equal. apply span_not_ext. eapply Forall_impl; [done|].
  intros c Hc. cbn beta in *. rewrite Hbs by lia.
  enough (byteset_get (replicate 8 0) c = false) as -> by apply orb_false_r.
  unfold byteset_get. destruct (replicate 8 0 !! _) as [w|] eqn:E; [|done].
  apply lookup_replicate in E as [-> _]. by rewrite Z.land_0_l.
Qed.

Lemma strcspn_correct_witness :
  strcspn 10 (store_bytes (mem_of 100 [97;98;47;99;0]) 200 [47;58;0]) 100 200 = Ok 2.
Proof.
  apply (strcspn_correct _ 100 200 [97;98;47;99] [47;58] 10); try mem_check; cbn; lia.
Defined.

(** ** strtok *)

(** The next token of a string and what follows its delimiter. *)
Definition next_token (dl s : list Z) : option (list Z * list Z) :=
  let s' := drop (span_not (λ c, negb (mem_byte dl c)) s) s in
  match s' with
  | [] => None
  | _ => let k := span_not (mem_byte dl) s' in Some (take k s', drop (S k) s')
  end.

Section strtok.
Implicit Types (m : mem) (s dl : list Z).

Lemma mem_byte_cons dl d c : mem_byte (d :: dl) c = (c =? d) || mem_byte dl c.
Proof.
  unfold mem_byte. destruct (Z.eqb_spec c d) as [->|Hne]; cbn [orb].
  - apply bool_decide_eq_true_2. by left.
  - apply bool_decide_ext. rewrite elem_of_cons. tauto.
Qed.

Lemma mem_byte_nil c : mem_byte [] c = false.
Proof. apply bool_decide_eq_false_2, not_elem_of_nil. Qed.

Lemma mem_byte_0 dl : chars dl → mem_byte dl 0 = false.
Proof.
  intros H. apply bool_decide_eq_false_2. intros Hin.
  eapply Forall_forall in H; [|exact Hin]. cbn in H. lia.
Qed.

Lemma is_delim_ok m c q dl fuel :
  cstr m q dl → (length dl < fuel)%nat → is_delim fuel m c q = Ok (mem_byte dl c).
Proof.
  revert q dl. induction fuel as [|f IH]; intros q dl Hq Hf; [lia|].
  destruct dl as [|d dl]; cbn [is_delim].
  - apply cstr_nil in Hq. by rewrite (load_ok _ _ _ Hq), bind_ok, mem_byte_nil.
  - apply cstr_cons in Hq as (Hd & H0 & Hq). rewrite (load_ok _ _ _ H0), bind_ok.
    rewrite (proj2 (Z.eqb_neq d 0)), mem_byte_cons by lia. cbn in Hf.
    destruct (c =? d); cbn [orb]; [done|]. apply IH; [done|lia].
Qed.

Context (m : mem) (q : Z) (dl : list Z) (inner : nat).
Context (Hq : cstr m q dl) (Hin : (length dl < inner)%nat).

Lemma strtok_skip_ok p s fuel :
  cstr m p s → (length s < fuel)%nat →
  let k := span_not (λ c, negb (mem_byte dl c)) s in
  strtok_skip fuel inner m p q =
    Ok (match drop k s with [] => None | _ => Some (p + Z.of_nat k) end).
Proof.
  revert p s. induction fuel as [|f IH]; intros p s Hs Hf; [lia|].
  destruct s as [|c s]; cbn [strtok_skip span_not].
  - apply cstr_nil in Hs. rewrite (load_ok _ _ _ Hs), bind_ok.
    rewrite (is_delim_ok _ _ _ dl), bind_ok, mem_byte_0 by (done || apply Hq). done.
  - apply cstr_cons in Hs as (Hc & H0 & Hs). rewrite (load_ok _ _ _ H0), bind_ok.
    rewrite (is_delim_ok _ _ _ dl), bind_ok by done.
    destruct (mem_byte dl c); cbn [negb].
    + cbn in Hf. cbn zeta in IH. rewrite (IH _ s) by (done || lia). cbn [drop].
      destruct (drop _ s); [done|]. do 2 f_equal. lia.
    + rewrite (proj2 (Z.eqb_neq c 0)) by lia. cbn. do 2 f_equal. lia.
Qed.

Lemma strtok_end_ok p s fuel :
  cstr m p s → (length s < fuel)%nat →
  let k := span_not (mem_byte dl) s in
  ∃ b m', strtok_end fuel inner m p q = Ok (b, m') ∧
    cstr m' p (take k s) ∧ cstr m' b (drop (S k) s) ∧
    ∀ a, a < p ∨ p + Z.of_nat (length s) ≤ a → m' !! a = m !! a.
Proof.
  revert p s. induction fuel as [|f IH]; intros p s Hs Hf; [lia|].
  destruct s as [|c s]; cbn [strtok_end span_not].
  - apply cstr_nil in Hs as H0. rewrite (load_ok _ _ _ H0), bind_ok.
    exists p, m. by repeat split; try apply Hs.
  - apply cstr_cons in Hs as (Hc & H0 & Hs). rewrite (load_ok _ _ _ H0), bind_ok.
    rewrite (proj2 (Z.eqb_neq c 0)) by lia.
    rewrite (is_delim_ok _ _ _ dl), bind_ok by done.
    destruct (mem_byte dl c).
    + rewrite store_ok, bind_ok by eauto. exists (p + 1), (<[p := 0]> m).
      split; [done|]. cbn [take drop]. change (<[p:=0]> m) with (store_bytes m p [0]).
      split; [by apply cstr_nil; cbn; rewrite lookup_insert_eq|]. split.
      * apply cstr_store_bytes_ne; [cbn; lia|done].
      * intros a Ha. cbn in *. by rewrite lookup_insert_ne by lia.
    + cbn in Hf. destruct (IH (p + 1) s) as (b & m' & -> & Ht & Hd & Hu); [done|lia|].
      exists b, m'. split; [done|]. cbn [take drop]. split; [|split; [done|]].
      * apply cstr_cons. split; [done|]. split; [|done]. rewrite <- H0. apply Hu. lia.
      * intros a Ha. cbn in *. apply Hu. lia.
Qed.
End strtok.

(** One call of [strtok], starting at its argument or at the saved position,
    returns the next token as a terminated string, saves the position of what
    follows the delimiter, and touches no byte outside the string; it returns
    [NULL], with nothing changed, exactly when only delimiters are left. *)
Theorem strtok_next (m : mem) (backup srcString src q : Z) (s dl : list Z) (fuel : nat) :
  src = (if srcString =? 0 then backup else srcString) → src ≠ 0 →
  cstr m src s → cstr m q dl → (length s < fuel)%nat → (length dl < fuel)%nat →
  match next_token dl s with
  | None => strtok fuel m backup srcString q = Ok (0, backup, m)
  | Some (tok, rest) =>
      ∃ ret b m', strtok fuel m backup srcString q = Ok (ret, b, m') ∧
        cstr m' ret tok ∧ cstr m' b rest ∧
        ∀ a, a < src ∨ src + Z.of_nat (length s) ≤ a → m' !! a = m !! a
  end.
Proof.
  intros Hsrc H0 Hs Hq Hf1 Hf2. unfold next_token, strtok. rewrite <- Hsrc.
  rewrite (proj2 (Z.eqb_neq src 0)) by done.
  rewrite (strtok_skip_ok m q dl fuel Hq Hf2 src s) by done. rewrite bind_ok.
  set (k := span_not _ s).
  assert (Hk : (k ≤ length s)%nat) by apply span_not_le.
  destruct (drop k s) as [|c s'] eqn:Ed; [done|].
  rewrite <- (take_drop k s) in Hs. rewrite Ed in Hs.
  apply cstr_app in Hs as (_ & _ & Hs). rewrite length_take, Nat.min_l in Hs by lia.
  assert (Hlen : length (c :: s') = (length s - k)%nat) by (rewrite <- Ed; apply length_drop).
  destruct (strtok_end_ok m q dl fuel Hq Hf2 _ _ fuel Hs) as (b & m' & -> & Ht & Hd & Hu);
    [lia|]. rewrite bind_ok. exists (src + Z.of_nat k), b, m'. split_and!; [done..|].
  intros a Ha. apply Hu. lia.
Qed.

Lemma strtok_next_witness :
  ∃ ret b m', strtok 9 (mem_of 100 [47;97;98;47;99;0;47;0]) 0 100 106 = Ok (ret, b, m') ∧
    cstr m' ret [97;98] ∧ cstr m' b [99] ∧
    ∀ a, a < 100 ∨ 100 + 5 ≤ a → m' !! a = mem_of 100 [47;97;98;47;99;0;47;0] !! a.
Proof.
  apply (strtok_next (mem_of 100 [47;97;98;47;99;0;47;0]) 0 100 100 106 [47;97;98;47;99] [47] 9);
    try mem_check; try reflexivity; cbn; lia.
Defined.

(** ** strstr *)

Section strstr.
Implicit Types (m : mem) (s t : list Z).

Definition starts_with (t s : list Z) : bool := bool_decide (take (length t) s = t).

Lemma strstr_match_ok m a b s t fuel :
  cstr m a s → cstr m b t → (length t < fuel)%nat →
  strstr_match fuel m a b = Ok (starts_with t s).
Proof.
  unfold starts_with. revert a b s t.
  induction fuel as [|f IH]; intros a b s t Hs Ht Hf; [lia|].
  destruct t as [|d t]; cbn [strstr_match length take].
  - apply cstr_nil in Ht. rewrite (load_ok _ _ _ Ht), bind_ok. cbn.
    by rewrite bool_decide_eq_true_2.
  - apply cstr_cons in Ht as (Hd & H0 & Ht). rewrite (load_ok _ _ _ H0), bind_ok.
    rewrite (proj2 (Z.eqb_neq d 0)) by lia. cbn in Hf.
    destruct s as [|c s].
    + apply cstr_nil in Hs. rewrite (load_ok _ _ _ Hs), bind_ok.
      rewrite (proj2 (Z.eqb_neq 0 d)) by lia. cbn. by rewrite bool_decide_eq_false_2.
    + apply cstr_cons in Hs as (Hc & H1 & Hs). rewrite (load_ok _ _ _ H1), bind_ok.
      destruct (Z.eqb_spec c d) as [->|Hne]; cbn [negb].
      * rewrite (IH _ _ s t) by (done || lia). f_equal. apply bool_decide_ext.
        cbn. split; congruence.
      * rewrite bool_decide_eq_false_2; [done|cbn; congruence].
Qed.

Lemma strstr_loop_ok m p q s t fuel inner :
  cstr m p s → cstr m q t → t ≠ [] → (length s < fuel)%nat → (length t < inner)%nat →
  (∃ i, (i < length s)%nat ∧ strstr_loop fuel inner m p q = Ok (p + Z.of_nat i) ∧
     starts_with t (drop i s) = true ∧
     ∀ j, (j < i)%nat → starts_with t (drop j s) = false) ∨
  (strstr_loop fuel inner m p q = Ok 0 ∧ ∀ j, starts_with t (drop j s) = false).
Proof.
  intros Hs Ht Hne Hf Hi. revert p s Hs Hf.
  induction fuel as [|f IH]; intros p s Hs Hf; [lia|].
  destruct s as [|c s]; cbn [strstr_loop].
  - right. apply cstr_nil in Hs. rewrite (load_ok _ _ _ Hs), bind_ok. split; [done|].
    intros j. unfold starts_with. rewrite drop_nil, take_nil.
    apply bool_decide_eq_false_2. naive_solver.
  - apply cstr_cons in Hs as Hs'. destruct Hs' as (Hc & H0 & Hs').
    rewrite (load_ok _ _ _ H0), bind_ok, (proj2 (truthy_true c)) by lia.
    destruct t as [|d t]; [done|]. apply cstr_cons in Ht as Ht'. destruct Ht' as (Hd & H1 & _).
    rewrite (load_ok _ _ _ H1), bind_ok. rewrite (strstr_match_ok _ _ _ (c :: s) (d :: t))
      by done. rewrite bind_ok.
    set (step := if negb (c =? d) then _ else _).
    assert (Hstep : step = if starts_with (d :: t) (c :: s) then Ok p
                           else strstr_loop f inner m (p + 1) q).
    { subst step. destruct (Z.eqb_spec c d) as [->|Hcd]; cbn [negb]; [done|].
      unfold starts_with. rewrite bool_decide_eq_false_2; [done|]. cbn. congruence. }
    rewrite Hstep. clear step Hstep.
    destruct (starts_with (d :: t) (c :: s)) eqn:Hsw.
    + left. exists 0%nat. cbn. split_and!; [lia|f_equal; lia|done|lia].
    + cbn in Hf. destruct (IH (p + 1) s Hs') as [(i & Hlt & Hr & Hi1 & Hi2)|[Hr Hn]]; [lia|..].
      * left. exists (S i). cbn [length drop]. split_and!; [lia|rewrite Hr; f_equal; lia|done|].
        intros [|j] Hj; [done|]. apply Hi2. lia.
      * right. split; [done|]. intros [|j]; [done|]. apply Hn.
Qed.
End strstr.

(** [strstr] returns the address of the first occurrence of the substring, and
    [NULL] exactly when there is none. *)
Theorem strstr_first (m : mem) (p q : Z) (s t : list Z) (fuel : nat) :
  cstr m p s → cstr m q t → (length s < fuel)%nat → (length t < fuel)%nat →
  (∃ i, strstr fuel m p q = Ok (p + Z.of_nat i) ∧ starts_with t (drop i s) = true ∧
     ∀ j, (j < i)%nat → starts_with t (drop j s) = false) ∨
  (strstr fuel m p q = Ok 0 ∧ ∀ j, starts_with t (drop j s) = false).
Proof.
  intros Hs Ht Hf1 Hf2. unfold strstr. destruct t as [|d t].
  - left. exists 0%nat. apply cstr_nil in Ht. rewrite (load_ok _ _ _ Ht), bind_ok. cbn.
    split_and!; [f_equal; lia|by apply bool_decide_eq_true_2|lia].
  - apply cstr_cons in Ht as Ht'. destruct Ht' as (Hd & H0 & _).
    rewrite (load_ok _ _ _ H0), bind_ok, (proj2 (Z.eqb_neq d 0)) by lia.
    destruct (strstr_loop_ok m p q s (d :: t) fuel fuel Hs Ht) as [(i&?&?&?&?)|?]; eauto.
Qed.

Lemma strstr_first_witness :
  let m := mem_of 100 [97;98;97;99;0;97;99;0] in
  (∃ i, strstr 9 m 100 105 = Ok (100 + Z.of_nat i) ∧
     starts_with [97;99] (drop i [97;98;97;99]) = true ∧
     ∀ j, (j < i)%nat → starts_with [97;99] (drop j [97;98;97;99]) = false) ∨
  (strstr 9 m 100 105 = Ok 0 ∧ ∀ j, starts_with [97;99] (drop j [97;98;97;99]) = false).
Proof.
  apply (strstr_first _ 100 105 [97;98;97;99] [97;99] 9); try mem_check; cbn; lia.
Defined.
