(* ===== verification/CNumFacts.v ===== *)
(** * Correctness of [reverse], [itoa], [atoi] and [strtol] *)

From S2P Require Import Prelude CMem CString CStringFacts Ctype CText.

(** ** reverse *)

Section reverse.
Implicit Types (m : mem) (l : list Z).

Lemma store_bytes_id m p l : bytes_at m p l → store_bytes m p l = m.
Proof.
  intros H. apply map_eq. intros a. rewrite lookup_store_bytes. case_decide; [|done].
  destruct (lookup_lt_is_Some_1' l (Z.to_nat (a - p))) as [x Hx]; [lia|].
  rewrite Hx. apply H in Hx. rewrite <- Hx. f_equal. lia.
Qed.

(** The part of the string between the two indices is reversed in place. *)
Lemma reverse_loop_ok m p i mid fuel :
  bytes_at m (p + i) mid → (length mid < fuel)%nat →
  reverse_loop fuel m p i (i + Z.of_nat (length mid) - 1) =
    Ok (store_bytes m (p + i) (rev mid)).
Proof.
  revert m i mid. induction fuel as [|f IH]; intros m i mid Hb Hf; [lia|].
  cbn [reverse_loop]. destruct mid as [|x mid]; [|destruct mid as [|y mid _] using rev_ind].
  1,2: case_if; [cbn in *; lia|]; by rewrite store_bytes_id.
  case_if; [|cbn in *; rewrite length_app in *; cbn in *; lia].
  set (j := i + _ - 1).
  assert (Hj : p + j = p + i + 1 + Z.of_nat (length mid))
    by (subst j; cbn [length]; rewrite length_app; cbn; lia).
  apply bytes_at_cons in Hb as [Hx Hb]. apply bytes_at_app in Hb as [Hm Hy].
  apply bytes_at_cons in Hy as [Hy _].
  rewrite (load_ok _ _ _ Hx), bind_ok, Hj, (load_ok _ _ _ Hy), bind_ok.
  rewrite store_ok, bind_ok by eauto.
  rewrite store_ok, bind_ok by (rewrite lookup_insert_ne by lia; eauto).
  set (m2 := <[_ := x]> _).
  replace (j - 1) with (i + 1 + Z.of_nat (length mid) - 1) by lia.
  rewrite IH.
  - f_equal. subst m2. cbn [rev]. rewrite rev_app_distr. cbn [rev app].
    apply map_eq. intros a. rewrite !lookup_store_bytes.
    cbn [length]. rewrite length_app, !length_rev. cbn [length].
    destruct (decide (a = p + i)) as [->|]; [|destruct (decide (a = p + j)) as [->|]].
    + rewrite decide_False, decide_True, lookup_insert_ne, lookup_insert_eq by lia.
      by rewrite Z.sub_diag.
    + rewrite Hj, decide_False, decide_True, lookup_insert_eq by lia.
      replace (Z.to_nat _) with (S (length (rev mid))) by (rewrite length_rev; lia).
      symmetry. by apply (list_lookup_middle (rev mid) [] x).
    + case_decide; [rewrite decide_True by lia|].
      * replace (Z.to_nat (a - (p + i))) with (S (Z.to_nat (a - (p + (i + 1))))) by lia.
        by rewrite <- (lookup_app_l (rev mid) [x]) by (rewrite length_rev; lia).
      * rewrite decide_False by lia. by rewrite !lookup_insert_ne by lia.
  - intros k b Hk. apply lookup_lt_Some in Hk as Hlt. subst m2.
    rewrite !lookup_insert_ne by lia. rewrite <- (Hm k b Hk). f_equal. lia.
  - cbn in Hf. rewrite length_app in Hf. cbn in Hf. lia.
Qed.

Lemma reverse_ok m p s fuel :
  cstr m p s → (length s < fuel)%nat → Z.of_nat (length s) < 2 ^ 31 →
  reverse fuel m p = Ok (store_bytes m p (rev s)).
Proof.
  intros Hs Hf Hl. unfold reverse. rewrite (strlen_ok _ _ s), bind_ok by (done || lia).
  rewrite s32_small by lia. replace (_ - 1) with (0 + Z.of_nat (length s) - 1) by lia.
  destruct Hs as [_ Hs]. apply bytes_at_app in Hs as [Hs _].
  rewrite reverse_loop_ok, Z.add_0_r; by rewrite ?Z.add_0_r.
Qed.
End reverse.

(** ** itoa and atoi *)

(** Digits of a number, least significant first. *)
Fixpoint digits_rev (fuel : nat) (radix n : Z) : list Z :=
  match fuel with
  | O => []
  | S f => n mod radix :: (if 0 <? n / radix then digits_rev f radix (n / radix) else [])
  end.

(** The number the digits stand for. *)
Fixpoint value_rev (radix : Z) (ds : list Z) : Z :=
  match ds with [] => 0 | d :: ds' => d + radix * value_rev radix ds' end.

(** [itoa]'s character of a digit. *)
Definition itoa_char (d : Z) : Z := u8 (if d <? 10 then d + 48 else d + 97).

Section itoa.
Context (radix : Z) (Hr : 2 ≤ radix).

Lemma digits_rev_value fuel n :
  0 ≤ n < 2 ^ Z.of_nat fuel → value_rev radix (digits_rev fuel radix n) = n.
Proof.
  revert n. induction fuel as [|f IH]; intros n Hn; cbn [digits_rev value_rev].
  - cbn in Hn. lia.
  - rewrite Nat2Z.inj_succ, Z.pow_succ_r in Hn by lia.
    pose proof (Z.div_mod n radix). pose proof (Z.mod_pos_bound n radix).
    case_if; cbn [value_rev].
    + rewrite IH; [lia|]. split; [lia|]. apply Z.div_lt_upper_bound; nia.
    + assert (0 ≤ n / radix) by (apply Z.div_pos; lia). nia.
Qed.

Lemma digits_rev_range fuel n : Forall (λ d, 0 ≤ d < radix) (digits_rev fuel radix n).
Proof.
  revert n. induction fuel as [|f IH]; intros n; cbn; constructor.
  - apply Z.mod_pos_bound. lia.
  - case_if; auto.
Qed.

Lemma digits_rev_length fuel n k :
  0 ≤ n < radix ^ Z.of_nat (S k) → (length (digits_rev fuel radix n) ≤ S k)%nat.
Proof.
  revert n k. induction fuel as [|f IH]; intros n k Hn; cbn [digits_rev length]; [lia|].
  rewrite Nat2Z.inj_succ, Z.pow_succ_r in Hn by lia.
  case_if; cbn [length]; [|lia]. destruct k as [|k].
  - cbn in Hn. rewrite Z.div_small in E by lia. lia.
  - apply le_n_S, IH. split; [lia|]. apply Z.div_lt_upper_bound; lia.
Qed.

Lemma itoa_digits_ok m s i n fuel :
  0 ≤ n < 2 ^ Z.of_nat fuel → (0 < fuel)%nat →
  mapped m (s + i) (Z.of_nat (length (digits_rev fuel radix n))) →
  let ds := digits_rev fuel radix n in
  itoa_digits fuel m s i n radix =
    Ok (i + Z.of_nat (length ds), store_bytes m (s + i) (itoa_char <$> ds)).
Proof.
  revert m i n. induction fuel as [|f IH]; intros m i n Hn Hf Hm; [lia|].
  cbn [itoa_digits digits_rev length] in *.
  rewrite Z.rem_mod_nonneg, Z.quot_div_nonneg by lia.
  rewrite store_ok, bind_ok by (apply Hm; cbn [length]; lia).
  fold (itoa_char (n mod radix)).
  rewrite Nat2Z.inj_succ, Z.pow_succ_r in Hn by lia.
  case_if; [|done].
  cbn [length] in Hm. assert (0 < f)%nat.
  { destruct f; [|lia]. cbn in Hn. rewrite Z.div_small in E by lia. lia. }
  cbn zeta in IH. rewrite IH; [|split; [lia|apply Z.div_lt_upper_bound; nia]|done|].
  - cbn [length fmap list_fmap store_bytes]. do 2 f_equal; [lia|]. f_equal. lia.
  - apply mapped_insert. eapply mapped_sub; [done|lia|lia].
Qed.

Lemma value_rev_app ds d :
  value_rev radix (ds ++ [d]) = value_rev radix ds + radix ^ Z.of_nat (length ds) * d.
Proof.
  induction ds as [|x ds IH]; cbn [app value_rev length]; [cbn; lia|].
  rewrite IH, Nat2Z.inj_succ, Z.pow_succ_r by lia. lia.
Qed.

Lemma value_rev_nonneg ds : Forall (λ d, 0 ≤ d < radix) ds → 0 ≤ value_rev radix ds.
Proof. induction 1; cbn; nia. Qed.
End itoa.

(** The loop of [atoi] on a string of digits, most significant first. *)
Lemma atoi_loop_ok m p ds acc fuel :
  cstr m p ((λ d, d + 48) <$> rev ds) → Forall (λ d, 0 ≤ d < 10) ds →
  (length ds < fuel)%nat → 0 ≤ acc →
  acc * 10 ^ Z.of_nat (length ds) + value_rev 10 ds < 2 ^ 31 →
  atoi_loop fuel m p acc = Ok (acc * 10 ^ Z.of_nat (length ds) + value_rev 10 ds).
Proof.
  revert p ds acc. induction fuel as [|f IH]; intros p ds acc Hs Hd Hf Ha Hlt; [lia|].
  destruct ds as [|d ds _] using rev_ind; cbn [atoi_loop].
  - apply cstr_nil in Hs. rewrite (load_ok _ _ _ Hs), bind_ok. cbn. f_equal. lia.
  - rewrite rev_app_distr in Hs. cbn in Hs. apply cstr_cons in Hs as (Hc & H0 & Hs).
    apply Forall_app in Hd as [Hd Hd1]. apply list.Forall_cons in Hd1 as [Hd1 _].
    pose proof (value_rev_nonneg 10 ltac:(lia) ds Hd) as Hv.
    rewrite value_rev_app in * by lia. rewrite length_app, Nat.add_1_r in *.
    rewrite Nat2Z.inj_succ, Z.pow_succ_r in * by lia.
    assert (0 < 10 ^ Z.of_nat (length ds)) by (apply Z.pow_pos_nonneg; lia).
    rewrite (load_ok _ _ _ H0), bind_ok, (proj2 (Z.eqb_neq (d + 48) 0)) by lia.
    rewrite s8_small by lia. replace (acc * 10 + (d + 48) - 48) with (acc * 10 + d) by lia.
    rewrite s32_small by nia. rewrite (IH _ ds); [f_equal; nia|done|done|lia|lia|nia].
Qed.

(** Printing a non-negative [int] in base 10 with [itoa] and reading it back with
    [atoi] gives the number; the printed string is its decimal digits. *)
Theorem itoa_atoi_roundtrip (m : mem) (n s : Z) :
  0 ≤ n < 2 ^ 31 → mapped m s 11 →
  ∃ m' ds, itoa 32 m n s 10 = Ok (s, m') ∧ cstr m' s ((λ d, d + 48) <$> rev ds) ∧
    Forall (λ d, 0 ≤ d < 10) ds ∧ value_rev 10 ds = n ∧ atoi 32 m' s = Ok n.
Proof.
  intros Hn Hm. set (ds := digits_rev 32 10 n).
  assert (Hv : value_rev 10 ds = n) by (apply digits_rev_value; lia).
  assert (Hlen : (length ds ≤ 10)%nat) by (apply (digits_rev_length 10); lia).
  assert (Hrange : Forall (λ d, 0 ≤ d < 10) ds) by (apply digits_rev_range; lia).
  assert (Hchar : itoa_char <$> ds = (λ d, d + 48) <$> ds).
  { apply list_fmap_ext. intros i d Hd. eapply Forall_lookup_1 in Hrange; [|done].
    unfold itoa_char. case_if; [|lia]. apply u8_small. lia. }
  set (t := (λ d, d + 48) <$> ds).
  assert (Ht : length t = length ds) by apply length_fmap.
  assert (Hct : chars t).
  { apply Forall_fmap. eapply Forall_impl; [exact Hrange|]. intros d Hd. cbn in *. lia. }
  set (m1 := store_bytes m s (t ++ [0])).
  exists (store_bytes m1 s (rev t)), ds.
  assert (Hcs : cstr (store_bytes m1 s (rev t)) s ((λ d, d + 48) <$> rev ds)).
  { rewrite fmap_rev. fold t. split; [by apply Forall_rev|]. apply bytes_at_app. split.
    - apply bytes_at_store_bytes.
    - apply bytes_at_store_bytes_ne; [right; lia|]. rewrite length_rev.
      apply bytes_at_app with (l1 := t). apply bytes_at_store_bytes. }
  split_and!; [|done|done|done|].
  - unfold itoa. rewrite (proj2 (Z.ltb_ge n 0)) by lia.
    rewrite itoa_digits_ok; [|lia|lia|lia|].
    2: { rewrite Z.add_0_r. eapply mapped_sub; [done|lia|fold ds; lia]. }
    fold ds. rewrite !bind_ok, Z.add_0_r, Hchar. fold t. rewrite Z.add_0_l.
    rewrite store_ok, bind_ok by (apply mapped_store_bytes with (p := s) (n := 11); [done|lia]).
    rewrite <- Ht, store_bytes_snoc. fold m1.
    rewrite (reverse_ok _ _ t), bind_ok; [done| |lia|lia]. by apply cstr_store_bytes.
  - unfold atoi. rewrite (atoi_loop_ok _ _ ds); [f_equal; lia|done|done|lia|lia|lia].
Qed.

Lemma itoa_atoi_roundtrip_witness :
  ∃ m', itoa 32 (mem_of 500 (replicate 11 255)) 1970 500 10 = Ok (500, m') ∧
    atoi 32 m' 500 = Ok 1970.
Proof.
  destruct (itoa_atoi_roundtrip (mem_of 500 (replicate 11 255)) 1970 500)
    as (m' & ds & H1 & _ & _ & _ & H2); [lia|mem_check|]. by exists m'.
Defined.

(** ** strtol *)

(** The value of digits written most significant first. *)
Definition value_of (base : Z) (ds : list Z) : Z := foldl (λ v d, v * base + d) 0 ds.

(** The characters of a number and their digit values. *)
Definition numeral (base : Z) (cs ds : list Z) : Prop :=
  Forall2 (λ c d, digit_value c base = Some d) cs ds.

Section strtol.
Context (base : Z) (Hbase : 2 ≤ base ≤ 36).

Lemma digit_value_range c d : digit_value c base = Some d → 0 ≤ d < base ∧ 48 ≤ c ≤ 122.
Proof.
  unfold digit_value, isdigit, isalpha, isupper. rewrite !truthy_b2z.
  repeat case_if; intros; simplify_eq; breflect;
    repeat match goal with H : _ ∨ _ |- _ => destruct H; breflect end; lia.
Qed.

(** One step keeps the accumulator at the exact value while it fits, and pins it to
    the limit from the first digit that does not fit. *)
Definition acc_inv (neg : bool) (v acc any : Z) : Prop :=
  if neg then (0 ≤ any ∧ acc = - v ∧ v ≤ 2 ^ 31) ∨ (any = -1 ∧ acc = LONG_MIN ∧ 2 ^ 31 < v)
  else (0 ≤ any ∧ acc = v ∧ v < 2 ^ 31) ∨ (any = -1 ∧ acc = LONG_MAX ∧ 2 ^ 31 ≤ v).

Lemma strtol_accumulate_inv neg v acc any d :
  acc_inv neg v acc any → 0 ≤ v → 0 ≤ d < base →
  let '(cutoff, cutlim) := strtol_limits neg base in
  let '(acc', any') := strtol_accumulate neg base cutoff cutlim acc any d in
  acc_inv neg (v * base + d) acc' any' ∧ any' ≠ 0.
Proof.
  intros Hinv Hv Hd. unfold strtol_limits, strtol_accumulate, acc_inv, LONG_MIN, LONG_MAX in *.
  pose proof (Z.quot_rem' (2 ^ 31 - 1) base). pose proof (Z.quot_rem' (- 2 ^ 31) base).
  assert (0 ≤ Z.rem (2 ^ 31 - 1) base < base) by (apply Z.rem_bound_pos; lia).
  assert (- base < Z.rem (- 2 ^ 31) base ≤ 0) by 
    (pose proof (Z.rem_opp_l (2 ^ 31) base); pose proof (Z.rem_bound_pos (2 ^ 31) base); lia).
  destruct neg.
  - rewrite (proj2 (Z.ltb_ge 0 _)) by lia.
    destruct Hinv as [(?&->&?)|(->&->&?)].
    + rewrite (proj2 (Z.ltb_ge any 0)) by lia. case_if; (split; [|lia]); [right|left]; nia.
    + cbn. split; [right; nia|lia].
  - destruct Hinv as [(?&->&?)|(->&->&?)].
    + rewrite (proj2 (Z.ltb_ge any 0)) by lia. case_if; (split; [|lia]); [right|left]; nia.
    + cbn. split; [right; nia|lia].
Qed.

Lemma strtol_loop_ok m neg p cs ds e v acc any fuel :
  numeral base cs ds → bytes_at m p (tail (cs ++ [e])) →
  digit_value e base = None → (length cs < fuel)%nat →
  acc_inv neg v acc any → 0 ≤ v → (any = 0 → cs ≠ []) →
  let '(cutoff, cutlim) := strtol_limits neg base in
  ∃ acc' any', 
    strtol_loop fuel m neg base cutoff cutlim p (default e (head (cs ++ [e]))) acc any =
      Ok (acc', any', p + Z.of_nat (length cs)) ∧
    acc_inv neg (foldl (λ v d, v * base + d) v ds) acc' any' ∧ any' ≠ 0.
Proof.
  destruct (strtol_limits neg base) as [cutoff cutlim] eqn:El.
  revert p cs ds v acc any. induction fuel as [|f IH];
    intros p cs ds v acc any Hn Hb He Hf Hinv Hv Hany; [lia|].
  destruct Hn as [|c d cs ds Hc Hn]; cbn [strtol_loop app head from_option id foldl length] in *.
  - rewrite He. exists acc, any. split; [f_equal; f_equal; lia|]. split; [done|naive_solver].
  - rewrite Hc. apply digit_value_range in Hc as [Hd _].
    pose proof (strtol_accumulate_inv neg v acc any d Hinv Hv Hd) as Hstep. rewrite El in Hstep.
    destruct (strtol_accumulate _ _ _ _ _ _ _) as [acc' any'] eqn:Ea.
    destruct Hstep as [Hinv' Hany']. cbn [tail] in Hb.
    assert (∃ c', head (cs ++ [e]) = Some c' ∧ m !! p = Some c' ∧
              bytes_at m (p + 1) (tail (cs ++ [e]))) as (c' & Hh & Hp & Hb').
    { destruct cs as [|c' cs]; cbn in *; apply bytes_at_cons in Hb as [? ?]; eauto. }
    rewrite (load_ok _ _ _ Hp), bind_ok.
    replace c' with (default e (head (cs ++ [e]))) by (rewrite Hh; done).
    destruct (IH (p + 1) cs ds (v * base + d) acc' any') as (a & n & Hr & Ha & Hn');
      [done|done|done|lia|done|nia|done|].
    exists a, n. rewrite Hr. split; [f_equal; f_equal; lia|done].
Qed.

Lemma strtol_space_ok m p sp c rest fuel :
  bytes_at m p (sp ++ c :: rest) → Forall (λ x, truthy (isspace x) = true) sp →
  truthy (isspace c) = false → (length sp < fuel)%nat →
  strtol_space fuel m p = Ok (c, p + Z.of_nat (length sp) + 1).
Proof.
  revert p sp. induction fuel as [|f IH]; intros p sp Hb Hsp Hc Hf; [lia|].
  destruct sp as [|x sp]; cbn [strtol_space app length] in *.
  - apply bytes_at_cons in Hb as [Hp _]. rewrite (load_ok _ _ _ Hp), bind_ok, Hc.
    do 2 f_equal. lia.
  - apply bytes_at_cons in Hb as [Hp Hb]. apply list.Forall_cons in Hsp as [Hx Hsp].
    rewrite (load_ok _ _ _ Hp), bind_ok, Hx.
    rewrite (IH _ sp) by (done || lia). do 2 f_equal. lia.
Qed.
End strtol.

(** Saturation at the limits of [long]. *)
Definition clamp_long (x : Z) : Z := Z.max LONG_MIN (Z.min LONG_MAX x).

Lemma strtol_number_ok m nptr base neg q c cs d ds e fuel :
  2 ≤ base ≤ 36 → base ≠ 16 → numeral base (c :: cs) (d :: ds) →
  digit_value e base = None → bytes_at m q (cs ++ [e]) → (length (c :: cs) < fuel)%nat →
  strtol_number fuel m nptr base neg c q =
    Ok (clamp_long (if neg : bool then - value_of base (d :: ds) else value_of base (d :: ds)),
        q + Z.of_nat (length cs)).
Proof.
  intros Hbase H16 Hn He Hq Hf. unfold strtol_number.
  rewrite (proj2 (Z.eqb_neq base 0)), (proj2 (Z.eqb_neq base 16)) by lia. cbn [orb andb].
  rewrite bind_ok, (proj2 (Z.eqb_neq base 0)) by lia.
  pose proof (strtol_loop_ok base Hbase m neg q (c :: cs) (d :: ds) e 0 0 0 fuel
    Hn Hq He Hf) as H.
  destruct (strtol_limits neg base) as [cutoff cutlim].
  destruct H as (acc & any & Hr & Hinv & Hany); [destruct neg; left; lia|lia|done|].
  change (default e (head ((c :: cs) ++ [e]))) with c in Hr.
  rewrite Hr, bind_ok, (proj2 (truthy_true any) Hany). f_equal. f_equal; [|cbn; lia].
  fold (value_of base (d :: ds)) in Hinv. unfold acc_inv, clamp_long, LONG_MIN, LONG_MAX in *.
  assert (Hnn : ∀ l v, Forall (λ d, 0 ≤ d) l → 0 ≤ v → 0 ≤ foldl (λ v d, v * base + d) v l).
  { intros l v Hl. revert v. induction Hl; cbn; intros v Hv; [done|]. apply IHHl. nia. }
  assert (0 ≤ value_of base (d :: ds)).
  { apply Hnn; [|done]. clear -Hn Hbase. induction Hn as [|c' d' ? ? Hc]; constructor; [|done].
    apply digit_value_range in Hc; lia. }
  destruct neg; lia.
Qed.

Lemma strtol_ok (m : mem) (p base e : Z) (sp sg cs ds : list Z) (fuel : nat) :
  2 ≤ base ≤ 36 → base ≠ 16 →
  Forall (λ x, truthy (isspace x) = true) sp → sg ∈ [[]; [45]; [43]] →
  numeral base cs ds → cs ≠ [] → digit_value e base = None →
  bytes_at m p (sp ++ sg ++ cs ++ [e]) →
  (length sp < fuel)%nat → (length cs < fuel)%nat →
  strtol fuel m p base =
    Ok (clamp_long (if decide (sg = [45]) then - value_of base ds else value_of base ds),
        p + Z.of_nat (length (sp ++ sg ++ cs))).
Proof.
  intros Hbase H16 Hsp Hsg Hn Hcs He Hb Hf1 Hf2. unfold strtol.
  destruct cs as [|c cs]; [done|]. inversion Hn as [|? d ? ds' Hc Hn']; subst.
  apply digit_value_range in Hc as Hc'. destruct Hc' as [Hd Hcr].
  assert (Hns : truthy (isspace c) = false) by ctype_solve.
  apply elem_of_cons in Hsg as [->|Hsg]; [|apply elem_of_cons in Hsg as [->|Hsg]];
    [| |apply list_elem_of_singleton in Hsg as ->]; cbn [app] in *.
  all: apply bytes_at_app in Hb as Hb'; destruct Hb' as [_ Hb'].
  all: erewrite strtol_space_ok, bind_ok by done; unfold strtol_sign.
  - apply bytes_at_cons in Hb' as [_ Hb'].
    rewrite (proj2 (Z.eqb_neq c 45)), (proj2 (Z.eqb_neq c 43)), bind_ok by lia.
    rewrite (strtol_number_ok _ _ _ _ _ _ cs d ds' e) by done.
    rewrite decide_False by done. do 2 f_equal. rewrite length_app. cbn. lia.
  - apply bytes_at_cons in Hb' as [_ Hb']. apply bytes_at_cons in Hb' as [Hc0 Hb'].
    cbn [Z.eqb Pos.eqb]. rewrite (load_ok _ _ _ Hc0), !bind_ok, s8_small by lia.
    rewrite (strtol_number_ok _ _ _ _ _ _ cs d ds' e) by done.
    rewrite decide_True by done. do 2 f_equal. rewrite length_app. cbn. lia.
  - apply bytes_at_cons in Hb' as [_ Hb']. apply bytes_at_cons in Hb' as [Hc0 Hb'].
    cbn [Z.eqb Pos.eqb]. rewrite (load_ok _ _ _ Hc0), !bind_ok, s8_small by lia.
    rewrite (strtol_number_ok _ _ _ _ _ _ cs d ds' e) by done.
    rewrite decide_False by done. do 2 f_equal. rewrite length_app. cbn. lia.
Qed.

(** On blanks, an optional sign and a non-empty numeral in base 2 to 36 (other
    than 16, whose prefix is optional), [strtol] returns the signed value saturated to
    the range of [long], and [*endptr] is the first character after the numeral. *)
Theorem strtol_saturates (m : mem) (p base e : Z) (sp sg cs ds : list Z) (fuel : nat) :
  2 ≤ base ≤ 36 → base ≠ 16 →
  Forall (λ x, truthy (isspace x) = true) sp → sg ∈ [[]; [45]; [43]] →
  numeral base cs ds → cs ≠ [] → digit_value e base = None →
  bytes_at m p (sp ++ sg ++ cs ++ [e]) →
  (length sp < fuel)%nat → (length cs < fuel)%nat →
  strtol fuel m p base =
    Ok (clamp_long (if decide (sg = [45]) then - value_of base ds else value_of base ds),
        p + Z.of_nat (length (sp ++ sg ++ cs))).
Proof. apply strtol_ok. Qed.

Lemma strtol_saturates_witness :
  strtol 20 (mem_of 64 [32; 45; 51; 48; 48; 48; 48; 48; 48; 48; 48; 48; 0]) 64 10 =
    Ok (- 2 ^ 31, 76).
Proof.
  apply (strtol_saturates _ 64 10 0 [32] [45] [51;48;48;48;48;48;48;48;48;48]
    [3;0;0;0;0;0;0;0;0;0] 20); try lia; try done; try mem_check; try (cbn; lia).
  - repeat constructor.
  - right. left.
  - repeat constructor.
Defined.
