(* ===== verification/Printf.v ===== *)
(** * libc/src/stdio/printf.c: formatted output

    The conversion of a format and its arguments to characters, for any of the
    four output functions.  A [va_list] is the list of the 32-bit words on the
    argument stack (i386 calling convention), so [va_arg] takes one word, or two
    for a 64-bit integer.  The output function is an argument of every routine,
    as the function pointer [out] is in the code; it acts on the state [io]: the
    memory and the characters passed on to [putchar] or to the callback.

    The conversions of floating point numbers evaluate in the x87 registers with
    a precision that depends on the compiler; they are the argument [float_conv],
    and the theorems are about the formats that do not use them. *)

From S2P Require Import Prelude CMem.

Definition PRINTF_NTOA_BUFFER_SIZE : Z := 32.

Definition FLAGS_ZEROPAD : Z := Z.shiftl 1 0.
Definition FLAGS_LEFT : Z := Z.shiftl 1 1.
Definition FLAGS_PLUS : Z := Z.shiftl 1 2.
Definition FLAGS_SPACE : Z := Z.shiftl 1 3.
Definition FLAGS_HASH : Z := Z.shiftl 1 4.
Definition FLAGS_UPPERCASE : Z := Z.shiftl 1 5.
Definition FLAGS_CHAR : Z := Z.shiftl 1 6.
Definition FLAGS_SHORT : Z := Z.shiftl 1 7.
Definition FLAGS_LONG : Z := Z.shiftl 1 8.
Definition FLAGS_LONG_LONG : Z := Z.shiftl 1 9.
Definition FLAGS_PRECISION : Z := Z.shiftl 1 10.

(** [flags & f], [flags |= f], [flags &= ~f] *)
Definition has (flags f : Z) : bool := truthy (Z.land flags f).
Definition set_flag (flags f : Z) : Z := Z.lor flags f.
Definition clear_flag (flags f : Z) : Z := Z.land flags (Z.lnot f).

(** ** The state the output functions act on *)

Record io := mk_io {
  io_mem : mem;            (* the memory of the program *)
  io_chars : list Z        (* characters given to putchar or to the callback *)
}.

Definition out_fct_type : Type := Z → Z → Z → io → res io.

Definition out_buffer (buffer : Z) : out_fct_type := λ character idx maxlen w,
  if idx <? maxlen then
    m ← store (io_mem w) (buffer + idx) (u8 character);
    Ok (mk_io m (io_chars w))
  else Ok w.

Definition out_null : out_fct_type := λ _ _ _ w, Ok w.

Definition out_char : out_fct_type := λ character _ _ w,
  if truthy character then Ok (mk_io (io_mem w) (io_chars w ++ [u8 character])) else Ok w.

(** [fct(character, arg)], the caller's function. *)
Definition out_fct (fct : Z → Z → io → res io) (arg : Z) : out_fct_type := λ character _ _ w,
  if truthy character then fct character arg w else Ok w.

(** ** Reading the format *)

Definition is_digit (ch : Z) : bool := (48 <=? ch) && (ch <=? 57).

(** [for (s = str; *s && maxsize--; ++s);], the distance [s - str]. *)
Fixpoint strnlen_s (fuel : nat) (m : mem) (s maxsize n : Z) : res Z :=
  match fuel with
  | O => OutOfFuel
  | S f =>
      c ← load m s;
      if truthy c && truthy maxsize then strnlen_s f m (s + 1) (u32 (maxsize - 1)) (n + 1)
      else Ok (u32 n)
  end.

(** The number and the position after it. *)
Fixpoint _atoi (fuel : nat) (m : mem) (str i : Z) : res (Z * Z) :=
  match fuel with
  | O => OutOfFuel
  | S f =>
      c ← load m str;
      if is_digit c then _atoi f m (str + 1) (u32 (i * 10 + (c - 48))) else Ok (i, str)
  end.

(** [va_arg] of a 32-bit and of a 64-bit type. *)
Definition va_arg (va : list Z) : res (Z * list Z) :=
  match va with w :: va' => Ok (w, va') | [] => Fault end.
Definition va_arg64 (va : list Z) : res (Z * list Z) :=
  match va with lo :: hi :: va' => Ok (lo + 2 ^ 32 * hi, va') | _ => Fault end.

Definition flag_of (c : Z) : option Z :=
  if c =? 48 then Some FLAGS_ZEROPAD
  else if c =? 45 then Some FLAGS_LEFT
  else if c =? 43 then Some FLAGS_PLUS
  else if c =? 32 then Some FLAGS_SPACE
  else if c =? 35 then Some FLAGS_HASH
  else None.

Fixpoint parse_flags (fuel : nat) (m : mem) (format flags : Z) : res (Z * Z) :=
  match fuel with
  | O => OutOfFuel
  | S f =>
      c ← load m format;
      match flag_of c with
      | Some b => parse_flags f m (format + 1) (set_flag flags b)
      | None => Ok (flags, format)
      end
  end.

(** The width field: width, flags, position, arguments. *)
Definition parse_width (fuel : nat) (m : mem) (format flags : Z) (va : list Z)
    : res (Z * Z * Z * list Z) :=
  c ← load m format;
  if is_digit c then
    '(w, format) ← _atoi fuel m format 0; Ok (w, flags, format, va)
  else if c =? 42 then
    '(w, va) ← va_arg va;
    let w := s32 w in
    if w <? 0 then Ok (u32 (- w), set_flag flags FLAGS_LEFT, format + 1, va)
    else Ok (w, flags, format + 1, va)
  else Ok (0, flags, format, va).

Definition parse_precision (fuel : nat) (m : mem) (format flags : Z) (va : list Z)
    : res (Z * Z * Z * list Z) :=
  c ← load m format;
  if c =? 46 then
    let flags := set_flag flags FLAGS_PRECISION in
    let format := format + 1 in
    c ← load m format;
    if is_digit c then
      '(p, format) ← _atoi fuel m format 0; Ok (p, flags, format, va)
    else if c =? 42 then
      '(p, va) ← va_arg va;
      Ok (if 0 <? s32 p then s32 p else 0, flags, format + 1, va)
    else Ok (0, flags, format, va)
  else Ok (0, flags, format, va).

(** The length field ([sizeof(long)] = [sizeof(ptrdiff_t)] = [sizeof(size_t)] = 4;
    [intmax_t] has 8 bytes). *)
Definition parse_length (m : mem) (format flags : Z) : res (Z * Z) :=
  c ← load m format;
  if c =? 108 then
    c ← load m (format + 1);
    let flags := set_flag flags FLAGS_LONG in
    Ok (if c =? 108 then (set_flag flags FLAGS_LONG_LONG, format + 2) else (flags, format + 1))
  else if c =? 104 then
    c ← load m (format + 1);
    let flags := set_flag flags FLAGS_SHORT in
    Ok (if c =? 104 then (set_flag flags FLAGS_CHAR, format + 2) else (flags, format + 1))
  else if c =? 116 then Ok (set_flag flags FLAGS_LONG, format + 1)
  else if c =? 106 then Ok (set_flag flags FLAGS_LONG_LONG, format + 1)
  else if c =? 122 then Ok (set_flag flags FLAGS_LONG, format + 1)
  else Ok (flags, format).

(** ** The digits of a number

    The array [buf] is the list of the cells filled so far, the least significant
    digit first; [put] is [buf[len++] = c] and faults outside the array. *)

Definition put (buf : list Z) (c : Z) : res (list Z) :=
  if Z.of_nat (length buf) <? PRINTF_NTOA_BUFFER_SIZE then Ok (buf ++ [u8 c]) else Fault.

Definition fits (buf : list Z) : bool := Z.of_nat (length buf) <? PRINTF_NTOA_BUFFER_SIZE.

Definition digit_char (flags digit : Z) : Z :=
  if digit <? 10 then 48 + digit
  else (if has flags FLAGS_UPPERCASE then 65 else 97) + digit - 10.

(** The [do ... while (value && (len < PRINTF_NTOA_BUFFER_SIZE))] loop. *)
Fixpoint ntoa_digits (fuel : nat) (flags base : Z) (buf : list Z) (value : Z) : res (list Z) :=
  match fuel with
  | O => OutOfFuel
  | S f =>
      let digit := s8 (value mod base) in
      buf ← put buf (digit_char flags digit);
      let value := value / base in
      if truthy value && fits buf then ntoa_digits f flags base buf value else Ok buf
  end.

(** [while ((len < limit) && (len < PRINTF_NTOA_BUFFER_SIZE)) buf[len++] = '0';] *)
Fixpoint zero_fill (fuel : nat) (limit : Z) (buf : list Z) : res (list Z) :=
  match fuel with
  | O => OutOfFuel
  | S f =>
      if (Z.of_nat (length buf) <? limit) && fits buf then
        buf ← put buf 48; zero_fill f limit buf
      else Ok buf
  end.

(** The fuel of both loops: the array fills up after 32 iterations. *)
Definition ntoa_fuel : nat := 33.

(** [if (...) buf[len++] = c;] *)
Definition put_if (cond : bool) (c : Z) (buf : list Z) : res (list Z) :=
  if cond && fits buf then put buf c else Ok buf.

(** "pad leading zeros": the array and the width left. *)
Definition ntoa_zeros (buf : list Z) (negative : bool) (prec width flags : Z) : res (list Z * Z) :=
  if negb (has flags FLAGS_LEFT) then
    let width :=
      if truthy width && has flags FLAGS_ZEROPAD && (negative || has flags (Z.lor FLAGS_PLUS FLAGS_SPACE))
      then width - 1 else width in
    buf ← zero_fill ntoa_fuel prec buf;
    buf ← (if has flags FLAGS_ZEROPAD then zero_fill ntoa_fuel width buf else Ok buf);
    Ok (buf, width)
  else Ok (buf, width).

(** "handle hash" *)
Definition ntoa_hash (buf : list Z) (base prec width flags : Z) : res (list Z) :=
  if has flags FLAGS_HASH then
    let len := Z.of_nat (length buf) in
    let buf :=
      if negb (has flags FLAGS_PRECISION) && truthy len && ((len =? prec) || (len =? width)) then
        let buf := take (length buf - 1) buf in
        if truthy (Z.of_nat (length buf)) && (base =? 16) then take (length buf - 1) buf else buf
      else buf in
    buf ←
      (if (base =? 16) && negb (has flags FLAGS_UPPERCASE) && fits buf then put buf 120
       else if (base =? 16) && has flags FLAGS_UPPERCASE && fits buf then put buf 88
       else if (base =? 2) && fits buf then put buf 98
       else Ok buf);
    put_if true 48 buf
  else Ok buf.

Definition ntoa_sign (buf : list Z) (negative : bool) (flags : Z) : res (list Z) :=
  if fits buf then
    if negative then put buf 45
    else if has flags FLAGS_PLUS then put buf 43
    else if has flags FLAGS_SPACE then put buf 32
    else Ok buf
  else Ok buf.

Section output.
Context (out : out_fct_type) (maxlen : Z).

(** [out(c, buffer, idx++, maxlen)] *)
Definition emit (c idx : Z) (w : io) : res (Z * io) :=
  w ← out c idx maxlen w; Ok (u32 (idx + 1), w).

(** [n] times [out(' ', buffer, idx++, maxlen)] *)
Fixpoint pad_spaces (n : nat) (idx : Z) (w : io) : res (Z * io) :=
  match n with
  | O => Ok (idx, w)
  | S n => '(idx, w) ← emit 32 idx w; pad_spaces n idx w
  end.

(** [while (len) out(buf[--len], buffer, idx++, maxlen);] *)
Fixpoint out_cells (len : nat) (buf : list Z) (idx : Z) (w : io) : res (Z * io) :=
  match len with
  | O => Ok (idx, w)
  | S len =>
      c ← of_option (buf !! len);
      '(idx, w) ← emit c idx w;
      out_cells len buf idx w
  end.

Definition out_rev (idx : Z) (buf : list Z) (width flags : Z) (w : io) : res (Z * io) :=
  let start_idx := idx in
  '(idx, w) ← (if negb (has flags FLAGS_LEFT) && negb (has flags FLAGS_ZEROPAD) then
                pad_spaces (Z.to_nat (width - Z.of_nat (length buf))) idx w
              else Ok (idx, w));
  '(idx, w) ← out_cells (length buf) buf idx w;
  if has flags FLAGS_LEFT then
    pad_spaces (Z.to_nat (width - u32 (idx - start_idx))) idx w
  else Ok (idx, w).

Definition ntoa_format (idx : Z) (buf : list Z) (negative : bool) (base prec width flags : Z) (w : io)
    : res (Z * io) :=
  '(buf, width) ← ntoa_zeros buf negative prec width flags;
  buf ← ntoa_hash buf base prec width flags;
  buf ← ntoa_sign buf negative flags;
  out_rev idx buf width flags w.

Definition ntoa_long (idx value : Z) (negative : bool) (base prec width flags : Z) (w : io)
    : res (Z * io) :=
  let flags := if truthy value then flags else clear_flag flags FLAGS_HASH in
  buf ← (if negb (has flags FLAGS_PRECISION) || truthy value then
           ntoa_digits ntoa_fuel flags base [] value
         else Ok []);
  ntoa_format idx buf negative base prec width flags w.

(** The same text with a 64-bit [value]. *)
Definition ntoa_long_long (idx value : Z) (negative : bool) (base prec width flags : Z) (w : io)
    : res (Z * io) :=
  let flags := if truthy value then flags else clear_flag flags FLAGS_HASH in
  buf ← (if negb (has flags FLAGS_PRECISION) || truthy value then
           ntoa_digits ntoa_fuel flags base [] value
         else Ok []);
  ntoa_format idx buf negative base prec width flags w.

(** ** The conversion specifiers of [_vsnprintf] *)

Definition s16 (x : Z) : Z := (x + 2 ^ 15) mod 2 ^ 16 - 2 ^ 15.

(** [value > 0 ? value : 0 - value] and its conversion to unsigned. *)
Definition magnitude (value : Z) : Z := if 0 <? value then value else 0 - value.

Definition is_int_spec (c : Z) : bool := bool_decide (c ∈ [100; 105; 117; 120; 88; 111; 98]).
Definition is_signed_spec (c : Z) : bool := (c =? 105) || (c =? 100).

Definition int_base (c : Z) : Z :=
  if (c =? 120) || (c =? 88) then 16 else if c =? 111 then 8 else if c =? 98 then 2 else 10.

(** The flags after the adjustments for the specifier [c]. *)
Definition int_flags (c flags : Z) : Z :=
  let flags := if int_base c =? 10 then clear_flag flags FLAGS_HASH else flags in
  let flags := if c =? 88 then set_flag flags FLAGS_UPPERCASE else flags in
  let flags := if is_signed_spec c then flags else clear_flag flags (Z.lor FLAGS_PLUS FLAGS_SPACE) in
  if has flags FLAGS_PRECISION then clear_flag flags FLAGS_ZEROPAD else flags.

(** The value of the argument and the rest of the arguments. *)
Definition int_arg (c flags : Z) (va : list Z) : res (Z * list Z) :=
  if has flags FLAGS_LONG_LONG then
    '(v, va) ← va_arg64 va; Ok (if is_signed_spec c then s64 v else v, va)
  else if has flags FLAGS_LONG then
    '(v, va) ← va_arg va; Ok (if is_signed_spec c then s32 v else v, va)
  else
    '(v, va) ← va_arg va;
    Ok (if is_signed_spec c then
          (if has flags FLAGS_CHAR then s8 v else if has flags FLAGS_SHORT then s16 v else s32 v)
        else
          (if has flags FLAGS_CHAR then u8 v else if has flags FLAGS_SHORT then u16 v else v), va).

Definition conv_int (c idx prec width flags : Z) (va : list Z) (w : io) : res (Z * list Z * io) :=
  let base := int_base c in
  let flags := int_flags c flags in
  '(value, va) ← int_arg c flags va;
  let mag := if is_signed_spec c then
               (if has flags FLAGS_LONG_LONG then u64 (magnitude value) else u32 (magnitude value))
             else value in
  '(idx, w) ← (if has flags FLAGS_LONG_LONG then ntoa_long_long else ntoa_long)
                idx mag (is_signed_spec c && (value <? 0)) base prec width flags w;
  Ok (idx, va, w).

Definition conv_char (idx width flags : Z) (va : list Z) (w : io) : res (Z * list Z * io) :=
  let pads := Z.to_nat (width - 1) in
  '(idx, w) ← (if negb (has flags FLAGS_LEFT) then pad_spaces pads idx w else Ok (idx, w));
  '(c, va) ← va_arg va;
  '(idx, w) ← emit (s8 c) idx w;
  '(idx, w) ← (if has flags FLAGS_LEFT then pad_spaces pads idx w else Ok (idx, w));
  Ok (idx, va, w).

(** The loop of the "string output", up to the terminator or the precision. *)
Fixpoint out_string (fuel : nat) (p prec flags idx : Z) (w : io) : res (Z * io) :=
  match fuel with
  | O => OutOfFuel
  | S f =>
      c ← load (io_mem w) p;
      if truthy c && (negb (has flags FLAGS_PRECISION) || truthy prec) then
        '(idx, w) ← emit (s8 c) idx w;
        out_string f (p + 1) (if has flags FLAGS_PRECISION then u32 (prec - 1) else prec) flags idx w
      else Ok (idx, w)
  end.

Definition conv_string (fuel : nat) (idx prec width flags : Z) (va : list Z) (w : io)
    : res (Z * list Z * io) :=
  '(p, va) ← va_arg va;
  l ← strnlen_s fuel (io_mem w) p (if truthy prec then prec else 2 ^ 32 - 1) 0;
  let l := if has flags FLAGS_PRECISION then (if l <? prec then l else prec) else l in
  let pads := Z.to_nat (width - l) in
  '(idx, w) ← (if negb (has flags FLAGS_LEFT) then pad_spaces pads idx w else Ok (idx, w));
  '(idx, w) ← out_string fuel p prec flags idx w;
  '(idx, w) ← (if has flags FLAGS_LEFT then pad_spaces pads idx w else Ok (idx, w));
  Ok (idx, va, w).

Definition conv_pointer (idx prec flags : Z) (va : list Z) (w : io) : res (Z * list Z * io) :=
  let width := 4 * 2 in
  let flags := set_flag flags (Z.lor FLAGS_ZEROPAD FLAGS_UPPERCASE) in
  '(v, va) ← va_arg va;
  '(idx, w) ← ntoa_long idx v false 16 prec width flags w;
  Ok (idx, va, w).

Definition is_float_spec (c : Z) : bool := bool_decide (c ∈ [102; 70; 101; 69; 103; 71]).

Context (float_conv : Z → Z → Z → Z → Z → Z → io → res (Z * io)).

(** "evaluate specifier" *)
Definition convert (fuel : nat) (c idx prec width flags : Z) (va : list Z) (w : io)
    : res (Z * list Z * io) :=
  if is_int_spec c then conv_int c idx prec width flags va w
  else if is_float_spec c then
    '(v, va) ← va_arg64 va;
    '(idx, w) ← float_conv c idx v prec width flags w;
    Ok (idx, va, w)
  else if c =? 99 then conv_char idx width flags va w
  else if c =? 115 then conv_string fuel idx prec width flags va w
  else if c =? 112 then conv_pointer idx prec flags va w
  else '(idx, w) ← emit (s8 c) idx w; Ok (idx, va, w).

(** One iteration of the main loop on a [%]: the position after the conversion. *)
Definition directive (fuel : nat) (format idx : Z) (va : list Z) (w : io)
    : res (Z * Z * list Z * io) :=
  let m := io_mem w in
  '(flags, format) ← parse_flags fuel m format 0;
  '(width, flags, format, va) ← parse_width fuel m format flags va;
  '(prec, flags, format, va) ← parse_precision fuel m format flags va;
  '(flags, format) ← parse_length m format flags;
  c ← load m format;
  '(idx, va, w) ← convert fuel c idx prec width flags va w;
  Ok (format + 1, idx, va, w).

Fixpoint vsnprintf_loop (fuel : nat) (format idx : Z) (va : list Z) (w : io) : res (Z * io) :=
  match fuel with
  | O => OutOfFuel
  | S f =>
      c ← load (io_mem w) format;
      if negb (truthy c) then Ok (idx, w)
      else if negb (c =? 37) then
        '(idx, w) ← emit (s8 c) idx w;
        vsnprintf_loop f (format + 1) idx va w
      else
        '(format, idx, va, w) ← directive f (format + 1) idx va w;
        vsnprintf_loop f format idx va w
  end.

Definition _vsnprintf (fuel : nat) (format : Z) (va : list Z) (w : io) : res (Z * io) :=
  '(idx, w) ← vsnprintf_loop fuel format 0 va w;
  w ← out 0 (if idx <? maxlen then idx else u32 (maxlen - 1)) maxlen w;
  Ok (s32 idx, w).

End output.

(** ** The entry points *)

Section entry.
Context (float_conv : out_fct_type → Z → Z → Z → Z → Z → Z → Z → io → res (Z * io)).

Definition run_printf (out : out_fct_type) (maxlen : Z) : nat → Z → list Z → io → res (Z * io) :=
  _vsnprintf out maxlen (float_conv out maxlen).

Definition vprintf (fuel : nat) (format : Z) (va : list Z) (w : io) : res (Z * io) :=
  run_printf out_char (2 ^ 32 - 1) fuel format va w.

(** The null output function replaces [out] when there is no buffer. *)
Definition vsnprintf (fuel : nat) (buffer count format : Z) (va : list Z) (w : io) : res (Z * io) :=
  run_printf (if truthy buffer then out_buffer buffer else out_null) count fuel format va w.

Definition printf (fuel : nat) (format : Z) (va : list Z) (w : io) : res (Z * io) :=
  run_printf out_char (2 ^ 32 - 1) fuel format va w.

Definition sprintf (fuel : nat) (buffer format : Z) (va : list Z) (w : io) : res (Z * io) :=
  run_printf (if truthy buffer then out_buffer buffer else out_null) (2 ^ 32 - 1) fuel format va w.

Definition snprintf (fuel : nat) (buffer count format : Z) (va : list Z) (w : io) : res (Z * io) :=
  run_printf (if truthy buffer then out_buffer buffer else out_null) count fuel format va w.

Definition fctprintf (fct : Z → Z → io → res io) (arg : Z) (fuel : nat) (format : Z) (va : list Z) (w : io)
    : res (Z * io) :=
  run_printf (out_fct fct arg) (2 ^ 32 - 1) fuel format va w.
End entry.
