(* ===== verification/PrintfFacts.v ===== *)
(** * Formatted output: what the text is and where it goes

    [formats] is the specification of a format as an inductive relation on
    characters and argument words: the text a format stands for.  The first
    sections show that the routines of [Printf] send exactly that text to the
    output function, one character after the other, whatever the output function
    does; the last ones draw the consequences for the entry points and for the
    numerals. *)

From S2P Require Import Prelude CMem CText CNumFacts Printf.

(** ** Sending characters *)

Section sends.
Context (out : out_fct_type) (maxlen : Z).

(** The characters of a text, one after the other. *)
Fixpoint sends (text : list Z) (idx : Z) (w : io) : res (Z * io) :=
  match text with
  | [] => Ok (idx, w)
  | c :: t => '(idx, w) ← emit out maxlen c idx w; sends t idx w
  end.

Lemma sends_app s t idx w :
  sends (s ++ t) idx w = ('(idx, w) ← sends s idx w; sends t idx w).
Proof.
  revert idx w. induction s as [|c s IH]; intros idx w; cbn [sends app]; [done|].
  destruct (emit out maxlen c idx w) as [[i w']| | |]; [|done..]. rewrite !bind_ok. apply IH.
Qed.

Lemma sends_idx s idx w i w' :
  sends s idx w = Ok (i, w') → 0 ≤ idx < 2 ^ 32 → i = u32 (idx + Z.of_nat (length s)).
Proof.
  revert idx w. induction s as [|c s IH]; intros idx w Hs Hi; cbn [sends length] in *.
  - injection Hs as <- <-. rewrite u32_small; lia.
  - inv_ok. unfold emit in Hs0. inv_ok. apply IH in Hs; [|apply u32_range].
    rewrite Hs. unfold u32. rewrite Zplus_mod_idemp_l. f_equal. lia.
Qed.

(** A continuation may use what the index is. *)
Lemma sends_bind {B} s idx w (k k' : Z → io → res B) :
  0 ≤ idx < 2 ^ 32 →
  (∀ w', k (u32 (idx + Z.of_nat (length s))) w' = k' (u32 (idx + Z.of_nat (length s))) w') →
  ('(i, w') ← sends s idx w; k i w') = ('(i, w') ← sends s idx w; k' i w').
Proof.
  intros Hi Hk. destruct (sends s idx w) as [[i w']| | |] eqn:E; [|done..].
  rewrite !bind_ok. apply sends_idx in E as ->; [apply Hk|done].
Qed.

Lemma pad_spaces_sends n idx w : pad_spaces out maxlen n idx w = sends (replicate n 32) idx w.
Proof.
  revert idx w. induction n as [|n IH]; intros idx w; cbn [pad_spaces sends replicate]; [done|].
  destruct (emit out maxlen 32 idx w) as [[i w']| | |]; [|done..]. by rewrite !bind_ok.
Qed.

Lemma out_cells_sends n buf idx w :
  (n ≤ length buf)%nat → out_cells out maxlen n buf idx w = sends (rev (take n buf)) idx w.
Proof.
  revert idx w. induction n as [|n IH]; intros idx w Hn; cbn [out_cells]; [done|].
  destruct (lookup_lt_is_Some_2 buf n) as [c Hc]; [lia|].
  rewrite Hc. cbn [of_option]. rewrite bind_ok, (take_S_r _ _ c) by done.
  rewrite rev_app_distr. cbn [rev app sends].
  destruct (emit out maxlen c idx w) as [[i w']| | |]; [|done..].
  rewrite !bind_ok. apply IH. lia.
Qed.

(** The text [_out_rev] sends for the cells [buf]. *)
Definition padded (buf : list Z) (width flags : Z) : list Z :=
  let pad := replicate (Z.to_nat (width - Z.of_nat (length buf))) 32 in
  (if negb (has flags FLAGS_LEFT) && negb (has flags FLAGS_ZEROPAD) then pad else []) ++
  rev buf ++ (if has flags FLAGS_LEFT then pad else []).

Lemma out_rev_sends idx buf width flags w :
  0 ≤ idx < 2 ^ 32 → Z.of_nat (length buf) < 2 ^ 32 →
  out_rev out maxlen idx buf width flags w = sends (padded buf width flags) idx w.
Proof.
  intros Hi Hl. unfold out_rev, padded. rewrite sends_app.
  assert (Hbody : ∀ idx w, out_cells out maxlen (length buf) buf idx w = sends (rev buf) idx w).
  { intros. rewrite out_cells_sends by done. by rewrite firstn_all. }
  destruct (has flags FLAGS_LEFT) eqn:HL; cbn [negb andb].
  - cbn [sends]. rewrite !bind_ok, sends_app, Hbody. apply sends_bind; [done|].
    intros w'. rewrite pad_spaces_sends, length_rev. do 2 f_equal. f_equal.
    unfold u32. rewrite Zminus_mod_idemp_l, Z.add_simpl_l. rewrite Z.mod_small by lia. done.
  - rewrite app_nil_r. destruct (has flags FLAGS_ZEROPAD); cbn [negb sends]; rewrite ?bind_ok.
    + rewrite Hbody. by destruct (sends (rev buf) idx w) as [[? ?]| | |].
    + rewrite pad_spaces_sends. destruct (sends _ idx w) as [[i w']| | |]; [|done..].
      rewrite !bind_ok, Hbody. by destruct (sends (rev buf) i w') as [[? ?]| | |].
Qed.
End sends.

(** ** The cells of a number *)

Section cells.
Implicit Types (buf : list Z) (flags width prec base value : Z).

Lemma put_ok buf c : (length buf < 32)%nat → put buf c = Ok (buf ++ [u8 c]).
Proof. intros. unfold put, PRINTF_NTOA_BUFFER_SIZE. by rewrite (proj2 (Z.ltb_lt _ _)) by lia. Qed.

Lemma fits_spec buf : fits buf = true ↔ (length buf < 32)%nat.
Proof. unfold fits, PRINTF_NTOA_BUFFER_SIZE. rewrite Z.ltb_lt. lia. Qed.

Lemma fits_false buf : fits buf = false → (length buf ≤ 32)%nat → length buf = 32%nat.
Proof. unfold fits, PRINTF_NTOA_BUFFER_SIZE. rewrite Z.ltb_ge. lia. Qed.

Lemma ntoa_digits_S n flags base buf value :
  ntoa_digits (S n) flags base buf value =
    (buf ← put buf (digit_char flags (s8 (value mod base)));
     if truthy (value / base) && fits buf then ntoa_digits n flags base buf (value / base)
     else Ok buf).
Proof. done. Qed.

(** Characters [_ntoa_long] stores for the digits. *)
Lemma ntoa_digits_ok flags base buf value n :
  2 ≤ base ≤ 16 → 0 ≤ value → (0 < n)%nat → (length buf + n = 32)%nat →
  ntoa_digits (S n) flags base buf value =
    Ok (buf ++ ((λ d, u8 (digit_char flags d)) <$> digits_rev n base value)).
Proof.
  intros Hb. revert buf value. induction n as [|n IH]; intros buf value Hv Hn Hl; [lia|].
  cbn [digits_rev]. rewrite ntoa_digits_S.
  pose proof (Z.mod_pos_bound value base ltac:(lia)).
  rewrite s8_small by lia. rewrite put_ok by lia. rewrite bind_ok.
  assert (Hd : 0 ≤ value / base) by (apply Z.div_pos; lia).
  destruct (Z.eqb_spec (value / base) 0) as [E|E]; [by rewrite E|].
  rewrite (proj2 (truthy_true _) E), (proj2 (Z.ltb_lt 0 _)) by lia. cbn [andb fmap list_fmap].
  destruct (decide (n = 0%nat)) as [->|Hn0].
  - destruct (fits _) eqn:F; [apply fits_spec in F; rewrite length_app in F; cbn in F; lia|done].
  - rewrite (proj2 (fits_spec _)) by (rewrite length_app; cbn; lia).
    rewrite IH by (rewrite ?length_app; cbn; lia). by rewrite <- app_assoc.
Qed.

(** The cells after zeros are stored up to [limit]. *)
Definition zeros_to limit buf : list Z :=
  buf ++ replicate (Z.to_nat (Z.min limit 32 - Z.of_nat (length buf))) 48.

Lemma zero_fill_ok limit buf n :
  (length buf ≤ 32)%nat → (32 < length buf + n)%nat →
  zero_fill n limit buf = Ok (zeros_to limit buf).
Proof.
  revert buf. induction n as [|n IH]; intros buf Hl Hn; [lia|]. cbn [zero_fill].
  destruct (Z.ltb_spec (Z.of_nat (length buf)) limit) as [Hlt|Hge]; cbn [andb].
  - destruct (fits buf) eqn:F.
    + apply fits_spec in F. rewrite put_ok, bind_ok by done.
      rewrite IH by (rewrite length_app; cbn; lia). f_equal. unfold zeros_to.
      rewrite length_app, <- app_assoc. f_equal. cbn [length app].
      change [u8 48] with [48]. change (48 :: ?l) with ([48] ++ l).
      replace (Z.to_nat (Z.min limit 32 - Z.of_nat (length buf)))
        with (S (Z.to_nat (Z.min limit 32 - Z.of_nat (length buf + 1)))) by lia. done.
    + apply fits_false in F; [|done]. unfold zeros_to.
      replace (Z.to_nat _) with O by lia. by rewrite app_nil_r.
  - unfold zeros_to. replace (Z.to_nat _) with O by lia. by rewrite app_nil_r.
Qed.

Lemma zeros_to_length limit buf : (length buf ≤ 32)%nat → (length (zeros_to limit buf) ≤ 32)%nat.
Proof. intros. unfold zeros_to. rewrite length_app, length_replicate. lia. Qed.

(** [_ntoa_format]'s steps on the cells, as functions. *)
Definition num_width (negative : bool) width flags : Z :=
  if negb (has flags FLAGS_LEFT) && truthy width && has flags FLAGS_ZEROPAD &&
     (negative || has flags (Z.lor FLAGS_PLUS FLAGS_SPACE)) then width - 1 else width.

Definition num_zeros buf (negative : bool) prec width flags : list Z :=
  if has flags FLAGS_LEFT then buf
  else
    let buf := zeros_to prec buf in
    if has flags FLAGS_ZEROPAD then zeros_to (num_width negative width flags) buf else buf.

(** The cells the prefix of "handle hash" replaces. *)
Definition hash_drop buf base prec width flags : list Z :=
  let len := Z.of_nat (length buf) in
  if negb (has flags FLAGS_PRECISION) && truthy len && ((len =? prec) || (len =? width)) then
    let buf := take (length buf - 1) buf in
    if truthy (Z.of_nat (length buf)) && (base =? 16) then take (length buf - 1) buf else buf
  else buf.

(** Stores [cs] as far as the array goes. *)
Definition stored buf (cs : list Z) : list Z := take 32 (buf ++ cs).

Definition hash_prefix base flags : list Z :=
  if base =? 16 then [if has flags FLAGS_UPPERCASE then 88 else 120; 48]
  else if base =? 2 then [98; 48] else [48].

Definition num_hash buf base prec width flags : list Z :=
  if has flags FLAGS_HASH then stored (hash_drop buf base prec width flags) (hash_prefix base flags)
  else buf.

Definition sign_char (negative : bool) flags : list Z :=
  if negative then [45] else if has flags FLAGS_PLUS then [43]
  else if has flags FLAGS_SPACE then [32] else [].

(** All cells of a number: digits, zeros, prefix, sign. *)
Definition num_cells value (negative : bool) base prec width flags : list Z :=
  let flags := if truthy value then flags else clear_flag flags FLAGS_HASH in
  let digits :=
    if negb (has flags FLAGS_PRECISION) || truthy value then
      (λ d, u8 (digit_char flags d)) <$> digits_rev 32 base value
    else [] in
  let buf := num_zeros digits negative prec width flags in
  let buf := num_hash buf base prec (num_width negative width flags) flags in
  stored buf (sign_char negative flags).

Definition num_text value (negative : bool) base prec width flags : list Z :=
  let fl := if truthy value then flags else clear_flag flags FLAGS_HASH in
  padded (num_cells value negative base prec width flags) (num_width negative width fl) fl.

Lemma stored_length buf cs : (length (stored buf cs) ≤ 32)%nat.
Proof. unfold stored. rewrite length_take. lia. Qed.

Lemma stored_full buf cs : length buf = 32%nat → stored buf cs = buf.
Proof. intros H. unfold stored. rewrite take_app_le by lia. by rewrite <- H, firstn_all. Qed.

Lemma stored_nil buf : (length buf ≤ 32)%nat → stored buf [] = buf.
Proof. intros H. unfold stored. rewrite app_nil_r. by apply take_ge. Qed.

Lemma stored_cons buf c cs :
  (length buf < 32)%nat → stored buf (c :: cs) = stored (buf ++ [c]) cs.
Proof. intros H. unfold stored. by rewrite <- app_assoc. Qed.

Lemma put_if_ok c buf : 0 ≤ c < 256 → (length buf ≤ 32)%nat →
  (if fits buf then put buf c else Ok buf) = Ok (stored buf [c]).
Proof.
  intros Hc Hl. destruct (fits buf) eqn:F.
  - apply fits_spec in F. rewrite put_ok, u8_small by done.
    rewrite stored_cons, stored_nil by (rewrite ?length_app; cbn; lia). done.
  - apply fits_false in F; [|done]. by rewrite stored_full.
Qed.

Lemma put2_ok buf c d : 0 ≤ c < 256 → 0 ≤ d < 256 → (length buf < 32)%nat →
  (buf ← put buf c; if fits buf then put buf d else Ok buf) = Ok (stored buf [c; d]).
Proof.
  intros Hc Hd Hl. rewrite put_ok, bind_ok, u8_small, put_if_ok by (rewrite ?length_app; cbn; lia).
  by rewrite (stored_cons buf c).
Qed.

Lemma num_zeros_length buf negative prec width flags :
  (length buf ≤ 32)%nat → (length (num_zeros buf negative prec width flags) ≤ 32)%nat.
Proof. intros. unfold num_zeros. repeat case_if; auto using zeros_to_length. Qed.

Lemma ntoa_zeros_ok buf negative prec width flags :
  (length buf ≤ 32)%nat →
  ntoa_zeros buf negative prec width flags =
    Ok (num_zeros buf negative prec width flags, num_width negative width flags).
Proof.
  intros Hl. unfold ntoa_zeros, num_zeros, num_width, ntoa_fuel.
  destruct (has flags FLAGS_LEFT); cbn [negb andb]; [done|].
  rewrite zero_fill_ok, bind_ok by lia.
  destruct (has flags FLAGS_ZEROPAD) eqn:HZ; [|by rewrite bind_ok].
  rewrite zero_fill_ok, bind_ok; [done|by apply zeros_to_length|lia].
Qed.

Lemma hash_drop_length buf base prec width flags :
  (length (hash_drop buf base prec width flags) ≤ length buf)%nat.
Proof. unfold hash_drop. cbn zeta. repeat case_if; rewrite ?length_take; lia. Qed.

Lemma ntoa_hash_ok buf base prec width flags :
  (length buf ≤ 32)%nat →
  ntoa_hash buf base prec width flags = Ok (num_hash buf base prec width flags).
Proof.
  intros Hl. unfold ntoa_hash, num_hash. destruct (has flags FLAGS_HASH); [|done].
  cbn zeta. fold (hash_drop buf base prec width flags).
  pose proof (hash_drop_length buf base prec width flags).
  set (b := hash_drop buf base prec width flags) in *. unfold hash_prefix, put_if. cbn [andb].
  destruct (Z.eqb_spec base 16) as [->|].
  - destruct (fits b) eqn:F; cbn [andb].
    + apply fits_spec in F. destruct (has flags FLAGS_UPPERCASE); cbn [negb andb]; by apply put2_ok.
    + rewrite !andb_false_r. apply fits_false in F; [|lia]. rewrite bind_ok, put_if_ok by lia.
      by rewrite !stored_full.
  - cbn [andb]. destruct (Z.eqb_spec base 2) as [->|]; cbn [andb].
    + destruct (fits b) eqn:F; [apply fits_spec in F; by apply put2_ok|].
      apply fits_false in F; [|lia]. rewrite bind_ok, put_if_ok by lia. by rewrite !stored_full.
    + rewrite bind_ok, put_if_ok by lia. done.
Qed.

Lemma num_hash_length buf base prec width flags :
  (length buf ≤ 32)%nat → (length (num_hash buf base prec width flags) ≤ 32)%nat.
Proof. intros. unfold num_hash. case_if; auto using stored_length. Qed.

Lemma ntoa_sign_ok buf negative flags :
  (length buf ≤ 32)%nat → ntoa_sign buf negative flags = Ok (stored buf (sign_char negative flags)).
Proof.
  intros Hl. unfold ntoa_sign, sign_char.
  destruct negative; [|destruct (has flags FLAGS_PLUS); [|destruct (has flags FLAGS_SPACE)]].
  1-3: by apply put_if_ok.
  rewrite stored_nil by done. by destruct (fits buf).
Qed.

Lemma digits_rev_max n base value : (length (digits_rev n base value) ≤ n)%nat.
Proof.
  revert value. induction n as [|n IH]; intros value; cbn [digits_rev length]; [lia|].
  specialize (IH (value / base)). case_if; cbn [length]; lia.
Qed.

Lemma ntoa_long_sends out maxlen idx value negative base prec width flags w :
  2 ≤ base ≤ 16 → 0 ≤ value → 0 ≤ idx < 2 ^ 32 →
  ntoa_long out maxlen idx value negative base prec width flags w =
    sends out maxlen (num_text value negative base prec width flags) idx w.
Proof.
  intros Hb Hv Hi. unfold ntoa_long, num_text, num_cells. cbn zeta.
  set (fl := if truthy value then flags else clear_flag flags FLAGS_HASH).
  set (ds := if _ || _ then _ <$> _ else []).
  assert (Hds : (length ds ≤ 32)%nat).
  { subst ds. case_if; [|cbn; lia]. rewrite length_fmap. apply digits_rev_max. }
  assert (Hok : (if negb (has fl FLAGS_PRECISION) || truthy value
                 then ntoa_digits ntoa_fuel fl base [] value else Ok []) = Ok ds).
  { subst ds. unfold ntoa_fuel. destruct (_ || _); [|done].
    rewrite (ntoa_digits_ok _ _ _ _ 32) by (cbn; lia). done. }
  rewrite Hok, bind_ok. unfold ntoa_format.
  rewrite ntoa_zeros_ok, bind_ok by done.
  rewrite ntoa_hash_ok, bind_ok by by apply num_zeros_length.
  rewrite ntoa_sign_ok, bind_ok by (apply num_hash_length; by apply num_zeros_length).
  apply out_rev_sends; [done|].
  match goal with |- context [stored ?b ?c] => pose proof (stored_length b c) end. lia.
Qed.
End cells.

(** ** The text of a format

    The fields of a directive, read from a list of characters.  [None] where the
    format ends inside the directive or the arguments run out. *)

Fixpoint txt_flags (s : list Z) (flags : Z) : Z * list Z :=
  match s with
  | c :: s' => match flag_of c with Some b => txt_flags s' (set_flag flags b) | None => (flags, s) end
  | [] => (flags, [])
  end.

Fixpoint txt_number (s : list Z) (i : Z) : Z * list Z :=
  match s with
  | c :: s' => if is_digit c then txt_number s' (u32 (i * 10 + (c - 48))) else (i, s)
  | [] => (i, [])
  end.

(** What a directive asks for. *)
Record spec := mk_spec { sp_flags : Z; sp_width : Z; sp_prec : Z }.

Definition txt_width (s : list Z) (flags : Z) (va : list Z) : option (Z * Z * list Z * list Z) :=
  match s, va with
  | 42 :: s', w :: va' =>
      Some (if s32 w <? 0 then (u32 (- s32 w), set_flag flags FLAGS_LEFT, s', va')
            else (s32 w, flags, s', va'))
  | 42 :: _, [] => None
  | _, _ => let '(w, s') := txt_number s 0 in Some (w, flags, s', va)
  end.

Definition txt_precision (s : list Z) (flags : Z) (va : list Z) : option (Z * Z * list Z * list Z) :=
  match s with
  | 46 :: s' =>
      let flags := set_flag flags FLAGS_PRECISION in
      match s', va with
      | 42 :: s'', p :: va' => Some (Z.max 0 (s32 p), flags, s'', va')
      | 42 :: _, [] => None
      | _, _ => let '(p, s'') := txt_number s' 0 in Some (p, flags, s'', va)
      end
  | _ => Some (0, flags, s, va)
  end.

Definition txt_length (s : list Z) (flags : Z) : Z * list Z :=
  match s with
  | 108 :: 108 :: s' => (set_flag (set_flag flags FLAGS_LONG) FLAGS_LONG_LONG, s')
  | 108 :: s' => (set_flag flags FLAGS_LONG, s')
  | 104 :: 104 :: s' => (set_flag (set_flag flags FLAGS_SHORT) FLAGS_CHAR, s')
  | 104 :: s' => (set_flag flags FLAGS_SHORT, s')
  | 116 :: s' => (set_flag flags FLAGS_LONG, s')
  | 106 :: s' => (set_flag flags FLAGS_LONG_LONG, s')
  | 122 :: s' => (set_flag flags FLAGS_LONG, s')
  | _ => (flags, s)
  end.

(** A value padded with blanks to the width. *)
Definition justified (t : list Z) (width flags : Z) : list Z :=
  let pad := replicate (Z.to_nat (width - Z.of_nat (length t))) 32 in
  if has flags FLAGS_LEFT then t ++ pad else pad ++ t.

(** The integer a directive takes from the arguments: the number in its type. *)
Definition int_text (c : Z) (sp : spec) (va : list Z) : option (list Z * list Z) :=
  let flags := int_flags c (sp_flags sp) in
  match int_arg c flags va with
  | Ok (v, va') =>
      let mag := if is_signed_spec c then
                   (if has flags FLAGS_LONG_LONG then u64 (Z.abs v) else u32 (Z.abs v)) else v in
      Some (num_text mag (is_signed_spec c && (v <? 0)) (int_base c) (sp_prec sp) (sp_width sp) flags, va')
  | _ => None
  end.

Section formats.
(** The strings the arguments of the %s directives point to. *)
Context (strs : gmap Z (list Z)).

Definition conv_text (c : Z) (sp : spec) (va : list Z) : option (list Z * list Z) :=
  if is_int_spec c then int_text c sp va
  else if is_float_spec c then None
  else if c =? 99 then
    match va with v :: va' => Some (justified [s8 v] (sp_width sp) (sp_flags sp), va') | [] => None end
  else if c =? 115 then
    match va with
    | p :: va' =>
        match strs !! p with
        | Some t =>
            let t := if has (sp_flags sp) FLAGS_PRECISION then take (Z.to_nat (sp_prec sp)) t else t in
            Some (justified (s8 <$> t) (sp_width sp) (sp_flags sp), va')
        | None => None
        end
    | [] => None
    end
  else if c =? 112 then
    match va with
    | v :: va' =>
        Some (num_text v false 16 (sp_prec sp) 8
                (set_flag (sp_flags sp) (Z.lor FLAGS_ZEROPAD FLAGS_UPPERCASE)), va')
    | [] => None
    end
  else Some ([s8 c], va).

(** A directive after its %: its text, the rest of the format, the arguments left. *)
Definition directive_text (s va : list Z) : option (list Z * list Z * list Z) :=
  let '(flags, s) := txt_flags s 0 in
  match txt_width s flags va with
  | Some (width, flags, s, va) =>
      match txt_precision s flags va with
      | Some (prec, flags, s, va) =>
          let '(flags, s) := txt_length s flags in
          match s with
          | c :: s =>
              match conv_text c (mk_spec flags width prec) va with
              | Some (t, va) => Some (t, s, va)
              | None => None
              end
          | [] => None
          end
      | None => None
      end
  | None => None
  end.

(** [formats s va text]: the format [s] with the arguments [va] stands for [text]. *)
Inductive formats : list Z → list Z → list Z → Prop :=
| formats_end va : formats [] va []
| formats_char c s va text :
    c ≠ 37 → formats s va text → formats (c :: s) va (s8 c :: text)
| formats_directive s va t s' va' text :
    directive_text s va = Some (t, s', va') → formats s' va' text →
    formats (37 :: s) va (t ++ text).
End formats.

(** ** The code reads these fields *)

(** A match on a literal, for a number that is another one. *)
Ltac other_literal c :=
  let q := fresh "q" in destruct c as [|q|q]; try done;
  repeat (done || (destruct q as [q|q|]; try done)).

(** The string [s'] at [p'] is the rest of the string [s] at [p]. *)
Definition rest (p : Z) (s : list Z) (p' : Z) (s' : list Z) : Prop :=
  ∃ pre, s = pre ++ s' ∧ p' = p + Z.of_nat (length pre).

Lemma rest_refl p s : rest p s p s.
Proof. exists []. split; [done|]. cbn. lia. Qed.

Lemma rest_cons p c s p' s' : rest (p + 1) s p' s' → rest p (c :: s) p' s'.
Proof. intros (pre & -> & ->). exists (c :: pre). split; [done|]. cbn [length]. lia. Qed.

Lemma rest_trans p1 s1 p2 s2 p3 s3 : rest p1 s1 p2 s2 → rest p2 s2 p3 s3 → rest p1 s1 p3 s3.
Proof.
  intros (a & -> & ->) (b & -> & ->). exists (a ++ b). rewrite <- app_assoc, length_app.
  split; [done|lia].
Qed.

Lemma rest_cstr m p s p' s' : rest p s p' s' → cstr m p s → cstr m p' s'.
Proof. intros (pre & -> & ->) H. by apply cstr_app in H as (_ & _ & H). Qed.

Lemma rest_length p s p' s' : rest p s p' s' → (length s' ≤ length s)%nat.
Proof. intros (pre & -> & _). rewrite length_app. lia. Qed.

#[local] Hint Resolve rest_refl rest_cons : core.

Section reading.
Context (m : mem).

Lemma load_head p s : cstr m p s → load m p = Ok (default 0 (head s)).
Proof.
  intros H. apply load_ok. destruct s as [|c s]; [by apply cstr_nil|].
  by apply cstr_cons in H as (? & ? & ?).
Qed.

Lemma head_ne s c : head s ≠ Some c → c ≠ 0 → (default 0 (head s) =? c) = false.
Proof. intros Hh Hc. apply Z.eqb_neq. destruct s as [|d s]; cbn in *; congruence. Qed.

Lemma parse_flags_ok fuel p s flags :
  cstr m p s → (length s < fuel)%nat →
  ∃ p', parse_flags fuel m p flags = Ok ((txt_flags s flags).1, p') ∧ rest p s p' (txt_flags s flags).2.
Proof.
  revert p s flags. induction fuel as [|f IH]; intros p s flags Hs Hf; [lia|].
  cbn [parse_flags]. rewrite (load_head _ _ Hs), bind_ok.
  destruct s as [|c s]; cbn [head default from_option id txt_flags length] in *; [by eauto|].
  destruct (flag_of c) as [b|] eqn:E; [|by eauto].
  apply cstr_cons in Hs as (_ & _ & Hs).
  destruct (IH (p + 1) s (set_flag flags b)) as (p' & H1 & H2); [done|lia|]. eauto.
Qed.

Lemma atoi_ok fuel p s i :
  cstr m p s → (length s < fuel)%nat →
  ∃ p', _atoi fuel m p i = Ok ((txt_number s i).1, p') ∧ rest p s p' (txt_number s i).2.
Proof.
  revert p s i. induction fuel as [|f IH]; intros p s i Hs Hf; [lia|].
  cbn [_atoi]. rewrite (load_head _ _ Hs), bind_ok.
  destruct s as [|c s]; cbn [head default from_option id txt_number length] in *; [by eauto|].
  destruct (is_digit c) eqn:E; [|by eauto].
  apply cstr_cons in Hs as (_ & _ & Hs).
  destruct (IH (p + 1) s (u32 (i * 10 + (c - 48)))) as (p' & H1 & H2); [done|lia|]. eauto.
Qed.

(** A field that is not a star is a number, 0 when there is no digit. *)
Lemma number_ok {B} fuel p s (k : Z → Z → res B) :
  cstr m p s → (length s < fuel)%nat →
  ∃ p', (if is_digit (default 0 (head s)) then '(i, p') ← _atoi fuel m p 0; k i p' else k 0 p) =
      k (txt_number s 0).1 p' ∧ rest p s p' (txt_number s 0).2.
Proof.
  intros Hs Hf. destruct s as [|c s]; cbn [head default from_option id]; [by eauto|].
  destruct (is_digit c) eqn:E.
  - destruct (atoi_ok fuel p (c :: s) 0 Hs Hf) as (p' & -> & H2). exists p'. by rewrite bind_ok.
  - cbn [txt_number]. rewrite E. eauto.
Qed.

Lemma parse_width_ok fuel p s flags va w fl s' va' :
  cstr m p s → (length s < fuel)%nat →
  txt_width s flags va = Some (w, fl, s', va') →
  ∃ p', parse_width fuel m p flags va = Ok (w, fl, p', va') ∧ rest p s p' s'.
Proof.
  intros Hs Hf Ht. unfold parse_width. rewrite (load_head _ _ Hs), bind_ok.
  destruct (decide (head s = Some 42)) as [Hh|Hh].
  - destruct s as [|c s]; [done|]. injection Hh as ->. cbn in Ht |- *.
    destruct va as [|v va]; [done|]. cbn [va_arg]. rewrite bind_ok.
    exists (p + 1). destruct (s32 v <? 0); simplify_eq; eauto.
  - assert (Ht' : (let '(w, s') := txt_number s 0 in Some (w, flags, s', va)) = Some (w, fl, s', va')).
    { rewrite <- Ht. unfold txt_width. destruct s as [|c s]; [done|]. other_literal c. }
    destruct (txt_number s 0) as [n s1] eqn:En. simplify_eq.
    destruct (number_ok fuel p s (λ i p', Ok (i, fl, p', va')) Hs Hf) as (p' & Hk & Hr).
    rewrite En in *. cbn [fst snd] in *. exists p'. split; [|done]. rewrite <- Hk.
    destruct (is_digit (default 0 (head s))) eqn:Ed; [done|]. by rewrite head_ne.
Qed.

Lemma parse_precision_ok fuel p s flags va pr fl s' va' :
  cstr m p s → (length s < fuel)%nat →
  txt_precision s flags va = Some (pr, fl, s', va') →
  ∃ p', parse_precision fuel m p flags va = Ok (pr, fl, p', va') ∧ rest p s p' s'.
Proof.
  intros Hs Hf Ht. unfold parse_precision. rewrite (load_head _ _ Hs), bind_ok.
  destruct (decide (head s = Some 46)) as [Hh|Hh].
  2: { assert (Some (0, flags, s, va) = Some (pr, fl, s', va')) as Ht'.
       { rewrite <- Ht. unfold txt_precision. destruct s as [|c s]; [done|]. other_literal c. }
       simplify_eq. exists p. split; [|done]. by rewrite head_ne. }
  destruct s as [|c s]; [done|]. injection Hh as ->. cbn [head default from_option id Z.eqb Pos.eqb].
  apply cstr_cons in Hs as (_ & _ & Hs). rewrite (load_head _ _ Hs), bind_ok. cbn [length] in *.
  cbn [txt_precision] in Ht. destruct (decide (head s = Some 42)) as [Hh|Hh].
  - destruct s as [|c s]; [done|]. injection Hh as ->. cbn in Ht |- *.
    destruct va as [|v va]; [done|]. cbn [va_arg].
    rewrite bind_ok. exists (p + 1 + 1). simplify_eq. split; [|eauto].
    destruct (Z.ltb_spec 0 (s32 v)); repeat f_equal; lia.
  - assert (Ht' : (let '(n, s') := txt_number s 0 in Some (n, set_flag flags FLAGS_PRECISION, s', va)) =
              Some (pr, fl, s', va')).
    { rewrite <- Ht. destruct s as [|c s]; [done|]. other_literal c. }
    destruct (txt_number s 0) as [n s1] eqn:En. simplify_eq.
    destruct (number_ok fuel (p + 1) s (λ i p', Ok (i, set_flag flags FLAGS_PRECISION, p', va')) Hs
      ltac:(lia)) as (p' & Hk & Hr).
    rewrite En in *. cbn [fst snd] in *. exists p'. split; [|eauto]. rewrite <- Hk.
    destruct (is_digit (default 0 (head s))) eqn:Ed; [done|]. by rewrite head_ne.
Qed.

Lemma parse_length_ok p s flags :
  cstr m p s →
  ∃ p', parse_length m p flags = Ok ((txt_length s flags).1, p') ∧ rest p s p' (txt_length s flags).2.
Proof.
  intros Hs. unfold parse_length. rewrite (load_head _ _ Hs), bind_ok.
  destruct s as [|c s]; [by eauto|]. cbn [head default from_option id].
  apply cstr_cons in Hs as Hs'. destruct Hs' as (_ & _ & Hs').
  assert (Hrest : rest p (c :: s) (p + 1) s) by auto.
  assert (Hrest2 : ∀ d s2, s = d :: s2 → rest p (c :: s) (p + 2) s2).
  { intros d s2 ->. replace (p + 2) with (p + 1 + 1) by lia. auto. }
  destruct (Z.eqb_spec c 108) as [->|H1]; [|destruct (Z.eqb_spec c 104) as [->|H2]].
  1,2: rewrite (load_head _ _ Hs'), bind_ok; destruct s as [|d s]; [by eauto|].
  1,2: cbn [head default from_option id].
  - destruct (Z.eqb_spec d 108) as [->|Hd]; [by eauto|]. exists (p + 1).
    replace (txt_length (108 :: d :: s) flags) with (set_flag flags FLAGS_LONG, d :: s); [done|other_literal d].
  - destruct (Z.eqb_spec d 104) as [->|Hd]; [by eauto|]. exists (p + 1).
    replace (txt_length (104 :: d :: s) flags) with (set_flag flags FLAGS_SHORT, d :: s); [done|other_literal d].
  - destruct (Z.eqb_spec c 116) as [->|]; [by eauto|]. destruct (Z.eqb_spec c 106) as [->|]; [by eauto|].
    destruct (Z.eqb_spec c 122) as [->|]; [by eauto|]. exists p.
    replace (txt_length (c :: s) flags) with (flags, c :: s); [by auto|other_literal c].
Qed.
End reading.

(** ** The conversions send their text *)

Definition words (va : list Z) : Prop := Forall (λ v, 0 ≤ v < 2 ^ 32) va.

Section conversions.
Context (out : out_fct_type) (maxlen : Z).
Context (float_conv : Z → Z → Z → Z → Z → Z → io → res (Z * io)).
Context (strs : gmap Z (list Z)).

(** What the output of the first [N] characters leaves alone: the strings. *)
Context (P : io → Prop) (N : Z) (HN : N < 2 ^ 32).
Hypothesis P_out : ∀ c i w w', 0 ≤ i < N → P w → out c i maxlen w = Ok w' → P w'.
Hypothesis P_strs : ∀ w p t, P w → strs !! p = Some t → cstr (io_mem w) p t.

Lemma emit_keeps c idx w i w' :
  P w → 0 ≤ idx < N → emit out maxlen c idx w = Ok (i, w') → P w' ∧ i = idx + 1.
Proof. unfold emit. intros Hw Hi H. inv_ok. split; [eauto|]. apply u32_small. lia. Qed.

Lemma sends_keeps t idx w i w' :
  P w → 0 ≤ idx → idx + Z.of_nat (length t) ≤ N →
  sends out maxlen t idx w = Ok (i, w') → P w' ∧ i = idx + Z.of_nat (length t).
Proof.
  revert idx w. induction t as [|c t IH]; intros idx w Hw Hi Hn Hs; cbn [sends length] in *.
  { simplify_eq. split; [done|lia]. }
  apply bind_ok_inv in Hs as [[j w1] [He Hs]]. apply emit_keeps in He as [Hw1 ->]; [|done|lia].
  apply IH in Hs as [? ->]; [|done|lia|lia]. split; [done|lia].
Qed.

Lemma sends_cons c t idx w :
  sends out maxlen (c :: t) idx w = ('(idx, w) ← emit out maxlen c idx w; sends out maxlen t idx w).
Proof. done. Qed.

Lemma out_string_sends fuel p s prec flags idx w :
  (∀ w, P w → cstr (io_mem w) p s) → P w → (length s < fuel)%nat → 0 ≤ prec < 2 ^ 32 →
  0 ≤ idx → idx + Z.of_nat (length (if has flags FLAGS_PRECISION then take (Z.to_nat prec) s else s)) ≤ N →
  out_string out maxlen fuel p prec flags idx w =
    sends out maxlen (s8 <$> (if has flags FLAGS_PRECISION then take (Z.to_nat prec) s else s)) idx w.
Proof.
  revert p s prec idx w. induction fuel as [|f IH]; intros p s prec idx w Hs Hw Hf Hp Hi Hn; [lia|].
  cbn [out_string]. rewrite (load_head _ _ _ (Hs w Hw)), bind_ok.
  destruct s as [|c s]; cbn [head default from_option id truthy length] in *.
  { rewrite take_nil. by destruct (has flags FLAGS_PRECISION). }
  pose proof (Hs w Hw) as Hc. apply cstr_cons in Hc as (Hc & _ & _).
  rewrite (proj2 (truthy_true c)) by lia. cbn [andb].
  assert (Hs' : ∀ w, P w → cstr (io_mem w) (p + 1) s).
  { intros w1 Hw1. apply Hs in Hw1. by apply cstr_cons in Hw1 as (_ & _ & ?). }
  destruct (has flags FLAGS_PRECISION) eqn:HP; cbn [negb orb].
  - destruct (truthy prec) eqn:Hpr; [|apply truthy_false in Hpr as ->; done].
    apply truthy_true in Hpr.
    replace (Z.to_nat prec) with (S (Z.to_nat (prec - 1))) in * by lia.
    cbn [take fmap list_fmap length] in *.
    rewrite sends_cons. destruct (emit out maxlen (s8 c) idx w) as [[i w']| | |] eqn:E; [|done..].
    apply emit_keeps in E as [E ->]; [|done|lia].
    rewrite !bind_ok, (u32_small (prec - 1)) by lia. rewrite (IH (p + 1) s) by (done || lia). done.
  - cbn [fmap list_fmap length] in *. rewrite sends_cons.
    destruct (emit out maxlen (s8 c) idx w) as [[i w']| | |] eqn:E; [|done..].
    apply emit_keeps in E as [E ->]; [|done|lia]. by rewrite !bind_ok, (IH (p + 1) s) by (done || lia).
Qed.

Lemma strnlen_s_ok fuel m p s maxsize n :
  cstr m p s → (length s < fuel)%nat → 0 ≤ maxsize < 2 ^ 32 →
  strnlen_s fuel m p maxsize n = Ok (u32 (n + Z.min maxsize (Z.of_nat (length s)))).
Proof.
  revert p s maxsize n. induction fuel as [|f IH]; intros p s maxsize n Hs Hf Hm; [lia|].
  cbn [strnlen_s]. rewrite (load_head _ _ _ Hs), bind_ok.
  destruct s as [|c s]; cbn [head default from_option id truthy length] in *.
  { cbn. do 2 f_equal. lia. }
  apply cstr_cons in Hs as (Hc & _ & Hs). rewrite (proj2 (truthy_true c)) by lia. cbn [andb].
  destruct (truthy maxsize) eqn:Ht.
  - apply truthy_true in Ht. rewrite (IH _ s) by (done || lia || (rewrite u32_small; lia)).
    rewrite (u32_small (maxsize - 1)) by lia. do 2 f_equal. lia.
  - apply truthy_false in Ht. do 2 f_equal. lia.
Qed.

Lemma justified_sends {B} t width flags idx w (body : Z → io → res (Z * io)) (k : Z → io → res B) :
  (∀ idx w, P w → 0 ≤ idx → idx + Z.of_nat (length t) ≤ N → body idx w = sends out maxlen t idx w) →
  P w → 0 ≤ idx → idx + Z.of_nat (length (justified t width flags)) ≤ N →
  let pads := Z.to_nat (width - Z.of_nat (length t)) in
  ('(idx, w) ← (if negb (has flags FLAGS_LEFT) then pad_spaces out maxlen pads idx w else Ok (idx, w));
   '(idx, w) ← body idx w;
   '(idx, w) ← (if has flags FLAGS_LEFT then pad_spaces out maxlen pads idx w else Ok (idx, w));
   k idx w) =
  ('(idx, w) ← sends out maxlen (justified t width flags) idx w; k idx w).
Proof.
  intros Hb Hw Hi Hn pads. unfold justified in *. fold pads in Hn |- *.
  destruct (has flags FLAGS_LEFT); cbn [negb]; rewrite length_app in Hn.
  - rewrite bind_ok, sends_app, Hb by (done || lia). destruct (sends out maxlen t idx w) as [[i w']| | |]; [|done..].
    by rewrite !bind_ok, pad_spaces_sends.
  - rewrite sends_app, pad_spaces_sends.
    destruct (sends out maxlen (replicate pads 32) idx w) as [[i w']| | |] eqn:E; [|done..].
    apply sends_keeps in E as [E ->]; [|done|done|lia]. rewrite !bind_ok, Hb by (done || lia).
    destruct (sends out maxlen t _ w') as [[j w2]| | |]; by rewrite ?bind_ok.
Qed.

Lemma magnitude_abs v : magnitude v = Z.abs v.
Proof. unfold magnitude. destruct (Z.ltb_spec 0 v); lia. Qed.

Lemma int_arg_ok c flags va v va' :
  int_arg c flags va = Ok (v, va') → words va →
  words va' ∧ (is_signed_spec c = false → 0 ≤ v).
Proof.
  unfold int_arg, words. intros H Hw.
  destruct (has flags FLAGS_LONG_LONG).
  - destruct va as [|lo [|hi va]]; try done. cbn in H. simplify_eq. inversion Hw as [|? ? ? Hw']; subst.
    inversion Hw'; subst. split; [done|]. intros ->. lia.
  - destruct (has flags FLAGS_LONG); (destruct va as [|x va]; [done|]); cbn in H; simplify_eq;
      inversion Hw; subst; (split; [done|]); intros ->; [lia|].
    destruct (has flags FLAGS_CHAR); [apply u8_range|].
    destruct (has flags FLAGS_SHORT); [by apply Z.mod_pos_bound|lia].
Qed.

Lemma conv_int_sends c idx prec width flags va w t va' :
  words va → 0 ≤ idx < 2 ^ 32 → is_int_spec c = true →
  int_text c (mk_spec flags width prec) va = Some (t, va') →
  conv_int out maxlen c idx prec width flags va w =
    ('(i, w') ← sends out maxlen t idx w; Ok (i, va', w')) ∧ words va'.
Proof.
  intros Hva Hi Hc Ht. unfold int_text, conv_int in *. cbn [sp_flags sp_width sp_prec] in Ht.
  destruct (int_arg c (int_flags c flags) va) as [[v va1]| | |] eqn:Ha; [|done..].
  apply int_arg_ok in Ha as [Hw Hv]; [|done]. simplify_eq. split; [|done].
  rewrite bind_ok, magnitude_abs. change (ntoa_long_long out maxlen) with (ntoa_long out maxlen).
  replace (if has _ FLAGS_LONG_LONG then ntoa_long out maxlen else ntoa_long out maxlen)
    with (ntoa_long out maxlen) by (by case_match).
  rewrite ntoa_long_sends; [done| | |done].
  - unfold int_base. repeat case_if; lia.
  - destruct (is_signed_spec c); [|by apply Hv].
    destruct (has _ FLAGS_LONG_LONG); [apply u64_range|apply u32_range].
Qed.

Lemma conv_string_sends fuel idx prec width flags p va w t :
  strs !! p = Some t → P w → (length t < fuel)%nat → Z.of_nat (length t) < 2 ^ 32 - 1 →
  0 ≤ prec < 2 ^ 32 → (has flags FLAGS_PRECISION = false → prec = 0) →
  let shown := if has flags FLAGS_PRECISION then take (Z.to_nat prec) t else t in
  0 ≤ idx → idx + Z.of_nat (length (justified (s8 <$> shown) width flags)) ≤ N →
  conv_string out maxlen fuel idx prec width flags (p :: va) w =
    ('(i, w') ← sends out maxlen (justified (s8 <$> shown) width flags) idx w; Ok (i, va, w')).
Proof.
  intros Ht Hw Hf Hl Hp Hprec shown Hi Hn. unfold conv_string. cbn [va_arg]. rewrite bind_ok.
  pose proof (P_strs w p t Hw Ht) as Hs.
  rewrite (strnlen_s_ok _ _ _ t) by (done || case_if; lia). rewrite bind_ok, Z.add_0_l.
  match goal with |- context [width - ?l] => replace l with (Z.of_nat (length (s8 <$> shown))) end.
  2: { rewrite length_fmap. subst shown. destruct (has flags FLAGS_PRECISION).
       - rewrite length_take. destruct (truthy prec) eqn:E.
         + rewrite u32_small by lia. case_if; lia.
         + apply truthy_false in E as ->. pose proof (u32_range (Z.min (2 ^ 32 - 1) (Z.of_nat (length t)))).
           rewrite (proj2 (Z.ltb_ge _ _)) by lia. lia.
       - rewrite (Hprec eq_refl), truthy_0, u32_small by lia. lia. }
  rewrite (justified_sends (s8 <$> shown)); [done| |done..].
  intros i w' Hw' Hi' Hn'. rewrite length_fmap in Hn'. rewrite (out_string_sends _ _ t) by eauto. subst shown.
  by destruct (has flags FLAGS_PRECISION).
Qed.

Lemma convert_sends fuel c idx prec width flags va w t va' :
  P w → words va → 0 ≤ idx < 2 ^ 32 → 0 ≤ prec < 2 ^ 32 →
  (has flags FLAGS_PRECISION = false → prec = 0) →
  (∀ p s, strs !! p = Some s → (length s < fuel)%nat ∧ Z.of_nat (length s) < 2 ^ 32 - 1) →
  conv_text strs c (mk_spec flags width prec) va = Some (t, va') →
  idx + Z.of_nat (length t) ≤ N →
  convert out maxlen float_conv fuel c idx prec width flags va w =
    ('(i, w') ← sends out maxlen t idx w; Ok (i, va', w')) ∧ words va'.
Proof.
  intros Hw Hva Hi Hp Hprec Hstrs Ht Hn. unfold conv_text, convert in *. cbn [sp_flags sp_width sp_prec] in Ht.
  destruct (is_int_spec c) eqn:E1; [by apply conv_int_sends|].
  destruct (is_float_spec c) eqn:E2; [done|].
  destruct (Z.eqb_spec c 99) as [->|_].
  { destruct va as [|v va]; [done|]. simplify_eq. split; [|by inversion Hva]. unfold conv_char.
    rewrite <- (justified_sends [s8 v] width flags idx w
      (λ i w, '(i, w) ← emit out maxlen (s8 v) i w; Ok (i, w))); [|intros; by cbn [sends]|done|lia|done].
    cbn [length va_arg]. change (Z.of_nat 1) with 1.
    destruct (negb (has flags FLAGS_LEFT)); [|rewrite !bind_ok].
    - destruct (pad_spaces _ _ _ _ _) as [[i w1]| | |]; [|done..]. rewrite !bind_ok.
      by destruct (emit out maxlen (s8 v) i w1) as [[j w2]| | |].
    - by destruct (emit out maxlen (s8 v) idx w) as [[j w2]| | |]. }
  destruct (Z.eqb_spec c 115) as [->|_].
  { destruct va as [|p va]; [done|]. destruct (strs !! p) as [s|] eqn:Es; [|done]. simplify_eq.
    split; [|by inversion Hva]. destruct (Hstrs p s Es) as [Hf Hl].
    apply (conv_string_sends _ _ _ _ _ _ _ _ s); done || lia. }
  destruct (Z.eqb_spec c 112) as [->|_].
  { destruct va as [|v va]; [done|]. simplify_eq. inversion Hva; subst. split; [|done].
    unfold conv_pointer. cbn [va_arg]. rewrite bind_ok, ntoa_long_sends by (done || lia). done. }
  simplify_eq. split; [|done]. cbn [sends].
  by destruct (emit out maxlen (s8 c) idx w) as [[j w2]| | |].
Qed.
End conversions.

(** ** The precision a directive is converted with *)

Lemma has_bit flags i : 0 ≤ i → has flags (Z.shiftl 1 i) = Z.testbit flags i.
Proof. apply truthy_land_bit. Qed.

Lemma has_set flags f i : 0 ≤ i → has (set_flag flags f) (Z.shiftl 1 i) = Z.testbit flags i || Z.testbit f i.
Proof. intros. rewrite has_bit by done. apply Z.lor_spec. Qed.

Lemma txt_number_range s i : 0 ≤ i < 2 ^ 32 → 0 ≤ (txt_number s i).1 < 2 ^ 32.
Proof.
  revert i. induction s as [|c s IH]; intros i Hi; cbn [txt_number]; [done|].
  destruct (is_digit c); [|done]. apply IH, u32_range.
Qed.

Lemma txt_precision_range s flags va pr fl s' va' :
  txt_precision s flags va = Some (pr, fl, s', va') → words va →
  0 ≤ pr < 2 ^ 32 ∧ (has fl FLAGS_PRECISION = false → pr = 0) ∧ words va'.
Proof.
  intros H Hw. assert (Hset : has (set_flag flags FLAGS_PRECISION) FLAGS_PRECISION = true).
  { unfold FLAGS_PRECISION at 2. rewrite has_set by done. apply orb_true_r. }
  assert (Hnum : ∀ s1, (let '(p, s2) := txt_number s1 0 in
     Some (p, set_flag flags FLAGS_PRECISION, s2, va)) = Some (pr, fl, s', va') →
     0 ≤ pr < 2 ^ 32 ∧ (has fl FLAGS_PRECISION = false → pr = 0) ∧ words va').
  { intros s1 Hs. pose proof (txt_number_range s1 0) as Hr. destruct (txt_number s1 0) as [n s2].
    cbn in Hr. simplify_eq. rewrite Hset. split; [apply Hr; lia|done]. }
  unfold txt_precision in H.
  repeat (case_match; simplify_eq; try (by eapply Hnum); try (by (split; [lia|done]))).
  inversion Hw; subst. rewrite Hset. split; [|done]. pose proof (s32_range z). lia.
Qed.

Lemma txt_flags_keep s flags i : 0 ≤ i → Z.testbit flags i = true → Z.testbit (txt_length s flags).1 i = true.
Proof.
  intros Hi H. assert (Hl : ∀ f g, Z.testbit f i = true → Z.testbit (set_flag f g) i = true).
  { intros f g Hf. unfold set_flag. by rewrite Z.lor_spec, Hf. }
  unfold txt_length. repeat case_match; simplify_eq; cbn [fst]; auto.
Qed.

Lemma txt_width_words s flags va w fl s' va' :
  txt_width s flags va = Some (w, fl, s', va') → words va → words va'.
Proof. intros H Hw. unfold txt_width in H. repeat case_match; simplify_eq; auto; by inversion Hw. Qed.

(** ** The whole format *)

Section whole.
Context (out : out_fct_type) (maxlen : Z).
Context (float_conv : Z → Z → Z → Z → Z → Z → io → res (Z * io)).
Context (strs : gmap Z (list Z)).
Context (P : io → Prop) (N : Z) (HN : N < 2 ^ 32).
Hypothesis P_out : ∀ c i w w', 0 ≤ i < N → P w → out c i maxlen w = Ok w' → P w'.
Hypothesis P_strs : ∀ w p t, P w → strs !! p = Some t → cstr (io_mem w) p t.

(** The strings fit the fuel and the type of their lengths. *)
Definition strs_fit (fuel : nat) : Prop :=
  ∀ p s, strs !! p = Some s → (length s < fuel)%nat ∧ Z.of_nat (length s) < 2 ^ 32 - 1.

Lemma directive_sends fuel p s va t s' va' idx w :
  P w → cstr (io_mem w) p s → words va → 0 ≤ idx < 2 ^ 32 →
  (length s < fuel)%nat → strs_fit fuel →
  directive_text strs s va = Some (t, s', va') → idx + Z.of_nat (length t) ≤ N →
  ∃ p',
    directive out maxlen float_conv fuel p idx va w =
      ('(i, w') ← sends out maxlen t idx w; Ok (p', i, va', w')) ∧
    rest p s p' s' ∧ words va'.
Proof.
  intros Hw Hs Hva Hi Hf Hfit Ht Hn. unfold directive, directive_text in *. cbn zeta.
  destruct (parse_flags_ok _ fuel p s 0 Hs Hf) as (p1 & -> & Hr1). rewrite bind_ok.
  destruct (txt_flags s 0) as [fl1 s1]. cbn [fst snd] in *. apply rest_length in Hr1 as Hl1.
  destruct (txt_width s1 fl1 va) as [[[[w1 fl2] s2] va2]|] eqn:Ew; [|done].
  destruct (parse_width_ok (io_mem w) fuel p1 s1 fl1 va w1 fl2 s2 va2) as (p2 & -> & Hr2);
    [by eapply rest_cstr|lia|done|].
  apply txt_width_words in Ew; [|done]. rewrite bind_ok. apply rest_length in Hr2 as Hl2.
  pose proof (rest_trans _ _ _ _ _ _ Hr1 Hr2) as Hr.
  destruct (txt_precision s2 fl2 va2) as [[[[pr fl3] s3] va3]|] eqn:Ep; [|done].
  destruct (parse_precision_ok (io_mem w) fuel p2 s2 fl2 va2 pr fl3 s3 va3) as (p3 & -> & Hr3);
    [by eapply rest_cstr|lia|done|].
  apply txt_precision_range in Ep as (Hpr & Hpr0 & Hva3); [|done]. rewrite bind_ok.
  pose proof (rest_trans _ _ _ _ _ _ Hr Hr3) as Hr'.
  destruct (parse_length_ok (io_mem w) p3 s3 fl3) as (p4 & -> & Hr4); [by eapply rest_cstr|].
  rewrite bind_ok. pose proof (txt_flags_keep s3 fl3 10 ltac:(lia)) as Hkeep.
  destruct (txt_length s3 fl3) as [fl4 s4]. cbn [fst snd] in *.
  pose proof (rest_trans _ _ _ _ _ _ Hr' Hr4) as Hrc. destruct s4 as [|c s4]; [done|].
  rewrite (load_head _ _ (c :: s4)) by by eapply rest_cstr. rewrite bind_ok.
  cbn [head default from_option id].
  destruct (conv_text strs c _ va3) as [[t' va4]|] eqn:Ec; [|done]. simplify_eq.
  destruct (convert_sends out maxlen float_conv strs P N HN P_out P_strs fuel c idx pr w1 fl4 va3 w t va')
    as [-> Hva']; try done.
  { intros Hh. apply Hpr0. unfold FLAGS_PRECISION in *. rewrite has_bit in * by done.
    destruct (Z.testbit fl3 10); [|done]. by rewrite Hkeep in Hh. }
  exists (p4 + 1). split; [|split; [|done]].
  - by destruct (sends out maxlen t idx w) as [[i w']| | |].
  - eapply rest_trans; [done|]. auto.
Qed.

Lemma loop_sends fuel p s va text idx w L :
  formats strs s va text → words va → P w → (∀ w, P w → cstr (io_mem w) p s) →
  0 ≤ idx → idx + Z.of_nat (length text) ≤ N → (length s + L < fuel)%nat → strs_fit L →
  vsnprintf_loop out maxlen float_conv fuel p idx va w = sends out maxlen text idx w.
Proof.
  intros Hfm. revert fuel p idx w.
  induction Hfm as [va|c s va text Hc Hfm IH|s va t s' va' text Hd Hfm IH];
    intros fuel p idx w Hva Hw Hs Hi Hn Hf Hfit; (destruct fuel as [|fuel]; [lia|]);
    cbn [vsnprintf_loop]; rewrite (load_head _ _ _ (Hs w Hw)), bind_ok;
    cbn [head default from_option id length] in *; [done| |].
  - pose proof (Hs w Hw) as Hs1. apply cstr_cons in Hs1 as (Hc0 & _ & _).
    rewrite (proj2 (truthy_true c)), (proj2 (Z.eqb_neq c 37)) by lia. cbn [negb].
    rewrite sends_cons. destruct (emit out maxlen (s8 c) idx w) as [[i w']| | |] eqn:E; [|done..].
    rewrite !bind_ok. apply emit_keeps with (P := P) (N := N) in E as [Hw' ->]; [|done|done|done|lia].
    apply IH; try done; [|lia..].
    intros w1 Hw1. apply Hs in Hw1. by apply cstr_cons in Hw1 as (_ & _ & ?).
  - cbn [truthy Z.eqb Pos.eqb negb].
    assert (Hs' : ∀ w, P w → cstr (io_mem w) (p + 1) s).
    { intros w1 Hw1. apply Hs in Hw1. by apply cstr_cons in Hw1 as (_ & _ & ?). }
    destruct (directive_sends fuel (p + 1) s va t s' va' idx w) as (p' & -> & Hr & Hva');
      try done; [by apply Hs'|rewrite length_app in Hn; lia|lia| |rewrite length_app in Hn; lia|].
    { intros q x Hx. apply Hfit in Hx. lia. }
    rewrite sends_app. destruct (sends out maxlen t idx w) as [[i w']| | |] eqn:E; [|done..].
    rewrite length_app in Hn. apply sends_keeps with (P := P) (N := N) in E as [Hw' ->]; [|done..|lia].
    rewrite !bind_ok. apply rest_length in Hr as Hl. apply IH; try done; [|lia..].
    intros w1 Hw1. eapply rest_cstr; [done|auto].
Qed.

(** The text goes to the output function character by character, then the final
    NUL; the result is the number of characters. *)
Lemma vsnprintf_sends fuel p s va text w L :
  formats strs s va text → words va → P w → (∀ w, P w → cstr (io_mem w) p s) →
  Z.of_nat (length text) ≤ N → N < 2 ^ 31 → (length s + L < fuel)%nat → strs_fit L →
  _vsnprintf out maxlen float_conv fuel p va w =
    ('(_, w) ← sends out maxlen text 0 w;
     let n := Z.of_nat (length text) in
     w ← out 0 (if n <? maxlen then n else u32 (maxlen - 1)) maxlen w;
     Ok (n, w)).
Proof.
  intros Hfm Hva Hw Hs Hlen HN' Hf Hfit. unfold _vsnprintf.
  rewrite (loop_sends _ _ s _ text 0 _ L) by (done || lia).
  rewrite (sends_bind out maxlen text 0 w _ (λ _ w,
     let n := Z.of_nat (length text) in
     w ← out 0 (if n <? maxlen then n else u32 (maxlen - 1)) maxlen w; Ok (n, w))); [done|lia|].
  intros w'. rewrite Z.add_0_l, u32_small by lia. cbn zeta.
  destruct (out 0 _ maxlen w') as [w2| | |]; [|done..]. by rewrite !bind_ok, s32_small by lia.
Qed.
End whole.

(** ** The output functions *)

Lemma emit_step out maxlen c t idx w :
  sends out maxlen (c :: t) idx w =
    (w ← out c idx maxlen w; sends out maxlen t (u32 (idx + 1)) w).
Proof. cbn [sends]. unfold emit. by destruct (out c idx maxlen w). Qed.

Lemma buffer_sends buffer maxlen text idx w :
  0 ≤ idx → idx + Z.of_nat (length text) < 2 ^ 32 →
  mapped (io_mem w) (buffer + idx) (Z.min (maxlen - idx) (Z.of_nat (length text))) →
  sends (out_buffer buffer) maxlen text idx w =
    Ok (idx + Z.of_nat (length text),
        mk_io (store_bytes (io_mem w) (buffer + idx) (take (Z.to_nat (maxlen - idx)) (u8 <$> text)))
              (io_chars w)).
Proof.
  revert idx w. induction text as [|c t IH]; intros idx w Hi Hn Hm; cbn [length fmap list_fmap] in *.
  { cbn [sends]. rewrite take_nil, Z.add_0_r. by destruct w. }
  rewrite emit_step, u32_small by lia. unfold out_buffer at 2. destruct (Z.ltb_spec idx maxlen) as [Hlt|Hge].
  - rewrite store_ok by (apply Hm; lia). rewrite !bind_ok.
    replace (Z.to_nat (maxlen - idx)) with (S (Z.to_nat (maxlen - (idx + 1)))) by lia.
    cbn [take store_bytes]. rewrite IH; [|lia|lia|].
    + cbn [io_mem io_chars]. do 2 f_equal; [lia|]. f_equal. by rewrite Z.add_assoc.
    + apply mapped_insert. eapply mapped_sub; [done|lia|lia].
  - rewrite bind_ok, IH by (lia || (intros a Ha; lia)).
    replace (Z.to_nat (maxlen - (idx + 1))) with O by lia.
    replace (Z.to_nat (maxlen - idx)) with O by lia. do 2 f_equal. lia.
Qed.

Lemma char_sends maxlen text idx w :
  0 ≤ idx → idx + Z.of_nat (length text) < 2 ^ 32 →
  sends out_char maxlen text idx w =
    Ok (idx + Z.of_nat (length text),
        mk_io (io_mem w) (io_chars w ++ (u8 <$> filter (λ c, truthy c = true) text))).
Proof.
  revert idx w. induction text as [|c t IH]; intros idx w Hi Hn; cbn [length] in *.
  { cbn [sends]. rewrite filter_nil, app_nil_r, Z.add_0_r. by destruct w. }
  rewrite emit_step, u32_small by lia. unfold out_char at 2. rewrite filter_cons. destruct (truthy c) eqn:E.
  - rewrite decide_True, bind_ok, IH by (done || lia). cbn [io_mem io_chars fmap list_fmap].
    rewrite <- app_assoc. do 2 f_equal. lia.
  - rewrite decide_False, bind_ok, IH by (done || lia). do 2 f_equal. lia.
Qed.

Lemma null_sends maxlen text idx w :
  0 ≤ idx → idx + Z.of_nat (length text) < 2 ^ 32 →
  sends out_null maxlen text idx w = Ok (idx + Z.of_nat (length text), w).
Proof.
  revert idx. induction text as [|c t IH]; intros idx Hi Hn; cbn [length] in *.
  { cbn [sends]. by rewrite Z.add_0_r. }
  rewrite emit_step, u32_small by lia. unfold out_null at 2. rewrite bind_ok, IH by lia. do 2 f_equal. lia.
Qed.

(** A format and the strings of its arguments, in a memory. *)
Record in_memory (m : mem) (format : Z) (s : list Z) (strs : gmap Z (list Z)) (lo hi : Z) : Prop := {
  im_format : cstr m format s;
  im_format_apart : format + Z.of_nat (length s) < lo ∨ hi ≤ format;
  im_string p t : strs !! p = Some t → cstr m p t;
  im_string_apart p t : strs !! p = Some t → p + Z.of_nat (length t) < lo ∨ hi ≤ p;
}.

Lemma cstr_apart m m' p s lo hi :
  cstr m p s → p + Z.of_nat (length s) < lo ∨ hi ≤ p →
  (∀ a, a < lo ∨ hi ≤ a → m' !! a = m !! a) → cstr m' p s.
Proof.
  intros [Hc Hb] Hd Heq. split; [done|]. intros i b Hi.
  rewrite Heq; [by apply Hb|]. apply lookup_lt_Some in Hi. rewrite length_app in Hi. cbn in Hi. lia.
Qed.

Section results.
Context (float_conv : out_fct_type → Z → Z → Z → Z → Z → Z → Z → io → res (Z * io)).
Context (m : mem) (cs : list Z) (format : Z) (s va text : list Z) (strs : gmap Z (list Z)).
Context (fuel L : nat).
Context (Hfm : formats strs s va text) (Hva : words va).
Context (Hf : (length s + L < fuel)%nat) (Hfit : strs_fit strs L).

Lemma run_out_buffer buffer maxlen :
  let n := Z.of_nat (length text) in
  in_memory m format s strs buffer (buffer + Z.min maxlen (n + 1)) → n < 2 ^ 31 - 1 →
  0 < maxlen < 2 ^ 32 → mapped m buffer (Z.min maxlen (n + 1)) →
  run_printf float_conv (out_buffer buffer) maxlen fuel format va (mk_io m cs) =
    Ok (n, mk_io (store_bytes m buffer (take (Z.to_nat (maxlen - 1)) (u8 <$> text) ++ [0])) cs).
Proof.
  intros n Him Hn Hmax Hmap. unfold run_printf.
  set (P w := ∀ a, a < buffer ∨ buffer + Z.min maxlen (n + 1) ≤ a → io_mem w !! a = m !! a).
  assert (HPo : ∀ c i w w', 0 ≤ i < n → P w → out_buffer buffer c i maxlen w = Ok w' → P w').
  { intros c i w w' Hi HP Ho. unfold out_buffer in Ho. destruct (Z.ltb_spec i maxlen); inv_ok; [|done].
    unfold store in Ho0. case_match; inv_ok. intros a Ha. cbn [io_mem].
    rewrite lookup_insert_ne by lia. by apply HP. }
  assert (HPs : ∀ w p t, P w → strs !! p = Some t → cstr (io_mem w) p t).
  { intros w p t HP Ht. eapply cstr_apart; [by eapply im_string|by eapply im_string_apart|done]. }
  assert (HPf : ∀ w, P w → cstr (io_mem w) format s).
  { intros w HP. eapply cstr_apart; [by eapply im_format|by eapply im_format_apart|done]. }
  rewrite (vsnprintf_sends _ maxlen _ strs P n ltac:(lia) HPo HPs fuel format s va text _ L)
    by (done || lia).
  rewrite buffer_sends; [|lia|lia|].
  2: { cbn [io_mem]. eapply mapped_sub; [done|lia|lia]. }
  rewrite bind_ok. fold n. cbn zeta. rewrite Z.sub_0_r, Z.add_0_r. unfold out_buffer. cbn [io_mem io_chars].
  destruct (Z.ltb_spec n maxlen) as [Hlt|Hge].
  - rewrite (proj2 (Z.ltb_lt _ _)) by lia.
    rewrite store_ok by (apply (mapped_store_bytes _ _ _ _ _ Hmap); lia).
    rewrite !bind_ok. rewrite !take_ge by (rewrite length_fmap; lia).
    by rewrite <- store_bytes_snoc, length_fmap.
  - rewrite u32_small, (proj2 (Z.ltb_lt _ _)) by lia.
    rewrite store_ok by (apply (mapped_store_bytes _ _ _ _ _ Hmap); lia).
    rewrite !bind_ok. do 2 f_equal.
    destruct (lookup_lt_is_Some_2 (u8 <$> text) (Z.to_nat (maxlen - 1))) as [c Hc]; [rewrite length_fmap; lia|].
    replace (Z.to_nat maxlen) with (S (Z.to_nat (maxlen - 1))) by lia.
    rewrite (take_S_r _ _ c) by done. rewrite <- !store_bytes_snoc, length_take, length_fmap.
    replace (buffer + Z.of_nat (Z.to_nat (maxlen - 1) `min` length text)) with (buffer + (maxlen - 1)) by lia.
    by rewrite insert_insert_eq.
Qed.
End results.
