(* ===== verification/PrintfSpec.v ===== *)
(** * Formatted output: the theorems on the entry points and on the numerals

    [std_text] ([std_number] in steps closer to the code) is the text the C standard asks for an integer conversion;
    the conversions of the code agree with it up to the size of the digit array,
    and differ where the array is full or a precision meets the flag [-]. *)

From S2P Require Import Prelude CMem CText CNumFacts Printf PrintfFacts.

(** ** Entry points *)

Section entry_points.
Context (float_conv : out_fct_type → Z → Z → Z → Z → Z → Z → Z → io → res (Z * io)).
Implicit Types (m : mem) (cs s va text : list Z) (strs : gmap Z (list Z)) (fuel L : nat).

(** C14: [snprintf] stores the longest prefix of the text that fits in [count] bytes with
    its terminator, touches no other byte, and returns the length of the whole text,
    for a format and strings that lie outside the part of the buffer it writes. *)
Theorem snprintf_truncates m cs format s va text strs fuel L buffer count :
  formats strs s va text → words va → (length s + L < fuel)%nat → strs_fit strs L →
  let n := Z.of_nat (length text) in
  n < 2 ^ 31 - 1 → buffer ≠ 0 → 0 < count < 2 ^ 32 →
  in_memory m format s strs buffer (buffer + Z.min count (n + 1)) →
  mapped m buffer (Z.min count (n + 1)) →
  snprintf float_conv fuel buffer count format va (mk_io m cs) =
    Ok (n, mk_io (store_bytes m buffer (take (Z.to_nat (count - 1)) (u8 <$> text) ++ [0])) cs).
Proof.
  intros Hfm Hva Hf Hfit n Hn Hb Hc Him Hmap. unfold snprintf. rewrite (proj2 (truthy_true buffer) Hb).
  by apply (run_out_buffer float_conv m cs format s va text strs fuel L).
Qed.

(** Without a buffer nothing is stored and the length is returned. *)
Theorem snprintf_measures m cs format s va text strs fuel L count :
  formats strs s va text → words va → (length s + L < fuel)%nat → strs_fit strs L →
  Z.of_nat (length text) < 2 ^ 31 - 1 → in_memory m format s strs 0 0 →
  snprintf float_conv fuel 0 count format va (mk_io m cs) =
    Ok (Z.of_nat (length text), mk_io m cs).
Proof.
  intros Hfm Hva Hf Hfit Hn Him. unfold snprintf, run_printf. cbn [truthy].
  set (n := Z.of_nat (length text)) in *. set (P w := w = mk_io m cs).
  assert (HPo : ∀ c i w w', 0 ≤ i < n → P w → out_null c i count w = Ok w' → P w').
  { unfold P, out_null. intros c i w w' _ -> [= <-]. done. }
  assert (HPs : ∀ w p t, P w → strs !! p = Some t → cstr (io_mem w) p t).
  { intros w p t -> Ht. by eapply im_string. }
  assert (HPf : ∀ w, P w → cstr (io_mem w) format s) by (intros w ->; by eapply im_format).
  rewrite (vsnprintf_sends _ count _ strs P n ltac:(lia) HPo HPs fuel format s va text _ L)
    by (done || lia).
  by rewrite null_sends by lia.
Qed.

(** [printf] gives the text to [putchar] and nothing else happens. *)
Theorem printf_prints m cs format s va text strs fuel L :
  formats strs s va text → words va → (length s + L < fuel)%nat → strs_fit strs L →
  Z.of_nat (length text) < 2 ^ 31 - 1 → in_memory m format s strs 0 0 →
  printf float_conv fuel format va (mk_io m cs) =
    Ok (Z.of_nat (length text),
        mk_io m (cs ++ (u8 <$> filter (λ c, truthy c = true) text))).
Proof.
  intros Hfm Hva Hf Hfit Hn Him. unfold printf, run_printf.
  set (n := Z.of_nat (length text)) in *. set (P w := io_mem w = m).
  assert (HPo : ∀ c i w w', 0 ≤ i < n → P w → out_char c i (2 ^ 32 - 1) w = Ok w' → P w').
  { intros c i w w' _ HP Ho. unfold P, out_char in *. by case_match; simplify_eq. }
  assert (HPs : ∀ w p t, P w → strs !! p = Some t → cstr (io_mem w) p t).
  { intros w p t HP Ht. rewrite HP. by eapply im_string. }
  assert (HPf : ∀ w, P w → cstr (io_mem w) format s) by (intros w ->; by eapply im_format).
  rewrite (vsnprintf_sends _ _ _ strs P n ltac:(lia) HPo HPs fuel format s va text _ L)
    by (done || lia).
  rewrite char_sends by lia. rewrite bind_ok. cbn zeta. fold n.
  by rewrite (proj2 (Z.ltb_lt n _)) by lia.
Qed.

(** The terminator as a specifier: "sent", and passed. *)
Lemma directive_nul out maxlen fc fuel p idx va w :
  cstr (io_mem w) p [] →
  directive out maxlen fc (S fuel) p idx va w =
    ('(idx, w) ← emit out maxlen 0 idx w; Ok (p + 1, idx, va, w)).
Proof.
  intros Hs. apply load_head in Hs as Hl. cbn [head default from_option id] in Hl.
  assert (H1 : parse_flags (S fuel) (io_mem w) p 0 = Ok (0, p)) by (cbn [parse_flags]; rewrite Hl, bind_ok; done).
  assert (H2 : parse_width (S fuel) (io_mem w) p 0 va = Ok (0, 0, p, va)) by (unfold parse_width; rewrite Hl, bind_ok; done).
  assert (H3 : parse_precision (S fuel) (io_mem w) p 0 va = Ok (0, 0, p, va))
    by (unfold parse_precision; rewrite Hl, bind_ok; done).
  assert (H4 : parse_length (io_mem w) p 0 = Ok (0, p)) by (unfold parse_length; rewrite Hl, bind_ok; done).
  unfold directive. cbn zeta. rewrite H1, bind_ok, H2, bind_ok, H3, bind_ok, H4, bind_ok, Hl, bind_ok.
  unfold convert. change (is_int_spec 0) with false. change (is_float_spec 0) with false. cbn -[emit].
  change (s8 0) with 0.
  by destruct (emit out maxlen 0 idx w) as [[? ?]| | |].
Qed.

Lemma emit_char_ok maxlen c idx m cs :
  ∃ cs', emit out_char maxlen c idx (mk_io m cs) = Ok (u32 (idx + 1), mk_io m cs').
Proof. unfold emit, out_char. destruct (truthy c); cbn; eauto. Qed.

(** A format that ends with a single [%] is read past its end: the terminator is
    taken for the specifier and the scan goes on behind it. *)
Theorem percent_at_end_overreads m cs s va format fuel :
  cstr m format (s ++ [37]) → Forall (λ c, c ≠ 37) s →
  m !! (format + Z.of_nat (length s) + 2) = None → (length s + 3 < fuel)%nat →
  printf float_conv fuel format va (mk_io m cs) = Fault.
Proof.
  intros Hs Hc Hend Hf. unfold printf, run_printf, _vsnprintf.
  enough (∀ idx cs, vsnprintf_loop out_char (2 ^ 32 - 1) (float_conv out_char (2 ^ 32 - 1)) fuel format idx va
            (mk_io m cs) = Fault) as -> by done.
  revert format fuel Hs Hend Hf. induction Hc as [|c s Hc37 Hc IH];
    intros format fuel Hs Hend Hf idx cs'; (destruct fuel as [|fuel]; [cbn in Hf; lia|]);
    cbn [vsnprintf_loop app length io_mem] in *; rewrite (load_head _ _ _ Hs), bind_ok; cbn [head default from_option id].
  - cbn [truthy Z.eqb Pos.eqb negb]. apply cstr_cons in Hs as (_ & _ & Hs).
    destruct fuel as [|fuel]; [lia|]. rewrite directive_nul by done. 
    destruct (emit_char_ok (2 ^ 32 - 1) 0 idx m cs') as [cs2 ->]. rewrite !bind_ok. cbn [vsnprintf_loop io_mem]. unfold load at 1.
    replace (format + 1 + 1) with (format + Z.of_nat 0 + 2) by lia. by rewrite Hend.
  - apply cstr_cons in Hs as (Hr & _ & Hs).
    rewrite (proj2 (truthy_true c)), (proj2 (Z.eqb_neq c 37)) by lia. cbn [negb].
    destruct (emit_char_ok (2 ^ 32 - 1) (s8 c) idx m cs') as [cs2 ->]. rewrite bind_ok.
    apply IH; [done| |lia]. rewrite <- Hend. f_equal. lia.
Qed.
End entry_points.

(** ** Integer conversions and the C standard *)

(** The digits of a number, most significant first; none for a zero with an explicit
    precision of 0. *)
Definition std_digits (mag base prec flags : Z) : list Z :=
  let ds := if negb (has flags FLAGS_PRECISION) || truthy mag
            then rev (digit_char flags <$> digits_rev 32 base mag) else [] in
  replicate (Z.to_nat (prec - Z.of_nat (length ds))) 48 ++ ds.

(** The text of an integer conversion: sign, at least [prec] digits, and the width
    filled with blanks on the right, zeros after the sign, or blanks on the left. *)
Definition std_number (mag : Z) (negative : bool) (base prec width flags : Z) : list Z :=
  let ds := std_digits mag base prec flags in
  let sg := sign_char negative flags in
  let fill := Z.to_nat (width - Z.of_nat (length (sg ++ ds))) in
  if has flags FLAGS_LEFT then sg ++ ds ++ replicate fill 32
  else if has flags FLAGS_ZEROPAD then sg ++ replicate fill 48 ++ ds
  else replicate fill 32 ++ sg ++ ds.

Section numbers.
Implicit Types (mag base prec width flags : Z) (negative : bool).

Lemma rev_replicate (n : nat) (c : Z) : rev (replicate n c) = replicate n c.
Proof.
  induction n as [|n IH]; [done|]. cbn [replicate rev]. rewrite IH. symmetry. apply replicate_S_end.
Qed.

Lemma clear_absent flags i : 0 ≤ i → has flags (Z.shiftl 1 i) = false → clear_flag flags (Z.shiftl 1 i) = flags.
Proof.
  intros Hi H. rewrite has_bit in H by done. apply Z.bits_inj'. intros j Hj. unfold clear_flag.
  rewrite testbit_clear_bit by done. destruct (Z.eqb_spec i j) as [->|]; [by rewrite H|done].
Qed.

Lemma digit_char_range base flags d : 2 ≤ base ≤ 16 → 0 ≤ d < base → 48 ≤ digit_char flags d ≤ 102.
Proof. intros. unfold digit_char. repeat case_if; lia. Qed.

Lemma digits_u8 base flags mag n :
  2 ≤ base ≤ 16 →
  (λ d, u8 (digit_char flags d)) <$> digits_rev n base mag = digit_char flags <$> digits_rev n base mag.
Proof.
  intros Hb. apply list_fmap_ext. intros i d Hd. apply u8_small.
  pose proof (digits_rev_range base ltac:(lia) n mag) as Hr. rewrite Forall_lookup in Hr.
  pose proof (digit_char_range base flags d Hb (Hr _ _ Hd)). lia.
Qed.

Lemma sign_char_length negative flags : (length (sign_char negative flags) ≤ 1)%nat.
Proof. unfold sign_char. repeat case_if; cbn; lia. Qed.

Lemma sign_char_present negative flags :
  negative || has flags (Z.lor FLAGS_PLUS FLAGS_SPACE) = false → sign_char negative flags = [].
Proof.
  intros H. apply orb_false_iff in H as [-> H]. unfold sign_char.
  assert (Hz : Z.lor (Z.land flags FLAGS_PLUS) (Z.land flags FLAGS_SPACE) = 0).
  { rewrite <- Z.land_lor_distr_r. by apply truthy_false. }
  apply Z.lor_eq_0_iff in Hz as [H1 H2]. unfold has. by rewrite H1, H2.
Qed.

Lemma sign_char_absent negative flags :
  negative || has flags (Z.lor FLAGS_PLUS FLAGS_SPACE) = true → length (sign_char negative flags) = 1%nat.
Proof.
  intros H. unfold sign_char. destruct negative; [done|]. cbn [orb] in H.
  destruct (has flags FLAGS_PLUS) eqn:E1; [done|]. destruct (has flags FLAGS_SPACE) eqn:E2; [done|].
  exfalso. unfold has in *. rewrite Z.land_lor_distr_r in H. apply truthy_false in E1, E2.
  by rewrite E1, E2 in H.
Qed.

(** The cells and the width without the flag [#]. *)
Lemma num_text_plain mag negative base prec width flags :
  2 ≤ base ≤ 16 → has flags FLAGS_HASH = false →
  let digits := if negb (has flags FLAGS_PRECISION) || truthy mag
                then digit_char flags <$> digits_rev 32 base mag else [] in
  num_text mag negative base prec width flags =
    padded (stored (num_zeros digits negative prec width flags) (sign_char negative flags))
      (num_width negative width flags) flags.
Proof.
  intros Hb Hh digits. unfold num_text, num_cells. cbn zeta.
  assert ((if truthy mag then flags else clear_flag flags FLAGS_HASH) = flags) as ->.
  { destruct (truthy mag); [done|]. unfold FLAGS_HASH in *. by apply clear_absent. }
  unfold num_hash. rewrite Hh, digits_u8 by done. done.
Qed.

Lemma rev_short (l : list Z) : (length l ≤ 1)%nat → rev l = l.
Proof. destruct l as [|x [|y l]]; cbn; [done|done|lia]. Qed.

Lemma zeros_to_small limit buf :
  limit ≤ 32 → zeros_to limit buf = buf ++ replicate (Z.to_nat (limit - Z.of_nat (length buf))) 48.
Proof. intros. unfold zeros_to. by rewrite Z.min_l by lia. Qed.

Lemma num_text_std mag negative base prec width flags :
  2 ≤ base ≤ 16 → 0 ≤ mag < base ^ 31 → has flags FLAGS_HASH = false →
  0 ≤ prec ≤ 31 → 0 ≤ width →
  (has flags FLAGS_LEFT = true → prec ≤ 0) →
  (has flags FLAGS_LEFT = false → has flags FLAGS_ZEROPAD = true → width ≤ 32) →
  num_text mag negative base prec width flags = std_number mag negative base prec width flags.
Proof.
  intros Hb Hm Hh Hp Hw HL HZ. rewrite num_text_plain by done. cbn zeta.
  unfold std_number, std_digits, num_zeros, padded. cbn zeta.
  set (ds := if _ || _ then digit_char flags <$> digits_rev 32 base mag else []).
  assert (Hlen : (length ds ≤ 31)%nat).
  { subst ds. case_if; [|cbn; lia]. rewrite length_fmap. by apply (digits_rev_length base ltac:(lia) 32 mag 30). }
  replace (if _ || _ then rev (digit_char flags <$> digits_rev 32 base mag) else []) with (rev ds)
    by (subst ds; by destruct (_ || _)).
  set (sg := sign_char negative flags). pose proof (sign_char_length negative flags) as Hsg. fold sg in Hsg.
  assert (Hst : ∀ l : list Z, (length l ≤ 31)%nat ∨ ((length l ≤ 32)%nat ∧ sg = []) → stored l sg = l ++ sg).
  { intros l Hl. unfold stored. apply take_ge. rewrite length_app. destruct Hl as [|[? ->]]; cbn; lia. }
  rewrite length_rev. destruct (has flags FLAGS_LEFT) eqn:EL; cbn [negb andb].
  - unfold num_width. rewrite EL. cbn [negb andb]. rewrite Hst, rev_app_distr, (rev_short sg) by auto.
    replace (Z.to_nat (prec - _)) with O by lia. cbn [replicate app].
    rewrite <- app_assoc, !length_app, length_rev. do 4 f_equal. lia.
  - rewrite (zeros_to_small prec) by lia. set (z := Z.to_nat (prec - Z.of_nat (length ds))).
    assert (Hz : (length (ds ++ replicate z 48%Z) ≤ 31)%nat) by (rewrite length_app, length_replicate; lia).
    destruct (has flags FLAGS_ZEROPAD) eqn:EZ; cbn [negb app].
    + assert (Hnw : num_width negative width flags ≤ 32 - Z.of_nat (length sg) ∧
        Z.to_nat (num_width negative width flags - Z.of_nat (length (ds ++ replicate z 48%Z))) =
        Z.to_nat (width - Z.of_nat (length (sg ++ replicate z 48%Z ++ rev ds)))).
      { unfold num_width. rewrite EL, EZ, !length_app, length_rev, !length_replicate. cbn [negb andb].
        rewrite andb_true_r. destruct (negative || _) eqn:Es.
        - apply sign_char_absent in Es as Hs1. fold sg in Hs1. rewrite Hs1, andb_true_r.
          destruct (truthy width) eqn:Et; [|apply truthy_false in Et]; lia.
        - rewrite andb_false_r. apply sign_char_present in Es. fold sg in Es. rewrite Es. cbn [length]. lia. }
      destruct Hnw as [Hnw1 Hnw2]. rewrite zeros_to_small by lia. rewrite Hst, app_nil_r.
      * rewrite Hnw2, !rev_app_distr, !rev_replicate, (rev_short sg) by done.
        done.
      * rewrite length_app, length_replicate. destruct sg as [|c sg'] eqn:Esg; [right|left]; cbn [length] in *;
          [split; [lia|done]|lia].
    + unfold num_width. rewrite EL, EZ, andb_false_r. cbn [negb andb].
      rewrite Hst by by left. rewrite !rev_app_distr, rev_replicate, (rev_short sg), app_nil_r by done.
      rewrite <- !app_assoc. do 3 f_equal. rewrite !length_app, length_rev. lia.
Qed.

(** *** The text as the standard words it

    The characters of the digits, the places of a number in its base (place [k] counts
    [base ^ k]; there is one more than the powers from [base] on that are not above the
    number), and the fields of a directive. *)
Definition std_digit (upper : bool) (d : Z) : Z :=
  nth (Z.to_nat d) ([48; 49; 50; 51; 52; 53; 54; 55; 56; 57] ++
                    if upper then [65; 66; 67; 68; 69; 70] else [97; 98; 99; 100; 101; 102]) 0.

Definition places base mag (n : nat) : nat := S (length (filter (λ k, base ^ Z.of_nat k ≤ mag) (seq 1 n))).

Definition std_numeral (upper : bool) base mag : list Z :=
  (λ k, std_digit upper (mag / base ^ Z.of_nat k mod base)) <$> rev (seq 0 (places base mag 31)).

Definition std_text mag negative base prec width flags : list Z :=
  let digits := if has flags FLAGS_PRECISION && (mag =? 0) then [] else std_numeral (has flags FLAGS_UPPERCASE) base mag in
  let number := replicate (Z.to_nat (prec - Z.of_nat (length digits))) 48 ++ digits in
  let sign := if negative then [45] else if has flags FLAGS_PLUS then [43] else if has flags FLAGS_SPACE then [32] else [] in
  let fill := Z.to_nat (width - Z.of_nat (length sign + length number)) in
  if has flags FLAGS_LEFT then sign ++ number ++ replicate fill 32
  else if has flags FLAGS_ZEROPAD then sign ++ replicate fill 48 ++ number
  else replicate fill 32 ++ sign ++ number.

Lemma std_digit_char base flags d : 2 ≤ base ≤ 16 → 0 ≤ d < base → digit_char flags d = std_digit (has flags FLAGS_UPPERCASE) d.
Proof.
  intros Hb Hd. unfold digit_char, std_digit.
  assert (d ∈ seqZ 0 16) as Hin by (apply elem_of_seqZ; lia).
  repeat (apply elem_of_cons in Hin as [->|Hin]; [by destruct (has flags FLAGS_UPPERCASE)|]).
  by apply elem_of_nil in Hin.
Qed.

Lemma count_succ (P Q : nat → Prop) `{∀ k, Decision (P k)} `{∀ k, Decision (Q k)} (l : list nat) :
  (∀ k, P (S k) ↔ Q k) → length (filter P (S <$> l)) = length (filter Q l).
Proof.
  intros HPQ. induction l as [|k l IH]; [done|]. cbn [fmap list_fmap]. rewrite !filter_cons.
  destruct (decide (P (S k))) as [Hp|Hp].
  - rewrite decide_True by (by apply HPQ). cbn [length]. by rewrite <- IH.
  - rewrite decide_False by (by rewrite <- HPQ). done.
Qed.

(** The places of a number but the lowest are those of the number without its last digit. *)
Lemma places_step base mag n :
  2 ≤ base → 0 ≤ mag → base ≤ mag → places base mag (S n) = S (places base (mag / base) n).
Proof.
  intros Hb H0 Hge. unfold places. cbn [seq]. rewrite filter_cons. rewrite decide_True by (by rewrite Z.pow_1_r).
  cbn [length]. do 2 f_equal. change (seq 2 n) with (seq (S 1) n). rewrite <- fmap_S_seq. apply count_succ.
  intros k. rewrite Nat2Z.inj_succ, Z.pow_succ_r by lia.
  split; [intros; by apply Z.div_le_lower_bound; lia|]. intros Hk. pose proof (Z.mul_div_le mag base). nia.
Qed.

Lemma places_one base mag n : 2 ≤ base → mag < base → places base mag n = 1%nat.
Proof.
  intros Hb Hlt. unfold places. f_equal. destruct (filter _ _) as [|k l] eqn:E; [done|]. exfalso.
  assert (Hk : k ∈ filter (λ k, base ^ Z.of_nat k ≤ mag) (seq 1 n)) by (rewrite E; left).
  apply list_elem_of_filter in Hk as [Hk Hs]. apply elem_of_seq in Hs.
  pose proof (Z.pow_le_mono_r base 1 (Z.of_nat k)). lia.
Qed.

Lemma digits_rev_places base n mag :
  2 ≤ base → 0 ≤ mag → mag < base ^ Z.of_nat (S n) →
  digits_rev (S n) base mag = (λ k, mag / base ^ Z.of_nat k mod base) <$> seq 0 (places base mag n).
Proof.
  intros Hb. revert mag. induction n as [|n IH]; intros mag H0 Hlt.
  { cbn [digits_rev]. rewrite places_one by lia. cbn. rewrite Z.div_1_r. by case_if. }
  set (m := S n) in *. cbn [digits_rev]. destruct (Z.lt_ge_cases mag base) as [Hs|Hs].
  { rewrite places_one by done. rewrite Z.div_small by lia. cbn. by rewrite Z.div_1_r. }
  assert (0 < mag / base) by (apply Z.div_str_pos; lia). rewrite (proj2 (Z.ltb_lt _ _)) by done. subst m.
  rewrite IH; [|lia|apply Z.div_lt_upper_bound; [lia|]; rewrite Nat2Z.inj_succ, Z.pow_succ_r in Hlt by lia; lia].
  rewrite places_step by done. cbn [seq fmap list_fmap]. rewrite Z.pow_0_r, Z.div_1_r. f_equal.
  rewrite <- fmap_S_seq, <- list_fmap_compose. apply list_fmap_ext. intros _ k _. cbn.
  rewrite Nat2Z.inj_succ, Z.pow_succ_r, Z.div_div by lia. done.
Qed.

Lemma std_numeral_digits base flags mag :
  2 ≤ base ≤ 16 → 0 ≤ mag < base ^ 31 →
  rev (digit_char flags <$> digits_rev 32 base mag) = std_numeral (has flags FLAGS_UPPERCASE) base mag.
Proof.
  intros Hb Hm. unfold std_numeral. rewrite <- fmap_rev, !fmap_rev. f_equal.
  rewrite (digits_rev_places base 31) by (try lia; pose proof (Z.pow_le_mono_r base 31 32); lia).
  rewrite <- list_fmap_compose. apply list_fmap_ext. intros _ k _. cbn.
  apply (std_digit_char base); [done|]. apply Z.mod_pos_bound. lia.
Qed.

Lemma std_number_text mag negative base prec width flags :
  2 ≤ base ≤ 16 → 0 ≤ mag < base ^ 31 → std_number mag negative base prec width flags = std_text mag negative base prec width flags.
Proof.
  intros Hb Hm. unfold std_number, std_text, std_digits, sign_char. cbn zeta. rewrite std_numeral_digits by done.
  assert (E : ∀ A (x y : A), (if negb (has flags FLAGS_PRECISION) || truthy mag then x else y) = if has flags FLAGS_PRECISION && (mag =? 0) then y else x).
  { intros A x y. unfold truthy. by destruct (has flags FLAGS_PRECISION), (mag =? 0). }
  rewrite E. rewrite length_app. done.
Qed.

(** C20: Without [#], as long as digits and zeros fit the array of 32 characters and a
    precision does not meet the flag [-], [_ntoa_long] and [_ntoa_long_long] pass the text
    that the standard asks for to the output function, one character after the other,
    whatever that function is; with a buffer for it they store it there. *)
Theorem ntoa_long_standard mag negative base prec width flags :
  2 ≤ base ≤ 16 → 0 ≤ mag < base ^ 31 → has flags FLAGS_HASH = false →
  0 ≤ prec ≤ 31 → 0 ≤ width →
  (has flags FLAGS_LEFT = true → prec ≤ 0) →
  (has flags FLAGS_LEFT = false → has flags FLAGS_ZEROPAD = true → width ≤ 32) →
  let text := std_text mag negative base prec width flags in
  (∀ out maxlen idx w, 0 ≤ idx < 2 ^ 32 →
    ntoa_long out maxlen idx mag negative base prec width flags w = sends out maxlen text idx w ∧
    ntoa_long_long out maxlen idx mag negative base prec width flags w = sends out maxlen text idx w) ∧
  (∀ m cs buffer maxlen, Z.of_nat (length text) < 2 ^ 32 → Z.of_nat (length text) ≤ maxlen →
    mapped m buffer (Z.of_nat (length text)) →
    ntoa_long (out_buffer buffer) maxlen 0 mag negative base prec width flags (mk_io m cs) =
    Ok (Z.of_nat (length text), mk_io (store_bytes m buffer (u8 <$> text)) cs)).
Proof.
  intros Hb Hm Hh Hp Hw HL HZ text.
  assert (Htext : num_text mag negative base prec width flags = text) by (unfold text; rewrite num_text_std, std_number_text; done).
  split.
  - intros out maxlen idx w Hi. change (ntoa_long_long out maxlen) with (ntoa_long out maxlen).
    rewrite ntoa_long_sends, Htext by (done || lia). done.
  - intros m cs buffer maxlen Hlen Hmax Hmap. rewrite ntoa_long_sends, Htext by (done || lia).
    rewrite buffer_sends; [|lia|lia|cbn [io_mem]; rewrite Z.add_0_r, Z.sub_0_r, Z.min_r by done; done].
    cbn [io_mem io_chars]. rewrite Z.add_0_r, Z.sub_0_r, Z.add_0_l. do 3 f_equal. rewrite take_ge; [done|]. rewrite length_fmap. lia.
Qed.
End numbers.

(** ** Printed numbers are read back *)

Lemma value_of_snoc base ds d : value_of base (ds ++ [d]) = value_of base ds * base + d.
Proof. unfold value_of. by rewrite foldl_app. Qed.

Lemma value_of_rev base ds : value_of base (rev ds) = value_rev base ds.
Proof.
  induction ds as [|d ds IH]; [done|]. cbn [rev value_rev]. rewrite value_of_snoc, IH. lia.
Qed.

Lemma numeral_digits mag n :
  numeral 10 (rev (digit_char 0 <$> digits_rev n 10 mag)) (rev (digits_rev n 10 mag)).
Proof.
  unfold numeral. rewrite <- fmap_rev. apply Forall2_fmap_l, Forall_Forall2_diag.
  apply Forall_rev. eapply Forall_impl; [apply (digits_rev_range 10 ltac:(lia))|].
  intros d Hd. cbn in Hd.
  assert (d = 0 ∨ d = 1 ∨ d = 2 ∨ d = 3 ∨ d = 4 ∨ d = 5 ∨ d = 6 ∨ d = 7 ∨ d = 8 ∨ d = 9) as Hc by lia.
  by repeat destruct Hc as [->|Hc]; subst.
Qed.

Lemma directive_d strs v :
  -2 ^ 31 ≤ v < 2 ^ 31 →
  directive_text strs [100] [u32 v] = Some (num_text (Z.abs v) (v <? 0) 10 0 0 0, [], []).
Proof.
  intros Hv. unfold directive_text. cbn -[conv_text].
  unfold conv_text. change (is_int_spec 100) with true. unfold int_text. cbn [sp_flags sp_width sp_prec].
  change (int_arg 100 (int_flags 100 0) [u32 v]) with (Ok (s32 (u32 v), [] : list Z)).
  assert (s32 (u32 v) = v) as ->.
  { unfold s32, u32. rewrite Zplus_mod_idemp_l. rewrite Z.mod_small; lia. }
  change (has (int_flags 100 0) FLAGS_LONG_LONG) with false. change (is_signed_spec 100) with true.
  cbn [andb]. by rewrite u32_small by lia.
Qed.

(** The text of [%d]. *)
Definition decimal (v : Z) : list Z :=
  (if v <? 0 then [45] else []) ++ rev (digit_char 0 <$> digits_rev 32 10 (Z.abs v)).

Lemma formats_d strs v : -2 ^ 31 ≤ v < 2 ^ 31 → formats strs [37; 100] [u32 v] (decimal v).
Proof.
  intros Hv. rewrite <- (app_nil_r (decimal v)).
  replace (decimal v) with (num_text (Z.abs v) (v <? 0) 10 0 0 0).
  { eapply formats_directive; [by apply directive_d|constructor]. }
  rewrite num_text_std by (done || lia). unfold std_number, std_digits, decimal, sign_char. cbn zeta.
  change (has 0 FLAGS_LEFT) with false. change (has 0 FLAGS_ZEROPAD) with false.
  change (has 0 FLAGS_PRECISION) with false. change (has 0 FLAGS_PLUS) with false.
  change (has 0 FLAGS_SPACE) with false. cbn [negb orb]. set (ds := rev _).
  assert (H0 : ∀ l : list Z, replicate (Z.to_nat (0 - Z.of_nat (length l))) 32 = []).
  { intros l. by replace (Z.to_nat _) with O by lia. }
  rewrite H0. replace (Z.to_nat (0 - Z.of_nat (length ds))) with O by lia. done.
Qed.

Lemma decimal_length v : -2 ^ 31 ≤ v < 2 ^ 31 → (length (decimal v) ≤ 11)%nat.
Proof.
  intros Hv. unfold decimal. rewrite length_app, length_rev, length_fmap.
  pose proof (digits_rev_length 10 ltac:(lia) 32 (Z.abs v) 9 ltac:(lia)). case_if; cbn [length]; lia.
Qed.

Lemma decimal_chars v : Forall (λ c, 0 ≤ c < 256) (decimal v).
Proof.
  unfold decimal. apply Forall_app. split; [case_if; repeat constructor; lia|].
  apply Forall_rev, Forall_fmap. eapply Forall_impl; [apply (digits_rev_range 10 ltac:(lia))|].
  intros d Hd. cbn in *. pose proof (digit_char_range 10 0 d ltac:(lia) Hd). lia.
Qed.

Section roundtrip.
Context (float_conv : out_fct_type → Z → Z → Z → Z → Z → Z → Z → io → res (Z * io)).

(** Every [int] printed with [%d] into 12 bytes is read back by [strtol]. *)
Theorem printed_int_is_read_back m cs format v fuel buffer :
  -2 ^ 31 ≤ v < 2 ^ 31 → cstr m format [37; 100] → buffer ≠ 0 →
  format + 2 < buffer ∨ buffer + 12 ≤ format → mapped m buffer 12 → (33 < fuel)%nat →
  ∃ n m', snprintf float_conv fuel buffer 12 format [u32 v] (mk_io m cs) = Ok (n, mk_io m' cs) ∧
    strtol fuel m' buffer 10 = Ok (v, buffer + n).
Proof.
  intros Hv Hfmt Hb Hd Hm Hf. pose proof (decimal_length v Hv) as Hl.
  assert (Hu8 : u8 <$> decimal v = decimal v).
  { rewrite <- (list_fmap_id (decimal v)) at 2. apply list_fmap_ext. intros i c Hc. apply u8_small.
    pose proof (decimal_chars v) as Hr. rewrite Forall_lookup in Hr. by apply Hr in Hc. }
  exists (Z.of_nat (length (decimal v))), (store_bytes m buffer (decimal v ++ [0])). split.
  - unfold snprintf. rewrite (proj2 (truthy_true buffer) Hb).
    rewrite (run_out_buffer float_conv m cs format [37; 100] [u32 v] (decimal v) ∅ fuel 1); try done; try lia.
    + rewrite Hu8, take_ge by (cbn; lia). done.
    + by apply formats_d.
    + constructor; [apply u32_range|constructor].
    + cbn [length]. lia.
    + split; [done|cbn; lia|done|done].
    + eapply mapped_sub; [done|lia|lia].
  - unfold decimal in *. set (ds := digits_rev 32 10 (Z.abs v)) in *.
    rewrite (strtol_ok _ buffer 10 0 [] (if v <? 0 then [45] else []) (rev (digit_char 0 <$> ds)) (rev ds) fuel);
      try done; try lia.
    + cbn [app]. subst ds. rewrite value_of_rev, digits_rev_value by lia. f_equal. f_equal.
      unfold clamp_long, LONG_MIN, LONG_MAX. destruct (Z.ltb_spec v 0).
      * rewrite decide_True by done. lia.
      * rewrite decide_False by done. lia.
    + destruct (v <? 0); [right; left|left].
    + apply numeral_digits.
    + intros H. apply (f_equal (@length Z)) in H. by rewrite length_rev, length_fmap in H.
    + cbn [app]. rewrite app_assoc. apply bytes_at_store_bytes.
    + cbn. lia.
    + rewrite length_app in Hl. lia.
Qed.
End roundtrip.

(** ** Where the code departs from the standard *)

(** With the flag [-] the precision is ignored: no leading zeros are stored. *)
Theorem left_flag_drops_precision mag negative base prec width flags :
  2 ≤ base ≤ 16 → has flags FLAGS_HASH = false → has flags FLAGS_LEFT = true →
  num_text mag negative base prec width flags = num_text mag negative base 0 width flags.
Proof.
  intros Hb Hh HL. rewrite !num_text_plain by done. cbn zeta. unfold num_zeros. by rewrite HL.
Qed.

(** Zero padding stops at 32 characters, whatever the width. *)
Theorem zero_padding_capped mag negative base prec width flags :
  2 ≤ base ≤ 16 → has flags FLAGS_HASH = false → has flags FLAGS_LEFT = false →
  has flags FLAGS_ZEROPAD = true →
  (length (num_text mag negative base prec width flags) ≤ 32)%nat.
Proof.
  intros Hb Hh HL HZ. rewrite num_text_plain by done. cbn zeta. unfold padded.
  rewrite HL, HZ, app_nil_r. cbn [negb andb app]. rewrite length_rev. apply stored_length.
Qed.

Lemma digits_rev_low n mag mag' :
  2 ^ Z.of_nat n ≤ mag → 2 ^ Z.of_nat n ≤ mag' →
  mag mod 2 ^ Z.of_nat n = mag' mod 2 ^ Z.of_nat n →
  digits_rev n 2 mag = digits_rev n 2 mag'.
Proof.
  revert mag mag'. induction n as [|n IH]; intros mag mag' Hm Hm' Heq; [done|]. cbn [digits_rev].
  rewrite Nat2Z.inj_succ, Z.pow_succ_r in * by lia.
  assert (Hp : 0 < 2 ^ Z.of_nat n) by (apply Z.pow_pos_nonneg; lia).
  rewrite !Z.rem_mul_r in Heq by lia.
  pose proof (Z.mod_pos_bound mag 2). pose proof (Z.mod_pos_bound mag' 2).
  assert (2 ^ Z.of_nat n ≤ mag / 2) by (apply Z.div_le_lower_bound; lia).
  assert (2 ^ Z.of_nat n ≤ mag' / 2) by (apply Z.div_le_lower_bound; lia).
  rewrite !(proj2 (Z.ltb_lt 0 _)) by lia. rewrite (IH (mag / 2) (mag' / 2)) by lia. f_equal. lia.
Qed.

(** The binary conversion of numbers beyond 32 bits shows the low 32 bits only: numbers
    that differ above them have the same text. *)
Theorem binary_loses_high_bits mag mag' negative prec width flags :
  2 ^ 32 ≤ mag → 2 ^ 32 ≤ mag' → mag mod 2 ^ 32 = mag' mod 2 ^ 32 →
  num_text mag negative 2 prec width flags = num_text mag' negative 2 prec width flags.
Proof.
  intros Hm Hm' Heq. unfold num_text, num_cells. cbn zeta.
  rewrite !(proj2 (truthy_true _)) by lia. rewrite (digits_rev_low 32 mag mag') by done. done.
Qed.

(** With [#] and a width equal to the number of digits, the prefix of a hexadecimal
    number replaces its two most significant digits. *)
Theorem hash_width_loses_digits mag prec :
  let ds := digit_char FLAGS_HASH <$> digits_rev 32 16 mag in
  let n := Z.of_nat (length ds) in
  0 < mag < 16 ^ 30 → 3 ≤ n → prec ≤ 0 →
  num_text mag false 16 prec n FLAGS_HASH = [48; 120] ++ rev (take (length ds - 2) ds).
Proof.
  intros ds n Hm Hn Hp. unfold num_text, num_cells. rewrite (proj2 (truthy_true mag)) by lia. cbn zeta.
  change (has FLAGS_HASH FLAGS_PRECISION) with false. cbn [negb orb].
  rewrite digits_u8 by lia. fold ds. unfold num_zeros, num_hash, num_width, padded, sign_char.
  change (has FLAGS_HASH FLAGS_LEFT) with false. change (has FLAGS_HASH FLAGS_ZEROPAD) with false.
  change (has FLAGS_HASH FLAGS_HASH) with true. change (has FLAGS_HASH FLAGS_PLUS) with false.
  change (has FLAGS_HASH FLAGS_SPACE) with false. rewrite andb_false_r. cbn [negb andb app].
  assert (Hd : (length ds ≤ 30)%nat).
  { subst ds. rewrite length_fmap. apply (digits_rev_length 16 ltac:(lia) 32 mag 29). lia. }
  assert (zeros_to prec ds = ds) as ->.
  { unfold zeros_to. replace (Z.to_nat _) with O by lia. apply app_nil_r. }
  assert (hash_drop ds 16 prec n FLAGS_HASH = take (length ds - 2) ds) as ->.
  { unfold hash_drop. change (has FLAGS_HASH FLAGS_PRECISION) with false. fold n.
    rewrite (proj2 (truthy_true n)), Z.eqb_refl, orb_true_r by lia. cbn [negb andb].
    rewrite (proj2 (truthy_true _)) by (rewrite length_take; lia). cbn [andb].
    rewrite take_take, length_take. f_equal. lia. }
  change (hash_prefix 16 FLAGS_HASH) with [120; 48].
  rewrite (stored_nil (stored _ _)) by apply stored_length.
  unfold stored. rewrite take_ge by (rewrite length_app, length_take; cbn [length]; lia).
  rewrite length_app, length_take. cbn [length]. replace (Z.to_nat _) with O by lia.
  rewrite rev_app_distr. cbn [replicate rev app]. by rewrite app_nil_r.
Qed.

(** ** Examples *)

(** The format ["%5d|%-4s|%x"] at 64, the string ["ab"] at 96, a buffer at 200. *)
Definition demo_format : list Z := [37;53;100;124;37;45;52;115;124;37;120].
Definition demo_mem : mem :=
  store_bytes (store_bytes (mem_of 200 (replicate 20 7)) 64 (demo_format ++ [0])) 96 [97; 98; 0].
Definition demo_strs : gmap Z (list Z) := {[ 96 := [97; 98] ]}.
Definition demo_args : list Z := [u32 (-42); 96; 0x1f].

Lemma demo_formats :
  formats demo_strs demo_format demo_args [32;32;45;52;50;124;97;98;32;32;124;49;102].
Proof.
  eapply (formats_directive _ _ _ [32;32;45;52;50]); [vm_compute; reflexivity|].
  apply formats_char; [done|].
  eapply (formats_directive _ _ _ [97;98;32;32]); [vm_compute; reflexivity|].
  apply formats_char; [done|].
  eapply (formats_directive _ _ _ [49;102]); [vm_compute; reflexivity|constructor].
Qed.

Lemma demo_words : words demo_args.
Proof. repeat constructor; vm_compute; done. Qed.

Lemma demo_fit : strs_fit demo_strs 3.
Proof. intros p t Ht. unfold demo_strs in Ht; apply lookup_singleton_Some in Ht as [_ <-]. cbn. lia. Qed.

Lemma demo_in_memory lo hi :
  100 ≤ lo ∨ hi ≤ 64 → in_memory demo_mem 64 demo_format demo_strs lo hi.
Proof.
  intros Hd. split.
  - apply cstr_check_ok. by vm_compute.
  - cbn. lia.
  - intros p t Ht. unfold demo_strs in Ht; apply lookup_singleton_Some in Ht as [<- <-]. apply cstr_check_ok. by vm_compute.
  - intros p t Ht. unfold demo_strs in Ht; apply lookup_singleton_Some in Ht as [<- <-]. cbn. lia.
Qed.

Definition no_float : out_fct_type → Z → Z → Z → Z → Z → Z → Z → io → res (Z * io) :=
  λ _ _ _ _ _ _ _ _ _, Panic.

(** A buffer of 8 bytes receives 7 characters of the 13. *)
Lemma snprintf_truncates_witness :
  snprintf no_float 20 200 8 64 demo_args (mk_io demo_mem []) =
    Ok (13, mk_io (store_bytes demo_mem 200 [32;32;45;52;50;124;97;0]) []).
Proof.
  apply (snprintf_truncates no_float demo_mem [] 64 demo_format demo_args _ demo_strs 20 3 200 8 demo_formats
    demo_words); try done.
  - cbn. lia.
  - apply demo_fit.
  - apply demo_in_memory. lia.
  - apply (mapped_check_ok _ _ 8). by vm_compute.
Defined.

Lemma snprintf_measures_witness :
  snprintf no_float 20 0 99 64 demo_args (mk_io demo_mem []) = Ok (13, mk_io demo_mem []).
Proof.
  apply (snprintf_measures no_float demo_mem [] 64 demo_format demo_args _ demo_strs 20 3 99 demo_formats
    demo_words); try done.
  - cbn. lia.
  - apply demo_fit.
  - apply demo_in_memory. lia.
Defined.

Lemma printf_prints_witness :
  printf no_float 20 64 demo_args (mk_io demo_mem [10]) =
    Ok (13, mk_io demo_mem [10;32;32;45;52;50;124;97;98;32;32;124;49;102]).
Proof.
  apply (printf_prints no_float demo_mem [10] 64 demo_format demo_args _ demo_strs 20 3 demo_formats
    demo_words); try done.
  - cbn. lia.
  - apply demo_fit.
  - apply demo_in_memory. lia.
Defined.

Lemma percent_at_end_overreads_witness :
  printf no_float 20 64 [] (mk_io (mem_of 64 [97; 37; 0]) []) = Fault.
Proof.
  apply (percent_at_end_overreads no_float _ [] [97]); [|repeat constructor; done|done|cbn; lia].
  apply cstr_check_ok. by vm_compute.
Defined.

(** [%+08d] of 42, into 8 bytes. *)
Lemma ntoa_long_standard_witness :
  ntoa_long (out_buffer 100) 8 0 42 false 10 0 8 (Z.lor FLAGS_PLUS FLAGS_ZEROPAD) (mk_io (mem_of 100 (replicate 8 7)) []) =
  Ok (8, mk_io (store_bytes (mem_of 100 (replicate 8 7)) 100 [43;48;48;48;48;48;52;50]) []).
Proof.
  destruct (ntoa_long_standard 42 false 10 0 8 (Z.lor FLAGS_PLUS FLAGS_ZEROPAD)) as [_ H];
    [lia|lia|reflexivity|lia|lia|discriminate|lia|].
  assert (Ht : std_text 42 false 10 0 8 (Z.lor FLAGS_PLUS FLAGS_ZEROPAD) = [43;48;48;48;48;48;52;50]) by (vm_compute; reflexivity).
  cbn zeta in H. rewrite Ht in H. apply (H (mem_of 100 (replicate 8 7)) [] 100 8).
  - cbn. lia.
  - cbn. lia.
  - apply (mapped_check_ok _ _ 8). by vm_compute.
Defined.

Lemma printed_int_is_read_back_witness :
  ∃ n m', snprintf no_float 40 200 12 64 [u32 (-2 ^ 31)]
      (mk_io (store_bytes (mem_of 200 (replicate 12 7)) 64 [37; 100; 0]) []) = Ok (n, mk_io m' []) ∧
    strtol 40 m' 200 10 = Ok (-2 ^ 31, 200 + n).
Proof.
  apply printed_int_is_read_back; try done; try lia.
  - apply cstr_check_ok. by vm_compute.
  - apply (mapped_check_ok _ _ 12). by vm_compute.
Defined.

(** [%-.3d] of 5 prints one digit where three are asked for. *)
Lemma left_flag_drops_precision_witness :
  num_text 5 false 10 3 0 (Z.lor FLAGS_LEFT FLAGS_PRECISION) = [53] ∧
  std_number 5 false 10 3 0 (Z.lor FLAGS_LEFT FLAGS_PRECISION) = [48; 48; 53].
Proof. rewrite left_flag_drops_precision by (done || lia). done. Defined.

Lemma zero_padding_capped_witness : (length (num_text 7 false 10 0 40 FLAGS_ZEROPAD) ≤ 32)%nat.
Proof. apply zero_padding_capped; done || lia. Defined.

Lemma binary_loses_high_bits_witness :
  num_text (2 ^ 32 + 5) false 2 0 0 0 = num_text (2 ^ 40 + 5) false 2 0 0 0.
Proof. apply binary_loses_high_bits; done || lia. Defined.

(** ["%#8x"] of 0x12345678 prints 0x345678. *)
Lemma hash_width_loses_digits_witness :
  num_text 0x12345678 false 16 0 8 FLAGS_HASH = [48;120;51;52;53;54;55;56].
Proof. apply (hash_width_loses_digits 0x12345678 0); done || lia. Defined.
