(* ===== verification/TypesList.v ===== *)
(** * types/src/list.c: the growable pointer array used all over the system

    A [list_t] is its [size] and its [data] pointer: [None] for a null pointer,
    [Some a] for an allocated array of [length a] slots.  A slot that was allocated
    but never written is [None], and reading it is a [Fault], so the theorems also
    show that no operation reads an indeterminate slot or leaves the array.
    Pointers are [Z]; the allocator never fails (it panics instead of returning
    [NULL]), which is how [malloc] of this system behaves. *)

From S2P Require Import Prelude.
From Stdlib Require Import Sorting.Sorted.

(** ** Arrays of slots *)

Abbreviation slots := (list (option Z)).

Definition slot_get (a : slots) (i : nat) : res Z :=
  match a !! i with
  | Some (Some x) => Ok x
  | _ => Fault
  end.

Definition slot_set (a : slots) (i : nat) (x : Z) : res slots :=
  if (i <? length a)%nat then Ok (<[i := Some x]> a) else Fault.

(** [malloc] of [n] slots and [realloc] to [n] slots. *)
Definition slots_malloc (n : nat) : slots := replicate n None.
Definition slots_realloc (a : slots) (n : nat) : slots :=
  take n a ++ replicate (n - length a) None.

(** [memmove(a + dst, a + src, n)] in slots. *)
Definition slots_move (a : slots) (dst src n : nat) : res slots :=
  if ((dst + n <=? length a) && (src + n <=? length a))%nat
  then Ok (take dst a ++ take n (drop src a) ++ drop (dst + n) a)
  else Fault.

(** ** list.h and list.c *)

Record list_t := mk_list { size : nat; data : option slots }.

Definition data_array (l : list_t) : res slots := of_option (data l).

Definition list_create : list_t := mk_list 0 None.

(** What [list_free] gives back to the allocator, in order. *)
Inductive freed := FreedData | FreedHeader.
Definition list_free (l : list_t) : list freed :=
  (if (0 <? size l)%nat then [FreedData] else []) ++ [FreedHeader].

(** The [EXTEND] macro. *)
Definition EXTEND (l : list_t) : res (nat * slots) :=
  let count := S (size l) in
  if (count =? 1)%nat then Ok (count, slots_malloc 1)
  else a ← data_array l; Ok (count, slots_realloc a count).

Definition list_push_front (l : list_t) (x : Z) : res list_t :=
  '(n, a) ← EXTEND l;
  a1 ← (if (1 <? n)%nat then slots_move a 1 0 (n - 1) else Ok a);
  a2 ← slot_set a1 0 x;
  Ok (mk_list n (Some a2)).

Definition list_push_back (l : list_t) (x : Z) : res list_t :=
  '(n, a) ← EXTEND l;
  a1 ← slot_set a (n - 1) x;
  Ok (mk_list n (Some a1)).

Definition list_pop_back (l : list_t) : res (Z * list_t) :=
  if (size l =? 0)%nat then Ok (0, l)
  else
    a ← data_array l;
    x ← slot_get a (size l - 1);
    let n := (size l - 1)%nat in
    if (0 <? n)%nat then Ok (x, mk_list n (Some (slots_realloc a n)))
    else Ok (x, mk_list n None).

Definition list_pop_front (l : list_t) : res (Z * list_t) :=
  if (size l =? 0)%nat then Ok (0, l)
  else
    a ← data_array l;
    x ← slot_get a 0;
    let n := (size l - 1)%nat in
    if (n =? 0)%nat then Ok (x, mk_list n None)
    else
      a1 ← slots_move a 0 1 n;
      Ok (x, mk_list n (Some (slots_realloc a1 n))).

(** The body of the [if] of [list_delete_element] for the matching index [i]. *)
Definition list_delete_at (l : list_t) (a : slots) (i : nat) : res list_t :=
  a0 ← slot_set a i 0;
  let n := (size l - 1)%nat in
  if (0 <? n)%nat then
    a1 ← (if negb (i =? n)%nat then slots_move a0 i (i + 1) (n - i) else Ok a0);
    Ok (mk_list n (Some (slots_realloc a1 n)))
  else Ok (mk_list n None).

(** [todo] slots remain to be scanned from index [i]. *)
Fixpoint list_delete_loop (todo : nat) (l : list_t) (x : Z) (i : nat) : res list_t :=
  match todo with
  | O => Ok l
  | S k =>
      a ← data_array l;
      y ← slot_get a i;
      if y =? x then list_delete_at l a i else list_delete_loop k l x (S i)
  end.

Definition list_delete_element (l : list_t) (x : Z) : res list_t :=
  list_delete_loop (size l) l x 0.

Definition list_head (l : list_t) : res Z :=
  if (size l =? 0)%nat then Ok 0 else a ← data_array l; slot_get a 0.

Definition list_tail (l : list_t) : res Z :=
  if (size l =? 0)%nat then Ok 0 else a ← data_array l; slot_get a (size l - 1).

Fixpoint list_contains_loop (todo : nat) (l : list_t) (x : Z) (i : nat) : res bool :=
  match todo with
  | O => Ok false
  | S k =>
      a ← data_array l;
      y ← slot_get a i;
      if y =? x then Ok true else list_contains_loop k l x (S i)
  end.

Definition list_contains (l : list_t) (x : Z) : res bool :=
  list_contains_loop (size l) l x 0.

Section sort.
Context (predicate : Z → Z → bool).

(** [while (j >= 0 && predicate(data[j], key)) { data[j+1] = data[j]; j--; }] and the
    final store; [j1] is [j + 1]. *)
Fixpoint sort_shift (key : Z) (j1 : nat) (a : slots) : res slots :=
  match j1 with
  | O => slot_set a 0 key
  | S j =>
      y ← slot_get a j;
      if predicate y key then a' ← slot_set a (S j) y; sort_shift key j a'
      else slot_set a (S j) key
  end.

Fixpoint sort_loop (todo i : nat) (a : slots) : res slots :=
  match todo with
  | O => Ok a
  | S k =>
      key ← slot_get a i;
      a' ← sort_shift key i a;
      sort_loop k (S i) a'
  end.

Definition list_sort (l : list_t) : res list_t :=
  match data l with
  | None => if (1 <? size l)%nat then Fault else Ok l
  | Some a => a' ← sort_loop (size l - 1) 1 a; Ok (mk_list (size l) (Some a'))
  end.
End sort.

(** ** The abstract contents *)

(** [repr l xs]: [l] holds the sequence [xs]; its array is exactly as long as the
    sequence, and it has no array when the sequence is empty. *)
Definition repr (l : list_t) (xs : list Z) : Prop :=
  size l = length xs ∧
  data l = match xs with [] => None | _ => Some (Some <$> xs) end.

(** Removal of the first occurrence. *)
Fixpoint remove_first (x : Z) (xs : list Z) : list Z :=
  match xs with
  | [] => []
  | y :: ys => if y =? x then ys else y :: remove_first x ys
  end.

Lemma remove_first_elem x y l : NoDup l → y ∈ remove_first x l ↔ y ∈ l ∧ y ≠ x.
Proof.
  induction 1 as [|z l Hz Hl IH]; cbn [remove_first]; [set_solver|].
  destruct (Z.eqb_spec z x) as [->|Hne]; [|rewrite elem_of_cons, IH; set_solver].
  split; [intros Hy|set_solver]. split; [set_solver|]. by intros ->.
Qed.

Lemma remove_first_nodup x l : NoDup l → NoDup (remove_first x l).
Proof.
  intros Hl. pose proof Hl as Hl'. induction Hl as [|z l Hz Hl IH]; cbn [remove_first]; [done|].
  destruct (z =? x); [done|]. constructor; [|by apply IH]. rewrite remove_first_elem by done. by intros [? _].
Qed.

Section repr.
Implicit Types (l : list_t) (xs : list Z).

Lemma repr_create : repr list_create [].
Proof. done. Qed.

Lemma repr_intro xs a : xs ≠ [] → a = Some <$> xs → repr (mk_list (length xs) (Some a)) xs.
Proof. intros Hne ->. split; [done|]. by destruct xs. Qed.

Lemma slot_get_repr xs i x : xs !! i = Some x → slot_get (Some <$> xs) i = Ok x.
Proof. intros H. unfold slot_get. by rewrite list_lookup_fmap, H. Qed.

Lemma data_array_repr l xs : repr l xs → xs ≠ [] → data_array l = Ok (Some <$> xs).
Proof. intros [_ Hd] Hne. unfold data_array. rewrite Hd. by destruct xs. Qed.

Lemma EXTEND_repr l xs :
  repr l xs → EXTEND l = Ok (S (length xs), (Some <$> xs) ++ [None]).
Proof.
  intros Hr. pose proof Hr as [Hs Hd]. unfold EXTEND. rewrite Hs.
  destruct xs as [|y ys]; [done|]. cbn [length Nat.eqb].
  rewrite (data_array_repr l (y :: ys)), bind_ok by done. unfold slots_realloc.
  rewrite take_ge by (rewrite length_fmap; cbn; lia).
  rewrite length_fmap. replace (_ - _)%nat with 1%nat by (cbn; lia). done.
Qed.

Lemma push_back_ok l xs x : repr l xs → ∃ l', list_push_back l x = Ok l' ∧ repr l' (xs ++ [x]).
Proof.
  intros Hr. unfold list_push_back. rewrite (EXTEND_repr _ _ Hr), bind_ok.
  unfold slot_set. rewrite (proj2 (Nat.ltb_lt _ _))
    by (rewrite length_app, length_fmap; cbn; lia).
  rewrite bind_ok. eexists. split; [done|].
  replace (S (length xs)) with (length (xs ++ [x])) by (rewrite length_app; cbn; lia).
  apply repr_intro; [by destruct xs|]. rewrite fmap_app, length_app, insert_app_r_alt
    by (rewrite length_fmap; cbn; lia).
  rewrite length_fmap, Nat.add_sub, Nat.sub_diag. done.
Qed.

Lemma push_front_ok l xs x : repr l xs → ∃ l', list_push_front l x = Ok l' ∧ repr l' (x :: xs).
Proof.
  intros Hr. unfold list_push_front. rewrite (EXTEND_repr _ _ Hr), bind_ok.
  destruct xs as [|y ys].
  - cbn. eexists. split; [done|]. done.
  - rewrite (proj2 (Nat.ltb_lt _ _)) by (cbn; lia). unfold slots_move.
    rewrite !length_app, length_fmap. cbn [length].
    rewrite (proj2 (Nat.leb_le _ _)), (proj2 (Nat.leb_le _ _)) by lia. cbn [andb].
    rewrite bind_ok.
    set (t := Some <$> y :: ys). assert (Ht : length t = S (length ys)) by (subst t; by rewrite length_fmap).
    replace (S (S (length ys)) - 1)%nat with (length t) by lia.
    rewrite drop_0, take_app_length, drop_ge, app_nil_r by (rewrite length_app; cbn; lia).
    cbn. eexists. split; [done|]. by apply (repr_intro (x :: y :: ys)).
Qed.

Lemma pop_back_ok l xs x :
  repr l (xs ++ [x]) → ∃ l', list_pop_back l = Ok (x, l') ∧ repr l' xs.
Proof.
  intros Hr. pose proof Hr as [Hs Hd]. rewrite length_app in Hs. cbn in Hs.
  unfold list_pop_back. rewrite Hs, (proj2 (Nat.eqb_neq _ _)) by lia.
  rewrite (data_array_repr l (xs ++ [x])), bind_ok by (done || by destruct xs).
  rewrite Nat.add_sub, (slot_get_repr _ _ x), bind_ok by (by apply list_lookup_middle).
  destruct xs as [|y ys]; [by eexists|]. rewrite (proj2 (Nat.ltb_lt _ _)) by (cbn; lia).
  eexists. split; [done|]. split; [done|]. cbn [data]. unfold slots_realloc.
  rewrite length_fmap, length_app. replace (_ - _)%nat with 0%nat by lia. cbn [replicate].
  by rewrite app_nil_r, <- fmap_take, take_app_length.
Qed.

Lemma pop_front_ok l xs x :
  repr l (x :: xs) → ∃ l', list_pop_front l = Ok (x, l') ∧ repr l' xs.
Proof.
  intros Hr. pose proof Hr as [Hs Hd]. cbn in Hs.
  unfold list_pop_front. rewrite Hs. cbn [Nat.eqb].
  rewrite (data_array_repr l (x :: xs)), bind_ok by done.
  rewrite (slot_get_repr (x :: xs) 0 x), bind_ok by done. cbn [Nat.sub]. rewrite Nat.sub_0_r.
  destruct xs as [|y ys]; [by eexists|]. cbn [length Nat.eqb].
  unfold slots_move. rewrite length_fmap. cbn [length].
  rewrite (proj2 (Nat.leb_le _ _)), (proj2 (Nat.leb_le _ _)) by lia. cbn [andb].
  rewrite bind_ok. eexists. split; [done|]. split; [done|]. cbn [data]. unfold slots_realloc.
  rewrite take_0. cbn [app drop fmap list_fmap]. 
  change (Some y :: (Some <$> ys)) with (Some <$> (y :: ys)).
  rewrite (take_ge (Some <$> (y :: ys))) by (rewrite length_fmap; cbn; lia).
  rewrite take_app_le, take_ge by (rewrite length_fmap; cbn; lia).
  rewrite length_app, length_fmap. cbn [length].
  replace (_ - _)%nat with 0%nat by lia. by rewrite app_nil_r.
Qed.

Lemma slots_realloc_exact (a : slots) n : length a = n → slots_realloc a n = a.
Proof.
  intros <-. unfold slots_realloc. rewrite firstn_all, Nat.sub_diag. apply app_nil_r.
Qed.

Lemma slots_realloc_app (a b : slots) n : length a = n → slots_realloc (a ++ b) n = a.
Proof.
  intros <-. unfold slots_realloc. rewrite take_app_length, length_app.
  replace (_ - _)%nat with 0%nat by lia. apply app_nil_r.
Qed.

Lemma delete_at_ok l pre x post :
  repr l (pre ++ x :: post) →
  ∃ l', list_delete_at l (Some <$> (pre ++ x :: post)) (length pre) = Ok l' ∧
    repr l' (pre ++ post).
Proof.
  intros [Hs _]. unfold list_delete_at, slot_set. rewrite Hs, length_fmap, length_app.
  cbn [length]. rewrite (proj2 (Nat.ltb_lt (length pre) _)), bind_ok by lia.
  rewrite fmap_app, fmap_cons, insert_app_r_alt, length_fmap, Nat.sub_diag
    by (rewrite length_fmap; lia). cbn [insert list_insert].
  replace (length pre + S (length post) - 1)%nat with (length (pre ++ post))
    by (rewrite length_app; lia).
  set (p := Some <$> pre). set (q := Some <$> post).
  assert (Hp : length p = length pre) by apply length_fmap.
  assert (Hq : length q = length post) by apply length_fmap.
  destruct (decide (pre ++ post = [])) as [->|Hne]; [by eexists|].
  rewrite (proj2 (Nat.ltb_lt 0 _)) by (destruct (pre ++ post); [done|cbn; lia]).
  destruct (decide (post = [])) as [->|Hpost].
  - rewrite app_nil_r in *. rewrite Nat.eqb_refl. cbn [negb]. rewrite bind_ok. eexists. split; [done|].
    apply repr_intro; [done|]. by rewrite slots_realloc_app.
  - assert (0 < length post)%nat by (destruct post; [done|cbn; lia]).
    rewrite (proj2 (Nat.eqb_neq _ _)) by (rewrite length_app; lia). cbn [negb].
    unfold slots_move. rewrite !length_app, Hp. cbn [length]. rewrite Hq.
    rewrite (proj2 (Nat.leb_le _ _)), (proj2 (Nat.leb_le _ _)) by lia. cbn [andb].
    rewrite bind_ok. eexists. split; [done|]. rewrite <- length_app.
    apply repr_intro; [done|]. rewrite fmap_app. fold p q.
    rewrite <- Hp at 1. rewrite take_app_length.
    replace (p ++ Some 0 :: q) with ((p ++ [Some 0]) ++ q) by (by rewrite <- app_assoc).
    rewrite (drop_app_length' _ q) by (rewrite length_app; cbn; lia).
    rewrite (take_ge q) by (rewrite length_app; lia).
    rewrite app_assoc. apply slots_realloc_app. rewrite !length_app. lia.
Qed.

Lemma delete_loop_ok l pre post x :
  repr l (pre ++ post) →
  ∃ l', list_delete_loop (length post) l x (length pre) = Ok l' ∧
    repr l' (pre ++ (if decide (x ∈ post) then remove_first x post else post)).
Proof.
  revert pre. induction post as [|y post IH]; intros pre Hr; cbn [list_delete_loop length].
  { exists l. by rewrite decide_False by apply not_elem_of_nil. }
  rewrite (data_array_repr l (pre ++ y :: post)), bind_ok by (done || by destruct pre).
  rewrite (slot_get_repr _ _ y), bind_ok by by apply list_lookup_middle.
  cbn [remove_first]. destruct (Z.eqb_spec y x) as [->|Hne].
  - rewrite decide_True by left. by apply delete_at_ok.
  - specialize (IH (pre ++ [y])). rewrite length_app, <- !app_assoc in IH. cbn in IH.
    rewrite Nat.add_1_r in IH. destruct (IH Hr) as (l' & Hl' & Hr'). exists l'. split; [done|].
    destruct (decide (x ∈ post)).
    + rewrite decide_True by by right. done.
    + rewrite decide_False; [done|]. rewrite elem_of_cons. naive_solver.
Qed.

Lemma remove_first_notin x xs : x ∉ xs → remove_first x xs = xs.
Proof.
  induction xs as [|y ys IH]; intros Hn; cbn; [done|].
  rewrite elem_of_cons in Hn. destruct (Z.eqb_spec y x); [naive_solver|].
  f_equal. apply IH. naive_solver.
Qed.

Lemma delete_element_ok l xs x :
  repr l xs → ∃ l', list_delete_element l x = Ok l' ∧ repr l' (remove_first x xs).
Proof.
  intros Hr. unfold list_delete_element. rewrite (proj1 Hr).
  destruct (delete_loop_ok l [] xs x Hr) as (l' & Hl' & Hr'). exists l'. split; [done|].
  cbn in Hr'. case_decide; [done|]. by rewrite remove_first_notin.
Qed.

Lemma contains_ok l xs x : repr l xs → list_contains l x = Ok (bool_decide (x ∈ xs)).
Proof.
  intros Hr. unfold list_contains. rewrite (proj1 Hr).
  enough (∀ pre post, xs = pre ++ post →
    list_contains_loop (length post) l x (length pre) = Ok (bool_decide (x ∈ post))) as H
    by by apply (H []).
  intros pre post. revert pre. induction post as [|y post IH]; intros pre ->; cbn.
  { by rewrite bool_decide_eq_false_2 by apply not_elem_of_nil. }
  rewrite (data_array_repr l (pre ++ y :: post)), bind_ok by (done || by destruct pre).
  rewrite (slot_get_repr _ _ y), bind_ok by by apply list_lookup_middle.
  destruct (Z.eqb_spec y x) as [->|Hne].
  - by rewrite bool_decide_eq_true_2 by left.
  - specialize (IH (pre ++ [y])). rewrite length_app, Nat.add_comm in IH. cbn in IH.
    rewrite IH by by rewrite <- app_assoc. f_equal. apply bool_decide_ext.
    rewrite elem_of_cons. naive_solver.
Qed.

Lemma head_ok l xs : repr l xs → list_head l = Ok (default 0 (head xs)).
Proof.
  intros Hr. unfold list_head. rewrite (proj1 Hr). destruct xs as [|x xs]; [done|].
  cbn [length Nat.eqb]. rewrite (data_array_repr l (x :: xs)), bind_ok by done.
  by apply (slot_get_repr (x :: xs)).
Qed.

Lemma tail_ok l xs : repr l xs → list_tail l = Ok (default 0 (last xs)).
Proof.
  intros Hr. unfold list_tail. rewrite (proj1 Hr). destruct xs as [|x xs]; [done|].
  cbn [length Nat.eqb]. rewrite (data_array_repr l (x :: xs)), bind_ok by done.
  rewrite last_lookup. cbn [Nat.sub Nat.pred length]. rewrite Nat.sub_0_r.
  destruct (lookup_lt_is_Some_1' (x :: xs) (length xs)) as [y Hy]; [cbn; lia|].
  rewrite (slot_get_repr _ _ y Hy), Hy. done.
Qed.
End repr.

(** C7: every operation of [list.c] returns, without leaving its array or reading an
    unwritten slot, and implements the operation on sequences it is named after
    (removal deletes the first occurrence; popping or looking at an empty list gives
    0 and changes nothing); freeing a list releases its array exactly when it has one. *)
Theorem list_refines (l : list_t) (xs : list Z) (x : Z) :
  repr l xs →
  (∃ l', list_push_back l x = Ok l' ∧ repr l' (xs ++ [x])) ∧
  (∃ l', list_push_front l x = Ok l' ∧ repr l' (x :: xs)) ∧
  (∃ l', list_pop_back l = Ok (default 0 (last xs), l') ∧ repr l' (removelast xs)) ∧
  (∃ l', list_pop_front l = Ok (default 0 (head xs), l') ∧ repr l' (tail xs)) ∧
  (∃ l', list_delete_element l x = Ok l' ∧ repr l' (remove_first x xs)) ∧
  list_contains l x = Ok (bool_decide (x ∈ xs)) ∧
  list_head l = Ok (default 0 (head xs)) ∧
  list_tail l = Ok (default 0 (last xs)) ∧
  (FreedData ∈ list_free l ↔ is_Some (data l)).
Proof.
  intros Hr. split_and!.
  - by apply push_back_ok.
  - by apply push_front_ok.
  - destruct xs as [|y ys _] using rev_ind.
    + exists l. unfold list_pop_back. by rewrite (proj1 Hr).
    + rewrite last_snoc, removelast_last. by apply pop_back_ok.
  - destruct xs as [|y ys].
    + exists l. unfold list_pop_front. by rewrite (proj1 Hr).
    + by apply pop_front_ok.
  - by apply delete_element_ok.
  - by apply contains_ok.
  - by apply head_ok.
  - by apply tail_ok.
  - destruct Hr as [Hs Hd]. unfold list_free. rewrite Hs, Hd. destruct xs; cbn.
    + split; [|by intros []]. intros H%list_elem_of_singleton. done.
    + split; [eauto|]. intros _. left.
Qed.

Lemma list_refines_witness :
  ∃ l', list_push_back (mk_list 2 (Some [Some 5; Some 6])) 7 = Ok l' ∧ repr l' [5; 6; 7].
Proof. apply (list_refines _ [5; 6] 7). split; reflexivity. Defined.

(** ** Sorting *)

Section sorting.
Context (predicate : Z → Z → bool).
Implicit Types (rl p q xs : list Z).

(** Insertion into a prefix given from its last element backwards. *)
Fixpoint ins_rev (key : Z) (rl : list Z) : list Z :=
  match rl with
  | [] => [key]
  | y :: rl' => if predicate y key then y :: ins_rev key rl' else key :: rl
  end.

Lemma ins_rev_perm key rl : ins_rev key rl ≡ₚ key :: rl.
Proof.
  induction rl as [|y rl IH]; cbn; [done|]. destruct (predicate y key); [|done].
  rewrite IH. constructor.
Qed.

Lemma slot_set_middle p y q x :
  slot_set (Some <$> (p ++ y :: q)) (length p) x = Ok (Some <$> (p ++ x :: q)).
Proof.
  unfold slot_set. rewrite length_fmap, length_app. cbn [length].
  rewrite (proj2 (Nat.ltb_lt _ _)) by lia. f_equal.
  rewrite !fmap_app, insert_app_r_alt by (rewrite length_fmap; lia).
  by rewrite length_fmap, Nat.sub_diag.
Qed.

Lemma sort_shift_ok key p z q :
  sort_shift predicate key (length p) (Some <$> (p ++ z :: q)) =
    Ok (Some <$> (rev (ins_rev key (rev p)) ++ q)).
Proof.
  revert z q. induction p as [|y p IH] using rev_ind; intros z q.
  { apply (slot_set_middle [] z q key). }
  rewrite length_app, Nat.add_1_r, <- app_assoc. cbn [sort_shift app].
  rewrite (slot_get_repr _ _ y), bind_ok by by apply list_lookup_middle.
  rewrite rev_app_distr. cbn [rev app ins_rev].
  replace (p ++ y :: z :: q) with ((p ++ [y]) ++ z :: q) by (by rewrite <- app_assoc).
  replace (S (length p)) with (length (p ++ [y])) by (rewrite length_app; cbn; lia).
  destruct (predicate y key); rewrite slot_set_middle.
  - rewrite bind_ok, <- app_assoc. cbn [app]. rewrite IH. cbn [rev].
    by rewrite <- app_assoc.
  - cbn [rev]. by rewrite rev_involutive, <- (app_assoc (p ++ [y])).
Qed.

Lemma Sorted_snoc (R : Z → Z → Prop) xs x :
  Sorted R xs → (∀ y, last xs = Some y → R y x) → Sorted R (xs ++ [x]).
Proof.
  induction 1 as [|y ys Hs IH Hh]; intros Hl; cbn; [by repeat constructor|].
  constructor.
  - apply IH. intros z Hz. apply Hl. destruct ys; [done|]. exact Hz.
  - destruct Hh; cbn; constructor; [by apply Hl|done].
Qed.

Lemma Sorted_rev (R : Z → Z → Prop) rl : Sorted (λ a b, R b a) rl → Sorted R (rev rl).
Proof.
  induction 1 as [|x rl Hs IH Hh]; cbn; [constructor|]. apply Sorted_snoc; [done|].
  intros y Hy. destruct Hh as [|z rl' Hz]; [done|]. cbn in Hy.
  rewrite last_snoc in Hy. by simplify_eq.
Qed.

Context (Hasym : ∀ a b, predicate a b = true → predicate b a = false).

Lemma ins_rev_sorted key rl :
  Sorted (λ a b, predicate b a = false) rl →
  Sorted (λ a b, predicate b a = false) (ins_rev key rl).
Proof.
  induction 1 as [|x rl Hs IH Hh]; cbn; [by repeat constructor|].
  destruct (predicate x key) eqn:E; [|by repeat constructor].
  constructor; [done|]. destruct Hh as [|y rl' Hy]; cbn; [constructor; auto|].
  destruct (predicate y key); constructor; auto.
Qed.

Lemma sort_loop_ok rl q :
  Sorted (λ a b, predicate b a = false) rl →
  ∃ ys, sort_loop predicate (length q) (length rl) (Some <$> (rev rl ++ q)) =
          Ok (Some <$> ys) ∧
    ys ≡ₚ rl ++ q ∧ Sorted (λ a b, predicate a b = false) ys.
Proof.
  revert rl. induction q as [|key q IH]; intros rl Hs; cbn [sort_loop length].
  - exists (rev rl). rewrite !app_nil_r. split; [done|].
    split; [symmetry; apply Permutation_rev|by apply Sorted_rev].
  - rewrite (slot_get_repr _ _ key), bind_ok by (apply list_lookup_middle; by rewrite length_rev).
    rewrite <- (length_rev rl), sort_shift_ok, bind_ok, rev_involutive.
    destruct (IH (ins_rev key rl)) as (ys & Hys & Hp & Hsort); [by apply ins_rev_sorted|].
    exists ys. rewrite (Permutation_length (ins_rev_perm key rl)) in Hys.
    rewrite length_rev. split; [exact Hys|]. split; [|done].
    rewrite Hp, ins_rev_perm. apply Permutation_middle.
Qed.
End sorting.

(** [list_sort] terminates and rearranges the list into one in which no element
    must come after its successor, for every comparison callback that is asymmetric. *)
Theorem list_sort_sorts (predicate : Z → Z → bool) (l : list_t) (xs : list Z) :
  repr l xs → (∀ a b, predicate a b = true → predicate b a = false) →
  ∃ l' ys, list_sort predicate l = Ok l' ∧ repr l' ys ∧ ys ≡ₚ xs ∧
    Sorted (λ a b, predicate a b = false) ys.
Proof.
  intros [Hs Hd] Hasym. unfold list_sort. rewrite Hs, Hd. destruct xs as [|x xs].
  - exists l, []. split_and!; [done|done|done|constructor].
  - destruct (sort_loop_ok predicate Hasym [x] xs) as (ys & Hy & Hp & Hsort);
      [by repeat constructor|].
    cbn [rev app length] in Hy. cbn [length Nat.sub]. rewrite Nat.sub_0_r, Hy, bind_ok.
    cbn [app] in Hp. exists (mk_list (S (length xs)) (Some (Some <$> ys))), ys.
    split_and!; [done| |done|done].
    apply Permutation_length in Hp as Hlen. cbn in Hlen. rewrite <- Hlen.
    apply repr_intro; [|done]. intros ->. cbn in Hlen. lia.
Qed.

Lemma list_sort_sorts_witness :
  ∃ l' ys, list_sort Z.gtb (mk_list 3 (Some [Some 5; Some 1; Some 3])) = Ok l' ∧ repr l' ys ∧
    ys ≡ₚ [5; 1; 3] ∧ Sorted (λ a b, (a >? b) = false) ys.
Proof.
  apply (list_sort_sorts Z.gtb _ [5; 1; 3]).
  - split; reflexivity.
  - intros a b H. lia.
Defined.
