(* ===== verification/ByteQueue.v ===== *)
(** * The interface of a bounded byte queue

    What a circular buffer promises to its clients: its contents are a sequence
    ([bq_view]) of at most [bq_cap] bytes, [bq_room] and [bq_ready] test for space and
    for data, [bq_put] appends and [bq_get] removes the oldest byte.  The ring of
    ringbuffer.c and the pipe of pipe.c are instances; the loops that move many
    bytes, and the first-in-first-out property of any interleaving of reads and
    writes, are proved once here against the interface. *)

From S2P Require Import Prelude.

Class ByteQueue (T : Type) := {
  bq_wf : T → Prop;
  bq_view : T → list Z;
  bq_cap : T → nat;
  bq_room : T → bool;
  bq_ready : T → bool;
  bq_put : T → Z → res T;
  bq_get : T → res (Z * T);
  bq_bounded t : bq_wf t → (length (bq_view t) ≤ bq_cap t)%nat;
  bq_room_ok t : bq_wf t → bq_room t = bool_decide (length (bq_view t) < bq_cap t)%nat;
  bq_ready_ok t : bq_wf t → bq_ready t = bool_decide (bq_view t ≠ []);
  bq_put_ok t b :
    bq_wf t → (length (bq_view t) < bq_cap t)%nat →
    ∃ t', bq_put t b = Ok t' ∧ bq_wf t' ∧ bq_cap t' = bq_cap t ∧ bq_view t' = bq_view t ++ [b];
  bq_get_ok t b bs :
    bq_wf t → bq_view t = b :: bs →
    ∃ t', bq_get t = Ok (b, t') ∧ bq_wf t' ∧ bq_cap t' = bq_cap t ∧ bq_view t' = bs
}.

Section loops.
Context `{ByteQueue T}.
Implicit Types (t : T) (data : list Z).

(** Puts bytes while there is room; counts them. *)
Fixpoint bq_fill t data (written : nat) : res (T * nat) :=
  match data with
  | [] => Ok (t, written)
  | b :: data' =>
      if bq_room t then t' ← bq_put t b; bq_fill t' data' (S written)
      else Ok (t, written)
  end.

(** Gets at most [n] bytes while there are some. *)
Fixpoint bq_drain t (n : nat) : res (T * list Z) :=
  match n with
  | O => Ok (t, [])
  | S n' =>
      if bq_ready t then
        '(b, t') ← bq_get t;
        '(t'', bs) ← bq_drain t' n';
        Ok (t'', b :: bs)
      else Ok (t, [])
  end.

Lemma bq_fill_ok t data w :
  bq_wf t →
  let k := min (length data) (bq_cap t - length (bq_view t)) in
  ∃ t', bq_fill t data w = Ok (t', (w + k)%nat) ∧ bq_wf t' ∧ bq_cap t' = bq_cap t ∧
    bq_view t' = bq_view t ++ take k data.
Proof.
  revert t w. induction data as [|b data IH]; intros t w Hwf; cbn [bq_fill length].
  - exists t. cbn. by rewrite Nat.add_0_r, app_nil_r.
  - pose proof (bq_bounded t Hwf). rewrite bq_room_ok by done. case_bool_decide.
    + destruct (bq_put_ok t b Hwf) as (t1 & -> & Hwf1 & Hc1 & Hv1); [done|]. rewrite bind_ok.
      destruct (IH t1 (S w) Hwf1) as (t2 & -> & Hwf2 & Hc2 & Hv2).
      exists t2. rewrite Hv1, Hc1, length_app in *. cbn [length] in *.
      set (k := min (length data) _) in *.
      replace (min (S (length data)) _) with (S k) by lia.
      split; [do 2 f_equal; lia|]. split; [done|]. split; [done|].
      cbn [take]. rewrite Hv2, <- app_assoc. done.
    + exists t. replace (min _ _) with 0%nat by lia. cbn. by rewrite Nat.add_0_r, app_nil_r.
Qed.

(** The count only grows, by at most the number of bytes offered. *)
Lemma bq_fill_count t data w t' k :
  bq_fill t data w = Ok (t', k) → (w ≤ k ≤ w + length data)%nat.
Proof.
  revert t w. induction data as [|b data IH]; intros t w Hf; cbn [bq_fill length] in *.
  - inv_ok. lia.
  - destruct (bq_room t); inv_ok; [apply IH in Hf|]; lia.
Qed.

Lemma bq_drain_ok t n :
  bq_wf t →
  ∃ t', bq_drain t n = Ok (t', take n (bq_view t)) ∧ bq_wf t' ∧ bq_cap t' = bq_cap t ∧
    bq_view t' = drop n (bq_view t).
Proof.
  revert t. induction n as [|n IH]; intros t Hwf; cbn [bq_drain take drop]; [by exists t|].
  rewrite bq_ready_ok by done. destruct (bq_view t) as [|b bs] eqn:Hv.
  - rewrite bool_decide_eq_false_2 by tauto. by exists t.
  - rewrite bool_decide_eq_true_2 by done.
    destruct (bq_get_ok t b bs Hwf Hv) as (t1 & -> & Hwf1 & Hc1 & Hv1). rewrite bind_ok.
    destruct (IH t1 Hwf1) as (t2 & -> & Hwf2 & Hc2 & Hv2). rewrite bind_ok, Hv1 in *.
    exists t2. split; [done|]. split; [done|]. split; [congruence|done].
Qed.

(** ** Interleavings *)

Inductive bq_op := BPut (data : list Z) | BGet (n : nat).

(** Runs the operations in order; returns the bytes accepted and delivered. *)
Fixpoint bq_run (ops : list bq_op) t : res (list Z * list Z * T) :=
  match ops with
  | [] => Ok ([], [], t)
  | BPut data :: ops' =>
      '(t1, k) ← bq_fill t data 0;
      '(acc, del, t2) ← bq_run ops' t1;
      Ok (take k data ++ acc, del, t2)
  | BGet n :: ops' =>
      '(t1, bs) ← bq_drain t n;
      '(acc, del, t2) ← bq_run ops' t1;
      Ok (acc, bs ++ del, t2)
  end.

Lemma bq_fifo ops t :
  bq_wf t →
  ∃ acc del t', bq_run ops t = Ok (acc, del, t') ∧ bq_wf t' ∧
    bq_view t ++ acc = del ++ bq_view t' ∧ (length (bq_view t') ≤ bq_cap t)%nat.
Proof.
  revert t. induction ops as [|[data|n] ops IH]; intros t Hwf; cbn [bq_run].
  - exists [], [], t. split_and!; [done|done|by rewrite app_nil_r|by apply bq_bounded].
  - destruct (bq_fill_ok t data 0 Hwf) as (t1 & -> & Hwf1 & Hc1 & Hv1). rewrite bind_ok.
    destruct (IH t1 Hwf1) as (acc & del & t2 & -> & Hwf2 & Hf & Hb). rewrite bind_ok.
    do 3 eexists. split; [done|]. rewrite Nat.add_0_l. split; [done|].
    rewrite app_assoc, <- Hv1, <- Hc1. done.
  - destruct (bq_drain_ok t n Hwf) as (t1 & -> & Hwf1 & Hc1 & Hv1). rewrite bind_ok.
    destruct (IH t1 Hwf1) as (acc & del & t2 & -> & Hwf2 & Hf & Hb). rewrite bind_ok.
    do 3 eexists. split; [done|]. split; [done|]. rewrite <- app_assoc, <- Hf, Hv1, <- Hc1.
    split; [|done]. by rewrite app_assoc, take_drop.
Qed.
End loops.
