(* ===== verification/Ring.v ===== *)
(** * kernel/src/util/types/ringbuffer.c: the byte ring shared by the terminals

    The record holds the fields of [ringbuffer_t] the routines compute with; the two
    wait queues appear as events.  Sleeping hands the processor to other processes:
    each [k_proc_process_sleep_on_queue] takes the next element of a list of
    environment actions, which gives the ring as the sleeper finds it and whether a
    signal interrupted the sleep.  When the list is exhausted the caller is still
    asleep ([OutOfFuel]). *)

From S2P Require Import Prelude ByteQueue.

Record ringbuffer_t := mk_rb {
  rb_buffer : list Z;
  rb_size : Z;
  rb_read_ptr : Z;
  rb_write_ptr : Z
}.

(** Effects on the scheduler, in program order. *)
Inductive rb_event := WakeReaders | WakeWriters | SleepReader | SleepWriter | FreeRing.

(** Another process ran while the caller slept. *)
Abbreviation rb_wakeup := (ringbuffer_t → bool * ringbuffer_t).

Definition ringbuffer_create (contents : list Z) (size : Z) : ringbuffer_t :=
  (* k_malloc does not clear the buffer: its contents are arbitrary *)
  mk_rb (take (Z.to_nat size) contents) size 0 0.

Definition ringbuffer_free (rb : ringbuffer_t) : list rb_event :=
  [WakeReaders; WakeWriters; FreeRing].

Definition ringbuffer_read_available (rb : ringbuffer_t) : Z :=
  if rb_read_ptr rb =? rb_write_ptr rb then 0
  else if rb_write_ptr rb <? rb_read_ptr rb
  then u32 (rb_size rb - rb_read_ptr rb + rb_write_ptr rb)
  else u32 (rb_write_ptr rb - rb_read_ptr rb).

Definition ringbuffer_write_available (rb : ringbuffer_t) : Z :=
  if rb_read_ptr rb =? rb_write_ptr rb then u32 (rb_size rb - 1)
  else if rb_write_ptr rb <? rb_read_ptr rb
  then u32 (rb_read_ptr rb - rb_write_ptr rb - 1)
  else u32 ((rb_size rb - rb_write_ptr rb) + rb_read_ptr rb - 1).

Definition ringbuffer_bump_write_ptr (rb : ringbuffer_t) : ringbuffer_t :=
  let w := u32 (rb_write_ptr rb + 1) in
  mk_rb (rb_buffer rb) (rb_size rb) (rb_read_ptr rb) (if w =? rb_size rb then 0 else w).

Definition ringbuffer_bump_read_ptr (rb : ringbuffer_t) : ringbuffer_t :=
  let r := u32 (rb_read_ptr rb + 1) in
  mk_rb (rb_buffer rb) (rb_size rb) (if r =? rb_size rb then 0 else r) (rb_write_ptr rb).

(** [rb->buffer[rb->write_ptr] = b; bump] *)
Definition rb_put (rb : ringbuffer_t) (b : Z) : res ringbuffer_t :=
  if rb_write_ptr rb <? Z.of_nat (length (rb_buffer rb)) then
    Ok (ringbuffer_bump_write_ptr
      (mk_rb (<[Z.to_nat (rb_write_ptr rb) := b]> (rb_buffer rb))
         (rb_size rb) (rb_read_ptr rb) (rb_write_ptr rb)))
  else Fault.

(** [b = rb->buffer[rb->read_ptr]; bump] *)
Definition rb_get (rb : ringbuffer_t) : res (Z * ringbuffer_t) :=
  b ← of_option (rb_buffer rb !! Z.to_nat (rb_read_ptr rb));
  Ok (b, ringbuffer_bump_read_ptr rb).

(** The inner [while] of [ringbuffer_write]: the ring and the number written. *)
Fixpoint rb_fill (rb : ringbuffer_t) (data : list Z) (written : nat)
    : res (ringbuffer_t * nat) :=
  match data with
  | [] => Ok (rb, written)
  | b :: data' =>
      if truthy (ringbuffer_write_available rb) then
        rb' ← rb_put rb b; rb_fill rb' data' (S written)
      else Ok (rb, written)
  end.

Fixpoint ringbuffer_write (wakeups : list rb_wakeup) (rb : ringbuffer_t) (data : list Z)
    (ev : list rb_event) : res (Z * ringbuffer_t * list rb_event) :=
  '(rb1, written) ← rb_fill rb data 0;
  let ev1 := ev ++ [WakeReaders] in
  if (written =? 0)%nat then
    match wakeups with
    | [] => OutOfFuel
    | sleep :: wakeups' =>
        let '(interrupted, rb2) := sleep rb1 in
        if (interrupted : bool)
        then Ok (u32 (- ERESTARTSYS), rb2, ev1 ++ [SleepWriter])
        else ringbuffer_write wakeups' rb2 data (ev1 ++ [SleepWriter])
    end
  else Ok (Z.of_nat written, rb1, ev1 ++ [WakeReaders]).

(** The inner [while] of [ringbuffer_read]: the bytes stored in the caller's buffer. *)
Fixpoint rb_drain (rb : ringbuffer_t) (size : nat) : res (ringbuffer_t * list Z) :=
  match size with
  | O => Ok (rb, [])
  | S n =>
      if truthy (ringbuffer_read_available rb) then
        '(b, rb') ← rb_get rb;
        '(rb'', bs) ← rb_drain rb' n;
        Ok (rb'', b :: bs)
      else Ok (rb, [])
  end.

Fixpoint ringbuffer_read (wakeups : list rb_wakeup) (rb : ringbuffer_t) (size : nat)
    (ev : list rb_event) : res (Z * list Z * ringbuffer_t * list rb_event) :=
  '(rb1, bs) ← rb_drain rb size;
  let ev1 := ev ++ [WakeWriters] in
  if (length bs =? 0)%nat then
    match wakeups with
    | [] => OutOfFuel
    | sleep :: wakeups' =>
        let '(interrupted, rb2) := sleep rb1 in
        if (interrupted : bool)
        then Ok (u32 (- ERESTARTSYS), [], rb2, ev1 ++ [SleepReader])
        else ringbuffer_read wakeups' rb2 size (ev1 ++ [SleepReader])
    end
  else Ok (Z.of_nat (length bs), bs, rb1, ev1 ++ [WakeWriters]).

(** ** The ring as a bounded queue *)

Definition rb_wf (rb : ringbuffer_t) : Prop :=
  2 ≤ rb_size rb < 2 ^ 32 ∧ Z.of_nat (length (rb_buffer rb)) = rb_size rb ∧
  0 ≤ rb_read_ptr rb < rb_size rb ∧ 0 ≤ rb_write_ptr rb < rb_size rb.

(** Number of unread bytes, as an unbounded number. *)
Definition rb_used (rb : ringbuffer_t) : Z :=
  (rb_write_ptr rb - rb_read_ptr rb) mod rb_size rb.

(** The unread bytes, oldest first. *)
Definition rb_view (rb : ringbuffer_t) : list Z :=
  (λ i, default 0 (rb_buffer rb !! Z.to_nat ((rb_read_ptr rb + Z.of_nat i) mod rb_size rb)))
    <$> seq 0 (Z.to_nat (rb_used rb)).

Section ring.
Implicit Types (rb : ringbuffer_t) (b : Z) (data : list Z).

Lemma rb_used_range rb : rb_wf rb → 0 ≤ rb_used rb < rb_size rb.
Proof. intros (?&?&?&?). apply Z.mod_pos_bound. lia. Qed.

(** The modulus, resolved by the branch of the code. *)
Lemma rb_used_cases rb :
  rb_wf rb →
  rb_used rb = if rb_write_ptr rb <? rb_read_ptr rb
               then rb_size rb - rb_read_ptr rb + rb_write_ptr rb
               else rb_write_ptr rb - rb_read_ptr rb.
Proof.
  intros (?&?&?&?). unfold rb_used. case_if.
  - symmetry. apply Z.mod_unique_pos with (-1); lia.
  - apply Z.mod_small. lia.
Qed.

Lemma read_available_used rb : rb_wf rb → ringbuffer_read_available rb = rb_used rb.
Proof.
  intros Hwf. rewrite rb_used_cases by done. destruct Hwf as (?&?&?&?).
  unfold ringbuffer_read_available. case_if; [case_if; lia|].
  case_if; apply u32_small; lia.
Qed.

Lemma write_available_free rb :
  rb_wf rb → ringbuffer_write_available rb = rb_size rb - 1 - rb_used rb.
Proof.
  intros Hwf. rewrite rb_used_cases by done. destruct Hwf as (?&?&?&?).
  unfold ringbuffer_write_available. case_if; [rewrite u32_small by lia; case_if; lia|].
  case_if; rewrite u32_small by lia; lia.
Qed.

Lemma length_rb_view rb : rb_wf rb → Z.of_nat (length (rb_view rb)) = rb_used rb.
Proof.
  intros Hwf. pose proof (rb_used_range rb Hwf). unfold rb_view.
  rewrite length_fmap, length_seq. lia.
Qed.

(** A pointer increment is an increment modulo the size. *)
Lemma bump_mod p size : 0 ≤ p < size → size < 2 ^ 32 →
  (if u32 (p + 1) =? size then 0 else u32 (p + 1)) = (p + 1) mod size.
Proof.
  intros Hp Hs. rewrite u32_small by lia. case_if.
  - subst size. by rewrite Z.mod_same by lia.
  - rewrite Z.mod_small; lia.
Qed.

Lemma rb_put_ok rb b :
  rb_wf rb → rb_used rb < rb_size rb - 1 →
  ∃ rb', rb_put rb b = Ok rb' ∧ rb_wf rb' ∧ rb_size rb' = rb_size rb ∧
    rb_view rb' = rb_view rb ++ [b].
Proof.
  intros Hwf Hfree. pose proof Hwf as (Hsz & Hlen & Hr & Hw). unfold rb_put.
  rewrite (proj2 (Z.ltb_lt _ _)) by lia. eexists. split; [done|].
  unfold ringbuffer_bump_write_ptr. cbn. rewrite bump_mod by lia.
  pose proof (Z.mod_pos_bound (rb_write_ptr rb + 1) (rb_size rb) ltac:(lia)).
  split; [repeat split; cbn; rewrite ?length_insert; lia|]. split; [done|].
  pose proof (rb_used_range rb Hwf) as Hu.
  unfold rb_view. cbn. unfold rb_used at 1. cbn.
  rewrite Zminus_mod_idemp_l.
  replace (rb_write_ptr rb + 1 - rb_read_ptr rb)
    with (rb_write_ptr rb - rb_read_ptr rb + 1) by lia.
  rewrite <- Zplus_mod_idemp_l. fold (rb_used rb). rewrite (Z.mod_small (rb_used rb + 1)) by lia.
  replace (Z.to_nat (rb_used rb + 1)) with (S (Z.to_nat (rb_used rb))) by lia.
  rewrite seq_S, fmap_app. cbn.
  assert (Hend : (rb_read_ptr rb + rb_used rb) mod rb_size rb = rb_write_ptr rb).
  { unfold rb_used. rewrite Zplus_mod_idemp_r.
    replace (_ + _) with (rb_write_ptr rb) by lia. apply Z.mod_small. lia. }
  f_equal.
  - apply list_fmap_ext. intros k i Hk. apply lookup_seq in Hk as [-> Hk]. cbn in *.
    rewrite list_lookup_insert_ne; [done|]. intros Heq.
    apply Z2Nat.inj in Heq; [|lia|by apply Z.mod_pos_bound; lia].
    rewrite <- Hend in Heq. apply (f_equal (λ z, (z - rb_read_ptr rb) mod rb_size rb)) in Heq.
    rewrite !Zminus_mod_idemp_l in Heq.
    replace (rb_read_ptr rb + rb_used rb - rb_read_ptr rb) with (rb_used rb) in Heq by lia.
    replace (rb_read_ptr rb + Z.of_nat k - rb_read_ptr rb) with (Z.of_nat k) in Heq by lia.
    rewrite !Z.mod_small in Heq by lia. lia.
  - rewrite Z2Nat.id, Hend by lia. rewrite list_lookup_insert_eq by lia. done.
Qed.

Lemma rb_get_ok rb b bs :
  rb_wf rb → rb_view rb = b :: bs →
  ∃ rb', rb_get rb = Ok (b, rb') ∧ rb_wf rb' ∧ rb_size rb' = rb_size rb ∧ rb_view rb' = bs.
Proof.
  intros Hwf Hv. pose proof Hwf as (Hsz & Hlen & Hr & Hw).
  pose proof (length_rb_view rb Hwf) as Hl. rewrite Hv in Hl. cbn in Hl.
  unfold rb_view in Hv. replace (Z.to_nat (rb_used rb)) with (S (length bs)) in Hv by lia.
  cbn [seq fmap list_fmap] in Hv. injection Hv as Hb Hbs.
  rewrite Z.add_0_r, Z.mod_small in Hb by lia.
  destruct (lookup_lt_is_Some_1' (rb_buffer rb) (Z.to_nat (rb_read_ptr rb))) as [x Hx]; [lia|].
  unfold rb_get. rewrite Hx in *. cbn in Hb. subst x. cbn [of_option]. rewrite bind_ok.
  eexists. split; [done|]. unfold ringbuffer_bump_read_ptr. cbn. rewrite bump_mod by lia.
  pose proof (Z.mod_pos_bound (rb_read_ptr rb + 1) (rb_size rb) ltac:(lia)).
  split; [repeat split; cbn; lia|]. split; [done|].
  unfold rb_view, rb_used. cbn. rewrite Zminus_mod_idemp_r.
  replace (rb_write_ptr rb - (rb_read_ptr rb + 1))
    with (rb_write_ptr rb - rb_read_ptr rb - 1) by lia.
  rewrite <- Zminus_mod_idemp_l. fold (rb_used rb).
  pose proof (rb_used_range rb Hwf). rewrite (Z.mod_small (rb_used rb - 1)) by lia.
  replace (Z.to_nat (rb_used rb - 1)) with (length bs) by lia.
  rewrite <- Hbs at 2. rewrite <- fmap_S_seq, <- list_fmap_compose.
  apply list_fmap_ext. intros k i Hk. cbn. rewrite Zplus_mod_idemp_l.
  do 4 f_equal. lia.
Qed.
End ring.

(** ** The ring implements the queue interface *)

#[export] Program Instance ring_queue : ByteQueue ringbuffer_t := {
  bq_wf := rb_wf;
  bq_view := rb_view;
  bq_cap rb := Z.to_nat (rb_size rb - 1);
  bq_room rb := truthy (ringbuffer_write_available rb);
  bq_ready rb := truthy (ringbuffer_read_available rb);
  bq_put := rb_put;
  bq_get := rb_get
}.
Next Obligation.
  cbn. intros rb Hwf. pose proof (rb_used_range rb Hwf). rewrite <- (length_rb_view rb Hwf) in *. lia.
Qed.
Next Obligation.
  cbn. intros rb Hwf. rewrite write_available_free by done. pose proof (length_rb_view rb Hwf).
  unfold truthy. case_bool_decide; [apply negb_true_iff, Z.eqb_neq|apply negb_false_iff, Z.eqb_eq];
    pose proof (rb_used_range rb Hwf); lia.
Qed.
Next Obligation.
  cbn. intros rb Hwf. rewrite read_available_used, <- length_rb_view by done.
  destruct (rb_view rb) as [|b bs]; [by rewrite bool_decide_eq_false_2 by tauto|].
  rewrite bool_decide_eq_true_2 by done. apply truthy_true. cbn [length]. lia.
Qed.
Next Obligation.
  cbn. intros rb b Hwf Hlt. pose proof (length_rb_view rb Hwf).
  destruct (rb_put_ok rb b Hwf) as (rb' & ? & ? & Hs & ?); [lia|].
  exists rb'. by rewrite Hs.
Qed.
Next Obligation.
  cbn. intros rb b bs Hwf Hv. destruct (rb_get_ok rb b bs Hwf Hv) as (rb' & ? & ? & Hs & ?).
  exists rb'. by rewrite Hs.
Qed.

Lemma rb_fill_bq rb data w : rb_fill rb data w = bq_fill rb data w.
Proof. done. Qed.

Lemma rb_drain_bq rb n : rb_drain rb n = bq_drain rb n.
Proof. done. Qed.

(** [ringbuffer_write] on a ring with space returns at once having appended
    exactly as many bytes as fit, and wakes the readers; on a full ring it sleeps,
    and when woken either reports an interrupted call, with nothing written, or
    starts again from the ring it finds. *)
Theorem ringbuffer_write_spec wakeups rb data ev :
  rb_wf rb → data ≠ [] →
  let free := Z.to_nat (rb_size rb - 1 - rb_used rb) in
  let n := min (length data) free in
  if (free =? 0)%nat then
    ringbuffer_write wakeups rb data ev =
      match wakeups with
      | [] => OutOfFuel
      | sleep :: ws =>
          if fst (sleep rb)
          then Ok (u32 (- ERESTARTSYS), snd (sleep rb), ev ++ [WakeReaders; SleepWriter])
          else ringbuffer_write ws (snd (sleep rb)) data (ev ++ [WakeReaders; SleepWriter])
      end
  else
    ∃ rb', ringbuffer_write wakeups rb data ev =
        Ok (Z.of_nat n, rb', ev ++ [WakeReaders; WakeReaders]) ∧
      rb_wf rb' ∧ rb_size rb' = rb_size rb ∧ rb_view rb' = rb_view rb ++ take n data.
Proof.
  intros Hwf Hne. cbn zeta. pose proof (length_rb_view rb Hwf) as Hl.
  pose proof (rb_used_range rb Hwf).
  assert (Hfree : (Z.to_nat (rb_size rb - 1 - rb_used rb) =
    Z.to_nat (rb_size rb - 1) - length (rb_view rb))%nat) by lia.
  rewrite Hfree. clear Hfree.
  destruct (@bq_fill_ok _ ring_queue rb data 0 Hwf) as (rb' & Hf & Hwf' & Hc & Hv).
  change (bq_cap rb) with (Z.to_nat (rb_size rb - 1)) in *.
  change (bq_view rb) with (rb_view rb) in *.
  change (bq_cap rb') with (Z.to_nat (rb_size rb' - 1)) in Hc.
  case_if.
  - rewrite E in *. rewrite Nat.min_0_r in *.
    assert (rb_fill rb data 0 = Ok (rb, 0%nat)) as Hz.
    { destruct data as [|b data]; [done|]. cbn [rb_fill].
      rewrite write_available_free by done. rewrite (proj2 (truthy_false _)) by lia. done. }
    destruct wakeups as [|sleep ws]; cbn [ringbuffer_write]; rewrite Hz, bind_ok; [done|].
    cbn [Nat.eqb]. rewrite <- !app_assoc. by destruct (sleep rb).
  - exists rb'. rewrite Nat.add_0_l in Hf.
    assert (0 < length data)%nat by (destruct data; [done|cbn; lia]).
    split; [|split; [done|]; split; [|done]].
    + destruct wakeups as [|? ?]; cbn [ringbuffer_write]; rewrite rb_fill_bq, Hf, bind_ok;
        rewrite (proj2 (Nat.eqb_neq _ _)), <- app_assoc by lia; done.
    + destruct Hwf as (?&?&?&?), Hwf' as (?&?&?&?). lia.
Qed.

Lemma ringbuffer_write_spec_witness :
  ∃ rb', ringbuffer_write [] (mk_rb [1;2;3;4] 4 3 1) [7;8] [] =
      Ok (1, rb', [WakeReaders; WakeReaders]) ∧
    rb_wf rb' ∧ rb_size rb' = 4 ∧ rb_view rb' = [4;1] ++ [7].
Proof.
  apply (ringbuffer_write_spec [] (mk_rb [1;2;3;4] 4 3 1) [7;8] []); [|done].
  repeat split; cbn; lia.
Defined.

(** [ringbuffer_read] on a non-empty ring returns at once the oldest bytes, as
    many as asked for and available, and wakes the writers; on an empty ring it
    sleeps, and when woken either reports an interrupted call or starts again. *)
Theorem ringbuffer_read_spec wakeups rb size ev :
  rb_wf rb → (0 < size)%nat →
  match rb_view rb with
  | [] =>
    ringbuffer_read wakeups rb size ev =
      match wakeups with
      | [] => OutOfFuel
      | sleep :: ws =>
          if fst (sleep rb)
          then Ok (u32 (- ERESTARTSYS), [], snd (sleep rb), ev ++ [WakeWriters; SleepReader])
          else ringbuffer_read ws (snd (sleep rb)) size (ev ++ [WakeWriters; SleepReader])
      end
  | view =>
    ∃ rb', ringbuffer_read wakeups rb size ev =
        Ok (Z.of_nat (min size (length view)), take size view, rb',
            ev ++ [WakeWriters; WakeWriters]) ∧
      rb_wf rb' ∧ rb_size rb' = rb_size rb ∧ rb_view rb' = drop size view
  end.
Proof.
  intros Hwf Hsz. destruct (@bq_drain_ok _ ring_queue rb size Hwf) as (rb' & Hd & Hwf' & Hc & Hv).
  change (bq_view rb) with (rb_view rb) in *.
  change (bq_cap rb') with (Z.to_nat (rb_size rb' - 1)) in Hc.
  change (bq_cap rb) with (Z.to_nat (rb_size rb - 1)) in Hc.
  destruct (rb_view rb) as [|b bs] eqn:Eb.
  - assert (rb_drain rb size = Ok (rb, [])) as Hz.
    { destruct size as [|n]; [lia|]. cbn [rb_drain].
      rewrite read_available_used, <- length_rb_view, Eb by done. done. }
    destruct wakeups as [|sleep ws]; cbn [ringbuffer_read]; rewrite Hz, bind_ok; [done|].
    cbn [length Nat.eqb]. rewrite <- !app_assoc. by destruct (sleep rb).
  - exists rb'. split; [|split; [done|]; split; [|done]].
    + destruct wakeups as [|? ?]; cbn [ringbuffer_read]; rewrite rb_drain_bq, Hd, bind_ok;
        rewrite (proj2 (Nat.eqb_neq _ _)) by (rewrite length_take; cbn; lia);
        by rewrite length_take, <- app_assoc.
    + destruct Hwf as (?&?&?&?), Hwf' as (?&?&?&?). lia.
Qed.

Lemma ringbuffer_read_spec_witness :
  ∃ rb', ringbuffer_read [] (mk_rb [1;2;3;4] 4 3 1) 5 [] =
      Ok (2, [4;1], rb', [WakeWriters; WakeWriters]) ∧
    rb_wf rb' ∧ rb_size rb' = 4 ∧ rb_view rb' = [].
Proof.
  apply (ringbuffer_read_spec [] (mk_rb [1;2;3;4] 4 3 1) 5 []); [|lia].
  repeat split; cbn; lia.
Defined.

(** Bytes leave a ring in the order they entered it, whatever the interleaving of
    writes and reads: from a fresh ring, the bytes delivered followed by those still
    buffered are exactly the bytes accepted, and at most [size - 1] are buffered. *)
Theorem ringbuffer_fifo contents size ops :
  2 ≤ size < 2 ^ 32 → Z.of_nat (length contents) = size →
  ∃ accepted delivered rb, bq_run ops (ringbuffer_create contents size) =
      Ok (accepted, delivered, rb) ∧ rb_wf rb ∧
    accepted = delivered ++ rb_view rb ∧ Z.of_nat (length (rb_view rb)) ≤ size - 1.
Proof.
  intros Hs Hl.
  assert (Hwf : rb_wf (ringbuffer_create contents size)).
  { repeat split; cbn; try lia. rewrite length_take. lia. }
  destruct (@bq_fifo _ ring_queue ops _ Hwf) as (acc & del & rb & Hr & Hwf' & Hf & Hb).
  exists acc, del, rb. split; [done|]. split; [done|].
  change (bq_view rb) with (rb_view rb) in *.
  change (bq_cap _) with (Z.to_nat (size - 1)) in Hb.
  assert (bq_view (ringbuffer_create contents size) = []) as Hnil.
  { cbn. unfold rb_view, rb_used. cbn. by rewrite Z.mod_0_l by lia. }
  rewrite Hnil in Hf. split; [done|]. lia.
Qed.

Lemma ringbuffer_fifo_witness :
  ∃ accepted delivered rb,
    bq_run [BPut [1;2;3;4;5]; BGet 2; BPut [6]] (ringbuffer_create [0;0;0;0] 4) =
      Ok (accepted, delivered, rb) ∧ rb_wf rb ∧
    accepted = delivered ++ rb_view rb ∧ Z.of_nat (length (rb_view rb)) ≤ 4 - 1.
Proof. apply (ringbuffer_fifo [0;0;0;0] 4); [lia|done]. Defined.

(** A request for zero bytes never completes: whatever the other processes do to
    the ring, unless a signal interrupts it the caller goes back to sleep. *)
Theorem ringbuffer_zero_blocks (wakeups : list rb_wakeup) rb ev :
  Forall (λ sleep, ∀ r, fst (sleep r) = false) wakeups →
  ringbuffer_read wakeups rb 0 ev = OutOfFuel ∧ ringbuffer_write wakeups rb [] ev = OutOfFuel.
Proof.
  intros H. revert rb ev. induction H as [|sleep ws Hs _ IH]; intros rb ev; [done|].
  cbn. specialize (Hs rb). destruct (sleep rb) as [i rb2]. cbn in Hs. subst i.
  split; apply IH.
Qed.

Lemma ringbuffer_zero_blocks_witness :
  ringbuffer_read [λ r, (false, r)] (mk_rb [1;2;3;4] 4 3 1) 0 [] = OutOfFuel ∧
  ringbuffer_write [λ r, (false, r)] (mk_rb [1;2;3;4] 4 3 1) [] [] = OutOfFuel.
Proof. apply (ringbuffer_zero_blocks [λ r, (false, r)]). by repeat constructor. Defined.
