(* ===== verification/Pipe.v ===== *)
(** * kernel/src/fs/pipe.c: pipes

    A pipe is the circular buffer of pipe.c with one wait queue for readers and
    writers and three selection queues.  Its pointer arithmetic is that of the ring of
    Ring.v, so the pipe is a second instance of [ByteQueue].  A call that sleeps hands
    the processor to other processes; what they do is the next element of a list of
    environment actions.  When the list is exhausted the call is reported as
    [PAsleep], with the pipe it left behind and the wake-ups it had issued. *)

From S2P Require Import Prelude ByteQueue Ring.

Record pipe_t := mk_pipe {
  p_buffer : list Z;
  p_size : Z;
  p_write_ptr : Z;
  p_read_ptr : Z;
  p_sel_queues : list (list Z) (* block nodes, one per process *)
}.

Definition PIPE_SEL_QUEUE_R : Z := 0.
Definition PIPE_SEL_QUEUE_W : Z := 1.
Definition PIPE_SEL_QUEUE_E : Z := 2.

(** Effects on the scheduler, in program order. *)
Inductive pipe_event :=
| PWake (* k_proc_process_wakeup_queue(dev->wait_queue) *)
| PSleep (* the caller joins dev->wait_queue and yields *)
| PSelect (idx event : Z). (* k_proc_process_wakeup_queue_select *)

(** Another process ran while the caller slept; [true]: the sleep was interrupted. *)
Abbreviation pipe_wakeup := (pipe_t → bool * pipe_t).

Inductive outcome (A : Type) :=
| PRet (a : A) (p : pipe_t) (ev : list pipe_event)
| PAsleep (p : pipe_t) (ev : list pipe_event)
| PFault.
Arguments PRet {A} a p ev.
Arguments PAsleep {A} p ev.
Arguments PFault {A}.

Definition pipe_event2index (event : Z) : Z :=
  if event =? VFS_EVENT_READ then PIPE_SEL_QUEUE_R
  else if event =? VFS_EVENT_WRITE then PIPE_SEL_QUEUE_W
  else if event =? VFS_EVENT_EXCEPT then PIPE_SEL_QUEUE_E
  else - EINVAL.

(** Everyone in the selected queue is woken, so it ends up empty. *)
Definition pipe_notify (p : pipe_t) (ev : list pipe_event) (event : Z)
    : pipe_t * list pipe_event :=
  let idx := pipe_event2index event in
  if idx <? 0 then (p, ev)
  else (mk_pipe (p_buffer p) (p_size p) (p_write_ptr p) (p_read_ptr p)
          (<[Z.to_nat idx := []]> (p_sel_queues p)), ev ++ [PSelect idx event]).

Definition pipe_read_available (p : pipe_t) : Z :=
  if p_read_ptr p =? p_write_ptr p then 0
  else if p_write_ptr p <? p_read_ptr p
  then u32 ((p_size p - p_read_ptr p) + p_write_ptr p)
  else u32 (p_write_ptr p - p_read_ptr p).

Definition pipe_write_available (p : pipe_t) : Z :=
  if p_read_ptr p =? p_write_ptr p then u32 (p_size p - 1)
  else if p_write_ptr p <? p_read_ptr p
  then u32 (p_read_ptr p - p_write_ptr p - 1)
  else u32 ((p_size p - p_write_ptr p) + p_read_ptr p - 1).

Definition pipe_bump_write_ptr (p : pipe_t) : pipe_t :=
  let w := u32 (p_write_ptr p + 1) in
  mk_pipe (p_buffer p) (p_size p) (if w =? p_size p then 0 else w) (p_read_ptr p)
    (p_sel_queues p).

Definition pipe_bump_read_ptr (p : pipe_t) : pipe_t :=
  let r := u32 (p_read_ptr p + 1) in
  mk_pipe (p_buffer p) (p_size p) (p_write_ptr p) (if r =? p_size p then 0 else r)
    (p_sel_queues p).

(** [dev->buffer[dev->write_ptr] = b; bump] *)
Definition pipe_put (p : pipe_t) (b : Z) : res pipe_t :=
  if p_write_ptr p <? Z.of_nat (length (p_buffer p)) then
    Ok (pipe_bump_write_ptr
      (mk_pipe (<[Z.to_nat (p_write_ptr p) := b]> (p_buffer p)) (p_size p)
         (p_write_ptr p) (p_read_ptr p) (p_sel_queues p)))
  else Fault.

(** [b = dev->buffer[dev->read_ptr]; bump] *)
Definition pipe_get (p : pipe_t) : res (Z * pipe_t) :=
  b ← of_option (p_buffer p !! Z.to_nat (p_read_ptr p));
  Ok (b, pipe_bump_read_ptr p).

(** The loop of [__k_fs_pipe_write].  [sleep] is the environment of this byte's wait;
    the recursion is on the environment and, inside, on the bytes. *)
Fixpoint pipe_write_go (nonblock : bool) (wakeups : list pipe_wakeup) {struct wakeups}
    : pipe_t → list Z → Z → list pipe_event → outcome Z :=
  fix bytes (p : pipe_t) (data : list Z) (written : Z) (ev : list pipe_event)
      {struct data} : outcome Z :=
    match data with
    | [] =>
        let '(p', ev') := pipe_notify p (ev ++ [PWake]) VFS_EVENT_READ in PRet written p' ev'
    | b :: data' =>
        if truthy (pipe_write_available p) then
          match pipe_put p b with
          | Ok p1 => bytes p1 data' (written + 1) ev
          | _ => PFault
          end
        else if nonblock then
          let '(p', ev') := pipe_notify p (ev ++ [PWake]) VFS_EVENT_READ in PRet written p' ev'
        else
          match wakeups with
          | [] => PAsleep p (ev ++ [PSleep])
          | sleep :: wakeups' =>
              let '(interrupted, p1) := sleep p in
              if (interrupted : bool) then PRet (u32 (- ERESTARTSYS)) p1 (ev ++ [PSleep])
              else pipe_write_go nonblock wakeups' p1 data written (ev ++ [PSleep])
          end
    end.

Definition pipe_write (mode : Z) (wakeups : list pipe_wakeup) (dev : option pipe_t)
    (data : list Z) : Z + outcome Z :=
  match dev with
  | None => inl (u32 (- ENOENT))
  | Some p => inr (pipe_write_go (truthy (Z.land mode O_NOBLOCK)) wakeups p data 0 [])
  end.

(** The loop of [__k_fs_pipe_read]; the bytes stored so far are accumulated. *)
Fixpoint pipe_read_go (wakeups : list pipe_wakeup) {struct wakeups}
    : pipe_t → nat → list Z → Z → list pipe_event → outcome (Z * list Z) :=
  fix bytes (p : pipe_t) (left : nat) (got : list Z) (size : Z) (ev : list pipe_event)
      {struct left} : outcome (Z * list Z) :=
    match left with
    | O =>
        let '(p', ev') := pipe_notify p (ev ++ [PWake]) VFS_EVENT_WRITE in
        PRet (size, got) p' ev'
    | S left' =>
        if truthy (pipe_read_available p) then
          match pipe_get p with
          | Ok (b, p1) => bytes p1 left' (got ++ [b]) size ev
          | _ => PFault
          end
        else
          match wakeups with
          | [] => PAsleep p (ev ++ [PSleep])
          | sleep :: wakeups' =>
              let '(interrupted, p1) := sleep p in
              if (interrupted : bool)
              then PRet (u32 (- ERESTARTSYS), got) p1 (ev ++ [PSleep])
              else pipe_read_go wakeups' p1 left got size (ev ++ [PSleep])
          end
    end.

Definition pipe_read (mode : Z) (wakeups : list pipe_wakeup) (dev : option pipe_t)
    (size : Z) : Z + outcome (Z * list Z) :=
  match dev with
  | None => inl (u32 (- ENOENT))
  | Some p =>
      if truthy (Z.land mode O_NOBLOCK) && (pipe_read_available p <? size)
      then inr (PRet (u32 (- EAGAIN), []) p [])
      else inr (pipe_read_go wakeups p (Z.to_nat size) [] size [])
  end.

Definition pipe_check (dev : option pipe_t) (event : Z) : bool :=
  match dev with
  | None => false
  | Some p =>
      if event =? VFS_EVENT_READ then 0 <? pipe_read_available p
      else if event =? VFS_EVENT_WRITE then 0 <? pipe_write_available p
      else false
  end.

(** A process that is not yet in the selected queue joins it. *)
Definition pipe_wait (dev : option pipe_t) (event : Z) (block_node : Z)
    : Z * option pipe_t :=
  match dev with
  | None => (- ENOENT, None)
  | Some p =>
      let idx := pipe_event2index event in
      if idx <? 0 then (idx, Some p)
      else
        let q := default [] (p_sel_queues p !! Z.to_nat idx) in
        if bool_decide (block_node ∈ q) then (0, Some p)
        else (0, Some (mk_pipe (p_buffer p) (p_size p) (p_write_ptr p) (p_read_ptr p)
                 (<[Z.to_nat idx := q ++ [block_node]]> (p_sel_queues p))))
  end.

(** [k_calloc] clears the buffer; the queues are fresh lists. *)
Definition pipe_create (size : Z) : pipe_t :=
  mk_pipe (replicate (Z.to_nat size) 0) size 0 0 [[]; []; []].

(** ** The pipe as a bounded queue *)

(** The ring with the same pointers. *)
Definition pipe_ring (p : pipe_t) : ringbuffer_t :=
  mk_rb (p_buffer p) (p_size p) (p_read_ptr p) (p_write_ptr p).

Definition pipe_wf (p : pipe_t) : Prop :=
  rb_wf (pipe_ring p) ∧ length (p_sel_queues p) = 3%nat.

Definition pipe_view (p : pipe_t) : list Z := rb_view (pipe_ring p).
Definition pipe_cap (p : pipe_t) : nat := Z.to_nat (p_size p - 1).

Lemma pipe_put_ring p b p' :
  pipe_put p b = Ok p' →
  rb_put (pipe_ring p) b = Ok (pipe_ring p') ∧ p_sel_queues p' = p_sel_queues p.
Proof. unfold pipe_put, rb_put. cbn. case_if; intros [= <-]. done. Qed.

Lemma ring_put_pipe p b r :
  rb_put (pipe_ring p) b = Ok r → ∃ p', pipe_put p b = Ok p' ∧ pipe_ring p' = r.
Proof. unfold pipe_put, rb_put. cbn. case_if; intros [= <-]. by eexists. Qed.

Lemma pipe_get_ring p b r :
  rb_get (pipe_ring p) = Ok (b, r) →
  ∃ p', pipe_get p = Ok (b, p') ∧ pipe_ring p' = r ∧ p_sel_queues p' = p_sel_queues p.
Proof.
  unfold pipe_get, rb_get. cbn. destruct (p_buffer p !! _); cbn; [|done].
  intros [= -> <-]. by eexists.
Qed.

#[export] Program Instance pipe_queue : ByteQueue pipe_t := {
  bq_wf := pipe_wf;
  bq_view := pipe_view;
  bq_cap := pipe_cap;
  bq_room p := truthy (pipe_write_available p);
  bq_ready p := truthy (pipe_read_available p);
  bq_put := pipe_put;
  bq_get := pipe_get
}.
Next Obligation. intros p [Hwf _]. exact (@bq_bounded _ ring_queue _ Hwf). Qed.
Next Obligation. intros p [Hwf _]. exact (@bq_room_ok _ ring_queue _ Hwf). Qed.
Next Obligation. intros p [Hwf _]. exact (@bq_ready_ok _ ring_queue _ Hwf). Qed.
Next Obligation.
  intros p b [Hwf Hs] Hlt.
  destruct (@bq_put_ok _ ring_queue _ b Hwf Hlt) as (r & Hp & Hr & Hc & Hv).
  destruct (ring_put_pipe p b r Hp) as (p' & Hp' & <-).
  destruct (pipe_put_ring _ _ _ Hp') as [_ Hq].
  exists p'. split; [done|]. split; [split; [done|by rewrite Hq]|]. by split.
Qed.
Next Obligation.
  intros p b bs [Hwf Hs] Hv.
  destruct (@bq_get_ok _ ring_queue _ b bs Hwf Hv) as (r & Hp & Hr & Hc & Hv').
  destruct (pipe_get_ring p b r Hp) as (p' & Hp' & <- & Hq).
  exists p'. split; [done|]. split; [split; [done|by rewrite Hq]|]. by split.
Qed.

(** ** What the calls do *)

Definition pipe_notified (p : pipe_t) (idx : nat) : pipe_t :=
  mk_pipe (p_buffer p) (p_size p) (p_write_ptr p) (p_read_ptr p) (<[idx := []]> (p_sel_queues p)).

Lemma pipe_notified_wf p i :
  pipe_wf p → pipe_wf (pipe_notified p i) ∧ pipe_view (pipe_notified p i) = pipe_view p.
Proof. intros [? Hq]. split; [split; [done|]|done]. cbn. by rewrite length_insert. Qed.

Section calls.
Implicit Types (p : pipe_t) (data : list Z) (ws : list pipe_wakeup).

(** The writer copies without sleeping as long as there is room ... *)
Lemma pipe_write_go_absorb nb ws p data w ev p' n k :
  bq_fill p data n = Ok (p', (n + k)%nat) →
  pipe_write_go nb ws p data w ev = pipe_write_go nb ws p' (drop k data) (w + Z.of_nat k) ev.
Proof.
  revert p w n k. induction data as [|b data IH]; intros p w n k Hf; cbn [bq_fill] in Hf.
  - rewrite drop_nil. injection Hf as <- ?. by replace (w + _) with w by lia.
  - change (bq_room p) with (truthy (pipe_write_available p)) in Hf.
    change (bq_put p b) with (pipe_put p b) in Hf.
    destruct (truthy (pipe_write_available p)) eqn:Hr.
    + apply bind_ok_inv in Hf as (p1 & Hp & Hf).
      assert (Hstep : pipe_write_go nb ws p (b :: data) w ev =
        pipe_write_go nb ws p1 data (w + 1) ev) by (destruct ws; cbn; rewrite Hr, Hp; done).
      pose proof (bq_fill_count _ _ _ _ _ Hf). destruct k as [|k]; [lia|].
      rewrite Hstep, (IH p1 _ (S n) k); [cbn [drop]; f_equal; lia|].
      by rewrite Nat.add_succ_comm.
    + injection Hf as <- Hk. replace k with 0%nat by lia. cbn [drop].
      by replace (w + _) with w by lia.
Qed.

(** ... and the reader as long as there is data. *)
Lemma pipe_read_go_absorb ws p n got size ev p' bs :
  bq_drain p n = Ok (p', bs) →
  pipe_read_go ws p n got size ev = pipe_read_go ws p' (n - length bs) (got ++ bs) size ev.
Proof.
  revert p got bs. induction n as [|n IH]; intros p got bs Hd; cbn [bq_drain] in Hd.
  - inv_ok. by rewrite app_nil_r.
  - change (bq_ready p) with (truthy (pipe_read_available p)) in Hd.
    change (bq_get p) with (pipe_get p) in Hd.
    destruct (truthy (pipe_read_available p)) eqn:Hr; inv_ok.
    + assert (Hstep : pipe_read_go ws p (S n) got size ev =
        pipe_read_go ws p0 n (got ++ [z]) size ev)
        by (destruct ws; cbn; rewrite Hr, Hd0; done).
      rewrite Hstep, (IH _ _ _ Hd1). cbn. by rewrite <- app_assoc.
    + by rewrite app_nil_r, Nat.sub_0_r.
Qed.

Lemma pipe_full p : pipe_wf p → length (pipe_view p) = pipe_cap p →
  truthy (pipe_write_available p) = false.
Proof.
  intros Hwf Hl. pose proof (@bq_room_ok _ pipe_queue p Hwf) as Hr. cbn in Hr. rewrite Hr.
  apply bool_decide_eq_false_2. lia.
Qed.

Lemma pipe_empty p : pipe_wf p → pipe_view p = [] → truthy (pipe_read_available p) = false.
Proof.
  intros Hwf Hl. pose proof (@bq_ready_ok _ pipe_queue p Hwf) as Hr. cbn in Hr. rewrite Hr.
  apply bool_decide_eq_false_2. tauto.
Qed.

Lemma pipe_write_go_end nb ws p w ev :
  pipe_write_go nb ws p [] w ev =
    PRet w (pipe_notified p 0) ((ev ++ [PWake]) ++ [PSelect PIPE_SEL_QUEUE_R VFS_EVENT_READ]).
Proof. by destruct ws. Qed.

Lemma pipe_read_go_end ws p got size ev :
  pipe_read_go ws p 0 got size ev =
    PRet (size, got) (pipe_notified p 1)
      ((ev ++ [PWake]) ++ [PSelect PIPE_SEL_QUEUE_W VFS_EVENT_WRITE]).
Proof. by destruct ws. Qed.

Lemma pipe_write_go_spec nb ws p data w ev :
  pipe_wf p →
  let n := min (length data) (pipe_cap p - length (pipe_view p)) in
  ∃ p1, pipe_wf p1 ∧ p_size p1 = p_size p ∧ pipe_view p1 = pipe_view p ++ take n data ∧
  pipe_write_go nb ws p data w ev =
    if (nb || (n =? length data)%nat)%bool
    then PRet (w + Z.of_nat n) (pipe_notified p1 0)
           ((ev ++ [PWake]) ++ [PSelect PIPE_SEL_QUEUE_R VFS_EVENT_READ])
    else match ws with
         | [] => PAsleep p1 (ev ++ [PSleep])
         | sleep :: ws' =>
             if fst (sleep p1) then PRet (u32 (- ERESTARTSYS)) (snd (sleep p1)) (ev ++ [PSleep])
             else pipe_write_go nb ws' (snd (sleep p1)) (drop n data) (w + Z.of_nat n) (ev ++ [PSleep])
         end.
Proof.
  intros Hwf n. destruct (@bq_fill_ok _ pipe_queue p data 0 Hwf) as (p1 & Hf & Hwf1 & Hc & Hv).
  change (bq_cap p) with (pipe_cap p) in *. change (bq_cap p1) with (pipe_cap p1) in *.
  change (bq_view p) with (pipe_view p) in *. change (bq_view p1) with (pipe_view p1) in *.
  fold n in Hf, Hv. exists p1.
  pose proof (@bq_bounded _ pipe_queue p Hwf) as Hb. cbn in Hb.
  assert (p_size p1 = p_size p).
  { unfold pipe_cap in Hc. destruct Hwf as [(?&?&?&?) ?], Hwf1 as [(?&?&?&?) ?]. cbn in *. lia. }
  split_and!; [done|done|done|]. rewrite (pipe_write_go_absorb _ _ _ _ _ _ _ _ _ Hf).
  destruct (Nat.eqb_spec n (length data)) as [Hn|Hn].
  - rewrite orb_true_r, drop_ge, pipe_write_go_end by lia. done.
  - assert (Hfull : truthy (pipe_write_available p1) = false).
    { apply pipe_full; [done|]. rewrite Hv, length_app, length_take, Hc. lia. }
    destruct (drop n data) as [|b rest] eqn:Hd.
    { apply (f_equal length) in Hd. rewrite length_drop in Hd. cbn in Hd. lia. }
    destruct nb; cbn [orb]; destruct ws as [|sleep ws]; cbn; rewrite Hfull; [done|done|done|].
    destruct (sleep p1) as [[] ?]; done.
Qed.

Lemma pipe_read_go_spec ws p n got size ev :
  pipe_wf p →
  ∃ p1, pipe_wf p1 ∧ p_size p1 = p_size p ∧ pipe_view p1 = drop n (pipe_view p) ∧
  pipe_read_go ws p n got size ev =
    if (n <=? length (pipe_view p))%nat
    then PRet (size, got ++ take n (pipe_view p)) (pipe_notified p1 1)
           ((ev ++ [PWake]) ++ [PSelect PIPE_SEL_QUEUE_W VFS_EVENT_WRITE])
    else match ws with
         | [] => PAsleep p1 (ev ++ [PSleep])
         | sleep :: ws' =>
             if fst (sleep p1)
             then PRet (u32 (- ERESTARTSYS), got ++ pipe_view p) (snd (sleep p1)) (ev ++ [PSleep])
             else pipe_read_go ws' (snd (sleep p1)) (n - length (pipe_view p))
                    (got ++ pipe_view p) size (ev ++ [PSleep])
         end.
Proof.
  intros Hwf. destruct (@bq_drain_ok _ pipe_queue p n Hwf) as (p1 & Hd & Hwf1 & Hc & Hv).
  change (bq_cap p) with (pipe_cap p) in *. change (bq_cap p1) with (pipe_cap p1) in *.
  change (bq_view p) with (pipe_view p) in *. change (bq_view p1) with (pipe_view p1) in *.
  exists p1. assert (p_size p1 = p_size p).
  { unfold pipe_cap in Hc. destruct Hwf as [(?&?&?&?) ?], Hwf1 as [(?&?&?&?) ?]. cbn in *. lia. }
  split_and!; [done|done|done|]. rewrite (pipe_read_go_absorb _ _ _ _ _ _ _ _ Hd), length_take.
  destruct (Nat.leb_spec n (length (pipe_view p))) as [Hn|Hn].
  - replace (n - _)%nat with 0%nat by lia. by rewrite pipe_read_go_end.
  - rewrite Nat.min_r, take_ge by lia.
    assert (He : truthy (pipe_read_available p1) = false).
    { apply pipe_empty; [done|]. rewrite Hv, drop_ge; [done|lia]. }
    destruct (n - length (pipe_view p))%nat as [|m] eqn:Hm; [lia|].
    destruct ws as [|sleep ws]; cbn; rewrite He; [done|]. destruct (sleep p1) as [[] ?]; done.
Qed.
End calls.

Definition nonblocking (mode : Z) : bool := truthy (Z.land mode O_NOBLOCK).

(** One call of the pipe's [write]: without a device it is [-ENOENT]; bytes are
    accepted in order while there is room; if all fit, or the node is non-blocking,
    the call returns the number accepted, having woken the queue; otherwise it sleeps,
    and when woken is either interrupted or continues with the bytes left. *)
Theorem pipe_write_spec mode ws p data :
  pipe_wf p →
  let n := min (length data) (pipe_cap p - length (pipe_view p)) in
  pipe_write mode ws None data = inl (u32 (- ENOENT)) ∧
  ∃ p1, pipe_wf p1 ∧ p_size p1 = p_size p ∧ pipe_view p1 = pipe_view p ++ take n data ∧
  pipe_write mode ws (Some p) data = inr (
    if (nonblocking mode || (n =? length data)%nat)%bool
    then PRet (Z.of_nat n) (pipe_notified p1 0)
           [PWake; PSelect PIPE_SEL_QUEUE_R VFS_EVENT_READ]
    else match ws with
         | [] => PAsleep p1 [PSleep]
         | sleep :: ws' =>
             if fst (sleep p1) then PRet (u32 (- ERESTARTSYS)) (snd (sleep p1)) [PSleep]
             else pipe_write_go (nonblocking mode) ws' (snd (sleep p1)) (drop n data)
                    (Z.of_nat n) [PSleep]
         end).
Proof.
  intros Hwf n. split; [done|].
  destruct (pipe_write_go_spec (nonblocking mode) ws p data 0 [] Hwf) as (p1 & ? & ? & ? & Hw).
  exists p1. split_and!; [done..|]. unfold pipe_write. f_equal. exact Hw.
Qed.

Lemma pipe_write_spec_witness :
  ∃ p1, pipe_wf p1 ∧ p_size p1 = 4 ∧ pipe_view p1 = [] ++ [1;2;3] ∧
  pipe_write O_NOBLOCK [] (Some (pipe_create 4)) [1;2;3;4;5] =
    inr (PRet 3 (pipe_notified p1 0) [PWake; PSelect PIPE_SEL_QUEUE_R VFS_EVENT_READ]).
Proof.
  apply (pipe_write_spec O_NOBLOCK [] (pipe_create 4) [1;2;3;4;5]).
  repeat split; cbn; lia.
Defined.

(** A non-blocking [read] is all or nothing: [-EAGAIN] with the pipe untouched when
    fewer than [size] bytes are buffered, otherwise exactly the [size] oldest bytes,
    and the writers are woken. *)
Theorem pipe_read_nonblock mode ws p size :
  pipe_wf p → nonblocking mode = true → 0 ≤ size →
  if Z.of_nat (length (pipe_view p)) <? size
  then pipe_read mode ws (Some p) size = inr (PRet (u32 (- EAGAIN), []) p [])
  else ∃ p1, pipe_wf p1 ∧ pipe_view p1 = drop (Z.to_nat size) (pipe_view p) ∧
    pipe_read mode ws (Some p) size =
      inr (PRet (size, take (Z.to_nat size) (pipe_view p)) (pipe_notified p1 1)
             [PWake; PSelect PIPE_SEL_QUEUE_W VFS_EVENT_WRITE]).
Proof.
  intros Hwf Hnb Hs. unfold nonblocking in Hnb. unfold pipe_read. rewrite Hnb. cbn [andb].
  change (pipe_read_available p) with (ringbuffer_read_available (pipe_ring p)).
  pose proof Hwf as [Hr _]. rewrite read_available_used, <- length_rb_view by done.
  change (rb_view (pipe_ring p)) with (pipe_view p). case_if; [done|].
  destruct (pipe_read_go_spec ws p (Z.to_nat size) [] size [] Hwf) as (p1 & ? & ? & ? & Hw).
  rewrite (proj2 (Nat.leb_le _ _)) in Hw by lia. exists p1. by rewrite Hw.
Qed.

Lemma pipe_read_nonblock_witness :
  ∃ p1, pipe_wf p1 ∧ pipe_view p1 = [2] ∧
    pipe_read O_NOBLOCK [] (Some (mk_pipe [1;2;0;9] 4 2 3 [[];[];[]])) 2 =
      inr (PRet (2, [9;1]) (pipe_notified p1 1)
             [PWake; PSelect PIPE_SEL_QUEUE_W VFS_EVENT_WRITE]).
Proof.
  apply (pipe_read_nonblock O_NOBLOCK [] (mk_pipe [1;2;0;9] 4 2 3 [[];[];[]]) 2);
    [repeat split; cbn; lia|done|lia].
Defined.

(** A writer that ran during a sleep and put what fits of [chunk]. *)
Definition writer_ran (chunk : list Z) : pipe_wakeup := λ p,
  (false, match bq_fill p chunk 0 with Ok (p', _) => p' | _ => p end).

Lemma pipe_read_go_stream chunks p n got size ev :
  pipe_wf p →
  let stream := pipe_view p ++ concat (take (pipe_cap p) <$> chunks) in
  (n ≤ length stream)%nat →
  ∃ p1 ev1, pipe_read_go (writer_ran <$> chunks) p n got size ev =
    PRet (size, got ++ take n stream) p1 ev1 ∧ pipe_wf p1.
Proof.
  revert p n got ev. induction chunks as [|c chunks IH]; intros p n got ev Hwf stream Hn;
    destruct (pipe_read_go_spec (writer_ran <$> nil) p n got size ev Hwf) as (p1 & Hw1 & Hs & Hv & H0).
  - subst stream. cbn in *. rewrite app_nil_r in *. rewrite H0.
    rewrite (proj2 (Nat.leb_le _ _)) by lia. do 2 eexists. split; [done|].
    by apply pipe_notified_wf.
  - clear p1 Hw1 Hs Hv H0.
    destruct (pipe_read_go_spec (writer_ran <$> c :: chunks) p n got size ev Hwf)
      as (p1 & Hw1 & Hs & Hv & ->).
    destruct (Nat.leb_spec n (length (pipe_view p))) as [Hle|Hgt].
    + do 2 eexists. split; [|by apply pipe_notified_wf]. subst stream.
      by rewrite take_app_le by done.
    + rewrite drop_ge in Hv by lia. cbn [fmap list_fmap]. unfold writer_ran at 1. cbn [fst].
      destruct (@bq_fill_ok _ pipe_queue p1 c 0 Hw1) as (p2 & Hf & Hw2 & Hc2 & Hv2).
      unfold writer_ran at 2. rewrite Hf. cbn [snd].
      change (bq_view p1) with (pipe_view p1) in *. change (bq_view p2) with (pipe_view p2) in *.
      change (bq_cap p1) with (pipe_cap p1) in *. change (bq_cap p2) with (pipe_cap p2) in *.
      assert (Hcap : pipe_cap p1 = pipe_cap p) by (unfold pipe_cap; by rewrite Hs).
      rewrite Hv in Hv2. cbn [length app] in Hv2. rewrite Nat.sub_0_r, Hcap in Hv2.
      rewrite Hcap in Hc2. subst stream. cbn [fmap list_fmap concat] in *.
      assert (Hv2' : pipe_view p2 = take (pipe_cap p) c).
      { rewrite Hv2. destruct (Nat.min_spec (length c) (pipe_cap p)) as [[? ->]|[? ->]]; [|done].
        rewrite !take_ge by lia. done. }
      specialize (IH p2 (n - length (pipe_view p))%nat (got ++ pipe_view p) (ev ++ [PSleep]) Hw2).
      rewrite Hc2, Hv2' in IH. rewrite !length_app in Hn. destruct IH as (p3 & ev3 & -> & Hw3).
      { rewrite length_app. lia. }
      exists p3, ev3. split; [|done]. rewrite <- app_assoc. do 3 f_equal.
      by rewrite (take_app_ge (pipe_view p)) by lia.
Qed.

(** C28: a blocking [read] delivers exactly the next [size] bytes of the stream: those
    buffered, then what the writers that ran during its sleeps put in, each at most a
    pipe full. *)
Theorem pipe_read_stream chunks p size :
  pipe_wf p → 0 ≤ size →
  let stream := pipe_view p ++ concat (take (pipe_cap p) <$> chunks) in
  (Z.to_nat size ≤ length stream)%nat →
  ∃ p1 ev, pipe_read 0 (writer_ran <$> chunks) (Some p) size =
    inr (PRet (size, take (Z.to_nat size) stream) p1 ev) ∧ pipe_wf p1.
Proof.
  intros Hwf Hs stream Hn. unfold pipe_read. change (truthy (Z.land 0 O_NOBLOCK)) with false.
  cbn [andb].
  destruct (pipe_read_go_stream chunks p (Z.to_nat size) [] size [] Hwf Hn) as (p1 & ev & -> & ?).
  by exists p1, ev.
Qed.

Lemma pipe_read_stream_witness :
  ∃ p1 ev, pipe_read 0 (writer_ran <$> [[7]; [8;9]; [1;2;3;4]]) (Some (pipe_create 4)) 5 =
    inr (PRet (5, [7;8;9;1;2]) p1 ev) ∧ pipe_wf p1.
Proof.
  apply (pipe_read_stream [[7]; [8;9]; [1;2;3;4]] (pipe_create 4) 5); [|lia|vm_compute; lia].
  repeat split; cbn; lia.
Defined.

(** A blocked reader is not woken by a writer that offers more than the pipe holds:
    the writer fills the pipe and goes to sleep on the same queue without any wake-up,
    so both sleep although a full pipe of data is there to be read. *)
Theorem pipe_large_write_deadlock p data size :
  pipe_wf p → pipe_view p = [] → 0 < size → (pipe_cap p < length data)%nat →
  (∃ p0, pipe_read 0 [] (Some p) size = inr (PAsleep p0 [PSleep]) ∧ pipe_view p0 = []) ∧
  ∃ p1, pipe_write 0 [] (Some p) data = inr (PAsleep p1 [PSleep]) ∧
    pipe_view p1 = take (pipe_cap p) data.
Proof.
  intros Hwf Hv Hs Hl. split.
  - destruct (pipe_read_go_spec [] p (Z.to_nat size) [] size [] Hwf) as (p0 & ? & ? & Hv0 & Hr).
    exists p0. rewrite Hv, drop_nil in Hv0. split; [|done]. unfold pipe_read.
    change (truthy (Z.land 0 O_NOBLOCK)) with false. cbn [andb]. rewrite Hr, Hv.
    rewrite (proj2 (Nat.leb_gt _ _)); [done|]. cbn. lia.
  - destruct (pipe_write_go_spec false [] p data 0 [] Hwf) as (p1 & ? & ? & Hv1 & Hw).
    rewrite Hv in Hv1, Hw. cbn [length] in Hv1, Hw.
    rewrite Nat.sub_0_r, Nat.min_r in Hv1, Hw by lia. exists p1.
    split; [|done]. unfold pipe_write. change (truthy (Z.land 0 O_NOBLOCK)) with false.
    rewrite Hw. by rewrite (proj2 (Nat.eqb_neq _ _)) by lia.
Qed.

Lemma pipe_large_write_deadlock_witness :
  (∃ p0, pipe_read 0 [] (Some (pipe_create 4)) 1 = inr (PAsleep p0 [PSleep]) ∧ pipe_view p0 = []) ∧
  ∃ p1, pipe_write 0 [] (Some (pipe_create 4)) [1;2;3;4] = inr (PAsleep p1 [PSleep]) ∧
    pipe_view p1 = [1;2;3].
Proof.
  apply (pipe_large_write_deadlock (pipe_create 4) [1;2;3;4] 1); [|done|lia|vm_compute; lia].
  repeat split; cbn; lia.
Defined.

(** The readiness test agrees with the calls: [check] reports a pipe readable exactly
    when a one-byte non-blocking read succeeds, and writable exactly when a one-byte
    non-blocking write is accepted; no device is never ready. *)
Theorem pipe_check_sound p b :
  pipe_wf p →
  pipe_check (Some p) VFS_EVENT_READ = bool_decide (pipe_view p ≠ []) ∧
  pipe_check (Some p) VFS_EVENT_WRITE = bool_decide (length (pipe_view p) < pipe_cap p)%nat ∧
  (pipe_check (Some p) VFS_EVENT_READ = true ↔
     ∃ bs p1 ev, pipe_read O_NOBLOCK [] (Some p) 1 = inr (PRet (1, bs) p1 ev)) ∧
  (pipe_check (Some p) VFS_EVENT_WRITE = true ↔
     ∃ p1 ev, pipe_write O_NOBLOCK [] (Some p) [b] = inr (PRet 1 p1 ev)) ∧
  pipe_check None VFS_EVENT_READ = false ∧ pipe_check None VFS_EVENT_WRITE = false.
Proof.
  intros Hwf. pose proof Hwf as [Hr Hq].
  pose proof (rb_used_range _ Hr) as Hu. pose proof (length_rb_view _ Hr) as Hl.
  change (rb_view (pipe_ring p)) with (pipe_view p) in Hl. cbn in Hu.
  assert (HR : pipe_check (Some p) VFS_EVENT_READ = bool_decide (pipe_view p ≠ [])).
  { cbn. change (pipe_read_available p) with (ringbuffer_read_available (pipe_ring p)).
    rewrite read_available_used, <- Hl by done. destruct (pipe_view p); [done|].
    rewrite bool_decide_eq_true_2 by done. apply Z.ltb_lt. cbn [length]. lia. }
  assert (HW : pipe_check (Some p) VFS_EVENT_WRITE =
    bool_decide (length (pipe_view p) < pipe_cap p)%nat).
  { cbn. change (pipe_write_available p) with (ringbuffer_write_available (pipe_ring p)).
    rewrite write_available_free, <- Hl by done. unfold pipe_cap. cbn.
    apply eq_bool_prop_intro. rewrite bool_decide_spec. rewrite Is_true_true, Z.ltb_lt. lia. }
  split; [done|]. split; [done|]. rewrite HR, HW, !bool_decide_eq_true. split_and!; try done.
  - split.
    + intros Hne. destruct (pipe_read_go_spec [] p 1 [] 1 [] Hwf) as (p1 & ? & ? & ? & Hg).
      unfold pipe_read. change (truthy _) with true. cbn [andb].
      change (pipe_read_available p) with (ringbuffer_read_available (pipe_ring p)).
      rewrite read_available_used, <- Hl by done.
      assert (1 ≤ length (pipe_view p))%nat by (destruct (pipe_view p); [done|cbn; lia]).
      rewrite (proj2 (Z.ltb_ge _ _)) by lia. change (Z.to_nat 1) with 1%nat. rewrite Hg.
      rewrite (proj2 (Nat.leb_le _ _)) by lia. by do 3 eexists.
    + intros (bs & p1 & ev & Hg) He. revert Hg. unfold pipe_read. change (truthy _) with true.
      cbn [andb]. change (pipe_read_available p) with (ringbuffer_read_available (pipe_ring p)).
      rewrite read_available_used, <- Hl, He by done. done.
  - destruct (pipe_write_go_spec true [] p [b] 0 [] Hwf) as (p1 & ? & ? & ? & Hg).
    unfold pipe_write. change (truthy _) with true. rewrite Hg. cbn [orb length]. split.
    + intros Hlt. rewrite Nat.min_l by lia. by do 2 eexists.
    + intros (? & ? & Heq). assert (0 + Z.of_nat (min 1 (pipe_cap p - length (pipe_view p))) = 1) by congruence. lia.
Qed.

Lemma pipe_check_sound_witness :
  pipe_check (Some (pipe_create 4)) VFS_EVENT_READ = false ∧
  pipe_check (Some (pipe_create 4)) VFS_EVENT_WRITE = true.
Proof.
  destruct (pipe_check_sound (pipe_create 4) 7) as (H1 & H2 & _); [repeat split; cbn; lia|].
  split; [exact H1|exact H2].
Defined.
