(* ===== verification/Pmm.v ===== *)
(** * kernel/src/mem/pmm.c: the physical frame allocator

    The bitmap has one bit per 4 KiB frame, set when the frame is free; [bitmap] of the
    model is the part below [bitmap_size], so an access at or above [bitmap_size] is a
    [Fault].  [first_free_index] is a search hint.  The spinlock is held for the whole of
    each operation, so operations are atomic transitions of this state. *)

From S2P Require Import Prelude.

Record pmm := mk_pmm {
  bitmap : list Z;
  first_free_index : Z;
  pmm_allocated : Z;
  pmm_freed : Z;
  pmm_total : Z
}.

Definition bitmap_size (s : pmm) : Z := Z.of_nat (length (bitmap s)).

(** The static initialisers. *)
Definition pmm_start : pmm := mk_pmm [] 0xFFFFFFFF 0 0 0.

Definition BITMAP_INDEX (frame : Z) : Z := frame / 0x1000 / 32.
Definition BITMAP_BIT_NUMBER (frame : Z) : Z := (frame / 0x1000) mod 32.
Definition BITMAP_BIT_MASK (frame : Z) : Z := Z.shiftl 1 (BITMAP_BIT_NUMBER frame).
Definition FRAME (idx bit : Z) : Z := u64 (0x1000 * u32 (idx * 32 + bit)).

Definition set_bitmap (s : pmm) (b : list Z) : pmm :=
  mk_pmm b (first_free_index s) (pmm_allocated s) (pmm_freed s) (pmm_total s).
Definition set_first_free (s : pmm) (i : Z) : pmm :=
  mk_pmm (bitmap s) i (pmm_allocated s) (pmm_freed s) (pmm_total s).

(** [bitmap[BITMAP_INDEX(frame)] &= ~BITMAP_BIT_MASK(frame)] *)
Definition k_mem_pmm_set_allocated (s : pmm) (frame : Z) : res pmm :=
  w ← of_option (bitmap s !! Z.to_nat (BITMAP_INDEX frame));
  Ok (set_bitmap s (<[Z.to_nat (BITMAP_INDEX frame) :=
        Z.land w (Z.lnot (BITMAP_BIT_MASK frame))]> (bitmap s))).

Definition k_mem_pmm_is_allocated (s : pmm) (frame : Z) : bool :=
  let index := u32 (BITMAP_INDEX frame) in
  if bitmap_size s <=? index then false
  else negb (truthy (Z.land (default 0 (bitmap s !! Z.to_nat index)) (BITMAP_BIT_MASK frame))).

(** The inner loop of the search: the bits [js] of [word], the [i]-th of the bitmap.
    Returns whether a run was found, its length so far and its first frame. *)
Fixpoint scan_bits (word i : Z) (js : list Z) (frames found_frames frame : Z)
    : bool * Z * Z :=
  match js with
  | [] => (false, found_frames, frame)
  | j :: js' =>
      let free := truthy (Z.land word (Z.shiftl 1 j)) in
      let frame' := if free && (found_frames =? 0) then u32 (FRAME i j) else frame in
      let found_frames' := if free then u32 (found_frames + 1) else 0 in
      if frames <=? found_frames' then (true, found_frames', frame')
      else scan_bits word i js' frames found_frames' frame'
  end.

(** The outer loop, over the words from index [i] on. *)
Fixpoint scan_words (words : list Z) (i frames found_frames frame : Z) : option Z :=
  match words with
  | [] => None
  | word :: words' =>
      match scan_bits word i (seqZ 0 32) frames found_frames frame with
      | (true, _, frame') => Some frame'
      | (false, found_frames', frame') => scan_words words' (i + 1) frames found_frames' frame'
      end
  end.

(** [for (i = 0; i < frames; i++) bitmap[..frame + i * 0x1000..] &= ~..] *)
Fixpoint take_frames (s : pmm) (frame i : Z) (n : nat) : res pmm :=
  match n with
  | O => Ok s
  | S n' =>
      s' ← k_mem_pmm_set_allocated s (u32 (frame + i * 0x1000));
      take_frames s' frame (i + 1) n'
  end.

(** [while (first_free_index < bitmap_size && !bitmap[first_free_index]) first_free_index++] *)
Fixpoint skip_full (words : list Z) (i : Z) : Z :=
  match words with
  | [] => i
  | w :: words' => if truthy w then i else skip_full words' (i + 1)
  end.

Definition advance_first_free (s : pmm) : pmm :=
  let i1 := skip_full (drop (Z.to_nat (first_free_index s)) (bitmap s)) (first_free_index s) in
  let i2 := if bitmap_size s <=? i1 then 0 else i1 in
  set_first_free s (skip_full (drop (Z.to_nat i2) (bitmap s)) i2).

Definition k_mem_pmm_alloc_frames (s : pmm) (frames : Z) : res (Z * pmm) :=
  if frames =? 0 then Panic
  else if bitmap_size s <=? first_free_index s then Panic
  else
    match scan_words (drop (Z.to_nat (first_free_index s)) (bitmap s))
            (first_free_index s) frames 0 0 with
    | None => Panic
    | Some frame =>
        s1 ← take_frames s frame 0 (Z.to_nat frames);
        let s2 := advance_first_free s1 in
        Ok (frame, mk_pmm (bitmap s2) (first_free_index s2)
                     (u32 (pmm_allocated s2 + frames)) (pmm_freed s2) (pmm_total s2))
    end.

(** [while (index >= bitmap_size) { bitmap[bitmap_size] = 0; bitmap_size++; }] *)
Definition extend_bitmap (s : pmm) (index : Z) : pmm :=
  set_bitmap s (bitmap s ++ replicate (Z.to_nat (index + 1 - bitmap_size s)) 0).

(** One pass of the loop of [k_mem_pmm_free]; [None] is the [break]. *)
Definition free_step (s : pmm) (f : Z) : res (bool * pmm) :=
  let index := u32 (BITMAP_INDEX f) in
  let s1 := extend_bitmap s index in
  if negb (k_mem_pmm_is_allocated s1 f) then Ok (false, s1)
  else
    w ← of_option (bitmap s1 !! Z.to_nat index);
    let b := <[Z.to_nat index := Z.lor w (BITMAP_BIT_MASK f)]> (bitmap s1) in
    Ok (true, mk_pmm b
      (if index <? first_free_index s1 then index else first_free_index s1)
      (pmm_allocated s1) (u32 (pmm_freed s1 + 1)) (pmm_total s1)).

Fixpoint free_loop (fuel : nat) (s : pmm) (f limit : Z) : res pmm :=
  match fuel with
  | O => OutOfFuel
  | S fuel' =>
      if f <? limit then
        '(go, s') ← free_step s f;
        if (go : bool) then free_loop fuel' s' (u64 (f + 0x1000)) limit else Ok s'
      else Ok s
  end.

(** A misaligned frame is refused with a warning. *)
Definition k_mem_pmm_free (s : pmm) (frame size : Z) : res pmm :=
  if truthy (frame mod 0x1000) then Ok s
  else free_loop (S (Z.to_nat size)) s frame (u64 (frame + 0x1000 * size)).

Definition k_mem_pmm_mark_frame (s : pmm) (frame : Z) : res pmm := k_mem_pmm_free s frame 1.

Definition k_mem_pmm_bitmap_size (s : pmm) : Z := bitmap_size s.
Definition k_mem_pmm_bitmap_end (bitmap_addr : Z) (s : pmm) : Z :=
  u32 (bitmap_addr + k_mem_pmm_bitmap_size s * 4).

(** ** Start-up: the memory map of the boot loader *)

Definition VIRTUAL_BASE : Z := 0xC0000000.
Definition MULTIBOOT_MEMORY_AVAILABLE : Z := 1.
Definition MULTIBOOT_MEMORY_ACPI_RECLAIMABLE : Z := 3.

Record multiboot_memory_map := mk_mmap { mm_addr : Z; mm_len : Z; mm_type : Z }.

(** The loop over one usable region: [i] is 32 bits wide, [len] 64. *)
Fixpoint mark_region (fuel : nat) (bitmap_addr : Z) (s : pmm) (addr len i : Z) : res pmm :=
  match fuel with
  | O => OutOfFuel
  | S fuel' =>
      if i <? len then
        let frame := u64 (addr + i) in
        s' ← (if u32 (bitmap_addr - VIRTUAL_BASE) <=? frame
              then k_mem_pmm_mark_frame s frame else Ok s);
        mark_region fuel' bitmap_addr s' addr len (u32 (i + 0x1000))
      else Ok s
  end.

(** The regions of the map; the last ACPI table address is kept for acpi.c. *)
Fixpoint mark_regions (fuel : nat) (bitmap_addr : Z) (s : pmm) (acpi : option Z)
    (map : list multiboot_memory_map) : res (pmm * option Z) :=
  match map with
  | [] => Ok (s, acpi)
  | m :: map' =>
      if mm_type m =? MULTIBOOT_MEMORY_AVAILABLE then
        s' ← mark_region fuel bitmap_addr s (mm_addr m) (mm_len m) 0;
        mark_regions fuel bitmap_addr s' acpi map'
      else if mm_type m =? MULTIBOOT_MEMORY_ACPI_RECLAIMABLE then
        mark_regions fuel bitmap_addr s (Some (u32 (mm_addr m + VIRTUAL_BASE))) map'
      else mark_regions fuel bitmap_addr s acpi map'
  end.

(** Reserves the frames of the bitmap itself, one step per word, the end included. *)
Fixpoint reserve_bitmap (n : nat) (i : Z) (s : pmm) : res pmm :=
  match n with
  | O => Ok s
  | S n' =>
      s' ← k_mem_pmm_set_allocated s (u32 (i - VIRTUAL_BASE));
      reserve_bitmap n' (i + 4) s'
  end.

Definition k_mem_pmm_init (fuel : nat) (bitmap_addr : Z) (map : list multiboot_memory_map)
    : res (pmm * option Z) :=
  '(s1, acpi) ← mark_regions fuel bitmap_addr pmm_start None map;
  s2 ← reserve_bitmap (S (length (bitmap s1))) bitmap_addr s1;
  Ok (mk_pmm (bitmap s2) (first_free_index s2) 0 0 (pmm_freed s2), acpi).

(** ** The abstract view: which frames are free *)

(** [k] numbers frames: the frame at physical address [0x1000 * k]. *)
Definition frame_free (s : pmm) (k : Z) : bool :=
  (0 <=? k) && Z.testbit (default 0 (bitmap s !! Z.to_nat (k / 32))) (k mod 32).

(** Words are 32-bit, the bitmap describes at most 4 GiB, and no frame below the hint
    is free. *)
Record pmm_wf (s : pmm) : Prop := {
  wf_words : Forall (λ w, 0 ≤ w < 2 ^ 32) (bitmap s);
  wf_size : bitmap_size s ≤ 32768;
  wf_first : 0 ≤ first_free_index s < 2 ^ 32;
  wf_hint : ∀ k, k < 32 * first_free_index s → frame_free s k = false
}.

(** [n] consecutive free frames from [k] on. *)
Definition free_run (s : pmm) (k n : Z) : Prop :=
  ∀ x, k ≤ x < k + n → frame_free s x = true.

(** Linear arithmetic with division by constants. *)
#[local] Ltac Zify.zify_post_hook ::= Z.div_mod_to_equations.

Section bitmap_facts.
Implicit Types (s : pmm) (k x : Z).

Lemma frame_index k : 0 ≤ k → BITMAP_INDEX (0x1000 * k) = k / 32.
Proof. intros. unfold BITMAP_INDEX. by rewrite Z.mul_comm, Z.div_mul by lia. Qed.

Lemma frame_bit k : 0 ≤ k → BITMAP_BIT_NUMBER (0x1000 * k) = k mod 32.
Proof. intros. unfold BITMAP_BIT_NUMBER. by rewrite Z.mul_comm, Z.div_mul by lia. Qed.

Lemma frame_free_spec s k :
  0 ≤ k → frame_free s k = Z.testbit (default 0 (bitmap s !! Z.to_nat (k / 32))) (k mod 32).
Proof. intros. unfold frame_free. by rewrite (proj2 (Z.leb_le _ _)) by lia. Qed.

Lemma frame_free_neg s k : k < 0 → frame_free s k = false.
Proof. intros. unfold frame_free. by rewrite (proj2 (Z.leb_gt _ _)) by lia. Qed.

Lemma frame_free_bounds s k : frame_free s k = true → 0 ≤ k < 32 * bitmap_size s.
Proof.
  unfold frame_free, bitmap_size. intros H. apply andb_true_iff in H as [H1 H2].
  apply Z.leb_le in H1. split; [done|]. destruct (bitmap s !! _) eqn:Hl; cbn in H2.
  - apply lookup_lt_Some in Hl. lia.
  - by rewrite Z.bits_0 in H2.
Qed.

(** Two frames share word and bit only if they are the same frame. *)
Lemma frame_pos_inj k x :
  0 ≤ k → 0 ≤ x → Z.to_nat (k / 32) = Z.to_nat (x / 32) → k mod 32 = x mod 32 → k = x.
Proof. intros. lia. Qed.

(** Updating the word of frame [k] by a function that only changes bit [k mod 32]. *)
Lemma frame_free_insert s k w v s' :
  0 ≤ k → bitmap s !! Z.to_nat (k / 32) = Some w →
  bitmap s' = <[Z.to_nat (k / 32) := v]> (bitmap s) →
  (∀ j, 0 ≤ j → j ≠ k mod 32 → Z.testbit v j = Z.testbit w j) →
  ∀ x, frame_free s' x = if k =? x then Z.testbit v (k mod 32) else frame_free s x.
Proof.
  intros Hk Hw Hb Hv x. destruct (Z.lt_ge_cases x 0).
  { rewrite !frame_free_neg by done. by rewrite (proj2 (Z.eqb_neq _ _)) by lia. }
  rewrite !frame_free_spec, Hb by done. apply lookup_lt_Some in Hw as Hlt.
  destruct (Z.eqb_spec k x) as [<-|Hne].
  - by rewrite list_lookup_insert_eq by done.
  - destruct (Nat.eq_dec (Z.to_nat (k / 32)) (Z.to_nat (x / 32))) as [Heq|Hneq].
    + rewrite <- Heq, list_lookup_insert_eq, Hw by done. cbn. apply Hv; [lia|].
      intros Hm. apply Hne. by apply frame_pos_inj.
    + by rewrite list_lookup_insert_ne by done.
Qed.

Lemma set_allocated_ok s k :
  0 ≤ k < 32 * bitmap_size s → Forall (λ w, 0 ≤ w < 2 ^ 32) (bitmap s) →
  ∃ s', k_mem_pmm_set_allocated s (0x1000 * k) = Ok s' ∧
    s' = set_bitmap s (bitmap s') ∧ length (bitmap s') = length (bitmap s) ∧
    Forall (λ w, 0 ≤ w < 2 ^ 32) (bitmap s') ∧
    ∀ x, frame_free s' x = (negb (k =? x) && frame_free s x).
Proof.
  unfold bitmap_size. intros Hk Hw. unfold k_mem_pmm_set_allocated, BITMAP_BIT_MASK.
  rewrite frame_index, frame_bit by lia.
  destruct (lookup_lt_is_Some_1' (bitmap s) (Z.to_nat (k / 32))) as [w Hl]; [lia|].
  rewrite Hl. cbn [of_option]. rewrite bind_ok. eexists. split; [done|].
  assert (Hr : 0 ≤ w < 2 ^ 32) by (by apply (proj1 (Forall_lookup _ _) Hw _ _ Hl)).
  cbn [bitmap set_bitmap]. split; [done|]. rewrite length_insert. split; [done|].
  assert (Hbits : ∀ j, 0 ≤ j → Z.testbit (Z.land w (Z.lnot (Z.shiftl 1 (k mod 32)))) j =
    (negb (k mod 32 =? j) && Z.testbit w j)) by (intros; apply testbit_clear_bit; lia).
  split.
  - apply Forall_insert; [done|]. split; [apply Z.land_nonneg; lia|].
    apply bits_range; [lia|apply Z.land_nonneg; lia|]. intros i Hi.
    rewrite Hbits, (testbit_high w 32) by lia. apply andb_false_r.
  - intros x. set (v := Z.land w _) in *.
    rewrite (frame_free_insert s k w v (set_bitmap s (<[Z.to_nat (k / 32) := v]> (bitmap s))));
      [|lia|done|done|].
    + destruct (Z.eqb_spec k x); [|done]. rewrite Hbits, Z.eqb_refl by lia. done.
    + intros j Hj Hne. rewrite Hbits by done. by rewrite (proj2 (Z.eqb_neq _ _)) by lia.
Qed.

Lemma is_allocated_spec s k :
  0 ≤ k < 2 ^ 32 →
  k_mem_pmm_is_allocated s (0x1000 * k) = bool_decide (k < 32 * bitmap_size s) && negb (frame_free s k).
Proof.
  intros Hk. unfold k_mem_pmm_is_allocated, BITMAP_BIT_MASK.
  rewrite frame_index, frame_bit, u32_small, truthy_land_bit, frame_free_spec by lia.
  case_if.
  - by rewrite bool_decide_eq_false_2 by lia.
  - by rewrite bool_decide_eq_true_2 by lia.
Qed.
End bitmap_facts.

(** ** The search *)

Section scan.
Context (free : Z → bool) (lo frames : Z).

(** What the loops know on reaching frame [k]: [ff] is the length of the run of free
    frames that ends just before [k], and no earlier run was long enough. *)
Record scan_inv (k ff frame : Z) : Prop := {
  si_ff : 0 ≤ ff < frames;
  si_lo : lo ≤ k - ff;
  si_frame : ff ≠ 0 → frame = 0x1000 * (k - ff);
  si_free : ∀ x, k - ff ≤ x < k → free x = true;
  si_max : lo < k - ff → free (k - ff - 1) = false;
  si_none : ∀ a, lo ≤ a → a + frames ≤ k → ∃ x, a ≤ x < a + frames ∧ free x = false
}.

(** The first run of [frames] free frames at or after [lo]. *)
Definition first_run (k : Z) : Prop :=
  lo ≤ k ∧ (∀ x, k ≤ x < k + frames → free x = true) ∧
  ∀ a, lo ≤ a < k → ∃ x, a ≤ x < a + frames ∧ free x = false.

Lemma scan_inv_start frame : 0 < frames → scan_inv lo 0 frame.
Proof. intros. split; intros; try lia. Qed.

(** One more frame, not free. *)
Lemma scan_inv_used k ff frame frame' :
  scan_inv k ff frame → free k = false → scan_inv (k + 1) 0 frame'.
Proof.
  intros [H1 H2 H3 H4 H5 H6] Hk. split; intros; try lia.
  - by replace (k + 1 - 0 - 1) with k by lia.
  - destruct (Z.le_gt_cases (a + frames) k); [by apply H6|]. exists k. split; [lia|done].
Qed.

(** One more free frame, the run still too short. *)
Lemma scan_inv_more k ff frame :
  scan_inv k ff frame → free k = true → ff + 1 < frames →
  scan_inv (k + 1) (ff + 1) (if ff =? 0 then 0x1000 * k else frame).
Proof.
  intros [H1 H2 H3 H4 H5 H6] Hk Hlt.
  split; replace (k + 1 - (ff + 1)) with (k - ff) by lia; try done; try lia.
  - intros _. case_if; [lia|by apply H3].
  - intros x Hx. destruct (Z.eq_dec x k) as [->|]; [done|apply H4; lia].
  - intros a Ha Hak. destruct (Z.le_gt_cases (a + frames) k); [by apply H6|].
    exists (k - ff - 1). split; [lia|]. apply H5. lia.
Qed.

(** One more free frame completes the run. *)
Lemma scan_inv_found k ff frame :
  scan_inv k ff frame → free k = true → frames ≤ ff + 1 →
  first_run (k + 1 - frames) ∧
  (if ff =? 0 then 0x1000 * k else frame) = 0x1000 * (k + 1 - frames).
Proof.
  intros [H1 H2 H3 H4 H5 H6] Hk Hle. split.
  - split; [lia|]. split.
    + intros x Hx. destruct (Z.eq_dec x k) as [->|]; [done|apply H4; lia].
    + intros a Ha. destruct (Z.le_gt_cases (a + frames) k); [apply H6; lia|]. lia.
  - case_if; [lia|]. rewrite H3 by lia. lia.
Qed.
End scan.

Section search.
Context (s : pmm) (lo frames : Z) (Hfr : 0 < frames < 2 ^ 32).

Lemma scan_bits_ok w i n ff frame :
  0 ≤ i < 32768 → bitmap s !! Z.to_nat i = Some w → (n ≤ 32)%nat →
  scan_inv (frame_free s) lo frames (32 * i + (32 - Z.of_nat n)) ff frame →
  match scan_bits w i (seqZ (32 - Z.of_nat n) (Z.of_nat n)) frames ff frame with
  | (true, _, frame') => ∃ k, frame' = 0x1000 * k ∧ first_run (frame_free s) lo frames k
  | (false, ff', frame') => scan_inv (frame_free s) lo frames (32 * (i + 1)) ff' frame'
  end.
Proof.
  intros Hi Hw. revert ff frame. induction n as [|n IH]; intros ff frame Hn Hinv.
  { cbn. replace (32 * (i + 1)) with (32 * i + (32 - Z.of_nat 0)) by lia. done. }
  rewrite seqZ_cons by lia. set (j := 32 - Z.of_nat (S n)) in *.
  replace (Z.succ j) with (32 - Z.of_nat n) by lia.
  replace (Z.pred (Z.of_nat (S n))) with (Z.of_nat n) by lia.
  assert (Hbit : truthy (Z.land w (Z.shiftl 1 j)) = frame_free s (32 * i + j)).
  { rewrite truthy_land_bit, frame_free_spec by lia.
    replace ((32 * i + j) / 32) with i by lia. replace ((32 * i + j) mod 32) with j by lia.
    by rewrite Hw. }
  cbn [scan_bits]. rewrite Hbit.
  replace (u32 (FRAME i j)) with (0x1000 * (32 * i + j)).
  2:{ unfold FRAME, u64. rewrite (u32_small (i * 32 + j)) by lia.
      rewrite Z.mod_small by lia. rewrite u32_small by lia. lia. }
  specialize (si_ff _ _ _ _ _ _ Hinv) as Hff. specialize (IH).
  destruct (frame_free s (32 * i + j)) eqn:Hf; cbn [andb].
  - rewrite (u32_small (ff + 1)) by lia. case_if.
    + destruct (scan_inv_found _ _ _ _ _ _ Hinv Hf E) as [Hrun Heq].
      eexists. split; [exact Heq|exact Hrun].
    + apply IH; [lia|]. replace (32 - Z.of_nat n) with (j + 1) by lia.
      rewrite Z.add_assoc. by apply scan_inv_more.
  - rewrite (proj2 (Z.leb_gt _ _)) by lia. apply IH; [lia|].
    replace (32 - Z.of_nat n) with (j + 1) by lia. rewrite Z.add_assoc.
    by apply (scan_inv_used _ _ _ _ ff frame).
Qed.

Lemma scan_words_ok words i ff frame :
  0 ≤ i → bitmap_size s ≤ 32768 → words = drop (Z.to_nat i) (bitmap s) → i ≤ bitmap_size s →
  scan_inv (frame_free s) lo frames (32 * i) ff frame →
  match scan_words words i frames ff frame with
  | Some frame' => ∃ k, frame' = 0x1000 * k ∧ first_run (frame_free s) lo frames k
  | None => ∀ a, lo ≤ a → ¬ free_run s a frames
  end.
Proof.
  revert i ff frame. unfold bitmap_size.
  induction words as [|w words IH]; intros i ff frame Hi Hsz Hw Hle Hinv; cbn [scan_words].
  - intros a Ha Hrun. apply (f_equal length) in Hw. rewrite length_drop in Hw. cbn in Hw.
    assert (i = Z.of_nat (length (bitmap s))) by lia.
    destruct (Z.le_gt_cases (a + frames) (32 * i)) as [Hin|Hout].
    + destruct (si_none _ _ _ _ _ _ Hinv a Ha Hin) as (x & Hx & Hfx).
      rewrite Hrun in Hfx by done. done.
    + assert (Ht : frame_free s (a + frames - 1) = true) by (apply Hrun; lia).
      apply frame_free_bounds in Ht. unfold bitmap_size in Ht. lia.
  - assert (Hl : bitmap s !! Z.to_nat i = Some w).
    { replace (Z.to_nat i) with (Z.to_nat i + 0)%nat by lia. by rewrite <- lookup_drop, <- Hw. }
    apply lookup_lt_Some in Hl as Hlt.
    pose proof (scan_bits_ok w i 32 ff frame) as Hb. change (32 - Z.of_nat 32) with 0 in Hb.
    rewrite Z.add_0_r in Hb. specialize (Hb ltac:(lia) Hl ltac:(lia) Hinv).
    change (Z.of_nat 32) with 32 in Hb.
    destruct (scan_bits w i (seqZ 0 32) frames ff frame) as [[[] ff'] frame']; [done|].
    apply IH; try done; try lia. rewrite (drop_lookup_cons _ _ _ Hl) in Hw.
    injection Hw as ->. f_equal. lia.
Qed.
End search.

(** ** Allocation *)

(** [x] is one of the [n] frames from [k] on. *)
Definition in_run (k n x : Z) : bool := (k <=? x) && (x <? k + n).

Lemma in_run_true k n x : in_run k n x = true ↔ k ≤ x < k + n.
Proof. unfold in_run. rewrite andb_true_iff, Z.leb_le, Z.ltb_lt. done. Qed.

Lemma in_run_false k n x : in_run k n x = false ↔ ¬ (k ≤ x < k + n).
Proof. rewrite <- in_run_true. destruct (in_run k n x); naive_solver. Qed.

Lemma take_frames_ok n s k i :
  0 ≤ k → 0 ≤ i → k + i + Z.of_nat n ≤ 32 * bitmap_size s → bitmap_size s ≤ 32768 →
  Forall (λ w, 0 ≤ w < 2 ^ 32) (bitmap s) →
  ∃ s', take_frames s (0x1000 * k) i n = Ok s' ∧ s' = set_bitmap s (bitmap s') ∧
    length (bitmap s') = length (bitmap s) ∧ Forall (λ w, 0 ≤ w < 2 ^ 32) (bitmap s') ∧
    ∀ x, frame_free s' x = (negb (in_run (k + i) (Z.of_nat n) x) && frame_free s x).
Proof.
  revert s i. induction n as [|n IH]; intros s i Hk Hi Hb Hsz Hw; cbn [take_frames].
  - exists s. split; [done|]. split; [by destruct s|]. split; [done|]. split; [done|].
    intros x. by rewrite (proj2 (in_run_false _ _ _)) by lia.
  - replace (u32 (0x1000 * k + i * 0x1000)) with (0x1000 * (k + i)) by (rewrite u32_small; lia).
    destruct (set_allocated_ok s (k + i)) as (s1 & -> & Hs1 & Hl1 & Hw1 & Hf1); [lia|done|].
    rewrite bind_ok. destruct (IH s1 (i + 1)) as (s2 & -> & Hs2 & Hl2 & Hw2 & Hf2);
      unfold bitmap_size in *; try lia; [done|].
    exists s2. split; [done|]. split; [by rewrite Hs2, Hs1|]. split; [lia|]. split; [done|].
    intros x. rewrite Hf2, Hf1, andb_assoc. f_equal.
    destruct (in_run (k + i) (Z.of_nat (S n)) x) eqn:E1; cbn [negb].
    + apply in_run_true in E1. destruct (Z.eqb_spec (k + i) x); [apply andb_false_r|].
      by rewrite (proj2 (in_run_true _ _ _)) by lia.
    + apply in_run_false in E1. rewrite (proj2 (in_run_false _ _ _)) by lia.
      rewrite (proj2 (Z.eqb_neq _ _)) by lia. done.
Qed.

Lemma skip_full_ok s words i :
  0 ≤ i ≤ bitmap_size s → words = drop (Z.to_nat i) (bitmap s) →
  let i' := skip_full words i in
  i ≤ i' ≤ bitmap_size s ∧ ∀ x, 32 * i ≤ x < 32 * i' → frame_free s x = false.
Proof.
  revert i. unfold bitmap_size. induction words as [|w words IH]; intros i Hi Hw; cbn.
  { split; [lia|]. intros. lia. }
  assert (Hl : bitmap s !! Z.to_nat i = Some w).
  { replace (Z.to_nat i) with (Z.to_nat i + 0)%nat by lia. by rewrite <- lookup_drop, <- Hw. }
  apply lookup_lt_Some in Hl as Hlt. destruct (truthy w) eqn:Ht; [split; [lia|intros; lia]|].
  rewrite truthy_false in Ht. subst w. destruct (IH (i + 1)) as [H1 H2]; [lia| |].
  { rewrite (drop_lookup_cons _ _ _ Hl) in Hw. injection Hw as ->. f_equal. lia. }
  split; [lia|]. intros x Hx. destruct (Z.lt_ge_cases x (32 * (i + 1))); [|apply H2; lia].
  rewrite frame_free_spec by lia. replace (x / 32) with i by lia. rewrite Hl. apply Z.bits_0.
Qed.

Lemma advance_first_free_ok s :
  0 ≤ first_free_index s < bitmap_size s →
  (∀ k, k < 32 * first_free_index s → frame_free s k = false) →
  let s' := advance_first_free s in
  s' = set_first_free s (first_free_index s') ∧ 0 ≤ first_free_index s' ≤ bitmap_size s ∧
  ∀ k, k < 32 * first_free_index s' → frame_free s k = false.
Proof.
  intros Hi Hh. unfold advance_first_free.
  destruct (skip_full_ok s _ (first_free_index s) ltac:(lia) eq_refl) as [H1 H2].
  set (i1 := skip_full _ (first_free_index s)) in *. set (i2 := if _ <=? i1 then 0 else i1).
  assert (Hi2 : 0 ≤ i2 ≤ bitmap_size s ∧ ∀ k, k < 32 * i2 → frame_free s k = false).
  { subst i2. case_if.
    - split; [lia|]. intros. by apply frame_free_neg.
    - split; [lia|]. intros k Hk.
      destruct (Z.lt_ge_cases k (32 * first_free_index s)); [by apply Hh|apply H2; lia]. }
  destruct Hi2 as [Hb Hh2]. destruct (skip_full_ok s _ i2 Hb eq_refl) as [H3 H4].
  cbn zeta. cbn [first_free_index set_first_free]. split; [done|]. split; [lia|].
  intros k Hk. destruct (Z.lt_ge_cases k (32 * i2)); [by apply Hh2|apply H4; lia].
Qed.

Lemma pmm_alloc_spec s frames :
  pmm_wf s → 0 ≤ frames < 2 ^ 32 →
  match k_mem_pmm_alloc_frames s frames with
  | Ok (frame, s') =>
      ∃ k, frame = 0x1000 * k ∧ 0 < frames ∧ free_run s k frames ∧
        (∀ a, a < k → ¬ free_run s a frames) ∧
        pmm_wf s' ∧ bitmap_size s' = bitmap_size s ∧
        pmm_allocated s' = u32 (pmm_allocated s + frames) ∧
        ∀ x, frame_free s' x = (negb (in_run k frames x) && frame_free s x)
  | Panic => frames = 0 ∨ ∀ a, ¬ free_run s a frames
  | _ => False
  end.
Proof.
  intros [Hw Hsz Hf Hh] Hfr. unfold k_mem_pmm_alloc_frames.
  case_if; [by left|]. assert (0 < frames < 2 ^ 32) as Hfr' by lia.
  assert (Hlow : ∀ a, a < 32 * first_free_index s → ¬ free_run s a frames).
  { intros a Ha Hrun. specialize (Hrun a ltac:(lia)). rewrite Hh in Hrun by done. done. }
  case_if.
  { right. intros a Hrun. specialize (Hrun a ltac:(lia)) as Ha.
    pose proof (frame_free_bounds _ _ Ha). rewrite Hh in Ha; [done|lia]. }
  pose proof (scan_words_ok s (32 * first_free_index s) frames Hfr' _ (first_free_index s) 0 0
    ltac:(lia) Hsz eq_refl ltac:(lia)) as Hscan.
  specialize (Hscan (scan_inv_start (frame_free s) _ frames 0 (proj1 Hfr'))).
  destruct (scan_words _ _ frames 0 0) as [frame|].
  2:{ right. intros a. destruct (Z.lt_ge_cases a (32 * first_free_index s)); [by apply Hlow|].
      by apply Hscan. }
  destruct Hscan as (k & -> & Hk & Hrun & Hleast).
  pose proof (frame_free_bounds _ _ (Hrun (k + frames - 1) ltac:(lia))).
  destruct (take_frames_ok (Z.to_nat frames) s k 0) as (s1 & -> & Hs1 & Hl1 & Hw1 & Hf1);
    try done; try lia. rewrite bind_ok, Z.add_0_r, Z2Nat.id in * by lia.
  assert (Hffi : first_free_index s1 = first_free_index s) by (by rewrite Hs1).
  assert (Hlen : bitmap_size s1 = bitmap_size s) by (unfold bitmap_size; lia).
  destruct (advance_first_free_ok s1) as (Hs2 & Hb2 & Hh2); [lia| |].
  { intros x Hx. rewrite Hf1, Hh by lia. apply andb_false_r. }
  set (s2 := advance_first_free s1) in *. clearbody s2.
  assert (Hbm : bitmap s2 = bitmap s1) by (by rewrite Hs2).
  assert (Hff : ∀ x s3, bitmap s3 = bitmap s2 → frame_free s3 x = frame_free s1 x)
    by (intros x s3 H3; unfold frame_free; by rewrite H3, Hbm).
  exists k. split; [done|]. split; [lia|]. split; [done|]. split.
  { intros a Ha. destruct (Z.lt_ge_cases a (32 * first_free_index s)); [by apply Hlow|].
    intros Hr. destruct (Hleast a ltac:(lia)) as (x & Hx & Hfx). by rewrite Hr in Hfx. }
  assert (Hlen2 : length (bitmap s2) = length (bitmap s)) by (rewrite Hbm; lia).
  unfold bitmap_size in *. split; [split; unfold bitmap_size; cbn; [by rewrite Hbm|lia|lia|]|].
  - intros x Hx. rewrite Hff by done. by apply Hh2.
  - cbn. split; [lia|]. split.
    + rewrite Hs2. cbn. by rewrite Hs1.
    + intros x. rewrite Hff by done. apply Hf1.
Qed.

(** C2: [k_mem_pmm_alloc_frames] is a first-fit allocator.  When some run of [frames]
    consecutive free frames exists it returns the lowest one, marks exactly those frames
    used and keeps the allocator well formed; when none exists, and only then, it
    panics; zero frames always panic. *)
Theorem pmm_alloc_first_fit s frames :
  pmm_wf s → 0 ≤ frames < 2 ^ 32 →
  match k_mem_pmm_alloc_frames s frames with
  | Ok (frame, s') =>
      ∃ k, frame = 0x1000 * k ∧ 0 < frames ∧ free_run s k frames ∧
        (∀ a, a < k → ¬ free_run s a frames) ∧
        pmm_wf s' ∧ bitmap_size s' = bitmap_size s ∧
        pmm_allocated s' = u32 (pmm_allocated s + frames) ∧
        ∀ x, frame_free s' x = (negb (in_run k frames x) && frame_free s x)
  | Panic => frames = 0 ∨ ∀ a, ¬ free_run s a frames
  | _ => False
  end.
Proof. apply pmm_alloc_spec. Qed.

Lemma pmm_alloc_first_fit_witness :
  match k_mem_pmm_alloc_frames (mk_pmm [0; 0xF0; 0xFF] 1 0 0 0) 5 with
  | Ok (frame, s') =>
      ∃ k, frame = 0x1000 * k ∧ 0 < 5 ∧ free_run (mk_pmm [0; 0xF0; 0xFF] 1 0 0 0) k 5 ∧
        (∀ a, a < k → ¬ free_run (mk_pmm [0; 0xF0; 0xFF] 1 0 0 0) a 5) ∧
        pmm_wf s' ∧ bitmap_size s' = 3 ∧ pmm_allocated s' = u32 (0 + 5) ∧
        ∀ x, frame_free s' x =
          (negb (in_run k 5 x) && frame_free (mk_pmm [0; 0xF0; 0xFF] 1 0 0 0) x)
  | Panic => 5 = 0 ∨ ∀ a, ¬ free_run (mk_pmm [0; 0xF0; 0xFF] 1 0 0 0) a 5
  | _ => False
  end.
Proof.
  apply (pmm_alloc_first_fit (mk_pmm [0; 0xF0; 0xFF] 1 0 0 0) 5); [|lia]. split; cbn.
  - repeat constructor; lia.
  - unfold bitmap_size. cbn. lia.
  - lia.
  - intros k Hk. destruct (Z.lt_ge_cases k 0); [by apply frame_free_neg|].
    rewrite frame_free_spec by done. replace (k / 32) with 0 by lia. apply Z.bits_0.
Defined.

(** ** Freeing *)

Lemma extend_bitmap_ok s index :
  pmm_wf s → 0 ≤ index < 32768 →
  let s1 := extend_bitmap s index in
  pmm_wf s1 ∧ index < bitmap_size s1 ∧ first_free_index s1 = first_free_index s ∧
  (∀ x, frame_free s1 x = frame_free s x).
Proof.
  intros [Hw Hsz Hf Hh] Hi s1.
  assert (Hff : ∀ x, frame_free s1 x = frame_free s x).
  { intros x. unfold frame_free. f_equal. f_equal. cbn. rewrite lookup_app.
    destruct (bitmap s !! Z.to_nat (x / 32)) eqn:Hx; [done|]. cbn.
    destruct (replicate _ 0 !! _) eqn:Hr; [|done]. by apply lookup_replicate in Hr as [-> _]. }
  unfold bitmap_size in *. split; [split|split].
  - cbn. apply Forall_app. split; [done|]. apply Forall_replicate. lia.
  - unfold bitmap_size. cbn. rewrite length_app, length_replicate. unfold bitmap_size. lia.
  - done.
  - intros x Hx. rewrite Hff. by apply Hh.
  - cbn. rewrite length_app, length_replicate. unfold bitmap_size. lia.
  - done.
Qed.

Lemma free_step_ok s k :
  pmm_wf s → 0 ≤ k < 2 ^ 20 →
  ∃ s', free_step s (0x1000 * k) = Ok (negb (frame_free s k), s') ∧ pmm_wf s' ∧
    ∀ x, frame_free s' x = ((k =? x) || frame_free s x).
Proof.
  intros Hwf Hk. unfold free_step, BITMAP_BIT_MASK. rewrite frame_index, frame_bit by lia.
  rewrite u32_small by lia.
  destruct (extend_bitmap_ok s (k / 32) Hwf ltac:(lia)) as (Hwf1 & Hin & Hffi & Hff).
  set (s1 := extend_bitmap s (k / 32)) in *. clearbody s1.
  rewrite is_allocated_spec, bool_decide_eq_true_2, Hff by lia. cbn [andb].
  destruct (frame_free s k) eqn:Hfk; cbn [negb].
  { exists s1. split; [done|]. split; [done|]. intros x. rewrite Hff.
    destruct (Z.eqb_spec k x) as [->|]; [by rewrite Hfk|done]. }
  unfold bitmap_size in Hin.
  destruct (lookup_lt_is_Some_1' (bitmap s1) (Z.to_nat (k / 32))) as [w Hl]; [lia|].
  rewrite Hl. cbn [of_option]. rewrite bind_ok. eexists. split; [done|].
  destruct Hwf1 as [Hw1 Hsz1 Hf1 Hh1].
  assert (Hr : 0 ≤ w < 2 ^ 32) by (by apply (proj1 (Forall_lookup _ _) Hw1 _ _ Hl)).
  set (v := Z.lor w _). set (s2 := mk_pmm _ _ _ _ _).
  assert (Hbits : ∀ j, 0 ≤ j → Z.testbit v j = ((k mod 32 =? j) || Z.testbit w j))
    by (intros; apply testbit_lor_bit; lia).
  assert (Hff2 : ∀ x, frame_free s2 x = ((k =? x) || frame_free s x)).
  { intros x. rewrite (frame_free_insert s1 k w v s2 ltac:(lia) Hl eq_refl), Hff.
    - destruct (Z.eqb_spec k x); [|done]. by rewrite Hbits, Z.eqb_refl by lia.
    - intros j Hj Hne. rewrite Hbits by done. by rewrite (proj2 (Z.eqb_neq _ _)) by lia. }
  assert (0 ≤ v) by (apply Z.lor_nonneg; rewrite Z.shiftl_1_l; split; [lia|apply Z.pow_nonneg; lia]).
  split; [|done]. split; cbn.
  - apply Forall_insert; [done|]. split; [done|]. apply bits_range; [lia|done|].
    intros i Hi. rewrite Hbits, (testbit_high w 32) by lia.
    by rewrite (proj2 (Z.eqb_neq _ _)) by lia.
  - unfold bitmap_size. cbn. by rewrite length_insert.
  - case_if; lia.
  - intros x Hx. rewrite Hff2. rewrite Hffi in *.
    assert (x < k) by (revert Hx; case_if; lia).
    rewrite (proj2 (Z.eqb_neq _ _)) by lia. rewrite <- Hff. apply Hh1.
    revert Hx. case_if; lia.
Qed.

(** How many of the [n] frames from [k] on are used before the first free one. *)
Fixpoint used_prefix (s : pmm) (k : Z) (n : nat) : Z :=
  match n with
  | O => 0
  | S n' => if frame_free s k then 0 else 1 + used_prefix s (k + 1) n'
  end.

Lemma used_prefix_range s k n : 0 ≤ used_prefix s k n ≤ Z.of_nat n.
Proof. revert k. induction n as [|n IH]; intros k; cbn; [lia|]. case_if; [|specialize (IH (k + 1))]; lia. Qed.

Lemma used_prefix_ext s s' k n :
  (∀ x, k ≤ x → frame_free s' x = frame_free s x) → used_prefix s' k n = used_prefix s k n.
Proof.
  revert k. induction n as [|n IH]; intros k H; cbn; [done|]. rewrite H by lia.
  destruct (frame_free s k); [done|]. rewrite IH; [done|]. intros. apply H. lia.
Qed.

Lemma used_prefix_all s k n :
  (∀ x, k ≤ x < k + Z.of_nat n → frame_free s x = false) → used_prefix s k n = Z.of_nat n.
Proof.
  revert k. induction n as [|n IH]; intros k H; cbn [used_prefix]; [done|].
  rewrite H, IH by first [lia|intros; apply H; lia]. lia.
Qed.

Lemma free_loop_ok n s k fuel :
  pmm_wf s → 0 ≤ k → k + Z.of_nat n ≤ 2 ^ 20 → (n < fuel)%nat →
  ∃ s', free_loop fuel s (0x1000 * k) (0x1000 * (k + Z.of_nat n)) = Ok s' ∧ pmm_wf s' ∧
    ∀ x, frame_free s' x = (in_run k (used_prefix s k n) x || frame_free s x).
Proof.
  revert s k fuel. induction n as [|n IH]; intros s k fuel Hwf Hk Hb Hfuel;
    (destruct fuel as [|fuel]; [lia|]); cbn [free_loop].
  - rewrite (proj2 (Z.ltb_ge _ _)) by lia. exists s. split; [done|]. split; [done|].
    intros x. cbn. by rewrite (proj2 (in_run_false _ _ _)) by lia.
  - rewrite (proj2 (Z.ltb_lt _ _)) by lia.
    destruct (free_step_ok s k Hwf ltac:(lia)) as (s1 & -> & Hwf1 & Hff1). rewrite bind_ok.
    cbn [used_prefix]. destruct (frame_free s k) eqn:Hfk; cbn [negb].
    + exists s1. split; [done|]. split; [done|]. intros x. rewrite Hff1.
      rewrite (proj2 (in_run_false _ _ _)) by lia. destruct (Z.eqb_spec k x) as [<-|]; [|done].
      by rewrite Hfk.
    + rewrite u64_small by lia. replace (0x1000 * k + 0x1000) with (0x1000 * (k + 1)) by lia.
      replace (k + Z.of_nat (S n)) with (k + 1 + Z.of_nat n) by lia.
      destruct (IH s1 (k + 1) fuel) as (s2 & -> & Hwf2 & Hff2); try done; try lia.
      exists s2. split; [done|]. split; [done|]. intros x. rewrite Hff2, Hff1, orb_assoc.
      rewrite (used_prefix_ext s s1).
      2:{ intros y Hy. rewrite Hff1. by rewrite (proj2 (Z.eqb_neq _ _)) by lia. }
      f_equal. pose proof (used_prefix_range s (k + 1) n).
      apply eq_true_iff_eq. rewrite orb_true_iff, !in_run_true, Z.eqb_eq. lia.
Qed.

Lemma pmm_free_spec s k n :
  pmm_wf s → 0 ≤ k → 0 ≤ n → k + n ≤ 2 ^ 20 →
  ∃ s', k_mem_pmm_free s (0x1000 * k) n = Ok s' ∧ pmm_wf s' ∧
    ∀ x, frame_free s' x = (in_run k (used_prefix s k (Z.to_nat n)) x || frame_free s x).
Proof.
  intros Hwf Hk Hn Hb. unfold k_mem_pmm_free.
  rewrite (proj2 (truthy_false _)) by lia. rewrite u64_small by lia.
  replace (0x1000 * k + 0x1000 * n) with (0x1000 * (k + Z.of_nat (Z.to_nat n))) by lia.
  apply free_loop_ok; try done; lia.
Qed.

(** [k_mem_pmm_free] on an aligned frame below 4 GiB returns to the pool exactly the
    frames up to the first one that is already free, growing the bitmap where needed,
    and touches no other frame; a misaligned frame changes nothing. *)
Theorem pmm_free_exact s k n :
  pmm_wf s → 0 ≤ k → 0 ≤ n → k + n ≤ 2 ^ 20 →
  (∃ s', k_mem_pmm_free s (0x1000 * k) n = Ok s' ∧ pmm_wf s' ∧
    ∀ x, frame_free s' x = (in_run k (used_prefix s k (Z.to_nat n)) x || frame_free s x)) ∧
  ∀ off, 0 < off < 0x1000 → k_mem_pmm_free s (0x1000 * k + off) n = Ok s.
Proof.
  intros Hwf Hk Hn Hb. split; [by apply pmm_free_spec|].
  intros off Hoff. unfold k_mem_pmm_free. by rewrite (proj2 (truthy_true _)) by lia.
Qed.

Lemma pmm_start_wf : pmm_wf pmm_start.
Proof.
  split; cbn; [constructor|done|lia|]. intros k _. unfold frame_free. cbn.
  rewrite Z.bits_0. apply andb_false_r.
Qed.

Lemma pmm_free_exact_witness :
  (∃ s', k_mem_pmm_free pmm_start (0x1000 * 40) 30 = Ok s' ∧ pmm_wf s' ∧
    ∀ x, frame_free s' x = (in_run 40 30 x || frame_free pmm_start x)) ∧
  ∀ off, 0 < off < 0x1000 → k_mem_pmm_free pmm_start (0x1000 * 40 + off) 30 = Ok pmm_start.
Proof. apply (pmm_free_exact pmm_start 40 30); [apply pmm_start_wf|lia..]. Defined.

(** Allocating and freeing again is the identity on the set of free frames: nothing
    leaks and nothing is freed twice. *)
Theorem pmm_alloc_free_roundtrip s frames frame s' :
  pmm_wf s → 0 ≤ frames < 2 ^ 32 → k_mem_pmm_alloc_frames s frames = Ok (frame, s') →
  ∃ s'', k_mem_pmm_free s' frame frames = Ok s'' ∧ pmm_wf s'' ∧
    ∀ x, frame_free s'' x = frame_free s x.
Proof.
  intros Hwf Hfr Ha. pose proof (pmm_alloc_spec s frames Hwf Hfr) as H. rewrite Ha in H.
  destruct H as (k & -> & Hpos & Hrun & _ & Hwf' & Hsz & _ & Hff).
  pose proof (frame_free_bounds _ _ (Hrun k ltac:(lia))).
  pose proof (frame_free_bounds _ _ (Hrun (k + frames - 1) ltac:(lia))).
  destruct Hwf as [_ Hmax _ _].
  destruct (pmm_free_spec s' k frames) as (s2 & Hf & Hwf2 & Hff2); try done; try lia.
  exists s2. split; [done|]. split; [done|]. intros x. rewrite Hff2, Hff.
  rewrite used_prefix_all, Z2Nat.id by
    (try lia; intros y Hy; rewrite Hff, (proj2 (in_run_true _ _ _)) by lia; done).
  destruct (in_run k frames x) eqn:Ex; [|done]. apply in_run_true in Ex.
  symmetry. by apply Hrun.
Qed.

Lemma pmm_alloc_free_roundtrip_witness :
  ∃ s'', k_mem_pmm_free (mk_pmm [0xC8] 0 2 0 0) 0x1000 2 = Ok s'' ∧ pmm_wf s'' ∧
    ∀ x, frame_free s'' x = frame_free (mk_pmm [0xCE] 0 0 0 0) x.
Proof.
  apply (pmm_alloc_free_roundtrip (mk_pmm [0xCE] 0 0 0 0) 2 0x1000 (mk_pmm [0xC8] 0 2 0 0));
    [|lia|reflexivity].
  split; cbn; [by repeat constructor|unfold bitmap_size; cbn; lia|lia|].
  intros k Hk. apply frame_free_neg. lia.
Defined.

(** ** Start-up *)

(** Pages needed to cover [len] bytes. *)
Definition page_count (len : Z) : Z := (len + 0xFFF) / 0x1000.

Lemma mark_region_ok n fuel bitmap_addr s a len m floor :
  u32 (bitmap_addr - VIRTUAL_BASE) = 0x1000 * floor →
  pmm_wf s → 0 ≤ a → 0 ≤ m → 0 ≤ len ≤ 0xFFFFF000 → a + page_count len ≤ 2 ^ 20 →
  page_count len - m = Z.of_nat n → (n < fuel)%nat →
  ∃ s', mark_region fuel bitmap_addr s (0x1000 * a) len (0x1000 * m) = Ok s' ∧ pmm_wf s' ∧
    ∀ x, frame_free s' x =
      ((floor <=? x) && in_run (a + m) (Z.of_nat n) x || frame_free s x).
Proof.
  intros Hfl. unfold page_count. revert fuel s m.
  induction n as [|n IH]; intros fuel s m Hwf Ha Hm Hlen Hb Hn Hfuel;
    (destruct fuel as [|fuel]; [lia|]); cbn [mark_region].
  - rewrite (proj2 (Z.ltb_ge _ _)) by lia. exists s. split; [done|]. split; [done|].
    intros x. rewrite (proj2 (in_run_false _ _ _)) by lia. by rewrite andb_false_r.
  - rewrite (proj2 (Z.ltb_lt _ _)) by lia. rewrite u64_small, Hfl by lia.
    replace (0x1000 * a + 0x1000 * m) with (0x1000 * (a + m)) by lia.
    assert (Hstep : ∃ s1, (if 0x1000 * floor <=? 0x1000 * (a + m)
        then k_mem_pmm_mark_frame s (0x1000 * (a + m)) else Ok s) = Ok s1 ∧ pmm_wf s1 ∧
      ∀ x, frame_free s1 x = ((floor <=? x) && in_run (a + m) 1 x || frame_free s x)).
    { case_if.
      - destruct (pmm_free_spec s (a + m) 1) as (s1 & Hf & Hwf1 & Hff); try done; try lia.
        exists s1. split; [done|]. split; [done|]. intros x. rewrite Hff.
        change (Z.to_nat 1) with 1%nat. cbn [used_prefix].
        apply eq_true_iff_eq. rewrite !orb_true_iff, andb_true_iff, !in_run_true, Z.leb_le.
        destruct (frame_free s (a + m)) eqn:E1;
          [|split; (intros [?|?]; [left; lia|by right])].
        split; [intros [?|?]; [lia|by right]|]. intros [?|?]; [|by right]. right. by replace x with (a + m) by lia.
      - exists s. split; [done|]. split; [done|]. intros x.
        apply eq_true_iff_eq. rewrite orb_true_iff, andb_true_iff, in_run_true, Z.leb_le.
        split; [by right|]. intros [?|?]; [lia|done]. }
    destruct Hstep as (s1 & -> & Hwf1 & Hff1). rewrite bind_ok.
    rewrite u32_small by lia. replace (0x1000 * m + 0x1000) with (0x1000 * (m + 1)) by lia.
    destruct (IH fuel s1 (m + 1)) as (s2 & -> & Hwf2 & Hff2); try done; try lia.
    exists s2. split; [done|]. split; [done|]. intros x. rewrite Hff2, Hff1.
    apply eq_true_iff_eq.
    rewrite !orb_true_iff, !andb_true_iff, !in_run_true, Z.leb_le.
    destruct (frame_free s x); [tauto|]. assert (false ≠ true) by done. intuition lia.
Qed.

(** The page is in a usable region of the boot loader's map. *)
Definition usable (map : list multiboot_memory_map) (x : Z) : bool :=
  existsb (λ m, (mm_type m =? MULTIBOOT_MEMORY_AVAILABLE) &&
    in_run (mm_addr m / 0x1000) (page_count (mm_len m)) x) map.

(** Page-aligned regions that end below 4 GiB and are shorter than that. *)
Definition region_ok (m : multiboot_memory_map) : Prop :=
  0 ≤ mm_addr m ∧ mm_addr m mod 0x1000 = 0 ∧ 0 ≤ mm_len m ≤ 0xFFFFF000 ∧
  mm_addr m / 0x1000 + page_count (mm_len m) ≤ 2 ^ 20.

Lemma mark_regions_ok fuel bitmap_addr map s acpi floor :
  u32 (bitmap_addr - VIRTUAL_BASE) = 0x1000 * floor →
  pmm_wf s → Forall region_ok map → (2 ^ 20 < Z.of_nat fuel) →
  ∃ s' acpi', mark_regions fuel bitmap_addr s acpi map = Ok (s', acpi') ∧ pmm_wf s' ∧
    ∀ x, frame_free s' x = ((floor <=? x) && usable map x || frame_free s x).
Proof.
  intros Hfl. revert s acpi. induction map as [|m map IH]; intros s acpi Hwf Hok Hfuel;
    cbn [mark_regions].
  { do 2 eexists. split; [done|]. split; [done|]. intros x. cbn. by rewrite andb_false_r. }
  apply list.Forall_cons in Hok as [(Ha & Hal & Hlen & Hb) Hok]. case_if.
  - assert (Hp : mm_addr m = 0x1000 * (mm_addr m / 0x1000)) by lia.
    unfold page_count in Hb.
    destruct (mark_region_ok (Z.to_nat (page_count (mm_len m))) fuel bitmap_addr s
      (mm_addr m / 0x1000) (mm_len m) 0 floor) as (s1 & Hr & Hwf1 & Hff1);
      try done; unfold page_count in *; try lia.
    rewrite <- Hp, Z.mul_0_r in Hr. rewrite Hr, bind_ok.
    destruct (IH s1 acpi Hwf1 Hok Hfuel) as (s2 & acpi2 & -> & Hwf2 & Hff2).
    do 2 eexists. split; [done|]. split; [done|]. intros x. rewrite Hff2, Hff1.
    cbn [usable existsb]. fold (usable map x). rewrite E, Z.eqb_refl. cbn [andb].
    unfold page_count. rewrite Z.add_0_r, Z2Nat.id by lia.
    destruct (floor <=? x); cbn [andb]; [|done]. rewrite orb_assoc. f_equal. apply orb_comm.
  - assert (Hu : ∀ x, usable (m :: map) x = usable map x).
    { intros x. cbn [usable existsb]. by rewrite (proj2 (Z.eqb_neq _ _)). }
    case_if.
    all: lazymatch goal with |- context [mark_regions _ _ _ ?ac _] =>
      destruct (IH _ ac Hwf Hok Hfuel) as (s2 & acpi2 & -> & Hwf2 & Hff2) end.
    all: do 2 eexists; split; [done|]; split; [done|]; intros x; by rewrite Hu.
Qed.

Lemma set_allocated_page s f :
  0 ≤ f → k_mem_pmm_set_allocated s f = k_mem_pmm_set_allocated s (0x1000 * (f / 0x1000)).
Proof.
  intros Hf. unfold k_mem_pmm_set_allocated, BITMAP_BIT_MASK, BITMAP_BIT_NUMBER, BITMAP_INDEX.
  by replace (0x1000 * (f / 0x1000) / 0x1000) with (f / 0x1000) by lia.
Qed.

Lemma reserve_bitmap_ok n s bitmap_addr t floor :
  u32 (bitmap_addr - VIRTUAL_BASE) = 0x1000 * floor → 0 ≤ t →
  0x1000 * floor + 4 * (t + Z.of_nat n) < 2 ^ 32 →
  (floor + (t + Z.of_nat n - 1) / 1024 < 32 * bitmap_size s) → pmm_wf s →
  ∃ s', reserve_bitmap n (bitmap_addr + 4 * t) s = Ok s' ∧ pmm_wf s' ∧
    bitmap_size s' = bitmap_size s ∧ pmm_freed s' = pmm_freed s ∧
    ∀ x, frame_free s' x = (frame_free s x &&
      negb ((0 <? n)%nat && (floor + t / 1024 <=? x) && (x <=? floor + (t + Z.of_nat n - 1) / 1024))).
Proof.
  intros Hfl. revert s t. induction n as [|n IH]; intros s t Ht Hb Hin Hwf; cbn [reserve_bitmap].
  - exists s. split_and!; try done. intros x.
    by rewrite andb_true_r.
  - assert (0 ≤ floor) by (pose proof (u32_range (bitmap_addr - VIRTUAL_BASE)); lia).
    assert (Hf : u32 (bitmap_addr + 4 * t - VIRTUAL_BASE) = 0x1000 * floor + 4 * t).
    { replace (bitmap_addr + 4 * t - VIRTUAL_BASE) with (bitmap_addr - VIRTUAL_BASE + 4 * t) by lia.
      unfold u32 in *. rewrite <- Zplus_mod_idemp_l, Hfl. apply Z.mod_small. lia. }
    rewrite Hf, set_allocated_page by lia.
    replace ((0x1000 * floor + 4 * t) / 0x1000) with (floor + t / 1024) by lia.
    destruct Hwf as [Hw Hsz Hffi Hh].
    destruct (set_allocated_ok s (floor + t / 1024)) as (s1 & -> & Hs1 & Hl1 & Hw1 & Hff1);
      [lia|done|]. rewrite bind_ok.
    replace (bitmap_addr + 4 * t + 4) with (bitmap_addr + 4 * (t + 1)) by lia.
    assert (Hsz1 : bitmap_size s1 = bitmap_size s) by (unfold bitmap_size; lia).
    destruct (IH s1 (t + 1)) as (s2 & -> & Hwf2 & Hsz2 & Hfr2 & Hff2); try lia.
    { split; [done|lia|by rewrite Hs1|]. intros x Hx. rewrite Hff1, Hh by (by rewrite Hs1 in Hx).
      apply andb_false_r. }
    exists s2. split_and!; [done|done|lia|by rewrite Hfr2, Hs1|]. intros x. rewrite Hff2, Hff1.
    destruct (frame_free s x); [|by rewrite andb_false_r]. rewrite andb_true_r. cbn [andb].
    apply eq_true_iff_eq. rewrite andb_true_iff, !negb_true_iff, !andb_false_iff.
    rewrite !Z.leb_gt, !Nat.ltb_ge, Z.eqb_neq. lia.
Qed.

(** After start-up on a map of page-aligned regions below 4 GiB, the free frames are
    exactly the usable ones above the kernel that do not hold the bitmap itself; the
    counters start at zero.  [floor] is the frame of the bitmap, which follows the
    kernel; some usable page lies at least 32 pages above it, so the bitmap covers
    itself.  One pass of the loop per page of a region bounds the fuel. *)
Theorem pmm_init_free_set fuel bitmap_addr map floor hi :
  u32 (bitmap_addr - VIRTUAL_BASE) = 0x1000 * floor → floor < 0xE0000 →
  Forall region_ok map → usable map hi = true → floor + 32 ≤ hi →
  2 ^ 20 < Z.of_nat fuel →
  ∃ s acpi, k_mem_pmm_init fuel bitmap_addr map = Ok (s, acpi) ∧ pmm_wf s ∧
    pmm_allocated s = 0 ∧ pmm_freed s = 0 ∧ (∀ k, usable map k = true → floor ≤ k → k < 32 * bitmap_size s) ∧
    ∀ x, frame_free s x = ((floor <=? x) && usable map x &&
      negb ((floor <=? x) && (x <=? floor + bitmap_size s / 1024))).
Proof.
  intros Hfl Hlow Hok Hhi Hge Hfuel. unfold k_mem_pmm_init.
  destruct (mark_regions_ok fuel bitmap_addr map pmm_start None floor Hfl pmm_start_wf Hok Hfuel)
    as (s1 & acpi & -> & Hwf1 & Hff1). rewrite bind_ok.
  assert (Hff1' : ∀ x, frame_free s1 x = (floor <=? x) && usable map x).
  { intros x. rewrite Hff1. unfold frame_free. cbn. by rewrite Z.bits_0, andb_false_r, orb_false_r. }
  assert (Hcov : ∀ k, usable map k = true → floor ≤ k → k < 32 * bitmap_size s1).
  { intros k Hk Hle. apply (frame_free_bounds s1). rewrite Hff1', Hk.
    by rewrite (proj2 (Z.leb_le _ _)). }
  pose proof (Hcov hi Hhi ltac:(lia)). pose proof (wf_size _ Hwf1).
  destruct (reserve_bitmap_ok (S (length (bitmap s1))) s1 bitmap_addr 0 floor)
    as (s2 & Hr & Hwf2 & Hsz2 & _ & Hff2); try done; unfold bitmap_size in *; try lia.
  rewrite Z.mul_0_r, Z.add_0_r in Hr. rewrite Hr, bind_ok.
  do 2 eexists. split; [done|]. split; [by destruct Hwf2; split|]. split; [done|].
  split; [done|]. cbn. split; [intros k Hk Hle; rewrite Hsz2; by apply Hcov|].
  intros x. change (frame_free _ x) with (frame_free s2 x). rewrite Hff2, Hff1'. f_equal. f_equal.
  apply eq_true_iff_eq. rewrite !andb_true_iff, !Z.leb_le, Nat.ltb_lt. lia.
Qed.

Lemma pmm_init_free_set_witness :
  ∃ fuel s acpi, k_mem_pmm_init fuel 0xC0400000
      [mk_mmap 0 0x9F000 1; mk_mmap 0x100000 0x7EE0000 1; mk_mmap 0x7FE0000 0x20000 3] =
      Ok (s, acpi) ∧ pmm_wf s ∧ pmm_allocated s = 0 ∧ pmm_freed s = 0.
Proof.
  assert (∃ fuel, 2 ^ 20 < Z.of_nat fuel) as [fuel Hfuel].
  { exists (Z.to_nat (2 ^ 21)). rewrite Z2Nat.id; lia. }
  destruct (pmm_init_free_set fuel 0xC0400000
    [mk_mmap 0 0x9F000 1; mk_mmap 0x100000 0x7EE0000 1; mk_mmap 0x7FE0000 0x20000 3]
    0x400 0x500) as (s & acpi & ? & ? & ? & ? & _).
  - reflexivity.
  - lia.
  - repeat (apply list.Forall_cons; split; [repeat split; vm_compute; congruence|]). constructor.
  - reflexivity.
  - lia.
  - exact Hfuel.
  - by exists fuel, s, acpi.
Defined.

(** Start-up never finishes on a usable region longer than [0xFFFFF000] bytes: the
    32-bit loop counter wraps before it reaches the 64-bit length. *)
Theorem pmm_init_long_region_diverges fuel bitmap_addr s addr len s' :
  0xFFFFF000 < len → mark_region fuel bitmap_addr s addr len 0 ≠ Ok s'.
Proof.
  intros Hlen. assert (Hgo : ∀ fuel s i, i mod 0x1000 = 0 → 0 ≤ i < 2 ^ 32 →
    mark_region fuel bitmap_addr s addr len i ≠ Ok s').
  { clear fuel s. induction fuel as [|fuel IH]; intros s i Hi Hr; cbn [mark_region]; [done|].
    rewrite (proj2 (Z.ltb_lt _ _)) by lia. intros H. inv_ok. revert H. apply IH.
    - unfold u32. lia.
    - apply u32_range. }
  apply Hgo; lia.
Qed.

Lemma pmm_init_long_region_diverges_witness :
  mark_region 3 0xC0400000 pmm_start 0x100000000 0x100000000 0 ≠ Ok pmm_start.
Proof. apply (pmm_init_long_region_diverges 3 0xC0400000 pmm_start). lia. Defined.
