(* ===== verification/Alloc.v ===== *)
(** * libc/src/stdlib/alloc.c: the heap of the kernel

    The kernel build ([__LIBK]) of the allocator that the kernel's [k_malloc] family
    and libc share.  A block is a packed 9-byte header (size, flags, next) followed by
    its memory.  Header fields are kept in [hdrs], by the address of the header; the
    bytes of the blocks are [data].  A header read where none was ever written is a
    [Fault].  Pages added by [k_mem_paging_map_region] hold arbitrary bytes, the
    parameter [junk]. *)

From S2P Require Import Prelude CMem CString CStringFacts.

Record mem_block := mk_block { mb_size : Z; mb_flags : Z; mb_next : Z }.

Record heap_t := mk_heap {
  hdrs : gmap Z mem_block;
  data : mem;
  heap : Z;
  heap_size : Z;
  h_allocated : Z;
  h_freed : Z
}.

(** sizeof(mem_block_t): packed, 4 + 1 + 4 *)
Definition HDR : Z := 9.
Definition M_BLOCK_FREE : Z := 1.
Definition M_HEADER (p : Z) : Z := u32 (p - HDR).
Definition M_MEMORY (b : Z) : Z := u32 (b + HDR).
Definition HEAP_END : Z := 0xFFC00000 - 0x1000.
Definition HEAP_START : Z := 0xF7000000 + 0x1000.
Definition HEAP_INITIAL_SIZE : Z := 16 * 1024.

Definition set_hdrs (s : heap_t) (h : gmap Z mem_block) : heap_t :=
  mk_heap h (data s) (heap s) (heap_size s) (h_allocated s) (h_freed s).
Definition set_data (s : heap_t) (d : mem) : heap_t :=
  mk_heap (hdrs s) d (heap s) (heap_size s) (h_allocated s) (h_freed s).

Definition header (s : heap_t) (a : Z) : res mem_block := of_option (hdrs s !! a).
Definition put_header (s : heap_t) (a : Z) (b : mem_block) : heap_t :=
  set_hdrs s (<[a := b]> (hdrs s)).

Definition mem_heap_end (s : heap_t) : Z := u32 (heap s + heap_size s).

Definition mem_heap_is_valid_block (s : heap_t) (addr : Z) : res bool :=
  if (heap s <=? addr) && (addr <=? mem_heap_end s) then
    b ← header s addr;
    Ok (truthy (mb_size b) && (u32 (addr + HDR + mb_size b) <=? mem_heap_end s))
  else Ok false.

Definition mem_heap_init_block (s : heap_t) (block size : Z) : res heap_t :=
  if size =? 0 then Panic
  else Ok (put_header s block (mk_block size M_BLOCK_FREE 0)).

(** 0 when there was nothing to split or the split succeeded. *)
Definition mem_split_block (s : heap_t) (src size : Z) : res (Z * heap_t) :=
  v ← mem_heap_is_valid_block s src;
  if negb v then Ok (1, s) else
  b ← header s src;
  if mb_size b <? size then Ok (2, s)
  else if mb_size b <? u32 (size + HDR + 1) then Ok (0, s)
  else
    let diff := mb_size b - size in
    let splitted := u32 (M_MEMORY src + size) in
    s1 ← mem_heap_init_block s splitted (diff - HDR);
    n ← header s1 splitted;
    let s2 := put_header s1 splitted (mk_block (mb_size n) (mb_flags n) (mb_next b)) in
    Ok (0, put_header s2 src (mk_block size (mb_flags b) splitted)).

(** [__mem_merge]: one walk; a block that absorbed its neighbour is not tried again. *)
Fixpoint mem_merge (fuel : nat) (s : heap_t) (src : Z) : res heap_t :=
  match fuel with
  | O => OutOfFuel
  | S fuel' =>
      v ← mem_heap_is_valid_block s src;
      if negb v then Ok s else
      b ← header s src;
      let next := mb_next b in
      if truthy (Z.land (mb_flags b) M_BLOCK_FREE) then
        vn ← mem_heap_is_valid_block s next;
        if (vn : bool) then
          n ← header s next;
          if truthy (Z.land (mb_flags n) M_BLOCK_FREE) && (next =? u32 (M_MEMORY src + mb_size b))
          then
            let s' := put_header s src
              (mk_block (u32 (mb_size b + (HDR + mb_size n))) (mb_flags b) (mb_next n)) in
            mem_merge fuel' s' (mb_next n)
          else mem_merge fuel' s next
        else mem_merge fuel' s next
      else mem_merge fuel' s next
  end.

(** The walk of [malloc]: a block that fits, or the end of the chain, with the last
    valid block passed. *)
Fixpoint malloc_find (fuel : nat) (s : heap_t) (size block last : Z) : res (Z * Z) :=
  match fuel with
  | O => OutOfFuel
  | S fuel' =>
      v ← mem_heap_is_valid_block s block;
      if negb v then Ok (block, last) else
      b ← header s block;
      if negb (truthy (Z.land (mb_flags b) M_BLOCK_FREE)) ||
         ((mb_size b <? size) ||
          ((size <? mb_size b) && (mb_size b <? u32 (size + HDR + 1))))
      then malloc_find fuel' s size (mb_next b) block
      else Ok (block, last)
  end.

Section with_junk.
Context (junk : Z → Z).

(** The kernel's [__mem_grow_heap] for a non-zero number of pages: 0 when the heap would
    run past [HEAP_END]. *)
Definition mem_grow_heap (s : heap_t) (size : Z) : Z * heap_t :=
  let addr := u32 (heap s + heap_size s) in
  if HEAP_END <? u32 (addr + size * 0x1000) then (0, s)
  else (addr, set_data s (store_bytes (data s) addr
                (junk <$> seqZ addr (size * 0x1000)))).

(** The chain has no block that fits: a new one is appended after [last]. *)
Definition malloc_grow (s : heap_t) (size last : Z) : res (Z * heap_t) :=
  let grow := u32 (size + HDR + 1) / 0x1000 + 1 in
  let '(block, s0) := mem_grow_heap s grow in
  if block =? 0 then Panic else
  let s1 := mk_heap (hdrs s0) (data s0) (heap s0) (u32 (heap_size s0 + grow * 0x1000))
              (h_allocated s0) (h_freed s0) in
  s2 ← mem_heap_init_block s1 block (grow * 0x1000 - HDR);
  l ← header s2 last;
  Ok (block, put_header s2 last (mk_block (mb_size l) (mb_flags l) block)).

(** The chosen block is split if it is larger, and taken. *)
Definition malloc_place (s1 : heap_t) (block size : Z) : res (Z * heap_t) :=
  b ← header s1 block;
  s2 ← (if mb_size b =? size then Ok s1 else
          '(r, s') ← mem_split_block s1 block size;
          if truthy r then Panic else Ok s');
  b' ← header s2 block;
  let s3 := put_header s2 block
    (mk_block (mb_size b') (Z.land (mb_flags b') (Z.lnot M_BLOCK_FREE)) (mb_next b')) in
  Ok (M_MEMORY block,
      mk_heap (hdrs s3) (data s3) (heap s3) (heap_size s3)
        (u32 (h_allocated s3 + size)) (h_freed s3)).

Definition malloc (fuel : nat) (s : heap_t) (size : Z) : res (Z * heap_t) :=
  '(block0, last) ← malloc_find fuel s size (heap s) (heap s);
  v ← mem_heap_is_valid_block s block0;
  '(block, s1) ← (if (v : bool) then Ok (block0, s) else malloc_grow s size last);
  malloc_place s1 block size.

(** An invalid or already free pointer is reported and ignored. *)
Definition free (fuel : nat) (s : heap_t) (ptr : Z) : res heap_t :=
  let hdr := M_HEADER ptr in
  v ← mem_heap_is_valid_block s hdr;
  if negb v then Ok s else
  b ← header s hdr;
  if truthy (Z.land (mb_flags b) M_BLOCK_FREE) then Ok s else
  let s1 := put_header s hdr (mk_block (mb_size b) (Z.lor (mb_flags b) M_BLOCK_FREE) (mb_next b)) in
  mem_merge fuel
    (mk_heap (hdrs s1) (data s1) (heap s1) (heap_size s1) (h_allocated s1)
       (u32 (h_freed s1 + mb_size b))) (heap s1).

Definition calloc (fuel : nat) (s : heap_t) (num size : Z) : res (Z * heap_t) :=
  '(p, s1) ← malloc fuel s (u32 (num * size));
  d ← memset (data s1) p 0 (u32 (num * size));
  Ok (p, set_data s1 d).

Definition realloc (fuel : nat) (s : heap_t) (old size : Z) : res (Z * heap_t) :=
  let hdr := M_HEADER old in
  b ← header s hdr;
  if mb_size b =? size then Ok (old, s) else
  '(new_ptr, s1) ← malloc fuel s size;
  b1 ← header s1 hdr;
  let copy_size := if mb_size b1 <? size then mb_size b1 else size in
  d ← memmove (data s1) new_ptr old copy_size;
  s2 ← free fuel (set_data s1 d) old;
  Ok (new_ptr, s2).

(** The address of the underlying block is kept in the word before the aligned one. *)
Definition valloc (fuel : nat) (s : heap_t) (size alignment : Z) : res (Z * heap_t) :=
  let offset := alignment - 1 + 4 in
  '(p1, s1) ← malloc fuel s (u32 (size + offset));
  let p2 := Z.land (u32 (p1 + offset)) (Z.lnot (alignment - 1)) in
  d ← store32 (data s1) (p2 - 4) p1;
  Ok (p2, set_data s1 d).

Definition vfree (fuel : nat) (s : heap_t) (mem : Z) : res heap_t :=
  p ← load32 (data s) (mem - 4);
  free fuel s p.
End with_junk.

(** [k_mem_heap_init]: the first block covers the initial heap. *)
Definition k_mem_heap_init (junk : Z → Z) : res heap_t :=
  mem_heap_init_block
    (mk_heap ∅ (store_bytes ∅ HEAP_START (junk <$> seqZ HEAP_START HEAP_INITIAL_SIZE))
       HEAP_START HEAP_INITIAL_SIZE 0 0)
    HEAP_START (HEAP_INITIAL_SIZE - HDR).

(** ** The layout of the heap *)

(** A block of the layout: its size and whether it is free. *)
Abbreviation blk := (Z * bool)%type.

(** The blocks [bs] tile the addresses from [a] to [e]; the last one links to [nxt]. *)
Fixpoint seg (hs : gmap Z mem_block) (a : Z) (bs : list blk) (e nxt : Z) : Prop :=
  match bs with
  | [] => a = e
  | (sz, free) :: bs' =>
      0 < sz ∧
      hs !! a = Some (mk_block sz (b2z free)
                  (match bs' with [] => nxt | _ => a + HDR + sz end)) ∧
      seg hs (a + HDR + sz) bs' e nxt
  end.

(** Bytes taken by blocks, headers included. *)
Fixpoint span (bs : list blk) : Z :=
  match bs with
  | [] => 0
  | (sz, _) :: bs' => HDR + sz + span bs'
  end.

Record heap_wf (s : heap_t) (bs : list blk) : Prop := {
  hw_ne : bs ≠ [];
  hw_lo : 0 < heap s;
  hw_size : 0 ≤ heap_size s;
  hw_hi : heap s + heap_size s ≤ HEAP_END;
  hw_seg : seg (hdrs s) (heap s) bs (heap s + heap_size s) 0;
  hw_data : mapped (data s) (heap s) (heap_size s)
}.

Section layout.
Implicit Types (hs : gmap Z mem_block) (a e n : Z) (bs : list blk).

Lemma span_app bs1 bs2 : span (bs1 ++ bs2) = span bs1 + span bs2.
Proof. induction bs1 as [|[sz f] bs1 IH]; cbn [span app]; [done|]. rewrite IH. lia. Qed.

Lemma seg_end hs a bs e n : seg hs a bs e n → e = a + span bs.
Proof.
  revert a. induction bs as [|[sz f] bs IH]; intros a H; cbn in *; [lia|].
  destruct H as (_ & _ & H%IH). lia.
Qed.

Lemma seg_span_nonneg hs a bs e n : seg hs a bs e n → 0 ≤ span bs.
Proof.
  revert a. induction bs as [|[sz f] bs IH]; intros a H; cbn in *; [lia|].
  destruct H as (? & _ & H%IH). unfold HDR. lia.
Qed.

(** Only the headers between [a] and [e] matter. *)
Lemma seg_ext hs hs' a bs e n :
  seg hs a bs e n → (∀ x, a ≤ x < e → hs' !! x = hs !! x) → seg hs' a bs e n.
Proof.
  revert a. induction bs as [|[sz f] bs IH]; intros a H Hx; cbn in *; [done|].
  destruct H as (Hsz & Hh & H). pose proof (seg_span_nonneg _ _ _ _ _ H).
  pose proof (seg_end _ _ _ _ _ H). unfold HDR in *.
  split; [done|]. split; [rewrite Hx; [done|lia]|]. apply IH; [done|]. intros. apply Hx. lia.
Qed.

Lemma seg_insert_out hs a bs e n x b :
  seg hs a bs e n → ¬ (a ≤ x < e) → seg (<[x := b]> hs) a bs e n.
Proof.
  intros H Hx. apply (seg_ext hs); [done|]. intros y Hy. apply lookup_insert_ne. lia.
Qed.

(** A chain is cut at any block but the end. *)
Lemma seg_app hs a bs1 bs2 e n :
  bs2 ≠ [] → seg hs a (bs1 ++ bs2) e n ↔ ∃ m, seg hs a bs1 m m ∧ seg hs m bs2 e n.
Proof.
  intros Hne. revert a. induction bs1 as [|[sz f] bs1 IH]; intros a; cbn [seg app].
  - split; [intros H; by exists a|]. by intros (m & -> & H).
  - split.
    + intros (Hsz & Hh & H). apply IH in H as (m & H1 & H2). exists m. split; [|done].
      split; [done|]. split; [|done]. destruct bs1; [|done]. cbn in *. subst m.
      rewrite Hh. by destruct bs2.
    + intros (m & (Hsz & Hh & H1) & H2). split; [done|]. split; [|apply IH; eauto].
      destruct bs1; [|done]. cbn in *. subst m. rewrite Hh. by destruct bs2.
Qed.

Lemma seg_head hs a sz f bs e n : seg hs a ((sz, f) :: bs) e n → 0 < sz ∧
  ∃ nx, hs !! a = Some (mk_block sz (b2z f) nx) ∧ (bs = [] → nx = n) ∧
    (bs ≠ [] → nx = a + HDR + sz) ∧ seg hs (a + HDR + sz) bs e n.
Proof.
  cbn. intros (? & ? & ?). split; [done|]. eexists. split; [done|]. destruct bs; naive_solver.
Qed.

(** Address of the last block. *)
Fixpoint last_addr a bs : Z :=
  match bs with
  | [] | [_] => a
  | (sz, _) :: bs' => last_addr (a + HDR + sz) bs'
  end.

Lemma seg_relink hs a bs e n n' :
  bs ≠ [] → seg hs a bs e n →
  ∃ h, hs !! last_addr a bs = Some h ∧ a ≤ last_addr a bs < e ∧
    seg (<[last_addr a bs := mk_block (mb_size h) (mb_flags h) n']> hs) a bs e n'.
Proof.
  revert a. induction bs as [|[sz f] bs IH]; intros a Hne H; [done|].
  apply seg_head in H as (Hsz & nx & Hh & Hn1 & Hn2 & H).
  pose proof (seg_end _ _ _ _ _ H). pose proof (seg_span_nonneg _ _ _ _ _ H).
  unfold HDR in *. destruct bs as [|b bs].
  - cbn [seg last_addr span] in *. eexists. split; [done|]. split; [lia|].
    rewrite lookup_insert_eq. split; [done|]. split; [done|]. unfold HDR. lia.
  - destruct (IH (a + 9 + sz) ltac:(done) H) as (h & Hl & Hr & Hs).
    change (last_addr a ((sz, f) :: b :: bs)) with (last_addr (a + 9 + sz) (b :: bs)).
    exists h. split; [done|]. split; [lia|]. cbn [seg].
    split; [done|]. split; [|exact Hs].
    rewrite lookup_insert_ne by lia. rewrite Hh, Hn2 by done. done.
Qed.
End layout.

Section valid.
Context (s : heap_t) (bs : list blk) (Hwf : heap_wf s bs).

Lemma heap_end_eq : mem_heap_end s = heap s + heap_size s.
Proof. destruct Hwf. unfold mem_heap_end, HEAP_END in *. apply u32_small. lia. Qed.

Lemma null_invalid : mem_heap_is_valid_block s 0 = Ok false.
Proof.
  unfold mem_heap_is_valid_block. destruct Hwf.
  by rewrite (proj2 (Z.leb_gt (heap s) 0)) by lia.
Qed.

(** Every block of a suffix of the chain is valid. *)
Lemma seg_valid hs a sz f bs' n :
  seg hs a ((sz, f) :: bs') (heap s + heap_size s) n → hs = hdrs s → heap s ≤ a →
  mem_heap_is_valid_block s a = Ok true.
Proof.
  intros H -> Ha. apply seg_head in H as (Hsz & nx & Hh & _ & _ & H).
  pose proof (seg_end _ _ _ _ _ H). pose proof (seg_span_nonneg _ _ _ _ _ H).
  unfold mem_heap_is_valid_block. rewrite heap_end_eq. destruct Hwf. unfold HEAP_END, HDR in *.
  rewrite (proj2 (Z.leb_le _ _)), (proj2 (Z.leb_le a _)) by lia. cbn [andb].
  unfold header. rewrite Hh. cbn [of_option]. rewrite bind_ok. cbn [mb_size].
  rewrite (proj2 (truthy_true _)) by lia. cbn [andb]. f_equal. apply Z.leb_le.
  unfold HDR. rewrite u32_small; lia.
Qed.
End valid.

(** ** First fit *)

Definition fits (size : Z) (b : blk) : bool :=
  let '(sz, free) := b in free && ((sz =? size) || (size + HDR + 1 <=? sz)).

Fixpoint find_fit (size : Z) (bs : list blk) : option (list blk * Z * list blk) :=
  match bs with
  | [] => None
  | (sz, free) :: bs' =>
      if fits size (sz, free) then Some ([], sz, bs')
      else '(bs1, sz', bs2) ← find_fit size bs'; Some ((sz, free) :: bs1, sz', bs2)
  end.

Lemma find_fit_Some size bs bs1 sz bs2 :
  find_fit size bs = Some (bs1, sz, bs2) →
  bs = bs1 ++ (sz, true) :: bs2 ∧ (sz = size ∨ size + HDR + 1 ≤ sz) ∧
  Forall (λ b, fits size b = false) bs1.
Proof.
  revert bs1. induction bs as [|[sz0 f0] bs IH]; intros bs1 H; cbn [find_fit] in H; [done|].
  destruct (fits size (sz0, f0)) eqn:Hf.
  - injection H as <- <- <-. cbn in Hf. breflect. subst. split; [done|]. split; [|constructor].
    destruct H0 as [H0|H0]; breflect; tauto.
  - destruct (find_fit size bs) as [[[l1 z] l2]|] eqn:Hr; cbn in H; [|done].
    injection H as <- <- <-. destruct (IH _ eq_refl) as (-> & ? & ?).
    split; [done|]. split; [done|]. by constructor.
Qed.

Lemma find_fit_None size bs : find_fit size bs = None ↔ Forall (λ b, fits size b = false) bs.
Proof.
  induction bs as [|[sz f] bs IH]; cbn [find_fit]; [by split|]. rewrite list.Forall_cons.
  destruct (fits size (sz, f)) eqn:Hf.
  - split; [done|]. by intros [? _].
  - rewrite <- IH. destruct (find_fit size bs) as [[[? ?] ?]|]; cbn; naive_solver.
Qed.

Section find.
Context (s : heap_t) (bs0 : list blk) (Hwf : heap_wf s bs0) (size : Z).
Hypothesis Hsize : 0 ≤ size < 2 ^ 32 - 10.

Lemma malloc_find_ok bs a last fuel :
  seg (hdrs s) a bs (heap s + heap_size s) 0 → heap s ≤ a → (length bs < fuel)%nat → bs ≠ [] →
  match find_fit size bs with
  | Some (bs1, _, _) => ∃ last', malloc_find fuel s size a last = Ok (a + span bs1, last')
  | None => malloc_find fuel s size a last = Ok (0, last_addr a bs)
  end.
Proof.
  revert a last fuel. induction bs as [|[sz f] bs IH]; intros a last fuel H Ha Hf Hne; [done|].
  destruct fuel as [|fuel]; [cbn in Hf; lia|]. cbn [malloc_find].
  rewrite (seg_valid s bs0 Hwf _ _ _ _ _ _ H eq_refl Ha), bind_ok. cbn [negb].
  apply seg_head in H as (Hsz & nx & Hh & Hn1 & Hn2 & H).
  unfold header. rewrite Hh. cbn [of_option]. rewrite bind_ok. cbn [mb_size mb_flags mb_next].
  unfold HDR in *. rewrite (u32_small (size + 9 + 1)) by lia.
  assert (Hfl : truthy (Z.land (b2z f) M_BLOCK_FREE) = f) by (by destruct f).
  rewrite Hfl. set (skip := negb f || _).
  assert (Hskip : skip = negb (fits size (sz, f))).
  { subst skip. unfold fits, HDR. destruct f; cbn [andb negb orb]; [|done].
    apply eq_true_iff_eq. rewrite negb_true_iff, orb_false_iff, orb_true_iff, andb_true_iff.
    rewrite !Z.ltb_lt, Z.eqb_neq, Z.leb_gt. lia. }
  rewrite Hskip. cbn [find_fit]. destruct (fits size (sz, f)); cbn [negb].
  { exists last. cbn. by rewrite Z.add_0_r. }
  destruct bs as [|b bs].
  - rewrite Hn1 by done. destruct fuel as [|fuel]; [cbn in Hf; lia|]. cbn.
    by rewrite (null_invalid s bs0 Hwf).
  - rewrite Hn2 by done. cbn [length] in Hf.
    specialize (IH (a + 9 + sz) a fuel H ltac:(lia) ltac:(cbn; lia) ltac:(done)).
    destruct (find_fit size (b :: bs)) as [[[bs1 z] bs2]|]; cbn.
    + destruct IH as [last' ->]. exists last'. f_equal. f_equal. cbn. unfold HDR. lia.
    + rewrite IH. destruct b as [sz' f']. done.
Qed.
End find.

(** ** Taking a block *)

(** What becomes of a free block of [sz] bytes when [size] are taken from it. *)
Definition place (size sz : Z) : list blk :=
  if sz =? size then [(size, false)]
  else if sz <? size + HDR + 1 then [(sz, false)]
  else [(size, false); (sz - size - HDR, true)].

Lemma seg_cons_intro hs a sz f bs e n nx :
  0 < sz → hs !! a = Some (mk_block sz (b2z f) nx) →
  (bs = [] → nx = n) → (bs ≠ [] → nx = a + HDR + sz) →
  seg hs (a + HDR + sz) bs e n → seg hs a ((sz, f) :: bs) e n.
Proof.
  intros Hsz Hh H1 H2 H. cbn. split; [done|]. split; [|done]. rewrite Hh.
  destruct bs; [by rewrite H1|by rewrite H2].
Qed.

Lemma heap_wf_set s s' bs bs' :
  heap_wf s bs → heap s' = heap s → heap_size s' = heap_size s → data s' = data s → bs' ≠ [] →
  seg (hdrs s') (heap s) bs' (heap s + heap_size s) 0 → heap_wf s' bs'.
Proof. intros [] Hh Hs Hd Hne Hseg. split; rewrite ?Hh, ?Hs, ?Hd; done. Qed.

Lemma malloc_place_ok s bs1 sz bs2 size :
  heap_wf s (bs1 ++ (sz, true) :: bs2) → 0 < size ≤ sz →
  ∃ s', malloc_place s (heap s + span bs1) size = Ok (heap s + span bs1 + HDR, s') ∧
    heap_wf s' (bs1 ++ place size sz ++ bs2) ∧ data s' = data s ∧ heap s' = heap s ∧
    heap_size s' = heap_size s.
Proof.
  intros Hwf Hsize. pose proof Hwf as [_ Hlo Hsz0 Hhi Hseg _]. set (m := heap s + span bs1).
  apply seg_app in Hseg as (m' & H1 & H2); [|done].
  assert (m' = m) as -> by (by apply seg_end in H1).
  pose proof (seg_span_nonneg _ _ _ _ _ H1) as Hsp1.
  pose proof (seg_valid s _ Hwf _ m sz true bs2 0 H2 eq_refl ltac:(lia)) as Hvalid.
  apply seg_head in H2 as (Hsz & nx & Hh & Hn1 & Hn2 & H2).
  pose proof (seg_end _ _ _ _ _ H2) as He. pose proof (seg_span_nonneg _ _ _ _ _ H2) as Hsp2.
  unfold HEAP_END, HDR in *. unfold malloc_place, M_MEMORY, HDR. unfold header.
  rewrite Hh. cbn [of_option]. rewrite bind_ok. cbn [mb_size].
  rewrite (u32_small (m + 9)) by lia. unfold place, HDR.
  assert (Hmark : ∀ s2 sz2 nx2 rest,
    hdrs s2 !! m = Some (mk_block sz2 (b2z true) nx2) → 0 < sz2 →
    heap s2 = heap s → heap_size s2 = heap_size s → data s2 = data s →
    (rest = [] → nx2 = 0) → (rest ≠ [] → nx2 = m + 9 + sz2) →
    seg (hdrs s2) (heap s) bs1 m m →
    seg (hdrs s2) (m + 9 + sz2) rest (heap s + heap_size s) 0 →
    let s3 := mk_heap (<[m := mk_block sz2 0 nx2]> (hdrs s2)) (data s2) (heap s2) (heap_size s2)
      (u32 (h_allocated s2 + size)) (h_freed s2) in
    heap_wf s3 (bs1 ++ (sz2, false) :: rest)).
  { intros s2 sz2 nx2 rest Hl Hp Hh2 Hs2 Hd2 Hr1 Hr2 Hb Hrest.
    apply (heap_wf_set s _ _ _ Hwf); try done; [by destruct bs1|]. cbn.
    apply seg_app; [done|]. exists m. split; [apply seg_insert_out; [done|lia]|].
    apply seg_cons_intro with nx2; [done|by rewrite lookup_insert_eq|done|done|].
    apply seg_insert_out; [done|unfold HDR; lia]. }
  destruct (Z.eqb_spec sz size) as [->|Hne]; [|unfold mem_split_block; rewrite Hvalid, bind_ok;
    cbn [negb]; unfold header; rewrite Hh; cbn [of_option]; rewrite bind_ok; cbn [mb_size];
    rewrite (proj2 (Z.ltb_ge sz size)) by lia; unfold HDR; rewrite (u32_small (size + 9 + 1)) by lia;
    destruct (Z.ltb_spec sz (size + 9 + 1)) as [Hlt|Hge]].
  - rewrite bind_ok. unfold header. rewrite Hh. cbn [of_option]. rewrite bind_ok.
    eexists. split; [done|]. split; [|done].
    refine (Hmark s size nx bs2 Hh _ eq_refl eq_refl eq_refl Hn1 Hn2 H1 H2). lia.
  - rewrite !bind_ok. rewrite truthy_0, bind_ok. unfold header. rewrite Hh. cbn [of_option].
    rewrite bind_ok. eexists. split; [done|]. split; [|done].
    exact (Hmark s sz nx bs2 Hh Hsz eq_refl eq_refl eq_refl Hn1 Hn2 H1 H2).
  - unfold mem_heap_init_block, M_MEMORY, HDR.
    rewrite (proj2 (Z.eqb_neq _ _)) by lia. rewrite bind_ok.
    rewrite (u32_small (m + 9)), (u32_small (m + 9 + size)) by lia.
    set (sp := m + 9 + size). unfold header. cbn. rewrite lookup_insert_eq. cbn.
    unfold header. cbn. rewrite lookup_insert_eq. cbn. eexists. split; [done|].
    split; [|done]. set (hs2 := <[m:=mk_block size 1 sp]> _).
    refine (Hmark (set_hdrs s hs2) size sp ((sz - size - 9, true) :: bs2) _ _
      eq_refl eq_refl eq_refl _ _ _ _); cbn [hdrs set_hdrs]; try done; try lia; unfold hs2.
    + by rewrite lookup_insert_eq.
    + repeat (apply seg_insert_out; [|lia]). done.
    + apply (seg_cons_intro _ _ _ _ _ _ _ nx); unfold HDR.
      * lia.
      * rewrite lookup_insert_ne by lia. subst sp. by rewrite lookup_insert_eq.
      * done.
      * intros. rewrite Hn2 by done. lia.
      * replace (m + 9 + size + 9 + (sz - size - 9)) with (m + 9 + sz) by lia.
        repeat (apply seg_insert_out; [|lia]). done.
Qed.

(** ** malloc *)

(** Pages added for a request that fits nowhere. *)
Definition grow_pages (size : Z) : Z := (size + HDR + 1) / 0x1000 + 1.

Section malloc.
Context (junk : Z → Z).

Lemma mapped_grow d a n addr k :
  mapped d a n → addr = a + n → 0 ≤ k →
  mapped (store_bytes d addr (junk <$> seqZ addr k)) a (n + k).
Proof.
  intros Hm -> Hk x Hx. rewrite lookup_store_bytes, length_fmap, length_seqZ, Z2Nat.id by lia.
  case_decide; [|apply Hm; lia]. apply lookup_lt_is_Some. rewrite length_fmap, length_seqZ. lia.
Qed.

Lemma malloc_grow_ok s bs size :
  heap_wf s bs → 0 ≤ size → heap s + heap_size s + grow_pages size * 0x1000 < 2 ^ 32 →
  let e := heap s + heap_size s in
  let g := grow_pages size in
  if HEAP_END <? e + g * 0x1000
  then malloc_grow junk s size (last_addr (heap s) bs) = Panic
  else ∃ s1, malloc_grow junk s size (last_addr (heap s) bs) = Ok (e, s1) ∧
    heap_wf s1 (bs ++ [(g * 0x1000 - HDR, true)]) ∧
    heap s1 = heap s ∧ heap_size s1 = heap_size s + g * 0x1000 ∧
    data s1 = store_bytes (data s) e (junk <$> seqZ e (g * 0x1000)).
Proof.
  intros Hwf Hsize Hfit e g. pose proof Hwf as [Hne Hlo Hsz Hhi Hseg Hdata].
  assert (Hg : u32 (size + HDR + 1) / 0x1000 + 1 = g).
  { unfold g, grow_pages, HDR in *. rewrite u32_small; [done|].
    Z.div_mod_to_equations. lia. }
  assert (Hg1 : 1 ≤ g).
  { unfold g, grow_pages, HDR. Z.div_mod_to_equations. lia. }
  unfold malloc_grow, mem_grow_heap. rewrite Hg. unfold HEAP_END in Hhi.
  rewrite (u32_small (heap s + heap_size s)), u32_small by lia. fold e.
  fold (grow_pages size) in Hfit. fold g e in Hfit. case_if; [done|].
  rewrite (proj2 (Z.eqb_neq _ _)) by lia. cbn [heap_size set_data].
  rewrite u32_small by lia. unfold mem_heap_init_block, HDR.
  rewrite (proj2 (Z.eqb_neq _ _)) by lia. rewrite bind_ok.
  destruct (seg_relink _ _ _ _ _ e Hne Hseg) as (h & Hl & Hr & Hs). fold e in Hr, Hs.
  unfold header. cbn. rewrite lookup_insert_ne by lia. rewrite Hl. cbn.
  eexists. split; [done|]. cbn. split; [|done]. split; cbn; try done; try lia.
  - by destruct bs.
  - replace (heap s + (heap_size s + g * 0x1000)) with (e + g * 0x1000) by lia.
    apply seg_app; [done|]. exists e. split.
    + apply (seg_ext _ _ _ _ _ _ Hs). intros x Hx.
      destruct (decide (x = last_addr (heap s) bs)) as [->|]; [by rewrite !lookup_insert_eq|].
      rewrite !lookup_insert_ne by lia. done.
    + apply (seg_cons_intro _ _ _ _ _ _ _ 0); try done; unfold HDR.
      * lia.
      * rewrite lookup_insert_ne by lia. by rewrite lookup_insert_eq.
      * cbn. lia.
  - apply mapped_grow; [done|done|lia].
Qed.

Lemma malloc_layout s bs size fuel :
  heap_wf s bs → 0 < size → (length bs < fuel)%nat →
  heap s + heap_size s + grow_pages size * 0x1000 < 2 ^ 32 →
  match find_fit size bs with
  | Some (bs1, sz, bs2) =>
      ∃ s', malloc junk fuel s size = Ok (heap s + span bs1 + HDR, s') ∧
        heap_wf s' (bs1 ++ place size sz ++ bs2) ∧ data s' = data s ∧
        heap s' = heap s ∧ heap_size s' = heap_size s
  | None =>
      let e := heap s + heap_size s in
      let g := grow_pages size in
      if HEAP_END <? e + g * 0x1000 then malloc junk fuel s size = Panic
      else ∃ s', malloc junk fuel s size = Ok (e + HDR, s') ∧
        heap_wf s' (bs ++ place size (g * 0x1000 - HDR)) ∧
        data s' = store_bytes (data s) e (junk <$> seqZ e (g * 0x1000)) ∧
        heap s' = heap s ∧ heap_size s' = heap_size s + g * 0x1000
  end.
Proof.
  intros Hwf Hsize Hfuel Hfit. pose proof Hwf as [Hne Hlo Hsz Hhi Hseg Hdata].
  assert (Hg : size + 10 < grow_pages size * 0x1000).
  { unfold grow_pages, HDR. Z.div_mod_to_equations. lia. }
  pose proof (malloc_find_ok s bs Hwf size ltac:(lia) bs (heap s) (heap s) fuel Hseg
    ltac:(lia) Hfuel Hne) as Hfind. unfold malloc.
  destruct (find_fit size bs) as [[[bs1 sz] bs2]|] eqn:Hff.
  - destruct Hfind as [last ->]. rewrite bind_ok.
    apply find_fit_Some in Hff as (-> & Hle & _).
    apply seg_app in Hseg as (m & H1 & H2); [|done].
    pose proof (seg_end _ _ _ _ _ H1). pose proof (seg_span_nonneg _ _ _ _ _ H1). subst m.
    rewrite (seg_valid s _ Hwf _ _ _ _ _ _ H2 eq_refl) by lia. rewrite !bind_ok.
    apply malloc_place_ok; [done|]. unfold HDR in *. lia.
  - rewrite Hfind, bind_ok, (null_invalid s bs Hwf), bind_ok. cbn zeta.
    pose proof (malloc_grow_ok s bs size Hwf ltac:(lia) Hfit) as Hgrow. cbn zeta in Hgrow.
    destruct (HEAP_END <? _); [by rewrite Hgrow|].
    destruct Hgrow as (s1 & -> & Hwf1 & Hh1 & Hs1 & Hd1). rewrite bind_ok.
    destruct (malloc_place_ok s1 bs (grow_pages size * 0x1000 - HDR) [] size Hwf1)
      as (s2 & Hp & Hwf2 & Hd2 & Hh2 & Hs2); [unfold HDR; lia|].
    rewrite Hh1, <- (seg_end _ _ _ _ _ Hseg) in Hp. rewrite Hp.
    exists s2. rewrite app_nil_r in Hwf2. split; [done|]. split; [done|].
    split; [congruence|]. split; congruence.
Qed.
End malloc.

(** ** Live allocations *)

(** Address and size of the memory of every used block. *)
Fixpoint live (a : Z) (bs : list blk) : list (Z * Z) :=
  match bs with
  | [] => []
  | (sz, free) :: bs' =>
      (if free then [] else [(a + HDR, sz)]) ++ live (a + HDR + sz) bs'
  end.

Lemma live_app a bs1 bs2 : live a (bs1 ++ bs2) = live a bs1 ++ live (a + span bs1) bs2.
Proof.
  revert a. induction bs1 as [|[sz f] bs1 IH]; intros a; cbn [app live span].
  - by rewrite Z.add_0_r.
  - rewrite IH, <- app_assoc. do 3 f_equal. lia.
Qed.

Lemma live_range hs a bs e n p sz :
  seg hs a bs e n → (p, sz) ∈ live a bs → a + HDR ≤ p ∧ 0 < sz ∧ p + sz ≤ e.
Proof.
  revert a. induction bs as [|[sz0 f] bs IH]; intros a Hs Hp; cbn [live] in Hp.
  { by apply elem_of_nil in Hp. }
  apply seg_head in Hs as (Hsz & nx & _ & _ & _ & Hs). pose proof (seg_end _ _ _ _ _ Hs).
  pose proof (seg_span_nonneg _ _ _ _ _ Hs).
  apply elem_of_app in Hp as [Hp|Hp].
  - destruct f; [by apply elem_of_nil in Hp|]. apply list_elem_of_singleton in Hp.
    injection Hp as -> ->. lia.
  - apply IH in Hp; [|done]. unfold HDR in *. lia.
Qed.

Lemma live_place a size sz :
  live a (place size sz) = [(a + HDR, if (sz =? size) || (size + HDR + 1 <=? sz) then size else sz)].
Proof.
  unfold place. destruct (Z.eqb_spec sz size) as [->|]; cbn [orb]; [done|].
  destruct (Z.ltb_spec sz (size + HDR + 1)).
  - by rewrite (proj2 (Z.leb_gt _ _)) by lia.
  - by rewrite (proj2 (Z.leb_le _ _)) by lia.
Qed.

Lemma span_place size sz : span (place size sz) = span [(sz, true)].
Proof. unfold place. repeat case_if; cbn; lia. Qed.

(** The allocation [(p, sz)] and its header do not meet [(q, n)]. *)
Definition apart (p sz q n : Z) : Prop := p + sz ≤ q - HDR ∨ q + n ≤ p - HDR.

(** ** free *)

(** One walk over the layout, joining pairs of neighbouring free blocks. *)
Fixpoint merge_pairs (bs : list blk) : list blk :=
  match bs with
  | [] => []
  | (a, fa) :: bs' =>
      match fa, bs' with
      | true, (b, true) :: bs'' => (a + (HDR + b), true) :: merge_pairs bs''
      | _, _ => (a, fa) :: merge_pairs bs'
      end
  end.

Lemma merge_pairs_ind (P : list blk → Prop) :
  P [] → (∀ a b bs, P bs → P ((a, true) :: (b, true) :: bs)) →
  (∀ a fa bs, P bs → (fa = false ∨ ∀ b bs', bs ≠ (b, true) :: bs') → P ((a, fa) :: bs)) →
  ∀ bs, P bs.
Proof.
  intros H0 H2 H1 bs. remember (length bs) as n eqn:Hn. revert bs Hn.
  induction (lt_wf n) as [n _ IH]. intros bs ->. destruct bs as [|[a fa] bs]; [done|].
  destruct fa; [|apply H1; [apply (IH (length bs)); cbn; lia|by left]].
  destruct bs as [|[b []] bs]; [apply H1; [done|by right] | |].
  - apply H2, (IH (length bs)); cbn; lia.
  - apply H1; [apply (IH (length ((b, false) :: bs))); cbn; lia|by right].
Qed.

Lemma merge_pairs_cons a fa bs :
  (fa = false ∨ ∀ b bs', bs ≠ (b, true) :: bs') →
  merge_pairs ((a, fa) :: bs) = (a, fa) :: merge_pairs bs.
Proof.
  intros H. cbn. destruct fa; [|done]. destruct H as [H|H]; [done|].
  destruct bs as [|[b []] bs]; [done| |done]. by destruct (H b bs).
Qed.

Lemma merge_pairs_live bs a : live a (merge_pairs bs) = live a bs.
Proof.
  revert a. induction bs as [|x y bs IH|x fx bs IH Hx] using merge_pairs_ind; intros a.
  - done.
  - cbn [merge_pairs live app]. rewrite IH. f_equal. lia.
  - rewrite merge_pairs_cons by done. cbn [live]. by rewrite IH.
Qed.

Lemma merge_pairs_nil bs : merge_pairs bs = [] ↔ bs = [].
Proof. destruct bs as [|[x []] [|[y []] bs]]; cbn; naive_solver. Qed.

(** The address of the next block of a chain, 0 at its end. *)
Definition here (a : Z) (bs : list blk) : Z := match bs with [] => 0 | _ => a end.

Lemma mem_merge_ok bs : ∀ s pre fuel,
  heap_wf s (pre ++ bs) → (length bs < fuel)%nat →
  ∃ s', mem_merge fuel s (here (heap s + span pre) bs) = Ok s' ∧
    heap_wf s' (pre ++ merge_pairs bs) ∧ data s' = data s ∧ heap s' = heap s ∧
    heap_size s' = heap_size s.
Proof.
  assert (Hstart : ∀ s pre b bs, heap_wf s (pre ++ b :: bs) →
    seg (hdrs s) (heap s) pre (heap s + span pre) (heap s + span pre) ∧ 0 ≤ span pre ∧
    seg (hdrs s) (heap s + span pre) (b :: bs) (heap s + heap_size s) 0).
  { intros s pre b l Hwf. pose proof Hwf as [_ _ _ _ Hseg _].
    apply seg_app in Hseg as (m & H1 & H2); [|done].
    pose proof (seg_end _ _ _ _ _ H1). pose proof (seg_span_nonneg _ _ _ _ _ H1). by subst m. }
  assert (Hnext : ∀ a (bs : list blk) nx, (bs = [] → nx = 0) → (bs ≠ [] → nx = a) → nx = here a bs).
  { intros a [|? ?] nx H1 H2; [by apply H1|by apply H2]. }
  induction bs as [|x y bs IH|x fx bs IH Hx] using merge_pairs_ind;
    intros s pre fuel Hwf Hfuel; (destruct fuel as [|fuel]; [cbn in Hfuel; lia|]);
    cbn [mem_merge here].
  - rewrite (null_invalid s _ Hwf), bind_ok. cbn. by exists s.
  - destruct (Hstart _ _ _ _ Hwf) as (H1 & Hsp & H2).
    rewrite (seg_valid s _ Hwf _ _ _ _ _ _ H2 eq_refl) by lia. rewrite bind_ok. cbn [negb].
    apply seg_head in H2 as (Hx & nx & Hhx & _ & Hn & H2). rewrite Hn in Hhx by done.
    set (a := heap s + span pre) in *. unfold header. rewrite Hhx. cbn [of_option].
    rewrite bind_ok. cbn [mb_flags mb_next mb_size].
    change (truthy (Z.land (b2z true) M_BLOCK_FREE)) with true. cbn [negb].
    rewrite (seg_valid s _ Hwf _ _ _ _ _ _ H2 eq_refl) by (unfold HDR; lia). rewrite bind_ok.
    apply seg_head in H2 as (Hy & ny & Hhy & Hn1 & Hn2 & H3).
    pose proof (seg_end _ _ _ _ _ H3). pose proof (seg_span_nonneg _ _ _ _ _ H3).
    pose proof Hwf as [Hne Hlo Hsz Hhi Hseg Hd]. unfold HEAP_END, HDR in *.
    unfold header, HDR. rewrite Hhy. cbn [of_option]. rewrite bind_ok. cbn [mb_flags mb_next mb_size].
    unfold M_MEMORY, HDR. rewrite (u32_small (a + 9)), (u32_small (a + 9 + x)) by lia.
    rewrite Z.eqb_refl. change (truthy (Z.land (b2z true) M_BLOCK_FREE)) with true. cbn [andb].
    rewrite (u32_small (x + (9 + y))) by lia.
    set (s1 := put_header s a _).
    destruct (IH s1 (pre ++ [(x + (9 + y), true)]) fuel) as (s' & Hm & Hwf' & Hd' & Hh' & Hs').
    + rewrite <- app_assoc. cbn [app]. apply (heap_wf_set s _ _ _ Hwf); try done.
      { by destruct pre. }
      apply seg_app; [done|]. exists a. split; [apply seg_insert_out; [done|lia]|].
      apply (seg_cons_intro _ _ _ _ _ _ _ ny); unfold HDR.
      * lia.
      * cbn. by rewrite lookup_insert_eq.
      * done.
      * intros. rewrite Hn2 by done. lia.
      * replace (a + 9 + (x + (9 + y))) with (a + 9 + x + 9 + y) by lia.
        apply seg_insert_out; [done|lia].
    + cbn in Hfuel. lia.
    + exists s'. rewrite <- app_assoc in Hwf'. split; [|done]. rewrite <- Hm. f_equal.
      apply Hnext; [done|]. intros. rewrite Hn2, span_app by done. cbn. unfold HDR. lia.
  - destruct (Hstart _ _ _ _ Hwf) as (H1 & Hsp & H2).
    rewrite (seg_valid s _ Hwf _ _ _ _ _ _ H2 eq_refl) by lia. rewrite bind_ok. cbn [negb].
    apply seg_head in H2 as (Hxp & nx & Hhx & Hn1 & Hn2 & H2).
    set (a := heap s + span pre) in *. unfold header. rewrite Hhx. cbn [of_option].
    rewrite bind_ok. cbn [mb_flags mb_next mb_size].
    assert (Hgo : ∃ s', mem_merge fuel s nx = Ok s' ∧
      heap_wf s' (pre ++ merge_pairs ((x, fx) :: bs)) ∧ data s' = data s ∧ heap s' = heap s ∧
      heap_size s' = heap_size s).
    { destruct (IH s (pre ++ [(x, fx)]) fuel) as (s' & Hm & Hwf' & ?).
      - by rewrite <- app_assoc.
      - cbn in Hfuel. lia.
      - exists s'. rewrite merge_pairs_cons by done. rewrite <- app_assoc in Hwf'.
        split; [|done]. rewrite <- Hm. f_equal. apply Hnext; [done|]. intros.
        rewrite Hn2, span_app by done. cbn. unfold HDR. lia. }
    destruct (truthy (Z.land (b2z fx) M_BLOCK_FREE)) eqn:Hfx; [|done].
    destruct bs as [|[y fy] bs].
    { rewrite (Hn1 eq_refl) in *. by rewrite (null_invalid s _ Hwf), bind_ok. }
    rewrite (Hn2 ltac:(done)) in *. pose proof H2 as H3.
    rewrite (seg_valid s _ Hwf _ _ _ _ _ _ H3 eq_refl) by (unfold HDR; lia). rewrite bind_ok.
    apply seg_head in H3 as (Hy & ny & Hhy & _). unfold header. rewrite Hhy. cbn [of_option].
    rewrite bind_ok. cbn [mb_flags]. destruct fy; [|done].
    destruct fx; [|done]. destruct Hx as [Hx|Hx]; [done|]. by destruct (Hx y bs).
Qed.

Lemma free_layout s bs1 sz bs2 fuel :
  heap_wf s (bs1 ++ (sz, false) :: bs2) → (length (bs1 ++ (sz, false) :: bs2) < fuel)%nat →
  ∃ s', free fuel s (heap s + span bs1 + HDR) = Ok s' ∧
    heap_wf s' (merge_pairs (bs1 ++ (sz, true) :: bs2)) ∧ data s' = data s ∧
    heap s' = heap s ∧ heap_size s' = heap_size s.
Proof.
  intros Hwf Hfuel. pose proof Hwf as [Hne Hlo Hsz Hhi Hseg Hd].
  apply seg_app in Hseg as (m & H1 & H2); [|done].
  pose proof (seg_end _ _ _ _ _ H1). pose proof (seg_span_nonneg _ _ _ _ _ H1). subst m.
  set (a := heap s + span bs1) in *.
  pose proof (seg_valid s _ Hwf _ _ _ _ _ _ H2 eq_refl ltac:(lia)) as Hv.
  apply seg_head in H2 as (Hp & nx & Hh & Hn1 & Hn2 & H2).
  pose proof (seg_end _ _ _ _ _ H2). pose proof (seg_span_nonneg _ _ _ _ _ H2).
  unfold free, M_HEADER. unfold HEAP_END, HDR in *.
  replace (u32 (a + 9 - 9)) with a by (rewrite u32_small; lia).
  rewrite Hv, bind_ok. cbn [negb]. unfold header. rewrite Hh. cbn [of_option]. rewrite bind_ok.
  cbn [mb_flags mb_size mb_next]. change (truthy (Z.land (b2z false) M_BLOCK_FREE)) with false. cbn match.
  set (s1 := mk_heap _ _ _ _ _ _).
  assert (Hwf1 : heap_wf s1 (bs1 ++ (sz, true) :: bs2)).
  { apply (heap_wf_set s _ _ _ Hwf); try done; [by destruct bs1|].
    apply seg_app; [done|]. exists a. split; [apply seg_insert_out; [done|lia]|].
    apply (seg_cons_intro _ _ _ _ _ _ _ nx); unfold HDR; try done.
    - cbn. by rewrite lookup_insert_eq.
    - apply seg_insert_out; [done|lia]. }
  destruct (mem_merge_ok (bs1 ++ (sz, true) :: bs2) s1 [] fuel Hwf1)
    as (s' & Hm & Hwf' & Hd' & Hh' & Hs').
  { rewrite length_app in *. done. }
  exists s'. split; [|done]. rewrite <- Hm. cbn [span]. rewrite Z.add_0_r.
  by destruct bs1.
Qed.
