(* ===== verification/AllocFacts.v ===== *)
(** * Correctness of the heap of alloc.c

    The layout lemmas of Alloc.v as statements about clients: what a successful
    allocation gives, what [free] takes back, that no sequence of calls makes two
    allocations overlap, and what [calloc], [realloc] and [valloc] add. *)

From S2P Require Import Prelude CMem CString CStringFacts Alloc.

(** ** Blocks and allocations *)

Lemma live_split a bs p n :
  (p, n) ∈ live a bs → ∃ bs1 bs2, bs = bs1 ++ (n, false) :: bs2 ∧ p = a + span bs1 + HDR.
Proof.
  revert a. induction bs as [|[sz f] bs IH]; intros a H; cbn [live] in H.
  { by apply elem_of_nil in H. }
  apply elem_of_app in H as [H|H].
  - destruct f; [by apply elem_of_nil in H|]. apply list_elem_of_singleton in H.
    injection H as -> ->. exists [], bs. split; [done|]. cbn. lia.
  - apply IH in H as (bs1 & bs2 & -> & ->). exists ((sz, f) :: bs1), bs2. split; [done|].
    cbn [span]. lia.
Qed.

Lemma live_middle a bs1 n bs2 :
  live a (bs1 ++ (n, false) :: bs2) =
  live a bs1 ++ (a + span bs1 + HDR, n) :: live (a + span bs1 + HDR + n) bs2.
Proof. by rewrite live_app. Qed.

(** A used block and its header are apart from every other allocation. *)
Lemma live_apart hs a bs1 n bs2 e nx q k :
  seg hs a (bs1 ++ (n, false) :: bs2) e nx →
  (q, k) ∈ live a bs1 ++ live (a + span bs1 + HDR + n) bs2 →
  apart (a + span bs1 + HDR) n q k.
Proof.
  intros H Hq. apply seg_app in H as (m & H1 & H2); [|done]. pose proof (seg_end _ _ _ _ _ H1).
  subst m. apply seg_head in H2 as (_ & ? & _ & _ & _ & H2). unfold apart.
  apply elem_of_app in Hq as [Hq|Hq].
  - apply (live_range _ _ _ _ _ _ _ H1) in Hq. lia.
  - apply (live_range _ _ _ _ _ _ _ H2) in Hq. lia.
Qed.

(** The header in front of a live allocation. *)
Lemma live_header s bs p n :
  heap_wf s bs → (p, n) ∈ live (heap s) bs → ∃ nx, hdrs s !! M_HEADER p = Some (mk_block n 0 nx).
Proof.
  intros Hwf Hp. destruct (live_split _ _ _ _ Hp) as (c1 & c2 & -> & ->).
  pose proof Hwf as [_ Hlo _ Hhi Hseg _]. apply seg_app in Hseg as (m & H1 & H2); [|done].
  pose proof (seg_end _ _ _ _ _ H1). pose proof (seg_span_nonneg _ _ _ _ _ H1). subst m.
  apply seg_head in H2 as (Hn & nx & Hh & _ & _ & H2). pose proof (seg_end _ _ _ _ _ H2).
  pose proof (seg_span_nonneg _ _ _ _ _ H2). exists nx. unfold M_HEADER, HEAP_END, HDR in *.
  rewrite u32_small by lia. by replace (heap s + span c1 + 9 - 9) with (heap s + span c1) by lia.
Qed.

Lemma place_cons size sz :
  0 < size ≤ sz → ∃ n rest, place size sz = (n, false) :: rest ∧ size ≤ n ∧
    (∀ a, live a rest = []) ∧ n + span rest = sz.
Proof.
  intros H. unfold place. case_if; [|case_if]; do 2 eexists; (split; [done|]); cbn; split_and!; try done; lia.
Qed.

(** Every block takes more than a byte, so the size of the heap bounds the chain. *)
Lemma blocks_bound hs a bs e n : seg hs a bs e n → Z.of_nat (length bs) ≤ span bs.
Proof.
  revert a. induction bs as [|[sz f] bs IH]; intros a H; cbn in *; [lia|].
  destruct H as (? & _ & H%IH). unfold HDR. lia.
Qed.

(** Fuel that is enough for every walk over the heap. *)
Definition enough (fuel : nat) (s : heap_t) : Prop := heap_size s < Z.of_nat fuel.

Lemma enough_blocks s bs fuel : heap_wf s bs → enough fuel s → (length bs < fuel)%nat.
Proof.
  intros [_ _ _ _ Hs _] Hf. pose proof (blocks_bound _ _ _ _ _ Hs). unfold enough in Hf.
  apply seg_end in Hs. lia.
Qed.

(** The request does not take the heap across the top of the address space. *)
Definition no_wrap (s : heap_t) (size : Z) : Prop :=
  heap s + heap_size s + grow_pages size * 0x1000 < 2 ^ 32.

Section client.
Context (junk : Z → Z).

(** The two ways [malloc] returns, seen as one change of the layout. *)
Lemma malloc_inv s bs size fuel p s' :
  heap_wf s bs → 0 < size → enough fuel s → no_wrap s size →
  malloc junk fuel s size = Ok (p, s') →
  ∃ bs1 n bs2, heap_wf s' (bs1 ++ (n, false) :: bs2) ∧ size ≤ n ∧ heap s' = heap s ∧
    p = heap s + span bs1 + HDR ∧
    live (heap s) bs = live (heap s) bs1 ++ live (heap s + span bs1 + HDR + n) bs2 ∧
    (∀ a, heap s ≤ a < heap s + heap_size s → data s' !! a = data s !! a).
Proof.
  intros Hwf Hsize Hf Hw Hm. pose proof (enough_blocks _ _ _ Hwf Hf) as Hfuel.
  pose proof (malloc_layout junk s bs size fuel Hwf Hsize Hfuel Hw) as Hl. rewrite Hm in Hl.
  destruct (find_fit size bs) as [[[bs1 sz] bs2]|] eqn:Hff.
  - destruct Hl as (s1 & [= -> <-] & Hwf' & Hd & Hh & Hs).
    apply find_fit_Some in Hff as (-> & Hfit & _).
    destruct (place_cons size sz) as (n & rest & Hp & Hn & Hlr & Hsp); [unfold HDR in *; lia|].
    rewrite Hp in Hwf'. exists bs1, n, (rest ++ bs2). split; [done|]. split; [done|].
    split; [done|]. split; [lia|]. split; [|by rewrite Hd].
    rewrite !live_app, Hlr. cbn [live app]. do 2 f_equal. lia.
  - cbn zeta in Hl. destruct (HEAP_END <? _); [done|].
    destruct Hl as (s1 & [= -> <-] & Hwf' & Hd & Hh & Hs).
    destruct (place_cons size (grow_pages size * 0x1000 - HDR)) as (n & rest & Hp & Hn & Hlr & Hsp).
    { unfold grow_pages, HDR in *. Z.div_mod_to_equations. lia. }
    rewrite Hp in Hwf'. exists bs, n, rest. split; [done|]. split; [done|]. split; [done|].
    pose proof Hwf as [_ _ _ _ Hseg _]. apply seg_end in Hseg.
    split; [lia|]. split; [by rewrite Hlr, app_nil_r|].
    intros a Ha. rewrite Hd, lookup_store_bytes. case_decide; [lia|done].
Qed.

(** C6: [malloc] is a first-fit allocator on the layout of the heap: the first free block
    that fits exactly or leaves room for a header and a byte is taken and split; if there
    is none, the heap grows by whole pages and the new block is used, or, past the end of
    the heap area, the kernel panics.  Every walk ends. *)
Theorem malloc_first_fit s bs size fuel :
  heap_wf s bs → 0 < size → enough fuel s → no_wrap s size →
  match find_fit size bs with
  | Some (bs1, sz, bs2) =>
      ∃ s', malloc junk fuel s size = Ok (heap s + span bs1 + HDR, s') ∧
        heap_wf s' (bs1 ++ place size sz ++ bs2) ∧ data s' = data s ∧
        heap s' = heap s ∧ heap_size s' = heap_size s
  | None =>
      let e := heap s + heap_size s in
      let g := grow_pages size in
      if HEAP_END <? e + g * 0x1000 then malloc junk fuel s size = Panic
      else ∃ s', malloc junk fuel s size = Ok (e + HDR, s') ∧
        heap_wf s' (bs ++ place size (g * 0x1000 - HDR)) ∧
        data s' = store_bytes (data s) e (junk <$> seqZ e (g * 0x1000)) ∧
        heap s' = heap s ∧ heap_size s' = heap_size s + g * 0x1000
  end.
Proof. intros Hwf Hs Hf Hw. apply malloc_layout; try done. by apply enough_blocks with s. Qed.

(** An allocation is fresh: the memory returned is large enough, lies in the heap,
    meets neither the memory nor the header of any allocation that was live, and all of
    those stay live, at the same place, with the same contents. *)
Theorem malloc_fresh s bs size fuel p s' :
  heap_wf s bs → 0 < size → enough fuel s → no_wrap s size →
  malloc junk fuel s size = Ok (p, s') →
  ∃ bs' n l1 l2, heap_wf s' bs' ∧ size ≤ n ∧
    heap s + HDR ≤ p ∧ p + n ≤ heap s' + heap_size s' ∧
    live (heap s) bs = l1 ++ l2 ∧ live (heap s') bs' = l1 ++ (p, n) :: l2 ∧
    (∀ q k, (q, k) ∈ l1 ++ l2 → apart p n q k) ∧
    (∀ q k a, (q, k) ∈ l1 ++ l2 → q ≤ a < q + k → data s' !! a = data s !! a).
Proof.
  intros Hwf Hsize Hf Hw Hm.
  destruct (malloc_inv s bs size fuel p s' Hwf Hsize Hf Hw Hm)
    as (bs1 & n & bs2 & Hwf' & Hn & Hh & -> & Hl & Hd).
  pose proof Hwf' as [_ _ _ _ Hseg' _]. pose proof Hwf as [_ _ _ _ Hseg _]. rewrite Hh in *.
  eexists _, n, _, _. split; [done|]. split; [done|].
  assert (Hin : (heap s + span bs1 + HDR, n) ∈ live (heap s) (bs1 ++ (n, false) :: bs2)).
  { rewrite live_middle. apply elem_of_app. right. left. }
  apply (live_range _ _ _ _ _ _ _ Hseg') in Hin. split; [lia|]. split; [lia|].
  split; [exact Hl|]. split; [apply live_middle|]. split.
  - intros q k. apply (live_apart _ _ _ _ _ _ _ _ _ Hseg').
  - intros q k a Hq Ha. rewrite <- Hl in Hq. apply (live_range _ _ _ _ _ _ _ Hseg) in Hq.
    apply Hd. unfold HDR in *. lia.
Qed.

Lemma free_live s bs p n fuel :
  heap_wf s bs → enough fuel s → (p, n) ∈ live (heap s) bs →
  ∃ s' bs' l1 l2, free fuel s p = Ok s' ∧ heap_wf s' bs' ∧
    live (heap s) bs = l1 ++ (p, n) :: l2 ∧ live (heap s') bs' = l1 ++ l2 ∧
    data s' = data s ∧ heap s' = heap s ∧ heap_size s' = heap_size s.
Proof.
  intros Hwf Hf Hin. destruct (live_split _ _ _ _ Hin) as (bs1 & bs2 & -> & ->).
  pose proof (enough_blocks _ _ _ Hwf Hf) as Hfuel.
  destruct (free_layout s bs1 n bs2 fuel Hwf Hfuel) as (s' & Hfr & Hwf' & Hd & Hh & Hs).
  exists s'. do 3 eexists. split; [done|]. split; [done|]. split; [apply live_middle|].
  rewrite Hh, merge_pairs_live, live_app. split; [done|]. done.
Qed.

(** [free] of a live allocation always succeeds and takes back exactly that
    allocation: every other one stays live and no byte of the heap changes.  Freed
    neighbours are joined, by one pass over the blocks. *)
Theorem free_exact s bs p n fuel :
  heap_wf s bs → enough fuel s → (p, n) ∈ live (heap s) bs →
  ∃ s' bs1 bs2, bs = bs1 ++ (n, false) :: bs2 ∧ p = heap s + span bs1 + HDR ∧
    free fuel s p = Ok s' ∧ heap_wf s' (merge_pairs (bs1 ++ (n, true) :: bs2)) ∧
    live (heap s') (merge_pairs (bs1 ++ (n, true) :: bs2)) =
      live (heap s) bs1 ++ live (p + n) bs2 ∧
    data s' = data s.
Proof.
  intros Hwf Hf Hin. destruct (live_split _ _ _ _ Hin) as (bs1 & bs2 & -> & ->).
  pose proof (enough_blocks _ _ _ Hwf Hf) as Hfuel.
  destruct (free_layout s bs1 n bs2 fuel Hwf Hfuel) as (s' & Hfr & Hwf' & Hd & Hh & Hs).
  exists s', bs1, bs2. split_and!; try done. rewrite Hh, merge_pairs_live, live_app.
  cbn [live app]. done.
Qed.
End client.

(** A heap of three blocks, the middle one free; used by examples. *)
Definition demo_heap : heap_t :=
  mk_heap (<[1000 := mk_block 16 0 1025]> (<[1025 := mk_block 40 1 1074]>
            (<[1074 := mk_block 8 0 0]> ∅)))
    (mem_of 1000 (replicate 91 7)) 1000 91 0 0.

Definition demo_layout : list blk := [(16, false); (40, true); (8, false)].

Lemma demo_wf : heap_wf demo_heap demo_layout.
Proof.
  split; [done|cbn; lia|cbn; lia|vm_compute; done|by repeat split|].
  change (heap_size demo_heap) with (Z.of_nat 91). apply mapped_check_ok. by vm_compute.
Qed.

Lemma malloc_first_fit_witness :
  ∃ s', malloc (λ _, 0) 100 demo_heap 12 = Ok (1034, s') ∧
    heap_wf s' [(16, false); (12, false); (19, true); (8, false)] ∧ data s' = data demo_heap ∧
    heap s' = 1000 ∧ heap_size s' = 91.
Proof.
  apply (malloc_first_fit (λ _, 0) demo_heap demo_layout 12 100 demo_wf);
    [lia|unfold enough; cbn; lia|unfold no_wrap; vm_compute; done].
Defined.

Lemma malloc_fresh_witness :
  ∃ p s' bs' n l1 l2, malloc (λ _, 0) 100 demo_heap 12 = Ok (p, s') ∧ heap_wf s' bs' ∧ 12 ≤ n ∧
    [(1009, 16); (1083, 8)] = l1 ++ l2 ∧ live (heap s') bs' = l1 ++ (p, n) :: l2.
Proof.
  destruct (malloc_layout (λ _, 0) demo_heap demo_layout 12 100 demo_wf ltac:(lia) ltac:(cbn; lia)
    ltac:(vm_compute; done)) as (s' & Hm & _).
  destruct (malloc_fresh (λ _, 0) demo_heap demo_layout 12 100 1034 s' demo_wf)
    as (bs' & n & l1 & l2 & Hw & Hn & _ & _ & H1 & H2 & _);
    [lia|unfold enough; cbn; lia|unfold no_wrap; vm_compute; done|exact Hm|].
  exists 1034, s', bs', n, l1, l2. split; [exact Hm|]. split; [exact Hw|]. split; [exact Hn|].
  split; [exact H1|exact H2].
Defined.

Lemma free_exact_witness :
  ∃ s' bs1 bs2, demo_layout = bs1 ++ (8, false) :: bs2 ∧ 1083 = 1000 + span bs1 + HDR ∧
    free 100 demo_heap 1083 = Ok s' ∧ heap_wf s' (merge_pairs (bs1 ++ (8, true) :: bs2)) ∧
    live (heap s') (merge_pairs (bs1 ++ (8, true) :: bs2)) = live 1000 bs1 ++ live (1083 + 8) bs2 ∧
    data s' = data demo_heap.
Proof.
  apply (free_exact demo_heap demo_layout 1083 8 100 demo_wf); [unfold enough; cbn; lia|].
  vm_compute. right. left.
Defined.

(** Freeing twice, or freeing the null pointer, is reported and changes nothing. *)
Theorem free_invalid_ignored s bs1 sz bs2 fuel :
  heap_wf s (bs1 ++ (sz, true) :: bs2) →
  free fuel s (heap s + span bs1 + HDR) = Ok s ∧ free fuel s 0 = Ok s.
Proof.
  intros Hwf. pose proof Hwf as [Hne Hlo Hsz Hhi Hseg Hd].
  apply seg_app in Hseg as (m & H1 & H2); [|done].
  pose proof (seg_end _ _ _ _ _ H1). pose proof (seg_span_nonneg _ _ _ _ _ H1). subst m.
  pose proof (seg_valid s _ Hwf _ _ _ _ _ _ H2 eq_refl ltac:(lia)) as Hv.
  apply seg_head in H2 as (Hp & nx & Hh & Hn1 & Hn2 & H2).
  pose proof (seg_end _ _ _ _ _ H2). pose proof (seg_span_nonneg _ _ _ _ _ H2).
  unfold free, M_HEADER, HEAP_END, HDR in *. split.
  - rewrite u32_small by lia. replace (heap s + span bs1 + 9 - 9) with (heap s + span bs1) by lia.
    rewrite Hv, bind_ok. cbn [negb]. unfold header. rewrite Hh. done.
  - unfold mem_heap_is_valid_block. rewrite (heap_end_eq _ _ Hwf).
    change (u32 (0 - 9)) with 4294967287.
    rewrite (proj2 (Z.leb_gt 4294967287 _)) by lia. by rewrite andb_false_r.
Qed.

Lemma free_invalid_ignored_witness :
  free 5 demo_heap 1034 = Ok demo_heap ∧ free 5 demo_heap 0 = Ok demo_heap.
Proof. apply (free_invalid_ignored demo_heap [(16, false)] 40 [(8, false)] 5). apply demo_wf. Defined.

(** ** Sequences of calls *)

Section reach.
Context (junk : Z → Z).

(** The heaps a well-behaved client can reach from start-up, with the allocations it
    holds: it frees only what it holds, asks for at least a byte, and never for so much
    that the address of the new end would wrap. *)
Inductive reach : heap_t → list (Z * Z) → Prop :=
| reach_init s : k_mem_heap_init junk = Ok s → reach s []
| reach_malloc s held fuel size p s' :
    reach s held → enough fuel s → 0 < size → no_wrap s size →
    malloc junk fuel s size = Ok (p, s') → reach s' ((p, size) :: held)
| reach_free s held1 p n held2 fuel s' :
    reach s (held1 ++ (p, n) :: held2) → enough fuel s → free fuel s p = Ok s' →
    reach s' (held1 ++ held2).

(** The bytes of two allocations do not meet. *)
Definition disjoint_alloc (x y : Z * Z) : Prop :=
  x.1 + x.2 ≤ y.1 ∨ y.1 + y.2 ≤ x.1.

(** What the client holds is what the heap has given out, up to rounding and order. *)
Definition holds (held : list (Z * Z)) (s : heap_t) : Prop :=
  ∃ bs l, heap_wf s bs ∧ l ≡ₚ live (heap s) bs ∧
    Forall2 (λ x y : Z * Z, x.1 = y.1 ∧ 0 < x.2 ≤ y.2) held l.

Lemma init_wf s :
  k_mem_heap_init junk = Ok s → heap_wf s [(HEAP_INITIAL_SIZE - HDR, true)].
Proof.
  unfold k_mem_heap_init, mem_heap_init_block. rewrite (proj2 (Z.eqb_neq _ _)) by done.
  assert (Hm : mapped (store_bytes ∅ HEAP_START (junk <$> seqZ HEAP_START HEAP_INITIAL_SIZE))
    HEAP_START HEAP_INITIAL_SIZE).
  { replace HEAP_INITIAL_SIZE with (0 + HEAP_INITIAL_SIZE) at 2 by lia.
    apply mapped_grow; [intros a; lia|lia|unfold HEAP_INITIAL_SIZE; lia]. }
  revert Hm. generalize (store_bytes ∅ HEAP_START (junk <$> seqZ HEAP_START HEAP_INITIAL_SIZE)).
  intros d Hm <-%Ok_inj. split; [done|done|done|done| |exact Hm].
  cbn. split; [done|]. by rewrite lookup_insert_eq.
Qed.

Lemma reach_holds s held : reach s held → holds held s.
Proof.
  induction 1 as [s Hi|s held fuel size p s' _ (bs & l & Hwf & Hl & Hh) Hf Hsz Hw Hm|
    s h1 p n h2 fuel s' _ (bs & l & Hwf & Hl & Hh) Hf Hfr].
  - eexists _, []. split; [by apply init_wf|]. done.
  - destruct (malloc_inv junk s bs size fuel p s' Hwf Hsz Hf Hw Hm)
      as (bs1 & k & bs2 & Hwf' & Hk & Hhp & -> & Hlv & _).
    eexists _, ((heap s + span bs1 + HDR, k) :: l). split; [done|].
    rewrite Hhp, live_middle. split.
    + by rewrite Hl, Hlv, Permutation_middle.
    + constructor; [cbn; lia|done].
  - apply Forall2_app_inv_l in Hh as (l1 & l' & Hh1 & Hh2 & ->).
    apply Forall2_cons_inv_l in Hh2 as ([q k] & l2 & [Heq Hk] & Hh2 & ->). cbn in Heq, Hk. subst q.
    assert (Hin : (p, k) ∈ live (heap s) bs).
    { rewrite <- Hl. apply elem_of_app. right. left. }
    destruct (free_live s bs p k fuel Hwf Hf Hin)
      as (s1 & bs' & m1 & m2 & Hfr1 & Hwf' & Hm1 & Hm2 & _ & Hheap & _).
    rewrite Hfr in Hfr1. injection Hfr1 as <-.
    exists bs', (l1 ++ l2). split; [done|]. split; [|by apply Forall2_app].
    rewrite Hm2. apply (Permutation_cons_inv (a := (p, k))).
    by rewrite !Permutation_middle, Hl, Hm1.
Qed.

Lemma live_pairwise hs a bs e nx :
  seg hs a bs e nx → ForallOrdPairs disjoint_alloc (live a bs).
Proof.
  revert a. induction bs as [|[sz f] bs IH]; intros a H; cbn [live]; [constructor|].
  apply seg_head in H as (Hsz & ? & _ & _ & _ & H). destruct f; cbn [app]; [by apply IH|].
  constructor; [|by apply IH]. apply Forall_forall. intros [q k] Hq.
  apply (live_range _ _ _ _ _ _ _ H) in Hq. left. cbn. unfold HDR in *. lia.
Qed.

#[export] Instance disjoint_alloc_sym : Symmetric disjoint_alloc.
Proof. intros x y [H|H]; [by right|by left]. Qed.

Lemma pairs_perm (l l' : list (Z * Z)) :
  l ≡ₚ l' → ForallOrdPairs disjoint_alloc l → ForallOrdPairs disjoint_alloc l'.
Proof.
  induction 1 as [|x l l' Hp IH|x y l|l l' l'' _ IH1 _ IH2]; intros H; auto.
  - inversion_clear H as [|? ? Hx Hr]. constructor; [|by apply IH]. by rewrite <- Hp.
  - inversion_clear H as [|? ? Hy Hr]. inversion_clear Hr as [|? ? Hx Hl].
    apply list.Forall_cons in Hy as [Hyx Hy]. constructor; [|by constructor].
    apply list.Forall_cons. split; [by symmetry|done].
Qed.

Lemma pairs_shrink (l l' : list (Z * Z)) :
  Forall2 (λ x y : Z * Z, x.1 = y.1 ∧ 0 < x.2 ≤ y.2) l l' →
  ForallOrdPairs disjoint_alloc l' → ForallOrdPairs disjoint_alloc l.
Proof.
  induction 1 as [|x y l l' [Hxy Hn] Hl IH]; intros H; [constructor|].
  inversion_clear H as [|? ? Hy Hr]. constructor; [|by apply IH]. clear IH Hr.
  induction Hl as [|x' y' l l' [Hxy' Hn'] Hl IH]; [constructor|].
  apply list.Forall_cons in Hy as [Hd Hy]. constructor; [|by apply IH].
  unfold disjoint_alloc in *. lia.
Qed.

(** C1: For a client that asks for sizes that are not zero and do not wrap around when the
    header is added, and that frees only what it holds, each once: whatever the sequence of
    its calls, the heap stays well formed and the allocations the client holds never overlap
    and all lie inside the heap.  (Without the condition it does not hold:
    [malloc_zero_cuts_chain].) *)
Theorem heap_safety s held :
  reach s held →
  (∃ bs, heap_wf s bs) ∧ ForallOrdPairs disjoint_alloc held ∧
  Forall (λ x, heap s ≤ x.1 ∧ x.1 + x.2 ≤ heap s + heap_size s) held.
Proof.
  intros (bs & l & Hwf & Hl & Hh)%reach_holds. pose proof Hwf as [_ _ _ _ Hseg _].
  split; [by exists bs|]. split.
  - apply (pairs_shrink _ _ Hh), (pairs_perm (live (heap s) bs)); [done|].
    by apply (live_pairwise _ _ _ _ _ Hseg).
  - apply Forall_forall. intros [p n] Hin.
    apply list_elem_of_lookup in Hin as [i Hi].
    destruct (Forall2_lookup_l _ _ _ _ _ Hh Hi) as ([q k] & Hq & [Heq Hn]). cbn in *. subst q.
    apply list_elem_of_lookup_2 in Hq. rewrite Hl in Hq.
    apply (live_range _ _ _ _ _ _ _ Hseg) in Hq. unfold HDR in *. lia.
Qed.
End reach.

Lemma heap_safety_witness :
  ∃ s p, reach (λ _, 0) s [(p, 100)] ∧
    (∃ bs, heap_wf s bs) ∧ ForallOrdPairs disjoint_alloc [(p, 100)] ∧
    Forall (λ x, heap s ≤ x.1 ∧ x.1 + x.2 ≤ heap s + heap_size s) [(p, 100)].
Proof.
  destruct (k_mem_heap_init (λ _, 0)) as [s0| | |] eqn:E; [|unfold k_mem_heap_init,
    mem_heap_init_block in E; rewrite (proj2 (Z.eqb_neq _ _)) in E by done; discriminate E..].
  pose proof (init_wf _ _ E) as Hwf.
  assert (Hh : heap s0 = HEAP_START ∧ heap_size s0 = HEAP_INITIAL_SIZE).
  { revert E. unfold k_mem_heap_init, mem_heap_init_block.
    rewrite (proj2 (Z.eqb_neq _ _)) by done. by intros <-%Ok_inj. }
  destruct Hh as [Hh Hs].
  assert (Hw : no_wrap s0 100) by (unfold no_wrap; rewrite Hh, Hs; vm_compute; done).
  assert (∃ fuel, enough fuel s0 ∧ (1 < fuel)%nat) as (fuel & Hf & Hf1).
  { exists (Z.to_nat HEAP_INITIAL_SIZE + 2)%nat. split; [|lia]. unfold enough. rewrite Hs.
    unfold HEAP_INITIAL_SIZE. lia. }
  destruct (malloc_layout (λ _, 0) s0 _ 100 fuel Hwf ltac:(lia) Hf1 Hw) as (s1 & Hm & _).
  do 2 eexists. assert (Hr : reach (λ _, 0) s1 [(heap s0 + span [] + HDR, 100)]).
  { eapply reach_malloc; [by apply reach_init|done|lia|done|done]. }
  split; [exact Hr|]. exact (heap_safety _ _ _ Hr).
Defined.

(** ** calloc, realloc, valloc *)

Section derived.
Context (junk : Z → Z).

Lemma malloc_mapped s bs size fuel p s' :
  heap_wf s bs → 0 < size → enough fuel s → no_wrap s size →
  malloc junk fuel s size = Ok (p, s') → mapped (data s') p size ∧ 0 < p ∧ p + size < 2 ^ 32.
Proof.
  intros Hwf Hsize Hf Hw Hm.
  destruct (malloc_inv junk s bs size fuel p s' Hwf Hsize Hf Hw Hm)
    as (bs1 & k & bs2 & Hwf' & Hk & Hh & -> & _).
  pose proof Hwf' as [_ Hlo _ Hhi Hseg Hd].
  assert (Hin : (heap s' + span bs1 + HDR, k) ∈ live (heap s') (bs1 ++ (k, false) :: bs2)).
  { rewrite live_middle. apply elem_of_app. right. left. }
  apply (live_range _ _ _ _ _ _ _ Hseg) in Hin. rewrite Hh in *. unfold HDR, HEAP_END in *.
  split; [|lia]. apply (mapped_sub _ _ _ _ _ Hd); lia.
Qed.

(** [calloc] returns what [malloc] returns for the product, with every byte of it
    cleared and nothing else changed. *)
Theorem calloc_zeroed s bs num size fuel p s1 :
  heap_wf s bs → 0 < num * size < 2 ^ 32 → enough fuel s → no_wrap s (num * size) →
  malloc junk fuel s (num * size) = Ok (p, s1) →
  ∃ s', calloc junk fuel s num size = Ok (p, s') ∧ hdrs s' = hdrs s1 ∧
    bytes_at (data s') p (replicate (Z.to_nat (num * size)) 0) ∧
    ∀ a, ¬ (p ≤ a < p + num * size) → data s' !! a = data s1 !! a.
Proof.
  intros Hwf Hsize Hf Hw Hm.
  destruct (malloc_mapped s bs (num * size) fuel p s1 Hwf (proj1 Hsize) Hf Hw Hm) as (Hmap & _).
  unfold calloc. rewrite (u32_small (num * size)) by lia. rewrite Hm, bind_ok. unfold memset.
  rewrite memset_loop_ok by (by rewrite Z2Nat.id by lia). rewrite bind_ok.
  eexists. split; [done|]. split; [done|]. cbn. split; [apply bytes_at_store_bytes|].
  intros a Ha. rewrite lookup_store_bytes, length_replicate, decide_False by lia. done.
Qed.

(** [realloc] of a live allocation to a different size moves it: the new memory
    starts with the old contents, cut to the smaller of the two sizes, and the old
    allocation is gone while all others stay; for the same size nothing happens. *)
Theorem realloc_moves s bs old n bytes size fuel p s1 :
  heap_wf s bs → (old, n) ∈ live (heap s) bs → bytes_at (data s) old bytes →
  Z.of_nat (length bytes) = n → n < 2 ^ 31 → 0 < size < 2 ^ 31 → enough fuel s →
  no_wrap s size → size ≠ n → malloc junk fuel s size = Ok (p, s1) → enough fuel s1 →
  realloc junk fuel s old n = Ok (old, s) ∧
  ∃ s' bs' k l1 l2, realloc junk fuel s old size = Ok (p, s') ∧ heap_wf s' bs' ∧ size ≤ k ∧
    bytes_at (data s') p (take (Z.to_nat size) bytes) ∧
    live (heap s) bs ≡ₚ (old, n) :: l1 ∧ live (heap s') bs' = l2 ∧ l2 ≡ₚ (p, k) :: l1.
Proof.
  intros Hwf Hold Hb Hlen Hn Hsize Hf Hw Hne Hm Hf1.
  pose proof (live_header s bs old n Hwf Hold) as Hhdr.
  destruct Hhdr as [nx Hhdr]. split.
  { unfold realloc, header. rewrite Hhdr. cbn. by rewrite Z.eqb_refl. }
  destruct (malloc_mapped s bs size fuel p s1 Hwf ltac:(lia) Hf Hw Hm) as (Hmap & Hp0 & Hp1).
  destruct (malloc_inv junk s bs size fuel p s1 Hwf ltac:(lia) Hf Hw Hm)
    as (bs1 & k & bs2 & Hwf1 & Hk & Hh1 & Hp & Hl & Hd).
  pose proof Hwf as [_ Hlo _ Hhi Hseg _]. pose proof (live_range _ _ _ _ _ _ _ Hseg Hold) as Hrg.
  assert (Hlive1 : live (heap s1) (bs1 ++ (k, false) :: bs2) ≡ₚ (p, k) :: live (heap s) bs).
  { rewrite Hl, Hh1, live_middle, Hp. by rewrite Permutation_middle. }
  assert (Hold1 : (old, n) ∈ live (heap s1) (bs1 ++ (k, false) :: bs2)).
  { rewrite Hlive1. by right. }
  pose proof (live_header s1 _ old n Hwf1 Hold1) as Hhdr1.
  destruct Hhdr1 as [nx' Hhdr1].
  unfold realloc, header. rewrite Hhdr. cbn [of_option]. rewrite bind_ok. cbn [mb_size].
  rewrite (proj2 (Z.eqb_neq _ _)) by lia. rewrite Hm, bind_ok, Hhdr1. cbn [of_option].
  rewrite bind_ok. cbn [mb_size].
  set (kept := take (Z.to_nat size) bytes).
  replace (if n <? size then n else size) with (Z.of_nat (length kept))
    by (subst kept; rewrite length_take; case_if; lia).
  assert (Hkb : bytes_at (data s1) old kept).
  { intros i b Hi. apply lookup_take_Some in Hi as [Hi _]. rewrite Hd; [by apply Hb|].
    apply lookup_lt_Some in Hi. unfold HDR in *. lia. }
  assert (Hkl : (length kept ≤ length bytes)%nat ∧ (length kept ≤ Z.to_nat size)%nat)
    by (subst kept; rewrite length_take; lia).
  unfold HEAP_END, HDR in *.
  rewrite (memmove_ok (data s1) p old kept); [|lia|lia|lia|done|
    apply (mapped_sub _ _ _ _ _ Hmap); lia].
  rewrite bind_ok. set (s2 := set_data s1 _).
  assert (Hwf2 : heap_wf s2 (bs1 ++ (k, false) :: bs2)).
  { destruct Hwf1 as [? ? ? ? ? Hd1]. split; try done. by apply mapped_store_bytes. }
  destruct (free_live s2 _ old n fuel Hwf2 Hf1 Hold1)
    as (s3 & bs3 & m1 & m2 & -> & Hwf3 & Hm1 & Hm2 & Hd3 & Hh3 & _). rewrite bind_ok.
  assert (Hperm : live (heap s) bs ++ [(p, k)] ≡ₚ (old, n) :: m1 ++ m2).
  { change (heap s2) with (heap s1) in Hm1. rewrite Hm1 in Hlive1.
    rewrite (Permutation_app_comm _ [(p, k)]). cbn [app]. rewrite <- Hlive1.
    by rewrite Permutation_middle. }
  apply list_elem_of_split in Hold as (q1 & q2 & Hq).
  exists s3, bs3, k, (q1 ++ q2), (m1 ++ m2). split; [done|]. split; [done|]. split; [done|].
  split; [rewrite Hd3; apply bytes_at_store_bytes|].
  split; [by rewrite Hq, Permutation_middle|]. split; [done|].
  apply (Permutation_cons_inv (a := (old, n))). rewrite <- Hperm, Hq.
  rewrite (Permutation_app_comm _ [(p, k)]). cbn [app].
  rewrite <- Permutation_middle. apply perm_swap.
Qed.
End derived.

Lemma calloc_zeroed_witness :
  ∃ p s1 s', malloc (λ _, 0) 100 demo_heap (3 * 4) = Ok (p, s1) ∧
    calloc (λ _, 0) 100 demo_heap 3 4 = Ok (p, s') ∧ bytes_at (data s') p (replicate 12 0).
Proof.
  destruct (malloc_layout (λ _, 0) demo_heap demo_layout 12 100 demo_wf ltac:(lia) ltac:(cbn; lia)
    ltac:(vm_compute; done)) as (s1 & Hm & _).
  destruct (calloc_zeroed (λ _, 0) demo_heap demo_layout 3 4 100 1034 s1 demo_wf)
    as (s' & Hc & _ & Hb & _); [lia|unfold enough; cbn; lia|vm_compute; done|exact Hm|].
  eexists _, s1, s'. split; [exact Hm|]. split; [exact Hc|exact Hb].
Defined.

Lemma realloc_moves_witness :
  ∃ s' bs' k, realloc (λ _, 0) 200 demo_heap 1083 20 = Ok (1034, s') ∧ heap_wf s' bs' ∧ 20 ≤ k ∧
    bytes_at (data s') 1034 (replicate 8 7).
Proof.
  destruct (malloc_layout (λ _, 0) demo_heap demo_layout 20 200 demo_wf ltac:(lia) ltac:(cbn; lia)
    ltac:(vm_compute; done)) as (s1 & Hm & _ & _ & _ & Hs).
  destruct (realloc_moves (λ _, 0) demo_heap demo_layout 1083 8 (replicate 8 7) 20 200 1034 s1
    demo_wf) as (_ & s' & bs' & k & l1 & l2 & Hr & Hwf & Hk & Hb & _).
  - vm_compute. right. left.
  - mem_check.
  - done.
  - lia.
  - lia.
  - unfold enough; cbn; lia.
  - vm_compute. done.
  - done.
  - exact Hm.
  - unfold enough. rewrite Hs. cbn. lia.
  - exists s', bs', k. split; [exact Hr|]. split; [exact Hwf|]. split; [exact Hk|exact Hb].
Defined.

(** Clearing the low bits rounds down to a power of two. *)
Lemma land_align x k :
  0 ≤ k → Z.land x (Z.lnot (2 ^ k - 1)) = 2 ^ k * (x / 2 ^ k).
Proof.
  intros Hk. replace (2 ^ k - 1) with (Z.ones k) by (rewrite Z.ones_equiv; lia).
  rewrite <- Z.ldiff_land, Z.ldiff_ones_r by done.
  rewrite Z.shiftl_mul_pow2, Z.shiftr_div_pow2 by done. lia.
Qed.

Section aligned.
Context (junk : Z → Z).

(** [valloc] returns memory aligned to any power of two and large enough, inside one
    fresh allocation, and [vfree] of it frees exactly that allocation. *)
Theorem valloc_vfree s bs size k fuel p1 s1 :
  let total := size + (2 ^ k - 1 + 4) in
  heap_wf s bs → 0 < size → 0 ≤ k → total < 2 ^ 31 → enough fuel s → no_wrap s total →
  malloc junk fuel s total = Ok (p1, s1) → enough fuel s1 →
  ∃ p2 s2 n bs1, valloc junk fuel s size (2 ^ k) = Ok (p2, s2) ∧ heap_wf s2 bs1 ∧
    p2 mod 2 ^ k = 0 ∧ (p1, n) ∈ live (heap s2) bs1 ∧ p1 + 4 ≤ p2 ∧ p2 + size ≤ p1 + n ∧
    vfree fuel s2 p2 = free fuel s2 p1 ∧
    ∃ s3 bs3, vfree fuel s2 p2 = Ok s3 ∧ heap_wf s3 bs3 ∧
      live (heap s3) bs3 ≡ₚ live (heap s) bs.
Proof.
  intros total Hwf Hsize Hk Htot Hf Hw Hm Hf1.
  assert (Hpow : 1 ≤ 2 ^ k) by (pose proof (Z.pow_pos_nonneg 2 k); lia).
  destruct (malloc_mapped junk s bs total fuel p1 s1 Hwf ltac:(lia) Hf Hw Hm) as (Hmap & Hp0 & Hp1).
  destruct (malloc_inv junk s bs total fuel p1 s1 Hwf ltac:(lia) Hf Hw Hm)
    as (bs1 & n & bs2 & Hwf1 & Hn & Hh1 & Hp & Hl & Hd).
  unfold valloc. rewrite (u32_small (size + (2 ^ k - 1 + 4))) by lia. fold total.
  rewrite Hm, bind_ok, (u32_small (p1 + _)), land_align by lia.
  set (p2 := 2 ^ k * _).
  assert (Hp2 : p1 + 4 ≤ p2 ≤ p1 + (2 ^ k - 1 + 4)).
  { pose proof (Z.div_mod (p1 + (2 ^ k - 1 + 4)) (2 ^ k) ltac:(lia)).
    pose proof (Z.mod_pos_bound (p1 + (2 ^ k - 1 + 4)) (2 ^ k) ltac:(lia)). lia. }
  rewrite store32_ok by (apply (mapped_sub _ _ _ _ _ Hmap); lia). rewrite bind_ok.
  set (s2 := set_data s1 _).
  assert (Hwf2 : heap_wf s2 (bs1 ++ (n, false) :: bs2)).
  { destruct Hwf1 as [? ? ? ? ? Hd1]. split; try done. by apply mapped_store_bytes. }
  assert (Hin : (p1, n) ∈ live (heap s2) (bs1 ++ (n, false) :: bs2)).
  { change (heap s2) with (heap s1). rewrite live_middle, Hh1, Hp. apply elem_of_app. right. left. }
  assert (Hv : vfree fuel s2 p2 = free fuel s2 p1).
  { unfold vfree. rewrite (load32_ok _ _ p1); [done|lia|apply bytes_at_store_bytes]. }
  exists p2, s2, n, (bs1 ++ (n, false) :: bs2). split; [done|]. split; [done|].
  split; [unfold p2; rewrite Z.mul_comm; apply Z.mod_mul; lia|]. split; [done|].
  split; [lia|]. split; [lia|]. split; [done|].
  destruct (free_live s2 _ p1 n fuel Hwf2 Hf1 Hin)
    as (s3 & bs3 & m1 & m2 & Hfr & Hwf3 & Hm1 & Hm2 & _).
  exists s3, bs3. split; [by rewrite Hv|]. split; [done|]. rewrite Hm2, Hl.
  apply (Permutation_cons_inv (a := (p1, n))). rewrite !Permutation_middle, <- Hm1.
  change (heap s2) with (heap s1). by rewrite live_middle, Hh1, Hp.
Qed.
End aligned.

Lemma valloc_vfree_witness :
  ∃ p2 s2 s3 bs3, valloc (λ _, 0) 200 demo_heap 8 (2 ^ 4) = Ok (p2, s2) ∧ p2 mod 2 ^ 4 = 0 ∧
    vfree 200 s2 p2 = Ok s3 ∧ heap_wf s3 bs3 ∧ live (heap s3) bs3 ≡ₚ [(1009, 16); (1083, 8)].
Proof.
  destruct (malloc_layout (λ _, 0) demo_heap demo_layout 27 200 demo_wf ltac:(lia) ltac:(cbn; lia)
    ltac:(vm_compute; done)) as (s1 & Hm & _ & _ & _ & Hs).
  destruct (valloc_vfree (λ _, 0) demo_heap demo_layout 8 4 200 1034 s1 demo_wf)
    as (p2 & s2 & n & bs1 & Hv & _ & Ha & _ & _ & _ & _ & s3 & bs3 & Hf & Hw & Hl).
  - lia.
  - lia.
  - lia.
  - unfold enough; cbn; lia.
  - vm_compute. done.
  - exact Hm.
  - unfold enough. rewrite Hs. cbn. lia.
  - exists p2, s2, s3, bs3. split; [exact Hv|]. split; [exact Ha|]. split; [exact Hf|].
    split; [exact Hw|exact Hl].
Defined.

(** A request for zero bytes breaks the chain.  On a heap whose first block is free,
    [malloc(0)] leaves a block of size 0 there, which no walk accepts as valid: the next
    request, whatever its size, finds no block at all, although everything behind it is
    free, and can only grow the heap. *)
Theorem malloc_zero_cuts_chain junk s sz bs fuel size :
  heap_wf s ((sz, true) :: bs) → HDR + 1 ≤ sz → (length bs < fuel)%nat →
  find_fit 0 ((sz, true) :: bs) = Some ([], sz, bs) →
  ∃ s1, malloc junk (S fuel) s 0 = Ok (heap s + HDR, s1) ∧
    mem_heap_is_valid_block s1 (heap s) = Ok false ∧
    malloc junk (S fuel) s1 size =
      ('(block, s2) ← malloc_grow junk s1 size (heap s); malloc_place s2 block size).
Proof.
  intros Hwf Hsz Hfuel Hff. pose proof Hwf as [_ Hlo Hsz0 Hhi Hseg _].
  pose proof (malloc_find_ok s _ Hwf 0 ltac:(lia) _ (heap s) (heap s) (S fuel) Hseg ltac:(lia)
    ltac:(cbn; lia) ltac:(done)) as Hfind.
  rewrite Hff in Hfind. destruct Hfind as [last Hfind]. cbn [span] in Hfind.
  rewrite Z.add_0_r in Hfind.
  pose proof (seg_valid s _ Hwf _ _ _ _ _ _ Hseg eq_refl ltac:(lia)) as Hv.
  apply seg_head in Hseg as (_ & nx & Hh & _ & _ & Hseg).
  pose proof (seg_end _ _ _ _ _ Hseg). pose proof (seg_span_nonneg _ _ _ _ _ Hseg).
  unfold HEAP_END, HDR in *. unfold malloc at 1. rewrite Hfind, bind_ok, Hv, !bind_ok.
  unfold malloc_place, header. rewrite Hh. cbn [of_option]. rewrite bind_ok. cbn [mb_size].
  rewrite (proj2 (Z.eqb_neq sz 0)) by lia. unfold mem_split_block. rewrite Hv, bind_ok.
  cbn [negb]. unfold header. rewrite Hh. cbn [of_option]. rewrite bind_ok. cbn [mb_size].
  rewrite (proj2 (Z.ltb_ge sz 0)) by lia. change (u32 (0 + HDR + 1)) with 10.
  rewrite (proj2 (Z.ltb_ge sz 10)) by lia. unfold mem_heap_init_block, M_MEMORY, HDR.
  rewrite (proj2 (Z.eqb_neq _ _)) by lia. rewrite bind_ok.
  rewrite (u32_small (heap s + 9)), (u32_small (heap s + 9 + 0)), Z.add_0_r by lia.
  cbn. rewrite !lookup_insert_eq. cbn. rewrite !lookup_insert_eq. cbn.
  eexists. split; [done|].
  set (s1 := mk_heap _ _ _ _ _ _).
  assert (Hv1 : mem_heap_is_valid_block s1 (heap s) = Ok false).
  { unfold mem_heap_is_valid_block, mem_heap_end, header. cbn. rewrite lookup_insert_eq. cbn.
    by case_if. }
  split; [done|]. unfold malloc. change (heap s1) with (heap s). cbn [malloc_find].
  rewrite Hv1, !bind_ok. cbn [negb]. rewrite bind_ok, Hv1, bind_ok. done.
Qed.

Lemma malloc_zero_cuts_chain_witness :
  ∃ s1, malloc (λ _, 0) 3 (mk_heap {[1000 := mk_block 60 1 0]} (mem_of 1000 (replicate 69 0)) 1000 69 0 0)
      0 = Ok (1009, s1) ∧ mem_heap_is_valid_block s1 1000 = Ok false ∧
    malloc (λ _, 0) 3 s1 4 =
      ('(block, s2) ← malloc_grow (λ _, 0) s1 4 1000; malloc_place s2 block 4).
Proof.
  apply (malloc_zero_cuts_chain (λ _, 0)
    (mk_heap {[1000 := mk_block 60 1 0]} (mem_of 1000 (replicate 69 0)) 1000 69 0 0) 60 [] 2 4);
    [|unfold HDR; lia|cbn; lia|done].
  split; [done|cbn; lia|cbn; lia|vm_compute; done|by repeat split|].
  change (heap_size _) with (Z.of_nat 69). apply mapped_check_ok. by vm_compute.
Defined.
