(* ===== verification/Paging.v ===== *)
(** * kernel/src/mem/paging.c and memory.c: address spaces

    The state is the current page directory, the page tables it refers to and the frame
    allocator of Pmm.v.  The kernel reaches the tables through the recursive last entry
    of the directory: [PT_PTR(i)] is the table of entry [i], and that of entry 1023 is
    the directory itself.  Access to the table of an entry that is not present, or of a
    4 MiB page, is a [Fault].  The translation look-aside buffer is not modelled: every
    change is followed by [invlpg] in the code. *)

From S2P Require Import Prelude Pmm.

Record space := mk_space {
  sp_pd : list Z; (* raw directory entries *)
  sp_tables : gmap Z (list Z); (* raw tables, by page number *)
  sp_pmm : pmm
}.

Definition PAGE_PRESENT : Z := 1.
Definition PAGE_WRITABLE : Z := 2.
Definition PAGE_USER : Z := 4.
Definition PAGE_SIZE_BIT : Z := 128.

Definition PDE (addr : Z) : Z := Z.shiftr addr 22.
Definition PTE (addr : Z) : Z := Z.land (Z.shiftr addr 12) 0x03FF.
Definition PAGE_ADDRESS (page : Z) : Z := u32 (Z.shiftl page 12).

(** The bit fields of an entry. *)
Definition entry_present (raw : Z) : bool := truthy (Z.land raw PAGE_PRESENT).
Definition entry_size (raw : Z) : bool := truthy (Z.land raw PAGE_SIZE_BIT).
Definition entry_page (raw : Z) : Z := Z.shiftr raw 12.

Definition pde_at (s : space) (i : Z) : res Z := of_option (sp_pd s !! Z.to_nat i).

(** [PT_PTR(i)[j]] *)
Definition read_pt (s : space) (i j : Z) : res Z :=
  if i =? 1023 then of_option (sp_pd s !! Z.to_nat j) else
  pde ← pde_at s i;
  if entry_present pde && negb (entry_size pde) then
    tbl ← of_option (sp_tables s !! entry_page pde);
    of_option (tbl !! Z.to_nat j)
  else Fault.

Definition set_pd (s : space) (pd : list Z) : space := mk_space pd (sp_tables s) (sp_pmm s).
Definition set_tables (s : space) (t : gmap Z (list Z)) : space := mk_space (sp_pd s) t (sp_pmm s).
Definition set_pmm (s : space) (p : pmm) : space := mk_space (sp_pd s) (sp_tables s) p.

(** [PT_PTR(i)[j].raw = raw] *)
Definition write_pt (s : space) (i j raw : Z) : res space :=
  if i =? 1023 then
    if j <? Z.of_nat (length (sp_pd s)) then Ok (set_pd s (<[Z.to_nat j := raw]> (sp_pd s)))
    else Fault
  else
  pde ← pde_at s i;
  if entry_present pde && negb (entry_size pde) then
    tbl ← of_option (sp_tables s !! entry_page pde);
    if j <? Z.of_nat (length tbl) then
      Ok (set_tables s (<[entry_page pde := <[Z.to_nat j := raw]> tbl]> (sp_tables s)))
    else Fault
  else Fault.

Definition k_mem_paging_virt2phys (s : space) (vaddr : Z) : res Z :=
  let pd_index := u16 (PDE vaddr) in
  pde ← pde_at s pd_index;
  if negb (entry_present pde) then Ok 0
  else if entry_size pde then
    Ok (u32 (Z.lor (u32 (Z.shiftl (Z.land pde 0xffc00000) 8)) (Z.land pde 0x1fe000)
             + Z.land (vaddr mod 0x400000) 0xfffff000 + vaddr mod 0x1000))
  else
    pte ← read_pt s pd_index (PTE vaddr);
    Ok (if entry_present pte then u32 (PAGE_ADDRESS (entry_page pte) + vaddr mod 0x1000) else 0).

Definition k_mem_paging_unmap (s : space) (vaddr : Z) : res space :=
  let pd_index := PDE vaddr in
  pde ← pde_at s pd_index;
  if negb (entry_present pde) then Ok s
  else write_pt s pd_index (PTE vaddr) 0.

Definition k_mem_paging_unmap_and_free (s : space) (vaddr : Z) : res space :=
  let pd_index := PDE vaddr in
  pde ← pde_at s pd_index;
  if negb (entry_present pde) then Ok s
  else
    pte ← read_pt s pd_index (PTE vaddr);
    let frame := u32 (entry_page pte * 0x1000) in
    s1 ← write_pt s pd_index (PTE vaddr) 0;
    if truthy frame then
      p ← k_mem_pmm_free (sp_pmm s1) frame 1;
      Ok (set_pmm s1 p)
    else Ok s1.

Definition alloc_frame (s : space) : res (Z * space) :=
  '(frame, p) ← k_mem_pmm_alloc_frames (sp_pmm s) 1;
  Ok (frame, set_pmm s p).

(** The missing page table is allocated, entered in the directory and cleared. *)
Definition ensure_table (s : space) (pd_index flags : Z) : res space :=
  pde ← pde_at s pd_index;
  if entry_present pde then Ok s
  else
    '(frame, s1) ← alloc_frame s;
    if frame =? 0 then Panic else
    let fl := Z.lor (Z.lor PAGE_PRESENT PAGE_WRITABLE)
                (if truthy (Z.land flags PAGE_USER) then PAGE_USER else 0) in
    let raw := u32 (Z.lor frame fl) in
    Ok (mk_space (<[Z.to_nat pd_index := raw]> (sp_pd s1))
          (<[entry_page raw := replicate 1024 0]> (sp_tables s1)) (sp_pmm s1)).

(** Mapping a page that is mapped already is a kernel panic. *)
Definition k_mem_paging_map (s : space) (vaddr paddr flags0 : Z) : res space :=
  let flags := if truthy flags0 then flags0 else Z.lor PAGE_PRESENT PAGE_WRITABLE in
  let pd_index := PDE vaddr in
  let pt_index := PTE vaddr in
  s1 ← ensure_table s pd_index flags;
  pte ← read_pt s1 pd_index pt_index;
  if entry_present pte then Panic else
  '(p, s2) ← (if truthy paddr then Ok (paddr, s1) else alloc_frame s1);
  write_pt s2 pd_index pt_index (Z.lor p flags).

(** [if(!is_allocated(frame)) set_allocated(frame)] *)
Definition claim_frame (s : space) (frame : Z) : res space :=
  if k_mem_pmm_is_allocated (sp_pmm s) frame then Ok s
  else p ← k_mem_pmm_set_allocated (sp_pmm s) frame; Ok (set_pmm s p).

Fixpoint map_contigous (s : space) (vaddr frame flags i : Z) (n : nat) : res space :=
  match n with
  | O => Ok s
  | S n' =>
      let f := u32 (frame + 0x1000 * i) in
      s1 ← claim_frame s f;
      s2 ← k_mem_paging_map s1 (u32 (vaddr + 0x1000 * i)) f flags;
      map_contigous s2 vaddr frame flags (i + 1) n'
  end.

Fixpoint map_scattered (s : space) (vaddr paddr flags i : Z) (n : nat) : res space :=
  match n with
  | O => Ok s
  | S n' =>
      '(frame, s1) ← (if truthy paddr then Ok (u32 (paddr + 0x1000 * i), s) else alloc_frame s);
      s2 ← claim_frame s1 frame;
      s3 ← k_mem_paging_map s2 (u32 (vaddr + 0x1000 * i)) frame flags;
      map_scattered s3 vaddr paddr flags (i + 1) n'
  end.

Definition k_mem_paging_map_region (s : space) (vaddr paddr size flags : Z) (contigous : bool)
    : res space :=
  if contigous then
    '(frame, s1) ←
      (if truthy paddr then Ok (paddr, s) else
         '(f, p) ← k_mem_pmm_alloc_frames (sp_pmm s) size; Ok (u32 f, set_pmm s p));
    map_contigous s1 vaddr frame flags 0 (Z.to_nat size)
  else map_scattered s vaddr paddr flags 0 (Z.to_nat size).

Fixpoint unmap_pages (s : space) (vaddr i : Z) (n : nat) : res space :=
  match n with
  | O => Ok s
  | S n' => s1 ← k_mem_paging_unmap s (u32 (vaddr + i * 0x1000)); unmap_pages s1 vaddr (i + 1) n'
  end.

Definition k_mem_paging_unmap_region (s : space) (vaddr size : Z) : res space :=
  unmap_pages s vaddr 0 (Z.to_nat size).

Fixpoint unmap_free_pages (s : space) (vaddr i : Z) (n : nat) : res space :=
  match n with
  | O => Ok s
  | S n' =>
      s1 ← k_mem_paging_unmap_and_free s (u32 (vaddr + i * 0x1000));
      unmap_free_pages s1 vaddr (i + 1) n'
  end.

Definition k_mem_paging_unmap_and_free_region (s : space) (vaddr size : Z) : res space :=
  unmap_free_pages s vaddr 0 (Z.to_nat size).

(** ** memory.c: mapping physical frames for the kernel's own use *)

Definition LOWMEM_START : Z := 0xC1000000.
Definition LOWMEM_END : Z := 0xF7000000.

(** The [for] of [k_map]: the first of the [n] pages from [start] that is mapped. *)
Fixpoint first_mapped (s : space) (start offset i : Z) (n : nat) : res (option Z) :=
  match n with
  | O => Ok None
  | S n' =>
      p ← k_mem_paging_virt2phys s (u32 (start + u32 (i + offset) * 0x1000));
      if truthy p then Ok (Some i) else first_mapped s start offset (i + 1) n'
  end.

(** [while(k_mem_paging_virt2phys(start_addr + (i + offset) * 0x1000)) i++;] *)
Fixpoint skip_mapped (fuel : nat) (s : space) (start offset i : Z) : res Z :=
  match fuel with
  | O => OutOfFuel
  | S f =>
      p ← k_mem_paging_virt2phys s (u32 (start + u32 (i + offset) * 0x1000));
      if truthy p then skip_mapped f s start offset (u32 (i + 1)) else Ok i
  end.

(** The search loop: the offset at which it stops. *)
Fixpoint k_map_search (fuel : nat) (s : space) (start offset size : Z) : res Z :=
  match fuel with
  | O => OutOfFuel
  | S f =>
      hit ← first_mapped s start offset 0 (Z.to_nat size);
      match hit with
      | None => Ok offset
      | Some i =>
          i' ← skip_mapped f s start offset i;
          if LOWMEM_END <=? u32 (start + i' * 0x1000) then Ok i'
          else k_map_search f s start i' size
      end
  end.

(** The second component of the state is [first_free_address]. *)
Definition k_map (fuel : nat) (s : space) (first_free frame size flags : Z)
    : res (Z * space * Z) :=
  offset ← k_map_search fuel s first_free 0 size;
  if LOWMEM_END <? u32 (first_free + u32 (offset + size) * 0x1000) then Panic else
  let start := u32 (first_free + 0x1000 * offset) in
  s' ← k_mem_paging_map_region s start frame size flags true;
  Ok (start, s', u32 (start + size * 0x1000)).

Definition k_unmap (s : space) (first_free addr size : Z) : res (space * Z) :=
  if (LOWMEM_START <=? addr) && (u32 (addr + size * 0x1000) <=? LOWMEM_END) then
    s' ← k_mem_paging_unmap_region s addr size;
    Ok (s', if addr <? first_free then addr else first_free)
  else Ok (s, first_free).

(** ** Entries *)

#[local] Ltac Zify.zify_post_hook ::= Z.div_mod_to_equations.

Section entries.
Implicit Types k f raw v : Z.

Lemma lor_page k f : 0 ≤ f < 0x1000 → Z.lor (0x1000 * k) f = 0x1000 * k + f.
Proof.
  intros Hf. assert (Hl : Z.land (0x1000 * k) f = 0).
  { apply Z.bits_inj'. intros n Hn. rewrite Z.land_spec, Z.bits_0.
    replace (0x1000 * k) with (k * 2 ^ 12) by lia. destruct (Z.lt_ge_cases n 12).
    - by rewrite Z.mul_pow2_bits_low.
    - by rewrite (testbit_high f 12), andb_false_r by lia. }
  rewrite <- Z.lxor_lor by done. symmetry. by apply Z.add_nocarry_lxor.
Qed.

Lemma entry_page_eq k f : 0 ≤ f < 0x1000 → entry_page (0x1000 * k + f) = k.
Proof. intros. unfold entry_page. rewrite Z.shiftr_div_pow2 by lia. lia. Qed.

Lemma entry_present_eq raw : entry_present raw = Z.odd raw.
Proof.
  unfold entry_present, PAGE_PRESENT. change 1 with (Z.ones 1).
  rewrite Z.land_ones by lia. change (2 ^ 1) with 2. rewrite Zmod_odd. by destruct (Z.odd raw).
Qed.

Lemma entry_size_eq raw : entry_size raw = Z.testbit raw 7.
Proof.
  unfold entry_size, PAGE_SIZE_BIT. change 128 with (Z.shiftl 1 7). by apply truthy_land_bit.
Qed.

Lemma PDE_eq v : PDE v = v / 0x400000.
Proof. unfold PDE. by rewrite Z.shiftr_div_pow2 by lia. Qed.

Lemma PTE_eq v : PTE v = (v / 0x1000) mod 1024.
Proof.
  unfold PTE. rewrite Z.shiftr_div_pow2 by lia. change 0x3FF with (Z.ones 10).
  by rewrite Z.land_ones by lia.
Qed.

(** Directory and table index name a page. *)
Lemma page_indices v x : 0 ≤ v → 0 ≤ x → PDE v = PDE x → PTE v = PTE x → v / 0x1000 = x / 0x1000.
Proof. rewrite !PDE_eq, !PTE_eq. lia. Qed.

Lemma PDE_range v : 0 ≤ v < 0xFFC00000 → 0 ≤ PDE v < 1023.
Proof. rewrite PDE_eq. lia. Qed.

Lemma PTE_range v : 0 ≤ v → 0 ≤ PTE v < 1024.
Proof. rewrite PTE_eq. lia. Qed.
End entries.

(** ** The invariant *)

(** A directory entry that refers to a page table. *)
Definition table_pde (pde : Z) : bool := entry_present pde && negb (entry_size pde).

Definition word (w : Z) : Prop := 0 ≤ w < 2 ^ 32.

Record space_wf (s : space) : Prop := {
  sw_len : length (sp_pd s) = 1024%nat;
  sw_words : Forall word (sp_pd s);
  sw_pmm : pmm_wf (sp_pmm s);
  sw_table : ∀ i pde, 0 ≤ i < 1023 → sp_pd s !! Z.to_nat i = Some pde → table_pde pde = true →
    frame_free (sp_pmm s) (entry_page pde) = false ∧
    ∃ tbl, sp_tables s !! entry_page pde = Some tbl ∧ length tbl = 1024%nat ∧ Forall word tbl;
  sw_distinct : ∀ i j pi pj, 0 ≤ i < 1023 → 0 ≤ j < 1023 → i ≠ j →
    sp_pd s !! Z.to_nat i = Some pi → sp_pd s !! Z.to_nat j = Some pj →
    table_pde pi = true → table_pde pj = true → entry_page pi ≠ entry_page pj
}.

(** The table entry for directory index [i] and table index [j]; 0 if there is none. *)
Definition pte (s : space) (i j : Z) : Z :=
  match sp_pd s !! Z.to_nat i with
  | Some pde =>
      if table_pde pde
      then default 0 (default [] (sp_tables s !! entry_page pde) !! Z.to_nat j) else 0
  | None => 0
  end.

Section space.
Implicit Types s : space.

Lemma pde_get s i : space_wf s → 0 ≤ i < 1024 → ∃ pde, sp_pd s !! Z.to_nat i = Some pde ∧ word pde.
Proof.
  intros [Hl Hw _ _ _] Hi. destruct (lookup_lt_is_Some_1' (sp_pd s) (Z.to_nat i)) as [pde Hp]; [lia|].
  exists pde. split; [done|]. by apply (proj1 (Forall_lookup _ _) Hw _ _ Hp).
Qed.

Lemma read_pt_ok s i j pde :
  space_wf s → 0 ≤ i < 1023 → 0 ≤ j < 1024 → sp_pd s !! Z.to_nat i = Some pde →
  table_pde pde = true → read_pt s i j = Ok (pte s i j) ∧ word (pte s i j).
Proof.
  intros Hwf Hi Hj Hp Ht. destruct (sw_table s Hwf i pde Hi Hp Ht) as (_ & tbl & Htbl & Hl & Hw).
  unfold read_pt, pte, pde_at. rewrite (proj2 (Z.eqb_neq i 1023)) by lia. rewrite Hp. cbn [of_option].
  rewrite bind_ok, Ht. unfold table_pde in Ht. rewrite Ht, Htbl. cbn.
  destruct (lookup_lt_is_Some_1' tbl (Z.to_nat j)) as [x Hx]; [lia|]. rewrite Hx. cbn.
  split; [done|]. by apply (proj1 (Forall_lookup _ _) Hw _ _ Hx).
Qed.

Lemma write_pt_ok s i j raw pde :
  space_wf s → 0 ≤ i < 1023 → 0 ≤ j < 1024 → sp_pd s !! Z.to_nat i = Some pde →
  table_pde pde = true → word raw →
  ∃ s', write_pt s i j raw = Ok s' ∧ space_wf s' ∧ sp_pd s' = sp_pd s ∧ sp_pmm s' = sp_pmm s ∧
    ∀ i' j', 0 ≤ i' < 1023 → 0 ≤ j' < 1024 →
      pte s' i' j' = if (i =? i') && (j =? j') then raw else pte s i' j'.
Proof.
  intros Hwf Hi Hj Hp Ht Hraw.
  destruct (sw_table s Hwf i pde Hi Hp Ht) as (Hfree & tbl & Htbl & Hl & Hw).
  unfold write_pt, pde_at. rewrite (proj2 (Z.eqb_neq i 1023)) by lia. rewrite Hp. cbn [of_option].
  rewrite bind_ok. unfold table_pde in Ht. rewrite Ht. fold (table_pde pde) in Ht.
  rewrite Htbl. cbn [of_option]. rewrite bind_ok.
  rewrite (proj2 (Z.ltb_lt _ _)) by lia. eexists. split; [done|]. split; [|split; [done|split; [done|]]].
  - destruct Hwf as [H1 H2 H3 H4 H5]. split; try done. cbn.
    intros i' pde' Hi' Hp' Ht'. destruct (H4 i' pde' Hi' Hp' Ht') as (Hf' & tbl' & Htbl' & Hl' & Hw').
    split; [done|]. destruct (decide (entry_page pde = entry_page pde')) as [He|He].
    + rewrite <- He, lookup_insert_eq. eexists. split; [done|]. rewrite length_insert.
      split; [done|]. by apply Forall_insert.
    + rewrite lookup_insert_ne by done. by exists tbl'.
  - intros i' j' Hi' Hj'. unfold pte. cbn. destruct (pde_get s i' Hwf ltac:(lia)) as (pde' & Hp' & _).
    rewrite Hp'. destruct (Z.eqb_spec i i') as [<-|Hne]; cbn [andb].
    + rewrite Hp in Hp'. injection Hp' as <-. rewrite Ht, lookup_insert_eq, Htbl. cbn.
      destruct (Z.eqb_spec j j') as [<-|Hnj].
      * by rewrite list_lookup_insert_eq by lia.
      * by rewrite list_lookup_insert_ne by lia.
    + destruct (table_pde pde') eqn:Ht'; [|done].
      rewrite lookup_insert_ne; [done|]. apply (sw_distinct s Hwf i i'); done.
Qed.

(** What [k_mem_paging_virt2phys] computes, in terms of the entries. *)
Lemma virt2phys_pte s v pde :
  space_wf s → 0 ≤ v < 0xFFC00000 → sp_pd s !! Z.to_nat (PDE v) = Some pde →
  entry_size pde = false ∨ entry_present pde = false →
  k_mem_paging_virt2phys s v = Ok (
    let raw := pte s (PDE v) (PTE v) in
    if entry_present raw then 0x1000 * entry_page raw + v mod 0x1000 else 0).
Proof.
  intros Hwf Hv Hp Hsm. pose proof (PDE_range v Hv). pose proof (PTE_range v ltac:(lia)).
  unfold k_mem_paging_virt2phys, u16. rewrite (Z.mod_small (PDE v)) by lia. unfold pde_at. rewrite Hp.
  cbn [of_option]. rewrite bind_ok. destruct (entry_present pde) eqn:Hpr; cbn [negb].
  2:{ cbn zeta. unfold pte. rewrite Hp. unfold table_pde. by rewrite Hpr. }
  destruct Hsm as [Hsm|]; [|done]. rewrite Hsm.
  assert (Ht : table_pde pde = true) by (unfold table_pde; by rewrite Hpr, Hsm).
  destruct (read_pt_ok s (PDE v) (PTE v) pde) as [-> Hw]; try done. rewrite bind_ok. cbn zeta.
  case_if; [|done]. unfold PAGE_ADDRESS, entry_page, word in *. rewrite Z.shiftl_mul_pow2 by lia.
  set (raw := pte s (PDE v) (PTE v)) in *. rewrite (Z.shiftr_div_pow2 raw 12) by lia.
  change (2 ^ 12) with 0x1000. f_equal. rewrite (u32_small (raw / 0x1000 * 0x1000)) by lia.
  rewrite u32_small by lia. lia.
Qed.
End space.

(** ** Mapping *)

Lemma alloc_one_ok p :
  pmm_wf p →
  match k_mem_pmm_alloc_frames p 1 with
  | Ok (frame, p') =>
      ∃ k, frame = 0x1000 * k ∧ 0 ≤ k < 2 ^ 20 ∧ frame_free p k = true ∧
        (∀ x, x < k → frame_free p x = false) ∧ pmm_wf p' ∧
        ∀ x, frame_free p' x = (negb (k =? x) && frame_free p x)
  | Panic => ∀ x, frame_free p x = false
  | _ => False
  end.
Proof.
  intros Hwf. pose proof (pmm_alloc_spec p 1 Hwf ltac:(lia)) as H.
  assert (Hone : ∀ x, free_run p x 1 ↔ frame_free p x = true).
  { intros x. split; [intros Hr; apply Hr; lia|]. intros Hx y Hy. by replace y with x by lia. }
  destruct (k_mem_pmm_alloc_frames p 1) as [[frame p']| | |]; try done.
  - destruct H as (k & -> & _ & Hrun & Hleast & Hwf' & _ & _ & Hff). apply Hone in Hrun as Hk.
    pose proof (frame_free_bounds _ _ Hk). pose proof (wf_size _ Hwf).
    exists k. split; [done|]. split; [lia|]. split; [done|]. split.
    { intros x Hx. specialize (Hleast x Hx). rewrite Hone in Hleast. by destruct (frame_free p x). }
    split; [done|]. intros x. rewrite Hff. do 2 f_equal.
    apply eq_true_iff_eq. rewrite in_run_true, Z.eqb_eq. lia.
  - destruct H as [|H]; [done|]. intros x. specialize (H x). rewrite Hone in H.
    by destruct (frame_free p x).
Qed.

Lemma table_entry k fl :
  fl = 3 ∨ fl = 7 → let raw := 0x1000 * k + fl in
  table_pde raw = true ∧ entry_page raw = k.
Proof.
  intros Hfl raw. split; [|apply entry_page_eq; lia].
  unfold table_pde. rewrite entry_present_eq, entry_size_eq. apply andb_true_iff. split.
  - subst raw. rewrite Z.odd_add, Z.odd_mul. by destruct Hfl as [-> | ->].
  - subst raw. rewrite <- lor_page, Z.lor_spec by lia.
    replace (0x1000 * k) with (k * 2 ^ 12) by lia. rewrite Z.mul_pow2_bits_low by lia.
    by destruct Hfl as [-> | ->].
Qed.

Definition small_pde (pde : Z) : Prop := entry_size pde = false ∨ entry_present pde = false.

Lemma ensure_table_ok s i flags pde :
  space_wf s → 0 ≤ i < 1023 → sp_pd s !! Z.to_nat i = Some pde → small_pde pde →
  match ensure_table s i flags with
  | Ok s1 =>
      space_wf s1 ∧ (∃ pde1, sp_pd s1 !! Z.to_nat i = Some pde1 ∧ table_pde pde1 = true) ∧
      (∀ i', 0 ≤ i' → i' ≠ i → sp_pd s1 !! Z.to_nat i' = sp_pd s !! Z.to_nat i') ∧
      (∀ i' j', 0 ≤ i' < 1023 → 0 ≤ j' < 1024 → pte s1 i' j' = pte s i' j') ∧
      (∀ x, frame_free (sp_pmm s1) x = true → frame_free (sp_pmm s) x = true) ∧
      bitmap_size (sp_pmm s1) = bitmap_size (sp_pmm s)
  | Panic => entry_present pde = false ∧
      (frame_free (sp_pmm s) 0 = true ∨ ∀ x, frame_free (sp_pmm s) x = false)
  | _ => False
  end.
Proof.
  intros Hwf Hi Hp Hsm. unfold ensure_table, pde_at. rewrite Hp. cbn [of_option]. rewrite bind_ok.
  destruct (entry_present pde) eqn:Hpr.
  { split; [done|]. split; [|done]. exists pde. split; [done|]. unfold table_pde.
    destruct Hsm as [Hs|]; [by rewrite Hpr, Hs|congruence]. }
  pose proof Hwf as [Hlen Hwords Hpmm Htab Hdist]. unfold alloc_frame.
  pose proof (alloc_one_ok _ Hpmm) as Ha. pose proof (pmm_alloc_spec (sp_pmm s) 1 Hpmm ltac:(lia)) as Hb.
  destruct (k_mem_pmm_alloc_frames (sp_pmm s) 1) as [[frame p']| | |]; try done.
  2:{ cbn. split; [done|]. by right. }
  destruct Ha as (k & -> & Hk & Hfk & _ & Hpmm' & Hff). destruct Hb as (_ & _ & _ & _ & _ & _ & Hbs & _).
  rewrite !bind_ok. destruct (Z.eqb_spec (0x1000 * k) 0) as [Hz|Hz].
  { split; [done|]. left. by replace 0 with k by lia. }
  set (fl := Z.lor (Z.lor _ _) _).
  assert (Hfl : fl = 3 ∨ fl = 7) by (subst fl; destruct (truthy _); [by right|by left]).
  rewrite lor_page, u32_small by lia. destruct (table_entry k fl Hfl) as [Ht He]. rewrite He.
  assert (∃ zeros, replicate 1024 0 = zeros ∧ length zeros = 1024%nat ∧ Forall word zeros ∧
    ∀ j, (j < 1024)%nat → zeros !! j = Some 0) as (zeros & Hzeros & Hzlen & Hzw & Hz0).
  { eexists. split; [done|]. rewrite length_replicate. split; [done|]. split.
    - apply Forall_replicate. unfold word. lia.
    - intros. by rewrite lookup_replicate_2. }
  rewrite Hzeros. clear Hzeros.
  set (raw := 0x1000 * k + fl) in *. set (s1 := mk_space _ _ _).
  assert (Hlt : (Z.to_nat i < length (sp_pd s))%nat) by lia.
  assert (Hself : sp_pd s1 !! Z.to_nat i = Some raw) by (cbn; by rewrite list_lookup_insert_eq).
  assert (Hother : ∀ i', 0 ≤ i' → i' ≠ i → sp_pd s1 !! Z.to_nat i' = sp_pd s !! Z.to_nat i').
  { intros i' ? ?. cbn. rewrite list_lookup_insert_ne by lia. done. }
  assert (Hpages : ∀ i' pde', 0 ≤ i' < 1023 → sp_pd s !! Z.to_nat i' = Some pde' →
    table_pde pde' = true → k ≠ entry_page pde').
  { intros i' pde' Hi' Hp' Ht' ->. destruct (Htab i' pde' Hi' Hp' Ht') as [Hx _]. congruence. }
  split; [split|].
  - cbn. by rewrite length_insert.
  - cbn. apply Forall_insert; [done|]. unfold word. subst raw. lia.
  - done.
  - intros i' pde' Hi' Hp' Ht'. destruct (decide (i' = i)) as [->|Hne].
    + rewrite Hself in Hp'. injection Hp' as <-. rewrite He.
      cbn. rewrite Hff, Z.eqb_refl. split; [done|]. rewrite lookup_insert_eq. by exists zeros.
    + rewrite Hother in Hp' by lia. destruct (Htab i' pde' Hi' Hp' Ht') as (Hf' & tbl & Htb & Hl).
      cbn. rewrite Hff, Hf', andb_false_r. split; [done|].
      rewrite lookup_insert_ne by (by apply (Hpages i')). by exists tbl.
  - intros a b pa pb Ha' Hb' Hab Hpa Hpb Hta Htb.
    destruct (decide (a = i)) as [->|Hna], (decide (b = i)) as [->|Hnb]; [done|..].
    + rewrite Hself in Hpa. injection Hpa as <-. rewrite Hother in Hpb by lia. rewrite He.
      by apply (Hpages b).
    + rewrite Hself in Hpb. injection Hpb as <-. rewrite Hother in Hpa by lia. rewrite He.
      intros Heq. by apply (Hpages a pa).
    + rewrite Hother in Hpa, Hpb by lia. by apply (Hdist a b).
  - split; [by exists raw|]. split; [done|]. split.
    + intros i' j' Hi' Hj'. unfold pte. destruct (decide (i' = i)) as [->|Hne].
      * rewrite Hself, Ht, He, Hp. cbn. rewrite lookup_insert_eq. cbn.
        unfold table_pde. rewrite Hpr. cbn. by rewrite Hz0 by lia.
      * rewrite Hother by lia. destruct (sp_pd s !! Z.to_nat i') as [pde'|] eqn:Hp'; [|done].
        destruct (table_pde pde') eqn:Ht'; [|done]. cbn.
        rewrite lookup_insert_ne by (by apply (Hpages i')). done.
    + split; [|exact Hbs]. cbn. intros x Hx. rewrite Hff in Hx. by apply andb_true_iff in Hx as [_ Hx].
Qed.

Definition map_flags (flags0 : Z) : Z :=
  if truthy flags0 then flags0 else Z.lor PAGE_PRESENT PAGE_WRITABLE.

Lemma map_flags_range flags : 0 ≤ flags < 256 → 0 ≤ map_flags flags < 256.
Proof.
  unfold map_flags. change (Z.lor PAGE_PRESENT PAGE_WRITABLE) with 3. destruct (truthy flags); lia.
Qed.

Lemma map_ok s v k flags pde :
  space_wf s → 0 ≤ v < 0xFFC00000 → 0 < k < 2 ^ 20 → 0 ≤ flags < 256 →
  sp_pd s !! Z.to_nat (PDE v) = Some pde → small_pde pde →
  match k_mem_paging_map s v (0x1000 * k) flags with
  | Ok s' =>
      space_wf s' ∧ entry_present (pte s (PDE v) (PTE v)) = false ∧
      (∃ pde', sp_pd s' !! Z.to_nat (PDE v) = Some pde' ∧ table_pde pde' = true) ∧
      (∀ i, 0 ≤ i → i ≠ PDE v → sp_pd s' !! Z.to_nat i = sp_pd s !! Z.to_nat i) ∧
      (∀ i j, 0 ≤ i < 1023 → 0 ≤ j < 1024 → pte s' i j =
        if (PDE v =? i) && (PTE v =? j) then 0x1000 * k + map_flags flags else pte s i j) ∧
      (∀ x, frame_free (sp_pmm s') x = true → frame_free (sp_pmm s) x = true) ∧
      bitmap_size (sp_pmm s') = bitmap_size (sp_pmm s)
  | Panic => entry_present (pte s (PDE v) (PTE v)) = true ∨ entry_present pde = false ∧
      (frame_free (sp_pmm s) 0 = true ∨ ∀ x, frame_free (sp_pmm s) x = false)
  | _ => False
  end.
Proof.
  intros Hwf Hv Hk Hfl Hp Hsm. pose proof (PDE_range v Hv) as Hi. pose proof (PTE_range v ltac:(lia)) as Hj.
  unfold k_mem_paging_map. fold (map_flags flags).
  pose proof (ensure_table_ok s (PDE v) (map_flags flags) pde Hwf Hi Hp Hsm) as He.
  destruct (ensure_table s (PDE v) (map_flags flags)) as [s1| | |];
    [|right; exact He|destruct He|destruct He].
  destruct He as (Hwf1 & (pde1 & Hp1 & Ht1) & Hother & Hpte & Hfr & Hbs). rewrite bind_ok.
  destruct (read_pt_ok s1 (PDE v) (PTE v) pde1 Hwf1 Hi Hj Hp1 Ht1) as [-> Hw]. rewrite bind_ok.
  rewrite Hpte in * by done. destruct (entry_present (pte s (PDE v) (PTE v))) eqn:Hpr; [by left|].
  rewrite (proj2 (truthy_true _)) by lia. rewrite bind_ok.
  assert (Hmf : 0 ≤ map_flags flags < 256) by (apply map_flags_range; lia).
  rewrite lor_page by lia.
  destruct (write_pt_ok s1 (PDE v) (PTE v) (0x1000 * k + map_flags flags) pde1)
    as (s' & -> & Hwf' & Hpd' & Hpm' & Hpte'); try done; [unfold word; lia|].
  split; [done|]. split; [done|]. split; [exists pde1; by rewrite Hpd'|].
  split; [intros; rewrite Hpd'; by apply Hother|]. split.
  - intros i j Hi' Hj'. rewrite Hpte' by done. by rewrite Hpte by done.
  - by rewrite Hpm'.
Qed.

Lemma virt2phys_ext s s' x :
  space_wf s → space_wf s' → 0 ≤ x < 0xFFC00000 →
  sp_pd s' !! Z.to_nat (PDE x) = sp_pd s !! Z.to_nat (PDE x) →
  pte s' (PDE x) (PTE x) = pte s (PDE x) (PTE x) →
  k_mem_paging_virt2phys s' x = k_mem_paging_virt2phys s x.
Proof.
  intros Hwf Hwf' Hx Hpd Hpte. pose proof (PDE_range x Hx).
  destruct (pde_get s (PDE x) Hwf ltac:(lia)) as (pde & Hp & _). rewrite Hp in Hpd.
  destruct (entry_size pde) eqn:Hs; [destruct (entry_present pde) eqn:Hpr|].
  - unfold k_mem_paging_virt2phys, u16, pde_at. rewrite !(Z.mod_small (PDE x)) by lia.
    rewrite Hp, Hpd. cbn [of_option]. by rewrite !bind_ok, Hpr, Hs.
  - rewrite (virt2phys_pte s x pde), (virt2phys_pte s' x pde), Hpte by (try done; by right). done.
  - rewrite (virt2phys_pte s x pde), (virt2phys_pte s' x pde), Hpte by (try done; by left). done.
Qed.

(** The page of [v] is mapped. *)
Definition mapped_page (s : space) (v : Z) : Prop := entry_present (pte s (PDE v) (PTE v)) = true.

Lemma paging_map_spec s v k flags pde :
  space_wf s → 0 ≤ v < 0xFFC00000 → 0 < k < 2 ^ 20 → 0 ≤ flags < 256 →
  flags = 0 ∨ Z.odd flags = true →
  sp_pd s !! Z.to_nat (PDE v) = Some pde → small_pde pde →
  match k_mem_paging_map s v (0x1000 * k) flags with
  | Ok s' =>
      space_wf s' ∧ ¬ mapped_page s v ∧
      (∀ x, 0 ≤ x < 0xFFC00000 → k_mem_paging_virt2phys s' x =
        if x / 0x1000 =? v / 0x1000 then Ok (0x1000 * k + x mod 0x1000)
        else k_mem_paging_virt2phys s x)
  | Panic => mapped_page s v ∨ entry_present pde = false ∧
      (frame_free (sp_pmm s) 0 = true ∨ ∀ x, frame_free (sp_pmm s) x = false)
  | _ => False
  end.
Proof.
  intros Hwf Hv Hk Hfl Hodd Hp Hsm. pose proof (map_ok s v k flags pde Hwf Hv Hk Hfl Hp Hsm) as Hm.
  destruct (k_mem_paging_map s v (0x1000 * k) flags) as [s'| | |]; [|exact Hm..].
  destruct Hm as (Hwf' & Hnp & (pde' & Hp' & Ht') & Hother & Hpte & _). unfold mapped_page.
  split; [done|]. split; [by rewrite Hnp|]. intros x Hx.
  pose proof (PDE_range x Hx). pose proof (PTE_range x ltac:(lia)). pose proof (PTE_range v ltac:(lia)).
  assert (Hsm' : small_pde pde').
  { unfold table_pde in Ht'. apply andb_true_iff in Ht' as [_ Hn]. left. by apply negb_true_iff. }
  assert (Hmf : 0 ≤ map_flags flags < 256 ∧ Z.odd (map_flags flags) = true).
  { split; [by apply map_flags_range|]. unfold map_flags. destruct Hodd as [->|Ho]; [done|].
    case_if; [done|]. by subst flags. }
  destruct Hmf as [Hmf Hmo]. case_if.
  - assert (Hij : PDE x = PDE v ∧ PTE x = PTE v) by (rewrite !PDE_eq, !PTE_eq; lia).
    destruct Hij as [Hi Hj]. rewrite (virt2phys_pte s' x pde') by (try done; by rewrite Hi).
    cbn zeta. rewrite Hpte, <- Hi, <- Hj, !Z.eqb_refl by done. cbn [andb].
    rewrite entry_present_eq, Z.odd_add, Z.odd_mul, Hmo. cbn. rewrite entry_page_eq by lia. done.
  - assert (Hpx : pte s' (PDE x) (PTE x) = pte s (PDE x) (PTE x)).
    { rewrite Hpte by done. destruct (Z.eqb_spec (PDE v) (PDE x)); [|done].
      destruct (Z.eqb_spec (PTE v) (PTE x)); [|done].
      destruct E. symmetry. by apply page_indices; [lia|lia|..]. }
    destruct (decide (PDE x = PDE v)) as [Hi|Hi].
    + rewrite (virt2phys_pte s' x pde'), (virt2phys_pte s x pde), Hpx;
        try done; by rewrite Hi.
    + apply virt2phys_ext; try done. apply Hother; lia.
Qed.

(** C3: [k_mem_paging_map] of a frame at a virtual page below the recursive area, where
    the directory has no 4 MiB page: on return every address of the page translates to
    the same offset of the frame, no other address translates differently, and the
    address space stays well formed.  It panics only if the page is mapped already or a
    page table is needed and no frame can be had (frame 0 is refused). *)
Theorem paging_map_translates s v k flags pde :
  space_wf s → 0 ≤ v < 0xFFC00000 → 0 < k < 2 ^ 20 → 0 ≤ flags < 256 →
  flags = 0 ∨ Z.odd flags = true →
  sp_pd s !! Z.to_nat (PDE v) = Some pde → small_pde pde →
  match k_mem_paging_map s v (0x1000 * k) flags with
  | Ok s' =>
      space_wf s' ∧ ¬ mapped_page s v ∧
      (∀ x, 0 ≤ x < 0xFFC00000 → k_mem_paging_virt2phys s' x =
        if x / 0x1000 =? v / 0x1000 then Ok (0x1000 * k + x mod 0x1000)
        else k_mem_paging_virt2phys s x)
  | Panic => mapped_page s v ∨ entry_present pde = false ∧
      (frame_free (sp_pmm s) 0 = true ∨ ∀ x, frame_free (sp_pmm s) x = false)
  | _ => False
  end.
Proof. apply paging_map_spec. Qed.

(** A space with one page table, for directory entry [d], in which the pages [js] are
    mapped; used by examples, mostly with the table of [0xC1000000]. *)
Definition table_space (d : nat) (js : list nat) : space :=
  mk_space (<[d := 0x5003]> (replicate 1024 0))
    {[5 := foldr (λ j t, <[j := 0x7003 + 0x1000 * Z.of_nat j]> t) (replicate 1024 0) js]}
    (mk_pmm [0xFFFFFF00] 0 0 0 0).
Definition demo_space (js : list nat) : space := table_space 772 js.

Lemma word_check l : forallb (λ w, (0 <=? w) && (w <? 2 ^ 32)) l = true → Forall word l.
Proof.
  rewrite List.forallb_forall. intros H. apply Forall_forall. intros w Hw%list_elem_of_In.
  apply H in Hw. breflect. unfold word. lia.
Qed.

Lemma table_space_pd d i :
  (d < 1024)%nat → (i < 1024)%nat → sp_pd (table_space d []) !! i = Some (if (i =? d)%nat then 0x5003 else 0).
Proof.
  intros Hd Hi. cbn [sp_pd table_space]. destruct (Nat.eqb_spec i d) as [->|].
  - apply list_lookup_insert_eq. rewrite length_replicate. lia.
  - rewrite list_lookup_insert_ne by done. by apply lookup_replicate_2.
Qed.

Lemma table_space_wf d : (d < 1023)%nat → space_wf (table_space d []).
Proof.
  intros Hd. assert (Hi : ∀ i pde, 0 ≤ i < 1023 → sp_pd (table_space d []) !! Z.to_nat i = Some pde →
    table_pde pde = true → i = Z.of_nat d ∧ pde = 0x5003).
  { intros i pde Hi Hp Ht. rewrite table_space_pd in Hp by lia. injection Hp as <-.
    destruct (Nat.eqb_spec (Z.to_nat i) d); [split; [lia|done]|by cbv in Ht]. }
  split.
  - cbn [sp_pd table_space]. by rewrite length_insert, length_replicate.
  - apply Forall_insert; [apply Forall_replicate|]; unfold word; lia.
  - split; cbn; [repeat constructor; lia|unfold bitmap_size; cbn; lia|lia|].
    intros k Hk. apply frame_free_neg. lia.
  - intros i pde Hr Hp Ht. destruct (Hi i pde Hr Hp Ht) as [-> ->]. split; [by vm_compute|].
    eexists. split; [reflexivity|]. split; [by vm_compute|]. apply word_check. by vm_compute.
  - intros i j pi pj Hri Hrj Hne Hpi Hpj Hti Htj.
    destruct (Hi i pi Hri Hpi Hti) as [-> _], (Hi j pj Hrj Hpj Htj) as [-> _]. done.
Qed.

Lemma demo_pd i : (i < 1024)%nat → sp_pd (demo_space []) !! i = Some (if (i =? 772)%nat then 0x5003 else 0).
Proof. apply table_space_pd. lia. Qed.

Lemma demo_space_wf : space_wf (demo_space []).
Proof. apply table_space_wf. lia. Qed.

Lemma paging_map_translates_witness :
  match k_mem_paging_map (demo_space []) 0xC1002000 (0x1000 * 9) 3 with
  | Ok s' =>
      space_wf s' ∧ ¬ mapped_page (demo_space []) 0xC1002000 ∧
      (∀ x, 0 ≤ x < 0xFFC00000 → k_mem_paging_virt2phys s' x =
        if x / 0x1000 =? 0xC1002000 / 0x1000 then Ok (0x1000 * 9 + x mod 0x1000)
        else k_mem_paging_virt2phys (demo_space []) x)
  | Panic => mapped_page (demo_space []) 0xC1002000 ∨ entry_present 0x5003 = false ∧
      (frame_free (sp_pmm (demo_space [])) 0 = true ∨
       ∀ x, frame_free (sp_pmm (demo_space [])) x = false)
  | _ => False
  end.
Proof.
  apply (paging_map_translates (demo_space []) 0xC1002000 9 3 0x5003 demo_space_wf);
    [lia|lia|lia|by right|by apply demo_pd; vm_compute; lia|by left].
Defined.

(** ** Unmapping *)

Lemma unmap_ok s v pde :
  space_wf s → 0 ≤ v < 0xFFC00000 → sp_pd s !! Z.to_nat (PDE v) = Some pde → small_pde pde →
  ∃ s', k_mem_paging_unmap s v = Ok s' ∧ space_wf s' ∧ sp_pd s' = sp_pd s ∧ sp_pmm s' = sp_pmm s ∧
    ∀ i j, 0 ≤ i < 1023 → 0 ≤ j < 1024 → pte s' i j =
      if (PDE v =? i) && (PTE v =? j) then 0 else pte s i j.
Proof.
  intros Hwf Hv Hp Hsm. pose proof (PDE_range v Hv). pose proof (PTE_range v ltac:(lia)).
  unfold k_mem_paging_unmap, pde_at. rewrite Hp. cbn [of_option]. rewrite bind_ok.
  destruct (entry_present pde) eqn:Hpr; cbn [negb].
  - apply (write_pt_ok s _ _ _ pde); try done. unfold table_pde.
    destruct Hsm as [Hs|]; [by rewrite Hpr, Hs|congruence].
  - exists s. split_and!; try done. intros i j Hi Hj. destruct (Z.eqb_spec (PDE v) i) as [<-|]; [|done].
    cbn [andb]. case_if; [|done]. unfold pte. rewrite Hp. unfold table_pde. by rewrite Hpr.
Qed.

(** [k_mem_paging_unmap] removes exactly one page: its addresses no longer
    translate, every other address translates as before, and no frame is freed. *)
Theorem paging_unmap_exact s v pde :
  space_wf s → 0 ≤ v < 0xFFC00000 → sp_pd s !! Z.to_nat (PDE v) = Some pde → small_pde pde →
  ∃ s', k_mem_paging_unmap s v = Ok s' ∧ space_wf s' ∧ sp_pmm s' = sp_pmm s ∧
    ∀ x, 0 ≤ x < 0xFFC00000 → k_mem_paging_virt2phys s' x =
      if x / 0x1000 =? v / 0x1000 then Ok 0 else k_mem_paging_virt2phys s x.
Proof.
  intros Hwf Hv Hp Hsm.
  destruct (unmap_ok s v pde Hwf Hv Hp Hsm) as (s' & -> & Hwf' & Hpd & Hpm & Hpte).
  exists s'. split; [done|]. split; [done|]. split; [done|]. intros x Hx.
  pose proof (PDE_range x Hx). pose proof (PTE_range x ltac:(lia)). case_if.
  - assert (Hij : PDE x = PDE v ∧ PTE x = PTE v) by (rewrite !PDE_eq, !PTE_eq; lia).
    destruct Hij as [Hi Hj]. rewrite (virt2phys_pte s' x pde) by (rewrite ?Hpd, ?Hi; done).
    by rewrite Hpte, <- Hi, <- Hj, !Z.eqb_refl by done.
  - apply virt2phys_ext; try done; [by rewrite Hpd|]. rewrite Hpte by done.
    destruct (Z.eqb_spec (PDE v) (PDE x)); [|done].
    destruct (Z.eqb_spec (PTE v) (PTE x)); [|done].
    destruct E. symmetry. by apply page_indices; [lia|lia|..].
Qed.

Lemma paging_unmap_exact_witness :
  ∃ s', k_mem_paging_unmap (demo_space []) 0xC1002000 = Ok s' ∧ space_wf s' ∧
    sp_pmm s' = sp_pmm (demo_space []) ∧
    ∀ x, 0 ≤ x < 0xFFC00000 → k_mem_paging_virt2phys s' x =
      if x / 0x1000 =? 0xC1002000 / 0x1000 then Ok 0 else k_mem_paging_virt2phys (demo_space []) x.
Proof.
  apply (paging_unmap_exact (demo_space []) 0xC1002000 0x5003 demo_space_wf);
    [lia|by apply demo_pd; vm_compute; lia|by left].
Defined.

(** ** Regions *)

Lemma set_allocated_wf p k p' :
  pmm_wf p → 0 ≤ k < 32 * bitmap_size p → k_mem_pmm_set_allocated p (0x1000 * k) = Ok p' →
  pmm_wf p' ∧ bitmap_size p' = bitmap_size p ∧
  ∀ x, frame_free p' x = negb (k =? x) && frame_free p x.
Proof.
  intros [Hw Hsz Hf Hh] Hk Hs.
  destruct (set_allocated_ok p k Hk Hw) as (p1 & Hs1 & Hp1 & Hl & Hw1 & Hff).
  rewrite Hs in Hs1. injection Hs1 as <-.
  assert (Hb : bitmap_size p' = bitmap_size p) by (unfold bitmap_size; lia).
  split; [|by split]. split; [done|lia|by rewrite Hp1|].
  intros x Hx. rewrite Hff, Hh, andb_false_r; [done|]. by rewrite Hp1 in Hx.
Qed.

(** Taking frames out of the pool keeps an address space well formed. *)
Lemma space_wf_pmm s p :
  space_wf s → pmm_wf p → (∀ x, frame_free p x = true → frame_free (sp_pmm s) x = true) →
  space_wf (set_pmm s p).
Proof.
  intros [H1 H2 H3 H4 H5] Hp Hm. split; try done. cbn. intros i pde Hi Hpd Ht.
  destruct (H4 i pde Hi Hpd Ht) as [Hf Htb]. split; [|done].
  specialize (Hm (entry_page pde)). destruct (frame_free p (entry_page pde)); [|done].
  rewrite Hm in Hf; done.
Qed.

Lemma claim_frame_ok s k :
  space_wf s → 0 ≤ k < 32 * bitmap_size (sp_pmm s) →
  ∃ p, claim_frame s (0x1000 * k) = Ok (set_pmm s p) ∧ space_wf (set_pmm s p) ∧
    frame_free p k = false ∧ bitmap_size p = bitmap_size (sp_pmm s).
Proof.
  intros Hwf Hk. pose proof Hwf as [_ _ Hpmm _ _]. pose proof (wf_size _ Hpmm).
  unfold claim_frame. rewrite is_allocated_spec, bool_decide_eq_true_2 by lia. cbn [andb].
  destruct (frame_free (sp_pmm s) k) eqn:Hf; cbn [negb].
  - destruct (set_allocated_ok (sp_pmm s) k Hk (wf_words _ Hpmm)) as (p & Hp & _).
    destruct (set_allocated_wf _ _ _ Hpmm Hk Hp) as (Hwp & Hb & Hff). rewrite Hp, bind_ok.
    exists p. split; [done|]. split; [|split; [by rewrite Hff, Z.eqb_refl|done]].
    apply space_wf_pmm; try done. intros x Hx. rewrite Hff in Hx. by apply andb_true_iff in Hx as [_ ?].
  - exists (sp_pmm s). split; [by destruct s|]. split; [by destruct s|]. done.
Qed.

Lemma table_pde_small pde : table_pde pde = true → small_pde pde.
Proof. unfold table_pde. intros [_ H]%andb_true_iff. left. by apply negb_true_iff. Qed.

(** The pages of a region have no 4 MiB entry. *)
Definition small_region (s : space) (v n : Z) : Prop :=
  ∀ i pde, 0 ≤ i < n → sp_pd s !! Z.to_nat (PDE (v + 0x1000 * i)) = Some pde → small_pde pde.

Lemma map_contigous_ok n s v k i flags :
  space_wf s → 0 ≤ v → 0 ≤ i → v + 0x1000 * (i + Z.of_nat n) ≤ 0xFFC00000 →
  0 < k → k + i + Z.of_nat n ≤ 32 * bitmap_size (sp_pmm s) →
  0 ≤ flags < 256 → flags = 0 ∨ Z.odd flags = true →
  small_region s (v + 0x1000 * i) (Z.of_nat n) →
  match map_contigous s v (0x1000 * k) flags i n with
  | Ok s' => space_wf s' ∧
      ∀ x, 0 ≤ x < 0xFFC00000 → k_mem_paging_virt2phys s' x =
        if (v / 0x1000 + i <=? x / 0x1000) && (x / 0x1000 <? v / 0x1000 + i + Z.of_nat n)
        then Ok (0x1000 * (k + (x / 0x1000 - v / 0x1000)) + x mod 0x1000)
        else k_mem_paging_virt2phys s x
  | Panic => True
  | _ => False
  end.
Proof.
  revert s i. induction n as [|n IH]; intros s i Hwf Hv Hi Hend Hk Hkn Hfl Hodd Hsm; cbn [map_contigous].
  - split; [done|]. intros x Hx. case_if; [lia|done].
  - pose proof (wf_size _ (sw_pmm _ Hwf)).
    replace (u32 (0x1000 * k + 0x1000 * i)) with (0x1000 * (k + i)) by (rewrite u32_small; lia).
    rewrite (u32_small (v + 0x1000 * i)) by lia.
    destruct (claim_frame_ok s (k + i) Hwf ltac:(lia)) as (p & -> & Hwf1 & Hfr & Hbs). rewrite bind_ok.
    pose proof (PDE_range (v + 0x1000 * i) ltac:(lia)) as Hir.
    destruct (pde_get _ (PDE (v + 0x1000 * i)) Hwf1 ltac:(lia)) as (pde & Hp & _).
    assert (Hsm0 : small_pde pde).
    { apply (Hsm 0); [lia|]. by replace (v + 0x1000 * i + 0x1000 * 0) with (v + 0x1000 * i) by lia. }
    pose proof (map_ok (set_pmm s p) (v + 0x1000 * i) (k + i) flags pde Hwf1 ltac:(lia) ltac:(lia)
      Hfl Hp Hsm0) as Hm.
    pose proof (paging_map_spec (set_pmm s p) (v + 0x1000 * i) (k + i) flags pde Hwf1 ltac:(lia)
      ltac:(lia) Hfl Hodd Hp Hsm0) as Ht.
    destruct (k_mem_paging_map (set_pmm s p) (v + 0x1000 * i) (0x1000 * (k + i)) flags)
      as [s2| | |]; [|done|done|done]. rewrite bind_ok.
    destruct Hm as (Hwf2 & _ & (pde2 & Hp2 & Ht2) & Hother & _ & _ & Hbs2). destruct Ht as (_ & _ & Ht).
    assert (Hv2p : ∀ x, k_mem_paging_virt2phys (set_pmm s p) x = k_mem_paging_virt2phys s x) by done.
    assert (Hsm2 : small_region s2 (v + 0x1000 * (i + 1)) (Z.of_nat n)).
    { intros j pdej Hj Hpj.
      destruct (decide (PDE (v + 0x1000 * (i + 1) + 0x1000 * j) = PDE (v + 0x1000 * i))) as [He|He].
      - rewrite He, Hp2 in Hpj. injection Hpj as <-. by apply table_pde_small.
      - rewrite Hother in Hpj; [|rewrite PDE_eq; lia|done]. apply (Hsm (j + 1)); [lia|].
        rewrite <- Hpj. do 3 f_equal. lia. }
    cbn [sp_pmm set_pmm] in Hbs2.
    specialize (IH s2 (i + 1) Hwf2 Hv ltac:(lia) ltac:(lia) Hk ltac:(lia) Hfl Hodd Hsm2).
    destruct (map_contigous s2 v (0x1000 * k) flags (i + 1) n) as [s'| | |]; [|done|done|done].
    destruct IH as [Hwf' IH]. split; [done|]. intros x Hx. rewrite IH, Ht, Hv2p by done.
    destruct (Z.leb_spec (v / 0x1000 + (i + 1)) (x / 0x1000)),
      (Z.leb_spec (v / 0x1000 + i) (x / 0x1000)),
      (Z.ltb_spec (x / 0x1000) (v / 0x1000 + (i + 1) + Z.of_nat n)),
      (Z.ltb_spec (x / 0x1000) (v / 0x1000 + i + Z.of_nat (S n))),
      (Z.eqb_spec (x / 0x1000) ((v + 0x1000 * i) / 0x1000)); cbn [andb]; try lia; try done.
    do 2 f_equal. lia.
Qed.

(** Mapping a region of [size] pages onto consecutive frames that the bitmap covers:
    if the call returns, page by page the region translates to those frames and every
    other address translates as before; it can panic but never touches memory outside
    its tables. *)
Theorem paging_map_region_translates s v k size flags :
  space_wf s → 0 ≤ v → 0 ≤ size → v + 0x1000 * size ≤ 0xFFC00000 →
  0 < k → k + size ≤ 32 * bitmap_size (sp_pmm s) →
  0 ≤ flags < 256 → flags = 0 ∨ Z.odd flags = true → small_region s v size →
  k_mem_paging_map_region s v (0x1000 * k) size flags true ≠ Fault ∧
  ∀ s', k_mem_paging_map_region s v (0x1000 * k) size flags true = Ok s' →
    space_wf s' ∧
    ∀ x, 0 ≤ x < 0xFFC00000 → k_mem_paging_virt2phys s' x =
      if (v / 0x1000 <=? x / 0x1000) && (x / 0x1000 <? v / 0x1000 + size)
      then Ok (0x1000 * (k + (x / 0x1000 - v / 0x1000)) + x mod 0x1000)
      else k_mem_paging_virt2phys s x.
Proof.
  intros Hwf Hv Hs Hend Hk Hkn Hfl Hodd Hsm. unfold k_mem_paging_map_region.
  rewrite (proj2 (truthy_true _)) by lia. rewrite bind_ok.
  pose proof (map_contigous_ok (Z.to_nat size) s v k 0 flags Hwf Hv ltac:(lia) ltac:(lia) Hk
    ltac:(lia) Hfl Hodd) as H.
  rewrite Z.mul_0_r, !Z.add_0_r, Z2Nat.id in H by lia. specialize (H Hsm).
  destruct (map_contigous _ _ _ _ _ _) as [s'| | |]; [|done|done|done].
  split; [done|]. by intros ? <-%Ok_inj.
Qed.

Lemma paging_map_region_translates_witness :
  k_mem_paging_map_region (demo_space []) 0xC1002000 (0x1000 * 9) 2 3 true ≠ Fault ∧
  ∀ s', k_mem_paging_map_region (demo_space []) 0xC1002000 (0x1000 * 9) 2 3 true = Ok s' →
    space_wf s' ∧
    ∀ x, 0 ≤ x < 0xFFC00000 → k_mem_paging_virt2phys s' x =
      if (0xC1002000 / 0x1000 <=? x / 0x1000) && (x / 0x1000 <? 0xC1002000 / 0x1000 + 2)
      then Ok (0x1000 * (9 + (x / 0x1000 - 0xC1002000 / 0x1000)) + x mod 0x1000)
      else k_mem_paging_virt2phys (demo_space []) x.
Proof.
  apply (paging_map_region_translates (demo_space []) 0xC1002000 9 2 3 demo_space_wf);
    [lia|lia|lia|lia|unfold bitmap_size; cbn; lia|lia|by right|].
  intros i pde Hi Hp. assert (PDE (0xC1002000 + 0x1000 * i) = 772) as He by (rewrite PDE_eq; lia).
  rewrite He, demo_pd in Hp by (vm_compute; lia). injection Hp as <-. by left.
Defined.

(** Mapping a device frame that lies beyond the bitmap is not safe: the frame does not
    count as allocated, and marking it allocated updates a word past the end of the
    bitmap. *)
Theorem paging_map_beyond_bitmap_faults s v k size flags :
  32 * bitmap_size (sp_pmm s) ≤ k < 2 ^ 20 → 0 < k → 0 < size →
  k_mem_paging_map_region s v (0x1000 * k) size flags true = Fault.
Proof.
  intros Hk Hk0 Hs. unfold k_mem_paging_map_region. rewrite (proj2 (truthy_true _)) by lia.
  rewrite bind_ok. replace (Z.to_nat size) with (S (Z.to_nat (size - 1))) by lia.
  cbn [map_contigous]. unfold claim_frame.
  replace (u32 (0x1000 * k + 0x1000 * 0)) with (0x1000 * k) by (rewrite u32_small; lia).
  rewrite is_allocated_spec, bool_decide_eq_false_2 by lia. cbn [andb].
  unfold k_mem_pmm_set_allocated. rewrite frame_index by lia. unfold bitmap_size in Hk.
  rewrite lookup_ge_None_2 by lia. done.
Qed.

Lemma paging_map_beyond_bitmap_faults_witness :
  k_mem_paging_map_region (demo_space []) 0xC1002000 (0x1000 * 0xFD000) 1 3 true = Fault.
Proof.
  apply (paging_map_beyond_bitmap_faults (demo_space []) 0xC1002000 0xFD000 1 3); [|lia|lia].
  unfold bitmap_size. cbn. lia.
Defined.

(** ** k_map *)

Lemma first_mapped_none n s start offset i :
  (∀ c, i ≤ c < i + Z.of_nat n →
    k_mem_paging_virt2phys s (u32 (start + u32 (c + offset) * 0x1000)) = Ok 0) →
  first_mapped s start offset i n = Ok None.
Proof.
  revert i. induction n as [|n IH]; intros i H; cbn [first_mapped]; [done|].
  rewrite H, bind_ok, truthy_0 by lia. apply IH. intros c Hc. apply H. lia.
Qed.

(** When the [size] pages from the search hint are unmapped and below the limit,
    [k_map] takes exactly those: it returns the hint, moves it behind the pages, and its
    effect on the address space is that of mapping the region. *)
Theorem k_map_first_hole s first_free frame size flags fuel :
  LOWMEM_START ≤ first_free → 0 ≤ size < 2 ^ 20 → first_free + size * 0x1000 ≤ LOWMEM_END →
  (∀ c, 0 ≤ c < size → k_mem_paging_virt2phys s (first_free + c * 0x1000) = Ok 0) →
  k_map (S fuel) s first_free frame size flags =
    (s' ← k_mem_paging_map_region s first_free frame size flags true;
     Ok (first_free, s', first_free + size * 0x1000)).
Proof.
  unfold LOWMEM_START, LOWMEM_END. intros Hlo Hsz Hhi Hfree. unfold k_map. cbn [k_map_search].
  rewrite first_mapped_none.
  2:{ intros c Hc. rewrite Z.add_0_r, (u32_small c), u32_small by lia. apply Hfree. lia. }
  rewrite !bind_ok. unfold LOWMEM_END. rewrite (u32_small (0 + size)) by lia.
  rewrite (u32_small (first_free + _)) by lia. rewrite (proj2 (Z.ltb_ge _ _)) by lia.
  rewrite Z.mul_0_r, Z.add_0_r, (u32_small first_free) by lia.
  rewrite (u32_small (first_free + _)) by lia. done.
Qed.

Lemma k_map_first_hole_witness :
  k_map 1 (demo_space []) 0xC1000000 0x9000 1 3 =
    (s' ← k_mem_paging_map_region (demo_space []) 0xC1000000 0x9000 1 3 true;
     Ok (0xC1000000, s', 0xC1000000 + 1 * 0x1000)).
Proof.
  apply (k_map_first_hole (demo_space []) 0xC1000000 0x9000 1 3 0);
    [vm_compute; done|lia|vm_compute; done|].
  intros c Hc. replace c with 0 by lia. by vm_compute.
Defined.

(** [k_map] can search for ever.  If from the hint on the pages are free, mapped,
    free, mapped, free, a request for two pages never gets past the first pair: the
    search restarts from the length of the last skip instead of adding it. *)
Theorem k_map_livelock s start fuel offset :
  LOWMEM_START ≤ start < LOWMEM_END - 0x10000 →
  (∀ c, c = 0 ∨ c = 2 ∨ c = 4 → k_mem_paging_virt2phys s (start + c * 0x1000) = Ok 0) →
  (∀ c, c = 1 ∨ c = 3 → ∃ p, k_mem_paging_virt2phys s (start + c * 0x1000) = Ok p ∧ p ≠ 0) →
  k_map_search fuel s start 0 2 ≠ Ok offset.
Proof.
  unfold LOWMEM_START, LOWMEM_END. intros Hst Hfree Hmap.
  assert (Hpage : ∀ c o, 0 ≤ c ≤ 4 → 0 ≤ o ≤ 4 →
    u32 (start + u32 (c + o) * 0x1000) = start + (c + o) * 0x1000)
    by (intros c o ? ?; rewrite (u32_small (c + o)), u32_small; lia).
  assert (Hf : ∀ o, o = 0 ∨ o = 2 → first_mapped s start o 0 2 = Ok (Some 1)).
  { intros o Ho. cbn [first_mapped]. rewrite (Hpage 0 o), (Hfree (0 + o)), bind_ok, truthy_0 by lia.
    rewrite (Hpage (0 + 1) o) by lia. destruct (Hmap (0 + 1 + o)) as (p & -> & Hp); [lia|].
    rewrite bind_ok, (proj2 (truthy_true _)) by done. done. }
  assert (Hk : ∀ o f, o = 0 ∨ o = 2 → skip_mapped (S (S f)) s start o 1 = Ok 2).
  { intros o f Ho. cbn [skip_mapped]. rewrite (Hpage 1 o) by lia.
    destruct (Hmap (1 + o)) as (p & -> & Hp); [lia|].
    rewrite bind_ok, (proj2 (truthy_true _)) by done. change (u32 (1 + 1)) with 2.
    rewrite (Hpage 2 o), (Hfree (2 + o)), bind_ok, truthy_0 by lia. done. }
  assert (Hgo : ∀ f o, o = 0 ∨ o = 2 → k_map_search f s start o 2 ≠ Ok offset).
  { induction f as [|f IH]; intros o Ho; cbn [k_map_search]; [done|].
    change (Z.to_nat 2) with 2%nat. rewrite Hf, bind_ok by done.
    destruct f as [|[|f]]; [done| |].
    - cbn [skip_mapped]. rewrite (Hpage 1 o) by lia. destruct (Hmap (1 + o)) as (p & -> & Hp); [lia|].
      rewrite bind_ok, (proj2 (truthy_true _)) by done. done.
    - rewrite Hk, bind_ok by done. unfold LOWMEM_END. rewrite u32_small by lia.
      rewrite (proj2 (Z.leb_gt _ _)) by lia. apply IH. by right. }
  apply Hgo. by left.
Qed.

Lemma k_map_livelock_witness :
  k_map_search 1000 (demo_space [1%nat; 3%nat]) 0xC1000000 0 2 ≠ Ok 0.
Proof.
  apply (k_map_livelock (demo_space [1%nat; 3%nat]) 0xC1000000).
  - by vm_compute.
  - intros c [->|[->| ->]]; by vm_compute.
  - intros c [->| ->]; eexists; (split; [by vm_compute|done]).
Defined.
