(* ===== verification/Sched.v ===== *)
(** * kernel/src/proc/process.c: waiting, waking and signalling

    The part of a process that blocking touches, the wait queues, the ready queue and
    the timed sleepers.  Processes, queues and timer nodes are named by numbers (their
    addresses); the queues are the sequences that list.c implements (TypesList.v).  A
    process's block node is named by the process.  A lookup of a process, queue or timer
    node that does not exist is a [Fault]. *)

From S2P Require Import Prelude TypesList.

Definition PROCESS_STATE_STARTING : Z := 0.
Definition PROCESS_STATE_RUNNING : Z := 1.
Definition PROCESS_STATE_FINISHED : Z := 2.
Definition PROCESS_STATE_SLEEPING : Z := 3.
Definition PROCESS_FLAG_INTERRUPTED : Z := 2.
Definition MAX_SIGNAL : Z := 64.

Record proc := mk_proc {
  pr_state : Z;
  pr_flags : Z;
  pr_owners : list Z; (* the queues that hold its block node *)
  pr_wait_node : option Z;
  pr_timeout_node : option Z;
  pr_select : Z * Z; (* select_wait_node, select_wait_event *)
  pr_signal_queue : Z
}.

Record wait_node := mk_wait_node {
  wn_process : Z;
  wn_seconds : Z;
  wn_microseconds : Z;
  wn_next : Z (* 0: NULL *)
}.

Record sched := mk_sched {
  procs : gmap Z proc;
  queues : gmap Z (list Z);
  ready_queue : list Z;
  sleep_queue : Z;
  wait_nodes : gmap Z wait_node;
  current_process : Z;
  idle_process : Z
}.

(** ** State updates *)

Definition set_procs (s : sched) x :=
  mk_sched x (queues s) (ready_queue s) (sleep_queue s) (wait_nodes s) (current_process s) (idle_process s).
Definition set_queues (s : sched) x :=
  mk_sched (procs s) x (ready_queue s) (sleep_queue s) (wait_nodes s) (current_process s) (idle_process s).
Definition set_ready (s : sched) x :=
  mk_sched (procs s) (queues s) x (sleep_queue s) (wait_nodes s) (current_process s) (idle_process s).
Definition set_sleep (s : sched) h x :=
  mk_sched (procs s) (queues s) (ready_queue s) h x (current_process s) (idle_process s).
Definition set_current (s : sched) x :=
  mk_sched (procs s) (queues s) (ready_queue s) (sleep_queue s) (wait_nodes s) x (idle_process s).

Definition with_state (p : proc) x :=
  mk_proc x (pr_flags p) (pr_owners p) (pr_wait_node p) (pr_timeout_node p) (pr_select p) (pr_signal_queue p).
Definition with_flags (p : proc) x :=
  mk_proc (pr_state p) x (pr_owners p) (pr_wait_node p) (pr_timeout_node p) (pr_select p) (pr_signal_queue p).
Definition with_owners (p : proc) x :=
  mk_proc (pr_state p) (pr_flags p) x (pr_wait_node p) (pr_timeout_node p) (pr_select p) (pr_signal_queue p).
Definition with_timers (p : proc) w t :=
  mk_proc (pr_state p) (pr_flags p) (pr_owners p) w t (pr_select p) (pr_signal_queue p).
Definition with_select (p : proc) x :=
  mk_proc (pr_state p) (pr_flags p) (pr_owners p) (pr_wait_node p) (pr_timeout_node p) x (pr_signal_queue p).
Definition with_signals (p : proc) x :=
  mk_proc (pr_state p) (pr_flags p) (pr_owners p) (pr_wait_node p) (pr_timeout_node p) (pr_select p) x.

Definition get_proc (s : sched) (p : Z) : res proc := of_option (procs s !! p).
Definition get_queue (s : sched) (q : Z) : res (list Z) := of_option (queues s !! q).
Definition put_proc (s : sched) (p : Z) (x : proc) : sched := set_procs s (<[p := x]> (procs s)).
Definition put_queue (s : sched) (q : Z) (l : list Z) : sched := set_queues s (<[q := l]> (queues s)).

(** PROCESS_IS_SCHEDULABLE, k_proc_process_is_ready *)
Definition schedulable (p : proc) : bool :=
  (pr_state p =? PROCESS_STATE_STARTING) || (pr_state p =? PROCESS_STATE_RUNNING).

(** ** The queue of timed sleepers, a linked list *)

(** The loop of [__k_proc_process_remove_from_sleep_queue]: the node, what precedes it
    and what follows it. *)
Fixpoint find_sleeper (fuel : nat) (s : sched) (node prev target : Z) : res (option (Z * Z)) :=
  match fuel with
  | O => OutOfFuel
  | S fuel' =>
      if node =? 0 then Ok None
      else
        w ← of_option (wait_nodes s !! node);
        if node =? target then Ok (Some (prev, wn_next w))
        else find_sleeper fuel' s (wn_next w) node target
  end.

(** One step per node bounds a walk over a list without a cycle. *)
Definition sleep_fuel (s : sched) : nat := S (base.size (wait_nodes s)).

Definition remove_from_sleep_queue (s : sched) (target : option Z) : res sched :=
  match target with
  | None => Ok s
  | Some t =>
      found ← find_sleeper (sleep_fuel s) s (sleep_queue s) (sleep_queue s) t;
      match found with
      | None => Ok s
      | Some (prev, next) =>
          if t =? sleep_queue s then Ok (set_sleep s next (wait_nodes s))
          else
            w ← of_option (wait_nodes s !! prev);
            Ok (set_sleep s (sleep_queue s)
              (<[prev := mk_wait_node (wn_process w) (wn_seconds w) (wn_microseconds w) next]>
                 (wait_nodes s)))
      end
  end.

(** [k_free(node)] *)
Definition free_wait_node (s : sched) (n : option Z) : sched :=
  match n with
  | None => s
  | Some t => set_sleep s (sleep_queue s) (delete t (wait_nodes s))
  end.

(** ** Block nodes *)

Definition k_proc_process_own_block (s : sched) (p q : Z) : res sched :=
  l ← get_queue s q;
  let s1 := put_queue s q (l ++ [p]) in
  x ← get_proc s1 p;
  Ok (put_proc s1 p (with_owners x (pr_owners x ++ [q]))).

(** [while(owners->size) { l = list_pop_back(owners); list_delete_element(l, node); }] *)
Fixpoint release_owners (s : sched) (p : Z) (rowners : list Z) : res sched :=
  match rowners with
  | [] => Ok s
  | q :: rest =>
      l ← get_queue s q;
      release_owners (put_queue s q (remove_first p l)) p rest
  end.

Definition k_proc_process_release_block (s : sched) (p : Z) : res sched :=
  x ← get_proc s p;
  s1 ← release_owners s p (rev (pr_owners x));
  x1 ← get_proc s1 p;
  Ok (put_proc s1 p (with_owners x1 [])).

Definition k_proc_process_has_locks (p : proc) : bool :=
  (0 <? Z.of_nat (length (pr_owners p))) ||
  bool_decide (is_Some (pr_timeout_node p)) || bool_decide (is_Some (pr_wait_node p)).

Definition k_proc_process_invalidate_locks (s : sched) (p : Z) : res sched :=
  s1 ← k_proc_process_release_block s p;
  x1 ← get_proc s1 p;
  s2 ← remove_from_sleep_queue s1 (pr_wait_node x1);
  let s3 := put_proc (free_wait_node s2 (pr_wait_node x1)) p (with_timers x1 None (pr_timeout_node x1)) in
  s4 ← remove_from_sleep_queue s3 (pr_timeout_node x1);
  Ok (put_proc (free_wait_node s4 (pr_timeout_node x1)) p (with_timers x1 None None)).

Definition k_proc_process_mark_ready (s : sched) (p : Z) : res sched :=
  x ← get_proc s p;
  let x1 := if k_proc_process_has_locks x
            then with_flags x (Z.lor (pr_flags x) PROCESS_FLAG_INTERRUPTED) else x in
  s1 ← k_proc_process_invalidate_locks (put_proc s p (with_state x1 PROCESS_STATE_RUNNING)) p;
  Ok (set_ready s1 (ready_queue s1 ++ [p])).

(** ** Waking a queue *)

(** Pops waiters from the back until one was asleep and is made ready. *)
Fixpoint wakeup_single_go (fuel : nat) (s : sched) (q : Z) : res sched :=
  match fuel with
  | O => OutOfFuel
  | S fuel' =>
      l ← get_queue s q;
      match rev l with
      | [] => Ok s
      | p :: rl =>
          let s1 := put_queue s q (rev rl) in
          x ← get_proc s1 p;
          let x1 := with_owners x (remove_first q (pr_owners x)) in
          let s2 := put_proc s1 p x1 in
          if negb (pr_state x1 =? PROCESS_STATE_FINISHED) && negb (schedulable x1)
          then k_proc_process_mark_ready (put_proc s2 p (with_state x1 PROCESS_STATE_RUNNING)) p
          else wakeup_single_go fuel' s2 q
      end
  end.

Definition queue_fuel (s : sched) (q : Z) : nat := S (length (default [] (queues s !! q))).

Definition k_proc_process_wakeup_queue_single (s : sched) (q : Z) : res sched :=
  wakeup_single_go (queue_fuel s q) s q.

Fixpoint wakeup_queue_go (fuel : nat) (s : sched) (q : Z) : res sched :=
  match fuel with
  | O => OutOfFuel
  | S fuel' =>
      l ← get_queue s q;
      if (length l =? 0)%nat then Ok s
      else s1 ← k_proc_process_wakeup_queue_single s q; wakeup_queue_go fuel' s1 q
  end.

Definition k_proc_process_wakeup_queue (s : sched) (q : Z) : res sched :=
  wakeup_queue_go (queue_fuel s q) s q.

(** The variant for [select]: the waiter leaves all its queues and its time-out, and
    learns what happened. *)
Fixpoint wakeup_single_select_go (fuel : nat) (s : sched) (q fsnode event : Z) : res sched :=
  match fuel with
  | O => OutOfFuel
  | S fuel' =>
      l ← get_queue s q;
      match rev l with
      | [] => Ok s
      | p :: rl =>
          let s1 := put_queue s q (rev rl) in
          x ← get_proc s1 p;
          s2 ← k_proc_process_release_block
                 (put_proc s1 p (with_owners x (remove_first q (pr_owners x)))) p;
          x2 ← get_proc s2 p;
          if negb (pr_state x2 =? PROCESS_STATE_FINISHED) && negb (schedulable x2) then
            let x3 := with_select (with_state x2 PROCESS_STATE_RUNNING) (fsnode, event) in
            s3 ← remove_from_sleep_queue (put_proc s2 p x3) (pr_timeout_node x3);
            let s4 := put_proc (free_wait_node s3 (pr_timeout_node x3)) p
                        (with_timers x3 (pr_wait_node x3) None) in
            k_proc_process_mark_ready s4 p
          else wakeup_single_select_go fuel' s2 q fsnode event
      end
  end.

Fixpoint wakeup_queue_select_go (fuel : nat) (s : sched) (q fsnode event : Z) : res sched :=
  match fuel with
  | O => OutOfFuel
  | S fuel' =>
      l ← get_queue s q;
      if (length l =? 0)%nat then Ok s
      else
        s1 ← wakeup_single_select_go (queue_fuel s q) s q fsnode event;
        wakeup_queue_select_go fuel' s1 q fsnode event
  end.

Definition k_proc_process_wakeup_queue_select (s : sched) (q fsnode event : Z) : res sched :=
  wakeup_queue_select_go (queue_fuel s q) s q fsnode event.

(** Up to the point where the caller gives up the processor. *)
Definition k_proc_process_sleep_on_queue (s : sched) (p q : Z) : res sched :=
  s1 ← k_proc_process_own_block s p q;
  x ← get_proc s1 p;
  Ok (put_proc s1 p (with_state (with_flags x (Z.land (pr_flags x) (Z.lnot PROCESS_FLAG_INTERRUPTED)))
                       PROCESS_STATE_SLEEPING)).

(** The value [k_proc_process_sleep_on_queue] returns when the caller runs again. *)
Definition sleep_result (s : sched) (p : Z) : res Z :=
  x ← get_proc s p; Ok (Z.land (pr_flags x) PROCESS_FLAG_INTERRUPTED).

(** ** Scheduling *)

Definition k_proc_process_next (s : sched) : Z * sched :=
  match ready_queue s with
  | [] => (idle_process s, s)
  | p :: rest => (p, set_ready s rest)
  end.

(** The loop of [k_proc_process_switch]: the process to run.  The idle process is always
    schedulable, so the ready queue bounds the loop. *)
Fixpoint switch_go (fuel : nat) (s : sched) : res (Z * sched) :=
  match fuel with
  | O => OutOfFuel
  | S fuel' =>
      let '(p, s1) := k_proc_process_next s in
      x ← get_proc s1 p;
      if schedulable x then Ok (p, s1) else switch_go fuel' s1
  end.

Definition k_proc_process_switch (s : sched) : res sched :=
  '(p, s1) ← switch_go (S (length (ready_queue s))) s;
  x ← get_proc s1 p;
  Ok (set_current (if pr_state x =? PROCESS_STATE_RUNNING then s1
                   else put_proc s1 p (with_state x PROCESS_STATE_RUNNING)) p).

(** The decision part of [k_proc_process_yield]: the caller stays ready unless it went to
    sleep or finished, then the next process runs. *)
Definition k_proc_process_yield (s : sched) : res sched :=
  let p := current_process s in
  if p =? idle_process s then k_proc_process_switch s
  else
    x ← get_proc s p;
    s1 ← (if schedulable x then k_proc_process_mark_ready s p else Ok s);
    k_proc_process_switch s1.

(** ** Timed sleep *)

Definition MICROSECONDS_PER_SECOND : Z := 1000000.

(** Deadline after [seconds] and [microseconds] from the clock reading [ticks]. *)
Definition deadline (ticks seconds microseconds : Z) : Z * Z :=
  let cur_seconds := u64 (ticks / MICROSECONDS_PER_SECOND + seconds) in
  let cur_microseconds := u64 (ticks mod MICROSECONDS_PER_SECOND + microseconds) in
  if MICROSECONDS_PER_SECOND <=? cur_microseconds
  then (u64 (cur_seconds + cur_microseconds / MICROSECONDS_PER_SECOND),
        cur_microseconds mod MICROSECONDS_PER_SECOND)
  else (cur_seconds, cur_microseconds).

(** [node->seconds > sec || (node->seconds == sec && node->microseconds > us)] *)
Definition later (w : wait_node) (sec us : Z) : bool :=
  (sec <? wn_seconds w) || ((wn_seconds w =? sec) && (us <? wn_microseconds w)).

(** The loop that looks for the place of a new node: the node before and the node at it. *)
Fixpoint find_place (fuel : nat) (s : sched) (node prev sec us : Z) : res (Z * Z) :=
  match fuel with
  | O => OutOfFuel
  | S fuel' =>
      if node =? 0 then Ok (prev, 0)
      else
        w ← of_option (wait_nodes s !! node);
        if later w sec us then find_place fuel' s (wn_next w) node sec us else Ok (prev, node)
  end.

(** [new] is the address [k_calloc] returned. *)
Definition insert_sleeper (s : sched) (new p sec us : Z) : res sched :=
  if sleep_queue s =? 0 then
    Ok (set_sleep s new (<[new := mk_wait_node p sec us 0]> (wait_nodes s)))
  else
    let s1 := set_sleep s (sleep_queue s) (<[new := mk_wait_node p sec us 0]> (wait_nodes s)) in
    '(prev, node) ← find_place (S (sleep_fuel s)) s1 (sleep_queue s) (sleep_queue s) sec us;
    w ← of_option (wait_nodes s1 !! prev);
    Ok (set_sleep s1 (sleep_queue s1)
      (<[new := mk_wait_node p sec us node]>
        (<[prev := mk_wait_node (wn_process w) (wn_seconds w) (wn_microseconds w) new]>
           (wait_nodes s1)))).

(** [k_proc_process_sleep] up to the point where the caller gives up the processor. *)
Definition k_proc_process_sleep (s : sched) (new p ticks microseconds : Z) : res sched :=
  let '(sec, us) := deadline ticks (microseconds / MICROSECONDS_PER_SECOND)
                      (microseconds mod MICROSECONDS_PER_SECOND) in
  x ← get_proc s p;
  let s1 := put_proc s p (with_timers x (Some new) (pr_timeout_node x)) in
  s2 ← insert_sleeper s1 new p sec us;
  x2 ← get_proc s2 p;
  Ok (put_proc s2 p (with_state x2 PROCESS_STATE_SLEEPING)).

(** Its value, from the deadline and the clock when the caller runs again: 1 if it woke
    too early.  The code compares the seconds of the deadline with the microseconds of
    the clock. *)
Definition sleep_returns (cur : Z * Z) (ticks : Z) : Z :=
  let new_seconds := ticks / MICROSECONDS_PER_SECOND in
  let new_microseconds := ticks mod MICROSECONDS_PER_SECOND in
  b2z ((new_seconds <? cur.1) || ((cur.1 =? new_microseconds) && (new_microseconds <? cur.2))).

Definition k_proc_process_timeout (s : sched) (new p ticks seconds microseconds : Z) : res sched :=
  let '(sec, us) := deadline ticks seconds microseconds in
  x ← get_proc s p;
  let s1 := put_proc s p (with_timers x (pr_wait_node x) (Some new)) in
  insert_sleeper s1 new p sec us.

(** [__k_proc_process_wakeup_timing] *)
Fixpoint wakeup_timing (fuel : nat) (s : sched) (seconds microseconds : Z) : res sched :=
  match fuel with
  | O => OutOfFuel
  | S fuel' =>
      let node := sleep_queue s in
      if node =? 0 then Ok s
      else
        w ← of_option (wait_nodes s !! node);
        if (wn_seconds w <? seconds) ||
           ((wn_seconds w =? seconds) && (wn_microseconds w <=? microseconds)) then
          let s1 := set_sleep s (wn_next w) (wait_nodes s) in
          let p := wn_process w in
          x ← get_proc s1 p;
          s2 ← (if pr_state x =? PROCESS_STATE_FINISHED then Ok s1 else
            s' ← (if bool_decide (pr_timeout_node x = Some node) then
                s'' ← k_proc_process_release_block s1 p;
                x' ← get_proc s'' p;
                Ok (put_proc s'' p (with_timers (with_select x' (0, 0)) (pr_wait_node x') None))
              else Ok (put_proc s1 p (with_timers x None (pr_timeout_node x))));
            k_proc_process_mark_ready s' p);
          wakeup_timing fuel' (free_wait_node s2 (Some node)) seconds microseconds
        else Ok s
  end.

Definition k_proc_process_update_timings (fuel : nat) (s : sched) (ticks : Z) : res sched :=
  wakeup_timing fuel s (ticks / MICROSECONDS_PER_SECOND) (ticks mod MICROSECONDS_PER_SECOND).

(** ** Sending signals *)

Definition k_proc_process_wakeup_on_signal (s : sched) (p : Z) : res sched :=
  if p =? current_process s then Ok s
  else
    x ← get_proc s p;
    if schedulable x then Ok s else k_proc_process_mark_ready s p.

(** [1 << sig] is an [int]: the shift counts modulo 32 on this machine, and bit 31 extends
    to the upper half of the 64-bit set. *)
Definition signal_bit (sig : Z) : Z := u64 (s32 (Z.shiftl 1 (sig mod 32))).

Definition k_proc_process_send_signal (s : sched) (p sig : Z) : res sched :=
  if (sig <? 0) || (MAX_SIGNAL <=? sig) then Ok s
  else
    x ← get_proc s p;
    k_proc_process_wakeup_on_signal
      (put_proc s p (with_signals x (Z.lor (pr_signal_queue x) (signal_bit sig)))) p.
