(* ===== verification/SchedFacts.v ===== *)
(** * Correctness of waiting and waking

    A process's list of owners and the queues describe the same relation, and every
    operation of process.c that blocks or wakes keeps it so: a block node is in a queue
    exactly as often as the queue is among the owners.  So a process that is made ready,
    or exits, is in no queue any more.  Then what waking, sleeping and signalling do. *)

From S2P Require Import Prelude TypesList Sched.

Abbreviation occ := (count_occ Z.eq_dec).

Lemma occ_app x l1 l2 : occ (l1 ++ l2) x = (occ l1 x + occ l2 x)%nat.
Proof. apply count_occ_app. Qed.

Lemma occ_single x y : occ [y] x = if bool_decide (y = x) then 1%nat else 0%nat.
Proof. cbn. destruct (Z.eq_dec y x); case_bool_decide; done. Qed.

Lemma occ_remove_first x y l :
  occ (remove_first x l) y = if bool_decide (x = y) then pred (occ l y) else occ l y.
Proof.
  induction l as [|z l IH]; cbn; [by case_bool_decide|].
  destruct (Z.eqb_spec z x) as [->|Hne]; cbn.
  - destruct (Z.eq_dec x y); case_bool_decide; done.
  - destruct (Z.eq_dec z y) as [->|]; rewrite IH; case_bool_decide; try done; congruence.
Qed.

Lemma occ_rev x l : occ (rev l) x = occ l x.
Proof. apply Permutation_count_occ. symmetry. apply Permutation_rev. Qed.

Lemma occ_pos x l : (0 < occ l x)%nat ↔ x ∈ l.
Proof. rewrite list_elem_of_In. symmetry. apply count_occ_In. Qed.

(** The waiters of a queue; a queue that does not exist has none. *)
Definition waiters (s : sched) (q : Z) : list Z := default [] (queues s !! q).

(** Owners and queues agree, and every waiter is a process. *)
Record linked (s : sched) : Prop := {
  lk_occ : ∀ p x q, procs s !! p = Some x → occ (pr_owners x) q = occ (waiters s q) p;
  lk_live : ∀ p q, p ∈ waiters s q → is_Some (procs s !! p)
}.

Section linked.
Implicit Types (s : sched) (p q : Z) (x : proc).

Lemma get_proc_ok s p x : get_proc s p = Ok x ↔ procs s !! p = Some x.
Proof. apply of_option_ok. Qed.

Lemma get_queue_ok s q l : get_queue s q = Ok l ↔ queues s !! q = Some l.
Proof. apply of_option_ok. Qed.

(** A queue with a waiter exists. *)
Lemma waiter_queue s p q : p ∈ waiters s q → ∃ l, queues s !! q = Some l.
Proof.
  unfold waiters. destruct (queues s !! q) as [l|]; [by exists l|]. cbn. by intros ?%elem_of_nil.
Qed.

(** Two states with the same queues and the same owners of every process. *)
Definition same_blocks s s' : Prop :=
  queues s' = queues s ∧ ∀ p, pr_owners <$> procs s' !! p = pr_owners <$> procs s !! p.

#[export] Instance same_blocks_equiv : Equivalence same_blocks.
Proof.
  split.
  - by split.
  - intros s s' [Hq Hp]. split; [done|]. intros p. by rewrite Hp.
  - intros s1 s2 s3 [Hq1 Hp1] [Hq2 Hp2]. split; [congruence|]. intros p. by rewrite Hp2, Hp1.
Qed.

#[export] Instance linked_proper : Proper (same_blocks ==> iff) linked.
Proof.
  assert (Hgo : ∀ s s', same_blocks s s' → linked s → linked s').
  { intros s s' [Hq Hp] [Ho Hl].
    assert (Hw : ∀ q, waiters s' q = waiters s q) by (intros; unfold waiters; by rewrite Hq).
    split; intros *; rewrite ?Hw.
    - intros Hx. specialize (Hp p). rewrite Hx in Hp. cbn in Hp.
      destruct (procs s !! p) as [y|] eqn:Hy; [|done]. cbn in Hp. injection Hp as ->. by apply Ho.
    - intros Hin. specialize (Hp p). destruct (Hl p q Hin) as [y Hy]. rewrite Hy in Hp. cbn in Hp.
      destruct (procs s' !! p); [eauto|done]. }
  intros s s' Hs. split; apply Hgo; [done|by symmetry].
Qed.

Lemma same_blocks_put s p x x' :
  procs s !! p = Some x → pr_owners x' = pr_owners x → same_blocks s (put_proc s p x').
Proof.
  intros Hp Ho. split; [done|]. intros p'. cbn. destruct (decide (p = p')) as [<-|].
  - rewrite lookup_insert_eq, Hp. cbn. by rewrite Ho.
  - by rewrite lookup_insert_ne.
Qed.

Lemma linked_put s p x x' :
  linked s → procs s !! p = Some x → pr_owners x' = pr_owners x → linked (put_proc s p x').
Proof. intros Hl Hp Ho. by rewrite <- (same_blocks_put s p x x'). Qed.

Lemma same_blocks_eq s s' : procs s' = procs s → queues s' = queues s → same_blocks s s'.
Proof. intros Hp Hq. split; [done|]. intros p. by rewrite Hp. Qed.

(** Timers do not touch queues or processes. *)
Lemma remove_sleeper_frame s t s' :
  remove_from_sleep_queue s t = Ok s' →
  procs s' = procs s ∧ queues s' = queues s ∧ ready_queue s' = ready_queue s ∧
  current_process s' = current_process s ∧ idle_process s' = idle_process s.
Proof.
  unfold remove_from_sleep_queue. destruct t as [t|]; [|by intros <-%Ok_inj].
  intros H. apply bind_ok_inv in H as ([[prev next]|] & _ & H); [|by apply Ok_inj in H as <-].
  destruct (t =? sleep_queue s); [by apply Ok_inj in H as <-|].
  apply bind_ok_inv in H as (w & _ & H). by apply Ok_inj in H as <-.
Qed.

Lemma own_block_linked s p q s' :
  linked s → k_proc_process_own_block s p q = Ok s' → linked s'.
Proof.
  intros [Ho Hl] H. unfold k_proc_process_own_block in H. inv_ok.
  apply get_queue_ok in H0. apply get_proc_ok in H1. cbn in H1. split; cbn.
  - intros p' y q' Hy. assert (Hw : waiters (put_proc (put_queue s q (a ++ [p])) p
        (with_owners a0 (pr_owners a0 ++ [q]))) q' =
      if bool_decide (q = q') then waiters s q' ++ [p] else waiters s q').
    { unfold waiters. cbn. case_bool_decide as Hq; [subst q'; by rewrite lookup_insert_eq, H0|].
      by rewrite lookup_insert_ne. }
    rewrite Hw. destruct (decide (p = p')) as [<-|Hne].
    + rewrite lookup_insert_eq in Hy. injection Hy as <-. cbn.
      rewrite occ_app, occ_single, (Ho p a0 q' H1). case_bool_decide; [|lia].
      rewrite occ_app, occ_single. by rewrite bool_decide_eq_true_2.
    + rewrite lookup_insert_ne in Hy by done. rewrite (Ho p' y q' Hy). case_bool_decide; [|done].
      rewrite occ_app, occ_single. rewrite bool_decide_eq_false_2 by done. lia.
  - intros p' q' Hin. destruct (decide (p = p')) as [<-|Hne]; [rewrite lookup_insert_eq; eauto|].
    rewrite lookup_insert_ne by done. apply (Hl p' q'). unfold waiters in *. cbn in Hin.
    destruct (decide (q = q')) as [<-|Hq].
    + rewrite lookup_insert_eq in Hin. rewrite H0. cbn in *.
      apply elem_of_app in Hin as [|Hin]; [done|]. apply list_elem_of_singleton in Hin. congruence.
    + by rewrite lookup_insert_ne in Hin.
Qed.

(** Leaving the queues of a list. *)
Lemma release_owners_ok ro s p :
  (∀ q, q ∈ ro → ∃ l, queues s !! q = Some l) →
  ∃ s', release_owners s p ro = Ok s' ∧ s' = set_queues s (queues s') ∧
    (∀ q, queues s !! q = None → queues s' !! q = None) ∧
    (∀ q, q ∉ ro → queues s' !! q = queues s !! q) ∧
    ∀ q p', occ (waiters s' q) p' =
      if bool_decide (p = p') then (occ (waiters s q) p' - occ ro q)%nat else occ (waiters s q) p'.
Proof.
  revert s. induction ro as [|q ro IH]; intros s Hq; cbn [release_owners].
  - exists s. split; [done|]. split; [by destruct s|]. split; [done|]. split; [done|].
    intros q p'. cbn. rewrite Nat.sub_0_r. by case_bool_decide.
  - destruct (Hq q) as [l Hl]; [left|].
    unfold get_queue. rewrite Hl. cbn [of_option]. rewrite bind_ok.
    set (s1 := put_queue s q (remove_first p l)).
    destruct (IH s1) as (s' & -> & Hs' & Hnone & Hother & Hocc).
    { intros q' Hq'. destruct (decide (q = q')) as [<-|Hne].
      - cbn. rewrite lookup_insert_eq. eauto.
      - cbn. rewrite lookup_insert_ne by done. apply Hq. by right. }
    exists s'. split; [done|]. split; [by rewrite Hs'|]. split; [|split].
    + intros q' Hn. apply Hnone. cbn. rewrite lookup_insert_ne; [done|]. congruence.
    + intros q' Hn. rewrite Hother by (intros ?; apply Hn; by right). cbn.
      rewrite lookup_insert_ne; [done|]. intros ->. apply Hn. left.
    + intros q' p'. rewrite Hocc.
      assert (Hw : waiters s1 q' = if bool_decide (q = q') then remove_first p (waiters s q')
        else waiters s q').
      { unfold waiters. cbn. case_bool_decide as Hq'; [subst q'; by rewrite lookup_insert_eq, Hl|].
        by rewrite lookup_insert_ne. }
      rewrite Hw. cbn [count_occ]. destruct (Z.eq_dec q q') as [->|Hne].
      * rewrite (bool_decide_eq_true_2 (q' = q')), occ_remove_first by done.
        repeat case_bool_decide; try done; lia.
      * by rewrite (bool_decide_eq_false_2 (q = q')).
Qed.

Lemma release_block_spec s p x :
  linked s → procs s !! p = Some x →
  ∃ s', k_proc_process_release_block s p = Ok s' ∧ linked s' ∧
    procs s' = <[p := with_owners x []]> (procs s) ∧ (∀ q, p ∉ waiters s' q) ∧
    (∀ q p', p' ≠ p → occ (waiters s' q) p' = occ (waiters s q) p') ∧
    (∀ q, q ∉ pr_owners x → queues s' !! q = queues s !! q) ∧
    s' = mk_sched (procs s') (queues s') (ready_queue s) (sleep_queue s) (wait_nodes s)
           (current_process s) (idle_process s).
Proof.
  intros Hlk Hp. pose proof Hlk as [Ho Hl]. unfold k_proc_process_release_block, get_proc.
  rewrite Hp. cbn [of_option]. rewrite bind_ok.
  destruct (release_owners_ok (rev (pr_owners x)) s p) as (s1 & -> & Hs1 & Hnone & Hother & Hocc).
  { intros q Hq. apply (waiter_queue s p). apply occ_pos. rewrite <- (Ho p x q Hp).
    rewrite <- occ_rev. by apply occ_pos. }
  rewrite bind_ok. assert (Hpr : procs s1 = procs s) by (by rewrite Hs1). rewrite Hpr, Hp. cbn.
  eexists. split; [done|]. assert (Hw : ∀ q, occ (waiters s1 q) p = 0%nat).
  { intros q. rewrite Hocc, bool_decide_eq_true_2, occ_rev, (Ho p x q Hp) by done. lia. }
  assert (Hne : ∀ q p', p' ≠ p → occ (waiters s1 q) p' = occ (waiters s q) p').
  { intros q p' Hn. rewrite Hocc. by rewrite bool_decide_eq_false_2 by congruence. }
  split; [split|split; [cbn; by rewrite Hpr|split; [|split; [done|split]]]].
  - cbn. rewrite Hpr. intros p' y q Hy.
    change (waiters (put_proc s1 p (with_owners x [])) q) with (waiters s1 q).
    destruct (decide (p = p')) as [<-|Hnp].
    + rewrite lookup_insert_eq in Hy. injection Hy as <-. cbn. by rewrite Hw.
    + rewrite lookup_insert_ne in Hy by done. rewrite Hne by congruence. by apply Ho.
  - cbn. rewrite Hpr. intros p' q Hin. destruct (decide (p = p')) as [<-|Hnp].
    + rewrite lookup_insert_eq. eauto.
    + rewrite lookup_insert_ne by done. apply (Hl p' q). apply occ_pos. rewrite <- Hne by congruence.
      by apply occ_pos.
  - intros q Hin. apply occ_pos in Hin. specialize (Hw q).
    change (waiters (put_proc s1 p (with_owners x [])) q) with (waiters s1 q) in Hin. lia.
  - intros q Hq. apply Hother. intros Hr. apply Hq. rewrite list_elem_of_In in *. by apply in_rev.
  - cbn. rewrite Hs1. done.
Qed.
End linked.

Section preserve.
Implicit Types (s : sched) (p q : Z) (x : proc).

Lemma release_block_linked s p s' :
  linked s → k_proc_process_release_block s p = Ok s' →
  linked s' ∧ (∀ q, p ∉ waiters s' q) ∧
  ∃ x, procs s !! p = Some x ∧ procs s' = <[p := with_owners x []]> (procs s).
Proof.
  intros Hlk H. destruct (procs s !! p) as [x|] eqn:Hp.
  - destruct (release_block_spec s p x Hlk Hp) as (s1 & Hr & Hl & Hpr & Hn & _).
    rewrite Hr in H. apply Ok_inj in H as <-. split; [done|]. split; [done|]. by exists x.
  - unfold k_proc_process_release_block, get_proc in H. rewrite Hp in H. done.
Qed.

Lemma remove_sleeper_same s t s' : remove_from_sleep_queue s t = Ok s' → same_blocks s s'.
Proof. intros H. apply remove_sleeper_frame in H as (? & ? & _). by apply same_blocks_eq. Qed.

Lemma free_wait_node_same s n : same_blocks s (free_wait_node s n).
Proof. by destruct n. Qed.

Lemma free_wait_node_procs s n : procs (free_wait_node s n) = procs s.
Proof. by destruct n. Qed.

Lemma invalidate_spec s p s' :
  linked s → k_proc_process_invalidate_locks s p = Ok s' →
  linked s' ∧ (∀ q, p ∉ waiters s' q) ∧ ready_queue s' = ready_queue s ∧
  ∃ x, procs s !! p = Some x ∧
    procs s' = <[p := with_timers (with_owners x []) None None]> (procs s).
Proof.
  intros Hlk H. unfold k_proc_process_invalidate_locks in H.
  apply bind_ok_inv in H as (s1 & Hr & H).
  destruct (release_block_linked s p s1 Hlk Hr) as (Hl1 & Hn1 & x & Hx & Hp1).
  destruct (release_block_spec s p x Hlk Hx) as (s1' & Hr' & _ & _ & _ & _ & _ & Hs1).
  rewrite Hr in Hr'. apply Ok_inj in Hr' as <-.
  apply bind_ok_inv in H as (x1 & Hx1 & H). apply get_proc_ok in Hx1.
  assert (x1 = with_owners x []) as -> by (rewrite Hp1, lookup_insert_eq in Hx1; congruence).
  apply bind_ok_inv in H as (s2 & H2 & H). apply bind_ok_inv in H as (s4 & H4 & H).
  apply Ok_inj in H as <-. cbn [pr_wait_node pr_timeout_node with_owners] in *.
  pose proof (remove_sleeper_frame _ _ _ H2) as (P2 & Q2 & R2 & _).
  pose proof (remove_sleeper_frame _ _ _ H4) as (P4 & Q4 & R4 & _).
  assert (Hprocs : procs s4 = <[p := with_timers (with_owners x []) None (pr_timeout_node x)]>
    (procs s)).
  { rewrite P4. cbn. rewrite free_wait_node_procs, P2, Hp1. by rewrite insert_insert_eq. }
  assert (Hqueues : queues s4 = queues s1).
  { rewrite Q4, <- Q2. cbn. by destruct (pr_wait_node x). }
  assert (Hfin : procs (put_proc (free_wait_node s4 (pr_timeout_node x)) p
    (with_timers (with_owners x []) None None)) =
    <[p := with_timers (with_owners x []) None None]> (procs s)).
  { cbn. rewrite free_wait_node_procs, Hprocs. by rewrite insert_insert_eq. }
  assert (Hsame : same_blocks s1 (put_proc (free_wait_node s4 (pr_timeout_node x)) p
    (with_timers (with_owners x []) None None))).
  { split; [rewrite <- Hqueues; by destruct (pr_timeout_node x)|]. intros p'.
    rewrite Hfin, Hp1. destruct (decide (p = p')) as [<-|].
    - by rewrite !lookup_insert_eq.
    - by rewrite !lookup_insert_ne. }
  split; [by rewrite <- Hsame|]. split; [|split].
  - intros q. unfold waiters. destruct Hsame as [-> _]. apply Hn1.
  - transitivity (ready_queue s4); [by destruct (pr_timeout_node x)|].
    rewrite R4. transitivity (ready_queue s2); [by destruct (pr_wait_node x)|].
    rewrite R2, Hs1. done.
  - by exists x.
Qed.

(** What a woken process looks like. *)
Definition made_ready x : proc :=
  with_timers (with_owners (with_state
    (if k_proc_process_has_locks x
     then with_flags x (Z.lor (pr_flags x) PROCESS_FLAG_INTERRUPTED) else x)
    PROCESS_STATE_RUNNING) []) None None.

Lemma mark_ready_spec s p s' :
  linked s → k_proc_process_mark_ready s p = Ok s' →
  linked s' ∧ (∀ q, p ∉ waiters s' q) ∧ ready_queue s' = ready_queue s ++ [p] ∧
  ∃ x, procs s !! p = Some x ∧ procs s' = <[p := made_ready x]> (procs s).
Proof.
  intros Hlk H. unfold k_proc_process_mark_ready in H.
  apply bind_ok_inv in H as (x & Hx & H). apply get_proc_ok in Hx.
  apply bind_ok_inv in H as (s1 & Hi & H). apply Ok_inj in H as <-.
  set (x1 := with_state (if k_proc_process_has_locks x then _ else x) PROCESS_STATE_RUNNING) in *.
  assert (Hown : pr_owners x1 = pr_owners x) by (subst x1; by destruct (k_proc_process_has_locks x)).
  apply invalidate_spec in Hi as (Hl & Hn & Hr & y & Hy & Hp).
  2:{ by rewrite <- (same_blocks_put s p x x1). }
  cbn in Hy, Hp. rewrite lookup_insert_eq in Hy. injection Hy as <-.
  split; [by rewrite <- (same_blocks_eq s1)|]. split; [done|]. split; [cbn; by rewrite Hr|].
  exists x. split; [done|]. cbn. by rewrite Hp, insert_insert_eq.
Qed.

Lemma pop_linked s q l p rl x :
  linked s → queues s !! q = Some l → rev l = p :: rl → procs s !! p = Some x →
  linked (put_proc (put_queue s q (rev rl)) p (with_owners x (remove_first q (pr_owners x)))).
Proof.
  intros [Ho Hl] Hq Hrev Hp.
  assert (l = rev rl ++ [p]) as -> by (rewrite <- (rev_involutive l), Hrev; done).
  set (s' := put_proc _ _ _).
  assert (Hw : ∀ q', waiters s' q' = if bool_decide (q = q') then rev rl else waiters s q').
  { intros q'. unfold waiters. cbn. case_bool_decide as Hq'; [subst q'; by rewrite lookup_insert_eq|].
    by rewrite lookup_insert_ne. }
  assert (Hwq : waiters s q = rev rl ++ [p]) by (unfold waiters; by rewrite Hq).
  split.
  - intros p' y q'. cbn. rewrite Hw. destruct (decide (p = p')) as [<-|Hne].
    + rewrite lookup_insert_eq. intros [= <-]. cbn. rewrite occ_remove_first, (Ho p x q' Hp).
      case_bool_decide as Hq'; [|done]. subst q'. rewrite Hwq, occ_app, occ_single.
      rewrite bool_decide_eq_true_2 by done. lia.
    + rewrite lookup_insert_ne by done. intros Hy. rewrite (Ho p' y q' Hy).
      case_bool_decide as Hq'; [|done]. subst q'. rewrite Hwq, occ_app, occ_single.
      rewrite bool_decide_eq_false_2 by done. lia.
  - intros p' q'. rewrite Hw. cbn. intros Hin.
    destruct (decide (p = p')) as [<-|Hne]; [rewrite lookup_insert_eq; eauto|].
    rewrite lookup_insert_ne by done. apply (Hl p' q'). case_bool_decide; [|done]. subst q'.
    rewrite Hwq. apply elem_of_app. by left.
Qed.

Lemma wakeup_single_linked fuel s q s' :
  linked s → wakeup_single_go fuel s q = Ok s' → linked s'.
Proof.
  revert s. induction fuel as [|fuel IH]; intros s Hlk H; cbn [wakeup_single_go] in H; [done|].
  apply bind_ok_inv in H as (l & Hl & H). apply get_queue_ok in Hl.
  destruct (rev l) as [|p rl] eqn:Hrev; [by apply Ok_inj in H as <-|].
  apply bind_ok_inv in H as (x & Hx & H). apply get_proc_ok in Hx. cbn in Hx.
  pose proof (pop_linked s q l p rl x Hlk Hl Hrev Hx) as Hpop.
  destruct (negb _ && negb _); [|by apply (IH _ Hpop)].
  apply mark_ready_spec in H as [? _]; [done|].
  rewrite <- same_blocks_put; [exact Hpop|apply lookup_insert_eq|done].
Qed.

Lemma wakeup_queue_linked fuel s q s' :
  linked s → wakeup_queue_go fuel s q = Ok s' → linked s'.
Proof.
  revert s. induction fuel as [|fuel IH]; intros s Hlk H; cbn [wakeup_queue_go] in H; [done|].
  apply bind_ok_inv in H as (l & Hl & H). destruct (length l =? 0)%nat; [by apply Ok_inj in H as <-|].
  apply bind_ok_inv in H as (s1 & H1 & H). apply (IH s1); [|done].
  by apply (wakeup_single_linked _ _ _ _ Hlk H1).
Qed.

Lemma wakeup_single_select_linked fuel s q n e s' :
  linked s → wakeup_single_select_go fuel s q n e = Ok s' → linked s'.
Proof.
  revert s. induction fuel as [|fuel IH]; intros s Hlk H; cbn [wakeup_single_select_go] in H; [done|].
  apply bind_ok_inv in H as (l & Hl & H). apply get_queue_ok in Hl.
  destruct (rev l) as [|p rl] eqn:Hrev; [by apply Ok_inj in H as <-|].
  apply bind_ok_inv in H as (x & Hx & H). apply get_proc_ok in Hx. cbn in Hx.
  pose proof (pop_linked s q l p rl x Hlk Hl Hrev Hx) as Hpop.
  apply bind_ok_inv in H as (s2 & H2 & H).
  apply release_block_linked in H2 as (Hl2 & _ & y & Hy & Hp2); [|exact Hpop].
  apply bind_ok_inv in H as (x2 & Hx2 & H). apply get_proc_ok in Hx2.
  destruct (negb _ && negb _); [|by apply (IH _ Hl2)].
  apply bind_ok_inv in H as (s3 & H3 & H). apply mark_ready_spec in H as [? _]; [done|].
  apply remove_sleeper_frame in H3 as (P3 & Q3 & _). cbn in P3, Q3.
  rewrite <- same_blocks_put; [|rewrite free_wait_node_procs, P3; apply lookup_insert_eq|done].
  rewrite <- free_wait_node_same.
  rewrite <- (same_blocks_eq (put_proc s2 p (with_select (with_state x2 PROCESS_STATE_RUNNING) (n, e))))
    by done.
  by rewrite <- (same_blocks_put s2 p x2).
Qed.

Lemma wakeup_queue_select_linked fuel s q n e s' :
  linked s → wakeup_queue_select_go fuel s q n e = Ok s' → linked s'.
Proof.
  revert s. induction fuel as [|fuel IH]; intros s Hlk H; cbn [wakeup_queue_select_go] in H; [done|].
  apply bind_ok_inv in H as (l & Hl & H). destruct (length l =? 0)%nat; [by apply Ok_inj in H as <-|].
  apply bind_ok_inv in H as (s1 & H1 & H). apply (IH s1); [|done].
  by apply (wakeup_single_select_linked _ _ _ _ _ _ Hlk H1).
Qed.
End preserve.

(** ** The invariant *)

Section timers.
Implicit Types (s : sched) (p q : Z).

Lemma insert_sleeper_same s new p sec us s' : insert_sleeper s new p sec us = Ok s' → same_blocks s s'.
Proof.
  unfold insert_sleeper. destruct (sleep_queue s =? 0); [by intros <-%Ok_inj|].
  intros H. apply bind_ok_inv in H as ([prev node] & _ & H). apply bind_ok_inv in H as (w & _ & H).
  by apply Ok_inj in H as <-.
Qed.

Lemma wakeup_timing_linked fuel s sec us s' :
  linked s → wakeup_timing fuel s sec us = Ok s' → linked s'.
Proof.
  revert s. induction fuel as [|fuel IH]; intros s Hlk H; cbn [wakeup_timing] in H; [done|].
  destruct (sleep_queue s =? 0); [by apply Ok_inj in H as <-|].
  apply bind_ok_inv in H as (w & Hw & H). destruct ((_ || _)); [|by apply Ok_inj in H as <-].
  set (s1 := set_sleep s (wn_next w) (wait_nodes s)) in *.
  assert (Hl1 : linked s1) by (by rewrite <- (same_blocks_eq s s1)).
  apply bind_ok_inv in H as (x & Hx & H). apply get_proc_ok in Hx.
  apply bind_ok_inv in H as (s2 & H2 & H).
  assert (Hl2 : linked s2).
  { destruct (pr_state x =? PROCESS_STATE_FINISHED); [by apply Ok_inj in H2 as <-|].
    apply bind_ok_inv in H2 as (s3 & H3 & H2). apply mark_ready_spec in H2 as [? _]; [done|].
    case_bool_decide.
    - apply bind_ok_inv in H3 as (s4 & H4 & H3). apply bind_ok_inv in H3 as (x' & Hx' & H3).
      apply Ok_inj in H3 as <-. apply release_block_linked in H4 as [Hl4 _]; [|done].
      apply get_proc_ok in Hx'. by rewrite <- (same_blocks_put s4 _ x').
    - apply Ok_inj in H3 as <-. by rewrite <- (same_blocks_put s1 _ x). }
  apply (IH (free_wait_node s2 (Some (sleep_queue s)))); [|done].
  by rewrite <- (free_wait_node_same s2).
Qed.

Lemma switch_linked s s' : linked s → k_proc_process_switch s = Ok s' → linked s'.
Proof.
  intros Hlk H. unfold k_proc_process_switch in H.
  apply bind_ok_inv in H as ([p s1] & Hs & H).
  assert (Hl1 : linked s1).
  { revert Hs. generalize (S (length (ready_queue s))). intros n. revert s Hlk.
    induction n as [|n IH]; intros s Hlk Hs; cbn [switch_go] in Hs; [done|].
    destruct (k_proc_process_next s) as [p0 s0] eqn:Hn.
    assert (Hl0 : linked s0).
    { unfold k_proc_process_next in Hn. destruct (ready_queue s); injection Hn as <- <-; [done|].
      by rewrite <- (same_blocks_eq s). }
    apply bind_ok_inv in Hs as (x & _ & Hs).
    destruct (schedulable x); [apply Ok_inj in Hs; by injection Hs as -> ->|by apply (IH s0)]. }
  apply bind_ok_inv in H as (x & Hx & H). apply get_proc_ok in Hx. apply Ok_inj in H as <-.
  case_if.
  - by rewrite <- (same_blocks_eq s1).
  - rewrite <- (same_blocks_eq (put_proc s1 p (with_state x PROCESS_STATE_RUNNING))) by done.
    by rewrite <- (same_blocks_put s1 p x).
Qed.

Lemma wakeup_on_signal_linked s p s' :
  linked s → k_proc_process_wakeup_on_signal s p = Ok s' → linked s'.
Proof.
  intros Hlk H. unfold k_proc_process_wakeup_on_signal in H.
  destruct (p =? current_process s); [by apply Ok_inj in H as <-|].
  apply bind_ok_inv in H as (x & _ & H). destruct (schedulable x); [by apply Ok_inj in H as <-|].
  by apply mark_ready_spec in H as [? _].
Qed.
End timers.

(** Everything process.c does that blocks, wakes, times or schedules. *)
Inductive sched_step (s : sched) : sched → Prop :=
| step_own p q s' : k_proc_process_own_block s p q = Ok s' → sched_step s s'
| step_release p s' : k_proc_process_release_block s p = Ok s' → sched_step s s'
| step_sleep_on p q s' : k_proc_process_sleep_on_queue s p q = Ok s' → sched_step s s'
| step_ready p s' : k_proc_process_mark_ready s p = Ok s' → sched_step s s'
| step_invalidate p s' : k_proc_process_invalidate_locks s p = Ok s' → sched_step s s'
| step_wakeup_single q s' : k_proc_process_wakeup_queue_single s q = Ok s' → sched_step s s'
| step_wakeup q s' : k_proc_process_wakeup_queue s q = Ok s' → sched_step s s'
| step_wakeup_select q n e s' : k_proc_process_wakeup_queue_select s q n e = Ok s' → sched_step s s'
| step_switch s' : k_proc_process_switch s = Ok s' → sched_step s s'
| step_yield s' : k_proc_process_yield s = Ok s' → sched_step s s'
| step_sleep new p t us s' : k_proc_process_sleep s new p t us = Ok s' → sched_step s s'
| step_timeout new p t sec us s' : k_proc_process_timeout s new p t sec us = Ok s' → sched_step s s'
| step_tick fuel t s' : k_proc_process_update_timings fuel s t = Ok s' → sched_step s s'
| step_signal p sig s' : k_proc_process_send_signal s p sig = Ok s' → sched_step s s'.

Lemma sched_step_linked s s' : linked s → sched_step s s' → linked s'.
Proof.
  intros Hlk H. destruct H as [p q s' H|p s' H|p q s' H|p s' H|p s' H|q s' H|q s' H|q n e s' H|s' H|
    s' H|new p t us s' H|new p t sec us s' H|fuel t s' H|p sig s' H].
  - by apply own_block_linked in H.
  - by apply release_block_linked in H as [? _].
  - unfold k_proc_process_sleep_on_queue in H. apply bind_ok_inv in H as (s1 & H1 & H).
    apply own_block_linked in H1; [|done]. apply bind_ok_inv in H as (x & Hx & H).
    apply get_proc_ok in Hx. apply Ok_inj in H as <-. by rewrite <- (same_blocks_put s1 p x).
  - by apply mark_ready_spec in H as [? _].
  - by apply invalidate_spec in H as [? _].
  - by apply wakeup_single_linked in H.
  - by apply wakeup_queue_linked in H.
  - by apply wakeup_queue_select_linked in H.
  - by apply switch_linked in H.
  - unfold k_proc_process_yield in H. destruct (_ =? _); [by apply switch_linked in H|].
    apply bind_ok_inv in H as (x & _ & H). apply bind_ok_inv in H as (s1 & H1 & H).
    apply switch_linked in H; [done|]. destruct (schedulable x); [|by apply Ok_inj in H1 as <-].
    by apply mark_ready_spec in H1 as [? _].
  - unfold k_proc_process_sleep in H. destruct (deadline _ _ _) as [sec us'].
    apply bind_ok_inv in H as (x & Hx & H). apply get_proc_ok in Hx.
    apply bind_ok_inv in H as (s2 & H2 & H). apply insert_sleeper_same in H2.
    apply bind_ok_inv in H as (x2 & Hx2 & H). apply get_proc_ok in Hx2. apply Ok_inj in H as <-.
    rewrite <- (same_blocks_put s2 p x2), <- H2 by done. by rewrite <- (same_blocks_put s p x).
  - unfold k_proc_process_timeout in H. destruct (deadline _ _ _) as [sec' us'].
    apply bind_ok_inv in H as (x & Hx & H). apply get_proc_ok in Hx.
    apply insert_sleeper_same in H. rewrite <- H. by rewrite <- (same_blocks_put s p x).
  - by apply wakeup_timing_linked in H.
  - unfold k_proc_process_send_signal in H. destruct (_ || _); [by apply Ok_inj in H as <-|].
    apply bind_ok_inv in H as (x & Hx & H). apply get_proc_ok in Hx.
    apply wakeup_on_signal_linked in H; [done|]. by rewrite <- (same_blocks_put s p x).
Qed.

(** A process exits or is woken: no queue keeps its block node. *)
Lemma ready_in_no_queue s p s' :
  linked s → k_proc_process_mark_ready s p = Ok s' → ∀ q, p ∉ waiters s' q.
Proof. intros Hlk H. by apply mark_ready_spec in H as (_ & ? & _). Qed.

(** C5: in every state the kernel can reach by blocking, waking, timing, scheduling and
    signalling, a process's block node is in each queue exactly as often as the queue is
    among the node's owners, and every waiter is a live process; and a process that has
    been made ready, or has given up its locks to exit, is in no queue. *)
Theorem wait_queues_linked s s' :
  linked s → rtc sched_step s s' →
  linked s' ∧
  (∀ p s'', k_proc_process_mark_ready s' p = Ok s'' → ∀ q, p ∉ waiters s'' q) ∧
  (∀ p s'', k_proc_process_invalidate_locks s' p = Ok s'' → ∀ q, p ∉ waiters s'' q).
Proof.
  intros Hlk Hr. assert (Hlk' : linked s').
  { induction Hr as [|s1 s2 s3 Hs _ IH]; [done|]. apply IH. by apply (sched_step_linked s1). }
  split; [done|]. split.
  - intros p s'' H. by apply mark_ready_spec in H as (_ & ? & _).
  - intros p s'' H. by apply invalidate_spec in H as (_ & ? & _).
Qed.

(** Two processes, 1 running and 2 asleep on queue 50; used by examples. *)
Definition demo_sched : sched :=
  mk_sched (<[1 := mk_proc 1 0 [] None None (0, 0) 0]>
             (<[2 := mk_proc 3 0 [50] None None (0, 0) 0]>
               (<[9 := mk_proc 1 0 [] None None (0, 0) 0]> ∅)))
    (<[50 := [2]]> (<[51 := []]> ∅)) [] 0 ∅ 1 9.

Lemma demo_sched_linked : linked demo_sched.
Proof.
  assert (Hw : ∀ q, waiters demo_sched q = if bool_decide (q = 50) then [2] else []).
  { intros q. unfold waiters. cbn [queues demo_sched]. case_bool_decide as Hq; [by subst q|].
    rewrite lookup_insert_ne by congruence. destruct (decide (q = 51)) as [->|]; [done|].
    by rewrite lookup_insert_ne, lookup_empty by congruence. }
  split.
  - intros p x q Hx. rewrite Hw. cbn in Hx. rewrite !lookup_insert_Some, lookup_empty in Hx.
    destruct Hx as [[<- <-]|[? [[<- <-]|[? [[<- <-]|[? ?]]]]]]; [| | |done];
      cbn [pr_owners]; case_bool_decide as Hq; try by vm_compute.
    + by subst q.
    + rewrite occ_single. rewrite bool_decide_eq_false_2 by congruence. done.
  - intros p q. rewrite Hw. case_bool_decide; [intros ->%list_elem_of_singleton; eexists; by vm_compute|].
    by intros ?%elem_of_nil.
Qed.

Lemma wait_queues_linked_witness :
  ∃ s', rtc sched_step demo_sched s' ∧ linked s'.
Proof.
  destruct (k_proc_process_wakeup_queue demo_sched 50) as [s'| | |] eqn:E;
    [|vm_compute in E; discriminate E..].
  assert (Hr : rtc sched_step demo_sched s').
  { eapply rtc_l; [by apply (step_wakeup _ 50)|apply rtc_refl]. }
  exists s'. split; [exact Hr|]. exact (proj1 (wait_queues_linked _ _ demo_sched_linked Hr)).
Defined.

(** ** Waking *)

(** Asleep in queue [q] and waiting for nothing else. *)
Definition plain_waiter (s : sched) (q p : Z) : Prop :=
  ∃ x, procs s !! p = Some x ∧ pr_state x = PROCESS_STATE_SLEEPING ∧ pr_owners x = [q] ∧
    pr_wait_node x = None ∧ pr_timeout_node x = None.

Definition woken (x : proc) : proc := with_owners (with_state x PROCESS_STATE_RUNNING) [].

Lemma mark_ready_plain s p x :
  procs s !! p = Some x → pr_owners x = [] → pr_wait_node x = None → pr_timeout_node x = None →
  ∃ s', k_proc_process_mark_ready s p = Ok s' ∧
    procs s' = <[p := woken x]> (procs s) ∧ queues s' = queues s ∧
    ready_queue s' = ready_queue s ++ [p] ∧
    sleep_queue s' = sleep_queue s ∧ wait_nodes s' = wait_nodes s.
Proof.
  intros Hp Ho Hw Ht. destruct x as [st fl ow wn tn sel sg]. cbn in Ho, Hw, Ht. subst ow wn tn.
  unfold k_proc_process_mark_ready, k_proc_process_invalidate_locks, k_proc_process_release_block,
    get_proc. rewrite Hp. cbn [of_option]. rewrite bind_ok.
  change (k_proc_process_has_locks _) with false. cbn. repeat (rewrite lookup_insert_eq; cbn).
  eexists. split; [done|]. cbn. by rewrite !insert_insert_eq.
Qed.

Lemma wakeup_single_plain s q l p :
  queues s !! q = Some (l ++ [p]) → plain_waiter s q p →
  ∃ s' x, k_proc_process_wakeup_queue_single s q = Ok s' ∧ procs s !! p = Some x ∧
    procs s' = <[p := woken x]> (procs s) ∧ queues s' = <[q := l]> (queues s) ∧
    ready_queue s' = ready_queue s ++ [p].
Proof.
  intros Hq (x & Hx & Hst & Ho & Hw & Ht). destruct x as [st fl ow wn tn sel sg].
  cbn in Hst, Ho, Hw, Ht. subst st ow wn tn.
  unfold k_proc_process_wakeup_queue_single, queue_fuel, get_queue. rewrite Hq. cbn [default].
  cbn [wakeup_single_go]. unfold get_queue. rewrite Hq. cbn [of_option]. rewrite bind_ok, rev_unit.
  unfold get_proc. cbn [procs put_queue set_queues]. rewrite Hx. cbn [of_option]. rewrite bind_ok.
  cbn [pr_owners remove_first]. rewrite Z.eqb_refl.
  set (y := mk_proc PROCESS_STATE_SLEEPING fl [q] None None sel sg).
  change (negb _ && negb _) with true. cbn match.
  destruct (mark_ready_plain (put_proc (put_proc (put_queue s q (rev (rev l))) p (with_owners y []))
    p (with_state (with_owners y []) PROCESS_STATE_RUNNING)) p
    (with_state (with_owners y []) PROCESS_STATE_RUNNING)) as (s' & Hm & Hp' & Hq' & Hr' & _).
  { cbn. by rewrite lookup_insert_eq. }
  1-3: done.
  exists s', y. split; [exact Hm|]. split; [done|]. rewrite Hp', Hq', Hr'. cbn.
  by rewrite !insert_insert_eq, rev_involutive.
Qed.

Lemma wakeup_queue_go_plain l : ∀ s q fuel,
  queues s !! q = Some l → NoDup l → (∀ p, p ∈ l → plain_waiter s q p) → (length l < fuel)%nat →
  ∃ s', wakeup_queue_go fuel s q = Ok s' ∧ queues s' = <[q := []]> (queues s) ∧
    ready_queue s' = ready_queue s ++ rev l ∧
    ∀ p, procs s' !! p = if bool_decide (p ∈ l) then woken <$> procs s !! p else procs s !! p.
Proof.
  induction l as [|p l IH] using rev_ind; intros s q fuel Hq Hnd Hpl Hf;
    (destruct fuel as [|fuel]; [cbn in Hf; lia|]); cbn [wakeup_queue_go];
    unfold get_queue; rewrite Hq; cbn [of_option]; rewrite bind_ok.
  - cbn [length Nat.eqb]. exists s. rewrite app_nil_r. split; [done|].
    split; [by rewrite insert_id|]. done.
  - rewrite length_app in *. cbn [length] in *. rewrite (proj2 (Nat.eqb_neq _ _)) by lia.
    apply NoDup_app in Hnd as (Hnd & Hdis & _).
    assert (Hpn : p ∉ l) by (intros Hin; apply (Hdis p Hin); left).
    destruct (wakeup_single_plain s q l p Hq) as (s1 & x & -> & Hx & Hp1 & Hq1 & Hr1).
    { apply Hpl. apply elem_of_app. right. left. }
    rewrite bind_ok. destruct (IH s1 q fuel) as (s' & -> & Hq' & Hr' & Hp').
    + by rewrite Hq1, lookup_insert_eq.
    + done.
    + intros p' Hp'. destruct (Hpl p') as (y & Hy & ?); [apply elem_of_app; by left|].
      exists y. rewrite Hp1, lookup_insert_ne by (intros ->; done). done.
    + lia.
    + exists s'. split; [done|]. split; [by rewrite Hq', Hq1, insert_insert_eq|].
      split; [by rewrite Hr', Hr1, rev_unit, <- app_assoc|].
      intros p'. rewrite Hp', Hp1. destruct (decide (p = p')) as [<-|Hne].
      * rewrite lookup_insert_eq, Hx. rewrite bool_decide_eq_false_2 by done.
        by rewrite bool_decide_eq_true_2 by (apply elem_of_app; right; left).
      * rewrite lookup_insert_ne by done. repeat case_bool_decide; try done.
        -- destruct H0. apply elem_of_app. by left.
        -- apply elem_of_app in H0 as [|H0]; [done|]. apply list_elem_of_singleton in H0. congruence.
Qed.

(** Waking a queue wakes everyone in it: the queue ends empty, each process that was
    asleep in it (and waited for nothing else) is running, owns no queue, was put in the
    ready queue exactly once, the last sleeper first, and is not marked interrupted;
    no other process changes. *)
Theorem wakeup_queue_wakes_all s q l :
  queues s !! q = Some l → NoDup l → (∀ p, p ∈ l → plain_waiter s q p) →
  ∃ s', k_proc_process_wakeup_queue s q = Ok s' ∧ queues s' = <[q := []]> (queues s) ∧
    ready_queue s' = ready_queue s ++ rev l ∧
    (∀ p, p ∈ l → procs s' !! p = woken <$> procs s !! p) ∧
    (∀ p, p ∉ l → procs s' !! p = procs s !! p) ∧
    ∀ p x, procs s !! p = Some x → pr_flags (woken x) = pr_flags x.
Proof.
  intros Hq Hnd Hpl. unfold k_proc_process_wakeup_queue.
  destruct (wakeup_queue_go_plain l s q (queue_fuel s q) Hq Hnd Hpl) as (s' & Hw & Hq' & Hr & Hp).
  { unfold queue_fuel. rewrite Hq. cbn. lia. }
  exists s'. split; [done|]. split; [done|]. split; [done|].
  split; [|split; [|done]]; intros p Hin; rewrite Hp.
  - by rewrite bool_decide_eq_true_2.
  - by rewrite bool_decide_eq_false_2.
Qed.

Lemma wakeup_queue_wakes_all_witness :
  ∃ s', k_proc_process_wakeup_queue demo_sched 50 = Ok s' ∧
    queues s' = <[50 := []]> (queues demo_sched) ∧ ready_queue s' = [] ++ [2].
Proof.
  destruct (wakeup_queue_wakes_all demo_sched 50 [2]) as (s' & Hw & Hq & Hr & _).
  - reflexivity.
  - apply NoDup_singleton.
  - intros p ->%list_elem_of_singleton. eexists. split; [reflexivity|]. done.
  - exists s'. split; [exact Hw|]. split; [exact Hq|exact Hr].
Defined.

(** What [k_proc_process_sleep_on_queue] tells its caller.  A process goes to sleep on
    a queue; if the queue is woken, the call returns 0; if instead a signal arrives, the
    process leaves the queue and the call returns the interrupted flag. *)
Theorem sleep_result_tells s p q l x sig :
  linked s → procs s !! p = Some x → queues s !! q = Some l → pr_owners x = [] →
  pr_wait_node x = None → pr_timeout_node x = None → p ≠ current_process s →
  (∀ p', p' ∈ l → plain_waiter s q p') → NoDup l → 0 ≤ sig < MAX_SIGNAL →
  ∃ s1, k_proc_process_sleep_on_queue s p q = Ok s1 ∧
    (∃ s2, k_proc_process_wakeup_queue s1 q = Ok s2 ∧ p ∈ ready_queue s2 ∧
       sleep_result s2 p = Ok 0) ∧
    (∃ s3, k_proc_process_send_signal s1 p sig = Ok s3 ∧ p ∈ ready_queue s3 ∧
       (∀ q', p ∉ waiters s3 q') ∧ sleep_result s3 p = Ok PROCESS_FLAG_INTERRUPTED).
Proof.
  intros Hlk Hx Hq Ho Hw Ht Hcur Hpl Hnd Hsig.
  assert (Hpn : p ∉ l).
  { intros Hin. apply occ_pos in Hin. pose proof (lk_occ s Hlk p x q Hx) as Hc.
    rewrite Ho in Hc. unfold waiters in Hc. rewrite Hq in Hc. cbn in Hc. lia. }
  unfold k_proc_process_sleep_on_queue, k_proc_process_own_block, get_queue, get_proc.
  rewrite Hq. cbn [of_option]. rewrite bind_ok. cbn [procs put_queue set_queues]. rewrite Hx.
  cbn [of_option]. rewrite !bind_ok. cbn [procs put_proc set_procs]. rewrite lookup_insert_eq.
  cbn [of_option]. rewrite bind_ok, Ho. cbn [app].
  set (x1 := with_state _ PROCESS_STATE_SLEEPING). set (s1 := put_proc _ p x1).
  assert (Hp1 : procs s1 = <[p := x1]> (procs s)) by (cbn; by rewrite insert_insert_eq).
  assert (Hq1 : queues s1 !! q = Some (l ++ [p])) by (cbn; by rewrite lookup_insert_eq).
  assert (Hlk1 : linked s1).
  { apply (sched_step_linked s); [done|]. apply (step_sleep_on _ p q).
    unfold k_proc_process_sleep_on_queue, k_proc_process_own_block, get_queue, get_proc.
    rewrite Hq. cbn. rewrite Hx. cbn. rewrite lookup_insert_eq. cbn. by rewrite Ho. }
  exists s1. split; [done|]. split.
  - destruct (wakeup_queue_go_plain (l ++ [p]) s1 q (queue_fuel s1 q) Hq1) as (s2 & Hwk & _ & Hr & Hp2).
    + apply NoDup_app. split; [done|]. split; [|apply NoDup_singleton].
      intros y Hy ->%list_elem_of_singleton. done.
    + intros p' Hin. apply elem_of_app in Hin as [Hin|Hin].
      * destruct (Hpl p' Hin) as (y & Hy & Hrest). exists y.
        rewrite Hp1, lookup_insert_ne by (intros ->; done). done.
      * apply list_elem_of_singleton in Hin as ->. exists x1. rewrite Hp1, lookup_insert_eq. done.
    + unfold queue_fuel. rewrite Hq1. cbn. lia.
    + exists s2. split; [done|]. split.
      * rewrite Hr, rev_unit. apply elem_of_app. right. left.
      * unfold sleep_result, get_proc. rewrite Hp2, bool_decide_eq_true_2, Hp1, lookup_insert_eq
          by (apply elem_of_app; right; left).
        cbn. f_equal. apply Z.bits_inj'. intros n Hn.
        rewrite !Z.land_spec, Z.lnot_spec, Z.bits_0 by done.
        by destruct (Z.testbit (pr_flags x) n), (Z.testbit PROCESS_FLAG_INTERRUPTED n).
  - unfold k_proc_process_send_signal, MAX_SIGNAL in *.
    rewrite (proj2 (Z.ltb_ge sig 0)), (proj2 (Z.leb_gt 64 sig)) by lia. cbn [orb].
    unfold get_proc. rewrite Hp1, lookup_insert_eq. cbn [of_option]. rewrite bind_ok.
    set (x2 := with_signals x1 _). set (s2 := put_proc s1 p x2).
    unfold k_proc_process_wakeup_on_signal.
    change (current_process s2) with (current_process s). rewrite (proj2 (Z.eqb_neq _ _)) by done.
    unfold get_proc. assert (Hx2 : procs s2 !! p = Some x2) by (cbn; by rewrite lookup_insert_eq).
    rewrite Hx2. cbn [of_option]. rewrite bind_ok. change (schedulable x2) with false. cbn match.
    assert (Hlk2 : linked s2).
    { apply (linked_put s1 p x1 x2); [done|by rewrite Hp1, lookup_insert_eq|done]. }
    assert (∃ s3, k_proc_process_mark_ready s2 p = Ok s3) as [s3 Hm].
    { unfold k_proc_process_mark_ready, get_proc. rewrite Hx2. cbn [of_option]. rewrite bind_ok.
      set (x3 := with_state _ PROCESS_STATE_RUNNING).
      assert (Hx3 : pr_owners x3 = [q] ∧ pr_wait_node x3 = None ∧ pr_timeout_node x3 = None).
      { subst x3. destruct (k_proc_process_has_locks x2); cbn; by rewrite Hw, Ht. }
      destruct Hx3 as (Ho3 & Hw3 & Ht3). unfold k_proc_process_invalidate_locks.
      destruct (release_block_spec (put_proc s2 p x3) p x3) as (s4 & -> & _ & Hp4 & _).
      - apply (linked_put s2 p x2 x3); [done|done|]. by rewrite Ho3.
      - cbn. by rewrite lookup_insert_eq.
      - rewrite bind_ok. unfold get_proc. rewrite Hp4, lookup_insert_eq. cbn [of_option].
        rewrite bind_ok. cbn [pr_wait_node pr_timeout_node with_owners]. rewrite Hw3, Ht3. cbn. eauto. }
    exists s3. split; [done|].
    destruct (mark_ready_spec s2 p s3 Hlk2 Hm) as (_ & Hn & Hr & y & Hy & Hp3).
    rewrite Hx2 in Hy. injection Hy as <-. split; [rewrite Hr; apply elem_of_app; right; left|].
    split; [done|]. unfold sleep_result, get_proc. rewrite Hp3, lookup_insert_eq. cbn [of_option].
    rewrite bind_ok. f_equal. unfold made_ready.
    assert (k_proc_process_has_locks x2 = true) as -> by done. cbn.
    apply Z.bits_inj'. intros n Hn'. rewrite !Z.land_spec, Z.lor_spec.
    by destruct (Z.testbit PROCESS_FLAG_INTERRUPTED n); rewrite ?orb_true_r, ?andb_false_r.
Qed.

Lemma sleep_result_tells_witness :
  ∃ s1, k_proc_process_sleep_on_queue demo_sched 9 50 = Ok s1 ∧
    (∃ s2, k_proc_process_wakeup_queue s1 50 = Ok s2 ∧ 9 ∈ ready_queue s2 ∧
       sleep_result s2 9 = Ok 0) ∧
    (∃ s3, k_proc_process_send_signal s1 9 2 = Ok s3 ∧ 9 ∈ ready_queue s3 ∧
       (∀ q', 9 ∉ waiters s3 q') ∧ sleep_result s3 9 = Ok PROCESS_FLAG_INTERRUPTED).
Proof.
  apply (sleep_result_tells demo_sched 9 50 [2] (mk_proc 1 0 [] None None (0, 0) 0) 2
    demo_sched_linked); try reflexivity; [done| |apply NoDup_singleton|unfold MAX_SIGNAL; lia].
  intros p ->%list_elem_of_singleton. eexists. split; [reflexivity|]. done.
Defined.

(** ** Timed sleep *)

Section timed.
Implicit Types (s : sched) (a b p : Z).

Definition due (w : wait_node) (sec us : Z) : bool :=
  (wn_seconds w <? sec) || ((wn_seconds w =? sec) && (wn_microseconds w <=? us)).

(** A node is due exactly when it is not later than the clock. *)
Lemma due_later w sec us : due w sec us = negb (later w sec us).
Proof.
  unfold due, later. apply eq_true_iff_eq. rewrite negb_true_iff, orb_true_iff, andb_true_iff.
  rewrite orb_false_iff, andb_false_iff, !Z.ltb_lt, Z.eqb_eq, Z.leb_le, !Z.ltb_ge, Z.eqb_neq. lia.
Qed.

(** A deadline is the clock and the time to sleep together, as seconds and the rest of
    microseconds. *)
Lemma deadline_total t0 us :
  0 ≤ t0 → 0 ≤ us → t0 + us < 2 ^ 64 →
  let '(ds, dus) := deadline t0 (us / MICROSECONDS_PER_SECOND) (us mod MICROSECONDS_PER_SECOND) in
  1000000 * ds + dus = t0 + us ∧ 0 ≤ dus < 1000000.
Proof.
  intros H0 Hu Hlt. unfold deadline, MICROSECONDS_PER_SECOND.
  pose proof (Z.div_mod t0 1000000). pose proof (Z.mod_pos_bound t0 1000000).
  pose proof (Z.div_mod us 1000000). pose proof (Z.mod_pos_bound us 1000000).
  set (a := t0 / 1000000) in *. set (b := t0 mod 1000000) in *. set (c := us / 1000000) in *. set (d := us mod 1000000) in *.
  rewrite !(u64_small (a + c)), !(u64_small (b + d)) by lia.
  destruct (Z.leb_spec 1000000 (b + d)); [|lia].
  pose proof (Z.div_mod (b + d) 1000000). pose proof (Z.mod_pos_bound (b + d) 1000000).
  rewrite u64_small by lia. lia.
Qed.

Lemma due_total ds dus t :
  0 ≤ dus < 1000000 →
  (ds <? t / MICROSECONDS_PER_SECOND) || ((ds =? t / MICROSECONDS_PER_SECOND) && (dus <=? t mod MICROSECONDS_PER_SECOND)) =
  (1000000 * ds + dus <=? t).
Proof.
  intros Hd. unfold MICROSECONDS_PER_SECOND. pose proof (Z.div_mod t 1000000). pose proof (Z.mod_pos_bound t 1000000).
  apply eq_true_iff_eq. rewrite orb_true_iff, andb_true_iff, Z.ltb_lt, Z.eqb_eq, !Z.leb_le. nia.
Qed.

Lemma timed_sleep_round s new p x t0 us t fuel :
  sleep_queue s = 0 → procs s !! p = Some x → pr_owners x = [] → pr_wait_node x = None →
  pr_timeout_node x = None → new ≠ 0 → pr_state x ≠ PROCESS_STATE_FINISHED → (2 ≤ fuel)%nat →
  let '(ds, dus) := deadline t0 (us / MICROSECONDS_PER_SECOND) (us mod MICROSECONDS_PER_SECOND) in
  let sec := t / MICROSECONDS_PER_SECOND in
  let usec := t mod MICROSECONDS_PER_SECOND in
  ∃ s1, k_proc_process_sleep s new p t0 us = Ok s1 ∧
    if (ds <? sec) || ((ds =? sec) && (dus <=? usec))
    then ∃ s2, k_proc_process_update_timings fuel s1 t = Ok s2 ∧
      procs s2 !! p = Some (with_state x PROCESS_STATE_RUNNING) ∧
      ready_queue s2 = ready_queue s ++ [p] ∧ sleep_queue s2 = 0 ∧ wait_nodes s2 !! new = None
    else k_proc_process_update_timings fuel s1 t = Ok s1.
Proof.
  intros Hsq Hp Ho Hw Ht Hnew Hst Hf. unfold k_proc_process_sleep.
  destruct (deadline _ _ _) as [ds dus]. cbn zeta. unfold get_proc. rewrite Hp. cbn [of_option].
  rewrite bind_ok. unfold insert_sleeper. cbn [sleep_queue put_proc set_procs].
  rewrite Hsq, Z.eqb_refl, bind_ok. cbn [procs set_sleep put_proc set_procs]. rewrite lookup_insert_eq. cbn [of_option].
  rewrite bind_ok. eexists. split; [done|]. destruct x as [st fl ow wn tn sel sg].
  cbn in Ho, Hw, Ht, Hst. subst ow wn tn. destruct fuel as [|[|fuel]]; [lia|lia|].
  unfold k_proc_process_update_timings. cbn [wakeup_timing sleep_queue put_proc set_procs set_sleep].
  rewrite (proj2 (Z.eqb_neq new 0)) by done. cbn [wait_nodes set_sleep put_proc set_procs].
  rewrite lookup_insert_eq. cbn [of_option]. rewrite bind_ok. cbn [wn_seconds wn_microseconds].
  destruct ((ds <? _) || _); [|done].
  rewrite (proj2 (get_proc_ok _ p (mk_proc 3 fl [] (Some new) None sel sg)))
    by (cbn; by rewrite lookup_insert_eq).
  rewrite bind_ok. cbn [pr_state pr_timeout_node Z.eqb Pos.eqb PROCESS_STATE_FINISHED].
  rewrite bool_decide_eq_false_2, bind_ok by done.
  destruct (mark_ready_plain
    (put_proc (set_sleep (put_proc (set_sleep (put_proc s p
       (mk_proc st fl [] (Some new) None sel sg)) new (<[new := mk_wait_node p ds dus 0]> (wait_nodes s)))
       p (mk_proc 3 fl [] (Some new) None sel sg)) 0 (<[new := mk_wait_node p ds dus 0]> (wait_nodes s)))
       p (mk_proc 3 fl [] None None sel sg)) p (mk_proc 3 fl [] None None sel sg))
    as (s2 & Hm & Hp2 & Hq2 & Hr2 & Hs0 & Hwn).
  { cbn. by rewrite lookup_insert_eq. }
  1-3: done.
  unfold put_proc, set_procs, set_sleep, with_timers, with_state, PROCESS_STATE_SLEEPING in *.
  cbn in *. rewrite Hm. cbn.
  rewrite Hs0. cbn. eexists. split; [done|]. cbn.
  rewrite Hp2, lookup_insert_eq, Hr2, Hwn. split; [done|]. split; [done|]. split; [done|].
  rewrite delete_insert_eq. apply lookup_delete_eq.
Qed.

(** The ticks of the clock, at the given times *)
Fixpoint clock_ticks (fuel : nat) (s : sched) (ts : list Z) : res sched :=
  match ts with
  | [] => Ok s
  | t :: ts' => s' ← k_proc_process_update_timings fuel s t; clock_ticks fuel s' ts'
  end.

(** C36: A single timed sleeper is woken on time.  It has gone to sleep at the time [t0] for
    [us] microseconds, and nothing wraps around: as long as the ticks of the clock are
    earlier than [t0 + us] nothing changes, and at the first tick that is not, however many
    there were before, the process is running and in the ready queue, its timer node is
    gone and the queue of sleepers is empty. *)
Theorem timed_sleep_wakes s new p x t0 us fuel :
  sleep_queue s = 0 → procs s !! p = Some x → pr_owners x = [] → pr_wait_node x = None →
  pr_timeout_node x = None → new ≠ 0 → pr_state x ≠ PROCESS_STATE_FINISHED → (2 ≤ fuel)%nat →
  0 ≤ t0 → 0 ≤ us → t0 + us < 2 ^ 64 →
  ∃ s1, k_proc_process_sleep s new p t0 us = Ok s1 ∧
    ∀ early, Forall (λ t, t < t0 + us) early →
      clock_ticks fuel s1 early = Ok s1 ∧
      ∀ t, t0 + us ≤ t → ∃ s2, clock_ticks fuel s1 (early ++ [t]) = Ok s2 ∧
        procs s2 !! p = Some (with_state x PROCESS_STATE_RUNNING) ∧
        ready_queue s2 = ready_queue s ++ [p] ∧ sleep_queue s2 = 0 ∧ wait_nodes s2 !! new = None.
Proof.
  intros Hsq Hp Ho Hw Ht Hnew Hst Hf H0 Hu Hlt.
  pose proof (deadline_total t0 us H0 Hu Hlt) as Hd.
  pose proof (λ t, timed_sleep_round s new p x t0 us t fuel Hsq Hp Ho Hw Ht Hnew Hst Hf) as Hround.
  destruct (deadline _ _ _) as [ds dus]. destruct Hd as [Htot Hdus].
  destruct (Hround 0) as (s1 & Hs1 & _). exists s1. split; [done|].
  assert (Hone : ∀ t, t < t0 + us → k_proc_process_update_timings fuel s1 t = Ok s1).
  { intros t Hl. destruct (Hround t) as (s1' & Hs1' & H). rewrite Hs1 in Hs1'. injection Hs1' as <-.
    by rewrite due_total, Htot, (proj2 (Z.leb_gt _ _)) in H. }
  intros early He. assert (Hstay : ∀ l, clock_ticks fuel s1 (early ++ l) = clock_ticks fuel s1 l).
  { intros l. induction He as [|t early Hlate _ IH]; [done|]. cbn [app clock_ticks].
    by rewrite (Hone t Hlate), bind_ok. }
  split; [by rewrite <- (app_nil_r early), Hstay|]. intros t Hl. rewrite Hstay. cbn [clock_ticks].
  destruct (Hround t) as (s1' & Hs1' & H). rewrite Hs1 in Hs1'. injection Hs1' as <-.
  rewrite due_total, Htot, (proj2 (Z.leb_le _ _)) in H by done. destruct H as (s2 & Hs2 & H).
  exists s2. rewrite Hs2, bind_ok. done.
Qed.
End timed.

Lemma timed_sleep_wakes_witness :
  ∃ s1 s2, k_proc_process_sleep demo_sched 700 1 5000000 1500000 = Ok s1 ∧
    clock_ticks 2 s1 [5400000; 6499999; 6500000] = Ok s2 ∧ ready_queue s2 = [1].
Proof.
  destruct (timed_sleep_wakes demo_sched 700 1 (mk_proc 1 0 [] None None (0, 0) 0) 5000000 1500000 2)
    as (s1 & Hs & H); [done..|lia|lia|lia|lia|].
  destruct (H [5400000; 6499999]) as (_ & Hwake); [repeat constructor; lia|].
  destruct (Hwake 6500000) as (s2 & Hu & _ & Hr & _); [lia|].
  exists s1, s2. split; [exact Hs|]. split; [exact Hu|exact Hr].
Defined.

(** Two timed sleepers break the queue.  The list is searched for the first node that
    is not later than the new one, so it is kept latest first.  A second sleeper with a
    later or equal deadline is linked behind the head and the head behind it: a cycle, on
    which the search for any other node does not end.  A second sleeper with an earlier
    deadline is placed behind the head, and a tick between the two deadlines wakes
    nobody. *)
Theorem second_sleeper_breaks_queue s a b pa pb ds dus es eus s1 s2 :
  sleep_queue s = 0 → a ≠ 0 → b ≠ 0 → a ≠ b →
  insert_sleeper s a pa ds dus = Ok s1 → insert_sleeper s1 b pb es eus = Ok s2 →
  if later (mk_wait_node pa ds dus 0) es eus
  then ∀ fuel sec us, due (mk_wait_node pb es eus 0) sec us = true →
    later (mk_wait_node pa ds dus 0) sec us = true →
    wakeup_timing (S fuel) s2 sec us = Ok s2
  else (∃ wa wb, sleep_queue s2 = a ∧ wait_nodes s2 !! a = Some wa ∧ wn_next wa = b ∧
      wait_nodes s2 !! b = Some wb ∧ wn_next wb = a) ∧
    ∀ c fuel found prev, c ≠ a → c ≠ b → find_sleeper fuel s2 a prev c ≠ Ok found.
Proof.
  intros Hsq Ha Hb Hab H1 H2. unfold insert_sleeper in H1. rewrite Hsq, Z.eqb_refl in H1.
  apply Ok_inj in H1 as <-. unfold insert_sleeper in H2. cbn [sleep_queue set_sleep] in H2.
  rewrite (proj2 (Z.eqb_neq _ _)) in H2 by done. cbn [find_place] in H2.
  rewrite (proj2 (Z.eqb_neq _ _)) in H2 by done. cbn [wait_nodes set_sleep] in H2.
  rewrite lookup_insert_ne, lookup_insert_eq in H2 by done. cbn [of_option] in H2.
  rewrite bind_ok in H2. destruct (later (mk_wait_node pa ds dus 0) es eus) eqn:Hlater.
  - cbn [wn_next find_place] in H2. unfold sleep_fuel in H2. cbn [find_place] in H2.
    rewrite Z.eqb_refl in H2. rewrite bind_ok in H2.
    rewrite lookup_insert_ne, lookup_insert_eq in H2 by done. cbn [of_option] in H2.
    rewrite bind_ok in H2. apply Ok_inj in H2 as <-. intros fuel sec us _ Hl.
    cbn [wakeup_timing sleep_queue set_sleep]. rewrite (proj2 (Z.eqb_neq _ _)) by done.
    cbn [wait_nodes set_sleep]. rewrite lookup_insert_ne, lookup_insert_eq by done.
    cbn [of_option]. rewrite bind_ok. cbn [wn_seconds wn_microseconds].
    change ((ds <? sec) || ((ds =? sec) && (dus <=? us)))
      with (due (mk_wait_node pa ds dus 0) sec us).
    by rewrite due_later, Hl.
  - rewrite bind_ok in H2. rewrite lookup_insert_ne, lookup_insert_eq in H2 by done.
    cbn [of_option] in H2. rewrite bind_ok in H2. apply Ok_inj in H2 as <-.
    set (s2 := set_sleep _ _ _).
    assert (Hwa : wait_nodes s2 !! a = Some (mk_wait_node pa ds dus b)).
    { cbn. rewrite lookup_insert_ne by done. by rewrite lookup_insert_eq. }
    assert (Hwb : wait_nodes s2 !! b = Some (mk_wait_node pb es eus a)) by (cbn; by rewrite lookup_insert_eq).
    split; [do 2 eexists; done|]. intros c fuel found prev Hca Hcb.
    assert (Hgo : ∀ fuel prev, find_sleeper fuel s2 a prev c ≠ Ok found ∧
      find_sleeper fuel s2 b prev c ≠ Ok found).
    { clear fuel prev. induction fuel as [|fuel IH]; intros prev; [done|]. cbn [find_sleeper].
      rewrite !(proj2 (Z.eqb_neq _ 0)) by done. rewrite Hwa, Hwb. cbn [of_option].
      rewrite !bind_ok, !(proj2 (Z.eqb_neq _ c)) by done. split; apply IH. }
    apply Hgo.
Qed.

Lemma second_sleeper_breaks_queue_witness :
  ∃ s1 s2, insert_sleeper demo_sched 700 1 5 0 = Ok s1 ∧ insert_sleeper s1 800 2 9 0 = Ok s2 ∧
    ∃ wa wb, sleep_queue s2 = 700 ∧ wait_nodes s2 !! 700 = Some wa ∧ wn_next wa = 800 ∧
      wait_nodes s2 !! 800 = Some wb ∧ wn_next wb = 700.
Proof.
  destruct (insert_sleeper demo_sched 700 1 5 0) as [s1| | |] eqn:E1; [|discriminate E1..].
  destruct (insert_sleeper s1 800 2 9 0) as [s2| | |] eqn:E2;
    [|vm_compute in E1; injection E1 as <-; vm_compute in E2; discriminate E2..].
  exists s1, s2. split; [reflexivity|]. split; [exact E2|].
  destruct (second_sleeper_breaks_queue demo_sched 700 800 1 2 5 0 9 0 s1 s2) as [H _];
    [done|done|done|done|exact E1|exact E2|exact H].
Defined.

(** The value of a timed sleep is wrong when the clock and the deadline agree in the
    second: waking early within the last second is reported as a full sleep unless the
    microseconds of the clock happen to equal the seconds of the deadline. *)
Theorem sleep_return_misreports sec us t :
  0 ≤ us < MICROSECONDS_PER_SECOND → t / MICROSECONDS_PER_SECOND = sec →
  t mod MICROSECONDS_PER_SECOND < us → t mod MICROSECONDS_PER_SECOND ≠ sec →
  sleep_returns (sec, us) t = 0.
Proof.
  intros Hus Hs Ht Hne. unfold sleep_returns. cbn [fst snd]. rewrite Hs.
  rewrite (proj2 (Z.ltb_ge _ _)), (proj2 (Z.eqb_neq sec _)) by lia. done.
Qed.

Lemma sleep_return_misreports_witness : sleep_returns (10, 900000) 10000001 = 0.
Proof. apply (sleep_return_misreports 10 900000 10000001); done. Defined.
