(* ===== verification/Tty.v ===== *)
(** * kernel/src/dev/tty.c: the line discipline of terminals and pseudo-terminals

    A terminal has two byte rings (Ring.v): [in_buffer] carries input to the reader of
    the slave side, [out_buffer] carries echo and output to the master side.  [char] is
    signed; a character becomes a byte when it enters a ring.  Each [PUTC] may sleep on a
    full ring: [te_sleeps] gives, put by put, what the other processes do to that ring
    while the caller sleeps, and [te_others], sleep by sleep, what they do meanwhile to the
    rest of the terminal, which no lock protects: its line, its flags, its settings and its
    other ring.  So everything is read anew after a put.  Effects outside the terminal
    (wake-ups, display, signals) are events in program order. *)

From S2P Require Import Prelude ByteQueue Ring Ctype.

(** ** Constants (libc/include/sys/tty.h, signal.h) *)

Definition ISTRIP : Z := Z.shiftl 1 5.
Definition INLCR : Z := Z.shiftl 1 6.
Definition IGNCR : Z := Z.shiftl 1 7.
Definition ICRNL : Z := Z.shiftl 1 8.
Definition IUCLC : Z := Z.shiftl 1 9.
Definition BRKINT : Z := Z.shiftl 1 1.
Definition OPOST : Z := Z.shiftl 1 0.
Definition OLCUC : Z := Z.shiftl 1 1.
Definition ONLCR : Z := Z.shiftl 1 2.
Definition OCRNL : Z := Z.shiftl 1 3.
Definition ONLRET : Z := Z.shiftl 1 5.
Definition CS8 : Z := Z.lor (Z.shiftl 1 7) (Z.shiftl 1 6).
Definition CREAD : Z := Z.shiftl 1 9.
Definition ISIG : Z := Z.shiftl 1 0.
Definition ICANON : Z := Z.shiftl 1 1.
Definition ECHO : Z := Z.shiftl 1 3.
Definition ECHOE : Z := Z.shiftl 1 4.
Definition ECHOK : Z := Z.shiftl 1 5.
Definition ECHONL : Z := Z.shiftl 1 6.
Definition ECHOCTL : Z := Z.shiftl 1 7.
Definition IEXTEN : Z := Z.shiftl 1 15.
Definition VINTR : nat := 1.
Definition VQUIT : nat := 2.
Definition VERASE : nat := 3.
Definition VKILL : nat := 4.
Definition VEOF : nat := 5.
Definition VMIN : nat := 6.
Definition VEOL : nat := 7.
Definition VTIME : nat := 8.
Definition VSTART : nat := 11.
Definition VSTOP : nat := 12.
Definition VSUSP : nat := 13.
Definition VLNEXT : nat := 15.
Definition VWERASE : nat := 16.
Definition NCCS : nat := 20.
Definition SIGINT : Z := 2.
Definition SIGQUIT : Z := 3.
Definition SIGTSTP : Z := 20.
Definition TCGETS : Z := 0x5401.
Definition TCSETS : Z := 0x5402.
Definition TCSETSW : Z := 0x5043.
Definition TCSETSF : Z := 0x5044.
Definition TCIOGPGRP : Z := 0x400A.
Definition TCIOSPGRP : Z := 0x400B.
Definition PTY_BUFFER_SIZE : Z := 4096.
Definition TTY_FLAG_NEXTL : Z := Z.shiftl 1 0.

(** ** State *)

Record termios := mk_termios {
  c_iflag : Z;
  c_oflag : Z;
  c_cflag : Z;
  c_lflag : Z;
  c_cc : list Z
}.

Record tty_t := mk_tty {
  tt_id : Z;
  ts : termios;
  in_buffer : ringbuffer_t;
  out_buffer : ringbuffer_t;
  line_buffer : list Z;
  line_length : Z;
  tt_flags : Z;
  tt_process : Z
}.

Inductive tty_event :=
| EvIn (e : rb_event) (* wake-ups and sleeps on the input ring *)
| EvOut (e : rb_event) (* the same on the output ring *)
| EvDisplay (c : Z) (* a character of a console, to screen, serial line and history *)
| EvSignal (pid sig : Z). (* k_proc_process_send_signal *)

(** The terminal in its surroundings: is it in the list of pseudo-terminals
    ([__k_dev_tty_is_pty]), the live processes, the sleeps ahead (for each put what happens
    to its ring; for each put that does sleep what happens to the rest), the events so far. *)
Record tenv := mk_tenv {
  te_tty : tty_t;
  te_is_pty : bool;
  te_pids : list Z;
  te_sleeps : list (list rb_wakeup);
  te_others : list (tty_t → tty_t);
  te_events : list tty_event
}.

Definition set_ts (t : tty_t) x :=
  mk_tty (tt_id t) x (in_buffer t) (out_buffer t) (line_buffer t) (line_length t) (tt_flags t) (tt_process t).
Definition set_in (t : tty_t) x :=
  mk_tty (tt_id t) (ts t) x (out_buffer t) (line_buffer t) (line_length t) (tt_flags t) (tt_process t).
Definition set_out (t : tty_t) x :=
  mk_tty (tt_id t) (ts t) (in_buffer t) x (line_buffer t) (line_length t) (tt_flags t) (tt_process t).
Definition set_line (t : tty_t) b n :=
  mk_tty (tt_id t) (ts t) (in_buffer t) (out_buffer t) b n (tt_flags t) (tt_process t).
Definition set_flags (t : tty_t) x :=
  mk_tty (tt_id t) (ts t) (in_buffer t) (out_buffer t) (line_buffer t) (line_length t) x (tt_process t).
Definition set_process (t : tty_t) x :=
  mk_tty (tt_id t) (ts t) (in_buffer t) (out_buffer t) (line_buffer t) (line_length t) (tt_flags t) x.
Definition with_tty (e : tenv) (t : tty_t) : tenv :=
  mk_tenv t (te_is_pty e) (te_pids e) (te_sleeps e) (te_others e) (te_events e).
Definition add_event (e : tenv) (ev : tty_event) : tenv :=
  mk_tenv (te_tty e) (te_is_pty e) (te_pids e) (te_sleeps e) (te_others e) (te_events e ++ [ev]).

Definition iflag (t : tty_t) (f : Z) : bool := truthy (Z.land (c_iflag (ts t)) f).
Definition oflag (t : tty_t) (f : Z) : bool := truthy (Z.land (c_oflag (ts t)) f).
Definition lflag (t : tty_t) (f : Z) : bool := truthy (Z.land (c_lflag (ts t)) f).
(** [ts.c_cc[i]]; the indices are constants below [NCCS] *)
Definition cc (t : tty_t) (i : nat) : Z := nth i (c_cc (ts t)) 0.

(** ** Putting characters into the rings: [__rb_putchar], [PUTC_IN], [PUTC_OUT] *)

Definition next_sleeps (e : tenv) : list rb_wakeup := default [] (head (te_sleeps e)).

Definition slept (ev : list rb_event) : bool :=
  existsb (λ x, match x with SleepReader | SleepWriter => true | _ => false end) ev.

(** The terminal after a call that has left the events [ev] on one of its rings: when the
    caller slept, the others have run. *)
Definition after_sleep (e : tenv) (ev : list rb_event) : tty_t * list (tty_t → tty_t) :=
  if slept ev then
    match te_others e with
    | [] => (te_tty e, [])
    | f :: fs => (f (te_tty e), fs)
    end
  else (te_tty e, te_others e).

Definition put_out (e : tenv) (rb : ringbuffer_t) (ev : list rb_event) : tenv :=
  let '(t, others) := after_sleep e ev in
  mk_tenv (set_out t rb) (te_is_pty e) (te_pids e) (tail (te_sleeps e)) others (te_events e ++ map EvOut ev).
Definition put_in (e : tenv) (rb : ringbuffer_t) (ev : list rb_event) : tenv :=
  let '(t, others) := after_sleep e ev in
  mk_tenv (set_in t rb) (te_is_pty e) (te_pids e) (tail (te_sleeps e)) others (te_events e ++ map EvIn ev).

Definition PUTC_OUT (e : tenv) (c : Z) : res tenv :=
  '(_, rb, ev) ← ringbuffer_write (next_sleeps e) (out_buffer (te_tty e)) [u8 c] [];
  Ok (put_out e rb ev).

Definition PUTC_IN (e : tenv) (c : Z) : res tenv :=
  '(_, rb, ev) ← ringbuffer_write (next_sleeps e) (in_buffer (te_tty e)) [u8 c] [];
  Ok (put_in e rb ev).

(** ** The console: [k_dev_vt_tty_callback] of vt.c moves the output to the display, up to
    and including the first NUL.  Each turn takes a byte, so the ring bounds the loop. *)

Definition vt_getc (e : tenv) : res (Z * tenv) :=
  let t := te_tty e in
  if truthy (ringbuffer_read_available (out_buffer t)) then
    '(_, bs, rb, ev) ← ringbuffer_read [] (out_buffer t) 1 [];
    Ok (s8 (hd 0 bs),
        mk_tenv (set_out t rb) (te_is_pty e) (te_pids e) (te_sleeps e) (te_others e)
          (te_events e ++ map EvOut ev))
  else Ok (0, e).

Fixpoint vt_drain (fuel : nat) (e : tenv) : res tenv :=
  match fuel with
  | O => OutOfFuel
  | S fuel' =>
      '(c, e1) ← vt_getc e;
      if truthy c then vt_drain fuel' (add_event e1 (EvDisplay c)) else Ok e1
  end.

Definition k_dev_vt_tty_callback (e : tenv) : res tenv :=
  vt_drain (S (Z.to_nat (rb_size (out_buffer (te_tty e))))) e.

(** ** Output processing *)

Definition output_end (e : tenv) (c : Z) : res tenv :=
  e1 ← PUTC_OUT e c;
  if te_is_pty e1 then Ok e1 else k_dev_vt_tty_callback e1.

Definition process_output_char (e : tenv) (c : Z) : res tenv :=
  let t := te_tty e in
  if negb (oflag t OPOST) then output_end e c
  else
    '(e1, c1) ← (if c =? 10 then
        if oflag t ONLCR then e' ← PUTC_OUT e 13; Ok (e', c)
        else if oflag t OCRNL then Ok (e, 13) else Ok (e, c)
      else Ok (e, c));
    if (c1 =? 13) && oflag t ONLRET then Ok e1
    else
      let c2 := if oflag t OLCUC && truthy (islower c1) then isupper c1 else c1 in
      output_end e1 c2.

(** [process_output(pty, '^'); process_output(pty, ('@' + c) % 128);] *)
Definition output_ctl (e : tenv) (c : Z) : res tenv :=
  e1 ← process_output_char e 94;
  process_output_char e1 (s8 (Z.rem (64 + c) 128)).

(** ** The line being edited *)

Definition line_get (t : tty_t) (i : Z) : res Z :=
  if (0 <=? i) && (i <? Z.of_nat (length (line_buffer t)))
  then of_option (line_buffer t !! Z.to_nat i) else Fault.

Definition line_set (t : tty_t) (i c : Z) : res (list Z) :=
  if (0 <=? i) && (i <? Z.of_nat (length (line_buffer t)))
  then Ok (<[Z.to_nat i := c]> (line_buffer t)) else Fault.

(** [for(int i = 0; i <= ctrl; i++) process_output(pty, '\010');] *)
Definition output_backspaces (e : tenv) (ctrl : bool) : res tenv :=
  e1 ← process_output_char e 8;
  if ctrl then process_output_char e1 8 else Ok e1.

(** The body of the loop of [__k_dev_tty_erase] *)
Definition erase_one (e : tenv) : res tenv :=
  let t := te_tty e in
  ctrl ← (if lflag t ECHOCTL
          then x ← line_get t (line_length t - 1); Ok (truthy (iscntrl x))
          else Ok false);
  b ← line_set t (line_length t - 1) 0;
  let e1 := with_tty e (set_line t b (line_length t - 1)) in
  if lflag t ECHO then output_backspaces e1 ctrl else Ok e1.

Fixpoint erase_loop (amount : nat) (e : tenv) : res tenv :=
  match amount with
  | O => Ok e
  | S n => e1 ← erase_one e; erase_loop n e1
  end.

Definition tty_erase (e : tenv) (amount : Z) : res tenv :=
  let n := if line_length (te_tty e) <? amount then line_length (te_tty e) else amount in
  erase_loop (Z.to_nat n) e.

(** [while(pty->line_length && pty->line_buffer[pty->line_length - 1] != ' ')] erase one.
    Every turn shortens the line, unless the caller sleeps and others lengthen it; a line
    longer than the buffer faults.  So the sleeps ahead and the buffer bound the loop. *)
Definition word_fuel (e : tenv) : nat := Z.to_nat ((PTY_BUFFER_SIZE + 3) * (1 + Z.of_nat (length (te_others e)))).

Fixpoint erase_word (fuel : nat) (e : tenv) : res tenv :=
  match fuel with
  | O => OutOfFuel
  | S fuel' =>
      let t := te_tty e in
      if truthy (line_length t) then
        x ← line_get t (line_length t - 1);
        if x =? 32 then Ok e else e1 ← tty_erase e 1; erase_word fuel' e1
      else Ok e
  end.

Definition line_putc (e : tenv) (c : Z) : res tenv :=
  let t := te_tty e in
  if line_length t <? PTY_BUFFER_SIZE then
    b ← line_set t (line_length t) c;
    Ok (with_tty e (set_line t b (line_length t + 1)))
  else Ok e.

(** [while(pty->line_length > 0)].  The index grows with every turn, and the array has
    [PTY_BUFFER_SIZE + 2] characters: a turn behind them faults, which bounds the loop. *)
Fixpoint flush_loop (fuel : nat) (i : Z) (e : tenv) : res tenv :=
  match fuel with
  | O => OutOfFuel
  | S fuel' =>
      if 0 <? line_length (te_tty e) then
        x ← line_get (te_tty e) i;
        e1 ← PUTC_IN e x;
        let t := te_tty e1 in
        flush_loop fuel' (i + 1) (with_tty e1 (set_line t (line_buffer t) (u32 (line_length t - 1))))
      else Ok e
  end.

Definition flush_fuel : nat := Z.to_nat (PTY_BUFFER_SIZE + 3).

Definition line_flush (e : tenv) : res tenv := flush_loop flush_fuel 0 e.

(** ** Input processing *)

(** [if((lflag & ECHOCTL) && iscntrl(c)) "^X" else c], under [ECHO] *)
Definition echo_char (e : tenv) (c : Z) : res tenv :=
  if lflag (te_tty e) ECHO then
    if lflag (te_tty e) ECHOCTL && truthy (iscntrl c) then output_ctl e c
    else process_output_char e c
  else Ok e.

(** The signal a character stands for; -1: none. *)
Definition input_signal (t : tty_t) (c : Z) : Z :=
  if lflag t ISIG then
    if c =? cc t VINTR then SIGINT
    else if c =? cc t VQUIT then SIGQUIT
    else if c =? cc t VSUSP then SIGTSTP else -1
  else -1.

Definition send_signal (e : tenv) (c sig : Z) : res tenv :=
  e1 ← (if lflag (te_tty e) ECHOCTL then output_ctl e c else Ok e);
  let t := te_tty e1 in
  if (0 <? tt_process t) && bool_decide (tt_process t ∈ te_pids e1)
  then Ok (add_event e1 (EvSignal (tt_process t) sig)) else Ok e1.

(** [ISTRIP], [IGNCR], [INLCR], [ICRNL]; [None]: the character is dropped. *)
Definition input_map (t : tty_t) (c : Z) : option Z :=
  let c := if iflag t ISTRIP then Z.land c 0x7F else c in
  if iflag t IGNCR && (c =? 13) then None
  else if iflag t INLCR && (c =? 10) then Some 13
  else if iflag t ICRNL && (c =? 13) then Some 10
  else Some c.

(** The end of the canonical branch: the character joins the line. *)
Definition input_ordinary (e : tenv) (c : Z) : res tenv :=
  e1 ← line_putc e c;
  e2 ← echo_char e1 c;
  let t := te_tty e2 in
  if (c =? 10) || (c =? cc t VEOL) then
    e3 ← (if negb (lflag t ECHO) && lflag t ECHONL then process_output_char e2 c else Ok e2);
    let t3 := te_tty e3 in
    b ← line_set t3 (line_length t3 - 1) c;
    line_flush (with_tty e3 (set_line t3 b (line_length t3)))
  else Ok e2.

(** [VKILL], [VEOF], then ordinary characters *)
Definition input_kill_eof (e : tenv) (c : Z) : res tenv :=
  let t := te_tty e in
  if c =? cc t VKILL then
    if lflag t ECHOK then tty_erase e (line_length t)
    else if lflag t ECHOCTL then output_ctl e c else Ok e
  else if c =? cc t VEOF then line_flush e
  else input_ordinary e c.

(** The canonical branch *)
Definition input_canonical (e : tenv) (c : Z) : res tenv :=
  let t := te_tty e in
  if (c =? cc t VLNEXT) && lflag t IEXTEN then
    e1 ← process_output_char (with_tty e (set_flags t (Z.lor (tt_flags t) TTY_FLAG_NEXTL))) 94;
    process_output_char e1 8
  else
    let c := if iflag t IUCLC && lflag t IEXTEN && truthy (isupper c) then s8 (tolower c) else c in
    if lflag t ECHOE then
      if c =? cc t VERASE then tty_erase e 1
      else if c =? cc t VWERASE then
        if negb (lflag t IEXTEN) then output_ctl e c
        else erase_word (word_fuel e) e
      else input_kill_eof e c
    else if lflag t ECHOCTL && ((c =? cc t VERASE) || (c =? cc t VWERASE)) then output_ctl e c
    else input_kill_eof e c.

Definition process_input_char (e : tenv) (c : Z) : res tenv :=
  let t := te_tty e in
  if truthy (Z.land (tt_flags t) TTY_FLAG_NEXTL) then
    e1 ← line_putc
           (with_tty e (set_flags t (u8 (Z.land (tt_flags t) (Z.lnot TTY_FLAG_NEXTL))))) c;
    echo_char e1 c
  else
    let sig := input_signal t c in
    if negb (sig =? -1) then send_signal e c sig
    else
      match input_map t c with
      | None => Ok e
      | Some c =>
          if lflag t ICANON then input_canonical e c
          else
            e1 ← (if lflag t ECHO then process_output_char e c else Ok e);
            PUTC_IN e1 c
      end.

(** ** Reading and writing the two sides *)

Fixpoint pty_write_master (e : tenv) (data : list Z) : res tenv :=
  match data with
  | [] => Ok e
  | b :: data' => e1 ← process_input_char e (s8 b); pty_write_master e1 data'
  end.

Fixpoint pty_write_slave (e : tenv) (data : list Z) : res tenv :=
  match data with
  | [] => Ok e
  | b :: data' => e1 ← process_output_char e (s8 b); pty_write_slave e1 data'
  end.

(** The bytes read and the returned value; the bytes go to the caller's buffer from its
    start. *)
Definition pty_read_master (e : tenv) (size : Z) : res (Z * list Z * tenv) :=
  '(r, bs, rb, ev) ← ringbuffer_read (next_sleeps e) (out_buffer (te_tty e)) (Z.to_nat size) [];
  Ok (r, bs, put_out e rb ev).

(** How many bytes [__k_dev_tty_pty_read_slave] asks the ring for *)
Definition read_slave_size (t : tty_t) (size : Z) : Z :=
  if negb (lflag t ICANON) then
    if cc t VMIN =? 0 then
      if size <? ringbuffer_read_available (in_buffer t)
      then ringbuffer_read_available (in_buffer t) else size
    else if size <? cc t VMIN then cc t VMIN else size
  else size.

(** The caller's buffer has [size] bytes: storing more is a [Fault]. *)
Definition pty_read_slave (e : tenv) (size : Z) : res (Z * list Z * tenv) :=
  '(r, bs, rb, ev) ←
    ringbuffer_read (next_sleeps e) (in_buffer (te_tty e)) (Z.to_nat (read_slave_size (te_tty e) size)) [];
  if Z.of_nat (length bs) <=? size then Ok (r, bs, put_in e rb ev) else Fault.

Definition pty_read (e : tenv) (master : bool) (size : Z) : res (Z * list Z * tenv) :=
  if master then pty_read_master e size else pty_read_slave e size.

(** The returned value is the size of the request. *)
Definition pty_write (e : tenv) (master : bool) (data : list Z) : res (Z * tenv) :=
  e1 ← (if master then pty_write_master e data else pty_write_slave e data);
  Ok (u32 (Z.of_nat (length data)), e1).

(** ** Readiness *)

Definition tty_event2index (event : Z) : Z :=
  if event =? VFS_EVENT_READ then 0
  else if event =? VFS_EVENT_WRITE then 1
  else if event =? VFS_EVENT_EXCEPT then 2
  else - EINVAL.

Definition check_master (t : tty_t) (event : Z) : Z :=
  if event =? VFS_EVENT_READ then b2z (0 <? ringbuffer_read_available (out_buffer t))
  else if event =? VFS_EVENT_WRITE then b2z (0 <? ringbuffer_write_available (in_buffer t))
  else 0.

Definition check_slave (t : tty_t) (event : Z) : Z :=
  if event =? VFS_EVENT_READ then b2z (0 <? ringbuffer_read_available (in_buffer t))
  else if event =? VFS_EVENT_WRITE then b2z (0 <? ringbuffer_write_available (out_buffer t))
  else 0.

(** [device] is [None] when the node has no device. *)
Definition tty_check (device : option tty_t) (master : bool) (event : Z) : Z :=
  match device with
  | None => 0
  | Some t => if master then check_master t event else check_slave t event
  end.

(** [__k_dev_tty_wait] on the three selection queues of one side, each the block nodes
    waiting in it: the queues afterwards. *)
Definition tty_wait (queues : list (list Z)) (event node : Z) : res (list (list Z)) :=
  let index := tty_event2index event in
  if index <? 0 then Fault
  else
    q ← of_option (queues !! Z.to_nat index);
    if bool_decide (node ∈ q) then Ok queues
    else Ok (<[Z.to_nat index := q ++ [node]]> queues).

(** ** Control requests.  The argument is the object behind [args], [None] for a pointer
    that [IS_VALID_PTR] rejects. *)

Inductive tty_arg := ArgTermios (x : termios) | ArgPid (p : Z).

Definition tty_ioctl (device : option tenv) (req : Z) (arg : option tty_arg)
    : res (Z * option tty_arg * option tenv) :=
  match device with
  | None => Ok (- ENODEV, arg, None)
  | Some e =>
      let t := te_tty e in
      if req =? TCGETS then
        match arg with
        | None => Ok (- EINVAL, arg, Some e)
        | Some _ => Ok (0, Some (ArgTermios (ts t)), Some e)
        end
      else if (req =? TCSETSW) || (req =? TCSETSF) || (req =? TCSETS) then
        match arg with
        | Some (ArgTermios x) =>
            e1 ← (if lflag t ICANON && negb (truthy (Z.land (c_lflag x) ICANON))
                  then line_flush e else Ok e);
            Ok (0, arg, Some (with_tty e1 (set_ts (te_tty e1) x)))
        | Some (ArgPid _) => Fault
        | None => Ok (- EINVAL, arg, Some e)
        end
      else if req =? TCIOGPGRP then
        match arg with
        | None => Ok (- EINVAL, arg, Some e)
        | Some _ => Ok (0, Some (ArgPid (tt_process t)), Some e)
        end
      else if req =? TCIOSPGRP then
        match arg with
        | Some (ArgPid p) => Ok (0, arg, Some (with_tty e (set_process t p)))
        | Some (ArgTermios _) => Fault
        | None => Ok (- EINVAL, arg, Some e)
        end
      else Ok (- EINVAL, arg, Some e)
  end.

(** ** Creation *)

Definition sane_ts : termios :=
  mk_termios (Z.lor ICRNL BRKINT) (Z.lor ONLCR OPOST) (Z.lor CREAD CS8)
    (Z.lor (Z.lor (Z.lor (Z.lor (Z.lor ECHO ECHOE) ECHOK) ICANON) ISIG) IEXTEN)
    (<[VWERASE := 23]> (<[VLNEXT := 22]> (<[VTIME := 0]> (<[VSUSP := 26]> (<[VSTOP := 19]>
     (<[VSTART := 17]> (<[VQUIT := 28]> (<[VMIN := 1]> (<[VKILL := 21]> (<[VINTR := 3]>
     (<[VERASE := 0x7f]> (<[VEOL := 0]> (<[VEOF := 4]> (replicate NCCS 0)))))))))))))).

(** [__k_dev_tty_create_pty]: the contents of fresh memory are arbitrary. *)
Definition create_pty (id : Z) (inb outb lineb : list Z) : tty_t :=
  mk_tty id sane_ts (ringbuffer_create inb PTY_BUFFER_SIZE)
    (ringbuffer_create outb PTY_BUFFER_SIZE)
    (take (Z.to_nat (PTY_BUFFER_SIZE + 2)) lineb) 0 0 0.
