(* ===== verification/TtyFacts.v ===== *)
(** * Correctness of the line discipline

    [ldisc] is what a terminal promises for one input character: what becomes of the line
    being edited, what the reader gets, what is echoed, which signal is sent.  The code
    implements it on every branch ([tty_implements_ldisc]); its consequences for whole
    lines, for erasing, for raw mode follow from the specification.  What goes wrong is at
    the end: a raw read stores more than was asked for, and two writers that end a line
    together make the flush run behind it. *)

From S2P Require Import Prelude ByteQueue Ring Ctype Tty.

(** ** The specification *)

Definition has (flags f : Z) : bool := truthy (Z.land flags f).
Definition ccs (x : termios) (i : nat) : Z := nth i (c_cc x) 0.

(** Output processing of one character: the bytes that reach the master side. *)
Definition opost (x : termios) (c : Z) : list Z :=
  if negb (has (c_oflag x) OPOST) then [u8 c]
  else if c =? 10 then
    if has (c_oflag x) ONLCR then [13; 10]
    else if has (c_oflag x) OCRNL then if has (c_oflag x) ONLRET then [] else [13] else [10]
  else if (c =? 13) && has (c_oflag x) ONLRET then []
  else if has (c_oflag x) OLCUC && truthy (islower c) then [0] else [u8 c].

(** ["^X"] for a control character *)
Definition ctl_echo (x : termios) (c : Z) : list Z :=
  opost x 94 ++ opost x (s8 (Z.rem (64 + c) 128)).

Definition echo_of (x : termios) (c : Z) : list Z :=
  if has (c_lflag x) ECHO then
    if has (c_lflag x) ECHOCTL && truthy (iscntrl c) then ctl_echo x c else opost x c
  else [].

(** What erasing one character echoes: a backspace for each column it took. *)
Definition erase_echo (x : termios) (c : Z) : list Z :=
  if has (c_lflag x) ECHO then
    opost x 8 ++ (if has (c_lflag x) ECHOCTL && truthy (iscntrl c) then opost x 8 else [])
  else [].

(** A line without its last [n] characters, and the echo. *)
Definition cut (line : list Z) (n : nat) : list Z := take (length line - n) line.
Definition cut_echo (x : termios) (line : list Z) (n : nat) : list Z :=
  concat (erase_echo x <$> rev (drop (length line - n) line)).

(** The number of characters after the last space, from the reversed line. *)
Fixpoint word_len (rline : list Z) : nat :=
  match rline with
  | [] => 0
  | c :: r => if c =? 32 then 0 else S (word_len r)
  end.

(** A full line accepts no more characters, but an end of line replaces its last one. *)
Definition add_char (line : list Z) (c : Z) : list Z :=
  if Z.of_nat (length line) <? PTY_BUFFER_SIZE then line ++ [c] else line.
Definition close_line (line : list Z) (c : Z) : list Z :=
  take (length (add_char line c) - 1) (add_char line c) ++ [c].

Record ld_out := mk_out {
  o_line : list Z;
  o_next : bool; (* the next character is literal *)
  o_deliver : list Z;
  o_echo : list Z;
  o_signal : list Z
}.

Definition end_of_line (x : termios) (c : Z) : bool := (c =? 10) || (c =? ccs x VEOL).

Definition ld_ordinary (x : termios) (line : list Z) (c : Z) : ld_out :=
  if end_of_line x c then
    mk_out [] false (u8 <$> close_line line c)
      (echo_of x c ++ (if negb (has (c_lflag x) ECHO) && has (c_lflag x) ECHONL
                       then opost x c else [])) []
  else mk_out (add_char line c) false [] (echo_of x c) [].

Definition ld_kill_eof (x : termios) (line : list Z) (c : Z) : ld_out :=
  if c =? ccs x VKILL then
    if has (c_lflag x) ECHOK then mk_out [] false [] (cut_echo x line (length line)) []
    else mk_out line false [] (if has (c_lflag x) ECHOCTL then ctl_echo x c else []) []
  else if c =? ccs x VEOF then mk_out [] false (u8 <$> line) [] []
  else ld_ordinary x line c.

Definition ld_canonical (x : termios) (line : list Z) (c : Z) : ld_out :=
  if (c =? ccs x VLNEXT) && has (c_lflag x) IEXTEN then
    mk_out line true [] (opost x 94 ++ opost x 8) []
  else
    let c := if has (c_iflag x) IUCLC && has (c_lflag x) IEXTEN && truthy (isupper c)
             then s8 (tolower c) else c in
    if has (c_lflag x) ECHOE then
      if c =? ccs x VERASE then mk_out (cut line 1) false [] (cut_echo x line 1) []
      else if c =? ccs x VWERASE then
        if has (c_lflag x) IEXTEN
        then mk_out (cut line (word_len (rev line))) false []
               (cut_echo x line (word_len (rev line))) []
        else mk_out line false [] (ctl_echo x c) []
      else ld_kill_eof x line c
    else if has (c_lflag x) ECHOCTL && ((c =? ccs x VERASE) || (c =? ccs x VWERASE))
    then mk_out line false [] (ctl_echo x c) []
    else ld_kill_eof x line c.

(** The signal a character stands for *)
Definition ld_signal (x : termios) (c : Z) : option Z :=
  if has (c_lflag x) ISIG then
    if c =? ccs x VINTR then Some SIGINT
    else if c =? ccs x VQUIT then Some SIGQUIT
    else if c =? ccs x VSUSP then Some SIGTSTP else None
  else None.

Definition ld_map (x : termios) (c : Z) : option Z :=
  let c := if has (c_iflag x) ISTRIP then Z.land c 0x7F else c in
  if has (c_iflag x) IGNCR && (c =? 13) then None
  else if has (c_iflag x) INLCR && (c =? 10) then Some 13
  else if has (c_iflag x) ICRNL && (c =? 13) then Some 10
  else Some c.

(** One character: [target] tells whether a live process receives the signals. *)
Definition ldisc (x : termios) (target : bool) (line : list Z) (next : bool) (c : Z) : ld_out :=
  if next then mk_out (add_char line c) false [] (echo_of x c) []
  else match ld_signal x c with
  | Some sig =>
      mk_out line false [] (if has (c_lflag x) ECHOCTL then ctl_echo x c else [])
        (if target then [sig] else [])
  | None =>
      match ld_map x c with
      | None => mk_out line false [] [] []
      | Some c =>
          if has (c_lflag x) ICANON then ld_canonical x line c
          else mk_out line false [u8 c] (if has (c_lflag x) ECHO then opost x c else []) []
      end
  end.

(** ** The view of the code's state *)

Definition tty_line (t : tty_t) : list Z := take (Z.to_nat (line_length t)) (line_buffer t).
Definition tty_next (t : tty_t) : bool := truthy (Z.land (tt_flags t) TTY_FLAG_NEXTL).
Definition tty_signals (e : tenv) : list (Z * Z) :=
  omap (λ ev, match ev with EvSignal p s => Some (p, s) | _ => None end) (te_events e).

Definition tty_wf (t : tty_t) : Prop :=
  rb_wf (in_buffer t) ∧ rb_wf (out_buffer t) ∧
  Z.of_nat (length (line_buffer t)) = PTY_BUFFER_SIZE + 2 ∧
  0 ≤ line_length t ≤ PTY_BUFFER_SIZE.

(** The parts of the state that processing a character leaves alone, and the line. *)
Record conf := mk_conf {
  k_ts : termios;
  k_process : Z;
  k_pids : list Z;
  k_line : list Z;
  k_next : bool
}.

Definition conf_of (e : tenv) : conf :=
  mk_conf (ts (te_tty e)) (tt_process (te_tty e)) (te_pids e)
    (tty_line (te_tty e)) (tty_next (te_tty e)).

Definition free_in (e : tenv) : Z := rb_size (in_buffer (te_tty e)) - 1 - rb_used (in_buffer (te_tty e)).
Definition free_out (e : tenv) : Z := rb_size (out_buffer (te_tty e)) - 1 - rb_used (out_buffer (te_tty e)).

(** The computation [r] started in [e] ends in configuration [k], delivers [d], echoes [ec]
    and sends the signals [sg], provided the rings have the room. *)
Definition runs (r : res tenv) (e : tenv) (k : conf) (d ec : list Z) (sg : list (Z * Z)) : Prop :=
  te_is_pty e = true → tty_wf (te_tty e) →
  Z.of_nat (length d) ≤ free_in e → Z.of_nat (length ec) ≤ free_out e →
  ∃ e', r = Ok e' ∧ te_is_pty e' = true ∧ tty_wf (te_tty e') ∧ conf_of e' = k ∧
    rb_view (in_buffer (te_tty e')) = rb_view (in_buffer (te_tty e)) ++ d ∧
    rb_size (in_buffer (te_tty e')) = rb_size (in_buffer (te_tty e)) ∧
    rb_view (out_buffer (te_tty e')) = rb_view (out_buffer (te_tty e)) ++ ec ∧
    rb_size (out_buffer (te_tty e')) = rb_size (out_buffer (te_tty e)) ∧
    tty_signals e' = tty_signals e ++ sg.

Section runs.
Implicit Types (e : tenv) (k : conf) (d ec : list Z) (x : termios).

Lemma runs_ret e : runs (Ok e) e (conf_of e) [] [] [].
Proof. intros ? ? _ _. exists e. rewrite !app_nil_r. done. Qed.

Lemma runs_done e k : conf_of e = k → runs (Ok e) e k [] [] [].
Proof. intros <-. apply runs_ret. Qed.

Lemma runs_bind_eq r g e k1 k2 d1 d2 ec1 ec2 sg1 sg2 :
  runs r e k1 d1 ec1 sg1 →
  (∀ e1, r = Ok e1 → te_is_pty e1 = true → tty_wf (te_tty e1) → conf_of e1 = k1 →
    runs (g e1) e1 k2 d2 ec2 sg2) →
  runs (r ≫= g) e k2 (d1 ++ d2) (ec1 ++ ec2) (sg1 ++ sg2).
Proof.
  intros H1 H2 Hp Hwf Hd He. rewrite length_app in Hd, He.
  destruct H1 as (e1 & -> & Hp1 & Hwf1 & Hk1 & Hi & His & Ho & Hos & Hs); [done|done|lia|lia|].
  rewrite bind_ok.
  assert (Hui : rb_used (in_buffer (te_tty e1)) = rb_used (in_buffer (te_tty e)) + Z.of_nat (length d1)).
  { destruct Hwf as (Hwi & _), Hwf1 as (Hwi1 & _).
    rewrite <- !length_rb_view, Hi, length_app by done. lia. }
  assert (Huo : rb_used (out_buffer (te_tty e1)) = rb_used (out_buffer (te_tty e)) + Z.of_nat (length ec1)).
  { destruct Hwf as (_ & Hwo & _), Hwf1 as (_ & Hwo1 & _).
    rewrite <- !length_rb_view, Ho, length_app by done. lia. }
  destruct (H2 e1 eq_refl Hp1 Hwf1 Hk1) as (e2 & -> & Hp2 & Hwf2 & Hk2 & Hi2 & His2 & Ho2 & Hos2 & Hs2);
    [done|done|unfold free_in in *; lia|unfold free_out in *; lia|].
  exists e2. rewrite Hi2, Hi, Ho2, Ho, Hs2, Hs, !app_assoc.
  split_and!; (done || congruence).
Qed.

Lemma runs_bind r g e k1 k2 d1 d2 ec1 ec2 sg1 sg2 :
  runs r e k1 d1 ec1 sg1 →
  (∀ e1, te_is_pty e1 = true → tty_wf (te_tty e1) → conf_of e1 = k1 →
    runs (g e1) e1 k2 d2 ec2 sg2) →
  runs (r ≫= g) e k2 (d1 ++ d2) (ec1 ++ ec2) (sg1 ++ sg2).
Proof. intros H1 H2. eapply runs_bind_eq; [exact H1|auto]. Qed.

(** A step that changes neither rings nor events *)
Lemma runs_after e e1 r k d ec sg :
  te_is_pty e1 = te_is_pty e → te_events e1 = te_events e →
  in_buffer (te_tty e1) = in_buffer (te_tty e) → out_buffer (te_tty e1) = out_buffer (te_tty e) →
  (tty_wf (te_tty e) → tty_wf (te_tty e1)) → runs r e1 k d ec sg → runs r e k d ec sg.
Proof.
  intros Hp He Hi Ho Hwf H Hp0 Hw Hd Hec. unfold runs, free_in, free_out, tty_signals in *.
  rewrite Hp, He, Hi, Ho in H. by apply H; [|apply Hwf|..].
Qed.

Lemma ring_put ws rb c :
  rb_wf rb → 0 < rb_size rb - 1 - rb_used rb →
  ∃ rb', ringbuffer_write ws rb [c] [] = Ok (1, rb', [WakeReaders; WakeReaders]) ∧
    rb_wf rb' ∧ rb_size rb' = rb_size rb ∧ rb_view rb' = rb_view rb ++ [c].
Proof.
  intros Hwf Hfree. destruct (rb_put_ok rb c Hwf) as (rb' & Hput & Hwf' & Hs & Hv); [lia|].
  exists rb'. split; [|done]. destruct ws; cbn [ringbuffer_write rb_fill];
    rewrite (proj2 (truthy_true _)), Hput by (rewrite write_available_free by done; lia); done.
Qed.

Lemma signals_app e evs :
  omap (λ ev, match ev with EvSignal p s => Some (p, s) | _ => None end) evs = [] →
  omap (λ ev, match ev with EvSignal p s => Some (p, s) | _ => None end) (te_events e ++ evs)
  = tty_signals e.
Proof. intros H. by rewrite omap_app, H, app_nil_r. Qed.

Lemma runs_putc_out e c : runs (PUTC_OUT e c) e (conf_of e) [] [u8 c] [].
Proof.
  intros Hp (Hwi & Hwo & Hl) _ Hec. cbn in Hec. unfold free_out in Hec.
  destruct (ring_put (next_sleeps e) (out_buffer (te_tty e)) (u8 c) Hwo) as (rb & Hw & Hwf & Hs & Hv);
    [lia|].
  unfold PUTC_OUT. rewrite Hw, bind_ok. eexists. split; [done|]. rewrite app_nil_r. cbn.
  split_and!; try done. unfold tty_signals. cbn. rewrite signals_app by done. by rewrite app_nil_r.
Qed.

Lemma runs_putc_in e c : runs (PUTC_IN e c) e (conf_of e) [u8 c] [] [].
Proof.
  intros Hp (Hwi & Hwo & Hl) Hd _. cbn in Hd. unfold free_in in Hd.
  destruct (ring_put (next_sleeps e) (in_buffer (te_tty e)) (u8 c) Hwi) as (rb & Hw & Hwf & Hs & Hv);
    [lia|].
  unfold PUTC_IN. rewrite Hw, bind_ok. eexists. split; [done|]. rewrite !app_nil_r. cbn.
  split_and!; try done. unfold tty_signals. cbn. by rewrite signals_app.
Qed.

Lemma runs_eq r e k d ec sg d' ec' sg' :
  runs r e k d ec sg → d = d' → ec = ec' → sg = sg' → runs r e k d' ec' sg'.
Proof. by intros ? -> -> ->. Qed.

Lemma runs_output_end e c : te_is_pty e = true → runs (output_end e c) e (conf_of e) [] [u8 c] [].
Proof.
  intros Hp. eapply runs_eq; [eapply runs_bind; [apply runs_putc_out|]| | |].
  - intros e1 Hp1 _ <-. cbn beta. rewrite Hp1. apply runs_ret.
  - done.
  - done.
  - done.
Qed.

Lemma conf_ts e e1 : conf_of e1 = conf_of e → ts (te_tty e1) = ts (te_tty e).
Proof. by intros [=]. Qed.

Lemma runs_output e c :
  te_is_pty e = true → runs (process_output_char e c) e (conf_of e) [] (opost (ts (te_tty e)) c) [].
Proof.
  intros Hp. unfold process_output_char, opost, oflag, has. case_if; [by apply runs_output_end|].
  destruct (Z.eqb_spec c 10) as [->|Hc].
  - case_if.
    + rewrite <- (app_nil_r [])at 1. change [13; 10] with ([13] ++ [u8 10]).
      change (@nil (Z * Z)) with (@nil (Z * Z) ++ []).
      assert (Hb : ∀ (r : res tenv) (g : tenv * Z → res tenv),
        ((e' ← r; Ok (e', 10)) ≫= g) = (r ≫= λ e', g (e', 10))) by (by intros []).
      rewrite Hb. eapply runs_bind; [apply runs_putc_out|].
      intros e1 Hp1 _ He1. cbn. rewrite <- He1, andb_false_r. by apply runs_output_end.
    + case_if; rewrite bind_ok; cbn [Z.eqb Pos.eqb andb].
      * case_if; [apply runs_ret|]. rewrite andb_false_r. by apply runs_output_end.
      * rewrite andb_false_r. by apply runs_output_end.
  - rewrite bind_ok. case_if; [apply runs_ret|].
    destruct (_ && truthy (islower c)) eqn:El; [|by apply runs_output_end].
    replace (isupper c) with 0; [by apply (runs_output_end e 0)|].
    apply andb_true_iff in El as [_ Hl]. revert Hl. unfold islower, isupper. rewrite truthy_b2z.
    intros Hl. breflect. rewrite (proj2 (Z.leb_gt c 90)) by lia. by rewrite andb_false_r.
Qed.

Lemma runs_pre r e k d ec sg :
  (te_is_pty e = true → tty_wf (te_tty e) → runs r e k d ec sg) → runs r e k d ec sg.
Proof. intros H Hp Hwf. by apply H. Qed.

(** Two computations in a row *)
(** The room there is may be used. *)
Lemma runs_room r e k d ec sg :
  (te_is_pty e = true → tty_wf (te_tty e) → Z.of_nat (length d) ≤ free_in e → Z.of_nat (length ec) ≤ free_out e →
    runs r e k d ec sg) → runs r e k d ec sg.
Proof. intros H Hp Hwf Hd Hec. by apply H. Qed.

Lemma runs_seq r g e k1 k2 d1 d2 d ec1 ec2 ec sg1 sg2 sg :
  runs r e k1 d1 ec1 sg1 →
  (∀ e1, te_is_pty e1 = true → tty_wf (te_tty e1) → conf_of e1 = k1 →
    runs (g e1) e1 k2 d2 ec2 sg2) →
  d1 ++ d2 = d → ec1 ++ ec2 = ec → sg1 ++ sg2 = sg → runs (r ≫= g) e k2 d ec sg.
Proof. intros ? ? <- <- <-. by eapply runs_bind. Qed.

Lemma runs_ctl e c :
  te_is_pty e = true → runs (output_ctl e c) e (conf_of e) [] (ctl_echo (ts (te_tty e)) c) [].
Proof.
  intros Hp. eapply runs_seq; [by apply runs_output| |done|done|done].
  intros e1 Hp1 _ Hk. rewrite <- Hk. rewrite <- (conf_ts _ _ Hk). by apply runs_output.
Qed.

Lemma runs_echo e c :
  te_is_pty e = true → runs (echo_char e c) e (conf_of e) [] (echo_of (ts (te_tty e)) c) [].
Proof.
  intros Hp. unfold echo_char, echo_of, lflag, has. case_if; [|apply runs_ret].
  case_if; [by apply runs_ctl|by apply runs_output].
Qed.

(** *** The line *)

Definition conf_line k (l : list Z) : conf := mk_conf (k_ts k) (k_process k) (k_pids k) l (k_next k).

Lemma length_tty_line t : tty_wf t → Z.of_nat (length (tty_line t)) = line_length t.
Proof.
  intros (_ & _ & Hb & Hl). unfold tty_line, PTY_BUFFER_SIZE in *. rewrite length_take. lia.
Qed.

Lemma line_set_ok t i c : tty_wf t → 0 ≤ i < PTY_BUFFER_SIZE →
  line_set t i c = Ok (<[Z.to_nat i := c]> (line_buffer t)).
Proof.
  intros (_ & _ & Hb & _) Hi. unfold line_set.
  by rewrite (proj2 (Z.leb_le _ _)), (proj2 (Z.ltb_lt _ _)) by lia.
Qed.

Lemma line_get_ok t i c : tty_line t !! i = Some c → line_get t (Z.of_nat i) = Ok c.
Proof.
  unfold tty_line, line_get. intros [H _]%lookup_take_Some. pose proof (lookup_lt_Some _ _ _ H).
  rewrite (proj2 (Z.leb_le _ _)), (proj2 (Z.ltb_lt _ _)), Nat2Z.id, H by lia. done.
Qed.

(** Changing the line buffer keeps the terminal well formed. *)
Lemma set_line_wf t b n :
  tty_wf t → length b = length (line_buffer t) → 0 ≤ n ≤ PTY_BUFFER_SIZE → tty_wf (set_line t b n).
Proof. intros (? & ? & ? & ?) Hb Hn. unfold tty_wf. cbn. rewrite Hb. done. Qed.

Lemma runs_set_line e b n r k d ec sg :
  length b = length (line_buffer (te_tty e)) → 0 ≤ n ≤ PTY_BUFFER_SIZE →
  runs r (with_tty e (set_line (te_tty e) b n)) k d ec sg → runs r e k d ec sg.
Proof.
  intros Hb Hn. apply runs_after; [done..|]. intros Hwf. by apply set_line_wf.
Qed.

Lemma conf_set_line e b n :
  conf_of (with_tty e (set_line (te_tty e) b n)) = conf_line (conf_of e) (take (Z.to_nat n) b).
Proof. done. Qed.

Lemma runs_line_putc e c :
  runs (line_putc e c) e (conf_line (conf_of e) (add_char (tty_line (te_tty e)) c)) [] [] [].
Proof.
  apply runs_pre. intros Hp Hwf. pose proof (length_tty_line _ Hwf) as Hlen.
  pose proof Hwf as (_ & _ & Hb & Hl). unfold line_putc, add_char. rewrite Hlen. case_if.
  - rewrite line_set_ok by (done || lia). rewrite bind_ok.
    apply (runs_set_line e (<[Z.to_nat (line_length (te_tty e)) := c]> (line_buffer (te_tty e)))
      (line_length (te_tty e) + 1)); [by rewrite length_insert|lia|].
    apply runs_done. rewrite conf_set_line. f_equal.
    rewrite Z2Nat.inj_add, Nat.add_1_r by lia.
    rewrite (take_S_r _ _ c) by (apply list_lookup_insert_eq; unfold PTY_BUFFER_SIZE in *; lia).
    by rewrite take_insert_ge by lia.
  - apply runs_ret.
Qed.

Lemma runs_erase_one e l c :
  tty_line (te_tty e) = l ++ [c] →
  runs (erase_one e) e (conf_line (conf_of e) l) [] (erase_echo (ts (te_tty e)) c) [].
Proof.
  intros Hline. apply runs_pre. intros Hp Hwf. pose proof (length_tty_line _ Hwf) as Hlen.
  rewrite Hline, length_app in Hlen. cbn in Hlen. pose proof Hwf as (_ & _ & Hb & Hl).
  assert (Hget : line_get (te_tty e) (line_length (te_tty e) - 1) = Ok c).
  { replace (line_length _ - 1) with (Z.of_nat (length l)) by lia. apply line_get_ok.
    by rewrite Hline, list_lookup_middle. }
  unfold erase_one, erase_echo, lflag, has. rewrite Hget.
  set (ctl := truthy (Z.land (c_lflag (ts (te_tty e))) ECHOCTL)).
  assert (Hctl : (if ctl then x ← Ok c; Ok (truthy (iscntrl x)) else Ok false)
    = Ok (ctl && truthy (iscntrl c))) by (by destruct ctl).
  rewrite Hctl, bind_ok, line_set_ok, bind_ok by (done || lia).
  apply (runs_set_line e (<[Z.to_nat (line_length (te_tty e) - 1) := 0]> (line_buffer (te_tty e)))
    (line_length (te_tty e) - 1)); [by rewrite length_insert|lia|].
  set (e1 := with_tty e _).
  assert (Hk : conf_of e1 = conf_line (conf_of e) l).
  { unfold e1. rewrite conf_set_line. f_equal. rewrite take_insert_ge by lia.
    unfold tty_line in Hline. replace (Z.to_nat (line_length (te_tty e) - 1)) with (length l) by lia.
    transitivity (take (length l) (l ++ [c])); [|apply take_app_length].
    rewrite <- Hline, take_take. f_equal. lia. }
  rewrite <- Hk. case_if; [|apply runs_ret]. unfold output_backspaces.
  eapply runs_seq; [by apply runs_output| |done|done|done].
  intros e2 Hp2 _ Hk2. rewrite <- Hk2. destruct (ctl && _); [|apply runs_ret].
  replace (ts (te_tty e)) with (ts (te_tty e2)) by (by apply conf_ts in Hk2).
  by apply runs_output.
Qed.

Lemma cut_echo_snoc x l c n :
  cut_echo x (l ++ [c]) (S n) = erase_echo x c ++ cut_echo x l n.
Proof.
  unfold cut_echo. rewrite length_app. cbn [length].
  replace (length l + 1 - S n)%nat with (length l - n)%nat by lia.
  rewrite drop_app_le, rev_app_distr by lia. done.
Qed.

Lemma cut_snoc l c n : cut (l ++ [c]) (S n) = cut l n.
Proof.
  unfold cut. rewrite length_app. cbn [length].
  replace (length l + 1 - S n)%nat with (length l - n)%nat by lia. by rewrite take_app_le by lia.
Qed.

Lemma cut_0 l : cut l 0 = l.
Proof. unfold cut. by rewrite Nat.sub_0_r, firstn_all. Qed.

Lemma cut_echo_0 x l : cut_echo x l 0 = [].
Proof. unfold cut_echo. by rewrite Nat.sub_0_r, drop_all. Qed.

Lemma conf_line_same e : conf_line (conf_of e) (tty_line (te_tty e)) = conf_of e.
Proof. done. Qed.

Lemma runs_erase_loop n e :
  (n ≤ length (tty_line (te_tty e)))%nat →
  runs (erase_loop n e) e (conf_line (conf_of e) (cut (tty_line (te_tty e)) n)) []
    (cut_echo (ts (te_tty e)) (tty_line (te_tty e)) n) [].
Proof.
  revert e. induction n as [|n IH]; intros e Hn; cbn [erase_loop].
  - rewrite cut_echo_0, cut_0, conf_line_same. apply runs_ret.
  - destruct (tty_line (te_tty e)) as [|c l _] eqn:Hl using rev_ind; [cbn in Hn; lia|].
    rewrite length_app in Hn. cbn in Hn.
    eapply runs_seq; [by apply runs_erase_one| |done|symmetry; apply cut_echo_snoc|done].
    intros e1 _ _ Hk. injection Hk as Hts Hpr Hpi Hli Hne.
    rewrite cut_snoc, <- Hts, <- Hli.
    replace (conf_line (conf_of e) (cut (tty_line (te_tty e1)) n))
      with (conf_line (conf_of e1) (cut (tty_line (te_tty e1)) n))
      by (unfold conf_line, conf_of; cbn; congruence).
    apply IH. rewrite Hli. lia.
Qed.

Lemma runs_erase e amount :
  0 ≤ amount →
  runs (tty_erase e amount) e
    (conf_line (conf_of e) (cut (tty_line (te_tty e)) (Z.to_nat amount))) []
    (cut_echo (ts (te_tty e)) (tty_line (te_tty e)) (Z.to_nat amount)) [].
Proof.
  intros Ha. apply runs_pre. intros Hp Hwf. pose proof (length_tty_line _ Hwf) as Hlen.
  unfold tty_erase. case_if; [|apply runs_erase_loop; lia].
  rewrite <- Hlen, Nat2Z.id. unfold cut, cut_echo.
  rewrite (proj2 (Nat.sub_0_le (length _) (Z.to_nat amount))) by lia.
  replace 0%nat with (length (tty_line (te_tty e)) - length (tty_line (te_tty e)))%nat by lia.
  by apply runs_erase_loop.
Qed.

Lemma runs_erase_word n e :
  (length (tty_line (te_tty e)) < n)%nat →
  let w := word_len (rev (tty_line (te_tty e))) in
  runs (erase_word n e) e (conf_line (conf_of e) (cut (tty_line (te_tty e)) w)) []
    (cut_echo (ts (te_tty e)) (tty_line (te_tty e)) w) [].
Proof.
  revert e. induction n as [|n IH]; intros e Hn; [lia|]. cbn zeta. cbn [erase_word].
  apply runs_pre. intros Hp Hwf. pose proof (length_tty_line _ Hwf) as Hlen.
  destruct (tty_line (te_tty e)) as [|c l _] eqn:Hl using rev_ind.
  - cbn in Hlen. rewrite <- Hlen. cbn. apply runs_done. by rewrite <- Hl.
  - rewrite length_app in *. cbn in Hlen, Hn. rewrite (proj2 (truthy_true _)) by lia.
    replace (line_length _ - 1) with (Z.of_nat (length l)) by lia.
    rewrite (line_get_ok _ _ c) by (by rewrite Hl, list_lookup_middle). rewrite bind_ok.
    rewrite rev_app_distr. cbn [rev app word_len]. case_if.
    + rewrite cut_0, cut_echo_0, <- Hl. by apply runs_done.
    + eapply (runs_seq _ _ _ _ _ _ [] _ _ (cut_echo (ts (te_tty e)) l (word_len (rev l))));
        [apply runs_erase; lia| |done| |done].
      * intros e1 _ _ Hk. injection Hk as Hts Hpr Hpi Hli Hne.
        rewrite Hl in Hli. change (Z.to_nat 1) with 1%nat in Hli. rewrite cut_snoc, cut_0 in Hli.
        rewrite cut_snoc, <- Hli, <- Hts.
        replace (conf_line (conf_of e) (cut (tty_line (te_tty e1)) (word_len (rev (tty_line (te_tty e1))))))
          with (conf_line (conf_of e1) (cut (tty_line (te_tty e1)) (word_len (rev (tty_line (te_tty e1))))))
          by (unfold conf_line, conf_of; cbn; congruence).
        apply IH. rewrite Hli. lia.
      * change (Z.to_nat 1) with 1%nat. by rewrite Hl, !cut_echo_snoc, cut_echo_0, app_nil_r.
Qed.

(** A put that finds room, or whose sleep the others do not use, leaves the line alone. *)
Lemma putc_in_frame e c e1 :
  (0 < free_in e ∧ tty_wf (te_tty e)) ∨ te_others e = [] → PUTC_IN e c = Ok e1 →
  line_buffer (te_tty e1) = line_buffer (te_tty e) ∧ line_length (te_tty e1) = line_length (te_tty e) ∧
  (te_others e = [] → te_others e1 = []).
Proof.
  intros Hfree H. unfold PUTC_IN in H. destruct Hfree as [[Hfree (Hwi & _)]|Ho].
  - destruct (ring_put (next_sleeps e) (in_buffer (te_tty e)) (u8 c) Hwi Hfree) as (rb & Hw & _).
    rewrite Hw, bind_ok in H. injection H as <-. done.
  - inv_ok. unfold put_in, after_sleep. rewrite Ho. by destruct (slept _).
Qed.

Lemma runs_flush_loop n fuel i e :
  0 ≤ i → line_length (te_tty e) = Z.of_nat n → i + Z.of_nat n ≤ PTY_BUFFER_SIZE → (n < fuel)%nat →
  runs (flush_loop fuel i e) e (conf_line (conf_of e) [])
    (u8 <$> take n (drop (Z.to_nat i) (line_buffer (te_tty e)))) [] [].
Proof.
  revert fuel i e. induction n as [|n IH]; intros fuel i e Hi Hl Hn Hf; (destruct fuel as [|fuel]; [lia|]); cbn [flush_loop]; rewrite Hl.
  - rewrite Z.ltb_irrefl. apply runs_done. unfold conf_of, tty_line. by rewrite Hl.
  - rewrite (proj2 (Z.ltb_lt 0 _)) by lia. apply runs_pre. intros Hp Hwf. pose proof Hwf as (_ & _ & Hb & _).
    destruct (lookup_lt_is_Some_1' (line_buffer (te_tty e)) (Z.to_nat i)) as [x Hx]; [lia|].
    rewrite (drop_lookup_cons _ _ x Hx). cbn [take fmap list_fmap length].
    apply runs_room. intros _ _ Hroom _. unfold PTY_BUFFER_SIZE in *.
    unfold line_get. rewrite (proj2 (Z.leb_le _ _)), (proj2 (Z.ltb_lt _ _)), Hx by lia. cbn [andb of_option]. rewrite bind_ok.
    eapply runs_eq; [eapply (runs_bind_eq _ _ _ _ (conf_line (conf_of e) []) _
      (u8 <$> take n (drop (S (Z.to_nat i)) (line_buffer (te_tty e)))));
      [apply runs_putc_in|]|done|done|done].
    intros e1 Hput Hp1 Hwf1 Hk. cbn zeta. apply putc_in_frame in Hput as (Hbuf & Hlen & _); [|left; cbn in Hroom; split; [lia|done]].
    rewrite Hlen, Hl, u32_small by lia.
    apply (runs_set_line e1 (line_buffer (te_tty e1)) (Z.of_nat (S n) - 1));
      [done|unfold PTY_BUFFER_SIZE in *; lia|].
    replace (S (Z.to_nat i)) with (Z.to_nat (i + 1)) by lia. rewrite <- Hbuf, <- Hk.
    refine (IH fuel (i + 1) (with_tty e1 _) _ _ _ _); cbn; lia.
Qed.

Lemma runs_flush e :
  runs (line_flush e) e (conf_line (conf_of e) []) (u8 <$> tty_line (te_tty e)) [] [].
Proof.
  apply runs_pre. intros Hp Hwf. pose proof Hwf as (_ & _ & Hb & Hl).
  unfold line_flush, tty_line, flush_fuel. unfold PTY_BUFFER_SIZE in *. apply (runs_flush_loop _ _ 0); unfold PTY_BUFFER_SIZE; lia.
Qed.

(** Overwriting the last character of a line *)
Lemma runs_close e l c c' d ec sg k :
  tty_line (te_tty e) = l ++ [c'] →
  (∀ e1, tty_line (te_tty e1) = l ++ [c] → conf_line (conf_of e1) [] = conf_line (conf_of e) [] →
    runs (line_flush e1) e1 k d ec sg) →
  runs (b ← line_set (te_tty e) (line_length (te_tty e) - 1) c;
        line_flush (with_tty e (set_line (te_tty e) b (line_length (te_tty e))))) e k d ec sg.
Proof.
  intros Hline H. apply runs_pre. intros Hp Hwf. pose proof (length_tty_line _ Hwf) as Hlen.
  pose proof Hwf as (_ & _ & Hb & Hl). rewrite Hline, length_app in Hlen. cbn in Hlen.
  rewrite line_set_ok, bind_ok by (done || lia).
  set (b := <[_ := c]> _).
  apply (runs_set_line e b (line_length (te_tty e))); [by apply length_insert|done|].
  apply H; [|done]. unfold tty_line in *. cbn. unfold b. rewrite take_insert_lt by lia.
  rewrite Hline. replace (Z.to_nat (line_length (te_tty e) - 1)) with (length l + 0)%nat by lia.
  by rewrite insert_app_r.
Qed.

(** *** Input *)

(** [r] does what the outcome [o] of the specification says. *)
Definition runs_out (r : res tenv) e (o : ld_out) : Prop :=
  runs r e (mk_conf (ts (te_tty e)) (tt_process (te_tty e)) (te_pids e) (o_line o) (o_next o))
    (o_deliver o) (o_echo o) (pair (tt_process (te_tty e)) <$> o_signal o).

Lemma conf_next e l :
  tty_next (te_tty e) = false →
  mk_conf (ts (te_tty e)) (tt_process (te_tty e)) (te_pids e) l false = conf_line (conf_of e) l.
Proof. intros H. unfold conf_line, conf_of. cbn. by rewrite H. Qed.

Lemma add_char_snoc line c :
  ∃ c', add_char line c = take (length (add_char line c) - 1) (add_char line c) ++ [c'].
Proof.
  destruct (add_char line c) as [|x l _] eqn:Ha using rev_ind.
  - unfold add_char in Ha. destruct (_ <? _) eqn:E; [by destruct line|]. by subst line.
  - exists x. rewrite length_app. cbn. by rewrite Nat.add_sub, take_app_length.
Qed.

Lemma runs_ordinary e c :
  tty_next (te_tty e) = false →
  runs_out (input_ordinary e c) e (ld_ordinary (ts (te_tty e)) (tty_line (te_tty e)) c).
Proof.
  intros Hn. unfold runs_out, input_ordinary, ld_ordinary, end_of_line.
  set (x := ts (te_tty e)). set (line := tty_line (te_tty e)).
  set (eol := _ || _).
  assert (Hrest : ∀ e2, conf_of e2 = conf_line (conf_of e) (add_char line c) →
    runs (if (c =? 10) || (c =? cc (te_tty e2) VEOL) then
      e3 ← (if negb (lflag (te_tty e2) ECHO) && lflag (te_tty e2) ECHONL
            then process_output_char e2 c else Ok e2);
      b ← line_set (te_tty e3) (line_length (te_tty e3) - 1) c;
      line_flush (with_tty e3 (set_line (te_tty e3) b (line_length (te_tty e3))))
      else Ok e2) e2
      (conf_line (conf_of e) (if eol then [] else add_char line c))
      (if eol then u8 <$> close_line line c else [])
      (if eol then if negb (has (c_lflag x) ECHO) && has (c_lflag x) ECHONL
                   then opost x c else [] else []) []).
  { intros e2 Hk2. pose proof Hk2 as [= Hts Hpr Hpi Hli Hne]. apply runs_pre. intros Hp2 _.
    unfold cc, lflag. rewrite Hts. fold x. fold (ccs x VEOL). fold eol.
    fold (has (c_lflag x) ECHO) (has (c_lflag x) ECHONL).
    destruct eol; [|by apply runs_done].
    eapply (runs_seq _ _ _ (conf_of e2) _ [] _ _ _ [] _ [] []);
      [| |done|apply app_nil_r|done].
    - case_if; [|apply runs_ret]. unfold x. rewrite <- Hts. by apply runs_output.
    - intros e3 _ _ Hk3. destruct (add_char_snoc line c) as [c' Hadd].
      apply (runs_close e3 (take (length (add_char line c) - 1) (add_char line c)) c c').
      + injection Hk3 as _ _ _ Hl3 _. by rewrite Hl3, Hli.
      + intros e4 Hl4 Hk4. unfold close_line. rewrite <- Hl4.
        replace (conf_line (conf_of e) []) with (conf_line (conf_of e4) []);
          [apply runs_flush|]. rewrite Hk4, Hk3, Hk2. done. }
  assert (Hecho : ∀ e1, te_is_pty e1 = true → conf_of e1 = conf_line (conf_of e) (add_char line c) →
    runs (echo_char e1 c) e1 (conf_line (conf_of e) (add_char line c)) [] (echo_of x c) []).
  { intros e1 Hp1 Hk1. pose proof Hk1 as [= Hts _ _ _ _]. rewrite <- Hk1. unfold x. rewrite <- Hts.
    by apply runs_echo. }
  replace (mk_conf _ _ _ _ _) with (conf_line (conf_of e) (if eol then [] else add_char line c))
    by (unfold conf_line, conf_of; cbn; rewrite Hn; by destruct eol).
  eapply runs_eq.
  - eapply runs_seq; [apply runs_line_putc| |reflexivity..].
    intros e1 Hp1 _ Hk1. eapply runs_seq; [by apply Hecho| |reflexivity..].
    intros e2 _ _ Hk2. by apply Hrest.
  - by destruct eol.
  - by destruct eol; cbn; rewrite ?app_nil_r.
  - by destruct eol.
Qed.

Lemma runs_kill_eof e c :
  te_is_pty e = true → tty_wf (te_tty e) → tty_next (te_tty e) = false →
  runs_out (input_kill_eof e c) e (ld_kill_eof (ts (te_tty e)) (tty_line (te_tty e)) c).
Proof.
  intros Hp Hwf Hn. unfold input_kill_eof, ld_kill_eof, cc, lflag. fold (ccs (ts (te_tty e)) VKILL).
  fold (ccs (ts (te_tty e)) VEOF). fold (has (c_lflag (ts (te_tty e))) ECHOK).
  fold (has (c_lflag (ts (te_tty e))) ECHOCTL). case_if.
  - pose proof (length_tty_line _ Hwf) as Hlen. case_if; unfold runs_out; cbn; rewrite conf_next by done.
    + pose proof (runs_erase e (line_length (te_tty e))) as H.
      replace (Z.to_nat (line_length (te_tty e))) with (length (tty_line (te_tty e))) in H by lia.
      unfold cut in H. rewrite Nat.sub_diag in H. apply H. lia.
    + case_if; [by apply runs_ctl|by apply runs_done].
  - case_if; [|by apply runs_ordinary]. unfold runs_out. cbn. rewrite conf_next by done. apply runs_flush.
Qed.

Lemma next_set t : tty_next (set_flags t (Z.lor (tt_flags t) TTY_FLAG_NEXTL)) = true.
Proof.
  unfold tty_next, TTY_FLAG_NEXTL. cbn [tt_flags set_flags]. rewrite truthy_land_bit by done.
  by rewrite testbit_lor_bit by done.
Qed.

Lemma next_clear t : tty_next (set_flags t (u8 (Z.land (tt_flags t) (Z.lnot TTY_FLAG_NEXTL)))) = false.
Proof.
  unfold tty_next, TTY_FLAG_NEXTL, u8. cbn [tt_flags set_flags]. rewrite truthy_land_bit by done.
  rewrite Z.mod_pow2_bits_low by lia. by rewrite testbit_clear_bit by done.
Qed.

(** Changing only the flags *)
Lemma runs_set_flags e f r k d ec sg :
  runs r (with_tty e (set_flags (te_tty e) f)) k d ec sg → runs r e k d ec sg.
Proof. by apply runs_after. Qed.

Lemma runs_canonical e c :
  te_is_pty e = true → tty_wf (te_tty e) → tty_next (te_tty e) = false →
  runs_out (input_canonical e c) e (ld_canonical (ts (te_tty e)) (tty_line (te_tty e)) c).
Proof.
  intros Hp Hwf Hn. unfold input_canonical, ld_canonical, cc, lflag, iflag. cbn zeta.
  fold (has (c_lflag (ts (te_tty e))) IEXTEN) (has (c_lflag (ts (te_tty e))) ECHOE).
  fold (has (c_lflag (ts (te_tty e))) ECHOCTL) (has (c_iflag (ts (te_tty e))) IUCLC).
  fold (ccs (ts (te_tty e)) VLNEXT) (ccs (ts (te_tty e)) VERASE) (ccs (ts (te_tty e)) VWERASE).
  case_if.
  { unfold runs_out. cbn. apply runs_set_flags with (f := Z.lor (tt_flags (te_tty e)) TTY_FLAG_NEXTL).
    set (e0 := with_tty e _).
    replace (mk_conf _ _ _ _ _) with (conf_of e0)
      by (unfold conf_of, e0; cbn; by rewrite next_set).
    change (ts (te_tty e)) with (ts (te_tty e0)).
    eapply runs_seq; [by apply runs_output| |done|done|done]. intros e1 Hp1 _ Hk.
    rewrite <- Hk, <- (conf_ts _ _ Hk). by apply runs_output. }
  set (c' := if has _ IUCLC && _ && _ then _ else _). clearbody c'.
  assert (Hctl : runs_out (output_ctl e c') e
    (mk_out (tty_line (te_tty e)) false [] (ctl_echo (ts (te_tty e)) c') [])).
  { unfold runs_out. cbn. rewrite conf_next by done. by apply runs_ctl. }
  destruct (has _ ECHOE).
  - case_if; [unfold runs_out; cbn; rewrite conf_next by done; by apply runs_erase|].
    case_if; [|by apply runs_kill_eof]. destruct (has _ IEXTEN); cbn [negb]; [|done].
    unfold runs_out. cbn [o_line o_next o_deliver o_echo o_signal fmap list_fmap].
    rewrite conf_next by done. apply runs_erase_word.
    pose proof (length_tty_line _ Hwf). pose proof Hwf as (_ & _ & _ & Hl).
    unfold word_fuel, PTY_BUFFER_SIZE in *. lia.
  - case_if; [done|by apply runs_kill_eof].
Qed.

Lemma runs_send_signal e c sig :
  te_is_pty e = true → tty_next (te_tty e) = false →
  runs_out (send_signal e c sig) e
    (mk_out (tty_line (te_tty e)) false []
      (if has (c_lflag (ts (te_tty e))) ECHOCTL then ctl_echo (ts (te_tty e)) c else [])
      (if (0 <? tt_process (te_tty e)) && bool_decide (tt_process (te_tty e) ∈ te_pids e)
       then [sig] else [])).
Proof.
  intros Hp Hn. unfold runs_out, send_signal, lflag. cbn. rewrite conf_next by done.
  fold (has (c_lflag (ts (te_tty e))) ECHOCTL).
  eapply (runs_seq _ _ _ (conf_of e) _ [] [] _ _ [] _ [] _ _); [| |done|apply app_nil_r|done].
  - case_if; [by apply runs_ctl|apply runs_ret].
  - intros e1 _ _ Hk. pose proof Hk as [= _ Hpr Hpi _ _]. cbv zeta. rewrite Hpi, Hpr. case_if; [|by apply runs_done].
    intros Hp1 Hwf1 _ _. eexists. split; [done|]. rewrite !app_nil_r. cbn.
    split_and!; try done. unfold tty_signals. cbn. by rewrite omap_app.
Qed.

Lemma runs_input e c :
  te_is_pty e = true → tty_wf (te_tty e) →
  runs_out (process_input_char e c) e
    (ldisc (ts (te_tty e))
       ((0 <? tt_process (te_tty e)) && bool_decide (tt_process (te_tty e) ∈ te_pids e))
       (tty_line (te_tty e)) (tty_next (te_tty e)) c).
Proof.
  intros Hp Hwf. unfold process_input_char, ldisc. fold (tty_next (te_tty e)).
  destruct (tty_next (te_tty e)) eqn:Hn.
  { unfold runs_out. cbn.
    apply runs_set_flags with (f := u8 (Z.land (tt_flags (te_tty e)) (Z.lnot TTY_FLAG_NEXTL))).
    set (e0 := with_tty e _).
    replace (mk_conf _ _ _ _ _) with (conf_line (conf_of e0) (add_char (tty_line (te_tty e0)) c))
      by (unfold conf_line, conf_of, e0; cbn; by rewrite next_clear).
    eapply runs_seq; [apply runs_line_putc| |done|done|done]. intros e1 Hp1 _ Hk.
    pose proof Hk as [= Hts _ _ _ _]. rewrite <- Hk, <- Hts. by apply runs_echo. }
  assert (Hsig : input_signal (te_tty e) c = default (-1) (ld_signal (ts (te_tty e)) c)).
  { unfold input_signal, ld_signal, lflag, cc, has, ccs. repeat case_if; done. }
  rewrite Hsig. destruct (ld_signal (ts (te_tty e)) c) as [sig|] eqn:Hs.
  { assert (sig ≠ -1).
    { intros ->. revert Hs. unfold ld_signal. repeat case_if; done. }
    cbn [from_option id]. rewrite (proj2 (Z.eqb_neq sig (-1))) by done. by apply runs_send_signal. }
  cbn [from_option negb Z.eqb Pos.eqb]. change (input_map (te_tty e) c) with (ld_map (ts (te_tty e)) c).
  destruct (ld_map _ c) as [c'|]; [|unfold runs_out; cbn; rewrite conf_next by done; by apply runs_done].
  unfold lflag. fold (has (c_lflag (ts (te_tty e))) ICANON) (has (c_lflag (ts (te_tty e))) ECHO).
  destruct (has _ ICANON); [by apply runs_canonical|].
  unfold runs_out. cbn. rewrite conf_next by done.
  eapply (runs_seq _ _ _ (conf_of e) _ [] _ _ _ [] _ [] []); [| |done|apply app_nil_r|done].
  - case_if; [by apply runs_output|apply runs_ret].
  - intros e1 _ _ Hk. rewrite conf_line_same, <- Hk. apply runs_putc_in.
Qed.
End runs.

(** C4: processing one input character does what the line discipline promises, on every
    branch: on a pseudo-terminal whose rings have room for the outcome, the code returns,
    the line and the literal-next flag become those of [ldisc], exactly the delivered
    bytes are appended to the reader's ring and exactly the echo to the output ring, the
    foreground process gets exactly the signals, and the settings do not change. *)
Theorem tty_implements_ldisc e c :
  te_is_pty e = true → tty_wf (te_tty e) →
  let t := te_tty e in
  let o := ldisc (ts t) ((0 <? tt_process t) && bool_decide (tt_process t ∈ te_pids e))
             (tty_line t) (tty_next t) c in
  Z.of_nat (length (o_deliver o)) ≤ free_in e → Z.of_nat (length (o_echo o)) ≤ free_out e →
  ∃ e', process_input_char e c = Ok e' ∧ tty_wf (te_tty e') ∧ ts (te_tty e') = ts t ∧
    tty_line (te_tty e') = o_line o ∧ tty_next (te_tty e') = o_next o ∧
    rb_view (in_buffer (te_tty e')) = rb_view (in_buffer t) ++ o_deliver o ∧
    rb_view (out_buffer (te_tty e')) = rb_view (out_buffer t) ++ o_echo o ∧
    tty_signals e' = tty_signals e ++ (pair (tt_process t) <$> o_signal o).
Proof.
  intros Hp Hwf t o Hd Hec.
  destruct (runs_input e c Hp Hwf) as (e' & -> & _ & Hwf' & Hk & Hi & _ & Ho & _ & Hs); try done.
  injection Hk as Hts _ _ Hli Hne. exists e'. done.
Qed.

Definition demo_tty : tenv :=
  mk_tenv (mk_tty 1 sane_ts (mk_rb (replicate 64 0) 64 0 0) (mk_rb (replicate 64 0) 64 0 0)
             (replicate 4098 0) 0 0 7) true [7] [] [] [].

Lemma demo_tty_wf : tty_wf (te_tty demo_tty).
Proof. unfold tty_wf, rb_wf, PTY_BUFFER_SIZE. cbn [te_tty demo_tty in_buffer out_buffer line_buffer line_length rb_size rb_buffer rb_read_ptr rb_write_ptr]. rewrite !length_replicate. lia. Qed.

Lemma tty_implements_ldisc_witness :
  ∃ e', process_input_char demo_tty 3 = Ok e' ∧ tty_signals e' = [(7, SIGINT)].
Proof.
  destruct (tty_implements_ldisc demo_tty 3 eq_refl demo_tty_wf)
    as (e' & He & _ & _ & _ & _ & _ & _ & Hs); [by vm_compute|by vm_compute|].
  exists e'. split; [exact He|]. rewrite Hs. reflexivity.
Defined.

(** ** Sequences of characters *)

(** The specification on a sequence: the line, the flag, the bytes delivered, the echo and
    the signals. *)
Fixpoint ld_run (x : termios) (target : bool) (line : list Z) (next : bool) (cs : list Z) : ld_out :=
  match cs with
  | [] => mk_out line next [] [] []
  | c :: cs' =>
      let o := ldisc x target line next c in
      let r := ld_run x target (o_line o) (o_next o) cs' in
      mk_out (o_line r) (o_next r) (o_deliver o ++ o_deliver r) (o_echo o ++ o_echo r)
        (o_signal o ++ o_signal r)
  end.

Lemma ld_run_app x tg line next cs1 cs2 :
  let r1 := ld_run x tg line next cs1 in
  let r2 := ld_run x tg (o_line r1) (o_next r1) cs2 in
  ld_run x tg line next (cs1 ++ cs2) =
  mk_out (o_line r2) (o_next r2) (o_deliver r1 ++ o_deliver r2) (o_echo r1 ++ o_echo r2)
    (o_signal r1 ++ o_signal r2).
Proof.
  revert line next. induction cs1 as [|c cs1 IH]; intros line next; cbn.
  - by destruct (ld_run x tg line next cs2).
  - rewrite IH. cbn. by rewrite !app_assoc.
Qed.

Definition tty_target (e : tenv) : bool :=
  (0 <? tt_process (te_tty e)) && bool_decide (tt_process (te_tty e) ∈ te_pids e).

Lemma runs_write_master data e :
  te_is_pty e = true → tty_wf (te_tty e) →
  runs_out (pty_write_master e data) e
    (ld_run (ts (te_tty e)) (tty_target e) (tty_line (te_tty e)) (tty_next (te_tty e)) (s8 <$> data)).
Proof.
  revert e. induction data as [|b data IH]; intros e Hp Hwf; cbn [pty_write_master fmap list_fmap ld_run].
  - apply runs_ret.
  - unfold runs_out. cbn [o_line o_next o_deliver o_echo o_signal]. rewrite fmap_app.
    eapply runs_bind; [by apply runs_input|]. intros e1 Hp1 Hwf1 Hk.
    injection Hk as Hts Hpr Hpi Hli Hne. fold (tty_target e) in Hli, Hne |- *.
    specialize (IH e1 Hp1 Hwf1). unfold runs_out in IH.
    assert (Htg : tty_target e1 = tty_target e) by (unfold tty_target; by rewrite Hpr, Hpi).
    by rewrite Htg, Hts, Hpr, Hpi, Hli, Hne in IH.
Qed.

(** ** Canonical mode with the settings of a new terminal *)

Definition printable (c : Z) : Prop := 32 ≤ c ≤ 126.

Lemma printable_cases (P : Z → Prop) :
  Forall P (Z.of_nat <$> seq 32 95) → ∀ c, printable c → P c.
Proof.
  rewrite Forall_forall. intros H c Hc. apply H. apply list_elem_of_fmap.
  exists (Z.to_nat c). unfold printable in Hc. split; [lia|]. apply elem_of_seq. lia.
Qed.

Lemma ldisc_printable tg line c :
  printable c → ldisc sane_ts tg line false c = mk_out (add_char line c) false [] [c] [].
Proof. revert c. apply printable_cases. repeat constructor. Qed.

Lemma ld_run_printable tg line cs :
  Forall printable cs → Z.of_nat (length line + length cs) ≤ PTY_BUFFER_SIZE →
  ld_run sane_ts tg line false cs = mk_out (line ++ cs) false [] cs [].
Proof.
  intros H. revert line. induction H as [|c cs Hc _ IH]; intros line Hl; cbn [ld_run].
  - by rewrite app_nil_r.
  - rewrite ldisc_printable by done. cbn [o_line o_next o_deliver o_echo o_signal app].
    cbn [length] in Hl. assert (Ha : add_char line c = line ++ [c]).
    { unfold add_char. by rewrite (proj2 (Z.ltb_lt _ _)) by lia. }
    rewrite Ha, IH by (rewrite length_app; cbn; lia). cbn. by rewrite <- app_assoc.
Qed.

Lemma s8_printable cs : Forall printable cs → s8 <$> cs = cs.
Proof.
  induction 1 as [|c cs Hc _ IH]; [done|]. unfold printable in Hc. cbn. rewrite IH. f_equal.
  apply s8_small. lia.
Qed.

Lemma u8_printable cs : Forall printable cs → u8 <$> cs = cs.
Proof.
  induction 1 as [|c cs Hc _ IH]; [done|]. unfold printable in Hc. cbn. rewrite IH. f_equal.
  apply u8_small. lia.
Qed.

Lemma ldisc_newline tg line c :
  c = 10 ∨ c = 13 → Z.of_nat (length line) < PTY_BUFFER_SIZE →
  ldisc sane_ts tg line false c = mk_out [] false (u8 <$> line ++ [10]) [13; 10] [].
Proof.
  intros Hc Hl.
  assert (H : ldisc sane_ts tg line false c = mk_out [] false (u8 <$> close_line line 10) [13; 10] []).
  { by destruct Hc as [-> | ->]. }
  rewrite H. do 2 f_equal. unfold close_line, add_char. rewrite (proj2 (Z.ltb_lt _ _)) by done.
  rewrite length_app. cbn. by rewrite Nat.add_sub, take_app_length.
Qed.

(** Reading from a ring that has bytes *)
Lemma ring_take ws rb n :
  rb_wf rb → rb_view rb ≠ [] → (0 < n)%nat →
  ∃ rb', ringbuffer_read ws rb n [] =
      Ok (Z.of_nat (length (take n (rb_view rb))), take n (rb_view rb), rb', [WakeWriters; WakeWriters]) ∧
    rb_wf rb' ∧ rb_view rb' = drop n (rb_view rb).
Proof.
  intros Hwf Hv Hn. destruct (@bq_drain_ok _ ring_queue rb n Hwf) as (rb' & Hd & Hwf' & _ & Hv').
  exists rb'. split; [|done]. rewrite <- rb_drain_bq in Hd. cbn in Hd, Hv'.
  assert (Hl : (length (take n (rb_view rb)) =? 0)%nat = false).
  { apply Nat.eqb_neq. rewrite length_take. destruct (rb_view rb); [done|]. cbn [length]. lia. }
  destruct ws; cbn [ringbuffer_read]; rewrite Hd, bind_ok, Hl; done.
Qed.

(** A line typed on a terminal with the settings of a new one reaches the reader when
    it is ended, not before, and as it was typed: while printable characters are typed the
    reader's stream does not change; a newline or a carriage return then delivers the text
    and one newline, the line starts empty again, and text and line end were echoed; a
    reader with a large enough buffer gets exactly the line in one call. *)
Theorem typed_line_delivered e text nl size :
  te_is_pty e = true → tty_wf (te_tty e) → ts (te_tty e) = sane_ts →
  tty_line (te_tty e) = [] → tty_next (te_tty e) = false → rb_view (in_buffer (te_tty e)) = [] →
  Forall printable text → nl = 10 ∨ nl = 13 → Z.of_nat (length text) < PTY_BUFFER_SIZE →
  Z.of_nat (length text) + 1 ≤ free_in e → Z.of_nat (length text) + 2 ≤ free_out e →
  Z.of_nat (length text) < size →
  ∃ e1 e2 e3, pty_write_master e text = Ok e1 ∧ rb_view (in_buffer (te_tty e1)) = [] ∧
    pty_write_master e1 [nl] = Ok e2 ∧ tty_line (te_tty e2) = [] ∧
    rb_view (out_buffer (te_tty e2)) = rb_view (out_buffer (te_tty e)) ++ text ++ [13; 10] ∧
    pty_read_slave e2 size = Ok (Z.of_nat (length text) + 1, text ++ [10], e3) ∧
    rb_view (in_buffer (te_tty e3)) = [].
Proof.
  intros Hp Hwf Hts Hli Hne Hin Htext Hnl Hlen Hfi Hfo Hsize.
  pose proof (runs_write_master text e Hp Hwf) as H1.
  rewrite Hts, Hli, Hne, (s8_printable text), (ld_run_printable _ [] text) in H1 by (done || cbn; lia).
  destruct H1 as (e1 & Hw1 & Hp1 & Hwf1 & Hk1 & Hi1 & His1 & Ho1 & Hos1 & _); cbn in *; [done..|lia|lia|].
  injection Hk1 as Hts1 _ _ Hli1 Hne1. rewrite Hin in Hi1. cbn in Hi1.
  pose proof (runs_write_master [nl] e1 Hp1 Hwf1) as H2.
  cbn [fmap list_fmap] in H2. rewrite (s8_small nl) in H2 by (destruct Hnl as [-> | ->]; lia).
  cbn [ld_run] in H2. rewrite Hts1, Hts, Hli1, Hne1, ldisc_newline in H2 by done.
  rewrite fmap_app, (u8_printable text) in H2 by done. change (u8 <$> [10]) with [10] in H2. cbn in H2. rewrite app_nil_r in H2.
  destruct H2 as (e2 & Hw2 & Hp2 & Hwf2 & Hk2 & Hi2 & His2 & Ho2 & Hos2 & _); cbn; [done..| | |].
  { rewrite length_app. unfold free_in in *. rewrite His1, <- (length_rb_view _ (proj1 Hwf1)), Hi1.
    rewrite <- (length_rb_view _ (proj1 Hwf)), Hin in Hfi. cbn in *. lia. }
  { unfold free_out in *. rewrite Hos1, <- (length_rb_view _ (proj1 (proj2 Hwf1))), Ho1, length_app.
    rewrite <- (length_rb_view _ (proj1 (proj2 Hwf))) in Hfo. lia. }
  rewrite Hi1 in Hi2. cbn in Hi2. injection Hk2 as Hts2 _ _ Hli2 _.
  destruct (ring_take (next_sleeps e2) (in_buffer (te_tty e2)) (Z.to_nat size) (proj1 Hwf2))
    as (rb & Hr & _ & Hv); [rewrite Hi2; by destruct text|lia|].
  rewrite Hi2, take_ge in Hr by (rewrite length_app; cbn; lia).
  rewrite Hi2, drop_ge in Hv by (rewrite length_app; cbn; lia).
  exists e1, e2. unfold pty_read_slave, read_slave_size, lflag. rewrite Hts2, Hts1, Hts. cbn [negb].
  change (truthy (Z.land (c_lflag sane_ts) ICANON)) with true. cbn [negb]. rewrite Hr, bind_ok.
  rewrite (proj2 (Z.leb_le _ _)) by (rewrite length_app; cbn; lia).
  eexists. split_and!; [done|done|done|done|by rewrite Ho2, Ho1, <- app_assoc| |].
  - rewrite length_app. cbn [length]. rewrite Nat2Z.inj_add. reflexivity.
  - exact Hv.
Qed.

Lemma typed_line_delivered_witness :
  ∃ e1 e2 e3, pty_write_master demo_tty [108; 115] = Ok e1 ∧
    pty_write_master e1 [13] = Ok e2 ∧ pty_read_slave e2 128 = Ok (3, [108; 115; 10], e3).
Proof.
  destruct (typed_line_delivered demo_tty [108; 115] 13 128)
    as (e1 & e2 & e3 & H1 & _ & H2 & _ & _ & H3 & _);
    [done|exact demo_tty_wf|done|done|done|done| |by right|done|done|done|done|].
  { repeat constructor; done. }
  exists e1, e2, e3. split; [exact H1|]. split; [exact H2|exact H3].
Defined.

Lemma ld_run_erase tg line cs :
  ld_run sane_ts tg (line ++ cs) false (replicate (length cs) 127) =
  mk_out line false [] (replicate (length cs) 8) [].
Proof.
  induction cs as [|c cs IH] using rev_ind; cbn; [by rewrite app_nil_r|].
  rewrite length_app. cbn. rewrite Nat.add_1_r. cbn [replicate ld_run].
  assert (H : ∀ l, ldisc sane_ts tg l false 127 = mk_out (cut l 1) false [] (cut_echo sane_ts l 1) [])
    by done.
  rewrite H, app_assoc, cut_snoc, cut_0, cut_echo_snoc, cut_echo_0. cbn [o_line o_next].
  rewrite IH. done.
Qed.

(** Erasing takes back what was typed: after some printable characters and as many
    presses of the erase key, the line being edited is what it was, the reader got
    nothing, nobody was signalled, and each character was echoed once and rubbed out once. *)
Theorem erase_takes_back e cs :
  te_is_pty e = true → tty_wf (te_tty e) → ts (te_tty e) = sane_ts →
  tty_next (te_tty e) = false → Forall printable cs →
  line_length (te_tty e) + Z.of_nat (length cs) ≤ PTY_BUFFER_SIZE →
  2 * Z.of_nat (length cs) ≤ free_out e → 0 ≤ free_in e →
  ∃ e', pty_write_master e (cs ++ replicate (length cs) 127) = Ok e' ∧
    tty_line (te_tty e') = tty_line (te_tty e) ∧
    rb_view (in_buffer (te_tty e')) = rb_view (in_buffer (te_tty e)) ∧
    tty_signals e' = tty_signals e ∧
    rb_view (out_buffer (te_tty e')) =
      rb_view (out_buffer (te_tty e)) ++ cs ++ replicate (length cs) 8.
Proof.
  intros Hp Hwf Hts Hne Hcs Hl Hfo Hfi. rewrite <- (length_tty_line _ Hwf) in Hl.
  pose proof (runs_write_master (cs ++ replicate (length cs) 127) e Hp Hwf) as H.
  rewrite Hts, Hne, fmap_app, s8_printable, fmap_replicate, ld_run_app in H by done.
  change (s8 127) with 127 in H.
  rewrite ld_run_printable in H by (done || lia). cbn [o_line o_next] in H. rewrite ld_run_erase in H.
  destruct H as (e' & Hw & _ & _ & Hk & Hi & _ & Ho & _ & Hs); cbn; [done..|lia| |].
  { rewrite length_app, length_replicate. lia. }
  injection Hk as _ _ _ Hli _. exists e'. cbn in Hi, Hs. rewrite app_nil_r in Hi, Hs. done.
Qed.

Lemma erase_takes_back_witness :
  ∃ e', pty_write_master demo_tty [120; 121; 127; 127] = Ok e' ∧ tty_line (te_tty e') = [] ∧
    rb_view (out_buffer (te_tty e')) = [120; 121; 8; 8].
Proof.
  destruct (erase_takes_back demo_tty [120; 121]) as (e' & H & Hl & _ & _ & Ho);
    [done|exact demo_tty_wf|done|done|repeat constructor; done|done|done|done|].
  exists e'. split; [exact H|]. split; [exact Hl|exact Ho].
Defined.

(** ** Raw mode *)

(** Settings that take input as it comes *)
Definition raw_ts (x : termios) : Prop :=
  Forall (λ f, has (c_lflag x) f = false) [ICANON; ECHO; ISIG] ∧
  Forall (λ f, has (c_iflag x) f = false) [ISTRIP; INLCR; IGNCR; ICRNL].

Lemma ld_run_raw x tg line cs :
  raw_ts x → ld_run x tg line false cs = mk_out line false (u8 <$> cs) [] [].
Proof.
  intros [Hl Hi]. rewrite !Forall_cons in Hl. rewrite !Forall_cons in Hi.
  destruct Hl as (H1 & H2 & H3 & _), Hi as (H4 & H5 & H6 & H7 & _).
  induction cs as [|c cs IH]; [done|]. cbn [ld_run].
  assert (Ho : ldisc x tg line false c = mk_out line false [u8 c] [] []).
  { unfold ldisc, ld_signal, ld_map. by rewrite H1, H2, H3, H4, H5, H6, H7. }
  rewrite Ho. cbn [o_line o_next o_deliver o_echo o_signal]. by rewrite IH.
Qed.

Lemma u8_s8 b : 0 ≤ b < 256 → u8 (s8 b) = b.
Proof.
  intros Hb. unfold u8, s8. rewrite Zminus_mod_idemp_l. rewrite Z.add_simpl_r.
  apply Z.mod_small. lia.
Qed.

(** In raw mode every byte written to the master side, whatever its value, reaches the
    reader unchanged, in order and at once, with nothing echoed, edited or turned into a
    signal. *)
Theorem raw_mode_transparent e data :
  te_is_pty e = true → tty_wf (te_tty e) → raw_ts (ts (te_tty e)) →
  tty_next (te_tty e) = false → Forall (λ b, 0 ≤ b < 256) data →
  Z.of_nat (length data) ≤ free_in e → 0 ≤ free_out e →
  ∃ e', pty_write_master e data = Ok e' ∧
    rb_view (in_buffer (te_tty e')) = rb_view (in_buffer (te_tty e)) ++ data ∧
    rb_view (out_buffer (te_tty e')) = rb_view (out_buffer (te_tty e)) ∧
    tty_line (te_tty e') = tty_line (te_tty e) ∧ tty_signals e' = tty_signals e.
Proof.
  intros Hp Hwf Hraw Hne Hd Hfi Hfo. pose proof (runs_write_master data e Hp Hwf) as H.
  rewrite Hne, ld_run_raw in H by done.
  assert (Hid : u8 <$> (s8 <$> data) = data).
  { clear -Hd. induction Hd as [|b data Hb _ IH]; [done|]. cbn. by rewrite IH, u8_s8. }
  rewrite Hid in H. destruct H as (e' & Hw & _ & _ & Hk & Hi & _ & Ho & _ & Hs); cbn; [done..|].
  injection Hk as _ _ _ Hli _. exists e'. cbn in Ho, Hs. rewrite app_nil_r in Ho, Hs. done.
Qed.

Definition raw_demo : tenv :=
  with_tty demo_tty (set_ts (te_tty demo_tty) (mk_termios 0 0 0 0 (replicate NCCS 0))).

Lemma raw_mode_transparent_witness :
  ∃ e', pty_write_master raw_demo [3; 13; 255] = Ok e' ∧
    rb_view (in_buffer (te_tty e')) = [3; 13; 255].
Proof.
  destruct (raw_mode_transparent raw_demo [3; 13; 255]) as (e' & H & Hi & _);
    [done|exact demo_tty_wf|split; repeat constructor|done| |done|done|].
  { repeat constructor; done. }
  exists e'. split; [exact H|exact Hi].
Defined.

(** In raw mode a read can take more bytes than its caller asked for: with [VMIN] zero the
    request is raised to all that is available, otherwise to [VMIN], and the bytes are
    stored behind the end of the caller's buffer. *)
Theorem raw_read_overruns e size :
  tty_wf (te_tty e) → lflag (te_tty e) ICANON = false → 0 < size →
  let avail := Z.of_nat (length (rb_view (in_buffer (te_tty e)))) in
  let vmin := cc (te_tty e) VMIN in
  size < avail → vmin = 0 ∨ size < vmin → pty_read_slave e size = Fault.
Proof.
  intros Hwf Hl Hs avail vmin Ha Hv. unfold pty_read_slave, read_slave_size. rewrite Hl. cbn [negb].
  rewrite read_available_used, <- length_rb_view by apply Hwf. fold avail vmin.
  set (sz := if vmin =? 0 then _ else _). assert (Hsz : size < sz).
  { unfold sz. repeat case_if; lia. }
  destruct (ring_take (next_sleeps e) (in_buffer (te_tty e)) (Z.to_nat sz) (proj1 Hwf))
    as (rb & Hr & _ & _); [|lia|].
  { intros Hnil. unfold avail in Ha. rewrite Hnil in Ha. cbn in Ha. lia. }
  rewrite Hr, bind_ok. rewrite (proj2 (Z.leb_gt _ _)); [done|]. rewrite length_take. lia.
Qed.

Lemma raw_read_overruns_witness :
  pty_read_slave (with_tty raw_demo (set_in (te_tty raw_demo) (mk_rb [1; 2; 3; 4] 4 0 3))) 1 = Fault.
Proof.
  apply (raw_read_overruns (with_tty raw_demo (set_in (te_tty raw_demo) (mk_rb [1; 2; 3; 4] 4 0 3))) 1);
    [|done|done|done|by left].
  destruct demo_tty_wf as (_ & Ho & Hb & Hl). split; [repeat split; cbn; lia|].
  split; [exact Ho|]. split; [exact Hb|exact Hl].
Defined.

(** ** Two writers *)

Lemma slept_app ev ev' : slept (ev ++ ev') = slept ev || slept ev'.
Proof. apply existsb_app. Qed.

Lemma write_keeps_slept ws rb data ev r rb' ev' :
  ringbuffer_write ws rb data ev = Ok (r, rb', ev') → slept ev = true → slept ev' = true.
Proof.
  revert rb ev. induction ws as [|w ws IH]; intros rb ev H Hev; cbn [ringbuffer_write] in H; inv_ok.
  - destruct (_ =? _)%nat; [done|]. injection H as _ _ <-. by rewrite !slept_app, Hev.
  - destruct (_ =? _)%nat; [|injection H as _ _ <-; by rewrite !slept_app, Hev].
    destruct (w _) as [[] rb2].
    + injection H as _ _ <-. by rewrite !slept_app, Hev.
    + apply IH in H; [done|]. by rewrite !slept_app, Hev.
Qed.

(** A put to a full ring sleeps. *)
Lemma write_full_sleeps ws rb c r rb' ev :
  rb_wf rb → rb_size rb - 1 - rb_used rb = 0 → ringbuffer_write ws rb [c] [] = Ok (r, rb', ev) → slept ev = true.
Proof.
  intros Hwf Hfull H.
  assert (Hfill : rb_fill rb [c] 0 = Ok (rb, 0%nat)).
  { cbn [rb_fill]. rewrite write_available_free, Hfull by done. done. }
  destruct ws as [|w ws]; cbn [ringbuffer_write] in H; rewrite Hfill, bind_ok in H; cbn [Nat.eqb] in H; [done|].
  destruct (w rb) as [[] rb2]; [by injection H as _ _ <-|]. by apply write_keeps_slept in H.
Qed.

Lemma line_get_inside t i x : line_get t i = Ok x → i < Z.of_nat (length (line_buffer t)).
Proof. unfold line_get. destruct ((0 <=? i) && _) eqn:E; [|done]. apply andb_true_iff in E as [_ E]. lia. Qed.

(** A flush that starts with more characters than the buffer has left does not end
    regularly, however many turns it takes. *)
Lemma flush_too_long fuel i e e' :
  te_others e = [] → 0 ≤ i → 0 < line_length (te_tty e) < 2 ^ 32 →
  Z.of_nat (length (line_buffer (te_tty e))) < i + line_length (te_tty e) → flush_loop fuel i e ≠ Ok e'.
Proof.
  revert i e. induction fuel as [|fuel IH]; intros i e Ho Hi Hl Hb; cbn [flush_loop]; [done|].
  rewrite (proj2 (Z.ltb_lt 0 _)) by lia. intros H. apply bind_ok_inv in H as (x & Hx & H).
  assert (i < Z.of_nat (length (line_buffer (te_tty e)))) by (by eapply line_get_inside).
  apply bind_ok_inv in H as (e1 & Hput & H). revert H. cbv zeta.
  apply putc_in_frame in Hput as (Hbuf & Hlen & Ho1); [|by right].
  apply IH; cbn [te_others with_tty te_tty set_line line_length line_buffer]; [by apply Ho1|lia|..];
    rewrite Hlen, u32_small by lia; rewrite ?Hbuf; lia.
Qed.

(** C39: Nothing protects the line while a flush sleeps on the full ring of the reader.  When
    another process flushes the line meanwhile, its length is 0 and is decremented to
    2^32 - 1: the flush goes on behind the line and the buffer, and never returns, however
    many turns it is given. *)
Theorem concurrent_flush_overruns e f :
  tty_wf (te_tty e) → free_in e = 0 → 0 < line_length (te_tty e) →
  te_others e = [f] → tty_wf (f (te_tty e)) → line_length (f (te_tty e)) = 0 →
  ∀ e', (∀ fuel, flush_loop fuel 0 e ≠ Ok e') ∧ line_flush e ≠ Ok e'.
Proof.
  intros (Hwi & _ & _ & _) Hfull Hl Ho (_ & _ & Hbuf & _) Hf e'.
  assert (Hall : ∀ fuel, flush_loop fuel 0 e ≠ Ok e'); [|split; [done|apply Hall]].
  intros [|fuel]; cbn [flush_loop]; [done|].
  rewrite (proj2 (Z.ltb_lt 0 _)) by done. intros H. apply bind_ok_inv in H as (x & _ & H).
  apply bind_ok_inv in H as (e1 & Hput & H). revert H. cbv zeta. unfold PUTC_IN in Hput.
  apply bind_ok_inv in Hput as ([[r rb] ev] & Hw & Hput). apply write_full_sleeps in Hw; [|done|done].
  injection Hput as <-. unfold put_in, after_sleep. rewrite Hw, Ho.
  apply flush_too_long; cbn [te_others with_tty te_tty set_in set_line line_length line_buffer]; [done|done|..];
    rewrite Hf; change (u32 (0 - 1)) with (2 ^ 32 - 1); [lia|]. unfold PTY_BUFFER_SIZE in Hbuf. lia.
Qed.

(** Two writers end the line "a": the ring of the reader is full; while the first flush
    sleeps the second one empties the line, and a reader makes room. *)
Definition full_tty : tenv :=
  mk_tenv (mk_tty 1 sane_ts (mk_rb (replicate 4 0) 4 1 0) (mk_rb (replicate 64 0) 64 0 0)
             (97 :: replicate 4097 0) 1 0 7) true [7] (replicate 5000 [λ rb, (false, mk_rb (rb_buffer rb) 4 0 0)]) [λ t, set_line t (line_buffer t) 0] [].

Lemma concurrent_flush_overruns_witness :
  (∀ e', (∀ fuel, flush_loop fuel 0 full_tty ≠ Ok e') ∧ line_flush full_tty ≠ Ok e') ∧ line_flush full_tty = Fault.
Proof.
  destruct demo_tty_wf as (_ & Ho & _).
  split.
  - apply (concurrent_flush_overruns full_tty (λ t, set_line t (line_buffer t) 0)).
    + split; [repeat split; cbn; lia|].
      split; [exact Ho|]. split; [vm_compute; reflexivity|split; vm_compute; discriminate].
    + reflexivity.
    + reflexivity.
    + reflexivity.
    + split; [repeat split; cbn; lia|].
      split; [exact Ho|]. split; [vm_compute; reflexivity|split; vm_compute; discriminate].
    + reflexivity.
  - vm_compute. reflexivity.
Defined.
