(* ===== verification/FdTable.v ===== *)
(** * File descriptors: process.c, util/fd.c, and their system calls

    A process's table is an array of pointers to descriptor objects; objects point to
    file-system nodes, which count the descriptors that use them.  Objects and nodes live
    in maps from addresses; a missing object or node is a dangling pointer and using it is
    a [Fault], as is [__builtin_unreachable].  The address [k_malloc] returns is an
    argument. *)

From S2P Require Import Prelude.

Record fd_t := mk_fd {
  fd_node : Z;
  fd_offset : Z;
  fd_links : Z
}.

Record fs_node := mk_node {
  nd_links : Z;
  nd_mode : Z;
  nd_size : Z
}.

Record fd_list := mk_fds {
  fl_nodes : list Z; (* 0: NULL *)
  fl_amount : Z;
  fl_size : Z
}.

(** The objects and nodes of the whole system *)
Record files := mk_files {
  objs : gmap Z fd_t;
  nodes : gmap Z fs_node
}.

Definition O_CLOEXEC : Z := Z.shiftl 1 8.

Definition get_obj (s : files) (a : Z) : res fd_t := of_option (objs s !! a).

(** [fds->nodes[i]] *)
Definition slot (t : fd_list) (i : Z) : res Z :=
  if i <? 0 then Fault else of_option (fl_nodes t !! Z.to_nat i).

(** [fds->nodes[i] = a] *)
Definition set_slot (t : fd_list) (i a : Z) : res fd_list :=
  if (0 <=? i) && (i <? Z.of_nat (length (fl_nodes t)))
  then Ok (mk_fds (<[Z.to_nat i := a]> (fl_nodes t)) (fl_amount t) (fl_size t)) else Fault.

(** [fd2fdt]: the address of the object, 0 if there is none *)
Definition fd2fdt (t : fd_list) (fd : Z) : res Z :=
  if (fd <? 0) || (fl_size t <=? fd) then Ok 0 else slot t fd.

(** The search of [k_proc_process_open_node] for a free slot *)
Fixpoint find_free (n : nat) (t : fd_list) (i : Z) : res Z :=
  match n with
  | O => Fault
  | S n' => a ← slot t i; if a =? 0 then Ok i else find_free n' t (i + 1)
  end.

Definition k_proc_process_open_node (s : files) (t : fd_list) (node new : Z)
    : res (Z * files * fd_list) :=
  let s1 := mk_files (<[new := mk_fd node 0 1]> (objs s)) (nodes s) in
  if fl_size t =? fl_amount t then
    Ok (fl_size t, s1,
        mk_fds (fl_nodes t ++ [new]) (u32 (fl_amount t + 1)) (u32 (fl_size t + 1)))
  else
    i ← find_free (Z.to_nat (fl_size t)) t 0;
    t1 ← set_slot t i new;
    Ok (i, s1, mk_fds (fl_nodes t1) (u32 (fl_amount t1 + 1)) (fl_size t1)).

(** [k_fs_vfs_close]; the last descriptor frees the node *)
Definition k_fs_vfs_close (s : files) (node : Z) : res files :=
  if node =? 0 then Ok s
  else
    x ← of_option (nodes s !! node);
    let links := u32 (nd_links x - 1) in
    if links =? 0 then Ok (mk_files (objs s) (delete node (nodes s)))
    else Ok (mk_files (objs s) (<[node := mk_node links (nd_mode x) (nd_size x)]> (nodes s))).

Definition k_proc_process_close_fd (s : files) (t : fd_list) (fd : Z) : res (files * fd_list) :=
  if fl_size t <=? fd then Ok (s, t)
  else
    a ← slot t fd;
    x ← get_obj s a;
    s1 ← k_fs_vfs_close s (fd_node x);
    let links := u32 (fd_links x - 1) in
    let s2 := if links =? 0 then mk_files (delete a (objs s1)) (nodes s1)
              else mk_files (<[a := mk_fd (fd_node x) (fd_offset x) links]> (objs s1)) (nodes s1) in
    t1 ← set_slot t fd 0;
    Ok (s2, mk_fds (fl_nodes t1) (u32 (fl_amount t1 - 1)) (fl_size t1)).

(** The loop of [k_proc_process_exit] over the table *)
Fixpoint close_all (n : nat) (i : Z) (s : files) (t : fd_list) : res (files * fd_list) :=
  match n with
  | O => Ok (s, t)
  | S n' =>
      a ← slot t i;
      '(s1, t1) ← (if truthy a then k_proc_process_close_fd s t i else Ok (s, t));
      close_all n' (i + 1) s1 t1
  end.

Definition exit_fds (s : files) (t : fd_list) : res (files * fd_list) :=
  close_all (Z.to_nat (fl_size t)) 0 s t.

(** [k_proc_process_prepare_exec] *)
Fixpoint close_on_exec (n : nat) (i : Z) (s : files) (t : fd_list) : res (files * fd_list) :=
  match n with
  | O => Ok (s, t)
  | S n' =>
      a ← slot t i;
      '(s1, t1) ← (if truthy a then
          x ← get_obj s a;
          nd ← of_option (nodes s !! fd_node x);
          if truthy (Z.land (nd_mode nd) O_CLOEXEC)
          then k_proc_process_close_fd s t i else Ok (s, t)
        else Ok (s, t));
      close_on_exec n' (i + 1) s1 t1
  end.

Definition k_proc_process_prepare_exec (s : files) (t : fd_list) : res (files * fd_list) :=
  close_on_exec (Z.to_nat (fl_size t)) 0 s t.

(** The descriptor part of [k_proc_process_fork]: a fresh array, a fresh object with one
    link for each used slot.  [news] are the addresses [k_malloc] returns. *)
Fixpoint fork_slots (s : files) (slots news : list Z) : res (files * list Z) :=
  match slots with
  | [] => Ok (s, [])
  | a :: slots' =>
      if a =? 0 then '(s1, l) ← fork_slots s slots' news; Ok (s1, 0 :: l)
      else
        match news with
        | [] => OutOfFuel
        | new :: news' =>
            x ← get_obj s a;
            nd ← of_option (nodes s !! fd_node x);
            let s1 := mk_files (<[new := mk_fd (fd_node x) (fd_offset x) 1]> (objs s))
              (<[fd_node x := mk_node (u32 (nd_links nd + 1)) (nd_mode nd) (nd_size nd)]> (nodes s)) in
            '(s2, l) ← fork_slots s1 slots' news'; Ok (s2, new :: l)
        end
  end.

Definition fork_fds (s : files) (t : fd_list) (news : list Z) : res (files * fd_list) :=
  '(s1, l) ← fork_slots s (take (Z.to_nat (fl_size t)) (fl_nodes t)) news;
  Ok (s1, mk_fds l (fl_amount t) (fl_size t)).

(** ** System calls *)

(** [while((uint32_t) fd2 < fds->size && fds->nodes[fd2]) fd2++;] *)
Fixpoint dup_target (n : nat) (t : fd_list) (fd2 : Z) : res Z :=
  match n with
  | O => Ok fd2
  | S n' => a ← slot t fd2; if truthy a then dup_target n' t (fd2 + 1) else Ok fd2
  end.

(** [realloc] to [size] entries of 4 bytes: a new entry has arbitrary contents ([junk]). *)
Definition resize_slots (l : list Z) (size junk : Z) : list Z :=
  let n := Z.to_nat (u32 (size * 4) / 4) in
  take n (l ++ replicate (n - length l) junk).

Definition sys_dup2 (s : files) (t : fd_list) (fd1 fd2 junk : Z) : res (Z * files * fd_list) :=
  if fd1 <? 0 then Ok (u32 (- EINVAL), s, t)
  else if fl_size t <=? fd1 then Ok (u32 (- EINVAL), s, t)
  else
    a ← slot t fd1;
    if a =? 0 then Ok (u32 (- EINVAL), s, t)
    else
      fd2' ← (if fd2 <? 0 then dup_target (Z.to_nat (fl_size t)) t 0 else Ok fd2);
      let t1 := if fl_size t <=? fd2' then
          let size := u32 (fl_size t + u32 (fl_size t - fd2' + 1)) in
          mk_fds (resize_slots (fl_nodes t) size junk) (fl_amount t) size
        else t in
      a1 ← slot t1 fd1;
      t2 ← set_slot t1 fd2' a1;
      a2 ← slot t2 fd1;
      x ← get_obj s a2;
      Ok (fd2', mk_files (<[a2 := mk_fd (fd_node x) (fd_offset x) (u32 (fd_links x + 1))]> (objs s))
                  (nodes s), t2).

(** The offset part of [sys_read] and [sys_write]: [moved] is what the file system
    returned, as a signed number. *)
Definition advance (s : files) (t : fd_list) (fd moved : Z) : res (Z * files) :=
  a ← fd2fdt t fd;
  if a =? 0 then Ok (u32 (- ENOENT), s)
  else
    x ← get_obj s a;
    _ ← of_option (nodes s !! fd_node x);
    if 0 <? moved
    then Ok (u32 moved, mk_files (<[a := mk_fd (fd_node x) (u32 (fd_offset x + moved)) (fd_links x)]> (objs s)) (nodes s))
    else Ok (u32 moved, s).

Definition sys_seek (s : files) (t : fd_list) (fd offset origin : Z) : res (Z * files) :=
  a ← fd2fdt t fd;
  if a =? 0 then Ok (u32 (- ENOENT), s)
  else
    x ← get_obj s a;
    nd ← of_option (nodes s !! fd_node x);
    let o := if origin =? SEEK_CUR then u32 (fd_offset x + offset)
             else if origin =? SEEK_SET then offset
             else if origin =? SEEK_END then u32 (nd_size nd + offset)
             else fd_offset x in
    Ok (o, mk_files (<[a := mk_fd (fd_node x) o (fd_links x)]> (objs s)) (nodes s)).

(** ** Well-formed tables *)

(** How many entries of a table refer to node [n] *)
Definition refers (s : files) (n a : Z) : Prop := a ≠ 0 ∧ fd_node <$> objs s !! a = Some n.
#[export] Instance refers_dec s n a : Decision (refers s n a).
Proof. unfold refers. apply _. Defined.
Definition cnt (s : files) (l : list Z) (n : Z) : nat := length (filter (refers s n) l).

(** The entries in use *)
Definition used (l : list Z) : list Z := filter (λ a, a ≠ 0) l.

(** The table and the counts agree: [amount] counts the used entries, each has an object of
    its own, and a node has as many links as there are entries for it here plus [others]
    held elsewhere; a node without links does not exist. *)
Record fd_wf (s : files) (t : fd_list) (others : Z → nat) : Prop := {
  wf_size : fl_size t = Z.of_nat (length (fl_nodes t));
  wf_bound : fl_size t < 2 ^ 32 - 1;
  wf_amount : fl_amount t = Z.of_nat (length (used (fl_nodes t)));
  wf_distinct : NoDup (used (fl_nodes t));
  wf_obj a : a ∈ used (fl_nodes t) → ∃ x, objs s !! a = Some x ∧ fd_links x = 1 ∧ fd_node x ≠ 0;
  wf_node n nd : nodes s !! n = Some nd →
    nd_links nd = Z.of_nat (cnt s (fl_nodes t) n + others n) ∧ 0 < nd_links nd < 2 ^ 32;
  wf_none n : nodes s !! n = None → (cnt s (fl_nodes t) n + others n = 0)%nat
}.


Section counting.
Implicit Types (s : files) (l : list Z) (a n : Z).

Lemma cnt_app s l1 l2 n : cnt s (l1 ++ l2) n = (cnt s l1 n + cnt s l2 n)%nat.
Proof. unfold cnt. by rewrite filter_app, length_app. Qed.

Lemma cnt_cons s a l n :
  cnt s (a :: l) n = ((if decide (refers s n a) then 1 else 0) + cnt s l n)%nat.
Proof. unfold cnt. rewrite filter_cons. by destruct (decide (refers s n a)). Qed.

Lemma cnt_0 s l n : cnt s (0 :: l) n = cnt s l n.
Proof. rewrite cnt_cons. rewrite decide_False; [done|]. by intros [? _]. Qed.

Lemma cnt_ext s s' l n :
  (∀ a, a ∈ l → a ≠ 0 → objs s !! a = objs s' !! a) → cnt s l n = cnt s' l n.
Proof.
  induction l as [|a l IH]; intros H; [done|]. rewrite !cnt_cons, IH by (intros; apply H; [by right|done]).
  f_equal. assert (Hr : refers s n a ↔ refers s' n a).
  { unfold refers. destruct (decide (a = 0)); [tauto|]. rewrite H by (done || by left). done. }
  by destruct (decide (refers s n a)), (decide (refers s' n a)); try tauto.
Qed.

Lemma used_app l1 l2 : used (l1 ++ l2) = used l1 ++ used l2.
Proof. apply filter_app. Qed.

Lemma used_cons a l : a ≠ 0 → used (a :: l) = a :: used l.
Proof. intros. unfold used. by rewrite filter_cons_True. Qed.

Lemma used_0 l : used (0 :: l) = used l.
Proof. unfold used. by rewrite filter_cons_False by (intros H; by apply H). Qed.

Lemma elem_of_used l a : a ∈ used l ↔ a ∈ l ∧ a ≠ 0.
Proof. unfold used. rewrite list_elem_of_filter. tauto. Qed.

Lemma length_used_le l : (length (used l) ≤ length l)%nat.
Proof. apply length_filter. Qed.

(** A table is full exactly when no entry is NULL. *)
Lemma used_full l : length (used l) = length l ↔ Forall (λ a, a ≠ 0) l.
Proof.
  induction l as [|a l IH]; [done|]. rewrite Forall_cons, <- IH. destruct (decide (a = 0)) as [->|Ha].
  - rewrite used_0. pose proof (length_used_le l). cbn [length]. split; [lia|tauto].
  - rewrite used_cons by done. cbn [length]. lia.
Qed.

Lemma refers_obj s a x n : a ≠ 0 → objs s !! a = Some x → refers s n a ↔ fd_node x = n.
Proof. intros Ha Hx. unfold refers. rewrite Hx. cbn. naive_solver. Qed.
End counting.

(** ** Closing *)

(** Giving up one link of node [n]: what remains of the nodes. *)
Definition drop_link (m : gmap Z fs_node) (n : Z) : gmap Z fs_node :=
  match m !! n with
  | None => m
  | Some nd => if nd_links nd =? 1 then delete n m
               else <[n := mk_node (nd_links nd - 1) (nd_mode nd) (nd_size nd)]> m
  end.

Lemma vfs_close_ok s n nd :
  n ≠ 0 → nodes s !! n = Some nd → 0 < nd_links nd < 2 ^ 32 →
  k_fs_vfs_close s n = Ok (mk_files (objs s) (drop_link (nodes s) n)).
Proof.
  intros Hn Hnd Hl. unfold k_fs_vfs_close, drop_link. rewrite (proj2 (Z.eqb_neq n 0)) by done.
  rewrite Hnd. cbn [of_option]. rewrite bind_ok. cbn zeta. rewrite u32_small by lia.
  destruct (Z.eqb_spec (nd_links nd) 1) as [->|]; [done|].
  by rewrite (proj2 (Z.eqb_neq (nd_links nd - 1) 0)) by lia.
Qed.

Lemma slot_mid (l1 l2 : list Z) a am sz :
  slot (mk_fds (l1 ++ a :: l2) am sz) (Z.of_nat (length l1)) = Ok a.
Proof.
  unfold slot. rewrite (proj2 (Z.ltb_ge _ _)), Nat2Z.id by lia. cbn.
  by rewrite list_lookup_middle.
Qed.

Lemma set_slot_mid (l1 l2 : list Z) a b am sz :
  set_slot (mk_fds (l1 ++ a :: l2) am sz) (Z.of_nat (length l1)) b =
  Ok (mk_fds (l1 ++ b :: l2) am sz).
Proof.
  unfold set_slot. cbn. rewrite length_app. cbn [length].
  rewrite (proj2 (Z.leb_le _ _)), (proj2 (Z.ltb_lt _ _)), Nat2Z.id by lia. cbn [andb].
  rewrite <- (Nat.add_0_r (length l1)). rewrite insert_app_r. done.
Qed.

Section tables.
Implicit Types (s : files) (t : fd_list) (l : list Z) (a n : Z) (o : Z → nat).

(** An entry in use has an object, and its node a link. *)
Lemma wf_entry s t o a :
  fd_wf s t o → a ∈ used (fl_nodes t) →
  ∃ x nd, objs s !! a = Some x ∧ fd_links x = 1 ∧ fd_node x ≠ 0 ∧
    nodes s !! fd_node x = Some nd ∧ 0 < nd_links nd < 2 ^ 32.
Proof.
  intros H Ha. destruct (wf_obj _ _ _ H a Ha) as (x & Hx & Hl & Hn).
  destruct (nodes s !! fd_node x) as [nd|] eqn:Hnd.
  - exists x, nd. destruct (wf_node _ _ _ H _ _ Hnd). done.
  - apply (wf_none _ _ _ H) in Hnd. apply elem_of_used in Ha as [Ha Ha0].
    assert (Hin : a ∈ filter (refers s (fd_node x)) (fl_nodes t)).
    { apply list_elem_of_filter. split; [|done]. by apply (refers_obj s a x). }
    unfold cnt in Hnd. destruct (filter _ _); [by apply elem_of_nil in Hin|]. cbn in Hnd. lia.
Qed.

Lemma NoDup_mid l1 a l2 : a ≠ 0 → NoDup (used (l1 ++ a :: l2)) →
  a ∉ used l1 ∧ a ∉ used l2 ∧ NoDup (used (l1 ++ 0 :: l2)).
Proof.
  intros Ha. rewrite !used_app, used_cons, used_0 by done.
  intros (H1 & H2 & H3)%NoDup_app. apply NoDup_cons in H3 as [H3 H4]. split.
  { intros Hin. by apply (H2 a Hin); left. }
  split; [done|]. apply NoDup_app. split; [done|]. split; [|done].
  intros b Hb Hb'. by apply (H2 b Hb); right.
Qed.

Lemma cnt_close s m l1 a l2 x n :
  a ≠ 0 → objs s !! a = Some x → a ∉ used l1 → a ∉ used l2 →
  cnt s (l1 ++ a :: l2) n =
  (cnt (mk_files (delete a (objs s)) m) (l1 ++ 0%Z :: l2) n + if decide (fd_node x = n) then 1 else 0)%nat.
Proof.
  intros Ha Hx Ha1 Ha2. rewrite !cnt_app, cnt_cons, cnt_0.
  rewrite (cnt_ext (mk_files _ _) s l1), (cnt_ext (mk_files _ _) s l2).
  - pose proof (refers_obj s a x n Ha Hx).
    destruct (decide (refers s n a)), (decide (fd_node x = n)); try tauto; lia.
  - intros b Hb Hb0. cbn. apply lookup_delete_ne. intros <-. by apply Ha2, elem_of_used.
  - intros b Hb Hb0. cbn. apply lookup_delete_ne. intros <-. by apply Ha1, elem_of_used.
Qed.

Lemma drop_link_lookup m n n' :
  drop_link m n !! n' =
  if decide (n = n') then
    nd ← m !! n'; if nd_links nd =? 1 then None
                  else Some (mk_node (nd_links nd - 1) (nd_mode nd) (nd_size nd))
  else m !! n'.
Proof.
  unfold drop_link. destruct (decide (n = n')) as [<-|Hne].
  - destruct (m !! n) as [nd|] eqn:Hn; [|done]. cbn. case_if; [apply lookup_delete_eq|apply lookup_insert_eq].
  - destruct (m !! n); [|done]. case_if; [by apply lookup_delete_ne|by apply lookup_insert_ne].
Qed.

(** Closing an entry keeps counts and table in agreement. *)
Lemma close_wf s o l1 a l2 am sz x :
  fd_wf s (mk_fds (l1 ++ a :: l2) am sz) o → a ≠ 0 → objs s !! a = Some x →
  fd_wf (mk_files (delete a (objs s)) (drop_link (nodes s) (fd_node x)))
    (mk_fds (l1 ++ 0 :: l2) (am - 1) sz) o.
Proof.
  intros [Hsz Hb Ham Hd Hobj Hnode Hnone] Ha Hx. cbn [fl_nodes fl_amount fl_size] in *.
  destruct (NoDup_mid l1 a l2 Ha Hd) as (Ha1 & Ha2 & Hd2).
  set (s' := mk_files _ _).
  assert (Hcnt := λ n, cnt_close s (drop_link (nodes s) (fd_node x)) l1 a l2 x n Ha Hx Ha1 Ha2).
  fold s' in Hcnt. constructor; cbn [fl_nodes fl_amount fl_size].
  - rewrite length_app in *. done.
  - done.
  - rewrite used_app, used_0, length_app. rewrite used_app, used_cons, length_app in Ham by done.
    cbn [length] in Ham. lia.
  - done.
  - intros b Hin. assert (Hb2 : b ∈ used (l1 ++ a :: l2) ∧ b ≠ a).
    { rewrite used_app, used_0 in Hin. split.
      - rewrite used_app, used_cons by done. apply elem_of_app.
        apply elem_of_app in Hin as [|]; [by left|by right; right].
      - intros ->. apply elem_of_app in Hin as [|]; done. }
    destruct (Hobj b) as (y & Hy & ?); [apply Hb2|]. exists y. cbn.
    rewrite lookup_delete_ne by (intros <-; by destruct Hb2). done.
  - intros n nd. cbn. rewrite drop_link_lookup. specialize (Hcnt n).
    destruct (decide (fd_node x = n)); [|intros Hl; apply Hnode in Hl; lia].
    destruct (nodes s !! n) as [nd0|] eqn:Hn; [|done]. cbn. apply Hnode in Hn.
    case_if; intros [= <-]. cbn. lia.
  - intros n. cbn. rewrite drop_link_lookup. specialize (Hcnt n).
    destruct (decide (fd_node x = n)); [|intros Hl; apply Hnone in Hl; lia].
    destruct (nodes s !! n) as [nd0|] eqn:Hn; [|by intros _; apply Hnone in Hn; lia].
    cbn. apply Hnode in Hn. case_if; [intros _; lia|done].
Qed.

Lemma close_at s t o l1 a l2 :
  fd_wf s t o → fl_nodes t = l1 ++ a :: l2 → a ≠ 0 →
  ∃ x, objs s !! a = Some x ∧ fd_node x ≠ 0 ∧
    let s' := mk_files (delete a (objs s)) (drop_link (nodes s) (fd_node x)) in
    let t' := mk_fds (l1 ++ 0 :: l2) (fl_amount t - 1) (fl_size t) in
    k_proc_process_close_fd s t (Z.of_nat (length l1)) = Ok (s', t') ∧ fd_wf s' t' o.
Proof.
  intros H Hl Ha. assert (Hin : a ∈ used (fl_nodes t)).
  { apply elem_of_used. rewrite Hl. split; [|done]. apply elem_of_app. right. by left. }
  destruct (wf_entry s t o a H Hin) as (x & nd & Hx & Hlk & Hn & Hnd & Hndl).
  exists x. split; [done|]. split; [done|]. cbn zeta.
  destruct t as [ln am sz]. cbn [fl_nodes fl_amount fl_size] in *. subst ln.
  split; [|by apply (close_wf _ _ _ a)].
  pose proof (wf_size _ _ _ H) as Hsz. pose proof (wf_bound _ _ _ H) as Hb.
  pose proof (wf_amount _ _ _ H) as Ham. cbn [fl_nodes fl_amount fl_size] in *.
  pose proof (length_used_le l1). pose proof (length_used_le l2).
  rewrite used_app, used_cons, length_app in Ham by done. rewrite length_app in Hsz.
  cbn [length] in Ham, Hsz. unfold k_proc_process_close_fd. cbn [fl_size fl_amount].
  rewrite (proj2 (Z.leb_gt _ _)), slot_mid, bind_ok by lia. unfold get_obj. rewrite Hx. cbn [of_option].
  rewrite bind_ok, (vfs_close_ok s _ nd), bind_ok, Hlk by done. cbn zeta.
  change (u32 (1 - 1) =? 0) with true. cbn iota. rewrite set_slot_mid, bind_ok.
  cbn [fl_nodes fl_amount fl_size objs nodes]. by rewrite u32_small by lia.
Qed.

(** ** Opening *)

Definition add_obj s a (x : fd_t) : files := mk_files (<[a := x]> (objs s)) (nodes s).
Definition give o n : Z → nat := λ n', if decide (n' = n) then (o n' - 1)%nat else o n'.

(** No entry in use has a fresh address. *)
Lemma fresh_unused s t o a : fd_wf s t o → objs s !! a = None → a ∉ used (fl_nodes t).
Proof. intros H Ha Hin. destruct (wf_obj _ _ _ H a Hin) as (x & Hx & _). congruence. Qed.

Lemma cnt_open s new x l1 l2 n :
  new ≠ 0 → new ∉ used (l1 ++ l2) →
  cnt (add_obj s new x) (l1 ++ new :: l2) n =
  (cnt s (l1 ++ l2) n + if decide (fd_node x = n) then 1 else 0)%nat.
Proof.
  intros Hnew Hf. rewrite !cnt_app, cnt_cons.
  assert (Hext : ∀ l, used l ⊆ used (l1 ++ l2) → cnt (add_obj s new x) l n = cnt s l n).
  { intros l Hl. apply cnt_ext. intros a Ha Ha0. cbn. apply lookup_insert_ne. intros <-.
    by apply Hf, Hl, elem_of_used. }
  rewrite (Hext l1), (Hext l2) by (rewrite used_app; set_solver).
  pose proof (refers_obj (add_obj s new x) new x n Hnew (lookup_insert_eq _ _ _)).
  destruct (decide (refers _ n new)), (decide (fd_node x = n)); try tauto; lia.
Qed.

Lemma open_wf s o l1 l2 am sz am' sz' l new node :
  fd_wf s (mk_fds l am sz) o → objs s !! new = None → new ≠ 0 → node ≠ 0 → (0 < o node)%nat →
  used l = used (l1 ++ l2) → (∀ n, cnt s l n = cnt s (l1 ++ l2) n) →
  sz' = Z.of_nat (length (l1 ++ new :: l2)) → sz' < 2 ^ 32 - 1 → am' = am + 1 →
  fd_wf (add_obj s new (mk_fd node 0 1)) (mk_fds (l1 ++ new :: l2) am' sz') (give o node).
Proof.
  intros H Hf Hnew Hnode Ho Hu Hc Hsz Hb Ham. pose proof (fresh_unused _ _ _ _ H Hf) as Hnu.
  destruct H as [_ _ Ha Hd Hobj Hnd Hnone]. cbn [fl_nodes fl_amount fl_size] in *. rewrite Hu in *.
  assert (Hcnt := λ n, cnt_open s new (mk_fd node 0 1) l1 l2 n Hnew Hnu). cbn [fd_node] in Hcnt.
  assert (Hused : used (l1 ++ new :: l2) ≡ₚ new :: used (l1 ++ l2)).
  { rewrite !used_app, used_cons by done. symmetry. apply Permutation_middle. }
  constructor; cbn [fl_nodes fl_amount fl_size]; [done|done| | | | |].
  - rewrite Hused. cbn [length]. lia.
  - rewrite Hused. by apply NoDup_cons.
  - intros a Hin. rewrite Hused in Hin. apply elem_of_cons in Hin as [->|Hin].
    + eexists. split; [apply lookup_insert_eq|done].
    + destruct (Hobj a Hin) as (x & Hx & ?). exists x. cbn.
      rewrite lookup_insert_ne by (intros <-; done). done.
  - intros n nd Hn. cbn in Hn. specialize (Hcnt n). apply Hnd in Hn as [Hl Hr]. split; [|done].
    rewrite Hl, Hcnt, Hc. unfold give. destruct (decide (n = node)), (decide (node = n)); subst; try done; lia.
  - intros n Hn. cbn in Hn. apply Hnone in Hn. rewrite Hcnt, <- Hc. unfold give.
    destruct (decide (n = node)), (decide (node = n)); subst; try done; lia.
Qed.

Lemma find_free_first l1 l2 am sz (n k : nat) :
  Forall (λ a, a ≠ 0) (drop k l1) → (k ≤ length l1)%nat → (length l1 < k + n)%nat →
  find_free n (mk_fds (l1 ++ 0 :: l2) am sz) (Z.of_nat k) = Ok (Z.of_nat (length l1)).
Proof.
  revert k. induction n as [|n IH]; intros k Hall Hk Hn; [lia|]. cbn [find_free].
  destruct (decide (k = length l1)) as [->|Hne].
  - by rewrite slot_mid, bind_ok.
  - destruct (lookup_lt_is_Some_1' l1 k) as [a Ha]; [lia|].
    unfold slot. rewrite (proj2 (Z.ltb_ge _ _)), Nat2Z.id by lia. cbn [fl_nodes].
    rewrite (lookup_app_l_Some _ _ _ _ Ha). cbn [of_option]. rewrite bind_ok.
    rewrite (drop_S _ _ _ Ha) in Hall. apply Forall_cons in Hall as [Ha0 Hall].
    rewrite (proj2 (Z.eqb_neq a 0)) by done. replace (Z.of_nat k + 1) with (Z.of_nat (S k)) by lia.
    apply IH; [done|lia|lia].
Qed.

(** The first NULL entry of a table that is not full *)
Lemma first_free l :
  length (used l) ≠ length l → ∃ l1 l2, l = l1 ++ 0 :: l2 ∧ Forall (λ a, a ≠ 0) l1.
Proof.
  induction l as [|a l IH]; [done|]. destruct (decide (a = 0)) as [->|Ha].
  - intros _. by exists [], l.
  - rewrite used_cons by done. cbn [length]. intros Hl. destruct IH as (l1 & l2 & -> & Hall); [lia|].
    exists (a :: l1), l2. split; [done|]. by constructor.
Qed.

Lemma open_ok s t o node new :
  fd_wf s t o → objs s !! new = None → new ≠ 0 → node ≠ 0 → (0 < o node)%nat →
  fl_size t + 1 < 2 ^ 32 - 1 →
  ∃ l1 l2 t', k_proc_process_open_node s t node new =
      Ok (Z.of_nat (length l1), add_obj s new (mk_fd node 0 1), t') ∧
    fl_nodes t' = l1 ++ new :: l2 ∧ Forall (λ a, a ≠ 0) l1 ∧
    (fl_nodes t = l1 ++ 0 :: l2 ∨ l2 = [] ∧ fl_nodes t = l1) ∧
    fd_wf (add_obj s new (mk_fd node 0 1)) t' (give o node).
Proof.
  intros H Hf Hnew Hnode Ho Hbig. pose proof (wf_size _ _ _ H) as Hsz.
  pose proof (wf_amount _ _ _ H) as Ham. pose proof (length_used_le (fl_nodes t)) as Hle.
  destruct t as [l am sz]. cbn [fl_nodes fl_amount fl_size] in *.
  unfold k_proc_process_open_node. cbn [fl_nodes fl_amount fl_size].
  destruct (Z.eqb_spec sz am) as [Heq|Hneq].
  - exists l, [], (mk_fds (l ++ [new]) (u32 (am + 1)) (u32 (sz + 1))). rewrite !u32_small by lia.
    split; [by rewrite Hsz|]. split; [done|]. split; [apply used_full; lia|]. split; [by right|].
    apply (open_wf s o l [] am sz (am + 1) (sz + 1) l); try done.
    + by rewrite app_nil_r.
    + intros n. by rewrite app_nil_r.
    + rewrite length_app. cbn [length]. lia.
  - destruct (first_free l) as (l1 & l2 & -> & Hall); [lia|].
    rewrite length_app in Hsz. cbn [length] in Hsz.
    rewrite (find_free_first l1 l2 am sz _ 0) by (done || lia). rewrite bind_ok, set_slot_mid, bind_ok.
    exists l1, l2. eexists. split; [done|]. split; [done|]. split; [done|]. split; [by left|].
    cbn [fl_nodes fl_amount fl_size]. rewrite length_app in Hle. cbn [length] in Hle.
    rewrite u32_small by lia.
    apply (open_wf s o l1 l2 am sz _ _ (l1 ++ 0 :: l2)); try done.
    + by rewrite !used_app, used_0.
    + intros n. by rewrite !cnt_app, cnt_0.
    + rewrite length_app. cbn [length]. lia.
    + lia.
Qed.
End tables.

(** ** What a process sees *)

Definition entry (s : files) (a : Z) : option (Z * Z) :=
  if a =? 0 then None else (λ x, (fd_node x, fd_offset x)) <$> objs s !! a.

(** The file behind descriptor [j] *)
Definition fd_at (s : files) (t : fd_list) (j : nat) : option (Z * Z) :=
  fl_nodes t !! j ≫= entry s.

Section views.
Implicit Types (s : files) (t : fd_list) (l : list Z) (a n : Z) (o : Z → nat).

Lemma entry_ext s s' l :
  (∀ a, a ∈ used l → objs s !! a = objs s' !! a) → ∀ j, (l !! j ≫= entry s) = (l !! j ≫= entry s').
Proof.
  intros H j. destruct (l !! j) as [a|] eqn:Hj; [|done]. cbn. unfold entry. case_if; [done|].
  rewrite H; [done|]. apply elem_of_used. split; [|done]. by eapply list_elem_of_lookup_2.
Qed.

Lemma entry_used s t o a : fd_wf s t o → a ∈ used (fl_nodes t) → is_Some (entry s a).
Proof.
  intros H Hin. destruct (wf_obj _ _ _ H a Hin) as (x & Hx & _). apply elem_of_used in Hin as [_ Ha].
  unfold entry. rewrite (proj2 (Z.eqb_neq a 0)), Hx by done. by eexists.
Qed.

(** Replacing one entry changes that descriptor only. *)
Lemma fd_at_mid s l1 a l2 am sz : fd_at s (mk_fds (l1 ++ a :: l2) am sz) (length l1) = entry s a.
Proof. unfold fd_at. cbn. by rewrite list_lookup_middle. Qed.

Lemma lookup_mid_ne l1 a b l2 (j : nat) : j ≠ length l1 → (l1 ++ a :: l2) !! j = (l1 ++ b :: l2) !! j.
Proof.
  intros Hj. destruct (decide (j < length l1)%nat); [by rewrite !lookup_app_l|].
  rewrite !lookup_app_r by lia. by replace (j - length l1)%nat with (S (j - length l1 - 1)) by lia.
Qed.

Lemma fd_at_split s t j v :
  fd_at s t j = Some v → ∃ l1 a l2, fl_nodes t = l1 ++ a :: l2 ∧ length l1 = j ∧ a ≠ 0 ∧ entry s a = Some v.
Proof.
  unfold fd_at. destruct (fl_nodes t !! j) as [a|] eqn:Hj; [|done]. cbn. intros He.
  exists (take j (fl_nodes t)), a, (drop (S j) (fl_nodes t)). split; [by rewrite take_drop_middle|].
  split; [apply length_take_le; apply lookup_lt_Some in Hj; lia|]. split; [|done].
  intros ->. done.
Qed.
End views.

(** C8: opening a file gives the lowest descriptor not in use, at offset zero; every lower
    one is in use, no other descriptor changes, and the counts of table and nodes stay
    exact. *)
Theorem fd_open_lowest s t o node new :
  fd_wf s t o → objs s !! new = None → new ≠ 0 → node ≠ 0 → (0 < o node)%nat →
  fl_size t + 1 < 2 ^ 32 - 1 →
  ∃ fd s' t', k_proc_process_open_node s t node new = Ok (Z.of_nat fd, s', t') ∧
    fd_wf s' t' (give o node) ∧ nodes s' = nodes s ∧
    fd_at s t fd = None ∧ fd_at s' t' fd = Some (node, 0) ∧
    (∀ j, (j < fd)%nat → is_Some (fd_at s t j)) ∧
    (∀ j, j ≠ fd → fd_at s' t' j = fd_at s t j).
Proof.
  intros H Hf Hnew Hnode Ho Hbig.
  destruct (open_ok s t o node new H Hf Hnew Hnode Ho Hbig) as (l1 & l2 & t' & Hopen & Hl' & Hall & Hl & Hwf).
  exists (length l1), (add_obj s new (mk_fd node 0 1)), t'. split; [done|]. split; [done|]. split; [done|].
  pose proof (fresh_unused _ _ _ _ H Hf) as Hnu.
  assert (Hent : ∀ l j, used l ⊆ used (fl_nodes t) →
    (l !! j ≫= entry (add_obj s new (mk_fd node 0 1))) = (l !! j ≫= entry s)).
  { intros l j Hsub. apply entry_ext. intros a Ha. cbn. rewrite lookup_insert_ne; [done|].
    intros <-. by apply Hnu, Hsub. }
  split; [|split; [|split]].
  - unfold fd_at. destruct Hl as [-> | [-> ->]]; [by rewrite list_lookup_middle|].
    by rewrite lookup_ge_None_2.
  - unfold fd_at. rewrite Hl', list_lookup_middle by done. cbn. unfold entry.
    rewrite (proj2 (Z.eqb_neq new 0)) by done. cbn. by rewrite lookup_insert_eq.
  - intros j Hj. destruct (lookup_lt_is_Some_1' l1 j Hj) as [a Ha].
    unfold fd_at. assert (fl_nodes t !! j = Some a) as ->.
    { destruct Hl as [-> | [_ ->]]; [by apply lookup_app_l_Some|done]. }
    cbn. apply (entry_used s t o); [done|]. apply elem_of_used. split.
    + destruct Hl as [-> | [_ ->]]; [apply elem_of_app; left|]; by eapply list_elem_of_lookup_2.
    + rewrite Forall_lookup in Hall. by eapply Hall.
  - intros j Hj. unfold fd_at. rewrite Hl'. destruct Hl as [Hl | [-> Hl]].
    + rewrite (lookup_mid_ne l1 new 0 l2 j Hj), <- Hl. by apply Hent.
    + rewrite <- (Hent (fl_nodes t) j) by done. rewrite Hl.
      destruct (decide (j < length l1)%nat); [by rewrite lookup_app_l|].
      by rewrite !lookup_ge_None_2 by (rewrite ?length_app; cbn [length]; lia).
Qed.

(** A table with descriptors 0 and 2 open on node 500, which has a third user *)
Definition demo_files : files :=
  mk_files (<[900 := mk_fd 500 7 1]> (<[901 := mk_fd 500 0 1]> ∅)) (<[500 := mk_node 3 0 10]> ∅).
Definition demo_table : fd_list := mk_fds [900; 0; 901] 2 3.

Lemma demo_fds_wf : fd_wf demo_files demo_table (λ n, if decide (n = 500) then 1%nat else 0%nat).
Proof.
  constructor; try done.
  - unfold used, demo_table. cbn. repeat constructor; set_solver.
  - intros a Ha. unfold used, demo_table in Ha. cbn in Ha.
    apply elem_of_cons in Ha as [->|Ha]; [eexists; split; [reflexivity|done]|].
    apply list_elem_of_singleton in Ha as ->. eexists. split; [reflexivity|done].
  - intros n nd. destruct (decide (n = 500)) as [->|Hn].
    + intros [= <-]. split; [vm_compute; reflexivity|done].
    + cbn. by rewrite lookup_insert_ne.
  - intros n Hn. destruct (decide (n = 500)) as [->|Hne]; [done|].
    unfold demo_table. cbn [fl_nodes]. rewrite !cnt_cons.
    rewrite !decide_False by (intros [? Hr]; vm_compute in Hr; congruence). done.
Qed.

Lemma fd_open_lowest_witness :
  ∃ fd s' t', k_proc_process_open_node demo_files demo_table 500 902 = Ok (Z.of_nat fd, s', t') ∧
    fd_at s' t' fd = Some (500, 0).
Proof.
  destruct (fd_open_lowest demo_files demo_table _ 500 902 demo_fds_wf) as (fd & s' & t' & H & _ & _ & _ & Hv & _);
    [reflexivity|done|done|by rewrite decide_True; [lia|]|done|].
  exists fd, s', t'. split; [exact H|exact Hv].
Defined.

(** C9: closing a descriptor that is in use closes exactly it: its node loses one link, or
    is released with its last one, every other descriptor keeps its file and offset, and
    the counts stay exact; closing a number outside the table does nothing. *)
Theorem fd_close_exact s t o fd :
  fd_wf s t o →
  match fd_at s t fd with
  | Some (node, _) =>
      ∃ s' t', k_proc_process_close_fd s t (Z.of_nat fd) = Ok (s', t') ∧ fd_wf s' t' o ∧
        nodes s' = drop_link (nodes s) node ∧ fd_at s' t' fd = None ∧
        ∀ j, j ≠ fd → fd_at s' t' j = fd_at s t j
  | None => (length (fl_nodes t) ≤ fd)%nat → k_proc_process_close_fd s t (Z.of_nat fd) = Ok (s, t)
  end.
Proof.
  intros H. destruct (fd_at s t fd) as [[node off]|] eqn:Hat.
  - destruct (fd_at_split s t fd _ Hat) as (l1 & a & l2 & Hl & <- & Ha & He).
    destruct (close_at s t o l1 a l2 H Hl Ha) as (x & Hx & Hn & Hc & Hwf).
    unfold entry in He. rewrite (proj2 (Z.eqb_neq a 0)), Hx in He by done. injection He as <- _.
    do 2 eexists. split; [exact Hc|]. split; [exact Hwf|]. split; [done|].
    split; [by rewrite fd_at_mid|]. intros j Hj. unfold fd_at. rewrite Hl. cbn [fl_nodes].
    rewrite (lookup_mid_ne l1 a 0 l2 j Hj). apply entry_ext. intros b Hb. cbn.
    rewrite lookup_delete_ne; [done|]. intros <-.
    pose proof (wf_distinct _ _ _ H) as Hd. rewrite Hl in Hd.
    destruct (NoDup_mid l1 a l2 Ha Hd) as (H1 & H2 & _). rewrite used_app, used_0 in Hb.
    apply elem_of_app in Hb as [|]; done.
  - intros Hge. unfold k_proc_process_close_fd. rewrite (wf_size _ _ _ H).
    by rewrite (proj2 (Z.leb_le _ _)) by lia.
Qed.

Lemma fd_close_exact_witness :
  ∃ s' t', k_proc_process_close_fd demo_files demo_table 2 = Ok (s', t') ∧
    nodes s' = drop_link (nodes demo_files) 500 ∧ fd_at s' t' 0 = Some (500, 7).
Proof.
  destruct (fd_close_exact demo_files demo_table _ 2 demo_fds_wf) as (s' & t' & H & _ & Hn & _ & Hv).
  exists s', t'. split; [exact H|]. split; [exact Hn|]. rewrite Hv by lia. reflexivity.
Defined.

(** ** Exit and fork *)

Section lifecycle.
Implicit Types (s : files) (t : fd_list) (l : list Z) (a n : Z) (o : Z → nat).

Lemma close_all_ok rest s am sz o k :
  fd_wf s (mk_fds (replicate k 0 ++ rest) am sz) o →
  ∃ s' t', close_all (length rest) (Z.of_nat k) s (mk_fds (replicate k 0 ++ rest) am sz) = Ok (s', t') ∧
    fd_wf s' t' o ∧ used (fl_nodes t') = [] ∧
    (∀ a, a ∉ used rest → objs s' !! a = objs s !! a) ∧
    (∀ n nd', nodes s' !! n = Some nd' →
       ∃ nd, nodes s !! n = Some nd ∧ nd_mode nd' = nd_mode nd ∧ nd_size nd' = nd_size nd).
Proof.
  revert s am k. induction rest as [|a rest IH]; intros s am k H; cbn [length close_all].
  - eexists _, _. split; [done|]. split; [done|]. split; [|by eauto]. cbn [fl_nodes].
    rewrite app_nil_r. clear. induction k as [|k IH]; [done|]. cbn [replicate]. by rewrite used_0.
  - pose proof (slot_mid (replicate k 0) rest a am sz) as Hs. rewrite length_replicate in Hs.
    rewrite Hs, bind_ok. destruct (decide (a = 0)) as [->|Ha].
    + cbn [truthy Z.eqb negb]. rewrite bind_ok.
      rewrite cons_middle, app_assoc, <- (replicate_S_end k 0) in H |- *.
      destruct (IH s am (S k) H) as (s' & t' & Hc & Hwf & Hu & Hfr & Hnd).
      replace (Z.of_nat k + 1) with (Z.of_nat (S k)) by lia. exists s', t'.
      rewrite used_0. done.
    + rewrite (proj2 (truthy_true a)) by done.
      destruct (close_at s _ o (replicate k 0) a rest H eq_refl Ha) as (x & Hx & Hn & Hc & Hwf).
      rewrite length_replicate in Hc. rewrite Hc, bind_ok. cbn [fl_amount fl_size] in *.
      rewrite cons_middle, app_assoc, <- (replicate_S_end k 0) in Hwf |- *.
      destruct (IH _ _ _ Hwf) as (s' & t' & Hc' & Hwf' & Hu & Hfr & Hnd).
      replace (Z.of_nat k + 1) with (Z.of_nat (S k)) by lia. exists s', t'.
      split; [done|]. split; [done|]. split; [done|]. split.
      * intros b Hb. rewrite used_cons in Hb by done. apply not_elem_of_cons in Hb as [Hb1 Hb2].
        rewrite Hfr by done. cbn. by apply lookup_delete_ne.
      * intros n nd' Hl. destruct (Hnd n nd' Hl) as (nd & Hd & Hm & Hz). cbn in Hd.
        rewrite drop_link_lookup in Hd. destruct (decide (fd_node x = n)); [|by exists nd].
        destruct (nodes s !! n) as [nd0|]; [|done]. cbn in Hd. exists nd0. split; [done|].
        destruct (nd_links nd0 =? 1); [done|]. by injection Hd as <-.
Qed.

Lemma exit_ok s t o :
  fd_wf s t o →
  ∃ s' t', exit_fds s t = Ok (s', t') ∧ fd_wf s' t' o ∧ used (fl_nodes t') = [] ∧
    (∀ a, a ∉ used (fl_nodes t) → objs s' !! a = objs s !! a) ∧
    (∀ n nd', nodes s' !! n = Some nd' →
       ∃ nd, nodes s !! n = Some nd ∧ nd_mode nd' = nd_mode nd ∧ nd_size nd' = nd_size nd).
Proof.
  intros H. pose proof (wf_size _ _ _ H) as Hsz. unfold exit_fds. rewrite Hsz, Nat2Z.id.
  destruct t as [l am sz]. apply (close_all_ok l s am sz o 0 H).
Qed.

(** Copying the entries [l] of a table: fresh objects with the same contents, one more
    link for each. *)
Lemma fork_slots_ok l s news :
  NoDup news → Forall (λ a, a ≠ 0 ∧ objs s !! a = None) news →
  (length (used l) ≤ length news)%nat →
  (∀ a, a ∈ used l → ∃ x nd, objs s !! a = Some x ∧ fd_node x ≠ 0 ∧ nodes s !! fd_node x = Some nd) →
  (∀ n nd, nodes s !! n = Some nd → 0 ≤ nd_links nd ∧ nd_links nd + Z.of_nat (length (used l)) < 2 ^ 32) →
  ∃ s' l', fork_slots s l news = Ok (s', l') ∧ length l' = length l ∧
    used l' = take (length (used l)) news ∧
    (∀ a, a ∉ news → objs s' !! a = objs s !! a) ∧
    (∀ a, a ∈ used l' → ∃ x, objs s' !! a = Some x ∧ fd_links x = 1 ∧ fd_node x ≠ 0) ∧
    (∀ j, (l' !! j ≫= entry s') = (l !! j ≫= entry s)) ∧
    (∀ n, cnt s' l' n = cnt s l n) ∧
    (∀ n, nodes s' !! n = (λ nd, mk_node (nd_links nd + Z.of_nat (cnt s l n)) (nd_mode nd) (nd_size nd))
                            <$> nodes s !! n).
Proof.
  revert s news. induction l as [|a l IH]; intros s news Hnd Hnew Hlen Hobj Hlk; cbn [fork_slots].
  - exists s, []. split; [done|]. split; [done|]. split; [done|]. split; [done|].
    split; [by intros a ?%elem_of_nil|]. split; [done|]. split; [done|]. intros n.
    destruct (nodes s !! n) as [[]|]; [|done]. cbn. by rewrite Z.add_0_r.
  - destruct (decide (a = 0)) as [->|Ha].
    + rewrite used_0 in *. cbn [Z.eqb].
      destruct (IH s news Hnd Hnew Hlen Hobj Hlk) as (s' & l' & -> & H1 & H2 & H3 & H4 & H5 & H6 & H7).
      rewrite bind_ok. exists s', (0 :: l'). rewrite used_0. split; [done|].
      split; [cbn; by rewrite H1|]. split; [done|]. split; [done|]. split; [done|].
      split; [by intros [|j]; [|apply H5]|]. split; [intros n; by rewrite !cnt_0|].
      intros n. by rewrite cnt_0.
    + rewrite used_cons in * by done. destruct news as [|new news]; [cbn in Hlen; lia|].
      apply NoDup_cons in Hnd as [Hnin Hnd]. apply Forall_cons in Hnew as [[Hn0 Hnone] Hnew].
      destruct (Hobj a) as (x & nd & Hx & Hxn & Hxd); [by left|].
      rewrite (proj2 (Z.eqb_neq a 0)) by done. unfold get_obj. rewrite Hx. cbn [of_option].
      rewrite bind_ok, Hxd. cbn [of_option]. rewrite bind_ok. cbn zeta.
      destruct (Hlk _ _ Hxd) as [Hl0 Hl1]. cbn [length] in Hl1, Hlen. rewrite u32_small by lia.
      set (s1 := mk_files _ _).
      assert (Hold : ∀ b, b ∈ used l → objs s1 !! b = objs s !! b).
      { intros b Hb. cbn. apply lookup_insert_ne. intros <-.
        destruct (Hobj new) as (? & ? & Hc & _); [by right|]. congruence. }
      assert (Hcnt1 : ∀ n, cnt s1 l n = cnt s l n).
      { intros n. apply cnt_ext. intros b Hb Hb0. apply Hold. by apply elem_of_used. }
      destruct (IH s1 news Hnd) as (s' & l' & -> & H1 & H2 & H3 & H4 & H5 & H6 & H7).
      * apply Forall_forall. intros b Hb. rewrite Forall_forall in Hnew. destruct (Hnew b Hb).
        split; [done|]. cbn. rewrite lookup_insert_ne; [done|]. by intros <-.
      * lia.
      * intros b Hb. destruct (Hobj b) as (y & ndy & Hy & Hyn & Hyd); [by right|]. exists y.
        rewrite Hold by done. cbn. destruct (decide (fd_node x = fd_node y)) as [Heq|Hne].
        -- eexists. rewrite Heq, lookup_insert_eq. done.
        -- eexists. rewrite lookup_insert_ne by done. done.
      * intros n nd'. cbn. destruct (decide (fd_node x = n)) as [<-|Hne].
        -- rewrite lookup_insert_eq. intros [= <-]. cbn. lia.
        -- rewrite lookup_insert_ne by done. intros Hl. apply Hlk in Hl. cbn [length] in Hl. lia.
      * rewrite bind_ok. exists s', (new :: l'). rewrite used_cons by done.
        assert (Hnew' : objs s' !! new = Some (mk_fd (fd_node x) (fd_offset x) 1)).
        { rewrite H3 by done. cbn. apply lookup_insert_eq. }
        split; [done|]. split; [cbn; by rewrite H1|]. split; [cbn; by rewrite H2|]. split; [|split; [|split; [|split]]].
        -- intros b Hb. apply not_elem_of_cons in Hb as [Hb1 Hb2]. rewrite H3 by done. cbn.
           by apply lookup_insert_ne.
        -- intros b Hb. apply elem_of_cons in Hb as [->|Hb]; [|by apply H4]. eexists.
           split; [done|]. done.
        -- intros [|j]; cbn.
           ++ unfold entry. rewrite (proj2 (Z.eqb_neq new 0)), (proj2 (Z.eqb_neq a 0)) by done.
              by rewrite Hnew', Hx.
           ++ rewrite H5. apply entry_ext. done.
        -- intros n. rewrite !cnt_cons, H6, Hcnt1. f_equal.
           pose proof (refers_obj s' new _ n Hn0 Hnew') as Hr1. pose proof (refers_obj s a _ n Ha Hx) as Hr2.
           cbn in Hr1. destruct (decide (refers s' n new)), (decide (refers s n a)); tauto.
        -- intros n. rewrite H7, cnt_cons, Hcnt1. cbn. pose proof (refers_obj s a _ n Ha Hx) as Hr2.
           destruct (decide (refers s n a)) as [Hr|Hr].
           ++ apply Hr2 in Hr as <-. rewrite lookup_insert_eq, Hxd. cbn. do 2 f_equal. lia.
           ++ rewrite lookup_insert_ne by (intros Heq; by apply Hr, Hr2). done.
Qed.
End lifecycle.

(** Enough fresh addresses for the copies, and no link count near its limit *)
Definition fork_ready (s : files) (t : fd_list) (news : list Z) : Prop :=
  NoDup news ∧ Forall (λ a, a ≠ 0 ∧ objs s !! a = None) news ∧
  (length (used (fl_nodes t)) ≤ length news)%nat ∧
  ∀ n nd, nodes s !! n = Some nd → nd_links nd + Z.of_nat (length (fl_nodes t)) < 2 ^ 32.

Lemma fork_ok s t o news :
  fd_wf s t o → fork_ready s t news →
  ∃ s1 c, fork_fds s t news = Ok (s1, c) ∧
    fd_wf s1 c (λ n, cnt s (fl_nodes t) n + o n)%nat ∧
    (∀ j, fd_at s1 c j = fd_at s t j) ∧ (∀ a, a ∉ news → objs s1 !! a = objs s !! a) ∧
    (∀ a, a ∈ used (fl_nodes c) → a ∈ news) ∧
    (∀ n, nodes s1 !! n = (λ nd, mk_node (nd_links nd + Z.of_nat (cnt s (fl_nodes t) n)) (nd_mode nd) (nd_size nd))
                            <$> nodes s !! n).
Proof.
  intros H (Hnd & Hnew & Hlen & Hlk). pose proof (wf_size _ _ _ H) as Hsz.
  destruct (fork_slots_ok (fl_nodes t) s news) as (s' & l' & Hf & H1 & H2 & H3 & H4 & H5 & H6 & H7); try done.
  { intros a Ha. destruct (wf_entry s t o a H Ha) as (x & nd & ? & _ & ? & ? & _). eauto. }
  { intros n nd Hn. destruct (wf_node _ _ _ H n nd Hn). pose proof (length_used_le (fl_nodes t)).
    specialize (Hlk n nd Hn). lia. }
  unfold fork_fds. rewrite take_ge, Hf, bind_ok by lia. do 2 eexists. split; [done|].
  assert (Hu : length (used l') = length (used (fl_nodes t))) by (rewrite H2, length_take; lia).
  split; [|split; [done|split; [done|split; [|done]]]].
  - constructor; cbn [fl_nodes fl_amount fl_size].
    + by rewrite H1.
    + apply (wf_bound _ _ _ H).
    + rewrite Hu. apply (wf_amount _ _ _ H).
    + rewrite H2. by apply (sublist_NoDup _ news); [|apply sublist_take].
    + done.
    + intros n nd. rewrite H7, H6. destruct (nodes s !! n) as [nd0|] eqn:Hn; [|done]. intros [= <-]. cbn.
      destruct (wf_node _ _ _ H n nd0 Hn) as [Hl Hr]. specialize (Hlk n nd0 Hn).
      assert (cnt s (fl_nodes t) n ≤ length (fl_nodes t))%nat by apply length_filter. lia.
    + intros n. rewrite H7, H6. destruct (nodes s !! n) as [nd0|] eqn:Hn; [done|].
      intros _. apply (wf_none _ _ _ H) in Hn. lia.
  - intros a. cbn [fl_nodes]. rewrite H2. intros (i & Hi & _)%elem_of_take. by eapply list_elem_of_lookup_2.
Qed.

(** C10: a forked child gets the parent's descriptors, file by file and offset by offset,
    without changing the parent's view; and when the child exits, every node and the
    parent's view are as they were before the fork. *)
Theorem fork_exit_restores s t o news :
  fd_wf s t o → fork_ready s t news →
  ∃ s1 c s2 c', fork_fds s t news = Ok (s1, c) ∧
    (∀ j, fd_at s1 c j = fd_at s t j) ∧ (∀ j, fd_at s1 t j = fd_at s t j) ∧
    exit_fds s1 c = Ok (s2, c') ∧ (∀ j, fd_at s2 c' j = None) ∧
    (∀ j, fd_at s2 t j = fd_at s t j) ∧ nodes s2 = nodes s.
Proof.
  intros H Hr. destruct (fork_ok s t o news H Hr) as (s1 & c & Hf & Hwf & Hv & Ho & Hn & Hnd).
  destruct (exit_ok s1 c _ Hwf) as (s2 & c' & He & Hwf2 & Hu & Ho2 & Hnd2).
  assert (Hpar : ∀ a, a ∈ used (fl_nodes t) → a ∉ news).
  { intros a Ha Hin. destruct Hr as (_ & Hnew & _). rewrite Forall_forall in Hnew.
    destruct (Hnew a Hin) as [_ Hnone]. by apply (fresh_unused _ _ _ _ H Hnone). }
  exists s1, c, s2, c'. split; [done|]. split; [done|]. split.
  { intros j. apply entry_ext. intros a Ha. by apply Ho, Hpar. }
  split; [done|]. split; [|split].
  - intros j. unfold fd_at. destruct (fl_nodes c' !! j) as [a|] eqn:Hj; [|done]. cbn.
    unfold entry. case_if; [done|]. exfalso. assert (Hin : a ∈ used (fl_nodes c')).
    { apply elem_of_used. split; [by eapply list_elem_of_lookup_2|done]. }
    rewrite Hu in Hin. by apply elem_of_nil in Hin.
  - intros j. apply entry_ext. intros a Ha. rewrite Ho2; [by apply Ho, Hpar|].
    intros Hin. by apply (Hpar a Ha), Hn.
  - assert (Hc0 : ∀ n, cnt s2 (fl_nodes c') n = 0%nat).
    { intros n. unfold cnt. destruct (filter _ _) as [|a l] eqn:Hfl; [done|]. exfalso.
      assert (Hin : a ∈ a :: l) by left. rewrite <- Hfl in Hin.
      apply list_elem_of_filter in Hin as [[Ha _] Hin].
      assert (Hin' : a ∈ used (fl_nodes c')) by (by apply elem_of_used).
      rewrite Hu in Hin'. by apply elem_of_nil in Hin'. }
    apply map_eq. intros n. destruct (nodes s2 !! n) as [nd2|] eqn:H2.
    + destruct (Hnd2 n nd2 H2) as (nd1 & H1 & Hm & Hz). rewrite Hnd in H1.
      destruct (nodes s !! n) as [nd|] eqn:H0; [|done]. injection H1 as <-. cbn in Hm, Hz.
      destruct (wf_node _ _ _ Hwf2 n nd2 H2) as [Hl _]. destruct (wf_node _ _ _ H n nd H0) as [Hl0 _].
      rewrite Hc0 in Hl. destruct nd2, nd. cbn in *. f_equal. f_equal; lia.
    + apply (wf_none _ _ _ Hwf2) in H2. rewrite Hc0 in H2.
      destruct (nodes s !! n) as [nd|] eqn:H0; [|done].
      destruct (wf_node _ _ _ H n nd H0) as [Hl0 Hr0]. lia.
Qed.

Lemma fork_exit_restores_witness :
  ∃ s1 c s2 c', fork_fds demo_files demo_table [902; 903] = Ok (s1, c) ∧
    exit_fds s1 c = Ok (s2, c') ∧ nodes s2 = nodes demo_files.
Proof.
  destruct (fork_exit_restores demo_files demo_table _ [902; 903] demo_fds_wf)
    as (s1 & c & s2 & c' & H1 & _ & _ & H2 & _ & _ & H3).
  { split; [by repeat constructor; set_solver|]. split; [by repeat constructor|]. split; [done|].
    intros n nd. cbn. destruct (decide (n = 500)) as [->|]; [by intros [= <-]|].
    by rewrite lookup_insert_ne. }
  exists s1, c, s2, c'. split; [exact H1|]. split; [exact H2|exact H3].
Defined.

(** ** Duplicating descriptors *)

Lemma slot_out t i : Z.of_nat (length (fl_nodes t)) ≤ i → slot t i = Fault.
Proof.
  intros Hi. unfold slot. rewrite (proj2 (Z.ltb_ge _ _)) by lia. by rewrite lookup_ge_None_2 by lia.
Qed.

Lemma set_slot_out t i a : Z.of_nat (length (fl_nodes t)) ≤ i → set_slot t i a = Fault.
Proof. intros Hi. unfold set_slot. by rewrite (proj2 (Z.ltb_ge _ _)), andb_false_r by lia. Qed.

(** Duplicating into a number beyond the end of the table computes the growth with the
    operands swapped: the table is reallocated to fewer entries than before, and the
    store goes outside it. *)
Theorem dup2_beyond_table_faults s t o fd1 fd2 junk :
  fd_wf s t o → is_Some (fd_at s t fd1) → fl_size t < 2 ^ 29 →
  fl_size t < fd2 ≤ 2 * fl_size t + 1 →
  sys_dup2 s t (Z.of_nat fd1) fd2 junk = Fault.
Proof.
  intros H [v Hv] Hsm Hfd2. destruct (fd_at_split s t fd1 v Hv) as (l1 & a & l2 & Hl & <- & Ha & _).
  pose proof (wf_size _ _ _ H) as Hsz. rewrite Hl, length_app in Hsz. cbn [length] in Hsz.
  destruct t as [l am sz]. cbn [fl_nodes fl_size] in *. subst l.
  unfold sys_dup2. rewrite (proj2 (Z.ltb_ge _ _)) by lia. cbn [fl_size fl_nodes fl_amount].
  rewrite (proj2 (Z.leb_gt _ _)) by lia. rewrite slot_mid, bind_ok, (proj2 (Z.eqb_neq a 0)) by done.
  rewrite (proj2 (Z.ltb_ge fd2 0)), bind_ok, (proj2 (Z.leb_le sz fd2)) by lia. cbn zeta.
  replace (u32 (sz + u32 (sz - fd2 + 1))) with (2 * sz - fd2 + 1).
  2: { unfold u32. rewrite Zplus_mod_idemp_r. rewrite Z.mod_small; lia. }
  set (t1 := mk_fds _ _ _).
  assert (Hlen : Z.of_nat (length (fl_nodes t1)) ≤ 2 * sz - fd2 + 1).
  { unfold t1, resize_slots. cbn [fl_nodes]. cbn zeta.
    rewrite length_take, u32_small, Z.div_mul by lia. lia. }
  destruct (slot t1 (Z.of_nat (length l1))) as [a1| | |] eqn:Hs1; [|unfold slot in Hs1..].
  - rewrite bind_ok, set_slot_out by lia. done.
  - destruct (_ <? _); [done|]. by destruct (_ !! _).
  - done.
  - destruct (_ <? _); [done|]. by destruct (_ !! _).
Qed.

Lemma dup2_beyond_table_faults_witness : sys_dup2 demo_files demo_table 0 5 77 = Fault.
Proof.
  apply (dup2_beyond_table_faults demo_files demo_table _ 0 5 77 demo_fds_wf); [|done|done].
  by eexists.
Defined.

(** On a table without a NULL entry the searches run to their ends. *)
Lemma slot_full t j :
  Forall (λ a, a ≠ 0) (fl_nodes t) → (j < length (fl_nodes t))%nat →
  ∃ b, b ≠ 0 ∧ slot t (Z.of_nat j) = Ok b.
Proof.
  intros Hall Hj. destruct (lookup_lt_is_Some_1' _ _ Hj) as [b Hb]. exists b. split.
  - rewrite Forall_lookup in Hall. by eapply Hall.
  - unfold slot. rewrite (proj2 (Z.ltb_ge _ _)), Nat2Z.id by lia. cbn. by rewrite Hb.
Qed.

Lemma dup_target_full t n j :
  Forall (λ a, a ≠ 0) (fl_nodes t) → (j + n = length (fl_nodes t))%nat →
  dup_target n t (Z.of_nat j) = Ok (Z.of_nat (length (fl_nodes t))).
Proof.
  intros Hall. revert j. induction n as [|n IH]; intros j Hj; cbn [dup_target]; [do 2 f_equal; lia|].
  destruct (slot_full t j Hall) as (b & Hb & ->); [lia|]. rewrite bind_ok, (proj2 (truthy_true b)) by done.
  replace (Z.of_nat j + 1) with (Z.of_nat (S j)) by lia. apply IH. lia.
Qed.

Lemma find_free_full t n j :
  Forall (λ a, a ≠ 0) (fl_nodes t) → (j + n = length (fl_nodes t))%nat →
  find_free n t (Z.of_nat j) = Fault.
Proof.
  intros Hall. revert j. induction n as [|n IH]; intros j Hj; cbn [find_free]; [done|].
  destruct (slot_full t j Hall) as (b & Hb & ->); [lia|]. rewrite bind_ok, (proj2 (Z.eqb_neq b 0)) by done.
  replace (Z.of_nat j + 1) with (Z.of_nat (S j)) by lia. apply IH. lia.
Qed.

(** Growing a table by one entry *)
Lemma resize_one (l : list Z) sz junk :
  sz = Z.of_nat (length l) → sz < 2 ^ 29 → resize_slots l (sz + 1) junk = l ++ [junk].
Proof.
  intros Hsz Hsm. unfold resize_slots. rewrite u32_small, Z.div_mul by lia. cbn zeta.
  replace (_ - length l)%nat with 1%nat by lia. apply take_ge. rewrite length_app. cbn [length replicate]. lia.
Qed.

(** Duplicating a descriptor of a full table (the table grows by the duplicate, the
    count of used entries does not) leaves a table on which the next open finds neither a
    full table nor a free entry and runs into unreachable code. *)
Theorem dup2_breaks_open s t o fd1 junk node new :
  fd_wf s t o → is_Some (fd_at s t fd1) → fl_size t = fl_amount t → fl_size t < 2 ^ 29 →
  ∃ s' t', sys_dup2 s t (Z.of_nat fd1) (-1) junk = Ok (fl_size t, s', t') ∧
    k_proc_process_open_node s' t' node new = Fault.
Proof.
  intros H [v Hv] Hfull Hsm. destruct (fd_at_split s t fd1 v Hv) as (l1 & a & l2 & Hl & <- & Ha & He).
  pose proof (wf_size _ _ _ H) as Hsz. pose proof (wf_amount _ _ _ H) as Ham.
  assert (Hall : Forall (λ a, a ≠ 0) (fl_nodes t)) by (apply used_full; lia).
  destruct (wf_obj _ _ _ H a) as (x & Hx & _).
  { apply elem_of_used. rewrite Hl. split; [apply elem_of_app; right; by left|done]. }
  pose proof (dup_target_full t (length (fl_nodes t)) 0 Hall eq_refl) as Hdt.
  destruct t as [l am sz]. cbn [fl_nodes fl_size fl_amount] in *.
  unfold sys_dup2. cbn [fl_size fl_nodes fl_amount].
  replace (Z.to_nat sz) with (length l) by lia.
  assert (Hlt : Z.of_nat (length l1) < sz) by (rewrite Hsz, Hl, length_app; cbn [length]; lia).
  rewrite (proj2 (Z.ltb_ge _ _)), (proj2 (Z.leb_gt sz _)) by lia.
  change (-1 <? 0) with true. cbn iota. change (Z.of_nat 0) with 0 in Hdt. rewrite Hdt, <- Hsz.
  assert (Hs : ∀ rest am sz, slot (mk_fds (l ++ rest) am sz) (Z.of_nat (length l1)) = Ok a).
  { intros rest am' sz'. rewrite Hl, <- app_assoc. apply slot_mid. }
  assert (Hset : ∀ am' sz', set_slot (mk_fds (l ++ [junk]) am' sz') sz a = Ok (mk_fds (l ++ [a]) am' sz')).
  { intros am' sz'. rewrite Hsz. apply set_slot_mid. }
  pose proof (Hs [] am sz) as Hs0. rewrite app_nil_r in Hs0.
  rewrite Hs0, bind_ok, (proj2 (Z.eqb_neq a 0)), bind_ok by done.
  rewrite Z.leb_refl. cbn zeta. rewrite Z.sub_diag.
  change (u32 (0 + 1)) with 1. rewrite (u32_small (sz + 1)), (resize_one l sz junk) by lia.
  rewrite Hs, bind_ok, Hset, bind_ok, Hs, bind_ok.
  unfold get_obj. rewrite Hx. cbn [of_option]. rewrite bind_ok. do 2 eexists. split; [done|].
  unfold k_proc_process_open_node. cbn [fl_size fl_amount].
  rewrite (proj2 (Z.eqb_neq (sz + 1) am)) by lia.
  rewrite (find_free_full _ _ 0); [done| |cbn [fl_nodes fl_size]; rewrite length_app; cbn [length]; lia].
  cbn [fl_nodes]. apply Forall_app. split; [done|by repeat constructor].
Qed.

Lemma dup2_breaks_open_witness :
  ∃ s' t', sys_dup2 demo_files (mk_fds [900; 901] 2 2) 0 (-1) 77 = Ok (2, s', t') ∧
    k_proc_process_open_node s' t' 500 902 = Fault.
Proof.
  apply (dup2_breaks_open demo_files (mk_fds [900; 901] 2 2)
    (λ n, if decide (n = 500) then 1%nat else 0%nat) 0 77 500 902); [|by eexists|done|done].
  destruct demo_fds_wf as [_ _ _ Hd Hobj Hn Hnone]. by constructor.
Defined.

(** Closing a duplicate takes the file away from the original: duplication counts a
    link of the descriptor object but none of the node, so when the node has no other
    user, closing the duplicate releases the node and the next use of the original
    descriptor dereferences freed memory. *)
Theorem dup2_close_dangles :
  ∃ s1 t1 s2 t2,
    let s := mk_files (<[900 := mk_fd 500 7 1]> ∅) (<[500 := mk_node 1 0 10]> ∅) in
    let t := mk_fds [900; 0] 1 2 in
    sys_dup2 s t 0 (-1) 77 = Ok (1, s1, t1) ∧ k_proc_process_close_fd s1 t1 1 = Ok (s2, t2) ∧
    fd_at s2 t2 0 = Some (500, 7) ∧ nodes s2 !! 500 = None ∧ advance s2 t2 0 1 = Fault.
Proof.
  do 4 eexists. cbv zeta. split; [vm_compute; reflexivity|]. split; [vm_compute; reflexivity|].
  split; [vm_compute; reflexivity|]. split; vm_compute; reflexivity.
Qed.
