(* ===== verification/Socket.v ===== *)
(** * kernel/src/fs/socket.c: local sockets

    Sockets are named by their addresses.  The names bound in the file system are a map
    from paths to sockets.  Sleeping hands the processor to others: each sleep takes the
    next element of a list of environment actions on the whole state; when the list is
    exhausted, or a mutex is held by somebody else, the caller is still blocked
    ([OutOfFuel]).  Wake-ups are events in program order. *)

From S2P Require Import Prelude.

Definition AF_LOCAL : Z := 0.
Definition SOCK_NONBLOCK : Z := Z.shiftl 1 0.
Definition SOCKET_MAX_BUFFER_SIZE : Z := 256 * 256.
Definition SOCKET_INIT_BUFFER_SIZE : Z := 4096.

Record socket_t := mk_sock {
  so_addr : option (list Z);
  so_bind : bool;
  so_connect : Z; (* 0: NULL *)
  so_mode : Z; (* node->mode *)
  so_domain : Z;
  so_type : Z;
  so_listening : Z;
  so_backlog : list Z;
  so_buffer : list Z;
  so_buffer_size : Z;
  so_available : Z;
  so_locked : bool
}.

Inductive sock_event :=
| SWake (sock : Z) (* wakeup_queue(blocked_processes) *)
| SWakeConnect (sock : Z) (* wakeup_queue(cnn_blocked_processes) *)
| SNotify (sock event : Z). (* wakeup_queue_select(sel_queues[..], node, event) *)

Record net := mk_net {
  socks : gmap Z socket_t;
  names : gmap (list Z) Z;
  sock_events : list sock_event
}.

Abbreviation sock_sleep := (net → net).

(** ** State updates *)

Definition set_addr (s : socket_t) x := mk_sock x (so_bind s) (so_connect s) (so_mode s) (so_domain s) (so_type s) (so_listening s) (so_backlog s) (so_buffer s) (so_buffer_size s) (so_available s) (so_locked s).
Definition set_bind (s : socket_t) x := mk_sock (so_addr s) x (so_connect s) (so_mode s) (so_domain s) (so_type s) (so_listening s) (so_backlog s) (so_buffer s) (so_buffer_size s) (so_available s) (so_locked s).
Definition set_connect (s : socket_t) x := mk_sock (so_addr s) (so_bind s) x (so_mode s) (so_domain s) (so_type s) (so_listening s) (so_backlog s) (so_buffer s) (so_buffer_size s) (so_available s) (so_locked s).
Definition set_listening (s : socket_t) x := mk_sock (so_addr s) (so_bind s) (so_connect s) (so_mode s) (so_domain s) (so_type s) x (so_backlog s) (so_buffer s) (so_buffer_size s) (so_available s) (so_locked s).
Definition set_backlog (s : socket_t) x := mk_sock (so_addr s) (so_bind s) (so_connect s) (so_mode s) (so_domain s) (so_type s) (so_listening s) x (so_buffer s) (so_buffer_size s) (so_available s) (so_locked s).
Definition set_buffer (s : socket_t) b sz av := mk_sock (so_addr s) (so_bind s) (so_connect s) (so_mode s) (so_domain s) (so_type s) (so_listening s) (so_backlog s) b sz av (so_locked s).
Definition set_locked (s : socket_t) x := mk_sock (so_addr s) (so_bind s) (so_connect s) (so_mode s) (so_domain s) (so_type s) (so_listening s) (so_backlog s) (so_buffer s) (so_buffer_size s) (so_available s) x.

Definition get_sock (st : net) (a : Z) : res socket_t := of_option (socks st !! a).
Definition put_sock (st : net) (a : Z) (s : socket_t) : net :=
  mk_net (<[a := s]> (socks st)) (names st) (sock_events st).
Definition sock_emit (st : net) (e : sock_event) : net :=
  mk_net (socks st) (names st) (sock_events st ++ [e]).

(** [mutex_lock(&sock->lock)]: blocks while somebody holds it *)
Definition lock_sock (st : net) (a : Z) : res net :=
  s ← get_sock st a;
  if so_locked s then OutOfFuel else Ok (put_sock st a (set_locked s true)).
Definition unlock_sock (st : net) (a : Z) : res net :=
  s ← get_sock st a; Ok (put_sock st a (set_locked s false)).

(** ** Readiness *)

Definition socket_event2index (event : Z) : Z :=
  if event =? VFS_EVENT_READ then 0
  else if event =? VFS_EVENT_WRITE then 1
  else if event =? VFS_EVENT_EXCEPT then 2
  else - EINVAL.

(** [device] is [None] when the node has no device. *)
Definition socket_check (device : option socket_t) (event : Z) : Z :=
  match device with
  | None => 0
  | Some s =>
      if event =? VFS_EVENT_READ
      then b2z ((0 <? so_available s) || (0 <? Z.of_nat (length (so_backlog s))))
      else if event =? VFS_EVENT_WRITE then b2z (so_available s <? SOCKET_MAX_BUFFER_SIZE)
      else 0
  end.

(** [__k_fs_socket_wait] on the three selection queues: the result and the queues. *)
Definition socket_wait (device : option socket_t) (queues : list (list Z)) (event node : Z)
    : res (Z * list (list Z)) :=
  match device with
  | None => Ok (- ENOENT, queues)
  | Some _ =>
      let idx := socket_event2index event in
      if idx <? 0 then Ok (idx, queues)
      else
        q ← of_option (queues !! Z.to_nat idx);
        if bool_decide (node ∈ q) then Ok (0, queues)
        else Ok (0, <[Z.to_nat idx := q ++ [node]]> queues)
  end.

Definition socket_notify (st : net) (a event : Z) : net :=
  if socket_event2index event <? 0 then st else sock_emit st (SNotify a event).

(** ** Reading *)

(** [memcpy(buffer, bytes, n)]: the copy always starts at the caller's buffer. *)
Definition copy_out (out bytes : list Z) : list Z := bytes ++ drop (length bytes) out.

(** One pass under the lock: copy [to_read] bytes out and move the rest to the front. *)
Definition read_chunk (st : net) (a : Z) (to_read : Z) (out : list Z) : res (net * list Z) :=
  st1 ← lock_sock st a;
  s ← get_sock st1 a;
  if Z.of_nat (length (so_buffer s)) <? to_read then Fault
  else
    let n := Z.to_nat to_read in
    let rest := u32 (so_available s - to_read) in
    let b := if truthy rest
             then take (Z.to_nat rest) (drop n (so_buffer s)) ++ drop (Z.to_nat rest) (so_buffer s)
             else so_buffer s in
    if Z.of_nat (length (so_buffer s)) <? to_read + rest then Fault
    else
      st2 ← unlock_sock (put_sock st1 a (set_buffer s b (so_buffer_size s) rest)) a;
      Ok (st2, copy_out out (take n (so_buffer s))).

(** The loop of [__k_fs_socket_read]: the state, the number of bytes still missing and the
    caller's buffer. *)
Fixpoint read_loop (fuel : nat) (sleeps : list sock_sleep) (st : net) (a size : Z)
    (nonblock : bool) (data_left : Z) (out : list Z) : res (net * Z * list Z) :=
  match fuel with
  | O => OutOfFuel
  | S fuel' =>
      if data_left =? 0 then Ok (st, 0, out)
      else
        s ← get_sock st a;
        if so_available s =? 0 then
          if nonblock then Ok (st, data_left, out)
          else match sleeps with
          | [] => OutOfFuel
          | w :: sleeps' => read_loop fuel' sleeps' (w st) a size nonblock data_left out
          end
        else
          let to_read := if size <? so_available s then size else so_available s in
          '(st1, out1) ← read_chunk st a to_read out;
          read_loop fuel' sleeps st1 a size nonblock (u32 (data_left - to_read)) out1
  end.

Definition socket_read (fuel : nat) (sleeps : list sock_sleep) (st : net) (a mode size : Z)
    (out : list Z) : res (Z * net * list Z) :=
  '(st1, data_left, out1) ←
    read_loop fuel sleeps st a size (truthy (Z.land mode O_NOBLOCK)) size out;
  Ok (u32 (size - data_left), socket_notify st1 a VFS_EVENT_WRITE, out1).

(** ** Writing *)

(** [while(client->available_data >= SOCKET_MAX_BUFFER_SIZE)]: [false] if the call must
    return [-ENOBUFS]. *)
Fixpoint wait_space (sleeps : list sock_sleep) (st : net) (client : Z) (nonblock : bool)
    : res (bool * net * list sock_sleep) :=
  c ← get_sock st client;
  if SOCKET_MAX_BUFFER_SIZE <=? so_available c then
    if nonblock then Ok (false, st, sleeps)
    else match sleeps with
    | [] => OutOfFuel
    | w :: sleeps' => wait_space sleeps' (w st) client nonblock
    end
  else Ok (true, st, sleeps).

(** [client->buffer_size += INIT; k_realloc]: fresh memory has arbitrary contents. *)
Definition grow_buffer (c : socket_t) (junk : list Z) : socket_t :=
  let sz := u32 (so_buffer_size c + SOCKET_INIT_BUFFER_SIZE) in
  set_buffer c (take (Z.to_nat sz) (so_buffer c ++ junk)) sz (so_available c).

(** [memcpy(client->buffer + available, buffer, sz)]: the copy always starts at the
    caller's first byte. *)
Definition append_chunk (c : socket_t) (data : list Z) (sz : Z) : res socket_t :=
  if (Z.of_nat (length data) <? sz) || (Z.of_nat (length (so_buffer c)) <? so_available c + sz)
  then Fault
  else Ok (set_buffer c
    (take (Z.to_nat (so_available c)) (so_buffer c) ++ take (Z.to_nat sz) data ++
     drop (Z.to_nat (so_available c + sz)) (so_buffer c))
    (so_buffer_size c) (u32 (so_available c + sz))).

(** The head of the loop: when the buffer is full, wait for space and grow it. *)
Definition make_room (sleeps : list sock_sleep) (st : net) (client : Z) (nonblock : bool)
    (junk : list Z) : res (bool * net * list sock_sleep) :=
  c ← get_sock st client;
  if so_buffer_size c <=? so_available c then
    '(go, st1, sleeps1) ← wait_space sleeps st client nonblock;
    if (go : bool) then
      c1 ← get_sock st1 client;
      Ok (true, put_sock st1 client (grow_buffer c1 junk), sleeps1)
    else Ok (false, st1, sleeps1)
  else Ok (true, st, sleeps).

(** The loop of [__k_fs_socket_write]: [false] for the early return. *)
Fixpoint write_loop (fuel : nat) (sleeps : list sock_sleep) (st : net) (client : Z)
    (nonblock : bool) (data junk : list Z) (to_write : Z) : res (bool * net) :=
  match fuel with
  | O => OutOfFuel
  | S fuel' =>
      if to_write =? 0 then Ok (true, st)
      else
        '(go, st1, sleeps1) ← make_room sleeps st client nonblock junk;
        if (go : bool) then
          c ← get_sock st1 client;
          let room := u32 (so_buffer_size c - so_available c) in
          let sz := if room <? to_write then room else to_write in
          c' ← append_chunk c data sz;
          write_loop fuel' sleeps1
            (socket_notify (sock_emit (put_sock st1 client c') (SWake client)) client VFS_EVENT_READ)
            client nonblock data junk (u32 (to_write - sz))
        else Ok (false, st1)
  end.

(** The early return leaves the peer locked. *)
Definition socket_write (fuel : nat) (sleeps : list sock_sleep) (st : net) (a mode : Z)
    (data junk : list Z) : res (Z * net) :=
  s ← get_sock st a;
  if negb (so_domain s =? AF_LOCAL) then Ok (u32 (- EINVAL), st)
  else if so_connect s =? 0 then Ok (u32 (- ENOTCONN), st)
  else
    let client := so_connect s in
    st1 ← lock_sock st client;
    '(done, st2) ← write_loop fuel sleeps st1 client (truthy (Z.land mode O_NOBLOCK)) data junk
                     (Z.of_nat (length data));
    if (done : bool)
    then st3 ← unlock_sock st2 client; Ok (Z.of_nat (length data), st3)
    else Ok (u32 (- ENOBUFS), socket_notify st2 a VFS_EVENT_EXCEPT).

(** ** Life cycle *)

(** [k_fs_socket_create]; [new] is the address of the socket, [junk] the contents of its
    fresh buffer.  [None]: NULL *)
Definition k_fs_socket_create (st : net) (domain type new : Z) (junk : list Z) : option net :=
  if negb (domain =? AF_LOCAL) then None
  else
    let mode := if truthy (Z.land type SOCK_NONBLOCK) then Z.lor 3 O_NOBLOCK else 3 in
    Some (put_sock st new
      (mk_sock None false 0 mode domain type 0 []
         (take (Z.to_nat SOCKET_INIT_BUFFER_SIZE) junk) SOCKET_INIT_BUFFER_SIZE 0 false)).

Definition k_fs_socket_bind (st : net) (a : Z) (path : list Z) : res (Z * net) :=
  s ← get_sock st a;
  if so_bind s then Ok (- EINVAL, st)
  else if so_domain s =? AF_LOCAL then
    let st1 := put_sock st a (set_bind (set_addr s (Some path)) true) in
    Ok (0, mk_net (socks st1) (<[path := a]> (names st1)) (sock_events st1))
  else Ok (- EINVAL, st).

Definition k_fs_socket_listen (st : net) (a : Z) : res (Z * net) :=
  s ← get_sock st a; Ok (0, put_sock st a (set_listening s 1)).

(** [while(!socket->connect)] of [k_fs_socket_connect]: [false] for [-EAGAIN] *)
Fixpoint wait_accept (sleeps : list sock_sleep) (st : net) (a : Z) : res (bool * net) :=
  s ← get_sock st a;
  if so_connect s =? 0 then
    if truthy (Z.land (so_type s) SOCK_NONBLOCK) then Ok (false, st)
    else match sleeps with
    | [] => OutOfFuel
    | w :: sleeps' => wait_accept sleeps' (w st) a
    end
  else Ok (true, st).

(** [k_fs_socket_connect] up to its loop: 0 when the caller waits in the server's queue *)
Definition connect_queue (st : net) (a : Z) (path : list Z) : res (Z * net) :=
  s ← get_sock st a;
  if truthy (so_connect s) then Ok (- EISCONN, st)
  else if so_domain s =? AF_LOCAL then
    match names st !! path with
    | None => Ok (- ENOENT, st)
    | Some srv =>
        server ← get_sock st srv;
        if so_listening server =? 0 then Ok (- ECONNREFUSED, st)
        else
          let st1 := put_sock st a (set_addr s (Some path)) in
          server1 ← get_sock st1 srv;
          let st2 := put_sock st1 srv (set_backlog server1 (so_backlog server1 ++ [a])) in
          Ok (0, sock_emit (socket_notify st2 srv VFS_EVENT_READ) (SWake srv))
    end
  else Ok (- EINVAL, st).

Definition k_fs_socket_connect (sleeps : list sock_sleep) (st : net) (a : Z) (path : list Z)
    : res (Z * net) :=
  '(r, st1) ← connect_queue st a path;
  if negb (r =? 0) then Ok (r, st1)
  else
    '(ok, st2) ← wait_accept sleeps st1 a;
    if (ok : bool) then
      s2 ← get_sock st2 a;
      if so_connect s2 =? 0xFFFFFFFF then Ok (- EINVAL, put_sock st2 a (set_connect s2 0))
      else Ok (0, st2)
    else Ok (- EAGAIN, st2).

(** [while(!socket->backlog->size)] of [k_fs_socket_accept] *)
Fixpoint wait_backlog (sleeps : list sock_sleep) (st : net) (a : Z) : res (bool * net) :=
  s ← get_sock st a;
  if (length (so_backlog s) =? 0)%nat then
    if truthy (Z.land (so_type s) SOCK_NONBLOCK) then Ok (false, st)
    else match sleeps with
    | [] => OutOfFuel
    | w :: sleeps' => wait_backlog sleeps' (w st) a
    end
  else Ok (true, st).

Definition k_fs_socket_accept (sleeps : list sock_sleep) (st : net) (a new : Z) (junk : list Z)
    : res (Z * net) :=
  s ← get_sock st a;
  if so_domain s =? AF_LOCAL then
    '(ok, st1) ← wait_backlog sleeps st a;
    if (ok : bool) then
      s1 ← get_sock st1 a;
      client ← of_option (head (so_backlog s1));
      let st2 := put_sock st1 a (set_backlog s1 (tail (so_backlog s1))) in
      st3 ← of_option (k_fs_socket_create st2 (so_domain s1) (so_type s1) new junk);
      c ← get_sock st3 client;
      let st4 := put_sock st3 client (set_connect c new) in
      n ← get_sock st4 new;
      c4 ← get_sock st4 client;
      let st5 := put_sock st4 new (set_addr (set_connect n client) (so_addr c4)) in
      Ok (0, sock_emit st5 (SWakeConnect a))
    else Ok (- EAGAIN, st1)
  else Ok (- ENOTSUP, st).

Definition socket_close (st : net) (a : Z) : res net :=
  s ← get_sock st a;
  if so_connect s =? 0 then Ok st
  else
    let other := so_connect s in
    let st1 := put_sock st a (set_connect s 0) in
    o ← get_sock st1 other;
    Ok (put_sock st1 other (set_connect o 0)).

(** [__k_fs_socket_remove] wakes the selectors and frees the socket. *)
Definition socket_remove (st : net) (a : Z) : res net :=
  _ ← get_sock st a;
  let st1 := sock_emit (sock_emit (sock_emit st (SNotify a VFS_EVENT_EXCEPT))
               (SNotify a VFS_EVENT_EXCEPT)) (SNotify a VFS_EVENT_EXCEPT) in
  Ok (mk_net (delete a (socks st1)) (names st1) (sock_events st1)).
