(* ===== verification/SocketFacts.v ===== *)
(** * Correctness of local sockets

    A socket's buffer is a byte stream: what fits is appended, what is asked for and there
    is removed from the front ([socket_transfer]); connections are symmetric pairs in
    every reachable state ([connections_paired]).  The loops that move data in several
    pieces do not advance through the caller's buffer, and a writer keeps the peer locked
    while it waits for room. *)

From S2P Require Import Prelude Socket.

(** The unread bytes *)
Definition so_stream (s : socket_t) : list Z := take (Z.to_nat (so_available s)) (so_buffer s).

Definition sock_wf (s : socket_t) : Prop :=
  Z.of_nat (length (so_buffer s)) = so_buffer_size s ∧
  0 ≤ so_available s ≤ so_buffer_size s ∧ so_buffer_size s < 2 ^ 31.

Section streams.
Implicit Types (s c : socket_t) (st : net) (a b : Z).

Lemma length_stream s : sock_wf s → Z.of_nat (length (so_stream s)) = so_available s.
Proof. intros (Hl & Ha & _). unfold so_stream. rewrite length_take. lia. Qed.

Lemma get_some st a s : socks st !! a = Some s → get_sock st a = Ok s.
Proof. intros H. unfold get_sock. by rewrite H. Qed.

Lemma get_put st a s : get_sock (put_sock st a s) a = Ok s.
Proof. unfold get_sock, put_sock. cbn. by rewrite lookup_insert_eq. Qed.

Lemma put_put st a s s' : put_sock (put_sock st a s) a s' = put_sock st a s'.
Proof. unfold put_sock. cbn. by rewrite insert_insert_eq. Qed.

(** One chunk that fits is appended to the stream. *)
Lemma append_ok c data n :
  sock_wf c → 0 ≤ n ≤ Z.of_nat (length data) → so_available c + n ≤ so_buffer_size c →
  ∃ c', append_chunk c data n = Ok c' ∧ sock_wf c' ∧
    so_stream c' = so_stream c ++ take (Z.to_nat n) data ∧
    so_available c' = so_available c + n ∧ so_buffer_size c' = so_buffer_size c ∧
    so_locked c' = so_locked c.
Proof.
  intros (Hl & Ha & Hb) Hn Hroom. unfold append_chunk.
  rewrite (proj2 (Z.ltb_ge _ _)), (proj2 (Z.ltb_ge _ _)) by lia. cbn [orb].
  eexists. split; [done|]. unfold sock_wf, so_stream. cbn [so_buffer so_available so_buffer_size set_buffer].
  rewrite u32_small by lia.
  assert (H1 : length (take (Z.to_nat (so_available c)) (so_buffer c)) = Z.to_nat (so_available c))
    by (apply length_take_le; lia).
  assert (H2 : length (take (Z.to_nat n) data) = Z.to_nat n) by (apply length_take_le; lia).
  split; [|split; [|done]].
  - rewrite !length_app, H1, H2, length_drop. lia.
  - rewrite app_assoc, take_app_le by (rewrite length_app, H1, H2; lia).
    apply take_ge. rewrite length_app, H1, H2. lia.
Qed.

(** Reading at most what is there *)
Lemma read_chunk_ok st a s n out :
  socks st !! a = Some s → sock_wf s → so_locked s = false → 0 < n ≤ so_available s →
  ∃ s', read_chunk st a n out = Ok (put_sock st a s', copy_out out (take (Z.to_nat n) (so_stream s))) ∧
    sock_wf s' ∧ so_locked s' = false ∧ so_stream s' = drop (Z.to_nat n) (so_stream s) ∧
    so_available s' = so_available s - n ∧ so_connect s' = so_connect s.
Proof.
  intros Hs (Hl & Ha & Hb) Hlk Hn. unfold read_chunk, lock_sock, unlock_sock.
  rewrite (get_some _ _ _ Hs), bind_ok, Hlk, bind_ok, get_put, bind_ok.
  cbn [so_buffer so_available set_locked so_buffer_size].
  rewrite (proj2 (Z.ltb_ge _ _)) by lia. rewrite u32_small by lia. cbn zeta.
  rewrite (proj2 (Z.ltb_ge _ _)) by lia. rewrite put_put, get_put, bind_ok, bind_ok, put_put.
  set (b := if truthy _ then _ else _). eexists. split.
  { do 2 f_equal. unfold so_stream. rewrite take_take. f_equal. f_equal. lia. }
  unfold sock_wf, so_stream. cbn [so_buffer so_available so_buffer_size set_buffer set_locked so_locked so_connect].
  set (rest := Z.to_nat (so_available s - n)).
  assert (Hr : (rest ≤ length (drop (Z.to_nat n) (so_buffer s)))%nat) by (rewrite length_drop; lia).
  assert (Hlb : length b = length (so_buffer s)).
  { unfold b. case_if; [|done]. fold rest. rewrite length_app, length_take_le, length_drop by done. lia. }
  split; [rewrite Hlb; lia|]. split; [done|]. split; [|done].
  rewrite skipn_firstn_comm. replace (Z.to_nat (so_available s) - Z.to_nat n)%nat with rest by lia.
  unfold b. case_if.
  - fold rest. rewrite take_app_le, take_take by (rewrite length_take; lia). f_equal. lia.
  - replace rest with 0%nat by lia. done.
Qed.

Lemma read_loop_ok fuel st a s n nb out :
  socks st !! a = Some s → sock_wf s → so_locked s = false → 0 < n ≤ so_available s →
  ∃ s', read_loop (S (S fuel)) [] st a n nb n out =
      Ok (put_sock st a s', 0, copy_out out (take (Z.to_nat n) (so_stream s))) ∧
    sock_wf s' ∧ so_locked s' = false ∧ so_stream s' = drop (Z.to_nat n) (so_stream s).
Proof.
  intros Hs Hwf Hlk Hn.
  destruct (read_chunk_ok st a s n out Hs Hwf Hlk Hn) as (s' & Hr & Hwf' & Hlk' & Hst & _).
  exists s'. split; [|done]. cbn [read_loop]. rewrite (proj2 (Z.eqb_neq n 0)) by lia.
  rewrite (get_some _ _ _ Hs), bind_ok, (proj2 (Z.eqb_neq _ 0)) by lia.
  replace (if n <? so_available s then n else so_available s) with n by (case_if; lia).
  cbn zeta. rewrite Hr, bind_ok, Z.sub_diag. done.
Qed.

(** One turn of the write loop, with room in the buffer *)
Lemma write_step fuel st b nb data junk tw c :
  socks st !! b = Some c → sock_wf c → so_available c < so_buffer_size c →
  0 < tw ≤ Z.of_nat (length data) → tw < 2 ^ 32 →
  let n := Z.min (so_buffer_size c - so_available c) tw in
  ∃ c' st', write_loop (S fuel) [] st b nb data junk tw =
      write_loop fuel [] st' b nb data junk (tw - n) ∧
    socks st' = <[b := c']> (socks st) ∧ sock_wf c' ∧ so_locked c' = so_locked c ∧
    so_stream c' = so_stream c ++ take (Z.to_nat n) data ∧ so_available c' = so_available c + n ∧
    so_buffer_size c' = so_buffer_size c.
Proof.
  intros Hb Hwf Hroom Htw Hbig n. pose proof Hwf as (Hl & Ha & Hs).
  destruct (append_ok c data n) as (c' & Happ & Hwf' & Hst & Hav & Hsz & Hlk); [done|lia|lia|].
  cbn [write_loop]. rewrite (proj2 (Z.eqb_neq tw 0)) by lia. unfold make_room.
  rewrite (get_some _ _ _ Hb), bind_ok, (proj2 (Z.leb_gt _ _)), bind_ok by lia.
  rewrite (get_some _ _ _ Hb), bind_ok. cbn zeta.
  replace (if u32 (so_buffer_size c - so_available c) <? tw then _ else tw) with n
    by (unfold n; rewrite u32_small by lia; case_if; lia).
  rewrite Happ, bind_ok, (u32_small (tw - n)) by lia.
  exists c'. eexists. split; [done|]. split; [done|]. done.
Qed.

(** One turn on a full buffer below the limit: it grows first. *)
Lemma write_step_grow fuel st b nb data junk tw c :
  socks st !! b = Some c → sock_wf c → so_available c = so_buffer_size c →
  so_buffer_size c < SOCKET_MAX_BUFFER_SIZE → Z.of_nat (length junk) = SOCKET_INIT_BUFFER_SIZE →
  0 < tw ≤ Z.of_nat (length data) → tw < 2 ^ 32 →
  let n := Z.min SOCKET_INIT_BUFFER_SIZE tw in
  ∃ c' st', write_loop (S fuel) [] st b nb data junk tw =
      write_loop fuel [] st' b nb data junk (tw - n) ∧
    socks st' = <[b := c']> (socks st) ∧ so_stream c' = so_stream c ++ take (Z.to_nat n) data.
Proof.
  intros Hb Hwf Hfull Hmax Hjunk Htw Hbig n. pose proof Hwf as (Hl & Ha & Hs).
  set (c1 := grow_buffer c junk).
  assert (Hg : so_buffer c1 = so_buffer c ++ junk ∧
    so_buffer_size c1 = so_buffer_size c + SOCKET_INIT_BUFFER_SIZE ∧ so_available c1 = so_available c).
  { unfold c1, grow_buffer. cbn [so_buffer so_buffer_size so_available set_buffer].
    unfold SOCKET_MAX_BUFFER_SIZE, SOCKET_INIT_BUFFER_SIZE in *. rewrite u32_small by lia. split; [|done].
    apply take_ge. rewrite length_app. lia. }
  destruct Hg as (Hg1 & Hg2 & Hg3). unfold SOCKET_MAX_BUFFER_SIZE, SOCKET_INIT_BUFFER_SIZE in *.
  assert (Hwf1 : sock_wf c1) by (unfold sock_wf; rewrite Hg1, Hg2, Hg3, length_app; lia).
  assert (Hmk : make_room [] st b nb junk = Ok (true, put_sock st b c1, [])).
  { unfold make_room. rewrite (get_some _ _ _ Hb), bind_ok, (proj2 (Z.leb_le _ _)) by lia.
    cbn [wait_space]. rewrite (get_some _ _ _ Hb), bind_ok.
    rewrite (proj2 (Z.leb_gt SOCKET_MAX_BUFFER_SIZE _)) by (unfold SOCKET_MAX_BUFFER_SIZE; lia).
    rewrite bind_ok, (get_some _ _ _ Hb). done. }
  destruct (append_ok c1 data n) as (c' & Happ & _ & Hst & _); [done|lia|lia|].
  cbn [write_loop]. rewrite (proj2 (Z.eqb_neq tw 0)), Hmk, bind_ok, get_put, bind_ok by lia. cbn zeta.
  replace (if u32 (so_buffer_size c1 - so_available c1) <? tw then _ else tw) with n
    by (unfold n; rewrite u32_small by lia; case_if; lia).
  rewrite Happ, bind_ok, (u32_small (tw - n)), put_put by lia.
  exists c'. eexists. split; [done|]. split; [done|]. rewrite Hst. f_equal.
  unfold so_stream. rewrite Hg1, Hg3. apply take_app_le. lia.
Qed.

(** A whole call: lock the peer, run the loop, unlock. *)
Lemma write_call fuel st a b mode data junk sa sb st2 c :
  socks st !! a = Some sa → so_domain sa = AF_LOCAL → so_connect sa = b → b ≠ 0 →
  socks st !! b = Some sb → so_locked sb = false →
  write_loop fuel [] (put_sock st b (set_locked sb true)) b (truthy (Z.land mode O_NOBLOCK)) data junk
    (Z.of_nat (length data)) = Ok (true, st2) →
  socks st2 !! b = Some c →
  socket_write fuel [] st a mode data junk =
    Ok (Z.of_nat (length data), put_sock st2 b (set_locked c false)).
Proof.
  intros Ha Hd Hc Hb0 Hb Hlk Hw Hs2. unfold socket_write.
  rewrite (get_some _ _ _ Ha), bind_ok, Hd, Hc. cbn [negb Z.eqb AF_LOCAL].
  rewrite (proj2 (Z.eqb_neq b 0)) by done. unfold lock_sock. rewrite (get_some _ _ _ Hb).
  rewrite !bind_ok, Hlk, !bind_ok, Hw, bind_ok. unfold unlock_sock. rewrite (get_some _ _ _ Hs2). done.
Qed.

(** A write that fits into the peer's buffer *)
Lemma write_ok st a b mode data junk sa sb :
  socks st !! a = Some sa → so_domain sa = AF_LOCAL → so_connect sa = b → b ≠ 0 → a ≠ b →
  socks st !! b = Some sb → sock_wf sb → so_locked sb = false → data ≠ [] →
  so_available sb + Z.of_nat (length data) ≤ so_buffer_size sb →
  ∃ st' sb', socket_write 2 [] st a mode data junk = Ok (Z.of_nat (length data), st') ∧
    socks st' = <[b := sb']> (socks st) ∧ sock_wf sb' ∧ so_locked sb' = false ∧
    so_stream sb' = so_stream sb ++ data ∧ so_buffer_size sb' = so_buffer_size sb.
Proof.
  intros Ha Hd Hc Hb0 Hab Hb Hwf Hlk Hne Hroom. pose proof Hwf as (Hbl & Hba & Hbs).
  assert (Hn : 0 < Z.of_nat (length data)) by (destruct data; [done|cbn [length]; lia]).
  destruct (write_step 1 (put_sock st b (set_locked sb true)) b (truthy (Z.land mode O_NOBLOCK)) data junk
    (Z.of_nat (length data)) (set_locked sb true)) as (c' & st1 & Hw & Hs1 & Hwf1 & _ & Hst & Hav & Hsz);
    [cbn; by rewrite lookup_insert_eq|done|cbn; lia|lia|lia|].
  cbn [so_buffer_size so_available set_locked] in *. rewrite Z.min_r in * by lia.
  rewrite Z.sub_diag in Hw. cbn [socks put_sock] in Hs1. rewrite insert_insert_eq in Hs1.
  rewrite (write_call 2 st a b mode data junk sa sb st1 c') by
    (done || by rewrite Hs1, lookup_insert_eq). do 2 eexists. split; [done|].
  cbn [socks put_sock]. rewrite Hs1, insert_insert_eq. split; [done|]. split; [done|]. split; [done|].
  split; [|done]. rewrite Nat2Z.id, firstn_all in Hst. done.
Qed.
End streams.

(** Writes of several messages, one call each *)
Fixpoint send_all (st : net) (a mode : Z) (ms : list (list Z)) (junk : list Z) : res net :=
  match ms with
  | [] => Ok st
  | m :: ms' => '(_, st1) ← socket_write 2 [] st a mode m junk; send_all st1 a mode ms' junk
  end.

Lemma send_all_ok st a b mode ms junk sa sb :
  socks st !! a = Some sa → so_domain sa = AF_LOCAL → so_connect sa = b → b ≠ 0 → a ≠ b →
  socks st !! b = Some sb → sock_wf sb → so_locked sb = false → Forall (λ m, m ≠ []) ms →
  so_available sb + Z.of_nat (length (concat ms)) ≤ so_buffer_size sb →
  ∃ st' sb', send_all st a mode ms junk = Ok st' ∧ socks st' = <[b := sb']> (socks st) ∧
    sock_wf sb' ∧ so_locked sb' = false ∧ so_stream sb' = so_stream sb ++ concat ms.
Proof.
  revert st sb. induction ms as [|m ms IH]; intros st sb Ha Hd Hc Hb0 Hab Hb Hwf Hlk Hne Hroom.
  - exists st, sb. cbn. rewrite app_nil_r. split; [done|]. by rewrite insert_id.
  - apply Forall_cons in Hne as [Hm Hne]. cbn [concat] in Hroom. rewrite length_app in Hroom.
    destruct (write_ok st a b mode m junk sa sb) as (st1 & sb1 & Hw & Hs1 & Hwf1 & Hlk1 & Hst1 & Hsz1);
      [done..|lia|].
    destruct (IH st1 sb1) as (st2 & sb2 & H2 & Hs2 & Hwf2 & Hlk2 & Hst2); try done.
    + rewrite Hs1, lookup_insert_ne by done. done.
    + by rewrite Hs1, lookup_insert_eq.
    + pose proof (length_stream _ Hwf1) as Hl1. pose proof (length_stream _ Hwf) as Hl.
      rewrite Hst1, length_app in Hl1. lia.
    + exists st2, sb2. cbn [send_all concat]. rewrite Hw, bind_ok. split; [done|].
      split; [by rewrite Hs2, Hs1, insert_insert_eq|]. split; [done|]. split; [done|].
      by rewrite Hst2, Hst1, app_assoc.
Qed.

(** C27: a connection carries a byte stream: messages that fit into the peer's buffer are
    all accepted, and one read of their total length on the other side returns exactly
    their bytes in the order they were written, behind which the stream is empty. *)
Theorem socket_transfer st a b mode mode' ms junk out sa sb :
  socks st !! a = Some sa → so_domain sa = AF_LOCAL → so_connect sa = b → b ≠ 0 → a ≠ b →
  socks st !! b = Some sb → sock_wf sb → so_locked sb = false → so_available sb = 0 →
  Forall (λ m, m ≠ []) ms → ms ≠ [] →
  Z.of_nat (length (concat ms)) ≤ so_buffer_size sb → length out = length (concat ms) →
  ∃ st1 st2 sb2, send_all st a mode ms junk = Ok st1 ∧
    socket_read 2 [] st1 b mode' (Z.of_nat (length (concat ms))) out =
      Ok (Z.of_nat (length (concat ms)), st2, concat ms) ∧
    socks st2 !! b = Some sb2 ∧ so_stream sb2 = [].
Proof.
  intros Ha Hd Hc Hb0 Hab Hb Hwf Hlk Hav Hne Hms Hroom Hout.
  destruct (send_all_ok st a b mode ms junk sa sb) as (st1 & sb1 & H1 & Hs1 & Hwf1 & Hlk1 & Hst1);
    try done; [lia|].
  assert (Hst0 : so_stream sb = []) by (unfold so_stream; by rewrite Hav). rewrite Hst0 in Hst1. cbn in Hst1.
  pose proof (length_stream _ Hwf1) as Hl1. rewrite Hst1 in Hl1.
  assert (Hpos : 0 < Z.of_nat (length (concat ms))).
  { destruct Hne as [|m ms' Hm Hne']; [done|]. cbn [concat]. rewrite length_app.
    destruct m; [done|cbn [length]; lia]. }
  destruct (read_loop_ok 0 st1 b sb1 (Z.of_nat (length (concat ms)))
    (truthy (Z.land mode' O_NOBLOCK)) out) as (sb2 & Hr & Hwf2 & Hlk2 & Hst2); try done.
  { by rewrite Hs1, lookup_insert_eq. }
  { lia. }
  exists st1. unfold socket_read. rewrite Hr, bind_ok, Z.sub_0_r, u32_small.
  2: { destruct Hwf1 as (? & ? & ?). lia. }
  rewrite Hst1, Nat2Z.id, firstn_all. unfold copy_out. rewrite drop_ge, app_nil_r by lia.
  exists (socket_notify (put_sock st1 b sb2) b VFS_EVENT_WRITE), sb2.
  split; [done|]. split; [done|]. split; [cbn; by rewrite lookup_insert_eq|].
  rewrite Hst2, Hst1, Nat2Z.id. apply drop_all.
Qed.

(** Two connected sockets, 10 and 20, with buffers of [n] bytes *)
Definition demo_sock (peer : Z) (n : nat) : socket_t :=
  mk_sock None false peer 3 AF_LOCAL 4 0 [] (replicate n 0) (Z.of_nat n) 0 false.
Definition demo_net (n : nat) : net :=
  mk_net (<[10 := demo_sock 20 n]> (<[20 := demo_sock 10 n]> ∅)) ∅ [].

Lemma socket_transfer_witness :
  ∃ st1 st2, send_all (demo_net 8) 10 3 [[1; 2]; [3]] [] = Ok st1 ∧
    socket_read 2 [] st1 20 3 3 [0; 0; 0] = Ok (3, st2, [1; 2; 3]).
Proof.
  destruct (socket_transfer (demo_net 8) 10 20 3 3 [[1; 2]; [3]] [] [0; 0; 0] (demo_sock 20 8) (demo_sock 10 8))
    as (st1 & st2 & _ & H1 & H2 & _); try reflexivity; try done.
  - by repeat constructor.
  - exists st1, st2. split; [exact H1|exact H2].
Defined.

(** A message longer than the room in the peer's buffer is corrupted: it is sent in two
    pieces, and the second piece is copied from the start of the message again instead of
    from where the first one ended. *)
Theorem socket_split_write_repeats st a b mode data junk sa sb :
  socks st !! a = Some sa → so_domain sa = AF_LOCAL → so_connect sa = b → b ≠ 0 → a ≠ b →
  socks st !! b = Some sb → sock_wf sb → so_locked sb = false →
  let room := so_buffer_size sb - so_available sb in
  let len := Z.of_nat (length data) in
  0 < room < len → len - room ≤ SOCKET_INIT_BUFFER_SIZE → so_buffer_size sb < SOCKET_MAX_BUFFER_SIZE →
  Z.of_nat (length junk) = SOCKET_INIT_BUFFER_SIZE →
  ∃ st' sb', socket_write 3 [] st a mode data junk = Ok (len, st') ∧ socks st' !! b = Some sb' ∧
    so_stream sb' = so_stream sb ++ take (Z.to_nat room) data ++ take (Z.to_nat (len - room)) data.
Proof.
  intros Ha Hd Hc Hb0 Hab Hb Hwf Hlk room len Hroom Hrest Hmax Hjunk.
  pose proof Hwf as (Hbl & Hba & Hbs).
  destruct (write_step 2 (put_sock st b (set_locked sb true)) b (truthy (Z.land mode O_NOBLOCK)) data junk
    len (set_locked sb true)) as (c1 & st1 & Hw1 & Hs1 & Hwf1 & _ & Hst1 & Hav1 & Hsz1);
    [cbn; by rewrite lookup_insert_eq|done|cbn; lia|lia|unfold SOCKET_INIT_BUFFER_SIZE, SOCKET_MAX_BUFFER_SIZE in *; lia|].
  cbn [so_buffer_size so_available set_locked] in *. fold room in Hw1, Hst1, Hav1.
  rewrite Z.min_l in Hw1, Hst1, Hav1 by lia. cbn [socks put_sock] in Hs1. rewrite insert_insert_eq in Hs1.
  destruct (write_step_grow 1 st1 b (truthy (Z.land mode O_NOBLOCK)) data junk (len - room) c1)
    as (c2 & st2 & Hw2 & Hs2 & Hst2);
    [by rewrite Hs1, lookup_insert_eq|done|lia|lia|done|lia|unfold SOCKET_INIT_BUFFER_SIZE, SOCKET_MAX_BUFFER_SIZE in *; lia|].
  rewrite Z.min_r in Hw2, Hst2 by lia. rewrite Z.sub_diag in Hw2.
  rewrite (write_call 3 st a b mode data junk sa sb st2 c2); try done.
  - do 2 eexists. split; [done|]. cbn [socks put_sock]. split; [by rewrite lookup_insert_eq|].
    transitivity (so_stream c2); [done|]. rewrite Hst2, Hst1, <- app_assoc. done.
  - fold len. rewrite Hw1, Hw2. done.
  - by rewrite Hs2, lookup_insert_eq.
Qed.

Lemma socket_split_write_repeats_witness :
  ∃ st' sb', socket_write 3 [] (demo_net 2) 10 3 [1; 2; 3] (replicate 4096 0) = Ok (3, st') ∧
    socks st' !! 20 = Some sb' ∧ so_stream sb' = [1; 2; 1].
Proof.
  destruct (socket_split_write_repeats (demo_net 2) 10 20 3 [1; 2; 3] (replicate 4096 0)
    (demo_sock 20 2) (demo_sock 10 2)) as (st' & sb' & H1 & H2 & H3); try reflexivity; try done.
  exists st', sb'. split; [exact H1|]. split; [exact H2|exact H3].
Defined.

(** A non-blocking write to a peer whose buffer is at its limit returns [-ENOBUFS] with
    the peer still locked: no later read of the peer's data ever gets past its lock, for
    any amount of time and whatever other processes do to other sockets. *)
Theorem socket_full_write_keeps_lock st a b mode data junk sa sb :
  socks st !! a = Some sa → so_domain sa = AF_LOCAL → so_connect sa = b → b ≠ 0 →
  socks st !! b = Some sb → so_locked sb = false → truthy (Z.land mode O_NOBLOCK) = true →
  SOCKET_MAX_BUFFER_SIZE ≤ so_available sb → so_buffer_size sb ≤ so_available sb → data ≠ [] →
  ∃ st', socket_write 1 [] st a mode data junk = Ok (u32 (- ENOBUFS), st') ∧
    ∀ fuel sleeps mode' size out, 0 < size → Forall (λ w, ∀ st, socks (w st) !! b = socks st !! b) sleeps →
      socket_read fuel sleeps st' b mode' size out = OutOfFuel.
Proof.
  intros Ha Hd Hc Hb0 Hb Hlk Hnb Hmax Hfull Hne. unfold socket_write.
  rewrite (get_some _ _ _ Ha), bind_ok, Hd, Hc. cbn [negb Z.eqb AF_LOCAL].
  rewrite (proj2 (Z.eqb_neq b 0)) by done. unfold lock_sock. rewrite (get_some _ _ _ Hb).
  rewrite !bind_ok, Hlk, !bind_ok. cbn [write_loop].
  rewrite (proj2 (Z.eqb_neq _ 0)) by (destruct data; [done|cbn [length]; lia]).
  unfold make_room. rewrite get_put, bind_ok. cbn [so_buffer_size so_available set_locked].
  rewrite (proj2 (Z.leb_le (so_buffer_size sb) _)) by done. cbn [wait_space]. rewrite get_put, bind_ok.
  cbn [so_available set_locked]. rewrite (proj2 (Z.leb_le SOCKET_MAX_BUFFER_SIZE _)), Hnb by done.
  rewrite !bind_ok. eexists. split; [done|]. intros fuel sleeps mode' size out Hsz Hsl.
  unfold socket_read. destruct fuel as [|fuel]; [done|]. cbn [read_loop].
  rewrite (proj2 (Z.eqb_neq size 0)) by lia.
  set (st1 := socket_notify _ a VFS_EVENT_EXCEPT).
  assert (H1 : socks st1 !! b = Some (set_locked sb true)) by (cbn; by rewrite lookup_insert_eq).
  rewrite (get_some _ _ _ H1), bind_ok. cbn [so_available set_locked].
  rewrite (proj2 (Z.eqb_neq (so_available sb) 0)) by (unfold SOCKET_MAX_BUFFER_SIZE in *; lia).
  cbn zeta. unfold read_chunk, lock_sock. rewrite (get_some _ _ _ H1), bind_ok. done.
Qed.

Lemma socket_full_write_keeps_lock_witness :
  ∃ st', socket_write 1 [] (mk_net (<[10 := demo_sock 20 0]> (<[20 := set_buffer (demo_sock 10 0) [] 0 65536]> ∅)) ∅ [])
      10 64 [1] [] = Ok (u32 (- ENOBUFS), st') ∧ socket_read 5 [] st' 20 3 1 [0] = OutOfFuel.
Proof.
  destruct (socket_full_write_keeps_lock
    (mk_net (<[10 := demo_sock 20 0]> (<[20 := set_buffer (demo_sock 10 0) [] 0 65536]> ∅)) ∅ [])
    10 20 64 [1] [] (demo_sock 20 0) (set_buffer (demo_sock 10 0) [] 0 65536)) as (st' & H1 & H2);
    try reflexivity; try done.
  exists st'. split; [exact H1|]. apply H2; [lia|constructor].
Defined.

(** A read that has to wait for its second half loses the first: the bytes that arrive
    later are copied over the beginning of the caller's buffer, and the call reports the
    full size. *)
Theorem socket_two_part_read_overwrites st b sb mode out d2 :
  socks st !! b = Some sb → sock_wf sb → so_locked sb = false → truthy (Z.land mode O_NOBLOCK) = false →
  0 < so_available sb → let size := so_available sb + Z.of_nat (length d2) in
  d2 ≠ [] → size < 2 ^ 31 →
  (* while the reader sleeps, exactly the missing bytes arrive *)
  let arrive := λ st', match socks st' !! b with
    | Some s => put_sock st' b (set_buffer s d2 (Z.of_nat (length d2)) (Z.of_nat (length d2)))
    | None => st' end in
  ∃ st', socket_read 4 [arrive] st b mode size out =
    Ok (size, st', copy_out (copy_out out (so_stream sb)) d2).
Proof.
  intros Hb Hwf Hlk Hnb Hav size Hd2 Hsz arrive.
  assert (Hlen : 0 < Z.of_nat (length d2)) by (destruct d2; [done|cbn [length]; lia]).
  destruct (read_chunk_ok st b sb (so_available sb) out Hb Hwf Hlk) as (s1 & Hr1 & Hwf1 & Hlk1 & Hst1 & Hav1 & _);
    [lia|].
  set (st1 := put_sock st b s1). set (s2 := set_buffer s1 d2 (Z.of_nat (length d2)) (Z.of_nat (length d2))).
  assert (Harr : arrive st1 = put_sock st b s2).
  { unfold arrive, st1. cbn. rewrite lookup_insert_eq. by rewrite put_put. }
  assert (Hst2 : so_stream s2 = d2) by (unfold so_stream; cbn; by rewrite Nat2Z.id, firstn_all).
  destruct (read_chunk_ok (put_sock st b s2) b s2 (Z.of_nat (length d2)) (copy_out out (so_stream sb)))
    as (s3 & Hr3 & Hwf3 & _); [cbn; by rewrite lookup_insert_eq|repeat split; cbn; lia|done|cbn; lia|].
  rewrite Hst2, Nat2Z.id, firstn_all in Hr3.
  assert (Hall : take (Z.to_nat (so_available sb)) (so_stream sb) = so_stream sb).
  { apply take_ge. pose proof (length_stream _ Hwf). lia. }
  rewrite Hall in Hr1. fold st1 in Hr1.
  assert (H1 : socks st1 !! b = Some s1) by (unfold st1; cbn; by rewrite lookup_insert_eq).
  unfold socket_read. rewrite Hnb. cbn [read_loop]. rewrite (proj2 (Z.eqb_neq size 0)) by lia.
  rewrite (get_some _ _ _ Hb), bind_ok, (proj2 (Z.eqb_neq (so_available sb) 0)) by lia.
  rewrite (proj2 (Z.ltb_ge size (so_available sb))) by lia. cbn zeta. rewrite Hr1, bind_ok.
  replace (size - so_available sb) with (Z.of_nat (length d2)) by lia.
  rewrite (u32_small (Z.of_nat (length d2))), (proj2 (Z.eqb_neq (Z.of_nat (length d2)) 0)) by lia.
  rewrite (get_some _ _ _ H1), bind_ok, Hav1, Z.sub_diag. cbn [Z.eqb]. rewrite Harr.
  rewrite get_put, bind_ok. cbn [so_available s2 set_buffer].
  rewrite (proj2 (Z.eqb_neq (Z.of_nat (length d2)) 0)), (proj2 (Z.ltb_ge size _)) by lia.
  rewrite Hr3, bind_ok, Z.sub_diag. change (u32 0 =? 0) with true. cbn iota.
  rewrite bind_ok, Z.sub_0_r, u32_small by lia. by eexists.
Qed.

Lemma socket_two_part_read_overwrites_witness :
  ∃ st', socket_read 4 [λ st', match socks st' !! 20 with
      | Some s => put_sock st' 20 (set_buffer s [9] 1 1) | None => st' end]
    (mk_net (<[20 := set_buffer (demo_sock 10 0) [1; 2] 2 2]> ∅) ∅ []) 20 3 3 [0; 0; 0] = Ok (3, st', [9; 2; 0]).
Proof.
  apply (socket_two_part_read_overwrites
    (mk_net (<[20 := set_buffer (demo_sock 10 0) [1; 2] 2 2]> ∅) ∅ []) 20
    (set_buffer (demo_sock 10 0) [1; 2] 2 2) 3 [0; 0; 0] [9]); done.
Defined.

(** ** Connections *)

(** For each socket its peer and its queue of waiting clients *)
Definition links (st : net) : gmap Z (Z * list Z) := (λ s, (so_connect s, so_backlog s)) <$> socks st.

(** Connections are symmetric; a client waits in at most one queue, once, unconnected. *)
Record paired (L : gmap Z (Z * list Z)) : Prop := {
  pd_null : L !! 0 = None;
  pd_sym a b q : L !! a = Some (b, q) → b ≠ 0 → ∃ q', L !! b = Some (a, q');
  pd_irr a b q : L !! a = Some (b, q) → b ≠ 0 → a ≠ b;
  pd_live a b q c : L !! a = Some (b, q) → c ∈ q → ∃ q', L !! c = Some (0, q');
  pd_once a b q : L !! a = Some (b, q) → NoDup q;
  pd_single a a' b b' q q' c :
    L !! a = Some (b, q) → L !! a' = Some (b', q') → c ∈ q → c ∈ q' → a = a'
}.

Section pairs.
Implicit Types (L : gmap Z (Z * list Z)) (a b c new : Z) (q : list Z).

Lemma paired_create L new : paired L → L !! new = None → new ≠ 0 → paired (<[new := (0, [])]> L).
Proof.
  intros [Hz Hs Hi Hl Ho Hu] Hf Hn. constructor.
  - by rewrite lookup_insert_ne.
  - intros a b q. rewrite lookup_insert_Some. intros [[_ [= <- _]]|[Ha H]] Hb; [done|].
    destruct (Hs _ _ _ H Hb) as [q' H']. exists q'. rewrite lookup_insert_ne; [done|congruence].
  - intros a b q. rewrite lookup_insert_Some. intros [[_ [= <- _]]|[Ha H]]; [done|by eapply Hi].
  - intros a b q c. rewrite lookup_insert_Some. intros [[_ [= _ <-]]|[Ha H]] Hc; [by apply elem_of_nil in Hc|].
    destruct (Hl _ _ _ _ H Hc) as [q' H']. exists q'. rewrite lookup_insert_ne; [done|congruence].
  - intros a b q. rewrite lookup_insert_Some. intros [[_ [= _ <-]]|[Ha H]]; [constructor|by eapply Ho].
  - intros a a' b b' q q' c. rewrite !lookup_insert_Some.
    intros [[_ [= _ <-]]|[Ha H]] [[_ [= _ <-]]|[Ha' H']] Hc Hc';
      (by apply elem_of_nil in Hc) || (by apply elem_of_nil in Hc') || (by eapply Hu).
Qed.

Lemma paired_queue L a srv b q q0 :
  paired L → L !! srv = Some (b, q) → L !! a = Some (0, q0) →
  (∀ k b' q', L !! k = Some (b', q') → a ∉ q') → paired (<[srv := (b, q ++ [a])]> L).
Proof.
  intros [Hz Hs Hi Hl Ho Hu] Hsrv Ha Hnew.
  assert (Hk : ∀ k b' q', L !! k = Some (b', q') → ∃ q'', <[srv := (b, q ++ [a])]> L !! k = Some (b', q'')).
  { intros k b' q' H. destruct (decide (srv = k)) as [<-|]; [|by exists q'; rewrite lookup_insert_ne].
    rewrite Hsrv in H. injection H as <- <-. eexists. apply lookup_insert_eq. }
  constructor.
  - rewrite lookup_insert_ne; [done|congruence].
  - intros k p r. rewrite lookup_insert_Some. intros [[<- [= <- _]]|[_ H]] Hp.
    + destruct (Hs _ _ _ Hsrv Hp) as [q' H']. by eapply Hk.
    + destruct (Hs _ _ _ H Hp) as [q' H']. by eapply Hk.
  - intros k p r. rewrite lookup_insert_Some. intros [[<- [= <- _]]|[_ H]]; by eapply Hi.
  - intros k p r c. rewrite lookup_insert_Some. intros [[<- [= _ <-]]|[_ H]] Hc.
    + apply elem_of_app in Hc as [Hc|Hc%list_elem_of_singleton].
      * destruct (Hl _ _ _ _ Hsrv Hc) as [q' H']. by eapply Hk.
      * subst c. by eapply Hk.
    + destruct (Hl _ _ _ _ H Hc) as [q' H']. by eapply Hk.
  - intros k p r. rewrite lookup_insert_Some. intros [[<- [= _ <-]]|[_ H]]; [|by eapply Ho].
    apply NoDup_app. split; [by eapply Ho|]. split; [|apply NoDup_singleton].
    intros c Hc Hca%list_elem_of_singleton. subst c. by apply (Hnew _ _ _ Hsrv).
  - intros k k' p p' r r' c. rewrite !lookup_insert_Some.
    intros [[<- [= _ <-]]|[Hne H]] [[<- [= _ <-]]|[Hne' H']] Hc Hc'; [done| | |by eapply Hu].
    + apply elem_of_app in Hc as [Hc|Hc%list_elem_of_singleton]; [by eapply Hu|].
      subst c. by destruct (Hnew _ _ _ H').
    + apply elem_of_app in Hc' as [Hc'|Hc'%list_elem_of_singleton]; [by eapply Hu|].
      subst c. by destruct (Hnew _ _ _ H).
Qed.

(** Disconnecting both ends *)
Lemma paired_close L a b q q' :
  paired L → L !! a = Some (b, q) → b ≠ 0 → L !! b = Some (a, q') → a ≠ b →
  paired (<[b := (0, q')]> (<[a := (0, q)]> L)).
Proof.
  intros [Hz Hs Hi Hl Ho Hu] Ha Hb0 Hb Hab.
  assert (Ha0 : a ≠ 0) by congruence.
  set (L' := <[b := _]> _).
  assert (Hq : ∀ k p r, L' !! k = Some (p, r) → ∃ p', L !! k = Some (p', r) ∧ (p = p' ∨ p = 0) ∧
    (p ≠ 0 → k ≠ a ∧ k ≠ b)).
  { intros k p r. unfold L'. rewrite !lookup_insert_Some.
    intros [[<- [= <- <-]]|[Hkb [[<- [= <- <-]]|[Hka H]]]].
    - eexists. split; [done|]. split; [by right|done].
    - eexists. split; [done|]. split; [by right|done].
    - exists p. split; [done|]. split; [by left|]. intros _. split; congruence. }
  assert (Hlk : ∀ k r, L !! k = Some (0, r) → L' !! k = Some (0, r)).
  { intros k r H. unfold L'. destruct (decide (b = k)) as [<-|]; [congruence|].
    rewrite lookup_insert_ne by done. destruct (decide (a = k)) as [<-|]; [congruence|].
    by rewrite lookup_insert_ne. }
  constructor.
  - unfold L'. by rewrite !lookup_insert_ne by congruence.
  - intros k p r H Hp. destruct (Hq _ _ _ H) as (p' & H' & [<-|] & Hne); [|done].
    destruct (Hne Hp) as [Hka Hkb]. destruct (Hs _ _ _ H' Hp) as [r' Hr]. exists r'.
    unfold L'. rewrite !lookup_insert_ne; [done| |]; intros <-; rewrite ?Ha, ?Hb in Hr; congruence.
  - intros k p r H Hp. destruct (Hq _ _ _ H) as (p' & H' & [<-|] & _); [by eapply Hi|done].
  - intros k p r c H Hc. destruct (Hq _ _ _ H) as (p' & H' & _).
    destruct (Hl _ _ _ _ H' Hc) as [r' Hr]. exists r'. by apply Hlk.
  - intros k p r H. destruct (Hq _ _ _ H) as (p' & H' & _). by eapply Ho.
  - intros k k' p p' r r' c H H' Hc Hc'. destruct (Hq _ _ _ H) as (? & H1 & _).
    destruct (Hq _ _ _ H') as (? & H2 & _). by eapply Hu.
Qed.

(** Accepting the first waiting client *)
Lemma paired_accept L a b client rest q new :
  paired L → L !! a = Some (b, client :: rest) → L !! client = Some (0, q) → L !! new = None → new ≠ 0 →
  paired (<[new := (client, [])]>
    (<[client := (new, if decide (client = a) then rest else q)]> (<[a := (b, rest)]> L))).
Proof.
  intros [Hz Hs Hi Hl Ho Hu] Ha Hc Hf Hn.
  assert (Hc0 : client ≠ 0) by congruence. assert (Hcn : client ≠ new) by congruence.
  assert (Han : a ≠ new) by congruence. assert (Ha0 : a ≠ 0) by congruence.
  set (L' := <[new := _]> _).
  (* every entry but the new one keeps its queue (the first client apart) and, the client
     apart, its peer *)
  assert (Hq : ∀ k p r, L' !! k = Some (p, r) → k = new ∧ p = client ∧ r = [] ∨
    ∃ p' r', L !! k = Some (p', r') ∧ k ≠ new ∧ (k = client ∧ p = new ∨ k ≠ client ∧ p = p') ∧
      (k = a ∧ r' = client :: r ∨ k ≠ a ∧ r = r')).
  { intros k p r. unfold L'. rewrite !lookup_insert_Some.
    intros [[<- [= <- <-]]|[Hkn [[<- [= <- <-]]|[Hkc [[<- [= <- <-]]|[Hka H]]]]]]; [by left| | |].
    - right. destruct (decide (client = a)) as [->|].
      + eexists _, _. split; [exact Ha|]. split; [done|]. split; [by left|by left].
      + eexists _, _. split; [exact Hc|]. split; [done|]. split; [by left|by right].
    - right. eexists _, _. split; [exact Ha|]. split; [done|]. split; [right; split; congruence|by left].
    - right. exists p, r. split; [done|]. split; [done|]. split; right; split; congruence. }
  assert (Hkeep : ∀ k p r, L !! k = Some (p, r) → k ≠ client → ∃ r', L' !! k = Some (p, r')).
  { intros k p r H Hkc. unfold L'. rewrite lookup_insert_ne by congruence.
    rewrite lookup_insert_ne by congruence. destruct (decide (a = k)) as [<-|].
    - rewrite Ha in H. injection H as <- <-. eexists. apply lookup_insert_eq.
    - exists r. by rewrite lookup_insert_ne. }
  assert (HLnew : L' !! new = Some (client, [])) by apply lookup_insert_eq.
  assert (HLc : ∃ r, L' !! client = Some (new, r)).
  { eexists. unfold L'. rewrite lookup_insert_ne by congruence. apply lookup_insert_eq. }
  pose proof (Ho _ _ _ Ha) as Hnd. apply NoDup_cons in Hnd as [Hni Hnd].
  constructor.
  - unfold L'. rewrite !lookup_insert_ne by congruence. done.
  - intros k p r H Hp. destruct (Hq _ _ _ H) as [(-> & -> & ->)|(p' & r' & H' & Hkn & [[-> ->]|[Hkc ->]] & _)].
    + done.
    + by eexists.
    + destruct (Hs _ _ _ H' Hp) as [r'' Hr]. eapply Hkeep; [done|]. intros ->. congruence.
  - intros k p r H Hp. destruct (Hq _ _ _ H) as [(-> & -> & ->)|(p' & r' & H' & Hkn & [[-> ->]|[Hkc ->]] & _)];
      [done|done|by eapply Hi].
  - intros k p r c H Hin. destruct (Hq _ _ _ H) as [(-> & -> & ->)|(p' & r' & H' & Hkn & _ & Hr)].
    + by apply elem_of_nil in Hin.
    + assert (Hin' : c ∈ r') by (destruct Hr as [[_ ->]|[_ ->]]; [by right|done]).
      destruct (Hl _ _ _ _ H' Hin') as [q' Hq']. eapply Hkeep; [done|]. intros ->.
      destruct Hr as [[-> ->]|[Hka ->]].
      * rewrite Ha in H'. injection H' as _ ->. done.
      * apply Hka. eapply Hu; [exact H'|exact Ha|done|by left].
  - intros k p r H. destruct (Hq _ _ _ H) as [(-> & -> & ->)|(p' & r' & H' & Hkn & _ & Hr)]; [constructor|].
    apply Ho in H'. destruct Hr as [[_ ->]|[_ ->]]; [by apply NoDup_cons in H' as [_ ?]|done].
  - intros k k' p p' r r' c H H' Hin Hin'.
    destruct (Hq _ _ _ H) as [(-> & -> & ->)|(p1 & r1 & H1 & _ & _ & Hr1)]; [by apply elem_of_nil in Hin|].
    destruct (Hq _ _ _ H') as [(-> & -> & ->)|(p2 & r2 & H2 & _ & _ & Hr2)]; [by apply elem_of_nil in Hin'|].
    eapply Hu; [exact H1|exact H2| |].
    + destruct Hr1 as [[_ ->]|[_ ->]]; [by right|done].
    + destruct Hr2 as [[_ ->]|[_ ->]]; [by right|done].
Qed.
End pairs.

(** What the operations do to the connections *)
Section operations.
Implicit Types (st : net) (a b : Z) (s : socket_t).

Lemma links_put st a s : links (put_sock st a s) = <[a := (so_connect s, so_backlog s)]> (links st).
Proof. unfold links, put_sock. cbn. by rewrite fmap_insert. Qed.

Lemma links_get st a s : get_sock st a = Ok s → links st !! a = Some (so_connect s, so_backlog s).
Proof. unfold get_sock. intros H. inv_ok. unfold links. by rewrite lookup_fmap, H. Qed.

Lemma links_same st a s s' :
  get_sock st a = Ok s → so_connect s' = so_connect s → so_backlog s' = so_backlog s →
  links (put_sock st a s') = links st.
Proof. intros H Hc Hb. rewrite links_put, Hc, Hb. by apply insert_id, links_get. Qed.

Lemma lock_links st a st' : lock_sock st a = Ok st' → links st' = links st.
Proof.
  unfold lock_sock. intros H. inv_ok. destruct (so_locked a0); inv_ok. by eapply links_same.
Qed.

Lemma unlock_links st a st' : unlock_sock st a = Ok st' → links st' = links st.
Proof. unfold unlock_sock. intros H. inv_ok. by eapply links_same. Qed.

Lemma read_chunk_links st a n out st' out' :
  read_chunk st a n out = Ok (st', out') → links st' = links st.
Proof.
  unfold read_chunk. intros H. apply bind_ok_inv in H as (st1 & H1 & H).
  apply bind_ok_inv in H as (s & Hs & H). destruct (_ <? n); [done|]. cbn zeta in H.
  destruct (_ <? _); [done|]. apply bind_ok_inv in H as (st2 & H2 & H). injection H as <- _.
  apply unlock_links in H2. rewrite H2, <- (lock_links _ _ _ H1). by eapply links_same.
Qed.

Lemma read_loop_links fuel st a size nb left out st' left' out' :
  read_loop fuel [] st a size nb left out = Ok (st', left', out') → links st' = links st.
Proof.
  revert st left out. induction fuel as [|fuel IH]; intros st left out H; [done|]. cbn [read_loop] in H.
  destruct (left =? 0); [by injection H as <- _ _|]. apply bind_ok_inv in H as (s & Hs & H).
  destruct (so_available s =? 0).
  - destruct nb; [by injection H as <- _ _|done].
  - cbn zeta in H. apply bind_ok_inv in H as ([st1 out1] & Hr & H). apply IH in H. rewrite H.
    by eapply read_chunk_links.
Qed.

Lemma make_room_links st b nb junk go st' sl :
  make_room [] st b nb junk = Ok (go, st', sl) → links st' = links st ∧ sl = [].
Proof.
  unfold make_room. intros H. apply bind_ok_inv in H as (c & Hc & H). destruct (_ <=? so_available c).
  - apply bind_ok_inv in H as ([[go1 st1] sl1] & Hw & H). cbn [wait_space] in Hw.
    rewrite Hc, bind_ok in Hw. destruct (_ <=? _); [destruct nb; [|done]|]; injection Hw as <- <- <-.
    + by injection H as _ <- <-.
    + rewrite Hc, bind_ok in H. injection H as _ <- <-. split; [by eapply links_same|done].
  - by injection H as _ <- <-.
Qed.

Lemma write_loop_links fuel st b nb data junk tw ok st' :
  write_loop fuel [] st b nb data junk tw = Ok (ok, st') → links st' = links st.
Proof.
  revert st tw. induction fuel as [|fuel IH]; intros st tw H; [done|]. cbn [write_loop] in H.
  destruct (tw =? 0); [by injection H as _ <-|]. apply bind_ok_inv in H as ([[go st1] sl] & Hm & H).
  apply make_room_links in Hm as [Hl ->]. destruct go; [|by injection H as _ <-].
  apply bind_ok_inv in H as (c & Hc & H). cbn zeta in H. apply bind_ok_inv in H as (c' & Happ & H).
  apply IH in H. rewrite H, <- Hl. change (links (put_sock st1 b c') = links st1).
  unfold append_chunk in Happ. destruct (_ || _); [done|]. injection Happ as <-. by eapply links_same.
Qed.
End operations.

(** A process's steps on sockets; a blocked call appears as the steps around its sleep. *)
Inductive sock_step : net → net → Prop :=
| step_create st st' domain type new junk :
    socks st !! new = None → new ≠ 0 → k_fs_socket_create st domain type new junk = Some st' →
    sock_step st st'
| step_bind st a path r st' : k_fs_socket_bind st a path = Ok (r, st') → sock_step st st'
| step_listen st a r st' : k_fs_socket_listen st a = Ok (r, st') → sock_step st st'
| step_connect st a path r st' :
    (* a client that does not wait in a queue already *)
    (∀ k s, socks st !! k = Some s → a ∉ so_backlog s) →
    connect_queue st a path = Ok (r, st') → sock_step st st'
| step_accept st a new junk r st' :
    socks st !! new = None → new ≠ 0 →
    k_fs_socket_accept [] st a new junk = Ok (r, st') → sock_step st st'
| step_close st a st' : socket_close st a = Ok st' → sock_step st st'
| step_read fuel st a mode size out r st' out' :
    socket_read fuel [] st a mode size out = Ok (r, st', out') → sock_step st st'
| step_write fuel st a mode data junk r st' :
    socket_write fuel [] st a mode data junk = Ok (r, st') → sock_step st st'.

Lemma links_none st a : socks st !! a = None → links st !! a = None.
Proof. intros H. unfold links. by rewrite lookup_fmap, H. Qed.

Lemma connect_step st a path r st' :
  paired (links st) → (∀ k s, socks st !! k = Some s → a ∉ so_backlog s) →
  connect_queue st a path = Ok (r, st') → paired (links st').
Proof.
  intros Hp Hnew H. unfold connect_queue in H. apply bind_ok_inv in H as (s & Hs & H).
  destruct (truthy (so_connect s)) eqn:Hc; [by injection H as _ <-|].
  destruct (so_domain s =? AF_LOCAL); [|by injection H as _ <-].
  destruct (names st !! path) as [srv|]; [|by injection H as _ <-].
  apply bind_ok_inv in H as (server & Hsrv & H).
  destruct (so_listening server =? 0); [by injection H as _ <-|]. cbn zeta in H.
  apply bind_ok_inv in H as (server1 & Hsrv1 & H). injection H as _ <-.
  apply truthy_false in Hc. pose proof (links_get _ _ _ Hs) as Hla. rewrite Hc in Hla.
  change (paired (links (put_sock (put_sock st a (set_addr s (Some path))) srv
    (set_backlog server1 (so_backlog server1 ++ [a]))))).
  set (st1 := put_sock st a _) in *.
  assert (Hl1 : links st1 = links st) by (by eapply links_same).
  rewrite links_put, Hl1. apply links_get in Hsrv1. rewrite Hl1 in Hsrv1.
  eapply paired_queue; [done|exact Hsrv1|exact Hla|].
  intros k p q Hk. unfold links in Hk. rewrite lookup_fmap in Hk.
  destruct (socks st !! k) as [sk|] eqn:Hsk; [|done]. injection Hk as _ <-. by eapply Hnew.
Qed.

Lemma accept_step st a new junk r st' :
  paired (links st) → socks st !! new = None → new ≠ 0 →
  k_fs_socket_accept [] st a new junk = Ok (r, st') → paired (links st').
Proof.
  intros Hp Hf Hn H. unfold k_fs_socket_accept in H. apply bind_ok_inv in H as (s & Hs & H).
  destruct (so_domain s =? AF_LOCAL); [|by injection H as _ <-].
  apply bind_ok_inv in H as ([ok st1] & Hw & H). cbn [wait_backlog] in Hw. rewrite Hs, bind_ok in Hw.
  destruct (length (so_backlog s) =? 0)%nat; [destruct (truthy _); [|done]|]; injection Hw as <- <-;
    [by injection H as _ <-|].
  rewrite Hs, bind_ok in H. apply bind_ok_inv in H as (client & Hcl & H).
  apply of_option_ok in Hcl. cbn zeta in H.
  destruct (so_backlog s) as [|c0 rest] eqn:Hbl; [done|]. cbn in Hcl. injection Hcl as ->.
  apply bind_ok_inv in H as (st3 & H3 & H). apply of_option_ok in H3.
  apply bind_ok_inv in H as (c & Hc & H).
  apply bind_ok_inv in H as (n & Hnn & H). apply bind_ok_inv in H as (c4 & Hc4 & H).
  injection H as _ <-. unfold k_fs_socket_create in H3. destruct (negb _); [done|]. injection H3 as <-.
  pose proof (links_get _ _ _ Hs) as Hla. rewrite Hbl in Hla.
  destruct (pd_live _ Hp _ _ _ client Hla) as [q Hq]; [by left|].
  assert (Hcn : client ≠ new) by (apply links_none in Hf; congruence).
  assert (Han : a ≠ new) by (apply links_none in Hf; congruence).
  change (paired (links (put_sock (put_sock (put_sock (put_sock st a (set_backlog s rest)) new
    (mk_sock None false 0 (if truthy (Z.land (so_type s) SOCK_NONBLOCK) then Z.lor 3 O_NOBLOCK else 3)
       (so_domain s) (so_type s) 0 [] (take (Z.to_nat SOCKET_INIT_BUFFER_SIZE) junk) SOCKET_INIT_BUFFER_SIZE 0 false))
    client (set_connect c new)) new (set_addr (set_connect n client) (so_addr c4))))).
  assert (Hnb : so_backlog n = []).
  { apply links_get in Hnn. rewrite !links_put, lookup_insert_ne, lookup_insert_eq in Hnn by done.
    by injection Hnn as _ <-. }
  assert (Hcb : so_backlog c = if decide (client = a) then rest else q).
  { apply links_get in Hc. rewrite !links_put, lookup_insert_ne in Hc by done. cbn in Hc.
    destruct (decide (client = a)) as [->|Hca].
    - rewrite lookup_insert_eq in Hc. by injection Hc.
    - rewrite lookup_insert_ne in Hc by done. rewrite Hq in Hc. by injection Hc. }
  rewrite !links_put. cbn [so_connect so_backlog set_connect set_backlog set_addr tail].
  rewrite Hnb, Hcb, insert_insert_ne, insert_insert_eq, insert_insert_ne by done.
  apply paired_accept; [done|done|done|by apply links_none|done].
Qed.

Lemma close_step st a st' : paired (links st) → socket_close st a = Ok st' → paired (links st').
Proof.
  intros Hp H. unfold socket_close in H. apply bind_ok_inv in H as (s & Hs & H).
  destruct (so_connect s =? 0) eqn:Hc; [by injection H as <-|]. breflect. cbn zeta in H.
  apply bind_ok_inv in H as (o & Ho & H). injection H as <-.
  pose proof (links_get _ _ _ Hs) as Ha. destruct (pd_sym _ Hp _ _ _ Ha Hc) as [q' Hb].
  pose proof (pd_irr _ Hp _ _ _ Ha Hc) as Hne.
  apply links_get in Ho. rewrite links_put, lookup_insert_ne, Hb in Ho by done. injection Ho as _ Hq.
  rewrite !links_put. cbn [so_connect so_backlog set_connect]. rewrite <- Hq.
  by apply paired_close.
Qed.

Lemma sock_step_paired st st' : sock_step st st' → paired (links st) → paired (links st').
Proof.
  intros [st0 st1 domain type new junk Hf Hn H|st0 a path r st1 H|st0 a r st1 H|st0 a path r st1 Hnew H
    |st0 a new junk r st1 Hf Hn H|st0 a st1 H|fuel st0 a mode size out r st1 out' H
    |fuel st0 a mode data junk r st1 H] Hp.
  - unfold k_fs_socket_create in H. destruct (negb _); [done|]. injection H as <-. rewrite links_put.
    apply paired_create; [done|by apply links_none|done].
  - unfold k_fs_socket_bind in H. apply bind_ok_inv in H as (s & Hs & H). destruct (so_bind s); [by injection H as _ <-|].
    destruct (_ =? _); injection H as _ <-; [|done].
    change (paired (links (put_sock st0 a (set_bind (set_addr s (Some path)) true)))).
    by rewrite (links_same _ _ _ _ Hs).
  - unfold k_fs_socket_listen in H. apply bind_ok_inv in H as (s & Hs & H). injection H as _ <-.
    by rewrite (links_same _ _ _ _ Hs).
  - by eapply connect_step.
  - by eapply accept_step.
  - by eapply close_step.
  - unfold socket_read in H. apply bind_ok_inv in H as ([[st2 dl] o1] & Hr & H). injection H as _ <- _.
    apply read_loop_links in Hr. change (paired (links st2)). by rewrite Hr.
  - unfold socket_write in H. apply bind_ok_inv in H as (s & Hs & H). destruct (negb _); [by injection H as _ <-|].
    destruct (so_connect s =? 0); [by injection H as _ <-|]. cbn zeta in H.
    apply bind_ok_inv in H as (st2 & Hl & H). apply lock_links in Hl.
    apply bind_ok_inv in H as ([ok st3] & Hw & H). apply write_loop_links in Hw. destruct ok.
    + apply bind_ok_inv in H as (st4 & Hu & H). injection H as _ <-. apply unlock_links in Hu.
      by rewrite Hu, Hw, Hl.
    + injection H as _ <-. change (paired (links st3)). by rewrite Hw, Hl.
Qed.

(** C26: connections are pairs in every state the processes can reach, as long as no client
    asks for a connection while one of its requests is still waiting: the peer of a
    connected socket is a live, different socket connected back to it, and every client
    waiting to be accepted is live, unconnected and waits once. *)
Theorem connections_paired st st' :
  paired (links st) → rtc sock_step st st' →
  (∀ a s, socks st' !! a = Some s → so_connect s ≠ 0 →
    ∃ s', socks st' !! so_connect s = Some s' ∧ so_connect s' = a ∧ so_connect s ≠ a) ∧
  (∀ a s c, socks st' !! a = Some s → c ∈ so_backlog s →
    ∃ cs, socks st' !! c = Some cs ∧ so_connect cs = 0) ∧
  (∀ a s, socks st' !! a = Some s → NoDup (so_backlog s)).
Proof.
  intros Hp Hr. assert (H : paired (links st')).
  { induction Hr as [|x y z Hs _ IH]; [done|]. apply IH. by eapply sock_step_paired. }
  assert (Hl : ∀ a s, socks st' !! a = Some s → links st' !! a = Some (so_connect s, so_backlog s)).
  { intros a s Ha. unfold links. by rewrite lookup_fmap, Ha. }
  assert (Hb : ∀ a b q, links st' !! a = Some (b, q) → ∃ s, socks st' !! a = Some s ∧ so_connect s = b).
  { intros a b q Ha. unfold links in Ha. rewrite lookup_fmap in Ha.
    destruct (socks st' !! a) as [s|]; [|done]. exists s. by injection Ha as <- _. }
  split; [|split].
  - intros a s Ha Hc. apply Hl in Ha. destruct (pd_sym _ H _ _ _ Ha Hc) as [q' Hq].
    destruct (Hb _ _ _ Hq) as (s' & Hs' & He). exists s'. split; [done|]. split; [done|].
    intros Heq. by apply (pd_irr _ H _ _ _ Ha Hc).
  - intros a s c Ha Hc. apply Hl in Ha. destruct (pd_live _ H _ _ _ c Ha Hc) as [q' Hq].
    destruct (Hb _ _ _ Hq) as (cs & Hcs & He). by exists cs.
  - intros a s Ha. apply Hl in Ha. by eapply (pd_once _ H).
Qed.

Lemma paired_empty : paired ∅.
Proof. constructor; intros *; rewrite ?lookup_empty; done. Qed.

(** A listening server at the path "/" and a client *)
Definition demo_server : net :=
  mk_net (<[10 := set_listening (demo_sock 0 0) 1]> (<[20 := demo_sock 0 0]> ∅)) (<[[47] := 10]> ∅) [].

Lemma demo_server_paired : paired (links demo_server).
Proof.
  unfold links, demo_server. cbn [socks]. rewrite !fmap_insert, fmap_empty. cbn.
  apply paired_create; [|by rewrite lookup_insert_ne|done]. by apply paired_create; [apply paired_empty| |].
Qed.

(** The client asks, the server accepts. *)
Lemma connections_paired_witness :
  ∃ st', rtc sock_step demo_server st' ∧
    (so_connect <$> socks st' !! 20) = Some 30 ∧ (so_connect <$> socks st' !! 30) = Some 20 ∧
    ∀ a s, socks st' !! a = Some s → NoDup (so_backlog s).
Proof.
  assert (Hr : ∃ st', rtc sock_step demo_server st' ∧
    (so_connect <$> socks st' !! 20) = Some 30 ∧ (so_connect <$> socks st' !! 30) = Some 20).
  { eexists. split.
    - eapply rtc_l.
      { eapply (step_connect _ 20 [47]); [|reflexivity]. intros k s H. unfold demo_server in H. cbn [socks] in H.
        apply lookup_insert_Some in H as [[<- <-]|[_ H]]; [by apply not_elem_of_nil|].
        apply lookup_insert_Some in H as [[<- <-]|[_ H]]; [by apply not_elem_of_nil|]. done. }
      eapply rtc_l; [eapply (step_accept _ 10 30 []); [done|done|reflexivity]|]. apply rtc_refl.
    - split; reflexivity. }
  destruct Hr as (st' & Hr & H1 & H2). exists st'. split; [exact Hr|]. split; [exact H1|].
  split; [exact H2|]. by destruct (connections_paired _ _ demo_server_paired Hr) as (_ & _ & H).
Defined.

(** A non-blocking client that asks again before it is accepted breaks the pairing: it
    waits twice, both requests are accepted, and afterwards two sockets are connected to
    the client, which is connected to the second only. *)
Theorem socket_connect_twice :
  ∃ st1 st2 st3 st4 s,
    s = mk_net (<[10 := set_listening (demo_sock 0 0) 1]>
          (<[20 := mk_sock None false 0 67 AF_LOCAL SOCK_NONBLOCK 0 [] [] 0 0 false]> ∅)) (<[[47] := 10]> ∅) [] ∧
    k_fs_socket_connect [] s 20 [47] = Ok (- EAGAIN, st1) ∧
    k_fs_socket_connect [] st1 20 [47] = Ok (- EAGAIN, st2) ∧
    k_fs_socket_accept [] st2 10 30 [] = Ok (0, st3) ∧ k_fs_socket_accept [] st3 10 40 [] = Ok (0, st4) ∧
    (so_connect <$> socks st4 !! 30) = Some 20 ∧ (so_connect <$> socks st4 !! 40) = Some 20 ∧
    (so_connect <$> socks st4 !! 20) = Some 40.
Proof.
  do 5 eexists. split; [reflexivity|]. split; [vm_compute; reflexivity|]. split; [vm_compute; reflexivity|].
  split; [vm_compute; reflexivity|]. split; [vm_compute; reflexivity|].
  split; [vm_compute; reflexivity|]. split; vm_compute; reflexivity.
Qed.
