(* ===== verification/Tree.v ===== *)
(** * types/src/tree.c: trees of nodes

    The nodes live in a heap; a tree knows its root and the list of all its nodes, a node
    knows its tree, its parent and its children.  0 is NULL.  Lists are the sequences that
    [list_t] stands for (TypesList). *)

From S2P Require Import Prelude.
From S2P Require Import TypesList.

Record tree_node := mk_tree_node {
  tnd_tree : Z;
  tnd_parent : Z;
  tnd_children : list Z;
  tnd_value : Z
}.

Record tree := mk_tree {
  tr_id : Z;
  tr_root : Z;
  tr_nodes : list Z;
  tr_heap : gmap Z tree_node
}.

Definition tree_get (t : tree) (n : Z) : res tree_node := of_option (tr_heap t !! n).
Definition tree_put (t : tree) (n : Z) (x : tree_node) : tree :=
  mk_tree (tr_id t) (tr_root t) (tr_nodes t) (<[n := x]> (tr_heap t)).
Definition with_nodes (t : tree) (l : list Z) : tree := mk_tree (tr_id t) (tr_root t) l (tr_heap t).
Definition with_children (x : tree_node) (l : list Z) : tree_node :=
  mk_tree_node (tnd_tree x) (tnd_parent x) l (tnd_value x).

Definition tree_create (id : Z) : tree := mk_tree id 0 [] ∅.

(** [new]: the address [calloc] gives *)
Definition tree_create_node (t : tree) (new value : Z) : tree :=
  tree_put t new (mk_tree_node 0 0 [] value).

Definition tree_contains_node (t : tree) (n : Z) : res bool :=
  x ← tree_get t n; Ok (tnd_tree x =? tr_id t).

Definition tree_insert_node (t : tree) (n parent : Z) : res tree :=
  c ← tree_contains_node t n;
  if c : bool then Ok t
  else
    x ← tree_get t n;
    let t1 := tree_put (with_nodes t (tr_nodes t ++ [n])) n
      (mk_tree_node (tr_id t) (if truthy parent then parent else tnd_parent x) (tnd_children x) (tnd_value x)) in
    if truthy parent then
      p ← tree_get t1 parent; Ok (tree_put t1 parent (with_children p (tnd_children p ++ [n])))
    else Ok t1.

Definition tree_set_root (t : tree) (n : Z) : res tree :=
  t1 ← tree_insert_node t n 0; Ok (mk_tree (tr_id t1) n (tr_nodes t1) (tr_heap t1)).

(** The node keeps its [tree] and its [parent]. *)
Definition tree_remove_node (t : tree) (n : Z) : res tree :=
  c ← tree_contains_node t n;
  if negb c then Ok t
  else
    x ← tree_get t n;
    t1 ← (if truthy (tnd_parent x) then
        p ← tree_get t (tnd_parent x);
        Ok (tree_put t (tnd_parent x) (with_children p (remove_first n (tnd_children p))))
      else Ok t);
    Ok (with_nodes t1 (remove_first n (tr_nodes t1))).

Definition tree_free_node (t : tree) (n : Z) : res tree :=
  _ ← tree_get t n; Ok (mk_tree (tr_id t) (tr_root t) (tr_nodes t) (delete n (tr_heap t))).

(** [tree->nodes[i].data] takes the list for an array of lists: for [i] = 0 the array of
    node pointers is freed as if it were a node, for [i] = 1 the memory behind the list is
    read.  With any node in the tree this leaves the objects it is given. *)
Definition tree_free (t : tree) : res unit :=
  match tr_nodes t with
  | [] => Ok ()
  | _ :: _ => Fault
  end.

(** ** The shape of a tree *)

(** Every listed node is live and belongs to the tree; nodes and children are listed once;
    a child is a listed node and names its parent; a listed node with a parent is one of
    its children. *)
Record tree_ok (t : tree) : Prop := {
  ok_live : ∀ n, n ∈ tr_nodes t → n ≠ 0 ∧ ∃ x, tr_heap t !! n = Some x ∧ tnd_tree x = tr_id t;
  ok_nodup : NoDup (tr_nodes t);
  ok_children : ∀ n x, n ∈ tr_nodes t → tr_heap t !! n = Some x → NoDup (tnd_children x) ∧
    ∀ c, c ∈ tnd_children x → c ∈ tr_nodes t ∧ ∃ y, tr_heap t !! c = Some y ∧ tnd_parent y = n;
  ok_parent : ∀ n x, n ∈ tr_nodes t → tr_heap t !! n = Some x → tnd_parent x ≠ 0 →
    tnd_parent x ∈ tr_nodes t ∧ ∃ p, tr_heap t !! tnd_parent x = Some p ∧ n ∈ tnd_children p;
  ok_id : tr_id t ≠ 0
}.

Section trees.
Implicit Types (t : tree) (n c : Z) (x p : tree_node).

(** Inserting a new node without children under a node of the tree *)
Lemma insert_node_eq t n parent p v :
  tr_id t ≠ 0 → parent ≠ 0 → parent ≠ n → tr_heap t !! parent = Some p → tr_heap t !! n = Some (mk_tree_node 0 0 [] v) →
  tree_insert_node t n parent =
  Ok (mk_tree (tr_id t) (tr_root t) (tr_nodes t ++ [n])
        (<[parent := with_children p (tnd_children p ++ [n])]>
           (<[n := mk_tree_node (tr_id t) parent [] v]> (tr_heap t)))).
Proof.
  intros Hid Hp Hne Hpp Hn. unfold tree_insert_node, tree_contains_node, tree_get. rewrite Hn. cbn [of_option tnd_tree].
  rewrite !bind_ok, (proj2 (Z.eqb_neq 0 _)) by done. cbv iota. rewrite ?bind_ok.
  rewrite (proj2 (truthy_true parent)) by done. cbn [tree_put with_nodes tr_heap tnd_children tnd_value].
  rewrite lookup_insert_ne, Hpp by done. done.
Qed.

(** What a heap looks like after the insertion *)
Lemma inserted_lookup t n parent p v c x :
  parent ≠ n → tr_heap t !! parent = Some p →
  <[parent := with_children p (tnd_children p ++ [n])]>
    (<[n := mk_tree_node (tr_id t) parent [] v]> (tr_heap t)) !! c = Some x →
  (c = n ∧ x = mk_tree_node (tr_id t) parent [] v) ∨
  (c ≠ n ∧ ∃ x0, tr_heap t !! c = Some x0 ∧ tnd_tree x = tnd_tree x0 ∧ tnd_parent x = tnd_parent x0 ∧
     tnd_children x = if bool_decide (c = parent) then tnd_children x0 ++ [n] else tnd_children x0).
Proof.
  intros Hne Hp. rewrite !lookup_insert_Some. intros [[<- <-]|[Hcp [[<- <-]|[Hcn Hc]]]]; [|by left|].
  - right. split; [done|]. exists p. by rewrite bool_decide_eq_true_2.
  - right. split; [done|]. exists x. by rewrite bool_decide_eq_false_2.
Qed.

Lemma inserted_keeps t n parent p v c x0 :
  parent ≠ n → tr_heap t !! parent = Some p → c ≠ n → tr_heap t !! c = Some x0 →
  ∃ x, <[parent := with_children p (tnd_children p ++ [n])]>
    (<[n := mk_tree_node (tr_id t) parent [] v]> (tr_heap t)) !! c = Some x ∧
    tnd_tree x = tnd_tree x0 ∧ tnd_parent x = tnd_parent x0 ∧ tnd_value x = tnd_value x0 ∧
    tnd_children x = if bool_decide (c = parent) then tnd_children x0 ++ [n] else tnd_children x0.
Proof.
  intros Hne Hp Hcn Hc. destruct (decide (c = parent)) as [->|Hcp].
  - rewrite lookup_insert_eq. eexists. split; [done|]. replace x0 with p by congruence.
    by rewrite bool_decide_eq_true_2.
  - rewrite !lookup_insert_ne by done. exists x0. by rewrite bool_decide_eq_false_2.
Qed.

Lemma insert_node_ok t n parent p v :
  tree_ok t → n ∉ tr_nodes t → n ≠ 0 → parent ∈ tr_nodes t → tr_heap t !! parent = Some p →
  tr_heap t !! n = Some (mk_tree_node 0 0 [] v) →
  ∃ t', tree_insert_node t n parent = Ok t' ∧ tree_ok t' ∧ tr_nodes t' = tr_nodes t ++ [n].
Proof.
  intros Ht Hn Hn0 Hpar Hp Hnx. destruct (ok_live _ Ht _ Hpar) as [Hp0 _]. assert (Hne : parent ≠ n) by congruence.
  eexists. split; [apply (insert_node_eq t n parent p v); try done; apply (ok_id _ Ht)|].
  split; [|done].
  assert (Hold : ∀ c, c ∈ tr_nodes t → c ≠ n) by congruence.
  assert (Hback : ∀ c, c ≠ n → c ∈ tr_nodes t ++ [n] → c ∈ tr_nodes t) by set_solver.
  split; cbn [tr_nodes tr_heap tr_id].
  - intros c [Hc|Hc]%elem_of_app.
    + destruct (ok_live _ Ht _ Hc) as (? & x0 & Hx0 & He). split; [done|].
      destruct (inserted_keeps t n parent p v c x0) as (x & ? & ? & _); [done..|by apply Hold|done|]. exists x. split; [done|congruence].
    + apply list_elem_of_singleton in Hc as ->. split; [done|]. rewrite lookup_insert_ne, lookup_insert_eq by done. eauto.
  - apply NoDup_app. split; [apply (ok_nodup _ Ht)|]. split; [|apply NoDup_singleton]. set_solver.
  - intros c x Hc Hx. apply inserted_lookup in Hx as [[-> ->]|(Hcn & x0 & Hx0 & _ & _ & ->)]; [| |done..].
    + split; [constructor|]. set_solver.
    + destruct (ok_children _ Ht c x0 (Hback _ Hcn Hc) Hx0) as [Hnd Hch]. split.
      * case_bool_decide; [|done]. apply NoDup_app. split; [done|]. split; [|apply NoDup_singleton].
        intros y Hy ->%list_elem_of_singleton. by destruct (Hch _ Hy).
      * intros y Hy. destruct (decide (y = n)) as [->|Hyn].
        { split; [set_solver|]. rewrite lookup_insert_ne, lookup_insert_eq by done. eexists. split; [done|].
          case_bool_decide; [done|]. by destruct (Hch _ Hy). }
        assert (Hy0 : y ∈ tnd_children x0) by (case_bool_decide; set_solver). destruct (Hch _ Hy0) as (? & z & Hz & ?).
        split; [set_solver|]. destruct (inserted_keeps t n parent p v y z) as (z' & ? & _ & ? & _); [done..|]. exists z'. split; [done|congruence].
  - intros c x Hc Hx. apply inserted_lookup in Hx as [[-> ->]|(Hcn & x0 & Hx0 & _ & -> & _)]; [| |done..].
    + intros _. split; [set_solver|]. cbn [tnd_parent]. rewrite lookup_insert_eq. eexists. split; [done|]. cbn. set_solver.
    + intros Hpc. destruct (ok_parent _ Ht c x0 (Hback _ Hcn Hc) Hx0 Hpc) as (Hin & q & Hq & Hcq). split; [set_solver|].
      destruct (inserted_keeps t n parent p v _ q Hne Hp (Hold _ Hin) Hq) as (q' & ? & _ & _ & _ & Hq'). exists q'.
      split; [done|]. rewrite Hq'. case_bool_decide; set_solver.
  - apply (ok_id _ Ht).
Qed.
(** A node that is not in the tree can have any value. *)
Lemma put_outside_ok t n x : tree_ok t → n ∉ tr_nodes t → tree_ok (tree_put t n x).
Proof.
  intros Ht Hn. assert (Hl : ∀ c, c ∈ tr_nodes t → tr_heap (tree_put t n x) !! c = tr_heap t !! c).
  { intros c Hc. cbn. by rewrite lookup_insert_ne by congruence. }
  split; cbn [tree_put tr_nodes tr_id]; fold (tree_put t n x).
  - intros c Hc. rewrite Hl by done. by apply (ok_live _ Ht).
  - apply (ok_nodup _ Ht).
  - intros c y Hc. rewrite Hl by done. intros Hy. destruct (ok_children _ Ht c y Hc Hy) as [? Hch]. split; [done|].
    intros d Hd. destruct (Hch d Hd) as [Hin ?]. split; [done|]. by rewrite Hl.
  - intros c y Hc. rewrite Hl by done. intros Hy Hp. destruct (ok_parent _ Ht c y Hc Hy Hp) as [Hin ?]. split; [done|].
    by rewrite Hl.
  - apply (ok_id _ Ht).
Qed.

(** Removing a node that has no children *)
Lemma remove_node_eq t n x p :
  tnd_tree x = tr_id t → tr_heap t !! n = Some x → tnd_parent x ≠ 0 → tr_heap t !! tnd_parent x = Some p →
  tree_remove_node t n =
  Ok (mk_tree (tr_id t) (tr_root t) (remove_first n (tr_nodes t))
        (<[tnd_parent x := with_children p (remove_first n (tnd_children p))]> (tr_heap t))).
Proof.
  intros Hx Hn Hp0 Hp. unfold tree_remove_node, tree_contains_node, tree_get. rewrite Hn. cbn [of_option].
  rewrite !bind_ok, Hx, Z.eqb_refl. cbn [negb]. rewrite (proj2 (truthy_true _)), Hp by done. done.
Qed.

Lemma removed_lookup t q n p c x :
  tr_heap t !! q = Some p →
  <[q := with_children p (remove_first n (tnd_children p))]> (tr_heap t) !! c = Some x →
  ∃ x0, tr_heap t !! c = Some x0 ∧ tnd_tree x = tnd_tree x0 ∧ tnd_parent x = tnd_parent x0 ∧
    tnd_children x = if bool_decide (c = q) then remove_first n (tnd_children x0) else tnd_children x0.
Proof.
  intros Hp. rewrite lookup_insert_Some. intros [[<- <-]|[Hne Hc]].
  - exists p. by rewrite bool_decide_eq_true_2.
  - exists x. by rewrite bool_decide_eq_false_2.
Qed.

Lemma removed_keeps t q n p c x0 :
  tr_heap t !! q = Some p → tr_heap t !! c = Some x0 →
  ∃ x, <[q := with_children p (remove_first n (tnd_children p))]> (tr_heap t) !! c = Some x ∧
    tnd_tree x = tnd_tree x0 ∧ tnd_parent x = tnd_parent x0 ∧
    tnd_children x = if bool_decide (c = q) then remove_first n (tnd_children x0) else tnd_children x0.
Proof.
  intros Hp Hc. destruct (decide (c = q)) as [->|Hne].
  - rewrite lookup_insert_eq. eexists. split; [done|]. replace x0 with p by congruence. by rewrite bool_decide_eq_true_2.
  - rewrite lookup_insert_ne by done. exists x0. by rewrite bool_decide_eq_false_2.
Qed.

Lemma remove_node_ok t n x :
  tree_ok t → n ∈ tr_nodes t → tr_heap t !! n = Some x → tnd_parent x ≠ 0 → tnd_children x = [] →
  ∃ t', tree_remove_node t n = Ok t' ∧ tree_ok t' ∧ tr_nodes t' = remove_first n (tr_nodes t).
Proof.
  intros Ht Hn Hx Hp0 Hleaf. destruct (ok_live _ Ht _ Hn) as (_ & x' & Hx' & Hid). replace x' with x in Hid by congruence.
  destruct (ok_parent _ Ht _ _ Hn Hx Hp0) as (_ & p & Hp & _).
  eexists. split; [by apply (remove_node_eq t n x p)|]. split; [|done].
  pose proof (ok_nodup _ Ht) as Hnd.
  split; cbn [tr_nodes tr_heap tr_id].
  - intros c [Hc Hcn]%remove_first_elem; [|done]. destruct (ok_live _ Ht _ Hc) as (? & x0 & Hx0 & He). split; [done|].
    destruct (removed_keeps t _ n p c x0 Hp Hx0) as (y & ? & ? & _). exists y. split; [done|congruence].
  - by apply remove_first_nodup.
  - intros c y [Hc Hcn]%remove_first_elem Hy; [|done].
    apply removed_lookup in Hy as (y0 & Hy0 & _ & _ & ->); [|done].
    destruct (ok_children _ Ht c y0 Hc Hy0) as [Hnd0 Hch]. split; [case_bool_decide; [by apply remove_first_nodup|done]|].
    assert (Hin : ∀ e, e ∈ (if bool_decide (c = tnd_parent x) then remove_first n (tnd_children y0) else tnd_children y0) →
      e ∈ tnd_children y0 ∧ e ≠ n).
    { intros e. case_bool_decide; [by intros [? ?]%remove_first_elem|]. intros He. split; [done|]. intros ->.
      destruct (Hch _ He) as (_ & z & Hz & Hpz). congruence. }
    intros e [He Hen]%Hin. destruct (Hch _ He) as (Hl & z & Hz & ?). split; [by apply remove_first_elem|].
    destruct (removed_keeps t (tnd_parent x) n p e z Hp Hz) as (z' & ? & _ & ? & _). exists z'. split; [done|congruence].
  - intros c y [Hc Hcn]%remove_first_elem Hy Hpy; [|done].
    apply removed_lookup in Hy as (y0 & Hy0 & _ & He & _); [|done]. rewrite He in *.
    destruct (ok_parent _ Ht c y0 Hc Hy0 Hpy) as (Hin & q & Hq & Hcq).
    assert (Hqn : tnd_parent y0 ≠ n). { intros Heq. rewrite Heq in Hq. replace q with x in Hcq by congruence. rewrite Hleaf in Hcq. set_solver. }
    split; [by apply remove_first_elem|]. destruct (removed_keeps t (tnd_parent x) n p _ q Hp Hq) as (q' & ? & _ & _ & Hq').
    exists q'. split; [done|]. rewrite Hq'. case_bool_decide; [|done]. apply remove_first_elem; [|done].
    by apply (ok_children _ Ht _ _ Hin Hq).
  - apply (ok_id _ Ht).
Qed.
End trees.

(** A tree keeps its shape: inserting a fresh node under a node of the tree and
    removing a node without children both succeed and leave a tree in which nodes,
    children and parents agree, with exactly that node added or removed.  But a removed
    node still names its tree: it can never be inserted again. *)
Theorem tree_shape_kept t n parent p v m x :
  tree_ok t → parent ∈ tr_nodes t → tr_heap t !! parent = Some p →
  n ∉ tr_nodes t → n ≠ 0 → tr_heap t !! n = Some (mk_tree_node 0 0 [] v) →
  m ∈ tr_nodes t → tr_heap t !! m = Some x → tnd_parent x ≠ 0 → tnd_children x = [] →
  (∃ t', tree_insert_node t n parent = Ok t' ∧ tree_ok t' ∧ tr_nodes t' = tr_nodes t ++ [n]) ∧
  (∃ t', tree_remove_node t m = Ok t' ∧ tree_ok t' ∧ tr_nodes t' = remove_first m (tr_nodes t) ∧
         ∀ q, tree_insert_node t' m q = Ok t').
Proof.
  intros Ht Hpar Hp Hn Hn0 Hnx Hm Hx Hp0 Hleaf. split; [by eapply insert_node_ok|].
  destruct (remove_node_ok t m x Ht Hm Hx Hp0 Hleaf) as (t' & He & Ht' & Hl). exists t'.
  split; [done|]. split; [done|]. split; [done|]. intros q. unfold tree_insert_node, tree_contains_node, tree_get.
  destruct (ok_live _ Ht _ Hm) as (_ & x' & Hx' & Hid). replace x' with x in Hid by congruence.
  destruct (ok_parent _ Ht _ _ Hm Hx Hp0) as (_ & pp & Hpp & _).
  rewrite (remove_node_eq t m x pp Hid Hx Hp0 Hpp) in He. injection He as <-. cbn [tr_heap tr_id].
  destruct (removed_keeps t _ m pp m x Hpp Hx) as (y & Hy & Hty & _). rewrite Hy. cbn [of_option].
  by rewrite !bind_ok, Hty, Hid, Z.eqb_refl.
Qed.

(** A root with one child, and a node to insert *)
Definition demo_forest : tree :=
  mk_tree 1 10 [10; 11]
    (list_to_map [(10, mk_tree_node 1 0 [11] 0); (11, mk_tree_node 1 10 [] 0); (12, mk_tree_node 0 0 [] 7)]).

Lemma demo_forest_ok : tree_ok demo_forest.
Proof.
  split.
  - intros n [->|[->|Hn%elem_of_nil]%elem_of_cons]%elem_of_cons; [..|done]; (split; [done|]); by eexists.
  - repeat constructor; set_solver.
  - intros n x [->|[->|Hn%elem_of_nil]%elem_of_cons]%elem_of_cons Hx; [..|done]; injection Hx as <-; cbn [tnd_children].
    + split; [apply NoDup_singleton|]. intros c ->%list_elem_of_singleton. split; [set_solver|]. by eexists.
    + split; [constructor|]. set_solver.
  - intros n x [->|[->|Hn%elem_of_nil]%elem_of_cons]%elem_of_cons Hx Hp; [..|done]; injection Hx as <-; [done|].
    split; [set_solver|]. eexists. split; [done|]. cbn. set_solver.
  - done.
Qed.

Lemma tree_shape_kept_witness :
  (∃ t', tree_insert_node demo_forest 12 10 = Ok t' ∧ tr_nodes t' = [10; 11; 12]) ∧
  (∃ t', tree_remove_node demo_forest 11 = Ok t' ∧ tr_nodes t' = [10]).
Proof.
  destruct (tree_shape_kept demo_forest 12 10 (mk_tree_node 1 0 [11] 0) 7 11 (mk_tree_node 1 10 [] 0))
    as [(t1 & H1 & _ & N1) (t2 & H2 & _ & N2 & _)].
  - exact demo_forest_ok.
  - set_solver.
  - reflexivity.
  - set_solver.
  - done.
  - reflexivity.
  - set_solver.
  - reflexivity.
  - done.
  - reflexivity.
  - split; [exists t1; split; [exact H1|exact N1]|exists t2; split; [exact H2|exact N2]].
Defined.
