(* ===== verification/Path.v ===== *)
(** * kernel/src/util/path.c: paths

    A C string is the list of its characters without the terminating NUL.  A function
    that allocates returns the new string.  Reading in front of a string, or writing
    behind a fixed-size buffer, is a [Fault]. *)

From S2P Require Import Prelude.

Definition SLASH : Z := 47.
Definition DOT : Z := 46.

(** [strcspn(s, "/")] and the text up to the next slash, as [strchrnul] delimits it *)
Fixpoint until_slash (s : list Z) : list Z :=
  match s with
  | [] => []
  | c :: s' => if c =? SLASH then [] else c :: until_slash s'
  end.

(** [path[i]] of a string, the NUL included *)
Definition char_at (s : list Z) (i : Z) : res Z :=
  if (i <? 0) || (Z.of_nat (length s) <? i) then Fault
  else Ok (default 0 (s !! Z.to_nat i)).

Definition k_util_path_strip (p : list Z) : res (list Z) :=
  if bool_decide (p = [SLASH]) then Ok p
  else
    c ← char_at p 0;
    let path := if c =? SLASH then drop 1 p else p in
    c' ← char_at path (Z.of_nat (length path) - 1);
    Ok (if c' =? SLASH then take (length path - 1) path else path).

Definition k_util_path_length (path : list Z) : res Z :=
  if bool_decide (path = [SLASH]) then Ok 0
  else
    s ← k_util_path_strip path;
    Ok (Z.of_nat (length (filter (λ c, c = SLASH) s)) + 1).

(** The loop of [k_util_path_segment]: the position and the number of segments passed.
    Each turn counts [sc] up to [seg]. *)
Fixpoint segment_loop (n : nat) (s : list Z) (iter sc : nat) : nat * nat :=
  match n with
  | O => (iter, sc)
  | S n' =>
      let l := length (until_slash (drop iter s)) in
      if (length s <=? iter + l + 1)%nat then (iter, S sc)
      else segment_loop n' s (iter + l + 1) (S sc)
  end.

(** [None]: NULL *)
Definition k_util_path_segment (path : list Z) (seg : nat) : res (option (list Z)) :=
  s ← k_util_path_strip path;
  let '(iter, sc) := segment_loop seg s 0 0 in
  if negb (sc =? seg)%nat then Ok None
  else Ok (Some (until_slash (drop iter s))).

(** What [k_util_path_canonize] does with one segment: the stack of kept segments *)
Definition canon_push (stack : list (list Z)) (seg : list Z) : list (list Z) :=
  if bool_decide (seg = [DOT]) then stack
  else if bool_decide (seg = [DOT; DOT]) then take (length stack - 1) stack
  else stack ++ [seg].

(** The loop over the segments of a path; a NULL segment is dereferenced by [strcmp]. *)
Fixpoint canon_loop (n i : nat) (path : list Z) (stack : list (list Z)) : res (list (list Z)) :=
  match n with
  | O => Ok stack
  | S n' =>
      o ← k_util_path_segment path i;
      seg ← of_option o;
      canon_loop n' (S i) path (canon_push stack seg)
  end.

(** Append to a buffer of 255 bytes: [strncat(path, s, 255)] *)
Definition append255 (path s : list Z) : res (list Z) :=
  if 255 <=? Z.of_nat (length path + length s) then Fault else Ok (path ++ s).

(** The loop that prints the stack *)
Fixpoint canon_print (path : list Z) (stack : list (list Z)) : res (list Z) :=
  match stack with
  | [] => Ok path
  | seg :: stack' =>
      p1 ← append255 path seg;
      p2 ← (match stack' with [] => Ok p1 | _ => append255 p1 [SLASH] end);
      canon_print p2 stack'
  end.

Definition k_util_path_canonize (root relative : list Z) : res (list Z) :=
  if bool_decide (root = [SLASH]) && bool_decide (relative = []) then Ok root
  else
    stack ← (if bool_decide (relative = []) || negb (bool_decide (head relative = Some SLASH)) then
        n ← k_util_path_length root; canon_loop (Z.to_nat n) 0 root []
      else Ok []);
    stack' ← (if bool_decide (relative = []) then Ok stack
      else n ← k_util_path_length relative; canon_loop (Z.to_nat n) 0 relative stack);
    canon_print [SLASH] stack'.

Definition k_util_path_filename (path : list Z) : res (option (list Z)) :=
  if bool_decide (path = [SLASH]) then Ok (Some path)
  else
    n ← k_util_path_length path;
    if n =? 0 then Ok None else k_util_path_segment path (Z.to_nat (n - 1)).

(** The loop of [k_util_path_folder]: [l] is unsigned, so it only ends at a slash; from
    the first character it goes on in front of the string. *)
Fixpoint folder_loop (l : nat) (fold : list Z) : res (list Z) :=
  c ← char_at fold (Z.of_nat l);
  if c =? SLASH then Ok (take l fold)
  else match l with
  | O => Fault
  | S l' => folder_loop l' fold
  end.

Definition k_util_path_folder (path : list Z) : res (list Z) :=
  if bool_decide (path = [SLASH]) then Ok path
  else match path with
  | [] => Fault
  | _ => folder_loop (length path - 1) path
  end.

Definition k_util_path_join (base append : list Z) : res (list Z) :=
  s1 ← k_util_path_strip base;
  s2 ← k_util_path_strip append;
  Ok (s1 ++ [SLASH] ++ s2).

(** ** Paths as lists of segments *)

Definition good_seg (x : list Z) : Prop := x ≠ [] ∧ SLASH ∉ x.

(** ["a/b/c"] *)
Fixpoint join_slash (l : list (list Z)) : list Z :=
  match l with
  | [] => []
  | [x] => x
  | x :: l' => x ++ SLASH :: join_slash l'
  end.

(** ["/a/b/c"] *)
Definition abs_path (l : list (list Z)) : list Z := SLASH :: join_slash l.

(** The segments that remain, read from the last one on: "." does not count, ".." takes
    back the nearest segment in front of it that is not itself taken back, a ".." with
    nothing in front of it has no effect.  [up] segments are still to be taken back. *)
Fixpoint remaining (up : nat) (rev_segs : list (list Z)) : list (list Z) :=
  match rev_segs with
  | [] => []
  | x :: l =>
      if bool_decide (x = [DOT]) then remaining up l
      else if bool_decide (x = [DOT; DOT]) then remaining (S up) l
      else match up with O => x :: remaining 0 l | S up => remaining up l end
  end.
Definition normalize (l : list (list Z)) : list (list Z) := rev (remaining 0 (rev l)).

Section paths.
Implicit Types (x s : list Z) (l : list (list Z)).

Lemma join_cons x l : l ≠ [] → join_slash (x :: l) = x ++ SLASH :: join_slash l.
Proof. by destruct l. Qed.

Lemma join_nonempty l : l ≠ [] → Forall good_seg l → join_slash l ≠ [].
Proof.
  intros Hl Hg. destruct Hg as [|x l' [Hx _] _]; [done|]. destruct l'; [done|]. rewrite join_cons by done.
  by destruct x.
Qed.

(** A joined path neither starts nor ends with a slash. *)
Lemma join_first l c s : Forall good_seg l → join_slash l = c :: s → c ≠ SLASH.
Proof.
  intros Hg Hj. destruct Hg as [|x l' [Hx Hs] _]; [done|].
  assert (Hc : ∃ s', x = c :: s').
  { destruct l'; [by exists s|]. rewrite join_cons in Hj by done. destruct x as [|c' x']; [done|].
    exists x'. by injection Hj as -> _. }
  destruct Hc as [s' ->]. intros ->. apply Hs. by left.
Qed.

Lemma join_last l : l ≠ [] → Forall good_seg l → ∃ s c, join_slash l = s ++ [c] ∧ c ≠ SLASH.
Proof.
  intros Hl Hg. induction Hg as [|x l' [Hx Hs] Hg IH]; [done|]. destruct l' as [|y l'].
  - destruct x as [|c x' _] using rev_ind; [done|]. exists x', c. split; [done|]. intros ->.
    apply Hs, elem_of_app. right. by left.
  - rewrite join_cons by done. destruct IH as (s & c & -> & Hc); [done|].
    exists (x ++ SLASH :: s), c. split; [by rewrite <- app_assoc|done].
Qed.

Lemma until_slash_seg x s : SLASH ∉ x → until_slash (x ++ SLASH :: s) = x.
Proof.
  induction x as [|c x IH]; intros Hx; [done|]. apply not_elem_of_cons in Hx as [Hc Hx]. cbn.
  rewrite (proj2 (Z.eqb_neq c SLASH)) by done. by rewrite IH.
Qed.

Lemma until_slash_all x : SLASH ∉ x → until_slash x = x.
Proof.
  induction x as [|c x IH]; intros Hx; [done|]. apply not_elem_of_cons in Hx as [Hc Hx]. cbn.
  rewrite (proj2 (Z.eqb_neq c SLASH)) by done. by rewrite IH.
Qed.

Lemma until_slash_join x l : good_seg x → until_slash (join_slash (x :: l)) = x.
Proof.
  intros [_ Hx]. destruct l; [by apply until_slash_all|]. rewrite join_cons by done. by apply until_slash_seg.
Qed.

Lemma char_at_last s c : char_at (s ++ [c]) (Z.of_nat (length (s ++ [c])) - 1) = Ok c.
Proof.
  unfold char_at. rewrite length_app. cbn [length].
  rewrite (proj2 (Z.ltb_ge _ _)), (proj2 (Z.ltb_ge _ _)) by lia. cbn [orb].
  replace (Z.to_nat _) with (length s) by lia. by rewrite list_lookup_middle.
Qed.

Lemma char_at_first c s : char_at (c :: s) 0 = Ok c.
Proof. done. Qed.

Lemma strip_joined l : l ≠ [] → Forall good_seg l →
  k_util_path_strip (join_slash l) = Ok (join_slash l) ∧
  k_util_path_strip (abs_path l) = Ok (join_slash l).
Proof.
  intros Hl Hg. destruct (join_last l Hl Hg) as (s & c & Hj & Hc).
  assert (Hlast : char_at (join_slash l) (Z.of_nat (length (join_slash l)) - 1) = Ok c)
    by (rewrite Hj; apply char_at_last).
  pose proof (join_nonempty l Hl Hg) as Hne. unfold k_util_path_strip, abs_path.
  destruct (join_slash l) as [|c0 s0] eqn:Hcons; [done|].
  pose proof (join_first l c0 s0 Hg Hcons) as Hc0. split.
  - rewrite bool_decide_eq_false_2 by congruence.
    rewrite char_at_first, bind_ok, (proj2 (Z.eqb_neq c0 SLASH)) by done.
    rewrite Hlast, bind_ok, (proj2 (Z.eqb_neq c SLASH)) by done. done.
  - rewrite bool_decide_eq_false_2 by done. rewrite char_at_first, bind_ok, Z.eqb_refl. cbn [drop].
    rewrite Hlast, bind_ok, (proj2 (Z.eqb_neq c SLASH)) by done. done.
Qed.

Lemma count_slashes l : Forall good_seg l → l ≠ [] →
  S (length (filter (λ c, c = SLASH) (join_slash l))) = length l.
Proof.
  intros Hg. induction Hg as [|x l' [Hx Hs] Hg IH]; intros Hl; [done|].
  assert (Hf : filter (λ c, c = SLASH) x = []).
  { clear -Hs. induction x as [|c x IH]; [done|]. apply not_elem_of_cons in Hs as [Hc Hs].
    rewrite filter_cons_False by congruence. by apply IH. }
  destruct l' as [|y l']; [cbn; by rewrite Hf|].
  rewrite join_cons, filter_app, Hf by done. cbn [app]. rewrite filter_cons_True by done.
  cbn [length]. rewrite IH by done. done.
Qed.

Lemma path_length_joined l : Forall good_seg l → l ≠ [] →
  k_util_path_length (join_slash l) = Ok (Z.of_nat (length l)) ∧
  k_util_path_length (abs_path l) = Ok (Z.of_nat (length l)).
Proof.
  intros Hg Hl. destruct (strip_joined l Hl Hg) as [H1 H2]. pose proof (count_slashes l Hg Hl) as Hc.
  unfold k_util_path_length. pose proof (join_nonempty l Hl Hg) as Hne. split.
  - rewrite bool_decide_eq_false_2.
    + rewrite H1, bind_ok. do 2 f_equal. lia.
    + intros He. by apply (join_first l SLASH [] Hg He).
  - rewrite bool_decide_eq_false_2 by (unfold abs_path; congruence).
    rewrite H2, bind_ok. do 2 f_equal. lia.
Qed.

Lemma segment_loop_ok n s iter sc l :
  Forall good_seg l → (n < length l)%nat → drop iter s = join_slash l → (iter < length s)%nat →
  ∃ iter', segment_loop n s iter sc = (iter', (sc + n)%nat) ∧ drop iter' s = join_slash (drop n l).
Proof.
  revert iter sc l. induction n as [|n IH]; intros iter sc l Hg Hn Hd Hi; cbn [segment_loop].
  - exists iter. by rewrite Nat.add_0_r.
  - destruct l as [|x l]; [cbn in Hn; lia|]. apply Forall_cons in Hg as [Hx Hg]. cbn [length] in Hn.
    rewrite Hd, until_slash_join by done. assert (Hl : l ≠ []) by (destruct l; cbn in Hn; [lia|done]).
    rewrite join_cons in Hd by done.
    assert (Hlen : length s = (iter + length x + 1 + length (join_slash l))%nat).
    { rewrite <- (take_drop iter s) at 1. rewrite Hd, !length_app, length_take. cbn [length]. lia. }
    pose proof (join_nonempty l Hl Hg) as Hne.
    assert (Hpos : (0 < length (join_slash l))%nat) by (destruct (join_slash l); [done|cbn; lia]).
    rewrite (proj2 (Nat.leb_gt _ _)) by lia.
    destruct (IH (iter + length x + 1)%nat (S sc) l Hg) as (iter' & He & Hd'); [lia| |lia|].
    + rewrite <- Nat.add_assoc, <- drop_drop, Hd, Nat.add_1_r, drop_app_ge, Nat.sub_succ_l, Nat.sub_diag by lia.
      done.
    + exists iter'. split; [rewrite He; f_equal; lia|]. done.
Qed.

Lemma segment_joined l i x p :
  Forall good_seg l → l !! i = Some x → p = join_slash l ∨ p = abs_path l →
  k_util_path_segment p i = Ok (Some x).
Proof.
  intros Hg Hx Hp. assert (Hl : l ≠ []) by (by destruct l).
  pose proof (lookup_lt_Some _ _ _ Hx) as Hi. pose proof (join_nonempty l Hl Hg) as Hne.
  assert (Hs : k_util_path_strip p = Ok (join_slash l)).
  { destruct (strip_joined l Hl Hg). by destruct Hp as [-> | ->]. }
  unfold k_util_path_segment. rewrite Hs, bind_ok.
  destruct (segment_loop_ok i (join_slash l) 0 0 l Hg Hi) as (iter & -> & Hd); [by rewrite drop_0| |].
  { destruct (join_slash l); [done|cbn; lia]. }
  rewrite Nat.add_0_l, Nat.eqb_refl. cbn [negb]. rewrite Hd, (drop_S _ _ _ Hx), until_slash_join; [done|].
  rewrite Forall_lookup in Hg. by eapply Hg.
Qed.

Lemma canon_loop_joined l p n i stack :
  Forall good_seg l → p = join_slash l ∨ p = abs_path l → (i + n = length l)%nat →
  canon_loop n i p stack = Ok (foldl canon_push stack (drop i l)).
Proof.
  intros Hg Hp. revert i stack. induction n as [|n IH]; intros i stack Hi; cbn [canon_loop].
  - rewrite drop_ge by lia. done.
  - destruct (lookup_lt_is_Some_1' l i) as [x Hx]; [lia|].
    rewrite (segment_joined l i x p Hg Hx Hp), bind_ok. cbn [of_option]. rewrite bind_ok, IH by lia.
    by rewrite (drop_S _ _ _ Hx).
Qed.

Lemma canon_print_ok p l :
  l ≠ [] → canon_print p l =
    if 255 <=? Z.of_nat (length p + length (join_slash l)) then Fault else Ok (p ++ join_slash l).
Proof.
  revert p. induction l as [|x l IH]; intros p Hl; [done|]. cbn [canon_print]. unfold append255.
  destruct l as [|y l].
  - cbn [join_slash]. case_if; [done|]. by rewrite !bind_ok.
  - rewrite join_cons, length_app by done. cbn [length].
    destruct (255 <=? Z.of_nat (length p + length x)) eqn:E1; breflect.
    { by rewrite (proj2 (Z.leb_le _ _)) by lia. }
    rewrite bind_ok, length_app. cbn [length].
    destruct (255 <=? Z.of_nat (length p + length x + 1)) eqn:E2; breflect.
    { by rewrite (proj2 (Z.leb_le _ _)) by lia. }
    rewrite bind_ok, IH, !length_app by done. cbn [length].
    replace (length p + length x + 1 + length (join_slash (y :: l)))%nat
      with (length p + (length x + S (length (join_slash (y :: l)))))%nat by lia.
    case_if; [done|]. by rewrite <- !app_assoc.
Qed.
End paths.

Section normal.
Implicit Types (l : list (list Z)).

Definition plain_seg (x : list Z) : Prop := good_seg x ∧ x ≠ [DOT] ∧ x ≠ [DOT; DOT].

Lemma canon_push_plain stack x : good_seg x → Forall plain_seg stack → Forall plain_seg (canon_push stack x).
Proof.
  intros Hx Hs. unfold canon_push. case_bool_decide; [done|]. case_bool_decide; [by apply Forall_take|].
  apply Forall_app. split; [done|]. constructor; [|constructor]. by split.
Qed.

Lemma foldl_push_plain l stack :
  Forall good_seg l → Forall plain_seg stack → Forall plain_seg (foldl canon_push stack l).
Proof.
  intros Hl. revert stack. induction Hl as [|x l Hx _ IH]; intros stack Hs; [done|].
  apply IH. by apply canon_push_plain.
Qed.

Lemma foldl_push_id l stack : Forall plain_seg l → foldl canon_push stack l = stack ++ l.
Proof.
  intros Hl. revert stack. induction Hl as [|x l (_ & H1 & H2) _ IH]; intros stack; cbn [foldl]; [by rewrite app_nil_r|].
  rewrite IH. unfold canon_push. rewrite !bool_decide_eq_false_2 by done. by rewrite <- app_assoc.
Qed.

(** The stack of the code and reading backwards agree. *)
Lemma remaining_stack l up :
  rev (remaining up (rev l)) = take (length (foldl canon_push [] l) - up) (foldl canon_push [] l).
Proof.
  revert up. induction l as [|x l IH] using rev_ind; intros up; [done|].
  rewrite rev_unit, foldl_snoc. cbn [remaining]. set (st := foldl canon_push [] l) in *. unfold canon_push.
  destruct (bool_decide_reflect (x = [DOT])); [apply IH|].
  destruct (bool_decide_reflect (x = [DOT; DOT])).
  - rewrite IH, length_take, take_take. f_equal. lia.
  - rewrite length_app. cbn [length]. destruct up as [|up].
    + cbn [rev]. rewrite IH, !take_ge; [done|rewrite length_app; cbn; lia|lia].
    + rewrite IH, take_app_le by lia. f_equal. lia.
Qed.

Lemma normalize_fold l : normalize l = foldl canon_push [] l.
Proof. unfold normalize. rewrite remaining_stack. apply take_ge. lia. Qed.

Lemma normalize_plain l : Forall good_seg l → Forall plain_seg (normalize l).
Proof. intros. rewrite normalize_fold. by apply foldl_push_plain. Qed.

Lemma normalize_id l : Forall plain_seg l → normalize l = l.
Proof. intros. rewrite normalize_fold. by rewrite foldl_push_id. Qed.

Lemma plain_good l : Forall plain_seg l → Forall good_seg l.
Proof. intros H. apply (Forall_impl _ _ _ H). by intros x [? _]. Qed.

Lemma print_abs l :
  canon_print [SLASH] l = if 255 <=? Z.of_nat (length (abs_path l)) then Fault else Ok (abs_path l).
Proof. destruct l as [|x l]; [done|]. by rewrite canon_print_ok. Qed.

(** The loop over an absolute path, the root included *)
Lemma canon_abs l stack :
  Forall good_seg l →
  (n ← k_util_path_length (abs_path l); canon_loop (Z.to_nat n) 0 (abs_path l) stack)
  = Ok (foldl canon_push stack l).
Proof.
  intros Hg. destruct (decide (l = [])) as [->|Hl]; [done|].
  destruct (path_length_joined l Hg Hl) as [_ ->]. rewrite bind_ok, Nat2Z.id.
  rewrite (canon_loop_joined l) by (done || by right). done.
Qed.

Lemma abs_not_root l : Forall good_seg l → l ≠ [] → abs_path l ≠ [SLASH].
Proof. intros Hg Hl [= Hj]. by apply (join_nonempty l Hl Hg). Qed.

Lemma canonize_abs r : Forall good_seg r →
  k_util_path_canonize (abs_path r) [] = canon_print [SLASH] (normalize r).
Proof.
  intros Hr. unfold k_util_path_canonize. rewrite (bool_decide_eq_true_2 ([] = [])) by done. cbn [orb].
  destruct (decide (r = [])) as [->|Hne]; [done|].
  rewrite bool_decide_eq_false_2 by (by apply abs_not_root). cbn [andb].
  rewrite canon_abs, !bind_ok by done. by rewrite normalize_fold.
Qed.

Lemma canonize_rel r q : Forall good_seg r → Forall good_seg q → q ≠ [] →
  k_util_path_canonize (abs_path r) (join_slash q) = canon_print [SLASH] (normalize (r ++ q)).
Proof.
  intros Hr Hq Hne. pose proof (join_nonempty q Hne Hq) as Hj. unfold k_util_path_canonize.
  rewrite (bool_decide_eq_false_2 (join_slash q = [])) by done. rewrite andb_false_r. cbn [orb].
  rewrite bool_decide_eq_false_2.
  2: { destruct (join_slash q) as [|c s] eqn:Hc; [done|]. intros [= ->]. by apply (join_first q SLASH s Hq Hc). }
  cbn [negb]. rewrite canon_abs, bind_ok by done.
  destruct (path_length_joined q Hq Hne) as [-> _]. rewrite bind_ok, Nat2Z.id.
  rewrite (canon_loop_joined q) by (done || by left). rewrite bind_ok. cbn [drop]. rewrite normalize_fold.
  by rewrite foldl_app.
Qed.

Lemma canonize_abs_rel r q : Forall good_seg q → q ≠ [] →
  k_util_path_canonize (abs_path r) (abs_path q) = canon_print [SLASH] (normalize q).
Proof.
  intros Hq Hne. unfold k_util_path_canonize. rewrite (bool_decide_eq_false_2 (abs_path q = [])) by done.
  rewrite andb_false_r. cbn [orb]. rewrite bool_decide_eq_true_2 by done. cbn [negb]. rewrite bind_ok.
  rewrite canon_abs, bind_ok by done. by rewrite normalize_fold.
Qed.
End normal.

Lemma filename_joined l p :
  Forall good_seg l → l ≠ [] → p = join_slash l ∨ p = abs_path l → k_util_path_filename p = Ok (last l).
Proof.
  intros Hg Hl Hp. unfold k_util_path_filename. rewrite bool_decide_eq_false_2.
  2: { destruct Hp as [-> | ->]; [|by apply abs_not_root]. intros He. by apply (join_first l SLASH [] Hg He). }
  assert (Hlen : k_util_path_length p = Ok (Z.of_nat (length l))).
  { destruct (path_length_joined l Hg Hl). by destruct Hp as [-> | ->]. }
  rewrite Hlen, bind_ok. rewrite (proj2 (Z.eqb_neq _ 0)) by (destruct l; [done|cbn [length]; lia]).
  destruct l as [|y l' _] using rev_ind; [done|]. rewrite last_snoc.
  apply (segment_joined (l' ++ [y])); [done| |done]. rewrite length_app. cbn [length].
  replace (Z.to_nat _) with (length l') by lia. by apply list_lookup_middle.
Qed.

(** An absolute or relative path is read as its segments: it has as many as it is made
    of, each is returned by its index, the last one is the file name. *)
Theorem path_segments l p i x :
  Forall good_seg l → l !! i = Some x → p = join_slash l ∨ p = abs_path l →
  k_util_path_length p = Ok (Z.of_nat (length l)) ∧ k_util_path_segment p i = Ok (Some x) ∧
  k_util_path_filename p = Ok (last l).
Proof.
  intros Hg Hx Hp. assert (Hl : l ≠ []) by (by destruct l).
  split; [destruct (path_length_joined l Hg Hl); by destruct Hp as [-> | ->]|].
  split; [by apply (segment_joined l)|by apply filename_joined].
Qed.

Lemma path_segments_witness :
  k_util_path_length [47; 97; 47; 98; 99] = Ok 2 ∧
  k_util_path_segment [47; 97; 47; 98; 99] 1 = Ok (Some [98; 99]) ∧
  k_util_path_filename [47; 97; 47; 98; 99] = Ok (Some [98; 99]).
Proof.
  apply (path_segments [[97]; [98; 99]] [47; 97; 47; 98; 99] 1 [98; 99]); [|done|by right].
  repeat constructor; try done; set_solver.
Defined.

(** C35: making a path canonical resolves "." and ".." as a walk through the tree does:
    a relative path continues the root's segments, an absolute one starts afresh; the
    result is the absolute path of the remaining segments, contains neither "." nor "..",
    and is its own canonical form.  All of it holds up to the 254 characters that fit into
    the result buffer; a longer result is written past its end. *)
Theorem canonize_normalizes r q :
  Forall good_seg r → Forall good_seg q → q ≠ [] →
  let result l := if 255 <=? Z.of_nat (length (abs_path l)) then Fault else Ok (abs_path l) in
  k_util_path_canonize (abs_path r) (join_slash q) = result (normalize (r ++ q)) ∧
  k_util_path_canonize (abs_path r) (abs_path q) = result (normalize q) ∧
  k_util_path_canonize (abs_path r) [] = result (normalize r) ∧
  k_util_path_canonize (abs_path (normalize (r ++ q))) [] = result (normalize (r ++ q)) ∧
  Forall (λ x, x ≠ [DOT] ∧ x ≠ [DOT; DOT]) (normalize (r ++ q)).
Proof.
  intros Hr Hq Hne result.
  assert (Hp : Forall plain_seg (normalize (r ++ q))) by (apply normalize_plain, Forall_app; done).
  split; [by rewrite canonize_rel, print_abs|]. split; [by rewrite canonize_abs_rel, print_abs|].
  split; [by rewrite canonize_abs, print_abs|]. split.
  - rewrite canonize_abs, print_abs by (by apply plain_good). by rewrite normalize_id.
  - apply (Forall_impl _ _ _ Hp). by intros x [_ ?].
Qed.

(** "/usr" with "../lib/./c" *)
Lemma canonize_normalizes_witness :
  k_util_path_canonize [47; 117] [46; 46; 47; 108; 47; 46; 47; 99] = Ok [47; 108; 47; 99].
Proof.
  destruct (canonize_normalizes [[117]] [[46; 46]; [108]; [46]; [99]]) as [H _]; [| |done|].
  - repeat constructor; try done; set_solver.
  - repeat constructor; try done; set_solver.
  - exact H.
Defined.

Lemma join_snoc l x : l ≠ [] → join_slash (l ++ [x]) = join_slash l ++ SLASH :: x.
Proof.
  induction l as [|y l IH]; intros Hl; [done|]. cbn [app].
  destruct l as [|z l]; [done|]. rewrite !(join_cons y) by done. rewrite IH by done. by rewrite <- app_assoc.
Qed.

Lemma char_at_some s i c : s !! i = Some c → char_at s (Z.of_nat i) = Ok c.
Proof.
  intros Hc. pose proof (lookup_lt_Some _ _ _ Hc). unfold char_at.
  rewrite (proj2 (Z.ltb_ge _ _)), (proj2 (Z.ltb_ge _ _)) by lia. cbn [orb]. by rewrite Nat2Z.id, Hc.
Qed.

(** The loop stops at the last slash. *)
Lemma folder_loop_ok pre x k :
  SLASH ∉ x → (k ≤ length x)%nat → folder_loop (length pre + k) (pre ++ SLASH :: x) = Ok pre.
Proof.
  intros Hs. induction k as [|k IH]; intros Hk.
  - rewrite Nat.add_0_r.
    assert (Hc := char_at_some (pre ++ SLASH :: x) (length pre) SLASH (list_lookup_middle _ _ _ _ eq_refl)).
    destruct (length pre) eqn:El; cbn [folder_loop]; rewrite Hc, bind_ok, Z.eqb_refl, <- El;
      by rewrite take_app_length.
  - destruct (lookup_lt_is_Some_2 x k) as [c Hxk]; [lia|].
    assert (Hc : char_at (pre ++ SLASH :: x) (Z.of_nat (length pre + S k)) = Ok c).
    { apply char_at_some. rewrite lookup_app_r by lia.
      by replace (length pre + S k - length pre)%nat with (S k) by lia. }
    rewrite Nat.add_succ_r in *. cbn [folder_loop]. rewrite Hc, bind_ok.
    rewrite (proj2 (Z.eqb_neq c SLASH)); [apply IH; lia|]. intros ->. apply Hs. by eapply list_elem_of_lookup_2.
Qed.

Lemma folder_ok pre x : x ≠ [] → SLASH ∉ x → k_util_path_folder (pre ++ SLASH :: x) = Ok pre.
Proof.
  intros Hx Hs. unfold k_util_path_folder.
  rewrite bool_decide_eq_false_2 by (destruct pre as [|? [|]]; [by intros [= ->]|done|done]).
  rewrite <- (folder_loop_ok pre x (length x)) at 1 by done.
  rewrite length_app. cbn [length].
  replace (length pre + S (length x) - 1)%nat with (length pre + length x)%nat by lia. by destruct pre.
Qed.

(** The folder of an entry of the root directory is the empty string, not "/", and the
    empty string cannot be made canonical: looking for its last character reads in front
    of it.  So creating a file in the root directory goes wrong; deeper folders are
    right. *)
Theorem folder_of_root_entry l x :
  Forall good_seg l → good_seg x →
  k_util_path_folder (abs_path (l ++ [x])) =
    Ok (match l with [] => [] | _ => abs_path l end) ∧
  k_util_path_canonize [] [] = Fault.
Proof.
  intros Hl [Hx Hs]. split; [|done]. unfold abs_path.
  destruct l as [|y l]; [by apply (folder_ok [])|]. rewrite join_snoc by done.
  by apply (folder_ok (SLASH :: join_slash (y :: l))).
Qed.

Lemma folder_of_root_entry_witness : k_util_path_folder [47; 97] = Ok [].
Proof.
  destruct (folder_of_root_entry [] [97]) as [H _]; [constructor| |exact H].
  split; [done|set_solver].
Defined.
