(* ===== verification/Tmpfs.v ===== *)
(** * kernel/src/fs/tmpfs.c: files and directories kept in memory

    A file keeps its bytes in pages of an address space of its own ([tn_mem], the
    memory its page directory [mappings] maps); [blocks] is the heap array of pointers to
    these pages, in which [None] is an entry that was never written.  A NULL array is the
    empty one.  Following a NULL or unwritten pointer, or leaving an array, is a [Fault].

    Children lists are the sequences that [list_t] stands for (TypesList).  Physical
    frames are taken to be available: running out of them is the panic of Pmm. *)

From S2P Require Import Prelude.
From S2P Require Import CMem.
From S2P Require Import TypesList.
From S2P Require Import Path.

Definition TMPFS_BLOCK_SIZE : Z := 4096.
Definition TMPFS_TYPE_FILE : Z := 1.
Definition TMPFS_TYPE_DIR : Z := 2.
Definition TMPFS_FIRST_MAP : Z := 0x10000000.
Definition TMPFS_MAP_END : Z := 0xC0000000.

Record tmpfs_node := mk_tmpfs {
  tn_name : list Z;
  tn_type : Z;
  tn_size : Z;
  blocks_amount : Z;
  block_array_size : Z;
  blocks : list (option Z);
  tn_mem : mem;
  last_map : Z;
  tn_parent : Z;
  tn_children : list Z
}.

Definition set_blocks (t : tmpfs_node) (am sz : Z) (bl : list (option Z)) : tmpfs_node :=
  mk_tmpfs (tn_name t) (tn_type t) (tn_size t) am sz bl (tn_mem t) (last_map t) (tn_parent t) (tn_children t).
Definition set_pages (t : tmpfs_node) (m : mem) (lm : Z) : tmpfs_node :=
  mk_tmpfs (tn_name t) (tn_type t) (tn_size t) (blocks_amount t) (block_array_size t) (blocks t)
    m lm (tn_parent t) (tn_children t).
Definition set_size (t : tmpfs_node) (n : Z) : tmpfs_node :=
  mk_tmpfs (tn_name t) (tn_type t) n (blocks_amount t) (block_array_size t) (blocks t)
    (tn_mem t) (last_map t) (tn_parent t) (tn_children t).
Definition set_children (t : tmpfs_node) (l : list Z) : tmpfs_node :=
  mk_tmpfs (tn_name t) (tn_type t) (tn_size t) (blocks_amount t) (block_array_size t) (blocks t)
    (tn_mem t) (last_map t) (tn_parent t) l.

(** ** The data of a file *)

(** [memcpy] out of the pages, into the pages, and out of a heap buffer *)
Fixpoint load_bytes (m : mem) (p : Z) (n : nat) : res (list Z) :=
  match n with
  | O => Ok []
  | S n' => b ← load m p; l ← load_bytes m (p + 1) n'; Ok (b :: l)
  end.

Fixpoint put_bytes (m : mem) (p : Z) (l : list Z) : res mem :=
  match l with
  | [] => Ok m
  | b :: l' => m1 ← store m p b; put_bytes m1 (p + 1) l'
  end.

Definition buffer_part (buf : list Z) (off n : Z) : res (list Z) :=
  if Z.of_nat (length buf) <? off + n then Fault
  else Ok (take (Z.to_nat n) (drop (Z.to_nat off) buf)).

(** [tmp_node->blocks[i]] *)
Definition block_ptr (t : tmpfs_node) (i : Z) : res Z :=
  o ← of_option (blocks t !! Z.to_nat i); of_option o.

(** What a read leaves behind: its result, the bytes stored in the caller's buffer, and
    whether the caller's page directory is active again. *)
Record read_result := mk_rr { rr_ret : Z; rr_bytes : list Z; rr_restored : bool }.

(** The loop over whole blocks.  [blocks] holds pointers to 32-bit words, so an index into
    a block counts words.  [inr]: an early return. *)
Fixpoint read_blocks (n : nat) (t : tmpfs_node) (block_offset part_offset i : Z) (buf : list Z)
    : res (list Z * Z + read_result) :=
  match n with
  | O => Ok (inl (buf, part_offset))
  | S n' =>
      p ← block_ptr t (block_offset + i);
      if p =? 0 then Ok (inr (mk_rr (i * TMPFS_BLOCK_SIZE) [] false))
      else
        l ← load_bytes (tn_mem t) (p + 4 * part_offset) (Z.to_nat TMPFS_BLOCK_SIZE);
        read_blocks n' t block_offset 0 (i + 1) (buf ++ l)
  end.

(** [node_size]: the size field of the [fs_node_t] the file is read through *)
Definition tmpfs_read (t : tmpfs_node) (node_size offset size0 : Z) : res read_result :=
  if size0 =? 0 then Ok (mk_rr 0 [] true)
  else if node_size <? offset then Ok (mk_rr 0 [] true)
  else
    let size := if node_size <? u32 (size0 + offset) then node_size - offset else size0 in
    let full_blocks := size / TMPFS_BLOCK_SIZE in
    let part_size := size mod TMPFS_BLOCK_SIZE in
    let block_offset := offset / TMPFS_BLOCK_SIZE in
    let part_offset := offset mod TMPFS_BLOCK_SIZE in
    r ← read_blocks (Z.to_nat full_blocks) t block_offset part_offset 0 [];
    match r with
    | inr early => Ok early
    | inl (buf, part_offset') =>
        p ← block_ptr t (block_offset + full_blocks);
        if p =? 0 then Ok (mk_rr (full_blocks * TMPFS_BLOCK_SIZE) [] false)
        else
          l ← load_bytes (tn_mem t) (p + 4 * part_offset') (Z.to_nat part_size);
          Ok (mk_rr size (buf ++ l) true)
    end.

(** The loop of [__k_fs_tmpfs_allocate_blocks]: each block is a fresh page of zeros. *)
Fixpoint allocate_loop (n : nat) (i : Z) (t : tmpfs_node) : res (Z * tmpfs_node) :=
  match n with
  | O => Ok (i, t)
  | S n' =>
      if u32 (last_map t + 0x1000) =? TMPFS_MAP_END then Ok (i, t)
      else
        let k := Z.to_nat (blocks_amount t + i) in
        _ ← of_option (blocks t !! k);
        let t1 := set_pages t (store_bytes (tn_mem t) (last_map t) (replicate 4096 0))
                    (u32 (last_map t + TMPFS_BLOCK_SIZE)) in
        allocate_loop n' (i + 1)
          (set_blocks t1 (blocks_amount t) (block_array_size t) (<[k := Some (last_map t)]> (blocks t)))
  end.

Definition tmpfs_allocate_blocks (t : tmpfs_node) (n : Z) : res tmpfs_node :=
  let t1 := if block_array_size t =? 0 then set_blocks t 0 1 [None] else t in
  let t2 := if u32 (blocks_amount t1 + n) <=? block_array_size t1
            then set_blocks t1 (blocks_amount t1) (u32 (block_array_size t1 * 2))
                   (blocks t1 ++ replicate (Z.to_nat (block_array_size t1)) None)
            else t1 in
  '(allocated, t3) ← allocate_loop (Z.to_nat n) 0 t2;
  Ok (set_blocks t3 (blocks_amount t3 + allocated) (block_array_size t3) (blocks t3)).

(** The loop of [__k_fs_tmpfs_write] over whole blocks *)
Fixpoint write_blocks (n : nat) (t : tmpfs_node) (first part_size i : Z) (buf : list Z) : res tmpfs_node :=
  match n with
  | O => Ok t
  | S n' =>
      p ← block_ptr t (first + i);
      l ← buffer_part buf (part_size + i * TMPFS_BLOCK_SIZE) TMPFS_BLOCK_SIZE;
      m ← put_bytes (tn_mem t) p l;
      write_blocks n' (set_pages t m (last_map t)) first part_size (i + 1) buf
  end.

Definition tmpfs_write (t : tmpfs_node) (offset : Z) (buf : list Z) : res (Z * tmpfs_node) :=
  let size := Z.of_nat (length buf) in
  let block_offset := offset / TMPFS_BLOCK_SIZE in
  let part_offset := offset mod TMPFS_BLOCK_SIZE in
  let full_blocks_required := size / TMPFS_BLOCK_SIZE in
  let rest := size mod TMPFS_BLOCK_SIZE in
  let part_block_required := if part_offset <=? rest then rest - part_offset else 0 in
  let required_blocks := full_blocks_required + b2z (0 <? part_offset) + b2z (0 <? part_block_required) in
  t1 ← (if blocks_amount t <? required_blocks
        then tmpfs_allocate_blocks t (required_blocks - blocks_amount t) else Ok t);
  '(part_size, t2) ← (if truthy part_offset then
      let ps := if size <? TMPFS_BLOCK_SIZE - part_offset then size else TMPFS_BLOCK_SIZE - part_offset in
      p ← block_ptr t1 block_offset;
      m ← put_bytes (tn_mem t1) (p + 4 * part_offset) (take (Z.to_nat ps) buf);
      Ok (ps, set_pages t1 m (last_map t1))
    else Ok (0, t1));
  t3 ← write_blocks (Z.to_nat full_blocks_required) t2 (block_offset + b2z (0 <? part_offset)) part_size 0 buf;
  t4 ← (if truthy part_block_required then
      p ← block_ptr t3 (block_offset + b2z (0 <? part_offset) + full_blocks_required);
      l ← buffer_part buf (part_size + full_blocks_required * TMPFS_BLOCK_SIZE) part_block_required;
      m ← put_bytes (tn_mem t3) p l;
      Ok (set_pages t3 m (last_map t3))
    else Ok t3);
  let t5 := if tn_size t4 <? u32 (offset + size) then set_size t4 (u32 (offset + size)) else t4 in
  Ok (size, t5).

(** ** Directories: the nodes by their addresses; 0 is NULL *)

Abbreviation tmpfs := (gmap Z tmpfs_node).

(** The [fs_node_t] made for a node: the fields the file system fills in *)
Record tmp_handle := mk_handle { th_name : list Z; th_device : Z; th_flags : Z; th_size : Z }.

Definition tmpfs_to_fs_node (addr : Z) (t : tmpfs_node) : tmp_handle :=
  mk_handle (tn_name t) addr
    (if truthy (Z.land (tn_type t) TMPFS_TYPE_FILE) then VFS_FILE
     else if truthy (Z.land (tn_type t) TMPFS_TYPE_DIR) then VFS_DIR else 0)
    (tn_size t).

(** [new] is the address [k_calloc] gives; a name of 256 or more characters leaves the
    array it is copied to.  The caller adds [type] to the zero of the new node. *)
Definition tmpfs_create_node (f : tmpfs) (new : Z) (name : list Z) (parent : Z) (type : Z) : res tmpfs :=
  if 256 <=? Z.of_nat (length name) then Fault
  else
    let t := mk_tmpfs name type 0 0 0 [] ∅ TMPFS_FIRST_MAP parent [] in
    if parent =? 0 then Ok (<[new := t]> f)
    else
      d ← of_option (f !! parent);
      Ok (<[new := t]> (<[parent := set_children d (tn_children d ++ [new])]> f)).

Definition tmpfs_create (f : tmpfs) (new root : Z) (name : list Z) : res (tmp_handle * tmpfs) :=
  f1 ← tmpfs_create_node f new name root TMPFS_TYPE_FILE;
  t ← of_option (f1 !! new); Ok (tmpfs_to_fs_node new t, f1).

Definition tmpfs_mkdir (f : tmpfs) (new root : Z) (name : list Z) : res (tmp_handle * tmpfs) :=
  f1 ← tmpfs_create_node f new name root TMPFS_TYPE_DIR;
  t ← of_option (f1 !! new); Ok (tmpfs_to_fs_node new t, f1).

Definition tmpfs_create_root (f : tmpfs) (new : Z) (name : list Z) : res (tmp_handle * tmpfs) :=
  f1 ← tmpfs_create_node f new name 0 TMPFS_TYPE_DIR;
  t ← of_option (f1 !! new); Ok (tmpfs_to_fs_node new t, f1).

(** The mounted directory is named after the last segment of the mount point. *)
Definition tmpfs_mount (f : tmpfs) (new : Z) (mountpoint : list Z) : res (tmp_handle * tmpfs) :=
  o ← k_util_path_filename mountpoint;
  fn ← of_option o;
  tmpfs_create_root f new fn.

Fixpoint find_child (f : tmpfs) (l : list Z) (name : list Z) : res (option tmp_handle) :=
  match l with
  | [] => Ok None
  | c :: l' =>
      t ← of_option (f !! c);
      if bool_decide (tn_name t = name) then Ok (Some (tmpfs_to_fs_node c t)) else find_child f l' name
  end.

Definition tmpfs_finddir (f : tmpfs) (root : Z) (name : list Z) : res (option tmp_handle) :=
  d ← of_option (f !! root); find_child f (tn_children d) name.

(** The name and the inode number of an entry *)
Definition tmpfs_readdir (f : tmpfs) (root index0 : Z) : res (option (list Z * Z)) :=
  if index0 =? 0 then Ok (Some ([46], 0))
  else if index0 =? 1 then Ok (Some ([46; 46], 1))
  else
    let index := index0 - 2 in
    d ← of_option (f !! root);
    if index <? Z.of_nat (length (tn_children d)) then
      c ← of_option (tn_children d !! Z.to_nat index);
      t ← of_option (f !! c);
      Ok (Some (tn_name t, index))
    else Ok None.

(** [__k_fs_tmpfs_rm] is given the [fs_node_t] of the node at [addr].  For a directory it
    calls itself with its first child, a [tmpfs_node_t], in the place of an [fs_node_t]:
    the [device] read there is the [type] byte of the child with its zero padding, and
    following this small number is a [Fault]. *)
Definition tmpfs_rm (f : tmpfs) (addr : Z) : res tmpfs :=
  t ← of_option (f !! addr);
  if tn_parent t =? 0 then Ok (delete addr f)
  else
    d ← of_option (f !! tn_parent t);
    let f1 := <[tn_parent t := set_children d (remove_first addr (tn_children d))]> f in
    match tn_children t with
    | [] => Ok (delete addr f1)
    | _ :: _ => Fault
    end.

(** ** Copying *)

Section copying.
Implicit Types (m : mem) (p : Z) (l : list Z).

Lemma load_bytes_ok m p l (n : nat) :
  bytes_at m p l → (n ≤ length l)%nat → load_bytes m p n = Ok (take n l).
Proof.
  revert p l. induction n as [|n IH]; intros p l Hb Hn; [done|].
  destruct l as [|b l]; [cbn in Hn; lia|]. apply bytes_at_cons in Hb as [H0 Hb]. cbn [load_bytes take].
  unfold load. rewrite H0. cbn [of_option]. rewrite bind_ok, (IH _ l Hb); [done|cbn in Hn; lia].
Qed.

Lemma put_bytes_ok m p l :
  mapped m p (Z.of_nat (length l)) → put_bytes m p l = Ok (store_bytes m p l).
Proof.
  revert m p. induction l as [|b l IH]; intros m p Hm; [done|]. cbn [put_bytes store_bytes].
  rewrite store_ok, bind_ok by (apply (mapped_head m p (Z.of_nat (length (b :: l)))); [cbn [length]; lia|done]).
  apply IH. apply mapped_insert. eapply mapped_sub; [exact Hm|cbn [length]; lia..].
Qed.

Lemma bytes_at_overlay m p l k :
  bytes_at m p l → bytes_at (store_bytes m p k) p (k ++ drop (length k) l).
Proof.
  intros Hl. apply bytes_at_app. split; [apply bytes_at_store_bytes|].
  intros i b Hi. rewrite lookup_drop in Hi. rewrite lookup_store_bytes, decide_False by lia.
  rewrite <- (Hl _ _ Hi). f_equal. lia.
Qed.
End copying.

(** ** Files of less than one block, accessed from their start *)

(** What a write at the start does to the contents *)
Definition overlay (c buf : list Z) : list Z := buf ++ drop (length buf) c.

Definition new_file (t : tmpfs_node) : Prop :=
  tn_size t = 0 ∧ blocks_amount t = 0 ∧ block_array_size t = 0 ∧ blocks t = [] ∧
  last_map t = TMPFS_FIRST_MAP.

(** The file has its first block, which starts with the contents [c]. *)
Definition file_rep (t : tmpfs_node) (c : list Z) : Prop :=
  tn_size t = Z.of_nat (length c) ∧ blocks_amount t = 1 ∧
  blocks t = [Some TMPFS_FIRST_MAP; None] ∧
  ∃ page, length page = 4096%nat ∧ bytes_at (tn_mem t) TMPFS_FIRST_MAP page ∧ c `prefix_of` page.

Section files.
Implicit Types (t : tmpfs_node) (buf c : list Z).

Lemma block_ptr_0 t p l : blocks t = Some p :: l → block_ptr t 0 = Ok p.
Proof. unfold block_ptr. by intros ->. Qed.

(** The first write to a new file allocates its first block. *)
Lemma allocate_first t : new_file t →
  ∃ t', tmpfs_allocate_blocks t 1 = Ok t' ∧ file_rep t' [].
Proof.
  intros (Hs & Ha & Hz & Hb & Hl). unfold tmpfs_allocate_blocks. rewrite Hz, Z.eqb_refl.
  cbn [set_blocks blocks_amount block_array_size blocks].
  replace (u32 (0 + 1) <=? 1) with true by done.
  change (Z.to_nat 1) with 1%nat. cbn [allocate_loop set_blocks last_map blocks_amount block_array_size blocks tn_mem].
  rewrite Hl. replace (u32 (TMPFS_FIRST_MAP + 4096) =? TMPFS_MAP_END) with false by done.
  eexists. split; [done|]. split; [done|]. split; [done|]. split; [done|].
  exists (replicate 4096 0). split; [apply length_replicate|]. split; [|apply prefix_nil].
  apply bytes_at_store_bytes.
Qed.

(** A write of less than a block at the start touches the first block only. *)
Lemma write_small t buf :
  (0 < length buf < 4096)%nat →
  tmpfs_write t 0 buf =
  (t1 ← (if blocks_amount t <? 1 then tmpfs_allocate_blocks t (1 - blocks_amount t) else Ok t);
   p ← block_ptr t1 0;
   m ← put_bytes (tn_mem t1) p buf;
   let t2 := set_pages t1 m (last_map t1) in
   Ok (Z.of_nat (length buf),
       if tn_size t2 <? Z.of_nat (length buf) then set_size t2 (Z.of_nat (length buf)) else t2)).
Proof.
  intros Hbuf. unfold tmpfs_write, TMPFS_BLOCK_SIZE.
  rewrite Z.div_small, (Z.mod_small (Z.of_nat _)) by lia. change (0 mod 4096) with 0. change (0 / 4096) with 0.
  rewrite (proj2 (Z.leb_le 0 _)) by lia. rewrite Z.sub_0_r, (proj2 (Z.ltb_lt 0 (Z.of_nat (length buf)))) by lia.
  change (0 + b2z (0 <? 0) + b2z true) with 1. rewrite Z.add_0_l, u32_small by lia.
  destruct (if blocks_amount t <? 1 then _ else _) as [t1| | |]; [|done..].
  rewrite !bind_ok, truthy_0, bind_ok. change (Z.to_nat 0) with 0%nat. cbn [write_blocks].
  rewrite bind_ok, (proj2 (truthy_true _)) by lia. change (0 + b2z (0 <? 0) + 0) with 0.
  destruct (block_ptr t1 0) as [p| | |]; [|done..]. rewrite !bind_ok.
  unfold buffer_part. rewrite (proj2 (Z.ltb_ge _ _)), bind_ok by lia.
  change (Z.to_nat (0 + 0 * 4096)) with 0%nat. rewrite drop_0, take_ge by lia.
  by destruct (put_bytes (tn_mem t1) p buf).
Qed.

Lemma write_first_block t c buf :
  file_rep t c → (0 < length buf < 4096)%nat →
  ∃ t', tmpfs_write t 0 buf = Ok (Z.of_nat (length buf), t') ∧ file_rep t' (overlay c buf).
Proof.
  intros (Hs & Ha & Hb & page & Hlp & Hpage & [rest ->]) Hbuf. rewrite write_small by done. rewrite Ha.
  change (1 <? 1) with false. cbv iota. rewrite bind_ok, (block_ptr_0 _ _ _ Hb), bind_ok.
  rewrite put_bytes_ok, bind_ok by (apply (mapped_sub _ _ _ _ _ (bytes_at_mapped _ _ _ Hpage)); lia).
  eexists. split; [done|]. cbn [tn_size set_pages]. unfold file_rep, overlay.
  assert (Hpg := bytes_at_overlay _ _ _ buf Hpage). rewrite length_app in *. rewrite length_drop.
  case_if; cbn [tn_size set_size set_pages blocks_amount blocks tn_mem]; (split; [lia|]); (split; [done|]); (split; [done|]);
    exists (buf ++ drop (length buf) (c ++ rest)); rewrite length_app, length_drop, length_app; (split; [lia|]);
    (split; [done|]); apply prefix_app; rewrite drop_app; by apply prefix_app_r.
Qed.

Lemma read_first_block t c (n : Z) :
  file_rep t c → 0 < n < 2 ^ 32 → Z.min n (Z.of_nat (length c)) < 4096 →
  tmpfs_read t (tn_size t) 0 n
  = Ok (mk_rr (Z.min n (Z.of_nat (length c))) (take (Z.to_nat n) c) true).
Proof.
  intros (Hs & Ha & Hb & page & Hlp & Hpage & [rest ->]) Hn Hlt. unfold tmpfs_read, TMPFS_BLOCK_SIZE.
  rewrite (proj2 (Z.eqb_neq n 0)), (proj2 (Z.ltb_ge (tn_size t) 0)) by lia. rewrite Z.add_0_r, u32_small by lia.
  rewrite Hs, Z.sub_0_r. set (k := if Z.of_nat (length c) <? n then Z.of_nat (length c) else n).
  assert (Hk : k = Z.min n (Z.of_nat (length c))) by (unfold k; case_if; lia). clearbody k.
  rewrite Z.div_small, Z.mod_small by lia. change (0 mod 4096) with 0. change (0 / 4096) with 0.
  change (Z.to_nat 0) with 0%nat. cbn [read_blocks]. rewrite bind_ok. change (0 + 0) with 0. rewrite (block_ptr_0 _ _ _ Hb), bind_ok.
  replace (TMPFS_FIRST_MAP =? 0) with false by done. rewrite Z.add_0_r.
  rewrite length_app in Hlp. rewrite (load_bytes_ok _ _ _ _ Hpage) by (rewrite length_app; lia).
  rewrite bind_ok. cbn [app]. rewrite take_app_le by lia. rewrite Hk. do 2 f_equal.
  destruct (Z.min_spec n (Z.of_nat (length c))) as [[? ->] | [? ->]]; [done|].
  by rewrite Nat2Z.id, !take_ge by lia.
Qed.

Fixpoint write_all (t : tmpfs_node) (bufs : list (list Z)) : res tmpfs_node :=
  match bufs with
  | [] => Ok t
  | buf :: bufs' => '(_, t') ← tmpfs_write t 0 buf; write_all t' bufs'
  end.

Lemma write_new_file t buf :
  new_file t → (0 < length buf < 4096)%nat → tmpfs_write t 0 buf =
  (t1 ← tmpfs_allocate_blocks t 1; tmpfs_write t1 0 buf).
Proof.
  intros Hnew Hbuf. destruct (allocate_first t Hnew) as (t1 & He & Hrep). rewrite He, bind_ok, !write_small by done.
  destruct Hnew as (_ & Ha & _). destruct Hrep as (_ & Ha1 & _). rewrite Ha, Ha1. change (1 - 0) with 1.
  change (0 <? 1) with true. change (1 <? 1) with false. by rewrite He.
Qed.

Lemma write_all_ok t c bufs :
  file_rep t c → Forall (λ buf, (0 < length buf < 4096)%nat) bufs →
  ∃ t', write_all t bufs = Ok t' ∧ file_rep t' (foldl overlay c bufs).
Proof.
  intros Hrep Hall. revert t c Hrep. induction Hall as [|buf bufs Hbuf _ IH]; intros t c Hrep; [by exists t|].
  destruct (write_first_block t c buf Hrep Hbuf) as (t1 & He & Hrep1). cbn [write_all foldl]. rewrite He, bind_ok.
  by apply IH.
Qed.

Lemma length_overlays c bufs :
  (length c < 4096)%nat → Forall (λ buf, (0 < length buf < 4096)%nat) bufs →
  (length (foldl overlay c bufs) < 4096)%nat.
Proof.
  intros Hc Hall. revert c Hc. induction Hall as [|buf bufs Hbuf _ IH]; intros c Hc; [done|]. cbn [foldl].
  apply IH. unfold overlay. rewrite length_app, length_drop. lia.
Qed.
End files.

(** A file of less than a block that is always written from its start keeps what was
    written: whatever writes happened since it was created, a read from the start through
    a newly opened descriptor returns the bytes of the last write, followed by those of
    longer earlier ones. *)
Theorem tmpfs_small_files t bufs (n : Z) :
  new_file t → bufs ≠ [] → Forall (λ buf, (0 < length buf < 4096)%nat) bufs → 0 < n < 2 ^ 32 →
  let c := foldl overlay [] bufs in
  ∃ t', write_all t bufs = Ok t' ∧
  tmpfs_read t' (tn_size t') 0 n = Ok (mk_rr (Z.min n (Z.of_nat (length c))) (take (Z.to_nat n) c) true).
Proof.
  intros Hnew Hne Hall Hn c. destruct bufs as [|buf bufs]; [done|]. apply Forall_cons in Hall as [Hbuf Hall].
  destruct (allocate_first t Hnew) as (t0 & He0 & Hrep0).
  destruct (write_all_ok t0 [] (buf :: bufs) Hrep0) as (t' & He & Hrep); [by constructor|].
  exists t'. split.
  - cbn [write_all] in *. by rewrite write_new_file, He0 by done.
  - apply read_first_block; [done..|].
    pose proof (length_overlays [] (buf :: bufs) ltac:(cbn; lia) ltac:(by constructor)). fold c in H. lia.
Qed.

Definition demo_file : tmpfs_node := mk_tmpfs [102] TMPFS_TYPE_FILE 0 0 0 [] ∅ TMPFS_FIRST_MAP 0 [].

Lemma demo_file_new : new_file demo_file.
Proof. done. Qed.

(** Writing "abcd", then "xy", reads back "xycd". *)
Lemma tmpfs_small_files_witness :
  ∃ t', write_all demo_file [[97; 98; 99; 100]; [120; 121]] = Ok t' ∧
  tmpfs_read t' (tn_size t') 0 100 = Ok (mk_rr 4 [120; 121; 99; 100] true).
Proof.
  apply (tmpfs_small_files demo_file [[97; 98; 99; 100]; [120; 121]] 100).
  - exact demo_file_new.
  - done.
  - constructor; [cbn; lia|]. constructor; [cbn; lia|constructor].
  - lia.
Defined.

Lemma allocate_loop_step n i t o :
  u32 (last_map t + 0x1000) ≠ TMPFS_MAP_END → blocks t !! Z.to_nat (blocks_amount t + i) = Some o →
  allocate_loop (S n) i t =
  allocate_loop n (i + 1)
    (set_blocks (set_pages t (store_bytes (tn_mem t) (last_map t) (replicate 4096 0)) (u32 (last_map t + TMPFS_BLOCK_SIZE)))
       (blocks_amount t) (block_array_size t)
       (<[Z.to_nat (blocks_amount t + i) := Some (last_map t)]> (blocks t))).
Proof. intros H1 H2. cbn [allocate_loop]. by rewrite (proj2 (Z.eqb_neq _ _) H1), H2. Qed.

Lemma allocate_loop_full n i t :
  u32 (last_map t + 0x1000) ≠ TMPFS_MAP_END → blocks t !! Z.to_nat (blocks_amount t + i) = None →
  allocate_loop (S n) i t = Fault.
Proof. intros H1 H2. cbn [allocate_loop]. by rewrite (proj2 (Z.eqb_neq _ _) H1), H2. Qed.

Lemma allocate_two_faults t (n : Z) : new_file t → 2 ≤ n < 2 ^ 32 → tmpfs_allocate_blocks t n = Fault.
Proof.
  intros (_ & _ & Hz & _ & Hl) Hn. unfold tmpfs_allocate_blocks. rewrite Hz, Z.eqb_refl.
  cbn [set_blocks blocks_amount block_array_size blocks]. rewrite Z.add_0_l, u32_small by lia.
  rewrite (proj2 (Z.leb_gt _ _)) by lia. destruct (Z.to_nat n) as [|[|k]] eqn:Hk; [lia|lia|].
  rewrite (allocate_loop_step _ _ _ None) by (cbn [last_map blocks blocks_amount set_blocks]; by rewrite ?Hl).
  rewrite allocate_loop_full by (cbn [last_map blocks blocks_amount set_blocks set_pages]; by rewrite ?Hl). done.
Qed.

Lemma write_second_block_faults t c buf (b : Z) :
  file_rep t c → (0 < length buf < 4096)%nat → 0 < b → tmpfs_write t (b * 4096) buf = Fault.
Proof.
  intros (_ & Ha & Hb & _) Hbuf Hpos. unfold tmpfs_write, TMPFS_BLOCK_SIZE.
  rewrite Z.mod_mul, Z.div_mul, Z.div_small, (Z.mod_small (Z.of_nat _)) by lia.
  rewrite (proj2 (Z.leb_le 0 _)) by lia. rewrite Z.sub_0_r, (proj2 (Z.ltb_lt 0 (Z.of_nat (length buf)))) by lia.
  rewrite Ha. change (1 <? 0 + b2z (0 <? 0) + b2z true) with false. cbv iota. rewrite bind_ok.
  change (truthy 0) with false. cbv iota. rewrite bind_ok. change (Z.to_nat 0) with 0%nat. cbn [write_blocks].
  rewrite bind_ok, (proj2 (truthy_true _)) by lia.
  assert (Hp : block_ptr t (b + b2z (0 <? 0) + 0) = Fault); [|by rewrite Hp].
  unfold block_ptr. rewrite Hb. change (b2z (0 <? 0)) with 0. rewrite !Z.add_0_r.
  destruct (Z.to_nat b) as [|[|[|k]]] eqn:Hk; [lia|done..].
Qed.

(** A file never gets past its first block.  A first write of more than one block
    stores block pointers behind the array it did not grow; a write at a later block of a
    file that has its first one follows a pointer that was never set; and reading a file
    that was not written yet follows the missing array. *)
Theorem tmpfs_one_block_only t t1 c big buf (b n : Z) :
  new_file t → (4096 < length big)%nat → Z.of_nat (length big) < 2 ^ 32 →
  file_rep t1 c → (0 < length buf < 4096)%nat → 0 < b → 0 < n < 2 ^ 32 →
  tmpfs_write t 0 big = Fault ∧ tmpfs_write t1 (b * 4096) buf = Fault ∧ tmpfs_read t 0 0 n = Fault.
Proof.
  intros Hnew Hbig Hbig2 Hrep Hbuf Hb Hn. split; [|split; [by eapply write_second_block_faults|]].
  - unfold tmpfs_write, TMPFS_BLOCK_SIZE. change (0 mod 4096) with 0. set (size := Z.of_nat (length big)) in *.
    pose proof (Z.mod_pos_bound size 4096 ltac:(lia)). pose proof (Z_div_mod_eq_full size 4096).
    rewrite (proj2 (Z.leb_le 0 _)) by lia. rewrite Z.sub_0_r. change (b2z (0 <? 0)) with 0. rewrite !Z.add_0_r.
    pose proof Hnew as (Hs & Ha & Hrest). rewrite Ha.
    assert (Hreq : 2 ≤ size / 4096 + b2z (0 <? size mod 4096) < 2 ^ 32).
    { destruct (0 <? size mod 4096) eqn:E; breflect; cbn [b2z]; lia. }
    rewrite (proj2 (Z.ltb_lt 0 (_ + _))), !Z.sub_0_r by lia. 
    by rewrite (allocate_two_faults _ _ Hnew Hreq).
  - destruct Hnew as (_ & _ & _ & Hbl & _). unfold tmpfs_read, TMPFS_BLOCK_SIZE.
    rewrite (proj2 (Z.eqb_neq n 0)) by lia. change (0 <? 0) with false. cbv iota. rewrite Z.add_0_r, u32_small by lia.
    rewrite (proj2 (Z.ltb_lt 0 n)) by lia.
    change (Z.to_nat ((0 - 0) / 4096)) with 0%nat. cbn [read_blocks]. rewrite bind_ok.
    unfold block_ptr. by rewrite Hbl.
Qed.

Definition demo_file1 : tmpfs_node :=
  mk_tmpfs [102] TMPFS_TYPE_FILE 1 1 2 [Some TMPFS_FIRST_MAP; None]
    (store_bytes ∅ TMPFS_FIRST_MAP (97 :: replicate 4095 0)) (TMPFS_FIRST_MAP + 4096) 0 [].

Lemma demo_file1_rep : file_rep demo_file1 [97].
Proof.
  split; [done|]. split; [done|]. split; [done|]. exists (97 :: replicate 4095 0).
  split; [cbn [length]; by rewrite length_replicate|]. split; [apply bytes_at_store_bytes|]. by exists (replicate 4095 0).
Qed.

Lemma tmpfs_one_block_only_witness :
  tmpfs_write demo_file 0 (replicate 4097 120) = Fault ∧ tmpfs_write demo_file1 (1 * 4096) [120] = Fault ∧
  tmpfs_read demo_file 0 0 10 = Fault.
Proof.
  apply (tmpfs_one_block_only demo_file demo_file1 [97]).
  - exact demo_file_new.
  - rewrite length_replicate. lia.
  - rewrite length_replicate. lia.
  - exact demo_file1_rep.
  - cbn. lia.
  - lia.
  - lia.
Defined.

(** An offset inside a block counts 32-bit words: one byte read at offset [o] of a file
    is the byte at [4 * o].  And a descriptor keeps the size the file had when it was
    opened: the one that created a file reads nothing back. *)
Theorem tmpfs_offset_counts_words t c (o x : Z) :
  file_rep t c → (length c < 4096)%nat → 0 ≤ o → c !! Z.to_nat (4 * o) = Some x →
  tmpfs_read t (tn_size t) o 1 = Ok (mk_rr 1 [x] true) ∧
  tmpfs_read t 0 0 1 = Ok (mk_rr 0 [] true).
Proof.
  intros (Hs & Ha & Hb & page & Hlp & Hpage & [rest ->]) Hc Ho Hx. apply lookup_lt_Some in Hx as Hlt.
  split; unfold tmpfs_read, TMPFS_BLOCK_SIZE.
  - rewrite (proj2 (Z.eqb_neq 1 0)), (proj2 (Z.ltb_ge (tn_size t) o)) by lia.
    rewrite u32_small, (proj2 (Z.ltb_ge (tn_size t) _)) by lia.
    change (1 / 4096) with 0. change (1 mod 4096) with 1. rewrite (Z.div_small o), (Z.mod_small o) by lia.
    change (Z.to_nat 0) with 0%nat. cbn [read_blocks]. rewrite bind_ok. change (0 + 0) with 0.
    rewrite (block_ptr_0 _ _ _ Hb), bind_ok. change (TMPFS_FIRST_MAP =? 0) with false. cbv iota.
    change (Z.to_nat 1) with 1%nat. cbn [load_bytes]. unfold load.
    rewrite <- (Z2Nat.id (4 * o)) by lia. rewrite (Hpage _ x); [done|]. by apply lookup_app_l_Some.
  - change (1 =? 0) with false. change (0 <? 0) with false. cbv iota. change (0 <? u32 (1 + 0)) with true. cbv iota.
    change (Z.to_nat ((0 - 0) / 4096)) with 0%nat. cbn [read_blocks]. rewrite bind_ok.
    change (0 / 4096 + (0 - 0) / 4096) with 0. by rewrite (block_ptr_0 _ _ _ Hb).
Qed.

Lemma tmpfs_offset_counts_words_witness : tmpfs_read demo_file1 1 0 1 = Ok (mk_rr 1 [97] true).
Proof.
  apply (tmpfs_offset_counts_words demo_file1 [97] 0 97).
  - exact demo_file1_rep.
  - cbn. lia.
  - lia.
  - done.
Defined.

(** ** The tree of nodes *)

Definition tree_linked (f : tmpfs) : Prop :=
  (∀ a t, f !! a = Some t → a ≠ 0 ∧ NoDup (tn_children t)) ∧
  (∀ a t c, f !! a = Some t → c ∈ tn_children t → ∃ tc, f !! c = Some tc ∧ tn_parent tc = a) ∧
  (∀ a t, f !! a = Some t → tn_parent t ≠ 0 → ∃ d, f !! tn_parent t = Some d ∧ a ∈ tn_children d).

(** The operations that change nodes; [a] of a new node is what the heap gives. *)
Inductive tmpfs_step : tmpfs → tmpfs → Prop :=
| step_root f f' a name h :
    f !! a = None → a ≠ 0 → tmpfs_create_root f a name = Ok (h, f') → tmpfs_step f f'
| step_create f f' a root name h :
    f !! a = None → a ≠ 0 → root ≠ 0 → tmpfs_create f a root name = Ok (h, f') → tmpfs_step f f'
| step_mkdir f f' a root name h :
    f !! a = None → a ≠ 0 → root ≠ 0 → tmpfs_mkdir f a root name = Ok (h, f') → tmpfs_step f f'
| step_write f a t t' offset buf n :
    f !! a = Some t → tmpfs_write t offset buf = Ok (n, t') → tmpfs_step f (<[a := t']> f)
| step_rm f f' a t :
    f !! a = Some t → (tn_parent t = 0 → tn_children t = []) → tmpfs_rm f a = Ok f' → tmpfs_step f f'.

Section tree.
Implicit Types (f : tmpfs) (t d : tmpfs_node) (a c : Z).

(** Changing fields other than the links *)
Lemma linked_same f a t t' :
  tree_linked f → f !! a = Some t → tn_children t' = tn_children t → tn_parent t' = tn_parent t →
  tree_linked (<[a := t']> f).
Proof.
  intros (H1 & H2 & H3) Ha Hc Hp. split_and!.
  - intros b tb. rewrite lookup_insert_Some. intros [[<- <-]|[_ Hb]]; [rewrite Hc|]; eauto.
  - intros b tb c Hb Hin.
    assert (∃ tc, f !! c = Some tc ∧ tn_parent tc = b) as (tc & Htc & Hpc).
    { apply lookup_insert_Some in Hb as [[<- <-]|[_ Hb]]; [rewrite Hc in Hin|]; eauto. }
    destruct (decide (a = c)) as [<-|]; [|exists tc; by rewrite lookup_insert_ne].
    exists t'. rewrite lookup_insert_eq. split; [done|]. congruence.
  - intros b tb Hb Hne.
    assert (∃ d, f !! tn_parent tb = Some d ∧ b ∈ tn_children d) as (d & Hd & Hin).
    { apply lookup_insert_Some in Hb as [[<- <-]|[_ Hb]]; [rewrite Hp in *|]; eauto. }
    destruct (decide (a = tn_parent tb)) as [He|]; [|exists d; by rewrite lookup_insert_ne].
    exists t'. rewrite <- He, lookup_insert_eq, Hc. split; [done|]. congruence.
Qed.

(** Adding the new node [a] as a child of [parent]: the old nodes keep their parents, and
    only the children of [parent] change. *)
Lemma add_child_cases f a t d parent b tb :
  f !! parent = Some d →
  <[a := t]> (<[parent := set_children d (tn_children d ++ [a])]> f) !! b = Some tb →
  (b = a ∧ tb = t) ∨ (b ≠ a ∧ ∃ tb0, f !! b = Some tb0 ∧ tn_parent tb = tn_parent tb0 ∧
    tn_children tb = if bool_decide (b = parent) then tn_children tb0 ++ [a] else tn_children tb0).
Proof.
  intros Hd. rewrite !lookup_insert_Some. intros [[<- <-]|[Hba [[<- <-]|[Hbp Hb]]]]; [by left|right..].
  - split; [done|]. exists d. by rewrite bool_decide_eq_true_2.
  - split; [done|]. exists tb. by rewrite bool_decide_eq_false_2.
Qed.

Lemma add_child_keeps f a t d parent b tb0 :
  f !! parent = Some d → f !! a = None → f !! b = Some tb0 →
  ∃ tb, <[a := t]> (<[parent := set_children d (tn_children d ++ [a])]> f) !! b = Some tb ∧
    tn_parent tb = tn_parent tb0 ∧ tn_children tb0 ⊆ tn_children tb.
Proof.
  intros Hd Ha Hb. rewrite lookup_insert_ne by congruence. destruct (decide (parent = b)) as [<-|].
  - rewrite lookup_insert_eq. eexists. split; [done|]. replace tb0 with d by congruence. cbn. set_solver.
  - rewrite lookup_insert_ne by done. eauto.
Qed.

Lemma add_child_linked f a t d parent :
  tree_linked f → f !! a = None → a ≠ 0 → f !! parent = Some d → tn_parent t = parent → tn_children t = [] →
  tree_linked (<[a := t]> (<[parent := set_children d (tn_children d ++ [a])]> f)).
Proof.
  intros (H1 & H2 & H3) Ha Hne Hd Htp Htc.
  assert (Hout : ∀ b tb, f !! b = Some tb → a ∉ tn_children tb).
  { intros b tb Hb Hin. destruct (H2 _ _ _ Hb Hin) as (tc & Ht & _). congruence. }
  split_and!.
  - intros b tb [[-> ->]|(Hb & tb0 & Hb0 & _ & Hc)]%(add_child_cases _ _ _ _ _ _ _ Hd);
      [rewrite Htc; by split; [|constructor]|].
    split; [by eapply H1|]. rewrite Hc. destruct (H1 _ _ Hb0) as [_ Hnd]. case_bool_decide; [|done].
    apply NoDup_app. split; [done|]. split; [|apply NoDup_singleton]. intros x Hx ->%list_elem_of_singleton.
    by apply (Hout _ _ Hb0).
  - intros b tb c [[-> ->]|(Hb & tb0 & Hb0 & _ & Hc)]%(add_child_cases _ _ _ _ _ _ _ Hd) Hin;
      [rewrite Htc in Hin; by apply not_elem_of_nil in Hin|].
    rewrite Hc in Hin. destruct (decide (c = a)) as [->|Hca].
    + exists t. rewrite lookup_insert_eq. split; [done|]. case_bool_decide; [congruence|]. by destruct (Hout _ _ Hb0).
    + assert (Hc0 : c ∈ tn_children tb0) by (case_bool_decide; set_solver).
      destruct (H2 _ _ _ Hb0 Hc0) as (tc & Ht & Hp).
      destruct (add_child_keeps f a t d parent _ _ Hd Ha Ht) as (tc' & ? & Hp' & _). exists tc'. split; [done|congruence].
  - intros b tb [[-> ->]|(Hb & tb0 & Hb0 & Hp & Hc)]%(add_child_cases _ _ _ _ _ _ _ Hd) Hne0.
    + eexists. rewrite Htp, lookup_insert_ne, lookup_insert_eq by congruence. split; [done|]. cbn. set_solver.
    + rewrite Hp in *. destruct (H3 _ _ Hb0 Hne0) as (dd & Hdd & Hin).
      destruct (add_child_keeps f a t d parent _ _ Hd Ha Hdd) as (d2 & ? & _ & Hs). exists d2. split; [done|].
      by apply Hs.
Qed.

Lemma add_root_linked f a t :
  tree_linked f → f !! a = None → a ≠ 0 → tn_parent t = 0 → tn_children t = [] → tree_linked (<[a := t]> f).
Proof.
  intros (H1 & H2 & H3) Ha Hne Htp Htc. split_and!.
  - intros b tb. rewrite lookup_insert_Some. intros [[<- <-]|[_ Hb]]; [rewrite Htc; by split; [|constructor]|eauto].
  - intros b tb c. rewrite lookup_insert_Some.
    intros [[<- <-]|[_ Hb]] Hin; [rewrite Htc in Hin; by apply not_elem_of_nil in Hin|].
    destruct (H2 _ _ _ Hb Hin) as (tc & Ht & Hp). exists tc. rewrite lookup_insert_ne by congruence. done.
  - intros b tb. rewrite lookup_insert_Some. intros [[<- <-]|[_ Hb]] Hp; [done|].
    destruct (H3 _ _ Hb Hp) as (d & Hd & Hin). exists d. rewrite lookup_insert_ne by congruence. done.
Qed.

Lemma create_node_linked f f' a name parent type :
  tree_linked f → f !! a = None → a ≠ 0 → tmpfs_create_node f a name parent type = Ok f' → tree_linked f'.
Proof.
  intros Hf Ha Hne. unfold tmpfs_create_node. case_if; [done|]. case_if.
  - intros [= <-]. subst. by apply add_root_linked.
  - intros (d & Hd & He)%bind_ok_inv. apply of_option_ok in Hd. injection He as <-. by apply add_child_linked.
Qed.

(** Removing the node [a], a child of [p]: the others keep their parents, and [a]
    disappears from the children. *)
Lemma rm_child_cases f a p d b tb :
  tree_linked f → f !! p = Some d → (∀ t, f !! a = Some t → tn_parent t = p) →
  delete a (<[p := set_children d (remove_first a (tn_children d))]> f) !! b = Some tb →
  b ≠ a ∧ ∃ tb0, f !! b = Some tb0 ∧ tn_parent tb = tn_parent tb0 ∧ NoDup (tn_children tb) ∧
    (∀ c, c ∈ tn_children tb → c ∈ tn_children tb0 ∧ c ≠ a).
Proof.
  intros (H1 & H2 & _) Hd Ha [Hba Hb]%lookup_delete_Some. split; [done|]. destruct (H1 _ _ Hd) as [_ Hnd].
  apply lookup_insert_Some in Hb as [[<- <-]|[Hbp Hb]].
  - exists d. split; [done|]. split; [done|]. split; [by apply remove_first_nodup|].
    intros c Hc. by apply remove_first_elem in Hc.
  - exists tb. split; [done|]. split; [done|]. split; [by eapply H1|]. intros c Hc. split; [done|]. intros ->.
    destruct (H2 _ _ _ Hb Hc) as (tc & Ht & ?). specialize (Ha _ Ht). congruence.
Qed.

Lemma rm_child_keeps f a p d b tb0 :
  tree_linked f → f !! p = Some d → f !! b = Some tb0 → b ≠ a →
  ∃ tb, delete a (<[p := set_children d (remove_first a (tn_children d))]> f) !! b = Some tb ∧
    tn_parent tb = tn_parent tb0 ∧ (∀ c, c ∈ tn_children tb0 → c ≠ a → c ∈ tn_children tb).
Proof.
  intros (H1 & _) Hd Hb Hba. destruct (H1 _ _ Hd) as [_ Hnd].
  rewrite lookup_delete_ne by done. destruct (decide (p = b)) as [<-|].
  - rewrite lookup_insert_eq. eexists. replace tb0 with d by congruence. split; [done|]. split; [done|].
    intros c Hc Hca. by apply remove_first_elem.
  - rewrite lookup_insert_ne by done. eauto.
Qed.

(** No node has a parent without children. *)
Lemma leaf_no_child f a t b tb :
  tree_linked f → f !! a = Some t → tn_children t = [] → f !! b = Some tb → tn_parent tb ≠ 0 → tn_parent tb ≠ a.
Proof.
  intros (_ & _ & H3) Ha Hl Hb Hp He. destruct (H3 _ _ Hb Hp) as (d & Hd & Hin).
  replace d with t in Hin by congruence. rewrite Hl in Hin. set_solver.
Qed.

Lemma rm_child_linked f a t d :
  tree_linked f → f !! a = Some t → tn_children t = [] → f !! tn_parent t = Some d →
  tree_linked (delete a (<[tn_parent t := set_children d (remove_first a (tn_children d))]> f)).
Proof.
  intros Hf Ha Hleaf Hd. pose proof Hf as (H1 & H2 & H3).
  assert (Hpa : ∀ t', f !! a = Some t' → tn_parent t' = tn_parent t) by congruence.
  split_and!.
  - intros b tb (Hba & tb0 & Hb & _ & Hn & _)%rm_child_cases; [|done..]. split; [by eapply H1|done].
  - intros b tb c (Hba & tb0 & Hb & _ & _ & Hs)%rm_child_cases Hc; [|done..]. destruct (Hs _ Hc) as [Hc0 Hca].
    destruct (H2 _ _ _ Hb Hc0) as (tc & Ht & Hp). destruct (rm_child_keeps f a _ d _ _ Hf Hd Ht Hca) as (tc' & ? & Hp' & _).
    exists tc'. split; [done|congruence].
  - intros b tb (Hba & tb0 & Hb & -> & _)%rm_child_cases Hp0; [|done..]. destruct (H3 _ _ Hb Hp0) as (dd & Hdd & Hin).
    pose proof (leaf_no_child _ _ _ _ _ Hf Ha Hleaf Hb Hp0) as Hda.
    destruct (rm_child_keeps f a _ d _ _ Hf Hd Hdd Hda) as (d2 & ? & _ & Hk). exists d2. split; [done|]. by apply Hk.
Qed.

Lemma rm_root_linked f a t :
  tree_linked f → f !! a = Some t → tn_children t = [] → tn_parent t = 0 → tree_linked (delete a f).
Proof.
  intros Hf Ha Hleaf Hp0. pose proof Hf as (H1 & H2 & H3). split_and!.
  - intros b tb [_ Hb]%lookup_delete_Some. eauto.
  - intros b tb c [Hba Hb]%lookup_delete_Some Hc. destruct (H2 _ _ _ Hb Hc) as (tc & Ht & Hp). exists tc.
    rewrite lookup_delete_ne; [done|]. intros <-. destruct (H1 _ _ Hb). congruence.
  - intros b tb [Hba Hb]%lookup_delete_Some Hp. destruct (H3 _ _ Hb Hp) as (d & Hd & Hin). exists d.
    rewrite lookup_delete_ne; [done|]. intros He. by apply (leaf_no_child _ _ _ _ _ Hf Ha Hleaf Hb Hp).
Qed.

Lemma rm_linked f f' a t :
  tree_linked f → f !! a = Some t → (tn_parent t = 0 → tn_children t = []) → tmpfs_rm f a = Ok f' → tree_linked f'.
Proof.
  intros Hf Ha Hroot. unfold tmpfs_rm. rewrite Ha. cbn [of_option]. rewrite bind_ok. case_if.
  - intros [= <-]. eapply rm_root_linked; eauto.
  - intros (d & Hd & He)%bind_ok_inv. apply of_option_ok in Hd. destruct (tn_children t) eqn:Hleaf; [|done].
    injection He as <-. by apply rm_child_linked.
Qed.

(** ** Writing changes no links *)

Definition same_links t t' : Prop := tn_children t' = tn_children t ∧ tn_parent t' = tn_parent t.

Lemma allocate_loop_links n i t k t' : allocate_loop n i t = Ok (k, t') → same_links t t'.
Proof.
  revert i t. induction n as [|n IH]; intros i t; cbn [allocate_loop]; [by intros [= <- <-]|].
  case_if; [by intros [= <- <-]|]. intros (o & _ & He)%bind_ok_inv. by apply IH in He.
Qed.

Lemma allocate_blocks_links t n t' : tmpfs_allocate_blocks t n = Ok t' → same_links t t'.
Proof.
  unfold tmpfs_allocate_blocks. intros ([k t3] & He & H)%bind_ok_inv. injection H as <-.
  apply allocate_loop_links in He. revert He. by repeat case_if.
Qed.

Lemma write_blocks_links n t first ps i buf t' : write_blocks n t first ps i buf = Ok t' → same_links t t'.
Proof.
  revert t i. induction n as [|n IH]; intros t i; cbn [write_blocks]; [by intros [= <-]|].
  intros (p & _ & He)%bind_ok_inv. apply bind_ok_inv in He as (l & _ & He). apply bind_ok_inv in He as (m & _ & He).
  by apply IH in He.
Qed.

Lemma write_links t offset buf n t' : tmpfs_write t offset buf = Ok (n, t') → same_links t t'.
Proof.
  unfold tmpfs_write. intros (t1 & H1 & H)%bind_ok_inv. apply bind_ok_inv in H as ([ps t2] & H2 & H).
  apply bind_ok_inv in H as (t3 & H3%write_blocks_links & H). apply bind_ok_inv in H as (t4 & H4 & H).
  assert (L1 : same_links t t1). { revert H1. case_if; [apply allocate_blocks_links|by intros [= <-]]. }
  assert (L2 : same_links t1 t2).
  { revert H2. case_if; [|by intros [= _ <-]]. intros (p & _ & He)%bind_ok_inv.
    apply bind_ok_inv in He as (m & _ & He). by injection He as _ <-. }
  assert (L4 : same_links t3 t4).
  { revert H4. case_if; [|by intros [= <-]]. intros (p & _ & He)%bind_ok_inv. apply bind_ok_inv in He as (l & _ & He).
    apply bind_ok_inv in He as (m & _ & He). by injection He as <-. }
  injection H as _ <-. unfold same_links in *. case_if; cbn [tn_children tn_parent set_size]; destruct_and!; split; congruence.
Qed.

Lemma step_linked f f' : tree_linked f → tmpfs_step f f' → tree_linked f'.
Proof.
  intros Hf. destruct 1 as [f f' a name h Ha Hn He|f f' a root name h Ha Hn Hr He|f f' a root name h Ha Hn Hr He
    |f a t t' offset buf n Ha He|f f' a t Ha Hr He].
  1-3: apply bind_ok_inv in He as (f1 & He & H); apply bind_ok_inv in H as (t & _ & H); injection H as _ <-;
    by eapply create_node_linked.
  - apply write_links in He as [Hc Hp]. by apply (linked_same f a t).
  - by eapply rm_linked.
Qed.
End tree.

(** C32: In every state that creating, removing and writing files and directories can
    reach, as long as the root of a file system is not removed while it has entries,
    children and parents agree: every entry of a directory is a live node whose parent is
    this directory, no entry is listed twice, and every node that is not a root is listed in
    its parent.  (A root with entries can be removed, which [rm_root_leaves_orphans] is
    about.) *)
Theorem tmpfs_tree_linked f : rtc tmpfs_step ∅ f → tree_linked f.
Proof.
  intros Hs. assert (H0 : tree_linked ∅) by (split_and!; intros *; by rewrite lookup_empty).
  revert H0. induction Hs as [f|f f1 f2 H1 _ IH]; [done|]. intros Hf. apply IH. by eapply step_linked.
Qed.

(** A root is freed without looking at its entries, which keep it as their parent. *)
Theorem rm_root_leaves_orphans f a t c :
  tree_linked f → f !! a = Some t → tn_parent t = 0 → c ∈ tn_children t →
  ∃ f' tc, tmpfs_rm f a = Ok f' ∧ f' !! a = None ∧ f' !! c = Some tc ∧ tn_parent tc = a ∧ ¬ tree_linked f'.
Proof.
  intros (H1 & H2 & H3) Ha Hp Hc. destruct (H2 a t c Ha Hc) as (tc & Htc & Hpc).
  destruct (H1 a t Ha) as [Ha0 _]. assert (c ≠ a) by (intros ->; congruence).
  exists (delete a f), tc. assert (Hc' : delete a f !! c = Some tc) by (by rewrite lookup_delete_ne by done).
  unfold tmpfs_rm. rewrite Ha. cbn [of_option]. rewrite bind_ok, Hp. split; [done|].
  split; [apply lookup_delete_eq|]. split; [done|]. split; [done|]. intros (_ & _ & G3).
  destruct (G3 c tc Hc') as (d & Hd & _); [congruence|]. by rewrite Hpc, lookup_delete_eq in Hd.
Qed.

Definition demo_dir (l : list Z) : tmpfs_node := mk_tmpfs [116] TMPFS_TYPE_DIR 0 0 0 [] ∅ TMPFS_FIRST_MAP 0 l.
Definition demo_child : tmpfs_node := mk_tmpfs [102] TMPFS_TYPE_FILE 0 0 0 [] ∅ TMPFS_FIRST_MAP 100 [].
Definition demo_tree : tmpfs := <[101 := demo_child]> (<[100 := demo_dir [101]]> (<[100 := demo_dir []]> ∅)).

Lemma tmpfs_tree_linked_witness : tree_linked demo_tree.
Proof.
  apply tmpfs_tree_linked. eapply rtc_l; [apply (step_root ∅ (<[100 := demo_dir []]> ∅) 100 [116]
    (mk_handle [116] 100 VFS_DIR 0)); done|]. apply rtc_once.
  by apply (step_create _ _ 101 100 [102] (mk_handle [102] 101 VFS_FILE 0)).
Defined.

(** The root with its file is removed. *)
Lemma rm_root_leaves_orphans_witness : ∃ f', tmpfs_rm demo_tree 100 = Ok f' ∧ f' !! 100 = None ∧ ¬ tree_linked f'.
Proof.
  assert (Hd : demo_tree !! 100 = Some (demo_dir [101])) by done.
  assert (Hl : tree_linked demo_tree).
  { assert (Hcases : ∀ a t, demo_tree !! a = Some t → (a = 101 ∧ t = demo_child) ∨ (a = 100 ∧ t = demo_dir [101])).
    { intros a t. unfold demo_tree. rewrite !lookup_insert_Some, lookup_empty. naive_solver. }
    split; [|split].
    - intros a t [[-> ->]|[-> ->]]%Hcases; (split; [done|]); [constructor|apply NoDup_singleton].
    - intros a t c [[-> ->]|[-> ->]]%Hcases Hin; [by apply elem_of_nil in Hin|]. apply list_elem_of_singleton in Hin as ->. by exists demo_child.
    - intros a t [[-> ->]|[-> ->]]%Hcases Hp; [|done]. exists (demo_dir [101]). split; [done|]. by apply list_elem_of_singleton. }
  destruct (rm_root_leaves_orphans demo_tree 100 (demo_dir [101]) 101 Hl Hd) as (f' & tc & E & Hn & _ & _ & Hbad).
  - done.
  - by apply list_elem_of_singleton.
  - exists f'. split; [exact E|]. split; [exact Hn|exact Hbad].
Defined.

(** The look-up of a name depends on the names, types and sizes of the children only. *)
Lemma find_child_ext f f' l name :
  (∀ c, c ∈ l → (tmpfs_to_fs_node c <$> f !! c) = (tmpfs_to_fs_node c <$> f' !! c)) →
  find_child f l name = find_child f' l name.
Proof.
  induction l as [|c l IH]; intros Hl; [done|]. cbn [find_child].
  assert (Hc := Hl c ltac:(by left)). rewrite IH by (intros; apply Hl; by right).
  destruct (f !! c) as [t|], (f' !! c) as [t'|]; try done. cbn [of_option]. rewrite !bind_ok.
  injection Hc as Hn Hty Hs. rewrite Hn. case_bool_decide; [|done]. do 2 f_equal. unfold tmpfs_to_fs_node. congruence.
Qed.

Lemma find_child_app f l1 l2 name :
  (∀ c, c ∈ l1 → is_Some (f !! c)) →
  find_child f (l1 ++ l2) name =
  (r ← find_child f l1 name; match r with Some h => Ok (Some h) | None => find_child f l2 name end).
Proof.
  induction l1 as [|c l1 IH]; intros Hl; [done|]. cbn [find_child app].
  destruct (Hl c ltac:(by left)) as [t ->]. cbn [of_option]. rewrite !bind_ok. case_bool_decide; [done|].
  apply IH. intros. apply Hl. by right.
Qed.

(** The nodes after a file is created *)
Definition new_file_node (name : list Z) (root : Z) : tmpfs_node :=
  mk_tmpfs name TMPFS_TYPE_FILE 0 0 0 [] ∅ TMPFS_FIRST_MAP root [].
Definition add_file (f : tmpfs) (root : Z) (d : tmpfs_node) (a : Z) (name : list Z) : tmpfs :=
  <[a := new_file_node name root]> (<[root := set_children d (tn_children d ++ [a])]> f).

Lemma create_eq f root d a name :
  root ≠ 0 → f !! root = Some d → (length name < 256)%nat →
  tmpfs_create f a root name = Ok (mk_handle name a VFS_FILE 0, add_file f root d a name).
Proof.
  intros Hr0 Hd Hlen. unfold tmpfs_create, tmpfs_create_node.
  rewrite (proj2 (Z.leb_gt _ _)), (proj2 (Z.eqb_neq root 0)), Hd by (done || lia). cbn [of_option].
  rewrite !bind_ok, lookup_insert_eq. done.
Qed.

Lemma add_file_lookup f root d a name :
  a ≠ root →
  add_file f root d a name !! root = Some (set_children d (tn_children d ++ [a])) ∧
  add_file f root d a name !! a = Some (new_file_node name root) ∧
  (∀ b, b ≠ a → b ≠ root → add_file f root d a name !! b = f !! b).
Proof.
  intros Har. unfold add_file. split; [by rewrite lookup_insert_ne, lookup_insert_eq|]. split; [apply lookup_insert_eq|].
  intros b Hb Hbr. by rewrite !lookup_insert_ne.
Qed.

Lemma finddir_added f root d a name nm :
  tree_linked f → f !! root = Some d → f !! a = None →
  tmpfs_finddir (add_file f root d a name) root nm =
  (r ← tmpfs_finddir f root nm;
   Ok (match r with
       | Some o => Some o
       | None => if decide (nm = name) then Some (mk_handle name a VFS_FILE 0) else None
       end)).
Proof.
  intros (H1 & H2 & _) Hd Ha. assert (Har : a ≠ root) by congruence.
  destruct (add_file_lookup f root d a name Har) as (Hd' & Ha' & Hb'). set (f' := add_file f root d a name) in *.
  assert (Hext : ∀ c, c ∈ tn_children d → (tmpfs_to_fs_node c <$> f' !! c) = (tmpfs_to_fs_node c <$> f !! c)).
  { intros c Hc. destruct (H2 _ _ _ Hd Hc) as (tc & Ht & _).
    destruct (decide (root = c)) as [<-|]; [by rewrite Hd', Hd|]. rewrite Hb' by congruence. done. }
  assert (Hlive : ∀ c, c ∈ tn_children d → is_Some (f' !! c)).
  { intros c Hc. specialize (Hext c Hc). destruct (H2 _ _ _ Hd Hc) as (tc & Ht & _). rewrite Ht in Hext. by destruct (f' !! c). }
  unfold tmpfs_finddir. rewrite Hd', Hd. cbn [of_option]. rewrite !bind_ok. cbn [tn_children set_children].
  rewrite find_child_app, (find_child_ext f' f (tn_children d)) by (exact Hext || exact Hlive).
  destruct (find_child f (tn_children d) nm) as [[o|]| | |]; [done| |done..]. rewrite !bind_ok. cbn [find_child].
  rewrite Ha'. cbn [of_option]. rewrite bind_ok. cbn [tn_name new_file_node].
  destruct (decide (nm = name)) as [->|Hn]; [by rewrite bool_decide_eq_true_2|by rewrite bool_decide_eq_false_2].
Qed.

(** A file created in a directory is found under its name, unless an older entry has
    the same name, which then hides it; it is the last entry that reading the directory
    gives, and no other node changes. *)
Theorem tmpfs_create_found f root d a name :
  tree_linked f → f !! root = Some d → f !! a = None → a ≠ 0 → (length name < 256)%nat →
  ∃ h f', tmpfs_create f a root name = Ok (h, f') ∧ h = mk_handle name a VFS_FILE 0 ∧
  (∀ nm, tmpfs_finddir f' root nm =
     (r ← tmpfs_finddir f root nm;
      Ok (match r with Some o => Some o | None => if decide (nm = name) then Some h else None end))) ∧
  (let n := Z.of_nat (length (tn_children d)) in
   tmpfs_readdir f' root (n + 2) = Ok (Some (name, n)) ∧ tmpfs_readdir f' root (n + 3) = Ok None) ∧
  (∀ b, b ≠ a → b ≠ root → f' !! b = f !! b).
Proof.
  intros Hf Hd Ha Hne Hlen. pose proof Hf as (H1 & _). destruct (H1 _ _ Hd) as [Hr0 _].
  assert (Har : a ≠ root) by congruence. eexists _, _. split; [by apply (create_eq f root d)|]. split; [done|].
  split; [intros nm; by apply finddir_added|]. destruct (add_file_lookup f root d a name Har) as (Hd' & Ha' & Hb').
  split; [|done]. unfold tmpfs_readdir. rewrite !(proj2 (Z.eqb_neq _ _)) by lia. rewrite Hd'. cbn [of_option].
  rewrite !bind_ok. cbn [tn_children set_children]. rewrite length_app. cbn [length].
  rewrite (proj2 (Z.ltb_lt _ _)), (proj2 (Z.ltb_ge _ _)), Z.add_simpl_r by lia. split; [|done].
  rewrite Nat2Z.id, list_lookup_middle by done. cbn [of_option]. by rewrite bind_ok, Ha'.
Qed.

Lemma demo_tree_linked : tree_linked demo_tree.
Proof.
  assert (H0 : tree_linked ∅) by (split_and!; intros *; by rewrite lookup_empty).
  eapply step_linked; [eapply step_linked; [exact H0|apply (step_root ∅ (<[100 := demo_dir []]> ∅) 100 [116]
    (mk_handle [116] 100 VFS_DIR 0)); done]|].
  by apply (step_create _ _ 101 100 [102] (mk_handle [102] 101 VFS_FILE 0)).
Qed.

Lemma tmpfs_create_found_witness :
  ∃ h f', tmpfs_create demo_tree 102 100 [103] = Ok (h, f') ∧ h = mk_handle [103] 102 VFS_FILE 0 ∧
    tmpfs_readdir f' 100 3 = Ok (Some ([103], 1)).
Proof.
  destruct (tmpfs_create_found demo_tree 100 (demo_dir [101]) 102 [103]) as (h & f' & He & Hh & _ & [Hr _] & _).
  - exact demo_tree_linked.
  - reflexivity.
  - reflexivity.
  - done.
  - cbn. lia.
  - exists h, f'. done.
Defined.

(** Removing an entry that is not a root deletes exactly this node and its entry in
    the parent when it has no children; a directory with children is never removed, the
    attempt follows the child's type as if it were a pointer. *)
Theorem tmpfs_rm_leaf_only f a t d :
  tree_linked f → f !! a = Some t → tn_parent t ≠ 0 → f !! tn_parent t = Some d →
  (tn_children t = [] →
     tmpfs_rm f a = Ok (delete a (<[tn_parent t := set_children d (remove_first a (tn_children d))]> f)) ∧
     ∀ c, c ∈ remove_first a (tn_children d) ↔ c ∈ tn_children d ∧ c ≠ a) ∧
  (tn_children t ≠ [] → tmpfs_rm f a = Fault).
Proof.
  intros (H1 & _) Ha Hp Hd. unfold tmpfs_rm. rewrite Ha. cbn [of_option]. rewrite bind_ok, (proj2 (Z.eqb_neq _ _) Hp), Hd.
  cbn [of_option]. rewrite bind_ok. destruct (H1 _ _ Hd) as [_ Hnd].
  split; intros Hc; [|by destruct (tn_children t)]. rewrite Hc. split; [done|]. intros c. by apply remove_first_elem.
Qed.

Lemma tmpfs_rm_leaf_only_witness :
  tmpfs_rm demo_tree 101 = Ok (delete 101 (<[100 := demo_dir []]> demo_tree)).
Proof.
  destruct (tmpfs_rm_leaf_only demo_tree 101 demo_child (demo_dir [101])) as [H _].
  - exact demo_tree_linked.
  - reflexivity.
  - done.
  - reflexivity.
  - exact (proj1 (H eq_refl)).
Defined.
