(* ===== verification/Vfs.v ===== *)
(** * kernel/src/fs/vfs.c: the virtual file system

    The tree of mount points, the nodes and the entries are heap objects with addresses;
    [v_next] is the next address the heap gives, 0 is NULL.  A file system is a table of
    operations ([fs_ops] of vfs.h) over a state of its own; a node names its table by
    [vn_fs].  Using a freed object is a [Fault].  Path strings are values. *)

From S2P Require Import Prelude.
From S2P Require Import TypesList.
From S2P Require Import Tree.
From S2P Require Import Path.

Record vnode := mk_vnode {
  vn_name : list Z;
  vn_device : Z;
  vn_mode : Z;
  vn_flags : Z;
  vn_inode : Z;
  vn_size : Z;
  vn_fs : Z;
  vn_links : Z;
  vn_path : option (list Z);
  vn_mountpoint : Z
}.

Record vfs_entry := mk_entry { ve_name : list Z; ve_node : Z; ve_tree_node : Z }.

(** The directory entry that [readdir] gives: name and inode number *)
Record vdirent := mk_dirent { de_name : list Z; de_ino : Z }.

(** [fs_ops_t] of every table: [None] is a NULL pointer. *)
Class fs_table (S : Type) := {
  fs_read : Z → option (S → vnode → Z → Z → res (Z * list Z));
  fs_write : Z → option (S → vnode → Z → list Z → res (Z * S));
  fs_open : Z → option (S → vnode → Z → res (vnode * S));
  fs_close : Z → option (S → vnode → res S);
  fs_finddir : Z → option (S → vnode → list Z → res (option vnode));
  fs_readdir : Z → option (S → vnode → Z → res (option vdirent));
  fs_readlink : Z → option (S → vnode → res (list Z));
  fs_link : Z → option (S → vnode → list Z → list Z → res (Z * S));
  fs_rm : Z → option (S → vnode → res S);
  fs_rmdir : Z → option (S → vnode → res S);
  fs_create : Z → option (S → vnode → list Z → Z → res (option vnode * S));
  fs_mkdir : Z → option (S → vnode → list Z → Z → res (option vnode * S));
  fs_ioctl : Z → option (S → vnode → Z → res (Z * S));
  fs_check : Z → option (S → vnode → Z → res Z);
  fs_wait : Z → option (S → vnode → Z → Z → res (Z * S));
  fs_truncate : Z → option (S → vnode → Z → res (Z * S))
}.

(** The table of virtual nodes, which holds [__k_fs_virtual_readdir] only, and the one of a
    node that has no operations *)
Definition FS_VIRTUAL : Z := 1.
Definition FS_NONE : Z := 0.

Section vfs.
Context {S : Type} `{fs_table S}.

Record vfs := mk_vfs {
  v_tree : tree;
  v_entries : gmap Z vfs_entry;
  v_nodes : gmap Z vnode;
  v_next : Z;
  v_filesystems : list (list Z * (S → list Z → list Z → res (option vnode * S)));
  v_state : S
}.

Definition set_tree (s : vfs) (t : tree) : vfs :=
  mk_vfs t (v_entries s) (v_nodes s) (v_next s) (v_filesystems s) (v_state s).
Definition set_entry (s : vfs) (a : Z) (e : vfs_entry) : vfs :=
  mk_vfs (v_tree s) (<[a := e]> (v_entries s)) (v_nodes s) (v_next s) (v_filesystems s) (v_state s).
Definition free_entry (s : vfs) (a : Z) : vfs :=
  mk_vfs (v_tree s) (delete a (v_entries s)) (v_nodes s) (v_next s) (v_filesystems s) (v_state s).
Definition set_node (s : vfs) (a : Z) (n : vnode) : vfs :=
  mk_vfs (v_tree s) (v_entries s) (<[a := n]> (v_nodes s)) (v_next s) (v_filesystems s) (v_state s).
Definition free_node (s : vfs) (a : Z) : vfs :=
  mk_vfs (v_tree s) (v_entries s) (delete a (v_nodes s)) (v_next s) (v_filesystems s) (v_state s).
Definition set_state (s : vfs) (st : S) : vfs :=
  mk_vfs (v_tree s) (v_entries s) (v_nodes s) (v_next s) (v_filesystems s) st.

Definition get_node (s : vfs) (a : Z) : res vnode := of_option (v_nodes s !! a).
Definition get_ventry (s : vfs) (a : Z) : res vfs_entry := of_option (v_entries s !! a).

(** A new object at the next address *)
Definition take_address (s : vfs) : Z * vfs :=
  (v_next s, mk_vfs (v_tree s) (v_entries s) (v_nodes s) (v_next s + 1) (v_filesystems s) (v_state s)).
Definition alloc_node (s : vfs) (n : vnode) : Z * vfs :=
  let '(a, s1) := take_address s in (a, set_node s1 a n).
Definition alloc_option (s : vfs) (o : option vnode) : Z * vfs :=
  match o with Some n => alloc_node s n | None => (0, s) end.

Definition with_mountpoint (n : vnode) (m : Z) : vnode :=
  mk_vnode (vn_name n) (vn_device n) (vn_mode n) (vn_flags n) (vn_inode n) (vn_size n) (vn_fs n)
    (vn_links n) (vn_path n) m.
Definition with_links (n : vnode) (l : Z) : vnode :=
  mk_vnode (vn_name n) (vn_device n) (vn_mode n) (vn_flags n) (vn_inode n) (vn_size n) (vn_fs n)
    l (vn_path n) (vn_mountpoint n).

(** [k_fs_vfs_create_node]: a name of 256 or more characters leaves its array. *)
Definition vfs_create_node (name : list Z) : res vnode :=
  if 256 <=? Z.of_nat (length name) then Fault
  else Ok (mk_vnode name 0 0 0 0 0 FS_NONE 1 None 0).

(** [__k_fs_vfs_create_virtual_node] *)
Definition create_virtual_node (s : vfs) (entry : Z) : res vfs :=
  e ← get_ventry s entry;
  n ← vfs_create_node (ve_name e);
  let '(a, s1) := alloc_node s (mk_vnode (vn_name n) entry (vn_mode n) (Z.lor VFS_DIR VFS_MAPPER)
    (vn_inode n) (vn_size n) FS_VIRTUAL (vn_links n) (vn_path n) entry) in
  Ok (set_entry s1 entry (mk_entry (ve_name e) a (ve_tree_node e))).

(** [k_fs_vfs_create_entry]; [parent] 0 is NULL *)
Definition vfs_create_entry (s : vfs) (name : list Z) (parent : Z) : res (Z * vfs) :=
  if 256 <=? Z.of_nat (length name) then Fault else
  let '(e, s1) := take_address s in
  if truthy parent then
    let '(tn, s2) := take_address s1 in
    t ← tree_insert_node (tree_create_node (v_tree s2) tn e) tn parent;
    s3 ← create_virtual_node (set_entry (set_tree s2 t) e (mk_entry name 0 tn)) e;
    Ok (e, s3)
  else
    s3 ← create_virtual_node (set_entry s1 e (mk_entry name 0 0)) e;
    Ok (e, s3).

(** "[root]" *)
Definition ROOT_NAME : list Z := [91; 114; 111; 111; 116; 93].

(** [k_fs_vfs_init]; the tree is at the first address *)
Definition vfs_init (st : S) : res vfs :=
  let s0 := mk_vfs (tree_create 1) ∅ ∅ 2 [] st in
  '(root, s1) ← vfs_create_entry s0 ROOT_NAME 0;
  let '(tn, s2) := take_address s1 in
  e ← get_ventry s2 root;
  let s3 := set_entry s2 root (mk_entry (ve_name e) (ve_node e) tn) in
  t ← tree_set_root (tree_create_node (v_tree s3) tn root) tn;
  Ok (set_tree s3 t).

Definition vfs_root_entry (s : vfs) : res Z :=
  x ← tree_get (v_tree s) (tr_root (v_tree s)); Ok (tnd_value x).

Definition vfs_root_node (s : vfs) : res Z :=
  r ← vfs_root_entry s; e ← get_ventry s r; Ok (ve_node e).

(** The loop over the children of a tree node: the first entry with this name *)
Fixpoint find_entry (s : vfs) (children : list Z) (part : list Z) : res (option Z) :=
  match children with
  | [] => Ok None
  | c :: rest =>
      x ← tree_get (v_tree s) c;
      e ← get_ventry s (tnd_value x);
      if bool_decide (ve_name e = part) then Ok (Some c) else find_entry s rest part
  end.

(** ** Entries: [__k_fs_vfs_get_entry] *)

(** [n] segments are left, the next one is [i]; a NULL segment is passed over.  [None]: NULL *)
Fixpoint entry_loop (n i : nat) (s : vfs) (path : list Z) (create : bool) (cur : Z) : res (option Z * vfs) :=
  match n with
  | O => x ← tree_get (v_tree s) cur; Ok (Some (tnd_value x), s)
  | Datatypes.S n' =>
      o ← k_util_path_segment path i;
      match o with
      | None => entry_loop n' (Datatypes.S i) s path create cur
      | Some part =>
          x ← tree_get (v_tree s) cur;
          f ← find_entry s (tnd_children x) part;
          match f with
          | Some c => entry_loop n' (Datatypes.S i) s path create c
          | None =>
              if create then
                '(e, s1) ← vfs_create_entry s part cur;
                ent ← get_ventry s1 e;
                entry_loop n' (Datatypes.S i) s1 path create (ve_tree_node ent)
              else Ok (None, s)
          end
      end
  end.

Definition vfs_get_entry (s : vfs) (path : list Z) (create : bool) : res (option Z * vfs) :=
  if bool_decide (path = [SLASH]) then r ← vfs_root_entry s; Ok (Some r, s)
  else
    len ← k_util_path_length path;
    entry_loop (Z.to_nat len) 0 s path create (tr_root (v_tree s)).

Definition vfs_map_path (s : vfs) (path : list Z) : res (option Z * vfs) := vfs_get_entry s path true.
Definition vfs_get_mountpoint (s : vfs) (path : list Z) : res (option Z * vfs) := vfs_get_entry s path false.

(** ** Nodes: [__k_fs_vfs_find_node] *)

Definition vfs_finddir (s : vfs) (a : Z) (name : list Z) : res (Z * vfs) :=
  n ← get_node s a;
  match fs_finddir (vn_fs n) with
  | None => Ok (0, s)
  | Some f => o ← f (v_state s) n name; Ok (alloc_option s o)
  end.

Definition vfs_maybe_free (s : vfs) (a : Z) : res vfs :=
  n ← get_node s a; Ok (if vn_mountpoint n =? 0 then free_node s a else s).

(** [__k_fs_vfs_follow_symlink]; without a [readlink] the buffer is never written. *)
Definition follow_symlink (rec : vfs → list Z → Z → res (Z * vfs)) (s : vfs) (a : Z) : res (Z * vfs) :=
  n ← get_node s a;
  if negb (truthy (Z.land (vn_flags n) VFS_SYMLINK)) then Ok (0, s)
  else match fs_readlink (vn_fs n) with
  | None => Fault
  | Some f => buff ← f (v_state s) n; rec s buff 0
  end.

Definition is_followed (n : vnode) (flags : Z) : bool :=
  truthy (Z.land (vn_flags n) VFS_SYMLINK) && negb (truthy (Z.land flags O_NOFOLLOW)).

(** The inner loop: from the node of a mount point through its file system *)
Fixpoint walk_loop (rec : vfs → list Z → Z → res (Z * vfs)) (n i : nat) (s : vfs) (path : list Z) (flags fsnode : Z)
    : res (Z * vfs) :=
  match n with
  | O => Ok (fsnode, s)
  | Datatypes.S n' =>
      if fsnode =? 0 then Ok (0, s)
      else
        o ← k_util_path_segment path i;
        match o with
        | None => Ok (fsnode, s)
        | Some part =>
            x ← get_node s fsnode;
            '(a, s1) ← (if is_followed x flags then follow_symlink rec s fsnode else Ok (fsnode, s));
            if a =? 0 then s2 ← vfs_maybe_free s1 fsnode; Ok (0, s2)
            else
              '(b, s2) ← vfs_finddir s1 a part;
              s3 ← vfs_maybe_free s2 fsnode;
              walk_loop rec n' (Datatypes.S i) s3 path flags b
        end
  end.

(** What the walk found must have the name that was asked for. *)
Definition check_name (s : vfs) (a : Z) (filename : list Z) : res (Z * vfs) :=
  if a =? 0 then Ok (0, s)
  else
    n ← get_node s a;
    if bool_decide (vn_name n = filename) then Ok (a, s)
    else s1 ← vfs_maybe_free s a; Ok (0, s1).

(** The outer loop: through the tree of mount points *)
Fixpoint find_loop (rec : vfs → list Z → Z → res (Z * vfs)) (n i : nat) (s : vfs) (path filename : list Z)
    (flags cur result : Z) : res (Z * vfs) :=
  match n with
  | O => Ok (result, s)
  | Datatypes.S n' =>
      o ← k_util_path_segment path i;
      match o with
      | None => find_loop rec n' (Datatypes.S i) s path filename flags cur result
      | Some part =>
          x ← tree_get (v_tree s) cur;
          f ← find_entry s (tnd_children x) part;
          match f with
          | None =>
              e ← get_ventry s (tnd_value x);
              '(a, s1) ← walk_loop rec n i s path flags (ve_node e);
              check_name s1 a filename
          | Some c =>
              y ← tree_get (v_tree s) c;
              e ← get_ventry s (tnd_value y);
              find_loop rec n' (Datatypes.S i) s path filename flags c
                (if bool_decide (ve_name e = filename) then ve_node e else result)
          end
      end
  end.

(** A symbolic link is followed by a new search: [fuel] bounds their nesting. *)
Fixpoint vfs_find_node (fuel : nat) (s : vfs) (path : list Z) (flags : Z) : res (Z * vfs) :=
  match fuel with
  | O => OutOfFuel
  | Datatypes.S fuel' =>
      if bool_decide (path = [SLASH]) then r ← vfs_root_node s; Ok (r, s)
      else
        len ← k_util_path_length path;
        fo ← k_util_path_filename path;
        filename ← of_option fo;
        '(result, s1) ← find_loop (vfs_find_node fuel') (Z.to_nat len) 0 s path filename flags (tr_root (v_tree s)) 0;
        if result =? 0 then Ok (0, s1)
        else
          x ← get_node s1 result;
          if is_followed x flags then
            '(r, s2) ← follow_symlink (vfs_find_node fuel') s1 result;
            s3 ← vfs_maybe_free s2 result;
            Ok (r, s3)
          else Ok (result, s1)
  end.
(** ** Operations of a node *)

(** [k_fs_vfs_close]: the last link closes and frees the node. *)
Definition vfs_close (s : vfs) (a : Z) : res vfs :=
  if a =? 0 then Ok s
  else
    n ← get_node s a;
    let links := u32 (vn_links n - 1) in
    let s1 := set_node s a (with_links n links) in
    if truthy links then Ok s1
    else
      s2 ← (match fs_close (vn_fs n) with
            | Some f => st ← f (v_state s1) (with_links n links); Ok (set_state s1 st)
            | None => Ok s1
            end);
      Ok (free_node s2 a).

Definition vfs_create (s : vfs) (a : Z) (name : list Z) (mode : Z) : res (Z * vfs) :=
  n ← get_node s a;
  match fs_create (vn_fs n) with
  | None => Ok (0, s)
  | Some f => '(o, st) ← f (v_state s) n name mode; Ok (alloc_option (set_state s st) o)
  end.

Definition vfs_mkdir (s : vfs) (a : Z) (name : list Z) (mode : Z) : res (Z * vfs) :=
  n ← get_node s a;
  match fs_mkdir (vn_fs n) with
  | None => Ok (0, s)
  | Some f => '(o, st) ← f (v_state s) n name mode; Ok (alloc_option (set_state s st) o)
  end.

(** The end of [k_fs_vfs_open]: a mounted node is copied. *)
Definition open_node (s : vfs) (root_node : Z) (canon_path : list Z) (mode : Z) : res (Z * vfs) :=
  r ← get_node s root_node;
  let '(a, s1) := if truthy (vn_mountpoint r) then alloc_node s r else (root_node, s) in
  '(n, s2) ← (match fs_open (vn_fs r) with
      | Some f => '(n, st) ← f (v_state s1) r mode; Ok (n, set_state s1 st)
      | None => Ok (r, s1)
      end);
  Ok (a, set_node s2 a (mk_vnode (vn_name n) (vn_device n) mode (vn_flags n) (vn_inode n) (vn_size n) (vn_fs n)
           1 (Some canon_path) (vn_mountpoint n))).

(** The folder of a file to be created is opened by the same function. *)
Definition open_with (fuel : nat) (rec : vfs → list Z → Z → res (Z * vfs)) (s : vfs) (path : list Z) (mode : Z)
    : res (Z * vfs) :=
  canon_path ← k_util_path_canonize path [];
  '(root_node, s1) ← vfs_find_node fuel s canon_path mode;
  '(root_node', s2) ← (if (root_node =? 0) && truthy (Z.land mode O_CREAT) then
      folder ← k_util_path_folder canon_path;
      no ← k_util_path_filename canon_path;
      '(root_folder, s2) ← rec s1 folder O_WRONLY;
      '(r, s3) ← (if truthy root_folder then name ← of_option no; vfs_create s2 root_folder name mode else Ok (0, s2));
      s4 ← vfs_close s3 root_folder;
      Ok (r, s4)
    else Ok (root_node, s1));
  if root_node' =? 0 then Ok (0, s2) else open_node s2 root_node' canon_path mode.

(** [k_fs_vfs_open]: a folder is never created, so two levels are enough. *)
Definition vfs_open (fuel : nat) (s : vfs) (path : list Z) (mode : Z) : res (Z * vfs) :=
  open_with fuel (open_with fuel (λ _ _ _, OutOfFuel)) s path mode.

Definition vfs_dup (s : vfs) (a : Z) : res (Z * vfs) := n ← get_node s a; Ok (alloc_node s n).

(** The answer and the bytes stored in the caller's buffer *)
Definition vfs_read (s : vfs) (a offset size : Z) : res (Z * list Z) :=
  n ← get_node s a;
  match fs_read (vn_fs n) with
  | None => Ok (- EPERM, [])
  | Some f => if negb (truthy (Z.land (vn_mode n) O_RDONLY)) then Ok (- EPERM, []) else f (v_state s) n offset size
  end.

Definition vfs_write (s : vfs) (a offset : Z) (buf : list Z) : res (Z * vfs) :=
  n ← get_node s a;
  match fs_write (vn_fs n) with
  | None => Ok (- EPERM, s)
  | Some f =>
      if negb (truthy (Z.land (vn_mode n) O_WRONLY)) then Ok (- EPERM, s)
      else '(r, st) ← f (v_state s) n offset buf; Ok (r, set_state s st)
  end.

(** [__k_fs_virtual_readdir] *)
Definition virtual_readdir (s : vfs) (n : vnode) (index0 : Z) : res (option vdirent) :=
  if vn_device n =? 0 then Ok None
  else
    e ← get_ventry s (vn_device n);
    if ve_tree_node e =? 0 then Ok None
    else
      x ← tree_get (v_tree s) (ve_tree_node e);
      if index0 =? 0 then Ok (Some (mk_dirent [DOT] 0))
      else if index0 =? 1 then Ok (Some (mk_dirent [DOT; DOT] 1))
      else
        let index := index0 - 2 in
        if index <? Z.of_nat (length (tnd_children x)) then
          c ← of_option (tnd_children x !! Z.to_nat index);
          y ← tree_get (v_tree s) c;
          ce ← get_ventry s (tnd_value y);
          Ok (Some (mk_dirent (ve_name ce) 1))
        else Ok None.

(** The [readdir] of the node's own table *)
Definition node_readdir (s : vfs) (n : vnode) (index : Z) : res (option vdirent) :=
  if vn_fs n =? FS_VIRTUAL then virtual_readdir s n index
  else match fs_readdir (vn_fs n) with
  | None => Ok None
  | Some f => f (v_state s) n index
  end.

(** [k_fs_vfs_readdir]: of a mounted node first the entries mounted below it *)
Definition vfs_readdir (s : vfs) (a index : Z) : res (option vdirent) :=
  n ← get_node s a;
  if negb (truthy (Z.land (vn_flags n) VFS_MAPPER)) && truthy (vn_mountpoint n) then
    e ← get_ventry s (vn_mountpoint n);
    if ve_tree_node e =? 0 then node_readdir s n index
    else
      x ← tree_get (v_tree s) (ve_tree_node e);
      let size := Z.of_nat (length (tnd_children x)) in
      if index <? size then
        c ← of_option (tnd_children x !! Z.to_nat index);
        if c =? 0 then node_readdir s n index
        else
          y ← tree_get (v_tree s) c;
          if tnd_value y =? 0 then node_readdir s n index
          else ce ← get_ventry s (tnd_value y); Ok (Some (mk_dirent (ve_name ce) 1))
      else node_readdir s n (index - size)
  else node_readdir s n index.

Definition vfs_ioctl (s : vfs) (a req : Z) : res (Z * vfs) :=
  n ← get_node s a;
  match fs_ioctl (vn_fs n) with
  | None => Ok (- EPERM, s)
  | Some f => '(r, st) ← f (v_state s) n req; Ok (r, set_state s st)
  end.

(** [k_fs_vfs_check] returns a [uint8_t]. *)
Definition vfs_check (s : vfs) (a mode : Z) : res Z :=
  n ← get_node s a;
  match fs_check (vn_fs n) with
  | None => Ok (u8 (- EPERM))
  | Some f => f (v_state s) n mode
  end.

(** [prc]: the waiting process *)
Definition vfs_wait (s : vfs) (a events prc : Z) : res (Z * vfs) :=
  n ← get_node s a;
  match fs_wait (vn_fs n) with
  | None => Ok (- EPERM, s)
  | Some f => '(r, st) ← f (v_state s) n events prc; Ok (r, set_state s st)
  end.

Definition vfs_truncate (s : vfs) (a size : Z) : res (Z * vfs) :=
  n ← get_node s a;
  match fs_truncate (vn_fs n) with
  | None => Ok (- EPERM, s)
  | Some f => '(r, st) ← f (v_state s) n size; Ok (r, set_state s st)
  end.

(** ** Mounting *)

(** [fs_descriptor_t]: an alias of 128 or more characters leaves its array. *)
Definition vfs_register_fs (s : vfs) (alias : list Z) (m : S → list Z → list Z → res (option vnode * S)) : res vfs :=
  if 128 <=? Z.of_nat (length alias) then Fault
  else Ok (mk_vfs (v_tree s) (v_entries s) (v_nodes s) (v_next s) (v_filesystems s ++ [(alias, m)]) (v_state s)).

Fixpoint get_mount_callback (l : list (list Z * (S → list Z → list Z → res (option vnode * S)))) (alias : list Z) :=
  match l with
  | [] => None
  | (a, m) :: l' => if bool_decide (a = alias) then Some m else get_mount_callback l' alias
  end.

(** The result is 0 for [K_STATUS_OK] and 1 for [K_STATUS_ERR_GENERIC]. *)
Definition vfs_mount_node (s : vfs) (path : list Z) (fsroot : Z) : res (Z * vfs) :=
  '(o, s1) ← vfs_get_entry s path true;
  match o with
  | None => Ok (1, s1)
  | Some m =>
      e ← get_ventry s1 m;
      s2 ← (if truthy (ve_node e) then
          n ← get_node s1 (ve_node e);
          if truthy (Z.land (vn_flags n) VFS_MAPPER) then vfs_close s1 (ve_node e) else Ok s1
        else Ok s1);
      r ← get_node s2 fsroot;
      Ok (0, set_node (set_entry s2 m (mk_entry (ve_name e) fsroot (ve_tree_node e))) fsroot (with_mountpoint r m))
  end.

Definition vfs_mount (s : vfs) (path device type : list Z) : res (Z * vfs) :=
  match get_mount_callback (v_filesystems s) type with
  | None => Ok (1, s)
  | Some mount =>
      '(o, st) ← mount (v_state s) path device;
      match o with
      | None => Ok (1, set_state s st)
      | Some n => let '(a, s1) := alloc_node (set_state s st) n in vfs_mount_node s1 path a
      end
  end.

Definition vfs_umount (s : vfs) (path : list Z) : res (Z * vfs) :=
  '(o, s1) ← vfs_get_entry s path false;
  match o with
  | None => Ok (1, s1)
  | Some a =>
      e ← get_ventry s1 a;
      s2 ← (if truthy (ve_node e) then
          n ← get_node s1 (ve_node e); Ok (set_node s1 (ve_node e) (with_mountpoint n 0))
        else Ok s1);
      r ← vfs_root_entry s2;
      if a =? r then Ok (0, s2)
      else t ← tree_remove_node (v_tree s2) (ve_tree_node e); Ok (0, free_entry (set_tree s2 t) a)
  end.

Definition vfs_link (fuel : nat) (s : vfs) (source target : list Z) : res (Z * vfs) :=
  path ← k_util_path_folder target;
  '(parent, s1) ← vfs_find_node fuel s path 0;
  if parent =? 0 then Ok (- ENOENT, s1)
  else
    n ← get_node s1 parent;
    match fs_link (vn_fs n) with
    | None => Ok (- EINVAL, s1)
    | Some f => '(r, st) ← f (v_state s1) n source target; Ok (r, set_state s1 st)
    end.

(** The common end of [k_fs_vfs_rm] and [k_fs_vfs_rmdir] *)
Definition unmount_removed (s : vfs) (a : Z) : res vfs :=
  n ← get_node s a;
  s1 ← (if truthy (vn_mountpoint n) then
      e ← get_ventry s (vn_mountpoint n);
      _ ← get_node s (ve_node e);
      let s1 := free_node s (ve_node e) in
      t ← tree_remove_node (v_tree s1) (ve_tree_node e);
      Ok (free_entry (set_tree s1 t) (vn_mountpoint n))
    else Ok s);
  vfs_close s1 a.

Definition vfs_rm (s : vfs) (a : Z) : res (Z * vfs) :=
  n ← get_node s a;
  if truthy (Z.land (vn_flags n) VFS_DIR) then Ok (- EISDIR, s)
  else
    s1 ← (match fs_rm (vn_fs n) with
          | Some f => st ← f (v_state s) n; Ok (set_state s st)
          | None => Ok s
          end);
    s2 ← unmount_removed s1 a; Ok (0, s2).

Definition vfs_rmdir (s : vfs) (a : Z) : res (Z * vfs) :=
  n ← get_node s a;
  if negb (truthy (Z.land (vn_flags n) VFS_DIR)) then Ok (- ENOTDIR, s)
  else
    s1 ← (match fs_rmdir (vn_fs n) with
          | Some f => st ← f (v_state s) n; Ok (set_state s st)
          | None => Ok s
          end);
    s2 ← unmount_removed s1 a; Ok (0, s2).
End vfs.
