(* ===== verification/TmpfsTable.v ===== *)
(** * tmpfs as a file system of the vfs

    The table of operations that [__k_fs_tmpfs_to_fs_node] gives to every node of a tmpfs,
    and the initial table of virtual nodes, as an instance of the interface of Vfs.  The
    state is the heap of tmpfs nodes with the next address. *)

From S2P Require Import Prelude.
From S2P Require Import CMem.
From S2P Require Import TypesList.
From S2P Require Import Tree.
From S2P Require Import Path.
From S2P Require Import Tmpfs.
From S2P Require Import Vfs.

Record tmp_state := mk_ts { ts_nodes : tmpfs; ts_next : Z }.

Definition FS_TMPFS : Z := 2.

(** The [fs_node_t] of a tmpfs node *)
Definition tmp_vnode (h : tmp_handle) : vnode :=
  mk_vnode (th_name h) (th_device h) 0 (th_flags h) 12345 (th_size h) FS_TMPFS 1 None 0.

Definition table_read (st : tmp_state) (v : vnode) (offset size : Z) : res (Z * list Z) :=
  t ← of_option (ts_nodes st !! vn_device v);
  r ← tmpfs_read t (vn_size v) offset size;
  Ok (rr_ret r, rr_bytes r).

Definition table_write (st : tmp_state) (v : vnode) (offset : Z) (buf : list Z) : res (Z * tmp_state) :=
  t ← of_option (ts_nodes st !! vn_device v);
  '(n, t') ← tmpfs_write t offset buf;
  Ok (n, mk_ts (<[vn_device v := t']> (ts_nodes st)) (ts_next st)).

Definition table_finddir (st : tmp_state) (v : vnode) (name : list Z) : res (option vnode) :=
  o ← tmpfs_finddir (ts_nodes st) (vn_device v) name; Ok (option_map tmp_vnode o).

Definition table_readdir (st : tmp_state) (v : vnode) (index : Z) : res (option vdirent) :=
  o ← tmpfs_readdir (ts_nodes st) (vn_device v) index; Ok (option_map (λ '(name, ino), mk_dirent name ino) o).

Definition table_create (st : tmp_state) (v : vnode) (name : list Z) (mode : Z) : res (option vnode * tmp_state) :=
  '(h, f) ← tmpfs_create (ts_nodes st) (ts_next st) (vn_device v) name;
  Ok (Some (tmp_vnode h), mk_ts f (ts_next st + 1)).

Definition table_mkdir (st : tmp_state) (v : vnode) (name : list Z) (mode : Z) : res (option vnode * tmp_state) :=
  '(h, f) ← tmpfs_mkdir (ts_nodes st) (ts_next st) (vn_device v) name;
  Ok (Some (tmp_vnode h), mk_ts f (ts_next st + 1)).

Definition table_rm (st : tmp_state) (v : vnode) : res tmp_state :=
  f ← tmpfs_rm (ts_nodes st) (vn_device v); Ok (mk_ts f (ts_next st)).

(** [__k_fs_tmpfs_mount], the callback that [k_fs_tmpfs_init] registers *)
Definition table_mount (st : tmp_state) (mountpoint device : list Z) : res (option vnode * tmp_state) :=
  '(h, f) ← tmpfs_mount (ts_nodes st) (ts_next st) mountpoint;
  Ok (Some (tmp_vnode h), mk_ts f (ts_next st + 1)).

Definition only_tmpfs {A} (i : Z) (f : A) : option A := if i =? FS_TMPFS then Some f else None.

#[export] Instance tmpfs_table : fs_table tmp_state := {
  fs_read i := only_tmpfs i table_read;
  fs_write i := only_tmpfs i table_write;
  fs_open i := None;
  fs_close i := None;
  fs_finddir i := only_tmpfs i table_finddir;
  fs_readdir i := only_tmpfs i table_readdir;
  fs_readlink i := None;
  fs_link i := None;
  fs_rm i := only_tmpfs i table_rm;
  fs_rmdir i := only_tmpfs i table_rm;
  fs_create i := only_tmpfs i table_create;
  fs_mkdir i := only_tmpfs i table_mkdir;
  fs_ioctl i := None;
  fs_check i := None;
  fs_wait i := None;
  fs_truncate i := None
}.

(** [k_fs_tmpfs_init] *)
Definition k_fs_tmpfs_init (s : @vfs tmp_state) : res (@vfs tmp_state) :=
  vfs_register_fs s [116; 109; 112; 102; 115] table_mount.
