(* ===== verification/VfsFacts.v ===== *)
(** * The virtual file system: its tree of mount points and its look-ups

    Invariant of the tree and its entries, mapping and mounting of paths, and the search
    for a node through mount points and file systems. *)

From S2P Require Import Prelude.
From S2P Require Import TypesList.
From S2P Require Import Tree.
From S2P Require Import Path.
From S2P Require Import Tmpfs.
From S2P Require Import Vfs.
From S2P Require Import TmpfsTable.

Arguments Z.land : simpl never.

(** What vfs.c relies on: the table of the virtual nodes has no operation besides its
    [readdir]. *)
Class virtual_table (S : Type) `{fs_table S} := {
  virtual_close : fs_close FS_VIRTUAL = None;
  virtual_finddir : fs_finddir FS_VIRTUAL = None;
  virtual_open : fs_open FS_VIRTUAL = None;
  virtual_create : fs_create FS_VIRTUAL = None
}.

Section facts.
Context {S : Type} `{HT : fs_table S}.
Abbreviation vfs := (@vfs S).
Implicit Types (s : vfs) (n c a : Z) (l : list (list Z)) (part : list Z).

Lemma tree_get_ok (t : tree) n x : tr_heap t !! n = Some x → tree_get t n = Ok x.
Proof. unfold tree_get. by intros ->. Qed.

Lemma get_ventry_ok s a e : v_entries s !! a = Some e → get_ventry s a = Ok e.
Proof. unfold get_ventry. by intros ->. Qed.

Lemma get_node_ok s a v : v_nodes s !! a = Some v → get_node s a = Ok v.
Proof. unfold get_node. by intros ->. Qed.

(** ** One step in the tree, and a path of steps *)

Definition child_named s n part : option Z :=
  match tree_get (v_tree s) n with
  | Ok x => match find_entry s (tnd_children x) part with Ok o => o | _ => None end
  | _ => None
  end.

Fixpoint lookup_path s n l : option Z :=
  match l with
  | [] => Some n
  | part :: l' => match child_named s n part with Some c => lookup_path s c l' | None => None end
  end.

(** ** The invariant *)

(** Every node of the tree has an entry that knows its node, and the entry's [fs_node_t] is
    live and knows its entry; a mapper is a virtual node with one link.  Addresses from
    [v_next] on are free. *)
Record vfs_ok s : Prop := {
  vo_tree : tree_ok (v_tree s);
  vo_root : tr_root (v_tree s) ∈ tr_nodes (v_tree s);
  vo_entry : ∀ n x, n ∈ tr_nodes (v_tree s) → tr_heap (v_tree s) !! n = Some x →
    ∃ e v, v_entries s !! tnd_value x = Some e ∧ ve_tree_node e = n ∧
      v_nodes s !! ve_node e = Some v ∧ vn_mountpoint v = tnd_value x ∧ ve_node e ≠ 0 ∧
      (truthy (Z.land (vn_flags v) VFS_MAPPER) = true → vn_fs v = FS_VIRTUAL ∧ vn_links v = 1);
  vo_fresh : ∀ a, v_next s ≤ a →
    v_entries s !! a = None ∧ v_nodes s !! a = None ∧ tr_heap (v_tree s) !! a = None;
  vo_next : 0 < v_next s;
  vo_value : ∀ n x, n ∈ tr_nodes (v_tree s) → tr_heap (v_tree s) !! n = Some x → tnd_value x ≠ 0
}.

Lemma node_live s n : vfs_ok s → n ∈ tr_nodes (v_tree s) → ∃ x, tr_heap (v_tree s) !! n = Some x.
Proof. intros Hs Hn. destruct (ok_live _ (vo_tree _ Hs) _ Hn) as (_ & x & Hx & _). eauto. Qed.

(** ** Searching the children *)

Lemma find_entry_ok s children part :
  vfs_ok s → (∀ c, c ∈ children → c ∈ tr_nodes (v_tree s)) →
  ∃ o, find_entry s children part = Ok o ∧ ∀ c, o = Some c → c ∈ children.
Proof.
  intros Hs. induction children as [|c rest IH]; intros Hc; cbn [find_entry]; [by exists None|].
  destruct (node_live s c Hs) as [x Hx]; [apply Hc; by left|].
  destruct (vo_entry _ Hs c x) as (e & v & He & _); [apply Hc; by left|done|].
  unfold tree_get, get_ventry. rewrite Hx. cbn [of_option]. rewrite bind_ok, He. cbn [of_option]. rewrite bind_ok.
  case_bool_decide; [exists (Some c); split; [done|]; intros c' [= <-]; by left|].
  destruct IH as (o & -> & Ho); [intros; apply Hc; by right|]. exists o. split; [done|]. intros c' Hc'. right. by apply Ho.
Qed.

Lemma child_named_eq s n x part :
  vfs_ok s → n ∈ tr_nodes (v_tree s) → tr_heap (v_tree s) !! n = Some x →
  find_entry s (tnd_children x) part = Ok (child_named s n part) ∧
  ∀ c, child_named s n part = Some c → c ∈ tr_nodes (v_tree s).
Proof.
  intros Hs Hn Hx. pose proof (proj2 (ok_children _ (vo_tree _ Hs) n x Hn Hx)) as Hch.
  destruct (find_entry_ok s (tnd_children x) part Hs) as (o & Ho & Hc); [intros c Hc; by apply Hch|].
  unfold child_named, tree_get. rewrite Hx. cbn [of_option]. rewrite Ho. split; [done|].
  intros c ->. by apply Hch, Hc.
Qed.

(** The value of the node a path leads to: its entry *)
Definition node_entry s n : option Z := tnd_value <$> tr_heap (v_tree s) !! n.

Lemma entry_loop_lookup s l i n rest p :
  vfs_ok s → Forall good_seg l → p = join_slash l ∨ p = abs_path l → drop i l = rest → n ∈ tr_nodes (v_tree s) →
  entry_loop (length rest) i s p false n =
  Ok (match lookup_path s n rest with Some c => node_entry s c | None => None end, s).
Proof.
  intros Hs Hg Hp. revert i n. induction rest as [|part rest IH]; intros i n Hd Hn; cbn [entry_loop length lookup_path].
  - destruct (node_live s n Hs Hn) as [x Hx]. unfold tree_get, node_entry. by rewrite Hx.
  - assert (Hi : l !! i = Some part).
    { rewrite <- (Nat.add_0_r i), <- lookup_drop, Hd. done. }
    rewrite (segment_joined l i part p), bind_ok by done.
    destruct (node_live s n Hs Hn) as [x Hx]. unfold tree_get at 1. rewrite Hx. cbn [of_option]. rewrite bind_ok.
    destruct (child_named_eq s n x part Hs Hn Hx) as [-> Hc]. rewrite bind_ok.
    destruct (child_named s n part) as [c|]; [|done]. apply IH; [|by apply Hc].
    apply drop_S in Hi. congruence.
Qed.
(** ** Adding entries *)

(** [s'] has everything [s] has, and possibly more entries. *)
Record extends s s' : Prop := {
  ex_nodes : ∀ n, n ∈ tr_nodes (v_tree s) → n ∈ tr_nodes (v_tree s');
  ex_value : ∀ n, n ∈ tr_nodes (v_tree s) → node_entry s' n = node_entry s n;
  ex_child : ∀ n part c, n ∈ tr_nodes (v_tree s) → child_named s n part = Some c → child_named s' n part = Some c;
  ex_entries : ∀ a e, v_entries s !! a = Some e → v_entries s' !! a = Some e;
  ex_new : ∀ a e, v_entries s' !! a = Some e → v_entries s !! a = Some e ∨ v_next s ≤ ve_node e;
  ex_vnodes : ∀ a v, v_nodes s !! a = Some v → v_nodes s' !! a = Some v;
  ex_root : tr_root (v_tree s') = tr_root (v_tree s);
  ex_next : v_next s ≤ v_next s';
  ex_state : v_state s' = v_state s ∧ v_filesystems s' = v_filesystems s
}.

Lemma extends_refl s : extends s s.
Proof. split; try done. by left. Qed.

Lemma extends_trans s1 s2 s3 : extends s1 s2 → extends s2 s3 → extends s1 s3.
Proof.
  intros H1 H2. split.
  - intros n Hn. by apply (ex_nodes _ _ H2), (ex_nodes _ _ H1).
  - intros n Hn. rewrite (ex_value _ _ H2), (ex_value _ _ H1); [done|done|]. by apply (ex_nodes _ _ H1).
  - intros n part c Hn Hc. apply (ex_child _ _ H2); [by apply (ex_nodes _ _ H1)|by apply (ex_child _ _ H1)].
  - intros a e He. by apply (ex_entries _ _ H2), (ex_entries _ _ H1).
  - intros a e [He|He]%(ex_new _ _ H2); [by apply (ex_new _ _ H1)|]. pose proof (ex_next _ _ H1). right. lia.
  - intros a v Hv. by apply (ex_vnodes _ _ H2), (ex_vnodes _ _ H1).
  - by rewrite (ex_root _ _ H2), (ex_root _ _ H1).
  - pose proof (ex_next _ _ H1). pose proof (ex_next _ _ H2). lia.
  - destruct (ex_state _ _ H1), (ex_state _ _ H2). split; congruence.
Qed.

(** The search sees only the names of the children's entries. *)
Lemma find_entry_ext s s' children part :
  (∀ c, c ∈ children → ∃ x x' e e', tr_heap (v_tree s) !! c = Some x ∧ tr_heap (v_tree s') !! c = Some x' ∧
     v_entries s !! tnd_value x = Some e ∧ v_entries s' !! tnd_value x' = Some e' ∧ ve_name e = ve_name e') →
  find_entry s children part = find_entry s' children part.
Proof.
  induction children as [|c rest IH]; intros Hc; [done|]. cbn [find_entry].
  destruct (Hc c ltac:(by left)) as (x & x' & e & e' & H1 & H2 & H3 & H4 & H5).
  unfold tree_get, get_ventry. rewrite H1, H2. cbn [of_option]. rewrite !bind_ok, H3, H4. cbn [of_option].
  rewrite !bind_ok, H5. rewrite IH by (intros; apply Hc; by right). done.
Qed.

Lemma find_entry_app s (l1 l2 : list Z) part :
  vfs_ok s → (∀ c, c ∈ l1 → c ∈ tr_nodes (v_tree s)) →
  find_entry s (l1 ++ l2) part =
  (o ← find_entry s l1 part; match o with Some c => Ok (Some c) | None => find_entry s l2 part end).
Proof.
  intros Hs. induction l1 as [|c l1 IH]; intros Hc; [done|]. cbn [find_entry app].
  destruct (node_live s c Hs) as [x Hx]; [apply Hc; by left|].
  destruct (vo_entry _ Hs c x) as (e & v & He & _); [apply Hc; by left|done|].
  unfold tree_get, get_ventry. rewrite Hx. cbn [of_option]. rewrite !bind_ok, He. cbn [of_option]. rewrite !bind_ok.
  case_bool_decide; [done|]. apply IH. intros. apply Hc. by right.
Qed.

(** The state after a new entry [name] below [n], whose node is [x] *)
Definition entry_added s n (x : tree_node) (name : list Z) : vfs :=
  let e := v_next s in
  let tn := v_next s + 1 in
  let a := v_next s + 2 in
  mk_vfs
    (mk_tree (tr_id (v_tree s)) (tr_root (v_tree s)) (tr_nodes (v_tree s) ++ [tn])
       (<[n := with_children x (tnd_children x ++ [tn])]>
          (<[tn := mk_tree_node (tr_id (v_tree s)) n [] e]> (tr_heap (v_tree s)))))
    (<[e := mk_entry name a tn]> (v_entries s))
    (<[a := mk_vnode name e 0 (Z.lor VFS_DIR VFS_MAPPER) 0 0 FS_VIRTUAL 1 None e]> (v_nodes s))
    (v_next s + 3) (v_filesystems s) (v_state s).

Lemma create_entry_eq s n x name :
  vfs_ok s → n ∈ tr_nodes (v_tree s) → tr_heap (v_tree s) !! n = Some x → (length name < 256)%nat →
  vfs_create_entry s name n = Ok (v_next s, entry_added s n x name).
Proof.
  intros Hs Hn Hx Hlen. pose proof (vo_tree _ Hs) as Ht. destruct (ok_live _ Ht _ Hn) as [Hn0 _].
  destruct (vo_fresh _ Hs (v_next s + 1)) as (_ & _ & Hf); [lia|].
  assert (Hne : n ≠ v_next s + 1) by congruence.
  unfold vfs_create_entry. rewrite (proj2 (Z.leb_gt _ _)), (proj2 (truthy_true n)) by (done || lia).
  cbn [take_address v_next v_tree].
  rewrite (insert_node_eq _ _ n x (v_next s)); [|apply (ok_id _ Ht)|done|done| |].
  2: { cbn [tree_create_node tree_put tr_heap]. by rewrite lookup_insert_ne. }
  2: { cbn [tree_create_node tree_put tr_heap]. by rewrite lookup_insert_eq. }
  rewrite bind_ok. unfold create_virtual_node, get_ventry. cbn [set_entry set_tree v_entries].
  rewrite lookup_insert_eq. cbn [of_option]. rewrite bind_ok. unfold vfs_create_node. cbn [ve_name].
  rewrite (proj2 (Z.leb_gt _ _)), bind_ok by lia. cbn [alloc_node take_address set_node v_next].
  cbn [set_entry set_tree v_tree v_entries v_nodes v_next v_filesystems v_state tree_create_node tree_put
    tr_id tr_root tr_nodes tr_heap vn_name vn_mode vn_inode vn_size vn_links vn_path ve_tree_node].
  replace (v_next s + 1 + 1) with (v_next s + 2) by lia.
  replace (v_next s + 2 + 1) with (v_next s + 3) by lia. rewrite bind_ok. unfold set_entry, set_node.
  cbn [v_tree v_entries v_nodes v_next v_filesystems v_state]. by rewrite !insert_insert_eq.
Qed.
Section added.
Context s n (x : tree_node) (name : list Z) (Hs : vfs_ok s) (Hn : n ∈ tr_nodes (v_tree s)) (Hx : tr_heap (v_tree s) !! n = Some x).
Let s' := entry_added s n x name.
Let tn := v_next s + 1.

Lemma added_fresh : tn ∉ tr_nodes (v_tree s) ∧ n ≠ tn ∧ n < v_next s.
Proof.
  destruct (vo_fresh _ Hs tn) as (_ & _ & Hf); [unfold tn; lia|].
  assert (Htn : tn ∉ tr_nodes (v_tree s)). { intros Hin. destruct (node_live s tn Hs Hin). congruence. }
  split; [done|]. split; [congruence|].
  destruct (Z.lt_ge_cases n (v_next s)) as [|Hge]; [done|]. destruct (vo_fresh _ Hs n Hge) as (_ & _ & ?). congruence.
Qed.

Lemma added_tree_ok : tree_ok (v_tree s').
Proof.
  destruct added_fresh as (Htn & Hne & Hlt). pose proof (vo_next _ Hs). set (t0 := tree_create_node (v_tree s) tn (v_next s)).
  assert (Ht0 : tree_ok t0) by (apply put_outside_ok; [apply (vo_tree _ Hs)|done]).
  assert (Hp0 : tr_heap t0 !! n = Some x) by (cbn; by rewrite lookup_insert_ne).
  assert (Htn0 : tr_heap t0 !! tn = Some (mk_tree_node 0 0 [] (v_next s))) by (cbn; by rewrite lookup_insert_eq).
  destruct (insert_node_ok t0 tn n x (v_next s)) as (t' & He & Ht' & _); [done|done|unfold tn; lia|done|done|done|].
  rewrite (insert_node_eq t0 tn n x (v_next s)) in He; [|apply (ok_id _ (vo_tree _ Hs))| |done|done|done].
  2: { by destruct (ok_live _ (vo_tree _ Hs) _ Hn). }
  injection He as <-. unfold t0, tree_create_node, tree_put in Ht'. cbn [tr_id tr_root tr_nodes tr_heap] in Ht'.
  by rewrite insert_insert_eq in Ht'.
Qed.

(** The old nodes keep their values, all but [n] their children. *)
Lemma added_heap c y :
  tr_heap (v_tree s) !! c = Some y → c ≠ tn →
  ∃ y', tr_heap (v_tree s') !! c = Some y' ∧ tnd_value y' = tnd_value y ∧
    tnd_children y' = if bool_decide (c = n) then tnd_children y ++ [tn] else tnd_children y.
Proof.
  intros Hy Hc. destruct added_fresh as (_ & Hne & _).
  destruct (inserted_keeps (v_tree s) tn n x (v_next s) c y Hne Hx Hc Hy) as (y' & ? & _ & _ & ? & ?).
  by exists y'.
Qed.

Lemma added_entries a e : v_entries s !! a = Some e → v_entries s' !! a = Some e.
Proof.
  intros He. cbn. rewrite lookup_insert_ne; [done|]. intros <-. destruct (vo_fresh _ Hs (v_next s)) as (? & _); [lia|]. congruence.
Qed.

Lemma added_vnodes a v : v_nodes s !! a = Some v → v_nodes s' !! a = Some v.
Proof.
  intros Hv. cbn. rewrite lookup_insert_ne; [done|]. intros <-. destruct (vo_fresh _ Hs (v_next s + 2)) as (_ & ? & _); [lia|]. congruence.
Qed.
Lemma added_tn : tr_heap (v_tree s') !! tn = Some (mk_tree_node (tr_id (v_tree s)) n [] (v_next s)).
Proof. destruct added_fresh as (_ & Hne & _). cbn. by rewrite lookup_insert_ne, lookup_insert_eq. Qed.

Lemma added_ok : vfs_ok s'.
Proof.
  destruct added_fresh as (Htn & Hne & Hlt). pose proof (vo_next _ Hs). split.
  - exact added_tree_ok.
  - cbn. apply elem_of_app. left. apply (vo_root _ Hs).
  - intros c y [Hc| ->%list_elem_of_singleton]%elem_of_app Hy.
    + destruct (node_live s c Hs Hc) as [y0 Hy0]. destruct (added_heap c y0) as (y' & Hy' & Hv & _); [done|congruence|].
      replace y' with y in Hv by congruence. rewrite Hv.
      destruct (vo_entry _ Hs c y0 Hc Hy0) as (e & v & He & Ht & Hv' & Hrest). exists e, v.
      split; [by apply added_entries|]. split; [done|]. split; [by apply added_vnodes|done].
    + change (v_next s + 1) with tn in Hy. rewrite added_tn in Hy. injection Hy as <-. cbn [tnd_value]. eexists _, _. cbn.
      split; [by rewrite lookup_insert_eq|]. split; [done|]. cbn [ve_node]. split; [by rewrite lookup_insert_eq|].
      split; [done|]. split; [lia|]. done.
  - intros a Ha. cbn in *. destruct (vo_fresh _ Hs a) as (H1 & H2 & H3); [lia|].
    rewrite !lookup_insert_ne by lia. done.
  - cbn. lia.
  - intros c y [Hc| ->%list_elem_of_singleton]%elem_of_app Hy.
    + destruct (node_live s c Hs Hc) as [y0 Hy0]. destruct (added_heap c y0) as (y' & Hy' & Hv & _); [done|congruence|].
      replace y' with y in Hv by congruence. rewrite Hv. by apply (vo_value _ Hs c).
    + change (v_next s + 1) with tn in Hy. rewrite added_tn in Hy. injection Hy as <-. cbn. lia.
Qed.

Lemma added_names c y :
  c ∈ tr_nodes (v_tree s) → tr_heap (v_tree s) !! c = Some y →
  ∃ x x' e e', tr_heap (v_tree s) !! c = Some x ∧ tr_heap (v_tree s') !! c = Some x' ∧
     v_entries s !! tnd_value x = Some e ∧ v_entries s' !! tnd_value x' = Some e' ∧ ve_name e = ve_name e'.
Proof.
  intros Hc Hy. destruct added_fresh as (Htn & _).
  destruct (added_heap c y) as (y' & Hy' & Hv & _); [done|congruence|].
  destruct (vo_entry _ Hs c y Hc Hy) as (e & _ & He & _). exists y, y', e, e.
  split; [done|]. split; [done|]. split; [done|]. split; [rewrite Hv; by apply added_entries|done].
Qed.

(** The children of an old node are found as before; below [n] the new name is found
    when it was not there. *)
Lemma added_child c part :
  c ∈ tr_nodes (v_tree s) →
  child_named s' c part =
  match child_named s c part with
  | Some d => Some d
  | None => if bool_decide (c = n ∧ part = name) then Some tn else None
  end.
Proof.
  intros Hc. destruct added_fresh as (Htn & _). destruct (node_live s c Hs Hc) as [y Hy].
  destruct (added_heap c y) as (y' & Hy' & _ & Hch); [done|congruence|].
  destruct (child_named_eq s c y part Hs Hc Hy) as [Hfind _].
  assert (Hin : ∀ d, d ∈ tnd_children y → d ∈ tr_nodes (v_tree s)).
  { intros d Hd. by apply (ok_children _ (vo_tree _ Hs) c y Hc Hy). }
  assert (Hext : find_entry s' (tnd_children y) part = Ok (child_named s c part)).
  { rewrite <- Hfind. symmetry. apply find_entry_ext. intros d Hd. destruct (node_live s d Hs (Hin d Hd)) as [z Hz].
    apply (added_names d z); [by apply Hin|done]. }
  unfold child_named at 1, tree_get. rewrite Hy'. cbn [of_option]. rewrite Hch.
  destruct (decide (c = n)) as [->|Hcn].
  - rewrite bool_decide_eq_true_2 by done.
    rewrite find_entry_app; [|apply added_ok|intros d Hd; cbn; apply elem_of_app; left; by apply Hin].
    rewrite Hext, bind_ok. destruct (child_named s n part) as [d|]; [done|]. cbn [find_entry].
    unfold tree_get, get_ventry. rewrite added_tn. cbn [of_option]. rewrite bind_ok. cbn [tnd_value].
    cbn [v_entries s' entry_added]. unfold s', entry_added. cbn [v_entries]. rewrite lookup_insert_eq. cbn [of_option].
    rewrite bind_ok. cbn [ve_name]. destruct (decide (part = name)) as [->|Hne].
    + by rewrite !bool_decide_eq_true_2.
    + rewrite !bool_decide_eq_false_2; [done|by intros [_ ?]|done].
  - rewrite (bool_decide_eq_false_2 (c = n)), Hext by done. rewrite bool_decide_eq_false_2 by (by intros [? _]).
    by destruct (child_named s c part).
Qed.

Lemma added_extends : extends s s'.
Proof.
  destruct added_fresh as (Htn & _). split.
  - intros c Hc. cbn. apply elem_of_app. by left.
  - intros c Hc. destruct (node_live s c Hs Hc) as [y Hy]. destruct (added_heap c y) as (y' & Hy' & Hv & _); [done|congruence|].
    unfold node_entry. rewrite Hy', Hy. cbn. by rewrite Hv.
  - intros c part d Hc Hd. by rewrite added_child, Hd.
  - exact added_entries.
  - cbn. intros a e. rewrite lookup_insert_Some. intros [[_ <-]|[_ ?]]; [right; cbn; lia|by left].
  - exact added_vnodes.
  - done.
  - cbn. lia.
  - done.
Qed.
End added.
(** ** Mapping a path *)

Lemma lookup_path_in s n l c :
  vfs_ok s → n ∈ tr_nodes (v_tree s) → lookup_path s n l = Some c → c ∈ tr_nodes (v_tree s).
Proof.
  intros Hs. revert n. induction l as [|part l IH]; intros n Hn; cbn [lookup_path]; [by intros [= <-]|].
  destruct (child_named s n part) as [d|] eqn:Hd; [|done]. destruct (node_live s n Hs Hn) as [x Hx].
  apply IH. by apply (child_named_eq s n x part Hs Hn Hx).
Qed.

Lemma lookup_path_extends s s' n l c :
  vfs_ok s → extends s s' → n ∈ tr_nodes (v_tree s) → lookup_path s n l = Some c → lookup_path s' n l = Some c.
Proof.
  intros Hs He. revert n. induction l as [|part l IH]; intros n Hn; cbn [lookup_path]; [done|].
  destruct (child_named s n part) as [d|] eqn:Hd; [|done]. rewrite (ex_child _ _ He n part d Hn Hd).
  apply IH. destruct (node_live s n Hs Hn) as [x Hx]. by apply (child_named_eq s n x part Hs Hn Hx).
Qed.

Lemma entry_loop_create s l i n rest p :
  vfs_ok s → Forall good_seg l → Forall (λ x, (length x < 256)%nat) l → p = join_slash l ∨ p = abs_path l →
  drop i l = rest → n ∈ tr_nodes (v_tree s) →
  ∃ c a s', entry_loop (length rest) i s p true n = Ok (Some a, s') ∧ vfs_ok s' ∧ extends s s' ∧
    lookup_path s' n rest = Some c ∧ node_entry s' c = Some a.
Proof.
  intros Hs Hg Hshort Hp. revert i n s Hs. induction rest as [|part rest IH]; intros i n s Hs Hd Hn; cbn [entry_loop length lookup_path].
  - destruct (node_live s n Hs Hn) as [x Hx]. unfold tree_get, node_entry. rewrite Hx. exists n, (tnd_value x), s.
    split; [done|]. split; [done|]. split; [apply extends_refl|]. by rewrite Hx.
  - assert (Hi : l !! i = Some part) by (rewrite <- (Nat.add_0_r i), <- lookup_drop, Hd; done).
    assert (Hd' : drop (Datatypes.S i) l = rest) by (apply drop_S in Hi; congruence).
    rewrite (segment_joined l i part p), bind_ok by done.
    destruct (node_live s n Hs Hn) as [x Hx]. unfold tree_get at 1. rewrite Hx. cbn [of_option]. rewrite bind_ok.
    destruct (child_named_eq s n x part Hs Hn Hx) as [-> Hc]. rewrite bind_ok.
    destruct (child_named s n part) as [c|] eqn:Hcn.
    + destruct (IH (Datatypes.S i) c s Hs Hd' (Hc _ eq_refl)) as (d & a & s' & He & Hs' & Hext & Hl & Ha).
      exists d, a, s'. split; [done|]. split; [done|]. split; [done|]. by rewrite (ex_child _ _ Hext n part c Hn Hcn).
    + rewrite (create_entry_eq s n x part) by (done || (by apply (Forall_lookup_1 _ _ _ _ Hshort Hi))). rewrite bind_ok.
      pose proof (added_ok s n x part Hs Hn Hx) as Hs1. pose proof (added_extends s n x part Hs Hn Hx) as He1.
      pose proof (added_child s n x part Hs Hn Hx n part Hn) as Hc1. rewrite Hcn, bool_decide_eq_true_2 in Hc1 by done.
      unfold get_ventry at 1. cbn [v_entries entry_added]. rewrite lookup_insert_eq. cbn [of_option]. rewrite bind_ok. cbn [ve_tree_node].
      destruct (IH (Datatypes.S i) (v_next s + 1) (entry_added s n x part) Hs1 Hd') as (d & a & s' & He & Hs' & Hext & Hl & Ha).
      { cbn. set_solver. }
      exists d, a, s'. split; [done|]. split; [done|]. split; [by eapply extends_trans|].
      by rewrite (ex_child _ _ Hext n part _ (ex_nodes _ _ He1 _ Hn) Hc1).
Qed.

(** What [k_fs_vfs_get_mountpoint] gives for an absolute path *)
Lemma get_mountpoint_eq s l :
  vfs_ok s → Forall good_seg l →
  vfs_get_mountpoint s (abs_path l) =
  Ok (match lookup_path s (tr_root (v_tree s)) l with Some c => node_entry s c | None => None end, s).
Proof.
  intros Hs Hg. pose proof (vo_root _ Hs) as Hr. unfold vfs_get_mountpoint, vfs_get_entry.
  destruct (decide (l = [])) as [->|Hne].
  - rewrite bool_decide_eq_true_2 by done. unfold vfs_root_entry, tree_get. cbn [lookup_path]. unfold node_entry.
    destruct (node_live s _ Hs Hr) as [x ->]. done.
  - rewrite bool_decide_eq_false_2 by (by apply abs_not_root).
    destruct (path_length_joined l Hg Hne) as [_ ->]. rewrite bind_ok, Nat2Z.id.
    by apply (entry_loop_lookup s l 0); [|done|right|rewrite drop_0|].
Qed.

Lemma map_path_eq s l :
  vfs_ok s → Forall good_seg l → Forall (λ x, (length x < 256)%nat) l →
  ∃ c a s', vfs_map_path s (abs_path l) = Ok (Some a, s') ∧ vfs_ok s' ∧ extends s s' ∧
    lookup_path s' (tr_root (v_tree s)) l = Some c ∧ node_entry s' c = Some a.
Proof.
  intros Hs Hg Hshort. pose proof (vo_root _ Hs) as Hr. unfold vfs_map_path, vfs_get_entry.
  destruct (decide (l = [])) as [->|Hne].
  - rewrite bool_decide_eq_true_2 by done. unfold vfs_root_entry, tree_get. cbn [lookup_path]. unfold node_entry.
    destruct (node_live s _ Hs Hr) as [x Hx]. rewrite Hx. exists (tr_root (v_tree s)), (tnd_value x), s.
    split; [done|]. split; [done|]. split; [apply extends_refl|]. by rewrite Hx.
  - rewrite bool_decide_eq_false_2 by (by apply abs_not_root).
    destruct (path_length_joined l Hg Hne) as [_ ->]. rewrite bind_ok, Nat2Z.id.
    by apply (entry_loop_create s l 0); [..|right|rewrite drop_0|].
Qed.

(** Mapping a path creates the entries it is made of and finds this entry from then on,
    without moving any other: paths that led to an entry still lead to it, their nodes are
    unchanged, and the tree stays well formed. *)
Theorem map_path_found s l :
  vfs_ok s → Forall good_seg l → Forall (λ x, (length x < 256)%nat) l →
  ∃ a s', vfs_map_path s (abs_path l) = Ok (Some a, s') ∧ vfs_ok s' ∧
  vfs_get_mountpoint s' (abs_path l) = Ok (Some a, s') ∧
  (∀ l' a', Forall good_seg l' → vfs_get_mountpoint s (abs_path l') = Ok (Some a', s) →
     vfs_get_mountpoint s' (abs_path l') = Ok (Some a', s')) ∧
  (∀ b v, v_nodes s !! b = Some v → v_nodes s' !! b = Some v).
Proof.
  intros Hs Hg Hshort. destruct (map_path_eq s l Hs Hg Hshort) as (c & a & s' & He & Hs' & Hext & Hl & Ha).
  pose proof (vo_root _ Hs) as Hr. exists a, s'. split; [done|]. split; [done|]. split; [|split].
  - rewrite get_mountpoint_eq by done. rewrite (ex_root _ _ Hext), Hl. by rewrite Ha.
  - intros l' a' Hg'. rewrite !get_mountpoint_eq by done. rewrite (ex_root _ _ Hext).
    destruct (lookup_path s (tr_root (v_tree s)) l') as [d|] eqn:Hd; [|done]. intros [= Hn].
    rewrite (lookup_path_extends _ _ _ _ _ Hs Hext Hr Hd). rewrite (ex_value _ _ Hext), Hn; [done|].
    by eapply lookup_path_in.
  - apply (ex_vnodes _ _ Hext).
Qed.
(** ** The start *)

Definition first_vfs (st : S) : vfs :=
  mk_vfs (mk_tree 1 4 [4] {[4 := mk_tree_node 1 0 [] 2]}) {[2 := mk_entry ROOT_NAME 3 4]}
    {[3 := mk_vnode ROOT_NAME 2 0 34 0 0 FS_VIRTUAL 1 None 2]} 5 [] st.

Lemma init_eq st : vfs_init st = Ok (first_vfs st).
Proof.
  reflexivity.
Qed.

Lemma first_vfs_ok st : vfs_ok (first_vfs st).
Proof.
  split; cbn.
  - split; cbn.
    + intros n ->%list_elem_of_singleton. split; [done|]. eexists. split; [apply lookup_singleton_eq|done].
    + apply NoDup_singleton.
    + intros n x ->%list_elem_of_singleton. rewrite lookup_singleton_eq. intros [= <-]. split; [constructor|]. cbn. set_solver.
    + intros n x ->%list_elem_of_singleton. rewrite lookup_singleton_eq. by intros [= <-].
    + done.
  - by apply list_elem_of_singleton.
  - intros n x ->%list_elem_of_singleton. rewrite lookup_singleton_eq. intros [= <-]. cbn [tnd_value].
    eexists _, _. split; [apply lookup_singleton_eq|]. split; [done|]. cbn [ve_node]. split; [apply lookup_singleton_eq|]. done.
  - intros a Ha. rewrite !lookup_singleton_ne by lia. done.
  - lia.
  - intros n x ->%list_elem_of_singleton. rewrite lookup_singleton_eq. by intros [= <-].
Qed.

(** ** Mounting *)

Definition not_mapper (v : vnode) : Prop := truthy (Z.land (vn_flags v) VFS_MAPPER) = false.
Definition not_symlink (v : vnode) : Prop := truthy (Z.land (vn_flags v) VFS_SYMLINK) = false.

(** A node that is no mount point's *)
Definition unmounted s a : Prop := ∀ m e, v_entries s !! m = Some e → ve_node e ≠ a.

Context `{HV : !virtual_table S}.

(** The state after [a] is mounted at the entry [m] *)
Definition mounted_at s (m : Z) (e : vfs_entry) (freed : bool) a (r : vnode) : vfs :=
  mk_vfs (v_tree s) (<[m := mk_entry (ve_name e) a (ve_tree_node e)]> (v_entries s))
    (<[a := with_mountpoint r m]> (if freed then delete (ve_node e) (v_nodes s) else v_nodes s))
    (v_next s) (v_filesystems s) (v_state s).

Lemma close_virtual s a v :
  v_nodes s !! a = Some v → a ≠ 0 → vn_fs v = FS_VIRTUAL → vn_links v = 1 → 
  vfs_close s a = Ok (mk_vfs (v_tree s) (v_entries s) (delete a (v_nodes s)) (v_next s) (v_filesystems s) (v_state s)).
Proof.
  intros Hv Ha Hf Hl. unfold vfs_close, get_node. rewrite (proj2 (Z.eqb_neq _ _)), Hv by done. cbn [of_option].
  rewrite bind_ok, Hl. change (truthy (u32 (1 - 1))) with false. cbv iota. rewrite Hf, virtual_close, bind_ok.
  unfold free_node, set_node. cbn. by rewrite delete_insert_eq.
Qed.

Lemma mount_node_eq s l a r :
  vfs_ok s → Forall good_seg l → Forall (λ x, (length x < 256)%nat) l →
  v_nodes s !! a = Some r → unmounted s a →
  ∃ c m e s1 freed, vfs_ok s1 ∧ extends s s1 ∧ lookup_path s1 (tr_root (v_tree s)) l = Some c ∧
    node_entry s1 c = Some m ∧ v_entries s1 !! m = Some e ∧ ve_tree_node e = c ∧ unmounted s1 a ∧
    vfs_mount_node s (abs_path l) a = Ok (0, mounted_at s1 m e freed a r).
Proof.
  intros Hs Hg Hshort Ha Hun. destruct (map_path_eq s l Hs Hg Hshort) as (c & m & s1 & He & Hs1 & Hext & Hl & Hm).
  assert (Hc : c ∈ tr_nodes (v_tree s1)).
  { eapply (lookup_path_in s1); [done| |exact Hl]. apply (ex_nodes _ _ Hext), (vo_root _ Hs). }
  unfold node_entry in Hm. destruct (tr_heap (v_tree s1) !! c) as [x|] eqn:Hx; [|done]. injection Hm as <-.
  destruct (vo_entry _ Hs1 c x Hc Hx) as (e & v & Hen & Htn & Hv & Hmp & Hn0 & Hmap).
  assert (Ha1 : v_nodes s1 !! a = Some r) by (by apply (ex_vnodes _ _ Hext)).
  assert (Hun1 : unmounted s1 a).
  { intros m e' He' <-. destruct (ex_new _ _ Hext _ _ He') as [He0|Hge]; [by apply (Hun _ _ He0)|].
    destruct (vo_fresh _ Hs _ Hge) as (_ & ? & _). congruence. }
  pose proof (Hun1 _ _ Hen) as Hea.
  unfold vfs_mount_node. fold (vfs_map_path s (abs_path l)). rewrite He, bind_ok.
  unfold get_ventry. rewrite Hen. cbn [of_option]. rewrite bind_ok, (proj2 (truthy_true _) Hn0).
  unfold get_node. rewrite Hv. cbn [of_option]. rewrite bind_ok.
  exists c, (tnd_value x), e, s1, (truthy (Z.land (vn_flags v) VFS_MAPPER)).
  split; [done|]. split; [done|]. split; [done|]. split; [unfold node_entry; by rewrite Hx|]. split; [done|].
  split; [done|]. split; [done|].
  destruct (truthy (Z.land (vn_flags v) VFS_MAPPER)).
  - destruct (Hmap eq_refl) as [Hvf Hvl]. rewrite (close_virtual s1 _ v), bind_ok by done.
    cbn [v_nodes]. rewrite lookup_delete_ne, Ha1 by done. done.
  - rewrite bind_ok, Ha1. done.
Qed.
Section mounted.
Context s (m c : Z) (e : vfs_entry) (freed : bool) (a : Z) (r : vnode).
Context (Hs : vfs_ok s) (Hc : c ∈ tr_nodes (v_tree s)) (Hm : node_entry s c = Some m).
Context (He : v_entries s !! m = Some e) (Htn : ve_tree_node e = c).
Context (Ha : v_nodes s !! a = Some r) (Ha0 : a ≠ 0) (Hun : unmounted s a) (Hmap : not_mapper r).
Let s' := mounted_at s m e freed a r.

(** The other entries and their nodes *)
Lemma mounted_other n x :
  n ∈ tr_nodes (v_tree s) → tr_heap (v_tree s) !! n = Some x → n ≠ c →
  tnd_value x ≠ m ∧ ∃ e' v, v_entries s !! tnd_value x = Some e' ∧ ve_tree_node e' = n ∧
    v_nodes s !! ve_node e' = Some v ∧ vn_mountpoint v = tnd_value x ∧ ve_node e' ≠ a ∧ ve_node e' ≠ ve_node e.
Proof.
  intros Hn Hx Hnc. destruct (vo_entry _ Hs n x Hn Hx) as (e' & v & He' & Ht' & Hv & Hmp & _).
  assert (Hne : tnd_value x ≠ m) by congruence. split; [done|]. exists e', v. split; [done|]. split; [done|].
  split; [done|]. split; [done|]. split; [by eapply Hun|]. intros Heq.
  destruct (node_live s c Hs Hc) as [y Hy]. destruct (vo_entry _ Hs c y Hc Hy) as (e2 & v2 & He2 & _ & Hv2 & Hmp2 & _).
  unfold node_entry in Hm. rewrite Hy in Hm. injection Hm as Hmv. rewrite Hmv in *. assert (e2 = e) by congruence.
  subst e2. congruence.
Qed.

Lemma mounted_ok : vfs_ok s'.
Proof.
  pose proof (vo_fresh _ Hs) as Hf.
  split; [apply (vo_tree _ Hs)|apply (vo_root _ Hs)| | |apply (vo_next _ Hs)|apply (vo_value _ Hs)]; cbn [s' mounted_at v_tree].
  - intros n x Hn Hx. unfold s', mounted_at. cbn [v_entries v_nodes]. destruct (decide (n = c)) as [->|Hnc].
    + unfold node_entry in Hm. rewrite Hx in Hm. injection Hm as ->. eexists _, _. rewrite lookup_insert_eq.
      split; [done|]. split; [done|]. cbn [ve_node]. rewrite lookup_insert_eq. split; [done|]. split; [done|].
      split; [done|]. cbn [vn_flags with_mountpoint]. intros Ht. unfold not_mapper in Hmap. congruence.
    + destruct (mounted_other n x Hn Hx Hnc) as (Hne & e' & v & He' & Ht' & Hv & Hmp & Hea & Hee).
      destruct (vo_entry _ Hs n x Hn Hx) as (e2 & v2 & He2 & Ht2 & Hv2 & Hrest). assert (e2 = e') as -> by congruence.
      exists e', v2. rewrite lookup_insert_ne by done. split; [done|]. split; [done|].
      rewrite lookup_insert_ne by done. split; [|done]. destruct freed; [|done]. by rewrite lookup_delete_ne.
  - intros b Hb. destruct (Hf b Hb) as (H1 & H2 & H3). unfold s', mounted_at. cbn [v_entries v_nodes v_tree].
    split; [rewrite lookup_insert_ne; [done|congruence]|]. split; [|done]. rewrite lookup_insert_ne by congruence.
    destruct freed; [|done]. apply lookup_delete_None. by right.
Qed.

Lemma mounted_child n part : n ∈ tr_nodes (v_tree s) → child_named s' n part = child_named s n part.
Proof.
  intros Hn. destruct (node_live s n Hs Hn) as [x Hx]. destruct (child_named_eq s n x part Hs Hn Hx) as [Hf _].
  destruct (child_named_eq s' n x part mounted_ok Hn Hx) as [Hf' _].
  assert (Heq : find_entry s (tnd_children x) part = find_entry s' (tnd_children x) part); [|congruence].
  apply find_entry_ext. intros d Hd.
  destruct (ok_children _ (vo_tree _ Hs) n x Hn Hx) as [_ Hch]. destruct (Hch d Hd) as (Hin & y & Hy & _).
  destruct (vo_entry _ Hs d y Hin Hy) as (e1 & _ & He1 & _). exists y, y, e1.
  unfold s', mounted_at. cbn [v_tree v_entries]. destruct (decide (m = tnd_value y)) as [Hmy|Hne].
  - eexists. split; [done|]. split; [done|]. split; [done|]. rewrite <- Hmy, lookup_insert_eq. split; [done|]. cbn. congruence.
  - exists e1. by rewrite lookup_insert_ne.
Qed.

Lemma mounted_lookup n l : n ∈ tr_nodes (v_tree s) → lookup_path s' n l = lookup_path s n l.
Proof.
  revert n. induction l as [|part l IH]; intros n Hn; cbn [lookup_path]; [done|]. rewrite mounted_child by done.
  destruct (child_named s n part) as [d|] eqn:Hd; [|done]. apply IH. destruct (node_live s n Hs Hn) as [x Hx].
  by apply (child_named_eq s n x part Hs Hn Hx).
Qed.
End mounted.
(** ** Finding the node of a mapped path *)

Lemma find_entry_name s children part c :
  find_entry s children part = Ok (Some c) →
  ∃ x e, tr_heap (v_tree s) !! c = Some x ∧ v_entries s !! tnd_value x = Some e ∧ ve_name e = part.
Proof.
  induction children as [|d rest IH]; cbn [find_entry]; [done|].
  intros (x & Hx%of_option_ok & Hr)%bind_ok_inv. apply bind_ok_inv in Hr as (e & He%of_option_ok & Hr).
  case_bool_decide; [injection Hr as <-; by exists x, e|by apply IH].
Qed.

(** The [fs_node_t] of the entry of a tree node *)
Definition node_at s n : option Z := m ← node_entry s n; e ← v_entries s !! m; Some (ve_node e).

(** The outer loop passes from a tree node to a child it finds. *)
Lemma find_loop_step rec s l i n part p filename flags result k :
  vfs_ok s → n ∈ tr_nodes (v_tree s) → Forall good_seg l → p = join_slash l ∨ p = abs_path l → l !! i = Some part →
  ∃ x, tr_heap (v_tree s) !! n = Some x ∧
  find_loop rec (Datatypes.S k) i s p filename flags n result =
  match child_named s n part with
  | None =>
      e ← get_ventry s (tnd_value x);
      '(a, s1) ← walk_loop rec (Datatypes.S k) i s p flags (ve_node e);
      check_name s1 a filename
  | Some c =>
      find_loop rec k (Datatypes.S i) s p filename flags c
        (if bool_decide (part = filename) then default 0 (node_at s c) else result)
  end.
Proof.
  intros Hs Hn Hg Hp Hi. destruct (node_live s n Hs Hn) as [x Hx]. exists x. split; [done|]. cbn [find_loop].
  rewrite (segment_joined l i part p), bind_ok, (tree_get_ok _ _ _ Hx), bind_ok by done.
  destruct (child_named_eq s n x part Hs Hn Hx) as [Hf Hc]. rewrite Hf, bind_ok.
  destruct (child_named s n part) as [c|] eqn:Hcn; [|done].
  destruct (find_entry_name _ _ _ _ Hf) as (y & e & Hy & He & Hname).
  rewrite (tree_get_ok _ _ _ Hy), bind_ok, (get_ventry_ok _ _ _ He), bind_ok, Hname.
  unfold node_at, node_entry. rewrite Hy. cbn. by rewrite He.
Qed.

Lemma find_loop_mapped rec s l i n rest p filename flags result c :
  vfs_ok s → n ∈ tr_nodes (v_tree s) → Forall good_seg l → p = join_slash l ∨ p = abs_path l → drop i l = rest →
  last rest = Some filename → lookup_path s n rest = Some c →
  find_loop rec (length rest) i s p filename flags n result = Ok (default 0 (node_at s c), s).
Proof.
  intros Hs Hn Hg Hp. revert i n result Hn.
  induction rest as [|part rest IH]; intros i n result Hn Hd Hlast Hl; [done|]. cbn [length lookup_path] in *.
  assert (Hi : l !! i = Some part) by (rewrite <- (Nat.add_0_r i), <- lookup_drop, Hd; done).
  destruct (find_loop_step rec s l i n part p filename flags result (length rest) Hs Hn Hg Hp Hi) as (x & Hx & ->).
  destruct (child_named s n part) as [d|] eqn:Hcn; [|done].
  destruct rest as [|part2 rest].
  - injection Hl as ->. injection Hlast as ->. by rewrite bool_decide_eq_true_2.
  - apply IH; [|apply drop_S in Hi; congruence|done|done].
    by apply (child_named_eq s n x part Hs Hn Hx).
Qed.

Lemma find_node_mapped s l c a v flags fuel :
  vfs_ok s → Forall good_seg l → lookup_path s (tr_root (v_tree s)) l = Some c → node_at s c = Some a →
  v_nodes s !! a = Some v → a ≠ 0 → is_followed v flags = false →
  vfs_find_node (Datatypes.S fuel) s (abs_path l) flags = Ok (a, s).
Proof.
  intros Hs Hg Hl Ha Hv Ha0 Hf. cbn [vfs_find_node]. destruct (decide (l = [])) as [->|Hne].
  - rewrite bool_decide_eq_true_2 by done. injection Hl as <-. unfold node_at, node_entry in Ha.
    unfold vfs_root_node, vfs_root_entry, tree_get, get_ventry. destruct (tr_heap _ !! _) as [x|]; [|done]. cbn in Ha.
    cbn [of_option]. rewrite !bind_ok. destruct (v_entries s !! tnd_value x) as [e|]; [|done]. cbn [of_option]. rewrite !bind_ok. injection Ha as <-. done.
  - rewrite bool_decide_eq_false_2 by (by apply abs_not_root).
    destruct (path_length_joined l Hg Hne) as [_ ->]. rewrite bind_ok, Nat2Z.id.
    rewrite (filename_joined l) by (done || by right). rewrite bind_ok.
    destruct (last l) as [filename|] eqn:Hlast; [|by apply last_None in Hlast]. cbn [of_option]. rewrite bind_ok.
    rewrite (find_loop_mapped _ s l 0 _ l _ filename flags 0 c) by
      (done || (by right) || (by rewrite drop_0) || apply (vo_root _ Hs)).
    rewrite bind_ok, Ha. change (default 0 (Some a)) with a. rewrite (proj2 (Z.eqb_neq a 0)) by done.
    unfold get_node. rewrite Hv. cbn [of_option]. by rewrite bind_ok, Hf.
Qed.

(** C17: A node mounted at a path is what looking up this path gives from then on, whether
    the path existed or had to be created, and whatever was mounted there; all other mount
    points keep their nodes, every path still leads to its entry, and the tree stays well
    formed. *)
Theorem mount_node_found s l a r flags fuel :
  vfs_ok s → Forall good_seg l → Forall (λ x, (length x < 256)%nat) l →
  v_nodes s !! a = Some r → a ≠ 0 → unmounted s a → not_mapper r → not_symlink r →
  ∃ m s', vfs_mount_node s (abs_path l) a = Ok (0, s') ∧ vfs_ok s' ∧
    vfs_find_node (Datatypes.S fuel) s' (abs_path l) flags = Ok (a, s') ∧
    v_nodes s' !! a = Some (with_mountpoint r m) ∧
    vfs_get_mountpoint s' (abs_path l) = Ok (Some m, s') ∧
    (∀ m' e, m' ≠ m → v_entries s !! m' = Some e → v_entries s' !! m' = Some e) ∧
    (∀ l' a', Forall good_seg l' → vfs_get_mountpoint s (abs_path l') = Ok (Some a', s) →
       vfs_get_mountpoint s' (abs_path l') = Ok (Some a', s')).
Proof.
  intros Hs Hg Hshort Ha Ha0 Hun Hmap Hsym. pose proof (vo_root _ Hs) as Hr.
  destruct (mount_node_eq s l a r Hs Hg Hshort Ha Hun) as (c & m & e & s1 & freed & Hs1 & Hext & Hl & Hm & He & Htn & Hun1 & Heq).
  assert (Hr1 : tr_root (v_tree s) ∈ tr_nodes (v_tree s1)) by (by apply (ex_nodes _ _ Hext)).
  assert (Hc : c ∈ tr_nodes (v_tree s1)) by (by eapply lookup_path_in).
  assert (Ha1 : v_nodes s1 !! a = Some r) by (by apply (ex_vnodes _ _ Hext)).
  assert (Hok : vfs_ok (mounted_at s1 m e freed a r)) by (by eapply mounted_ok).
  assert (Hlook : ∀ l' c', lookup_path s (tr_root (v_tree s)) l' = Some c' →
    lookup_path (mounted_at s1 m e freed a r) (tr_root (v_tree s)) l' = Some c').
  { intros l' c' Hc'. rewrite (mounted_lookup s1 m c) by done. by apply (lookup_path_extends s). }
  assert (Hlc : lookup_path (mounted_at s1 m e freed a r) (tr_root (v_tree s)) l = Some c)
    by (by rewrite (mounted_lookup s1 m c) by done).
  exists m, (mounted_at s1 m e freed a r). split; [done|]. split; [done|]. split_and!.
  - apply (find_node_mapped _ l c a (with_mountpoint r m)); try done.
    + cbn [mounted_at v_tree]. rewrite (ex_root _ _ Hext). done.
    + unfold node_at. change (node_entry (mounted_at s1 m e freed a r) c) with (node_entry s1 c). rewrite Hm. cbn.
      by rewrite lookup_insert_eq.
    + cbn. by rewrite lookup_insert_eq.
    + unfold is_followed, not_symlink in *. cbn [vn_flags with_mountpoint]. by rewrite Hsym.
  - cbn. by rewrite lookup_insert_eq.
  - rewrite get_mountpoint_eq by done. cbn [mounted_at v_tree]. rewrite (ex_root _ _ Hext). fold (mounted_at s1 m e freed a r).
    rewrite Hlc. by change (node_entry (mounted_at s1 m e freed a r) c) with (node_entry s1 c); rewrite Hm.
  - intros m' e' Hne He'. cbn. rewrite lookup_insert_ne by done. by apply (ex_entries _ _ Hext).
  - intros l' a' Hg'. rewrite !get_mountpoint_eq by done. cbn [mounted_at v_tree]. rewrite (ex_root _ _ Hext).
    fold (mounted_at s1 m e freed a r). destruct (lookup_path s (tr_root (v_tree s)) l') as [d|] eqn:Hd; [|done].
    rewrite (Hlook _ _ Hd). intros [= Hn]. change (node_entry (mounted_at s1 m e freed a r) d) with (node_entry s1 d).
    rewrite (ex_value _ _ Hext), Hn; [done|]. by eapply lookup_path_in.
Qed.
(** ** Finding a node through a file system *)

(** The nodes a file system gives are not mounted, and not symbolic links. *)
Definition plain_node (v : vnode) : Prop := vn_mountpoint v = 0 ∧ not_symlink v.
Definition plain_fs (st : S) : Prop :=
  ∀ i f v x w, fs_finddir i = Some f → f st v x = Ok (Some w) → plain_node w.

(** The look-up of a chain of names, one directory at a time *)
Fixpoint resolve (st : S) (v : vnode) (l : list (list Z)) : res (option vnode) :=
  match l with
  | [] => Ok (Some v)
  | x :: l' =>
      match fs_finddir (vn_fs v) with
      | None => Ok None
      | Some f => o ← f st v x; match o with None => Ok None | Some w => resolve st w l' end
      end
  end.

(** [s] with other nodes *)
Definition with_vnodes s (nodes : gmap Z vnode) (next : Z) : vfs :=
  mk_vfs (v_tree s) (v_entries s) nodes next (v_filesystems s) (v_state s).

Lemma not_followed v flags : not_symlink v → is_followed v flags = false.
Proof. unfold not_symlink, is_followed. by intros ->. Qed.

(** A step of the inner loop *)
Lemma walk_step rec s l i k p flags a v part :
  Forall good_seg l → p = join_slash l ∨ p = abs_path l → l !! i = Some part →
  v_nodes s !! a = Some v → a ≠ 0 → not_symlink v →
  walk_loop rec (Datatypes.S k) i s p flags a =
  ('(b, s2) ← vfs_finddir s a part; s3 ← vfs_maybe_free s2 a; walk_loop rec k (Datatypes.S i) s3 p flags b).
Proof.
  intros Hg Hp Hi Hv Ha Hsym. cbn [walk_loop]. rewrite (proj2 (Z.eqb_neq a 0)) by done.
  rewrite (segment_joined l i part p), bind_ok, (get_node_ok _ _ _ Hv), bind_ok by done.
  rewrite not_followed, bind_ok by done. by rewrite (proj2 (Z.eqb_neq a 0)) by done.
Qed.

Lemma walk_null rec k i s p flags : walk_loop rec k i s p flags 0 = Ok (0, s).
Proof. by destruct k. Qed.

(** From a node that the search itself has made: it is freed on the way, and only the
    result stays. *)
Lemma walk_plain rec l p flags rest i s base a v o :
  plain_fs (v_state s) → Forall good_seg l → p = join_slash l ∨ p = abs_path l → drop i l = rest →
  resolve (v_state s) v rest = Ok o → v_nodes s = <[a := v]> base → base !! a = None → plain_node v →
  0 < a < v_next s → (∀ b, v_next s ≤ b → base !! b = None) →
  ∃ b next, v_next s ≤ next ∧
  match o with
  | Some w => 0 < b < next ∧ base !! b = None ∧ plain_node w ∧
      walk_loop rec (length rest) i s p flags a = Ok (b, with_vnodes s (<[b := w]> base) next)
  | None => walk_loop rec (length rest) i s p flags a = Ok (0, with_vnodes s base next)
  end.
Proof.
  intros Hfs Hg Hp. revert i s a v Hfs. induction rest as [|part rest IH]; intros i s a v Hfs Hd Hr Hn Hb [Hm Hsym] Ha Hfresh.
  - injection Hr as <-. exists a, (v_next s). split; [lia|]. split; [lia|]. split; [done|]. split; [done|].
    cbn [walk_loop length]. do 2 f_equal. destruct s. unfold with_vnodes. cbn in *. by rewrite Hn.
  - assert (Hi : l !! i = Some part) by (rewrite <- (Nat.add_0_r i), <- lookup_drop, Hd; done).
    assert (Hd' : drop (Datatypes.S i) l = rest) by (apply drop_S in Hi; congruence).
    assert (Hv : v_nodes s !! a = Some v) by (rewrite Hn; apply lookup_insert_eq).
    cbn [length]. rewrite (walk_step rec s l i (length rest) p flags a v part) by (done || lia).
    unfold vfs_finddir. rewrite (get_node_ok _ _ _ Hv), bind_ok. cbn [resolve] in Hr.
    assert (Hfree : ∀ s2, v_nodes s2 !! a = Some v → vfs_maybe_free s2 a = Ok (free_node s2 a)).
    { intros s2 H2. unfold vfs_maybe_free. by rewrite (get_node_ok _ _ _ H2), bind_ok, Hm. }
    assert (Hnone : free_node s a = with_vnodes s base (v_next s)).
    { unfold free_node, with_vnodes. rewrite Hn. by rewrite delete_insert_id. }
    destruct (fs_finddir (vn_fs v)) as [f|] eqn:Hf.
    + apply bind_ok_inv in Hr as (ow & How & Hr). rewrite How, bind_ok. destruct ow as [w|].
      * cbn [alloc_option alloc_node take_address]. rewrite bind_ok.
        assert (Hne : v_next s ≠ a) by lia.
        rewrite Hfree by (cbn; by rewrite lookup_insert_ne). rewrite bind_ok.
        set (s3 := free_node _ a).
        assert (Hn3 : v_nodes s3 = <[v_next s := w]> base).
        { unfold s3. cbn. rewrite Hn, delete_insert_ne by done. by rewrite delete_insert_id. }
        destruct (IH (Datatypes.S i) s3 (v_next s) w) as (b & next & Hnx & Hres); try done.
        { apply Hfresh. lia. } { by eapply Hfs. } { cbn. lia. } { intros b Hbn. apply Hfresh. cbn in Hbn. lia. }
        exists b, next. cbn in Hnx. split; [lia|]. destruct o as [w'|]; by destruct_and?.
      * injection Hr as <-. cbn [alloc_option]. rewrite bind_ok, Hfree, bind_ok, walk_null by done.
        exists 0, (v_next s). split; [lia|]. by rewrite Hnone.
    + injection Hr as <-. rewrite bind_ok, Hfree, bind_ok, walk_null by done. exists 0, (v_next s). split; [lia|]. by rewrite Hnone.
Qed.
(** From the node of a mount point, which stays *)
Lemma walk_mounted rec l p flags part rest i s a v o :
  plain_fs (v_state s) → Forall good_seg l → p = join_slash l ∨ p = abs_path l → drop i l = part :: rest →
  resolve (v_state s) v (part :: rest) = Ok o → v_nodes s !! a = Some v → a ≠ 0 → vn_mountpoint v ≠ 0 → not_symlink v →
  vfs_ok s →
  ∃ b next, v_next s ≤ next ∧
  match o with
  | Some w => 0 < b < next ∧ v_nodes s !! b = None ∧ plain_node w ∧
      walk_loop rec (Datatypes.S (length rest)) i s p flags a = Ok (b, with_vnodes s (<[b := w]> (v_nodes s)) next)
  | None => walk_loop rec (Datatypes.S (length rest)) i s p flags a = Ok (0, with_vnodes s (v_nodes s) next)
  end.
Proof.
  intros Hfs Hg Hp Hd Hr Hv Ha Hm Hsym Hs. pose proof (vo_next _ Hs).
  assert (Hi : l !! i = Some part) by (rewrite <- (Nat.add_0_r i), <- lookup_drop, Hd; done).
  assert (Hd' : drop (Datatypes.S i) l = rest) by (apply drop_S in Hi; congruence).
  assert (Hfresh : ∀ b, v_next s ≤ b → v_nodes s !! b = None) by (intros b Hb; by destruct (vo_fresh _ Hs b Hb) as (_ & ? & _)).
  rewrite (walk_step rec s l i (length rest) p flags a v part) by done.
  unfold vfs_finddir. rewrite (get_node_ok _ _ _ Hv), bind_ok. cbn [resolve] in Hr.
  assert (Hkeep : ∀ s2, v_nodes s2 !! a = Some v → vfs_maybe_free s2 a = Ok s2).
  { intros s2 H2. unfold vfs_maybe_free. rewrite (get_node_ok _ _ _ H2), bind_ok. by rewrite (proj2 (Z.eqb_neq _ _) Hm). }
  assert (Hid : with_vnodes s (v_nodes s) (v_next s) = s) by (by destruct s).
  destruct (fs_finddir (vn_fs v)) as [f|] eqn:Hf.
  2: { injection Hr as <-. rewrite bind_ok, Hkeep, bind_ok, walk_null by done. exists 0, (v_next s). by rewrite Hid. }
  apply bind_ok_inv in Hr as (ow & How & Hr). rewrite How, bind_ok. destruct ow as [w|].
  2: { injection Hr as <-. cbn [alloc_option]. rewrite bind_ok, Hkeep, bind_ok, walk_null by done. exists 0, (v_next s). by rewrite Hid. }
  cbn [alloc_option alloc_node take_address]. rewrite bind_ok.
  assert (Hne : v_next s ≠ a). { intros <-. by rewrite Hfresh in Hv by lia. }
  rewrite Hkeep, bind_ok by (cbn; by rewrite lookup_insert_ne).
  set (s2 := set_node _ (v_next s) w).
  destruct (walk_plain rec l p flags rest (Datatypes.S i) s2 (v_nodes s) (v_next s) w o) as (b & next & Hnx & Hres); try done.
  { apply Hfresh. lia. } { by eapply Hfs. } { cbn. lia. } { intros b Hbn. apply Hfresh. cbn in Hbn. lia. }
  exists b, next. cbn in Hnx. split; [lia|]. by destruct o.
Qed.

(** The outer loop up to the last mount point of a path *)
Lemma find_loop_prefix rec s l i n r1 part r2 p filename flags result c :
  vfs_ok s → n ∈ tr_nodes (v_tree s) → Forall good_seg l → p = join_slash l ∨ p = abs_path l →
  drop i l = r1 ++ part :: r2 → lookup_path s n r1 = Some c → child_named s c part = None →
  ∃ x e, tr_heap (v_tree s) !! c = Some x ∧ v_entries s !! tnd_value x = Some e ∧
  find_loop rec (length (r1 ++ part :: r2)) i s p filename flags n result =
  ('(a, s1) ← walk_loop rec (Datatypes.S (length r2)) (i + length r1) s p flags (ve_node e); check_name s1 a filename).
Proof.
  intros Hs Hn Hg Hp. revert i n result Hn. induction r1 as [|y r1 IH]; intros i n result Hn Hd Hl Hc; cbn [app length] in *.
  - injection Hl as ->. assert (Hi : l !! i = Some part) by (rewrite <- (Nat.add_0_r i), <- lookup_drop, Hd; done).
    destruct (find_loop_step rec s l i c part p filename flags result (length r2) Hs Hn Hg Hp Hi) as (x & Hx & ->).
    destruct (vo_entry _ Hs c x Hn Hx) as (e & v & He & _). exists x, e. split; [done|]. split; [done|].
    by rewrite Hc, (get_ventry_ok _ _ _ He), bind_ok, Nat.add_0_r.
  - assert (Hi : l !! i = Some y) by (rewrite <- (Nat.add_0_r i), <- lookup_drop, Hd; done).
    destruct (find_loop_step rec s l i n y p filename flags result (length (r1 ++ part :: r2)) Hs Hn Hg Hp Hi) as (x & Hx & ->).
    cbn [lookup_path] in Hl. destruct (child_named s n y) as [d|] eqn:Hcn; [|done].
    destruct (IH (Datatypes.S i) d (if bool_decide (y = filename) then default 0 (node_at s d) else result))
      as (x' & e & ? & ? & He); [| |done|done|].
    + by apply (child_named_eq s n x y Hs Hn Hx).
    + apply drop_S in Hi. congruence.
    + exists x', e. split; [done|]. split; [done|]. rewrite He. by replace (Datatypes.S i + length r1)%nat with (i + Datatypes.S (length r1))%nat by lia.
Qed.

Lemma find_walk_eq s l1 part l2 c a v flags fuel o :
  vfs_ok s → plain_fs (v_state s) → Forall good_seg (l1 ++ part :: l2) →
  lookup_path s (tr_root (v_tree s)) l1 = Some c → child_named s c part = None →
  node_at s c = Some a → v_nodes s !! a = Some v → not_symlink v →
  resolve (v_state s) v (part :: l2) = Ok o →
  ∃ b next, v_next s ≤ next ∧
  vfs_find_node (Datatypes.S fuel) s (abs_path (l1 ++ part :: l2)) flags =
  match o with
  | Some w =>
      if bool_decide (Some (vn_name w) = last (part :: l2))
      then Ok (b, with_vnodes s (<[b := w]> (v_nodes s)) next) else Ok (0, with_vnodes s (v_nodes s) next)
  | None => Ok (0, with_vnodes s (v_nodes s) next)
  end ∧ (is_Some o → 0 < b < next ∧ v_nodes s !! b = None).
Proof.
  intros Hs Hfs Hg Hl Hc Hat Hv Hsym Hr. set (l := l1 ++ part :: l2) in *. assert (Hne : l ≠ []) by (unfold l; by destruct l1).
  destruct (find_loop_prefix (vfs_find_node fuel) s l 0 (tr_root (v_tree s)) l1 part l2 (abs_path l)
    (default [] (last l)) flags 0 c) as (x & e & Hx & He & Heq); try done; [apply (vo_root _ Hs)|by right|].
  assert (Hcn : c ∈ tr_nodes (v_tree s)) by (eapply lookup_path_in; [done|apply (vo_root _ Hs)|done]).
  destruct (vo_entry _ Hs c x Hcn Hx) as (e' & v' & He' & _ & Hv' & Hmp & Hn0 & _).
  assert (e' = e) as -> by congruence.
  unfold node_at, node_entry in Hat. rewrite Hx in Hat. cbn in Hat. rewrite He in Hat. injection Hat as <-.
  assert (v' = v) as -> by congruence.
  destruct (walk_mounted (vfs_find_node fuel) l (abs_path l) flags part l2 (0 + length l1) s (ve_node e) v o)
    as (b & next & Hnx & Hwalk); try done; [by right|unfold l; by rewrite Nat.add_0_l, drop_app_length| |].
  { rewrite Hmp. by apply (vo_value _ Hs c). }
  exists b, next. split; [done|]. cbn [vfs_find_node]. rewrite bool_decide_eq_false_2 by (by apply abs_not_root).
  destruct (path_length_joined l Hg Hne) as [_ ->]. rewrite bind_ok, Nat2Z.id.
  rewrite (filename_joined l) by (done || by right). rewrite bind_ok.
  assert (Hlast : last l = last (part :: l2)) by (unfold l; by rewrite last_app_cons).
  destruct (last l) as [filename|] eqn:Hll; [|by apply last_None in Hll]. cbn [of_option]. rewrite bind_ok.
  change (default [] (Some filename)) with filename in Heq. unfold l at 1. rewrite Heq.
  destruct o as [w|]; [|split; [|by intros [? ?]]].
  - destruct Hwalk as (Hb & Hbn & [Hm0 Hws] & ->). split; [|done]. rewrite bind_ok. unfold check_name.
    rewrite (proj2 (Z.eqb_neq b 0)) by lia.
    assert (Hgb : get_node (with_vnodes s (<[b := w]> (v_nodes s)) next) b = Ok w) by (apply get_node_ok; cbn; apply lookup_insert_eq).
    rewrite Hgb, bind_ok, <- Hlast. destruct (decide (vn_name w = filename)) as [Hname|Hname].
    + rewrite !bool_decide_eq_true_2 by congruence. rewrite bind_ok, (proj2 (Z.eqb_neq b 0)), Hgb, bind_ok by lia.
      by rewrite not_followed.
    + rewrite !bool_decide_eq_false_2 by congruence. unfold vfs_maybe_free. rewrite Hgb, !bind_ok, Hm0. cbn [Z.eqb]. rewrite ?bind_ok.
      change (0 =? 0) with true. cbv iota. unfold free_node, with_vnodes. cbn. by rewrite delete_insert_id.
  - rewrite Hwalk, bind_ok. done.
Qed.

(** C16: The node of a path below a mount point is the one that looking up the remaining
    names, directory by directory, in the mounted file system gives.  The search creates
    this one node and nothing else: the intermediate nodes are freed, the mounted ones are
    kept.  A name that is not found, or a node with another name, gives NULL and leaves no
    node behind. *)
Theorem find_node_walks s l1 part l2 c a v flags fuel o :
  vfs_ok s → plain_fs (v_state s) → Forall good_seg (l1 ++ part :: l2) →
  lookup_path s (tr_root (v_tree s)) l1 = Some c → child_named s c part = None →
  node_at s c = Some a → v_nodes s !! a = Some v → not_symlink v →
  resolve (v_state s) v (part :: l2) = Ok o →
  ∃ b next, v_next s ≤ next ∧
  vfs_find_node (Datatypes.S fuel) s (abs_path (l1 ++ part :: l2)) flags =
  match o with
  | Some w =>
      if bool_decide (Some (vn_name w) = last (part :: l2))
      then Ok (b, with_vnodes s (<[b := w]> (v_nodes s)) next) else Ok (0, with_vnodes s (v_nodes s) next)
  | None => Ok (0, with_vnodes s (v_nodes s) next)
  end ∧ (is_Some o → v_nodes s !! b = None).
Proof.
  intros. destruct (find_walk_eq s l1 part l2 c a v flags fuel o) as (b & next & ? & ? & Hb); try done.
  exists b, next. split; [done|]. split; [done|]. intros Ho. by apply Hb.
Qed.

(** ** Opening *)

Lemma canonize_plain l :
  Forall plain_seg l → Z.of_nat (length (abs_path l)) < 255 → k_util_path_canonize (abs_path l) [] = Ok (abs_path l).
Proof.
  intros Hp Hlen. rewrite canonize_abs, print_abs, normalize_id by (done || by apply plain_good).
  by rewrite (proj2 (Z.leb_gt _ _)).
Qed.

(** No file can be created in the root directory: whatever file system is mounted
    there, opening a missing file with O_CREAT computes the empty string as its folder and
    reads in front of it. *)
Theorem open_create_in_root_faults s s1 x mode fuel :
  plain_seg x → (length x < 254)%nat → truthy (Z.land mode O_CREAT) = true →
  vfs_find_node fuel s (abs_path [x]) mode = Ok (0, s1) →
  vfs_open fuel s (abs_path [x]) mode = Fault.
Proof.
  intros Hx Hlen Hm Hf. unfold vfs_open, open_with at 1.
  assert (Hp : Forall plain_seg [x]) by (by constructor).
  rewrite canonize_plain by (done || (cbn [abs_path join_slash length]; lia)). rewrite bind_ok, Hf, bind_ok, Hm. cbn [Z.eqb andb].
  destruct Hx as [[Hne Hs] _]. assert (Hfo : k_util_path_folder (abs_path [x]) = Ok []) by (by apply (folder_ok [] x)). rewrite Hfo, bind_ok.
  rewrite (filename_joined [x]) by ((by apply plain_good) || done || by right). done.
Qed.
End facts.

(** ** With a tmpfs *)

#[export] Instance tmpfs_virtual : virtual_table tmp_state.
Proof. by split. Qed.

Lemma handle_flags a t : th_flags (tmpfs_to_fs_node a t) = 0 ∨ th_flags (tmpfs_to_fs_node a t) = 1 ∨ th_flags (tmpfs_to_fs_node a t) = 2.
Proof. unfold tmpfs_to_fs_node. cbn. repeat case_match; auto. Qed.

Lemma find_child_handle f l name h : find_child f l name = Ok (Some h) → ∃ a t, h = tmpfs_to_fs_node a t.
Proof.
  induction l as [|c l IH]; cbn [find_child]; [done|]. intros (t & _ & Hr)%bind_ok_inv.
  case_bool_decide; [injection Hr as <-; eauto|by apply IH].
Qed.

(** The nodes of a tmpfs are neither mounted nor links. *)
Lemma tmpfs_plain (st : tmp_state) : plain_fs st.
Proof.
  intros i f v x w Hf Hw. cbn in Hf. unfold only_tmpfs in Hf. destruct (i =? FS_TMPFS); [|done]. injection Hf as <-.
  unfold table_finddir in Hw. apply bind_ok_inv in Hw as (o & Ho & Hw). injection Hw as Hw.
  destruct o as [h|]; [|done]. injection Hw as <-. unfold tmpfs_finddir in Ho. apply bind_ok_inv in Ho as (d & _ & Ho).
  destruct (find_child_handle _ _ _ _ Ho) as (a & t & ->). split; [done|]. unfold not_symlink. cbn [tmp_vnode vn_flags].
  by destruct (handle_flags a t) as [-> | [-> | ->]].
Qed.

(** A vfs at its start, with a tmpfs root directory (one file, "f") that is not mounted yet *)
Definition demo_state : tmp_state := mk_ts demo_tree 102.
Definition demo_vfs : @vfs tmp_state :=
  snd (alloc_node (first_vfs demo_state) (tmp_vnode (mk_handle [116] 100 VFS_DIR 0))).

Lemma demo_vfs_ok : vfs_ok demo_vfs.
Proof.
  pose proof (first_vfs_ok demo_state) as H. destruct H as [H1 H2 H3 H4 H5 H6]. split; try done.
  - intros n x Hn Hx. destruct (H3 n x Hn Hx) as (e & v & He & Ht & Hv & Hr). exists e, v. split; [done|]. split; [done|].
    split; [|done]. cbn. rewrite lookup_insert_ne; [done|]. intros Heq. rewrite <- Heq in Hv.
    destruct (H4 5) as (_ & ? & _); [cbn; lia|]. cbn in *. congruence.
  - intros a Ha. cbn in Ha. destruct (H4 a) as (? & Hv & ?); [cbn; lia|]. split; [done|]. split; [|done].
    cbn. rewrite lookup_insert_ne by lia. done.
Qed.

(** The path "/tmp" *)
Definition demo_path : list (list Z) := [[116; 109; 112]].
Lemma demo_path_good : Forall good_seg demo_path.
Proof. constructor; [|constructor]. split; [done|]. unfold SLASH. set_solver. Qed.
Lemma demo_path_short : Forall (λ x, (length x < 256)%nat) demo_path.
Proof. constructor; [cbn; lia|constructor]. Qed.

Lemma map_path_found_witness :
  ∃ a s', vfs_map_path demo_vfs (abs_path demo_path) = Ok (Some a, s') ∧
    vfs_get_mountpoint s' (abs_path demo_path) = Ok (Some a, s').
Proof.
  destruct (map_path_found demo_vfs demo_path) as (a & s' & H1 & _ & H2 & _).
  - exact demo_vfs_ok.
  - exact demo_path_good.
  - exact demo_path_short.
  - exists a, s'. split; [exact H1|exact H2].
Defined.

Lemma mount_node_found_witness :
  ∃ m s', vfs_mount_node demo_vfs (abs_path demo_path) 5 = Ok (0, s') ∧
    vfs_find_node 1 s' (abs_path demo_path) 0 = Ok (5, s') ∧
    v_nodes s' !! 5 = Some (with_mountpoint (tmp_vnode (mk_handle [116] 100 VFS_DIR 0)) m).
Proof.
  destruct (mount_node_found demo_vfs demo_path 5 (tmp_vnode (mk_handle [116] 100 VFS_DIR 0)) 0 0)
    as (m & s' & H1 & _ & H2 & H3 & _).
  - exact demo_vfs_ok.
  - exact demo_path_good.
  - exact demo_path_short.
  - reflexivity.
  - done.
  - intros m e He. cbn in He. apply lookup_singleton_Some in He as [_ <-]. done.
  - reflexivity.
  - reflexivity.
  - exists m, s'. split; [exact H1|]. split; [exact H2|exact H3].
Defined.

(** The same tmpfs as the root of everything *)
Definition demo_root : @vfs tmp_state :=
  mounted_at demo_vfs 2 (mk_entry ROOT_NAME 3 4) true 5 (tmp_vnode (mk_handle [116] 100 VFS_DIR 0)).

Lemma demo_root_ok : vfs_ok demo_root.
Proof.
  apply (mounted_ok demo_vfs 2 4); try done.
  - exact demo_vfs_ok.
  - by apply list_elem_of_singleton.
  - intros m e He. cbn in He. apply lookup_singleton_Some in He as [_ <-]. done.
Qed.

(** "/f" *)
Lemma find_node_walks_witness :
  ∃ b next, 6 ≤ next ∧ vfs_find_node 1 demo_root (abs_path [[102]]) 0 =
    Ok (b, with_vnodes demo_root (<[b := tmp_vnode (mk_handle [102] 101 VFS_FILE 0)]> (v_nodes demo_root)) next).
Proof.
  destruct (find_node_walks demo_root [] [102] [] 4 5
    (with_mountpoint (tmp_vnode (mk_handle [116] 100 VFS_DIR 0)) 2) 0 0
    (Some (tmp_vnode (mk_handle [102] 101 VFS_FILE 0)))) as (b & next & Hn & He & _).
  - exact demo_root_ok.
  - apply tmpfs_plain.
  - constructor; [|constructor]. split; [done|]. unfold SLASH. set_solver.
  - reflexivity.
  - reflexivity.
  - reflexivity.
  - reflexivity.
  - reflexivity.
  - reflexivity.
  - exists b, next. split; [exact Hn|exact He].
Defined.

(** "/g" is not there. *)
Lemma open_create_in_root_faults_witness : vfs_open 1 demo_root (abs_path [[103]]) O_CREAT = Fault.
Proof.
  destruct (vfs_find_node 1 demo_root (abs_path [[103]]) O_CREAT) as [[z s1]| | |] eqn:He; try (vm_compute in He; discriminate He).
  assert (Hz : z = 0) by (vm_compute in He; by injection He as <- _). subst z.
  apply (open_create_in_root_faults demo_root s1 [103] O_CREAT 1).
  - split; [split; [done|unfold SLASH; set_solver]|done].
  - cbn. lia.
  - reflexivity.
  - exact He.
Defined.
