(* ===== verification/VfsTmpfs.v ===== *)
(** * Creating and opening files of a mounted tmpfs

    The composition of path.c, vfs.c and tmpfs.c: what [k_fs_vfs_open] does on a tmpfs. *)

From S2P Require Import Prelude.
From S2P Require Import TypesList.
From S2P Require Import Tree.
From S2P Require Import Path.
From S2P Require Import Tmpfs.
From S2P Require Import Vfs.
From S2P Require Import TmpfsTable.
From S2P Require Import VfsFacts.

Section opening.
Abbreviation vfs := (@vfs tmp_state).
Implicit Types (s : vfs) (l : list (list Z)) (x : list Z) (a c : Z) (v : vnode).

(** The node of a descriptor that was opened *)
Definition opened v (mode : Z) (path : list Z) : vnode :=
  mk_vnode (vn_name v) (vn_device v) mode (vn_flags v) (vn_inode v) (vn_size v) (vn_fs v) 1 (Some path) (vn_mountpoint v).

(** The same mount points, other nodes and another state of the file system *)
Definition with_files s (nodes : gmap Z vnode) (next : Z) (st : tmp_state) : vfs :=
  mk_vfs (v_tree s) (v_entries s) nodes next (v_filesystems s) st.

Lemma open_node_mounted s a v path mode :
  v_nodes s !! a = Some v → vn_mountpoint v ≠ 0 →
  open_node s a path mode =
  Ok (v_next s, with_files s (<[v_next s := opened v mode path]> (v_nodes s)) (v_next s + 1) (v_state s)).
Proof.
  intros Hv Hm. unfold open_node. rewrite (get_node_ok _ _ _ Hv), bind_ok, (proj2 (truthy_true _) Hm).
  cbn [alloc_node take_address fs_open tmpfs_table]. rewrite bind_ok. unfold set_node, with_files. cbn. by rewrite insert_insert_eq.
Qed.

Lemma open_node_plain s a v path mode :
  v_nodes s !! a = Some v → vn_mountpoint v = 0 →
  open_node s a path mode = Ok (a, with_files s (<[a := opened v mode path]> (v_nodes s)) (v_next s) (v_state s)).
Proof.
  intros Hv Hm. unfold open_node. rewrite (get_node_ok _ _ _ Hv), bind_ok, Hm. change (truthy 0) with false. cbv iota.
  cbn [fs_open tmpfs_table]. rewrite bind_ok. done.
Qed.

(** ** Changing nodes that are not mounted *)

Lemma with_files_ok s nodes next st :
  vfs_ok s → v_next s ≤ next → (∀ a v, v_nodes s !! a = Some v → nodes !! a = Some v) →
  (∀ b, next ≤ b → nodes !! b = None) → vfs_ok (with_files s nodes next st).
Proof.
  intros [H1 H2 H3 H4 H5 H6] Hn Hnodes Hfresh. split; cbn; try done; [| |lia].
  - intros n x Hin Hx. destruct (H3 n x Hin Hx) as (e & v & He & Ht & Hv & Hr). exists e, v.
    split; [done|]. split; [done|]. split; [by apply Hnodes|done].
  - intros a Ha. destruct (H4 a) as (? & _ & ?); [lia|]. split; [done|]. split; [by apply Hfresh|done].
Qed.

Lemma find_entry_files s nodes next st children part :
  find_entry (with_files s nodes next st) children part = find_entry s children part.
Proof. induction children as [|c rest IH]; [done|]. cbn [find_entry]. by rewrite IH. Qed.

Lemma child_named_files s nodes next st n part :
  child_named (with_files s nodes next st) n part = child_named s n part.
Proof. unfold child_named. cbn [with_files v_tree]. destruct (tree_get (v_tree s) n); [|done..]. by rewrite find_entry_files. Qed.

Lemma lookup_path_files s nodes next st n l :
  lookup_path (with_files s nodes next st) n l = lookup_path s n l.
Proof.
  revert n. induction l as [|part l IH]; intros n; [done|]. cbn [lookup_path]. rewrite child_named_files.
  destruct (child_named s n part); [apply IH|done].
Qed.

(** ** A directory of a tmpfs mounted at [l] *)

(** [a]: its mounted node [v], for the tmpfs directory [d] *)
Record mounted_tmpfs s l c a v (d : Z) : Prop := {
  mt_ok : vfs_ok s;
  mt_path : lookup_path s (tr_root (v_tree s)) l = Some c;
  mt_at : node_at s c = Some a;
  mt_node : v_nodes s !! a = Some v;
  mt_plain : not_symlink v;
  mt_fs : vn_fs v = FS_TMPFS ∧ vn_device v = d
}.

Lemma mounted_nonzero s l c a v d :
  mounted_tmpfs s l c a v d → vn_mountpoint v ≠ 0 ∧ a ≠ 0 ∧ a < v_next s.
Proof.
  intros [Hs Hl Hat Hv _ _]. assert (Hc : c ∈ tr_nodes (v_tree s)) by (eapply lookup_path_in; [done|apply (vo_root _ Hs)|done]).
  destruct (node_live s c Hs Hc) as [x Hx]. destruct (vo_entry _ Hs c x Hc Hx) as (e & v' & He & _ & Hv' & Hm & Hn0 & _).
  unfold node_at, node_entry in Hat. rewrite Hx in Hat. cbn in Hat. rewrite He in Hat. injection Hat as <-.
  assert (v' = v) as -> by congruence. rewrite Hm. split; [by apply (vo_value _ Hs c)|]. split; [done|].
  destruct (Z.lt_ge_cases (ve_node e) (v_next s)) as [|Hge]; [done|]. destruct (vo_fresh _ Hs _ Hge) as (_ & ? & _). congruence.
Qed.

Lemma mounted_files s l c a v d nodes next st :
  mounted_tmpfs s l c a v d → v_next s ≤ next → (∀ b w, v_nodes s !! b = Some w → nodes !! b = Some w) →
  (∀ b, next ≤ b → nodes !! b = None) → mounted_tmpfs (with_files s nodes next st) l c a v d.
Proof.
  intros [Hs Hl Hat Hv Hp Hf] Hn Hnodes Hfresh. split; [by apply with_files_ok|by rewrite lookup_path_files|done|by apply Hnodes|done|done].
Qed.

(** Opening the directory itself copies its node. *)
Lemma open_mapped fuel rec s l c a v d mode :
  mounted_tmpfs s l c a v d → Forall plain_seg l → Z.of_nat (length (abs_path l)) < 255 →
  open_with (S fuel) rec s (abs_path l) mode =
  Ok (v_next s, with_files s (<[v_next s := opened v mode (abs_path l)]> (v_nodes s)) (v_next s + 1) (v_state s)).
Proof.
  intros Hmt Hp Hlen. destruct (mounted_nonzero _ _ _ _ _ _ Hmt) as (Hm & Ha0 & _). destruct Hmt as [Hs Hl Hat Hv Hsym _].
  unfold open_with. rewrite canonize_plain, bind_ok by done.
  rewrite (find_node_mapped s l c a v) by (done || (by apply plain_good) || by apply not_followed).
  rewrite bind_ok, (proj2 (Z.eqb_neq a 0)) by done. cbn [andb]. rewrite bind_ok, (proj2 (Z.eqb_neq a 0)) by done.
  by apply open_node_mounted.
Qed.

(** Looking up one name in it *)
Lemma resolve_one (st : tmp_state) v x o :
  vn_fs v = FS_TMPFS → tmpfs_finddir (ts_nodes st) (vn_device v) x = Ok o →
  resolve st v [x] = Ok (option_map tmp_vnode o).
Proof.
  intros Hf Ho. cbn [resolve]. rewrite Hf. change (fs_finddir FS_TMPFS) with (Some table_finddir). cbv iota.
  unfold table_finddir. rewrite Ho, !bind_ok. by destruct o.
Qed.

(** Opening a file that exists in it *)
Lemma open_found fuel s l c a v d x h mode :
  mounted_tmpfs s l c a v d → Forall plain_seg (l ++ [x]) → Z.of_nat (length (abs_path (l ++ [x]))) < 255 →
  child_named s c x = None → tmpfs_finddir (ts_nodes (v_state s)) d x = Ok (Some h) → th_name h = x →
  ∃ b next, vfs_open (S fuel) s (abs_path (l ++ [x])) mode =
    Ok (b, with_files s (<[b := opened (tmp_vnode h) mode (abs_path (l ++ [x]))]> (v_nodes s)) next (v_state s)) ∧ b ≠ 0.
Proof.
  intros [Hs Hl Hat Hv Hsym [Hf <-]] Hp Hlen Hc Hfind Hname.
  destruct (find_walk_eq s l x [] c a v mode fuel (Some (tmp_vnode h))) as (b & next & Hnx & Heq & Hb); try done.
  { apply tmpfs_plain. } { by apply plain_good. } { by rewrite (resolve_one _ _ _ _ Hf Hfind). }
  destruct Hb as [Hb Hbn]; [done|]. cbn [last tmp_vnode vn_name] in Heq. rewrite Hname, bool_decide_eq_true_2 in Heq by done.
  exists b, next. split; [|lia]. unfold vfs_open, open_with at 1. rewrite canonize_plain, bind_ok, Heq, bind_ok by done.
  rewrite (proj2 (Z.eqb_neq b 0)) by lia. cbn [andb]. rewrite bind_ok, (proj2 (Z.eqb_neq b 0)) by lia.
  rewrite (open_node_plain _ b (tmp_vnode h)) by (done || (cbn; apply lookup_insert_eq)).
  unfold with_files, with_vnodes. cbn. by rewrite insert_insert_eq.
Qed.
(** Closing the only link of a tmpfs node frees it. *)
Lemma close_last s a v :
  v_nodes s !! a = Some v → a ≠ 0 → vn_links v = 1 →
  vfs_close s a = Ok (with_files s (delete a (v_nodes s)) (v_next s) (v_state s)).
Proof.
  intros Hv Ha Hl. unfold vfs_close. rewrite (proj2 (Z.eqb_neq a 0)), (get_node_ok _ _ _ Hv), bind_ok, Hl by done.
  change (truthy (u32 (1 - 1))) with false. cbv iota. cbn [fs_close tmpfs_table]. rewrite bind_ok.
  unfold free_node, set_node, with_files. cbn. by rewrite delete_insert_eq.
Qed.

(** Creating a file in an opened directory *)
Lemma create_in s a v x mode dir :
  v_nodes s !! a = Some v → vn_fs v = FS_TMPFS → vn_device v ≠ 0 →
  ts_nodes (v_state s) !! vn_device v = Some dir → (length x < 256)%nat →
  let st := v_state s in
  vfs_create s a x mode =
  Ok (v_next s,
      with_files s (<[v_next s := tmp_vnode (mk_handle x (ts_next st) VFS_FILE 0)]> (v_nodes s)) (v_next s + 1)
        (mk_ts (add_file (ts_nodes st) (vn_device v) dir (ts_next st) x) (ts_next st + 1))).
Proof.
  intros Hv Hf Hd0 Hd Hx st. unfold vfs_create. rewrite (get_node_ok _ _ _ Hv), bind_ok, Hf.
  change (fs_create FS_TMPFS) with (Some table_create). cbv iota. unfold table_create.
  rewrite (create_eq _ _ dir) by done. done.
Qed.

(** The last segment's folder *)
Lemma folder_of l x : l ≠ [] → Forall plain_seg (l ++ [x]) → k_util_path_folder (abs_path (l ++ [x])) = Ok (abs_path l).
Proof.
  intros Hl Hp. apply Forall_app in Hp as [_ [[Hne Hs] _]%Forall_singleton]. unfold abs_path. rewrite join_snoc by done.
  by apply (folder_ok (SLASH :: join_slash l)).
Qed.

Lemma open_creates fuel s l c a v d dir x mode :
  mounted_tmpfs s l c a v d → l ≠ [] → Forall plain_seg (l ++ [x]) → Z.of_nat (length (abs_path (l ++ [x]))) < 255 →
  child_named s c x = None → d ≠ 0 → ts_nodes (v_state s) !! d = Some dir →
  tmpfs_finddir (ts_nodes (v_state s)) d x = Ok None → truthy (Z.land mode O_CREAT) = true →
  let st := v_state s in
  let w := tmp_vnode (mk_handle x (ts_next st) VFS_FILE 0) in
  ∃ b, v_next s ≤ b ∧
  vfs_open (S fuel) s (abs_path (l ++ [x])) mode =
  Ok (b, with_files s (<[b := opened w mode (abs_path (l ++ [x]))]> (v_nodes s)) (b + 1)
           (mk_ts (add_file (ts_nodes st) d dir (ts_next st) x) (ts_next st + 1))).
Proof.
  intros Hmt Hl Hp Hlen Hc Hd0 Hdir Hfind Hm st w. pose proof Hmt as [Hs Hlk Hat Hv Hsym [Hf Hd]].
  assert (Hpl : Forall plain_seg l) by (by apply Forall_app in Hp as [? _]).
  assert (Hlenl : Z.of_nat (length (abs_path l)) < 255).
  { unfold abs_path in *. rewrite join_snoc in Hlen by done. cbn [length] in *. rewrite length_app in Hlen. lia. }
  assert (Hlenx : (length x < 256)%nat).
  { unfold abs_path in Hlen. rewrite join_snoc in Hlen by done. cbn [length] in Hlen. rewrite length_app in Hlen. cbn [length] in Hlen. lia. }
  destruct (find_walk_eq s l x [] c a v mode fuel None) as (b0 & next & Hnx & Heq & _); try done.
  { apply tmpfs_plain. } { by apply plain_good. } { rewrite (resolve_one _ _ _ None Hf); [done|]. by rewrite Hd. }
  assert (Hfresh : ∀ b, next ≤ b → v_nodes s !! b = None).
  { intros b Hb. destruct (vo_fresh _ Hs b) as (_ & ? & _); [lia|done]. }
  set (s1 := with_files s (v_nodes s) next st).
  assert (Hmt1 : mounted_tmpfs s1 l c a v d) by (by apply mounted_files).
  exists (next + 1). split; [lia|]. unfold vfs_open, open_with at 1.
  rewrite canonize_plain, bind_ok, Heq, bind_ok, Hm by done. change (0 =? 0) with true. cbn [andb].
  rewrite (folder_of l x), bind_ok by done. rewrite (filename_joined (l ++ [x])) by ((by apply plain_good) || (by right) || by destruct l).
  rewrite last_snoc, bind_ok. fold s1 in Heq |- *. change (with_vnodes s (v_nodes s) next) with s1.
  rewrite (open_mapped fuel _ s1 l c a v d) by done. rewrite bind_ok.
  set (s2 := with_files s1 _ _ _). assert (Hn0 : next ≠ 0) by (pose proof (vo_next _ Hs); lia).
  rewrite (proj2 (truthy_true _)) by done. cbn [of_option]. rewrite !bind_ok.
  assert (H2 : v_nodes s2 !! v_next s1 = Some (opened v O_WRONLY (abs_path l))) by (unfold s2; cbn; apply lookup_insert_eq).
  rewrite (create_in s2 _ _ x mode dir H2) by (cbn; rewrite ?Hd; done). rewrite bind_ok.
  set (s3 := with_files s2 _ _ _).
  rewrite (close_last s3 (v_next s1) (opened v O_WRONLY (abs_path l))); [|unfold s3; cbn; rewrite lookup_insert_ne by lia; apply lookup_insert_eq|done|done].
  rewrite !bind_ok. cbn [v_next s2 s1 with_files]. rewrite (proj2 (Z.eqb_neq (next + 1) 0)) by (pose proof (vo_next _ Hs); lia).
  rewrite (open_node_plain _ (next + 1) w); [| |done].
  2: { cbn. rewrite lookup_delete_ne by lia. apply lookup_insert_eq. }
  do 2 f_equal. unfold with_files. cbn. rewrite Hd. f_equal. rewrite delete_insert_ne, delete_insert_id by (lia || by apply Hfresh).
  by rewrite insert_insert_eq.
Qed.
End opening.

(** C15: Opening a missing file of a mounted tmpfs directory with O_CREAT creates it: the
    descriptor is for a new, empty file, the mount points are as before, and opening the
    same path again, with any flags, gives the same file. *)
Theorem tmpfs_create_then_open fuel (s : @vfs tmp_state) l c a v d dir x mode mode2 :
  mounted_tmpfs s l c a v d → l ≠ [] → Forall plain_seg (l ++ [x]) → Z.of_nat (length (abs_path (l ++ [x]))) < 255 →
  child_named s c x = None → tree_linked (ts_nodes (v_state s)) → ts_nodes (v_state s) !! d = Some dir →
  ts_nodes (v_state s) !! ts_next (v_state s) = None →
  tmpfs_finddir (ts_nodes (v_state s)) d x = Ok None → truthy (Z.land mode O_CREAT) = true →
  let path := abs_path (l ++ [x]) in
  let file := ts_next (v_state s) in
  ∃ b s' n, vfs_open (S fuel) s path mode = Ok (b, s') ∧ v_nodes s' !! b = Some n ∧ vn_device n = file ∧ vn_mode n = mode ∧
    (∃ t, ts_nodes (v_state s') !! file = Some t ∧ new_file t) ∧
    v_tree s' = v_tree s ∧ v_entries s' = v_entries s ∧
  ∃ b2 s2 n2, vfs_open (S fuel) s' path mode2 = Ok (b2, s2) ∧ v_nodes s2 !! b2 = Some n2 ∧ vn_device n2 = file ∧ vn_mode n2 = mode2.
Proof.
  intros Hmt Hl Hp Hlen Hc Htree Hdir Hnew Hfind Hm path file. pose proof (mt_ok _ _ _ _ _ _ Hmt) as Hs.
  assert (Hd0 : d ≠ 0) by (by destruct (proj1 Htree _ _ Hdir)).
  destruct (open_creates fuel s l c a v d dir x mode) as (b & Hb & Heq); [done..|].
  eexists b, _, _. split; [exact Heq|]. split; [cbn; apply lookup_insert_eq|]. split; [done|]. split; [done|].
  split. { eexists. cbn. split; [apply lookup_insert_eq|done]. }
  split; [done|]. split; [done|]. set (s' := with_files s _ _ _).
  assert (Hmt' : mounted_tmpfs s' l c a v d).
  { apply mounted_files; [done|lia| |].
    - intros b' w Hw. rewrite lookup_insert_ne; [done|]. intros <-. destruct (vo_fresh _ Hs b) as (_ & ? & _); [lia|congruence].
    - intros b' Hb'. rewrite lookup_insert_ne by lia. by destruct (vo_fresh _ Hs b') as (_ & ? & _); [lia|]. }
  destruct (open_found fuel s' l c a v d x (mk_handle x file VFS_FILE 0) mode2) as (b2 & next2 & Heq2 & _); try done.
  { unfold s'. by rewrite child_named_files. }
  { unfold s'. cbn. rewrite finddir_added by done. rewrite Hfind, bind_ok. by rewrite decide_True. }
  eexists b2, _, _. split; [exact Heq2|]. split; [cbn; apply lookup_insert_eq|done].
Qed.

(** The tmpfs of [demo_state] mounted at "/tmp" *)
Definition demo_tmp_entry : @vfs tmp_state := entry_added demo_vfs 4 (mk_tree_node 1 0 [] 2) [116; 109; 112].
Definition demo_tmp : @vfs tmp_state :=
  mounted_at demo_tmp_entry 6 (mk_entry [116; 109; 112] 8 7) true 5 (tmp_vnode (mk_handle [116] 100 VFS_DIR 0)).

Lemma demo_tmp_ok : vfs_ok demo_tmp.
Proof.
  assert (H4 : 4 ∈ tr_nodes (v_tree demo_vfs)) by (by apply list_elem_of_singleton).
  apply (mounted_ok demo_tmp_entry 6 7); try done.
  - by apply added_ok; [exact demo_vfs_ok| |].
  - cbn. set_solver.
  - intros m e He. cbn in He. apply lookup_insert_Some in He as [[_ <-]|[_ He]]; [done|].
    apply lookup_singleton_Some in He as [_ <-]. done.
Qed.

Lemma demo_tmp_mounted :
  mounted_tmpfs demo_tmp [[116; 109; 112]] 7 5 (with_mountpoint (tmp_vnode (mk_handle [116] 100 VFS_DIR 0)) 6) 100.
Proof. split; [exact demo_tmp_ok|reflexivity..|done]. Qed.

(** "/tmp/g" *)
Lemma tmpfs_create_then_open_witness :
  ∃ b s' n, vfs_open 1 demo_tmp (abs_path [[116; 109; 112]; [103]]) O_CREAT = Ok (b, s') ∧ v_nodes s' !! b = Some n ∧
    vn_device n = 102 ∧
  ∃ b2 s2 n2, vfs_open 1 s' (abs_path [[116; 109; 112]; [103]]) O_RDONLY = Ok (b2, s2) ∧ v_nodes s2 !! b2 = Some n2 ∧
    vn_device n2 = 102.
Proof.
  destruct (tmpfs_create_then_open 0 demo_tmp [[116; 109; 112]] 7 5
    (with_mountpoint (tmp_vnode (mk_handle [116] 100 VFS_DIR 0)) 6) 100 (demo_dir [101]) [103] O_CREAT O_RDONLY)
    as (b & s' & n & H1 & H2 & H3 & _ & _ & _ & _ & b2 & s2 & n2 & H4 & H5 & H6 & _).
  - exact demo_tmp_mounted.
  - done.
  - repeat (constructor; [split; [split; [done|unfold SLASH; set_solver]|done]|]). constructor.
  - cbn. lia.
  - reflexivity.
  - exact demo_tree_linked.
  - reflexivity.
  - reflexivity.
  - reflexivity.
  - reflexivity.
  - exists b, s', n. split; [exact H1|]. split; [exact H2|]. split; [exact H3|]. exists b2, s2, n2. split; [exact H4|]. by split.
Defined.
