(* ===== verification/Tar.v ===== *)
(** * kernel/src/fs/tar.c and ramdisk.c: a tar archive on a RAM disk

    The device is a list of bytes ([__k_fs_ramdisk_read]); headers are read from it at every
    step.  A header shorter than its structure, or a name without a terminating NUL, is a
    [Fault].  The loops over the archive take fuel: one unit per header. *)

From S2P Require Import Prelude.
From S2P Require Import Path.

(** ** The RAM disk: the answer and the bytes stored *)

Definition ramdisk_read (dev : list Z) (offset size : Z) : res (Z * list Z) :=
  let dsize := Z.of_nat (length dev) in
  if dsize <? offset then Ok (0, [])
  else
    let r_size := if dsize <? u32 (offset + size) then dsize - offset else size in
    if dsize <? offset + r_size then Fault
    else Ok (r_size, take (Z.to_nat r_size) (drop (Z.to_nat offset) dev)).

(** ** Headers *)

(** [sizeof(tar_header_t)], and where its fields are *)
Definition TAR_HEADER_SIZE : nat := 157.
Definition TAR_SIZE_FIELD : nat := 124.

(** The C string at the start of an array *)
Fixpoint c_string (l : list Z) : res (list Z) :=
  match l with
  | [] => Fault
  | c :: l' => if c =? 0 then Ok [] else s ← c_string l'; Ok (c :: s)
  end.

Definition tar_read_header (dev : list Z) (offset : Z) : res (list Z) :=
  '(_, h) ← ramdisk_read dev offset (Z.of_nat TAR_HEADER_SIZE);
  if (length h <? TAR_HEADER_SIZE)%nat then Fault else Ok h.

Definition header_filename (h : list Z) : res (list Z) := c_string h.

(** The loop of [__k_fs_tar_get_size] from the last digit on; [count] is the weight. *)
Fixpoint size_loop (digits : list Z) (size count : Z) : Z :=
  match digits with
  | [] => size
  | c :: rest => size_loop rest (u32 (size + (s8 c - 48) * count)) (u32 (count * 8))
  end.

Definition tar_get_size (sz : list Z) : Z := size_loop (rev (take 11 sz)) 0 1.
Definition header_size (h : list Z) : Z := tar_get_size (take 12 (drop TAR_SIZE_FIELD h)).

(** Past a header and its data *)
Definition next_header (offs size : Z) : Z :=
  let o1 := u32 (offs + u32 ((size / 512 + 1) * 512)) in
  if truthy (size mod 512) then u32 (o1 + 512) else o1.

(** ** Nodes *)

(** What [__k_fs_tar_create_node] fills in *)
Record tar_node := mk_tar { tar_name : list Z; tar_inode : Z; tar_size : Z }.

Definition tar_create_node (h : list Z) (offset : Z) : res tar_node :=
  name ← header_filename h;
  o ← k_util_path_filename name;
  buffer ← of_option o;
  if 256 <=? Z.of_nat (length buffer) then Fault
  else Ok (mk_tar buffer offset (header_size h)).

Definition tar_read (dev : list Z) (node : tar_node) (offset size : Z) : res (Z * list Z) :=
  h ← tar_read_header dev (tar_inode node);
  let fsize := header_size h in
  if fsize <? offset then Ok (0, [])
  else
    let size' := if fsize <? u32 (offset + size) then fsize - offset else size in
    ramdisk_read dev (u32 (tar_inode node + 512 + offset)) size'.

(** The loop of [__k_fs_tar_finddir] *)
Fixpoint tar_find_loop (fuel : nat) (dev : list Z) (fullpath : list Z) (offs : Z) : res (option tar_node) :=
  match fuel with
  | O => OutOfFuel
  | S fuel' =>
      if Z.of_nat (length dev) <=? offs then Ok None
      else
        h ← tar_read_header dev offs;
        let size := header_size h in
        name ← header_filename h;
        match name with
        | [] => Ok None
        | _ =>
            simplified ← k_util_path_strip name;
            if bool_decide (simplified = fullpath) then n ← tar_create_node h offs; Ok (Some n)
            else tar_find_loop fuel' dev fullpath (next_header offs size)
        end
  end.

Definition tar_finddir (fuel : nat) (dev : list Z) (node : tar_node) (path : list Z) : res (option tar_node) :=
  ph ← tar_read_header dev (tar_inode node);
  pname ← header_filename ph;
  fullpath ← k_util_path_join pname path;
  tar_find_loop fuel dev fullpath 0.

(** The loop of [__k_fs_tar_readdir]: the name and the inode number of the entry *)
Fixpoint tar_readdir_loop (fuel : nat) (dev folder : list Z) (target_path_length index i offs : Z)
    : res (option (list Z * Z)) :=
  match fuel with
  | O => OutOfFuel
  | S fuel' =>
      if Z.of_nat (length dev) <=? offs then Ok None
      else
        h ← tar_read_header dev offs;
        name ← header_filename h;
        match name with
        | [] => Ok None
        | _ =>
            let size := header_size h in
            path_length ← k_util_path_length name;
            let matches := (path_length =? target_path_length) && bool_decide (folder `prefix_of` name) in
            if matches && (i =? index) then
              o ← k_util_path_filename name; n ← of_option o; Ok (Some (n, offs))
            else
              tar_readdir_loop fuel' dev folder target_path_length index (if matches then i + 1 else i)
                (next_header offs size)
        end
  end.

Definition tar_readdir (fuel : nat) (dev : list Z) (node : tar_node) (index : Z) : res (option (list Z * Z)) :=
  if index =? 0 then Ok (Some ([DOT], 0))
  else if index =? 1 then Ok (Some ([DOT; DOT], 0))
  else
    ph ← tar_read_header dev (tar_inode node);
    pname ← header_filename ph;
    folder ← k_util_path_strip pname;
    len ← k_util_path_length folder;
    tar_readdir_loop fuel dev folder (u32 (len + 1)) (index - 2) 0 0.

(** ** Archives *)

(** An entry as tar writes it: the name field, 24 bytes of other fields, the size in octal,
    the rest of the header block, and the data filled up to whole blocks. *)
Record tar_entry := mk_te { te_name : list Z; te_meta : list Z; te_rest : list Z; te_data : list Z }.

Fixpoint octal (n : nat) (v : Z) : list Z :=
  match n with
  | O => []
  | S n' => octal n' (v / 8) ++ [48 + v mod 8]
  end.

Definition pad (n : nat) : nat := (if (n mod 512 =? 0)%nat then 0 else 512 - n mod 512)%nat.

Definition entry_bytes (e : tar_entry) : list Z :=
  te_name e ++ replicate (100 - length (te_name e)) 0 ++ te_meta e ++
  octal 11 (Z.of_nat (length (te_data e))) ++ te_rest e ++
  te_data e ++ replicate (pad (length (te_data e))) 0.

Definition archive (l : list tar_entry) : list Z := concat (entry_bytes <$> l) ++ replicate 1024 0.

Definition te_ok (e : tar_entry) : Prop :=
  te_name e ≠ [] ∧ Forall (λ c, 0 < c < 256) (te_name e) ∧ (length (te_name e) < 100)%nat ∧
  length (te_meta e) = 24%nat ∧ length (te_rest e) = 377%nat.

(** ** Sizes *)

Lemma octal_size n v size count :
  0 ≤ v < 8 ^ Z.of_nat n → 0 ≤ size → 0 ≤ count → size + v * count < 2 ^ 32 →
  size_loop (rev (octal n v)) size count = size + v * count.
Proof.
  revert v size count. induction n as [|n IH]; intros v size count Hv Hs Hc Hlt.
  - cbn. assert (v = 0) as -> by (cbn in Hv; lia). lia.
  - cbn [octal]. rewrite rev_app_distr. cbn [rev app size_loop].
    pose proof (Z.mod_pos_bound v 8 ltac:(lia)) as Hm. pose proof (Z_div_mod_eq_full v 8) as Hdm.
    unfold s8. rewrite (Z.mod_small (_ + 2 ^ 7)) by lia.
    replace (48 + v mod 8 + 2 ^ 7 - 2 ^ 7 - 48) with (v mod 8) by lia.
    assert (Hpos : 0 ≤ v / 8) by (apply Z.div_pos; lia).
    assert (Hle : v mod 8 * count ≤ v * count) by nia.
    rewrite u32_small by nia.
    assert (Hv8 : v / 8 < 8 ^ Z.of_nat n). { apply Z.div_lt_upper_bound; [lia|]. rewrite <- Z.pow_succ_r by lia. rewrite <- Nat2Z.inj_succ. lia. }
    destruct (Z.eq_dec (v / 8) 0) as [Hz|Hz].
    + rewrite IH; [rewrite Hz; nia|lia|nia|apply u32_range|rewrite Hz; nia].
    + rewrite (u32_small (count * 8)) by nia. rewrite IH; [nia|lia|nia|lia|nia].
Qed.

Lemma length_octal n v : length (octal n v) = n.
Proof. revert v. induction n as [|n IH]; intros v; [done|]. cbn [octal]. rewrite length_app, IH. cbn. lia. Qed.

Lemma pad_blocks n : (n + pad n = 512 * ((n + 511) / 512))%nat.
Proof.
  unfold pad. pose proof (Nat.div_mod n 512 ltac:(lia)) as H. pose proof (Nat.mod_upper_bound n 512 ltac:(lia)) as Hm.
  set (q := (n / 512)%nat) in *. set (r := (n mod 512)%nat) in *. destruct (r =? 0)%nat eqn:E; breflect.
  - replace ((n + 511) / 512)%nat with q; [lia|]. apply (Nat.div_unique _ _ q 511); lia.
  - replace ((n + 511) / 512)%nat with (q + 1)%nat; [lia|]. apply (Nat.div_unique _ _ (q + 1) (r - 1)); lia.
Qed.

Section entries.
Context (e : tar_entry) (He : te_ok e).

Lemma length_entry : length (entry_bytes e) = (512 + (length (te_data e) + pad (length (te_data e))))%nat.
Proof.
  destruct He as (_ & _ & Hn & Hm & Hr). unfold entry_bytes. rewrite !length_app, !length_replicate, length_octal. lia.
Qed.

Lemma next_header_entry offs :
  0 ≤ offs → offs + Z.of_nat (length (entry_bytes e)) < 2 ^ 32 →
  next_header offs (Z.of_nat (length (te_data e))) = offs + Z.of_nat (length (entry_bytes e)).
Proof.
  intros Ho Hlt. rewrite length_entry in *. unfold next_header, pad in *.
  set (n := length (te_data e)) in *. pose proof (Nat.div_mod n 512 ltac:(lia)) as H.
  pose proof (Nat.mod_upper_bound n 512 ltac:(lia)) as Hm.
  replace (Z.of_nat n / 512) with (Z.of_nat (n / 512)) by (by rewrite Nat2Z.inj_div).
  replace (Z.of_nat n mod 512) with (Z.of_nat (n mod 512)) by (by rewrite Nat2Z.inj_mod).
  revert Hlt. destruct (n mod 512 =? 0)%nat eqn:E; intros Hlt; breflect.
  - rewrite E. change (truthy (Z.of_nat 0)) with false. cbv iota.
    rewrite (u32_small ((_ + 1) * 512)), u32_small by lia. lia.
  - rewrite (proj2 (truthy_true _)) by lia.
    rewrite (u32_small ((_ + 1) * 512)), (u32_small (offs + _)), u32_small by lia. lia.
Qed.

Lemma c_string_name rest : c_string (te_name e ++ 0 :: rest) = Ok (te_name e).
Proof.
  destruct He as (_ & Hc & _). clear He. induction Hc as [|c l Hc _ IH]; [done|]. cbn [c_string app].
  rewrite (proj2 (Z.eqb_neq c 0)) by lia. by rewrite IH.
Qed.

(** The header at the start of an entry *)
Lemma entry_header rest :
  let h := take TAR_HEADER_SIZE (entry_bytes e ++ rest) in
  length h = TAR_HEADER_SIZE ∧ header_filename h = Ok (te_name e) ∧
  (Z.of_nat (length (te_data e)) < 2 ^ 32 → header_size h = Z.of_nat (length (te_data e))).
Proof.
  pose proof He as (_ & _ & Hn & Hm & Hr). unfold TAR_HEADER_SIZE. cbv zeta. split; [|split].
  - rewrite length_take, length_app, length_entry. lia.
  - unfold header_filename, entry_bytes.
    replace (100 - length (te_name e))%nat with (S (99 - length (te_name e)))%nat by lia. cbn [replicate].
    rewrite <- !app_assoc. cbn [app]. rewrite take_app_ge by lia.
    replace (157 - length (te_name e))%nat with (S (156 - length (te_name e)))%nat by lia. cbn [take]. apply c_string_name.
  - intros Hlt. unfold header_size, TAR_SIZE_FIELD. set (X := entry_bytes e ++ rest).
    change 157%nat with (124 + 33)%nat. rewrite <- take_drop_commute, take_take.
    assert (HX : drop 124 X = octal 11 (Z.of_nat (length (te_data e))) ++ te_rest e ++ te_data e ++ replicate (pad (length (te_data e))) 0 ++ rest).
    { unfold X, entry_bytes. rewrite <- !app_assoc.
      rewrite (app_assoc (te_name e)), (app_assoc (te_name e ++ _)). apply drop_app_length'.
      rewrite !length_app, length_replicate. lia. }
    rewrite HX. unfold tar_get_size. rewrite take_take. change (12 `min` 33)%nat with 12%nat. change (11 `min` 12)%nat with 11%nat.
    rewrite take_app_length' by (by rewrite length_octal). rewrite octal_size; lia.
Qed.
End entries.

(** ** Reading an archive *)

Lemma ramdisk_read_ok dev (o n : Z) :
  0 ≤ o → 0 ≤ n → o + n ≤ Z.of_nat (length dev) → Z.of_nat (length dev) < 2 ^ 32 →
  ramdisk_read dev o n = Ok (n, take (Z.to_nat n) (drop (Z.to_nat o) dev)).
Proof.
  intros Ho Hn Hle Hlt. unfold ramdisk_read. rewrite (proj2 (Z.ltb_ge (Z.of_nat (length dev)) o)) by lia.
  rewrite u32_small, (proj2 (Z.ltb_ge (Z.of_nat (length dev)) (o + n))) by lia. cbv iota.
  by rewrite (proj2 (Z.ltb_ge (Z.of_nat (length dev)) (o + n))) by lia.
Qed.

(** Where the entry behind [pre] starts *)
Definition offset_of (pre : list tar_entry) : Z := Z.of_nat (length (concat (entry_bytes <$> pre))).

Lemma offset_nonneg pre : 0 ≤ offset_of pre.
Proof. unfold offset_of. lia. Qed.

Lemma offset_snoc pre e : offset_of (pre ++ [e]) = offset_of pre + Z.of_nat (length (entry_bytes e)).
Proof. unfold offset_of. rewrite fmap_app, concat_app, length_app. cbn. rewrite app_nil_r. lia. Qed.

Lemma archive_split pre e post :
  archive (pre ++ e :: post) =
  concat (entry_bytes <$> pre) ++ entry_bytes e ++ concat (entry_bytes <$> post) ++ replicate 1024 0.
Proof. unfold archive. rewrite fmap_app, concat_app. cbn. by rewrite <- !app_assoc. Qed.

Lemma archive_length pre e post :
  Z.of_nat (length (archive (pre ++ e :: post))) =
  offset_of pre + Z.of_nat (length (entry_bytes e)) + Z.of_nat (length (concat (entry_bytes <$> post))) + 1024.
Proof. rewrite archive_split, !length_app, length_replicate. unfold offset_of. lia. Qed.

Section reading.
Context (arch : list tar_entry) (Hok : Forall te_ok arch) (Hlen : Z.of_nat (length (archive arch)) < 2 ^ 32).

Lemma entry_ok pre e post : arch = pre ++ e :: post → te_ok e.
Proof. intros Ha. pose proof Hok as H. rewrite Ha in H. apply Forall_app in H as [_ H]. by apply Forall_cons in H as [? _]. Qed.

Lemma read_header_at pre e post :
  arch = pre ++ e :: post →
  ∃ h, tar_read_header (archive arch) (offset_of pre) = Ok h ∧ header_filename h = Ok (te_name e) ∧
    header_size h = Z.of_nat (length (te_data e)).
Proof.
  intros Ha. assert (He : te_ok e) by (by eapply entry_ok).
  pose proof Hlen as Hlen'. rewrite Ha in Hlen' |- *. pose proof (archive_length pre e post) as Hl. pose proof (length_entry e He) as Hle.
  pose proof (offset_nonneg pre) as Ho.
  destruct (entry_header e He (concat (entry_bytes <$> post) ++ replicate 1024 0)) as (H1 & H2 & H3).
  eexists. split; [|split; [exact H2|apply H3; lia]]. unfold tar_read_header.
  rewrite ramdisk_read_ok by (unfold TAR_HEADER_SIZE in *; lia). rewrite bind_ok, archive_split.
  unfold offset_of. rewrite !Nat2Z.id, drop_app_length. by rewrite H1.
Qed.

Lemma read_header_end : tar_read_header (archive arch) (offset_of arch) = Ok (replicate TAR_HEADER_SIZE 0).
Proof.
  unfold archive in *. rewrite length_app, length_replicate in Hlen. unfold tar_read_header.
  rewrite ramdisk_read_ok by (unfold offset_of, TAR_HEADER_SIZE; rewrite ?length_app, ?length_replicate; lia). rewrite bind_ok.
  unfold offset_of. rewrite !Nat2Z.id, drop_app_length, take_replicate. done.
Qed.

(** The first entry of [post] whose name is [full], and its offset *)
Fixpoint first_named (offs : Z) (post : list tar_entry) (full : list Z) : option (Z * tar_entry) :=
  match post with
  | [] => None
  | e :: post' =>
      if bool_decide (k_util_path_strip (te_name e) = Ok full) then Some (offs, e)
      else first_named (offs + Z.of_nat (length (entry_bytes e))) post' full
  end.

Lemma strip_total (p : list Z) : p ≠ [] → ∃ q, k_util_path_strip p = Ok q.
Proof.
  intros Hp. unfold k_util_path_strip. case_bool_decide; [eauto|]. destruct p as [|c p]; [done|].
  rewrite char_at_first, bind_ok. set (path := if c =? SLASH then _ else _).
  assert (Hne : path ≠ []). { unfold path. destruct (Z.eqb_spec c SLASH) as [->|]; [|done]. cbn. by destruct p. }
  clearbody path. destruct path as [|d path _] using rev_ind; [done|]. rewrite char_at_last, bind_ok. eauto.
Qed.

Lemma find_loop_first full pre post fuel :
  arch = pre ++ post → (length post < fuel)%nat →
  tar_find_loop fuel (archive arch) full (offset_of pre) =
  match first_named (offset_of pre) post full with
  | None => Ok None
  | Some (o, e) =>
      nm ← k_util_path_filename (te_name e); buffer ← of_option nm;
      if 256 <=? Z.of_nat (length buffer) then Fault
      else Ok (Some (mk_tar buffer o (Z.of_nat (length (te_data e)))))
  end.
Proof.
  revert pre fuel. induction post as [|e post IH]; intros pre fuel Ha Hf; (destruct fuel as [|fuel]; [cbn in Hf; lia|]);
    cbn [tar_find_loop first_named].
  - rewrite app_nil_r in Ha. subst pre. case_if; [done|]. rewrite read_header_end, bind_ok. done.
  - assert (He : te_ok e) by (by eapply entry_ok).
    destruct (read_header_at pre e post Ha) as (h & Hh & Hname & Hsize).
    pose proof (archive_length pre e post) as Hl. rewrite <- Ha in Hl. pose proof (length_entry e He) as Hle.
    rewrite (proj2 (Z.leb_gt _ _)) by lia. rewrite Hh, bind_ok, Hname, bind_ok.
    destruct (te_name e) as [|c name] eqn:Hn; [by destruct He as [? _]|]. rewrite <- Hn in *. clear Hn c name.
    destruct (strip_total (te_name e)) as [q Hq]; [by destruct He|]. rewrite Hq, bind_ok.
    destruct (decide (q = full)) as [->|Hne].
    + rewrite !bool_decide_eq_true_2 by done. unfold tar_create_node. rewrite Hname, bind_ok, Hsize.
      destruct (k_util_path_filename (te_name e)) as [nm| | |]; [|done..]. rewrite !bind_ok. destruct nm as [b|]; [|done].
      cbn [of_option]. rewrite !bind_ok. by case_if.
    + rewrite !bool_decide_eq_false_2 by congruence. rewrite Hsize, next_header_entry by (done || lia || (unfold offset_of; lia)).
      rewrite <- offset_snoc. apply IH; [by rewrite <- app_assoc|cbn in Hf; lia].
Qed.
End reading.

(** ** Names *)

(** The segments of an entry's name, which may end with a slash *)
Definition entry_segs (e : tar_entry) (l : list (list Z)) : Prop :=
  k_util_path_strip (te_name e) = Ok (join_slash l) ∧ te_name e ≠ [SLASH] ∧ Forall good_seg l ∧ l ≠ [].

Lemma strip_shorter (p q : list Z) : k_util_path_strip p = Ok q → (length q ≤ length p)%nat.
Proof.
  unfold k_util_path_strip. case_bool_decide; [by intros [= <-]|]. intros (c & _ & Hr)%bind_ok_inv.
  apply bind_ok_inv in Hr as (c' & _ & Hr). injection Hr as <-. repeat case_if; rewrite ?length_take, ?length_drop; lia.
Qed.

Lemma segs_filename e l : entry_segs e l → k_util_path_filename (te_name e) = Ok (last l).
Proof.
  intros (Hs & Hne & Hg & Hl). rewrite <- (filename_joined l (join_slash l)) by (done || by left).
  destruct (strip_joined l Hl Hg) as [Hj _].
  assert (Hnj : join_slash l ≠ [SLASH]) by (intros He; by apply (join_first l SLASH [] Hg He)).
  unfold k_util_path_filename, k_util_path_length, k_util_path_segment.
  rewrite !bool_decide_eq_false_2 by done. by rewrite Hs, Hj.
Qed.

Lemma join_inj l l' : Forall good_seg l → Forall good_seg l' → join_slash l = join_slash l' → l = l'.
Proof.
  intros Hg. revert l'. induction Hg as [|x l Hx Hg IH]; intros l' Hg' Hj.
  - destruct l' as [|y l']; [done|]. by destruct (join_nonempty (y :: l') ltac:(done) Hg').
  - destruct l' as [|y l']; [by destruct (join_nonempty (x :: l) ltac:(done) ltac:(by constructor))|].
    apply Forall_cons in Hg' as [Hy Hg'].
    assert (x = y) as <-. { rewrite <- (until_slash_join x l Hx), Hj. by apply until_slash_join. }
    f_equal. destruct l as [|z l], l' as [|z' l']; [done| | |].
    + rewrite (join_cons x (z' :: l')) in Hj by done. cbn in Hj. apply (f_equal length) in Hj. rewrite length_app in Hj. cbn in Hj. lia.
    + rewrite (join_cons x (z :: l)) in Hj by done. cbn in Hj. apply (f_equal length) in Hj. rewrite length_app in Hj. cbn in Hj. lia.
    + rewrite !(join_cons x) in Hj by done. apply app_inj_1 in Hj as [_ Hj]; [|done]. injection Hj as Hj. by apply IH.
Qed.

Lemma first_named_at pre e post offs l :
  entry_segs e l → Forall (λ e', ∃ l', entry_segs e' l' ∧ l' ≠ l) pre →
  first_named offs (pre ++ e :: post) (join_slash l) = Some (offs + offset_of pre, e).
Proof.
  intros (He & _ & Hg & _) Hpre. revert offs. induction Hpre as [|e' pre (l' & (Hs & _ & Hg' & _) & Hne) _ IH]; intros offs; cbn [app first_named].
  - rewrite bool_decide_eq_true_2 by done. do 2 f_equal. unfold offset_of. cbn. lia.
  - rewrite bool_decide_eq_false_2. 2: { rewrite Hs. intros [= Hj]. by apply Hne, join_inj. }
    rewrite IH. do 2 f_equal. unfold offset_of. cbn. rewrite length_app. lia.
Qed.

Lemma first_named_none arch offs l :
  Forall good_seg l → Forall (λ e', ∃ l', entry_segs e' l' ∧ l' ≠ l) arch → first_named offs arch (join_slash l) = None.
Proof.
  intros Hg Hall. revert offs. induction Hall as [|e' pre (l' & (Hs & _ & Hg' & _) & Hne) _ IH]; intros offs; cbn [first_named]; [done|].
  rewrite bool_decide_eq_false_2; [apply IH|]. rewrite Hs. intros [= Hj]. by apply Hne, join_inj.
Qed.

(** The data behind the header of an entry *)
Lemma data_at pre e post (off : nat) :
  te_ok e → (off ≤ length (te_data e))%nat →
  ∃ rest, drop (Z.to_nat (offset_of pre + 512 + Z.of_nat off)) (archive (pre ++ e :: post)) = drop off (te_data e) ++ rest.
Proof.
  intros (_ & _ & Hn & Hm & Hr) Hoff. rewrite archive_split. unfold offset_of.
  replace (Z.to_nat _) with (length (concat (entry_bytes <$> pre)) + (512 + off))%nat by lia.
  rewrite <- drop_drop, drop_app_length. unfold entry_bytes. rewrite <- !app_assoc.
  rewrite (app_assoc (te_name e)), (app_assoc (te_name e ++ _)), (app_assoc ((te_name e ++ _) ++ _)), (app_assoc (((te_name e ++ _) ++ _) ++ _)).
  rewrite <- drop_drop, drop_app_length'.
  2: { rewrite !length_app, length_replicate, length_octal. lia. }
  rewrite drop_app_le by done. eauto.
Qed.

(** What an archive holds is found and read back: in the directory named by an entry of
    the archive, looking for a name gives the first entry whose path is the directory's
    path followed by this name, with the size of its data, and reading it at any offset
    gives exactly its bytes from there, cut at the end of the file.  A name that no entry
    has is not found.  One turn per entry is enough for the loop. *)
Theorem tar_find_and_read arch dpre d dpost dl nm sz x pre e post (off n : nat) :
  Forall te_ok arch → Z.of_nat (length (archive arch)) < 2 ^ 32 →
  arch = dpre ++ d :: dpost → entry_segs d dl → good_seg x →
  arch = pre ++ e :: post → entry_segs e (dl ++ [x]) →
  Forall (λ e', ∃ l', entry_segs e' l' ∧ l' ≠ dl ++ [x]) pre →
  (off ≤ length (te_data e))%nat → Z.of_nat (off + n) < 2 ^ 32 →
  let dir := mk_tar nm (offset_of dpre) sz in
  let file := mk_tar x (offset_of pre) (Z.of_nat (length (te_data e))) in
  tar_finddir (S (length arch)) (archive arch) dir x = Ok (Some file) ∧
  tar_read (archive arch) file (Z.of_nat off) (Z.of_nat n) =
    Ok (Z.min (Z.of_nat n) (Z.of_nat (length (te_data e) - off)), take n (drop off (te_data e))) ∧
  (∀ y, good_seg y → Forall (λ e', ∃ l', entry_segs e' l' ∧ l' ≠ dl ++ [y]) arch →
     tar_finddir (S (length arch)) (archive arch) dir y = Ok None).
Proof.
  intros Hok Hlen Had Hd Hx Hae He Hpre Hoff Hn dir file. pose proof Hd as (Hds & _ & Hdg & Hdl).
  assert (Hfind : ∀ y, good_seg y → tar_finddir (S (length arch)) (archive arch) dir y =
    tar_find_loop (S (length arch)) (archive arch) (join_slash (dl ++ [y])) 0).
  { intros y Hy. unfold tar_finddir. destruct (read_header_at arch Hok Hlen dpre d dpost Had) as (h & Hh & Hname & _).
    cbn [dir tar_inode]. rewrite Hh, bind_ok, Hname, bind_ok. unfold k_util_path_join.
    destruct (strip_joined [y] ltac:(done) ltac:(by constructor)) as [Hys _]. cbn [join_slash] in Hys.
    rewrite Hds, bind_ok, Hys, !bind_ok. by rewrite join_snoc. }
  assert (Hteok : te_ok e) by (by eapply (entry_ok arch)).
  split; [|split].
  - rewrite Hfind by done. change 0 with (offset_of []). rewrite (find_loop_first arch Hok Hlen _ [] arch) by (done || lia).
    rewrite Hae, (first_named_at pre e post) by done. change (offset_of [] + offset_of pre) with (offset_of pre).
    rewrite (segs_filename e (dl ++ [x]) He), last_snoc, bind_ok. cbn [of_option]. rewrite bind_ok.
    rewrite (proj2 (Z.leb_gt 256 _)); [done|]. destruct He as (Hs & _). apply strip_shorter in Hs.
    rewrite join_snoc, length_app in Hs by done. cbn [length] in Hs. destruct Hteok as (_ & _ & ? & _). lia.
  - unfold tar_read. destruct (read_header_at arch Hok Hlen pre e post Hae) as (h & Hh & _ & Hsize).
    cbn [file tar_inode]. rewrite Hh, bind_ok, Hsize. rewrite (proj2 (Z.ltb_ge _ (Z.of_nat off))) by lia.
    rewrite (u32_small (Z.of_nat off + _)) by lia. pose proof (archive_length pre e post) as Hl. rewrite <- Hae in Hl.
    pose proof (offset_nonneg pre). pose proof (length_entry e Hteok).
    set (k := if Z.of_nat (length (te_data e)) <? Z.of_nat off + Z.of_nat n
              then Z.of_nat (length (te_data e)) - Z.of_nat off else Z.of_nat n).
    assert (Hk : k = Z.min (Z.of_nat n) (Z.of_nat (length (te_data e) - off))) by (unfold k; case_if; lia). clearbody k.
    rewrite u32_small by lia. rewrite ramdisk_read_ok by lia. rewrite Hk. do 2 f_equal.
    destruct (data_at pre e post off Hteok Hoff) as [rest Hrest]. rewrite Hae, Hrest.
    rewrite take_app_le by (rewrite length_drop; lia). 
    destruct (Z.min_spec (Z.of_nat n) (Z.of_nat (length (te_data e) - off))) as [[? ->] | [? ->]]; [by rewrite Nat2Z.id|].
    by rewrite Nat2Z.id, !take_ge by (rewrite length_drop; lia).
  - intros y Hy Hall. rewrite Hfind by done. change 0 with (offset_of []).
    rewrite (find_loop_first arch Hok Hlen _ [] arch) by (done || lia). rewrite first_named_none; [done| |done].
    apply Forall_app. split; [done|by constructor].
Qed.

(** "a/" and in it "b", which holds "hi" *)
Definition demo_tar_dir : tar_entry := mk_te [97; 47] (replicate 24 48) (replicate 377 0) [].
Definition demo_tar_file : tar_entry := mk_te [97; 47; 98] (replicate 24 48) (replicate 377 0) [104; 105].
Definition demo_tar : list tar_entry := [demo_tar_dir; demo_tar_file].

Lemma demo_te_ok name data :
  name ≠ [] → forallb (λ c, (0 <? c) && (c <? 256)) name = true → (length name < 100)%nat →
  te_ok (mk_te name (replicate 24 48) (replicate 377 0) data).
Proof.
  intros Hne Hc Hl. split; [done|]. split; [|split; [done|split; apply length_replicate]].
  apply Forall_forall. intros c Hin. rewrite forallb_forall in Hc. specialize (Hc c). rewrite <- list_elem_of_In in Hc.
  specialize (Hc Hin). breflect. lia.
Qed.

Lemma demo_tar_ok : Forall te_ok demo_tar.
Proof.
  apply Forall_cons. split; [by apply demo_te_ok; [..|cbn; lia]|]. apply Forall_cons. split; [|done].
  by apply demo_te_ok; [..|cbn; lia].
Qed.

Lemma demo_dir_segs : entry_segs demo_tar_dir [[97]].
Proof. split; [reflexivity|]. split; [done|]. split; [|done]. constructor; [|constructor]. split; [done|unfold SLASH; set_solver]. Qed.

Lemma demo_file_segs : entry_segs demo_tar_file [[97]; [98]].
Proof.
  split; [reflexivity|]. split; [done|]. split; [|done].
  constructor; [|constructor; [|constructor]]; (split; [done|unfold SLASH; set_solver]).
Qed.

Lemma tar_find_and_read_witness :
  tar_finddir 3 (archive demo_tar) (mk_tar [97] 0 0) [98] = Ok (Some (mk_tar [98] 512 2)) ∧
  tar_read (archive demo_tar) (mk_tar [98] 512 2) 1 10 = Ok (1, [105]).
Proof.
  destruct (tar_find_and_read demo_tar [] demo_tar_dir [demo_tar_file] [[97]] [97] 0 [98] [demo_tar_dir] demo_tar_file [] 1 10)
    as (H1 & H2 & _).
  - exact demo_tar_ok.
  - vm_compute. reflexivity.
  - reflexivity.
  - exact demo_dir_segs.
  - split; [done|unfold SLASH; set_solver].
  - reflexivity.
  - exact demo_file_segs.
  - constructor; [|constructor]. exists [[97]]. split; [exact demo_dir_segs|done].
  - cbn. lia.
  - lia.
  - split; [exact H1|exact H2].
Defined.

(** C40: An entry that claims a size of 4 GiB - 512 is never passed: the distance to the
    next header is computed modulo 2^32 and is 0, so the loop over the archive reads the
    same header for ever, whatever the fuel. *)
Theorem tar_huge_size_livelocks dev full offs h name simplified fuel :
  0 ≤ offs < Z.of_nat (length dev) → Z.of_nat (length dev) < 2 ^ 32 →
  tar_read_header dev offs = Ok h → header_filename h = Ok name → name ≠ [] →
  k_util_path_strip name = Ok simplified → simplified ≠ full → header_size h = 0xFFFFFE00 →
  tar_find_loop fuel dev full offs = OutOfFuel.
Proof.
  intros Ho Hlen Hh Hname Hne Hs Hd Hsize. induction fuel as [|fuel IH]; [done|]. cbn [tar_find_loop].
  rewrite (proj2 (Z.leb_gt _ _)), Hh, bind_ok, Hname, bind_ok by lia. destruct name as [|c name]; [done|].
  rewrite Hs, bind_ok, bool_decide_eq_false_2 by done. rewrite Hsize.
  replace (next_header offs 0xFFFFFE00) with offs; [done|]. unfold next_header.
  change (u32 ((0xFFFFFE00 / 512 + 1) * 512)) with 0. change (truthy (0xFFFFFE00 mod 512)) with false. cbv iota.
  rewrite Z.add_0_r, u32_small by lia. done.
Qed.

(** The size field "37777777000" *)
Definition demo_huge : list Z :=
  [97] ++ replicate 99 0 ++ replicate 24 48 ++ [51; 55; 55; 55; 55; 55; 55; 55; 48; 48; 48] ++ replicate 377 0.

Lemma tar_huge_size_livelocks_witness : tar_find_loop 1000 demo_huge [98] 0 = OutOfFuel.
Proof.
  apply (tar_huge_size_livelocks demo_huge [98] 0 (take TAR_HEADER_SIZE demo_huge) [97] [97]).
  - vm_compute. by split.
  - vm_compute. reflexivity.
  - reflexivity.
  - reflexivity.
  - done.
  - reflexivity.
  - done.
  - vm_compute. reflexivity.
Defined.
