(* ===== verification/Signals.v ===== *)
(** * kernel/src/proc/process.c: acting on signals

    The signal state of a process, the interrupt context it goes back to user mode with,
    and its user stack.  Sending a signal is in Sched; here the pending ones are acted
    upon, handlers are entered and returned from, and [sys_sigact] sets the actions.

    The stack is a memory of 32-bit words, by the addresses of the words. *)

From S2P Require Import Prelude.
From S2P Require Import TypesList.
From S2P Require Import Sched.

Definition SIG_IGNORE : Z := 0.
Definition SIG_TERMINATE : Z := 1.
Definition SIG_STOP : Z := 2.
Definition SIG_DFL : Z := 0.
Definition SIG_IGN : Z := 1.
Definition SA_RESTART : Z := 32.
Definition MAX_SYSCALL : Z := 255.
Definition SIGKILL : Z := 9.
Definition SIGSTOP : Z := 19.

(** The array [sig_defaults]: what its designated initializers leave, up to the largest
    index; the entry of [SIGSTOP] is [SIGSTOP]. *)
Definition sig_defaults : list Z :=
  [0; 0; 1; 1; 0; 0; 1; 0; 0; 1; 1; 1; 1; 0; 0; 0; 0; 0; 0; 19].

Record sig_proc := mk_sp {
  sp_state : Z;
  sp_queue : Z;
  sp_ignored : Z;
  sp_handlers : list (Z * Z); (* handler, flags *)
  sp_interrupted : Z;
  sp_parent_wakeups : nat (* calls of wakeup_queue(parent->wait_queue) *)
}.

Definition with_queue (p : sig_proc) (q : Z) : sig_proc :=
  mk_sp (sp_state p) q (sp_ignored p) (sp_handlers p) (sp_interrupted p) (sp_parent_wakeups p).
Definition with_interrupted (p : sig_proc) (x : Z) : sig_proc :=
  mk_sp (sp_state p) (sp_queue p) (sp_ignored p) (sp_handlers p) x (sp_parent_wakeups p).

Record icontext := mk_ctx {
  c_edi : Z; c_esi : Z; c_ebp : Z; c_unused : Z; c_ebx : Z; c_edx : Z; c_ecx : Z; c_eax : Z;
  c_int_no : Z; c_err_code : Z; c_eip : Z; c_cs : Z; c_eflags : Z; c_esp : Z; c_ss : Z
}.

Definition ctx_words (c : icontext) : list Z :=
  [c_edi c; c_esi c; c_ebp c; c_unused c; c_ebx c; c_edx c; c_ecx c; c_eax c;
   c_int_no c; c_err_code c; c_eip c; c_cs c; c_eflags c; c_esp c; c_ss c].

Definition ctx_of (l : list Z) : option icontext :=
  match l with
  | [a; b; c; d; e; f; g; h; i; j; k; l; m; n; o] => Some (mk_ctx a b c d e f g h i j k l m n o)
  | _ => None
  end.

Definition with_eax (c : icontext) (x : Z) : icontext :=
  mk_ctx (c_edi c) (c_esi c) (c_ebp c) (c_unused c) (c_ebx c) (c_edx c) (c_ecx c) x
    (c_int_no c) (c_err_code c) (c_eip c) (c_cs c) (c_eflags c) (c_esp c) (c_ss c).
Definition with_esp (c : icontext) (x : Z) : icontext :=
  mk_ctx (c_edi c) (c_esi c) (c_ebp c) (c_unused c) (c_ebx c) (c_edx c) (c_ecx c) (c_eax c)
    (c_int_no c) (c_err_code c) (c_eip c) (c_cs c) (c_eflags c) x (c_ss c).

(** ** The stack *)

Fixpoint store_words (m : gmap Z Z) (a : Z) (l : list Z) : res (gmap Z Z) :=
  match l with
  | [] => Ok m
  | w :: l' =>
      match m !! a with
      | None => Fault
      | Some _ => store_words (<[a := w]> m) (a + 4) l'
      end
  end.

Fixpoint load_words (m : gmap Z Z) (a : Z) (n : nat) : res (list Z) :=
  match n with
  | O => Ok []
  | S n' => w ← of_option (m !! a); l ← load_words m (a + 4) n'; Ok (w :: l)
  end.

(** [PUSH] and [POP] of a value of so many words *)
Definition push (m : gmap Z Z) (sp : Z) (l : list Z) : res (Z * gmap Z Z) :=
  let sp' := u32 (sp - 4 * Z.of_nat (length l)) in
  m' ← store_words m sp' l; Ok (sp', m').
Definition pop (m : gmap Z Z) (sp : Z) (n : nat) : res (list Z * Z) :=
  l ← load_words m sp n; Ok (l, u32 (sp + 4 * Z.of_nat n)).

(** ** Sets of signals *)

Definition is_signal_ignored (p : sig_proc) (sig : Z) : bool := truthy (Z.land (sp_ignored p) (signal_bit sig)).
Definition set_ignored (p : sig_proc) (x : Z) : sig_proc :=
  mk_sp (sp_state p) (sp_queue p) x (sp_handlers p) (sp_interrupted p) (sp_parent_wakeups p).
Definition clear_bits (x bits : Z) : Z := Z.land x (u64 (Z.lnot bits)).

(** How acting on a signal ends: by a return, by the exit of the process, or in user mode *)
Inductive sig_end :=
| SigReturn (r : Z) (p : sig_proc)
| SigExit (code : Z) (p : sig_proc)
| SigEnter (entry esp : Z) (stack : gmap Z Z) (p : sig_proc).

Definition handle_signal (p : sig_proc) (sig : Z) (ctx : icontext) (stack : gmap Z Z) : res sig_end :=
  if (sig <? 0) || (MAX_SIGNAL <=? sig) then Ok (SigReturn 1 p)
  else if is_signal_ignored p sig then Ok (SigReturn 1 p)
  else
    '(handler, _) ← of_option (sp_handlers p !! Z.to_nat sig);
    if handler =? 0 then
      def ← of_option (sig_defaults !! Z.to_nat sig);
      if def =? SIG_TERMINATE then Ok (SigExit (Z.lor (Z.shiftl (128 + sig) 4) sig) p)
      else if def =? SIG_STOP then
        Ok (SigReturn 1 (mk_sp PROCESS_STATE_SLEEPING (sp_queue p) (sp_ignored p) (sp_handlers p) (sp_interrupted p)
              (S (sp_parent_wakeups p))))
      else Ok (SigReturn (b2z (sp_queue p =? 0)) p)
    else
      '(esp1, m1) ← push stack (c_esp ctx) (ctx_words ctx);
      '(esp2, m2) ← push m1 esp1 [sig];
      '(esp3, m3) ← push m2 esp2 [0xDEADBEEF];
      Ok (SigEnter handler esp3 m3 p).

(** [n] signals are left, the next one is [i]. *)
Fixpoint signals_loop (n : nat) (i : Z) (p : sig_proc) (ctx : icontext) (stack : gmap Z Z) : res sig_end :=
  match n with
  | O => Ok (SigReturn 0 p)
  | S n' =>
      if truthy (Z.land (sp_queue p) (signal_bit i)) then
        e ← handle_signal (with_queue p (clear_bits (sp_queue p) (signal_bit i))) i ctx stack;
        match e with
        | SigReturn r p' => if truthy r then Ok (SigReturn 0 p') else signals_loop n' (i + 1) p' ctx stack
        | _ => Ok e
        end
      else signals_loop n' (i + 1) p ctx stack
  end.

Definition k_proc_process_process_signals (p : sig_proc) (ctx : icontext) (stack : gmap Z Z) : res sig_end :=
  if sp_queue p =? 0 then Ok (SigReturn 0 p)
  else signals_loop (Z.to_nat MAX_SIGNAL) 0 p ctx stack.

(** ** Returning from a handler *)

Section syscalls.
(** [__k_int_syscall_dispatcher] on the context of the interrupted call *)
Context (dispatcher : icontext → icontext).

(** The bound is [MAX_SYSCALL], the array has [MAX_SIGNAL] entries. *)
Definition try_restart_syscalls (p : sig_proc) (sig : Z) (ctx : icontext) : res (sig_proc * icontext) :=
  if (sig <? 0) || (MAX_SYSCALL <=? sig) then Ok (p, ctx)
  else if truthy (sp_interrupted p) && (s32 (c_eax ctx) =? - ERESTARTSYS) then
    '(_, flags) ← of_option (sp_handlers p !! Z.to_nat sig);
    if truthy (Z.land flags SA_RESTART) then
      Ok (with_interrupted p 0, dispatcher (with_eax ctx (sp_interrupted p)))
    else Ok (with_interrupted p 0, with_eax ctx (u32 (- EINTR)))
  else Ok (p, ctx).

(** [inl]: back to user mode with this context; [inr]: the process exits or enters another
    handler. *)
Definition k_proc_process_return_from_signal (p : sig_proc) (ctx : icontext) (stack : gmap Z Z)
    : res (sig_proc * icontext + sig_end) :=
  '(l, esp1) ← pop stack (c_esp ctx) 1;
  sig ← of_option (head l);
  '(ws, _) ← pop stack esp1 15;
  out ← of_option (ctx_of ws);
  let ctx1 := mk_ctx (c_edi out) (c_esi out) (c_ebp out) (c_unused ctx) (c_ebx out) (c_edx out) (c_ecx out) (c_eax out)
                (c_int_no ctx) (c_err_code ctx) (c_eip out) (c_cs ctx) (c_eflags ctx) (c_esp out) (c_ss ctx) in
  e ← (if truthy (sp_queue p) then k_proc_process_process_signals p ctx1 stack else Ok (SigReturn 0 p));
  match e with
  | SigReturn _ p' => r ← try_restart_syscalls p' (s32 sig) ctx1; Ok (inl r)
  | _ => Ok (inr e)
  end.
End syscalls.

(** ** Setting actions

    [handler] is the structure behind the pointer, if the pointer is valid; [prev] tells
    whether the pointer for the previous action is, and the second result is what is
    stored there. *)

Definition set_handler (sig : Z) (x : Z * Z) (q : sig_proc) : sig_proc :=
  mk_sp (sp_state q) (sp_queue q) (sp_ignored q) (<[Z.to_nat sig := x]> (sp_handlers q)) (sp_interrupted q)
    (sp_parent_wakeups q).

Definition sys_sigact (p : sig_proc) (sig : Z) (handler : option (Z * Z)) (prev : bool) : res (Z * option Z * sig_proc) :=
  if (sig <? 0) || (MAX_SIGNAL <=? sig) then Ok (1, None, p)
  else
    match handler with
    | None => Ok (u32 (- EINVAL), None, p)
    | Some (sa_handler, sa_flags) =>
        '(old, flags) ← of_option (sp_handlers p !! Z.to_nat sig);
        let stored := if prev then Some old else None in
        if sa_handler =? SIG_DFL then
          Ok (0, stored, set_ignored (set_handler sig (0, flags) p) (clear_bits (sp_ignored p) (signal_bit sig)))
        else if sa_handler =? SIG_IGN then
          Ok (0, stored, set_ignored p (Z.lor (sp_ignored p) (signal_bit sig)))
        else
          Ok (0, stored, set_handler sig (sa_handler, u8 sa_flags)
                (set_ignored p (clear_bits (sp_ignored p) (signal_bit sig))))
    end.

(** ** Bits of the set of pending signals *)

Section bits.
Implicit Types (q i j : Z).

Lemma signal_bit_low i : 0 ≤ i < 31 → signal_bit i = Z.shiftl 1 i.
Proof.
  intros Hi. unfold signal_bit. rewrite Z.mod_small, Z.shiftl_1_l by lia.
  assert (H : 0 < 2 ^ i < 2 ^ 31) by (split; [apply Z.pow_pos_nonneg; lia|apply Z.pow_lt_mono_r; lia]).
  rewrite s32_small, u64_small by lia. done.
Qed.

(** Signals from 32 on are the signals 32 below them. *)
Lemma signal_bit_alias i : signal_bit (i + 32) = signal_bit i.
Proof. unfold signal_bit. by rewrite <- (Z.add_mod_idemp_r i 32), Z.mod_same, Z.add_0_r by lia. Qed.

Lemma pending_bit q i : 0 ≤ i < 31 → truthy (Z.land q (signal_bit i)) = Z.testbit q i.
Proof. intros Hi. rewrite signal_bit_low by done. apply truthy_land_bit. lia. Qed.

Lemma clear_bits_low q i :
  0 ≤ q < 2 ^ 31 → 0 ≤ i < 31 → clear_bits q (signal_bit i) = Z.land q (Z.lnot (Z.shiftl 1 i)).
Proof.
  intros Hq Hi. unfold clear_bits. rewrite signal_bit_low by done. apply Z.bits_inj'. intros j Hj.
  rewrite !Z.land_spec. destruct (Z.lt_ge_cases j 31) as [Hlt|Hge].
  - unfold u64. rewrite Z.mod_pow2_bits_low by lia. done.
  - by rewrite (testbit_high q 31 j) by lia.
Qed.

Lemma clear_after_set x i : 0 ≤ x < 2 ^ 31 → 0 ≤ i < 31 → Z.testbit x i = false → clear_bits (Z.lor x (signal_bit i)) (signal_bit i) = x.
Proof.
  intros Hx Hi Hb. assert (Hp : 0 < 2 ^ i < 2 ^ 31) by (split; [apply Z.pow_pos_nonneg; lia|apply Z.pow_lt_mono_r; lia]).
  assert (Hr : 0 ≤ Z.lor x (2 ^ i) < 2 ^ 31).
  { split; [apply Z.lor_nonneg; lia|]. apply bits_range; [lia|apply Z.lor_nonneg; lia|]. intros j Hj.
    rewrite Z.lor_spec, (testbit_high x 31 j), Z.pow2_bits_false by lia. done. }
  rewrite signal_bit_low, Z.shiftl_1_l by done. rewrite <- (Z.shiftl_1_l i) in *. rewrite <- (signal_bit_low i) at 2 by done.
  rewrite clear_bits_low by done. apply Z.bits_inj'. intros j Hj. rewrite testbit_clear_bit, Z.lor_spec by lia.
  rewrite Z.shiftl_1_l. destruct (Z.eqb_spec i j) as [<-|Hne].
  - by rewrite Hb.
  - by rewrite Z.pow2_bits_false, orb_false_r by lia.
Qed.

Lemma cleared_range q i : 0 ≤ q < 2 ^ 31 → 0 ≤ i → 0 ≤ Z.land q (Z.lnot (Z.shiftl 1 i)) < 2 ^ 31.
Proof.
  intros Hq Hi. assert (H0 : 0 ≤ Z.land q (Z.lnot (Z.shiftl 1 i))) by (apply Z.land_nonneg; lia). split; [done|].
  apply bits_range; [lia|done|]. intros j Hj. by rewrite testbit_clear_bit, (testbit_high q 31 j), andb_false_r by lia.
Qed.
End bits.

(** ** The loop over the pending signals *)

Section loop.
Implicit Types (p : sig_proc) (ctx : icontext) (stack : gmap Z Z) (i : Z).

Lemma loop_skip k n i p ctx stack :
  0 ≤ i → i + Z.of_nat k ≤ 31 → (∀ j, i ≤ j < i + Z.of_nat k → Z.testbit (sp_queue p) j = false) →
  signals_loop (k + n) i p ctx stack = signals_loop n (i + Z.of_nat k) p ctx stack.
Proof.
  revert i. induction k as [|k IH]; intros i Hi Hk Hq; [by rewrite Z.add_0_r|]. cbn [Nat.add signals_loop].
  rewrite pending_bit, Hq by lia. rewrite IH; [f_equal; lia|lia|lia|]. intros j Hj. apply Hq. lia.
Qed.

(** A signal that lets the loop go on changes nothing else. *)
Lemma handle_goes_on p sig ctx stack p' : handle_signal p sig ctx stack = Ok (SigReturn 0 p') → p' = p ∧ sp_queue p ≠ 0.
Proof.
  unfold handle_signal. case_if; [by intros [=]|]. case_if; [by intros [=]|].
  intros ([handler fl] & _ & Hr0)%bind_ok_inv. revert Hr0. case_if; intros Hr0.
  - apply bind_ok_inv in Hr0 as (def & _ & Hr0). revert Hr0. case_if; [by intros [=]|]. case_if; [by intros [=]|].
    intros [= Hr <-]. split; [done|]. by destruct (Z.eqb_spec (sp_queue p) 0).
  - apply bind_ok_inv in Hr0 as ([a m] & _ & Hr0). apply bind_ok_inv in Hr0 as ([a2 m2] & _ & Hr0).
    by apply bind_ok_inv in Hr0 as ([a3 m3] & _ & Hr0).
Qed.

Lemma handle_returns p sig ctx stack r p' : handle_signal p sig ctx stack = Ok (SigReturn r p') → r = 0 ∨ r = 1.
Proof.
  unfold handle_signal. case_if; [intros [= <- _]; by right|]. case_if; [intros [= <- _]; by right|].
  intros ([handler fl] & _ & Hr0)%bind_ok_inv. revert Hr0. case_if; intros Hr0.
  - apply bind_ok_inv in Hr0 as (def & _ & Hr0). revert Hr0. case_if; [by intros [=]|]. case_if; [intros [= <- _]; by right|].
    intros [= <- _]. destruct (sp_queue p =? 0); [by right|by left].
  - apply bind_ok_inv in Hr0 as ([a m] & _ & Hr0). apply bind_ok_inv in Hr0 as ([a2 m2] & _ & Hr0).
    by apply bind_ok_inv in Hr0 as ([a3 m3] & _ & Hr0).
Qed.
End loop.

(** The lowest pending signal is taken out of the set and handled first. *)
Lemma process_step p ctx stack i :
  0 ≤ sp_queue p < 2 ^ 31 → 0 ≤ i < 31 → Z.testbit (sp_queue p) i = true →
  (∀ j, 0 ≤ j < i → Z.testbit (sp_queue p) j = false) →
  let p' := with_queue p (Z.land (sp_queue p) (Z.lnot (Z.shiftl 1 i))) in
  k_proc_process_process_signals p ctx stack =
  (e ← handle_signal p' i ctx stack;
   match e with
   | SigReturn r p'' => if truthy r then Ok (SigReturn 0 p'') else k_proc_process_process_signals p'' ctx stack
   | _ => Ok e
   end).
Proof.
  intros Hq Hi Hbit Hlow p'. set (rest := Z.to_nat (63 - i)).
  assert (Hsplit : ∀ q, (∀ j, 0 ≤ j < i → Z.testbit (sp_queue q) j = false) →
    signals_loop (Z.to_nat MAX_SIGNAL) 0 q ctx stack = signals_loop (S rest) i q ctx stack).
  { intros q Hql. replace (Z.to_nat MAX_SIGNAL) with (Z.to_nat i + S rest)%nat by (unfold rest, MAX_SIGNAL; lia).
    rewrite loop_skip by (lia || (intros j Hj; apply Hql; lia)). by rewrite Z.add_0_l, Z2Nat.id by lia. }
  unfold k_proc_process_process_signals at 1. rewrite (proj2 (Z.eqb_neq (sp_queue p) 0)).
  2: { intros H0. rewrite H0, Z.bits_0 in Hbit. done. }
  rewrite Hsplit by done. cbn [signals_loop]. rewrite pending_bit, Hbit, clear_bits_low by lia. fold p'.
  destruct (handle_signal p' i ctx stack) as [[r p''|code p''|en es st p'']| | |] eqn:He; try done. rewrite !bind_ok.
  destruct (handle_returns _ _ _ _ _ _ He) as [-> | ->]; [|done]. change (truthy 0) with false. cbv iota.
  destruct (handle_goes_on _ _ _ _ _ He) as [-> Hne]. unfold k_proc_process_process_signals.
  rewrite (proj2 (Z.eqb_neq (sp_queue p') 0)) by done.
  assert (Hp' : ∀ j, 0 ≤ j < i → Z.testbit (sp_queue p') j = false).
  { intros j Hj. unfold p'. cbn [sp_queue with_queue]. rewrite testbit_clear_bit, Hlow, andb_false_r by lia. done. }
  rewrite Hsplit by done. cbn [signals_loop]. rewrite pending_bit by lia.
  unfold p' at 2. cbn [sp_queue with_queue]. by rewrite testbit_clear_bit, Z.eqb_refl by lia.
Qed.

(** ** The reference: the pending signals one after the other *)

Definition pending (q : Z) : list Z := filter (λ i, Z.testbit q i = true) (seqZ 0 31).

Fixpoint act_on (l : list Z) (p : sig_proc) (ctx : icontext) (stack : gmap Z Z) : res sig_end :=
  match l with
  | [] => Ok (SigReturn 0 p)
  | sig :: l' =>
      e ← handle_signal (with_queue p (Z.land (sp_queue p) (Z.lnot (Z.shiftl 1 sig)))) sig ctx stack;
      match e with
      | SigReturn r p' => if truthy r then Ok (SigReturn 0 p') else act_on l' p' ctx stack
      | _ => Ok e
      end
  end.

Lemma filter_agree (f g : Z → bool) (L : list Z) :
  (∀ j, j ∈ L → f j = g j) → filter (λ j, f j = true) L = filter (λ j, g j = true) L.
Proof.
  induction L as [|x L IH]; intros H; [done|]. rewrite !filter_cons, (H x) by (by left).
  rewrite IH by (intros j Hj; apply H; by right). done.
Qed.

Lemma seqZ_split n j : 0 ≤ j < n → seqZ 0 n = seqZ 0 j ++ j :: seqZ (j + 1) (n - 1 - j).
Proof.
  intros Hj. replace n with (j + (n - j)) at 1 by lia. rewrite seqZ_app, Z.add_0_l by lia. f_equal.
  rewrite (seqZ_cons j (n - j)) by lia. f_equal. f_equal; lia.
Qed.

Lemma pending_cons q i l (L : list Z) :
  NoDup L → Forall (λ j, 0 ≤ j) L → filter (λ j, Z.testbit q j = true) L = i :: l →
  filter (λ j, Z.testbit (Z.land q (Z.lnot (Z.shiftl 1 i))) j = true) L = l ∧
  Z.testbit q i = true ∧ i ∈ L.
Proof.
  intros Hnd Hpos. induction L as [|x L IH]; [done|]. apply NoDup_cons in Hnd as [Hx Hnd].
  apply Forall_cons in Hpos as [Hx0 Hpos]. destruct (Z.testbit q x) eqn:Hq.
  - rewrite filter_cons_True by done. intros [= <- <-]. split; [|split; [done|by left]].
    rewrite filter_cons_False by (rewrite testbit_clear_bit, Z.eqb_refl by done; done).
    apply filter_agree. intros j Hj. rewrite Forall_forall in Hpos. specialize (Hpos j Hj).
    rewrite testbit_clear_bit by done. destruct (Z.eqb_spec x j) as [->|]; [done|]. cbn. by rewrite ?andb_true_r.
  - rewrite filter_cons_False by congruence. intros Hf. destruct (IH Hnd Hpos Hf) as (IH1 & IH2 & IH3).
    split; [|split; [done|by right]]. assert (Hi0 : 0 ≤ i) by (rewrite Forall_forall in Hpos; by apply Hpos).
    rewrite filter_cons_False; [done|]. by rewrite testbit_clear_bit, Hq, andb_false_r by done.
Qed.

Lemma pending_nil q : 0 ≤ q < 2 ^ 31 → pending q = [] → q = 0.
Proof.
  intros Hq Hp. apply Z.bits_inj_0. intros j. destruct (Z.lt_ge_cases j 0); [by apply Z.testbit_neg_r|].
  destruct (Z.lt_ge_cases j 31) as [Hlt|]; [|by apply (testbit_high q 31)]. destruct (Z.testbit q j) eqn:Hb; [|done].
  assert (Hin : j ∈ pending q). { apply list_elem_of_filter. split; [done|]. apply elem_of_seqZ. lia. }
  rewrite Hp in Hin. by apply not_elem_of_nil in Hin.
Qed.

(** C21: Acting on the pending signals is going through them in the order of their numbers,
    each once, until one ends the process, enters its handler, or stops the walk. *)
Theorem signals_in_order p ctx stack :
  0 ≤ sp_queue p < 2 ^ 31 →
  k_proc_process_process_signals p ctx stack = act_on (pending (sp_queue p)) p ctx stack.
Proof.
  intros Hq. remember (pending (sp_queue p)) as l eqn:Hl. symmetry in Hl. revert p Hq Hl.
  induction l as [|i l IH]; intros p Hq Hl; cbn [act_on].
  - apply pending_nil in Hl; [|done]. unfold k_proc_process_process_signals. by rewrite Hl.
  - assert (Hnn : Forall (λ j, 0 ≤ j) (seqZ 0 31)) by (apply Forall_forall; intros j Hj%elem_of_seqZ; lia).
    destruct (pending_cons _ _ _ _ (NoDup_seqZ 0 31) Hnn Hl) as (Hrest & Hbit & Hin%elem_of_seqZ).
    rewrite (process_step p ctx stack i); [|done|lia|done|].
    2: { intros j Hj. destruct (Z.testbit (sp_queue p) j) eqn:Hb; [|done]. exfalso.
         assert (Hs : seqZ 0 31 = seqZ 0 j ++ j :: seqZ (j + 1) (30 - j)) by (apply seqZ_split; lia).
         unfold pending in Hl. rewrite Hs, filter_app, filter_cons_True in Hl by done.
         destruct (filter _ (seqZ 0 j)) as [|y r] eqn:Hf; injection Hl as Hy _; [lia|].
         assert (Hyin : y ∈ filter (λ i, Z.testbit (sp_queue p) i = true) (seqZ 0 j)) by (rewrite Hf; by left).
         apply list_elem_of_filter in Hyin as [_ Hyin%elem_of_seqZ]. lia. }
    destruct (handle_signal _ i ctx stack) as [[r p''|code p''|en es st p'']| | |] eqn:He; try done. rewrite !bind_ok.
    destruct (handle_returns _ _ _ _ _ _ He) as [-> | ->]; [|done]. change (truthy 0) with false. cbv iota.
    destruct (handle_goes_on _ _ _ _ _ He) as [-> _]. apply IH; [|done]. cbn. apply cleared_range; [done|lia].
Qed.

Definition demo_sp (q : Z) : sig_proc := mk_sp 1 q 0 (replicate 64 (0, 0)) 0 0.
Definition demo_ctx : icontext := mk_ctx 1 2 3 4 5 6 7 8 9 10 0x400000 27 0x202 0x1000 35.

(** SIGINT and SIGCHLD *)
Lemma signals_in_order_witness :
  k_proc_process_process_signals (demo_sp (2 ^ 2 + 2 ^ 17)) demo_ctx ∅ = Ok (SigExit 2082 (demo_sp (2 ^ 17))).
Proof. rewrite (signals_in_order (demo_sp (2 ^ 2 + 2 ^ 17)) demo_ctx ∅); [reflexivity|cbn; lia]. Defined.

(** ** Handler frames *)

Section frames.
Implicit Types (m : gmap Z Z) (a : Z) (l : list Z).

Definition words_mapped m a (n : nat) : Prop := ∀ k : nat, (k < n)%nat → is_Some (m !! (a + 4 * Z.of_nat k)).
Definition words_at m a l : Prop := ∀ (k : nat) w, l !! k = Some w → m !! (a + 4 * Z.of_nat k) = Some w.

Lemma store_words_ok m a l :
  words_mapped m a (length l) →
  ∃ m', store_words m a l = Ok m' ∧ words_at m' a l ∧
    (∀ b, b < a ∨ a + 4 * Z.of_nat (length l) ≤ b → m' !! b = m !! b) ∧ (∀ b, is_Some (m !! b) → is_Some (m' !! b)).
Proof.
  revert m a. induction l as [|w l IH]; intros m a Hm; cbn [store_words].
  { exists m. split; [done|]. split; [intros k w; by rewrite lookup_nil|]. done. }
  destruct (Hm 0%nat ltac:(cbn; lia)) as [w0 Hw0]. rewrite Z.mul_0_r, Z.add_0_r in Hw0. rewrite Hw0.
  destruct (IH (<[a := w]> m) (a + 4)) as (m' & He & Hl & Ho & Hd).
  { intros k Hk. rewrite lookup_insert_ne by lia. replace (a + 4 + 4 * Z.of_nat k) with (a + 4 * Z.of_nat (S k)) by lia.
    apply Hm. cbn. lia. }
  exists m'. split; [done|]. split; [|split].
  - intros [|k] w' Hk; cbn in Hk.
    + injection Hk as <-. rewrite Z.mul_0_r, Z.add_0_r, Ho by lia. apply lookup_insert_eq.
    + apply Hl in Hk. by replace (a + 4 * Z.of_nat (S k)) with (a + 4 + 4 * Z.of_nat k) by lia.
  - intros b Hb. cbn [length] in Hb. rewrite Ho by lia. by rewrite lookup_insert_ne by lia.
  - intros b Hb. apply Hd. destruct (decide (a = b)) as [<-|]; [rewrite lookup_insert_eq; eauto|by rewrite lookup_insert_ne].
Qed.

Lemma load_words_ok m a l : words_at m a l → load_words m a (length l) = Ok l.
Proof.
  revert a. induction l as [|w l IH]; intros a Hl; [done|]. cbn [length load_words].
  assert (H0 := Hl 0%nat w eq_refl). rewrite Z.mul_0_r, Z.add_0_r in H0. rewrite H0. cbn [of_option]. rewrite bind_ok, IH; [done|].
  intros k x Hk. replace (a + 4 + 4 * Z.of_nat k) with (a + 4 * Z.of_nat (S k)) by lia. by apply Hl.
Qed.

Lemma words_at_other m m' a l :
  words_at m a l → (∀ b, a ≤ b → m' !! b = m !! b) → words_at m' a l.
Proof. intros Hl Hm k w Hk. rewrite Hm by lia. by apply Hl. Qed.

Lemma words_mapped_sub m m' a n a' (j n' : nat) :
  words_mapped m a n → (∀ b, is_Some (m !! b) → is_Some (m' !! b)) → a' = a + 4 * Z.of_nat j → (j + n' ≤ n)%nat →
  words_mapped m' a' n'.
Proof.
  intros Hm Hd -> Hj k Hk. apply Hd. replace (a + 4 * Z.of_nat j + 4 * Z.of_nat k) with (a + 4 * Z.of_nat (j + k)) by lia.
  apply Hm. lia.
Qed.

Lemma push_ok m sp l :
  4 * Z.of_nat (length l) ≤ sp < 2 ^ 32 → words_mapped m (sp - 4 * Z.of_nat (length l)) (length l) →
  ∃ m', push m sp l = Ok (sp - 4 * Z.of_nat (length l), m') ∧ words_at m' (sp - 4 * Z.of_nat (length l)) l ∧
    (∀ b, b < sp - 4 * Z.of_nat (length l) ∨ sp ≤ b → m' !! b = m !! b) ∧ (∀ b, is_Some (m !! b) → is_Some (m' !! b)).
Proof.
  intros Hsp Hm. destruct (store_words_ok m _ l Hm) as (m' & He & Hl & Ho & Hd). exists m'. unfold push.
  rewrite u32_small, He, bind_ok by lia. split; [done|]. split; [done|]. split; [|done]. intros b Hb. apply Ho. lia.
Qed.

Lemma pop_ok m sp l :
  0 ≤ sp → sp + 4 * Z.of_nat (length l) < 2 ^ 32 → words_at m sp l →
  pop m sp (length l) = Ok (l, sp + 4 * Z.of_nat (length l)).
Proof. intros H0 Hlt Hl. unfold pop. by rewrite load_words_ok, bind_ok, u32_small by (done || lia). Qed.

Lemma ctx_of_words c : ctx_of (ctx_words c) = Some c.
Proof. by destruct c. Qed.
End frames.

(** C25: A handler is entered with the interrupted context saved on the user stack, and
    returning from it restores part of it: when the handler's return leaves the stack
    pointer where the frame is, no further signal is pending and no system call was
    interrupted, the process goes on at the interrupted instruction, with its stack and all
    its general registers as they were.  The flags are not restored, although they are saved:
    [c_eflags] stays what the handler has left (and so do the segments, which never differ). *)
Theorem signal_frame_roundtrip dispatcher p sig handler flags ctx stack p2 ctx2 :
  0 ≤ sig < MAX_SIGNAL → is_signal_ignored p sig = false → sp_handlers p !! Z.to_nat sig = Some (handler, flags) → handler ≠ 0 →
  68 ≤ c_esp ctx → c_esp ctx < 2 ^ 32 → words_mapped stack (c_esp ctx - 68) 17 →
  sp_queue p2 = 0 → sp_interrupted p2 = 0 →
  ∃ esp m, handle_signal p sig ctx stack = Ok (SigEnter handler esp m p) ∧
  (∀ b, c_esp ctx ≤ b → m !! b = stack !! b) ∧
  (c_esp ctx2 = esp + 4 →
   ∃ ctx', k_proc_process_return_from_signal dispatcher p2 ctx2 m = Ok (inl (p2, ctx')) ∧
   c_eip ctx' = c_eip ctx ∧ c_esp ctx' = c_esp ctx ∧ c_ebp ctx' = c_ebp ctx ∧ c_eax ctx' = c_eax ctx ∧
   c_ebx ctx' = c_ebx ctx ∧ c_ecx ctx' = c_ecx ctx ∧ c_edx ctx' = c_edx ctx ∧ c_edi ctx' = c_edi ctx ∧ c_esi ctx' = c_esi ctx ∧
   c_eflags ctx' = c_eflags ctx2 ∧ c_cs ctx' = c_cs ctx2 ∧ c_ss ctx' = c_ss ctx2).
Proof.
  intros Hsig Hign Hh Hne Hlo Hhi Hmap Hq Hint. set (sp := c_esp ctx) in *. unfold handle_signal.
  rewrite (proj2 (Z.ltb_ge sig 0)), (proj2 (Z.leb_gt _ _)) by lia. cbn [orb]. rewrite Hign, Hh. cbn [of_option]. rewrite bind_ok.
  rewrite (proj2 (Z.eqb_neq handler 0)) by done. fold sp.
  destruct (push_ok stack sp (ctx_words ctx)) as (m1 & E1 & W1 & O1 & D1); [cbn; lia|apply (words_mapped_sub stack stack (sp - 68) 17 _ 2); [done|done|cbn; lia|cbn; lia]|].
  rewrite E1, bind_ok. change (4 * Z.of_nat (length (ctx_words ctx))) with 60 in *.
  destruct (push_ok m1 (sp - 60) [sig]) as (m2 & E2 & W2 & O2 & D2); [cbn; lia|apply (words_mapped_sub stack m1 (sp - 68) 17 _ 1); [done|done|cbn; lia|cbn; lia]|].
  rewrite E2, bind_ok. cbn [length] in *. change (4 * Z.of_nat 1) with 4 in *.
  destruct (push_ok m2 (sp - 60 - 4) [0xDEADBEEF]) as (m3 & E3 & W3 & O3 & D3); [cbn; lia|apply (words_mapped_sub stack m2 (sp - 68) 17 _ 0); [done|by intros b Hb; apply D2, D1|cbn; lia|cbn; lia]|].
  rewrite E3, bind_ok. cbn [length] in *. change (4 * Z.of_nat 1) with 4 in *.
  eexists _, m3. split; [done|]. split.
  { intros b Hb. by rewrite O3, O2, O1 by lia. }
  intros Hesp. replace (sp - 60 - 4 - 4 + 4) with (sp - 64) in Hesp by lia. unfold k_proc_process_return_from_signal. rewrite Hesp.
  replace (sp - 60 - 4) with (sp - 64) in * by lia.
  assert (P1 : pop m3 (sp - 64) 1 = Ok ([sig], sp - 60)).
  { replace (sp - 60) with (sp - 64 + 4 * Z.of_nat (length [sig])) by (cbn; lia).
    apply (pop_ok m3 (sp - 64) [sig]); [lia|cbn; lia|].
    apply (words_at_other m2); [done|]. intros b Hb. by rewrite O3 by lia. }
  assert (P2 : ∃ e, pop m3 (sp - 60) 15 = Ok (ctx_words ctx, e)).
  { eexists. apply (pop_ok m3 (sp - 60) (ctx_words ctx)); [lia|cbn; lia|].
    apply (words_at_other m1); [done|]. intros b Hb. by rewrite O3, O2 by lia. }
  destruct P2 as [e2 P2]. rewrite P1, bind_ok. cbn [head of_option]. rewrite bind_ok, P2, bind_ok, ctx_of_words. cbn [of_option]. rewrite bind_ok, Hq. change (truthy 0) with false. cbv iota. rewrite bind_ok.
  unfold try_restart_syscalls. rewrite Hint. cbn [andb]. change (truthy 0) with false. cbn [andb].
  eexists. split; [by case_if|]. done.
Qed.

Definition demo_stack : gmap Z Z := list_to_map ((λ k, (0x1000 - 4 * Z.of_nat k, 0)) <$> seq 1 20).
Definition demo_handling : sig_proc := mk_sp 1 0 0 (<[10%nat := (0x500000, 0)]> (replicate 64 (0, 0))) 0 0.

(** SIGUSR1, with a handler *)
Lemma signal_frame_roundtrip_witness :
  ∃ esp m, handle_signal demo_handling 10 demo_ctx demo_stack = Ok (SigEnter 0x500000 esp m demo_handling).
Proof.
  destruct (signal_frame_roundtrip (λ c, c) demo_handling 10 0x500000 0 demo_ctx demo_stack demo_handling demo_ctx)
    as (esp & m & H & _).
  - unfold MAX_SIGNAL. lia.
  - reflexivity.
  - reflexivity.
  - done.
  - cbn. lia.
  - cbn. lia.
  - intros k Hk. do 17 (destruct k as [|k]; [by eexists|]). lia.
  - reflexivity.
  - reflexivity.
  - exists esp, m. exact H.
Defined.

(** ** Default actions and ignored signals *)

(** The signal that is the only one pending is the one that is handled. *)
Lemma process_single p ctx stack i :
  0 ≤ i < 31 → sp_queue p = Z.shiftl 1 i →
  k_proc_process_process_signals p ctx stack =
  (e ← handle_signal (with_queue p 0) i ctx stack;
   match e with
   | SigReturn r p'' => if truthy r then Ok (SigReturn 0 p'') else k_proc_process_process_signals p'' ctx stack
   | _ => Ok e
   end).
Proof.
  intros Hi Hq. assert (Hp : 0 < 2 ^ i < 2 ^ 31) by (split; [apply Z.pow_pos_nonneg; lia|apply Z.pow_lt_mono_r; lia]).
  rewrite Z.shiftl_1_l in Hq. rewrite (process_step p ctx stack i); [|lia|done| |].
  - rewrite Hq, Z.shiftl_1_l, Z.land_lnot_diag. done.
  - rewrite Hq. apply Z.pow2_bits_true. lia.
  - intros j Hj. rewrite Hq. apply Z.pow2_bits_false. lia.
Qed.

(** The table of default actions does not do what its constants are named for: a
    pending SIGSTOP has no effect, since its entry is the number of the signal and not
    [SIG_STOP], and a pending signal from 20 on is looked up behind the table. *)
Theorem default_table_gaps p ctx stack i :
  sp_handlers p !! Z.to_nat i = Some (0, 0) → is_signal_ignored p i = false → sp_queue p = Z.shiftl 1 i →
  (i = SIGSTOP → k_proc_process_process_signals p ctx stack = Ok (SigReturn 0 (with_queue p 0))) ∧
  (20 ≤ i < 31 → k_proc_process_process_signals p ctx stack = Fault).
Proof.
  intros Hh Hign Hq. split; intros Hi.
  - subst i. unfold SIGSTOP in *. rewrite (process_single p ctx stack 19) by (lia || done). unfold handle_signal.
    change (is_signal_ignored (with_queue p 0) 19) with (is_signal_ignored p 19). rewrite Hign.
    change (sp_handlers (with_queue p 0)) with (sp_handlers p). by rewrite Hh.
  - rewrite (process_single p ctx stack i) by (lia || done). unfold handle_signal.
    change (is_signal_ignored (with_queue p 0) i) with (is_signal_ignored p i). rewrite Hign.
    change (sp_handlers (with_queue p 0)) with (sp_handlers p). rewrite Hh.
    rewrite (proj2 (Z.ltb_ge i 0)), (proj2 (Z.leb_gt _ _)) by (unfold MAX_SIGNAL; lia). cbn [orb of_option].
    rewrite bind_ok. change (0 =? 0) with true. cbv iota. rewrite lookup_ge_None_2; [done|]. cbn. lia.
Qed.

(** SIGTSTP *)
Lemma default_table_gaps_witness :
  k_proc_process_process_signals (demo_sp (2 ^ 20)) demo_ctx ∅ = Fault.
Proof. by apply (default_table_gaps (demo_sp (2 ^ 20)) demo_ctx ∅ 20). Defined.

(** Any signal can be ignored, the one that kills included: after [sys_sigact] with
    [SIG_IGN] the signal is taken from the pending set and nothing else happens, and
    [sys_sigact] with [SIG_DFL] gives the process back as it was. *)
Theorem ignored_signal_dropped p sig fl fl' prev ctx stack st p1 :
  0 ≤ sig < 31 → 0 ≤ sp_ignored p < 2 ^ 31 → is_signal_ignored p sig = false → sp_handlers p !! Z.to_nat sig = Some (0, fl) →
  sys_sigact p sig (Some (SIG_IGN, fl')) prev = Ok (0, st, p1) →
  k_proc_process_process_signals (with_queue p1 (Z.shiftl 1 sig)) ctx stack = Ok (SigReturn 0 (with_queue p1 0)) ∧
  sys_sigact p1 sig (Some (SIG_DFL, fl')) false = Ok (0, None, p).
Proof.
  intros Hs Hr Hi Hh Hact. unfold sys_sigact in *.
  rewrite (proj2 (Z.ltb_ge sig 0)), (proj2 (Z.leb_gt _ _)) in * by (unfold MAX_SIGNAL; lia). cbn [orb] in *.
  rewrite Hh in Hact. cbn [of_option] in Hact. rewrite bind_ok in Hact. injection Hact as _ <-.
  assert (Hbit : Z.testbit (sp_ignored p) sig = false) by (by rewrite <- pending_bit).
  assert (Hset : is_signal_ignored (set_ignored p (Z.lor (sp_ignored p) (signal_bit sig))) sig = true).
  { unfold is_signal_ignored. rewrite pending_bit by done. cbn [set_ignored sp_ignored].
    rewrite Z.lor_spec, signal_bit_low, Z.shiftl_1_l, Z.pow2_bits_true by lia. apply orb_true_r. }
  split.
  - rewrite (process_single _ ctx stack sig) by (done || reflexivity). unfold handle_signal.
    rewrite (proj2 (Z.ltb_ge sig 0)), (proj2 (Z.leb_gt _ _)) by (unfold MAX_SIGNAL; lia). cbn [orb].
    match goal with |- context [is_signal_ignored ?q sig] =>
      change (is_signal_ignored q sig) with (is_signal_ignored (set_ignored p (Z.lor (sp_ignored p) (signal_bit sig))) sig) end.
    by rewrite Hset.
  - change (sp_handlers (set_ignored p (Z.lor (sp_ignored p) (signal_bit sig)))) with (sp_handlers p). rewrite Hh. cbn [of_option]. rewrite bind_ok. change (SIG_DFL =? SIG_DFL) with true. cbv iota.
    f_equal. f_equal. unfold set_handler. cbn [set_ignored sp_state sp_queue sp_ignored sp_handlers sp_interrupted sp_parent_wakeups].
    rewrite list_insert_id by done. destruct p as [sta q ign hs int w]. unfold set_ignored, set_handler. cbn in *. by rewrite clear_after_set.
Qed.

Lemma ignored_signal_dropped_witness :
  ∃ p1, k_proc_process_process_signals (with_queue p1 (2 ^ SIGKILL)) demo_ctx ∅ = Ok (SigReturn 0 (with_queue p1 0)).
Proof.
  eexists. refine (proj1 (ignored_signal_dropped (demo_sp 0) SIGKILL 0 0 false demo_ctx ∅ _ _ _ _ _ _ _)); try reflexivity.
  all: unfold SIGKILL; cbn; lia.
Defined.
