(* ===== verification/BlockDev.v ===== *)
(** * Block devices, and modules/dospart/main.c: partitions of a drive

    What a file system may expect of the node it is mounted from: the device stands for a
    sequence of bytes, and reading whole sectors gives those bytes up to the end of the
    device.  The RAM disk of ramdisk.c keeps this promise, and so does a partition, which
    passes requests on to its drive. *)

From S2P Require Import Prelude.
From S2P Require Import Path.
From S2P Require Import Tar.

(** ** Parts of byte sequences *)

(** [n] bytes at [off]; leaving the object is a [Fault]. *)
Definition slice (l : list Z) (off n : Z) : res (list Z) :=
  if (off <? 0) || (n <? 0) || (Z.of_nat (length l) <? off + n) then Fault
  else Ok (take (Z.to_nat n) (drop (Z.to_nat off) l)).

(** The object after bytes are stored at [off] *)
Definition splice (l : list Z) (off : Z) (data : list Z) : res (list Z) :=
  if (off <? 0) || (Z.of_nat (length l) <? off + Z.of_nat (length data)) then Fault
  else Ok (take (Z.to_nat off) l ++ data ++ drop (Z.to_nat off + length data) l).

(** An unsigned number of the bytes given, the least significant first *)
Fixpoint le (l : list Z) : Z :=
  match l with
  | [] => 0
  | b :: l' => b + 256 * le l'
  end.

Fixpoint le_bytes (n : nat) (x : Z) : list Z :=
  match n with
  | O => []
  | S n' => x mod 256 :: le_bytes n' (x / 256)
  end.

(** Reading and writing a field of [n] bytes of a structure *)
Definition field (l : list Z) (off n : Z) : res Z := b ← slice l off n; Ok (le b).
Definition u32_field (l : list Z) (off : Z) : res Z := field l off 4.
Definition set_u32_field (l : list Z) (off x : Z) : res (list Z) := splice l off (le_bytes 4 x).

Section slices.
Implicit Types (l : list Z) (off n x : Z).

Lemma slice_ok l off n :
  0 ≤ off → 0 ≤ n → off + n ≤ Z.of_nat (length l) → slice l off n = Ok (take (Z.to_nat n) (drop (Z.to_nat off) l)).
Proof. intros H1 H2 H3. unfold slice. case_if; [|done]. lia. Qed.

Lemma slice_length l off n b : slice l off n = Ok b → Z.of_nat (length b) = n.
Proof. unfold slice. case_if; [done|]. intros [= <-]. rewrite length_take, length_drop. lia. Qed.

Lemma splice_eq l off d :
  0 ≤ off → off + Z.of_nat (length d) ≤ Z.of_nat (length l) →
  splice l off d = Ok (take (Z.to_nat off) l ++ d ++ drop (Z.to_nat off + length d) l).
Proof. intros H1 H2. unfold splice. case_if; [|done]. lia. Qed.

Lemma splice_length l off d l' : splice l off d = Ok l' → length l' = length l.
Proof.
  unfold splice. case_if; [done|]. intros [= <-]. rewrite !length_app, length_take, length_drop. lia.
Qed.

Lemma slice_splice l off d l' : splice l off d = Ok l' → slice l' off (Z.of_nat (length d)) = Ok d.
Proof.
  intros H. pose proof (splice_length _ _ _ _ H) as Hl. revert H. unfold splice. case_if; [done|]. intros [= <-].
  rewrite slice_ok by lia. f_equal. rewrite drop_app_length' by (rewrite length_take; lia).
  apply take_app_length'. lia.
Qed.

(** A slice in front of or behind the bytes stored is what it was. *)
Lemma slice_splice_other l off d l' off' n :
  splice l off d = Ok l' → off' + n ≤ off ∨ off + Z.of_nat (length d) ≤ off' → slice l' off' n = slice l off' n.
Proof.
  intros H Hd. pose proof (splice_length _ _ _ _ H) as Hl. unfold slice. rewrite Hl. case_if; [done|].
  revert H. unfold splice. case_if; [done|]. intros [= <-]. f_equal.
  apply list_eq. intros i. rewrite !lookup_take. case_decide; [|done]. rewrite !lookup_drop.
  destruct Hd.
  - rewrite lookup_app_l by (rewrite length_take; lia). apply lookup_take_lt. lia.
  - rewrite lookup_app_r by (rewrite length_take; lia). rewrite lookup_app_r by (rewrite length_take; lia).
    rewrite lookup_drop, length_take. f_equal. lia.
Qed.

Lemma le_bytes_length k x : length (le_bytes k x) = k.
Proof. revert x. induction k as [|k IH]; intros x; cbn; [done|]. by rewrite IH. Qed.

Lemma le_le_bytes k x : 0 ≤ x < 256 ^ Z.of_nat k → le (le_bytes k x) = x.
Proof.
  revert x. induction k as [|k IH]; intros x Hx; cbn [le le_bytes]; [rewrite Z.pow_0_r in Hx; lia|].
  rewrite Nat2Z.inj_succ, Z.pow_succ_r in Hx by lia. rewrite IH.
  - pose proof (Z.div_mod x 256). lia.
  - split; [apply Z.div_pos; lia|apply Z.div_lt_upper_bound; lia].
Qed.

Lemma le_range l : Forall (λ b, 0 ≤ b < 256) l → 0 ≤ le l < 256 ^ Z.of_nat (length l).
Proof.
  induction 1 as [|b l Hb _ IH]; cbn [le length]; [done|]. rewrite Nat2Z.inj_succ, Z.pow_succ_r by lia. lia.
Qed.

Lemma u32_field_splice l off x l' :
  0 ≤ x < 2 ^ 32 → set_u32_field l off x = Ok l' → u32_field l' off = Ok x.
Proof.
  intros Hx H. unfold u32_field, field. apply slice_splice in H. rewrite le_bytes_length in H.
  change (Z.of_nat 4) with 4 in H. by rewrite H, bind_ok, le_le_bytes.
Qed.
End slices.

(** ** The interface *)

Class BlockDev (D : Type) := {
  dev_bytes : D → list Z;
  dev_read : D → Z → Z → res (Z * list Z) (* the answer and the bytes stored in the buffer *)
}.
Class BlockWriter (D : Type) := dev_write : D → Z → list Z → res (Z * D).

Definition dev_len `{BlockDev D} (d : D) : Z := Z.of_nat (length (dev_bytes d)).

(** Reading sectors *)
Class BlockReads (D : Type) `{BlockDev D} : Prop := dev_read_ok : ∀ (d : D) (off size : Z),
  (512 | off) → (512 | size) → 0 ≤ off ≤ dev_len d → 0 < size → off + size < 2 ^ 32 →
  let n := Z.min size (dev_len d - off) in
  dev_read d off size = Ok (n, take (Z.to_nat n) (drop (Z.to_nat off) (dev_bytes d))).

(** Writing sectors, up to 64 at once: what a hard disk behind [ata_write] keeps.  (Writes
    of other sizes it spoils, and the RAM disk refuses to be written.) *)
Class BlockWrites (D : Type) `{BlockDev D, BlockWriter D} : Prop := dev_write_ok : ∀ (d : D) (off : Z) (data : list Z) (l' : list Z),
  (512 | off) → (512 | Z.of_nat (length data)) → 0 < Z.of_nat (length data) ≤ 0x8000 →
  splice (dev_bytes d) off data = Ok l' →
  ∃ d', dev_write d off data = Ok (Z.of_nat (length data), d') ∧ dev_bytes d' = l'.

(** ** The RAM disk, which cannot be written *)

Record ramdisk := mk_ramdisk { rd_bytes : list Z }.

#[export] Instance ramdisk_dev : BlockDev ramdisk := {
  dev_bytes := rd_bytes;
  dev_read d off size := ramdisk_read (rd_bytes d) off size
}.
#[export] Instance ramdisk_writer : BlockWriter ramdisk := λ d off data, Ok (u32 (- EPERM), d).

#[export] Instance ramdisk_reads : BlockReads ramdisk.
Proof.
  intros d off size _ _ Hoff Hsize Hlt n. cbn [dev_read ramdisk_dev]. unfold dev_len in *. cbn [dev_bytes ramdisk_dev] in *.
  unfold ramdisk_read. rewrite (proj2 (Z.ltb_ge _ off)), u32_small by lia. subst n.
  destruct (Z.ltb_spec (Z.of_nat (length (rd_bytes d))) (off + size)).
  - rewrite (proj2 (Z.ltb_ge _ _)), Z.min_r by lia. done.
  - rewrite (proj2 (Z.ltb_ge _ _)), Z.min_l by lia. done.
Qed.

(** ** Partitions *)

Section dospart.
Context {D : Type}.

(** A partition: the drive, the first sector and the number of sectors *)
Record partition := mk_partition { pt_drive : D; pt_lba_start : Z; pt_size : Z }.

(** Where a request ends: [None] when it is answered with 0 at once *)
Definition dospart_clip (p : partition) (offset size : Z) : option Z :=
  let patr_offset := u32 (pt_lba_start p * 512) in
  let patr_size := u32 (pt_size p * 512) in
  if u32 (patr_offset + patr_size) <=? offset then None
  else if u32 (patr_offset + patr_size) <=? u32 (offset + size) then
    let size' := u32 (patr_offset + patr_size - offset) in
    if size' =? 0 then None else Some size'
  else Some size.

Definition dospart_read `{BlockDev D} (p : partition) (offset size : Z) : res (Z * list Z) :=
  match dospart_clip p offset size with
  | None => Ok (0, [])
  | Some size' => dev_read (pt_drive p) (u32 (u32 (pt_lba_start p * 512) + offset)) size'
  end.

Definition dospart_write `{BlockWriter D} (p : partition) (offset : Z) (data : list Z) : res (Z * partition) :=
  match dospart_clip p offset (Z.of_nat (length data)) with
  | None => Ok (0, p)
  | Some size' =>
      '(r, d') ← dev_write (pt_drive p) (u32 (u32 (pt_lba_start p * 512) + offset)) (take (Z.to_nat size') data);
      Ok (r, mk_partition d' (pt_lba_start p) (pt_size p))
  end.
End dospart.
Arguments partition D : clear implicits.

Section partitions.
Context {D : Type} `{BlockDev D}.
Implicit Types (p : partition D) (off size : Z).

(** The table entry describes sectors of the drive, with room for the 32-bit sums. *)
Definition partition_ok p : Prop :=
  0 ≤ pt_lba_start p ∧ 0 < pt_size p ∧ (2 * pt_lba_start p + pt_size p) * 512 < 2 ^ 32 ∧
  (pt_lba_start p + pt_size p) * 512 ≤ dev_len (pt_drive p).

Definition part_first p : Z := pt_lba_start p * 512.
Definition part_len p : Z := pt_size p * 512.

(** Requests are cut at the distance of the partition's end from the start of the drive. *)
Lemma clip_eq p off size :
  partition_ok p → 0 ≤ off → 0 < size → off + size < 2 ^ 32 →
  dospart_clip p off size =
  if part_first p + part_len p <=? off then None else Some (Z.min size (part_first p + part_len p - off)).
Proof.
  intros (H1 & H2 & H3 & H4) Hoff Hsize Hsum. unfold dospart_clip, part_first, part_len in *.
  rewrite !(u32_small (_ * 512)), !(u32_small (_ + _)) by lia. case_if; [done|].
  destruct (Z.leb_spec (pt_lba_start p * 512 + pt_size p * 512) (off + size)).
  - rewrite u32_small by lia. rewrite (proj2 (Z.eqb_neq _ _)), Z.min_r by lia. done.
  - by rewrite Z.min_l by lia.
Qed.

Lemma part_read_eq `{!BlockReads D} p off size :
  partition_ok p → (512 | off) → (512 | size) → 0 ≤ off → part_first p + off ≤ dev_len (pt_drive p) →
  0 < size → off + size < 2 ^ 32 → off < part_first p + part_len p →
  let n := Z.min (Z.min size (part_first p + part_len p - off)) (dev_len (pt_drive p) - (part_first p + off)) in
  dospart_read p off size = Ok (n, take (Z.to_nat n) (drop (Z.to_nat (part_first p + off)) (dev_bytes (pt_drive p)))).
Proof.
  intros Hok Ha1 Ha2 Hoff Hlen Hsize Hsum Hin n. unfold dospart_read. rewrite clip_eq by done.
  rewrite (proj2 (Z.leb_gt _ _)) by done. destruct Hok as (H1 & H2 & H3 & H4). unfold part_first, part_len in *.
  rewrite (u32_small (_ * 512)), u32_small by lia. subst n. rewrite dev_read_ok; [done| | |lia|lia|lia].
  - apply Z.divide_add_r; [apply Z.divide_factor_r|done].
  - apply Z.min_case; [done|]. apply Z.divide_sub_r; [|done]. rewrite <- Z.mul_add_distr_r. apply Z.divide_factor_r.
Qed.
End partitions.

(** A partition with a valid table entry is a device again. *)
Definition valid_partition (D : Type) `{BlockDev D} : Type := { p : partition D | partition_ok p }.

Definition part_bytes {D} `{BlockDev D} (p : partition D) : list Z :=
  take (Z.to_nat (part_first p + part_len p)) (drop (Z.to_nat (part_first p)) (dev_bytes (pt_drive p))).

#[export] Instance partition_dev D `{BlockDev D} : BlockDev (valid_partition D) := {
  dev_bytes p := part_bytes (`p);
  dev_read p := dospart_read (`p)
}.

Lemma part_bytes_length {D} `{BlockDev D} (p : partition D) :
  partition_ok p → Z.of_nat (length (part_bytes p)) = Z.min (part_first p + part_len p) (dev_len (pt_drive p) - part_first p).
Proof.
  intros (H1 & H2 & H3 & H4). unfold part_bytes, part_first, part_len, dev_len in *. rewrite length_take, length_drop. lia.
Qed.

#[export] Instance partition_reads D `{BlockDev D} `{!BlockReads D} : BlockReads (valid_partition D).
Proof.
  intros [p Hok] off size Ha1 Ha2. unfold dev_len. cbn [dev_bytes dev_read partition_dev proj1_sig].
  rewrite part_bytes_length by done. intros Hoff Hsize Hsum. destruct (Hok) as (H1 & H2 & H3 & H4).
  assert (Hb : ∀ n, 0 ≤ n → off + n ≤ part_first p + part_len p →
    take (Z.to_nat n) (drop (Z.to_nat off) (part_bytes p)) = take (Z.to_nat n) (drop (Z.to_nat (part_first p + off)) (dev_bytes (pt_drive p)))).
  { intros n Hn Hle. unfold part_bytes, part_first, part_len in *.
    apply list_eq. intros i. rewrite !lookup_take. case_decide; [|done]. rewrite !lookup_drop, lookup_take_lt by lia.
    rewrite lookup_drop. f_equal. lia. }
  destruct (Z.lt_ge_cases off (part_first p + part_len p)) as [Hin|Hout].
  - rewrite part_read_eq by (done || lia). rewrite Hb by lia.
    replace (Z.min (Z.min size _) _) with (Z.min size (Z.min (part_first p + part_len p) (dev_len (pt_drive p) - part_first p) - off)) by lia. done.
  - unfold dospart_read. rewrite clip_eq by (done || lia). rewrite (proj2 (Z.leb_le _ _)) by done.
    replace (Z.min size _) with 0 by lia. done.
Qed.

(** ** What a partition passes on *)

Section exact.
Context {D : Type} `{BlockDev D, BlockWriter D} `{!BlockReads D} `{!BlockWrites D}.
Implicit Types (p : partition D) (off size : Z) (data : list Z).

Lemma splice_ok l off data :
  0 ≤ off → off + Z.of_nat (length data) ≤ Z.of_nat (length l) → ∃ l', splice l off data = Ok l'.
Proof. intros H1 H2. unfold splice. case_if; [lia|]. eauto. Qed.

Lemma part_aligned a off : (512 | off) → (512 | a * 512 + off).
Proof. intros. apply Z.divide_add_r; [apply Z.divide_factor_r|done]. Qed.

(** Inside a partition, writing sectors, up to 64 at once, stores exactly the bytes given, at
    their place in the partition, and reading sectors gives exactly the bytes there. *)
Theorem partition_exact p off data off' size :
  partition_ok p → (512 | off) → (512 | Z.of_nat (length data)) → 0 ≤ off → 0 < Z.of_nat (length data) ≤ 0x8000 → off + Z.of_nat (length data) ≤ part_len p →
  (512 | off') → (512 | size) → 0 ≤ off' → 0 < size → off' + size ≤ part_len p →
  (∃ p', dospart_write p off data = Ok (Z.of_nat (length data), p') ∧
    pt_lba_start p' = pt_lba_start p ∧ pt_size p' = pt_size p ∧
    splice (dev_bytes (pt_drive p)) (part_first p + off) data = Ok (dev_bytes (pt_drive p'))) ∧
  (∃ b, slice (dev_bytes (pt_drive p)) (part_first p + off') size = Ok b ∧ dospart_read p off' size = Ok (size, b)).
Proof.
  intros Hok Hao Had Hoff Hd Hin Ha1 Ha2 Hoff' Hs Hin2. destruct (Hok) as (H1' & H2' & H3' & H4').
  unfold part_first, part_len, dev_len in *. split.
  - unfold dospart_write. rewrite clip_eq by (done || unfold part_first, part_len in *; lia). unfold part_first, part_len.
    rewrite (proj2 (Z.leb_gt _ _)), Z.min_l, (u32_small (_ * 512)), u32_small by lia. rewrite take_ge by lia.
    destruct (splice_ok (dev_bytes (pt_drive p)) (pt_lba_start p * 512 + off) data) as [l' Hl]; [lia|lia|].
    destruct (dev_write_ok (pt_drive p) _ _ _ (part_aligned _ _ Hao) Had Hd Hl) as (d' & -> & Hd'). rewrite bind_ok. eexists. split; [done|].
    cbn [pt_lba_start pt_size pt_drive]. by rewrite Hd'.
  - rewrite slice_ok by lia. eexists. split; [done|]. rewrite part_read_eq by (done || unfold part_first, part_len, dev_len in *; lia).
    unfold part_first, part_len, dev_len. replace (Z.min (Z.min size _) _) with size by lia. done.
Qed.

(** The end of a partition is compared as a distance from the start of the drive, so
    a request behind the partition is passed on as long as its offset is less than that:
    it overwrites what lies behind, the next partition for example. *)
Theorem partition_write_leaks p off data :
  partition_ok p → (512 | off) → (512 | Z.of_nat (length data)) → part_len p ≤ off → off + Z.of_nat (length data) ≤ part_first p + part_len p →
  0 < Z.of_nat (length data) ≤ 0x8000 → part_first p + off + Z.of_nat (length data) ≤ dev_len (pt_drive p) →
  ∃ p', dospart_write p off data = Ok (Z.of_nat (length data), p') ∧
    slice (dev_bytes (pt_drive p')) (part_first p + off) (Z.of_nat (length data)) = Ok data ∧
    part_first p + part_len p ≤ part_first p + off.
Proof.
  intros Hok Hao Had Hoff Hd Hpos Hlen. destruct (Hok) as (H1' & H2' & H3' & H4'). unfold part_first, part_len, dev_len in *.
  unfold dospart_write. rewrite clip_eq by (done || unfold part_first, part_len in *; lia). unfold part_first, part_len.
  rewrite (proj2 (Z.leb_gt _ _)), Z.min_l, (u32_small (_ * 512)), u32_small by lia. rewrite take_ge by lia.
  destruct (splice_ok (dev_bytes (pt_drive p)) (pt_lba_start p * 512 + off) data) as [l' Hl]; [lia|lia|].
  destruct (dev_write_ok (pt_drive p) _ _ _ (part_aligned _ _ Hao) Had Hpos Hl) as (d' & -> & Hd'). rewrite bind_ok. eexists. split; [done|].
  split; [|lia]. cbn [pt_drive]. rewrite Hd'. by apply (slice_splice (dev_bytes (pt_drive p))).
Qed.
End exact.

(** A drive kept in memory *)
Record plain_drive := mk_plain { pd_bytes : list Z }.

#[export] Instance plain_dev : BlockDev plain_drive := {
  dev_bytes := pd_bytes;
  dev_read d off size := ramdisk_read (pd_bytes d) off size
}.
#[export] Instance plain_writer : BlockWriter plain_drive :=
  λ d off data, l' ← splice (pd_bytes d) off data; Ok (Z.of_nat (length data), mk_plain l').
#[export] Instance plain_reads : BlockReads plain_drive.
Proof. intros d off size Ha1 Ha2. apply (ramdisk_reads (mk_ramdisk (pd_bytes d)) off size Ha1 Ha2). Qed.
#[export] Instance plain_writes : BlockWrites plain_drive.
Proof. intros d off data l' _ _ _ Hl. exists (mk_plain l'). unfold dev_write, plain_writer. cbn in Hl. by rewrite Hl. Qed.

(** The second sector of a drive of four as a partition *)
Definition demo_partition : partition plain_drive := mk_partition (mk_plain (replicate 2048 7)) 1 1.

Lemma demo_partition_ok : partition_ok demo_partition.
Proof. unfold partition_ok, dev_len. cbn [dev_bytes plain_dev demo_partition pt_drive pd_bytes pt_lba_start pt_size]. rewrite length_replicate. lia. Qed.

Lemma partition_exact_witness : ∃ p', dospart_write demo_partition 0 (replicate 512 1) = Ok (512, p').
Proof.
  destruct (partition_exact demo_partition 0 (replicate 512 1) 0 512) as [(p' & Hw & _) _];
    [apply demo_partition_ok|by exists 0|rewrite length_replicate; by exists 1|done|rewrite length_replicate; lia|rewrite length_replicate; done|by exists 0|by exists 1|done|done|done|].
  by exists p'.
Defined.

Lemma partition_write_leaks_witness :
  ∃ p', dospart_write demo_partition 512 (replicate 512 1) = Ok (512, p') ∧ slice (dev_bytes (pt_drive p')) 1024 512 = Ok (replicate 512 1).
Proof.
  destruct (partition_write_leaks demo_partition 512 (replicate 512 1)) as (p' & Hw & Hs & _).
  - apply demo_partition_ok.
  - by exists 1.
  - rewrite length_replicate. by exists 1.
  - done.
  - rewrite length_replicate. done.
  - rewrite length_replicate. lia.
  - unfold dev_len. cbn [dev_bytes plain_dev demo_partition pt_drive pd_bytes]. rewrite !length_replicate. unfold part_first. cbn. lia.
  - by exists p'.
Defined.
