(* ===== verification/Ext2.v ===== *)
(** * modules/ext2/main.c: the ext2 file system

    The superblock, the group descriptors and the inodes are the bytes the code copies from
    the device into its packed structures; fields are read at their offsets.  The caches are
    lists, the most recently used entry first.  Buffers have the contents [k_malloc] leaves
    in them ([fresh]); [now] is the time.  Reading outside an object is a [Fault].

    A function that may change the caches takes the file system and returns it. *)

From S2P Require Import Prelude.
From S2P Require Import Path.
From S2P Require Import Tar.
From S2P Require Import BlockDev.

Definition EXT2_DIR : Z := 0x4000.
Definition DIRECT_BLOCK_CAPACITY : Z := 12.
Definition INODES_PER_CACHE : nat := 256.
Definition BLOCKS_PER_CACHE : nat := 2048.
Definition MAX_READAHEAD : Z := 8 * 1024 * 1024.

(** [sizeof(ext2_dirent_t)], and of a group descriptor *)
Definition EXT2_DIRENT_SIZE : Z := 263.
Definition EXT2_BGD_SIZE : Z := 32.

(** Fields of the structures *)
Definition sb_total_blocks (sb : list Z) : res Z := field sb 4 4.
Definition sb_block_size (sb : list Z) : res Z := field sb 24 4.
Definition sb_blocks_per_group (sb : list Z) : res Z := field sb 32 4.
Definition sb_inodes_per_group (sb : list Z) : res Z := field sb 40 4.
Definition sb_signature (sb : list Z) : res Z := field sb 56 2.
Definition sb_inode_size (sb : list Z) : res Z := field sb 88 2.
Definition bgd_blocks_bitmap (bgds : list Z) (group : Z) : res Z := field bgds (EXT2_BGD_SIZE * group) 4.
Definition bgd_inode_table (bgds : list Z) (group : Z) : res Z := field bgds (EXT2_BGD_SIZE * group + 8) 4.
Definition bgd_free_blocks (bgds : list Z) (group : Z) : res Z := field bgds (EXT2_BGD_SIZE * group + 12) 2.
Definition i_perms (ino : list Z) : res Z := field ino 0 2.
Definition i_size_low (ino : list Z) : res Z := field ino 4 4.
Definition i_block_pointer (ino : list Z) (i : Z) : res Z := field ino (40 + 4 * i) 4.
Definition i_indirect_s (ino : list Z) : res Z := field ino 88 4.
Definition i_indirect_d (ino : list Z) : res Z := field ino 92 4.
Definition i_indirect_t (ino : list Z) : res Z := field ino 96 4.
Definition set_access_time (ino : list Z) (t : Z) : res (list Z) := splice ino 8 (le_bytes 4 t).

Record cached_inode := mk_ci { ci_number : Z; ci_inode : list Z }.
Record cached_block := mk_cb { cb_number : Z; cb_access : Z; cb_data : list Z }.

(** The first cached entry of a number, and the cache without it *)
Fixpoint find_cached {A} (num : A → Z) (l : list A) (n : Z) : option (A * list A) :=
  match l with
  | [] => None
  | c :: l' =>
      if num c =? n then Some (c, l')
      else '(c', rest) ← find_cached num l' n; Some (c', c :: rest)
  end.

Definition push_cached {A} (max : nat) (c : A) (l : list A) : list A :=
  if (max <? length (c :: l))%nat then take (length l) (c :: l) else c :: l.

Section ext2.
Context {D : Type} `{BlockDev D}.
Context (fresh : Z → list Z) (now : Z).

Record ext2 := mk_ext2 {
  e_sb : list Z;
  e_dev : D;
  e_bgds : list Z;
  e_inodes : list cached_inode;
  e_blocks : list cached_block;
  e_ahead : list Z (* what has been read into the read-ahead buffer *)
}.

Definition with_inodes (fs : ext2) (l : list cached_inode) : ext2 :=
  mk_ext2 (e_sb fs) (e_dev fs) (e_bgds fs) l (e_blocks fs) (e_ahead fs).
Definition with_blocks (fs : ext2) (l : list cached_block) : ext2 :=
  mk_ext2 (e_sb fs) (e_dev fs) (e_bgds fs) (e_inodes fs) l (e_ahead fs).
Definition with_ahead (fs : ext2) (l : list Z) : ext2 :=
  mk_ext2 (e_sb fs) (e_dev fs) (e_bgds fs) (e_inodes fs) (e_blocks fs) l.
Definition with_dev (fs : ext2) (d : D) : ext2 :=
  mk_ext2 (e_sb fs) d (e_bgds fs) (e_inodes fs) (e_blocks fs) (e_ahead fs).

(** [BLOCK_SIZE]: the shift of an [int] *)
Definition BLOCK_SIZE (fs : ext2) : res Z :=
  x ← sb_block_size (e_sb fs);
  if 21 <=? x then Fault else Ok (Z.shiftl 1024 x).

(** C's division *)
Definition udiv (a b : Z) : res Z := if b =? 0 then Fault else Ok (a / b).
Definition umod (a b : Z) : res Z := if b =? 0 then Fault else Ok (a mod b).

Definition GROUP_FROM_INODE (fs : ext2) (inode : Z) : res Z :=
  n ← sb_inodes_per_group (e_sb fs); udiv (u32 (inode - 1)) n.
Definition INDEX_FROM_INODE (fs : ext2) (inode : Z) : res Z :=
  n ← sb_inodes_per_group (e_sb fs); umod (u32 (inode - 1)) n.
Definition BLOCK_FROM_INDEX (fs : ext2) (index : Z) : res Z :=
  isz ← sb_inode_size (e_sb fs); bs ← BLOCK_SIZE fs; Ok (u32 (index * isz) / bs).

(** ** The caches *)

Definition try_get_cached_inode (fs : ext2) (inode : Z) : res (option (list Z) * ext2) :=
  match find_cached ci_number (e_inodes fs) inode with
  | None => Ok (None, fs)
  | Some (c, rest) =>
      isz ← sb_inode_size (e_sb fs);
      ino ← set_access_time (ci_inode c) now;
      copy ← slice ino 0 isz;
      Ok (Some copy, with_inodes fs (mk_ci inode ino :: rest))
  end.

Definition try_get_cached_block (fs : ext2) (block : Z) : option (list Z) * ext2 :=
  match find_cached cb_number (e_blocks fs) block with
  | None => (None, fs)
  | Some (c, rest) => (Some (cb_data c), with_blocks fs (mk_cb block now (cb_data c) :: rest))
  end.

Definition invalidate_block (fs : ext2) (block : Z) : ext2 :=
  match find_cached cb_number (e_blocks fs) block with
  | None => fs
  | Some (_, rest) => with_blocks fs rest
  end.

Definition invalidate_inode (fs : ext2) (inode : Z) : ext2 :=
  match find_cached ci_number (e_inodes fs) inode with
  | None => fs
  | Some (_, rest) => with_inodes fs rest
  end.

Definition cache_inode (fs : ext2) (num : Z) (inode : list Z) : res ext2 :=
  isz ← sb_inode_size (e_sb fs);
  copy ← slice inode 0 isz;
  copy' ← set_access_time copy now;
  Ok (with_inodes fs (push_cached INODES_PER_CACHE (mk_ci num copy') (e_inodes fs))).

(** [data] is the buffer, from [off] on *)
Definition cache_block (fs : ext2) (block : Z) (data : list Z) (off : Z) : res ext2 :=
  bs ← BLOCK_SIZE fs;
  copy ← slice data off bs;
  Ok (with_blocks fs (push_cached BLOCKS_PER_CACHE (mk_cb block now copy) (e_blocks fs))).

(** ** Reading blocks *)

(** The loop over the blocks read ahead: [n] are left, the next one is at [i]. *)
Fixpoint cache_loop (n : nat) (fs : ext2) (bs start_block i : Z) : res ext2 :=
  match n with
  | O => Ok fs
  | S n' =>
      fs' ← cache_block fs (u32 (start_block + i / bs)) (e_ahead fs) i;
      cache_loop n' fs' bs start_block (i + bs)
  end.

(** The answer, the buffer and the file system *)
Definition read_block (fs : ext2) (start_block : Z) (buffer : list Z) (readahead : Z) : res (Z * list Z * ext2) :=
  total ← sb_total_blocks (e_sb fs);
  if total <? start_block then Ok (0, buffer, fs)
  else
    block_size ← BLOCK_SIZE fs;
    match try_get_cached_block fs start_block with
    | (Some bl, fs1) =>
        data ← slice bl 0 block_size;
        buffer' ← splice buffer 0 data;
        Ok (block_size, buffer', fs1)
    | (None, fs1) =>
        if truthy readahead then
          let readahead' := if MAX_READAHEAD <? readahead then MAX_READAHEAD else readahead in
          '(r, data) ← dev_read (e_dev fs1) (u32 (start_block * block_size)) readahead';
          let read := u32 r in
          if MAX_READAHEAD <? Z.of_nat (length data) then Fault
          else
            let fs2 := with_ahead fs1 (data ++ drop (length data) (e_ahead fs1)) in
            fs3 ← cache_loop (Z.to_nat ((read + block_size - 1) / block_size)) fs2 block_size start_block 0;
            first ← slice (e_ahead fs3) 0 block_size;
            buffer' ← splice buffer 0 first;
            Ok (block_size, buffer', fs3)
        else
          '(r, data) ← dev_read (e_dev fs1) (u32 (start_block * block_size)) block_size;
          let read := u32 r in
          buffer' ← splice buffer 0 data;
          fs2 ← (if read =? block_size then cache_block fs1 start_block buffer' 0 else Ok fs1);
          Ok (read, buffer', fs2)
    end.

(** ** Which block holds a part of a file *)

Definition resolve_single (fs : ext2) (pointer block_offset : Z) : res (Z * ext2) :=
  if pointer =? 0 then Ok (0, fs)
  else
    bs ← BLOCK_SIZE fs;
    '(_, block_buffer, fs1) ← read_block fs pointer (fresh bs) 0;
    target ← u32_field block_buffer (4 * u32 (block_offset - DIRECT_BLOCK_CAPACITY));
    Ok (target, fs1).

Definition resolve_double (fs : ext2) (pointer block_offset : Z) : res (Z * ext2) :=
  if pointer =? 0 then Ok (0, fs)
  else
    bs ← BLOCK_SIZE fs;
    let capacity := bs / 4 in
    let extra_offset := u32 (block_offset - capacity) in
    '(_, block_buffer, fs1) ← read_block fs pointer (fresh bs) 0;
    target ← u32_field block_buffer (4 * (extra_offset / capacity));
    resolve_single fs1 target (extra_offset mod capacity).

(** [extra_offset / DOUBLE_INDIRECT_BLOCK_CAPACITY(fs->superblock)] without parentheses
    around the product is a division and a multiplication; so with the remainder. *)
Definition resolve_triple (fs : ext2) (pointer block_offset : Z) : res (Z * ext2) :=
  if pointer =? 0 then Ok (0, fs)
  else
    bs ← BLOCK_SIZE fs;
    let capacity := bs / 4 in
    let extra_offset := u32 (block_offset - u32 (capacity * capacity)) in
    '(_, block_buffer, fs1) ← read_block fs pointer (fresh bs) 0;
    target ← u32_field block_buffer (4 * u32 (extra_offset / capacity * capacity));
    resolve_double fs1 target (u32 (extra_offset mod capacity * capacity)).

Definition block_from_offset (fs : ext2) (ino : list Z) (block_offset : Z) : res (Z * ext2) :=
  bs ← BLOCK_SIZE fs;
  let capacity := bs / 4 in
  s ← i_indirect_s ino;
  d ← i_indirect_d ino;
  t ← i_indirect_t ino;
  if block_offset <? DIRECT_BLOCK_CAPACITY then b ← i_block_pointer ino block_offset; Ok (b, fs)
  else if (block_offset <? capacity) && truthy s then resolve_single fs s block_offset
  else if (block_offset <? u32 (capacity * capacity)) && truthy d then resolve_double fs d block_offset
  else if (block_offset <? u32 (capacity * u32 (capacity * capacity))) && truthy t then resolve_triple fs t block_offset
  else Ok (0, fs).

(** ** Reading the contents of an inode *)

(** The loop: [acc] is what has been copied to the caller's buffer. *)
Fixpoint contents_loop (fuel : nat) (fs : ext2) (ino : list Z) (bs size block_offset part_offset : Z)
    (block_buffer acc : list Z) : res (list Z * ext2) :=
  if size =? 0 then Ok (acc, fs)
  else
    match fuel with
    | O => OutOfFuel
    | S fuel' =>
        '(target_block, fs1) ← block_from_offset fs ino block_offset;
        if target_block =? 0 then Ok (acc, fs1)
        else
          size_low ← i_size_low ino;
          '(_, block_buffer', fs2) ←
            read_block fs1 target_block block_buffer (u32 ((size_low / bs - block_offset + 1) * bs));
          if size <=? bs - part_offset then
            data ← slice block_buffer' part_offset size; Ok (acc ++ data, fs2)
          else
            data ← slice block_buffer' part_offset (bs - part_offset);
            contents_loop fuel' fs2 ino bs (size - (bs - part_offset)) (block_offset + 1) 0 block_buffer' (acc ++ data)
    end.

(** The bytes stored in the caller's buffer; their number is the answer. *)
Definition read_inode_contents (fs : ext2) (ino : list Z) (offset size : Z) : res (list Z * ext2) :=
  size_low ← i_size_low ino;
  if size_low <=? offset then Ok ([], fs)
  else
    let size' := if size_low <=? u32 (offset + size) then size_low - offset else size in
    bs ← BLOCK_SIZE fs;
    contents_loop (Z.to_nat size') fs ino bs size' (offset / bs) (offset mod bs) (fresh bs) [].

(** Where an inode is: its block, and its place in the block *)
Definition inode_place (fs : ext2) (inode : Z) : res (Z * Z) :=
  block_size ← BLOCK_SIZE fs;
  group ← GROUP_FROM_INODE fs inode;
  inode_table ← bgd_inode_table (e_bgds fs) group;
  inode_index ← INDEX_FROM_INODE fs inode;
  block_offset ← BLOCK_FROM_INDEX fs inode_index;
  isz ← sb_inode_size (e_sb fs);
  per_block ← udiv block_size isz;
  let inner_offset := u32 (inode_index - block_offset * per_block) in
  Ok (u32 (inode_table + block_offset), u32 (inner_offset * isz)).

(** [None]: NULL *)
Definition read_inode (fs : ext2) (inode : Z) : res (option (list Z) * ext2) :=
  if inode =? 0 then Ok (None, fs)
  else
    '(cached, fs0) ← try_get_cached_inode fs inode;
    match cached with
    | Some ino => Ok (Some ino, fs0)
    | None =>
        block_size ← BLOCK_SIZE fs0;
        '(target_block, inner) ← inode_place fs0 inode;
        '(_, buffer, fs1) ← read_block fs0 target_block (fresh block_size) 0;
        isz ← sb_inode_size (e_sb fs1);
        actual_inode ← slice buffer inner isz;
        fs2 ← cache_inode fs1 inode actual_inode;
        Ok (Some actual_inode, fs2)
    end.

Definition ext2_read (fs : ext2) (node_inode offset size : Z) : res (Z * list Z * ext2) :=
  if size =? 0 then Ok (0, [], fs)
  else
    '(inode, fs1) ← read_inode fs node_inode;
    match inode with
    | None => Ok (u32 (-1), [], fs1)
    | Some ino => '(data, fs2) ← read_inode_contents fs1 ino offset size; Ok (Z.of_nat (length data), data, fs2)
    end.

(** ** Directories *)

(** [ext2_dirent_t] of the buffer: a directory ends, or the entry asked for is in it. *)
Fixpoint readdir_loop (fuel : nat) (fs : ext2) (ino dirent : list Z) (offset cur_index index : Z)
    : res (option (list Z) * ext2) :=
  match fuel with
  | O => OutOfFuel
  | S fuel' =>
      size_low ← i_size_low ino;
      if size_low <=? offset then Ok (None, fs)
      else
        '(data, fs1) ← read_inode_contents fs ino offset EXT2_DIRENT_SIZE;
        dirent' ← splice dirent 0 data;
        d_inode ← field dirent' 0 4;
        if truthy d_inode && (index =? cur_index) then Ok (Some dirent', fs1)
        else
          d_size ← field dirent' 4 2;
          readdir_loop fuel' fs1 ino dirent' (u32 (offset + d_size))
            (if truthy d_inode then u32 (cur_index + 1) else cur_index) index
  end.

(** The name, as the C string its readers see, and the number of the inode *)
Definition ext2_readdir (fuel : nat) (fs : ext2) (dir_inode index : Z) : res (option (list Z * Z) * ext2) :=
  '(inode, fs1) ← read_inode fs dir_inode;
  match inode with
  | None => Ok (None, fs1)
  | Some ino =>
      perms ← i_perms ino;
      if negb (truthy (Z.land perms EXT2_DIR)) then Ok (None, fs1)
      else
        '(found, fs2) ← readdir_loop fuel fs1 ino (fresh EXT2_DIRENT_SIZE) 0 0 index;
        match found with
        | None => Ok (None, fs2)
        | Some dirent =>
            name_length ← field dirent 6 1;
            name ← slice dirent 8 name_length;
            str ← c_string (name ++ [0]);
            d_ino ← field dirent 0 4;
            Ok (Some (str, d_ino), fs2)
        end
  end.

(** What [__ext2_from_inode] fills in *)
Record ext2_node := mk_en { en_name : list Z; en_inode : Z; en_size : Z; en_dir : bool }.

Definition ext2_from_inode (fs : ext2) (name : list Z) (inode : Z) : res (ext2_node * ext2) :=
  '(o, fs1) ← read_inode fs inode;
  if 256 <=? Z.of_nat (length name) then Fault
  else
    ino ← of_option o;
    size ← i_size_low ino;
    perms ← i_perms ino;
    Ok (mk_en name inode size (truthy (Z.land perms EXT2_DIR)), fs1).

(** The search of one directory, from entry [index] on; [rfuel] is the fuel of each
    [ext2_readdir]. *)
Fixpoint ext2_find_entry (fuel rfuel : nat) (fs : ext2) (dir_inode index : Z) (folder : list Z)
    : res (option (list Z * Z) * ext2) :=
  match fuel with
  | O => OutOfFuel
  | S fuel' =>
      '(d, fs1) ← ext2_readdir rfuel fs dir_inode index;
      match d with
      | None => Ok (None, fs1)
      | Some (name, ino) =>
          if bool_decide (name = folder) then Ok (Some (name, ino), fs1)
          else ext2_find_entry fuel' rfuel fs1 dir_inode (index + 1) folder
      end
  end.

(** The loop over the segments: [n] are left, the next one is [i]. *)
Fixpoint finddir_loop (fuel n i : nat) (fs : ext2) (root : ext2_node) (path : list Z)
    : res (option ext2_node * ext2) :=
  match n with
  | O => Ok (Some root, fs)
  | S n' =>
      o ← k_util_path_segment path i;
      folder ← of_option o;
      '(found, fs1) ← ext2_find_entry fuel fuel fs (en_inode root) 0 folder;
      match found with
      | None => Ok (None, fs1)
      | Some (name, ino) =>
          '(node, fs2) ← ext2_from_inode fs1 name ino;
          finddir_loop fuel n' (S i) fs2 node path
      end
  end.

Definition ext2_finddir (fuel : nat) (fs : ext2) (root : ext2_node) (path : list Z) : res (option ext2_node * ext2) :=
  segments ← k_util_path_length path;
  '(o, fs1) ← finddir_loop fuel (Z.to_nat segments) 0 fs root path;
  match o with
  | None => Ok (None, fs1)
  | Some node =>
      f ← k_util_path_filename path;
      final ← of_option f;
      Ok (if bool_decide (en_name node = final) then Some node else None, fs1)
  end.

(** ** Mounting *)

Fixpoint read_bgds (n : nat) (fs : ext2) (start i : Z) (bgds : list Z) : res (list Z * ext2) :=
  match n with
  | O => Ok (bgds, fs)
  | S n' =>
      bs ← BLOCK_SIZE fs;
      part ← slice bgds (bs * i) (Z.of_nat (length bgds) - bs * i);
      '(_, part', fs1) ← read_block fs (start + i) part 0;
      bgds' ← splice bgds (bs * i) part';
      read_bgds n' fs1 start (i + 1) bgds'
  end.

(** [None]: not an ext2 *)
Definition ext2_mount (dev : D) (filename : list Z) : res (option (ext2 * ext2_node)) :=
  '(_, data) ← dev_read dev 1024 1024;
  superblock ← splice (fresh 1024) 0 data;
  signature ← sb_signature superblock;
  if negb (signature =? 0xef53) then Ok None
  else
    total ← sb_total_blocks superblock;
    per_group ← sb_blocks_per_group superblock;
    q ← udiv total per_group;
    (* the loop that counts up to the next whole group *)
    let bgds_amount := if q * per_group <? total then q + 1 else q in
    b ← udiv (u32 (EXT2_BGD_SIZE * bgds_amount)) total;
    let block_amount := u32 (b + 1) in
    let fs := mk_ext2 superblock dev [] [] [] [] in
    bs ← BLOCK_SIZE fs;
    let start := if 1024 <? bs then 1 else 2 in
    '(bgds, fs1) ← read_bgds (Z.to_nat block_amount) fs start 0 (fresh (u32 (block_amount * bs)));
    Ok (Some (mk_ext2 superblock dev bgds (e_inodes fs1) (e_blocks fs1) (e_ahead fs1), mk_en filename 2 0 true)).

(** ** Writing *)

Context `{BlockWriter D}.

Definition write_inode (fs : ext2) (inode : Z) (inode_data : list Z) : res ext2 :=
  block_size ← BLOCK_SIZE fs;
  '(target_block, inner) ← inode_place fs inode;
  isz ← sb_inode_size (e_sb fs);
  data ← slice inode_data 0 isz;
  '(_, d) ← dev_write (e_dev fs) (u32 (target_block * block_size + inner)) data;
  Ok (invalidate_inode (with_dev fs d) inode).

(** The first of the [n] direct block pointers from [i] on that is 0 *)
Fixpoint free_slot (n : nat) (i : Z) (ino : list Z) : res (option Z) :=
  match n with
  | O => Ok None
  | S n' =>
      b ← i_block_pointer ino i;
      if b =? 0 then Ok (Some i) else free_slot n' (i + 1) ino
  end.
Definition free_block_slot_from_inode (ino : list Z) : res (option Z) :=
  free_slot (Z.to_nat DIRECT_BLOCK_CAPACITY) 0 ino.

(** The first clear bit of a word that is not all ones *)
Fixpoint clear_bit_of (n : nat) (w j : Z) : Z :=
  match n with
  | O => j
  | S n' => if truthy (Z.land w (Z.shiftl 1 j)) then clear_bit_of n' w (j + 1) else j
  end.

(** The words of the bitmap from [i] on: the bit found, and the bitmap *)
Fixpoint bitmap_loop (n : nat) (i : Z) (bitmap : list Z) : res (Z * list Z) :=
  match n with
  | O => Ok (0, bitmap)
  | S n' =>
      w ← u32_field bitmap (4 * i);
      if w =? 0xFFFFFFFF then bitmap_loop n' (i + 1) bitmap
      else
        let j := clear_bit_of 32 w 0 in
        bitmap' ← set_u32_field bitmap (4 * i) (Z.lor w (Z.shiftl 1 j));
        Ok (i * 32 + j, bitmap')
  end.
Definition get_free_block_from_bitmap (bitmap : list Z) : res (Z * list Z) := bitmap_loop 1024 0 bitmap.

(** The loop of the allocation; storing through a NULL slot is a [Fault]. *)
Fixpoint allocate_blocks_loop (n : nat) (block_offset : Z) (ino bitmap : list Z) : res (list Z * list Z) :=
  match n with
  | O => Ok (ino, bitmap)
  | S n' =>
      o ← free_block_slot_from_inode ino;
      slot ← of_option o;
      '(b, bitmap') ← get_free_block_from_bitmap bitmap;
      ino' ← set_u32_field ino (40 + 4 * slot) (u32 (block_offset + b));
      allocate_blocks_loop n' block_offset ino' bitmap'
  end.

(** The inode with its new blocks *)
Definition allocate_blocks_for_inode (fs : ext2) (inode : Z) (ino : list Z) (blocks : Z) : res (list Z * ext2) :=
  block_size ← BLOCK_SIZE fs;
  group ← GROUP_FROM_INODE fs inode;
  free_blocks ← bgd_free_blocks (e_bgds fs) group;
  bitmap_address ← bgd_blocks_bitmap (e_bgds fs) group;
  if blocks <=? free_blocks then
    per_group ← sb_blocks_per_group (e_sb fs);
    '(_, bitmap, fs1) ← read_block fs bitmap_address (fresh block_size) 0;
    '(ino', bitmap') ← allocate_blocks_loop (Z.to_nat blocks) (u32 (group * per_group)) ino bitmap;
    '(_, d) ← dev_write (e_dev fs1) (u32 (bitmap_address * block_size)) bitmap';
    Ok (ino', with_dev fs1 d)
  else Ok (ino, fs).

(** Direct block pointers in use, from [i] on *)
Fixpoint count_blocks (n : nat) (i : Z) (ino : list Z) : res Z :=
  match n with
  | O => Ok 0
  | S n' =>
      b ← i_block_pointer ino i;
      if b =? 0 then Ok 0 else t ← count_blocks n' (i + 1) ino; Ok (t + 1)
  end.
Definition count_allocated_blocks (ino : list Z) : res Z := count_blocks (Z.to_nat DIRECT_BLOCK_CAPACITY) 0 ino.

Definition ext2_write (fs : ext2) (node_inode node_size offset : Z) (buffer : list Z) : res (Z * ext2) :=
  let size := Z.of_nat (length buffer) in
  if node_size <=? offset then Ok (0, fs)
  else
    '(o, fs1) ← read_inode fs node_inode;
    match o with
    | None => Ok (0, fs1)
    | Some ino =>
        block_size ← BLOCK_SIZE fs1;
        let block_offset := offset / block_size in
        let part_offset := offset mod block_size in
        let blocks_needed := size / block_size in
        let before := block_size - part_offset in
        let part_needed_before := if before =? block_size then 0 else before in
        let part_needed_after := u32 (size - blocks_needed - part_needed_before) in
        let total_blocks := u32 (blocks_needed + b2z (0 <? part_needed_after) + b2z (0 <? part_needed_before)) in
        let total_offset := u32 (block_offset - b2z (0 <? part_offset)) in
        allocated_blocks ← count_allocated_blocks ino;
        '(ino1, fs2) ← (if allocated_blocks <? blocks_needed
                        then allocate_blocks_for_inode fs1 node_inode ino (blocks_needed - allocated_blocks)
                        else Ok (ino, fs1));
        '(data, fs3) ← read_inode_contents fs2 ino1 (u32 (total_offset * block_size)) (u32 (total_blocks * block_size));
        internal ← splice (fresh (u32 (total_blocks * block_size))) 0 data;
        internal' ← splice internal part_offset buffer;
        '(r, d) ← dev_write (e_dev fs3) (u32 (total_offset * block_size)) internal';
        fs4 ← write_inode (with_dev fs3 d) node_inode ino1;
        Ok (u32 r, fs4)
    end.
End ext2.
Arguments ext2 D : clear implicits.
