(* ===== verification/Ext2Facts.v ===== *)
(** * Reading ext2: files and directories are what the disk says

    The caches stay copies of the disk whatever is read ([coherent]); under this invariant
    the block map agrees with the layout of ext2 for the blocks that the code reaches
    without the double-indirect block, and reading a file, listing a directory and finding
    a path give what the disk holds. *)

From S2P Require Import Prelude.
From S2P Require Import Path.
From S2P Require Import Tar.
From S2P Require Import BlockDev.
From S2P Require Import Ext2.

(** ** Fields *)

Section fields.
Implicit Types (l : list Z) (off n : Z).

Lemma field_ok l off n :
  0 ≤ off → 0 ≤ n → off + n ≤ Z.of_nat (length l) → field l off n = Ok (le (take (Z.to_nat n) (drop (Z.to_nat off) l))).
Proof. intros H1 H2 H3. unfold field. by rewrite slice_ok, bind_ok. Qed.

Lemma field_fault l off n : Z.of_nat (length l) < off + n → field l off n = Fault.
Proof. intros Hl. unfold field, slice. case_if; [done|]. lia. Qed.
End fields.

Section cached.
Context {A : Type} (num : A → Z).
Implicit Types (l rest : list A) (c : A).

Lemma find_cached_some l n c rest :
  find_cached num l n = Some (c, rest) → num c = n ∧ (∀ x, x ∈ l ↔ x = c ∨ x ∈ rest).
Proof.
  revert c rest. induction l as [|a l IH]; intros c rest; cbn [find_cached]; [done|].
  destruct (Z.eqb_spec (num a) n) as [Hn|Hn].
  - intros [= <- <-]. split; [done|]. intros x. by rewrite elem_of_cons.
  - destruct (find_cached num l n) as [[c' r']|] eqn:Hf; [|done]. intros [= <- <-]. destruct (IH _ _ eq_refl) as [Hc Hin].
    split; [done|]. intros x. rewrite !elem_of_cons, Hin. naive_solver.
Qed.

Lemma push_cached_in max c l x : x ∈ push_cached max c l → x = c ∨ x ∈ l.
Proof.
  unfold push_cached. destruct (max <? length (c :: l))%nat.
  - intros Hx. apply elem_of_take in Hx as (i & Hi & _). apply list_elem_of_lookup_2 in Hi. by apply elem_of_cons in Hi.
  - by rewrite elem_of_cons.
Qed.
End cached.

(** ** The invariant *)

Section facts.
Context {D : Type} `{BlockDev D} `{!BlockReads D}.
Context (fresh : Z → list Z) (now : Z) (fresh_length : ∀ n, 0 ≤ n → Z.of_nat (length (fresh n)) = n).
Implicit Types (fs : ext2 D) (n bs : Z).

(** A file system on a device: the block size, the number of blocks, the size of an inode
    and the number of inodes in a group *)
Record geometry fs (bs total isz ipg : Z) : Prop := mk_geometry {
  g_block_size : BLOCK_SIZE fs = Ok bs;
  g_total : sb_total_blocks (e_sb fs) = Ok total;
  g_isz : sb_inode_size (e_sb fs) = Ok isz;
  g_ipg : sb_inodes_per_group (e_sb fs) = Ok ipg;
  g_bs : bs = 1024 ∨ bs = 2048 ∨ bs = 4096;
  g_inode : 128 ≤ isz ≤ bs;
  g_len : total * bs ≤ dev_len (e_dev fs) < 2 ^ 31;
  g_whole : (bs | dev_len (e_dev fs))
}.

Definition disk_block fs bs n : list Z := take (Z.to_nat bs) (drop (Z.to_nat (n * bs)) (dev_bytes (e_dev fs))).

Definition on_disk fs bs n : Prop := 0 ≤ n ∧ (n + 1) * bs ≤ dev_len (e_dev fs).

Definition coherent_blocks fs bs : Prop :=
  ∀ c, c ∈ e_blocks fs → on_disk fs bs (cb_number c) ∧ cb_data c = disk_block fs bs (cb_number c).

(** Everything but the caches *)
Definition same_disk fs fs' : Prop :=
  e_sb fs' = e_sb fs ∧ e_dev fs' = e_dev fs ∧ e_bgds fs' = e_bgds fs.

Lemma same_disk_refl fs : same_disk fs fs.
Proof. done. Qed.

Lemma same_disk_trans fs1 fs2 fs3 : same_disk fs1 fs2 → same_disk fs2 fs3 → same_disk fs1 fs3.
Proof. intros (H1 & H2 & H3) (H4 & H5 & H6). repeat split; congruence. Qed.

Lemma geometry_same fs fs' bs total isz ipg :
  same_disk fs fs' → geometry fs bs total isz ipg → geometry fs' bs total isz ipg.
Proof.
  intros (H1 & H2 & H3) [G1 G2 G3 G4 G5 G6 G7 G8]. unfold BLOCK_SIZE, dev_len in *.
  split; unfold BLOCK_SIZE, dev_len; rewrite ?H1, ?H2; done.
Qed.

Lemma disk_block_same fs fs' bs n : same_disk fs fs' → disk_block fs' bs n = disk_block fs bs n.
Proof. intros (_ & H2 & _). unfold disk_block. by rewrite H2. Qed.

Lemma disk_block_length fs bs n : on_disk fs bs n → 0 < bs → Z.of_nat (length (disk_block fs bs n)) = bs.
Proof. intros [H1 H2] Hbs. unfold disk_block, dev_len in *. rewrite length_take, length_drop. nia. Qed.

Lemma coherent_same_blocks fs fs' bs :
  e_dev fs' = e_dev fs → e_blocks fs' = e_blocks fs → coherent_blocks fs bs → coherent_blocks fs' bs.
Proof. intros H1 H2 Hc c Hin. unfold on_disk, disk_block. rewrite H1. apply Hc. by rewrite <- H2. Qed.

Lemma cache_block_ok fs bs block data off :
  BLOCK_SIZE fs = Ok bs → 0 ≤ off → 0 < bs → off + bs ≤ Z.of_nat (length data) → on_disk fs bs block →
  take (Z.to_nat bs) (drop (Z.to_nat off) data) = disk_block fs bs block → coherent_blocks fs bs →
  ∃ fs', cache_block now fs block data off = Ok fs' ∧ same_disk fs fs' ∧ coherent_blocks fs' bs ∧
    e_inodes fs' = e_inodes fs ∧ e_ahead fs' = e_ahead fs.
Proof.
  intros Hbs Hoff Hpos Hlen Hon Hd Hc. unfold cache_block. rewrite Hbs, bind_ok, slice_ok, bind_ok by lia.
  eexists. split; [done|]. split; [done|]. split; [|done]. intros c Hin. cbn [with_blocks e_blocks] in Hin.
  apply push_cached_in in Hin as [->|Hin]; [|by apply Hc]. done.
Qed.

(** The blocks [start + j], ... are in the read-ahead buffer. *)
Definition ahead_holds fs bs start j (k : nat) : Prop := ∀ m, j ≤ m < j + Z.of_nat k →
  on_disk fs bs (start + m) ∧ (m + 1) * bs ≤ Z.of_nat (length (e_ahead fs)) ∧
  take (Z.to_nat bs) (drop (Z.to_nat (m * bs)) (e_ahead fs)) = disk_block fs bs (start + m).

Lemma cache_loop_ok k fs bs start j :
  BLOCK_SIZE fs = Ok bs → 0 < bs → 0 ≤ start → 0 ≤ j → dev_len (e_dev fs) < 2 ^ 31 →
  coherent_blocks fs bs → ahead_holds fs bs start j k →
  ∃ fs', cache_loop now k fs bs start (j * bs) = Ok fs' ∧ same_disk fs fs' ∧ coherent_blocks fs' bs ∧
    e_inodes fs' = e_inodes fs ∧ e_ahead fs' = e_ahead fs.
Proof.
  revert fs j. induction k as [|k IH]; intros fs j Hbs Hpos Hst Hj Hlen Hc Ha; cbn [cache_loop]; [by exists fs|].
  destruct (Ha j) as (Hon & Hal & Hd); [lia|]. pose proof Hon as [Hon1 Hon2].
  rewrite Z.div_mul, u32_small by nia.
  destruct (cache_block_ok fs bs (start + j) (e_ahead fs) (j * bs)) as (fs1 & -> & Hs1 & Hc1 & Hi1 & Ha1); try done; [lia|lia|].
  rewrite bind_ok. replace (j * bs + bs) with ((j + 1) * bs) by lia. pose proof Hs1 as (S1 & S2 & S3).
  destruct (IH fs1 (j + 1)) as (fs2 & -> & Hs2 & Hc2 & Hi2 & Ha2); try done.
  - unfold BLOCK_SIZE in *. by rewrite S1.
  - lia.
  - by rewrite S2.
  - intros m Hm. destruct (Ha m) as (Hom & Hlm & Hdm); [lia|]. unfold on_disk. by rewrite S2, Ha1, (disk_block_same fs fs1) by done.
  - exists fs2. split; [done|]. split; [by apply same_disk_trans with fs1|]. split; [done|]. split; congruence.
Qed.

Lemma read_buffer_ok (buf data : list Z) bs :
  Z.of_nat (length buf) = bs → Z.of_nat (length data) = bs → splice buf 0 data = Ok data.
Proof.
  intros Hb Hd. unfold splice. case_if; [lia|]. f_equal. cbn. rewrite drop_ge by lia. apply app_nil_r.
Qed.

Lemma bs_props bs : bs = 1024 ∨ bs = 2048 ∨ bs = 4096 → 1024 ≤ bs ≤ 4096 ∧ (512 | bs) ∧ (bs | MAX_READAHEAD).
Proof.
  unfold MAX_READAHEAD. intros [->|[->| ->]]; (split; [lia|split]);
    [by exists 2|by exists 8192|by exists 4|by exists 4096|by exists 8|by exists 2048].
Qed.

(** What is read ahead is whole blocks. *)
Lemma whole_blocks bs ra' len n :
  0 < bs → (bs | ra') → 0 < ra' → (bs | len) → (n + 1) * bs ≤ len →
  ∃ k : nat, Z.min ra' (len - n * bs) = Z.of_nat k * bs ∧ (0 < k)%nat.
Proof.
  intros Hbs [q Hq] Hra [t Ht] Hn. exists (Z.to_nat (Z.min q (t - n))). assert (0 < q) by nia. assert (n < t) by nia.
  rewrite Ht, Hq, Z2Nat.id by lia. split; [|lia]. by rewrite <- Z.mul_sub_distr_r, Z.mul_min_distr_nonneg_r by lia.
Qed.

Lemma ahead_data_holds fs bs n (k : nat) tail :
  0 < bs → 0 ≤ n → (n + Z.of_nat k) * bs ≤ dev_len (e_dev fs) →
  let data := take (Z.to_nat (Z.of_nat k * bs)) (drop (Z.to_nat (n * bs)) (dev_bytes (e_dev fs))) in
  ahead_holds (with_ahead fs (data ++ tail)) bs n 0 k.
Proof.
  intros Hbs Hn Hk data m Hm. unfold on_disk. cbn [with_ahead e_dev e_ahead].
  assert (Hlen : Z.of_nat (length data) = Z.of_nat k * bs).
  { unfold data. rewrite length_take, length_drop. unfold dev_len in *. nia. }
  split; [split; [lia|nia]|]. rewrite length_app. split; [nia|].
  change (disk_block (with_ahead fs (data ++ tail)) bs (n + m)) with (disk_block fs bs (n + m)). unfold disk_block.
  apply list_eq. intros i. rewrite !lookup_take. case_decide; [|done]. rewrite !lookup_drop.
  rewrite lookup_app_l by nia. unfold data. rewrite lookup_take_lt by nia. rewrite lookup_drop. f_equal. nia.
Qed.

Section read_block.
Context (fs : ext2 D) (bs total isz ipg n : Z) (buf : list Z).
Context (Hgeo : geometry fs bs total isz ipg) (Hc : coherent_blocks fs bs) (Hn : 0 ≤ n < total)
        (Hbuf : Z.of_nat (length buf) = bs).

Lemma read_on_disk : 1024 ≤ bs ≤ 4096 ∧ (512 | bs) ∧ (bs | MAX_READAHEAD) ∧ on_disk fs bs n ∧
  Z.of_nat (length (disk_block fs bs n)) = bs.
Proof.
  clear Hbuf. destruct Hgeo as [_ _ _ _ G5 _ G7 _]. destruct (bs_props bs G5) as (H1 & H2 & H3).
  assert (Hon : on_disk fs bs n) by (unfold on_disk; nia). repeat split; try done; try lia; try apply Hon.
  apply disk_block_length; [done|lia].
Qed.

Lemma read_cached c rest ra :
  find_cached cb_number (e_blocks fs) n = Some (c, rest) →
  ∃ fs', read_block now fs n buf ra = Ok (bs, disk_block fs bs n, fs') ∧ same_disk fs fs' ∧ coherent_blocks fs' bs ∧
    e_inodes fs' = e_inodes fs.
Proof.
  intros Hf. destruct read_on_disk as (Hbs & _ & _ & Hon & Hdl). destruct Hgeo as [G1 G2 _ _ _ _ _ _].
  unfold read_block, try_get_cached_block. rewrite G2, bind_ok, (proj2 (Z.ltb_ge _ _)), G1, bind_ok, Hf by lia.
  apply find_cached_some in Hf as [Hcn Hin]. destruct (Hc c) as [Hco Hcd]; [apply Hin; by left|]. rewrite Hcn in *.
  rewrite Hcd, slice_ok, bind_ok by lia. rewrite drop_0, take_ge by lia.
  rewrite (read_buffer_ok buf _ bs), bind_ok by done.
  eexists. split; [done|]. split; [done|]. split; [|done]. intros x Hx. cbn [with_blocks e_blocks] in Hx.
  apply elem_of_cons in Hx as [->|Hx]; [done|apply Hc, Hin; by right].
Qed.

Lemma read_direct :
  find_cached cb_number (e_blocks fs) n = None →
  ∃ fs', read_block now fs n buf 0 = Ok (bs, disk_block fs bs n, fs') ∧ same_disk fs fs' ∧ coherent_blocks fs' bs ∧
    e_inodes fs' = e_inodes fs.
Proof.
  intros Hf. destruct read_on_disk as (Hbs & H512 & _ & Hon & Hdl). destruct Hgeo as [G1 G2 _ _ _ _ G7 _].
  pose proof Hon as [_ Hon2].
  unfold read_block, try_get_cached_block. rewrite G2, bind_ok, (proj2 (Z.ltb_ge _ _)), G1, bind_ok, Hf by lia.
  change (truthy 0) with false. cbv iota.
  rewrite u32_small by nia. rewrite (dev_read_ok (e_dev fs) (n * bs) bs); [|by apply Z.divide_mul_r|done|nia|lia|nia].
  rewrite bind_ok, Z.min_l by lia. change (take (Z.to_nat bs) (drop (Z.to_nat (n * bs)) (dev_bytes (e_dev fs)))) with (disk_block fs bs n).
  rewrite (read_buffer_ok buf _ bs), bind_ok, u32_small, Z.eqb_refl by (done || lia).
  destruct (cache_block_ok fs bs n (disk_block fs bs n) 0) as (fs1 & -> & Hs1 & Hc1 & Hi1 & _); try done; try lia.
  - rewrite drop_0, take_ge by lia. done.
  - rewrite bind_ok. by exists fs1.
Qed.

Lemma read_ahead ra :
  find_cached cb_number (e_blocks fs) n = None → 0 < ra → (bs | ra) →
  ∃ fs', read_block now fs n buf ra = Ok (bs, disk_block fs bs n, fs') ∧ same_disk fs fs' ∧ coherent_blocks fs' bs ∧
    e_inodes fs' = e_inodes fs.
Proof.
  intros Hf Hra Hdiv. destruct read_on_disk as (Hbs & H512 & Hmax & Hon & Hdl). destruct Hgeo as [G1 G2 _ _ _ _ G7 G8].
  pose proof Hon as [_ Hon2].
  unfold read_block, try_get_cached_block. rewrite G2, bind_ok, (proj2 (Z.ltb_ge _ _)), G1, bind_ok, Hf by lia.
  rewrite (proj2 (truthy_true ra)) by lia. set (ra' := if MAX_READAHEAD <? ra then MAX_READAHEAD else ra).
  assert (Hra' : 0 < ra' ≤ MAX_READAHEAD ∧ (bs | ra')).
  { unfold ra'. case_if; (split; [unfold MAX_READAHEAD in *; lia|done]). }
  destruct Hra' as [Hra1 Hdiv']. assert (H512r : (512 | ra')) by (by apply Z.divide_trans with bs).
  destruct (whole_blocks bs ra' (dev_len (e_dev fs)) n) as (k & Hk & Hk0); [lia|done|lia|done|done|].
  unfold MAX_READAHEAD in Hra1. rewrite u32_small by nia.
  rewrite (dev_read_ok (e_dev fs) (n * bs) ra'); [|by apply Z.divide_mul_r|done|nia|lia|nia].
  rewrite bind_ok, Hk. assert (Hkr : (n + Z.of_nat k) * bs ≤ dev_len (e_dev fs)) by lia.
  assert (Hk1 : 0 < Z.of_nat k * bs ≤ 8 * 1024 * 1024) by nia.
  pose proof (ahead_data_holds fs bs n k (drop (Z.to_nat (Z.of_nat k * bs)) (e_ahead fs)) ltac:(lia) ltac:(lia) Hkr) as Hah.
  set (data := take (Z.to_nat (Z.of_nat k * bs)) _) in *.
  assert (Hlen : Z.of_nat (length data) = Z.of_nat k * bs).
  { unfold data. rewrite length_take, length_drop. unfold dev_len in *. nia. }
  rewrite (proj2 (Z.ltb_ge _ _)) by (unfold MAX_READAHEAD; lia). rewrite (u32_small (Z.of_nat k * bs)) by lia.
  replace ((Z.of_nat k * bs + bs - 1) / bs) with (Z.of_nat k) by (apply (Z.div_unique _ _ _ (bs - 1)); lia).
  rewrite Nat2Z.id. replace (drop (length data) (e_ahead fs)) with (drop (Z.to_nat (Z.of_nat k * bs)) (e_ahead fs)) by (f_equal; lia).
  set (fs2 := with_ahead fs _) in *.
  destruct (cache_loop_ok k fs2 bs n 0) as (fs3 & Hl & Hs3 & Hc3 & Hi3 & Ha3); try done; try lia.
  { change (dev_len (e_dev fs2)) with (dev_len (e_dev fs)). lia. }
  rewrite Z.mul_0_l in Hl. rewrite Hl, bind_ok, Ha3. destruct (Hah 0) as (_ & Hal & Hfirst); [lia|]. cbn [fs2 with_ahead e_ahead] in *.
  rewrite slice_ok, bind_ok by lia. rewrite Z.mul_0_l in Hfirst. change (Z.to_nat 0) with 0%nat in *. rewrite Hfirst, Z.add_0_r.
  change (disk_block fs2 bs n) with (disk_block fs bs n).
  rewrite (read_buffer_ok buf _ bs), bind_ok by done. by exists fs3.
Qed.

(** Reading a block of the file system gives the block of the disk. *)
Lemma read_block_ok ra :
  0 ≤ ra → (bs | ra) →
  ∃ fs', read_block now fs n buf ra = Ok (bs, disk_block fs bs n, fs') ∧ same_disk fs fs' ∧ coherent_blocks fs' bs ∧
    e_inodes fs' = e_inodes fs.
Proof.
  intros Hra Hdiv. destruct (find_cached cb_number (e_blocks fs) n) as [[c rest]|] eqn:Hf; [by apply (read_cached c rest)|].
  destruct (decide (ra = 0)) as [->|]; [by apply read_direct|]. apply read_ahead; [done|lia|done].
Qed.
End read_block.

(** ** The layout of ext2: which block holds block [b] of a file *)

Definition table_word (blk : list Z) (i : Z) : Z := le (take 4 (drop (Z.to_nat (4 * i)) blk)).
Definition inode_word (ino : list Z) (off : Z) : Z := le (take 4 (drop (Z.to_nat off) ino)).

Definition ext2_map fs bs (ino : list Z) (b : Z) : Z :=
  let p := bs / 4 in
  if b <? 12 then inode_word ino (40 + 4 * b)
  else if b <? 12 + p then table_word (disk_block fs bs (inode_word ino 88)) (b - 12)
  else if b <? 12 + p + p * p then
    let e := b - 12 - p in
    table_word (disk_block fs bs (table_word (disk_block fs bs (inode_word ino 92)) (e / p))) (e mod p)
  else
    let e := b - 12 - p - p * p in
    table_word (disk_block fs bs (table_word (disk_block fs bs (table_word (disk_block fs bs (inode_word ino 96)) (e / (p * p)))) (e / p mod p)))
      (e mod p).

Lemma inode_field ino off :
  0 ≤ off → off + 4 ≤ 128 → 128 ≤ Z.of_nat (length ino) → field ino off 4 = Ok (inode_word ino off).
Proof. intros H0 Ho Hl. by rewrite field_ok by lia. Qed.

Lemma bs_quarter bs : bs = 1024 ∨ bs = 2048 ∨ bs = 4096 → 256 ≤ bs / 4 ≤ 1024 ∧ bs = 4 * (bs / 4).
Proof. intros [->|[->| ->]]; (split; [split|]; reflexivity || (vm_compute; congruence)). Qed.

Section map.
Context (fs : ext2 D) (bs total isz ipg : Z).
Context (Hgeo : geometry fs bs total isz ipg) (Hc : coherent_blocks fs bs).

Lemma fresh_block fs' : same_disk fs fs' → Z.of_nat (length (fresh bs)) = bs.
Proof. intros _. destruct Hgeo as [_ _ _ _ G5 _ _ _]. apply fresh_length. lia. Qed.

Lemma resolve_single_ok pointer b :
  0 < pointer < total → 12 ≤ b → b - 12 < bs / 4 →
  ∃ fs', resolve_single fresh now fs pointer b = Ok (table_word (disk_block fs bs pointer) (b - 12), fs') ∧
    same_disk fs fs' ∧ coherent_blocks fs' bs ∧ e_inodes fs' = e_inodes fs.
Proof.
  intros Hp Hb Hlt. destruct (Hgeo) as [G1 G2 _ _ G5 _ G7 _]. destruct (bs_quarter bs G5) as [Hq1 Hq2].
  unfold resolve_single. rewrite (proj2 (Z.eqb_neq _ _)), G1, bind_ok by lia.
  destruct (read_block_ok fs bs total isz ipg pointer (fresh bs) Hgeo Hc) with (ra := 0) as (fs1 & -> & Hs1 & Hc1 & Hi1);
    [lia|by apply (fresh_block fs)|lia|by exists 0|].
  rewrite bind_ok. unfold u32_field, DIRECT_BLOCK_CAPACITY. rewrite (u32_small (b - 12)) by lia. rewrite field_ok.
  - rewrite bind_ok. by exists fs1.
  - lia.
  - lia.
  - rewrite disk_block_length; [lia|unfold on_disk; nia|lia].
Qed.

(** The entries below 12 of a table are read in front of the table. *)
Lemma resolve_single_fault pointer b :
  0 < pointer < total → 0 ≤ b < 12 → resolve_single fresh now fs pointer b = Fault.
Proof.
  intros Hp Hb. destruct (Hgeo) as [G1 G2 _ _ G5 _ G7 _].
  unfold resolve_single. rewrite (proj2 (Z.eqb_neq _ _)), G1, bind_ok by lia.
  destruct (read_block_ok fs bs total isz ipg pointer (fresh bs) Hgeo Hc) with (ra := 0) as (fs1 & -> & Hs1 & Hc1 & Hi1);
    [lia|by apply (fresh_block fs)|lia|by exists 0|].
  rewrite bind_ok. unfold u32_field. rewrite field_fault; [done|].
  rewrite disk_block_length; [|unfold on_disk; nia|lia]. unfold DIRECT_BLOCK_CAPACITY, u32.
  replace ((b - 12) mod 2 ^ 32) with (b - 12 + 2 ^ 32) by (apply (Z.mod_unique _ _ (-1)); lia). lia.
Qed.
End map.

Section map2.
Context (fs : ext2 D) (bs total isz ipg : Z).
Context (Hgeo : geometry fs bs total isz ipg) (Hc : coherent_blocks fs bs).

Lemma resolve_double_eq pointer b :
  0 < pointer < total → bs / 4 ≤ b < bs / 4 * (bs / 4) →
  let e := b - bs / 4 in
  ∃ fs1, same_disk fs fs1 ∧ coherent_blocks fs1 bs ∧ e_inodes fs1 = e_inodes fs ∧
    resolve_double fresh now fs pointer b =
    resolve_single fresh now fs1 (table_word (disk_block fs bs pointer) (e / (bs / 4))) (e mod (bs / 4)).
Proof.
  intros Hp Hb e. destruct (Hgeo) as [G1 G2 _ _ G5 _ G7 _]. destruct (bs_quarter bs G5) as [Hq1 Hq2].
  unfold resolve_double. rewrite (proj2 (Z.eqb_neq _ _)), G1, bind_ok by lia.
  destruct (read_block_ok fs bs total isz ipg pointer (fresh bs) Hgeo Hc) with (ra := 0) as (fs1 & -> & Hs1 & Hc1 & Hi1);
    [lia|apply fresh_length; lia|lia|by exists 0|].
  exists fs1. split; [done|]. split; [done|]. split; [done|]. rewrite bind_ok. fold e. rewrite (u32_small e) by nia.
  assert (He : 0 ≤ e / (bs / 4) < bs / 4).
  { split; [apply Z.div_pos; lia|]. apply Z.div_lt_upper_bound; nia. }
  unfold u32_field. rewrite field_ok; [by rewrite bind_ok|lia|lia|].
  rewrite disk_block_length; [lia|unfold on_disk; nia|lia].
Qed.

(** The pointers the code follows to block [b] lead to blocks of the file system. *)
Definition pointers_ok (ino : list Z) (b : Z) : Prop :=
  (12 ≤ b < bs / 4 → 0 < inode_word ino 88 < total) ∧
  (bs / 4 ≤ b → 0 < inode_word ino 92 < total ∧
    0 < table_word (disk_block fs bs (inode_word ino 92)) ((b - bs / 4) / (bs / 4)) < total).

(** Where the code agrees with the layout: below the number of pointers in a block, and then
    except for the first twelve of every such number of blocks. *)
Definition well_mapped (b : Z) : Prop :=
  0 ≤ b < bs / 4 ∨ (bs / 4 ≤ b < bs / 4 * (bs / 4) ∧ 12 ≤ (b - bs / 4) mod (bs / 4)).

Lemma block_from_offset_ok ino b :
  128 ≤ Z.of_nat (length ino) → well_mapped b → pointers_ok ino b →
  ∃ fs', block_from_offset fresh now fs ino b = Ok (ext2_map fs bs ino b, fs') ∧
    same_disk fs fs' ∧ coherent_blocks fs' bs ∧ e_inodes fs' = e_inodes fs.
Proof.
  intros Hi Hw [Hp1 Hp2]. destruct (Hgeo) as [G1 G2 _ _ G5 _ G7 _]. destruct (bs_quarter bs G5) as [Hq1 Hq2].
  unfold block_from_offset. rewrite G1, bind_ok. unfold i_indirect_s, i_indirect_d, i_indirect_t, i_block_pointer.
  rewrite (inode_field ino 88), (inode_field ino 92), (inode_field ino 96), !bind_ok by lia.
  unfold ext2_map, DIRECT_BLOCK_CAPACITY. rewrite (u32_small (bs / 4 * (bs / 4))) by nia. destruct Hw as [Hw|[Hw Hm]].
  - destruct (Z.ltb_spec b 12) as [Hlt|Hge].
    + rewrite (inode_field ino), bind_ok by lia. by exists fs.
    + rewrite (proj2 (Z.ltb_lt b (bs / 4))), (proj2 (truthy_true _)), (proj2 (Z.ltb_lt b (12 + _))) by lia. cbn [andb].
      by apply (resolve_single_ok fs bs total isz ipg); try done; lia.
  - destruct Hp2 as [Hd Ht]; [lia|]. rewrite (proj2 (Z.ltb_ge b 12)), (proj2 (Z.ltb_ge b (bs / 4))) by lia. cbn [andb].
    rewrite (proj2 (Z.ltb_lt _ _)), (proj2 (truthy_true _)) by lia. cbn [andb].
    destruct (resolve_double_eq (inode_word ino 92) b Hd Hw) as (fs1 & Hs1 & Hc1 & Hi1 & ->).
    set (e := b - bs / 4) in *. set (q := e / (bs / 4)) in *. assert (He := Z.div_mod e (bs / 4) ltac:(lia)). fold q in He.
    pose proof (Z.mod_pos_bound e (bs / 4) ltac:(lia)) as Hmb. assert (Hqp : 0 ≤ q) by (apply Z.div_pos; lia).
    destruct (resolve_single_ok fs1 bs total isz ipg) with (pointer := table_word (disk_block fs bs (inode_word ino 92)) q) (b := e mod (bs / 4))
      as (fs2 & -> & Hs2 & Hc2 & Hi2); [by apply (geometry_same fs)|done|done|lia|lia|].
    exists fs2. split; [|split; [by apply same_disk_trans with fs1|split; [done|congruence]]]. do 2 f_equal.
    rewrite (disk_block_same fs fs1) by done. rewrite (proj2 (Z.ltb_ge b _)), (proj2 (Z.ltb_lt b _)) by nia.
    replace ((b - 12 - bs / 4) / (bs / 4)) with q by (apply (Z.div_unique _ _ _ (e mod (bs / 4) - 12)); lia).
    replace ((b - 12 - bs / 4) mod (bs / 4)) with (e mod (bs / 4) - 12) by (apply (Z.mod_unique _ _ q); lia). done.
Qed.
End map2.

(** ** The contents of files *)

(** The disk holds the file [data] for the inode, in the layout of ext2. *)
Definition file_holds fs bs (total : Z) (ino data : list Z) : Prop :=
  128 ≤ Z.of_nat (length ino) ∧ inode_word ino 4 = Z.of_nat (length data) ∧
  ∀ b, 0 ≤ b → b * bs < Z.of_nat (length data) →
    (12 ≤ b → 0 < inode_word ino 88 < total) ∧ 0 < ext2_map fs bs ino b < total ∧
    take (Z.to_nat bs) (drop (Z.to_nat (b * bs)) data) =
    take (Z.to_nat (Z.min bs (Z.of_nat (length data) - b * bs))) (disk_block fs bs (ext2_map fs bs ino b)).

Lemma ext2_map_same fs fs' bs ino b : same_disk fs fs' → ext2_map fs' bs ino b = ext2_map fs bs ino b.
Proof. intros (_ & H2 & _). unfold ext2_map, disk_block. by rewrite H2. Qed.

Lemma file_holds_same fs fs' bs total ino data :
  same_disk fs fs' → file_holds fs bs total ino data → file_holds fs' bs total ino data.
Proof.
  intros Hs (H1 & H2 & H3). split; [done|]. split; [done|]. intros b Hb Hlt.
  rewrite (ext2_map_same fs fs'), (disk_block_same fs fs') by done. by apply H3.
Qed.

(** Part of a block of the file is part of the block of the disk. *)
Lemma block_part fs bs total ino data b part k :
  file_holds fs bs total ino data → 0 < bs → 0 ≤ b → 0 ≤ part → 0 < k → part + k ≤ bs →
  b * bs + part + k ≤ Z.of_nat (length data) →
  take (Z.to_nat k) (drop (Z.to_nat part) (disk_block fs bs (ext2_map fs bs ino b))) =
  take (Z.to_nat k) (drop (Z.to_nat (b * bs + part)) data).
Proof.
  intros (_ & _ & Hd) Hbs Hb Hpart Hk Hle Hlen. destruct (Hd b Hb) as (_ & _ & He); [lia|].
  apply (f_equal (λ l, take (Z.to_nat k) (drop (Z.to_nat part) l))) in He.
  assert (Ht : ∀ (l : list Z) m, part + k ≤ m →
    take (Z.to_nat k) (drop (Z.to_nat part) (take (Z.to_nat m) l)) = take (Z.to_nat k) (drop (Z.to_nat part) l)).
  { intros l m Hm. apply list_eq. intros i. rewrite !lookup_take. case_decide; [|done]. rewrite !lookup_drop.
    by rewrite lookup_take_lt by lia. }
  rewrite !Ht in He by lia. rewrite <- He, drop_drop. do 2 f_equal. lia.
Qed.

Lemma take_plus {A} (l : list A) (i j : Z) :
  0 ≤ i → 0 ≤ j → take (Z.to_nat i) l ++ take (Z.to_nat j) (drop (Z.to_nat i) l) = take (Z.to_nat (i + j)) l.
Proof. intros Hi Hj. rewrite take_take_drop. f_equal. lia. Qed.

Section contents.
Context (bs total isz ipg : Z) (ino data : list Z).

Lemma contents_step fs b buf :
  geometry fs bs total isz ipg → coherent_blocks fs bs → file_holds fs bs total ino data →
  Z.of_nat (length data) ≤ bs / 4 * bs → Z.of_nat (length buf) = bs → 0 ≤ b → b * bs < Z.of_nat (length data) →
  ∃ fs1 fs2, block_from_offset fresh now fs ino b = Ok (ext2_map fs bs ino b, fs1) ∧ ext2_map fs bs ino b ≠ 0 ∧
    read_block now fs1 (ext2_map fs bs ino b) buf (u32 ((Z.of_nat (length data) / bs - b + 1) * bs)) =
      Ok (bs, disk_block fs bs (ext2_map fs bs ino b), fs2) ∧
    same_disk fs fs2 ∧ coherent_blocks fs2 bs ∧ e_inodes fs2 = e_inodes fs.
Proof.
  intros Hg Hc Hf Hmax Hbuf Hb Hlt. pose proof Hf as (Hi & _ & Hd). destruct (Hd b Hb Hlt) as (Hs & Hn & _).
  pose proof Hg as [_ _ _ _ G5 _ G7 _]. destruct (bs_quarter bs G5) as [Hq1 Hq2].
  destruct (block_from_offset_ok fs bs total isz ipg Hg Hc ino b Hi) as (fs1 & E1 & S1 & C1 & I1).
  { left. nia. }
  { split; [intros ?; apply Hs; lia|intros ?; nia]. }
  set (n := ext2_map fs bs ino b) in *. set (q := Z.of_nat (length data) / bs).
  assert (Hq : b ≤ q ∧ q * bs ≤ Z.of_nat (length data)).
  { split; [apply Z.div_le_lower_bound; lia|]. rewrite Z.mul_comm. apply Z.mul_div_le. lia. }
  rewrite u32_small by nia.
  destruct (read_block_ok fs1 bs total isz ipg n buf) with (ra := (q - b + 1) * bs) as (fs2 & E2 & S2 & C2 & I2);
    [by apply (geometry_same fs)|done|lia|done|nia|apply Z.divide_factor_r|].
  exists fs1, fs2. rewrite E2, (disk_block_same fs fs1) by done. split; [done|]. split; [lia|]. split; [done|].
  split; [by apply same_disk_trans with fs1|]. split; [done|congruence].
Qed.

Lemma contents_loop_ok fuel fs size b part buf acc :
  geometry fs bs total isz ipg → coherent_blocks fs bs → file_holds fs bs total ino data →
  Z.of_nat (length data) ≤ bs / 4 * bs → Z.of_nat (length buf) = bs → 0 ≤ b → 0 ≤ part < bs → 0 ≤ size →
  b * bs + part + size ≤ Z.of_nat (length data) → (Z.to_nat size ≤ fuel)%nat →
  ∃ fs', contents_loop fresh now fuel fs ino bs size b part buf acc =
      Ok (acc ++ take (Z.to_nat size) (drop (Z.to_nat (b * bs + part)) data), fs') ∧
    same_disk fs fs' ∧ coherent_blocks fs' bs ∧ e_inodes fs' = e_inodes fs.
Proof.
  revert fs size b part buf acc. induction fuel as [|fuel IH]; intros fs size b part buf acc Hg Hc Hf Hmax Hbuf Hb Hpart Hsize Hin Hfuel.
  { assert (size = 0) as -> by lia. exists fs. cbn. by rewrite app_nil_r. }
  cbn [contents_loop]. destruct (Z.eqb_spec size 0) as [->|Hne]; [exists fs; cbn; by rewrite app_nil_r|].
  destruct (contents_step fs b buf) as (fs1 & fs2 & E1 & Hn0 & E2 & S2 & C2 & I2); try done; [lia|].
  rewrite E1, bind_ok, (proj2 (Z.eqb_neq _ _)) by done. pose proof Hf as (Hi & Hsz & Hd).
  unfold i_size_low. rewrite inode_field, bind_ok, Hsz, E2, bind_ok by lia.
  assert (Hdl : Z.of_nat (length (disk_block fs bs (ext2_map fs bs ino b))) = bs).
  { destruct (Hd b) as (_ & Hn & _); [lia|lia|]. pose proof Hg as [_ _ _ _ _ _ G7 _].
    apply disk_block_length; [unfold on_disk; nia|lia]. }
  destruct (Z.leb_spec size (bs - part)) as [Hle|Hgt]; rewrite slice_ok, bind_ok by lia.
  - rewrite (block_part fs bs total ino data) by (done || lia). by exists fs2.
  - rewrite (block_part fs bs total ino data) by (done || lia).
    destruct (IH fs2 (size - (bs - part)) (b + 1) 0 (disk_block fs bs (ext2_map fs bs ino b))
      (acc ++ take (Z.to_nat (bs - part)) (drop (Z.to_nat (b * bs + part)) data))) as (fs3 & E3 & S3 & C3 & I3);
      try done; try lia; [by apply (geometry_same fs)|by apply (file_holds_same fs)|].
    exists fs3. rewrite E3, <- app_assoc. split; [|split; [by apply same_disk_trans with fs2|split; [done|congruence]]].
    replace (Z.to_nat ((b + 1) * bs + 0)) with (Z.to_nat (b * bs + part) + Z.to_nat (bs - part))%nat by lia.
    rewrite <- drop_drop, take_plus by lia. by replace (bs - part + (size - (bs - part))) with size by lia.
Qed.

Lemma read_contents_ok fs offset size :
  geometry fs bs total isz ipg → coherent_blocks fs bs → file_holds fs bs total ino data →
  Z.of_nat (length data) ≤ bs / 4 * bs → 0 ≤ offset → 0 ≤ size → offset + size < 2 ^ 32 →
  ∃ fs', read_inode_contents fresh now fs ino offset size = Ok (take (Z.to_nat size) (drop (Z.to_nat offset) data), fs') ∧
    same_disk fs fs' ∧ coherent_blocks fs' bs ∧ e_inodes fs' = e_inodes fs.
Proof.
  intros Hg Hc Hf Hmax Hoff Hsize Hsum. pose proof Hg as [G1 _ _ _ G5 _ _ _]. pose proof Hf as (Hi & Hsz & _).
  unfold read_inode_contents, i_size_low. rewrite inode_field, bind_ok, Hsz by lia.
  destruct (Z.leb_spec (Z.of_nat (length data)) offset) as [Hout|Hin].
  { exists fs. rewrite drop_ge by lia. by rewrite take_nil. }
  rewrite u32_small, G1, bind_ok by lia. set (size' := if Z.of_nat (length data) <=? offset + size then _ else _).
  assert (Hs' : size' = Z.min size (Z.of_nat (length data) - offset)) by (unfold size'; case_if; lia).
  assert (Hdm := Z.div_mod offset bs ltac:(lia)). pose proof (Z.mod_pos_bound offset bs ltac:(lia)) as Hm.
  assert (Hq : 0 ≤ offset / bs) by (apply Z.div_pos; lia).
  destruct (contents_loop_ok (Z.to_nat size') fs size' (offset / bs) (offset mod bs) (fresh bs) []) as (fs' & E & S1 & C1 & I1);
    try done; try lia; [apply fresh_length; lia|].
  exists fs'. rewrite E. split; [|done]. do 2 f_equal. cbn. replace (offset / bs * bs + offset mod bs) with offset by lia.
  rewrite Hs'. destruct (Z.le_ge_cases size (Z.of_nat (length data) - offset)).
  - by rewrite Z.min_l by lia.
  - rewrite Z.min_r, !take_ge by (rewrite ?length_drop; lia). done.
Qed.
End contents.

(** ** Inodes *)

(** Equal up to the access time, which the cache updates in its copies *)
Definition same_but_atime (a b : list Z) : Prop :=
  length a = length b ∧ take 8 a = take 8 b ∧ drop 12 a = drop 12 b.

Lemma same_but_atime_refl a : same_but_atime a a.
Proof. done. Qed.

Lemma same_but_atime_trans a b c : same_but_atime a b → same_but_atime b c → same_but_atime a c.
Proof. intros (H1 & H2 & H3) (H4 & H5 & H6). repeat split; congruence. Qed.

Lemma set_access_time_ok a t :
  12 ≤ Z.of_nat (length a) → ∃ a', set_access_time a t = Ok a' ∧ same_but_atime a' a.
Proof.
  intros Ha. unfold set_access_time. pose proof (le_bytes_length 4 t) as Hl. generalize dependent (le_bytes 4 t). intros w Hl.
  destruct (splice_ok a 8 w) as [a' E]; [lia|lia|].
  exists a'. split; [done|]. split; [by apply (splice_length _ _ _ _ E)|]. revert E. unfold splice. rewrite Hl.
  case_if; [done|]. intros [= <-]. change (Z.to_nat 8) with 8%nat. split.
  - rewrite take_app_length' by (rewrite length_take; lia). done.
  - rewrite app_assoc, drop_app_length'; [done|]. rewrite length_app, length_take, Hl. lia.
Qed.

Lemma field_same a b off n :
  same_but_atime a b → 0 ≤ off → 0 ≤ n → off + n ≤ 8 ∨ 12 ≤ off → field a off n = field b off n.
Proof.
  intros (H1 & H2 & H3) Hoff Hn Hd. unfold field, slice. rewrite H1. case_if; [done|]. cbn. do 2 f_equal.
  destruct Hd as [Hd|Hd].
  - assert (Ht : ∀ l : list Z, take (Z.to_nat n) (drop (Z.to_nat off) l) = take (Z.to_nat n) (drop (Z.to_nat off) (take 8 l))).
    { intros l. apply list_eq. intros i. rewrite !lookup_take. case_decide; [|done]. rewrite !lookup_drop.
      by rewrite lookup_take_lt by lia. }
    by rewrite (Ht a), (Ht b), H2.
  - assert (Ht : ∀ l : list Z, drop (Z.to_nat off) l = drop (Z.to_nat off - 12) (drop 12 l)).
    { intros l. rewrite drop_drop. f_equal. lia. }
    by rewrite (Ht a), (Ht b), H3.
Qed.

Lemma inode_word_same a b off :
  same_but_atime a b → 128 ≤ Z.of_nat (length a) → off = 4 ∨ 12 ≤ off ≤ 124 → inode_word a off = inode_word b off.
Proof.
  intros Hs Ha Ho. pose proof Hs as (H1 & _ & _). assert (He : field a off 4 = field b off 4) by (apply field_same; [done|lia..]).
  rewrite !inode_field in He by lia. by injection He.
Qed.

Lemma ext2_map_atime fs bs a b k :
  same_but_atime a b → 128 ≤ Z.of_nat (length a) → 0 ≤ k → ext2_map fs bs a k = ext2_map fs bs b k.
Proof.
  intros Hs Ha Hk. unfold ext2_map. rewrite (inode_word_same a b 88), (inode_word_same a b 92), (inode_word_same a b 96) by (done || lia).
  destruct (Z.ltb_spec k 12); [|done]. apply inode_word_same; [done|done|lia].
Qed.

Lemma file_holds_atime fs bs total a b data :
  same_but_atime a b → file_holds fs bs total b data → file_holds fs bs total a data.
Proof.
  intros Hs (H1 & H2 & H3). assert (Ha : 128 ≤ Z.of_nat (length a)) by (destruct Hs as [-> _]; done).
  split; [done|]. split; [rewrite (inode_word_same a b); [done..|lia]|]. intros k Hk Hlt.
  rewrite (ext2_map_atime fs bs a b), (inode_word_same a b) by (done || lia). by apply H3.
Qed.

(** Inode [n] is at [off] in block [t]. *)
Definition located fs (bs total isz n t off : Z) : Prop :=
  0 < n ∧ inode_place fs n = Ok (t, off) ∧ 0 ≤ t < total ∧ 0 ≤ off ∧ off + isz ≤ bs.

Definition disk_inode fs (bs isz t off : Z) : list Z := take (Z.to_nat isz) (drop (Z.to_nat off) (disk_block fs bs t)).

Definition coherent_inodes fs (bs total isz : Z) : Prop :=
  ∀ c, c ∈ e_inodes fs → ∃ t off, located fs bs total isz (ci_number c) t off ∧
    same_but_atime (ci_inode c) (disk_inode fs bs isz t off).

Definition coherent fs (bs total isz : Z) : Prop := coherent_blocks fs bs ∧ coherent_inodes fs bs total isz.

Lemma inode_place_same fs fs' n : same_disk fs fs' → inode_place fs' n = inode_place fs n.
Proof.
  intros (H1 & _ & H3). unfold inode_place, GROUP_FROM_INODE, INDEX_FROM_INODE, BLOCK_FROM_INDEX, BLOCK_SIZE. by rewrite H1, H3.
Qed.

Lemma located_same fs fs' bs total isz n t off :
  same_disk fs fs' → located fs bs total isz n t off → located fs' bs total isz n t off.
Proof. intros Hs (H1 & H2 & H3). split; [done|]. split; [by rewrite (inode_place_same fs)|done]. Qed.

Lemma disk_inode_same fs fs' bs isz t off : same_disk fs fs' → disk_inode fs' bs isz t off = disk_inode fs bs isz t off.
Proof. intros Hs. unfold disk_inode. by rewrite (disk_block_same fs fs'). Qed.

Lemma coherent_inodes_same fs fs' bs total isz :
  same_disk fs fs' → e_inodes fs' = e_inodes fs → coherent_inodes fs bs total isz → coherent_inodes fs' bs total isz.
Proof.
  intros Hs Hi Hc c Hin. rewrite Hi in Hin. destruct (Hc c Hin) as (t & off & Hl & Ha). exists t, off.
  split; [by apply (located_same fs)|by rewrite (disk_inode_same fs)].
Qed.

Lemma with_inodes_same fs l : same_disk fs (with_inodes fs l).
Proof. done. Qed.

Section inodes.
Context (fs : ext2 D) (bs total isz ipg n t off : Z).
Context (Hgeo : geometry fs bs total isz ipg) (Hc : coherent fs bs total isz) (Hl : located fs bs total isz n t off).

Lemma disk_inode_length : Z.of_nat (length (disk_inode fs bs isz t off)) = isz.
Proof.
  destruct Hgeo as [_ _ _ _ G5 G6 G7 _], Hl as (_ & _ & Ht & Ho & Ho2). unfold disk_inode.
  assert (Hb : Z.of_nat (length (disk_block fs bs t)) = bs) by (apply disk_block_length; [unfold on_disk; nia|lia]).
  rewrite length_take, length_drop. lia.
Qed.

Lemma cached_inode_ok c rest :
  find_cached ci_number (e_inodes fs) n = Some (c, rest) →
  ∃ ino fs', try_get_cached_inode now fs n = Ok (Some ino, fs') ∧ same_but_atime ino (disk_inode fs bs isz t off) ∧
    same_disk fs fs' ∧ coherent fs' bs total isz.
Proof.
  intros Hf. unfold try_get_cached_inode. rewrite Hf. destruct Hgeo as [_ _ G3 _ _ G6 _ _], Hc as [Hcb Hci].
  apply find_cached_some in Hf as [Hcn Hin]. destruct (Hci c) as (t' & off' & Hl' & Ha); [apply Hin; by left|].
  rewrite Hcn in Hl'. destruct Hl as (_ & Hp & _). pose proof Hl' as (_ & Hp' & _). rewrite Hp in Hp'. injection Hp' as <- <-.
  pose proof disk_inode_length as Hdl. pose proof Ha as (Hal & _).
  destruct (set_access_time_ok (ci_inode c) now) as (ino & E & Hino); [lia|]. pose proof Hino as (Hil & _).
  rewrite G3, bind_ok, E, bind_ok, slice_ok, bind_ok by lia. rewrite drop_0, take_ge by lia.
  assert (Hsame : same_but_atime ino (disk_inode fs bs isz t off)) by (by apply same_but_atime_trans with (ci_inode c)).
  eexists _, _. split; [done|]. split; [done|]. split; [done|]. split; [done|].
  intros c' Hc'. cbn [with_inodes e_inodes] in Hc'. apply elem_of_cons in Hc' as [->|Hc'].
  - by exists t, off.
  - apply Hci, Hin. by right.
Qed.

Lemma read_inode_ok :
  ∃ ino fs', read_inode fresh now fs n = Ok (Some ino, fs') ∧ same_but_atime ino (disk_inode fs bs isz t off) ∧
    same_disk fs fs' ∧ coherent fs' bs total isz.
Proof.
  pose proof Hl as (Hn & Hp & Ht & Ho & Ho2). pose proof Hgeo as [G1 _ G3 _ G5 G6 G7 _]. pose proof Hc as [Hcb Hci].
  unfold read_inode. rewrite (proj2 (Z.eqb_neq n 0)) by lia.
  destruct (find_cached ci_number (e_inodes fs) n) as [[c rest]|] eqn:Hf.
  { destruct (cached_inode_ok c rest Hf) as (ino & fs' & -> & Hsame & Hs & Hco). rewrite bind_ok. by exists ino, fs'. }
  unfold try_get_cached_inode. rewrite Hf, bind_ok, G1, bind_ok, Hp, bind_ok.
  destruct (read_block_ok fs bs total isz ipg t (fresh bs) Hgeo Hcb Ht) with (ra := 0) as (fs1 & -> & S1 & C1 & I1);
    [apply fresh_length; lia|lia|by exists 0|].
  assert (Hb : Z.of_nat (length (disk_block fs bs t)) = bs) by (apply disk_block_length; [unfold on_disk; nia|lia]).
  rewrite bind_ok. destruct (S1) as (Sb & _). rewrite Sb, G3, bind_ok, slice_ok, bind_ok by lia.
  fold (disk_inode fs bs isz t off). pose proof disk_inode_length as Hdl. unfold cache_inode. rewrite Sb, G3, bind_ok, slice_ok by lia.
  rewrite bind_ok, drop_0, take_ge by lia.
  destruct (set_access_time_ok (disk_inode fs bs isz t off) now) as (ino & E & Hino); [lia|]. rewrite E, !bind_ok.
  eexists _, _. split; [done|]. split; [done|]. split; [done|]. split; [done|].
  intros c Hin. cbn [with_inodes e_inodes] in Hin. apply push_cached_in in Hin as [->|Hin].
  - exists t, off. split; [by apply (located_same fs)|by rewrite (disk_inode_same fs)].
  - rewrite I1 in Hin. destruct (Hci c Hin) as (t' & off' & Hl' & Ha). exists t', off'.
    split; [by apply (located_same fs)|by rewrite (disk_inode_same fs)].
Qed.
End inodes.
End facts.
