(* ===== verification/Ext2Dir.v ===== *)
(** * ext2: reading files, listing directories, finding paths; what writing does

    The client-visible operations of ext2 on top of Ext2Facts. *)

From S2P Require Import Prelude.
From S2P Require Import Path.
From S2P Require Import Tar.
From S2P Require Import BlockDev.
From S2P Require Import Ext2.
From S2P Require Import Ext2Facts.

(** ** Directory records *)

Record dir_record := mk_dr { dr_inode : Z; dr_type : Z; dr_name : list Z; dr_pad : list Z }.

Definition dr_len (r : dir_record) : Z := 8 + Z.of_nat (length (dr_name r) + length (dr_pad r)).
Definition encode (r : dir_record) : list Z :=
  le_bytes 4 (dr_inode r) ++ le_bytes 2 (dr_len r) ++ [Z.of_nat (length (dr_name r))] ++ [dr_type r] ++ dr_name r ++ dr_pad r.
Definition dir_data (rs : list dir_record) : list Z := concat (encode <$> rs).

Definition good_record (r : dir_record) : Prop :=
  0 ≤ dr_inode r < 2 ^ 32 ∧ dr_len r < 2 ^ 16 ∧ (length (dr_name r) ≤ 255)%nat ∧ 0 ∉ dr_name r.

(** The records in use *)
Definition live_records (rs : list dir_record) : list dir_record := filter (λ r, dr_inode r ≠ 0) rs.

Section records.
Implicit Types (r : dir_record) (rs : list dir_record) (a b c l : list Z).

Lemma encode_length r : Z.of_nat (length (encode r)) = dr_len r.
Proof. unfold encode, dr_len. rewrite !length_app, !le_bytes_length. cbn [length]. lia. Qed.

Lemma slice_app a b c off n :
  off = Z.of_nat (length a) → n = Z.of_nat (length b) → slice (a ++ b ++ c) off n = Ok b.
Proof.
  intros -> ->. rewrite slice_ok by (rewrite ?length_app; lia). rewrite !Nat2Z.id. f_equal.
  by rewrite drop_app_length, take_app_length.
Qed.

Lemma field_app a b c off n :
  off = Z.of_nat (length a) → n = Z.of_nat (length b) → field (a ++ b ++ c) off n = Ok (le b).
Proof. intros Ho Hn. unfold field. by rewrite slice_app. Qed.

(** What the code reads of a record, whatever follows its name *)
Lemma record_fields r d tail :
  good_record r → d = take (8 + length (dr_name r)) (encode r) ++ tail →
  field d 0 4 = Ok (dr_inode r) ∧ field d 4 2 = Ok (dr_len r) ∧ field d 6 1 = Ok (Z.of_nat (length (dr_name r))) ∧
  slice d 8 (Z.of_nat (length (dr_name r))) = Ok (dr_name r).
Proof.
  intros (Hi & Hl & Hn & _) ->. assert (Hl0 : 0 ≤ dr_len r) by (unfold dr_len; lia).
  pose proof (le_bytes_length 4 (dr_inode r)) as L4. pose proof (le_bytes_length 2 (dr_len r)) as L2.
  pose proof (le_le_bytes 4 (dr_inode r) Hi) as V4. pose proof (le_le_bytes 2 (dr_len r) ltac:(cbn; lia)) as V2.
  unfold encode. set (w4 := le_bytes 4 _) in *. set (w2 := le_bytes 2 _) in *. clearbody w4 w2.
  assert (Htake : ∀ t, take (8 + length (dr_name r)) (w4 ++ w2 ++ [Z.of_nat (length (dr_name r))] ++ [dr_type r] ++ dr_name r ++ dr_pad r) ++ t
    = w4 ++ w2 ++ [Z.of_nat (length (dr_name r))] ++ [dr_type r] ++ dr_name r ++ t).
  { intros t. rewrite !(app_assoc _ _ (_ ++ _)). rewrite (app_assoc _ (dr_name r) (dr_pad r)).
    rewrite take_app_length' by (rewrite !length_app; cbn [length]; lia). rewrite <- !app_assoc. done. }
  rewrite Htake. split; [|split; [|split]].
  - etransitivity; [apply (field_app [] w4); cbn; lia|by rewrite V4].
  - rewrite (field_app w4 w2) by lia. by rewrite V2.
  - rewrite (app_assoc w4). rewrite (field_app (w4 ++ w2) [_]) by (rewrite ?length_app; cbn; lia). cbn [le]. f_equal. lia.
  - rewrite (app_assoc w4), (app_assoc (w4 ++ w2)), (app_assoc ((w4 ++ w2) ++ _)). apply slice_app; [|done].
    rewrite !length_app. cbn [length]. lia.
Qed.

Lemma splice_0 l a : (length a ≤ length l)%nat → splice l 0 a = Ok (a ++ drop (length a) l).
Proof. intros Hl. unfold splice. case_if; [lia|]. done. Qed.

Lemma name_string l : 0 ∉ l → c_string (l ++ [0]) = Ok l.
Proof.
  induction l as [|x l IH]; intros Hl; [done|]. cbn [app c_string]. apply not_elem_of_cons in Hl as [Hx Hl].
  rewrite (proj2 (Z.eqb_neq _ _)) by done. by rewrite IH.
Qed.
End records.

(** ** Reading *)

Section ext2_dir.
Context {D : Type} `{BlockDev D} `{!BlockReads D}.
Context (fresh : Z → list Z) (now : Z) (fresh_length : ∀ n, 0 ≤ n → Z.of_nat (length (fresh n)) = n).
Context (bs total isz ipg : Z).
Implicit Types (fs : ext2 D) (n : Z).

(** Inode [n] is on the disk and holds [data] there. *)
Definition inode_holds fs n (data : list Z) : Prop :=
  ∃ t off, located fs bs total isz n t off ∧ file_holds fs bs total (disk_inode fs bs isz t off) data.

(** Its mode word *)
Definition inode_mode fs n (m : Z) : Prop :=
  ∃ t off, located fs bs total isz n t off ∧ field (disk_inode fs bs isz t off) 0 2 = Ok m.

Lemma inode_holds_same fs fs' n data : same_disk fs fs' → inode_holds fs n data → inode_holds fs' n data.
Proof.
  intros Hs (t & off & Hl & Hf). exists t, off. split; [by apply (located_same fs)|].
  rewrite (disk_inode_same fs) by done. by apply (file_holds_same fs).
Qed.

Lemma inode_mode_same fs fs' n m : same_disk fs fs' → inode_mode fs n m → inode_mode fs' n m.
Proof.
  intros Hs (t & off & Hl & Hf). exists t, off. split; [by apply (located_same fs)|]. by rewrite (disk_inode_same fs).
Qed.

(** The file system as this section sees it: its geometry, and caches that copy the disk *)
Definition ext2_ok fs : Prop := geometry fs bs total isz ipg ∧ coherent fs bs total isz.

Lemma read_inode_holds fs n data :
  ext2_ok fs → inode_holds fs n data →
  ∃ ino fs1, read_inode fresh now fs n = Ok (Some ino, fs1) ∧ same_disk fs fs1 ∧ ext2_ok fs1 ∧
    file_holds fs1 bs total ino data ∧ (∀ m, inode_mode fs n m → i_perms ino = Ok m).
Proof.
  intros [Hg Hc] (t & off & Hl & Hf).
  destruct (read_inode_ok fresh now fresh_length fs bs total isz ipg n t off Hg Hc Hl) as (ino & fs1 & E & Ha & Hs & Hc1).
  exists ino, fs1. split; [done|]. split; [done|]. split; [split; [by apply (geometry_same fs)|done]|]. split.
  - apply (file_holds_atime fs1 bs total ino (disk_inode fs bs isz t off)); [done|by apply (file_holds_same fs)].
  - intros m (t' & off' & Hl' & Hm). destruct Hl as (_ & Hp & _), Hl' as (_ & Hp' & _). rewrite Hp in Hp'. injection Hp' as <- <-.
    unfold i_perms. rewrite <- Hm. apply field_same; [done|lia|lia|lia].
Qed.

Lemma contents_ok fs ino data offset size :
  ext2_ok fs → file_holds fs bs total ino data → Z.of_nat (length data) ≤ bs / 4 * bs →
  0 ≤ offset → 0 ≤ size → offset + size < 2 ^ 32 →
  ∃ fs1, read_inode_contents fresh now fs ino offset size = Ok (take (Z.to_nat size) (drop (Z.to_nat offset) data), fs1) ∧
    same_disk fs fs1 ∧ ext2_ok fs1.
Proof.
  intros [Hg [Hcb Hci]] Hf Hmax Hoff Hsize Hsum.
  destruct (read_contents_ok fresh now fresh_length bs total isz ipg ino data fs offset size) as (fs1 & E & Hs & Hc1 & Hi1); try done.
  exists fs1. split; [done|]. split; [done|]. split; [by apply (geometry_same fs)|]. split; [done|].
  by apply (coherent_inodes_same fs).
Qed.

(** C11: Whatever the caches hold, reading a file gives the bytes the disk has for it in the
    layout of ext2, from the offset on and up to its end, for files of at most as many
    blocks as a block holds pointers; reading changes nothing but the caches, and they
    stay copies of the disk. *)
Theorem ext2_read_exact fs n data offset size :
  ext2_ok fs → inode_holds fs n data → Z.of_nat (length data) ≤ bs / 4 * bs →
  0 ≤ offset → 0 < size → offset + size < 2 ^ 32 →
  let part := take (Z.to_nat size) (drop (Z.to_nat offset) data) in
  ∃ fs', ext2_read fresh now fs n offset size = Ok (Z.of_nat (length part), part, fs') ∧ same_disk fs fs' ∧ ext2_ok fs'.
Proof.
  intros Hok Hh Hmax Hoff Hsize Hsum part. unfold ext2_read. rewrite (proj2 (Z.eqb_neq size 0)) by lia.
  destruct (read_inode_holds fs n data Hok Hh) as (ino & fs1 & -> & Hs1 & Hok1 & Hf1 & _). rewrite bind_ok.
  destruct (contents_ok fs1 ino data offset size Hok1 Hf1) as (fs2 & -> & Hs2 & Hok2); try done; [lia|].
  rewrite bind_ok. exists fs2. split; [done|]. split; [by apply same_disk_trans with fs1|done].
Qed.

(** ** Listing a directory *)

Lemma dir_chunk (r : dir_record) rs :
  good_record r → ∃ tail, take (Z.to_nat EXT2_DIRENT_SIZE) (dir_data (r :: rs)) = take (8 + length (dr_name r)) (encode r) ++ tail.
Proof.
  intros (_ & _ & Hn & _). unfold dir_data. cbn [fmap list_fmap concat]. eexists.
  rewrite <- (take_drop (8 + length (dr_name r)) (encode r)) at 1. rewrite <- app_assoc, take_app_ge.
  - f_equal.
  - rewrite length_take. unfold EXT2_DIRENT_SIZE. lia.
Qed.

Lemma readdir_loop_ok fuel fs ino pre rs dirent cur index :
  ext2_ok fs → file_holds fs bs total ino (pre ++ dir_data rs) → Z.of_nat (length (pre ++ dir_data rs)) ≤ bs / 4 * bs →
  Z.of_nat (length (pre ++ dir_data rs)) < 2 ^ 31 → Forall good_record rs →
  Z.of_nat (length dirent) = EXT2_DIRENT_SIZE → 0 ≤ cur ≤ index → cur + Z.of_nat (length rs) < 2 ^ 32 → (length rs < fuel)%nat →
  ∃ o fs1, readdir_loop fresh now fuel fs ino dirent (Z.of_nat (length pre)) cur index = Ok (o, fs1) ∧ same_disk fs fs1 ∧ ext2_ok fs1 ∧
    match live_records rs !! Z.to_nat (index - cur) with
    | Some r => ∃ tail, o = Some (take (8 + length (dr_name r)) (encode r) ++ tail) ∧ good_record r
    | None => o = None
    end.
Proof.
  revert fs pre rs dirent cur. induction fuel as [|fuel IH]; intros fs pre rs dirent cur Hok Hf Hmax Hlt Hg Hd Hcur Hroom Hfuel; [lia|].
  pose proof Hf as (Hi & Hsz & _). cbn [readdir_loop]. unfold i_size_low. rewrite inode_field, bind_ok, Hsz by lia.
  destruct rs as [|r rs].
  { cbn [dir_data fmap list_fmap concat]. rewrite app_nil_r, (proj2 (Z.leb_le _ _)) by lia. by exists None, fs. }
  apply Forall_cons in Hg as [Hr Hg]. pose proof Hr as (Hri & Hrl & _). pose proof (encode_length r) as Hel.
  assert (Hsplit : pre ++ dir_data (r :: rs) = (pre ++ encode r) ++ dir_data rs) by (unfold dir_data; cbn [fmap list_fmap concat]; by rewrite <- app_assoc).
  assert (Hl0 : 8 ≤ dr_len r) by (unfold dr_len; lia).
  assert (Hplen : Z.of_nat (length (pre ++ dir_data (r :: rs))) = Z.of_nat (length pre) + dr_len r + Z.of_nat (length (dir_data rs))).
  { rewrite Hsplit, !length_app. lia. }
  rewrite (proj2 (Z.leb_gt _ _)) by lia.
  destruct (contents_ok fs ino _ (Z.of_nat (length pre)) EXT2_DIRENT_SIZE Hok Hf) as (fs1 & -> & Hs1 & Hok1);
    [done|lia|unfold EXT2_DIRENT_SIZE; lia|unfold EXT2_DIRENT_SIZE; lia|].
  rewrite bind_ok, Nat2Z.id, drop_app_length. destruct (dir_chunk r rs Hr) as [tail Ht].
  set (chunk := take (Z.to_nat EXT2_DIRENT_SIZE) (dir_data (r :: rs))) in *.
  assert (Hcl : Z.of_nat (length chunk) ≤ EXT2_DIRENT_SIZE) by (unfold chunk, EXT2_DIRENT_SIZE; rewrite length_take; lia).
  rewrite splice_0, bind_ok, Ht, <- app_assoc by lia. set (rest := tail ++ _).
  destruct (record_fields r _ rest Hr eq_refl) as (F0 & F4 & _). rewrite F0, bind_ok.
  assert (Hnext : ∀ cur', cur' = cur + (if truthy (dr_inode r) then 1 else 0) → cur' ≤ index →
    live_records (r :: rs) !! Z.to_nat (index - cur) = live_records rs !! Z.to_nat (index - cur') →
    ∃ o fs2, readdir_loop fresh now fuel fs1 ino (take (8 + length (dr_name r)) (encode r) ++ rest)
        (u32 (Z.of_nat (length pre) + dr_len r)) cur' index = Ok (o, fs2) ∧ same_disk fs fs2 ∧ ext2_ok fs2 ∧
      match live_records (r :: rs) !! Z.to_nat (index - cur) with
      | Some r' => ∃ tail, o = Some (take (8 + length (dr_name r')) (encode r') ++ tail) ∧ good_record r'
      | None => o = None
      end).
  { intros cur' Hc' Hle Hlive. rewrite u32_small by lia.
    replace (Z.of_nat (length pre) + dr_len r) with (Z.of_nat (length (pre ++ encode r))) by (rewrite length_app; lia).
    rewrite Hsplit in *. cbn [length] in *.
    destruct (IH fs1 (pre ++ encode r) rs (take (8 + length (dr_name r)) (encode r) ++ rest) cur') as (o & fs2 & E & Hs2 & Hok2 & Ho);
      try done; [by apply (file_holds_same fs)| |destruct (truthy _); lia|destruct (truthy _); lia|lia|].
    { unfold rest. rewrite app_assoc, <- Ht, length_app, length_drop. lia. }
    exists o, fs2. split; [done|]. split; [by apply same_disk_trans with fs1|]. split; [done|]. by rewrite Hlive. }
  unfold live_records in Hnext |- *. destruct (truthy (dr_inode r)) eqn:Hlive; breflect; cbn [andb].
  - rewrite filter_cons_True in * by done. destruct (Z.eqb_spec index cur) as [->|Hne].
    + rewrite Z.sub_diag. exists (Some (take (8 + length (dr_name r)) (encode r) ++ rest)), fs1. do 3 (split; [done|]). by exists rest.
    + rewrite F4, bind_ok, (u32_small (cur + 1)) by (cbn [length] in *; lia). apply Hnext; [done|lia|].
      replace (Z.to_nat (index - cur)) with (S (Z.to_nat (index - (cur + 1)))) by lia. done.
  - rewrite filter_cons_False in * by (intros Hn; done). rewrite F4, bind_ok. apply Hnext; [lia|lia|done].
Qed.

(** Inode [n] is a directory of the records [rs]. *)
Definition directory fs n rs : Prop :=
  inode_holds fs n (dir_data rs) ∧ Z.of_nat (length (dir_data rs)) ≤ bs / 4 * bs ∧
  Z.of_nat (length (dir_data rs)) < 2 ^ 31 ∧ Forall good_record rs ∧ Z.of_nat (length rs) < 2 ^ 31 ∧
  ∃ m, inode_mode fs n m ∧ Z.land m EXT2_DIR ≠ 0.

Lemma directory_same fs fs' n rs : same_disk fs fs' → directory fs n rs → directory fs' n rs.
Proof.
  intros Hs (H1 & H2 & H3 & H4 & H5 & m & H6 & H7). split; [by apply (inode_holds_same fs)|]. do 4 (split; [done|]).
  exists m. split; [by apply (inode_mode_same fs)|done].
Qed.

Definition entry_of (r : dir_record) : list Z * Z := (dr_name r, dr_inode r).

Lemma readdir_ok fs n rs index fuel :
  ext2_ok fs → directory fs n rs → 0 ≤ index → (length rs < fuel)%nat →
  ∃ fs', ext2_readdir fresh now fuel fs n index = Ok (entry_of <$> live_records rs !! Z.to_nat index, fs') ∧ same_disk fs fs' ∧ ext2_ok fs'.
Proof.
  intros Hok (Hh & Hmax & Hlt & Hg & Hn & m & Hm & Hdir) Hidx Hfuel. unfold ext2_readdir.
  destruct (read_inode_holds fs n _ Hok Hh) as (ino & fs1 & -> & Hs1 & Hok1 & Hf1 & Hp1). rewrite bind_ok.
  rewrite (Hp1 m Hm), bind_ok, (proj2 (truthy_true _)) by done. cbn [negb].
  destruct (readdir_loop_ok fuel fs1 ino [] rs (fresh EXT2_DIRENT_SIZE) 0 index Hok1 Hf1 Hmax Hlt Hg) as (o & fs2 & E & Hs2 & Hok2 & Ho);
    [by apply fresh_length|lia|lia|done|].
  change (Z.of_nat (length [])) with 0 in E. rewrite E, bind_ok. rewrite Z.sub_0_r in Ho.
  assert (Hs : same_disk fs fs2) by (by apply same_disk_trans with fs1).
  destruct (live_records rs !! Z.to_nat index) as [r|]; [|subst o; by exists fs2].
  destruct Ho as (tail & -> & Hr). destruct (record_fields r _ tail Hr eq_refl) as (F0 & _ & F6 & Fn).
  rewrite F6, bind_ok, Fn, bind_ok, name_string, bind_ok, F0, bind_ok by apply Hr. by exists fs2.
Qed.

(** Listing a directory gives its records in use, in the order of the disk: the entry
    of an index is the record of that index among them, and behind the last one there is
    none. *)
Theorem ext2_lists_directory fs n rs index fuel :
  ext2_ok fs → directory fs n rs → 0 ≤ index → (length rs < fuel)%nat →
  ∃ fs', ext2_readdir fresh now fuel fs n index = Ok (entry_of <$> live_records rs !! Z.to_nat index, fs') ∧ same_disk fs fs' ∧ ext2_ok fs'.
Proof. apply readdir_ok. Qed.

(** ** Finding *)

(** The inode of a name: that of the first record in use *)
Definition dir_lookup (rs : list dir_record) (name : list Z) : option Z :=
  dr_inode <$> head (filter (λ r, dr_name r = name) (live_records rs)).

Lemma ext2_find_entry_ok fs n rs folder index fuel rfuel :
  ext2_ok fs → directory fs n rs → (length rs < rfuel)%nat → (index ≤ length (live_records rs))%nat →
  (length (live_records rs) < index + fuel)%nat →
  ∃ fs', ext2_find_entry fresh now fuel rfuel fs n (Z.of_nat index) folder =
    Ok (entry_of <$> head (filter (λ r, dr_name r = folder) (drop index (live_records rs))), fs') ∧ same_disk fs fs' ∧ ext2_ok fs'.
Proof.
  revert fs index. induction fuel as [|fuel IH]; intros fs index Hok Hd Hrf Hle Hf; [lia|]. cbn [ext2_find_entry].
  destruct (readdir_ok fs n rs (Z.of_nat index) rfuel Hok Hd) as (fs1 & -> & Hs1 & Hok1); [lia|done|]. rewrite bind_ok, Nat2Z.id.
  destruct (live_records rs !! index) as [r|] eqn:Hr.
  - rewrite (drop_S _ r) by done. cbn [fmap option_fmap option_map entry_of]. case_bool_decide as Hn.
    + rewrite filter_cons_True by done. by exists fs1.
    + rewrite filter_cons_False by done. apply lookup_lt_Some in Hr as Hlt.
      destruct (IH fs1 (S index) Hok1 (directory_same _ _ _ _ Hs1 Hd) Hrf) as (fs2 & E & Hs2 & Hok2); [lia|lia|].
      rewrite Nat2Z.inj_succ in E. unfold Z.succ in E. rewrite E. exists fs2. split; [done|]. split; [|done].
      by apply same_disk_trans with fs1.
  - rewrite drop_ge by (by apply lookup_ge_None). by exists fs1.
Qed.

(** A walk through directories from [node] along the names [l] to [node']; [fuel] is more
    than the number of records of each of them. *)
Inductive ext2_walk fs (fuel : nat) : ext2_node → list (list Z) → ext2_node → Prop :=
| walk_end node : ext2_walk fs fuel node [] node
| walk_into node rs name l k data md node' :
    directory fs (en_inode node) rs → (length rs < fuel)%nat → dir_lookup rs name = Some k →
    inode_holds fs k data → inode_mode fs k md → (length name < 256)%nat →
    ext2_walk fs fuel (mk_en name k (Z.of_nat (length data)) (truthy (Z.land md EXT2_DIR))) l node' →
    ext2_walk fs fuel node (name :: l) node'.

Lemma ext2_walk_same fs fs' fuel node l node' : same_disk fs fs' → ext2_walk fs fuel node l node' → ext2_walk fs' fuel node l node'.
Proof.
  intros Hs. induction 1 as [|node rs name l k data md node' Hd Hl Hk Hi Hm Hn _ IH]; [constructor|].
  econstructor; [by apply (directory_same fs)|done|done|by apply (inode_holds_same fs)|by apply (inode_mode_same fs)|done|done].
Qed.

Lemma from_inode_ok fs name k data md :
  ext2_ok fs → inode_holds fs k data → inode_mode fs k md → (length name < 256)%nat →
  ∃ fs', ext2_from_inode fresh now fs name k = Ok (mk_en name k (Z.of_nat (length data)) (truthy (Z.land md EXT2_DIR)), fs') ∧
    same_disk fs fs' ∧ ext2_ok fs'.
Proof.
  intros Hok Hi Hm Hn. unfold ext2_from_inode. destruct (read_inode_holds fs k data Hok Hi) as (ino & fs1 & -> & Hs1 & Hok1 & Hf1 & Hp1).
  rewrite bind_ok, (proj2 (Z.leb_gt _ _)) by lia. cbn [of_option]. rewrite bind_ok. unfold i_size_low. pose proof Hf1 as (Hil & Hsz & _).
  rewrite inode_field, bind_ok, (Hp1 md Hm), bind_ok, Hsz by lia. by exists fs1.
Qed.

(** One segment of a path: the entry is found and its node made, or it is not there. *)
Lemma find_lookup fs n rs name fuel :
  ext2_ok fs → directory fs n rs → (length rs < fuel)%nat →
  ∃ fs' o, ext2_find_entry fresh now fuel fuel fs n 0 name = Ok (o, fs') ∧ same_disk fs fs' ∧ ext2_ok fs' ∧
    match dir_lookup rs name with Some k => o = Some (name, k) | None => o = None end.
Proof.
  intros Hok Hd Hf. assert (Hll : (length (live_records rs) ≤ length rs)%nat) by apply length_filter.
  destruct (ext2_find_entry_ok fs n rs name 0 fuel fuel Hok Hd) as (fs1 & E & Hs1 & Hok1); [lia|lia|lia|].
  change (Z.of_nat 0) with 0 in E. rewrite drop_0 in E. eexists fs1, _. split; [exact E|]. split; [done|]. split; [done|].
  unfold dir_lookup. destruct (filter (λ r, dr_name r = name) (live_records rs)) as [|r rest] eqn:Hr; [done|]. cbn.
  assert (Hin : r ∈ filter (λ r, dr_name r = name) (live_records rs)) by (rewrite Hr; by left).
  apply list_elem_of_filter in Hin as [Hn _]. unfold entry_of. by rewrite Hn.
Qed.

Section finding.
Context (p : list Z) (full : list (list Z)) (fuel : nat).
Context (Hgood : Forall good_seg full) (Hp : p = join_slash full ∨ p = abs_path full).

Lemma finddir_loop_ok l fs node node' pre :
  ext2_ok fs → full = pre ++ l → ext2_walk fs fuel node l node' →
  ∃ fs', finddir_loop fresh now fuel (length l) (length pre) fs node p = Ok (Some node', fs') ∧ same_disk fs fs' ∧ ext2_ok fs'.
Proof.
  revert fs node pre. induction l as [|name l IH]; intros fs node pre Hok Hfull Hw; inversion Hw as [|? rs ? ? k data md ? Hd Hl Hk Hi Hm Hn Hw']; subst.
  { cbn. by exists fs. }
  cbn [length finddir_loop]. rewrite (segment_joined (pre ++ name :: l) (length pre) name p Hgood) by (done || by apply list_lookup_middle).
  rewrite bind_ok. cbn [of_option]. rewrite bind_ok.
  destruct (find_lookup fs (en_inode node) rs name fuel Hok Hd Hl) as (fs1 & o & -> & Hs1 & Hok1 & Ho). rewrite Hk in Ho. subst o.
  rewrite bind_ok. destruct (from_inode_ok fs1 name k data md Hok1) as (fs2 & -> & Hs2 & Hok2);
    [by apply (inode_holds_same fs)|by apply (inode_mode_same fs)|done|].
  rewrite bind_ok. assert (Hs : same_disk fs fs2) by (by apply same_disk_trans with fs1).
  destruct (IH fs2 (mk_en name k (Z.of_nat (length data)) (truthy (Z.land md EXT2_DIR))) (pre ++ [name]) Hok2) as (fs3 & E & Hs3 & Hok3); [by rewrite <- app_assoc|by apply (ext2_walk_same fs)|].
  rewrite (length_app pre), Nat.add_1_r in E. exists fs3. split; [done|]. split; [by apply same_disk_trans with fs2|done].
Qed.

Lemma finddir_loop_none l1 x l2 fs node node' pre rs :
  ext2_ok fs → full = pre ++ l1 ++ x :: l2 → ext2_walk fs fuel node l1 node' →
  directory fs (en_inode node') rs → (length rs < fuel)%nat → dir_lookup rs x = None →
  ∃ fs', finddir_loop fresh now fuel (length (l1 ++ x :: l2)) (length pre) fs node p = Ok (None, fs') ∧ same_disk fs fs' ∧ ext2_ok fs'.
Proof.
  revert fs node pre. induction l1 as [|name l IH]; intros fs node pre Hok Hfull Hw Hd Hl Hx.
  - inversion Hw; subst. cbn [length app finddir_loop].
    rewrite (segment_joined (pre ++ x :: l2) (length pre) x p Hgood) by (done || by apply list_lookup_middle).
    rewrite bind_ok. cbn [of_option]. rewrite bind_ok.
    destruct (find_lookup fs (en_inode node') rs x fuel Hok Hd Hl) as (fs1 & o & -> & Hs1 & Hok1 & Ho). rewrite Hx in Ho. subst o.
    rewrite bind_ok. by exists fs1.
  - inversion Hw as [|? rs0 ? ? k data md ? Hd0 Hl0 Hk Hi Hm Hn Hw']; subst. cbn [length app finddir_loop].
    rewrite (segment_joined (pre ++ name :: l ++ x :: l2) (length pre) name p Hgood) by (done || by apply list_lookup_middle).
    rewrite bind_ok. cbn [of_option]. rewrite bind_ok.
    destruct (find_lookup fs (en_inode node) rs0 name fuel Hok Hd0 Hl0) as (fs1 & o & -> & Hs1 & Hok1 & Ho). rewrite Hk in Ho. subst o.
    rewrite bind_ok. destruct (from_inode_ok fs1 name k data md Hok1) as (fs2 & -> & Hs2 & Hok2);
      [by apply (inode_holds_same fs)|by apply (inode_mode_same fs)|done|].
    rewrite bind_ok. assert (Hs : same_disk fs fs2) by (by apply same_disk_trans with fs1).
    destruct (IH fs2 (mk_en name k (Z.of_nat (length data)) (truthy (Z.land md EXT2_DIR))) (pre ++ [name]) Hok2) as (fs3 & E & Hs3 & Hok3);
      [by rewrite <- app_assoc|by apply (ext2_walk_same fs)|by apply (directory_same fs)|done|done|].
    rewrite (length_app pre), Nat.add_1_r in E. exists fs3. split; [done|]. split; [by apply same_disk_trans with fs2|done].
Qed.
End finding.

Lemma walk_last fs fuel node l node' : ext2_walk fs fuel node l node' → l ≠ [] → last l = Some (en_name node').
Proof.
  induction 1 as [|node rs name l k data md node' Hd Hl Hk Hi Hm Hn Hw IH]; [done|]. intros _.
  destruct l as [|y l]; [by inversion Hw|]. rewrite last_cons, IH by done. done.
Qed.

(** C31: A path is found segment by segment: the answer is the node of the inode that the
    walk through the directories on the disk ends at, and there is none as soon as a
    directory on the way has no record in use of the name. *)
Theorem ext2_finds_path fs root l p fuel :
  ext2_ok fs → Forall good_seg l → l ≠ [] → p = join_slash l ∨ p = abs_path l →
  (∀ node, ext2_walk fs fuel root l node →
    ∃ fs', ext2_finddir fresh now fuel fs root p = Ok (Some node, fs') ∧ same_disk fs fs' ∧ ext2_ok fs') ∧
  (∀ l1 x l2 node rs, l = l1 ++ x :: l2 → ext2_walk fs fuel root l1 node → directory fs (en_inode node) rs →
    (length rs < fuel)%nat → dir_lookup rs x = None →
    ∃ fs', ext2_finddir fresh now fuel fs root p = Ok (None, fs') ∧ same_disk fs fs' ∧ ext2_ok fs').
Proof.
  intros Hok Hg Hne Hp. assert (Hlen : k_util_path_length p = Ok (Z.of_nat (length l))).
  { destruct (path_length_joined l Hg Hne). by destruct Hp as [-> | ->]. }
  unfold ext2_finddir. rewrite Hlen, bind_ok, Nat2Z.id. split.
  - intros node Hw. destruct (finddir_loop_ok p l fuel Hg Hp l fs root node []) as (fs1 & E & Hs1 & Hok1); [done|done|done|].
    cbn [length] in E. rewrite E, bind_ok, (filename_joined l), bind_ok, (walk_last _ _ _ _ _ Hw Hne) by done. cbn [of_option]. rewrite bind_ok.
    rewrite bool_decide_eq_true_2 by done. by exists fs1.
  - intros l1 x l2 node rs -> Hw Hd Hl Hx.
    destruct (finddir_loop_none p (l1 ++ x :: l2) fuel Hg Hp l1 x l2 fs root node [] rs) as (fs1 & E & Hs1 & Hok1); try done.
    cbn [length] in E. rewrite E, bind_ok. by exists fs1.
Qed.

(** ** Where an inode is *)

(** The place the code computes for an inode is the one of the layout: the inodes of a
    group lie one after the other from the first block of its table, and none of them
    crosses the end of a block if the size of an inode divides that of a block. *)
Theorem inode_address fs n table :
  ext2_ok fs → (isz | bs) → 0 < ipg < 2 ^ 24 → 0 < n < 2 ^ 32 → isz < 256 →
  bgd_inode_table (e_bgds fs) ((n - 1) / ipg) = Ok table → 0 ≤ table < total →
  ∃ t off, inode_place fs n = Ok (t, off) ∧
    t * bs + off = table * bs + (n - 1) mod ipg * isz ∧ table ≤ t ∧ 0 ≤ off ∧ off + isz ≤ bs.
Proof.
  intros [[G1 G2 G3 G4 G5 G6 G7 _] _] [q Hq] Hipg Hn Hisz Htab Htot. destruct (bs_props bs G5) as [Hbs _].
  unfold inode_place, GROUP_FROM_INODE, INDEX_FROM_INODE, BLOCK_FROM_INDEX, udiv, umod.
  rewrite G1, G4, !bind_ok, (proj2 (Z.eqb_neq ipg 0)), bind_ok by lia. rewrite (u32_small (n - 1)), Htab, bind_ok by lia.
  rewrite bind_ok, G3, !bind_ok, (proj2 (Z.eqb_neq isz 0)), bind_ok by lia.
  set (i := (n - 1) mod ipg). assert (Hi : 0 ≤ i < ipg) by (apply Z.mod_pos_bound; lia).
  rewrite (u32_small (i * isz)) by nia. assert (Hq0 : 0 < q) by nia.
  assert (Hper : bs / isz = q) by (rewrite Hq; apply Z.div_mul; lia). rewrite Hper.
  assert (Hblk : i * isz / bs = i / q) by (rewrite Hq; apply Z.div_mul_cancel_r; lia). rewrite Hblk.
  pose proof (Z.div_mod i q ltac:(lia)) as Hdm. pose proof (Z.mod_pos_bound i q ltac:(lia)) as Hmb.
  assert (Hb0 : 0 ≤ i / q ≤ i) by (split; [apply Z.div_pos; lia|apply Z.div_le_upper_bound; nia]).
  replace (i - i / q * q) with (i mod q) by lia.
  assert (Hoff : i mod q * isz + isz ≤ bs) by nia.
  rewrite (u32_small (i mod q)), (u32_small (i mod q * isz)), (u32_small (table + i / q)) by nia.
  eexists _, _. split; [done|]. split; [nia|]. lia.
Qed.
End ext2_dir.

(** ** Large files *)

Section large.
Context {D : Type} `{BlockDev D} `{!BlockReads D}.
Context (fresh : Z → list Z) (now : Z) (fresh_length : ∀ n, 0 ≤ n → Z.of_nat (length (fresh n)) = n).
Context (bs total isz ipg : Z).
Implicit Types (fs : ext2 D).

(** The number of direct blocks is subtracted once more behind the double-indirect
    block: the first twelve blocks of every table there are looked up in front of the
    table.  The first of them is block [bs / 4] of the file, which a file has from
    256 KiB on with blocks of 1 KiB. *)
Theorem ext2_double_indirect_gap fs ino b :
  ext2_ok bs total isz ipg fs → 128 ≤ Z.of_nat (length ino) → bs / 4 ≤ b < bs / 4 * (bs / 4) → (b - bs / 4) mod (bs / 4) < 12 →
  pointers_ok fs bs total ino b → block_from_offset fresh now fs ino b = Fault.
Proof.
  intros [Hg [Hc _]] Hi Hb Hm [_ Hp]. destruct Hp as [Hd Ht]; [lia|]. pose proof Hg as [G1 G2 _ _ G5 _ G7 _].
  destruct (bs_quarter bs G5) as [Hq1 Hq2]. unfold block_from_offset. rewrite G1, bind_ok.
  unfold i_indirect_s, i_indirect_d, i_indirect_t. rewrite (inode_field ino 88), (inode_field ino 92), (inode_field ino 96), !bind_ok by lia.
  unfold DIRECT_BLOCK_CAPACITY. rewrite (u32_small (bs / 4 * (bs / 4))) by nia.
  rewrite (proj2 (Z.ltb_ge b 12)), (proj2 (Z.ltb_ge b (bs / 4))) by lia. cbn [andb].
  rewrite (proj2 (Z.ltb_lt _ _)), (proj2 (truthy_true _)) by lia. cbn [andb].
  destruct (resolve_double_eq fresh now fresh_length fs bs total isz ipg Hg Hc (inode_word ino 92) b Hd Hb) as (fs1 & Hs1 & Hc1 & Hi1 & ->).
  apply (resolve_single_fault fresh now fresh_length fs1 bs total isz ipg); [by apply (geometry_same fs)|done|done|].
  pose proof (Z.mod_pos_bound (b - bs / 4) (bs / 4)). lia.
Qed.
End large.
