(* ===== verification/Ext2Write.v ===== *)
(** * ext2: what writing does, mounting, and an example image

    Writing a file hands its blocks to the device at the offsets of the file, not of its
    blocks;
    allocating twice hands out the same block, because the bitmap is written to the device
    and read from the cache; mounting reads one block of group descriptors.  The small
    image at the end is what the statements about reading are tried on. *)

From S2P Require Import Prelude.
From S2P Require Import Path.
From S2P Require Import Tar.
From S2P Require Import BlockDev.
From S2P Require Import Ext2.
From S2P Require Import Ext2Facts.
From S2P Require Import Ext2Dir.

Section write.
Context {D : Type} `{BlockDev D} `{!BlockReads D} `{!BlockWriter D} `{!BlockWrites D}.
Context (fresh : Z → list Z) (now : Z) (fresh_length : ∀ n, 0 ≤ n → Z.of_nat (length (fresh n)) = n).
Context (bs total isz ipg : Z).
Implicit Types (fs : ext2 D).

Lemma with_dev_place fs d n : inode_place (with_dev fs d) n = inode_place fs n.
Proof. done. Qed.

Lemma count_blocks_ok k i ino :
  0 ≤ i → i + Z.of_nat k ≤ 12 → 128 ≤ Z.of_nat (length ino) → ∃ c, count_blocks k i ino = Ok c ∧ 0 ≤ c.
Proof.
  revert i. induction k as [|k IH]; intros i Hi Hk Hl; cbn [count_blocks]; [by exists 0|]. unfold i_block_pointer.
  rewrite inode_field, bind_ok by lia. case_if; [by exists 0|]. destruct (IH (i + 1)) as (c & -> & Hc); [lia..|].
  rewrite bind_ok. exists (c + 1). split; [done|lia].
Qed.

(** Writing a file hands its bytes to the device at the file's offset from the start of the
    device: for less than a block at the beginning of any file, a block that starts with the
    bytes goes to the offset 0 of the device, where the boot code and the superblock are. *)
Theorem ext2_write_misplaced fs n t off data node_size buffer :
  ext2_ok bs total isz ipg fs → located fs bs total isz n t off → file_holds fs bs total (disk_inode fs bs isz t off) data →
  Z.of_nat (length data) ≤ bs / 4 * bs → 0 < node_size → 0 < Z.of_nat (length buffer) < bs →
  ∃ ino fs2 block, same_disk fs fs2 ∧ take (length buffer) block = buffer ∧ Z.of_nat (length block) = bs ∧
    ext2_write fresh now fs n node_size 0 buffer =
    ('(r, d) ← dev_write (e_dev fs2) 0 block; fs4 ← write_inode (with_dev fs2 d) n ino; Ok (u32 r, fs4)).
Proof.
  intros [Hg Hc] Hl Hf Hmax Hns Hbuf. unfold ext2_write. rewrite (proj2 (Z.leb_gt _ _)) by lia.
  destruct (read_inode_ok fresh now fresh_length fs bs total isz ipg n t off Hg Hc Hl) as (ino & fs1 & -> & Ha & Hs1 & Hc1).
  assert (Hil : Z.of_nat (length ino) = isz) by (destruct Ha as [-> _]; by apply (disk_inode_length fs bs total isz ipg n t off)).
  assert (Hg1 : geometry fs1 bs total isz ipg) by (by apply (geometry_same fs)).
  pose proof Hg1 as [G1 _ _ _ G5 G6 G7 _]. destruct (bs_props bs G5) as [Hbs _]. rewrite bind_ok, G1, bind_ok.
  destruct (count_blocks_ok (Z.to_nat 12) 0 ino) as (c & Hcnt & Hc0); [done|done|lia|]. unfold count_allocated_blocks, DIRECT_BLOCK_CAPACITY.
  cbv zeta. rewrite Hcnt, bind_ok, (Z.div_small 0 bs), (Z.div_small (Z.of_nat (length buffer)) bs), Z.mod_0_l by lia.
  rewrite (proj2 (Z.ltb_ge c 0)), bind_ok by lia. change (0 - b2z (0 <? 0)) with 0. change (u32 0) with 0. rewrite Z.mul_0_l. change (u32 0) with 0.
  rewrite (Z.sub_0_r bs), Z.eqb_refl, !Z.sub_0_r, (u32_small (Z.of_nat (length buffer))), (proj2 (Z.ltb_lt 0 (Z.of_nat _))) by lia.
  change (u32 (0 + b2z true + b2z (0 <? 0))) with 1. rewrite Z.mul_1_l, (u32_small bs) by lia.
  destruct (contents_ok fresh now fresh_length bs total isz ipg fs1 ino data 0 bs) as (fs2 & -> & Hs2 & [Hg2 _]); try done; try lia.
  { apply (file_holds_atime fs1 bs total ino (disk_inode fs bs isz t off)); [done|by apply (file_holds_same fs)]. }
  rewrite bind_ok. pose proof (fresh_length bs ltac:(lia)) as Hfl. rewrite splice_0, bind_ok by (rewrite length_take; lia).
  set (internal := _ ++ _). assert (Hint : Z.of_nat (length internal) = bs).
  { unfold internal. rewrite length_app, length_drop, length_take. lia. }
  rewrite splice_0, bind_ok by lia. eexists ino, fs2, _. split; [by apply same_disk_trans with fs1|].
  split; [|split; [|done]].
  - rewrite take_app_le by lia. by rewrite firstn_all.
  - rewrite length_app, length_drop. lia.
Qed.

(** ** Allocation *)

(** What one allocation does when the bitmap of the group is in the cache *)
Lemma allocate_one fs n ino g addr per free goff c rest slot j bitmap' :
  geometry fs bs total isz ipg → GROUP_FROM_INODE fs n = Ok g → bgd_free_blocks (e_bgds fs) g = Ok free → 1 ≤ free →
  bgd_blocks_bitmap (e_bgds fs) g = Ok addr → 0 ≤ addr < total → sb_blocks_per_group (e_sb fs) = Ok per → goff = u32 (g * per) →
  find_cached cb_number (e_blocks fs) addr = Some (c, rest) → Z.of_nat (length (cb_data c)) = bs →
  free_block_slot_from_inode ino = Ok (Some slot) → 0 ≤ slot < 12 → 128 ≤ Z.of_nat (length ino) →
  get_free_block_from_bitmap (cb_data c) = Ok (j, bitmap') → Z.of_nat (length bitmap') = bs →
  ∃ ino' fs', allocate_blocks_for_inode fresh now fs n ino 1 = Ok (ino', fs') ∧
    set_u32_field ino (40 + 4 * slot) (u32 (goff + j)) = Ok ino' ∧
    e_sb fs' = e_sb fs ∧ e_bgds fs' = e_bgds fs ∧ e_blocks fs' = mk_cb addr now (cb_data c) :: rest ∧
    splice (dev_bytes (e_dev fs)) (addr * bs) bitmap' = Ok (dev_bytes (e_dev fs')).
Proof.
  intros [G1 G2 G3 G4 G5 G6 G7 G8] Hgr Hfree Hfr Haddr Hat Hper -> Hf Hcl Hslot Hs0 Hil Hfb Hbl.
  destruct (bs_props bs G5) as (Hbs & Hsec & _). unfold allocate_blocks_for_inode.
  rewrite G1, bind_ok, Hgr, bind_ok, Hfree, bind_ok, Haddr, bind_ok, (proj2 (Z.leb_le 1 free)), Hper, bind_ok by done.
  unfold read_block, try_get_cached_block. rewrite G2, bind_ok, (proj2 (Z.ltb_ge _ _)), G1, bind_ok, Hf by lia.
  rewrite slice_ok, bind_ok by lia. rewrite drop_0, take_ge by lia. rewrite (read_buffer_ok _ _ bs) by (done || apply fresh_length; lia).
  rewrite !bind_ok. change (Z.to_nat 1) with 1%nat. cbn [allocate_blocks_loop]. rewrite Hslot, bind_ok. cbn [of_option]. rewrite bind_ok, Hfb, bind_ok.
  destruct (splice_ok ino (40 + 4 * slot) (le_bytes 4 (u32 (u32 (g * per) + j)))) as [ino' E]; [lia|rewrite le_bytes_length; lia|].
  unfold set_u32_field. rewrite E, !bind_ok, u32_small by nia.
  destruct (splice_ok (dev_bytes (e_dev fs)) (addr * bs) bitmap') as [l' E']; [nia|unfold dev_len in *; nia|].
  cbn [with_blocks e_dev]. destruct (dev_write_ok (e_dev fs) _ _ _ ltac:(by apply Z.divide_mul_r) ltac:(by rewrite Hbl) ltac:(lia) E') as (d' & -> & Hd'). rewrite bind_ok.
  eexists _, _. split; [done|]. split; [done|]. cbn [with_dev with_blocks e_sb e_bgds e_blocks e_dev]. by rewrite Hd'.
Qed.

(** The bitmap of a group is read from the cache and written to the device only, so
    two allocations in a row, for whatever inodes of the group, hand out the same block. *)
Theorem ext2_allocates_twice fs n1 n2 ino1 ino2 g addr per free c rest slot1 slot2 j bitmap' :
  geometry fs bs total isz ipg → GROUP_FROM_INODE fs n1 = Ok g → GROUP_FROM_INODE fs n2 = Ok g → bgd_free_blocks (e_bgds fs) g = Ok free → 1 ≤ free →
  bgd_blocks_bitmap (e_bgds fs) g = Ok addr → 0 ≤ addr < total → sb_blocks_per_group (e_sb fs) = Ok per →
  find_cached cb_number (e_blocks fs) addr = Some (c, rest) → Z.of_nat (length (cb_data c)) = bs →
  free_block_slot_from_inode ino1 = Ok (Some slot1) → 0 ≤ slot1 < 12 → 128 ≤ Z.of_nat (length ino1) →
  free_block_slot_from_inode ino2 = Ok (Some slot2) → 0 ≤ slot2 < 12 → 128 ≤ Z.of_nat (length ino2) →
  get_free_block_from_bitmap (cb_data c) = Ok (j, bitmap') → Z.of_nat (length bitmap') = bs →
  ∃ ino1' ino2' fs1 fs2 block,
    allocate_blocks_for_inode fresh now fs n1 ino1 1 = Ok (ino1', fs1) ∧ i_block_pointer ino1' slot1 = Ok block ∧
    allocate_blocks_for_inode fresh now fs1 n2 ino2 1 = Ok (ino2', fs2) ∧ i_block_pointer ino2' slot2 = Ok block.
Proof.
  intros Hg Hg1 Hg2 Hfree Hfr Haddr Hat Hper Hf Hcl Hs1 Hr1 Hi1 Hs2 Hr2 Hi2 Hfb Hbl.
  destruct (allocate_one fs n1 ino1 g addr per free (u32 (g * per)) c rest slot1 j bitmap') as (ino1' & fs1 & E1 & U1 & B1 & B2 & B3 & B4); try done.
  assert (Hlen1 : dev_len (e_dev fs1) = dev_len (e_dev fs)) by (unfold dev_len; by rewrite (splice_length _ _ _ _ B4)).
  assert (Hgeo1 : geometry fs1 bs total isz ipg).
  { destruct Hg as [G1 G2 G3 G4 G5 G6 G7 G8]. unfold BLOCK_SIZE in *. split; unfold BLOCK_SIZE; rewrite ?B1, ?Hlen1; done. }
  assert (Hgr : GROUP_FROM_INODE fs1 n2 = Ok g) by (unfold GROUP_FROM_INODE in *; by rewrite B1).
  destruct (allocate_one fs1 n2 ino2 g addr per free (u32 (g * per)) (mk_cb addr now (cb_data c)) rest slot2 j bitmap')
    as (ino2' & fs2 & E2 & U2 & _); try done; try (by rewrite ?B1, ?B2).
  { rewrite B3. cbn [find_cached cb_number]. by rewrite Z.eqb_refl. }
  exists ino1', ino2', fs1, fs2, (u32 (u32 (g * per) + j)). unfold i_block_pointer. split; [done|].
  split; [by apply (u32_field_splice ino1); [apply u32_range|]|]. split; [done|]. by apply (u32_field_splice ino2); [apply u32_range|].
Qed.
End write.

(** ** Mounting *)

Section mount.
Context {D : Type} `{BlockDev D} `{!BlockReads D}.
Context (fresh : Z → list Z) (now : Z) (fresh_length : ∀ n, 0 ≤ n → Z.of_nat (length (fresh n)) = n).
Context (bs total isz ipg : Z).
Implicit Types (fs : ext2 D) (dev : D).

Definition superblock_of dev : list Z := take (Z.to_nat 1024) (drop (Z.to_nat 1024) (dev_bytes dev)).

(** The file system before any of it has been read *)
Definition unread dev bgds : ext2 D := mk_ext2 (superblock_of dev) dev bgds [] [] [].

(** The number of groups, the last one perhaps not full *)
Lemma group_count per : 0 < per → 0 ≤ total →
  (if total / per * per <? total then total / per + 1 else total / per) = (total + per - 1) / per.
Proof.
  intros Hper Htot. pose proof (Z.div_mod total per ltac:(lia)) as Hdm. pose proof (Z.mod_pos_bound total per ltac:(lia)) as Hm.
  destruct (Z.ltb_spec (total / per * per) total).
  - apply (Z.div_unique _ _ _ (total mod per - 1)); lia.
  - apply (Z.div_unique _ _ _ (per - 1)); lia.
Qed.

(** Mounting a device whose descriptors number less than its blocks takes the
    superblock and one block of descriptors from the disk and starts with caches that
    copy the disk.  For an inode of a group behind that block the table is read outside
    its bounds. *)
Theorem ext2_mount_ok dev name per :
  geometry (unread dev []) bs total isz ipg → sb_signature (superblock_of dev) = Ok 0xef53 →
  sb_blocks_per_group (superblock_of dev) = Ok per → 0 < per → 4 ≤ total → EXT2_BGD_SIZE * ((total + per - 1) / per) < total →
  let start := if 1024 <? bs then 1 else 2 in
  ∃ fs, ext2_mount fresh now dev name = Ok (Some (fs, mk_en name 2 0 true)) ∧ ext2_ok bs total isz ipg fs ∧
    e_sb fs = superblock_of dev ∧ e_dev fs = dev ∧ e_bgds fs = disk_block fs bs start ∧
    ∀ n g, GROUP_FROM_INODE fs n = Ok g → bs / EXT2_BGD_SIZE ≤ g → inode_place fs n = Fault.
Proof.
  intros Hg Hsig Hper Hp0 Htot Hfew start. pose proof Hg as [G1 G2 G3 G4 G5 G6 G7 G8]. destruct (bs_props bs G5) as [Hbs _].
  cbn [unread e_dev e_sb] in *. unfold ext2_mount. rewrite dev_read_ok; [|by exists 2|by exists 2|nia|lia|lia]. rewrite bind_ok.
  rewrite Z.min_l by nia. fold (superblock_of dev).
  assert (Hsl : length (superblock_of dev) = 1024%nat).
  { unfold superblock_of. rewrite length_take, length_drop. unfold dev_len in *. nia. }
  pose proof (fresh_length 1024 ltac:(lia)) as Hf1.
  rewrite (read_buffer_ok (fresh 1024) (superblock_of dev) 1024), bind_ok, Hsig, bind_ok by lia. cbn [Z.eqb negb].
  change (negb (0xef53 =? 0xef53)) with false. cbv iota. rewrite G2, bind_ok, Hper, bind_ok. unfold udiv.
  rewrite (proj2 (Z.eqb_neq per 0)), bind_ok, group_count, (proj2 (Z.eqb_neq total 0)), bind_ok by lia.
  assert (Ha : 0 ≤ (total + per - 1) / per) by (apply Z.div_pos; lia). unfold EXT2_BGD_SIZE in *.
  rewrite (u32_small (32 * _)), (Z.div_small (32 * _)) by nia. change (u32 (0 + 1)) with 1. cbv zeta. fold (unread dev []).
  rewrite G1, bind_ok, Z.mul_1_l, (u32_small bs) by lia. change (Z.to_nat 1) with 1%nat. cbn [read_bgds].
  rewrite G1, bind_ok, Z.mul_0_r, Z.sub_0_r. pose proof (fresh_length bs ltac:(lia)) as Hfb.
  rewrite slice_ok, bind_ok by lia. rewrite drop_0, take_ge, Z.add_0_r by lia. fold start.
  assert (Hst : 0 ≤ start < total) by (unfold start; destruct (1024 <? bs); lia).
  destruct (read_block_ok now (unread dev []) bs total isz ipg start (fresh bs) Hg) with (ra := 0) as (fs1 & -> & Hs1 & Hc1 & Hi1);
    [intros c Hc; by apply not_elem_of_nil in Hc|done|done|lia|by exists 0|].
  assert (Hon : on_disk (unread dev []) bs start) by (unfold on_disk; cbn [unread e_dev]; nia).
  assert (Hdl := disk_block_length (unread dev []) bs start Hon ltac:(lia)).
  rewrite bind_ok, (read_buffer_ok _ _ bs), bind_ok, bind_ok by done. pose proof Hs1 as (S1 & S2 & S3).
  eexists. split; [done|]. cbn [e_sb e_dev e_bgds]. split.
  { split; [split; done|]. split; [|intros c Hc; cbn [e_inodes] in Hc; rewrite Hi1 in Hc; by apply not_elem_of_nil in Hc].
    intros c Hc. cbn [e_blocks] in Hc. destruct (Hc1 c Hc) as [H1 H2]. unfold on_disk, disk_block in *. rewrite S2 in *. done. }
  do 3 (split; [done|]). intros n g Hgr Hge. unfold inode_place. rewrite Hgr. change (BLOCK_SIZE _) with (BLOCK_SIZE (unread dev [])).
  rewrite G1, !bind_ok. unfold bgd_inode_table. cbn [e_bgds]. rewrite field_fault; [done|]. unfold EXT2_BGD_SIZE.
  assert (Hb32 : bs = 32 * (bs / 32)) by (by destruct G5 as [->|[->| ->]]). lia.
Qed.
End mount.

(** ** An example: 40 blocks of 1 KiB; the root directory holds the file "a" *)

Definition put (off : Z) (w : list Z) (l : list Z) : list Z :=
  match splice l off w with Ok l' => l' | _ => l end.
Definition zeros (n : nat) : list Z := replicate n 0.

Definition demo_superblock : list Z :=
  put 0 (le_bytes 4 16) (put 4 (le_bytes 4 40) (put 32 (le_bytes 4 40) (put 40 (le_bytes 4 16)
    (put 56 (le_bytes 2 0xef53) (put 88 (le_bytes 2 128) (zeros 1024)))))).
(** Bitmap in block 6, inodes from block 3 on, 31 free blocks *)
Definition demo_bgds : list Z := put 0 (le_bytes 4 6) (put 8 (le_bytes 4 3) (put 12 (le_bytes 2 31) (zeros 1024))).
Definition demo_inode (mode size block1 block2 : Z) : list Z :=
  put 0 (le_bytes 2 mode) (put 4 (le_bytes 4 size) (put 40 (le_bytes 4 block1) (put 44 (le_bytes 4 block2) (zeros 128)))).
Definition demo_records : list dir_record :=
  [mk_dr 2 2 [46] (zeros 3); mk_dr 0 1 [122] (zeros 3); mk_dr 3 1 [97] (zeros 1000)].
Definition demo_contents : list Z := [104; 101; 108; 108; 111].
Definition demo_image : list Z :=
  zeros 1024 ++ demo_superblock ++ demo_bgds ++
  (zeros 128 ++ demo_inode EXT2_DIR 1033 4 5 ++ demo_inode 0x8000 5 7 0 ++ zeros 640) ++
  put 0 (dir_data demo_records) (zeros 2048) ++ put 0 [255] (zeros 1024) ++ put 0 demo_contents (zeros 1024) ++
  put 0 (le_bytes 4 9) (zeros 1024) ++ zeros (31 * 1024).

Definition demo_fs : ext2 plain_drive := mk_ext2 demo_superblock (mk_plain demo_image) demo_bgds [] [] [].
Definition demo_fresh (n : Z) : list Z := zeros (Z.to_nat n).

Lemma demo_fresh_length n : 0 ≤ n → Z.of_nat (length (demo_fresh n)) = n.
Proof. intros Hn. unfold demo_fresh, zeros. rewrite length_replicate. lia. Qed.

Lemma demo_len : dev_len (e_dev demo_fs) = 40960.
Proof. vm_compute. reflexivity. Qed.

Lemma demo_ok : ext2_ok 1024 40 128 16 demo_fs.
Proof.
  split.
  - split; [vm_compute; reflexivity..|by left|lia|rewrite demo_len; lia|rewrite demo_len; by exists 40].
  - split; intros c Hc; by apply not_elem_of_nil in Hc.
Qed.

Lemma demo_file_located : located demo_fs 1024 40 128 3 3 256.
Proof. split; [lia|]. split; [vm_compute; reflexivity|lia]. Qed.

Lemma demo_root_located : located demo_fs 1024 40 128 2 3 128.
Proof. split; [lia|]. split; [vm_compute; reflexivity|lia]. Qed.

Lemma demo_file_holds : file_holds demo_fs 1024 40 (disk_inode demo_fs 1024 128 3 256) demo_contents.
Proof.
  split; [apply Z.leb_le; vm_compute; reflexivity|]. split; [vm_compute; reflexivity|]. intros b Hb Hlt.
  assert (b = 0) as -> by (cbn [length demo_contents] in Hlt; lia). split; [lia|].
  assert (Hm : ext2_map demo_fs 1024 (disk_inode demo_fs 1024 128 3 256) 0 = 7) by (vm_compute; reflexivity).
  rewrite Hm. split; [lia|]. vm_compute. reflexivity.
Qed.

Lemma demo_dir_holds : file_holds demo_fs 1024 40 (disk_inode demo_fs 1024 128 3 128) (dir_data demo_records).
Proof.
  split; [apply Z.leb_le; vm_compute; reflexivity|]. split; [vm_compute; reflexivity|]. intros b Hb Hlt.
  assert (Hl : Z.of_nat (length (dir_data demo_records)) = 1033) by (vm_compute; reflexivity). rewrite Hl in Hlt |- *.
  assert (Hb01 : b = 0 ∨ b = 1) by lia. split; [lia|]. destruct Hb01 as [-> | ->].
  - assert (Hm : ext2_map demo_fs 1024 (disk_inode demo_fs 1024 128 3 128) 0 = 4) by (vm_compute; reflexivity).
    rewrite Hm. split; [lia|]. vm_compute. reflexivity.
  - assert (Hm : ext2_map demo_fs 1024 (disk_inode demo_fs 1024 128 3 128) 1 = 5) by (vm_compute; reflexivity).
    rewrite Hm. split; [lia|]. vm_compute. reflexivity.
Qed.

Lemma demo_directory : directory 1024 40 128 demo_fs 2 demo_records.
Proof.
  assert (Hl : Z.of_nat (length (dir_data demo_records)) = 1033) by (vm_compute; reflexivity).
  split; [exists 3, 128; split; [apply demo_root_located|apply demo_dir_holds]|]. rewrite Hl.
  split; [done|]. split; [done|]. split.
  - repeat (apply Forall_cons; split); [..|apply Forall_nil; done];
      (split; [cbn; lia|]; split; [unfold dr_len; cbn [dr_name dr_pad length zeros]; unfold zeros; rewrite length_replicate; cbn; lia|];
       split; [cbn; lia|cbn; set_solver]).
  - split; [done|]. exists EXT2_DIR. split; [|done]. exists 3, 128. split; [apply demo_root_located|vm_compute; reflexivity].
Qed.

Lemma ext2_read_exact_witness :
  ∃ fs', ext2_read demo_fresh 7 demo_fs 3 1 3 = Ok (3, [101; 108; 108], fs').
Proof.
  destruct (ext2_read_exact demo_fresh 7 demo_fresh_length 1024 40 128 16 demo_fs 3 demo_contents 1 3) as (fs' & E & _).
  - apply demo_ok.
  - exists 3, 256. split; [apply demo_file_located|apply demo_file_holds].
  - done.
  - done.
  - done.
  - done.
  - exists fs'. exact E.
Defined.

Lemma ext2_lists_directory_witness :
  ∃ fs', ext2_readdir demo_fresh 7 4 demo_fs 2 1 = Ok (Some ([97], 3), fs').
Proof.
  destruct (ext2_lists_directory demo_fresh 7 demo_fresh_length 1024 40 128 16 demo_fs 2 demo_records 1 4) as (fs' & E & _).
  - apply demo_ok.
  - apply demo_directory.
  - done.
  - cbn. lia.
  - exists fs'. exact E.
Defined.

Lemma demo_walk : ext2_walk 1024 40 128 demo_fs 4 (mk_en [] 2 0 true) [[97]] (mk_en [97] 3 5 false).
Proof.
  apply (walk_into 1024 40 128 demo_fs 4 (mk_en [] 2 0 true) demo_records [97] [] 3 demo_contents 0x8000).
  - apply demo_directory.
  - cbn. lia.
  - reflexivity.
  - exists 3, 256. split; [apply demo_file_located|apply demo_file_holds].
  - exists 3, 256. split; [apply demo_file_located|vm_compute; reflexivity].
  - cbn. lia.
  - apply walk_end.
Qed.

(** "/a" is found. *)
Lemma ext2_finds_path_witness :
  ∃ fs', ext2_finddir demo_fresh 7 4 demo_fs (mk_en [] 2 0 true) [47; 97] = Ok (Some (mk_en [97] 3 5 false), fs').
Proof.
  destruct (ext2_finds_path demo_fresh 7 demo_fresh_length 1024 40 128 16 demo_fs (mk_en [] 2 0 true) [[97]] [47; 97] 4) as [Hfind _].
  - apply demo_ok.
  - apply Forall_singleton. split; [done|]. intros H%list_elem_of_singleton. done.
  - done.
  - by right.
  - destruct (Hfind _ demo_walk) as (fs' & E & _). exists fs'. exact E.
Defined.

Lemma inode_address_witness : ∃ t off, inode_place demo_fs 10 = Ok (t, off) ∧ t * 1024 + off = 3 * 1024 + 9 * 128.
Proof.
  destruct (inode_address 1024 40 128 16 demo_fs 10 3) as (t & off & E & A & _);
    [apply demo_ok|by exists 8|lia|lia|lia|vm_compute; reflexivity|lia|].
  exists t, off. split; [exact E|exact A].
Defined.

(** A file with block 8 as its double-indirect block: block 256 of the file *)
Lemma ext2_double_indirect_gap_witness :
  block_from_offset demo_fresh 7 demo_fs (put 92 (le_bytes 4 8) (zeros 128)) 256 = Fault.
Proof.
  apply (ext2_double_indirect_gap demo_fresh 7 demo_fresh_length 1024 40 128 16).
  - apply demo_ok.
  - apply Z.leb_le. vm_compute. reflexivity.
  - done.
  - done.
  - split; [by intros []|]. intros _. split; [split; vm_compute; reflexivity|]. 
    assert (Hw : table_word (disk_block demo_fs 1024 (inode_word (put 92 (le_bytes 4 8) (zeros 128)) 92)) ((256 - 1024 / 4) / (1024 / 4)) = 9)
      by (vm_compute; reflexivity). rewrite Hw. lia.
Defined.

(** Writing two bytes to the file "a" *)
Lemma ext2_write_misplaced_witness :
  ∃ ino fs2 block, take 2 block = [1; 2] ∧ ext2_write demo_fresh 7 demo_fs 3 5 0 [1; 2] =
    ('(r, d) ← dev_write (e_dev fs2) 0 block; fs4 ← write_inode (with_dev fs2 d) 3 ino; Ok (u32 r, fs4)).
Proof.
  destruct (ext2_write_misplaced demo_fresh 7 demo_fresh_length 1024 40 128 16 demo_fs 3 3 256 demo_contents 5 [1; 2]) as (ino & fs2 & block & _ & Hb & _ & E).
  - apply demo_ok.
  - apply demo_file_located.
  - apply demo_file_holds.
  - done.
  - done.
  - cbn. lia.
  - exists ino, fs2, block. split; [exact Hb|exact E].
Defined.

Definition demo_bitmap : list Z := put 0 [255] (zeros 1024).

(** Inodes 3 and 4 both get block 8. *)
Lemma ext2_allocates_twice_witness :
  let fs := with_blocks demo_fs [mk_cb 6 0 demo_bitmap] in
  ∃ ino1 ino2 fs1 fs2 block,
    allocate_blocks_for_inode demo_fresh 7 fs 3 (zeros 128) 1 = Ok (ino1, fs1) ∧ i_block_pointer ino1 0 = Ok block ∧
    allocate_blocks_for_inode demo_fresh 7 fs1 4 (zeros 128) 1 = Ok (ino2, fs2) ∧ i_block_pointer ino2 0 = Ok block.
Proof.
  intros fs.
  refine (ext2_allocates_twice demo_fresh 7 demo_fresh_length 1024 40 128 16 fs 3 4 (zeros 128) (zeros 128) 0 6 40 31
    (mk_cb 6 0 demo_bitmap) [] 0 0 8 (put 0 [255; 1] (zeros 1024)) _ _ _ _ _ _ _ _ _ _ _ _ _ _ _ _ _ _).
  - destruct demo_ok as [[G1 G2 G3 G4 G5 G6 G7 G8] _]. exact (mk_geometry fs 1024 40 128 16 G1 G2 G3 G4 G5 G6 G7 G8).
  - reflexivity.
  - reflexivity.
  - vm_compute. reflexivity.
  - lia.
  - vm_compute. reflexivity.
  - lia.
  - vm_compute. reflexivity.
  - reflexivity.
  - vm_compute. reflexivity.
  - vm_compute. reflexivity.
  - lia.
  - apply Z.leb_le. vm_compute. reflexivity.
  - vm_compute. reflexivity.
  - lia.
  - apply Z.leb_le. vm_compute. reflexivity.
  - vm_compute. reflexivity.
  - vm_compute. reflexivity.
Defined.

Lemma ext2_mount_ok_witness :
  ∃ fs, ext2_mount demo_fresh 7 (mk_plain demo_image) [120] = Ok (Some (fs, mk_en [120] 2 0 true)).
Proof.
  destruct (ext2_mount_ok demo_fresh 7 demo_fresh_length 1024 40 128 16 (mk_plain demo_image) [120] 40) as (fs & E & _).
  - split; [vm_compute; reflexivity..|by left|lia|cbn [unread e_dev]; change (mk_plain demo_image) with (e_dev demo_fs); rewrite demo_len; lia|
      cbn [unread e_dev]; change (mk_plain demo_image) with (e_dev demo_fs); rewrite demo_len; by exists 40].
  - vm_compute. reflexivity.
  - vm_compute. reflexivity.
  - lia.
  - lia.
  - done.
  - exists fs. exact E.
Defined.
