(* ===== verification/Family.v ===== *)
(** * kernel/src/proc/process.c: forking, exiting and waiting for children

    The family side of a process: its number, owner and group, its state and exit status,
    and its place in the tree of processes (Tree.v).  Processes and tree nodes are heap
    objects; a freed process keeps its bytes, as [k_free] leaves them (Alloc.v), but using
    it is a [Fault] except where the code does so before anything else can be allocated.
    Descriptors, mappings and locks, which exiting also releases, are events here; their
    own models are FdTable, Mmap and Sched. *)

From S2P Require Import Prelude.
From S2P Require Import TypesList.
From S2P Require Import Tree.
From S2P Require Import Sched.

Definition SIGCHLD : Z := 17.
Definition PROCESS_WAITPID_WNOHANG : Z := 1.
Definition PROCESS_WAITPID_WUNTRACED : Z := 2.

Record fproc := mk_fp {
  fp_pid : Z;
  fp_uid : Z;
  fp_group : Z;
  fp_state : Z;
  fp_status : Z;
  fp_node : Z
}.

Inductive fevent :=
| FCloseFds (p : Z)
| FFreeMappings (p : Z)
| FWakeup (p : Z) (* its wait queue *)
| FSignal (p sig : Z)
| FUnblock (p : Z)
| FReady (p : Z)
| FSwitch.

Record family := mk_fam {
  fm_tree : tree;
  fm_list : list Z; (* process_list *)
  fm_procs : gmap Z fproc;
  fm_live : gset Z;
  fm_next_pid : Z;
  fm_events : list fevent
}.

Definition with_tree (s : family) (t : tree) : family :=
  mk_fam t (fm_list s) (fm_procs s) (fm_live s) (fm_next_pid s) (fm_events s).
Definition with_proc (s : family) (p : Z) (q : fproc) : family :=
  mk_fam (fm_tree s) (fm_list s) (<[p := q]> (fm_procs s)) (fm_live s) (fm_next_pid s) (fm_events s).
Definition emit (s : family) (e : list fevent) : family :=
  mk_fam (fm_tree s) (fm_list s) (fm_procs s) (fm_live s) (fm_next_pid s) (fm_events s ++ e).

Definition get_fproc (s : family) (p : Z) : res fproc :=
  if decide (p ∈ fm_live s) then of_option (fm_procs s !! p) else Fault.

Fixpoint find_pid (s : family) (l : list Z) (pid : Z) : res (option Z) :=
  match l with
  | [] => Ok None
  | p :: l' => q ← get_fproc s p; if fp_pid q =? pid then Ok (Some p) else find_pid s l' pid
  end.
Definition k_proc_process_find_by_pid (s : family) (pid : Z) : res (option Z) := find_pid s (fm_list s) pid.

(** ** Forking *)

(** [node]: the address of the new tree node *)
Definition process_spawn (s : family) (p : Z) (parent : Z) (node : Z) : res family :=
  q ← get_fproc s p;
  let s1 := mk_fam (fm_tree s) (fm_list s ++ [p]) (fm_procs s) (fm_live s) (fm_next_pid s) (fm_events s) in
  let t1 := tree_create_node (fm_tree s1) node p in
  if truthy parent then
    pq ← get_fproc s parent;
    t2 ← tree_insert_node t1 node (fp_node pq);
    Ok (with_proc (with_tree s1 t2) p (mk_fp (fp_pid q) (fp_uid pq) (fp_pid pq) (fp_state q) (fp_status q) node))
  else Ok (with_proc (with_tree s1 t1) p (mk_fp (fp_pid q) (fp_uid q) (fp_group q) (fp_state q) (fp_status q) node)).

(** The counter of the process numbers is a [static int32_t], which wraps around: the
    number that is given out, and the counter after it. *)
Definition process_allocate_pid (pid : Z) : Z * Z := (pid, s32 (pid + 1)).

(** [new] and [node]: the addresses that are allocated *)
Definition k_proc_process_fork (s : family) (src new node : Z) : res (Z * family) :=
  match fm_list s with
  | [] => Ok (0, s)
  | _ :: _ =>
      q ← get_fproc s src;
      let '(pid, next) := process_allocate_pid (fm_next_pid s) in
      let s1 := mk_fam (fm_tree s) (fm_list s) (<[new := mk_fp pid (fp_uid q) (fp_group q) PROCESS_STATE_STARTING (fp_status q) (fp_node q)]> (fm_procs s))
                  ({[new]} ∪ fm_live s) next (fm_events s) in
      s2 ← process_spawn s1 new src node;
      Ok (pid, emit s2 [FReady new])
  end.

(** ** Exiting *)

(** The loop over the children: each is given to the root as well. *)
Fixpoint reparent (t : tree) (l : list Z) : res tree :=
  match l with
  | [] => Ok t
  | c :: l' =>
      x ← tree_get t c;
      let t1 := tree_put t c (mk_tree_node (tnd_tree x) (tr_root t) (tnd_children x) (tnd_value x)) in
      r ← tree_get t1 (tr_root t);
      reparent (tree_put t1 (tr_root t) (with_children r (tnd_children r ++ [c]))) l'
  end.

(** The root adds to the list it goes through. *)
Definition k_proc_process_exit (s : family) (p code : Z) : res family :=
  q ← get_fproc s p;
  let s1 := emit (with_proc s p (mk_fp (fp_pid q) (fp_uid q) (fp_group q) PROCESS_STATE_FINISHED code (fp_node q))) [FCloseFds p] in
  x ← tree_get (fm_tree s1) (fp_node q);
  t ← (if (fp_node q =? tr_root (fm_tree s1)) && negb (bool_decide (tnd_children x = [])) then OutOfFuel
       else reparent (fm_tree s1) (tnd_children x));
  let s2 := emit (with_tree s1 t) [FFreeMappings p] in
  x2 ← tree_get t (fp_node q);
  s3 ← (if truthy (tnd_parent x2) then
          y ← tree_get t (tnd_parent x2);
          Ok (if truthy (tnd_value y) then emit s2 [FWakeup (tnd_value y); FSignal (tnd_value y) SIGCHLD] else s2)
        else Ok s2);
  Ok (emit s3 [FUnblock p; FSwitch]).

(** ** Waiting *)

Definition waitpid_can_pick (process parent : fproc) (pid : Z) : bool :=
  if pid <? -1 then fp_pid process =? - pid
  else if pid =? 0 then fp_group process =? fp_group parent
  else if 0 <? pid then fp_pid process =? pid
  else true.

(** The loop over the children: whether there was one to wait for, and one that is finished *)
Fixpoint wait_scan (s : family) (parent : fproc) (pid : Z) (l : list Z) : res (bool * option Z) :=
  match l with
  | [] => Ok (false, None)
  | c :: l' =>
      x ← tree_get (fm_tree s) c;
      q ← get_fproc s (tnd_value x);
      if waitpid_can_pick q parent pid then
        if fp_state q =? PROCESS_STATE_FINISHED then Ok (true, Some (tnd_value x))
        else '(_, o) ← wait_scan s parent pid l'; Ok (true, o)
      else wait_scan s parent pid l'
  end.

Definition k_proc_process_destroy (s : family) (p : Z) : res family :=
  q ← get_fproc s p;
  t1 ← tree_remove_node (fm_tree s) (fp_node q);
  t2 ← tree_free_node t1 (fp_node q);
  Ok (mk_fam t2 (remove_first p (fm_list s)) (fm_procs s) (fm_live s ∖ {[p]}) (fm_next_pid s) (fm_events s)).

(** Each sleep takes one element of [env], what the others do meanwhile; when it is
    exhausted the caller is still asleep ([OutOfFuel]).  The answer, and the status that is
    stored if [status] is a valid pointer *)
Fixpoint waitpid_loop (env : list (family → family)) (s : family) (p pid : Z) (status : bool) (options : Z)
    : res (Z * option Z * family) :=
  q ← get_fproc s p;
  x ← tree_get (fm_tree s) (fp_node q);
  '(was, child) ← wait_scan s q pid (tnd_children x);
  if negb was then Ok (- ECHILD, None, s)
  else
    match child with
    | Some c =>
        cq ← get_fproc s c;
        s' ← k_proc_process_destroy s c;
        (* the number of the process that was just freed *)
        stale ← of_option (fm_procs s' !! c);
        Ok (fp_pid stale, if status then Some (fp_status cq) else None, s')
    | None =>
        if truthy (Z.land options PROCESS_WAITPID_WNOHANG) then Ok (- EINTR, None, s)
        else
          match env with
          | [] => OutOfFuel
          | a :: env' => waitpid_loop env' (a s) p pid status options
          end
    end.

Definition k_proc_process_waitpid (env : list (family → family)) (s : family) (p pid : Z) (status : bool) (options : Z)
    : res (Z * option Z * family) :=
  if PROCESS_WAITPID_WUNTRACED <? options then Ok (- EINVAL, None, s)
  else waitpid_loop env s p pid status options.

(** ** The invariant *)

(** A process of the list, with its object and its tree node *)
Definition member (s : family) (p : Z) (q : fproc) (x : tree_node) : Prop :=
  p ∈ fm_list s ∧ fm_procs s !! p = Some q ∧ tr_heap (fm_tree s) !! fp_node q = Some x.

Definition running (q : fproc) : Prop := fp_state q ≠ PROCESS_STATE_FINISHED.

(** Every process of the list is alive and owns its node; all but the first have a parent
    that has not finished and lists them; what a process that has not finished lists are
    its children, each once; numbers are used once. *)
Record family_ok (init : Z) (s : family) : Prop := {
  fo_member : ∀ p, p ∈ fm_list s → p ≠ 0 ∧ p ∈ fm_live s ∧ ∃ q x, member s p q x ∧ tnd_tree x = tr_id (fm_tree s) ∧
    tnd_value x = p ∧ fp_node q ≠ 0 ∧ fp_pid q < fm_next_pid s;
  fo_init : ∃ q x, member s init q x ∧ running q ∧ fp_node q = tr_root (fm_tree s) ∧ tnd_parent x = 0;
  fo_up : ∀ p q x, member s p q x → p ≠ init → ∃ pp qq y, member s pp qq y ∧ pp ≠ p ∧ running qq ∧
    tnd_parent x = fp_node qq ∧ fp_node q ∈ tnd_children y;
  fo_down : ∀ p q x, member s p q x → running q → NoDup (tnd_children x) ∧
    ∀ c, c ∈ tnd_children x → ∃ cp cq cx, member s cp cq cx ∧ fp_node cq = c ∧ tnd_parent cx = fp_node q;
  fo_list : NoDup (fm_list s);
  fo_pids : ∀ p p' q q' x x', member s p q x → member s p' q' x' → fp_pid q = fp_pid q' → p = p';
  fo_id : tr_id (fm_tree s) ≠ 0
}.

(** The counter of the process numbers is not at its end. *)
Definition counter_left (s : family) : Prop := 0 ≤ fm_next_pid s < 2 ^ 31 - 1.

Section family.
Context (init : Z).
Implicit Types (s : family) (p : Z) (q : fproc) (x y : tree_node).

Lemma member_fun s p q x q' x' : member s p q x → member s p q' x' → q' = q ∧ x' = x.
Proof. intros (_ & H1 & H2) (_ & H3 & H4). split; congruence. Qed.

Lemma member_node s p q x :
  family_ok init s → member s p q x → tnd_tree x = tr_id (fm_tree s) ∧ tnd_value x = p ∧ fp_node q ≠ 0 ∧ fp_pid q < fm_next_pid s ∧
    get_fproc s p = Ok q ∧ tree_get (fm_tree s) (fp_node q) = Ok x.
Proof.
  intros Hs Hm. destruct (fo_member _ _ Hs p) as (Hp0 & Hl & q' & x' & Hm' & H1 & H2 & H3 & H4); [apply Hm|].
  destruct (member_fun _ _ _ _ _ _ Hm Hm') as [-> ->]. do 4 (split; [done|]). destruct Hm as (_ & Hq & Hx).
  unfold get_fproc, tree_get. rewrite Hq, Hx. by rewrite decide_True.
Qed.

(** A node belongs to one process. *)
Lemma member_inj s p p' q q' x x' :
  family_ok init s → member s p q x → member s p' q' x' → fp_node q = fp_node q' → p = p' ∧ q = q' ∧ x = x'.
Proof.
  intros Hs Hm Hm' He. destruct (member_node _ _ _ _ Hs Hm) as (_ & Hv & _), (member_node _ _ _ _ Hs Hm') as (_ & Hv' & _).
  pose proof Hm as (_ & Hq & Hx). pose proof Hm' as (_ & Hq' & Hx'). assert (x = x') as -> by congruence.
  assert (p = p') as -> by congruence. split; [done|]. split; congruence.
Qed.

Lemma init_node s p q x : family_ok init s → member s p q x → p ≠ init → fp_node q ≠ tr_root (fm_tree s).
Proof.
  intros Hs Hm Hne He. destruct (fo_init _ _ Hs) as (q0 & x0 & Hm0 & _ & Hr & _).
  destruct (member_inj s p init q q0 x x0 Hs Hm Hm0) as [? _]; [congruence|done].
Qed.

(** ** What forking does *)

Lemma fork_eq s src q x new node :
  family_ok init s → member s src q x → new ∉ fm_live s → new ∉ fm_list s → fm_procs s !! new = None →
  tr_heap (fm_tree s) !! node = None → node ≠ 0 →
  let qn := mk_fp (fm_next_pid s) (fp_uid q) (fp_pid q) PROCESS_STATE_STARTING (fp_status q) node in
  let t' := mk_tree (tr_id (fm_tree s)) (tr_root (fm_tree s)) (tr_nodes (fm_tree s) ++ [node])
    (<[fp_node q := with_children x (tnd_children x ++ [node])]>
      (<[node := mk_tree_node (tr_id (fm_tree s)) (fp_node q) [] new]> (<[node := mk_tree_node 0 0 [] new]> (tr_heap (fm_tree s))))) in
  k_proc_process_fork s src new node =
  Ok (fm_next_pid s, mk_fam t' (fm_list s ++ [new]) (<[new := qn]> (<[new := mk_fp (fm_next_pid s) (fp_uid q) (fp_group q)
        PROCESS_STATE_STARTING (fp_status q) (fp_node q)]> (fm_procs s))) ({[new]} ∪ fm_live s) (s32 (fm_next_pid s + 1))
        (fm_events s ++ [FReady new])).
Proof.
  intros Hs Hm Hnl Hnli Hnp Hnode Hn0 qn t'. destruct (member_node _ _ _ _ Hs Hm) as (_ & _ & Hq0 & _ & Hg & _).
  pose proof Hm as (Hin & Hq & Hx). assert (Hne : src ≠ new) by congruence. assert (Hnn : fp_node q ≠ node) by congruence.
  assert (Hs0 : src ≠ 0) by apply (fo_member _ _ Hs src Hin).
  unfold k_proc_process_fork, process_allocate_pid. destruct (fm_list s) as [|a l] eqn:Hl; [by apply elem_of_nil in Hin|]. rewrite <- Hl in *.
  rewrite Hg, bind_ok. unfold process_spawn, get_fproc. cbn [fm_live fm_procs fm_tree fm_list fm_next_pid fm_events].
  assert (Hl1 : new ∈ {[new]} ∪ fm_live s) by (apply elem_of_union_l; by apply elem_of_singleton).
  assert (Hl2 : src ∈ {[new]} ∪ fm_live s) by (apply elem_of_union_r; by apply (fo_member _ _ Hs src Hin)).
  rewrite (decide_True _ _ Hl1), lookup_insert_eq. cbn [of_option]. rewrite bind_ok, (proj2 (truthy_true src)) by done.
  rewrite (decide_True _ _ Hl2), lookup_insert_ne, Hq by done.
  cbn [of_option]. rewrite bind_ok.
  rewrite (insert_node_eq (tree_create_node (fm_tree s) node new) node (fp_node q) x new); cbn [tree_create_node tree_put tr_id tr_heap].
  - rewrite bind_ok. done.
  - apply (fo_id _ _ Hs).
  - done.
  - done.
  - by rewrite lookup_insert_ne.
  - by rewrite lookup_insert_eq.
Qed.

Section fork.
Context (s : family) (src : Z) (q0 : fproc) (x0 : tree_node) (new node : Z).
Context (Hs : family_ok init s) (Hm0 : member s src q0 x0) (Hrun : running q0).
Context (Hnl : new ∉ fm_live s) (Hnli : new ∉ fm_list s) (Hnp : fm_procs s !! new = None) (Hnew0 : new ≠ 0)
        (Hnode : tr_heap (fm_tree s) !! node = None) (Hn0 : node ≠ 0).

Definition forked_proc : fproc := mk_fp (fm_next_pid s) (fp_uid q0) (fp_pid q0) PROCESS_STATE_STARTING (fp_status q0) node.
Definition forked_node : tree_node := mk_tree_node (tr_id (fm_tree s)) (fp_node q0) [] new.
Definition forked : family :=
  mk_fam (mk_tree (tr_id (fm_tree s)) (tr_root (fm_tree s)) (tr_nodes (fm_tree s) ++ [node])
    (<[fp_node q0 := with_children x0 (tnd_children x0 ++ [node])]> (<[node := forked_node]> (<[node := mk_tree_node 0 0 [] new]> (tr_heap (fm_tree s))))))
    (fm_list s ++ [new]) (<[new := forked_proc]> (<[new := mk_fp (fm_next_pid s) (fp_uid q0) (fp_group q0)
        PROCESS_STATE_STARTING (fp_status q0) (fp_node q0)]> (fm_procs s))) ({[new]} ∪ fm_live s) (s32 (fm_next_pid s + 1))
        (fm_events s ++ [FReady new]).

Definition grown (p : Z) (x : tree_node) : tree_node :=
  if decide (p = src) then with_children x (tnd_children x ++ [node]) else x.

Lemma forked_new : member forked new forked_proc forked_node.
Proof.
  split; [|split]; cbn [forked fm_list fm_procs fm_tree tr_heap].
  - apply elem_of_app. right. by apply list_elem_of_singleton.
  - by rewrite lookup_insert_eq.
  - cbn [forked_proc fp_node]. rewrite lookup_insert_ne, lookup_insert_eq; [done|]. destruct Hm0 as (_ & _ & H). congruence.
Qed.

Lemma forked_old p q x : member s p q x → member forked p q (grown p x).
Proof.
  intros Hm. pose proof Hm as (Hin & Hq & Hx). assert (p ≠ new) by congruence.
  split; [|split]; cbn [forked fm_list fm_procs fm_tree tr_heap].
  - apply elem_of_app. by left.
  - by rewrite !lookup_insert_ne.
  - unfold grown. destruct (decide (p = src)) as [->|Hne].
    + destruct (member_fun _ _ _ _ _ _ Hm Hm0) as [-> ->]. by rewrite lookup_insert_eq.
    + rewrite !lookup_insert_ne; [done|congruence|congruence|]. intros He.
      by destruct (member_inj _ _ _ _ _ _ _ Hs Hm0 Hm He).
Qed.

Lemma forked_inv p q x :
  member forked p q x → (p = new ∧ q = forked_proc ∧ x = forked_node) ∨ (∃ x', member s p q x' ∧ x = grown p x').
Proof.
  intros Hm. pose proof Hm as (Hin & _). cbn [forked fm_list] in Hin. apply elem_of_app in Hin as [Hin| ->%list_elem_of_singleton].
  - right. destruct (fo_member _ _ Hs p Hin) as (_ & _ & q' & x' & Hm' & _).
    destruct (member_fun _ _ _ _ _ _ (forked_old _ _ _ Hm') Hm) as [-> ->]. by exists x'.
  - left. split; [done|]. by destruct (member_fun _ _ _ _ _ _ forked_new Hm) as [-> ->].
Qed.

Lemma grown_parent p x : tnd_parent (grown p x) = tnd_parent x ∧ tnd_tree (grown p x) = tnd_tree x ∧ tnd_value (grown p x) = tnd_value x.
Proof. unfold grown. by destruct (decide (p = src)). Qed.

Lemma grown_children p x c : c ∈ tnd_children (grown p x) ↔ c ∈ tnd_children x ∨ (p = src ∧ c = node).
Proof.
  unfold grown. destruct (decide (p = src)) as [->|]; cbn [with_children tnd_children]; [|naive_solver].
  rewrite elem_of_app, list_elem_of_singleton. naive_solver.
Qed.

Lemma node_not_child p q x : member s p q x → running q → node ∉ tnd_children x.
Proof.
  intros Hm Hr Hin. destruct (fo_down _ _ Hs _ _ _ Hm Hr) as [_ Hc]. destruct (Hc _ Hin) as (cp & cq & cx & (_ & _ & Hx) & He & _). congruence.
Qed.

Lemma forked_ok : counter_left s → family_ok init forked.
Proof.
  intros Hcnt. assert (Hnext : fm_next_pid forked = fm_next_pid s + 1) by (apply s32_small; unfold counter_left in Hcnt; lia).
  split.
  - intros p Hin. cbn [forked fm_list] in Hin. apply elem_of_app in Hin as [Hin| ->%list_elem_of_singleton].
    + destruct (fo_member _ _ Hs p Hin) as (Hp0 & Hl & q & x & Hm & Ht & Hv & Hn & Hpid). split; [done|].
      split; [by apply elem_of_union_r|]. exists q, (grown p x). destruct (grown_parent p x) as (_ & -> & ->).
      split; [by apply forked_old|]. do 3 (split; [done|]). rewrite Hnext. cbn; lia.
    + split; [done|]. split; [apply elem_of_union_l; by apply elem_of_singleton|]. exists forked_proc, forked_node.
      split; [apply forked_new|]. do 3 (split; [done|]). rewrite Hnext. cbn; lia.
  - destruct (fo_init _ _ Hs) as (q & x & Hm & Hr & Hn & Hp). exists q, (grown init x). split; [by apply forked_old|].
    split; [done|]. split; [done|]. by rewrite (proj1 (grown_parent init x)).
  - intros p q x [(-> & -> & ->)|(x' & Hm & ->)]%forked_inv Hne.
    + exists src, q0, (grown src x0). split; [by apply forked_old|]. split; [destruct Hm0 as [? _]; congruence|].
      split; [done|]. split; [done|]. apply grown_children. by right.
    + destruct (fo_up _ _ Hs _ _ _ Hm Hne) as (pp & qq & y & Hmp & Hpp & Hr & Hpar & Hc). exists pp, qq, (grown pp y).
      split; [by apply forked_old|]. split; [done|]. split; [done|]. split; [by rewrite (proj1 (grown_parent p x'))|]. apply grown_children. by left.
  - intros p q x [(-> & -> & ->)|(x' & Hm & ->)]%forked_inv Hr.
    + split; [constructor|]. intros c Hc. by apply elem_of_nil in Hc.
    + destruct (fo_down _ _ Hs _ _ _ Hm Hr) as [Hnd Hc]. split.
      * unfold grown. destruct (decide (p = src)) as [->|]; [|done]. cbn. apply NoDup_app. split; [done|]. split; [|apply NoDup_singleton].
        intros c Hin ->%list_elem_of_singleton. by apply (node_not_child _ _ _ Hm Hr).
      * intros c [Hin|[-> ->]]%grown_children.
        -- destruct (Hc c Hin) as (cp & cq & cx & Hmc & He & Hp). exists cp, cq, (grown cp cx).
           split; [by apply forked_old|]. split; [done|]. by rewrite (proj1 (grown_parent cp cx)).
        -- destruct (member_fun _ _ _ _ _ _ Hm0 Hm) as [-> ->]. exists new, forked_proc, forked_node. split; [apply forked_new|done].
  - cbn [forked fm_list]. apply NoDup_app. split; [apply (fo_list _ _ Hs)|]. split; [|apply NoDup_singleton].
    intros p Hp ->%list_elem_of_singleton. done.
  - intros p p' q q' x x' [(-> & -> & ->)|(y & Hm & ->)]%forked_inv [(-> & -> & ->)|(y' & Hm' & ->)]%forked_inv He; cbn [forked_proc fp_pid] in *.
    + done.
    + destruct (member_node _ _ _ _ Hs Hm') as (_ & _ & _ & Hlt & _). lia.
    + destruct (member_node _ _ _ _ Hs Hm) as (_ & _ & _ & Hlt & _). lia.
    + by apply (fo_pids _ _ Hs p p' q q' y y').
  - apply (fo_id _ _ Hs).
Qed.
End fork.

(** ** What exiting does *)

Definition with_parent (x : tree_node) (n : Z) : tree_node := mk_tree_node (tnd_tree x) n (tnd_children x) (tnd_value x).

Lemma reparent_ok t l r :
  NoDup l → tr_root t ∉ l → tr_heap t !! tr_root t = Some r → (∀ c, c ∈ l → is_Some (tr_heap t !! c)) →
  ∃ t', reparent t l = Ok t' ∧ tr_id t' = tr_id t ∧ tr_root t' = tr_root t ∧ tr_nodes t' = tr_nodes t ∧
    ∀ n, tr_heap t' !! n = if decide (n = tr_root t) then Some (with_children r (tnd_children r ++ l))
                           else if decide (n ∈ l) then (λ x, with_parent x (tr_root t)) <$> tr_heap t !! n else tr_heap t !! n.
Proof.
  revert t r. induction l as [|c l IH]; intros t r Hnd Hr Hroot Hl; cbn [reparent].
  { exists t. do 4 (split; [done|]). intros n. case_decide as Hn; [|done]. subst n. rewrite Hroot, app_nil_r. by destruct r. }
  apply NoDup_cons in Hnd as [Hc Hnd]. apply not_elem_of_cons in Hr as [Hrc Hr]. destruct (Hl c) as [x Hx]; [by left|].
  unfold tree_get. rewrite Hx. cbn [of_option]. rewrite bind_ok. cbn [tree_put tr_heap].
  rewrite lookup_insert_ne, Hroot by done. cbn [of_option]. rewrite bind_ok.
  set (t2 := tree_put _ _ _). destruct (IH t2 (with_children r (tnd_children r ++ [c])) Hnd Hr) as (t' & E & I1 & I2 & I3 & Hh).
  - cbn. by rewrite lookup_insert_eq.
  - intros d Hd. cbn. destruct (decide (d = tr_root t)) as [->|]; [done|]. rewrite lookup_insert_ne by done.
    rewrite lookup_insert_ne by congruence. apply Hl. by right.
  - exists t'. split; [done|]. do 3 (split; [done|]). intros n. rewrite Hh. change (tr_root t2) with (tr_root t).
    destruct (decide (n = tr_root t)) as [->|Hn]; [cbn; by rewrite <- app_assoc|]. unfold t2. cbn [tree_put tr_heap].
    rewrite lookup_insert_ne by done. destruct (decide (n = c)) as [->|Hnc].
    + rewrite lookup_insert_eq, decide_False, decide_True by (done || by left). by rewrite Hx.
    + rewrite lookup_insert_ne by done. destruct (decide (n ∈ l)).
      * by rewrite decide_True by (by right).
      * by rewrite decide_False by (intros [?|?]%elem_of_cons; done).
Qed.

Section exit.
Context (s : family) (e : Z) (qe : fproc) (xe : tree_node) (code : Z).
Context (Hs : family_ok init s) (He : member s e qe xe) (Hrun : running qe) (Hne : e ≠ init).

Definition finished_proc (q : fproc) : fproc := mk_fp (fp_pid q) (fp_uid q) (fp_group q) PROCESS_STATE_FINISHED code (fp_node q).
Definition exit_proc (p : Z) (q : fproc) : fproc := if decide (p = e) then finished_proc q else q.
(** What becomes of the tree node [n] *)
Definition adopted (n : Z) (x : tree_node) : tree_node :=
  if decide (n = tr_root (fm_tree s)) then with_children x (tnd_children x ++ tnd_children xe)
  else if decide (n ∈ tnd_children xe) then with_parent x (tr_root (fm_tree s)) else x.

(** A child of the process that exits, as a node, is a member with that parent. *)
Lemma orphan c : c ∈ tnd_children xe → ∃ cp cq cx, member s cp cq cx ∧ fp_node cq = c ∧ tnd_parent cx = fp_node qe.
Proof. by apply (fo_down _ _ Hs _ _ _ He Hrun). Qed.

Lemma root_not_orphan : tr_root (fm_tree s) ∉ tnd_children xe.
Proof.
  intros Hin. destruct (orphan _ Hin) as (cp & cq & cx & Hm & Hn & Hp). destruct (fo_init _ _ Hs) as (q & x & Hmi & _ & Hni & Hpi).
  destruct (member_inj _ _ _ _ _ _ _ Hs Hm Hmi) as (_ & _ & ->); [congruence|].
  destruct (member_node _ _ _ _ Hs He) as (_ & _ & H0 & _). congruence.
Qed.

(** The events of an exit, with the parent that is told *)
Definition exit_events (parent : Z) : list fevent :=
  [FCloseFds e; FFreeMappings e; FWakeup parent; FSignal parent SIGCHLD; FUnblock e; FSwitch].

Lemma exit_eq :
  ∃ s' parent, k_proc_process_exit s e code = Ok s' ∧ fm_events s' = fm_events s ++ exit_events parent ∧
    (∃ pq px, member s parent pq px ∧ fp_node pq = tnd_parent xe) ∧
    fm_list s' = fm_list s ∧ fm_live s' = fm_live s ∧ fm_next_pid s' = fm_next_pid s ∧
    fm_procs s' = <[e := finished_proc qe]> (fm_procs s) ∧ tr_id (fm_tree s') = tr_id (fm_tree s) ∧ tr_root (fm_tree s') = tr_root (fm_tree s) ∧
    ∀ n, tr_heap (fm_tree s') !! n = adopted n <$> tr_heap (fm_tree s) !! n.
Proof.
  destruct (member_node _ _ _ _ Hs He) as (_ & _ & H0 & _ & Hg & Ht). unfold k_proc_process_exit. rewrite Hg, bind_ok.
  cbn [emit with_proc fm_tree]. rewrite Ht, bind_ok. rewrite (proj2 (Z.eqb_neq _ _)) by (by apply (init_node s e qe xe)). cbn [andb].
  destruct (fo_init _ _ Hs) as (qi & xi & Hmi & Hri & Hni & Hpi). pose proof Hmi as (_ & _ & Hxi). rewrite Hni in Hxi.
  destruct (fo_down _ _ Hs _ _ _ He Hrun) as [Hnd _].
  destruct (reparent_ok (fm_tree s) (tnd_children xe) xi Hnd root_not_orphan Hxi) as (t' & -> & I1 & I2 & I3 & Hh).
  { intros c Hc. destruct (orphan c Hc) as (cp & cq & cx & (_ & _ & Hx) & <- & _). eauto. }
  rewrite bind_ok. assert (Hheap : ∀ n, tr_heap t' !! n = adopted n <$> tr_heap (fm_tree s) !! n).
  { intros n. rewrite Hh. unfold adopted. destruct (decide (n = _)) as [->|]; [by rewrite Hxi|]. destruct (decide (n ∈ _)); [done|]. by destruct (_ !! n). }
  destruct (fo_up _ _ Hs _ _ _ He Hne) as (pp & pq & px & Hmp & Hpe & Hrp & Hpar & _).
  pose proof He as (_ & _ & Hxe). pose proof Hmp as (_ & _ & Hxp). unfold tree_get. rewrite !Hheap, Hxe. cbn [fmap option_fmap option_map of_option].
  rewrite bind_ok. assert (Hself : fp_node qe ∉ tnd_children xe).
  { intros Hin. destruct (orphan _ Hin) as (cp & cq & cx & Hmc & Hnc & Hpc).
    destruct (member_inj _ _ _ _ _ _ _ Hs Hmc He) as (-> & -> & ->); [done|]. rewrite Hpar in Hpc.
    by destruct (member_inj _ _ _ _ _ _ _ Hs Hmp He). }
  assert (Ha : adopted (fp_node qe) xe = xe).
  { unfold adopted. rewrite decide_False by (by apply (init_node s e qe xe)). by rewrite decide_False. }
  rewrite Ha, Hpar. destruct (member_node _ _ _ _ Hs Hmp) as (_ & Hvp & Hp0 & _). rewrite (proj2 (truthy_true _)) by done.
  rewrite Hheap, Hxp. cbn [fmap option_fmap option_map of_option]. rewrite bind_ok.
  assert (Hv : tnd_value (adopted (fp_node pq) px) = pp).
  { unfold adopted. destruct (decide _); [done|]. by destruct (decide _). }
  rewrite Hv, (proj2 (truthy_true pp)), bind_ok by (apply (fo_member _ _ Hs pp); apply Hmp).
  eexists _, pp. split; [done|]. split; [cbn; by rewrite <- !app_assoc|]. split; [by exists pq, px|]. done.
Qed.

Lemma adopted_fields n x : tnd_tree (adopted n x) = tnd_tree x ∧ tnd_value (adopted n x) = tnd_value x.
Proof. unfold adopted. destruct (decide _); [done|]. by destruct (decide _). Qed.

(** What the state after an exit must satisfy *)
Definition exited s' : Prop :=
  fm_list s' = fm_list s ∧ fm_live s' = fm_live s ∧ fm_next_pid s' = fm_next_pid s ∧
  fm_procs s' = <[e := finished_proc qe]> (fm_procs s) ∧ tr_id (fm_tree s') = tr_id (fm_tree s) ∧ tr_root (fm_tree s') = tr_root (fm_tree s) ∧
  ∀ n, tr_heap (fm_tree s') !! n = adopted n <$> tr_heap (fm_tree s) !! n.

Lemma exited_member s' p q x : exited s' → member s p q x → member s' p (exit_proc p q) (adopted (fp_node q) x).
Proof.
  intros (E1 & _ & _ & E4 & _ & _ & Eh) Hm. pose proof Hm as (Hin & Hq & Hx).
  assert (Hn : fp_node (exit_proc p q) = fp_node q) by (unfold exit_proc; by destruct (decide _)).
  split; [by rewrite E1|]. rewrite Hn, Eh, Hx, E4. split; [|done]. unfold exit_proc. destruct (decide (p = e)) as [->|].
  - destruct (member_fun _ _ _ _ _ _ Hm He) as [-> ->]. by rewrite lookup_insert_eq.
  - by rewrite lookup_insert_ne.
Qed.

Lemma exited_inv s' p q' x' :
  exited s' → member s' p q' x' → ∃ q x, member s p q x ∧ q' = exit_proc p q ∧ x' = adopted (fp_node q) x.
Proof.
  intros Hex Hm. pose proof Hex as (E1 & _). assert (Hin : p ∈ fm_list s) by (destruct Hm as [Hin _]; by rewrite E1 in Hin).
  destruct (fo_member _ _ Hs p Hin) as (_ & _ & q & x & Hm0 & _). exists q, x.
  destruct (member_fun _ _ _ _ _ _ (exited_member s' p q x Hex Hm0) Hm) as [-> ->]. done.
Qed.

Lemma exit_proc_fields p q : fp_node (exit_proc p q) = fp_node q ∧ fp_pid (exit_proc p q) = fp_pid q.
Proof. unfold exit_proc. by destruct (decide _). Qed.

(** Orphans get the first process as their parent, the others keep theirs. *)
Lemma adopted_parent p q x :
  member s p q x → p ≠ init → tnd_parent (adopted (fp_node q) x) = if decide (fp_node q ∈ tnd_children xe) then tr_root (fm_tree s) else tnd_parent x.
Proof.
  intros Hm Hp. unfold adopted. rewrite decide_False by (by apply (init_node s p q x)). by destruct (decide _).
Qed.

(** A member is an orphan when its parent is the process that exits. *)
Lemma orphan_iff p q x : member s p q x → p ≠ init → fp_node q ∈ tnd_children xe ↔ tnd_parent x = fp_node qe.
Proof.
  intros Hm Hp. split.
  - intros Hin. destruct (orphan _ Hin) as (cp & cq & cx & Hmc & Hn & Hpc).
    by destruct (member_inj _ _ _ _ _ _ _ Hs Hmc Hm Hn) as (_ & _ & <-).
  - intros Hpar. destruct (fo_up _ _ Hs _ _ _ Hm Hp) as (pp & qq & y & Hmp & _ & _ & Hpp & Hc).
    by destruct (member_inj _ _ _ _ _ _ _ Hs Hmp He) as (_ & _ & <-); [congruence|].
Qed.

Lemma init_not_orphan q x : member s init q x → fp_node q ∉ tnd_children xe.
Proof.
  intros Hm Hin. destruct (fo_init _ _ Hs) as (qi & xi & Hmi & _ & Hni & _). destruct (member_fun _ _ _ _ _ _ Hm Hmi) as [-> ->].
  apply root_not_orphan. by rewrite <- Hni.
Qed.

Lemma exited_ok s' : exited s' → family_ok init s'.
Proof.
  intros Hex. pose proof Hex as (E1 & E2 & E3 & E4 & E5 & E6 & Eh).
  destruct (fo_init _ _ Hs) as (qi & xi & Hmi & Hri & Hni & Hpi).
  assert (Hi : exit_proc init qi = qi) by (unfold exit_proc; by rewrite decide_False by congruence).
  assert (Hai : adopted (fp_node qi) xi = with_children xi (tnd_children xi ++ tnd_children xe)) by (unfold adopted; by rewrite decide_True).
  split.
  - intros p Hin. rewrite E1 in Hin. destruct (fo_member _ _ Hs p Hin) as (Hp0 & Hl & q & x & Hm & Ht & Hv & Hn & Hpid).
    split; [done|]. split; [by rewrite E2|]. exists (exit_proc p q), (adopted (fp_node q) x).
    destruct (adopted_fields (fp_node q) x) as [-> ->], (exit_proc_fields p q) as [-> ->]. rewrite E5, E3. by split; [apply exited_member|].
  - exists (exit_proc init qi), (adopted (fp_node qi) xi). split; [by apply exited_member|]. by rewrite Hi, Hai, E6.
  - intros p q' x' (q & x & Hm & -> & ->)%exited_inv Hp; [|done]. rewrite (adopted_parent p q x Hm Hp), (proj1 (exit_proc_fields p q)).
    destruct (decide (fp_node q ∈ tnd_children xe)) as [Hin|Hnin].
    + exists init, (exit_proc init qi), (adopted (fp_node qi) xi). split; [by apply exited_member|]. rewrite Hi, Hai. split; [done|].
      split; [done|]. split; [done|]. apply elem_of_app. by right.
    + destruct (fo_up _ _ Hs _ _ _ Hm Hp) as (pp & qq & y & Hmp & Hpp & Hr & Hpar & Hc).
      assert (Hpe : pp ≠ e). { intros ->. apply Hnin. apply (orphan_iff p q x Hm Hp). by destruct (member_fun _ _ _ _ _ _ Hmp He) as [-> _]. }
      exists pp, (exit_proc pp qq), (adopted (fp_node qq) y). split; [by apply exited_member|]. split; [done|].
      rewrite (proj1 (exit_proc_fields pp qq)). split; [unfold exit_proc; by rewrite decide_False|]. split; [done|].
      unfold adopted. destruct (decide _); [apply elem_of_app; by left|]. by destruct (decide _).
  - intros p q' x' (q & x & Hm & -> & ->)%exited_inv Hr; [|done]. rewrite (proj1 (exit_proc_fields p q)).
    assert (Hpe : p ≠ e) by (intros ->; unfold exit_proc in Hr; by rewrite decide_True in Hr).
    assert (Hrq : running q) by (unfold exit_proc in Hr; by rewrite decide_False in Hr).
    destruct (fo_down _ _ Hs _ _ _ Hm Hrq) as [Hnd Hc].
    assert (Hold : ∀ c, c ∈ tnd_children x → c ∉ tnd_children xe).
    { intros c Hin Hin'. destruct (Hc c Hin) as (cp & cq & cx & Hmc & <- & Hpc). destruct (orphan _ Hin') as (cp' & cq' & cx' & Hmc' & Hn' & Hpc').
      destruct (member_inj _ _ _ _ _ _ _ Hs Hmc' Hmc Hn') as (-> & -> & ->). apply Hpe. by apply (member_inj s p e q qe x xe); [..|congruence]. }
    assert (Hkeep : ∀ c, c ∈ tnd_children x → ∃ cp cq cx, member s' cp cq cx ∧ fp_node cq = c ∧ tnd_parent cx = fp_node q).
    { intros c Hin. destruct (Hc c Hin) as (cp & cq & cx & Hmc & Hn & Hpc). exists cp, (exit_proc cp cq), (adopted (fp_node cq) cx).
      split; [by apply exited_member|]. split; [by rewrite (proj1 (exit_proc_fields cp cq))|].
      rewrite (adopted_parent cp cq cx Hmc).
      - by rewrite decide_False by (rewrite Hn; by apply Hold).
      - intros ->. destruct (member_fun _ _ _ _ _ _ Hmc Hmi) as [-> ->]. destruct (member_node _ _ _ _ Hs Hm) as (_ & _ & H0 & _). congruence. }
    unfold adopted at 1 2. destruct (decide (fp_node q = tr_root (fm_tree s))) as [Hroot|].
    + cbn [with_children tnd_children]. split.
      * apply NoDup_app. split; [done|]. split; [done|]. by apply (fo_down _ _ Hs _ _ _ He Hrun).
      * intros c [Hin|Hin]%elem_of_app; [by apply Hkeep|]. destruct (orphan _ Hin) as (cp & cq & cx & Hmc & Hn & Hpc).
        exists cp, (exit_proc cp cq), (adopted (fp_node cq) cx). split; [by apply exited_member|].
        split; [by rewrite (proj1 (exit_proc_fields cp cq))|]. assert (cp ≠ init).
        { intros ->. apply (init_not_orphan cq cx Hmc). by rewrite Hn. }
        rewrite (adopted_parent cp cq cx Hmc) by done. by rewrite decide_True by (by rewrite Hn).
    + destruct (decide _); (split; [done|]); apply Hkeep.
  - rewrite E1. apply (fo_list _ _ Hs).
  - intros p p' q q' x x' (q1 & x1 & Hm & -> & ->)%exited_inv (q2 & x2 & Hm' & -> & ->)%exited_inv Hpid; [|done..].
    rewrite !(proj2 (exit_proc_fields _ _)) in Hpid. by apply (fo_pids _ _ Hs p p' q1 q2 x1 x2).
  - rewrite E5. apply (fo_id _ _ Hs).
Qed.
End exit.

(** ** What reaping a child does *)

Section reap.
Context (s : family) (p : Z) (q : fproc) (x : tree_node) (c : Z) (cq : fproc) (cx : tree_node).
Context (Hs : family_ok init s) (Hp : member s p q x) (Hrun : running q) (Hc : member s c cq cx)
        (Hfin : fp_state cq = PROCESS_STATE_FINISHED) (Hpar : tnd_parent cx = fp_node q).

Lemma reap_not_init : c ≠ init.
Proof.
  intros ->. destruct (fo_init _ _ Hs) as (qi & xi & Hmi & Hri & _). by destruct (member_fun _ _ _ _ _ _ Hc Hmi) as [-> _].
Qed.

Lemma reap_other : p ≠ c.
Proof. intros ->. destruct (member_fun _ _ _ _ _ _ Hp Hc) as [-> _]. done. Qed.

Definition shrunk (n : Z) (y : tree_node) : tree_node :=
  if decide (n = fp_node q) then with_children y (remove_first (fp_node cq) (tnd_children y)) else y.

Definition reaped : family :=
  mk_fam (mk_tree (tr_id (fm_tree s)) (tr_root (fm_tree s)) (remove_first (fp_node cq) (tr_nodes (fm_tree s)))
    (delete (fp_node cq) (<[fp_node q := with_children x (remove_first (fp_node cq) (tnd_children x))]> (tr_heap (fm_tree s)))))
    (remove_first c (fm_list s)) (fm_procs s) (fm_live s ∖ {[c]}) (fm_next_pid s) (fm_events s).

Lemma node_other : fp_node q ≠ fp_node cq.
Proof. intros He. apply reap_other. by destruct (member_inj _ _ _ _ _ _ _ Hs Hp Hc He). Qed.

Lemma destroy_eq : k_proc_process_destroy s c = Ok reaped.
Proof.
  destruct (member_node _ _ _ _ Hs Hc) as (Ht & _ & _ & _ & Hg & _). unfold k_proc_process_destroy. rewrite Hg, bind_ok.
  pose proof Hc as (_ & _ & Hcx). pose proof Hp as (_ & _ & Hx). destruct (member_node _ _ _ _ Hs Hp) as (_ & _ & Hq0 & _).
  rewrite (remove_node_eq (fm_tree s) (fp_node cq) cx x), bind_ok by (rewrite ?Hpar; done). rewrite Hpar.
  unfold tree_free_node, tree_get. cbn [tr_heap]. rewrite lookup_insert_ne, Hcx by apply node_other. done.
Qed.

Lemma reaped_member p' q' x' : member s p' q' x' → p' ≠ c → member reaped p' q' (shrunk (fp_node q') x').
Proof.
  intros Hm Hne. pose proof Hm as (Hin & Hq' & Hx'). assert (Hnn : fp_node cq ≠ fp_node q').
  { intros He. apply Hne. by destruct (member_inj _ _ _ _ _ _ _ Hs Hm Hc (eq_sym He)). }
  split; [|split]; cbn [reaped fm_list fm_procs fm_tree tr_heap].
  - apply remove_first_elem; [apply (fo_list _ _ Hs)|done].
  - done.
  - rewrite lookup_delete_ne by done. unfold shrunk. destruct (decide (fp_node q' = fp_node q)) as [He|Hd].
    + destruct (member_inj _ _ _ _ _ _ _ Hs Hm Hp He) as (-> & -> & ->). by rewrite lookup_insert_eq.
    + by rewrite lookup_insert_ne.
Qed.

Lemma reaped_inv p' q' y :
  member reaped p' q' y → p' ≠ c ∧ ∃ x', member s p' q' x' ∧ y = shrunk (fp_node q') x'.
Proof.
  intros Hm. assert (Hin : p' ∈ fm_list s ∧ p' ≠ c).
  { destruct Hm as [Hin _]. cbn in Hin. apply remove_first_elem in Hin; [done|apply (fo_list _ _ Hs)]. }
  split; [apply Hin|]. destruct (fo_member _ _ Hs p' (proj1 Hin)) as (_ & _ & q0 & x' & Hm0 & _).
  destruct (member_fun _ _ _ _ _ _ (reaped_member p' q0 x' Hm0 (proj2 Hin)) Hm) as [-> ->]. by exists x'.
Qed.

Lemma shrunk_fields n y : tnd_tree (shrunk n y) = tnd_tree y ∧ tnd_value (shrunk n y) = tnd_value y ∧ tnd_parent (shrunk n y) = tnd_parent y.
Proof. unfold shrunk. by destruct (decide _). Qed.

(** Only the parent lists the child that goes. *)
Lemma shrunk_children p' q' x' :
  member s p' q' x' → running q' →
  NoDup (tnd_children (shrunk (fp_node q') x')) ∧ ∀ d, d ∈ tnd_children (shrunk (fp_node q') x') ↔ d ∈ tnd_children x' ∧ d ≠ fp_node cq.
Proof.
  intros Hm Hr. destruct (fo_down _ _ Hs _ _ _ Hm Hr) as [Hnd Hch]. unfold shrunk. destruct (decide (fp_node q' = fp_node q)) as [He|Hne].
  - cbn. split; [by apply remove_first_nodup|]. intros d. by apply remove_first_elem.
  - split; [done|]. intros d. split; [|by intros []]. intros Hd. split; [done|]. intros ->.
    destruct (Hch _ Hd) as (cp & cq' & cx' & Hmc & Hn & Hpc). destruct (member_inj _ _ _ _ _ _ _ Hs Hmc Hc Hn) as (-> & -> & ->). congruence.
Qed.

Lemma reaped_ok : family_ok init reaped.
Proof.
  split.
  - intros p' Hin. cbn in Hin. apply remove_first_elem in Hin as [Hin Hne]; [|apply (fo_list _ _ Hs)].
    destruct (fo_member _ _ Hs p' Hin) as (Hp0 & Hl & q' & x' & Hm & Ht & Hv & Hn & Hpid). split; [done|].
    split; [cbn; set_solver|]. exists q', (shrunk (fp_node q') x'). destruct (shrunk_fields (fp_node q') x') as (-> & -> & _).
    by split; [apply reaped_member|].
  - destruct (fo_init _ _ Hs) as (qi & xi & Hmi & Hri & Hni & Hpi). exists qi, (shrunk (fp_node qi) xi).
    split; [apply reaped_member; [done|apply not_eq_sym, reap_not_init]|]. destruct (shrunk_fields (fp_node qi) xi) as (_ & _ & ->). done.
  - intros p' q' y (Hne & x' & Hm & ->)%reaped_inv Hi. destruct (fo_up _ _ Hs _ _ _ Hm Hi) as (pp & qq & y & Hmp & Hpp & Hr & Hpr & Hch).
    exists pp, qq, (shrunk (fp_node qq) y). split; [apply reaped_member; [done|]|].
    { intros ->. by destruct (member_fun _ _ _ _ _ _ Hmp Hc) as [-> _]. }
    destruct (shrunk_fields (fp_node q') x') as (_ & _ & ->). do 3 (split; [done|]).
    apply (shrunk_children pp qq y Hmp Hr). split; [done|]. intros He. apply Hne. by destruct (member_inj _ _ _ _ _ _ _ Hs Hm Hc He).
  - intros p' q' y (Hne & x' & Hm & ->)%reaped_inv Hr. destruct (shrunk_children p' q' x' Hm Hr) as [Hnd Hch]. split; [done|].
    intros d [Hd Hdn]%Hch. destruct (fo_down _ _ Hs _ _ _ Hm Hr) as [_ Hdown]. destruct (Hdown d Hd) as (cp & cq' & cx' & Hmc & <- & Hpc).
    exists cp, cq', (shrunk (fp_node cq') cx'). destruct (shrunk_fields (fp_node cq') cx') as (_ & _ & ->).
    split; [apply reaped_member; [done|]|done]. intros ->. by destruct (member_fun _ _ _ _ _ _ Hmc Hc) as [-> _].
  - cbn. apply remove_first_nodup, (fo_list _ _ Hs).
  - intros p1 p2 q1 q2 x1 x2 (_ & y1 & Hm1 & ->)%reaped_inv (_ & y2 & Hm2 & ->)%reaped_inv. by apply (fo_pids _ _ Hs p1 p2 q1 q2 y1 y2).
  - apply (fo_id _ _ Hs).
Qed.
End reap.

(** ** Waiting *)

(** A child of [q] that a wait for [pid] may pick *)
Definition candidate s (q : fproc) (pid c : Z) (cq : fproc) : Prop :=
  ∃ cx, member s c cq cx ∧ tnd_parent cx = fp_node q ∧ waitpid_can_pick cq q pid = true.

Lemma wait_scan_ok s q pid l :
  family_ok init s → (∀ n, n ∈ l → ∃ c cq cx, member s c cq cx ∧ fp_node cq = n ∧ tnd_parent cx = fp_node q) →
  (∃ c cq, wait_scan s q pid l = Ok (true, Some c) ∧ candidate s q pid c cq ∧ fp_state cq = PROCESS_STATE_FINISHED) ∨
  (∃ was, wait_scan s q pid l = Ok (was, None) ∧
    (was = true → ∃ c cq, candidate s q pid c cq) ∧
    ∀ c cq, candidate s q pid c cq → fp_node cq ∈ l → was = true ∧ running cq).
Proof.
  intros Hs. induction l as [|n l IH]; intros Hl; cbn [wait_scan].
  { right. exists false. split; [done|]. split; [done|]. intros c cq _ H. by apply elem_of_nil in H. }
  destruct (Hl n) as (c & cq & cx & Hm & Hn & Hpar); [by left|]. destruct (member_node _ _ _ _ Hs Hm) as (_ & Hv & _ & _ & Hg & Ht).
  rewrite <- Hn, Ht, bind_ok, Hv, Hg, bind_ok.
  assert (Hsame : ∀ c' cq', candidate s q pid c' cq' → fp_node cq' = fp_node cq → cq' = cq).
  { intros c' cq' (cx' & Hm' & _) He. by destruct (member_inj _ _ _ _ _ _ _ Hs Hm' Hm He) as (_ & -> & _). }
  destruct IH as [(c1 & cq1 & E1 & H1 & H2)|(was & E1 & H1 & H2)]; [intros m Hin; apply Hl; by right|..]; rewrite E1.
  - left. destruct (waitpid_can_pick cq q pid) eqn:Hpick; [|by exists c1, cq1].
    destruct (Z.eqb_spec (fp_state cq) PROCESS_STATE_FINISHED); [exists c, cq; split; [done|]; split; [by exists cx|done]|].
    rewrite bind_ok. by exists c1, cq1.
  - destruct (waitpid_can_pick cq q pid) eqn:Hpick.
    + destruct (Z.eqb_spec (fp_state cq) PROCESS_STATE_FINISHED) as [Hf|Hf]; [left; exists c, cq; split; [done|]; split; [by exists cx|done]|].
      right. exists true. rewrite bind_ok. split; [done|]. split; [intros _; exists c, cq; by exists cx|].
      intros c' cq' Hcand [He|Hin]%elem_of_cons; [|by destruct (H2 c' cq' Hcand Hin)]. by rewrite (Hsame c' cq').
    + right. exists was. split; [done|]. split; [done|]. intros c' cq' Hcand [He|Hin]%elem_of_cons; [|by apply (H2 c')].
      pose proof Hcand as (cx' & _ & _ & Hpk). rewrite (Hsame c' cq') in Hpk by done. congruence.
Qed.

(** A candidate is among the children the code goes through. *)
Lemma candidate_child s p q x pid c cq :
  family_ok init s → member s p q x → candidate s q pid c cq → c ≠ init → fp_node cq ∈ tnd_children x.
Proof.
  intros Hs Hp (cx & Hm & Hpar & _) Hne. destruct (fo_up _ _ Hs _ _ _ Hm Hne) as (pp & qq & y & Hmp & _ & _ & Hpp & Hin).
  destruct (member_inj _ _ _ _ _ _ _ Hs Hmp Hp) as (-> & -> & ->); [congruence|done].
Qed.

Lemma candidate_not_init s p q x pid c cq : family_ok init s → member s p q x → candidate s q pid c cq → c ≠ init.
Proof.
  intros Hs Hp (cx & Hm & Hpar & _) ->. destruct (fo_init _ _ Hs) as (qi & xi & Hmi & _ & _ & Hpi).
  destruct (member_fun _ _ _ _ _ _ Hm Hmi) as [_ ->]. destruct (member_node _ _ _ _ Hs Hp) as (_ & _ & H0 & _). congruence.
Qed.

Lemma waitpid_unfold env s p pid status options :
  options ≤ PROCESS_WAITPID_WUNTRACED →
  k_proc_process_waitpid env s p pid status options =
  (q ← get_fproc s p;
   x ← tree_get (fm_tree s) (fp_node q);
   '(was, child) ← wait_scan s q pid (tnd_children x);
   if negb was then Ok (- ECHILD, None, s)
   else
     match child with
     | Some c =>
         cq ← get_fproc s c;
         s' ← k_proc_process_destroy s c;
         stale ← of_option (fm_procs s' !! c);
         Ok (fp_pid stale, if status then Some (fp_status cq) else None, s')
     | None =>
         if truthy (Z.land options PROCESS_WAITPID_WNOHANG) then Ok (- EINTR, None, s)
         else match env with [] => OutOfFuel | a :: env' => k_proc_process_waitpid env' (a s) p pid status options end
     end).
Proof.
  intros Ho. unfold k_proc_process_waitpid. rewrite (proj2 (Z.ltb_ge _ _)) by done. by destruct env.
Qed.

(** One round of the wait *)
Lemma wait_round env s p q x pid status options :
  family_ok init s → member s p q x → running q → options ≤ PROCESS_WAITPID_WUNTRACED →
  (∃ c cq s', candidate s q pid c cq ∧ fp_state cq = PROCESS_STATE_FINISHED ∧
    k_proc_process_waitpid env s p pid status options = Ok (fp_pid cq, if status then Some (fp_status cq) else None, s') ∧
    family_ok init s' ∧ fm_list s' = remove_first c (fm_list s)) ∨
  ((∀ c cq, ¬ candidate s q pid c cq) ∧ k_proc_process_waitpid env s p pid status options = Ok (- ECHILD, None, s)) ∨
  ((∃ c cq, candidate s q pid c cq) ∧ (∀ c cq, candidate s q pid c cq → running cq) ∧
    k_proc_process_waitpid env s p pid status options =
    if truthy (Z.land options PROCESS_WAITPID_WNOHANG) then Ok (- EINTR, None, s)
    else match env with [] => OutOfFuel | a :: env' => k_proc_process_waitpid env' (a s) p pid status options end).
Proof.
  intros Hs Hp Hrun Hopt. destruct (member_node _ _ _ _ Hs Hp) as (_ & _ & _ & _ & Hg & Ht).
  rewrite (waitpid_unfold env) by done. rewrite Hg, bind_ok, Ht, bind_ok. destruct (fo_down _ _ Hs _ _ _ Hp Hrun) as [_ Hdown].
  assert (Hchild : ∀ c cq, candidate s q pid c cq → fp_node cq ∈ tnd_children x).
  { intros c cq Hcand. apply (candidate_child s p q x pid c cq); try done. by apply (candidate_not_init s p q x pid c cq). }
  destruct (wait_scan_ok s q pid (tnd_children x) Hs Hdown) as [(c & cq & -> & Hcand & Hf)|(was & -> & H1 & H2)]; rewrite bind_ok; cbn [negb].
  - left. exists c, cq, (reaped s q x c cq). pose proof Hcand as (cx & Hm & Hpar & _). pose proof Hm as (_ & Hqc & _).
    destruct (member_node _ _ _ _ Hs Hm) as (_ & _ & _ & _ & -> & _). rewrite bind_ok, (destroy_eq s p q x c cq cx), bind_ok by done.
    cbn [reaped fm_procs]. rewrite Hqc. cbn [of_option]. rewrite bind_ok. do 3 (split; [done|]). split; [by apply (reaped_ok s p q x c cq cx)|done].
  - right. destruct was; cbn [negb].
    + right. split; [by apply H1|]. split; [|done]. intros c cq Hcand. by apply (H2 c cq Hcand), (Hchild c).
    + left. split; [|done]. intros c cq Hcand. by destruct (H2 c cq Hcand (Hchild c cq Hcand)).
Qed.

(** ** The theorems *)

(** A wait for children answers by what the children are: without one that matches the
    number asked for there is nothing to wait for; one that has finished is reaped, its
    number and exit status are the answer, and it is gone; if there are only running ones
    the caller is told so at once if it asked for that, and otherwise sleeps and looks
    again at the state it finds when it wakes. *)
Theorem waitpid_answers env s p q x pid status options :
  family_ok init s → member s p q x → running q → options ≤ PROCESS_WAITPID_WUNTRACED →
  (∃ c cq s', candidate s q pid c cq ∧ fp_state cq = PROCESS_STATE_FINISHED ∧
    k_proc_process_waitpid env s p pid status options = Ok (fp_pid cq, if status then Some (fp_status cq) else None, s') ∧
    family_ok init s' ∧ fm_list s' = remove_first c (fm_list s)) ∨
  ((∀ c cq, ¬ candidate s q pid c cq) ∧ k_proc_process_waitpid env s p pid status options = Ok (- ECHILD, None, s)) ∨
  ((∃ c cq, candidate s q pid c cq) ∧ (∀ c cq, candidate s q pid c cq → running cq) ∧
    k_proc_process_waitpid env s p pid status options =
    if truthy (Z.land options PROCESS_WAITPID_WNOHANG) then Ok (- EINTR, None, s)
    else match env with [] => OutOfFuel | a :: env' => k_proc_process_waitpid env' (a s) p pid status options end).
Proof. apply wait_round. Qed.

(** The steps of processes that run, the first one never exiting, and no process forking
    once the 2^31 numbers are used up; a wait that sleeps is a later step. *)
Inductive fam_step : family → family → Prop :=
| step_fork s src q x new node pid s' :
    member s src q x → running q → new ∉ fm_live s → new ∉ fm_list s → fm_procs s !! new = None → new ≠ 0 →
    tr_heap (fm_tree s) !! node = None → node ≠ 0 → counter_left s →
    k_proc_process_fork s src new node = Ok (pid, s') → fam_step s s'
| step_exit s e q x code s' :
    member s e q x → running q → e ≠ init → k_proc_process_exit s e code = Ok s' → fam_step s s'
| step_wait s p q x pid status options r o s' :
    member s p q x → running q → k_proc_process_waitpid [] s p pid status options = Ok (r, o, s') → fam_step s s'.

Lemma fam_step_ok s s' : fam_step s s' → family_ok init s → family_ok init s'.
Proof.
  destruct 1 as [s src q x new node pid s' Hm Hr H1 H2 H3 H4 H5 H6 H7 E|s e q x code s' Hm Hr Hne E|s p q x pid status options r o s' Hm Hr E]; intros Hs.
  - rewrite (fork_eq s src q x new node) in E by done. injection E as _ <-. by apply (forked_ok s src q x new node).
  - destruct (exit_eq s e q x code Hs Hm Hr Hne) as (s1 & parent & E1 & _ & _ & Hex). rewrite E1 in E. injection E as <-.
    by apply (exited_ok s e q x code Hs Hm Hr Hne).
  - destruct (Z.le_gt_cases options PROCESS_WAITPID_WUNTRACED) as [Ho|Ho].
    + destruct (wait_round [] s p q x pid status options Hs Hm Hr Ho) as [(c & cq & s1 & _ & _ & E1 & Hs1 & _)|[[_ E1]|(_ & _ & E1)]];
        rewrite E1 in E; [by injection E as _ _ <-|by injection E as _ _ <-|]. revert E. case_if; [by intros [= _ _ <-]|done].
    + unfold k_proc_process_waitpid in E. rewrite (proj2 (Z.ltb_lt _ _)) in E by done. by injection E as _ _ <-.
Qed.

(** C13: Whatever processes fork, exit and wait in whatever order, as long as the counter of
    the process numbers (an int32_t) has not come to its end at a fork and the first process
    does not exit, the process list, the tree and the processes agree: every listed process is alive with a node of its own
    and a number of its own, its parent is a listed process that has not finished and
    lists it, and a running process lists its children only, each once; and neither
    forking nor exiting ever follows a stale pointer. *)
Theorem family_kept s s' :
  family_ok init s → rtc fam_step s s' →
  family_ok init s' ∧
  ∀ p q x, member s' p q x → running q →
    (∀ new node, new ∉ fm_live s' → new ∉ fm_list s' → fm_procs s' !! new = None → tr_heap (fm_tree s') !! node = None → node ≠ 0 →
      ∃ s2, k_proc_process_fork s' p new node = Ok (fm_next_pid s', s2)) ∧
    (∀ code, p ≠ init → ∃ s2, k_proc_process_exit s' p code = Ok s2).
Proof.
  intros Hs Hsteps. assert (Hs' : family_ok init s').
  { induction Hsteps as [s|s s1 s2 Hstep _ IH]; [done|]. apply IH. by apply (fam_step_ok s). }
  split; [done|]. intros p q x Hm Hr. split.
  - intros new node H1 H2 H3 H4 H5. rewrite (fork_eq s' p q x new node) by done. by eexists.
  - intros code Hne. destruct (exit_eq s' p q x code Hs' Hm Hr Hne) as (s2 & parent & E & _). by exists s2.
Qed.

(** C22: An exit is seen by the parent: it is woken and sent SIGCHLD, and its wait for the
    number of the child answers at once with the number and the exit code; all children of
    the process that exits are then children of the first process. *)
Theorem exit_then_wait s e q x code pp pq px env :
  family_ok init s → member s e q x → running q → e ≠ init → 0 < fp_pid q →
  member s pp pq px → fp_node pq = tnd_parent x →
  ∃ s1 s2, k_proc_process_exit s e code = Ok s1 ∧
    fm_events s1 = fm_events s ++ [FCloseFds e; FFreeMappings e; FWakeup pp; FSignal pp SIGCHLD; FUnblock e; FSwitch] ∧
    k_proc_process_waitpid env s1 pp (fp_pid q) true 0 = Ok (fp_pid q, Some code, s2) ∧
    fm_list s2 = remove_first e (fm_list s) ∧ family_ok init s2 ∧
    ∀ c cq cx, member s c cq cx → tnd_parent cx = fp_node q →
      ∃ cx', tr_heap (fm_tree s1) !! fp_node cq = Some cx' ∧ tnd_parent cx' = tr_root (fm_tree s1).
Proof.
  intros Hs Hm Hr Hne Hpid Hmp Hpar. destruct (exit_eq s e q x code Hs Hm Hr Hne) as (s1 & parent & E & Hev & (pq' & px' & Hmp' & Hpar') & Hex).
  destruct (member_inj _ _ _ _ _ _ _ Hs Hmp' Hmp) as (-> & -> & ->); [congruence|].
  assert (Hs1 : family_ok init s1) by (by apply (exited_ok s e q x code Hs Hm Hr Hne)).
  assert (Hpe : pp ≠ e).
  { intros ->. destruct (fo_up _ _ Hs _ _ _ Hm Hne) as (p' & q' & y & Hm' & Hp' & _ & Hpn & _). apply Hp'.
    by destruct (member_inj _ _ _ _ _ _ _ Hs Hm' Hmp); [congruence|]. }
  assert (Hrp : running pq).
  { destruct (fo_up _ _ Hs _ _ _ Hm Hne) as (p' & q' & y & Hm' & _ & Hr' & Hpn & _).
    by destruct (member_inj _ _ _ _ _ _ _ Hs Hm' Hmp) as (_ & <- & _); [congruence|]. }
  pose proof (exited_member s e q x code Hm Hr s1 pp pq px Hex Hmp) as Hmp1. unfold exit_proc in Hmp1. rewrite decide_False in Hmp1 by done.
  pose proof (exited_member s e q x code Hm Hr s1 e q x Hex Hm) as He1. unfold exit_proc in He1. rewrite decide_True in He1 by done.
  assert (Hnx : tnd_parent (adopted s x (fp_node q) x) = fp_node pq).
  { rewrite (adopted_parent s x Hs e q x Hm Hne), decide_False; [done|]. rewrite (orphan_iff s e q x Hs Hm Hr e q x Hm Hne), <- Hpar.
    intros Heq. apply Hpe. by destruct (member_inj _ _ _ _ _ _ _ Hs Hmp Hm Heq). }
  assert (Hcand : candidate s1 pq (fp_pid q) e (finished_proc code q)).
  { exists (adopted s x (fp_node q) x). split; [done|]. split; [done|]. unfold waitpid_can_pick.
    rewrite (proj2 (Z.ltb_ge _ _)), (proj2 (Z.eqb_neq _ _)), (proj2 (Z.ltb_lt _ _)) by lia. apply Z.eqb_refl. }
  destruct (wait_round env s1 pp pq _ (fp_pid q) true 0 Hs1 Hmp1 Hrp) as [(c & cq & s2 & Hc & Hf & E2 & Hs2 & Hl2)|[[Hno _]|(_ & Hall & _)]];
    [done| |by destruct (Hno _ _ Hcand)|by destruct (Hall _ _ Hcand)].
  assert (Hce : c = e ∧ cq = finished_proc code q).
  { destruct Hc as (cx & Hmc & _ & Hpk). unfold waitpid_can_pick in Hpk.
    rewrite (proj2 (Z.ltb_ge _ _)), (proj2 (Z.eqb_neq _ _)), (proj2 (Z.ltb_lt _ _)) in Hpk by lia. apply Z.eqb_eq in Hpk.
    assert (c = e) as -> by (by apply (fo_pids _ _ Hs1 c e cq (finished_proc code q) cx (adopted s x (fp_node q) x))).
    by destruct (member_fun _ _ _ _ _ _ He1 Hmc). }
  destruct Hce as [-> ->]. exists s1, s2. split; [done|]. split; [done|]. split; [done|].
  pose proof Hex as (El & _ & _ & _ & _ & Er & Eh). split; [by rewrite Hl2, El|]. split; [done|].
  intros c cq cx Hmc Hpc. assert (Hci : c ≠ init).
  { intros ->. destruct (fo_init _ _ Hs) as (qi & xi & Hmi & _ & _ & Hpi). destruct (member_fun _ _ _ _ _ _ Hmc Hmi) as [_ ->].
    destruct (member_node _ _ _ _ Hs Hm) as (_ & _ & H0 & _). congruence. }
  pose proof Hmc as (_ & _ & Hcx). exists (adopted s x (fp_node cq) cx). rewrite Eh, Hcx. split; [done|].
  rewrite (adopted_parent s x Hs c cq cx Hmc Hci), Er, decide_True; [done|]. by apply (orphan_iff s e q x Hs Hm Hr c cq cx Hmc Hci).
Qed.

(** A child is put into the group of its parent's number, not of its parent's group, and a
    wait for number 0 asks for the caller's group: a process that is not the head of its
    own group and has just forked is told it has no children. *)
Theorem waitpid_own_group_misses env s src q x new node status :
  family_ok init s → member s src q x → running q → fp_group q ≠ fp_pid q → tnd_children x = [] →
  new ∉ fm_live s → new ∉ fm_list s → fm_procs s !! new = None → new ≠ 0 → tr_heap (fm_tree s) !! node = None → node ≠ 0 → counter_left s →
  ∃ s1, k_proc_process_fork s src new node = Ok (fm_next_pid s, s1) ∧
    (∃ cq cx, member s1 new cq cx ∧ fp_pid cq = fm_next_pid s ∧ tnd_parent cx = fp_node q) ∧
    k_proc_process_waitpid env s1 src 0 status 0 = Ok (- ECHILD, None, s1).
Proof.
  intros Hs Hm Hr Hg Hleaf H1 H2 H3 H4 H5 H6 H7. exists (forked s q x new node).
  split; [by apply (fork_eq s src q x new node)|].
  pose proof (forked_new s src q x new node Hm H5) as Hnew. split; [by exists (forked_proc s q node), (forked_node s q new)|].
  assert (Hs1 : family_ok init (forked s q x new node)) by (by apply (forked_ok s src q x new node)).
  pose proof (forked_old s src q x new node Hs Hm Hr H3 H5 src q x Hm) as Hm1.
  assert (Hno : ∀ c cq, ¬ candidate (forked s q x new node) q 0 c cq).
  { intros c cq (cx & Hmc & Hpc & Hpk). apply (forked_inv s src q x new node Hs Hm Hr H3 H5) in Hmc as [(-> & -> & ->)|(cx' & Hmc & ->)].
    - unfold waitpid_can_pick in Hpk. cbn in Hpk. apply Z.eqb_eq in Hpk. congruence.
    - rewrite (proj1 (grown_parent src node c cx')) in Hpc. destruct (decide (c = init)) as [->|Hci].
      + destruct (fo_init _ _ Hs) as (qi & xi & Hmi & _ & _ & Hpi). destruct (member_fun _ _ _ _ _ _ Hmc Hmi) as [_ ->].
        destruct (member_node _ _ _ _ Hs Hm) as (_ & _ & H0 & _). congruence.
      + destruct (fo_up _ _ Hs _ _ _ Hmc Hci) as (pp & qq & y & Hmp & _ & _ & Hpp & Hin).
        destruct (member_inj _ _ _ _ _ _ _ Hs Hmp Hm) as (_ & _ & ->); [congruence|]. rewrite Hleaf in Hin. by apply elem_of_nil in Hin. }
  destruct (wait_round env _ src q _ 0 status 0 Hs1 Hm1 Hr) as [(c & cq & s2 & Hc & _)|[[_ E]|((c & cq & Hc) & _)]];
    [done|by destruct (Hno _ _ Hc)|done|by destruct (Hno _ _ Hc)].
Qed.

(** At the end of the counter the number after the last one is negative: the fork after it
    answers as if it had failed. *)
Theorem pid_counter_wraps s src q x new node :
  family_ok init s → member s src q x → new ∉ fm_live s → new ∉ fm_list s → fm_procs s !! new = None →
  tr_heap (fm_tree s) !! node = None → node ≠ 0 → fm_next_pid s = 2 ^ 31 - 1 →
  ∃ s1, k_proc_process_fork s src new node = Ok (2 ^ 31 - 1, s1) ∧ fm_next_pid s1 = - 2 ^ 31.
Proof.
  intros Hs Hm H1 H2 H3 H4 H5 Hc. rewrite (fork_eq s src q x new node) by done. rewrite Hc. eexists. split; [done|].
  cbn [fm_next_pid]. vm_compute. reflexivity.
Qed.
End family.

(** ** An example: the first process, a shell, and a program it has started *)

Definition demo_family : family :=
  mk_fam (mk_tree 1 10 [10; 11; 12]
    (list_to_map [(10, mk_tree_node 1 0 [11] 100); (11, mk_tree_node 1 10 [12] 101); (12, mk_tree_node 1 11 [] 102)]))
    [100; 101; 102]
    (list_to_map [(100, mk_fp 1 0 0 1 0 10); (101, mk_fp 2 0 1 3 0 11); (102, mk_fp 3 0 2 1 0 12)])
    {[100; 101; 102]} 4 [].

Lemma demo_members p q x :
  member demo_family p q x →
  (p = 100 ∧ q = mk_fp 1 0 0 1 0 10 ∧ x = mk_tree_node 1 0 [11] 100) ∨
  (p = 101 ∧ q = mk_fp 2 0 1 3 0 11 ∧ x = mk_tree_node 1 10 [12] 101) ∨
  (p = 102 ∧ q = mk_fp 3 0 2 1 0 12 ∧ x = mk_tree_node 1 11 [] 102).
Proof.
  intros (Hin & Hq & Hx). cbn [demo_family fm_list] in Hin.
  apply elem_of_cons in Hin as [->|Hin]; [left|apply elem_of_cons in Hin as [->|Hin]; [right; left|apply list_elem_of_singleton in Hin as ->; right; right]];
    injection Hq as <-; injection Hx as <-; done.
Qed.

Lemma demo_family_ok : family_ok 100 demo_family.
Proof.
  assert (M0 : member demo_family 100 (mk_fp 1 0 0 1 0 10) (mk_tree_node 1 0 [11] 100)) by (split; [set_solver|done]).
  assert (M1 : member demo_family 101 (mk_fp 2 0 1 3 0 11) (mk_tree_node 1 10 [12] 101)) by (split; [set_solver|done]).
  assert (M2 : member demo_family 102 (mk_fp 3 0 2 1 0 12) (mk_tree_node 1 11 [] 102)) by (split; [set_solver|done]).
  split.
  - intros p Hin. cbn [demo_family fm_list] in Hin.
    apply elem_of_cons in Hin as [->|Hin]; [|apply elem_of_cons in Hin as [->|Hin]; [|apply list_elem_of_singleton in Hin as ->]];
      (split; [done|]; split; [set_solver|]); [eexists _, _; split; [exact M0|]..|eexists _, _; split; [exact M1|]|eexists _, _; split; [exact M2|]];
      repeat split; cbn; lia.
  - eexists _, _. by split; [exact M0|].
  - intros p q x [(-> & -> & ->)|[(-> & -> & ->)|(-> & -> & ->)]]%demo_members Hne; [done|..].
    + eexists _, _, _. split; [exact M0|]. repeat split; try done. set_solver.
    + eexists _, _, _. split; [exact M1|]. repeat split; try done. set_solver.
  - intros p q x [(-> & -> & ->)|[(-> & -> & ->)|(-> & -> & ->)]]%demo_members _; cbn [tnd_children].
    + split; [apply NoDup_singleton|]. intros c ->%list_elem_of_singleton. eexists _, _, _. by split; [exact M1|].
    + split; [apply NoDup_singleton|]. intros c ->%list_elem_of_singleton. eexists _, _, _. by split; [exact M2|].
    + split; [constructor|]. intros c Hc. by apply elem_of_nil in Hc.
  - cbn. repeat (apply NoDup_cons; split; [set_solver|]). constructor.
  - intros p p' q q' x x' [(-> & -> & ->)|[(-> & -> & ->)|(-> & -> & ->)]]%demo_members
      [(-> & -> & ->)|[(-> & -> & ->)|(-> & -> & ->)]]%demo_members; done.
  - done.
Qed.

Lemma demo_shell : member demo_family 101 (mk_fp 2 0 1 3 0 11) (mk_tree_node 1 10 [12] 101).
Proof. split; [set_solver|done]. Qed.

Lemma demo_program : member demo_family 102 (mk_fp 3 0 2 1 0 12) (mk_tree_node 1 11 [] 102).
Proof. split; [set_solver|done]. Qed.

(** The shell looks for a child without sleeping: the program runs. *)
Lemma waitpid_answers_witness :
  k_proc_process_waitpid [] demo_family 101 (-1) true 1 = Ok (- EINTR, None, demo_family).
Proof.
  destruct (waitpid_answers 100 [] demo_family 101 _ _ (-1) true 1 demo_family_ok demo_shell) as [(c & cq & s' & Hc & Hf & _)|[[Hno _]|(_ & _ & E)]].
  - done.
  - done.
  - destruct Hc as (cx & Hm & _). apply demo_members in Hm as [(-> & -> & ->)|[(-> & -> & ->)|(-> & -> & ->)]]; discriminate Hf.
  - destruct (Hno 102 (mk_fp 3 0 2 1 0 12)). eexists. split; [exact demo_program|done].
  - exact E.
Defined.

Lemma family_kept_witness :
  family_ok 100 demo_family ∧ ∃ s2, k_proc_process_fork demo_family 101 103 13 = Ok (4, s2).
Proof.
  destruct (family_kept 100 demo_family demo_family demo_family_ok (rtc_refl _ _)) as [Hok Hrun].
  split; [exact Hok|]. destruct (Hrun 101 _ _ demo_shell) as [Hfork _]; [done|].
  apply (Hfork 103 13); [set_solver|set_solver|done|done|done].
Defined.

(** The program exits with 7, and the shell waits for it. *)
Lemma exit_then_wait_witness :
  ∃ s1 s2, k_proc_process_exit demo_family 102 7 = Ok s1 ∧
    k_proc_process_waitpid [] s1 101 3 true 0 = Ok (3, Some 7, s2) ∧ fm_list s2 = [100; 101].
Proof.
  destruct (exit_then_wait 100 demo_family 102 _ _ 7 101 (mk_fp 2 0 1 3 0 11) (mk_tree_node 1 10 [12] 101) [] demo_family_ok demo_program) as (s1 & s2 & E1 & _ & E2 & El & _).
  - done.
  - done.
  - done.
  - exact demo_shell.
  - done.
  - exists s1, s2. split; [exact E1|]. split; [exact E2|exact El].
Defined.

(** The program forks, and waits for its group. *)
Lemma waitpid_own_group_misses_witness :
  ∃ s1, k_proc_process_fork demo_family 102 103 13 = Ok (4, s1) ∧ k_proc_process_waitpid [] s1 102 0 true 0 = Ok (- ECHILD, None, s1).
Proof.
  destruct (waitpid_own_group_misses 100 [] demo_family 102 _ _ 103 13 true demo_family_ok demo_program) as (s1 & E1 & _ & E2).
  - done.
  - done.
  - done.
  - set_solver.
  - set_solver.
  - done.
  - done.
  - done.
  - done.
  - split; vm_compute; [discriminate|reflexivity].
  - exists s1. split; [exact E1|exact E2].
Defined.

(** The program forks when the counter is at its end. *)
Definition late_family : family :=
  mk_fam (fm_tree demo_family) (fm_list demo_family) (fm_procs demo_family) (fm_live demo_family) (2 ^ 31 - 1) [].

Lemma late_family_ok : family_ok 100 late_family.
Proof.
  destruct demo_family_ok as [H1 H2 H3 H4 H5 H6 H7]. split; [|exact H2|exact H3|exact H4|exact H5|exact H6|exact H7].
  intros p Hp. destruct (H1 p Hp) as (Hp0 & Hl & q & x & Hm & Ht & Hv & Hn & Hlt). split; [exact Hp0|]. split; [exact Hl|].
  exists q, x. split; [exact Hm|]. split; [exact Ht|]. split; [exact Hv|]. split; [exact Hn|]. cbn in *. lia.
Qed.

Lemma pid_counter_wraps_witness :
  ∃ s1, k_proc_process_fork late_family 102 103 13 = Ok (2147483647, s1) ∧ fm_next_pid s1 = - 2147483648.
Proof.
  apply (pid_counter_wraps 100 late_family 102 (mk_fp 3 0 2 1 0 12) (mk_tree_node 1 11 [] 102) 103 13 late_family_ok demo_program).
  - set_solver.
  - set_solver.
  - done.
  - done.
  - done.
  - done.
Defined.
