(* ===== verification/Shm.v ===== *)
(** * kernel/src/mem/shm.c: shared memory objects

    An object is a list of page frames with a name, kept in the list of its directory and in
    the list of all objects.  The file-system nodes that stand for it are values of Vfs;
    [vn_device] is the address of the object, or of the directory's list.  Frames come from
    and go back to the allocator of Pmm.  Lists are the sequences of TypesList. *)

From S2P Require Import Prelude.
From S2P Require Import TypesList.
From S2P Require Import Pmm.
From S2P Require Import Paging.
From S2P Require Import Path.
From S2P Require Import Vfs.

Record shm_node := mk_shm_node {
  shm_name : list Z;
  shm_frames : list Z;
  shm_root : Z; (* the list of its directory *)
  shm_links : Z
}.

Record shm := mk_shm {
  sh_pmm : pmm;
  sh_mappings : list Z; (* [__shm_mappings] *)
  sh_dirs : gmap Z (list Z);
  sh_heap : gmap Z shm_node
}.

Definition get_shm (s : shm) (a : Z) : res shm_node := of_option (sh_heap s !! a).
Definition get_dir (s : shm) (d : Z) : res (list Z) := of_option (sh_dirs s !! d).
Definition put_shm (s : shm) (a : Z) (n : shm_node) : shm :=
  mk_shm (sh_pmm s) (sh_mappings s) (sh_dirs s) (<[a := n]> (sh_heap s)).
Definition put_dir (s : shm) (d : Z) (l : list Z) : shm :=
  mk_shm (sh_pmm s) (sh_mappings s) (<[d := l]> (sh_dirs s)) (sh_heap s).
Definition with_pmm (s : shm) (p : pmm) : shm := mk_shm p (sh_mappings s) (sh_dirs s) (sh_heap s).
Definition with_frames (n : shm_node) (l : list Z) : shm_node :=
  mk_shm_node (shm_name n) l (shm_root n) (shm_links n).
Definition with_shm_links (n : shm_node) (l : Z) : shm_node :=
  mk_shm_node (shm_name n) (shm_frames n) (shm_root n) l.

(** [__k_mem_shm_create_shm_node]: the object at the new address [a]; [strncpy] copies at
    most 256 characters. *)
Definition shm_create_shm_node (s : shm) (name : list Z) (a : Z) : shm :=
  let n := mk_shm_node (take 256 name) [] 0 0 in
  mk_shm (sh_pmm s) (sh_mappings s ++ [a]) (sh_dirs s) (<[a := n]> (sh_heap s)).

Definition shm_open (s : shm) (node : vnode) : res shm :=
  n ← get_shm s (vn_device node);
  Ok (put_shm s (vn_device node) (with_shm_links n (s32 (shm_links n + 1)))).

(** The loop of [__k_mem_shm_remove] *)
Fixpoint free_frames (p : pmm) (frames : list Z) : res pmm :=
  match frames with
  | [] => Ok p
  | f :: rest => p' ← k_mem_pmm_free p f 1; free_frames p' rest
  end.

Definition shm_remove (s : shm) (node : vnode) : res shm :=
  let a := vn_device node in
  n ← get_shm s a;
  p ← free_frames (sh_pmm s) (shm_frames n);
  l ← get_dir s (shm_root n);
  Ok (mk_shm p (remove_first a (sh_mappings s)) (<[shm_root n := remove_first a l]> (sh_dirs s))
        (delete a (sh_heap s))).

Definition shm_close (s : shm) (node : vnode) : res shm :=
  n ← get_shm s (vn_device node);
  let links := s32 (shm_links n - 1) in
  let s1 := put_shm s (vn_device node) (with_shm_links n links) in
  if links <=? 0 then shm_remove s1 node else Ok s1.

(** The two loops of [__k_mem_shm_truncate]; shrinking counts its index down to 0. *)
Fixpoint grow_frames (p : pmm) (frames : list Z) (n : nat) : res (list Z * pmm) :=
  match n with
  | O => Ok (frames, p)
  | S n' => '(frame, p') ← k_mem_pmm_alloc_frames p 1; grow_frames p' (frames ++ [frame]) n'
  end.

Fixpoint shrink_frames (p : pmm) (frames : list Z) (n : nat) : res (list Z * pmm) :=
  match n with
  | O => Ok (frames, p)
  | S i =>
      frame ← of_option (frames !! i);
      p' ← k_mem_pmm_free p frame 1;
      shrink_frames p' (remove_first frame frames) i
  end.

(** [__k_mem_shm_truncate]: the node with its new size; the answer is always 0. *)
Definition shm_truncate (s : shm) (node : vnode) (sz : Z) : res (vnode * shm) :=
  let diff := s32 (sz - vn_size node) in
  let diff' := if 0 <? diff then diff else s32 (- diff) in
  let pages := u32 (Z.quot diff' 0x1000) in
  let bytes := u32 (Z.rem diff' 0x1000) in
  let count := u32 (pages + b2z (0 <? bytes)) in
  n ← get_shm s (vn_device node);
  let node' := mk_vnode (vn_name node) (vn_device node) (vn_mode node) (vn_flags node) (vn_inode node) sz
                 (vn_fs node) (vn_links node) (vn_path node) (vn_mountpoint node) in
  '(frames, p) ← (if 0 <? diff then grow_frames (sh_pmm s) (shm_frames n) (Z.to_nat count)
                  else shrink_frames (sh_pmm s) (shm_frames n) (Z.to_nat (s32 (count - 1) + 1)));
  Ok (node', put_shm (with_pmm s p) (vn_device node) (with_frames n frames)).

(** The tables of operations of objects and of their directory *)
Definition FS_SHM : Z := 7.
Definition FS_SHM_ROOT : Z := 8.

(** [__k_mem_shm_create_node] *)
Definition shm_create_node (a : Z) (n : shm_node) : res vnode :=
  v ← vfs_create_node (shm_name n);
  Ok (mk_vnode (vn_name v) a (vn_mode v) VFS_FILE (vn_inode v) (vn_size v) FS_SHM (vn_links v) (vn_path v)
        (vn_mountpoint v)).

(** [__k_mem_shm_create]; [a] is the address of the new object. *)
Definition shm_create (s : shm) (root : vnode) (path : list Z) (a : Z) : res (vnode * shm) :=
  let s1 := shm_create_shm_node s path a in
  n ← get_shm s1 a;
  let n' := mk_shm_node (shm_name n) (shm_frames n) (vn_device root) (shm_links n) in
  par ← get_dir s1 (vn_device root);
  v ← shm_create_node a n';
  Ok (v, put_dir (put_shm s1 a n') (vn_device root) (par ++ [a])).

Definition shm_readdir (s : shm) (dir : vnode) (index : Z) : res (option vdirent) :=
  ls ← get_dir s (vn_device dir);
  if index =? 0 then Ok (Some (mk_dirent [DOT] 1))
  else if index =? 1 then Ok (Some (mk_dirent [DOT; DOT] 1))
  else
    let i := index - 2 in
    match ls !! Z.to_nat i with
    | Some a => n ← get_shm s a; Ok (Some (mk_dirent (shm_name n) i))
    | None => Ok None
    end.

Fixpoint shm_find (s : shm) (ls : list Z) (path : list Z) : res (option vnode) :=
  match ls with
  | [] => Ok None
  | a :: rest =>
      n ← get_shm s a;
      if bool_decide (shm_name n = path) then v ← shm_create_node a n; Ok (Some v)
      else shm_find s rest path
  end.

Definition shm_finddir (s : shm) (root : vnode) (path : list Z) : res (option vnode) :=
  ls ← get_dir s (vn_device root); shm_find s ls path.

(** "[shm-root]" *)
Definition SHM_ROOT_NAME : list Z := [91; 115; 104; 109; 45; 114; 111; 111; 116; 93].

(** [__k_mem_shm_create_root]; [d] is the address of its list. *)
Definition shm_create_root (s : shm) (d : Z) : res (vnode * shm) :=
  v ← vfs_create_node SHM_ROOT_NAME;
  Ok (mk_vnode (vn_name v) d (vn_mode v) VFS_DIR (vn_inode v) (vn_size v) FS_SHM_ROOT (vn_links v) (vn_path v)
        (vn_mountpoint v), put_dir s d []).

(** [k_mem_shm_init], without mounting the node at /dev/shm *)
Definition k_mem_shm_init (p : pmm) (d : Z) : res (vnode * shm) := shm_create_root (mk_shm p [] ∅ ∅) d.

Definition k_mem_is_shm (s : shm) (node : vnode) : bool := bool_decide (vn_device node ∈ sh_mappings s).

(** ** Frames: freeing, shrinking, growing *)

(** [f] is the address of a frame that is taken. *)
Definition taken (p : pmm) (f : Z) : Prop := ∃ k, f = 0x1000 * k ∧ 0 ≤ k < 2 ^ 20 ∧ frame_free p k = false.

Section frames.
Implicit Types (p : pmm) (l : list Z).

Lemma free_one p f :
  pmm_wf p → taken p f →
  ∃ p', k_mem_pmm_free p f 1 = Ok p' ∧ pmm_wf p' ∧
    ∀ x, frame_free p' x = bool_decide (0x1000 * x = f) || frame_free p x.
Proof.
  intros Hwf (k & -> & Hk & Hf). destruct (pmm_free_spec p k 1 Hwf) as (p' & -> & Hwf' & Hff); [lia..|].
  exists p'. split; [done|]. split; [done|]. intros x. rewrite Hff. f_equal. change (Z.to_nat 1) with 1%nat. cbn [used_prefix]. rewrite Hf.
  apply eq_true_iff_eq. rewrite in_run_true, bool_decide_eq_true. lia.
Qed.

Lemma taken_mono p p' l f :
  (∀ x, frame_free p' x = bool_decide (0x1000 * x ∈ l) || frame_free p x) → f ∉ l → taken p f → taken p' f.
Proof.
  intros Hff Hf (k & -> & Hk & Ht). exists k. split; [done|]. split; [done|].
  rewrite Hff, Ht, bool_decide_eq_false_2 by done. done.
Qed.

Lemma free_frames_ok l p :
  pmm_wf p → NoDup l → Forall (taken p) l →
  ∃ p', free_frames p l = Ok p' ∧ pmm_wf p' ∧
    ∀ x, frame_free p' x = bool_decide (0x1000 * x ∈ l) || frame_free p x.
Proof.
  intros Hwf Hnd Hl. revert p Hwf Hl. induction Hnd as [|f l Hf Hnd IH]; intros p Hwf Hl; cbn [free_frames].
  - exists p. split; [done|]. split; [done|]. intros x. by rewrite bool_decide_eq_false_2 by set_solver.
  - inversion Hl as [|? ? Htf Htl]; subst. destruct (free_one p f Hwf Htf) as (p1 & -> & Hwf1 & Hff1).
    rewrite bind_ok. destruct (IH p1 Hwf1) as (p2 & -> & Hwf2 & Hff2).
    { apply Forall_forall. intros g Hg. rewrite Forall_forall in Htl.
      apply (taken_mono p p1 [f]); [|set_solver|by apply Htl]. intros x. rewrite Hff1. f_equal.
      apply bool_decide_ext. set_solver. }
    exists p2. split; [done|]. split; [done|]. intros x. rewrite Hff2, Hff1, orb_assoc. f_equal.
    apply eq_true_iff_eq. rewrite orb_true_iff, !bool_decide_eq_true. set_solver.
Qed.

Lemma remove_first_middle x l1 l2 : x ∉ l1 → remove_first x (l1 ++ x :: l2) = l1 ++ l2.
Proof.
  induction l1 as [|y l1 IH]; intros Hx; cbn; [by rewrite Z.eqb_refl|].
  rewrite (proj2 (Z.eqb_neq _ _)) by set_solver. rewrite IH by set_solver. done.
Qed.

(** Shrinking by [m] frames drops the first [m], whichever way the index runs. *)
Lemma shrink_ok m l p :
  pmm_wf p → NoDup l → Forall (taken p) l → (m ≤ length l)%nat →
  ∃ p', shrink_frames p l m = Ok (drop m l, p') ∧ pmm_wf p' ∧
    ∀ x, frame_free p' x = bool_decide (0x1000 * x ∈ take m l) || frame_free p x.
Proof.
  revert l p. induction m as [|m IH]; intros l p Hwf Hnd Hl Hm; cbn [shrink_frames].
  - exists p. split; [done|]. split; [done|]. intros x. by rewrite bool_decide_eq_false_2 by set_solver.
  - destruct (lookup_lt_is_Some_1' l m ltac:(lia)) as [f Hf]. rewrite Hf. cbn [of_option]. rewrite bind_ok.
    pose proof (proj1 (Forall_lookup _ _) Hl m f Hf) as Htf.
    destruct (free_one p f Hwf Htf) as (p1 & -> & Hwf1 & Hff1). rewrite bind_ok.
    set (l' := take m l ++ drop (S m) l).
    assert (Hspl : l = take m l ++ f :: drop (S m) l) by (symmetry; by apply take_drop_middle).
    assert (Hfl : f ∉ l' ∧ NoDup l').
    { rewrite Hspl in Hnd. apply NoDup_app in Hnd as (H1 & H2 & H3). apply NoDup_cons in H3 as [H3 H4].
      subst l'. split; [rewrite elem_of_app; intros [Hin|Hin]; [apply (H2 f Hin); by left|done]|].
      apply NoDup_app. split; [done|]. split; [|done]. intros y Hy Hy'. apply (H2 y Hy). by right. }
    destruct Hfl as [Hfl Hnd']. replace (remove_first f l) with l'.
    2:{ rewrite Hspl at 1. rewrite remove_first_middle; [done|]. intros Hin. apply Hfl. subst l'. set_solver. }
    assert (Hlen : length (take m l) = m) by (rewrite length_take; lia).
    destruct (IH l' p1 Hwf1 Hnd') as (p2 & -> & Hwf2 & Hff2).
    { apply Forall_forall. intros g Hg. apply (taken_mono p p1 [f]); [|set_solver|].
      - intros x. rewrite Hff1. f_equal. apply bool_decide_ext. set_solver.
      - rewrite Forall_forall in Hl. apply Hl. rewrite Hspl. subst l'. set_solver. }
    { subst l'. rewrite length_app. lia. }
    subst l'. rewrite drop_app_length', take_app_length' in * by done.
    exists p2. split; [done|]. split; [done|]. intros x. rewrite Hff2, Hff1, orb_assoc. f_equal.
    rewrite (take_S_r l m f Hf). apply eq_true_iff_eq. rewrite orb_true_iff, !bool_decide_eq_true. set_solver.
Qed.

(** A run that shrinks needs that many frames. *)
Lemma shrink_length m l p r : shrink_frames p l m = Ok r → (m ≤ length l)%nat.
Proof.
  destruct m as [|m]; cbn [shrink_frames]; [lia|]. intros H. inv_ok. apply lookup_lt_Some in H0. lia.
Qed.

Lemma grow_ok n l p :
  pmm_wf p →
  match grow_frames p l n with
  | Ok (l', p') => ∃ new, l' = l ++ new ∧ length new = n ∧ NoDup new ∧ pmm_wf p' ∧ Forall (taken p') new ∧
      (∀ f, f ∈ new → ∃ k, f = 0x1000 * k ∧ frame_free p k = true) ∧
      ∀ x, frame_free p x = bool_decide (0x1000 * x ∈ new) || frame_free p' x
  | Panic => True
  | _ => False
  end.
Proof.
  revert l p. induction n as [|n IH]; intros l p Hwf; cbn [grow_frames].
  - exists []. rewrite app_nil_r. do 3 (split; [done || constructor|]). split; [done|]. split; [constructor|].
    split; [set_solver|]. intros x. by rewrite bool_decide_eq_false_2 by set_solver.
  - pose proof (alloc_one_ok p Hwf) as Ha.
    destruct (k_mem_pmm_alloc_frames p 1) as [[f p1]| | |]; [|done|done|done]. rewrite bind_ok.
    destruct Ha as (k & -> & Hk & Hfk & _ & Hwf1 & Hff1). specialize (IH (l ++ [0x1000 * k]) p1 Hwf1).
    destruct (grow_frames p1 (l ++ [0x1000 * k]) n) as [[l' p']| | |]; [|done|done|done].
    destruct IH as (new & -> & Hlen & Hnd & Hwf' & Htk & Hfree & Hff).
    assert (Hnk : 0x1000 * k ∉ new).
    { intros Hin. apply Hfree in Hin as (k' & Heq & Hk'). rewrite Hff1 in Hk'.
      replace k' with k in Hk' by lia. by rewrite Z.eqb_refl in Hk'. }
    exists (0x1000 * k :: new). rewrite <- app_assoc. split; [done|]. split; [cbn; lia|].
    split; [by constructor|]. split; [done|]. split; [|split].
    + constructor; [|done]. exists k. split; [done|]. split; [done|].
      pose proof (Hff1 k) as H1. rewrite Z.eqb_refl in H1. cbn in H1. specialize (Hff k).
      rewrite H1 in Hff. by destruct (frame_free p' k); [destruct (bool_decide _)|].
    + intros f [->|Hin]%elem_of_cons; [by exists k|]. apply Hfree in Hin as (k' & -> & Hk').
      exists k'. split; [done|]. rewrite Hff1 in Hk'. by apply andb_true_iff in Hk' as [_ ?].
    + intros x. destruct (Z.eq_dec k x) as [<-|Hne].
      * rewrite Hfk, bool_decide_eq_true_2 by set_solver. done.
      * rewrite (bool_decide_ext _ (0x1000 * x ∈ new)).
        -- rewrite <- Hff, Hff1, (proj2 (Z.eqb_neq _ _)) by done. done.
        -- rewrite elem_of_cons. split; [intros [?|?]; [lia|done]|by right].
Qed.
End frames.

(** ** No frame is lost, none has two owners *)

Record shm_ok (s : shm) : Prop := {
  so_pmm : pmm_wf (sh_pmm s);
  so_nodup : NoDup (sh_mappings s);
  so_map : ∀ a, a ∈ sh_mappings s ↔ is_Some (sh_heap s !! a);
  so_frames : ∀ a n, sh_heap s !! a = Some n → NoDup (shm_frames n) ∧ Forall (taken (sh_pmm s)) (shm_frames n);
  so_disjoint : ∀ a b n m f, a ≠ b → sh_heap s !! a = Some n → sh_heap s !! b = Some m →
    f ∈ shm_frames n → f ∉ shm_frames m;
  so_dir : ∀ d l, sh_dirs s !! d = Some l → NoDup l ∧
    ∀ a, a ∈ l ↔ ∃ n, sh_heap s !! a = Some n ∧ shm_root n = d
}.

Definition owned (s : shm) (f : Z) : Prop := ∃ a n, sh_heap s !! a = Some n ∧ f ∈ shm_frames n.

(** Frame [k] is in the pool or belongs to an object. *)
Definition held (s : shm) (k : Z) : Prop := frame_free (sh_pmm s) k = true ∨ owned s (0x1000 * k).

(** The calls that change objects; the address of a new object is not in use. *)
Inductive shm_step : shm → shm → Prop :=
| Step_create s root path a v s' :
    sh_heap s !! a = None → shm_create s root path a = Ok (v, s') → shm_step s s'
| Step_open s node s' : shm_open s node = Ok s' → shm_step s s'
| Step_close s node s' : shm_close s node = Ok s' → shm_step s s'
| Step_truncate s node sz v s' : shm_truncate s node sz = Ok (v, s') → shm_step s s'.

Section shm_ok.
Implicit Types (s : shm) (n m : shm_node).

Lemma not_free_taken p f k : taken p f → f = 0x1000 * k → frame_free p k = false.
Proof. intros (k' & -> & _ & Hf) He. by replace k with k' by lia. Qed.

(** Replacing the frames of one object *)
Lemma shm_ok_put s a n n' p :
  shm_ok s → sh_heap s !! a = Some n → shm_root n' = shm_root n → pmm_wf p → NoDup (shm_frames n') →
  Forall (taken p) (shm_frames n') →
  (∀ f, taken (sh_pmm s) f → f ∉ shm_frames n → taken p f) →
  (∀ f, f ∈ shm_frames n' → f ∈ shm_frames n ∨ ∃ k, f = 0x1000 * k ∧ frame_free (sh_pmm s) k = true) →
  shm_ok (put_shm (with_pmm s p) a n').
Proof.
  intros [H1 H2 H3 H4 H5 H6] Ha Hr Hp Hnd Htk Hold Hnew.
  assert (Hsep : ∀ b m f, a ≠ b → sh_heap s !! b = Some m → f ∈ shm_frames n' → f ∉ shm_frames m).
  { intros b m f Hab Hb Hf Hfm. destruct (Hnew f Hf) as [Hin|(k & Hk & Hfree)]; [by apply (H5 a b n m f)|].
    destruct (H4 b m Hb) as [_ Htm]. rewrite Forall_forall in Htm.
    rewrite (not_free_taken _ _ _ (Htm f Hfm) Hk) in Hfree. done. }
  split; cbn; [done..| | | |].
  - intros b. rewrite H3, lookup_insert_is_Some. destruct (decide (a = b)) as [->|]; naive_solver.
  - intros b m. rewrite lookup_insert_Some. intros [[<- <-]|[Hne Hb]]; [done|].
    destruct (H4 b m Hb) as [? Htm]. split; [done|]. apply Forall_forall. intros f Hf.
    rewrite Forall_forall in Htm. apply Hold; [by apply Htm|]. intros Hfn. by apply (H5 a b n m f).
  - intros b c m m' f Hne. rewrite !lookup_insert_Some.
    intros [[<- <-]|[Hb1 Hb]] [[<- <-]|[Hc1 Hc]] Hf; [done|by apply (Hsep c)| |by apply (H5 b c m)].
    intros Hf'. by apply (Hsep b m f).
  - intros d l Hl. destruct (H6 d l Hl) as [? Hin]. split; [done|]. intros b. rewrite Hin.
    setoid_rewrite lookup_insert_Some. destruct (decide (a = b)) as [->|]; [|naive_solver].
    split; [intros (m & Hm & <-); exists n'; split; [by left|]; congruence|].
    intros (m & [[_ <-]|[? _]] & <-); [|done]. by exists n.
Qed.

(** Who holds a frame after that *)
Lemma held_put s a n n' p :
  sh_heap s !! a = Some n → (∀ b m f, a ≠ b → sh_heap s !! b = Some m → f ∈ shm_frames n → f ∉ shm_frames m) →
  (∀ k, frame_free p k = true ∨ 0x1000 * k ∈ shm_frames n' ↔
        frame_free (sh_pmm s) k = true ∨ 0x1000 * k ∈ shm_frames n) →
  ∀ k, held (put_shm (with_pmm s p) a n') k ↔ held s k.
Proof.
  intros Ha Hd Hk k. unfold held, owned. cbn. specialize (Hk k). split.
  - intros [Hf|(b & m & Hb & Hin)].
    + destruct (proj1 Hk) as [?|?]; [by left|by left|]. right. by exists a, n.
    + apply lookup_insert_Some in Hb as [[<- <-]|[Hne Hb]]; [|right; by exists b, m].
      destruct (proj1 Hk) as [?|?]; [by right|by left|]. right. by exists a, n.
  - intros [Hf|(b & m & Hb & Hin)].
    + destruct (proj2 Hk) as [?|?]; [by left|by left|]. right. exists a, n'. by rewrite lookup_insert_eq.
    + destruct (decide (a = b)) as [<-|Hne].
      * rewrite Ha in Hb. injection Hb as <-. destruct (proj2 Hk) as [?|?]; [by right|by left|].
        right. exists a, n'. by rewrite lookup_insert_eq.
      * right. exists b, m. by rewrite lookup_insert_ne.
Qed.

Lemma with_pmm_same s : with_pmm s (sh_pmm s) = s.
Proof. by destruct s. Qed.

(** An object whose frames stay the same *)
Lemma shm_ok_same s a n n' :
  shm_ok s → sh_heap s !! a = Some n → shm_root n' = shm_root n → shm_frames n' = shm_frames n →
  shm_ok (put_shm s a n') ∧ ∀ k, held (put_shm s a n') k ↔ held s k.
Proof.
  intros Hs Ha Hr Hf. destruct (so_frames _ Hs a n Ha) as [Hnd Ht].
  replace (put_shm s a n') with (put_shm (with_pmm s (sh_pmm s)) a n') by (by rewrite with_pmm_same). split.
  - apply (shm_ok_put s a n n' (sh_pmm s)); rewrite ?Hf; try done; [apply Hs|]. intros f Hin. by left.
  - apply (held_put s a n); [done| |by rewrite Hf]. intros b m f Hne Hb. by apply (so_disjoint _ Hs a b n m f).
Qed.

Lemma truncate_step s node sz v s' :
  shm_ok s → shm_truncate s node sz = Ok (v, s') → shm_ok s' ∧ ∀ k, held s' k ↔ held s k.
Proof.
  intros Hs H. unfold shm_truncate in H. inv_ok. apply of_option_ok in H0 as Ha. rename a into n.
  destruct (so_frames _ Hs _ _ Ha) as [Hnd Ht].
  assert (Hd : ∀ b m f, vn_device node ≠ b → sh_heap s !! b = Some m → f ∈ shm_frames n → f ∉ shm_frames m).
  { intros b m f Hne Hb. by apply (so_disjoint _ Hs (vn_device node) b n m f). }
  revert H1. case_if; intros H1.
  - set (cnt := Z.to_nat _) in H1. pose proof (grow_ok cnt (shm_frames n) (sh_pmm s) (so_pmm _ Hs)) as Hg.
    rewrite H1 in Hg. destruct Hg as (new & -> & _ & Hnew & Hwf & Htn & Hfree & Hff).
    assert (Hold : ∀ f, taken (sh_pmm s) f → taken p f).
    { intros f (k & -> & Hk & Hfk). exists k. split; [done|]. split; [done|]. rewrite Hff in Hfk.
      by apply orb_false_iff in Hfk as [_ ?]. }
    assert (Hsep : ∀ f, f ∈ shm_frames n → f ∉ new).
    { intros f Hf Hin. apply Hfree in Hin as (k & -> & Hk). rewrite Forall_forall in Ht.
      by rewrite (not_free_taken _ _ k (Ht _ Hf) eq_refl) in Hk. }
    split.
    + apply (shm_ok_put s _ n); cbn; try done; [by apply NoDup_app| |by intros; apply Hold|].
      * apply Forall_app. split; [|done]. by eapply Forall_impl; [exact Ht|].
      * intros f [Hf|Hf]%elem_of_app; [by left|]. right. by apply Hfree.
    + apply (held_put s _ n); try done. cbn. intros k. rewrite Hff, orb_true_iff, bool_decide_eq_true, elem_of_app.
      tauto.
  - set (cnt := Z.to_nat _) in H1. pose proof (shrink_length _ _ _ _ H1) as Hlen.
    destruct (shrink_ok cnt (shm_frames n) (sh_pmm s) (so_pmm _ Hs) Hnd Ht Hlen) as (p' & Heq & Hwf & Hff).
    rewrite H1 in Heq. injection Heq as -> ->.
    assert (Hin : ∀ f, f ∈ shm_frames n ↔ f ∈ take cnt (shm_frames n) ∨ f ∈ drop cnt (shm_frames n)).
    { intros f. by rewrite <- elem_of_app, take_drop. }
    rewrite <- (take_drop cnt (shm_frames n)) in Hnd.
    apply NoDup_app in Hnd as (_ & Hsep & Hnd). split.
    + apply (shm_ok_put s _ n); cbn; try done.
      * apply Forall_forall. intros f Hf. apply (taken_mono (sh_pmm s) p' (take cnt (shm_frames n))); [done| |].
        -- intros Hf'. by apply (Hsep f).
        -- rewrite Forall_forall in Ht. apply Ht, Hin. by right.
      * intros f Htk Hnf. apply (taken_mono (sh_pmm s) p' (take cnt (shm_frames n))); [done| |done].
        intros Hf. apply Hnf, Hin. by left.
      * intros f Hf. left. apply Hin. by right.
    + apply (held_put s _ n); try done. cbn. intros k. rewrite Hff, orb_true_iff, bool_decide_eq_true, Hin.
      tauto.
Qed.

Lemma remove_step s a n :
  shm_ok s → sh_heap s !! a = Some n → ∀ node s', vn_device node = a → shm_remove s node = Ok s' →
  shm_ok s' ∧ ∀ k, held s' k ↔ held s k.
Proof.
  intros Hs Ha node s' <- H. unfold shm_remove in H. inv_ok. apply of_option_ok in H0, H2.
  rewrite Ha in H0. injection H0 as <-.
  destruct (so_frames _ Hs _ _ Ha) as [Hnd Ht].
  destruct (free_frames_ok _ _ (so_pmm _ Hs) Hnd Ht) as (p' & Heq & Hwf & Hff). rewrite H1 in Heq. injection Heq as ->.
  split.
  - split; cbn; [done|by apply remove_first_nodup, Hs| | | |].
    + intros b. rewrite remove_first_elem by apply Hs. rewrite (so_map _ Hs), lookup_delete_is_Some. naive_solver.
    + intros b m [Hne Hb]%lookup_delete_Some. destruct (so_frames _ Hs b m Hb) as [? Htm]. split; [done|].
      apply Forall_forall. intros f Hf. rewrite Forall_forall in Htm.
      apply (taken_mono (sh_pmm s) p' (shm_frames n)); [done| |by apply Htm]. intros Hin.
      by apply (so_disjoint _ Hs (vn_device node) b n m f).
    + intros b c m m' f Hne [_ Hb]%lookup_delete_Some [_ Hc]%lookup_delete_Some.
      by apply (so_disjoint _ Hs b c).
    + intros d l. rewrite lookup_insert_Some. setoid_rewrite lookup_delete_Some. intros [[<- <-]|[Hne Hl]].
      * destruct (so_dir _ Hs _ _ H2) as [Hdn Hdi]. split; [by apply remove_first_nodup|]. intros b.
        rewrite remove_first_elem, Hdi by done. naive_solver.
      * destruct (so_dir _ Hs _ _ Hl) as [Hdn Hdi]. split; [done|]. intros b. rewrite Hdi.
        split; [|naive_solver]. intros (m & Hm & Hr). exists m. split; [|done]. split; [|done]. congruence.
  - intros k. unfold held, owned. cbn. rewrite Hff, orb_true_iff, bool_decide_eq_true.
    setoid_rewrite lookup_delete_Some. split; [|intros [?|(b & m & Hb & Hin)]; [by left; right|]].
    + intros [[?|?]|(b & m & [_ Hb] & Hin)]; [right; by eauto|by left|right; by eauto].
    + destruct (decide (vn_device node = b)) as [He|Hne].
      * left. left. rewrite He, Hb in Ha. congruence.
      * right. by exists b, m.
Qed.

Lemma create_step s root path a v s' :
  shm_ok s → sh_heap s !! a = None → shm_create s root path a = Ok (v, s') →
  shm_ok s' ∧ ∀ k, held s' k ↔ held s k.
Proof.
  intros Hs Ha H. unfold shm_create in H. inv_ok. apply of_option_ok in H0, H1. cbn in *.
  rewrite lookup_insert_eq in H0. injection H0 as <-. cbn.
  assert (Han : a ∉ sh_mappings s) by (rewrite (so_map _ Hs), Ha; by intros [? ?]).
  destruct (so_dir _ Hs _ _ H1) as [Hdn Hdi]. unfold put_dir, put_shm, shm_create_shm_node. cbn.
  rewrite insert_insert_eq. split.
  - split; cbn; [apply Hs| | | | |].
    + apply NoDup_app. split; [apply Hs|]. split; [set_solver|]. constructor; [set_solver|constructor].
    + intros b. rewrite elem_of_app, list_elem_of_singleton, (so_map _ Hs), lookup_insert_is_Some.
      destruct (decide (a = b)); naive_solver.
    + intros b m. rewrite lookup_insert_Some. intros [[<- <-]|[_ Hb]]; [by repeat constructor|].
      by apply (so_frames _ Hs b m).
    + intros b c m m' f Hne. rewrite !lookup_insert_Some.
      intros [[<- <-]|[_ Hb]] [[<- <-]|[_ Hc]]; [done|set_solver|set_solver|by apply (so_disjoint _ Hs b c)].
    + intros d l. setoid_rewrite lookup_insert_Some. intros [[<- <-]|[Hne Hl]].
      * split.
        { apply NoDup_app. split; [done|]. split; [|constructor; [set_solver|constructor]].
          intros b Hb ->%list_elem_of_singleton. apply Hdi in Hb as (m & Hm & _). congruence. }
        intros b. rewrite elem_of_app, list_elem_of_singleton, Hdi. split.
        { intros [(m & Hm & Hr)| ->]; [|by eexists; split; [by left|]]. exists m. split; [|done]. right.
          split; [congruence|done]. }
        intros (m & [[<- <-]|[? Hm]] & Hr); [by right|]. left. by exists m.
      * destruct (so_dir _ Hs _ _ Hl) as [Hdn' Hdi']. split; [done|]. intros b. rewrite Hdi'. split.
        { intros (m & Hm & Hr). exists m. split; [|done]. right. split; [congruence|done]. }
        intros (m & [[<- <-]|[? Hm]] & Hr); [done|]. by exists m.
  - intros k. unfold held, owned. cbn. setoid_rewrite lookup_insert_Some.
    split; (intros [?|(b & m & Hb & Hin)]; [by left|]).
    + destruct Hb as [[_ <-]|[_ Hb]]; [cbn in Hin; set_solver|]. right. by exists b, m.
    + right. exists b, m. split; [|done]. right. split; [congruence|done].
Qed.

Lemma shm_step_ok s s' : shm_step s s' → shm_ok s → shm_ok s' ∧ ∀ k, held s' k ↔ held s k.
Proof.
  intros [s1 root path a v s2 Hn Hc|s1 node s2 Ho|s1 node s2 Hc|s1 node sz v s2 Ht] Hs.
  - by eapply create_step.
  - unfold shm_open in Ho. inv_ok. apply of_option_ok in Ho0. by eapply shm_ok_same.
  - unfold shm_close in Hc. inv_ok. apply of_option_ok in Hc0.
    destruct (shm_ok_same s1 _ a (with_shm_links a (s32 (shm_links a - 1))) Hs Hc0) as [Hs1 Hh]; [done..|].
    revert Hc. case_if; intros Hc; [|inv_ok; by split].
    edestruct (remove_step _ (vn_device node) (with_shm_links a (s32 (shm_links a - 1))) Hs1) as [Hs2 Hh2];
      [by cbn; rewrite lookup_insert_eq|done|exact Hc|].
    split; [done|]. intros k. by rewrite Hh2, Hh.
  - by eapply truncate_step.
Qed.

Lemma shm_init_ok p d v s : pmm_wf p → k_mem_shm_init p d = Ok (v, s) →
  shm_ok s ∧ ∀ k, held s k ↔ frame_free p k = true.
Proof.
  unfold k_mem_shm_init, shm_create_root. intros Hp H. inv_ok. split.
  - split; cbn; [done|apply NoDup_nil_2| | | |].
    + intros b. rewrite lookup_empty. split; [by intros ?%not_elem_of_nil|by intros [? ?]].
    + intros b n. by rewrite lookup_empty.
    + intros b c n m f _. by rewrite lookup_empty.
    + intros d' l. rewrite lookup_insert_Some, lookup_empty. intros [[<- <-]|[_ ?]]; [|done].
      split; [apply NoDup_nil_2|]. intros b. setoid_rewrite lookup_empty.
      split; [by intros ?%not_elem_of_nil|naive_solver].
  - intros k. unfold held, owned. cbn. setoid_rewrite lookup_empty. naive_solver.
Qed.
End shm_ok.

(** ** Properties *)

(** C23: shared memory objects neither lose frames nor share them.  From the initial state,
    after any creating, opening, closing and truncating: every object is in the list of all
    objects and in its directory exactly once, no frame belongs to two objects or twice to
    one, and a frame that was free at the start is either in the pool or belongs to an object. *)
Theorem shm_frames_conserved p0 d root s0 s :
  pmm_wf p0 → k_mem_shm_init p0 d = Ok (root, s0) → rtc shm_step s0 s →
  shm_ok s ∧
  (∀ k, frame_free p0 k = true ↔ frame_free (sh_pmm s) k = true ∨ owned s (0x1000 * k)) ∧
  (∀ k, frame_free (sh_pmm s) k = true → ¬ owned s (0x1000 * k)).
Proof.
  intros Hp Hi Hr. destruct (shm_init_ok p0 d root s0 Hp Hi) as [Hs0 Hh0].
  assert (H : shm_ok s ∧ ∀ k, held s k ↔ held s0 k).
  { clear -Hr Hs0. induction Hr as [s|s s1 s2 Hst _ IH]; [done|].
    destruct (shm_step_ok s s1 Hst Hs0) as [Hs1 Hh]. destruct (IH Hs1) as [Hs2 Hh2]. split; [done|].
    intros k. by rewrite Hh2, Hh. }
  destruct H as [Hs Hh]. split; [done|]. split.
  - intros k. rewrite <- Hh0, <- Hh. done.
  - intros k Hf (a & n & Ha & Hin). destruct (so_frames _ Hs a n Ha) as [_ Ht].
    rewrite Forall_forall in Ht. by rewrite (not_free_taken _ _ k (Ht _ Hin) eq_refl) in Hf.
Qed.

(** A pool of the frames 8 to 31; the directory is the list at 100. *)
Definition demo_pool : pmm := mk_pmm [0xFFFFFF00] 0 0 0 0.
Definition demo_root : vnode := mk_vnode SHM_ROOT_NAME 100 0 VFS_DIR 0 0 FS_SHM_ROOT 1 None 0.
Definition demo_shm0 : shm := mk_shm demo_pool [] {[100 := []]} ∅.
Definition demo_object (size : Z) : vnode := mk_vnode [97] 200 0 VFS_FILE 0 size FS_SHM 1 None 0.

(** An object "a" is created and gets [sz] bytes. *)
Definition demo_grown (sz : Z) : res (vnode * shm) :=
  '(v, s) ← shm_create demo_shm0 demo_root [97] 200; shm_truncate s v sz.

Lemma demo_pool_wf : pmm_wf demo_pool.
Proof. exact (sw_pmm _ demo_space_wf). Qed.

Lemma shm_frames_conserved_witness : ∃ v s, demo_grown 0x2001 = Ok (v, s) ∧
  shm_ok s ∧
  (∀ k, frame_free demo_pool k = true ↔ frame_free (sh_pmm s) k = true ∨ owned s (0x1000 * k)) ∧
  (∀ k, frame_free (sh_pmm s) k = true → ¬ owned s (0x1000 * k)).
Proof.
  assert (Hok : is_ok (demo_grown 0x2001) = true) by (vm_compute; reflexivity).
  apply is_ok_inv in Hok as [[v s] H]. exists v, s. split; [exact H|].
  apply (shm_frames_conserved demo_pool 100 demo_root demo_shm0 s demo_pool_wf); [done|].
  unfold demo_grown in H. destruct (shm_create demo_shm0 demo_root [97] 200) as [[v1 s1]| | |] eqn:Hc; [|done..].
  apply (rtc_l _ _ s1).
  - eapply (Step_create demo_shm0 demo_root [97] 200 v1 s1); [done|exact Hc].
  - apply rtc_once. eapply (Step_truncate s1 v1 0x2001 v s). exact H.
Defined.

(** Shrinking an object by whole pages gives back the frames of its first pages and
    keeps those of its last: what was at offset [0x1000 * m] is afterwards at offset 0. *)
Theorem shm_shrink_drops_front s node n m size :
  shm_ok s → sh_heap s !! vn_device node = Some n → vn_size node = size → 0 ≤ m → 0 ≤ size - 0x1000 * m →
  size < 2 ^ 31 → (Z.to_nat m ≤ length (shm_frames n))%nat →
  ∃ v s', shm_truncate s node (size - 0x1000 * m) = Ok (v, s') ∧ vn_size v = size - 0x1000 * m ∧
    sh_heap s' !! vn_device node = Some (with_frames n (drop (Z.to_nat m) (shm_frames n))) ∧
    ∀ k, frame_free (sh_pmm s') k = bool_decide (0x1000 * k ∈ take (Z.to_nat m) (shm_frames n)) || frame_free (sh_pmm s) k.
Proof.
  intros Hs Ha Hsz Hm Hpos Hlt Hlen. destruct (so_frames _ Hs _ _ Ha) as [Hnd Ht].
  destruct (shrink_ok (Z.to_nat m) _ _ (so_pmm _ Hs) Hnd Ht Hlen) as (p' & Hsh & _ & Hff).
  unfold shm_truncate, get_shm. rewrite Ha, Hsz. cbn [of_option]. rewrite bind_ok.
  replace (s32 (size - 0x1000 * m - size)) with (- (0x1000 * m)) by (rewrite s32_small; lia).
  destruct (Z.ltb_spec 0 (- (0x1000 * m))); [lia|]. rewrite Z.opp_involutive, (s32_small (0x1000 * m)) by lia.
  replace (0x1000 * m) with (m * 0x1000) by lia. rewrite Z.quot_mul, Z.rem_mul by lia.
  change (b2z (0 <? u32 0)) with 0. rewrite !Z.add_0_r, !(u32_small m) by lia.
  rewrite s32_small, Z.sub_add by lia. rewrite Hsh, bind_ok. eexists _, _. split; [done|]. split; [done|].
  split; [|exact Hff]. cbn. by rewrite lookup_insert_eq.
Qed.

(** An object of three frames, 8, 9 and 10 *)
Definition demo_three : shm :=
  mk_shm (mk_pmm [0xFFFFF800] 0 3 0 0) [200] {[100 := [200]]} {[200 := mk_shm_node [97] [0x8000; 0x9000; 0xA000] 100 0]}.

Lemma demo_three_grown : demo_grown 0x3000 = Ok (demo_object 0x3000, demo_three).
Proof. by vm_compute. Qed.

Lemma demo_three_ok : shm_ok demo_three.
Proof.
  pose proof (shm_init_ok demo_pool 100 demo_root demo_shm0 demo_pool_wf eq_refl) as [H0 _].
  pose proof demo_three_grown as H. apply bind_ok_inv in H as [[v s1] [Hc Ht]].
  destruct (create_step _ _ _ 200 _ s1 H0 eq_refl Hc) as [H1 _].
  by destruct (truncate_step _ _ _ _ _ H1 Ht).
Qed.

Lemma shm_shrink_drops_front_witness :
  ∃ v s', shm_truncate demo_three (demo_object 0x3000) (0x3000 - 0x1000 * 1) = Ok (v, s') ∧
    vn_size v = 0x3000 - 0x1000 * 1 ∧
    sh_heap s' !! 200 = Some (with_frames (mk_shm_node [97] [0x8000; 0x9000; 0xA000] 100 0) [0x9000; 0xA000]) ∧
    ∀ k, frame_free (sh_pmm s') k = bool_decide (0x1000 * k ∈ [0x8000]) || frame_free (sh_pmm demo_three) k.
Proof.
  apply (shm_shrink_drops_front demo_three (demo_object 0x3000) (mk_shm_node [97] [0x8000; 0x9000; 0xA000] 100 0) 1 0x3000
    demo_three_ok); [done|done|lia|lia|lia|cbn; lia].
Defined.

(** Every look-up gives a node of size 0, whatever the size of the object, and the
    size of the node is what truncating compares with: whoever finds an existing object and
    sets its length adds that many pages to those it has. *)
Theorem shm_truncate_again_grows s root path v s' sz w :
  shm_ok s → shm_finddir s root path = Ok (Some v) → 0 < sz < 2 ^ 31 →
  shm_truncate s v sz = Ok (w, s') →
  ∃ n n' : shm_node, sh_heap s !! vn_device v = Some n ∧ sh_heap s' !! vn_device v = Some n' ∧ shm_name n = path ∧
    vn_size v = 0 ∧
    Z.of_nat (length (shm_frames n')) = Z.of_nat (length (shm_frames n)) + (sz + 0xFFF) / 0x1000.
Proof.
  intros Hs Hf Hsz Ht. unfold shm_finddir in Hf. inv_ok. clear Hf0.
  assert (Hv : vn_size v = 0 ∧ ∃ n, sh_heap s !! vn_device v = Some n ∧ shm_name n = path).
  { induction a as [|x ls IH]; cbn [shm_find] in Hf; [done|]. inv_ok. revert Hf. case_if; intros Hf; [|by apply IH].
    unfold shm_create_node, vfs_create_node in Hf. destruct (256 <=? _) eqn:El; [done|]. inv_ok. cbn.
    apply of_option_ok in Hf0. split; [done|]. by exists a. }
  destruct Hv as (Hv0 & n & Ha & Hn). unfold shm_truncate, get_shm in Ht. rewrite Ha, Hv0 in Ht.
  cbn [of_option] in Ht. rewrite bind_ok, Z.sub_0_r, s32_small in Ht by lia.
  rewrite (proj2 (Z.ltb_lt 0 sz)) in Ht by lia. inv_ok. set (cnt := Z.to_nat _) in Ht0.
  pose proof (grow_ok cnt (shm_frames n) (sh_pmm s) (so_pmm _ Hs)) as Hg. rewrite Ht0 in Hg.
  destruct Hg as (new & -> & Hlen & _). exists n, (with_frames n (shm_frames n ++ new)).
  split; [done|]. split; [cbn; by rewrite lookup_insert_eq|]. split; [done|]. split; [done|].
  cbn [shm_frames with_frames]. rewrite length_app, Hlen. subst cnt.
  pose proof (Z.quot_rem' sz 0x1000). pose proof (Z.rem_bound_pos sz 0x1000).
  rewrite (u32_small (Z.rem _ _)), (u32_small (Z.quot _ _)) by lia.
  pose proof (Z.div_mod (sz + 0xFFF) 0x1000). pose proof (Z.mod_pos_bound (sz + 0xFFF) 0x1000).
  destruct (Z.ltb_spec 0 (Z.rem sz 0x1000)); cbn [b2z]; rewrite u32_small by lia; lia.
Qed.

Lemma shm_truncate_again_grows_witness : ∃ w s',
  shm_truncate demo_three (demo_object 0) 0x3000 = Ok (w, s') ∧
  ∃ n n' : shm_node, sh_heap demo_three !! 200 = Some n ∧ sh_heap s' !! 200 = Some n' ∧ shm_name n = [97] ∧
    vn_size (demo_object 0) = 0 ∧
    Z.of_nat (length (shm_frames n')) = Z.of_nat (length (shm_frames n)) + (0x3000 + 0xFFF) / 0x1000.
Proof.
  destruct (shm_truncate demo_three (demo_object 0) 0x3000) as [[w s']| | |] eqn:Ht; [|by vm_compute in Ht..].
  exists w, s'. split; [done|].
  apply (shm_truncate_again_grows demo_three demo_root [97] (demo_object 0) s' 0x3000 w demo_three_ok);
    [by vm_compute|lia|exact Ht].
Defined.
