(* ===== verification/Mmap.v ===== *)
(** * kernel/src/mem/mmap.c: memory mappings of a process, and their system calls

    The mappings of the current process are heap objects in its list, in the order of their
    making; shared ones are also in a list of the whole system, NULL until the first.  The
    address space is that of Paging; [mm_frames] is what the page frames hold, by frame
    number.  Files are the nodes of Vfs behind the descriptors of FdTable; shared memory
    objects are those of Shm.  The address of a new object is an argument. *)

From S2P Require Import Prelude.
From S2P Require Import TypesList.
From S2P Require Import Pmm.
From S2P Require Import Paging.
From S2P Require Import FdTable.
From S2P Require Import Vfs.
From S2P Require Import BlockDev.
From S2P Require Import Shm.

Record mmap_block := mk_block {
  bl_start : Z;
  bl_end : Z;
  bl_size : Z;
  bl_offset : Z;
  bl_fd : Z;
  bl_prot : Z;
  bl_type : Z;
  bl_flags : Z
}.

Record mmaps := mk_mm {
  mm_space : space;
  mm_frames : gmap Z (list Z);
  mm_start : Z; (* [mmap_info_t.start] *)
  mm_blocks : list Z; (* [mmap_info_t.mmap_blocks] *)
  mm_shared : option (list Z); (* [__shared_mappings] *)
  mm_heap : gmap Z mmap_block
}.

Definition PROT_READ : Z := 1.
Definition PROT_WRITE : Z := 2.
Definition PROT_NONE : Z := 0.
Definition MAP_SHARED : Z := 1.
Definition MAP_PRIVATE : Z := 2.
Definition MAP_FIXED : Z := 4.
Definition MAP_ANONYMOUS : Z := 8.
Definition MS_ASYNC : Z := 1.
Definition MS_SYNC : Z := 2.
Definition MS_INVALIDATE : Z := 4.
Definition MMAP_FLAG_SHM : Z := 1.
Definition USER_STACK_END : Z := 0xBFFFF000 - 0x10000.
Definition ENOMEM : Z := 12.
Definition EACCES : Z := 13.
Definition EFAULT : Z := 14.

Definition has_flag (flags bit : Z) : bool := truthy (Z.land flags bit).

Definition get_block (s : mmaps) (a : Z) : res mmap_block := of_option (mm_heap s !! a).
Definition set_space (s : mmaps) (sp : space) : mmaps :=
  mk_mm sp (mm_frames s) (mm_start s) (mm_blocks s) (mm_shared s) (mm_heap s).
Definition set_frames (s : mmaps) (f : gmap Z (list Z)) : mmaps :=
  mk_mm (mm_space s) f (mm_start s) (mm_blocks s) (mm_shared s) (mm_heap s).
Definition set_block (s : mmaps) (a : Z) (b : mmap_block) : mmaps :=
  mk_mm (mm_space s) (mm_frames s) (mm_start s) (mm_blocks s) (mm_shared s) (<[a := b]> (mm_heap s)).

(** ** Memory of the current process *)

(** The frame behind a page, and the page's bytes; an unmapped page is a [Fault]. *)
Definition page_frame (s : mmaps) (page : Z) : res Z :=
  p ← k_mem_paging_virt2phys (mm_space s) page;
  if truthy p then Ok (p / 0x1000) else Fault.
Definition read_page (s : mmaps) (page : Z) : res (list Z) :=
  f ← page_frame s page; of_option (mm_frames s !! f).
(** Bytes stored from the beginning of a page on *)
Definition write_page (s : mmaps) (page : Z) (data : list Z) : res mmaps :=
  f ← page_frame s page;
  old ← of_option (mm_frames s !! f);
  new ← splice old 0 data;
  Ok (set_frames s (<[f := new]> (mm_frames s))).

(** ** Looking up *)

Fixpoint find_mapping (h : gmap Z mmap_block) (blocks : list Z) (addr : Z) : res Z :=
  match blocks with
  | [] => Ok 0
  | a :: rest =>
      b ← of_option (h !! a);
      if (bl_start b <=? addr) && (addr <? bl_end b) then Ok a else find_mapping h rest addr
  end.

(** The address of the block, 0 if there is none *)
Definition k_mem_mmap_get_mapping (s : mmaps) (addr : Z) : res Z := find_mapping (mm_heap s) (mm_blocks s) addr.

Fixpoint mappings_for_fd (h : gmap Z mmap_block) (blocks : list Z) (fd offset : Z) : res (list Z) :=
  match blocks with
  | [] => Ok []
  | a :: rest =>
      b ← of_option (h !! a);
      l ← mappings_for_fd h rest fd offset;
      Ok (if (bl_fd b =? fd) && (bl_offset b <=? offset) then a :: l else l)
  end.

Definition k_mem_mmap_get_mappings_for_fd (s : mmaps) (fd offset : Z) : res (list Z) :=
  l ← of_option (mm_shared s); mappings_for_fd (mm_heap s) l fd offset.

(** ** Allocating *)

Definition mmap_pages (size : Z) : Z := if truthy (size mod 0x1000) then size / 0x1000 + 1 else size / 0x1000.

(** [while(virt2phys(...) || get_mapping(...)) i++;] *)
Fixpoint skip_used (fuel : nat) (s : mmaps) (start offset i : Z) : res Z :=
  match fuel with
  | O => OutOfFuel
  | S f =>
      let addr := u32 (start + u32 (i + offset) * 0x1000) in
      p ← k_mem_paging_virt2phys (mm_space s) addr;
      used ← (if truthy p then Ok true else m ← k_mem_mmap_get_mapping s addr; Ok (truthy m));
      if (used : bool) then skip_used f s start offset (u32 (i + 1)) else Ok i
  end.

(** The search loop: the base address and the offset, in pages, at which it stops.  The
    test of the pages looks at the page tables only ([first_mapped]). *)
Fixpoint mmap_search (fuel : nat) (s : mmaps) (start offset pages : Z) (loop : bool) : res (Z * Z) :=
  match fuel with
  | O => OutOfFuel
  | S f =>
      hit ← first_mapped (mm_space s) start offset 0 (Z.to_nat pages);
      match hit with
      | None => Ok (start, offset)
      | Some i =>
          offset' ← skip_used f s start offset i;
          if USER_STACK_END <=? u32 (start + offset' * 0x1000) then
            if loop then Ok (start, offset') else mmap_search f s LOWMEM_START 0 pages true
          else mmap_search f s start offset' pages loop
      end
  end.

(** Where the block goes: its address and the new search hint; [None]: NULL is returned *)
Definition mmap_place (fuel : nat) (s : mmaps) (start pages flags : Z) : res (option (Z * Z)) :=
  if has_flag flags MAP_FIXED then
    if start =? 0 then Ok None
    else if truthy (start mod 0x1000) then Ok None
    else if USER_STACK_END <=? u32 (start + pages * 0x1000) then Ok None
    else
      hit ← first_mapped (mm_space s) start 0 0 (Z.to_nat pages);
      match hit with Some _ => Ok None | None => Ok (Some (start, mm_start s)) end
  else
    '(base, offset) ← mmap_search fuel s (mm_start s) 0 pages false;
    let addr := u32 (base + 0x1000 * offset) in
    let next := u32 (addr + pages * 0x1000) in
    if USER_STACK_END <=? next then Ok None else Ok (Some (addr, next)).

Definition page_flags (prot : Z) : Z :=
  Z.lor (Z.lor PAGE_PRESENT PAGE_USER) (if has_flag prot PROT_WRITE then PAGE_WRITABLE else 0).

Definition k_mem_mmap_allocate_block (fuel : nat) (s : mmaps) (start size prot flags new : Z) : res (Z * mmaps) :=
  let pages := mmap_pages size in
  place ← mmap_place fuel s start pages flags;
  match place with
  | None => Ok (0, s)
  | Some (addr, next) =>
      sp ← (if has_flag flags MAP_ANONYMOUS
            then k_mem_paging_map_region (mm_space s) addr 0 pages (page_flags prot) false
            else Ok (mm_space s));
      let b := mk_block addr (u32 (addr + pages * 0x1000)) (u32 (pages * 0x1000)) 0 0 prot flags 0 in
      Ok (new, mk_mm sp (mm_frames s) next (mm_blocks s ++ [new])
                 (if has_flag flags MAP_SHARED then Some (default [] (mm_shared s) ++ [new]) else mm_shared s)
                 (<[new := b]> (mm_heap s)))
  end.

(** ** Freeing, marking dirty *)

Definition k_mem_mmap_free_block (s : mmaps) (a : Z) : res mmaps :=
  b ← get_block s a;
  shared ← (if has_flag (bl_type b) MAP_SHARED then l ← of_option (mm_shared s); Ok (Some (remove_first a l))
            else Ok (mm_shared s));
  sp ← (if has_flag (bl_flags b) MMAP_FLAG_SHM then k_mem_paging_unmap_region (mm_space s) (bl_start b) (bl_size b / 0x1000)
        else k_mem_paging_unmap_and_free_region (mm_space s) (bl_start b) (bl_size b / 0x1000));
  Ok (mk_mm sp (mm_frames s) (bl_start b) (remove_first a (mm_blocks s)) shared (delete a (mm_heap s))).

Definition k_mem_mmap_mark_dirty (s : mmaps) (a : Z) : res mmaps :=
  b ← get_block s a;
  sp ← k_mem_paging_unmap_and_free_region (mm_space s) (bl_start b) (bl_size b / 0x1000);
  Ok (set_space s sp).

(** ** The mapped files *)

Section files.
Context {F : Type} `{fs_table F}.
Implicit Types (v : @vfs F) (fds : fd_list) (fl : files).

(** The node behind a descriptor, [None] if it is not open *)
Definition fd_to_node (fl : files) (fds : fd_list) (fd : Z) : res (option Z) :=
  a ← fd2fdt fds fd;
  if a =? 0 then Ok None else o ← get_obj fl a; Ok (Some (fd_node o)).

(** Writing back: [n] pages are left, the next one is at offset [i] of the block. *)
Fixpoint sync_pages (n : nat) (s : mmaps) (v : @vfs F) (node : Z) (b : mmap_block) (i : Z) : res (@vfs F) :=
  match n with
  | O => Ok v
  | Datatypes.S n' =>
      let page := u32 (bl_start b + i) in
      p ← k_mem_paging_virt2phys (mm_space s) page;
      v' ← (if truthy p then data ← read_page s page; '(_, v') ← vfs_write v node (u32 (bl_offset b + i)) data; Ok v'
            else Ok v);
      sync_pages n' s v' node b (i + 0x1000)
  end.

Definition k_mem_mmap_sync_block (s : mmaps) (v : @vfs F) (fl : files) (fds : fd_list) (a : Z) : res (@vfs F) :=
  b ← get_block s a;
  if negb (has_flag (bl_type b) MAP_SHARED) || has_flag (bl_flags b) MMAP_FLAG_SHM then Ok v
  else
    o ← fd_to_node fl fds (bl_fd b);
    match o with
    | None => Ok v
    | Some node => sync_pages (Z.to_nat (mmap_pages (bl_size b))) s v node b 0
    end.

Fixpoint sync_all (s : mmaps) (v : @vfs F) (fl : files) (fds : fd_list) (blocks : list Z) : res (@vfs F) :=
  match blocks with
  | [] => Ok v
  | a :: rest => v' ← k_mem_mmap_sync_block s v fl fds a; sync_all s v' fl fds rest
  end.

Definition k_mem_mmap_sync (s : mmaps) (v : @vfs F) (fl : files) (fds : fd_list) : res (@vfs F) :=
  sync_all s v fl fds (mm_blocks s).

(** [k_mem_mmap_handle_pagefault]: 0, or the reason why the fault stays unanswered *)
Definition k_mem_mmap_handle_pagefault (s : mmaps) (v : @vfs F) (fl : files) (fds : fd_list) (address code : Z)
    : res (Z * mmaps) :=
  a ← k_mem_mmap_get_mapping s address;
  if a =? 0 then Ok (1, s) else
  b ← get_block s a;
  if bl_prot b =? PROT_NONE then Ok (2, s)
  else if negb (has_flag (bl_prot b) PROT_READ) && negb (has_flag code 2) then Ok (3, s)
  else if negb (has_flag (bl_prot b) PROT_WRITE) && has_flag code 2 then Ok (4, s)
  else if negb (has_flag (bl_type b) (Z.lor MAP_PRIVATE MAP_SHARED)) then Ok (5, s)
  else
    let page := Z.land address 0xFFFFF000 in
    o ← fd_to_node fl fds (bl_fd b);
    match o with
    | None => Ok (6, s)
    | Some node =>
        p ← k_mem_paging_virt2phys (mm_space s) page;
        if truthy p then Ok (7, s) else
        sp ← k_mem_paging_map (mm_space s) page 0 (page_flags (bl_prot b));
        let s1 := set_space s sp in
        let page_offset := u32 (page - bl_start b) / 0x1000 in
        let offset := u32 (bl_offset b + page_offset * 0x1000) in
        '(r, bytes) ← vfs_read v node offset 0x1000;
        s2 ← write_page s1 page bytes;
        s3 ← (if s32 r <=? 0 then write_page s2 page (replicate (Z.to_nat 0x1000) 0) else Ok s2);
        Ok (0, s3)
    end.

(** ** The system calls *)

(** The pages of a shared memory object: [l] of them, from number [i] on *)
Fixpoint map_shm_pages (n : nat) (sp : space) (frames : list Z) (start i fl : Z) : res space :=
  match n with
  | O => Ok sp
  | Datatypes.S n' =>
      f ← of_option (frames !! Z.to_nat i);
      sp' ← k_mem_paging_map sp (u32 (start + i * 0x1000)) f fl;
      map_shm_pages n' sp' frames start (i + 1) fl
  end.

(** [sys_mmap]; [arg] is what the argument points to, [None] if it points to nothing.  The
    test of the access mode is [!(mode & O_RDONLY | O_WRONLY)] when the macro is replaced. *)
Definition sys_mmap (fuel : nat) (s : mmaps) (v : @vfs F) (fl : files) (fds : fd_list) (m : shm)
    (start length prot flags : Z) (arg : option (Z * Z)) (new : Z) : res (Z * mmaps) :=
  if flags =? MAP_ANONYMOUS then
    '(a, s1) ← k_mem_mmap_allocate_block fuel s start length prot flags new;
    if a =? 0 then Ok (- ENOMEM, s1) else b ← get_block s1 a; Ok (bl_start b, s1)
  else
  match arg with
  | None => Ok (- EINVAL, s)
  | Some (fd, offs) =>
      o ← fd_to_node fl fds fd;
      match o with
      | None => Ok (- ENOENT, s)
      | Some node =>
          n ← get_node v node;
          if has_flag flags MAP_SHARED && negb (truthy (Z.lor (Z.land (vn_mode n) O_RDONLY) O_WRONLY)) then Ok (- EACCES, s)
          else
            '(a, s1) ← k_mem_mmap_allocate_block fuel s start length prot flags new;
            if a =? 0 then Ok (- ENOMEM, s1) else
            b ← get_block s1 a;
            let is_shm := k_mem_is_shm m n in
            let b' := mk_block (bl_start b) (bl_end b) (bl_size b) offs fd (bl_prot b) (bl_type b)
                        (if is_shm then Z.lor (bl_flags b) MMAP_FLAG_SHM else bl_flags b) in
            let s2 := set_block s1 a b' in
            if is_shm then
              sh ← get_shm m (vn_device n);
              let count := Z.of_nat (List.length (shm_frames sh)) in
              let l := if count <? bl_size b then count else bl_size b in
              sp ← map_shm_pages (Z.to_nat l) (mm_space s2) (shm_frames sh) (bl_start b) 0 (page_flags prot);
              Ok (bl_start b, set_space s2 sp)
            else Ok (bl_start b, s2)
      end
  end.

Fixpoint mark_all (s : mmaps) (l : list Z) : res mmaps :=
  match l with
  | [] => Ok s
  | a :: rest => s' ← k_mem_mmap_mark_dirty s a; mark_all s' rest
  end.

Definition sys_msync (s : mmaps) (v : @vfs F) (fl : files) (fds : fd_list) (start length flags : Z)
    : res (Z * mmaps * @vfs F) :=
  if has_flag flags MS_SYNC && has_flag flags MS_ASYNC then Ok (- EINVAL, s, v) else
  a ← k_mem_mmap_get_mapping s start;
  if a =? 0 then Ok (- EINVAL, s, v) else
  b ← get_block s a;
  if bl_end b <? u32 (start + length) then Ok (- EINVAL, s, v)
  else if negb (has_flag (bl_type b) MAP_SHARED) then Ok (- EINVAL, s, v)
  else
    o ← fd_to_node fl fds (bl_fd b);
    match o with
    | None => Ok (- EFAULT, s, v)
    | Some _ =>
        v' ← k_mem_mmap_sync_block s v fl fds a;
        s' ← (if has_flag flags MS_INVALIDATE then
                l ← k_mem_mmap_get_mappings_for_fd s (bl_fd b) (bl_offset b); mark_all s l
              else Ok s);
        Ok (0, s', v')
    end.

Definition sys_munmap (s : mmaps) (v : @vfs F) (fl : files) (fds : fd_list) (start length : Z)
    : res (Z * mmaps * @vfs F) :=
  a ← k_mem_mmap_get_mapping s start;
  if a =? 0 then Ok (- EINVAL, s, v)
  else
    v' ← k_mem_mmap_sync_block s v fl fds a;
    s' ← k_mem_mmap_free_block s a;
    Ok (0, s', v').
End files.
