(* ===== verification/MmapFacts.v ===== *)
(** * Correctness of memory mappings

    Anonymous memory is made of fresh frames and given back whole; a fault brings in the
    page of the file.  Then what the search for a place does wrong: it can run for ever,
    it takes reserved pages for free ones, and shared memory is mapped past its block. *)

From S2P Require Import Prelude.
From S2P Require Import TypesList.
From S2P Require Import Pmm.
From S2P Require Import Paging.
From S2P Require Import FdTable.
From S2P Require Import Tree.
From S2P Require Import Vfs.
From S2P Require Import BlockDev.
From S2P Require Import Shm.
From S2P Require Import Mmap.

#[local] Ltac Zify.zify_post_hook ::= Z.div_mod_to_equations.

(** ** Mapping page by page *)

(** How [x] translates when page number [p] and the pages behind it got the frames [ks] *)
Definition translated (s : space) (p : Z) (ks : list Z) (x : Z) : res Z :=
  match (if p <=? x / 0x1000 then ks !! Z.to_nat (x / 0x1000 - p) else None) with
  | Some k => Ok (0x1000 * k + x mod 0x1000)
  | None => k_mem_paging_virt2phys s x
  end.

Section mapping.
Implicit Types (s : space) (v i k x : Z).

Lemma translated_cons s s1 p k ks x :
  (∀ y, 0 ≤ y < 0xFFC00000 → k_mem_paging_virt2phys s1 y =
    if y / 0x1000 =? p then Ok (0x1000 * k + y mod 0x1000) else k_mem_paging_virt2phys s y) →
  0 ≤ x < 0xFFC00000 → translated s1 (p + 1) ks x = translated s p (k :: ks) x.
Proof.
  intros H Hx. unfold translated. destruct (Z.leb_spec (p + 1) (x / 0x1000)), (Z.leb_spec p (x / 0x1000)); try lia.
  - replace (Z.to_nat (x / 0x1000 - p)) with (S (Z.to_nat (x / 0x1000 - (p + 1)))) by lia. cbn.
    destruct (ks !! _); [done|]. rewrite H by done. by rewrite (proj2 (Z.eqb_neq _ _)) by lia.
  - rewrite H by done. rewrite (proj2 (Z.eqb_eq _ _)) by lia.
    replace (Z.to_nat (x / 0x1000 - p)) with O by lia. done.
  - rewrite H by done. by rewrite (proj2 (Z.eqb_neq _ _)) by lia.
Qed.

(** What mapping one page leaves for the rest of a region *)
Lemma map_page_region s v k flags n :
  space_wf s → 0 ≤ v → v + 0x1000 * (1 + n) ≤ 0xFFC00000 → 0 < k < 2 ^ 20 → 0 ≤ n → 0 ≤ flags < 256 →
  flags = 0 ∨ Z.odd flags = true → small_region s v (1 + n) →
  match k_mem_paging_map s v (0x1000 * k) flags with
  | Ok s' =>
      space_wf s' ∧ small_region s' (v + 0x1000) n ∧
      (∀ x, frame_free (sp_pmm s') x = true → frame_free (sp_pmm s) x = true) ∧
      ∀ x, 0 ≤ x < 0xFFC00000 → k_mem_paging_virt2phys s' x =
        if x / 0x1000 =? v / 0x1000 then Ok (0x1000 * k + x mod 0x1000) else k_mem_paging_virt2phys s x
  | Panic => True
  | _ => False
  end.
Proof.
  intros Hwf Hv Hend Hk Hn Hfl Hodd Hsm. pose proof (PDE_range v ltac:(lia)) as Hir.
  destruct (pde_get s (PDE v) Hwf ltac:(lia)) as (pde & Hp & _).
  assert (Hsm0 : small_pde pde) by (apply (Hsm 0); [lia|]; by rewrite Z.mul_0_r, Z.add_0_r).
  pose proof (map_ok s v k flags pde Hwf ltac:(lia) Hk Hfl Hp Hsm0) as Hm.
  pose proof (paging_map_spec s v k flags pde Hwf ltac:(lia) Hk Hfl Hodd Hp Hsm0) as Ht.
  destruct (k_mem_paging_map s v (0x1000 * k) flags) as [s2| | |]; [|done..].
  destruct Hm as (Hwf2 & _ & (pde2 & Hp2 & Ht2) & Hother & _ & Hfr & _). destruct Ht as (_ & _ & Ht).
  split; [done|]. split; [|by split]. intros j pdej Hj Hpj.
  destruct (decide (PDE (v + 0x1000 + 0x1000 * j) = PDE v)) as [He|He].
  - rewrite He, Hp2 in Hpj. injection Hpj as <-. by apply table_pde_small.
  - rewrite Hother in Hpj; [|rewrite PDE_eq; lia|done]. apply (Hsm (j + 1)); [lia|].
    rewrite <- Hpj. do 3 f_equal. lia.
Qed.

(** The frame that [alloc_frame] takes counts as allocated at once. *)
Lemma alloc_fresh s :
  space_wf s → frame_free (sp_pmm s) 0 = false →
  match alloc_frame s with
  | Ok (f, s1) => ∃ k, f = 0x1000 * k ∧ 0 < k < 2 ^ 20 ∧ frame_free (sp_pmm s) k = true ∧ space_wf s1 ∧
      claim_frame s1 f = Ok s1 ∧ sp_pd s1 = sp_pd s ∧ sp_tables s1 = sp_tables s ∧
      ∀ x, frame_free (sp_pmm s1) x = negb (k =? x) && frame_free (sp_pmm s) x
  | Panic => ∀ x, frame_free (sp_pmm s) x = false
  | _ => False
  end.
Proof.
  intros Hwf H0. unfold alloc_frame. pose proof (alloc_one_ok _ (sw_pmm _ Hwf)) as Ha.
  pose proof (pmm_alloc_spec _ 1 (sw_pmm _ Hwf) ltac:(lia)) as Hb.
  destruct (k_mem_pmm_alloc_frames (sp_pmm s) 1) as [[f p]| | |]; [|done..]. rewrite !bind_ok.
  destruct Ha as (k & -> & Hk & Hfk & _ & Hwp & Hff). destruct Hb as (_ & _ & _ & _ & _ & _ & Hbs & _).
  assert (0 < k) by (destruct (Z.eq_dec k 0) as [->|]; [congruence|lia]).
  exists k. split; [done|]. split; [lia|]. split; [done|]. split; [|split; [|done]].
  - apply space_wf_pmm; try done. intros x Hx. rewrite Hff in Hx. by apply andb_true_iff in Hx as [_ ?].
  - unfold claim_frame. cbn [sp_pmm set_pmm]. pose proof (frame_free_bounds _ _ Hfk).
    rewrite is_allocated_spec, bool_decide_eq_true_2, Hff, Z.eqb_refl by lia. done.
Qed.

Lemma map_fresh_ok n s v i flags :
  space_wf s → frame_free (sp_pmm s) 0 = false → 0 ≤ v → 0 ≤ i → v + 0x1000 * (i + Z.of_nat n) ≤ 0xFFC00000 →
  0 ≤ flags < 256 → flags = 0 ∨ Z.odd flags = true → small_region s (v + 0x1000 * i) (Z.of_nat n) →
  match map_scattered s v 0 flags i n with
  | Ok s' => space_wf s' ∧ (∀ x, frame_free (sp_pmm s') x = true → frame_free (sp_pmm s) x = true) ∧
      ∃ ks, length ks = n ∧ NoDup ks ∧
        (∀ k, k ∈ ks → 0 < k < 2 ^ 20 ∧ frame_free (sp_pmm s) k = true ∧ frame_free (sp_pmm s') k = false) ∧
        ∀ x, 0 ≤ x < 0xFFC00000 → k_mem_paging_virt2phys s' x = translated s (v / 0x1000 + i) ks x
  | Panic => True
  | _ => False
  end.
Proof.
  revert s i. induction n as [|n IH]; intros s i Hwf H0 Hv Hi Hend Hfl Hodd Hsm; cbn [map_scattered].
  { split; [done|]. split; [done|]. exists []. split; [done|]. split; [apply NoDup_nil_2|]. split; [set_solver|].
    intros x Hx. unfold translated. by destruct (_ <=? _). }
  rewrite truthy_0. pose proof (alloc_fresh s Hwf H0) as Ha.
  destruct (alloc_frame s) as [[f s1]| | |]; [|done..]. rewrite !bind_ok.
  destruct Ha as (k & -> & Hk & Hfk & Hwf1 & -> & Hpd1 & Htb1 & Hff1). rewrite bind_ok, u32_small by lia.
  assert (Hv2p : ∀ x, k_mem_paging_virt2phys s1 x = k_mem_paging_virt2phys s x).
  { intros x. unfold k_mem_paging_virt2phys, pde_at, read_pt, pde_at. by rewrite Hpd1, Htb1. }
  pose proof (map_page_region s1 (v + 0x1000 * i) k flags (Z.of_nat n) Hwf1 ltac:(lia) ltac:(lia) Hk ltac:(lia) Hfl Hodd) as Hm.
  specialize (Hm ltac:(intros j pde Hj; rewrite Hpd1; apply Hsm; lia)).
  destruct (k_mem_paging_map s1 (v + 0x1000 * i) (0x1000 * k) flags) as [s2| | |]; [|done..].
  rewrite bind_ok. destruct Hm as (Hwf2 & Hsm2 & Hfr2 & Ht2).
  assert (H02 : frame_free (sp_pmm s2) 0 = false).
  { destruct (frame_free (sp_pmm s2) 0) eqn:E; [|done]. apply Hfr2 in E. rewrite Hff1, H0, andb_false_r in E. done. }
  replace (v + 0x1000 * i + 0x1000) with (v + 0x1000 * (i + 1)) in Hsm2 by lia.
  specialize (IH s2 (i + 1) Hwf2 H02 Hv ltac:(lia) ltac:(lia) Hfl Hodd Hsm2).
  destruct (map_scattered s2 v 0 flags (i + 1) n) as [s'| | |]; [|done..].
  destruct IH as (Hwf' & Hmono & ks & Hlen & Hnd & Hks & Ht'). split; [done|].
  assert (Hback : ∀ x, frame_free (sp_pmm s') x = true → frame_free (sp_pmm s) x = true ∧ x ≠ k).
  { intros x Hx. apply Hmono, Hfr2 in Hx. rewrite Hff1 in Hx. apply andb_true_iff in Hx as [Hne Hx].
    split; [done|]. apply negb_true_iff, Z.eqb_neq in Hne. congruence. }
  split; [intros x Hx; by apply Hback|]. exists (k :: ks). split; [cbn; lia|]. split; [|split].
  - constructor; [|done]. intros Hin. apply Hks in Hin as (_ & Hin & _). apply Hfr2 in Hin.
    rewrite Hff1, Z.eqb_refl in Hin. done.
  - intros k' [->|Hin]%elem_of_cons.
    + split; [done|]. split; [done|]. destruct (frame_free (sp_pmm s') k) eqn:E; [|done]. by apply Hback in E as [_ ?].
    + apply Hks in Hin as (Hr & Hf & Hf'). split; [done|]. split; [|done]. apply Hfr2 in Hf. rewrite Hff1 in Hf.
      by apply andb_true_iff in Hf as [_ ?].
  - intros x Hx. rewrite Ht' by done. rewrite Z.add_assoc. apply translated_cons; [|done].
    intros y Hy. rewrite Ht2, Hv2p by done. by replace ((v + 0x1000 * i) / 0x1000) with (v / 0x1000 + i) by lia.
Qed.
End mapping.

(** ** Where a block goes *)

Section placing.
Implicit Types (s : mmaps) (sp : space).

(** The pages from the hint on are unmapped and below the limit. *)
Definition hint_free (s : mmaps) (pages : Z) : Prop :=
  0 ≤ mm_start s ∧ 0 ≤ pages ∧ mm_start s + 0x1000 * pages < USER_STACK_END ∧
  ∀ c, 0 ≤ c < pages → k_mem_paging_virt2phys (mm_space s) (mm_start s + 0x1000 * c) = Ok 0.

Lemma place_hint s fuel start pages flags :
  has_flag flags MAP_FIXED = false → hint_free s pages →
  mmap_place (S fuel) s start pages flags = Ok (Some (mm_start s, mm_start s + 0x1000 * pages)).
Proof.
  unfold hint_free, USER_STACK_END. intros Hf (H1 & H2 & H3 & H4). unfold mmap_place. rewrite Hf. cbn [mmap_search].
  rewrite first_mapped_none.
  2:{ intros c Hc. rewrite Z.add_0_r, (u32_small c), u32_small by lia. rewrite Z.mul_comm. apply H4. lia. }
  rewrite !bind_ok, Z.mul_0_r, Z.add_0_r, (u32_small (mm_start s)) by lia.
  rewrite Z.mul_comm, u32_small by lia. unfold USER_STACK_END. rewrite (proj2 (Z.leb_gt _ _)) by lia.
  by rewrite Z.mul_comm.
Qed.

Lemma mmap_pages_range size : 0 ≤ size → 0 ≤ mmap_pages size ∧ size ≤ 0x1000 * mmap_pages size < size + 0x1000.
Proof. intros H. unfold mmap_pages, truthy. destruct (Z.eqb_spec (size mod 0x1000) 0); cbn; lia. Qed.

Lemma page_flags_ok prot : 0 ≤ page_flags prot < 256 ∧ Z.odd (page_flags prot) = true.
Proof. unfold page_flags. by destruct (has_flag _ _). Qed.

Definition new_block (start pages prot flags : Z) : mmap_block :=
  mk_block start (start + 0x1000 * pages) (0x1000 * pages) 0 0 prot flags 0.

Lemma allocate_at_hint s fuel start size prot flags new :
  has_flag flags MAP_FIXED = false → hint_free s (mmap_pages size) →
  k_mem_mmap_allocate_block (S fuel) s start size prot flags new =
    (sp ← (if has_flag flags MAP_ANONYMOUS
           then map_scattered (mm_space s) (mm_start s) 0 (page_flags prot) 0 (Z.to_nat (mmap_pages size))
           else Ok (mm_space s));
     Ok (new, mk_mm sp (mm_frames s) (mm_start s + 0x1000 * mmap_pages size) (mm_blocks s ++ [new])
       (if has_flag flags MAP_SHARED then Some (default [] (mm_shared s) ++ [new]) else mm_shared s)
       (<[new := new_block (mm_start s) (mmap_pages size) prot flags]> (mm_heap s)))).
Proof.
  intros Hf Hh. unfold k_mem_mmap_allocate_block. cbv zeta. rewrite place_hint, bind_ok by done.
  destruct Hh as (H1 & H2 & H3 & _). unfold USER_STACK_END in H3.
  unfold new_block. rewrite (Z.mul_comm (mmap_pages size)), !u32_small by lia. done.
Qed.
End placing.

(** ** Properties *)

(** Anonymous memory at the search hint, where the pages from the hint on are unmapped,
    below the stack and outside any 4 MiB page: when the call returns, the new block covers
    exactly those pages and is the last of the process, the hint is behind it, every page
    translates to a frame of its own that was free before, and every other address
    translates as it did.  The only other outcome is the panic for want of memory. *)
Theorem mmap_anonymous_fresh s fuel start size prot flags new :
  space_wf (mm_space s) → frame_free (sp_pmm (mm_space s)) 0 = false →
  has_flag flags MAP_FIXED = false → has_flag flags MAP_ANONYMOUS = true → 0 ≤ size →
  hint_free s (mmap_pages size) → small_region (mm_space s) (mm_start s) (mmap_pages size) →
  match k_mem_mmap_allocate_block (S fuel) s start size prot flags new with
  | Ok (a, s') =>
      let st := mm_start s in
      a = new ∧ mm_blocks s' = mm_blocks s ++ [new] ∧ mm_start s' = st + 0x1000 * mmap_pages size ∧
      mm_heap s' = <[new := new_block st (mmap_pages size) prot flags]> (mm_heap s) ∧
      space_wf (mm_space s') ∧
      ∃ ks, length ks = Z.to_nat (mmap_pages size) ∧ NoDup ks ∧
        (∀ k, k ∈ ks → frame_free (sp_pmm (mm_space s)) k = true ∧ frame_free (sp_pmm (mm_space s')) k = false) ∧
        ∀ x, 0 ≤ x < 0xFFC00000 → k_mem_paging_virt2phys (mm_space s') x = translated (mm_space s) (st / 0x1000) ks x
  | Panic => True
  | _ => False
  end.
Proof.
  intros Hwf H0 Hfix Han Hsize Hh Hsm. rewrite allocate_at_hint, Han by done.
  destruct Hh as (H1 & H2 & H3 & _). unfold USER_STACK_END in H3.
  destruct (page_flags_ok prot) as [Hfl Hodd].
  pose proof (map_fresh_ok (Z.to_nat (mmap_pages size)) (mm_space s) (mm_start s) 0 (page_flags prot) Hwf H0
    ltac:(lia) ltac:(lia) ltac:(lia) Hfl (or_intror Hodd)) as Hm.
  rewrite Z.mul_0_r, !Z.add_0_r, Z2Nat.id in Hm by lia. specialize (Hm Hsm).
  destruct (map_scattered _ _ _ _ _ _) as [sp| | |]; [|done..]. rewrite bind_ok. cbn.
  destruct Hm as (Hwf' & _ & ks & Hlen & Hnd & Hks & Ht). do 5 (split; [done|]). exists ks.
  split; [done|]. split; [done|]. split; [|done]. intros k Hk. by apply Hks in Hk as (_ & ? & ?).
Qed.

(** A process without mappings; its page directory has the entry of [demo_space] only. *)
Definition demo_maps : mmaps := mk_mm (demo_space []) ∅ 0x40000000 [] None ∅.

Lemma demo_unmapped x : 0 ≤ x < 0xC0000000 → k_mem_paging_virt2phys (demo_space []) x = Ok 0.
Proof.
  intros Hx. unfold k_mem_paging_virt2phys, pde_at. unfold u16. rewrite PDE_eq, (Z.mod_small (x / 0x400000)) by lia.
  rewrite demo_pd by lia. case_if; [lia|]. done.
Qed.

Lemma demo_small v n : 0 ≤ v → v + 0x1000 * n < 0xC0000000 → small_region (demo_space []) v n.
Proof. intros Hv Hn j pde Hj. rewrite PDE_eq, demo_pd by lia. case_if; [lia|]. intros [= <-]. by left. Qed.

Lemma demo_hint pages : 0 ≤ pages < 100 → hint_free demo_maps pages.
Proof.
  intros Hp. unfold hint_free, USER_STACK_END, demo_maps. cbn [mm_start mm_space]. split; [lia|]. split; [lia|].
  split; [lia|]. intros c Hc. apply demo_unmapped. lia.
Qed.

Lemma mmap_anonymous_fresh_witness :
  match k_mem_mmap_allocate_block 1 demo_maps 0 0x1800 3 10 500 with
  | Ok (a, s') =>
      let st := 0x40000000 in
      a = 500 ∧ mm_blocks s' = [500] ∧ mm_start s' = st + 0x1000 * 2 ∧
      mm_heap s' = <[500 := new_block st 2 3 10]> ∅ ∧ space_wf (mm_space s') ∧
      ∃ ks, length ks = 2%nat ∧ NoDup ks ∧
        (∀ k, k ∈ ks → frame_free (sp_pmm (demo_space [])) k = true ∧ frame_free (sp_pmm (mm_space s')) k = false) ∧
        ∀ x, 0 ≤ x < 0xFFC00000 → k_mem_paging_virt2phys (mm_space s') x = translated (demo_space []) (st / 0x1000) ks x
  | Panic => True
  | _ => False
  end.
Proof.
  apply (mmap_anonymous_fresh demo_maps 0 0 0x1800 3 10 500 demo_space_wf); try done.
  - apply (demo_hint 2). lia.
  - apply (demo_small 0x40000000 2); lia.
Defined.

Section reserved.
Implicit Types (s : mmaps) (sp : space).

(** There is no page table for the address yet. *)
Definition no_table (sp : space) (v : Z) : Prop :=
  ∃ pde, sp_pd sp !! Z.to_nat (PDE v) = Some pde ∧ entry_present pde = false.

Lemma no_table_unmapped sp v : 0 ≤ v < 2 ^ 32 → no_table sp v → k_mem_paging_virt2phys sp v = Ok 0.
Proof.
  intros Hv (pde & Hp & He). unfold k_mem_paging_virt2phys, pde_at, u16. rewrite (Z.mod_small (PDE v)).
  - rewrite Hp. cbn [of_option]. by rewrite bind_ok, He.
  - rewrite PDE_eq. lia.
Qed.

Lemma unmap_free_nothing n sp v i :
  0 ≤ v → 0 ≤ i → v + 0x1000 * (i + Z.of_nat n) < 2 ^ 32 →
  (∀ c, i ≤ c < i + Z.of_nat n → no_table sp (v + 0x1000 * c)) → unmap_free_pages sp v i n = Ok sp.
Proof.
  revert i. induction n as [|n IH]; intros i Hv Hi Hend H; cbn [unmap_free_pages]; [done|].
  rewrite u32_small by lia. destruct (H i ltac:(lia)) as (pde & Hp & He).
  unfold k_mem_paging_unmap_and_free, pde_at. replace (v + i * 0x1000) with (v + 0x1000 * i) by lia.
  rewrite Hp. cbn [of_option]. rewrite !bind_ok, He. cbn [negb]. rewrite bind_ok. apply IH; [done|lia|lia|]. intros c Hc. apply H. lia.
Qed.
End reserved.

(** The search for free pages looks at the page tables only, so pages that are reserved
    for a file but not touched yet are handed out again.  Three pages from the hint have no
    page table: a process maps one page of a file, then another, unmaps the first, and maps
    two pages; the last mapping overlaps the second one, whose page keeps belonging to the
    second for every later fault. *)
Theorem mmap_reuses_reserved_pages s prot a b c fuel :
  0 ≤ mm_start s → mm_start s + 0x3000 < USER_STACK_END → mm_blocks s = [] → a ≠ 0 → b ≠ 0 → c ≠ 0 → a ≠ b → a ≠ c → b ≠ c →
  (∀ i, 0 ≤ i < 3 → no_table (mm_space s) (mm_start s + 0x1000 * i)) →
  ∃ s1 s2 s3 s4 y z,
    k_mem_mmap_allocate_block (S fuel) s 0 0x1000 prot MAP_PRIVATE a = Ok (a, s1) ∧
    k_mem_mmap_allocate_block (S fuel) s1 0 0x1000 prot MAP_PRIVATE b = Ok (b, s2) ∧
    k_mem_mmap_free_block s2 a = Ok s3 ∧
    k_mem_mmap_allocate_block (S fuel) s3 0 0x2000 prot MAP_PRIVATE c = Ok (c, s4) ∧
    get_block s4 b = Ok y ∧ get_block s4 c = Ok z ∧
    bl_start z < bl_start y ∧ bl_end z = bl_end y ∧ k_mem_mmap_get_mapping s4 (bl_start y) = Ok b.
Proof.
  intros Hst Hend Hbl Ha Hb Hc Hab Hac Hbc Hnt. unfold USER_STACK_END in Hend.
  assert (Hh : ∀ s', mm_space s' = mm_space s → ∀ k n, mm_start s' = mm_start s + 0x1000 * k → 0 ≤ k → 0 ≤ n → k + n ≤ 3 →
    hint_free s' n).
  { intros s' Hsp k n Hs' Hk Hn Hkn. unfold hint_free, USER_STACK_END. rewrite Hs', Hsp. split; [lia|]. split; [lia|].
    split; [lia|]. intros i Hi. replace (mm_start s + 0x1000 * k + 0x1000 * i) with (mm_start s + 0x1000 * (k + i)) by lia.
    apply no_table_unmapped; [lia|]. apply Hnt. lia. }
  assert (Hp1 : mmap_pages 0x1000 = 1) by done. assert (Hp2 : mmap_pages 0x2000 = 2) by done.
  eexists _, _, _, _, _, _. split.
  { rewrite allocate_at_hint; [cbn; reflexivity|done|]. refine (Hh _ _ 0 1 _ _ _ _); [done|cbn; lia..]. }
  split; [rewrite allocate_at_hint; [cbn; reflexivity|done|]; refine (Hh _ _ 1 1 _ _ _ _); [done|cbn; lia..]|]. split.
  { unfold k_mem_mmap_free_block, get_block. cbn. rewrite lookup_insert_ne, lookup_insert_eq by done. cbn.
    unfold k_mem_paging_unmap_and_free_region. rewrite unmap_free_nothing; [cbn; reflexivity|lia..|].
    intros i Hi. apply Hnt. cbn in Hi. lia. }
  split; [rewrite allocate_at_hint; [cbn; reflexivity|done|]; refine (Hh _ _ 0 2 _ _ _ _); [done|cbn; lia..]|].
  unfold get_block. cbn. rewrite lookup_insert_ne, lookup_delete_ne, lookup_insert_eq by done.
  split; [reflexivity|]. rewrite lookup_insert_eq. split; [reflexivity|]. unfold new_block. cbn.
  split; [lia|]. split; [lia|]. unfold k_mem_mmap_get_mapping. cbn. rewrite Hbl. cbn.
  rewrite Z.eqb_refl. cbn.
  repeat first [rewrite lookup_insert_eq|rewrite lookup_insert_ne by done|rewrite lookup_delete_ne by done]. cbn.
  rewrite (proj2 (Z.leb_le _ _)), (proj2 (Z.ltb_lt _ _)) by lia. done.
Qed.

Lemma demo_no_table v : 0 ≤ v < 0xC0000000 → no_table (demo_space []) v.
Proof. intros Hv. exists 0. rewrite PDE_eq, demo_pd by lia. case_if; [lia|]. done. Qed.

Lemma mmap_reuses_reserved_pages_witness :
  ∃ s1 s2 s3 s4 y z,
    k_mem_mmap_allocate_block 1 demo_maps 0 0x1000 1 MAP_PRIVATE 500 = Ok (500, s1) ∧
    k_mem_mmap_allocate_block 1 s1 0 0x1000 1 MAP_PRIVATE 600 = Ok (600, s2) ∧
    k_mem_mmap_free_block s2 500 = Ok s3 ∧
    k_mem_mmap_allocate_block 1 s3 0 0x2000 1 MAP_PRIVATE 700 = Ok (700, s4) ∧
    get_block s4 600 = Ok y ∧ get_block s4 700 = Ok z ∧
    bl_start z < bl_start y ∧ bl_end z = bl_end y ∧ k_mem_mmap_get_mapping s4 (bl_start y) = Ok 600.
Proof.
  apply (mmap_reuses_reserved_pages demo_maps 1 500 600 700 0); try done.
  intros i Hi. apply demo_no_table. cbn [mm_start demo_maps]. lia.
Defined.

(** The search can run for ever.  If the pages from the hint on are free, mapped, free,
    mapped, free, and no block is there, a request for two pages restarts from the third
    page again and again: the offset is set to what the last skip counted, not advanced by it. *)
Theorem mmap_search_livelocks s fuel loop :
  0 ≤ mm_start s → mm_start s + 0x5000 < USER_STACK_END → mm_blocks s = [] →
  (∀ c, c = 0 ∨ c = 2 ∨ c = 4 → k_mem_paging_virt2phys (mm_space s) (mm_start s + c * 0x1000) = Ok 0) →
  (∀ c, c = 1 ∨ c = 3 → ∃ p, k_mem_paging_virt2phys (mm_space s) (mm_start s + c * 0x1000) = Ok p ∧ p ≠ 0) →
  mmap_search fuel s (mm_start s) 0 2 loop = OutOfFuel.
Proof.
  unfold USER_STACK_END. intros Hst Hend Hbl Hfree Hmap. set (st := mm_start s) in *.
  assert (Hpage : ∀ c o, 0 ≤ c ≤ 4 → 0 ≤ o ≤ 4 → u32 (st + u32 (c + o) * 0x1000) = st + (c + o) * 0x1000)
    by (intros c o ? ?; rewrite (u32_small (c + o)), u32_small; lia).
  assert (Hf : ∀ o, o = 0 ∨ o = 2 → first_mapped (mm_space s) st o 0 2 = Ok (Some 1)).
  { intros o Ho. cbn [first_mapped]. rewrite (Hpage 0 o), (Hfree (0 + o)), bind_ok, truthy_0 by lia.
    rewrite (Hpage (0 + 1) o) by lia. destruct (Hmap (0 + 1 + o)) as (p & -> & Hp); [lia|].
    rewrite bind_ok, (proj2 (truthy_true _)) by done. done. }
  assert (Hk : ∀ o f, o = 0 ∨ o = 2 → skip_used f s st o 1 = OutOfFuel ∨ skip_used f s st o 1 = Ok 2).
  { intros o [|[|f]] Ho; [by left| |].
    - left. cbn [skip_used]. rewrite (Hpage 1 o) by lia. destruct (Hmap (1 + o)) as (p & -> & Hp); [lia|].
      by rewrite bind_ok, (proj2 (truthy_true _)) by done.
    - right. cbn [skip_used]. rewrite (Hpage 1 o) by lia. destruct (Hmap (1 + o)) as (p & -> & Hp); [lia|].
      rewrite bind_ok, (proj2 (truthy_true _)), bind_ok by done. change (u32 (1 + 1)) with 2.
      rewrite (Hpage 2 o), (Hfree (2 + o)), bind_ok, truthy_0 by lia. unfold k_mem_mmap_get_mapping. by rewrite Hbl. }
  assert (Hgo : ∀ f o, o = 0 ∨ o = 2 → mmap_search f s st o 2 loop = OutOfFuel).
  { induction f as [|f IH]; intros o Ho; cbn [mmap_search]; [done|].
    change (Z.to_nat 2) with 2%nat. rewrite Hf, bind_ok by done.
    destruct (Hk o f Ho) as [-> | ->]; [done|]. rewrite bind_ok. unfold USER_STACK_END. rewrite u32_small by lia.
    rewrite (proj2 (Z.leb_gt _ _)) by lia. apply IH. by right. }
  apply Hgo. by left.
Qed.

(** Pages 1 and 3 of a table at the hint are mapped. *)
Definition striped_maps : mmaps := mk_mm (table_space 256 [1%nat; 3%nat]) ∅ 0x40000000 [] None ∅.

Lemma mmap_search_livelocks_witness : mmap_search 1000 striped_maps 0x40000000 0 2 false = OutOfFuel.
Proof.
  apply (mmap_search_livelocks striped_maps 1000 false); [done..| |].
  - intros c [->|[-> | ->]]; by vm_compute.
  - intros c [-> | ->]; eexists; (split; [by vm_compute|done]).
Defined.

(** ** Pages whose tables are there *)

(** The entry of page number [q] when page [p] and those behind it got the frames [ks] *)
Definition placed (s : space) (p : Z) (ks : list Z) (fl q : Z) : Z :=
  match (if p <=? q then ks !! Z.to_nat (q - p) else None) with
  | Some k => 0x1000 * k + fl
  | None => pte s (q / 1024) (q mod 1024)
  end.

Definition has_table (s : space) (v : Z) : Prop :=
  ∃ pde, sp_pd s !! Z.to_nat (PDE v) = Some pde ∧ table_pde pde = true.

(** A frame that holds no page table *)
Definition no_table_frame (s : space) (k : Z) : Prop :=
  ∀ i pde, 0 ≤ i < 1023 → sp_pd s !! Z.to_nat i = Some pde → table_pde pde = true → entry_page pde ≠ k.

Section present.
Implicit Types (s : space) (v k q : Z).

Lemma page_pte v q : 0 ≤ v → 0 ≤ q → (PDE v =? q / 1024) && (PTE v =? q mod 1024) = (v / 0x1000 =? q).
Proof.
  intros Hv Hq. rewrite PDE_eq, PTE_eq. apply eq_true_iff_eq. rewrite andb_true_iff, !Z.eqb_eq. lia.
Qed.

Lemma pte_page v : 0 ≤ v → PDE v = v / 0x1000 / 1024 ∧ PTE v = (v / 0x1000) mod 1024.
Proof. intros Hv. rewrite PDE_eq, PTE_eq. split; [|done]. rewrite Z.div_div by lia. done. Qed.

(** Storing an entry *)
Lemma write_page_pte s v raw :
  space_wf s → 0 ≤ v < 0xFFC00000 → has_table s v → word raw →
  ∃ s', write_pt s (PDE v) (PTE v) raw = Ok s' ∧ space_wf s' ∧ sp_pd s' = sp_pd s ∧ sp_pmm s' = sp_pmm s ∧
    ∀ q, 0 ≤ q < 0xFFC00 → pte s' (q / 1024) (q mod 1024) =
      if v / 0x1000 =? q then raw else pte s (q / 1024) (q mod 1024).
Proof.
  intros Hwf Hv (pde & Hp & Ht) Hw. pose proof (PDE_range v Hv). pose proof (PTE_range v ltac:(lia)).
  destruct (write_pt_ok s (PDE v) (PTE v) raw pde) as (s' & Hs' & Hwf' & Hpd & Hpm & Hpte); try done.
  exists s'. do 4 (split; [done|]). intros q Hq. rewrite Hpte by lia. by rewrite page_pte by lia.
Qed.

Lemma map_present s v k fl :
  space_wf s → 0 ≤ v < 0xFFC00000 → has_table s v → 0 < k < 2 ^ 20 → 0 < fl < 256 →
  match k_mem_paging_map s v (0x1000 * k) fl with
  | Ok s' => space_wf s' ∧ sp_pd s' = sp_pd s ∧ sp_pmm s' = sp_pmm s ∧ entry_present (pte s (PDE v) (PTE v)) = false ∧
      ∀ q, 0 ≤ q < 0xFFC00 → pte s' (q / 1024) (q mod 1024) =
        if v / 0x1000 =? q then 0x1000 * k + fl else pte s (q / 1024) (q mod 1024)
  | Panic => True
  | _ => False
  end.
Proof.
  intros Hwf Hv Hht Hk Hfl. destruct Hht as (pde & Hp & Ht). pose proof (PDE_range v Hv). pose proof (PTE_range v ltac:(lia)).
  unfold k_mem_paging_map, ensure_table, pde_at. rewrite Hp. cbn [of_option]. rewrite !bind_ok.
  assert (Hpr : entry_present pde = true) by (unfold table_pde in Ht; by apply andb_true_iff in Ht as [? _]).
  rewrite Hpr, bind_ok, (proj2 (truthy_true fl)), (proj2 (truthy_true (0x1000 * k))) by lia.
  destruct (read_pt_ok s (PDE v) (PTE v) pde) as [-> _]; try done. rewrite bind_ok.
  destruct (entry_present (pte s (PDE v) (PTE v))) eqn:Hnp; [done|]. rewrite bind_ok, lor_page by lia.
  destruct (write_page_pte s v (0x1000 * k + fl)) as (s' & -> & ? & ? & ? & ?); try done; [by exists pde|].
  unfold word. lia.
Qed.

Lemma map_scattered_present n s v i fl :
  space_wf s → frame_free (sp_pmm s) 0 = false → 0 ≤ v → 0 ≤ i → v + 0x1000 * (i + Z.of_nat n) ≤ 0xFFC00000 →
  0 < fl < 256 → (∀ c, i ≤ c < i + Z.of_nat n → has_table s (v + 0x1000 * c)) →
  match map_scattered s v 0 fl i n with
  | Ok s' => space_wf s' ∧ sp_pd s' = sp_pd s ∧
      ∃ ks, length ks = n ∧ NoDup ks ∧ Forall (λ k, 0 < k < 2 ^ 20 ∧ frame_free (sp_pmm s) k = true ∧ no_table_frame s k) ks ∧
        (∀ q, 0 ≤ q < 0xFFC00 → pte s' (q / 1024) (q mod 1024) = placed s (v / 0x1000 + i) ks fl q) ∧
        (∀ q, v / 0x1000 + i ≤ q < v / 0x1000 + i + Z.of_nat n → entry_present (pte s (q / 1024) (q mod 1024)) = false) ∧
        ∀ x, frame_free (sp_pmm s') x = negb (bool_decide (x ∈ ks)) && frame_free (sp_pmm s) x
  | Panic => True
  | _ => False
  end.
Proof.
  revert s i. induction n as [|n IH]; intros s i Hwf H0 Hv Hi Hend Hfl Htab; cbn [map_scattered].
  { split; [done|]. split; [done|]. exists []. split; [done|]. split; [apply NoDup_nil_2|]. split; [constructor|].
    split; [|split; [lia|done]]. intros q Hq. unfold placed. by destruct (_ <=? _). }
  rewrite truthy_0. pose proof (alloc_fresh s Hwf H0) as Ha.
  destruct (alloc_frame s) as [[f s1]| | |]; [|done..]. rewrite !bind_ok.
  destruct Ha as (k & -> & Hk & Hfk & Hwf1 & -> & Hpd1 & Htb1 & Hff1). rewrite bind_ok, u32_small by lia.
  assert (Hpte1 : ∀ i j, pte s1 i j = pte s i j) by (intros; unfold pte; by rewrite Hpd1, Htb1).
  assert (Ht1 : has_table s1 (v + 0x1000 * i)) by (unfold has_table; rewrite Hpd1; apply Htab; lia).
  pose proof (map_present s1 (v + 0x1000 * i) k fl Hwf1 ltac:(lia) Ht1 Hk Hfl) as Hm.
  destruct (k_mem_paging_map s1 (v + 0x1000 * i) (0x1000 * k) fl) as [s2| | |]; [|done..]. rewrite bind_ok.
  destruct Hm as (Hwf2 & Hpd2 & Hpm2 & Hnp & Hpte2). rewrite Hpd1 in Hpd2.
  assert (H02 : frame_free (sp_pmm s2) 0 = false) by (by rewrite Hpm2, Hff1, H0, andb_false_r).
  specialize (IH s2 (i + 1) Hwf2 H02 Hv ltac:(lia) ltac:(lia) Hfl).
  specialize (IH ltac:(unfold has_table; rewrite Hpd2; intros c Hc; apply Htab; lia)).
  destruct (map_scattered s2 v 0 fl (i + 1) n) as [s'| | |]; [|done..].
  destruct IH as (Hwf' & Hpd' & ks & Hlen & Hnd & Hks & Hpte' & Hnp' & Hff'). rewrite Hpd2 in Hpd'.
  assert (Hnk : k ∉ ks).
  { intros Hin. rewrite Forall_forall in Hks. apply Hks in Hin as (_ & Hin & _).
    rewrite Hpm2, Hff1, Z.eqb_refl in Hin. done. }
  split; [done|]. split; [done|]. exists (k :: ks). split; [cbn; lia|]. split; [by constructor|]. split; [|split; [|split]].
  - constructor.
    + split; [done|]. split; [done|]. intros j pde Hj Hp Ht He. destruct (sw_table _ Hwf j pde Hj Hp Ht). congruence.
    + eapply Forall_impl; [exact Hks|]. cbn. intros k' (Hr & Hf & Hno). split; [done|]. rewrite Hpm2, Hff1 in Hf.
      apply andb_true_iff in Hf as [_ ?]. split; [done|]. intros j pde. specialize (Hno j pde). by rewrite Hpd2 in Hno.
  - intros q Hq. rewrite Hpte' by done. unfold placed. rewrite Hpte2, Hpte1 by done.
    replace ((v + 0x1000 * i) / 0x1000) with (v / 0x1000 + i) by lia.
    destruct (Z.leb_spec (v / 0x1000 + (i + 1)) q), (Z.leb_spec (v / 0x1000 + i) q), (Z.eqb_spec (v / 0x1000 + i) q); try lia.
    + replace (Z.to_nat (q - (v / 0x1000 + i))) with (S (Z.to_nat (q - (v / 0x1000 + (i + 1))))) by lia. done.
    + replace (Z.to_nat (q - (v / 0x1000 + i))) with O by lia. done.
  - intros q Hq. destruct (Z.eq_dec q (v / 0x1000 + i)) as [->|Hne].
    + destruct (pte_page (v + 0x1000 * i) ltac:(lia)) as [He1 He2]. rewrite Hpte1, He1, He2 in Hnp.
      by replace ((v + 0x1000 * i) / 0x1000) with (v / 0x1000 + i) in Hnp by lia.
    + specialize (Hnp' q ltac:(lia)). rewrite Hpte2, Hpte1 in Hnp' by lia.
      by rewrite (proj2 (Z.eqb_neq _ _)) in Hnp' by lia.
  - intros x. rewrite Hff', Hpm2, Hff1, andb_assoc. f_equal. apply eq_true_iff_eq.
    rewrite andb_true_iff, !negb_true_iff, !bool_decide_eq_false, Z.eqb_neq, elem_of_cons. naive_solver.
Qed.

Lemma unmap_free_step s v k fl :
  space_wf s → 0 ≤ v < 0xFFC00000 → has_table s v → 0 < k < 2 ^ 20 → 0 ≤ fl < 0x1000 →
  pte s (PDE v) (PTE v) = 0x1000 * k + fl → frame_free (sp_pmm s) k = false → no_table_frame s k →
  ∃ s', k_mem_paging_unmap_and_free s v = Ok s' ∧ space_wf s' ∧ sp_pd s' = sp_pd s ∧
    (∀ q, 0 ≤ q < 0xFFC00 → pte s' (q / 1024) (q mod 1024) = if v / 0x1000 =? q then 0 else pte s (q / 1024) (q mod 1024)) ∧
    ∀ x, frame_free (sp_pmm s') x = (k =? x) || frame_free (sp_pmm s) x.
Proof.
  intros Hwf Hv Hht Hk Hfl Hpte Hf Hno. pose proof Hht as (pde & Hp & Ht).
  pose proof (PDE_range v Hv). pose proof (PTE_range v ltac:(lia)).
  unfold k_mem_paging_unmap_and_free, pde_at. rewrite Hp. cbn [of_option]. rewrite bind_ok.
  assert (Hpr : entry_present pde = true) by (unfold table_pde in Ht; by apply andb_true_iff in Ht as [? _]).
  rewrite Hpr. cbn [negb]. destruct (read_pt_ok s (PDE v) (PTE v) pde) as [-> _]; try done. rewrite bind_ok, Hpte.
  destruct (write_page_pte s v 0) as (s1 & -> & Hwf1 & Hpd1 & Hpm1 & Hpte1); try done. rewrite bind_ok.
  rewrite entry_page_eq, Z.mul_comm, u32_small, (proj2 (truthy_true _)) by lia.
  destruct (free_one (sp_pmm s1) (0x1000 * k) (sw_pmm _ Hwf1)) as (p & -> & Hwp & Hfp).
  { exists k. rewrite Hpm1. split; [done|]. split; [lia|done]. }
  rewrite bind_ok. exists (set_pmm s1 p). split; [done|].
  assert (Hfr : ∀ x, frame_free p x = (k =? x) || frame_free (sp_pmm s) x).
  { intros x. rewrite Hfp, Hpm1. f_equal. apply eq_true_iff_eq. rewrite bool_decide_eq_true, Z.eqb_eq. lia. }
  split; [|split; [done|split; [done|done]]]. destruct Hwf1 as [W1 W2 W3 W4 W5]. split; try done. cbn.
  intros i pde' Hi Hpi Hti. destruct (W4 i pde' Hi Hpi Hti) as [Hfi Htb]. split; [|done].
  rewrite Hfr. rewrite Hpm1 in Hfi. rewrite Hfi, orb_false_r. apply Z.eqb_neq. rewrite Hpd1 in Hpi.
  intros He. by apply (Hno i pde').

Qed.

Lemma unmap_free_region n s v i ks fl :
  space_wf s → 0 ≤ v → 0 ≤ i → v + 0x1000 * (i + Z.of_nat n) ≤ 0xFFC00000 → 0 ≤ fl < 0x1000 →
  (∀ c, i ≤ c < i + Z.of_nat n → has_table s (v + 0x1000 * c)) → length ks = n → NoDup ks →
  Forall (λ k, 0 < k < 2 ^ 20 ∧ frame_free (sp_pmm s) k = false ∧ no_table_frame s k) ks →
  (∀ c k, ks !! c = Some k →
    pte s ((v / 0x1000 + i + Z.of_nat c) / 1024) ((v / 0x1000 + i + Z.of_nat c) mod 1024) = 0x1000 * k + fl) →
  ∃ s', unmap_free_pages s v i n = Ok s' ∧ space_wf s' ∧ sp_pd s' = sp_pd s ∧
    (∀ q, 0 ≤ q < 0xFFC00 → pte s' (q / 1024) (q mod 1024) =
      if (v / 0x1000 + i <=? q) && (q <? v / 0x1000 + i + Z.of_nat n) then 0 else pte s (q / 1024) (q mod 1024)) ∧
    ∀ x, frame_free (sp_pmm s') x = bool_decide (x ∈ ks) || frame_free (sp_pmm s) x.
Proof.
  revert s i ks. induction n as [|n IH]; intros s i ks Hwf Hv Hi Hend Hfl Htab Hlen Hnd Hks Hpte; cbn [unmap_free_pages].
  { exists s. do 3 (split; [done|]). destruct ks; [|done]. split.
    - intros q Hq. case_if; [lia|done].
    - done. }
  destruct ks as [|k ks]; [done|]. inversion Hks as [|? ? (Hk & Hfk & Hno) Hks']; subst. inversion Hnd as [|? ? Hnk Hnd']; subst.
  rewrite u32_small by lia. replace (v + i * 0x1000) with (v + 0x1000 * i) by lia.
  destruct (pte_page (v + 0x1000 * i) ltac:(lia)) as [He1 He2].
  replace ((v + 0x1000 * i) / 0x1000) with (v / 0x1000 + i) in He1, He2 by lia.
  destruct (unmap_free_step s (v + 0x1000 * i) k fl) as (s1 & -> & Hwf1 & Hpd1 & Hpte1 & Hff1); try done; [lia|apply Htab; lia| |].
  { rewrite He1, He2. specialize (Hpte O k eq_refl). by rewrite Z.add_0_r in Hpte. }
  rewrite bind_ok. replace ((v + 0x1000 * i) / 0x1000) with (v / 0x1000 + i) in Hpte1 by lia.
  destruct (IH s1 (i + 1) ks) as (s' & -> & Hwf' & Hpd' & Hpte' & Hff'); try done; try lia.
  - unfold has_table. rewrite Hpd1. intros c Hc. apply Htab. lia.
  - cbn in Hlen. lia.
  - apply Forall_forall. intros k' Hin. rewrite Forall_forall in Hks'. destruct (Hks' k' Hin) as (Hr & Hf & Hn).
    split; [done|]. split; [rewrite Hff1, Hf, (proj2 (Z.eqb_neq _ _)); [done|congruence]|].
    intros j pde. rewrite Hpd1. apply Hn.
  - intros c k' Hc. pose proof (lookup_lt_Some _ _ _ Hc). rewrite Hpte1.
    + rewrite (proj2 (Z.eqb_neq _ _)) by lia. specialize (Hpte (S c) k' Hc). rewrite <- Hpte. do 2 f_equal; lia.
    + cbn in Hlen. lia.
  - exists s'. split; [done|]. split; [done|]. split; [congruence|]. split.
    + intros q Hq. rewrite Hpte', Hpte1 by done.
      destruct (Z.leb_spec (v / 0x1000 + (i + 1)) q), (Z.leb_spec (v / 0x1000 + i) q),
        (Z.ltb_spec q (v / 0x1000 + (i + 1) + Z.of_nat n)), (Z.ltb_spec q (v / 0x1000 + i + Z.of_nat (S n))),
        (Z.eqb_spec (v / 0x1000 + i) q); cbn [andb]; try lia; done.
    + intros x. rewrite Hff', Hff1, orb_assoc. f_equal. apply eq_true_iff_eq.
      rewrite orb_true_iff, !bool_decide_eq_true, Z.eqb_eq, elem_of_cons. naive_solver.
Qed.
End present.

(** ** Mapping and unmapping through the system calls *)

Section round.
Context {F : Type} `{fs_table F}.
Implicit Types (s : mmaps) (v : @vfs F).

Lemma find_mapping_last h blocks a b addr :
  (∀ c, c ∈ blocks → ∃ y, h !! c = Some y ∧ ¬ (bl_start y ≤ addr < bl_end y)) → h !! a = Some b →
  bl_start b ≤ addr < bl_end b → find_mapping h (blocks ++ [a]) addr = Ok a.
Proof.
  induction blocks as [|c blocks IH]; intros Hno Ha Hin; cbn [find_mapping app].
  - rewrite Ha. cbn [of_option]. rewrite bind_ok, (proj2 (Z.leb_le _ _)), (proj2 (Z.ltb_lt _ _)) by lia. done.
  - destruct (Hno c ltac:(by left)) as (y & Hy & Hout). rewrite Hy. cbn [of_option]. rewrite bind_ok.
    case_if; [lia|]. apply IH; try done. intros d Hd. apply Hno. by right.
Qed.

Lemma remove_first_last a l : a ∉ l → remove_first a (l ++ [a]) = l.
Proof. intros Ha. rewrite remove_first_middle by done. apply app_nil_r. Qed.

(** Same translation, from the entries *)
Lemma same_translation (s s' : space) x :
  space_wf s → space_wf s' → sp_pd s' = sp_pd s → 0 ≤ x < 0xFFC00000 →
  pte s' (PDE x) (PTE x) = pte s (PDE x) (PTE x) → k_mem_paging_virt2phys s' x = k_mem_paging_virt2phys s x.
Proof. intros ? ? Hpd ? ?. apply virt2phys_ext; try done. by rewrite Hpd. Qed.

(** Freeing the pages that were just mapped restores translations and pool. *)
Lemma pages_restored (sp sp1 : space) st n fl :
  space_wf sp → frame_free (sp_pmm sp) 0 = false → 0 ≤ st → st + 0x1000 * Z.of_nat n ≤ 0xFFC00000 → 0 < fl < 256 →
  (∀ c, 0 ≤ c < Z.of_nat n → has_table sp (st + 0x1000 * c)) →
  map_scattered sp st 0 fl 0 n = Ok sp1 →
  ∃ sp2, unmap_free_pages sp1 st 0 n = Ok sp2 ∧
    (∀ x, 0 ≤ x < 0xFFC00000 → k_mem_paging_virt2phys sp2 x = k_mem_paging_virt2phys sp x) ∧
    ∀ k, frame_free (sp_pmm sp2) k = frame_free (sp_pmm sp) k.
Proof.
  intros Hwf H0 Hst Hend Hfl Htab Hmap.
  pose proof (map_scattered_present n sp st 0 fl Hwf H0 Hst ltac:(lia) Hend Hfl Htab) as Hm. rewrite Hmap in Hm.
  destruct Hm as (Hwf' & Hpd & ks & Hlen & Hnd & Hks & Hpte & Hnp & Hff). rewrite Z.add_0_r in Hpte, Hnp.
  destruct (unmap_free_region n sp1 st 0 ks fl) as (sp2 & -> & Hwf2 & Hpd2 & Hpte2 & Hff2); try done; try lia.
  - intros c Hc. unfold has_table. rewrite Hpd. apply Htab. lia.
  - apply Forall_forall. intros k Hk. pose proof (proj1 (Forall_forall _ _) Hks k Hk) as (Hr & Hf & Hn).
    split; [done|]. split; [by rewrite Hff, bool_decide_eq_true_2|]. intros j pde. rewrite Hpd. apply Hn.
  - intros c k Hc. pose proof (lookup_lt_Some _ _ _ Hc). rewrite Hpte by lia. unfold placed.
    rewrite Z.add_0_r, (proj2 (Z.leb_le _ _)) by lia.
    by replace (Z.to_nat (st / 0x1000 + Z.of_nat c - st / 0x1000)) with c by lia; rewrite Hc.
  - exists sp2. split; [done|]. rewrite Z.add_0_r in Hpte2. split.
    + intros x Hx. destruct (pte_page x ltac:(lia)) as [He1 He2].
      assert (Hq : 0 ≤ x / 0x1000 < 0xFFC00) by lia. specialize (Hpte2 _ Hq). specialize (Hpte _ Hq).
      rewrite <- He1, <- He2 in Hpte2, Hpte. revert Hpte2. case_if; intros Hpte2.
      * destruct (Htab (x / 0x1000 - st / 0x1000) ltac:(lia)) as (pde & Hp & Ht).
        replace (PDE (st + 0x1000 * (x / 0x1000 - st / 0x1000))) with (PDE x) in Hp by (rewrite !PDE_eq; lia).
        assert (Hsm : entry_size pde = false ∨ entry_present pde = false) by (by apply table_pde_small).
        rewrite (virt2phys_pte sp2 x pde), (virt2phys_pte sp x pde), Hpte2 by (try done; congruence).
        specialize (Hnp (x / 0x1000) ltac:(lia)). rewrite <- He1, <- He2 in Hnp. cbv zeta. by rewrite Hnp.
      * apply same_translation; [done|done|congruence|done|]. rewrite Hpte2, Hpte. unfold placed.
        destruct (Z.leb_spec (st / 0x1000) (x / 0x1000)); [|by rewrite <- He1, <- He2].
        rewrite lookup_ge_None_2 by lia. by rewrite <- He1, <- He2.
    + intros k. rewrite Hff2, Hff. destruct (bool_decide_reflect (k ∈ ks)) as [Hk|Hk]; [|done]. cbn.
      by pose proof (proj1 (Forall_forall _ _) Hks k Hk) as (_ & Hf & _).
Qed.

(** The state after an anonymous block was made at the hint, and after it was unmapped again *)
Definition with_anonymous s (sp : space) pages prot new : mmaps :=
  mk_mm sp (mm_frames s) (mm_start s + 0x1000 * pages) (mm_blocks s ++ [new]) (mm_shared s)
    (<[new := new_block (mm_start s) pages prot MAP_ANONYMOUS]> (mm_heap s)).

Lemma sys_mmap_anonymous s v fl fds m fuel size prot new r s1 :
  hint_free s (mmap_pages size) → new ≠ 0 →
  sys_mmap (S fuel) s v fl fds m 0 size prot MAP_ANONYMOUS None new = Ok (r, s1) →
  r = mm_start s ∧ ∃ sp,
    map_scattered (mm_space s) (mm_start s) 0 (page_flags prot) 0 (Z.to_nat (mmap_pages size)) = Ok sp ∧
    s1 = with_anonymous s sp (mmap_pages size) prot new.
Proof.
  intros Hh Hnew Hmap. unfold sys_mmap in Hmap. rewrite Z.eqb_refl, allocate_at_hint in Hmap by done.
  change (has_flag MAP_ANONYMOUS MAP_ANONYMOUS) with true in Hmap.
  change (has_flag MAP_ANONYMOUS MAP_SHARED) with false in Hmap. cbv iota in Hmap.
  destruct (map_scattered _ _ _ _ _ _) as [sp| | |]; [|done..]. rewrite !bind_ok in Hmap.
  rewrite (proj2 (Z.eqb_neq new 0)) in Hmap by done. unfold get_block in Hmap. cbn [mm_heap] in Hmap.
  rewrite lookup_insert_eq in Hmap. cbn [of_option] in Hmap. rewrite bind_ok in Hmap. injection Hmap as <- <-.
  split; [done|]. by exists sp.
Qed.

Lemma sys_munmap_anonymous s v fl fds length sp sp2 pages prot new :
  0 < pages → new ≠ 0 → mm_heap s !! new = None →
  (∀ c, c ∈ mm_blocks s → ∃ y, mm_heap s !! c = Some y ∧ ¬ (bl_start y ≤ mm_start s < bl_end y)) →
  unmap_free_pages sp (mm_start s) 0 (Z.to_nat pages) = Ok sp2 →
  sys_munmap (with_anonymous s sp pages prot new) v fl fds (mm_start s) length = Ok (0, set_space s sp2, v).
Proof.
  intros Hp Hnew Hfresh Hno Hum.
  assert (Hnb : new ∉ mm_blocks s) by (intros Hin; apply Hno in Hin as (y & Hy & _); congruence).
  unfold sys_munmap, k_mem_mmap_get_mapping, with_anonymous. cbn [mm_heap mm_blocks].
  rewrite (find_mapping_last _ _ new (new_block (mm_start s) pages prot MAP_ANONYMOUS)).
  2:{ intros c Hc. destruct (Hno c Hc) as (y & Hy & Hout). exists y. split; [|done].
      rewrite lookup_insert_ne; [done|]. intros <-. congruence. }
  2: apply lookup_insert_eq.
  2: cbn [bl_start bl_end new_block]; lia.
  rewrite bind_ok, (proj2 (Z.eqb_neq new 0)) by done.
  unfold k_mem_mmap_sync_block, k_mem_mmap_free_block, get_block. cbn [mm_heap]. rewrite lookup_insert_eq.
  cbn [of_option]. rewrite !bind_ok. unfold new_block. cbn [bl_type bl_flags bl_start bl_size mm_shared mm_space mm_frames mm_blocks].
  change (has_flag MAP_ANONYMOUS MAP_SHARED) with false. change (has_flag 0 MMAP_FLAG_SHM) with false.
  cbn [negb orb]. rewrite !bind_ok. unfold k_mem_paging_unmap_and_free_region.
  replace (0x1000 * pages / 0x1000) with pages by lia. rewrite Hum, bind_ok. unfold set_space.
  by rewrite remove_first_last, delete_insert_id by done.
Qed.

(** C24: anonymous memory is given back whole.  Where the page tables are there and no other
    mapping covers the place, unmapping what [sys_mmap] has mapped puts the process back:
    its list of mappings, the hint, every translation and the set of free frames are what
    they were. *)
Theorem mmap_munmap_restores s v fl fds m fuel size prot new r s1 :
  space_wf (mm_space s) → frame_free (sp_pmm (mm_space s)) 0 = false → 0 < size → hint_free s (mmap_pages size) →
  (∀ c, 0 ≤ c < mmap_pages size → has_table (mm_space s) (mm_start s + 0x1000 * c)) →
  new ≠ 0 → mm_heap s !! new = None →
  (∀ c, c ∈ mm_blocks s → ∃ y, mm_heap s !! c = Some y ∧ ¬ (bl_start y ≤ mm_start s < bl_end y)) →
  sys_mmap (S fuel) s v fl fds m 0 size prot MAP_ANONYMOUS None new = Ok (r, s1) →
  r = mm_start s ∧ ∃ sp2, sys_munmap s1 v fl fds r size = Ok (0, set_space s sp2, v) ∧
    (∀ x, 0 ≤ x < 0xFFC00000 → k_mem_paging_virt2phys sp2 x = k_mem_paging_virt2phys (mm_space s) x) ∧
    ∀ k, frame_free (sp_pmm sp2) k = frame_free (sp_pmm (mm_space s)) k.
Proof.
  intros Hwf H0 Hsize Hh Htab Hnew Hfresh Hno Hmap.
  destruct (mmap_pages_range size ltac:(lia)) as [Hp0 Hp1]. pose proof Hh as (H1 & H2 & H3 & _).
  unfold USER_STACK_END in H3.
  destruct (sys_mmap_anonymous s v fl fds m fuel size prot new r s1 Hh Hnew Hmap) as (-> & sp & Hsp & ->).
  split; [done|]. destruct (page_flags_ok prot) as [Hfl Hodd].
  assert (Hfl' : 0 < page_flags prot < 256) by (destruct (Z.eq_dec (page_flags prot) 0) as [E|]; [by rewrite E in Hodd|lia]).
  destruct (pages_restored (mm_space s) sp (mm_start s) (Z.to_nat (mmap_pages size)) (page_flags prot)) as (sp2 & Hum & Ht & Hf);
    try done; try lia; [rewrite Z2Nat.id by lia; done|].
  exists sp2. split; [|done]. by apply sys_munmap_anonymous; [lia|..].
Qed.
End round.

(** An instance of files that has none *)
#[local] Instance no_files : fs_table unit := {|
  fs_read := λ _, None; fs_write := λ _, None; fs_open := λ _, None; fs_close := λ _, None; fs_finddir := λ _, None;
  fs_readdir := λ _, None; fs_readlink := λ _, None; fs_link := λ _, None; fs_rm := λ _, None; fs_rmdir := λ _, None;
  fs_create := λ _, None; fs_mkdir := λ _, None; fs_ioctl := λ _, None; fs_check := λ _, None; fs_wait := λ _, None;
  fs_truncate := λ _, None |}.

Definition no_vfs : @vfs unit := mk_vfs (mk_tree 1 0 [] ∅) ∅ ∅ 2 [] tt.
Definition no_fds : fd_list := mk_fds [] 0 0.
Definition no_open_files : files := mk_files ∅ ∅.

(** The page table of the hint is there, empty. *)
Definition table_maps : mmaps := mk_mm (table_space 256 []) ∅ 0x40000000 [] None ∅.

Lemma table_maps_table x : 0x40000000 ≤ x < 0x40400000 → has_table (mm_space table_maps) x.
Proof.
  intros Hx. exists 0x5003. split; [|done]. cbn [mm_space table_maps]. rewrite PDE_eq, table_space_pd by lia.
  by rewrite (proj2 (Nat.eqb_eq _ _)) by lia.
Qed.

Lemma table_maps_unmapped x : 0x40000000 ≤ x < 0x40400000 → k_mem_paging_virt2phys (mm_space table_maps) x = Ok 0.
Proof.
  intros Hx. destruct (table_maps_table x Hx) as (pde & Hp & Ht).
  rewrite (virt2phys_pte _ x pde) by first [done|lia|apply table_space_wf; lia|by apply table_pde_small].
  cbv zeta. unfold pte. rewrite Hp, Ht. cbn [mm_space table_maps] in Hp. rewrite PDE_eq, table_space_pd in Hp by lia.
  rewrite (proj2 (Nat.eqb_eq _ _)) in Hp by lia. injection Hp as <-. change (entry_page 0x5003) with 5.
  cbn [mm_space table_maps sp_tables table_space foldr]. rewrite lookup_singleton_eq. cbn [from_option id].
  rewrite PTE_eq. destruct (decide (Z.to_nat (x / 0x1000 mod 1024) < 1024)%nat); [|lia].
  by rewrite lookup_replicate_2 by lia.
Qed.

Lemma mmap_munmap_restores_witness : ∃ r s1,
  sys_mmap 1 table_maps no_vfs no_open_files no_fds demo_shm0 0 0x1800 3 MAP_ANONYMOUS None 500 = Ok (r, s1) ∧
  r = 0x40000000 ∧ ∃ sp2, sys_munmap s1 no_vfs no_open_files no_fds r 0x1800 = Ok (0, set_space table_maps sp2, no_vfs) ∧
    (∀ x, 0 ≤ x < 0xFFC00000 → k_mem_paging_virt2phys sp2 x = k_mem_paging_virt2phys (mm_space table_maps) x) ∧
    ∀ k, frame_free (sp_pmm sp2) k = frame_free (sp_pmm (mm_space table_maps)) k.
Proof.
  assert (Hok : is_ok (sys_mmap 1 table_maps no_vfs no_open_files no_fds demo_shm0 0 0x1800 3 MAP_ANONYMOUS None 500) = true)
    by (vm_compute; reflexivity).
  apply is_ok_inv in Hok as [[r s1] E].
  exists r, s1. split; [exact E|].
  refine (mmap_munmap_restores table_maps no_vfs no_open_files no_fds demo_shm0 0 0x1800 3 500 r s1 _ _ _ _ _ _ _ _ E).
  - apply table_space_wf. lia.
  - by vm_compute.
  - lia.
  - unfold hint_free, USER_STACK_END. change (mmap_pages 0x1800) with 2. cbn [mm_start table_maps].
    split; [lia|]. split; [lia|]. split; [lia|]. intros c Hc. apply table_maps_unmapped. lia.
  - change (mmap_pages 0x1800) with 2. intros c Hc. apply table_maps_table. cbn [mm_start table_maps]. lia.
  - lia.
  - apply lookup_empty.
  - cbn [mm_blocks table_maps]. intros c Hc. destruct (not_elem_of_nil _ Hc).
Defined.

(** ** Page faults *)

Section fault.
Implicit Types (s : space) (v x : Z).

Lemma page_of_address v : 0 ≤ v < 2 ^ 32 → Z.land v 0xFFFFF000 = 0x1000 * (v / 0x1000).
Proof.
  intros Hv. change 0xFFFFF000 with (Z.ldiff (Z.ones 32) (Z.ones 12)).
  replace (Z.land v (Z.ldiff (Z.ones 32) (Z.ones 12))) with (Z.ldiff (Z.land v (Z.ones 32)) (Z.ones 12)).
  - rewrite Z.land_ones, Z.mod_small, Z.ldiff_ones_r, Z.shiftr_div_pow2, Z.shiftl_mul_pow2 by lia.
    change (2 ^ 12) with 0x1000. lia.
  - apply Z.bits_inj'. intros i Hi. rewrite Z.land_spec, !Z.ldiff_spec, Z.land_spec. by rewrite andb_assoc.
Qed.

(** Providing a page table leaves every translation as it is. *)
Lemma ensure_table_translates s v fl pde s1 x :
  space_wf s → 0 ≤ v < 0xFFC00000 → sp_pd s !! Z.to_nat (PDE v) = Some pde → small_pde pde →
  ensure_table s (PDE v) fl = Ok s1 → 0 ≤ x < 0xFFC00000 → k_mem_paging_virt2phys s1 x = k_mem_paging_virt2phys s x.
Proof.
  intros Hwf Hv Hp Hsm He Hx. pose proof (PDE_range v Hv) as Hir. pose proof (PDE_range x Hx).
  pose proof (PTE_range x ltac:(lia)). pose proof (ensure_table_ok s (PDE v) fl pde Hwf Hir Hp Hsm) as H1. rewrite He in H1.
  destruct H1 as (Hwf1 & (pde1 & Hp1 & Ht1) & Hother & Hpte & _).
  destruct (decide (PDE x = PDE v)) as [Hi|Hi].
  - apply table_pde_small in Ht1. rewrite (virt2phys_pte s1 x pde1), (virt2phys_pte s x pde), Hpte; try done; by rewrite Hi.
  - apply virt2phys_ext; try done; [apply Hother; lia|by apply Hpte].
Qed.

(** Mapping a page on a fresh frame *)
Lemma map_new_page s v fl pde :
  space_wf s → frame_free (sp_pmm s) 0 = false → 0 ≤ v < 0xFFC00000 → 0 < fl < 256 → Z.odd fl = true →
  sp_pd s !! Z.to_nat (PDE v) = Some pde → small_pde pde →
  match k_mem_paging_map s v 0 fl with
  | Ok s' => space_wf s' ∧ ∃ k, 0 < k < 2 ^ 20 ∧ frame_free (sp_pmm s) k = true ∧
      ∀ x, 0 ≤ x < 0xFFC00000 → k_mem_paging_virt2phys s' x =
        if x / 0x1000 =? v / 0x1000 then Ok (0x1000 * k + x mod 0x1000) else k_mem_paging_virt2phys s x
  | Panic => True
  | _ => False
  end.
Proof.
  intros Hwf H0 Hv Hfl Hodd Hp Hsm. pose proof (PDE_range v Hv) as Hir. pose proof (PTE_range v ltac:(lia)) as Hjr.
  unfold k_mem_paging_map. rewrite (proj2 (truthy_true fl)), truthy_0 by lia.
  pose proof (ensure_table_ok s (PDE v) fl pde Hwf Hir Hp Hsm) as He.
  pose proof (λ s1 x, ensure_table_translates s v fl pde s1 x Hwf Hv Hp Hsm) as Htr.
  destruct (ensure_table s (PDE v) fl) as [s1| | |]; [|done..]. rewrite bind_ok.
  destruct He as (Hwf1 & (pde1 & Hp1 & Ht1) & _ & _ & Hfr & _).
  destruct (read_pt_ok s1 (PDE v) (PTE v) pde1 Hwf1 Hir Hjr Hp1 Ht1) as [Hrd _]. rewrite Hrd, bind_ok.
  destruct (entry_present (pte s1 (PDE v) (PTE v))) eqn:Hnp; [done|].
  assert (H01 : frame_free (sp_pmm s1) 0 = false).
  { destruct (frame_free (sp_pmm s1) 0) eqn:E; [|done]. apply Hfr in E. congruence. }
  pose proof (alloc_fresh s1 Hwf1 H01) as Ha. destruct (alloc_frame s1) as [[f s2]| | |]; [|done..]. rewrite bind_ok.
  destruct Ha as (k & -> & Hk & Hfk & Hwf2 & _ & Hpd2 & Htb2 & _).
  assert (Heq : k_mem_paging_map s2 v (0x1000 * k) fl = write_pt s2 (PDE v) (PTE v) (Z.lor (0x1000 * k) fl)).
  { unfold k_mem_paging_map, ensure_table, pde_at. rewrite Hpd2, Hp1. cbn [of_option].
    assert (Hpr : entry_present pde1 = true) by (unfold table_pde in Ht1; by apply andb_true_iff in Ht1 as [? _]).
    rewrite !bind_ok, Hpr, bind_ok, (proj2 (truthy_true fl)) by lia.
    replace (read_pt s2 (PDE v) (PTE v)) with (read_pt s1 (PDE v) (PTE v)) by (unfold read_pt, pde_at; by rewrite Hpd2, Htb2).
    by rewrite Hrd, bind_ok, Hnp, (proj2 (truthy_true _)), bind_ok by lia. }
  rewrite <- Heq.
  pose proof (paging_map_spec s2 v k fl pde1 Hwf2 Hv Hk ltac:(lia) (or_intror Hodd)) as Hm.
  rewrite Hpd2 in Hm. specialize (Hm Hp1 (table_pde_small _ Ht1)).
  destruct (k_mem_paging_map s2 v (0x1000 * k) fl) as [s'| | |]; [|done..].
  destruct Hm as (Hwf' & _ & Ht). split; [done|]. exists k. split; [done|]. split; [by apply Hfr|].
  intros x Hx. rewrite Ht by done. case_if; [done|]. rewrite <- (Htr s1 x eq_refl Hx).
  unfold k_mem_paging_virt2phys, pde_at, read_pt, pde_at. by rewrite Hpd2, Htb2.
Qed.
End fault.

(** The access that faulted is one the block allows. *)
Definition access_allowed (b : mmap_block) (code : Z) : bool :=
  negb (bl_prot b =? PROT_NONE) && (has_flag (bl_prot b) PROT_READ || has_flag code 2) &&
  (has_flag (bl_prot b) PROT_WRITE || negb (has_flag code 2)).

Section files.
Context {F : Type} `{fs_table F}.
Implicit Types (s : mmaps) (v : @vfs F).

Lemma write_page_ok s page k old data :
  k_mem_paging_virt2phys (mm_space s) page = Ok (0x1000 * k) → 0 < k → mm_frames s !! k = Some old →
  Z.of_nat (length old) = 0x1000 → Z.of_nat (length data) ≤ 0x1000 →
  write_page s page data = Ok (set_frames s (<[k := data ++ drop (length data) old]> (mm_frames s))).
Proof.
  intros Hp Hk Hf Hlen Hd. unfold write_page, page_frame. rewrite Hp, bind_ok, (proj2 (truthy_true _)), bind_ok by lia.
  replace (0x1000 * k / 0x1000) with k by lia. rewrite Hf. cbn [of_option]. rewrite bind_ok.
  unfold splice. case_if; [lia|]. rewrite bind_ok. cbn [Z.to_nat take app Nat.add]. done.
Qed.

(** C34: the first access to a page of a file mapping.  The access is allowed, the descriptor
    is open and the page unmapped: the fault is answered with a fresh frame, which alone is
    mapped, at the page of the address.  It holds what the file gives for that page; if the
    file gives less than a page, the rest is what the frame held before, whoever used it;
    only if nothing can be read the page is cleared. *)
Theorem pagefault_reads_file s v fl fds address code a b node r bytes :
  let page := 0x1000 * (address / 0x1000) in
  space_wf (mm_space s) → frame_free (sp_pmm (mm_space s)) 0 = false →
  (∀ k, frame_free (sp_pmm (mm_space s)) k = true → ∃ old, mm_frames s !! k = Some old ∧ Z.of_nat (length old) = 0x1000) →
  0 ≤ address < USER_STACK_END → small_region (mm_space s) page 1 →
  k_mem_mmap_get_mapping s address = Ok a → a ≠ 0 → get_block s a = Ok b →
  0 ≤ bl_start b ≤ page → bl_start b mod 0x1000 = 0 →
  access_allowed b code = true → has_flag (bl_type b) (Z.lor MAP_PRIVATE MAP_SHARED) = true →
  fd_to_node fl fds (bl_fd b) = Ok (Some node) → k_mem_paging_virt2phys (mm_space s) page = Ok 0 →
  vfs_read v node (u32 (bl_offset b + (page - bl_start b))) 0x1000 = Ok (r, bytes) → Z.of_nat (length bytes) ≤ 0x1000 →
  match k_mem_mmap_handle_pagefault s v fl fds address code with
  | Ok (c, s') => c = 0 ∧ ∃ k old,
      frame_free (sp_pmm (mm_space s)) k = true ∧ mm_frames s !! k = Some old ∧
      (∀ x, 0 ≤ x < 0xFFC00000 → k_mem_paging_virt2phys (mm_space s') x =
        if x / 0x1000 =? address / 0x1000 then Ok (0x1000 * k + x mod 0x1000) else k_mem_paging_virt2phys (mm_space s) x) ∧
      mm_frames s' = <[k := if s32 r <=? 0 then replicate (Z.to_nat 0x1000) 0 else bytes ++ drop (length bytes) old]> (mm_frames s) ∧
      mm_blocks s' = mm_blocks s ∧ mm_heap s' = mm_heap s ∧ mm_shared s' = mm_shared s ∧ mm_start s' = mm_start s
  | Panic => True
  | _ => False
  end.
Proof.
  intros page Hwf H0 Hram Haddr Hsm Hget Ha Hb Hst Hal Hacc Hty Hfd Hun Hread Hlen. unfold USER_STACK_END in Haddr.
  unfold access_allowed in Hacc. apply andb_true_iff in Hacc as [[Hp1 Hp2]%andb_true_iff Hp3].
  unfold k_mem_mmap_handle_pagefault. rewrite Hget, bind_ok, (proj2 (Z.eqb_neq a 0)), Hb, bind_ok by done.
  apply negb_true_iff in Hp1. rewrite Hp1, Hty.
  replace (negb (has_flag (bl_prot b) PROT_READ) && negb (has_flag code 2)) with false
    by (by destruct (has_flag (bl_prot b) PROT_READ), (has_flag code 2)).
  replace (negb (has_flag (bl_prot b) PROT_WRITE) && has_flag code 2) with false
    by (by destruct (has_flag (bl_prot b) PROT_WRITE), (has_flag code 2)).
  cbn [negb]. rewrite Hfd, bind_ok, page_of_address by lia. fold page. rewrite Hun, bind_ok, truthy_0.
  destruct (page_flags_ok (bl_prot b)) as [Hfl Hodd].
  assert (Hfl' : 0 < page_flags (bl_prot b) < 256)
    by (destruct (Z.eq_dec (page_flags (bl_prot b)) 0) as [E|]; [by rewrite E in Hodd|lia]).
  destruct (pde_get (mm_space s) (PDE page) Hwf ltac:(pose proof (PDE_range page); lia)) as (pde & Hp & _).
  pose proof (map_new_page (mm_space s) page (page_flags (bl_prot b)) pde Hwf H0 ltac:(lia) Hfl' Hodd Hp) as Hm.
  specialize (Hm ltac:(apply (Hsm 0); [lia|]; by rewrite Z.mul_0_r, Z.add_0_r)).
  destruct (k_mem_paging_map (mm_space s) page 0 (page_flags (bl_prot b))) as [sp| | |]; [|done..].
  destruct Hm as (_ & k & Hk & Hfk & Ht). destruct (Hram k Hfk) as (old & Hold & Hol).
  rewrite !bind_ok. rewrite (u32_small (page - bl_start b)) by lia.
  replace ((page - bl_start b) / 0x1000 * 0x1000) with (page - bl_start b) by lia. rewrite Hread, bind_ok.
  assert (Hpk : k_mem_paging_virt2phys sp page = Ok (0x1000 * k)).
  { rewrite Ht by lia. rewrite Z.eqb_refl. f_equal. lia. }
  assert (Hpa : page / 0x1000 = address / 0x1000) by lia. rewrite Hpa in Ht.
  rewrite (write_page_ok (set_space s sp) page k old bytes), bind_ok by (done || lia).
  assert (∃ zeros, replicate (Z.to_nat 0x1000) 0 = zeros ∧ Z.of_nat (length zeros) = 0x1000) as (zeros & -> & Hz)
    by (eexists; split; [reflexivity|]; rewrite length_replicate; lia).
  case_if.
  - rewrite (write_page_ok _ page k (bytes ++ drop (length bytes) old) zeros), bind_ok; first last; [lia| | |lia|done|].
    + rewrite length_app, length_drop. lia.
    + cbn. by rewrite lookup_insert_eq.
    + split; [done|]. exists k, old. do 3 (split; [done|]). split; [|done]. cbn. rewrite insert_insert_eq. f_equal.
      rewrite drop_ge; [apply app_nil_r|]. rewrite length_app, length_drop. lia.
  - rewrite bind_ok. split; [done|]. exists k, old. done.
Qed.
End files.

(** A file system with one file, which the state holds; a node for it at 10, open as
    descriptor 3. *)
#[local] Instance one_file : fs_table (list Z) := {|
  fs_read := λ _, Some (λ st _ off size, let d := take (Z.to_nat size) (drop (Z.to_nat off) st) in
                                       Ok (Z.of_nat (length d), d));
  fs_write := λ _, None; fs_open := λ _, None; fs_close := λ _, None; fs_finddir := λ _, None;
  fs_readdir := λ _, None; fs_readlink := λ _, None; fs_link := λ _, None; fs_rm := λ _, None; fs_rmdir := λ _, None;
  fs_create := λ _, None; fs_mkdir := λ _, None; fs_ioctl := λ _, None; fs_check := λ _, None; fs_wait := λ _, None;
  fs_truncate := λ _, None |}.

Definition file_vfs (data : list Z) : @vfs (list Z) :=
  mk_vfs (mk_tree 1 0 [] ∅) ∅ {[10 := mk_vnode [] 0 O_RDONLY VFS_FILE 0 0 2 1 None 0]} 11 [] data.
Definition file_fds : fd_list := mk_fds [0; 0; 0; 20] 1 4.
Definition file_objs : files := mk_files {[20 := mk_fd 10 0 1]} {[10 := mk_node 1 1 0]}.
Definition file_block : mmap_block := mk_block 0x40000000 0x40002000 0x2000 0 3 PROT_READ MAP_PRIVATE 0.

(** Memory full of sevens, and a mapping of the file *)
Definition file_maps : mmaps :=
  mk_mm (demo_space []) (gset_to_gmap (replicate (Z.to_nat 0x1000) 7) (list_to_set (seqZ 0 32))) 0x40002000 [500] None {[500 := file_block]}.

Lemma file_maps_ram k : frame_free (sp_pmm (mm_space file_maps)) k = true →
  ∃ old, mm_frames file_maps !! k = Some old ∧ Z.of_nat (length old) = 0x1000.
Proof.
  intros Hk%frame_free_bounds. unfold bitmap_size in Hk. cbn in Hk. eexists. split.
  - unfold file_maps. cbn [mm_frames]. apply lookup_gset_to_gmap_Some. split; [|reflexivity].
    apply elem_of_list_to_set, elem_of_seqZ. lia.
  - rewrite length_replicate. lia.
Qed.

Lemma pagefault_reads_file_witness :
  match k_mem_mmap_handle_pagefault file_maps (file_vfs [1; 2; 3]) file_objs file_fds 0x40000123 4 with
  | Ok (c, s') => c = 0 ∧ ∃ k old,
      frame_free (sp_pmm (mm_space file_maps)) k = true ∧ mm_frames file_maps !! k = Some old ∧
      (∀ x, 0 ≤ x < 0xFFC00000 → k_mem_paging_virt2phys (mm_space s') x =
        if x / 0x1000 =? 0x40000123 / 0x1000 then Ok (0x1000 * k + x mod 0x1000)
        else k_mem_paging_virt2phys (mm_space file_maps) x) ∧
      mm_frames s' = <[k := if s32 3 <=? 0 then replicate (Z.to_nat 0x1000) 0 else [1; 2; 3] ++ drop (length [1; 2; 3]) old]> (mm_frames file_maps) ∧
      mm_blocks s' = mm_blocks file_maps ∧ mm_heap s' = mm_heap file_maps ∧ mm_shared s' = mm_shared file_maps ∧ mm_start s' = mm_start file_maps
  | Panic => True
  | _ => False
  end.
Proof.
  pose proof (pagefault_reads_file file_maps (file_vfs [1; 2; 3]) file_objs file_fds 0x40000123 4 500 file_block 10 3
    [1; 2; 3] demo_space_wf ltac:(by vm_compute) file_maps_ram) as E.
  unfold USER_STACK_END in E. apply E; clear E.
  - lia.
  - apply demo_small; lia.
  - by vm_compute.
  - lia.
  - by vm_compute.
  - cbn [bl_start file_block]. lia.
  - by vm_compute.
  - by vm_compute.
  - by vm_compute.
  - by vm_compute.
  - apply demo_unmapped. lia.
  - by vm_compute.
  - cbn [length]. lia.
Defined.

(** ** Shared memory *)

Section shared.
Context {F : Type} `{fs_table F}.
Implicit Types (s : mmaps) (v : @vfs F) (sp : space).

Lemma map_shm_ok n sp frames ks start i fl :
  space_wf sp → 0 ≤ start → 0 ≤ i → start + 0x1000 * (i + Z.of_nat n) ≤ 0xFFC00000 → 0 ≤ fl < 256 → Z.odd fl = true →
  frames = (λ k, 0x1000 * k) <$> ks → Forall (λ k, 0 < k < 2 ^ 20) ks → (Z.to_nat i + n ≤ length ks)%nat →
  small_region sp (start + 0x1000 * i) (Z.of_nat n) →
  match map_shm_pages n sp frames start i fl with
  | Ok sp' => ∀ x, 0 ≤ x < 0xFFC00000 → k_mem_paging_virt2phys sp' x =
      translated sp (start / 0x1000 + i) (take n (drop (Z.to_nat i) ks)) x
  | Panic => True
  | _ => False
  end.
Proof.
  intros Hwf Hst Hi Hend Hfl Hodd -> Hks. revert sp i Hwf Hi Hend.
  induction n as [|n IH]; intros sp i Hwf Hi Hend Hlen Hsm; cbn [map_shm_pages].
  { intros x Hx. unfold translated. cbn. by destruct (_ <=? _). }
  destruct (lookup_lt_is_Some_1' ks (Z.to_nat i) ltac:(lia)) as [k Hk].
  rewrite list_lookup_fmap, Hk. cbn [fmap option_fmap option_map of_option]. rewrite bind_ok, u32_small by lia.
  pose proof (proj1 (Forall_lookup _ _) Hks _ _ Hk) as Hkr. cbv beta in Hkr.
  replace (start + i * 0x1000) with (start + 0x1000 * i) by lia.
  replace (Z.of_nat (S n)) with (1 + Z.of_nat n) in Hsm by lia.
  pose proof (map_page_region sp (start + 0x1000 * i) k fl (Z.of_nat n) Hwf ltac:(lia) ltac:(lia) Hkr ltac:(lia) Hfl
    (or_intror Hodd) Hsm) as Hm.
  destruct (k_mem_paging_map sp (start + 0x1000 * i) (0x1000 * k) fl) as [sp1| | |]; [|done..]. rewrite bind_ok.
  destruct Hm as (Hwf1 & Hsm1 & _ & Ht).
  replace (start + 0x1000 * i + 0x1000) with (start + 0x1000 * (i + 1)) in Hsm1 by lia.
  specialize (IH sp1 (i + 1) Hwf1 ltac:(lia) ltac:(lia) ltac:(lia) Hsm1).
  destruct (map_shm_pages n sp1 _ start (i + 1) fl) as [sp'| | |]; [|done..].
  intros x Hx. rewrite IH by done. rewrite (drop_S ks k (Z.to_nat i)) by exact Hk. cbn [take].
  replace (S (Z.to_nat i)) with (Z.to_nat (i + 1)) by lia. rewrite Z.add_assoc. apply translated_cons; [|done].
  intros y Hy. rewrite Ht by done. by replace ((start + 0x1000 * i) / 0x1000) with (start / 0x1000 + i) by lia.
Qed.

(** Mapping a shared memory object compares a number of frames with a number of bytes:
    however small the block, all frames of the object are mapped (an object has fewer frames
    than the block has bytes), those beyond the block's end included.  So pages that belong
    to no block show the object, and unmapping the block does not take them away. *)
Theorem mmap_shm_passes_end s v fl fds m fuel size prot arg fd node n sh ks new r s1 :
  space_wf (mm_space s) → hint_free s (mmap_pages size) → 0 < size → new ≠ 0 →
  arg = (fd, 0) → fd_to_node fl fds fd = Ok (Some node) → get_node v node = Ok n → k_mem_is_shm m n = true →
  get_shm m (vn_device n) = Ok sh → shm_frames sh = (λ k, 0x1000 * k) <$> ks → Forall (λ k, 0 < k < 2 ^ 20) ks →
  let count := Z.of_nat (length ks) in
  mmap_pages size < count < 0x1000 → mm_start s + 0x1000 * count ≤ 0xFFC00000 →
  small_region (mm_space s) (mm_start s) count →
  sys_mmap (S fuel) s v fl fds m 0 size prot MAP_SHARED (Some arg) new = Ok (r, s1) →
  r = mm_start s ∧
  (∃ b, get_block s1 new = Ok b ∧ bl_start b = r ∧ bl_end b = r + 0x1000 * mmap_pages size) ∧
  ∀ x, 0 ≤ x < 0xFFC00000 → k_mem_paging_virt2phys (mm_space s1) x = translated (mm_space s) (r / 0x1000) ks x.
Proof.
  intros Hwf Hh Hsize Hnew -> Hfd Hn Hshm Hsh Hfr Hks count Hcnt Hend Hsm Hmap. subst count.
  destruct (mmap_pages_range size ltac:(lia)) as [Hp0 Hp1]. pose proof Hh as (H1 & H2 & H3 & _).
  unfold USER_STACK_END in H3. unfold sys_mmap in Hmap. change (MAP_SHARED =? MAP_ANONYMOUS) with false in Hmap.
  cbv iota in Hmap. rewrite Hfd, bind_ok, Hn, bind_ok in Hmap.
  assert (Hacc : truthy (Z.lor (Z.land (vn_mode n) O_RDONLY) O_WRONLY) = true).
  { apply truthy_true. intros E. apply Z.lor_eq_0_iff in E as [_ E]. done. }
  rewrite Hacc, andb_false_r, allocate_at_hint in Hmap by done.
  change (has_flag MAP_SHARED MAP_ANONYMOUS) with false in Hmap. cbv iota in Hmap. rewrite !bind_ok in Hmap.
  rewrite (proj2 (Z.eqb_neq new 0)) in Hmap by done. unfold get_block in Hmap. cbn [mm_heap] in Hmap.
  rewrite lookup_insert_eq in Hmap. cbn [of_option] in Hmap. rewrite bind_ok, Hshm, Hsh, bind_ok, Hfr, length_fmap in Hmap.
  unfold new_block in Hmap. cbn [bl_start bl_end bl_size bl_prot bl_type bl_flags set_block mm_space] in Hmap.
  rewrite (proj2 (Z.ltb_lt _ _)), Nat2Z.id in Hmap by lia.
  destruct (page_flags_ok prot) as [Hfl Hodd].
  pose proof (map_shm_ok (length ks) (mm_space s) _ ks (mm_start s) 0 (page_flags prot) Hwf ltac:(lia) ltac:(lia)
    ltac:(lia) Hfl Hodd eq_refl Hks ltac:(lia)) as Hm.
  rewrite Z.mul_0_r, !Z.add_0_r in Hm. specialize (Hm Hsm).
  destruct (map_shm_pages _ _ _ _ _ _) as [sp'| | |]; [|done..]. rewrite bind_ok in Hmap. injection Hmap as <- <-.
  split; [done|]. split.
  - unfold get_block, set_space, set_block. cbn [mm_heap]. rewrite lookup_insert_eq. eexists. split; [reflexivity|]. done.
  - cbn [set_space mm_space]. intros x Hx. rewrite Hm by done. cbn [Z.to_nat]. by rewrite drop_0, firstn_all.
Qed.
End shared.

(** The object of three frames behind descriptor 3 *)
Definition shm_vfs : @vfs (list Z) :=
  mk_vfs (mk_tree 1 0 [] ∅) ∅ {[10 := demo_object 0]} 11 [] [].

Lemma mmap_shm_passes_end_witness : ∃ r s1,
  sys_mmap 1 demo_maps shm_vfs file_objs file_fds demo_three 0 0x1000 3 MAP_SHARED (Some (3, 0)) 500 = Ok (r, s1) ∧
  r = 0x40000000 ∧
  (∃ b, get_block s1 500 = Ok b ∧ bl_start b = r ∧ bl_end b = r + 0x1000 * 1) ∧
  ∀ x, 0 ≤ x < 0xFFC00000 → k_mem_paging_virt2phys (mm_space s1) x = translated (demo_space []) (r / 0x1000) [8; 9; 10] x.
Proof.
  assert (Hok : is_ok (sys_mmap 1 demo_maps shm_vfs file_objs file_fds demo_three 0 0x1000 3 MAP_SHARED (Some (3, 0)) 500) = true)
    by (vm_compute; reflexivity).
  apply is_ok_inv in Hok as [[r s1] E].
  exists r, s1. split; [exact E|].
  refine (mmap_shm_passes_end demo_maps shm_vfs file_objs file_fds demo_three 0 0x1000 3 (3, 0) 3 10 (demo_object 0)
    (mk_shm_node [97] [0x8000; 0x9000; 0xA000] 100 0) [8; 9; 10] 500 r s1 demo_space_wf _ _ _ eq_refl _ _ _ _ _ _ _ _ _ E).
  - apply (demo_hint 1). lia.
  - lia.
  - lia.
  - by vm_compute.
  - by vm_compute.
  - by vm_compute.
  - by vm_compute.
  - by vm_compute.
  - repeat constructor; lia.
  - change (mmap_pages 0x1000) with 1. cbn. lia.
  - cbn. lia.
  - apply demo_small; cbn; lia.
Defined.
