(* ===== verification/Stdio.v ===== *)
(** * libc/src/stdio/stdio.c: buffered streams

    A stream is the fields of a [FILE], the memory its buffers are in, by address (0 is
    NULL), and what its descriptor stands for.  The system calls that the code makes on the
    descriptor are the class [Descriptor]; [RegularFile] says how they behave for a file.
    [malloc] gives the contents and addresses that are passed in; [long] has 32 bits.
    [vfprintf] formats with the third-party [vsnprintf] and is left out, and so is [errno]. *)

From S2P Require Import Prelude.
From S2P Require Import BlockDev.

(** [__sys_read], [__sys_write] and [__sys_seek]: the answer, the bytes that were read *)
Class Descriptor (D : Type) := {
  d_read : D → Z → res (Z * list Z * D);
  d_write : D → list Z → res (Z * D);
  d_seek : D → Z → Z → res (Z * D)
}.

Definition BUFSIZE : Z := 512.
Definition EOF : Z := -1.
Definition NEWLINE : Z := 10.
Definition O_APPEND : Z := 16.

Section stdio.
Context {D : Type} `{Descriptor D}.

Record stream := mk_stream {
  s_dev : D;
  s_mem : gmap Z (list Z);
  buffer_size : Z;
  read_buffer : Z;
  write_buffer : Z;
  read_ptr : Z;
  read_buffer_offset : Z;
  write_ptr : Z;
  available : Z;
  real_offset : Z;
  s_eof : Z;
  s_ungetc : Z
}.

Definition with_dev (s : stream) (d : D) : stream :=
  mk_stream d (s_mem s) (buffer_size s) (read_buffer s) (write_buffer s) (read_ptr s) (read_buffer_offset s)
    (write_ptr s) (available s) (real_offset s) (s_eof s) (s_ungetc s).
Definition with_mem (s : stream) (m : gmap Z (list Z)) : stream :=
  mk_stream (s_dev s) m (buffer_size s) (read_buffer s) (write_buffer s) (read_ptr s) (read_buffer_offset s)
    (write_ptr s) (available s) (real_offset s) (s_eof s) (s_ungetc s).
Definition with_write_ptr (s : stream) (w : Z) : stream :=
  mk_stream (s_dev s) (s_mem s) (buffer_size s) (read_buffer s) (write_buffer s) (read_ptr s) (read_buffer_offset s)
    w (available s) (real_offset s) (s_eof s) (s_ungetc s).
Definition with_eof (s : stream) (e : Z) : stream :=
  mk_stream (s_dev s) (s_mem s) (buffer_size s) (read_buffer s) (write_buffer s) (read_ptr s) (read_buffer_offset s)
    (write_ptr s) (available s) (real_offset s) e (s_ungetc s).

Definition get_buffer (s : stream) (a : Z) : res (list Z) := of_option (s_mem s !! a).
Definition put_buffer (s : stream) (a : Z) (b : list Z) : stream := with_mem s (<[a := b]> (s_mem s)).

(** [read] and [write] of unistd: a negative answer becomes -1. *)
Definition return_errno (r : Z) : Z := if s32 r <? 0 then -1 else s32 r.
Definition read (s : stream) (count : Z) : res (Z * list Z * stream) :=
  '(r, bytes, d) ← d_read (s_dev s) count; Ok (return_errno r, bytes, with_dev s d).
Definition write (s : stream) (data : list Z) : res (Z * stream) :=
  '(r, d) ← d_write (s_dev s) data; Ok (return_errno r, with_dev s d).

Definition fflush (s : stream) : res (Z * stream) :=
  if write_buffer s =? 0 then Ok (0, s)
  else if truthy (write_ptr s) then
    b ← get_buffer s (write_buffer s);
    data ← slice b 0 (write_ptr s);
    '(r, s1) ← write s data;
    Ok (r, with_write_ptr s1 0)
  else Ok (0, s).

Definition mode_to_options (mode : list Z) : Z :=
  let second := nth 1 mode 0 in
  let first := nth 0 mode 0 in
  if (Z.of_nat (length mode) =? 1) || negb (second =? 43) then
    if first =? 114 then O_RDONLY else if first =? 119 then O_WRONLY
    else if first =? 97 then Z.lor O_WRONLY O_APPEND else 0
  else
    if first =? 114 then Z.lor O_RDONLY O_WRONLY
    else if first =? 119 then Z.lor (Z.lor O_RDONLY O_WRONLY) O_CREAT
    else if first =? 97 then Z.lor (Z.lor O_WRONLY O_APPEND) O_CREAT else 0.

(** [fdopen]: the addresses and contents of the two new buffers of [BUFSIZE] bytes *)
Definition fdopen (d : D) (mem : gmap Z (list Z)) (wa ra : Z) (wfresh rfresh : list Z) : stream :=
  mk_stream d (<[ra := rfresh]> (<[wa := wfresh]> mem)) BUFSIZE ra wa 0 0 0 0 0 0 0.

(** [fopen], given what [__sys_open] answers for the path and the options; [None]: NULL *)
Definition fopen (sys_open : list Z → Z → res (Z * D)) (path mode : list Z) (mem : gmap Z (list Z)) (wa ra : Z)
    (wfresh rfresh : list Z) : res (option stream) :=
  '(fd, d) ← sys_open path (mode_to_options mode);
  if s32 fd <? 0 then Ok None else Ok (Some (fdopen d mem wa ra wfresh rfresh)).

(** [fclose]: the descriptor as it is closed, and the memory left *)
Definition fclose (s : stream) : res (Z * D * gmap Z (list Z)) :=
  '(_, s1) ← fflush s;
  Ok (0, s_dev s1, delete (write_buffer s1) (delete (read_buffer s1) (s_mem s1))).

Definition fseek (s : stream) (offset whence : Z) : res (Z * stream) :=
  let cur := truthy (read_ptr s) && (whence =? SEEK_CUR) in
  let offset' := if cur then s32 (offset + real_offset s + read_ptr s) else offset in
  let whence' := if cur then SEEK_SET else whence in
  s1 ← (if truthy (write_ptr s) then '(_, s1) ← fflush s; Ok s1 else Ok s);
  let s2 := mk_stream (s_dev s1) (s_mem s1) (buffer_size s1) (read_buffer s1) (write_buffer s1) 0
              (read_buffer_offset s1) 0 0 (real_offset s1) 0 (s_ungetc s1) in
  '(r, d) ← d_seek (s_dev s2) offset' whence';
  Ok (r, with_dev s2 d).

Definition ftell (s : stream) : res (Z * stream) := fseek s 0 SEEK_CUR.

(** Filling the buffer again when nothing is available; [false]: the read failed *)
Definition refill (s : stream) : res (bool * stream) :=
  let off := if read_buffer_offset s =? buffer_size s then 0 else read_buffer_offset s in
  let s0 := mk_stream (s_dev s) (s_mem s) (buffer_size s) (read_buffer s) (write_buffer s) (read_ptr s) off
              (write_ptr s) (available s) (real_offset s) (s_eof s) (s_ungetc s) in
  '(pos, s1) ← fseek s0 0 SEEK_CUR;
  let s2 := mk_stream (s_dev s1) (s_mem s1) (buffer_size s1) (read_buffer s1) (write_buffer s1) (read_ptr s1)
              (read_buffer_offset s1) (write_ptr s1) (available s1) (u32 pos) (s_eof s1) (s_ungetc s1) in
  '(r, bytes, s3) ← read s2 (u32 (buffer_size s2 - read_buffer_offset s2));
  b ← get_buffer s3 (read_buffer s3);
  b' ← splice b (read_buffer_offset s3) bytes;
  let s4 := put_buffer s3 (read_buffer s3) b' in
  if r <? 0 then Ok (false, s4)
  else Ok (true, mk_stream (s_dev s4) (s_mem s4) (buffer_size s4) (read_buffer s4) (write_buffer s4)
                   (read_buffer_offset s4) (u32 (read_buffer_offset s4 + r)) (write_ptr s4) r (real_offset s4)
                   (s_eof s4) (s_ungetc s4)).

(** The loop of [fread]: [len] bytes are left to read. *)
Fixpoint fread_loop (len : nat) (s : stream) : res (list Z * stream) :=
  match len with
  | O => Ok ([], s)
  | S n =>
      '(go, s1) ← (if available s =? 0 then refill s else Ok (true, s));
      if negb go then Ok ([], s1)
      else if available s1 =? 0 then Ok ([], with_eof s1 1)
      else
        b ← get_buffer s1 (read_buffer s1);
        c ← slice b (read_ptr s1) 1;
        '(rest, s2) ← fread_loop n
          (mk_stream (s_dev s1) (s_mem s1) (buffer_size s1) (read_buffer s1) (write_buffer s1) (u32 (read_ptr s1 + 1))
             (read_buffer_offset s1) (write_ptr s1) (u32 (available s1 - 1)) (real_offset s1) (s_eof s1) (s_ungetc s1));
        Ok (c ++ rest, s2)
  end.

(** [fread]: the answer and the bytes stored in the caller's buffer *)
Definition fread (s : stream) (size nmemb : Z) : res (Z * list Z * stream) :=
  let len := u32 (size * nmemb) in
  if read_buffer s =? 0 then '(r, bytes, s1) ← read s len; Ok (u32 r, bytes, s1)
  else '(bytes, s1) ← fread_loop (Z.to_nat len) s; Ok (Z.of_nat (length bytes), bytes, s1).

Fixpoint fwrite_loop (data : list Z) (s : stream) : res stream :=
  match data with
  | [] => Ok s
  | c :: rest =>
      b ← get_buffer s (write_buffer s);
      b' ← splice b (write_ptr s) [c];
      let s1 := with_write_ptr (put_buffer s (write_buffer s) b') (u32 (write_ptr s + 1)) in
      s2 ← (if (write_ptr s1 =? buffer_size s1) || (c =? NEWLINE) then '(_, s2) ← fflush s1; Ok s2 else Ok s1);
      fwrite_loop rest s2
  end.

(** [fwrite] of the [size * nmemb] bytes [data] *)
Definition fwrite (s : stream) (data : list Z) : res (Z * stream) :=
  let len := Z.of_nat (length data) in
  if write_buffer s =? 0 then '(r, s1) ← write s data; Ok (u32 r, s1)
  else s1 ← fwrite_loop data s; Ok (len, s1).

(** The value of a plain [char] *)
Definition fgetc (s : stream) : res (Z * stream) :=
  '(r, bytes, s1) ← fread s 1 1;
  if r =? 0 then Ok (EOF, with_eof s1 1) else c ← of_option (head bytes); Ok (s8 c, s1).

Definition fputc (s : stream) (ch : Z) : res (Z * stream) :=
  '(written, s1) ← fwrite s [u8 ch];
  if written =? 0 then Ok (EOF, with_eof s1 1) else Ok (ch, s1).

(** [puts] on the standard output *)
Definition puts (s : stream) (str : list Z) : res (Z * stream) :=
  '(r, s1) ← fwrite s str;
  '(_, s2) ← fwrite s1 [NEWLINE];
  Ok (r, s2).

(** The loop of [fgets]: room for [n] characters and the NUL is left.  The bytes stored, and
    whether the loop ended by itself ([true]) or at [EOF] *)
Fixpoint fgets_loop (n : nat) (s : stream) : res (list Z * bool * stream) :=
  match n with
  | O => Fault
  | S n' =>
      '(c, s1) ← fgetc s;
      if c =? EOF then Ok ([], false, s1)
      else if Nat.eqb n' 0 || (c =? NEWLINE) then Ok ([u8 c; 0], true, s1)
      else '(rest, full, s2) ← fgets_loop n' s1; Ok (u8 c :: rest, full, s2)
  end.

(** [fgets]: whether it returns its buffer, and the bytes stored there *)
Definition fgets (s : stream) (size : Z) : res (bool * list Z * stream) :=
  if size <=? 1 then Ok (false, [], s)
  else
    '(bytes, full, s1) ← fgets_loop (Z.to_nat (size - 1)) s;
    if (full : bool) then Ok (true, bytes, s1) else Ok (negb (Nat.eqb (length bytes) 0), bytes, s1).

Definition clearerr (s : stream) : stream := with_eof s 0.
Definition feof (s : stream) : Z := s_eof s.

(** [setbuf]; [buf] 0 is NULL: the buffers are freed. *)
Definition setbuf (s : stream) (buf : Z) : stream :=
  if buf =? 0 then
    let m1 := if truthy (read_buffer s) then delete (read_buffer s) (s_mem s) else s_mem s in
    let m2 := if truthy (write_buffer s) then delete (write_buffer s) m1 else m1 in
    mk_stream (s_dev s) m2 0 0 0 0 0 0 0 (real_offset s) (s_eof s) (s_ungetc s)
  else mk_stream (s_dev s) (s_mem s) BUFSIZE buf buf 0 0 0 0 (real_offset s) (s_eof s) (s_ungetc s).

Definition rewind (s : stream) : res stream :=
  '(_, s1) ← fseek s 0 SEEK_SET;
  Ok (mk_stream (s_dev s1) (s_mem s1) (buffer_size s1) (read_buffer s1) (write_buffer s1) (read_ptr s1) 0
        (write_ptr s1) 0 (real_offset s1) 0 0).
End stdio.
Arguments stream : clear implicits.
