(* ===== verification/StdioFacts.v ===== *)
(** * Correctness of buffered streams

    On a descriptor that behaves as a regular file, what is written to a stream arrives in
    the file in order, nothing lost, and reading a stream gives the bytes of the file from
    its position on.  At the end of the file the position that [ftell] computes and what
    [fgets] leaves in the buffer are wrong. *)

From S2P Require Import Prelude.
From S2P Require Import BlockDev.
From S2P Require Import Stdio.

(** ** Regular files *)

Class RegularFile (D : Type) `{Descriptor D} := {
  rf_data : D → list Z;
  rf_off : D → Z;
  rf_read : ∀ (d : D) (n : Z), 0 ≤ rf_off d ≤ Z.of_nat (length (rf_data d)) → 0 ≤ n → ∃ d',
    let bytes := take (Z.to_nat n) (drop (Z.to_nat (rf_off d)) (rf_data d)) in
    d_read d n = Ok (Z.of_nat (length bytes), bytes, d') ∧ rf_data d' = rf_data d ∧
    rf_off d' = rf_off d + Z.of_nat (length bytes);
  rf_write : ∀ (d : D) (bytes : list Z), rf_off d = Z.of_nat (length (rf_data d)) → ∃ d',
    d_write d bytes = Ok (Z.of_nat (length bytes), d') ∧ rf_data d' = rf_data d ++ bytes ∧
    rf_off d' = rf_off d + Z.of_nat (length bytes);
  rf_seek_set : ∀ (d : D) (o : Z), 0 ≤ o → ∃ d',
    d_seek d o SEEK_SET = Ok (o, d') ∧ rf_data d' = rf_data d ∧ rf_off d' = o;
  rf_seek_here : ∀ d : D, ∃ d', d_seek d 0 SEEK_CUR = Ok (rf_off d, d') ∧ rf_data d' = rf_data d ∧ rf_off d' = rf_off d
}.

(** The same bytes behind two positions, one byte further on *)
Lemma slice_tail (a i j : Z) (b c : list Z) :
  0 < a → 0 ≤ i → 0 ≤ j →
  take (Z.to_nat a) (drop (Z.to_nat i) b) = take (Z.to_nat a) (drop (Z.to_nat j) c) →
  take (Z.to_nat (a - 1)) (drop (Z.to_nat (i + 1)) b) = take (Z.to_nat (a - 1)) (drop (Z.to_nat (j + 1)) c).
Proof.
  intros Ha Hi Hj. replace (Z.to_nat a) with (S (Z.to_nat (a - 1))) by lia.
  replace (Z.to_nat (i + 1)) with (Z.to_nat i + 1)%nat by lia. replace (Z.to_nat (j + 1)) with (Z.to_nat j + 1)%nat by lia.
  rewrite <- !drop_drop. generalize (drop (Z.to_nat i) b), (drop (Z.to_nat j) c). intros [|x l1] [|y l2]; cbn; try done.
  by intros [= _ ?].
Qed.

Section streams.
Context {D : Type} `{RegularFile D}.
Implicit Types (s : stream D) (c data : list Z) (p : Z).

(** ** Writing *)

(** A stream that has been given [out] so far: what is in the file and then what is in the
    buffer, which holds no newline *)
Record writing (s : stream D) (out : list Z) : Prop := {
  wr_buf : ∃ b, write_buffer s ≠ 0 ∧ s_mem s !! write_buffer s = Some b ∧ Z.of_nat (length b) = buffer_size s ∧
    out = rf_data (s_dev s) ++ take (Z.to_nat (write_ptr s)) b ∧ NEWLINE ∉ take (Z.to_nat (write_ptr s)) b;
  wr_size : buffer_size s < 2 ^ 31;
  wr_ptr : 0 ≤ write_ptr s < buffer_size s;
  wr_end : rf_off (s_dev s) = Z.of_nat (length (rf_data (s_dev s)))
}.

(** Emptying a buffer of [write_ptr] bytes *)
Lemma fflush_ok s b :
  write_buffer s ≠ 0 → s_mem s !! write_buffer s = Some b → Z.of_nat (length b) = buffer_size s → buffer_size s < 2 ^ 31 →
  0 ≤ write_ptr s ≤ buffer_size s → rf_off (s_dev s) = Z.of_nat (length (rf_data (s_dev s))) →
  ∃ d, fflush s = Ok (write_ptr s, with_write_ptr (with_dev s d) 0) ∧
    rf_data d = rf_data (s_dev s) ++ take (Z.to_nat (write_ptr s)) b ∧ rf_off d = Z.of_nat (length (rf_data d)).
Proof.
  intros Hwb Hb Hlen Hbs Hp Hoff. unfold fflush. rewrite (proj2 (Z.eqb_neq _ _)) by done.
  destruct (truthy (write_ptr s)) eqn:Ht.
  - unfold get_buffer. rewrite Hb. cbn [of_option]. rewrite bind_ok, slice_ok, bind_ok by lia. cbn [Z.to_nat]. rewrite drop_0.
    set (bytes := take _ b). assert (Hl : Z.of_nat (length bytes) = write_ptr s) by (subst bytes; rewrite length_take; lia).
    destruct (rf_write (s_dev s) bytes Hoff) as (d & Hw & Hd & Ho). unfold write. rewrite Hw, !bind_ok.
    unfold return_errno. rewrite Hl, s32_small by lia. rewrite (proj2 (Z.ltb_ge _ _)) by lia.
    exists d. split; [done|]. split; [done|]. rewrite Hd, Ho, length_app, Hoff. lia.
  - apply truthy_false in Ht. exists (s_dev s). rewrite Ht. cbn [Z.to_nat take]. rewrite app_nil_r. split; [|done].
    destruct s; cbn in *; by subst.
Qed.

Lemma fwrite_char s out ch :
  writing s out → ∃ s', fwrite_loop [ch] s = Ok s' ∧ writing s' (out ++ [ch]).
Proof.
  intros [(b & Hwb & Hb & Hlen & Hout & Hnl) Hbs Hp Hoff]. cbn [fwrite_loop]. unfold get_buffer. rewrite Hb.
  cbn [of_option]. rewrite bind_ok. rewrite splice_eq by (cbn [length]; lia). rewrite bind_ok. cbn [length].
  set (w := Z.to_nat (write_ptr s)). set (b' := take w b ++ [ch] ++ drop (w + 1) b).
  assert (Hl' : Z.of_nat (length b') = buffer_size s).
  { subst b'. rewrite !length_app, length_take, length_drop. cbn [length]. lia. }
  assert (Ht' : take (S w) b' = take w b ++ [ch]).
  { subst b'. rewrite app_assoc. apply take_app_length'. rewrite length_app, length_take. cbn [length]. lia. }
  rewrite (u32_small (write_ptr s + 1)) by lia. set (s1 := with_write_ptr (put_buffer s _ _) _).
  assert (Hb1 : s_mem s1 !! write_buffer s1 = Some b') by (cbn; by rewrite lookup_insert_eq).
  assert (Hw1 : Z.to_nat (write_ptr s1) = S w) by (cbn; lia).
  assert (Hs1 : buffer_size s1 = buffer_size s ∧ write_ptr s1 = write_ptr s + 1) by done. destruct Hs1 as [Hs1 Hs1'].
  case_if.
  - destruct (fflush_ok s1 b') as (d & -> & Hd & Ho); try done; try lia. rewrite !bind_ok. eexists. split; [done|].
    rewrite Hw1, Ht' in Hd. split; cbn; [|done|lia|done].
    exists b'. split; [done|]. split; [done|]. split; [done|]. split; [|by apply not_elem_of_nil].
    rewrite app_nil_r, Hd, Hout. by rewrite app_assoc.
  - rewrite bind_ok. eexists. split; [done|]. split; [|by rewrite Hs1|lia|done].
    exists b'. split; [done|]. split; [done|]. split; [done|]. rewrite Hw1, Ht'. split; [by rewrite Hout, app_assoc|].
    rewrite elem_of_app, list_elem_of_singleton. intros [?|?]; [by apply Hnl|congruence].
Qed.

Lemma fwrite_cons ch data s : fwrite_loop (ch :: data) s = (s1 ← fwrite_loop [ch] s; fwrite_loop data s1).
Proof.
  cbn [fwrite_loop]. destruct (get_buffer s (write_buffer s)); [|done..]. rewrite !bind_ok.
  destruct (splice _ _ _); [|done..]. rewrite !bind_ok. by destruct (if _ : bool then _ else _).
Qed.

Lemma fwrite_loop_ok data s out :
  writing s out → ∃ s', fwrite_loop data s = Ok s' ∧ writing s' (out ++ data).
Proof.
  revert s out. induction data as [|ch data IH]; intros s out Hw.
  - exists s. rewrite app_nil_r. done.
  - destruct (fwrite_char s out ch Hw) as (s1 & H1 & Hw1). destruct (IH s1 _ Hw1) as (s2 & H2 & Hw2).
    exists s2. rewrite <- app_assoc in Hw2. split; [|done]. by rewrite fwrite_cons, H1, bind_ok.
Qed.

Lemma fwrite_ok data s out :
  writing s out → ∃ s', fwrite s data = Ok (Z.of_nat (length data), s') ∧ writing s' (out ++ data).
Proof.
  intros Hw. destruct (fwrite_loop_ok data s out Hw) as (s' & Hs' & Hw'). exists s'. split; [|done].
  destruct (wr_buf _ _ Hw) as (b & Hwb & _). unfold fwrite. by rewrite (proj2 (Z.eqb_neq _ _)), Hs', bind_ok.
Qed.

Lemma writing_flushed s out :
  writing s out → ∃ r d, fflush s = Ok (r, with_write_ptr (with_dev s d) 0) ∧ rf_data d = out.
Proof.
  intros [(b & Hwb & Hb & Hlen & Hout & _) Hbs Hp Hoff].
  destruct (fflush_ok s b) as (d & Hf & Hd & _); try done; [lia|]. exists (write_ptr s), d. by rewrite Hd, Hout.
Qed.

(** ** Reading *)

(** A stream that was fresh at position [p0] of the contents [c] and is at position [p]:
    either nothing is buffered, or the buffer holds what follows [p], up to its end or to the
    end of the file *)
Record reading (s : stream D) (c : list Z) (p0 p : Z) : Prop := {
  rd_data : rf_data (s_dev s) = c;
  rd_range : 0 ≤ p0 ≤ p ∧ p ≤ Z.of_nat (length c) ∧ Z.of_nat (length c) < 2 ^ 30;
  rd_size : buffer_size s = BUFSIZE ∧ write_ptr s = 0;
  rd_buf : ∃ b, read_buffer s ≠ 0 ∧ s_mem s !! read_buffer s = Some b ∧ Z.of_nat (length b) = BUFSIZE ∧
    (p = p0 ∧ read_ptr s = 0 ∧ available s = 0 ∧ read_buffer_offset s = 0 ∧ rf_off (s_dev s) = p ∨
     p = real_offset s + read_ptr s ∧ 0 < read_ptr s ∧ 0 ≤ available s ∧ 0 ≤ real_offset s ∧
     (real_offset s - p0) mod BUFSIZE = 0 ∧
     read_buffer_offset s = read_ptr s + available s ∧ read_buffer_offset s ≤ BUFSIZE ∧
     (read_buffer_offset s = BUFSIZE ∨ real_offset s + read_buffer_offset s = Z.of_nat (length c)) ∧
     take (Z.to_nat (available s)) (drop (Z.to_nat (read_ptr s)) b) = take (Z.to_nat (available s)) (drop (Z.to_nat p) c) ∧
     p + available s ≤ Z.of_nat (length c) ∧ rf_off (s_dev s) = p + available s)
}.

(** Seeking with nothing to write *)
Lemma fseek_ok s c p0 p :
  reading s c p0 p → available s = 0 → ∃ d,
    fseek s 0 SEEK_CUR = Ok (p, mk_stream d (s_mem s) (buffer_size s) (read_buffer s) (write_buffer s) 0
      (read_buffer_offset s) 0 0 (real_offset s) 0 (s_ungetc s)) ∧ rf_data d = c ∧ rf_off d = p.
Proof.
  intros [Hc Hr [Hbs Hwp] (b & Hrb & Hb & Hlen & Hcase)] Hav. unfold fseek. rewrite Hwp, truthy_0, bind_ok.
  cbn [s_dev s_mem buffer_size read_buffer write_buffer read_buffer_offset real_offset s_ungetc].
  change (SEEK_CUR =? SEEK_CUR) with true. rewrite andb_true_r.
  destruct Hcase as [(Hp & Hrp & _ & Hrbo & Hoff)|(Hp & Hrp & _ & Hro & _ & _ & Hrbo & _ & _ & Hle & Hoff)].
  - rewrite Hrp, truthy_0. destruct (rf_seek_here (s_dev s)) as (d & -> & Hd & Ho). rewrite bind_ok.
    exists d. rewrite Hd, Ho, Hoff. done.
  - unfold BUFSIZE in *. rewrite (proj2 (truthy_true _)) by lia. rewrite s32_small by lia.
    destruct (rf_seek_set (s_dev s) (0 + real_offset s + read_ptr s) ltac:(lia)) as (d & -> & Hd & Ho). rewrite bind_ok.
    exists d. rewrite Hd, Ho. split; [|by split; [|lia]]. unfold with_dev. cbn. by replace (0 + real_offset s + read_ptr s) with p by lia.
Qed.

(** Where the next bytes go in the buffer *)
Definition refill_at (s : stream D) : Z := if read_buffer_offset s =? buffer_size s then 0 else read_buffer_offset s.

Lemma refill_at_eq s c p0 p :
  reading s c p0 p → available s = 0 →
  0 ≤ refill_at s < BUFSIZE ∧ (p < Z.of_nat (length c) → refill_at s = 0) ∧
  (p = Z.of_nat (length c) → refill_at s = (p - p0) mod BUFSIZE).
Proof.
  intros [Hc Hr [Hbs Hwp] (b & Hrb & Hb & Hlen & Hcase)] Hav. unfold refill_at. rewrite Hbs. unfold BUFSIZE in *.
  destruct Hcase as [(Hp & _ & _ & Hrbo & _)|(Hp & Hrp & _ & Hro & Hal & Hrbo & Hmax & Hfull & _)].
  - rewrite Hrbo, (proj2 (Z.eqb_neq 0 512)) by lia. split; [lia|]. split; [done|]. intros _. subst p. by rewrite Z.sub_diag.
  - rewrite Hav, Z.add_0_r in Hrbo. rewrite Hrbo in *. apply Z.div_exact in Hal; [|done].
    set (q := (real_offset s - p0) / 512) in *. destruct (Z.eqb_spec (read_ptr s) 512) as [E|E].
    + split; [lia|]. split; [done|]. intros _. replace (p - p0) with ((q + 1) * 512) by lia. by rewrite Z.mod_mul.
    + split; [lia|]. split; [lia|]. intros _. replace (p - p0) with (read_ptr s + q * 512) by lia.
      rewrite Z.mod_add, Z.mod_small by lia. done.
Qed.

Lemma refill_ok s c p0 p :
  reading s c p0 p → available s = 0 →
  let bytes := take (Z.to_nat (BUFSIZE - refill_at s)) (drop (Z.to_nat p) c) in
  ∃ d b', rf_data d = c ∧ rf_off d = p + Z.of_nat (length bytes) ∧
    Z.of_nat (length b') = BUFSIZE ∧ take (length bytes) (drop (Z.to_nat (refill_at s)) b') = bytes ∧ read_buffer s ≠ 0 ∧
    refill s = Ok (true, mk_stream d (<[read_buffer s := b']> (s_mem s)) BUFSIZE (read_buffer s) (write_buffer s)
      (refill_at s) (refill_at s + Z.of_nat (length bytes)) 0 (Z.of_nat (length bytes)) p 0 (s_ungetc s)).
Proof.
  intros Hrd Hav bytes. destruct (refill_at_eq s c p0 p Hrd Hav) as (Hat & Hat0 & _).
  remember (refill_at s) as off eqn:Hoffeq. set (s0 := mk_stream (s_dev s) (s_mem s) (buffer_size s) (read_buffer s) (write_buffer s)
    (read_ptr s) off (write_ptr s) (available s) (real_offset s) (s_eof s) (s_ungetc s)).
  destruct (fseek_ok s c p0 p Hrd Hav) as (d & Hseek & Hd & Ho).
  assert (Hseek0 : fseek s0 0 SEEK_CUR = Ok (p, mk_stream d (s_mem s) (buffer_size s) (read_buffer s) (write_buffer s) 0
    off 0 0 (real_offset s) 0 (s_ungetc s))).
  { revert Hseek. unfold fseek. destruct Hrd as [_ _ [_ Hwp] _]. cbn [s0 write_ptr read_ptr real_offset]. rewrite Hwp, truthy_0, !bind_ok.
    cbn. destruct (d_seek _ _ _) as [[r d']| | |]; [|done..]. rewrite !bind_ok. unfold with_dev. cbn. by intros [= -> ->]. }
  destruct Hrd as [Hc Hr [Hbs Hwp] (b & Hrb & Hb & Hlen & _)]. unfold BUFSIZE in *.
  destruct (rf_read d (512 - off)) as (d' & Hread & Hd' & Ho'); [rewrite Ho, Hd; lia|lia|].
  rewrite Ho, Hd in Hread, Ho'. fold bytes in Hread, Ho'.
  assert (Hbl : Z.of_nat (length bytes) ≤ 512 - off) by (subst bytes; rewrite length_take; lia).
  clearbody bytes. exists d'. eexists. split; [by rewrite Hd'|]. split; [done|].
  unfold refill. fold (refill_at s). rewrite <- Hoffeq. fold s0. rewrite Hseek0, bind_ok. unfold read.
  cbn [s_dev s_mem buffer_size read_buffer write_buffer read_ptr read_buffer_offset write_ptr available real_offset s_eof s_ungetc].
  rewrite Hbs, (u32_small (512 - off)), Hread, !bind_ok by lia. unfold get_buffer, with_dev. cbn. rewrite Hb. cbn [of_option].
  rewrite bind_ok. rewrite splice_eq, bind_ok by lia.
  assert (Hneg : return_errno (Z.of_nat (length bytes)) = Z.of_nat (length bytes)).
  { unfold return_errno. rewrite s32_small by lia. by rewrite (proj2 (Z.ltb_ge _ _)) by lia. }
  rewrite Hneg, (proj2 (Z.ltb_ge (Z.of_nat (length bytes)) 0)) by lia. cbn. rewrite (u32_small p), (u32_small (off + _)) by lia.
  split; [|split; [|split; [done|reflexivity]]].
  - rewrite !length_app, length_take, length_drop. lia.
  - rewrite drop_app_length' by (rewrite length_take; lia). by rewrite take_app_length.
Qed.

(** One byte *)
Lemma fread_char s c p0 p ch :
  reading s c p0 p → c !! Z.to_nat p = Some ch → ∃ s', fread_loop 1 s = Ok ([ch], s') ∧ reading s' c p0 (p + 1).
Proof.
  intros Hrd Hch. pose proof (lookup_lt_Some _ _ _ Hch) as Hlt. pose proof (rd_range _ _ _ _ Hrd) as Hr.
  cbn [fread_loop]. destruct (Z.eqb_spec (available s) 0) as [Hav|Hav].
  - destruct (refill_at_eq s c p0 p Hrd Hav) as (_ & Hat & _). specialize (Hat ltac:(lia)).
    destruct (refill_ok s c p0 p Hrd Hav) as (d & b' & Hd & Ho & Hl & Ht & Hrb & ->). rewrite Hat in *. cbn [Z.to_nat] in Ht.
    rewrite drop_0, Z.sub_0_r in Ht. rewrite Z.sub_0_r in Ho. rewrite Z.sub_0_r, Z.add_0_l. unfold BUFSIZE in *.
    set (bytes := take (Z.to_nat 512) (drop (Z.to_nat p) c)) in *.
    assert (Hbl : 0 < Z.of_nat (length bytes) ≤ 512 ∧ p + Z.of_nat (length bytes) ≤ Z.of_nat (length c) ∧
      (Z.of_nat (length bytes) = 512 ∨ p + Z.of_nat (length bytes) = Z.of_nat (length c)))
      by (subst bytes; rewrite length_take, length_drop; lia).
    assert (Hb0 : b' !! 0%nat = Some ch).
    { rewrite <- (lookup_take_lt _ (length bytes)), Ht by lia. subst bytes. rewrite lookup_take_lt, lookup_drop by lia.
      by rewrite Nat.add_0_r. }
    rewrite bind_ok. cbn [negb available]. rewrite (proj2 (Z.eqb_neq _ 0)) by lia.
    unfold get_buffer. cbn [s_mem read_buffer read_ptr]. rewrite lookup_insert_eq. cbn [of_option]. rewrite bind_ok.
    rewrite slice_ok, bind_ok by lia. change (Z.to_nat 0) with O. change (Z.to_nat 1) with 1%nat.
    rewrite drop_0, (take_S_lookup b' 0 ch Hb0). cbn [take app].
    rewrite bind_ok. eexists. split; [reflexivity|]. cbn. rewrite (u32_small (Z.of_nat (length bytes) - 1)) by lia.
    split; cbn; [done|lia|done|]. exists b'. split; [done|]. rewrite lookup_insert_eq. split; [done|]. split; [done|]. right.
    change (u32 (0 + 1)) with 1. unfold BUFSIZE. split; [done|]. do 3 (split; [lia|]). split; [|split; [lia|split; [lia|split; [lia|split; [|lia]]]]].
    + destruct (rd_buf _ _ _ _ Hrd) as (b & _ & _ & _ & [(-> & _)|(Hp & _ & _ & _ & Hal & Hrbo & _ & Hfull & _)]).
      * by rewrite Z.sub_diag.
      * rewrite Hav in Hrbo. replace (p - p0) with (real_offset s - p0 + 1 * 512).
        { by rewrite Z.mod_add. }
        unfold refill_at in Hat. rewrite (proj1 (rd_size _ _ _ _ Hrd)) in Hat. unfold BUFSIZE in *.
        destruct (Z.eqb_spec (read_buffer_offset s) 512); lia.
    + apply (slice_tail (Z.of_nat (length bytes)) 0 p); [lia..|]. change (Z.to_nat 0) with O. rewrite drop_0, Nat2Z.id, Ht.
      subst bytes. rewrite length_take, length_drop. symmetry.
      destruct (decide (512 ≤ Z.of_nat (length c) - p)); [by rewrite Nat.min_l by lia|].
      rewrite Nat.min_r, !take_ge by (rewrite ?length_drop; lia). done.
  - destruct Hrd as [Hc _ [Hbs Hwp] (b & Hrb & Hb & Hl & [(_ & _ & Ha & _)|(Hp & Hrp & Ha & Hro & Hal & Hrbo & Hmax & Hfull & Hsame & Hle & Hoff)])];
      [done|]. unfold BUFSIZE in *. rewrite bind_ok. cbn [negb]. rewrite (proj2 (Z.eqb_neq _ 0)) by done.
    unfold get_buffer. rewrite Hb. cbn [of_option]. rewrite bind_ok, slice_ok, bind_ok by lia.
    assert (Hb0 : drop (Z.to_nat (read_ptr s)) b !! 0%nat = Some ch).
    { rewrite <- (lookup_take_lt _ (Z.to_nat (available s))), Hsame, lookup_take_lt, lookup_drop by lia.
      by rewrite Nat.add_0_r. }
    change (Z.to_nat 1) with 1%nat. rewrite (take_S_lookup _ 0 ch Hb0). cbn [take app]. rewrite bind_ok.
    eexists. split; [reflexivity|]. rewrite (u32_small (read_ptr s + 1)), (u32_small (available s - 1)) by lia.
    split; cbn; [done|lia|done|]. exists b. split; [done|]. split; [done|]. split; [done|]. right. unfold BUFSIZE.
    do 4 (split; [lia|]). split; [done|]. do 3 (split; [lia|]). split; [|lia]. by apply slice_tail; [lia..|].
Qed.

(** Nothing is left of the file. *)
Lemma fread_eof s c p0 :
  reading s c p0 (Z.of_nat (length c)) → available s = 0 ∧
  ∃ s', fread_loop 1 s = Ok ([], s') ∧ s_eof s' = 1 ∧ write_ptr s' = 0 ∧ read_ptr s' = (Z.of_nat (length c) - p0) mod BUFSIZE ∧
    real_offset s' = Z.of_nat (length c) ∧ rf_off (s_dev s') = Z.of_nat (length c).
Proof.
  intros Hrd. assert (Hav : available s = 0).
  { destruct (rd_buf _ _ _ _ Hrd) as (b & _ & _ & _ & [(_ & _ & ? & _)|(_ & _ & ? & _ & _ & _ & _ & _ & _ & ? & _)]); lia. }
  split; [done|]. destruct (refill_at_eq s c p0 _ Hrd Hav) as (Hat & _ & Hmod). specialize (Hmod eq_refl).
  destruct (refill_ok s c p0 _ Hrd Hav) as (d & b' & Hd & Ho & _ & _ & _ & Heq).
  rewrite Nat2Z.id, drop_all, take_nil in Heq, Ho. cbn [length] in Heq, Ho. rewrite Z.add_0_r in Ho.
  cbn [fread_loop]. rewrite Hav. change (0 =? 0) with true. cbv iota. rewrite Heq, bind_ok. cbn [negb available].
  change (Z.of_nat 0 =? 0) with true. cbv iota. eexists. split; [reflexivity|]. cbn. by rewrite <- Hmod.
Qed.

Lemma fread_cons n s :
  fread_loop (S n) s =
    ('(b, s1) ← fread_loop 1 s;
     match b with [] => Ok ([], s1) | _ => '(r, s2) ← fread_loop n s1; Ok (b ++ r, s2) end).
Proof.
  cbn [fread_loop]. destruct (if available s =? 0 then refill s else Ok (true, s)) as [[go s1]| | |]; [|done..].
  rewrite !bind_ok. destruct go; cbn [negb]; [|done]. destruct (available s1 =? 0); [done|].
  destruct (get_buffer s1 (read_buffer s1)) as [b| | |]; [|done..]. rewrite !bind_ok.
  destruct (slice b (read_ptr s1) 1) as [ch| | |] eqn:E; [|done..]. rewrite !bind_ok.
  apply slice_length in E. destruct ch as [|x [|]]; cbn in E; try lia. done.
Qed.

Lemma fread_loop_ok n s c p0 p :
  reading s c p0 p → p + Z.of_nat n ≤ Z.of_nat (length c) →
  ∃ s', fread_loop n s = Ok (take n (drop (Z.to_nat p) c), s') ∧ reading s' c p0 (p + Z.of_nat n).
Proof.
  revert s p. induction n as [|n IH]; intros s p Hrd Hn.
  - exists s. cbn. by rewrite Z.add_0_r.
  - pose proof (rd_range _ _ _ _ Hrd). destruct (lookup_lt_is_Some_1' c (Z.to_nat p) ltac:(lia)) as [ch Hch].
    destruct (fread_char s c p0 p ch Hrd Hch) as (s1 & E1 & Hrd1). destruct (IH s1 (p + 1) Hrd1 ltac:(lia)) as (s2 & E2 & Hrd2).
    exists s2. rewrite fread_cons, E1, bind_ok, E2, bind_ok. split.
    + rewrite (drop_S c ch (Z.to_nat p)) by done. cbn. by replace (Z.to_nat (p + 1)) with (S (Z.to_nat p)) by lia.
    + by replace (p + Z.of_nat (S n)) with (p + 1 + Z.of_nat n) by lia.
Qed.

(** Reading more than is left *)
Lemma fread_past_end n s c p0 p :
  reading s c p0 p → Z.of_nat (length c) < p + Z.of_nat n →
  ∃ s', fread_loop n s = Ok (drop (Z.to_nat p) c, s') ∧ s_eof s' = 1 ∧ write_ptr s' = 0 ∧
    read_ptr s' = (Z.of_nat (length c) - p0) mod BUFSIZE ∧ real_offset s' = Z.of_nat (length c) ∧
    rf_off (s_dev s') = Z.of_nat (length c).
Proof.
  revert s p. induction n as [|n IH]; intros s p Hrd Hn; pose proof (rd_range _ _ _ _ Hrd) as Hr; [lia|].
  rewrite fread_cons. destruct (decide (p = Z.of_nat (length c))) as [->|Hne].
  - destruct (fread_eof s c p0 Hrd) as (_ & s' & -> & E1). rewrite bind_ok. exists s'. split; [|done].
    by rewrite Nat2Z.id, drop_all.
  - destruct (lookup_lt_is_Some_1' c (Z.to_nat p) ltac:(lia)) as [ch Hch].
    destruct (fread_char s c p0 p ch Hrd Hch) as (s1 & E1 & Hrd1). destruct (IH s1 (p + 1) Hrd1 ltac:(lia)) as (s2 & E2 & E3).
    exists s2. rewrite E1, bind_ok, E2, bind_ok. split; [|done].
    rewrite (drop_S c ch (Z.to_nat p)) by done. cbn. by replace (Z.to_nat (p + 1)) with (S (Z.to_nat p)) by lia.
Qed.
End streams.

(** ** Properties *)

Section properties.
Context {D : Type} `{RegularFile D}.
Implicit Types (s : stream D) (c data : list Z) (p : Z).

(** Several calls of [fwrite] *)
Fixpoint fwrite_all (chunks : list (list Z)) s : res (stream D) :=
  match chunks with
  | [] => Ok s
  | data :: rest => '(_, s1) ← fwrite s data; fwrite_all rest s1
  end.

Lemma fwrite_all_ok chunks s out : writing s out → ∃ s', fwrite_all chunks s = Ok s' ∧ writing s' (out ++ concat chunks).
Proof.
  revert s out. induction chunks as [|data chunks IH]; intros s out Hw; cbn [fwrite_all concat].
  - exists s. by rewrite app_nil_r.
  - destruct (fwrite_ok data s out Hw) as (s1 & -> & Hw1). rewrite bind_ok.
    destruct (IH s1 _ Hw1) as (s2 & -> & Hw2). exists s2. by rewrite <- app_assoc in Hw2.
Qed.

Lemma writing_closed s out : writing s out → ∃ d m, fclose s = Ok (0, d, m) ∧ rf_data d = out.
Proof.
  intros Hw. destruct (writing_flushed s out Hw) as (r & d & Hf & Hd). unfold fclose. rewrite Hf, bind_ok. by eexists _, _.
Qed.

(** Output through a stream.  Whatever is written in whatever pieces, the file has got it
    in order up to a rest that waits in the buffer, which is shorter than the buffer and has
    no newline; closing the stream delivers the rest. *)
Theorem stream_output_arrives chunks s out :
  writing s out →
  ∃ s' rest, fwrite_all chunks s = Ok s' ∧
    out ++ concat chunks = rf_data (s_dev s') ++ rest ∧ Z.of_nat (length rest) < buffer_size s' ∧ NEWLINE ∉ rest ∧
    ∃ d m, fclose s' = Ok (0, d, m) ∧ rf_data d = out ++ concat chunks.
Proof.
  intros Hw. destruct (fwrite_all_ok chunks s out Hw) as (s' & -> & Hw'). pose proof Hw' as [(b & _ & _ & Hlen & Hout & Hnl) _ Hp _].
  exists s', (take (Z.to_nat (write_ptr s')) b). split; [done|]. split; [done|].
  split; [rewrite length_take; lia|]. split; [done|]. by apply writing_closed.
Qed.

Lemma reading_buffer s c p0 p : reading s c p0 p → read_buffer s ≠ 0.
Proof. intros [_ _ _ (b & Hb & _)]. done. Qed.

(** C33: Input through a stream that was opened at [p0].  [fread] gives the bytes of the file
    that follow its position, as many as are asked for, and the position moves on by as
    many, as long as the file has them; at the end of the file it gives what is left and
    sets the mark. *)
Theorem fread_exact s c p0 p size nmemb :
  reading s c p0 p → 0 ≤ size * nmemb < 2 ^ 32 →
  let n := size * nmemb in
  (p + n ≤ Z.of_nat (length c) → ∃ s', fread s size nmemb = Ok (n, take (Z.to_nat n) (drop (Z.to_nat p) c), s') ∧ reading s' c p0 (p + n)) ∧
  (Z.of_nat (length c) < p + n → ∃ s', fread s size nmemb = Ok (Z.of_nat (length c) - p, drop (Z.to_nat p) c, s') ∧ feof s' = 1).
Proof.
  intros Hrd Hn n. pose proof (rd_range _ _ _ _ Hrd) as Hr. unfold fread. fold n.
  rewrite u32_small, (proj2 (Z.eqb_neq _ _)) by (done || by eapply reading_buffer). split; intros Hle.
  - destruct (fread_loop_ok (Z.to_nat n) s c p0 p Hrd ltac:(lia)) as (s' & -> & Hrd'). rewrite bind_ok. exists s'.
    rewrite Z2Nat.id in Hrd' by lia. split; [|done]. do 3 f_equal. rewrite length_take, length_drop. lia.
  - destruct (fread_past_end (Z.to_nat n) s c p0 p Hrd ltac:(lia)) as (s' & -> & He & _). rewrite bind_ok. exists s'.
    split; [|done]. do 3 f_equal. rewrite length_drop. lia.
Qed.

(** What was written comes back.  A stream writes pieces to an empty file and is closed;
    a stream that is opened on the file at its beginning then reads exactly these pieces,
    one after another, and then the end. *)
Theorem stdio_roundtrip chunks s d' mem wa ra wfresh rfresh n :
  writing s [] → Z.of_nat (length (concat chunks)) < 2 ^ 30 → ra ≠ 0 → Z.of_nat (length rfresh) = BUFSIZE →
  Z.of_nat (length (concat chunks)) < n < 2 ^ 32 →
  (∀ d m s', fwrite_all chunks s = Ok s' → fclose s' = Ok (0, d, m) → rf_data d' = rf_data d ∧ rf_off d' = 0) →
  ∃ s' d m r, fwrite_all chunks s = Ok s' ∧ fclose s' = Ok (0, d, m) ∧
    fread (fdopen d' mem wa ra wfresh rfresh) 1 n = Ok (Z.of_nat (length (concat chunks)), concat chunks, r) ∧ feof r = 1.
Proof.
  intros Hw Hlen Hra Hrf Hn Hopen. destruct (fwrite_all_ok chunks s [] Hw) as (s' & Hs' & Hw').
  destruct (writing_closed s' _ Hw') as (d & m & Hc & Hd). destruct (Hopen d m s' Hs' Hc) as [Hd' Ho']. cbn in Hd.
  assert (Hrd : reading (fdopen d' mem wa ra wfresh rfresh) (concat chunks) 0 0).
  { split; cbn; [by rewrite Hd', Hd|lia|done|]. exists rfresh. split; [done|]. split; [by rewrite lookup_insert_eq|].
    split; [done|]. by left. }
  destruct (fread_past_end (Z.to_nat n) _ _ _ _ Hrd ltac:(lia)) as (r & Hr & He & _).
  exists s', d, m, r. split; [done|]. split; [done|]. split; [|done]. unfold fread. rewrite Z.mul_1_l, u32_small by lia.
  cbn [read_buffer fdopen] in *. rewrite (proj2 (Z.eqb_neq _ _)) by done. rewrite Hr, bind_ok. done.
Qed.

(** After reading up to the end of a file, [ftell] (and every seek relative to the
    position) is wrong unless the number of bytes since the stream was opened is a multiple
    of the buffer size: the part of the last buffer that was filled is counted twice. *)
Theorem ftell_wrong_at_end s c p0 p n :
  reading s c p0 p → Z.of_nat (length c) < p + n → 0 ≤ n < 2 ^ 32 →
  ∃ s' s'', fread s 1 n = Ok (Z.of_nat (length c) - p, drop (Z.to_nat p) c, s') ∧
    ftell s' = Ok (Z.of_nat (length c) + (Z.of_nat (length c) - p0) mod BUFSIZE, s'') ∧
    rf_off (s_dev s'') = Z.of_nat (length c) + (Z.of_nat (length c) - p0) mod BUFSIZE.
Proof.
  intros Hrd Hn Hn2. pose proof (rd_range _ _ _ _ Hrd) as Hr.
  destruct (fread_past_end (Z.to_nat n) s c p0 p Hrd ltac:(lia)) as (s' & Hf & _ & Hwp & Hrp & Hro & Hoff).
  assert (Hft : ∃ d, ftell s' = Ok (Z.of_nat (length c) + (Z.of_nat (length c) - p0) mod BUFSIZE,
      with_dev (mk_stream (s_dev s') (s_mem s') (buffer_size s') (read_buffer s') (write_buffer s') 0 (read_buffer_offset s')
        0 0 (real_offset s') 0 (s_ungetc s')) d) ∧ rf_off d = Z.of_nat (length c) + (Z.of_nat (length c) - p0) mod BUFSIZE).
  { pose proof (Z.mod_pos_bound (Z.of_nat (length c) - p0) BUFSIZE eq_refl) as Hm. unfold BUFSIZE in *.
    unfold ftell, fseek. rewrite Hwp, truthy_0, bind_ok, Hro. cbn [s_dev]. change (SEEK_CUR =? SEEK_CUR) with true.
    rewrite andb_true_r. destruct (truthy (read_ptr s')) eqn:Ht.
    - rewrite Hrp, s32_small by lia.
      destruct (rf_seek_set (s_dev s') (0 + Z.of_nat (length c) + (Z.of_nat (length c) - p0) mod 512) ltac:(lia))
        as (d & -> & _ & Ho). rewrite bind_ok. exists d. rewrite Ho, Z.add_0_l. done.
    - apply truthy_false in Ht. rewrite Ht in Hrp. rewrite <- Hrp, Z.add_0_r.
      destruct (rf_seek_here (s_dev s')) as (d & -> & _ & Ho). rewrite bind_ok. exists d. rewrite Ho, Hoff. done. }
  destruct Hft as (d & Hft & Hd). exists s'. eexists. split; [|split; [exact Hft|exact Hd]].
  unfold fread. rewrite Z.mul_1_l, u32_small, (proj2 (Z.eqb_neq _ _)) by (lia || by eapply reading_buffer).
  rewrite Hf, bind_ok. do 3 f_equal. rewrite length_drop. lia.
Qed.

(** ** Characters and lines *)

Lemma fgetc_ok s c p0 p ch :
  reading s c p0 p → c !! Z.to_nat p = Some ch → ∃ s', fgetc s = Ok (s8 ch, s') ∧ reading s' c p0 (p + 1).
Proof.
  intros Hrd Hch. destruct (fread_char s c p0 p ch Hrd Hch) as (s' & Hf & Hrd'). exists s'. split; [|done].
  unfold fgetc, fread. change (u32 (1 * 1)) with 1. change (Z.to_nat 1) with 1%nat.
  rewrite (proj2 (Z.eqb_neq _ _)) by (by eapply reading_buffer). rewrite Hf, bind_ok. done.
Qed.

Lemma fgetc_eof s c p0 :
  reading s c p0 (Z.of_nat (length c)) → ∃ s', fgetc s = Ok (EOF, s').
Proof.
  intros Hrd. destruct (fread_eof s c p0 Hrd) as (_ & s' & Hf & _). eexists. unfold fgetc, fread.
  change (u32 (1 * 1)) with 1. change (Z.to_nat 1) with 1%nat.
  rewrite (proj2 (Z.eqb_neq _ _)) by (by eapply reading_buffer). by rewrite Hf, bind_ok.
Qed.

(** A character that [fgets] stores and goes on *)
Definition plain (ch : Z) : Prop := 0 ≤ ch < 255 ∧ ch ≠ NEWLINE.

Lemma plain_char ch : 0 ≤ ch < 255 → s8 ch ≠ EOF ∧ u8 (s8 ch) = ch ∧ (s8 ch =? NEWLINE) = (ch =? NEWLINE).
Proof.
  intros Hc. unfold s8, u8, EOF, NEWLINE. pose proof (Z.mod_pos_bound (ch + 2 ^ 7) (2 ^ 8) eq_refl).
  pose proof (Z.div_mod (ch + 2 ^ 7) (2 ^ 8)). set (q := (ch + 2 ^ 7) / 2 ^ 8) in *. assert (q = 0 ∨ q = 1) as Hq by lia.
  split; [destruct Hq; lia|]. split.
  - replace ((ch + 2 ^ 7) mod 2 ^ 8 - 2 ^ 7) with (ch + (- q) * 2 ^ 8) by lia. rewrite Z.mod_add, Z.mod_small by lia. done.
  - apply eq_true_iff_eq. rewrite !Z.eqb_eq. destruct Hq; lia.
Qed.

(** Reading [line], which is followed by [rest], with room to spare *)
Lemma fgets_plain line s c p0 p n :
  reading s c p0 p → Forall plain line → line ++ drop (Z.to_nat p + length line) c = drop (Z.to_nat p) c → (length line < n)%nat →
  ∃ s', reading s' c p0 (p + Z.of_nat (length line)) ∧
    fgets_loop n s = ('(b, full, s2) ← fgets_loop (n - length line) s'; Ok (line ++ b, full, s2)).
Proof.
  revert s p n. induction line as [|ch line IH]; intros s p n Hrd Hpl Hc Hn.
  - exists s. cbn. rewrite Z.add_0_r, Nat.sub_0_r. split; [done|]. by destruct (fgets_loop n s) as [[[b f] s2]| | |].
  - inversion Hpl as [|? ? [Hp1 Hp2] Hpl']; subst. pose proof (rd_range _ _ _ _ Hrd) as Hr.
    assert (Hch : c !! Z.to_nat p = Some ch).
    { rewrite <- (Nat.add_0_r (Z.to_nat p)), <- lookup_drop, <- Hc. done. }
    destruct (fgetc_ok s c p0 p ch Hrd Hch) as (s1 & Hg & Hrd1). destruct n as [|n]; [cbn in Hn; lia|].
    destruct (plain_char ch Hp1) as (He1 & He2 & He3). cbn [fgets_loop]. rewrite Hg, bind_ok, (proj2 (Z.eqb_neq _ EOF)) by done.
    rewrite He3, (proj2 (Z.eqb_neq _ NEWLINE)), He2 by done. cbn [length] in Hn. rewrite (proj2 (Nat.eqb_neq n 0)) by lia. cbn [orb].
    destruct (IH s1 (p + 1) n Hrd1 Hpl') as (s' & Hrd' & Hl); [|lia|].
    { replace (Z.to_nat (p + 1)) with (Z.to_nat p + 1)%nat by lia. rewrite (drop_S c ch (Z.to_nat p)) in Hc by done.
      injection Hc as Hc. rewrite Nat.add_1_r, <- Hc. do 2 f_equal. cbn. lia. }
    exists s'. split; [by replace (p + Z.of_nat (length (ch :: line))) with (p + 1 + Z.of_nat (length line)) by (cbn [length]; lia)|].
    rewrite Hl. cbn [length Nat.sub]. by destruct (fgets_loop (n - length line) s') as [[[b f] s2]| | |].
Qed.

(** A line that fits is read whole: [fgets] stores it with its newline and a NUL, and
    the stream is behind it. *)
Theorem fgets_reads_line s c p0 p size line :
  reading s c p0 p → Forall plain line → Z.of_nat (length line) + 2 ≤ size →
  take (length line + 1) (drop (Z.to_nat p) c) = line ++ [NEWLINE] →
  ∃ s', fgets s size = Ok (true, line ++ [NEWLINE; 0], s') ∧ reading s' c p0 (p + Z.of_nat (length line) + 1).
Proof.
  intros Hrd Hpl Hsize Hc. pose proof (rd_range _ _ _ _ Hrd) as Hr.
  pose proof (take_drop (length line + 1) (drop (Z.to_nat p) c)) as Hd. rewrite Hc, drop_drop, <- app_assoc in Hd. cbn [app] in Hd.
  assert (Hd0 : drop (Z.to_nat p + length line) c = NEWLINE :: drop (Z.to_nat p + (length line + 1)) c).
  { rewrite <- drop_drop, <- Hd. by rewrite drop_app_length. }
  destruct (fgets_plain line s c p0 p (Z.to_nat (size - 1)) Hrd Hpl) as (s1 & Hrd1 & Hl); [by rewrite Hd0|lia|].
  assert (Hch : c !! Z.to_nat (p + Z.of_nat (length line)) = Some NEWLINE).
  { replace (Z.to_nat (p + Z.of_nat (length line))) with (Z.to_nat p + length line + 0)%nat by lia.
    by rewrite <- lookup_drop, Hd0. }
  destruct (fgetc_ok s1 c p0 _ NEWLINE Hrd1 Hch) as (s2 & Hg & Hrd2). exists s2. split; [|done].
  unfold fgets. rewrite (proj2 (Z.leb_gt _ _)), Hl by lia.
  destruct (Z.to_nat (size - 1) - length line)%nat as [|m] eqn:Em; [lia|]. cbn [fgets_loop]. rewrite Hg, !bind_ok.
  change (s8 NEWLINE) with NEWLINE. change (NEWLINE =? EOF) with false. cbv iota. rewrite Z.eqb_refl, orb_true_r, !bind_ok.
  done.
Qed.

(** A last line without a newline is returned without its NUL: the caller's buffer is
    terminated by whatever it held before. *)
Theorem fgets_last_line_unterminated s c p0 p size :
  reading s c p0 p → Forall plain (drop (Z.to_nat p) c) → p < Z.of_nat (length c) → Z.of_nat (length c) - p + 1 < size →
  ∃ s', fgets s size = Ok (true, drop (Z.to_nat p) c, s').
Proof.
  intros Hrd Hpl Hp Hsize. pose proof (rd_range _ _ _ _ Hrd) as Hr. set (line := drop (Z.to_nat p) c) in *.
  assert (Hlen : Z.of_nat (length line) = Z.of_nat (length c) - p) by (subst line; rewrite length_drop; lia).
  destruct (fgets_plain line s c p0 p (Z.to_nat (size - 1)) Hrd Hpl) as (s1 & Hrd1 & Hl); [|lia|].
  { rewrite (drop_ge c) by lia. apply app_nil_r. }
  replace (p + Z.of_nat (length line)) with (Z.of_nat (length c)) in Hrd1 by lia.
  destruct (fgetc_eof s1 c p0 Hrd1) as (s2 & Hg). exists s2. unfold fgets. rewrite (proj2 (Z.leb_gt _ _)), Hl by lia.
  destruct (Z.to_nat (size - 1) - length line)%nat as [|m] eqn:Em; [lia|]. cbn [fgets_loop]. rewrite Hg, !bind_ok.
  change (EOF =? EOF) with true. cbv iota. rewrite !bind_ok, app_nil_r, (proj2 (Nat.eqb_neq _ _)) by lia. done.
Qed.

(** The byte 255 reads as [EOF]: [fgetc] cannot tell it from the end of the file, and
    [fgets] stops in front of what follows it although the file goes on. *)
Theorem fgetc_255_is_eof s c p0 p size :
  reading s c p0 p → c !! Z.to_nat p = Some 255 → 1 < size →
  (∃ s', fgetc s = Ok (EOF, s') ∧ reading s' c p0 (p + 1)) ∧ ∃ s', fgets s size = Ok (false, [], s') ∧ reading s' c p0 (p + 1).
Proof.
  intros Hrd Hch Hsize. destruct (fgetc_ok s c p0 p 255 Hrd Hch) as (s1 & Hg & Hrd1). change (s8 255) with EOF in Hg.
  split; [by exists s1|]. exists s1. split; [|done]. unfold fgets. rewrite (proj2 (Z.leb_gt _ _)) by lia.
  destruct (Z.to_nat (size - 1)) as [|m] eqn:Em; [lia|]. cbn [fgets_loop]. rewrite Hg, !bind_ok. done.
Qed.
End properties.

(** ** A file *)

Record plain_file := mk_plain { pf_data : list Z; pf_off : Z }.

#[export] Instance plain_descriptor : Descriptor plain_file := {|
  d_read f n := let bytes := take (Z.to_nat n) (drop (Z.to_nat (pf_off f)) (pf_data f)) in
    Ok (Z.of_nat (length bytes), bytes, mk_plain (pf_data f) (pf_off f + Z.of_nat (length bytes)));
  d_write f bytes := Ok (Z.of_nat (length bytes),
    mk_plain (take (Z.to_nat (pf_off f)) (pf_data f) ++ bytes ++ drop (Z.to_nat (pf_off f) + length bytes) (pf_data f))
             (pf_off f + Z.of_nat (length bytes)));
  d_seek f o whence := let o' := if whence =? SEEK_SET then o else pf_off f + o in Ok (o', mk_plain (pf_data f) o')
|}.

#[export] Program Instance plain_regular : RegularFile plain_file := {| rf_data := pf_data; rf_off := pf_off |}.
Next Obligation. intros d n Hoff Hn. eexists. split; [reflexivity|]. done. Qed.
Next Obligation.
  intros d bytes Hoff. eexists. split; [reflexivity|]. cbn. split; [|done]. rewrite Hoff, Nat2Z.id.
  rewrite take_ge, drop_ge by lia. by rewrite app_nil_r.
Qed.
Next Obligation. intros d o Ho. eexists. split; [reflexivity|]. done. Qed.
Next Obligation. intros d. eexists. cbn. rewrite Z.add_0_r. split; [reflexivity|]. done. Qed.

Definition demo_stream (data : list Z) : stream plain_file :=
  fdopen (mk_plain data 0) ∅ 1 2 (replicate (Z.to_nat BUFSIZE) 0) (replicate (Z.to_nat BUFSIZE) 0).

Lemma demo_writing : writing (demo_stream []) [].
Proof.
  split; cbn; [|done|done|done]. eexists. split; [done|]. split; [rewrite lookup_insert_ne, lookup_insert_eq by done; reflexivity|].
  split; [by rewrite length_replicate|]. split; [done|]. by apply not_elem_of_nil.
Qed.

Lemma demo_reading data : Z.of_nat (length data) < 2 ^ 30 → reading (demo_stream data) data 0 0.
Proof.
  intros Hl. split; cbn; [done|lia|done|]. eexists. split; [done|]. rewrite lookup_insert_eq. split; [reflexivity|].
  split; [by rewrite length_replicate|]. by left.
Qed.

Lemma stream_output_arrives_witness :
  ∃ s' rest, fwrite_all [[72; 105]; [10; 33]] (demo_stream []) = Ok s' ∧
    [72; 105; 10; 33] = rf_data (s_dev s') ++ rest ∧ Z.of_nat (length rest) < buffer_size s' ∧ NEWLINE ∉ rest ∧
    ∃ d m, fclose s' = Ok (0, d, m) ∧ rf_data d = [72; 105; 10; 33].
Proof. exact (stream_output_arrives [[72; 105]; [10; 33]] (demo_stream []) [] demo_writing). Defined.

Lemma fread_exact_witness :
  (0 + 2 * 1 ≤ 3 → ∃ s', fread (demo_stream [7; 8; 9]) 2 1 = Ok (2, [7; 8], s') ∧ reading s' [7; 8; 9] 0 (0 + 2 * 1)) ∧
  (3 < 0 + 2 * 1 → ∃ s', fread (demo_stream [7; 8; 9]) 2 1 = Ok (3 - 0, [7; 8; 9], s') ∧ feof s' = 1).
Proof. apply (fread_exact (demo_stream [7; 8; 9]) [7; 8; 9] 0 0 2 1); [apply demo_reading; cbn; lia|lia]. Defined.

Lemma stdio_roundtrip_witness :
  ∃ s' d m r, fwrite_all [[72; 105]; [10; 33]] (demo_stream []) = Ok s' ∧ fclose s' = Ok (0, d, m) ∧
    fread (demo_stream [72; 105; 10; 33]) 1 100 = Ok (4, [72; 105; 10; 33], r) ∧ feof r = 1.
Proof.
  apply (stdio_roundtrip [[72; 105]; [10; 33]] (demo_stream []) (mk_plain [72; 105; 10; 33] 0) ∅ 1 2
    (replicate (Z.to_nat BUFSIZE) 0) (replicate (Z.to_nat BUFSIZE) 0) 100 demo_writing); [cbn; lia|done|by rewrite length_replicate|cbn; lia|].
  intros d m s' Hs' Hc. split; [|done].
  destruct (fwrite_all_ok [[72; 105]; [10; 33]] (demo_stream []) [] demo_writing) as (s1 & Hs1 & Hw1).
  rewrite Hs' in Hs1. injection Hs1 as <-. destruct (writing_closed s' _ Hw1) as (d1 & m1 & Hc1 & Hd1).
  rewrite Hc in Hc1. injection Hc1 as <- _. by rewrite Hd1.
Defined.

Lemma ftell_wrong_at_end_witness :
  ∃ s' s'', fread (demo_stream [7; 8; 9]) 1 4 = Ok (3 - 0, [7; 8; 9], s') ∧
    ftell s' = Ok (3 + (3 - 0) mod BUFSIZE, s'') ∧ rf_off (s_dev s'') = 3 + (3 - 0) mod BUFSIZE.
Proof. apply (ftell_wrong_at_end (demo_stream [7; 8; 9]) [7; 8; 9] 0 0 4); [apply demo_reading; cbn; lia|cbn; lia|lia]. Defined.

Lemma fgets_reads_line_witness :
  ∃ s', fgets (demo_stream [72; 105; 10; 33]) 10 = Ok (true, [72; 105; 10; 0], s') ∧ reading s' [72; 105; 10; 33] 0 (0 + 2 + 1).
Proof.
  apply (fgets_reads_line (demo_stream [72; 105; 10; 33]) [72; 105; 10; 33] 0 0 10 [72; 105]);
    [apply demo_reading; cbn; lia|repeat constructor; done|cbn; lia|done].
Defined.

Lemma fgets_last_line_unterminated_witness : ∃ s', fgets (demo_stream [72; 105]) 10 = Ok (true, [72; 105], s').
Proof.
  apply (fgets_last_line_unterminated (demo_stream [72; 105]) [72; 105] 0 0 10);
    [apply demo_reading; cbn; lia|repeat constructor; done|cbn; lia|cbn; lia].
Defined.

Lemma fgetc_255_is_eof_witness :
  (∃ s', fgetc (demo_stream [255; 65]) = Ok (EOF, s') ∧ reading s' [255; 65] 0 (0 + 1)) ∧
  ∃ s', fgets (demo_stream [255; 65]) 10 = Ok (false, [], s') ∧ reading s' [255; 65] 0 (0 + 1).
Proof. apply (fgetc_255_is_eof (demo_stream [255; 65]) [255; 65] 0 0 10); [apply demo_reading; cbn; lia|done|lia]. Defined.
