(* ===== verification/Fprintf.v ===== *)
(** * libc/src/stdio/stdio.c: formatted output to a stream

    [vfprintf] formats into a buffer of 4096 bytes and writes the string it finds
    there: the composition of [Printf] and [Stdio]. *)

From S2P Require Import Prelude CMem CString CStringFacts BlockDev Printf PrintfFacts PrintfSpec Stdio StdioFacts.

(** The bytes [fwrite] copies from memory. *)
Fixpoint fetch_bytes (n : nat) (m : mem) (p : Z) : res (list Z) :=
  match n with
  | O => Ok []
  | S n => b ← load m p; l ← fetch_bytes n m (p + 1); Ok (b :: l)
  end.

Section fprintf.
Context {D : Type} `{Descriptor D}.
Context (float_conv : out_fct_type → Z → Z → Z → Z → Z → Z → Z → io → res (Z * io)).

(** [buffer] is the block [malloc(4096)] returns; it is freed at the end. *)
Definition vfprintf (fuel : nat) (buffer : Z) (device : stream D) (format : Z) (va : list Z) (m : mem)
    : res (Z * stream D) :=
  '(_, w) ← vsnprintf float_conv fuel buffer 4096 format va (mk_io m []);
  len ← strlen fuel (io_mem w) buffer;
  data ← fetch_bytes (Z.to_nat len) (io_mem w) buffer;
  fwrite device data.

Definition fprintf (fuel : nat) (buffer : Z) (stream : stream D) (format : Z) (va : list Z) (m : mem)
    : res (Z * Stdio.stream D) := vfprintf fuel buffer stream format va m.
End fprintf.

Lemma fetch_bytes_ok m p l : bytes_at m p l → fetch_bytes (length l) m p = Ok l.
Proof.
  revert p. induction l as [|b l IH]; intros p Hb; [done|]. cbn [fetch_bytes length].
  apply bytes_at_cons in Hb as [Hp Hb]. by rewrite (load_ok _ _ _ Hp), bind_ok, IH, bind_ok.
Qed.

Lemma in_memory_narrow m format s strs lo hi hi' :
  in_memory m format s strs lo hi → hi' ≤ hi → in_memory m format s strs lo hi'.
Proof.
  intros [H1 H2 H3 H4] Hh. split; [done|lia|done|]. intros p t Ht. apply H4 in Ht. lia.
Qed.

Section results.
Context {D : Type} `{RegularFile D}.
Context (float_conv : out_fct_type → Z → Z → Z → Z → Z → Z → Z → io → res (Z * io)).

(** A formatted text without NUL reaches the stream up to its first 4095 characters,
    after everything written before; the result counts what was written. *)
Theorem fprintf_arrives m format s va text strs fuel L buffer (st : stream D) out :
  formats strs s va text → words va → (length s + L < fuel)%nat → strs_fit strs L →
  Z.of_nat (length text) < 2 ^ 31 - 1 → Forall (λ c, u8 c ≠ 0) text →
  buffer ≠ 0 → mapped m buffer 4096 → 4096 < Z.of_nat fuel →
  in_memory m format s strs buffer (buffer + 4096) →
  writing st out →
  let shown := take (Z.to_nat 4095) (u8 <$> text) in
  ∃ st', fprintf float_conv fuel buffer st format va m = Ok (Z.of_nat (length shown), st') ∧
    writing st' (out ++ shown).
Proof.
  intros Hfm Hva Hf Hfit Hn Hnz Hb Hm Hfu Him Hw shown.
  assert (Hsl : (length shown ≤ Z.to_nat 4095)%nat) by (subst shown; rewrite length_take; lia).
  assert (Hch : chars shown).
  { subst shown. apply Forall_take, Forall_fmap. eapply Forall_impl; [done|]. intros c Hc.
    change (0 < u8 c < 256). cbn in Hc. pose proof (u8_range c). lia. }
  unfold fprintf, vfprintf, vsnprintf. rewrite (proj2 (truthy_true buffer) Hb).
  rewrite (run_out_buffer float_conv m [] format s va text strs fuel L) by
    (done || lia || (eapply in_memory_narrow; [done|lia]) || (eapply mapped_sub; [done|lia|lia])).
  rewrite bind_ok. cbn [io_mem]. change (Z.to_nat (4096 - 1)) with (Z.to_nat 4095). fold shown.
  assert (Hs : cstr (store_bytes m buffer (shown ++ [0])) buffer shown) by by apply cstr_store_bytes.
  rewrite (strlen_ok _ _ shown) by (done || lia). rewrite bind_ok, Nat2Z.id.
  rewrite fetch_bytes_ok, bind_ok.
  - by apply fwrite_ok.
  - destruct Hs as [_ Hs]. by apply bytes_at_app in Hs as [Hs _].
Qed.
End results.

Lemma fprintf_arrives_witness :
  ∃ st', fprintf no_float (Z.to_nat 4100) 1000 (demo_stream []) 64 demo_args
      (store_bytes (store_bytes (mem_of 1000 (replicate (Z.to_nat 4096) 0)) 64 (demo_format ++ [0])) 96 [97; 98; 0]) =
      Ok (13, st') ∧ writing st' ([] ++ [32;32;45;52;50;124;97;98;32;32;124;49;102]).
Proof.
  apply (fprintf_arrives no_float _ 64 demo_format demo_args [32;32;45;52;50;124;97;98;32;32;124;49;102]
    demo_strs (Z.to_nat 4100) 3 1000 (demo_stream []) [] demo_formats demo_words).
  - by apply Nat.ltb_lt; vm_compute.
  - apply demo_fit.
  - done.
  - repeat constructor; done.
  - done.
  - apply (mapped_check_ok _ _ (Z.to_nat 4096)). by vm_compute.
  - done.
  - split.
    + apply cstr_check_ok. by vm_compute.
    + cbn. lia.
    + intros p t Ht. unfold demo_strs in Ht. apply lookup_singleton_Some in Ht as [<- <-].
      apply cstr_check_ok. by vm_compute.
    + intros p t Ht. unfold demo_strs in Ht. apply lookup_singleton_Some in Ht as [<- <-]. cbn. lia.
  - apply demo_writing.
Defined.
