(* ===== verification/Clock.v ===== *)
(** * Clocks and calendars

    The real-time clock of the kernel (kernel/src/dev/cmos.c, rtc.c), the
    conversion of a date to seconds (kernel/src/dev/timer.c, libc/src/time/mktime.c)
    and the 64-bit division of libc (libc/src/udivmoddi4.c).  The contents of the
    CMOS registers are an argument of the model. *)

From S2P Require Import Prelude.

(** ** dev/cmos.c *)

(** The last index written to port 0x70 and the static [nmi_enabled]. *)
Record cmos := mk_cmos { port70 : Z; nmi_enabled : Z }.

Section rtc.
(** What the chip answers on port 0x71 for a register of [0, 128). *)
Context (registers : Z → Z).

Definition k_dev_cmos_nmi_enable (c : cmos) : cmos := mk_cmos (Z.land (port70 c) 0x7F) 1.
Definition k_dev_cmos_nmi_disable (c : cmos) : cmos := mk_cmos (Z.lor (port70 c) 0x80) 0.

Definition k_dev_cmos_select_register (c : cmos) (r : Z) : cmos :=
  mk_cmos (u8 (Z.lor (Z.shiftl (nmi_enabled c) 7) r)) (nmi_enabled c).

Definition k_dev_cmos_read (c : cmos) (reg : Z) : Z * cmos :=
  let c := k_dev_cmos_select_register c reg in
  (registers (Z.land (port70 c) 0x7F), c).

(** ** dev/rtc.c *)

Record rtc_time_t := mk_rtc { hour : Z; minute : Z; second : Z; day : Z; month : Z; year : Z }.

(** The statics [h24], [bin] and [century]. *)
Record rtc_mode := mk_mode { h24 : Z; bin : Z; century : Z }.

Definition k_dev_rtc_from_bcd (bcd : Z) : Z :=
  u8 (Z.shiftr (Z.land bcd 0xF0) 1 + Z.shiftr (Z.land bcd 0xF0) 3 + Z.land bcd 0xf).

(** The mode the status register B shows. *)
Definition k_dev_rtc_init (md : rtc_mode) (c : cmos) : rtc_mode * cmos :=
  let c := k_dev_cmos_nmi_disable c in
  let '(b, c) := k_dev_cmos_read c 0xB in
  (mk_mode (Z.land b 0x2) (Z.land b 0x4) (century md), k_dev_cmos_nmi_enable c).

Definition k_dev_rtc_enable_century (md : rtc_mode) : rtc_mode := mk_mode (h24 md) (bin md) 1.

Definition k_dev_rtc_gettime (md : rtc_mode) (c : cmos) : rtc_time_t * cmos :=
  let '(s, c) := k_dev_cmos_read c 0x0 in
  let '(mi, c) := k_dev_cmos_read c 0x2 in
  let '(h, c) := k_dev_cmos_read c 0x4 in
  let '(d, c) := k_dev_cmos_read c 0x7 in
  let '(mo, c) := k_dev_cmos_read c 0x8 in
  let '(y, c) := k_dev_cmos_read c 0x9 in
  let conv := if negb (truthy (bin md)) then k_dev_rtc_from_bcd else id in
  let hour := conv h in
  let hour := if negb (truthy (h24 md)) then u8 ((Z.land hour 0x7F + 12) mod 24) else hour in
  if truthy (century md) then
    let '(ce, c) := k_dev_cmos_read c 0x32 in
    (mk_rtc hour (conv mi) (conv s) (conv d) (conv mo) (u16 (conv y + conv ce * 100)), c)
  else
    (mk_rtc hour (conv mi) (conv s) (conv d) (conv mo)
      (u16 (conv y + (if conv y <? 70 then 2000 else 1900))), c).

(** ** dev/timer.c: seconds since 1970 *)

Definition IS_LEAP (y : Z) : bool :=
  negb (truthy (Z.rem y 4)) && (truthy (Z.rem y 100) || negb (truthy (Z.rem y 400))).

Definition days_in_month : list Z := [31; 28; 31; 30; 31; 30; 31; 31; 30; 31; 30; 31].

(** [for(int i = 1; i <= month; i++)]: the days added from index [i] on. *)
Fixpoint month_days (n : nat) (i y days : Z) : res Z :=
  match n with
  | O => Ok days
  | S n =>
      d ← of_option (days_in_month !! Z.to_nat (i - 1));
      let days := u64 (days + d) in
      let days := if (i =? 2) && IS_LEAP y then u64 (days + 1) else days in
      month_days n (i + 1) y days
  end.

Definition k_dev_timer_month_to_timestamp (month y : Z) : res Z :=
  days ← month_days (Z.to_nat month) 1 y 0; Ok (u64 (days * 86400)).

(** [for(int i = 1970; i < year; i++)] *)
Fixpoint year_days (n : nat) (i days : Z) : Z :=
  match n with
  | O => days
  | S n => year_days n (i + 1) (u64 (days + (if IS_LEAP i then 366 else 365)))
  end.

Definition k_dev_timer_year_to_timestamp (y : Z) : Z :=
  u64 (year_days (Z.to_nat (y - 1970)) 1970 0 * 86400).

Definition k_dev_timer_to_timestamp (t : rtc_time_t) : res Z :=
  let ls := second t in
  let lm := minute t in
  let lh := hour t in
  let ld := u64 (day t - 1) in
  let r := u64 (ls + lm * 60 + lh * 3600 + ld * 86400) in
  m ← k_dev_timer_month_to_timestamp (month t - 1) (year t);
  let r := u64 (r + m) in
  Ok (u64 (r + k_dev_timer_year_to_timestamp (year t))).

(** [time_t] is a 32-bit [long]. *)
Definition k_dev_timer_now (md : rtc_mode) (c : cmos) : res (Z * cmos) :=
  let '(t, c) := k_dev_rtc_gettime md c in
  r ← k_dev_timer_to_timestamp t; Ok (s32 r, c).

End rtc.

(** ** libc: mktime.c *)

Record tm := mk_tm { tm_sec : Z; tm_min : Z; tm_hour : Z; tm_mday : Z; tm_mon : Z; tm_year : Z }.

Definition year_is_leap (year : Z) : bool :=
  (Z.rem year 4 =? 0) && (negb (Z.rem year 100 =? 0) || (Z.rem year 400 =? 0)).

Definition tm_days_in_month (month year : Z) : Z :=
  match month with
  | 12 => 31 | 11 => 30 | 10 => 31 | 9 => 30 | 8 => 31 | 7 => 31 | 6 => 30 | 5 => 31 | 4 => 30
  | 3 => 31 | 2 => if year_is_leap year then 29 else 28 | 1 => 31
  | _ => 0
  end.

(** [while (years > 1969)]: the years left to count. *)
Fixpoint years_loop (n : nat) (years days : Z) : Z :=
  match n with
  | O => days
  | S n =>
      let days := u32 (days + 365) in
      let days := if year_is_leap years then u32 (days + 1) else days in
      years_loop n (years - 1) days
  end.

Definition secs_of_years (years : Z) : Z := u32 (years_loop (Z.to_nat (years - 1969)) years 0 * 86400).

Fixpoint months_loop (n : nat) (i year days : Z) : Z :=
  match n with
  | O => days
  | S n => months_loop n (i + 1) year (s32 (days + tm_days_in_month i year))
  end.

Definition secs_of_month (months year : Z) : Z :=
  s32 (months_loop (Z.to_nat (months - 1)) 1 year 0 * 86400).

(** The operator between the first two terms is [*] followed by a unary plus; [unsigned]
    times [long] is computed modulo 2^32. *)
Definition mktime (t : tm) : Z :=
  s32 (u32 (secs_of_years (s32 (tm_year t + 1899)) *
            secs_of_month (s32 (tm_mon t + 1)) (s32 (tm_year t + 1900)) +
            s32 ((tm_mday t - 1) * 86400) + s32 (tm_hour t * 3600) + s32 (tm_min t * 60) + tm_sec t)).

(** ** libc: udivmoddi4.c *)

(** [while ( (int64_t)den >= 0 )] *)
Fixpoint udiv_justify (fuel : nat) (den qbit : Z) : res (Z * Z) :=
  match fuel with
  | O => OutOfFuel
  | S f =>
      if 0 <=? s64 den then udiv_justify f (u64 (Z.shiftl den 1)) (u64 (Z.shiftl qbit 1))
      else Ok (den, qbit)
  end.

(** [while ( qbit )] *)
Fixpoint udiv_subtract (fuel : nat) (num den qbit quot : Z) : res (Z * Z) :=
  match fuel with
  | O => OutOfFuel
  | S f =>
      if truthy qbit then
        let '(num, quot) :=
          if den <=? num then (u64 (num - den), u64 (quot + qbit)) else (num, quot) in
        udiv_subtract f num (Z.shiftr den 1) (Z.shiftr qbit 1) quot
      else Ok (quot, num)
  end.

(** The quotient and the remainder; the division by zero is a trap. *)
Definition udivmoddi4 (fuel : nat) (num den : Z) : res (Z * Z) :=
  if den =? 0 then Fault
  else
    '(den, qbit) ← udiv_justify fuel den 1;
    udiv_subtract fuel num den qbit 0.

(** ** The calendar *)

Record date := mk_date { d_year : Z; d_month : Z; d_day : Z }.

(** The Gregorian rule and the length of a month. *)
Definition leap (y : Z) : Prop := (4 | y) ∧ (¬ (100 | y) ∨ (400 | y)).

#[export] Instance leap_dec y : Decision (leap y).
Proof.
  refine (cast_if (decide (y mod 4 = 0 ∧ (y mod 100 ≠ 0 ∨ y mod 400 = 0))));
    unfold leap; rewrite <- !Z.mod_divide by done; tauto.
Defined.

Definition month_length (y m : Z) : Z :=
  if decide (m = 2) then (if decide (leap y) then 29 else 28)
  else if decide (m ∈ [4; 6; 9; 11]) then 30 else 31.

Definition next_day (d : date) : date :=
  if d_day d <? month_length (d_year d) (d_month d) then mk_date (d_year d) (d_month d) (d_day d + 1)
  else if d_month d <? 12 then mk_date (d_year d) (d_month d + 1) 1
  else mk_date (d_year d + 1) 1 1.

(** The date [n] days after the first of January 1970. *)
Definition date_after (n : nat) : date := Nat.iter n next_day (mk_date 1970 1 1).

(** ** Lemmas *)

Lemma IS_LEAP_spec y : 0 ≤ y → IS_LEAP y = bool_decide (leap y).
Proof.
  intros Hy. unfold IS_LEAP, leap. rewrite !Z.rem_mod_nonneg by lia.
  apply Bool.eq_iff_eq_true. rewrite bool_decide_eq_true, <- !Z.mod_divide by done.
  rewrite andb_true_iff, orb_true_iff, !negb_true_iff, truthy_true, !truthy_false. tauto.
Qed.

Definition year_length (y : Z) : Z := if decide (leap y) then 366 else 365.

(** Days before a year, counted from 1970, and before a month of a year. *)
Fixpoint days_before_year (n : nat) : Z :=
  match n with O => 0 | S n => days_before_year n + year_length (1970 + Z.of_nat n) end.

Fixpoint days_before_month (n : nat) (y : Z) : Z :=
  match n with O => 0 | S n => days_before_month n y + month_length y (1 + Z.of_nat n) end.

Lemma year_length_range y : 365 ≤ year_length y ≤ 366.
Proof. unfold year_length. case_decide; lia. Qed.

Lemma days_before_year_range n : 0 ≤ days_before_year n ≤ 366 * Z.of_nat n.
Proof.
  induction n as [|n IH]; cbn [days_before_year]; [lia|].
  pose proof (year_length_range (1970 + Z.of_nat n)). lia.
Qed.

Lemma year_length_bool y : year_length y = if bool_decide (leap y) then 366 else 365.
Proof. unfold year_length. case_bool_decide; by case_decide. Qed.

Lemma year_days_ok n k :
  (n + k < Z.to_nat 0x10000)%nat →
  year_days n (1970 + Z.of_nat k) (days_before_year k) = days_before_year (n + k).
Proof.
  revert k. induction n as [|n IH]; intros k Hn; cbn [year_days]; [done|].
  rewrite IS_LEAP_spec by lia.
  rewrite <- year_length_bool.
  pose proof (days_before_year_range k). pose proof (year_length_range (1970 + Z.of_nat k)).
  rewrite u64_small by lia.
  replace (1970 + Z.of_nat k + 1) with (1970 + Z.of_nat (S k)) by lia.
  change (days_before_year k + year_length (1970 + Z.of_nat k)) with (days_before_year (S k)).
  rewrite IH by lia. f_equal. lia.
Qed.

Lemma month_length_range y m : 28 ≤ month_length y m ≤ 31.
Proof. unfold month_length. repeat case_decide; lia. Qed.

Lemma days_before_month_range n y : 0 ≤ days_before_month n y ≤ 31 * Z.of_nat n.
Proof.
  induction n as [|n IH]; cbn [days_before_month]; [lia|].
  pose proof (month_length_range y (1 + Z.of_nat n)). lia.
Qed.

(** The table with the correction for February is the length of the month. *)
Lemma month_length_table y k :
  0 ≤ y → (k < 12)%nat →
  ∃ d, days_in_month !! k = Some d ∧ 28 ≤ d ≤ 31 ∧
    month_length y (1 + Z.of_nat k) = d + (if (1 + Z.of_nat k =? 2) && IS_LEAP y then 1 else 0).
Proof.
  intros Hy Hk. rewrite IS_LEAP_spec by done.
  destruct (decide (k = 1%nat)) as [->|Hk1].
  { exists 28. split; [done|]. split; [lia|].
    change (month_length y (1 + Z.of_nat 1)) with (if decide (leap y) then 29 else 28).
    change (1 + Z.of_nat 1 =? 2) with true. cbn [andb]. case_bool_decide; by case_decide. }
  do 12 (destruct k as [|k]; [eexists; split; [reflexivity|]; split; [lia|]; (done || reflexivity)|]). lia.
Qed.

Lemma month_days_ok n k y :
  0 ≤ y → (n + k ≤ 12)%nat →
  month_days n (1 + Z.of_nat k) y (days_before_month k y) = Ok (days_before_month (n + k) y).
Proof.
  intros Hy. revert k. induction n as [|n IH]; intros k Hn; cbn [month_days]; [done|].
  destruct (month_length_table y k) as (d & Hd & Hr & Hm); [done|lia|].
  replace (Z.to_nat (1 + Z.of_nat k - 1)) with k by lia. rewrite Hd. cbn [of_option]. rewrite bind_ok.
  pose proof (days_before_month_range k y).
  rewrite (u64_small (days_before_month k y + d)) by lia.
  replace (if _ && _ then u64 _ else _) with (days_before_month (S k) y).
  - replace (1 + Z.of_nat k + 1) with (1 + Z.of_nat (S k)) by lia. rewrite IH by lia. do 2 f_equal. lia.
  - cbn [days_before_month]. rewrite Hm. case_if; [rewrite u64_small by lia|]; lia.
Qed.

(** The number of days before a date. *)
Definition day_number (d : date) : Z :=
  days_before_year (Z.to_nat (d_year d - 1970)) + days_before_month (Z.to_nat (d_month d - 1)) (d_year d) +
  (d_day d - 1).

Definition valid_date (d : date) : Prop :=
  1970 ≤ d_year d ∧ 1 ≤ d_month d ≤ 12 ∧ 1 ≤ d_day d ≤ month_length (d_year d) (d_month d).

(** The seconds of a date and a time of day. *)
Lemma to_timestamp_ok h mi s y mo dd :
  valid_date (mk_date y mo dd) → y < 2 ^ 16 → 0 ≤ h < 24 → 0 ≤ mi < 60 → 0 ≤ s < 60 →
  k_dev_timer_to_timestamp (mk_rtc h mi s dd mo y) =
    Ok (day_number (mk_date y mo dd) * 86400 + h * 3600 + mi * 60 + s).
Proof.
  intros (Hy & Hm & Hd) Hy2 Hh Hmi Hs. cbn [d_year d_month d_day] in *.
  pose proof (month_length_range y mo). unfold k_dev_timer_to_timestamp. cbn [second minute hour day month year].
  unfold k_dev_timer_month_to_timestamp, k_dev_timer_year_to_timestamp.
  assert (HM : month_days (Z.to_nat (mo - 1)) 1 y 0 = Ok (days_before_month (Z.to_nat (mo - 1)) y)).
  { rewrite <- (Nat.add_0_r (Z.to_nat (mo - 1))) at 2. apply (month_days_ok _ 0 y); lia. }
  assert (HY : year_days (Z.to_nat (y - 1970)) 1970 0 = days_before_year (Z.to_nat (y - 1970))).
  { rewrite <- (Nat.add_0_r (Z.to_nat (y - 1970))) at 2. apply (year_days_ok _ 0). lia. }
  rewrite HM, HY, !bind_ok.
  pose proof (days_before_month_range (Z.to_nat (mo - 1)) y).
  pose proof (days_before_year_range (Z.to_nat (y - 1970))).
  unfold day_number. cbn [d_year d_month d_day].
  rewrite (u64_small (dd - 1)) by lia. rewrite (u64_small (s + _ + _ + _)) by lia.
  rewrite (u64_small (days_before_month _ _ * _)), (u64_small (days_before_year _ * _)) by lia.
  rewrite (u64_small (s + _ + _ + _ + _)) by lia. rewrite u64_small by lia. f_equal. lia.
Qed.

Lemma next_day_valid d : valid_date d → valid_date (next_day d).
Proof.
  intros (Hy & Hm & Hd). unfold next_day, valid_date. repeat case_if; cbn [d_year d_month d_day].
  - lia.
  - pose proof (month_length_range (d_year d) (d_month d + 1)). lia.
  - pose proof (month_length_range (d_year d + 1) 1). lia.
Qed.

Lemma days_before_month_S n y :
  days_before_month (S n) y = days_before_month n y + month_length y (1 + Z.of_nat n).
Proof. done. Qed.

(** A year is as long as its months. *)
Lemma days_before_month_12 y : days_before_month 12 y = year_length y.
Proof.
  unfold year_length. cbn [days_before_month].
  repeat match goal with |- context [month_length y (1 + Z.of_nat ?k)] =>
    first [change (month_length y (1 + Z.of_nat k)) with 31
          |change (month_length y (1 + Z.of_nat k)) with 30
          |change (month_length y (1 + Z.of_nat k)) with (if decide (leap y) then 29 else 28)] end.
  case_decide; lia.
Qed.

Lemma day_number_next d : valid_date d → day_number (next_day d) = day_number d + 1.
Proof.
  intros (Hy & Hm & Hd). unfold next_day, day_number. repeat case_if; cbn [d_year d_month d_day].
  - lia.
  - replace (Z.to_nat (d_month d + 1 - 1)) with (S (Z.to_nat (d_month d - 1))) by lia.
    cbn [days_before_month]. replace (1 + Z.of_nat (Z.to_nat (d_month d - 1))) with (d_month d) by lia. lia.
  - replace (Z.to_nat (d_year d + 1 - 1970)) with (S (Z.to_nat (d_year d - 1970))) by lia.
    cbn [days_before_year]. replace (1970 + Z.of_nat (Z.to_nat (d_year d - 1970))) with (d_year d) by lia.
    rewrite <- days_before_month_12, (days_before_month_S 11).
    assert (d_month d = 12) as Hm12 by lia. rewrite Hm12 in *.
    change (Z.to_nat (12 - 1)) with 11%nat. change (Z.to_nat (1 - 1)) with 0%nat. change (days_before_month 0 _) with 0.
    change (1 + Z.of_nat 11) with 12.
lia.
Qed.

Lemma date_after_spec n : valid_date (date_after n) ∧ day_number (date_after n) = Z.of_nat n.
Proof.
  induction n as [|n [Hv Hn]]; [split; [|done]|].
  - split; cbn; [lia|]. split; [lia|]. change (month_length 1970 1) with 31. lia.
  - change (date_after (S n)) with (next_day (date_after n)).
    split; [by apply next_day_valid|]. rewrite day_number_next by done. lia.
Qed.

(** ** Seconds since 1970 *)

(** C37: The kernel's timestamp of the date [n] days after 1970-01-01, at a time of that day,
    is 86400 seconds per day and the seconds of the time. *)
Theorem timestamp_counts_days n h mi s :
  let d := date_after n in
  d_year d < 2 ^ 16 → 0 ≤ h < 24 → 0 ≤ mi < 60 → 0 ≤ s < 60 →
  k_dev_timer_to_timestamp (mk_rtc h mi s (d_day d) (d_month d) (d_year d)) =
    Ok (86400 * Z.of_nat n + 3600 * h + 60 * mi + s).
Proof.
  intros d Hy Hh Hm Hs. destruct (date_after_spec n) as [Hv Hn]. fold d in Hv, Hn.
  rewrite to_timestamp_ok by done.
  f_equal. destruct d as [y mo dd]. cbn [d_year d_month d_day] in *. rewrite Hn. lia.
Qed.

(** ** The registers of the chip *)

Definition bcd (n : Z) : Z := n / 10 * 16 + n mod 10.

Lemma from_bcd_ok n : 0 ≤ n < 100 → k_dev_rtc_from_bcd (bcd n) = n.
Proof.
  intros Hn. assert (Hin : n ∈ seqZ 0 100) by (apply elem_of_seqZ; lia).
  assert (Hall : Forall (λ n, k_dev_rtc_from_bcd (bcd n) = n) (seqZ 0 100)) by (by repeat constructor).
  by rewrite Forall_forall in Hall; apply Hall.
Qed.

Section chip.
Context (registers : Z → Z).

Lemma cmos_read_ok c r :
  nmi_enabled c = 0 ∨ nmi_enabled c = 1 → 0 ≤ r < 128 →
  ∃ p, k_dev_cmos_read registers c r = (registers r, mk_cmos p (nmi_enabled c)).
Proof.
  intros Hn Hr. unfold k_dev_cmos_read, k_dev_cmos_select_register. cbn zeta. cbn [port70].
  assert (Hm : Z.land (u8 (Z.lor (Z.shiftl (nmi_enabled c) 7) r)) 0x7F = r).
  { assert (Hlow : Z.land r 0x7F = r) by (change 0x7F with (Z.ones 7); rewrite Z.land_ones by lia; by apply Z.mod_small).
    unfold u8. rewrite <- Z.land_ones by lia. rewrite <- Z.land_assoc. change (Z.land (Z.ones 8) 0x7F) with 0x7F.
    rewrite Z.land_lor_distr_l, Hlow. by destruct Hn as [-> | ->]. }
  rewrite Hm. by eexists.
Qed.

Ltac cmos_reads :=
  repeat match goal with |- context [k_dev_cmos_read registers ?x ?r] =>
    let p := fresh "p" in
    destruct (cmos_read_ok x r) as [p ->]; [done|lia|cbn [nmi_enabled]]
  end.

(** The registers show a time in binary coded decimal, 24-hour format, with a century. *)
Record shows (h mi s dd mo y : Z) : Prop := {
  sh_s : registers 0x0 = bcd s; sh_mi : registers 0x2 = bcd mi; sh_h : registers 0x4 = bcd h;
  sh_d : registers 0x7 = bcd dd; sh_mo : registers 0x8 = bcd mo;
  sh_y : registers 0x9 = bcd (y mod 100); sh_c : registers 0x32 = bcd (y / 100)
}.

(** A time the chip shows in the usual format is read back as it is. *)
Theorem rtc_reads_shown md c h mi s dd mo y :
  shows h mi s dd mo y → truthy (h24 md) = true → bin md = 0 → truthy (century md) = true →
  nmi_enabled c = 0 ∨ nmi_enabled c = 1 →
  0 ≤ h < 24 → 0 ≤ mi < 60 → 0 ≤ s < 60 → 1 ≤ dd ≤ 31 → 1 ≤ mo ≤ 12 → 0 ≤ y < 10000 →
  ∃ c', k_dev_rtc_gettime registers md c = (mk_rtc h mi s dd mo y, c').
Proof.
  intros [Rs Rmi Rh Rd Rmo Ry Rc] Hh24 Hbin Hcen Hn Hh Hmi Hs Hd Hmo Hy. unfold k_dev_rtc_gettime.
  cmos_reads.
  rewrite Hh24, Hbin, Hcen, Rs, Rmi, Rh, Rd, Rmo, Ry, Rc. cbn [truthy Z.eqb negb].
  pose proof (Z.mod_pos_bound y 100). pose proof (Z.div_mod y 100).
  rewrite !from_bcd_ok by (lia || (split; [apply Z.div_pos|apply Z.div_lt_upper_bound]; lia)).
  eexists. f_equal. f_equal. unfold u16. rewrite Z.mod_small by lia. lia.
Qed.

(** In 12-hour format the hours before noon are read as hours after noon. *)
Theorem rtc_am_read_as_pm md c h t c' :
  registers 0x4 = bcd h → 0 < h < 12 → h24 md = 0 → bin md = 0 →
  nmi_enabled c = 0 ∨ nmi_enabled c = 1 →
  k_dev_rtc_gettime registers md c = (t, c') → hour t = h + 12.
Proof.
  intros Rh Hh Hh24 Hbin Hn. unfold k_dev_rtc_gettime.
  cmos_reads.
  rewrite Rh, Hh24, Hbin. cbn [truthy Z.eqb negb]. rewrite from_bcd_ok by lia.
  intros Ht. assert (Hhour : hour t = u8 ((Z.land h 0x7F + 12) mod 24)).
  { repeat case_match; simplify_eq; done. }
  rewrite Hhour. change 0x7F with (Z.ones 7). rewrite Z.land_ones by lia.
  rewrite (Z.mod_small h), Z.mod_small, u8_small by lia. lia.
Qed.

(** From January 2038 on the current time is negative. *)
Theorem now_overflows md c n h mi s t c' :
  let d := date_after n in
  k_dev_rtc_gettime registers md c = (mk_rtc h mi s (d_day d) (d_month d) (d_year d), c') →
  0 ≤ h < 24 → 0 ≤ mi < 60 → 0 ≤ s < 60 → 24856 ≤ Z.of_nat n < 49710 →
  d_year d < 2 ^ 16 →
  k_dev_timer_now registers md c = Ok (t, c') → t < 0.
Proof.
  intros d Hg Hh Hmi Hs Hn Hy. unfold k_dev_timer_now. rewrite Hg.
  destruct (date_after_spec n) as [Hv Hnum]. fold d in Hv, Hnum.
  rewrite to_timestamp_ok, bind_ok by done.
  assert (Hd : day_number (mk_date (d_year d) (d_month d) (d_day d)) = Z.of_nat n) by (by destruct d).
  rewrite Hd. intros [= <-]. unfold s32.
  replace (Z.of_nat n * 86400 + h * 3600 + mi * 60 + s + 2 ^ 31)
    with (Z.of_nat n * 86400 + h * 3600 + mi * 60 + s - 2 ^ 31 + 1 * 2 ^ 32) by lia.
  rewrite Z_mod_plus_full, Z.mod_small by lia. lia.
Qed.
End chip.

(** ** mktime *)

(** In January the year does not count: the seconds of the years are multiplied by
    those of the months before. *)
Theorem mktime_forgets_year t y :
  tm_mon t = 0 → 
  mktime (mk_tm (tm_sec t) (tm_min t) (tm_hour t) (tm_mday t) 0 y) = mktime t.
Proof.
  intros Hm. unfold mktime. cbn [tm_sec tm_min tm_hour tm_mday tm_mon tm_year]. rewrite Hm.
  assert (H0 : ∀ y, secs_of_month (s32 (0 + 1)) y = 0) by (intros; reflexivity).
  by rewrite !H0, !Z.mul_0_r.
Qed.

(** ** Division *)

Section division.
Context (den : Z) (Hden : 0 < den < 2 ^ 64).

Lemma s64_sign x : 0 ≤ x < 2 ^ 64 → (0 <=? s64 x) = (x <? 2 ^ 63).
Proof.
  intros Hx. unfold s64. apply Bool.eq_iff_eq_true. rewrite Z.leb_le, Z.ltb_lt.
  destruct (Z.lt_ge_cases x (2 ^ 63)) as [H|H].
  - rewrite Z.mod_small by lia. lia.
  - replace (x + 2 ^ 63) with (x - 2 ^ 63 + 1 * 2 ^ 64) by lia.
    rewrite Z_mod_plus_full, Z.mod_small by lia. lia.
Qed.

Lemma udiv_justify_ok n k fuel :
  (n < fuel)%nat → den * 2 ^ Z.of_nat k < 2 ^ 64 → 2 ^ 64 ≤ den * 2 ^ Z.of_nat (k + n) →
  ∃ j, udiv_justify fuel (den * 2 ^ Z.of_nat k) (2 ^ Z.of_nat k) =
      Ok (den * 2 ^ Z.of_nat j, 2 ^ Z.of_nat j) ∧
    2 ^ 63 ≤ den * 2 ^ Z.of_nat j < 2 ^ 64 ∧ (j < k + n)%nat.
Proof.
  revert k fuel. induction n as [|n IH]; intros k fuel Hf Hk Hkn; [rewrite Nat.add_0_r in Hkn; lia|].
  destruct fuel as [|fuel]; [lia|].
  assert (Hp : 0 < 2 ^ Z.of_nat k) by (apply Z.pow_pos_nonneg; lia).
  cbn [udiv_justify]. rewrite s64_sign by nia.
  destruct (Z.ltb_spec (den * 2 ^ Z.of_nat k) (2 ^ 63)) as [Hlt|Hge].
  - assert (HS : 2 ^ Z.of_nat (S k) = 2 * 2 ^ Z.of_nat k) by (rewrite Nat2Z.inj_succ, Z.pow_succ_r; lia).
    rewrite !Z.shiftl_mul_pow2 by lia. change (2 ^ 1) with 2.
    rewrite (u64_small (den * _ * 2)) by nia. rewrite (u64_small (2 ^ Z.of_nat k * 2)) by nia.
    replace (den * 2 ^ Z.of_nat k * 2) with (den * 2 ^ Z.of_nat (S k)) by lia.
    replace (2 ^ Z.of_nat k * 2) with (2 ^ Z.of_nat (S k)) by lia.
    destruct (IH (S k) fuel) as (j & Hj & Hr & Hl).
    + lia.
    + lia.
    + by replace (S k + n)%nat with (k + S n)%nat by lia.
    + exists j. split; [exact Hj|]. split; [done|lia].
  - exists k. split; [done|]. split; [lia|]. destruct n; [|lia].
    rewrite Nat.add_1_r, Nat2Z.inj_succ, Z.pow_succ_r in Hkn by lia. lia.
Qed.

Lemma udiv_subtract_ok k num quot fuel :
  (k + 2 ≤ fuel)%nat →
  0 ≤ num < 2 * (den * 2 ^ Z.of_nat k) → den * 2 ^ Z.of_nat k < 2 ^ 64 → num < 2 ^ 64 →
  0 ≤ quot → quot + 2 * 2 ^ Z.of_nat k ≤ 2 ^ 64 →
  udiv_subtract fuel num (den * 2 ^ Z.of_nat k) (2 ^ Z.of_nat k) quot =
    Ok (quot + num / den, num mod den).
Proof.
  revert num quot fuel. induction k as [|k IH]; intros num quot fuel Hf Hn Hd Hn2 Hq Hq2;
    (destruct fuel as [|fuel]; [lia|]).
  - destruct fuel as [|fuel]; [lia|]. change (2 ^ Z.of_nat 0) with 1 in *. rewrite Z.mul_1_r in *. cbn [udiv_subtract truthy Z.eqb negb].
    destruct (Z.leb_spec den num) as [Hle|Hgt]; cbn [Z.shiftr Z.shiftl Z.div2 Z.opp Pos.iter Z.eqb negb].
    + rewrite <- (Z.div_unique num den 1 (num - den)), <- (Z.mod_unique num den 1 (num - den)) by lia.
      by rewrite (u64_small (num - den)), (u64_small (quot + 1)) by lia.
    + rewrite Z.div_small, Z.mod_small by lia. f_equal. f_equal. lia.
  - assert (HS : 2 ^ Z.of_nat (S k) = 2 * 2 ^ Z.of_nat k) by (rewrite Nat2Z.inj_succ, Z.pow_succ_r; lia).
    assert (Hp : 0 < 2 ^ Z.of_nat k) by (apply Z.pow_pos_nonneg; lia).
    rewrite HS in *. set (p := 2 ^ Z.of_nat k) in *.
    cbn [udiv_subtract].
    rewrite (proj2 (truthy_true (2 * p))) by lia.
    rewrite !Z.shiftr_div_pow2 by lia. change (2 ^ 1) with 2.
    replace (den * (2 * p) / 2) with (den * p) by (rewrite <- (Z.div_mul (den * p) 2) by lia; f_equal; lia).
    replace (2 * p / 2) with p by (rewrite <- (Z.div_mul p 2) at 1 by lia; f_equal; lia).
    destruct (Z.leb_spec (den * (2 * p)) num) as [Hle|Hgt].
    + rewrite !u64_small by lia. rewrite IH by lia. f_equal.
      replace (num - den * (2 * p)) with (num + - (2 * p) * den) by lia.
      rewrite Z.div_add, Z.mod_add by lia. f_equal. lia.
    + rewrite IH by lia. done.
Qed.
End division.

(** The shift-and-subtract division returns quotient and remainder of every pair of
    64-bit numbers with a non-zero divisor. *)
Theorem udivmoddi4_correct num den fuel :
  0 ≤ num < 2 ^ 64 → 0 < den < 2 ^ 64 → (66 ≤ fuel)%nat →
  udivmoddi4 fuel num den = Ok (num / den, num mod den).
Proof.
  intros Hn Hd Hf. unfold udivmoddi4. rewrite (proj2 (Z.eqb_neq den 0)) by lia.
  pose proof (udiv_justify_ok den Hd 64 0 fuel) as Hj. cbn [Nat.add] in Hj.
  change (2 ^ Z.of_nat 0) with 1 in Hj. rewrite Z.mul_1_r in Hj.
  destruct Hj as (j & -> & Hr & Hl); [lia|lia|nia|]. rewrite bind_ok.
  assert (Hp : 2 * 2 ^ Z.of_nat j ≤ 2 ^ 64).
  { rewrite <- Z.pow_succ_r by lia. apply Z.pow_le_mono_r; lia. }
  rewrite (udiv_subtract_ok den Hd) by lia. done.
Qed.

(** ** Examples *)

(** 29 February 2000, 12:30:15. *)
Lemma timestamp_counts_days_witness :
  k_dev_timer_to_timestamp (mk_rtc 12 30 15 29 2 2000) = Ok 951827415.
Proof.
  pose proof (timestamp_counts_days (Z.to_nat 11016) 12 30 15) as H. cbn zeta in H.
  assert (Hd : date_after (Z.to_nat 11016) = mk_date 2000 2 29) by by vm_compute.
  rewrite Hd in H. cbn [d_year d_month d_day] in H. rewrite H by lia. by vm_compute.
Defined.

(** The chip at 21:05:59 on 31 December 2023. *)
Definition demo_registers (r : Z) : Z :=
  if r =? 0 then bcd 59 else if r =? 2 then bcd 5 else if r =? 4 then bcd 21 else if r =? 7 then bcd 31
  else if r =? 8 then bcd 12 else if r =? 9 then bcd 23 else if r =? 0x32 then bcd 20 else 0.

Lemma rtc_reads_shown_witness :
  ∃ c', k_dev_rtc_gettime demo_registers (mk_mode 2 0 1) (mk_cmos 0 1) = (mk_rtc 21 5 59 31 12 2023, c').
Proof. apply rtc_reads_shown; try done; try lia; by right. Defined.

Lemma rtc_am_read_as_pm_witness :
  ∃ t c', k_dev_rtc_gettime (λ _, bcd 9) (mk_mode 0 0 0) (mk_cmos 0 1) = (t, c') ∧ hour t = 21.
Proof.
  destruct (k_dev_rtc_gettime (λ _, bcd 9) (mk_mode 0 0 0) (mk_cmos 0 1)) as [t c'] eqn:E.
  exists t, c'. split; [done|].
  apply (rtc_am_read_as_pm (λ _, bcd 9) (mk_mode 0 0 0) (mk_cmos 0 1) 9 t c'); try done; by right.
Defined.

(** 1 February 2038. *)
Definition registers_2038 (r : Z) : Z :=
  if r =? 7 then bcd 1 else if r =? 8 then bcd 2 else if r =? 9 then bcd 38
  else if r =? 0x32 then bcd 20 else 0.

Lemma now_overflows_witness :
  ∃ t c', k_dev_timer_now registers_2038 (mk_mode 2 0 1) (mk_cmos 0 1) = Ok (t, c') ∧ t < 0.
Proof.
  assert (Hd : date_after (Z.to_nat 24868) = mk_date 2038 2 1) by by vm_compute.
  pose proof (now_overflows registers_2038 (mk_mode 2 0 1) (mk_cmos 0 1) (Z.to_nat 24868) 0 0 0) as H.
  cbn zeta in H. rewrite Hd in H. cbn [d_year d_month d_day] in H.
  do 2 eexists. split; [vm_compute; reflexivity|].
  eapply H; [vm_compute; reflexivity|lia..|vm_compute; reflexivity].
Defined.

Lemma mktime_forgets_year_witness :
  mktime (mk_tm 0 0 0 1 0 70) = mktime (mk_tm 0 0 0 1 0 124).
Proof. apply (mktime_forgets_year (mk_tm 0 0 0 1 0 124) 70). done. Defined.

Lemma udivmoddi4_correct_witness :
  udivmoddi4 66 (2 ^ 63 + 5) 10 = Ok (922337203685477581, 3).
Proof. by rewrite udivmoddi4_correct by lia. Defined.
