(* ===== verification/Env.v ===== *)
(** * libc/src/stdlib/env.c: the environment of a process

    [environ] is the array of the addresses of the strings, ended by a null
    pointer; [_envc] is the size of the array.  The strings live in byte memory. *)

From S2P Require Import Prelude CMem CString CStringFacts CText CTextFacts.

Record env := mk_env { e_mem : mem; environ : list Z; _envc : Z }.

Definition EQUALS : Z := 61.

(** The loop of [getenv] over the cells of [environ] from one on; the address of the value. *)
Fixpoint getenv_loop (fuel : nat) (m : mem) (name len : Z) (cells : list Z) : res Z :=
  match cells with
  | [] => Fault
  | t :: cells =>
      if truthy t then
        p ← strstr fuel m t name;
        if p =? t then
          c ← load m (t + len);
          if c =? EQUALS then Ok (t + len + 1) else getenv_loop fuel m name len cells
        else getenv_loop fuel m name len cells
      else Ok 0
  end.

Definition getenv (fuel : nat) (e : env) (name : Z) : res Z :=
  len ← strlen fuel (e_mem e) name;
  getenv_loop fuel (e_mem e) name len (environ e).

(** [environ[i] = p] *)
Definition set_cell (cells : list Z) (i : Z) (p : Z) : res (list Z) :=
  if (0 <=? i) && (i <? Z.of_nat (length cells)) then Ok (<[Z.to_nat i := p]> cells) else Fault.

(** The loop of [putenv]: the index of the cell to replace ([inl]) or the index where it ended. *)
Fixpoint putenv_loop (fuel : nat) (m : mem) (envc name s : Z) (cells : list Z) (i : Z) : res (Z + Z) :=
  if i <? envc - 1 then
    match cells with
    | [] => Fault
    | t :: cells =>
        if truthy t then
          p ← strnstr fuel m name t s;
          if negb (truthy p) then
            c ← load m (t + s);
            if c =? EQUALS then Ok (inl i) else putenv_loop fuel m envc name s cells (i + 1)
          else putenv_loop fuel m envc name s cells (i + 1)
        else Ok (inr i)
    end
  else Ok (inr i).

(** [while (j < _new_envc && environ[j])]: the cells copied. *)
Fixpoint copy_cells (n : nat) (cells : list Z) : res (list Z) :=
  match n with
  | O => Ok []
  | S n =>
      match cells with
      | [] => Fault
      | t :: cells => if truthy t then l ← copy_cells n cells; Ok (t :: l) else Ok []
      end
  end.

(** The array of twice the size; the rest of it is null. *)
Definition grow_env (e : env) : res env :=
  let new_envc := s32 (_envc e * 2) in
  l ← copy_cells (Z.to_nat new_envc) (environ e);
  Ok (mk_env (e_mem e) (l ++ replicate (Z.to_nat new_envc - length l) 0) new_envc).

(** [local] is the address of the array [name] on the stack. *)
Definition putenv (fuel : nat) (local : Z) (e : env) (string : Z) : res (Z * env) :=
  '(_, m) ← strcpy fuel (e_mem e) local string;
  c ← strchr fuel m local EQUALS;
  if negb (truthy c) then Ok (1, mk_env m (environ e) (_envc e))
  else
    m ← store m c 0;
    let e := mk_env m (environ e) (_envc e) in
    s ← strlen fuel m local;
    r ← putenv_loop fuel m (_envc e) local s (environ e) 0;
    match r with
    | inl i =>
        cells ← set_cell (environ e) i string; Ok (0, mk_env m cells (_envc e))
    | inr i =>
        e ← (if i =? _envc e - 1 then grow_env e else Ok e);
        cells ← set_cell (environ e) i string; Ok (0, mk_env (e_mem e) cells (_envc e))
    end.

Section allocation.
Context (malloc : Z → mem → res (Z * mem)).

(** [equals] is the address of the literal string of an equals sign. *)
Definition setenv (fuel : nat) (local equals : Z) (e : env) (name value overwrite : Z) : res (Z * env) :=
  keep ← (if negb (truthy overwrite) then
            tmp ← getenv fuel e name; Ok (truthy tmp)
          else Ok false);
  if (keep : bool) then Ok (0, e)
  else
    l1 ← strlen fuel (e_mem e) name;
    l2 ← strlen fuel (e_mem e) value;
    '(tmp, m) ← malloc (u32 (l1 + l2 + 2)) (e_mem e);
    m ← store m tmp 0;
    '(_, m) ← strcat fuel m tmp name;
    '(_, m) ← strcat fuel m tmp equals;
    '(_, m) ← strcat fuel m tmp value;
    putenv fuel local (mk_env m (environ e) (_envc e)) tmp.
End allocation.

(** The loop of [unsetenv]: [found_index] and [last_index]. *)
Fixpoint unsetenv_loop (fuel : nat) (m : mem) (str len : Z) (cells : list Z) (i found last : Z) : res (Z * Z) :=
  match cells with
  | [] => Fault
  | t :: cells =>
      if truthy t then
        found ← (if found =? -1 then
                   p ← strstr fuel m t str;
                   if p =? t then
                     c ← load m (t + len);
                     if c =? EQUALS then Ok i else Ok found
                   else Ok found
                 else Ok found);
        unsetenv_loop fuel m str len cells (i + 1) found i
      else Ok (found, last)
  end.

Definition unsetenv (fuel : nat) (e : env) (str : Z) : res (Z * env) :=
  len ← strlen fuel (e_mem e) str;
  '(found, last) ← unsetenv_loop fuel (e_mem e) str len (environ e) 0 (-1) (-1);
  if found =? -1 then Ok (0, e)
  else if last =? found then
    cells ← set_cell (environ e) last 0; Ok (0, mk_env (e_mem e) cells (_envc e))
  else
    p ← of_option (environ e !! Z.to_nat last);
    cells ← set_cell (environ e) found p;
    cells ← set_cell cells last 0;
    Ok (0, mk_env (e_mem e) cells (_envc e)).

(** ** Strings found at the front of others *)

Lemma starts_with_cons d t c s : starts_with (d :: t) (c :: s) = (c =? d) && starts_with t s.
Proof.
  unfold starts_with. cbn [length take]. apply Bool.eq_iff_eq_true.
  rewrite andb_true_iff, !bool_decide_eq_true, Z.eqb_eq. split; [by intros [= -> ->]|by intros [-> ->]].
Qed.

Lemma starts_with_snoc t c s :
  starts_with (t ++ [c]) s = true ↔ starts_with t s = true ∧ s !! length t = Some c.
Proof.
  revert s. induction t as [|d t IH]; intros s; cbn [app length].
  - unfold starts_with at 2. rewrite bool_decide_eq_true_2 by done. destruct s as [|x s];
      [split; [by intros ?%bool_decide_eq_true|by intros [_ ?]]|].
    rewrite starts_with_cons, andb_true_iff, Z.eqb_eq. cbn. split; [intros [-> _]; done|].
    intros [_ [= ->]]. split; [done|]. by apply bool_decide_eq_true_2.
  - destruct s as [|x s]; [split; [by intros ?%bool_decide_eq_true|by intros [?%bool_decide_eq_true _]]|].
    rewrite !starts_with_cons, !andb_true_iff, IH. cbn [lookup list_lookup]. tauto.
Qed.

(** [strstr] answers the string itself exactly for a prefix. *)
Lemma strstr_prefix fuel m p q s t :
  cstr m p s → cstr m q t → 0 < p → (length s < fuel)%nat → (length t < fuel)%nat →
  ∃ r, strstr fuel m p q = Ok r ∧ (r =? p) = starts_with t s.
Proof.
  intros Hs Ht Hp Hf1 Hf2. unfold strstr. destruct t as [|d t].
  - apply cstr_nil in Ht. rewrite (load_ok _ _ _ Ht), bind_ok. exists p. split; [done|].
    rewrite Z.eqb_refl. symmetry. by apply bool_decide_eq_true_2.
  - apply cstr_cons in Ht as Ht'. destruct Ht' as (Hd & H0 & _).
    rewrite (load_ok _ _ _ H0), bind_ok, (proj2 (Z.eqb_neq d 0)) by lia.
    destruct (strstr_loop_ok m p q s (d :: t) fuel fuel Hs Ht) as [(i & _ & -> & Hi & Hj)|[-> Hn]]; try done.
    + exists (p + Z.of_nat i). split; [done|]. destruct i as [|i].
      * rewrite Z.add_0_r, Z.eqb_refl. by rewrite <- Hi.
      * rewrite (proj2 (Z.eqb_neq _ _)) by lia. symmetry. apply (Hj 0%nat). lia.
    + exists 0. split; [done|]. rewrite (proj2 (Z.eqb_neq _ _)) by lia. symmetry. apply (Hn 0%nat).
Qed.

(** The character of a string at an index up to its end. *)
Lemma load_char m p s i :
  cstr m p s → (i ≤ length s)%nat → load m (p + Z.of_nat i) = Ok (default 0 (s !! i)).
Proof.
  intros [_ Hb] Hi. apply load_ok, Hb. destruct (decide (i = length s)) as [->|].
  - rewrite (lookup_ge_None_2 s) by lia. rewrite lookup_app_r, Nat.sub_diag by lia. done.
  - destruct (lookup_lt_is_Some_2 s i) as [c Hc]; [lia|]. by rewrite lookup_app_l, Hc by lia.
Qed.

(** ** The environment as a list of strings *)

(** The strings of the array, with their addresses, lie apart from [lo, hi); the rest of
    the array is null. *)
Record env_view (e : env) (ts : list (Z * list Z)) (lo hi : Z) (fuel : nat) : Prop := {
  ev_cells : ∃ r, environ e = (fst <$> ts) ++ replicate (S r) 0;
  ev_size : _envc e = Z.of_nat (length (environ e));
  ev_strings p t : (p, t) ∈ ts → 0 < p ∧ cstr (e_mem e) p t ∧ (length t < fuel)%nat ∧
    (p + Z.of_nat (length t) < lo ∨ hi ≤ p)
}.

(** The address of the value of the first string of the form name=value. *)
Fixpoint env_lookup (name : list Z) (ts : list (Z * list Z)) : Z :=
  match ts with
  | [] => 0
  | (p, t) :: ts =>
      if starts_with (name ++ [EQUALS]) t then p + Z.of_nat (length name) + 1 else env_lookup name ts
  end.

(** The test of [getenv] and [unsetenv]: the name, then an equals sign. *)
Lemma name_test {B} fuel m p t name n (yes no : res B) :
  cstr m p t → cstr m name n → 0 < p → (length t < fuel)%nat → (length n < fuel)%nat →
  (r ← strstr fuel m p name;
   if r =? p then c ← load m (p + Z.of_nat (length n)); if c =? EQUALS then yes else no else no) =
  if starts_with (n ++ [EQUALS]) t then yes else no.
Proof.
  intros Ht Hn Hp Hft Hf. destruct (strstr_prefix fuel m p name t n) as (r & -> & Hr); try done.
  rewrite bind_ok, Hr. destruct (starts_with n t) eqn:Hsw.
  - assert (Hl : (length n ≤ length t)%nat).
    { apply bool_decide_eq_true in Hsw. rewrite <- Hsw, length_take. lia. }
    rewrite (load_char _ _ t) by done. rewrite bind_ok.
    destruct (starts_with (n ++ [EQUALS]) t) eqn:Hsw2.
    + apply starts_with_snoc in Hsw2 as [_ Hc]. by rewrite Hc.
    + rewrite (proj2 (Z.eqb_neq _ _)); [done|]. intros Hc.
      assert (t !! length n = Some EQUALS) as Hc' by (destruct (t !! length n); cbn in Hc; by subst).
      by rewrite (proj2 (starts_with_snoc n EQUALS t)) in Hsw2.
  - destruct (starts_with (n ++ [EQUALS]) t) eqn:Hsw2; [|done].
    apply starts_with_snoc in Hsw2 as [Hc _]. by rewrite Hc in Hsw.
Qed.

Lemma getenv_loop_ok fuel m name n ts rest :
  cstr m name n → (length n < fuel)%nat →
  (∀ p t, (p, t) ∈ ts → 0 < p ∧ cstr m p t ∧ (length t < fuel)%nat) →
  getenv_loop fuel m name (Z.of_nat (length n)) ((fst <$> ts) ++ 0 :: rest) = Ok (env_lookup n ts).
Proof.
  intros Hn Hf. induction ts as [|[p t] ts IH]; intros Hts; [done|].
  cbn [fmap list_fmap fst app getenv_loop env_lookup].
  destruct (Hts p t) as (Hp & Ht & Hft); [left|]. rewrite (proj2 (truthy_true p)) by lia.
  rewrite (name_test _ _ _ t) by done. rewrite IH by (intros; apply Hts; by right). by case_match.
Qed.

(** [getenv] returns the value of the first string of the form name=value, or null. *)
Theorem getenv_finds e ts lo hi fuel name n :
  env_view e ts lo hi fuel → cstr (e_mem e) name n → (length n < fuel)%nat →
  Z.of_nat (length n) < 2 ^ 32 →
  getenv fuel e name = Ok (env_lookup n ts).
Proof.
  intros [[r Hc] _ Hts] Hn Hf Hl. unfold getenv. rewrite (strlen_ok _ _ n), bind_ok, Hc by done.
  apply getenv_loop_ok; try done. intros p t Hin. destruct (Hts p t Hin) as (? & ? & ? & _). done.
Qed.

(** ** putenv *)

Lemma strnstr_skip_ok fuel m s t c slen :
  cstr m s t → (length t < fuel)%nat → 0 ≤ slen < 2 ^ 32 →
  strnstr_skip fuel m s c slen = Ok None ∨
  ∃ s' slen', strnstr_skip fuel m s c slen = Ok (Some (s', slen')) ∧ slen' < slen.
Proof.
  revert s t slen. induction fuel as [|f IH]; intros s t slen Ht Hf Hs; [lia|]. cbn [strnstr_skip].
  destruct t as [|x t].
  - apply cstr_nil in Ht. rewrite (load_ok _ _ _ Ht), bind_ok. by left.
  - apply cstr_cons in Ht as (Hx & H0 & Ht). rewrite (load_ok _ _ _ H0), bind_ok.
    rewrite (proj2 (Z.eqb_neq x 0)) by lia. cbn [orb length] in *.
    destruct (Z.ltb_spec slen 1); [by left|]. rewrite u32_small by lia.
    destruct (x =? c); [right; do 2 eexists; split; [done|lia]|].
    destruct (IH (s + 1) t (slen - 1) Ht) as [Hr|(s' & l' & Hr & Hl)]; [lia|lia|by left|].
    right. exists s', l'. split; [done|lia].
Qed.

(** A string longer than the bound is not found. *)
Lemma strnstr_longer fuel m q s p t :
  cstr m q s → cstr m p t → (length s < length t)%nat → (length t < fuel)%nat → Z.of_nat (length t) < 2 ^ 32 →
  strnstr fuel m q p (Z.of_nat (length s)) = Ok 0.
Proof.
  intros Hs Ht Hl Hf Hb. unfold strnstr. destruct t as [|c t]; [cbn in Hl; lia|].
  apply cstr_cons in Ht as (Hc & H0 & Ht). rewrite (load_ok _ _ _ H0), bind_ok.
  cbn [length] in *. rewrite (proj2 (truthy_true c)), (strlen_ok _ _ t), bind_ok by (done || lia).
  destruct fuel as [|f]; [lia|]. cbn [strnstr_loop].
  destruct (strnstr_skip_ok (S f) m q s c (Z.of_nat (length s)) Hs) as [->|(s' & l' & -> & Hl')];
    [lia|lia|done|]. rewrite bind_ok. by rewrite (proj2 (Z.ltb_lt _ _)) by lia.
Qed.

(** The index [putenv] stores at for a name of [n] characters: the first string with an
    equals sign at that position, whatever its name, or the end; [None] when a string
    met before is too short for the test to stay inside it. *)
Fixpoint env_slot (n : nat) (ts : list (Z * list Z)) : option nat :=
  match ts with
  | [] => Some O
  | (_, t) :: ts =>
      if (length t <=? n)%nat then None
      else if default 0 (t !! n) =? EQUALS then Some O
      else S <$> env_slot n ts
  end.

Lemma putenv_loop_ok fuel m envc name s ts r i k :
  cstr m name s →
  (∀ p t, (p, t) ∈ ts → 0 < p ∧ cstr m p t ∧ (length t < fuel)%nat ∧ Z.of_nat (length t) < 2 ^ 32) →
  env_slot (length s) ts = Some k → i + Z.of_nat (length ts) ≤ envc - 1 →
  putenv_loop fuel m envc name (Z.of_nat (length s)) ((fst <$> ts) ++ replicate (S r) 0) i =
    Ok (if decide (k < length ts)%nat then inl (i + Z.of_nat k) else inr (i + Z.of_nat k)).
Proof.
  intros Hs. revert i k. induction ts as [|[p t] ts IH]; intros i k Hts Hk Hi;
    cbn [env_slot fmap list_fmap app fst putenv_loop replicate length] in *.
  - injection Hk as <-. rewrite decide_False by lia. case_if; do 2 f_equal; lia.
  - rewrite (proj2 (Z.ltb_lt _ _)) by lia. destruct (Hts p t) as (Hp & Ht & Hf & Hb); [left|].
    rewrite (proj2 (truthy_true p)) by lia.
    destruct (Nat.leb_spec (length t) (length s)) as [|Hl]; [done|].
    rewrite (strnstr_longer _ _ _ s _ t) by done. rewrite bind_ok. cbn [truthy Z.eqb negb].
    rewrite (load_char _ _ t) by (done || lia). rewrite bind_ok.
    destruct (default 0 (t !! length s) =? EQUALS).
    + injection Hk as <-. rewrite decide_True by lia. do 2 f_equal. lia.
    + destruct (env_slot (length s) ts) as [j|] eqn:Ej; [|done]. cbn in Hk. injection Hk as <-.
      rewrite (IH (i + 1) j) by (try (intros; apply Hts; by right); done || lia).
      destruct (decide (j < length ts)%nat); [rewrite decide_True by lia|rewrite decide_False by lia];
        do 2 f_equal; lia.
Qed.

Lemma copy_cells_ok n (ps : list Z) rest :
  (length ps < n)%nat → Forall (λ p, 0 < p) ps → copy_cells n (ps ++ 0 :: rest) = Ok ps.
Proof.
  revert n. induction ps as [|p ps IH]; intros n Hn Hp; (destruct n as [|n]; [cbn in Hn; lia|]); [done|].
  inversion Hp; subst. cbn [app copy_cells length] in *. rewrite (proj2 (truthy_true p)) by lia.
  by rewrite IH, bind_ok by (done || lia).
Qed.

Lemma strchr_ok fuel m p s c t :
  cstr m p (s ++ c :: t) → c ∉ s → (length s < fuel)%nat → strchr fuel m p c = Ok (p + Z.of_nat (length s)).
Proof.
  revert p s. induction fuel as [|f IH]; intros p s Hs Hc Hf; [lia|]. cbn [strchr].
  destruct s as [|x s]; cbn [app length] in *; apply cstr_cons in Hs as (Hx & H0 & Hs);
    rewrite (load_ok _ _ _ H0), bind_ok.
  - rewrite u8_small, Z.eqb_refl, Z.add_0_r by lia. done.
  - assert (Hc2 : 0 < c < 256).
    { destruct Hs as [Hch _]. unfold chars in Hch. rewrite Forall_app, list.Forall_cons in Hch. tauto. }
    rewrite u8_small by lia. rewrite (proj2 (Z.eqb_neq x c)) by (intros ->; apply Hc; left).
    rewrite (proj2 (truthy_true x)) by lia. rewrite (IH (p + 1) s) by (done || lia || set_solver).
    f_equal. lia.
Qed.

(** The strings of a view survive a change of memory below [hi] and from [lo]. *)
Lemma env_view_mem e ts lo hi fuel p l :
  env_view e ts lo hi fuel → lo ≤ p → p + Z.of_nat (length l) ≤ hi →
  env_view (mk_env (store_bytes (e_mem e) p l) (environ e) (_envc e)) ts lo hi fuel.
Proof.
  intros [Hc Hs Hts] Hlo Hhi. split; [done|done|]. intros q t Hin.
  destruct (Hts q t Hin) as (Hq & Ht & Hf & Hd). split; [done|]. split; [|done].
  apply cstr_store_bytes_ne; [lia|done].
Qed.

(** The strings of the array after [putenv]. *)
Definition env_put (ts : list (Z * list Z)) (k : nat) (entry : Z * list Z) : list (Z * list Z) :=
  if decide (k < length ts)%nat then <[k := entry]> ts else ts ++ [entry].

(** The array with the new string at its slot. *)
Lemma env_slot_le n ts k : env_slot n ts = Some k → (k ≤ length ts)%nat.
Proof.
  revert k. induction ts as [|[p t] ts IH]; intros k; cbn [env_slot length]; [by intros [= <-]|].
  case_match; [done|]. case_match; [intros [= <-]; lia|].
  destruct (env_slot n ts); [|done]. intros [= <-]. specialize (IH _ eq_refl). lia.
Qed.

Lemma env_ptrs_pos e ts lo hi fuel : env_view e ts lo hi fuel → Forall (λ p, 0 < p) (fst <$> ts).
Proof.
  intros Hv. apply Forall_fmap, Forall_forall. intros [p t] Hin. cbn.
  by destruct (ev_strings _ _ _ _ _ Hv p t Hin).
Qed.

Lemma insert_elem {A} (l : list A) k x y : y ∈ <[k := x]> l → y ∈ l ∨ y = x.
Proof.
  intros Hi. apply list_elem_of_lookup in Hi as [j Hj]. destruct (decide (k = j)) as [->|Hne].
  - destruct (decide (j < length l)%nat).
    + rewrite list_lookup_insert_eq in Hj by done. right. congruence.
    + rewrite list_insert_ge in Hj by lia. left. by eapply list_elem_of_lookup_2.
  - rewrite list_lookup_insert_ne in Hj by done. left. by eapply list_elem_of_lookup_2.
Qed.

(** Storing at the slot: in place, or behind the last string, where the array is null. *)
Lemma put_at_slot e ts lo hi fuel k p t :
  env_view e ts lo hi fuel → (k ≤ length ts)%nat → Z.of_nat k < _envc e - 1 →
  0 < p → cstr (e_mem e) p t → (length t < fuel)%nat → (p + Z.of_nat (length t) < lo ∨ hi ≤ p) →
  ∃ cells, set_cell (environ e) (Z.of_nat k) p = Ok cells ∧
    env_view (mk_env (e_mem e) cells (_envc e)) (env_put ts k (p, t)) lo hi fuel.
Proof.
  intros Hv Hk Hke Hp Ht Hf Hd. destruct (Hv) as [[r Hc] Hs Hts].
  exists (<[k := p]> (environ e)). unfold set_cell. rewrite Nat2Z.id.
  rewrite (proj2 (Z.leb_le _ _)), (proj2 (Z.ltb_lt _ _)) by lia. split; [done|].
  assert (Hin : ∀ q u, (q, u) ∈ env_put ts k (p, t) → (q, u) ∈ ts ∨ (q, u) = (p, t)).
  { intros q u. unfold env_put. case_decide.
    - apply insert_elem.
    - rewrite elem_of_app, list_elem_of_singleton. tauto. }
  split; cbn [e_mem environ _envc].
  - unfold env_put. rewrite Hc. case_decide as Hlt.
    + exists r. rewrite insert_app_l by (rewrite length_fmap; lia). by rewrite list_fmap_insert.
    + assert (k = length ts) as -> by lia.
      rewrite Hc, length_app, length_fmap, length_replicate in Hs. destruct r as [|r]; [lia|].
      exists r. rewrite insert_app_r_alt, length_fmap, Nat.sub_diag by (rewrite length_fmap; lia).
      cbn [replicate]. rewrite fmap_app, <- app_assoc. done.
  - by rewrite length_insert.
  - intros q u Hi. apply Hin in Hi as [Hi|[= -> ->]]; [by apply Hts|done].
Qed.

(** Doubling the array keeps the strings. *)
Lemma grow_env_ok e ts lo hi fuel :
  env_view e ts lo hi fuel → 1 ≤ _envc e < 2 ^ 30 →
  ∃ e', grow_env e = Ok e' ∧ env_view e' ts lo hi fuel ∧ e_mem e' = e_mem e ∧ _envc e' = 2 * _envc e.
Proof.
  intros Hv Hc. destruct (Hv) as [[r Hr] Hs Hts]. unfold grow_env.
  rewrite s32_small by lia. rewrite Hr, length_app, length_fmap, length_replicate in Hs.
  cbn [replicate] in Hr. rewrite Hr, copy_cells_ok, bind_ok.
  2: { rewrite length_fmap. lia. }
  2: by eapply env_ptrs_pos.
  eexists. split; [done|]. split; [|split; [done|cbn; lia]].
  rewrite length_fmap. split; cbn [e_mem environ _envc].
  - exists (Z.to_nat (_envc e * 2) - length ts - 1)%nat. f_equal. f_equal. lia.
  - rewrite length_app, length_fmap, length_replicate. lia.
  - done.
Qed.

(** What [putenv] does with a string of the form name=value. *)
Lemma putenv_ok e ts lo hi fuel local string n v k :
  env_view e ts lo hi fuel → cstr (e_mem e) string (n ++ EQUALS :: v) → EQUALS ∉ n →
  0 < string → (string + Z.of_nat (length (n ++ EQUALS :: v)) < lo ∨ hi ≤ string) →
  0 < local → lo ≤ local → local + Z.of_nat (length (n ++ EQUALS :: v)) + 1 ≤ hi →
  mapped (e_mem e) local (Z.of_nat (length (n ++ EQUALS :: v)) + 1) →
  (length (n ++ EQUALS :: v) < fuel)%nat → Z.of_nat fuel < 2 ^ 32 → _envc e < 2 ^ 30 →
  env_slot (length n) ts = Some k →
  ∃ e', putenv fuel local e string = Ok (0, e') ∧
    env_view e' (env_put ts k (string, n ++ EQUALS :: v)) lo hi fuel.
Proof.
  intros Hv Hs Hn Hpos Hap Hl0 Hlo Hhi Hm Hf Hf2 Hec Hk.
  set (str := n ++ EQUALS :: v) in *. destruct Hs as [Hch Hb].
  set (m1 := store_bytes (e_mem e) local (str ++ [0])).
  assert (Hs : cstr (e_mem e) string str) by done.
  assert (Hm1 : cstr m1 local str) by (apply cstr_store_bytes; exact Hch).
  assert (Hsn : (length n < length str)%nat) by (subst str; rewrite length_app; cbn; lia).
  assert (Hmem2 : store m1 (local + Z.of_nat (length n)) 0 =
            Ok (store_bytes m1 (local + Z.of_nat (length n)) [0])).
  { apply store_ok. apply (mapped_store_bytes (e_mem e) local _ _ _ Hm). lia. }
  set (m2 := store_bytes m1 (local + Z.of_nat (length n)) [0]) in *.
  assert (Hm2 : cstr m2 local n).
  { assert (Hchn : chars n) by (unfold chars in *; subst str; by apply Forall_app in Hch as [? _]).
    split; [done|]. apply bytes_at_app. split; [|apply bytes_at_store_bytes].
    apply bytes_at_store_bytes_ne; [cbn; lia|]. destruct Hm1 as [_ Hb1]. subst str.
    rewrite <- app_assoc in Hb1. by apply bytes_at_app in Hb1 as [? _]. }
  set (e2 := mk_env m2 (environ e) (_envc e)).
  assert (Hv2 : env_view e2 ts lo hi fuel).
  { apply (env_view_mem (mk_env m1 (environ e) (_envc e)) ts lo hi fuel (local + Z.of_nat (length n)) [0]);
      [|lia|cbn; lia]. apply env_view_mem; [done|lia|]. rewrite length_app. cbn. lia. }
  assert (Hs2 : cstr m2 string str).
  { do 2 (apply cstr_store_bytes_ne; [rewrite ?length_app; cbn [length]; lia|]). done. }
  unfold putenv, strcpy. rewrite (proj2 (Z.eqb_neq local 0)) by lia.
  rewrite (strcpy_loop_ok _ _ _ str) by (done || lia). rewrite !bind_ok. fold m1.
  rewrite (strchr_ok _ _ _ n EQUALS v), bind_ok by (done || lia).
  rewrite (proj2 (truthy_true _)) by lia. cbn [negb]. rewrite Hmem2, bind_ok. cbn zeta.
  rewrite (strlen_ok _ _ n), bind_ok by (done || lia). cbn [_envc environ].
  destruct (Hv2) as [[r Hr] Hsz Hts].
  change (e_mem e2) with m2 in *. change (environ e2) with (environ e) in *.
  change (_envc e2) with (_envc e) in *.
  assert (Hlen : Z.of_nat (length ts) ≤ _envc e - 1).
  { rewrite Hr, length_app, length_fmap, length_replicate in Hsz. lia. }
  assert (Hloop : putenv_loop fuel m2 (_envc e) local (Z.of_nat (length n)) (environ e) 0 =
    Ok (if decide (k < length ts)%nat then inl (0 + Z.of_nat k) else inr (0 + Z.of_nat k))).
  { rewrite Hr. apply putenv_loop_ok; try done.
    intros p t Hin. destruct (Hts p t Hin) as (? & ? & ? & _). split_and!; done || lia. }
  rewrite Z.add_0_l in Hloop. rewrite Hloop, bind_ok. apply env_slot_le in Hk as Hkl. case_decide as Hlt.
  - destruct (put_at_slot e2 ts lo hi fuel k string str Hv2) as (cells & Hset & Hv3); try done; cbn; try lia.
    change (environ e2) with (environ e) in Hset. rewrite Hset, bind_ok. by eexists.
  - destruct (Z.eqb_spec (Z.of_nat k) (_envc e - 1)) as [Hfull|Hroom].
    + destruct (grow_env_ok e2 ts lo hi fuel Hv2) as (e3 & Hg & Hv3 & Hm3 & Hc3); [cbn; lia|].
      unfold e2 in Hg. rewrite Hg, bind_ok. cbn [_envc e2] in Hc3.
      destruct (put_at_slot e3 ts lo hi fuel k string str Hv3) as (cells & -> & Hv4); try done; try lia.
      { by rewrite Hm3. }
      rewrite bind_ok. by eexists.
    + rewrite bind_ok.
      destruct (put_at_slot e2 ts lo hi fuel k string str Hv2) as (cells & Hset & Hv3); try done; cbn; try lia.
      change (environ e2) with (environ e) in Hset. rewrite Hset, bind_ok. by eexists.
Qed.

(** ** Setting and asking *)

Lemma slot_entry n ts k :
  env_slot (length n) ts = Some k → ∀ j p t, (j < k)%nat → ts !! j = Some (p, t) → starts_with (n ++ [EQUALS]) t = false.
Proof.
  revert k. induction ts as [|[q u] ts IH]; intros k Hk j p t Hj Hl; [done|]. cbn [env_slot] in Hk.
  destruct (length u <=? length n)%nat; [done|].
  destruct (Z.eqb_spec (default 0 (u !! length n)) EQUALS) as [_|Hne]; [injection Hk as <-; lia|].
  destruct (env_slot (length n) ts) as [k'|] eqn:E; [|done]. cbn in Hk. injection Hk as <-.
  destruct j as [|j].
  - cbn in Hl. injection Hl as -> ->. apply not_true_iff_false. intros Hs.
    apply starts_with_snoc in Hs as [_ Hs]. by rewrite Hs in Hne.
  - apply (IH k' eq_refl j p t); [lia|done].
Qed.

Lemma starts_with_app s t : starts_with s (s ++ t) = true.
Proof. apply bool_decide_eq_true. by rewrite take_app_length. Qed.

Lemma env_lookup_skip n ts rest :
  (∀ p t, (p, t) ∈ ts → starts_with (n ++ [EQUALS]) t = false) → env_lookup n (ts ++ rest) = env_lookup n rest.
Proof.
  induction ts as [|[p t] ts IH]; intros H; [done|]. cbn [app env_lookup].
  rewrite (H p t) by left. apply IH. intros q u Hin. apply (H q u). by right.
Qed.

Lemma env_put_split ts k entry :
  (k ≤ length ts)%nat → env_put ts k entry = take k ts ++ entry :: drop (S k) ts.
Proof.
  intros Hk. unfold env_put. case_decide.
  - by apply insert_take_drop.
  - rewrite take_ge, drop_ge by lia. done.
Qed.

Lemma env_lookup_put n v ts k p :
  env_slot (length n) ts = Some k →
  env_lookup n (env_put ts k (p, n ++ EQUALS :: v)) = p + Z.of_nat (length n) + 1.
Proof.
  intros Hk. rewrite env_put_split by by eapply env_slot_le. rewrite env_lookup_skip.
  - cbn [env_lookup]. replace (n ++ EQUALS :: v) with ((n ++ [EQUALS]) ++ v) by by rewrite <- app_assoc.
    by rewrite starts_with_app.
  - intros q u Hin. apply list_elem_of_lookup in Hin as [j Hj].
    assert (j < k)%nat by (apply lookup_lt_Some in Hj; rewrite length_take in Hj; lia).
    rewrite lookup_take_lt in Hj by done. by eapply slot_entry.
Qed.

(** What [putenv] stores, [getenv] returns, for every environment of a running process;
    the environment stays well formed. *)
Theorem putenv_then_getenv e ts lo hi fuel local string n v k :
  env_view e ts lo hi fuel → cstr (e_mem e) string (n ++ EQUALS :: v) → EQUALS ∉ n →
  0 < string → (string + Z.of_nat (length (n ++ EQUALS :: v)) < lo ∨ hi ≤ string) →
  0 < local → lo ≤ local → local + Z.of_nat (length (n ++ EQUALS :: v)) + 1 ≤ hi →
  mapped (e_mem e) local (Z.of_nat (length (n ++ EQUALS :: v)) + 1) →
  (length (n ++ EQUALS :: v) < fuel)%nat → Z.of_nat fuel < 2 ^ 32 → _envc e < 2 ^ 30 →
  env_slot (length n) ts = Some k →
  ∃ e', putenv fuel local e string = Ok (0, e') ∧
    env_view e' (env_put ts k (string, n ++ EQUALS :: v)) lo hi fuel ∧
    ∀ name, cstr (e_mem e') name n → getenv fuel e' name = Ok (string + Z.of_nat (length n) + 1).
Proof.
  intros Hv Hs Hn Hpos Hap Hl0 Hlo Hhi Hm Hf Hf2 Hec Hk.
  destruct (putenv_ok e ts lo hi fuel local string n v k) as (e' & Hput & Hv'); try done.
  exists e'. split; [done|]. split; [done|]. intros name Hname.
  destruct (Hv') as [[r Hc] _ Hts]. rewrite length_app in Hf. cbn [replicate] in Hc.
  unfold getenv. rewrite (strlen_ok _ _ n), bind_ok, Hc by (done || lia).
  rewrite (getenv_loop_ok _ _ _ n); [by rewrite env_lookup_put|done|lia|].
  intros p t Hin. destruct (Hts p t Hin) as (? & ? & ? & _). done.
Qed.

(** Setting a variable destroys the first one whose name has the same length: the test
    that should compare the names holds whenever they differ. *)
Theorem putenv_clobbers e pre p n' w post lo hi fuel local string n v :
  let ts := pre ++ (p, n' ++ EQUALS :: w) :: post in
  env_view e ts lo hi fuel → cstr (e_mem e) string (n ++ EQUALS :: v) → EQUALS ∉ n →
  0 < string → (string + Z.of_nat (length (n ++ EQUALS :: v)) < lo ∨ hi ≤ string) →
  0 < local → lo ≤ local → local + Z.of_nat (length (n ++ EQUALS :: v)) + 1 ≤ hi →
  mapped (e_mem e) local (Z.of_nat (length (n ++ EQUALS :: v)) + 1) →
  (length (n ++ EQUALS :: v) < fuel)%nat → Z.of_nat fuel < 2 ^ 32 → _envc e < 2 ^ 30 →
  length n = length n' → n ≠ n' → env_slot (length n) ts = Some (length pre) → env_lookup n' (pre ++ post) = 0 →
  ∃ e', putenv fuel local e string = Ok (0, e') ∧
    env_view e' (pre ++ (string, n ++ EQUALS :: v) :: post) lo hi fuel ∧
    ∀ name, cstr (e_mem e') name n' → getenv fuel e' name = Ok 0.
Proof.
  intros ts Hv Hs Hn Hpos Hap Hl0 Hlo Hhi Hm Hf Hf2 Hec Hlen Hne Hk Hother.
  destruct (putenv_ok e ts lo hi fuel local string n v (length pre)) as (e' & Hput & Hv'); try done.
  assert (Hts' : env_put ts (length pre) (string, n ++ EQUALS :: v) = pre ++ (string, n ++ EQUALS :: v) :: post).
  { rewrite env_put_split by (subst ts; rewrite length_app; lia). subst ts.
    rewrite take_app_length. f_equal. f_equal.
    replace (S (length pre)) with (length pre + 1)%nat by lia. by rewrite <- drop_drop, drop_app_length. }
  rewrite Hts' in Hv'. exists e'. split; [done|]. split; [done|]. intros name Hname.
  destruct (Hv') as [[r Hc] _ Hst]. rewrite length_app in Hf. cbn [replicate] in Hc.
  unfold getenv. rewrite (strlen_ok _ _ n'), bind_ok, Hc by (done || lia).
  rewrite (getenv_loop_ok _ _ _ n'); [|done|lia|].
  2: { intros q t Hin. destruct (Hst q t Hin) as (? & ? & ? & _). done. }
  f_equal. clear -Hother Hlen Hne Hv. revert Hother.
  assert (Hpos : ∀ q t, (q, t) ∈ pre → 0 < q).
  { intros q t Hin. destruct (ev_strings _ _ _ _ _ Hv q t) as [? _]; [|done].
    apply elem_of_app. by left. }
  clear Hv ts. induction pre as [|[q t] pre' IH]; cbn [app env_lookup].
  - intros Ho. destruct (starts_with (n' ++ [EQUALS]) (n ++ EQUALS :: v)) eqn:E; [|done].
    exfalso. apply starts_with_snoc in E as [E _]. apply bool_decide_eq_true in E.
    rewrite <- Hlen, take_app_length in E. done.
  - destruct (starts_with (n' ++ [EQUALS]) t); [|].
    + specialize (Hpos q t ltac:(left)). lia.
    + apply IH. intros q' t' Hin. apply (Hpos q' t'). by right.
Qed.

(** ** unsetenv *)

(** The index of the first string of the form name=value. *)
Fixpoint env_index (n : list Z) (ts : list (Z * list Z)) : option nat :=
  match ts with
  | [] => None
  | (_, t) :: ts => if starts_with (n ++ [EQUALS]) t then Some O else S <$> env_index n ts
  end.

Lemma unsetenv_loop_ok fuel m str n ts rest i found :
  cstr m str n → (length n < fuel)%nat → 0 ≤ i →
  (∀ p t, (p, t) ∈ ts → 0 < p ∧ cstr m p t ∧ (length t < fuel)%nat) →
  unsetenv_loop fuel m str (Z.of_nat (length n)) ((fst <$> ts) ++ 0 :: rest) i found (i - 1) =
    Ok (if found =? -1 then
          match env_index n ts with Some k => i + Z.of_nat k | None => -1 end
        else found, i + Z.of_nat (length ts) - 1).
Proof.
  intros Hn Hf. revert i found. induction ts as [|[p t] ts IH]; intros i found Hi Hts;
    cbn [fmap list_fmap fst app unsetenv_loop env_index length].
  { cbn [truthy Z.eqb negb]. destruct (Z.eqb_spec found (-1)) as [->|]; do 2 f_equal; lia. }
  destruct (Hts p t) as (Hp & Ht & Hft); [left|]. rewrite (proj2 (truthy_true p)) by lia.
  assert (Hts' : ∀ p t, (p, t) ∈ ts → 0 < p ∧ cstr m p t ∧ (length t < fuel)%nat)
    by (intros; apply Hts; by right).
  assert (Hstep : (if found =? -1 then
      r ← strstr fuel m p str;
      if r =? p then c ← load m (p + Z.of_nat (length n)); if c =? EQUALS then Ok i else Ok found else Ok found
      else Ok found) =
    Ok (if found =? -1 then if starts_with (n ++ [EQUALS]) t then i else -1 else found)).
  { destruct (Z.eqb_spec found (-1)) as [->|]; [|done]. rewrite (name_test _ _ _ t) by done. by destruct (starts_with _ _). }
  rewrite Hstep, bind_ok. 
  match goal with |- unsetenv_loop _ _ _ _ _ _ ?x _ = _ => specialize (IH (i + 1) x ltac:(lia) Hts') end.
  rewrite Z.add_simpl_r in IH. rewrite IH. clear IH.
  destruct (Z.eqb_spec found (-1)) as [->|Hne].
  - destruct (starts_with (n ++ [EQUALS]) t).
    + rewrite (proj2 (Z.eqb_neq i (-1))) by lia. do 2 f_equal; lia.
    + destruct (env_index n ts); cbn [fmap option_fmap option_map Z.eqb Pos.eqb]; do 2 f_equal; lia.
  - rewrite (proj2 (Z.eqb_neq _ _)) by done. do 2 f_equal. lia.
Qed.

(** The strings after [unsetenv]: the last one takes the place of string [k]. *)
Definition env_unset (ts : list (Z * list Z)) (k : nat) : list (Z * list Z) :=
  match last ts with Some x => <[k := x]> (take (length ts - 1) ts) | None => ts end.

Lemma env_index_lt n ts k : env_index n ts = Some k → (k < length ts)%nat.
Proof.
  revert k. induction ts as [|[p t] ts IH]; intros k; cbn [env_index length]; [done|].
  case_match; [intros [= <-]; lia|]. destruct (env_index n ts); [|done]. intros [= <-].
  specialize (IH _ eq_refl). lia.
Qed.

Lemma env_unset_snoc ts x k : env_unset (ts ++ [x]) k = <[k := x]> ts.
Proof.
  unfold env_unset. rewrite last_snoc, length_app. cbn [length]. by rewrite Nat.add_sub, take_app_length.
Qed.

Lemma env_unset_delete ts k : (k < length ts)%nat → env_unset ts k ≡ₚ delete k ts.
Proof.
  intros Hk. destruct ts as [|x ts _] using rev_ind; [cbn in Hk; lia|]. rewrite env_unset_snoc.
  rewrite length_app in Hk. cbn [length] in Hk. destruct (decide (k = length ts)) as [->|Hne].
  - rewrite list_insert_ge by lia. by rewrite delete_middle, app_nil_r.
  - rewrite insert_take_drop, delete_take_drop by lia.
    rewrite take_app_le, drop_app_le by lia. apply Permutation_app_head, Permutation_cons_append.
Qed.

Lemma set_cell_ok cells i p : (i < length cells)%nat → set_cell cells (Z.of_nat i) p = Ok (<[i := p]> cells).
Proof.
  intros Hi. unfold set_cell. rewrite (proj2 (Z.leb_le _ _)), (proj2 (Z.ltb_lt _ _)) by lia. cbn [andb].
  by rewrite Nat2Z.id.
Qed.

(** [unsetenv] removes the first string of the given name and no other, and keeps the
    environment well formed; without such a string nothing changes. *)
Theorem unsetenv_removes e ts lo hi fuel str n :
  env_view e ts lo hi fuel → cstr (e_mem e) str n → (length n < fuel)%nat → Z.of_nat (length n) < 2 ^ 32 →
  match env_index n ts with
  | None => unsetenv fuel e str = Ok (0, e)
  | Some k => ∃ e', unsetenv fuel e str = Ok (0, e') ∧ env_view e' (env_unset ts k) lo hi fuel ∧
      env_unset ts k ≡ₚ delete k ts
  end.
Proof.
  intros Hv Hn Hf Hb. destruct (Hv) as [[r Hr] Hs Hts].
  assert (Hloop : unsetenv_loop fuel (e_mem e) str (Z.of_nat (length n)) (environ e) 0 (-1) (-1) =
    Ok (match env_index n ts with Some k => Z.of_nat k | None => -1 end, Z.of_nat (length ts) - 1)).
  { rewrite Hr. cbn [replicate]. apply (unsetenv_loop_ok fuel (e_mem e) str n ts _ 0 (-1)); try done.
    intros p t Hin. destruct (Hts p t Hin) as (? & ? & ? & _). done. }
  unfold unsetenv. rewrite (strlen_ok _ _ n), bind_ok, Hloop, bind_ok by done.
  destruct (env_index n ts) as [k|] eqn:Ek; [|done]. apply env_index_lt in Ek.
  rewrite (proj2 (Z.eqb_neq (Z.of_nat k) (-1))) by lia.
  assert (Hperm := env_unset_delete ts k Ek). destruct ts as [|x ts _] using rev_ind; [cbn in Ek; lia|].
  rewrite env_unset_snoc in *. rewrite length_app in *. cbn [length] in *.
  replace (Z.of_nat (length ts + 1) - 1) with (Z.of_nat (length ts)) by lia.
  rewrite fmap_app, <- app_assoc in Hr. cbn [fmap list_fmap app] in Hr.
  assert (Hlen : (length ts < length (environ e))%nat).
  { rewrite Hr, length_app, length_fmap. cbn [length]. lia. }
  assert (Hview : ∀ cells, cells = (fst <$> <[k := x]> ts) ++ 0 :: replicate (S r) 0 →
    length cells = length (environ e) →
    env_view (mk_env (e_mem e) cells (_envc e)) (<[k := x]> ts) lo hi fuel).
  { intros cells Hc Hlc. split; cbn [e_mem environ _envc].
    - exists (S r). done.
    - by rewrite Hlc.
    - intros p t Hin. apply Hts. rewrite elem_of_app, list_elem_of_singleton. by apply insert_elem with (k := k). }
  destruct (Z.eqb_spec (Z.of_nat (length ts)) (Z.of_nat k)) as [Heq|Hne].
  - apply Nat2Z.inj in Heq as <-. rewrite set_cell_ok, bind_ok by done. eexists. split; [done|].
    split; [|done]. apply Hview; [|by rewrite length_insert].
    rewrite (list_insert_ge ts) by lia. rewrite Hr, insert_app_r_alt, length_fmap, Nat.sub_diag by (rewrite length_fmap; lia).
    done.
  - rewrite Nat2Z.id, Hr, lookup_app_r, length_fmap, Nat.sub_diag by (rewrite length_fmap; lia).
    cbn [lookup list_lookup of_option]. rewrite bind_ok, <- Hr, set_cell_ok, bind_ok by lia.
    rewrite set_cell_ok, bind_ok by (rewrite length_insert; lia). eexists. split; [done|]. split; [|done].
    apply Hview; [|by rewrite !length_insert].
    rewrite Hr, insert_app_l by (rewrite length_fmap; lia).
    rewrite insert_app_r_alt, length_insert, length_fmap, Nat.sub_diag by (rewrite length_insert, length_fmap; lia).
    by rewrite list_fmap_insert.
Qed.

(** ** Examples: PATH=/bin at 100, HOME=/root at 120, the name PATH at 140, HOME at 150,
    USERS=me at 160, a stack from 200 *)

Definition path_str : list Z := [80; 65; 84; 72; 61; 47; 98; 105; 110].
Definition home_str : list Z := [72; 79; 77; 69; 61; 47; 114; 111; 111; 116].
Definition env_mem : mem :=
  store_bytes (store_bytes (store_bytes (store_bytes (mem_of 200 (replicate 20 0)) 100 (path_str ++ [0]))
    120 (home_str ++ [0])) 140 [80; 65; 84; 72; 0]) 150 [72; 79; 77; 69; 0].
Definition demo_env : env := mk_env env_mem [100; 0] 2.

Lemma demo_view : env_view demo_env [(100, path_str)] 200 220 30.
Proof.
  split; [by exists 0%nat|done|]. intros p t Hin. apply list_elem_of_singleton in Hin as [= -> ->].
  split; [done|]. split; [apply cstr_check_ok; by vm_compute|]. cbn. lia.
Qed.

Lemma getenv_finds_witness : getenv 30 demo_env 140 = Ok 105.
Proof.
  apply (getenv_finds demo_env [(100, path_str)] 200 220 30 140 [80; 65; 84; 72]); try done; try (cbn; lia).
  - apply demo_view.
  - apply cstr_check_ok. by vm_compute.
Defined.

Lemma putenv_then_getenv_witness :
  ∃ e', putenv 30 200 (mk_env env_mem [0] 1) 120 = Ok (0, e') ∧ env_view e' [(120, home_str)] 200 220 30 ∧
    ∀ name, cstr (e_mem e') name [72; 79; 77; 69] → getenv 30 e' name = Ok 125.
Proof.
  apply (putenv_then_getenv (mk_env env_mem [0] 1) [] 200 220 30 200 120 [72; 79; 77; 69] [47; 114; 111; 111; 116] 0);
    try done; try (cbn; lia).
  - split; [by exists 0%nat|done|]. by intros p t ?%elem_of_nil.
  - apply cstr_check_ok. by vm_compute.
  - set_solver.
  - apply (mapped_check_ok _ _ 11). by vm_compute.
Defined.

(** Setting HOME destroys PATH. *)
Lemma putenv_clobbers_witness :
  ∃ e', putenv 30 200 demo_env 120 = Ok (0, e') ∧ env_view e' [(120, home_str)] 200 220 30 ∧
    ∀ name, cstr (e_mem e') name [80; 65; 84; 72] → getenv 30 e' name = Ok 0.
Proof.
  apply (putenv_clobbers demo_env [] 100 [80; 65; 84; 72] [47; 98; 105; 110] [] 200 220 30 200 120
    [72; 79; 77; 69] [47; 114; 111; 111; 116]); try done; try (cbn; lia).
  - apply demo_view.
  - apply cstr_check_ok. by vm_compute.
  - set_solver.
  - apply (mapped_check_ok _ _ 11). by vm_compute.
Defined.

Lemma unsetenv_removes_witness :
  ∃ e', unsetenv 30 demo_env 140 = Ok (0, e') ∧ env_view e' [] 200 220 30.
Proof.
  pose proof (unsetenv_removes demo_env [(100, path_str)] 200 220 30 140 [80; 65; 84; 72] demo_view) as H.
  destruct H as (e' & H1 & H2 & _); [apply cstr_check_ok; by vm_compute|cbn; lia|done|]. by exists e'.
Defined.

Definition demo_malloc (n : Z) (m : mem) : res (Z * mem) := Ok (300, store_bytes m 300 (replicate (Z.to_nat n) 0)).

(** [setenv] through [malloc]: the new string is found. *)
Example setenv_example :
  match setenv demo_malloc 30 200 400 (mk_env (store_bytes env_mem 400 [61; 0]) [100; 0] 2) 150 140 1 with
  | Ok (0, e) => getenv 30 e 150 = Ok 305
  | _ => False
  end.
Proof. by vm_compute. Qed.
