(* ===== verification/Input.v ===== *)
(** * The keyboard and the mouse: kernel/src/dev/ps2.c and libs/libinput/src/{kbd.c, mouse.c}

    The interrupt handlers of ps2.c collect the bytes of the two devices and write them
    into two non-blocking pipes (Pipe); a program reads the pipes in units of 2 and 3
    bytes and libinput turns each unit into a packet.  The acknowledgement of the
    interrupt and the set-up of the controller are port accesses and not modelled; the
    bytes handed to the virtual terminals are recorded for Vt. *)

From S2P Require Import Prelude ByteQueue Ring Pipe Ctype.

(** ** libinput *)

Definition KBD_EVENT_FLAG_UP : Z := Z.shiftl 1 0.
Definition KBD_EVENT_FLAG_EXT : Z := Z.shiftl 1 1.
Definition KBD_MOD_ALT : Z := Z.shiftl 1 0.
Definition KBD_MOD_SHIFT : Z := Z.shiftl 1 1.
Definition KBD_MOD_CTRL : Z := Z.shiftl 1 2.
Definition KBD_MOD_CAPS : Z := Z.shiftl 1 3.

Record keyboard_packet_t := mk_kbd { kb_scancode : Z; kb_flags : Z }.

(** [__scancodes] and [__scancodes_shifted]: the initialisers, then zeros *)
Definition scancodes : list Z :=
  [0; 27; 49; 50; 51; 52; 53; 54; 55; 56; 57; 48; 45; 61; 8; 9; 113; 119; 101; 114; 116; 121; 117;
   105; 111; 112; 91; 93; 10; 0; 97; 115; 100; 102; 103; 104; 106; 107; 108; 59; 39; 96; 0; 92;
   122; 120; 99; 118; 98; 110; 109; 44; 46; 47; 0; 42; 0; 32; 0; 0; 0; 0; 0; 0; 0; 0; 0; 0; 0; 0;
   0; 0; 0; 0; 45; 0; 0; 0; 43; 0; 0; 0; 0; 0; 0; 0; 0; 0; 0; 0] ++ replicate 38 0.
Definition scancodes_shifted : list Z :=
  [0; 27; 33; 64; 35; 36; 37; 94; 38; 42; 40; 41; 95; 43; 8; 9; 81; 87; 69; 82; 84; 89; 85; 73;
   79; 80; 123; 125; 10; 0; 65; 83; 68; 70; 71; 72; 74; 75; 76; 58; 34; 126; 0; 124; 90; 88; 67;
   86; 66; 78; 77; 60; 62; 63; 0; 42; 0; 32; 0; 0; 0; 0; 0; 0; 0; 0; 0; 0; 0; 0; 0; 0; 0; 0; 45;
   0; 0; 0; 43; 0; 0; 0; 0; 0; 0; 0; 0; 0; 0; 0] ++ replicate 38 0.

Definition KEY_LEFTCTRL : Z := 29.
Definition KEY_LEFTSHIFT : Z := 42.
Definition KEY_RIGHTSHIFT : Z := 54.
Definition KEY_LEFTALT : Z := 56.
Definition KEY_CAPSLOCK : Z := 58.
Definition KEY_KPENTER : Z := 96.
Definition KEY_RIGHTCTRL : Z := 97.
Definition KEY_KPSLASH : Z := 98.
Definition KEY_RIGHTALT : Z := 100.
Definition KEY_HOME : Z := 102.
Definition KEY_LEFT : Z := 105.
Definition KEY_RIGHT : Z := 106.
Definition KEY_LEFTMETA : Z := 125.

(** [__scancodes_ext]: the designated initialisers *)
Definition scancodes_ext (c : Z) : Z :=
  if c =? 0x47 then KEY_HOME
  else if c =? 0x1C then KEY_KPENTER
  else if c =? 0x35 then KEY_KPSLASH
  else if c =? 0x4B then KEY_LEFT
  else if c =? 0x5B then KEY_LEFTMETA
  else if c =? 0x4D then KEY_RIGHT
  else 0.

Definition input_kbd_create_packet (scancode : Z) : keyboard_packet_t :=
  let flags := 0 in
  let flags := if truthy (Z.land scancode 0x80) then Z.lor flags KBD_EVENT_FLAG_UP else flags in
  let flags := if truthy (Z.land scancode 0x100) then Z.lor flags KBD_EVENT_FLAG_EXT else flags in
  let scancode := Z.land scancode 0x7F in
  mk_kbd (if truthy (Z.land flags KBD_EVENT_FLAG_EXT) then scancodes_ext scancode else scancode) flags.

Definition table_get (t : list Z) (i : Z) : res Z := of_option (t !! Z.to_nat i).

(** The branch of the control key *)
Definition translate_ctrl (plain : Z) : Z :=
  let t := toupper plain in
  let t := if t =? 45 then 95 else t in
  let t := if t =? 96 then 64 else t in
  let out := t - 0x40 in
  if (out <? 0) || (0x1F <? out) then plain else out.

(** The comparison with [sizeof(__scancodes)] is unsigned; negative codes are gone. *)
Definition input_kbd_translate (scancode mods : Z) : res Z :=
  if (scancode <? 0) || (128 <? scancode) then Ok 0
  else
    t ← (if truthy (Z.land mods KBD_MOD_CTRL) then
           c ← table_get scancodes scancode; Ok (translate_ctrl c)
         else if truthy (Z.land mods KBD_MOD_SHIFT) then table_get scancodes_shifted scancode
         else table_get scancodes scancode);
    if truthy (isalpha t) then
      if truthy t && truthy (Z.land mods KBD_MOD_CAPS) then
        Ok (if truthy (isupper t) then tolower t else toupper t)
      else Ok t
    else Ok t.

(** *** mouse.c *)

Record ps_mouse_packet_t := mk_raw { raw_data : Z; raw_mx : Z; raw_my : Z }.
Record mouse_packet_t := mk_mouse { mo_dx : Z; mo_dy : Z; mo_buttons : Z }.

Definition MOUSE_BUTTON_LEFT : Z := Z.shiftl 1 0.
Definition MOUSE_BUTTON_RIGHT : Z := Z.shiftl 1 1.
Definition MOUSE_BUTTON_MIDDLE : Z := Z.shiftl 1 2.
Definition MOUSE_RAW_DATA_LBTN : Z := Z.shiftl 1 0.
Definition MOUSE_RAW_DATA_RBTN : Z := Z.shiftl 1 1.
Definition MOUSE_RAW_DATA_MBTN : Z := Z.shiftl 1 2.
Definition MOUSE_RAW_DATA_XSGN : Z := Z.shiftl 1 4.
Definition MOUSE_RAW_DATA_YSGN : Z := Z.shiftl 1 5.
Definition MOUSE_RAW_DATA_XOVF : Z := Z.shiftl 1 6.
Definition MOUSE_RAW_DATA_YOVF : Z := Z.shiftl 1 7.

(** [packet->dx |= 0xFFFFFF00] on an [int32_t] *)
Definition sign_extend (v : Z) : Z := s32 (Z.lor v 0xFFFFFF00).

(** [None]: NULL *)
Definition input_mouse_create_packet (raw : ps_mouse_packet_t) : option mouse_packet_t :=
  let data := raw_data raw in
  if truthy (Z.land data MOUSE_RAW_DATA_XOVF) || truthy (Z.land data MOUSE_RAW_DATA_YOVF) then None
  else
    let dx := if truthy (Z.land data MOUSE_RAW_DATA_XSGN) then sign_extend (raw_mx raw) else raw_mx raw in
    let dy := if truthy (Z.land data MOUSE_RAW_DATA_YSGN) then sign_extend (raw_my raw) else raw_my raw in
    let b := 0 in
    let b := if truthy (Z.land data MOUSE_RAW_DATA_LBTN) then Z.lor b MOUSE_BUTTON_LEFT else b in
    let b := if truthy (Z.land data MOUSE_RAW_DATA_RBTN) then Z.lor b MOUSE_BUTTON_RIGHT else b in
    let b := if truthy (Z.land data MOUSE_RAW_DATA_MBTN) then Z.lor b MOUSE_BUTTON_MIDDLE else b in
    Some (mk_mouse dx dy b).

(** ** ps2.c *)

Record ps2 := mk_ps2 {
  ps_ext : bool;
  ps_count : Z; (* mouse_packet_counter *)
  ps_cur : ps_mouse_packet_t; (* current_mouse_packet *)
  kbd_pipe : pipe_t;
  mouse_pipe : pipe_t;
  ps_vt : list Z (* the calls of k_dev_vt_handle_scancode *)
}.

(** [k_fs_vfs_write] on a node whose mode has [O_NOBLOCK] *)
Definition pipe_post (p : pipe_t) (data : list Z) : res pipe_t :=
  match pipe_write O_NOBLOCK [] (Some p) data with
  | inr (PRet _ p' _) => Ok p'
  | inr (PAsleep _ _) => OutOfFuel
  | _ => Fault
  end.

Definition ps2_handle_keyboard (byte : Z) (s : ps2) : res ps2 :=
  let data := if ps_ext s then Z.lor byte (Z.shiftl 1 8) else byte in
  p ← pipe_post (kbd_pipe s) [Z.land data 0xFF; Z.shiftr data 8];
  Ok (mk_ps2 false (ps_count s) (ps_cur s) p (mouse_pipe s) (ps_vt s ++ [byte])).

(** The cases of the [switch] fall through. *)
Definition ps2_handle_mouse (byte : Z) (s : ps2) : res ps2 :=
  if (ps_count s =? 0) && negb (truthy (Z.land byte 8)) then Ok s
  else
    let cur := ps_cur s in
    let cur :=
      if ps_count s =? 0 then mk_raw byte byte byte
      else if ps_count s =? 1 then mk_raw (raw_data cur) byte byte
      else if ps_count s =? 2 then mk_raw (raw_data cur) (raw_mx cur) byte
      else cur in
    let count := u8 (ps_count s + 1) in
    if 3 <=? count then
      p ← pipe_post (mouse_pipe s) [raw_data cur; raw_mx cur; raw_my cur];
      Ok (mk_ps2 (ps_ext s) 0 cur (kbd_pipe s) p (ps_vt s))
    else Ok (mk_ps2 (ps_ext s) count cur (kbd_pipe s) (mouse_pipe s) (ps_vt s)).

(** The handlers of interrupts 1 and 12, for the byte read from the data port *)
Definition irq1_handler (byte : Z) (s : ps2) : res ps2 :=
  if byte =? 0xE0
  then Ok (mk_ps2 true (ps_count s) (ps_cur s) (kbd_pipe s) (mouse_pipe s) (ps_vt s))
  else ps2_handle_keyboard byte s.
Definition irq12_handler (byte : Z) (s : ps2) : res ps2 := ps2_handle_mouse byte s.

Definition PS2_MOUSE_PACKETS_PER_PIPE : Z := 128.

(** What [k_dev_ps2_init] leaves behind *)
Definition k_dev_ps2_init : ps2 :=
  mk_ps2 false 0 (mk_raw 0 0 0) (pipe_create 128) (pipe_create (PS2_MOUSE_PACKETS_PER_PIPE * 3)) [].

Fixpoint feed (irq : Z → ps2 → res ps2) (bytes : list Z) (s : ps2) : res ps2 :=
  match bytes with
  | [] => Ok s
  | b :: bytes => s' ← irq b s; feed irq bytes s'
  end.

(** ** Reading the devices, as [compose_sv_tick] does

    The answer of a non-blocking [read] that is not positive ends the loop: [None]. *)

Definition pipe_fetch (p : pipe_t) (size : Z) : res (option (list Z) * pipe_t) :=
  match pipe_read O_NOBLOCK [] (Some p) size with
  | inr (PRet (r, bs) p' _) => if s32 r <=? 0 then Ok (None, p') else Ok (Some bs, p')
  | inr (PAsleep _ _) => OutOfFuel
  | _ => Fault
  end.

(** Two bytes are stored in the low half of a pointer; [input_kbd_create_packet] looks at
    the lowest nine bits only. *)
Definition kbd_read (p : pipe_t) : res (option keyboard_packet_t * pipe_t) :=
  '(o, p') ← pipe_fetch p 2;
  match o with
  | Some [lo; hi] => Ok (Some (input_kbd_create_packet (lo + 256 * hi)), p')
  | _ => Ok (None, p')
  end.

(** The inner [option] is the packet libinput refuses. *)
Definition mouse_read (p : pipe_t) : res (option (option mouse_packet_t) * pipe_t) :=
  '(o, p') ← pipe_fetch p 3;
  match o with
  | Some [d; x; y] => Ok (Some (input_mouse_create_packet (mk_raw d x y)), p')
  | _ => Ok (None, p')
  end.

Section read_all.
Context {A : Type} (read : pipe_t → res (option A * pipe_t)).
(** Reads until the device has nothing more to give; [fuel] bounds the packets. *)
Fixpoint read_all (fuel : nat) (p : pipe_t) : res (list A * pipe_t) :=
  match fuel with
  | O => OutOfFuel
  | S fuel =>
      '(o, p1) ← read p;
      match o with
      | None => Ok ([], p1)
      | Some a => '(l, p2) ← read_all fuel p1; Ok (a :: l, p2)
      end
  end.
End read_all.

(** ** Every key press and every mouse movement arrives *)

Section streams.
Implicit Types (p : pipe_t) (s : ps2).

Lemma pipe_create_wf size : 2 ≤ size < 2 ^ 32 → pipe_wf (pipe_create size).
Proof. intros. split; [|done]. unfold rb_wf. cbn. rewrite length_replicate. lia. Qed.

Lemma pipe_create_view size : pipe_view (pipe_create size) = [].
Proof. unfold pipe_view, rb_view, rb_used. cbn. by rewrite Zmod_0_l. Qed.

Lemma pipe_post_takes p data :
  pipe_wf p →
  ∃ p', pipe_post p data = Ok p' ∧ pipe_wf p' ∧ p_size p' = p_size p ∧
    pipe_view p' = pipe_view p ++ take (pipe_cap p - length (pipe_view p)) data.
Proof.
  intros Hwf. destruct (pipe_write_go_spec true [] p data 0 [] Hwf) as (p1 & Hw & Hs & Hv & He).
  unfold pipe_post, pipe_write. change (truthy (Z.land O_NOBLOCK O_NOBLOCK)) with true.
  rewrite He. cbn [orb]. exists (pipe_notified p1 0).
  destruct (pipe_notified_wf p1 0 Hw) as [? ->]. split_and!; [done..|]. rewrite Hv. f_equal.
  destruct (Nat.min_spec (length data) (pipe_cap p - length (pipe_view p))) as [[? ->]|[? ->]];
    [by rewrite !take_ge by lia|done].
Qed.

Lemma pipe_post_ok p data :
  pipe_wf p → (length data ≤ pipe_cap p - length (pipe_view p))%nat →
  ∃ p', pipe_post p data = Ok p' ∧ pipe_wf p' ∧ p_size p' = p_size p ∧
    pipe_view p' = pipe_view p ++ data.
Proof.
  intros Hwf Hl. destruct (pipe_post_takes p data Hwf) as (p' & ? & ? & ? & Hv). exists p'.
  by rewrite take_ge in Hv by done.
Qed.

Lemma pipe_fetch_ok p size :
  pipe_wf p → 0 < size < 2 ^ 31 → size ≤ Z.of_nat (length (pipe_view p)) →
  ∃ p', pipe_fetch p size = Ok (Some (take (Z.to_nat size) (pipe_view p)), p') ∧ pipe_wf p' ∧
    p_size p' = p_size p ∧ pipe_view p' = drop (Z.to_nat size) (pipe_view p).
Proof.
  intros Hwf Hs Hl. unfold pipe_fetch, pipe_read. change (truthy (Z.land O_NOBLOCK O_NOBLOCK)) with true.
  change (pipe_read_available p) with (ringbuffer_read_available (pipe_ring p)).
  pose proof Hwf as [Hr _]. rewrite read_available_used, <- length_rb_view by done.
  change (rb_view (pipe_ring p)) with (pipe_view p).
  rewrite (proj2 (Z.ltb_ge _ _)) by done. cbn [andb].
  destruct (pipe_read_go_spec [] p (Z.to_nat size) [] size [] Hwf) as (p1 & ? & ? & Hv & ->).
  rewrite (proj2 (Nat.leb_le _ _)) by lia. rewrite s32_small by lia.
  rewrite (proj2 (Z.leb_gt _ _)) by lia. exists (pipe_notified p1 1).
  destruct (pipe_notified_wf p1 1) as [? Hn]; [done|]. rewrite Hn. done.
Qed.

Lemma pipe_fetch_none p size :
  pipe_wf p → 0 ≤ size → Z.of_nat (length (pipe_view p)) < size → pipe_fetch p size = Ok (None, p).
Proof.
  intros Hwf Hs Hl. unfold pipe_fetch, pipe_read. change (truthy (Z.land O_NOBLOCK O_NOBLOCK)) with true.
  change (pipe_read_available p) with (ringbuffer_read_available (pipe_ring p)).
  pose proof Hwf as [Hr _]. rewrite read_available_used, <- length_rb_view by done.
  change (rb_view (pipe_ring p)) with (pipe_view p). by rewrite (proj2 (Z.ltb_lt _ _)) by done.
Qed.

(** A fact about all bytes, by evaluation *)
Lemma all_bytes (P : Z → bool) c : forallb P (seqZ 0 256) = true → 0 ≤ c < 256 → P c = true.
Proof.
  intros Hall Hc. rewrite forallb_forall in Hall. apply Hall.
  apply list_elem_of_In, elem_of_seqZ. lia.
Qed.

Lemma split_word (e : bool) c : 0 ≤ c < 256 →
  let data := if e then Z.lor c (Z.shiftl 1 8) else c in
  Z.land data 0xFF = c ∧ Z.shiftr data 8 = b2z e.
Proof.
  intros Hc. pose proof (all_bytes (λ c, let data := if e then Z.lor c (Z.shiftl 1 8) else c in
    (Z.land data 0xFF =? c) && (Z.shiftr data 8 =? b2z e))%bool c) as H.
  cbv zeta in *. destruct e; specialize (H ltac:(by vm_compute) Hc); breflect; done.
Qed.

(** A key going down or up: extended or not, and its code *)
Definition key : Type := bool * Z.
Definition key_ok (k : key) : Prop := 0 ≤ snd k < 256 ∧ snd k ≠ 0xE0.
Definition key_bytes (k : key) : list Z := (if fst k then [0xE0] else []) ++ [snd k].
Definition key_word (k : key) : list Z := [snd k; b2z (fst k)].
Definition key_packet (k : key) : keyboard_packet_t :=
  input_kbd_create_packet (snd k + 256 * b2z (fst k)).

Lemma feed_app irq b1 b2 s s' :
  feed irq b1 s = Ok s' → feed irq (b1 ++ b2) s = feed irq b2 s'.
Proof.
  revert s. induction b1 as [|b b1 IH]; cbn; intros s H; [by injection H as ->|].
  apply bind_ok_inv in H as (s1 & -> & H). rewrite bind_ok. by apply IH.
Qed.

Lemma irq1_key k s :
  key_ok k → pipe_wf (kbd_pipe s) → ps_ext s = false →
  (2 ≤ pipe_cap (kbd_pipe s) - length (pipe_view (kbd_pipe s)))%nat →
  ∃ s', feed irq1_handler (key_bytes k) s = Ok s' ∧ pipe_wf (kbd_pipe s') ∧ ps_ext s' = false ∧
    p_size (kbd_pipe s') = p_size (kbd_pipe s) ∧
    pipe_view (kbd_pipe s') = pipe_view (kbd_pipe s) ++ key_word k.
Proof.
  destruct k as [e c]. intros [Hc Hne] Hwf Hext Hroom. cbn [fst snd] in *.
  pose proof (split_word e c Hc) as [Hlo Hhi]. unfold key_word. cbn [fst snd].
  destruct (pipe_post_ok (kbd_pipe s)
    [Z.land (if e then Z.lor c (Z.shiftl 1 8) else c) 0xFF;
     Z.shiftr (if e then Z.lor c (Z.shiftl 1 8) else c) 8] Hwf Hroom) as (p' & Hp & Hwf' & Hs & Hv).
  rewrite Hlo, Hhi in Hv. clear Hlo Hhi. destruct e; unfold key_bytes; cbn [fst snd app feed]; unfold irq1_handler.
  - rewrite Z.eqb_refl, bind_ok, (proj2 (Z.eqb_neq _ _)) by done.
    unfold ps2_handle_keyboard. cbn [ps_ext kbd_pipe]. rewrite Hp, !bind_ok. by eexists.
  - rewrite (proj2 (Z.eqb_neq _ _)) by done.
    unfold ps2_handle_keyboard. rewrite Hext, Hp, !bind_ok. by eexists.
Qed.

Lemma irq1_plain k s p :
  0 ≤ k < 256 → k ≠ 0xE0 → ps_ext s = false → pipe_post (kbd_pipe s) [k; 0] = Ok p →
  irq1_handler k s = Ok (mk_ps2 false (ps_count s) (ps_cur s) p (mouse_pipe s) (ps_vt s ++ [k])).
Proof.
  intros Hk Hne He Hp. unfold irq1_handler. rewrite (proj2 (Z.eqb_neq _ _)) by done.
  unfold ps2_handle_keyboard. rewrite He. destruct (split_word false k Hk) as [Hlo Hhi].
  cbv zeta iota in Hlo, Hhi. cbv zeta iota. rewrite Hlo, Hhi. change (b2z false) with 0.
  by rewrite Hp, bind_ok.
Qed.

Lemma length_key_words ks : length (ks ≫= key_word) = (2 * length ks)%nat.
Proof. induction ks as [|k ks IH]; [done|]. cbn [mbind list_bind]. rewrite length_app, IH. cbn. lia. Qed.

Lemma irq1_keys ks s :
  Forall key_ok ks → pipe_wf (kbd_pipe s) → ps_ext s = false →
  (2 * length ks ≤ pipe_cap (kbd_pipe s) - length (pipe_view (kbd_pipe s)))%nat →
  ∃ s', feed irq1_handler (ks ≫= key_bytes) s = Ok s' ∧ pipe_wf (kbd_pipe s') ∧ ps_ext s' = false ∧
    p_size (kbd_pipe s') = p_size (kbd_pipe s) ∧
    pipe_view (kbd_pipe s') = pipe_view (kbd_pipe s) ++ (ks ≫= key_word).
Proof.
  intros Hks. revert s. induction Hks as [|k ks Hk Hks IH]; intros s Hwf Hext Hroom.
  { exists s. cbn. by rewrite app_nil_r. }
  cbn [length] in Hroom. destruct (irq1_key k s) as (s1 & H1 & Hwf1 & Hext1 & Hs1 & Hv1); [done..|lia|].
  assert (Hc : pipe_cap (kbd_pipe s1) = pipe_cap (kbd_pipe s)) by (unfold pipe_cap; by rewrite Hs1).
  destruct (IH s1) as (s2 & H2 & Hwf2 & Hext2 & Hs2 & Hv2); [done..| |].
  { rewrite Hc, Hv1, length_app. cbn. lia. }
  exists s2. cbn [mbind list_bind]. rewrite (feed_app _ _ _ _ _ H1), H2, Hv2, Hv1, Hs2, <- app_assoc.
  done.
Qed.

Lemma kbd_read_ok p k bs :
  pipe_wf p → pipe_view p = key_word k ++ bs →
  ∃ p', kbd_read p = Ok (Some (key_packet k), p') ∧ pipe_wf p' ∧ p_size p' = p_size p ∧
    pipe_view p' = bs.
Proof.
  intros Hwf Hv. destruct (pipe_fetch_ok p 2 Hwf) as (p' & Hf & Hwf' & Hs & Hv'); [lia| |].
  { rewrite Hv, length_app. cbn. lia. }
  exists p'. unfold kbd_read. rewrite Hf, bind_ok, Hv', Hv. cbn. done.
Qed.

Lemma kbd_read_all_ok ks rest p :
  pipe_wf p → pipe_view p = (ks ≫= key_word) ++ rest → (length rest < 2)%nat →
  ∃ p', read_all kbd_read (S (length ks)) p = Ok (key_packet <$> ks, p') ∧ pipe_wf p' ∧
    p_size p' = p_size p ∧ pipe_view p' = rest.
Proof.
  intros Hwf Hv Hl. revert p Hwf Hv. induction ks as [|k ks IH]; intros p Hwf Hv.
  - cbn in Hv. exists p. cbn [read_all length]. unfold kbd_read. rewrite pipe_fetch_none; [done..|lia|].
    rewrite Hv. lia.
  - cbn [mbind list_bind] in Hv. rewrite <- app_assoc in Hv.
    destruct (kbd_read_ok p k _ Hwf Hv) as (p1 & H1 & Hwf1 & Hs1 & Hv1).
    destruct (IH p1 Hwf1 Hv1) as (p2 & H2 & Hwf2 & Hs2 & Hv2). exists p2. rewrite Hs2.
    change (length (k :: ks)) with (S (length ks)). cbn [read_all]. rewrite H1, bind_ok.
    cbn [read_all length] in H2. by rewrite H2, bind_ok.
Qed.

(** *** The mouse *)

Definition mouse_ok (m : ps_mouse_packet_t) : Prop := truthy (Z.land (raw_data m) 8) = true.
Definition mouse_bytes (m : ps_mouse_packet_t) : list Z := [raw_data m; raw_mx m; raw_my m].

Lemma irq12_noise b s :
  ps_count s = 0 → truthy (Z.land b 8) = false → irq12_handler b s = Ok s.
Proof. intros Hc Hb. unfold irq12_handler, ps2_handle_mouse. by rewrite Hc, Hb. Qed.

Lemma irq12_packet m s :
  mouse_ok m → pipe_wf (mouse_pipe s) → ps_count s = 0 →
  (3 ≤ pipe_cap (mouse_pipe s) - length (pipe_view (mouse_pipe s)))%nat →
  ∃ s', feed irq12_handler (mouse_bytes m) s = Ok s' ∧ pipe_wf (mouse_pipe s') ∧ ps_count s' = 0 ∧
    p_size (mouse_pipe s') = p_size (mouse_pipe s) ∧
    pipe_view (mouse_pipe s') = pipe_view (mouse_pipe s) ++ mouse_bytes m.
Proof.
  destruct m as [d x y]. unfold mouse_ok. cbn [raw_data]. intros Hm Hwf Hc Hroom.
  destruct (pipe_post_ok (mouse_pipe s) [d; x; y] Hwf Hroom) as (p' & Hp & Hwf' & Hs & Hv).
  unfold mouse_bytes. cbn [raw_data raw_mx raw_my feed].
  unfold irq12_handler, ps2_handle_mouse. rewrite Hc, Hm.
  change (u8 (0 + 1)) with 1. cbn -[pipe_post u8 mbind]. rewrite bind_ok. cbn -[pipe_post u8 mbind].
  change (u8 (1 + 1)) with 2. cbn -[pipe_post u8 mbind]. rewrite bind_ok. cbn -[pipe_post u8 mbind].
  change (u8 (2 + 1)) with 3. cbn -[pipe_post u8 mbind]. rewrite Hp, !bind_ok. by eexists.
Qed.

Lemma irq12_packets ms s :
  Forall mouse_ok ms → pipe_wf (mouse_pipe s) → ps_count s = 0 →
  (3 * length ms ≤ pipe_cap (mouse_pipe s) - length (pipe_view (mouse_pipe s)))%nat →
  ∃ s', feed irq12_handler (ms ≫= mouse_bytes) s = Ok s' ∧ pipe_wf (mouse_pipe s') ∧ ps_count s' = 0 ∧
    pipe_view (mouse_pipe s') = pipe_view (mouse_pipe s) ++ (ms ≫= mouse_bytes).
Proof.
  intros Hms. revert s. induction Hms as [|m ms Hm Hms IH]; intros s Hwf Hc Hroom.
  { exists s. cbn. by rewrite app_nil_r. }
  cbn [length] in Hroom.
  destruct (irq12_packet m s) as (s1 & H1 & Hwf1 & Hc1 & Hs1 & Hv1); [done..|lia|].
  assert (Hcap : pipe_cap (mouse_pipe s1) = pipe_cap (mouse_pipe s)) by (unfold pipe_cap; by rewrite Hs1).
  destruct (IH s1) as (s2 & H2 & Hwf2 & Hc2 & Hv2); [done..| |].
  { rewrite Hcap, Hv1, length_app. cbn. lia. }
  exists s2. cbn [mbind list_bind]. rewrite (feed_app _ _ _ _ _ H1), H2, Hv2, Hv1, <- app_assoc. done.
Qed.

Lemma mouse_read_ok p m bs :
  pipe_wf p → pipe_view p = mouse_bytes m ++ bs →
  ∃ p', mouse_read p = Ok (Some (input_mouse_create_packet m), p') ∧ pipe_wf p' ∧ pipe_view p' = bs.
Proof.
  intros Hwf Hv. destruct (pipe_fetch_ok p 3 Hwf) as (p' & Hf & Hwf' & _ & Hv'); [lia| |].
  { rewrite Hv, length_app. cbn. lia. }
  exists p'. unfold mouse_read. rewrite Hf, bind_ok, Hv', Hv. by destruct m.
Qed.

Lemma mouse_read_all_ok ms p :
  pipe_wf p → pipe_view p = ms ≫= mouse_bytes →
  ∃ p', read_all mouse_read (S (length ms)) p = Ok (input_mouse_create_packet <$> ms, p') ∧
    pipe_view p' = [].
Proof.
  revert p. induction ms as [|m ms IH]; intros p Hwf Hv.
  - exists p. cbn [read_all length]. unfold mouse_read. rewrite pipe_fetch_none; [done..|lia|].
    rewrite Hv. cbn. lia.
  - destruct (mouse_read_ok p m _ Hwf Hv) as (p1 & H1 & Hwf1 & Hv1).
    destruct (IH p1 Hwf1 Hv1) as (p2 & H2 & Hv2). exists p2.
    change (length (m :: ms)) with (S (length ms)). cbn [read_all]. rewrite H1, bind_ok.
    cbn [read_all length] in H2. by rewrite H2, bind_ok.
Qed.
End streams.

(** ** The keyboard and the mouse as streams *)

(** Keys pressed and released while no more than 63 of them are unread come out as the
    packets of exactly those keys, in order, and the device is empty again. *)
Theorem keys_arrive (ks : list key) :
  Forall key_ok ks → (length ks ≤ 63)%nat →
  ∃ s p, feed irq1_handler (ks ≫= key_bytes) k_dev_ps2_init = Ok s ∧
    read_all kbd_read (S (length ks)) (kbd_pipe s) = Ok (key_packet <$> ks, p) ∧ pipe_view p = [].
Proof.
  intros Hks Hl. destruct (irq1_keys ks k_dev_ps2_init) as (s & Hs & Hwf & _ & _ & Hv); [done| |done| |].
  { apply pipe_create_wf. lia. }
  { cbn [kbd_pipe mouse_pipe k_dev_ps2_init]. rewrite pipe_create_view. change (pipe_cap _) with 127%nat. cbn. lia. }
  destruct (kbd_read_all_ok ks [] (kbd_pipe s) Hwf) as (p & Hr & _ & _ & Hp);
    [by rewrite Hv, app_nil_r|cbn; lia|]. by exists s, p.
Qed.

Lemma keys_arrive_witness :
  ∃ s p, feed irq1_handler [42; 30; 0xE0; 0x4B; 158] k_dev_ps2_init = Ok s ∧
    read_all kbd_read 5 (kbd_pipe s) =
      Ok ([mk_kbd 42 0; mk_kbd 30 0; mk_kbd KEY_LEFT 2; mk_kbd 30 1], p) ∧ pipe_view p = [].
Proof.
  apply (keys_arrive [(false, 42); (false, 30); (true, 0x4B); (false, 158)]).
  - repeat constructor; cbn; lia.
  - cbn. lia.
Defined.

(** Movements whose first byte has its bit 3 set, no more than 127 of them unread, are
    read in order; bytes without that bit in between are dropped. *)
Theorem movements_arrive (noise : list Z) (ms : list ps_mouse_packet_t) :
  Forall (λ b, truthy (Z.land b 8) = false) noise → Forall mouse_ok ms → (length ms ≤ 127)%nat →
  ∃ s p, feed irq12_handler (noise ++ (ms ≫= mouse_bytes)) k_dev_ps2_init = Ok s ∧
    read_all mouse_read (S (length ms)) (mouse_pipe s) = Ok (input_mouse_create_packet <$> ms, p) ∧
    pipe_view p = [].
Proof.
  intros Hn Hms Hl.
  assert (H0 : feed irq12_handler noise k_dev_ps2_init = Ok k_dev_ps2_init).
  { induction Hn as [|b noise Hb Hn IH]; [done|]. cbn [feed]. by rewrite irq12_noise, bind_ok. }
  destruct (irq12_packets ms k_dev_ps2_init) as (s & Hs & Hwf & _ & Hv); [done| |done| |].
  { apply pipe_create_wf. unfold PS2_MOUSE_PACKETS_PER_PIPE. lia. }
  { cbn [kbd_pipe mouse_pipe k_dev_ps2_init]. rewrite pipe_create_view. change (pipe_cap _) with 383%nat. cbn. lia. }
  destruct (mouse_read_all_ok ms (mouse_pipe s) Hwf Hv) as (p & Hr & Hp).
  exists s, p. by rewrite (feed_app _ _ _ _ _ H0).
Qed.

Lemma movements_arrive_witness :
  ∃ s p, feed irq12_handler [3; 0; 8; 5; 6; 0x39; 250; 1] k_dev_ps2_init = Ok s ∧
    read_all mouse_read 3 (mouse_pipe s) =
      Ok ([Some (mk_mouse 5 6 0); Some (mk_mouse (-6) (-255) 1)], p) ∧ pipe_view p = [].
Proof.
  apply (movements_arrive [3; 0] [mk_raw 8 5 6; mk_raw 0x39 250 1]).
  - by repeat constructor.
  - by repeat constructor.
  - cbn. lia.
Defined.

(** A program has emptied the keyboard's pipe. *)
Definition with_kbd_pipe (s : ps2) (p : pipe_t) : ps2 :=
  mk_ps2 (ps_ext s) (ps_count s) (ps_cur s) p (mouse_pipe s) (ps_vt s).

(** The pipe holds an odd number of bytes: when 63 keys are unread, the low half of the
    next one is kept and its high half lost.  From then on the reader takes the low half
    of every key for the high half of the one before. *)
Theorem full_keyboard_desyncs (ks : list key) (k1 k2 : Z) :
  Forall key_ok ks → length ks = 63%nat → key_ok (false, k1) → key_ok (false, k2) →
  ∃ s p s' p',
    feed irq1_handler ((ks ≫= key_bytes) ++ [k1]) k_dev_ps2_init = Ok s ∧
    read_all kbd_read 64 (kbd_pipe s) = Ok (key_packet <$> ks, p) ∧
    irq1_handler k2 (with_kbd_pipe s p) = Ok s' ∧
    kbd_read (kbd_pipe s') = Ok (Some (input_kbd_create_packet (k1 + 256 * k2)), p') ∧
    pipe_view p' = [0].
Proof.
  intros Hks Hl [Hk1 Hne1] [Hk2 Hne2]. cbn [snd] in *.
  destruct (irq1_keys ks k_dev_ps2_init) as (s & Hs & Hwf & He & Hsz & Hv); [done| |done| |].
  { apply pipe_create_wf. lia. }
  { cbn [kbd_pipe mouse_pipe k_dev_ps2_init]. rewrite pipe_create_view. change (pipe_cap _) with 127%nat. cbn. lia. }
  change (p_size (kbd_pipe k_dev_ps2_init)) with 128 in Hsz.
  cbn [kbd_pipe k_dev_ps2_init] in Hv. rewrite pipe_create_view in Hv. cbn [app] in Hv.
  assert (Hvl : length (pipe_view (kbd_pipe s)) = 126%nat).
  { rewrite Hv, length_key_words. lia. }
  destruct (pipe_post_takes (kbd_pipe s) [k1; 0] Hwf) as (p1 & Hp1 & Hwf1 & Hsz1 & Hv1).
  unfold pipe_cap in Hv1. rewrite Hvl, Hsz in Hv1. cbn [take] in Hv1.
  change (Z.to_nat (128 - 1) - 126)%nat with 1%nat in Hv1. cbn [take] in Hv1. rewrite Hv in Hv1.
  destruct (kbd_read_all_ok ks [k1] p1 Hwf1 Hv1) as (p2 & Hr & Hwf2 & Hsz2 & Hv2); [cbn; lia|].
  rewrite Hl in Hr.
  destruct (pipe_post_ok p2 [k2; 0] Hwf2) as (p3 & Hp3 & Hwf3 & _ & Hv3).
  { unfold pipe_cap. rewrite Hv2, Hsz2, Hsz1, Hsz. cbn. lia. }
  rewrite Hv2 in Hv3. cbn [app] in Hv3.
  destruct (pipe_fetch_ok p3 2 Hwf3) as (p4 & Hf4 & _ & _ & Hv4); [lia|rewrite Hv3; cbn; lia|].
  rewrite Hv3 in Hf4, Hv4.
  exists (mk_ps2 false (ps_count s) (ps_cur s) p1 (mouse_pipe s) (ps_vt s ++ [k1])), p2,
    (mk_ps2 false (ps_count s) (ps_cur s) p3 (mouse_pipe s) ((ps_vt s ++ [k1]) ++ [k2])), p4.
  split_and!; [|exact Hr| | |exact Hv4].
  - rewrite (feed_app _ _ _ _ _ Hs). cbn [feed].
    by rewrite (irq1_plain k1 s p1).
  - by rewrite (irq1_plain k2 (with_kbd_pipe _ p2) p3).
  - unfold kbd_read. cbn [kbd_pipe]. by rewrite Hf4.
Qed.

Lemma full_keyboard_desyncs_witness :
  ∃ s p s' p',
    feed irq1_handler ((replicate 63 (false, 30) ≫= key_bytes) ++ [48]) k_dev_ps2_init = Ok s ∧
    read_all kbd_read 64 (kbd_pipe s) = Ok (replicate 63 (mk_kbd 30 0), p) ∧
    irq1_handler 33 (with_kbd_pipe s p) = Ok s' ∧
    kbd_read (kbd_pipe s') = Ok (Some (mk_kbd 0 2), p') ∧ pipe_view p' = [0].
Proof.
  apply (full_keyboard_desyncs (replicate 63 (false, 30)) 48 33).
  - apply Forall_replicate. split; [cbn; lia|done].
  - done.
  - split; [cbn; lia|done].
  - split; [cbn; lia|done].
Defined.

(** ** Translation of scancodes *)

(** The character of every key, modifiers apart, is the entry of the table; the shift key
    selects the second table, caps lock exchanges the case of letters and nothing else. *)
Theorem caps_exchanges_case (c mods : Z) :
  0 ≤ c < 128 → 0 ≤ mods < 8 → truthy (Z.land mods KBD_MOD_CTRL) = false →
  ∃ t, input_kbd_translate c mods = Ok t ∧
    of_option ((if truthy (Z.land mods KBD_MOD_SHIFT) then scancodes_shifted else scancodes)
                 !! Z.to_nat c) = Ok t ∧
    input_kbd_translate c (Z.lor mods KBD_MOD_CAPS) =
      Ok (if truthy (isupper t) then tolower t else if truthy (islower t) then toupper t else t).
Proof.
  intros Hc Hm Hctrl.
  pose proof (all_bytes (λ c, (128 <=? c) || forallb (λ mods, truthy (Z.land mods KBD_MOD_CTRL) ||
    match input_kbd_translate c mods with
    | Ok t =>
        bool_decide (of_option ((if truthy (Z.land mods KBD_MOD_SHIFT) then scancodes_shifted
                                 else scancodes) !! Z.to_nat c) = Ok t) &&
        bool_decide (input_kbd_translate c (Z.lor mods KBD_MOD_CAPS) =
          Ok (if truthy (isupper t) then tolower t else if truthy (islower t) then toupper t else t))
    | _ => false
    end) (seqZ 0 8))%bool c ltac:(by vm_compute) ltac:(lia)) as H.
  cbv beta in H. rewrite (proj2 (Z.leb_gt _ _)), orb_false_l, forallb_forall in H by lia.
  specialize (H mods). rewrite <- list_elem_of_In, elem_of_seqZ, Hctrl in H. cbn [orb] in H.
  specialize (H ltac:(lia)). destruct (input_kbd_translate c mods) as [t| | |]; [|done..].
  breflect. by exists t.
Qed.

Lemma caps_exchanges_case_witness :
  ∃ t, input_kbd_translate 30 KBD_MOD_SHIFT = Ok t ∧ Ok 65 = Ok t ∧
    input_kbd_translate 30 10 =
      Ok (if truthy (isupper t) then tolower t else if truthy (islower t) then toupper t else t).
Proof. apply (caps_exchanges_case 30 KBD_MOD_SHIFT); [lia|vm_compute; split; congruence|done]. Defined.

(** The test against the size of the table lets one code too many pass. *)
Theorem translate_overreads (mods : Z) : input_kbd_translate 128 mods = Fault.
Proof.
  unfold input_kbd_translate. change ((128 <? 0) || (128 <? 128))%bool with false. cbv iota.
  destruct (truthy (Z.land mods KBD_MOD_CTRL)); [done|].
  by destruct (truthy (Z.land mods KBD_MOD_SHIFT)).
Qed.
