(* ===== verification/Vt.v ===== *)
(** * kernel/src/dev/vt.c: the virtual terminals

    Eight terminals share the screen; each has a history of what was written to it, a
    display mode and a mode of being switched away.  The keyboard's bytes (Input) arrive in
    [k_dev_vt_handle_scancode], which types into the active terminal or switches.  What
    leaves this file (the frame buffer, the serial line, signals, characters written to
    the master side of a terminal) is recorded as events in program order; the terminal
    itself is Tty.  The spinlock is not modelled: every function returns with the lock it
    took released. *)

From S2P Require Import Prelude Ctype.
From S2P Require Import Pipe Tty Input.

Definition TTY_AMOUNT : Z := 8.
Definition VT_MODE_AUTO : Z := 0.
Definition VT_MODE_PROCESS : Z := 1.
Definition VT_DISP_MODE_TEXT : Z := 0.
Definition VT_DISP_MODE_GRAPHIC : Z := 1.
Definition VT_GETMODE : Z := 0x5600.
Definition VT_SETMODE : Z := 0x5601.
Definition VT_RELDISP : Z := 0x5603.
Definition VT_ACTIVATE : Z := 0x5606.
Definition KDGETMODE : Z := 0x5700.
Definition KDSETMODE : Z := 0x5701.
Definition SIGUSR1 : Z := 10.

Record vt_mode := mk_vt_mode { vm_mode : Z; vm_relsig : Z; vm_acqsig : Z }.

(** [vt_t] with its node: [vt_data] is the block behind [buffer.data], [None] a byte never
    written; [vt_size] is [node->size], [vt_process] is [tty->process]. *)
Record vt_t := mk_vt {
  vt_mode_of : vt_mode;
  vt_display : Z;
  vt_process : Z;
  vt_data : list (option Z);
  vt_occupied : Z;
  vt_size : Z;
  vt_next : Z
}.

(** What reaches the rest of the kernel *)
Inductive vt_event :=
| VtClear (* k_dev_fb_clear(0) *)
| VtRestoreText (text : list (option Z)) (* k_dev_fb_restore_text *)
| VtSave (id : nat) (* k_dev_fb_save into the vcs of a terminal *)
| VtRestore (id : nat) (* k_dev_fb_restore from it *)
| VtSignal (pid sig : Z)
| VtPutchar (c : Z) (* k_dev_fb_putchar *)
| VtSerial (c : Z) (* k_dev_serial_putchar *)
| VtType (id : nat) (c : Z). (* a byte written to the master side *)

Record vts := mk_vts {
  vt_list : list vt_t;
  vt_active : option nat; (* __atty *)
  vt_ex : bool;
  vt_mods : Z;
  vt_pids : list Z; (* the live processes *)
  vt_events : list vt_event
}.

Definition vt_get (s : vts) (i : nat) : res vt_t := of_option (vt_list s !! i).
Definition vt_put (s : vts) (i : nat) (v : vt_t) : vts :=
  mk_vts (<[i := v]> (vt_list s)) (vt_active s) (vt_ex s) (vt_mods s) (vt_pids s) (vt_events s).
Definition vt_emit (s : vts) (e : vt_event) : vts :=
  mk_vts (vt_list s) (vt_active s) (vt_ex s) (vt_mods s) (vt_pids s) (vt_events s ++ [e]).
Definition with_active (s : vts) (a : option nat) : vts :=
  mk_vts (vt_list s) a (vt_ex s) (vt_mods s) (vt_pids s) (vt_events s).
Definition with_keys (s : vts) (ex : bool) (mods : Z) : vts :=
  mk_vts (vt_list s) (vt_active s) ex mods (vt_pids s) (vt_events s).
Definition with_next (v : vt_t) (n : Z) : vt_t :=
  mk_vt (vt_mode_of v) (vt_display v) (vt_process v) (vt_data v) (vt_occupied v) (vt_size v) n.
Definition with_vt_mode (v : vt_t) (m : vt_mode) : vt_t :=
  mk_vt m (vt_display v) (vt_process v) (vt_data v) (vt_occupied v) (vt_size v) (vt_next v).
Definition with_vt_display (v : vt_t) (d : Z) : vt_t :=
  mk_vt (vt_mode_of v) d (vt_process v) (vt_data v) (vt_occupied v) (vt_size v) (vt_next v).
Definition with_history (v : vt_t) d o n : vt_t :=
  mk_vt (vt_mode_of v) (vt_display v) (vt_process v) d o n (vt_next v).

(** [process = find_by_pid(tty->process); if(process) send_signal(process, sig)] *)
Definition vt_signal (s : vts) (pid sig : Z) : vts :=
  if bool_decide (pid ∈ vt_pids s) then vt_emit s (VtSignal pid sig) else s.

(** ** Switching *)

(** [old]: the terminal whose [next] names the one to show *)
Definition vt_finish_switch (old : nat) (s : vts) : res vts :=
  ov ← vt_get s old;
  let number := Z.to_nat (u8 (vt_next ov - 1)) in
  let s := vt_put s old (with_next ov 0) in
  let s := with_active s (Some number) in
  v ← vt_get s number;
  if vm_mode (vt_mode_of v) =? VT_MODE_AUTO then
    if vt_display v =? VT_DISP_MODE_TEXT
    then Ok (vt_emit (vt_emit s VtClear) (VtRestoreText (take (Z.to_nat (vt_occupied v)) (vt_data v))))
    else Ok (vt_emit s (VtRestore number))
  else Ok (vt_signal s (vt_process v) (vm_acqsig (vt_mode_of v))).

Definition k_dev_vt_change (number : Z) (s : vts) : res (Z * vts) :=
  if TTY_AMOUNT <=? number then Ok (- EINVAL, s)
  else
    match vt_active s with
    | Some a =>
        ov ← vt_get s a;
        if vm_mode (vt_mode_of ov) =? VT_MODE_AUTO then
          s' ← vt_finish_switch a (vt_put (vt_emit s (VtSave a)) a (with_next ov (u8 (number + 1))));
          Ok (0, s')
        else
          let s := vt_put s a (with_next ov (u8 (number + 1))) in
          Ok (0, vt_signal s (vt_process ov) (vm_relsig (vt_mode_of ov)))
    | None =>
        ov ← vt_get s (Z.to_nat number);
        s' ← vt_finish_switch (Z.to_nat number)
               (vt_put s (Z.to_nat number) (with_next ov (u8 (number + 1))));
        Ok (0, s')
    end.

(** ** The keyboard *)

Definition MOD_RCTRL : Z := Z.shiftl 1 0.
Definition MOD_LCTRL : Z := Z.shiftl 1 1.
Definition MOD_CTRL : Z := Z.lor MOD_LCTRL MOD_RCTRL.
Definition MOD_RSHIFT : Z := Z.shiftl 1 2.
Definition MOD_LSHIFT : Z := Z.shiftl 1 3.
Definition MOD_SHIFT : Z := Z.lor MOD_LSHIFT MOD_RSHIFT.
Definition MOD_ALT : Z := Z.shiftl 1 4.
Definition MOD_CAPS : Z := Z.shiftl 1 5.

(** The file has its own copy of the two tables of libinput. *)
Definition vt_scancodes : list Z := scancodes.
Definition vt_scancodes_shifted : list Z := scancodes_shifted.

Definition set_mod (mods m : Z) (is_up : bool) : Z :=
  if is_up then u8 (Z.land mods (Z.lnot m)) else Z.lor mods m.

(** The [switch] over the keys without a character *)
Definition update_mods (v mods : Z) (is_up : bool) : Z :=
  if v =? 0x1D then set_mod mods MOD_LCTRL is_up
  else if v =? 0x2A then set_mod mods MOD_LSHIFT is_up
  else if v =? 0x36 then set_mod mods MOD_RSHIFT is_up
  else if v =? 0x38 then set_mod mods MOD_ALT is_up
  else if v =? 0x3A then
    if negb is_up then mods
    else if truthy (Z.land mods MOD_CAPS) then u8 (Z.land mods (Z.lnot MOD_CAPS))
    else Z.lor mods MOD_CAPS
  else mods.

(** The character of a key with one *)
Definition key_char (v mods : Z) : res Z :=
  c ← table_get vt_scancodes v;
  let c := if truthy (Z.land mods MOD_CAPS)
           then if truthy (isupper c) then tolower c else toupper c else c in
  c ← (if truthy (Z.land mods MOD_CTRL) then
         plain ← table_get vt_scancodes v; Ok (translate_ctrl plain)
       else if truthy (Z.land mods MOD_SHIFT) then table_get vt_scancodes_shifted v
       else table_get vt_scancodes v);
  Ok (if c =? 8 then 0x7F else c).

Definition k_dev_vt_handle_scancode (v : Z) (s : vts) : res vts :=
  match vt_active s with
  | None => Ok s
  | Some a =>
      if v =? 0xE0 then Ok (with_keys s true (vt_mods s))
      else if vt_ex s then Ok (with_keys s false (vt_mods s))
      else
        let is_up := truthy (Z.land v 0x80) in
        let v := Z.land v 0x7f in
        if 128 <? v then Ok s
        else
          c ← table_get vt_scancodes v;
          if c =? 0 then
            let s := with_keys s false (update_mods v (vt_mods s) is_up) in
            if negb is_up && truthy (Z.land (vt_mods s) MOD_ALT) && truthy (Z.land (vt_mods s) MOD_CTRL) &&
               (0x3B <=? v) && (v <=? 0x44)
            then '(_, s) ← k_dev_vt_change (v - 0x3B) s; Ok s
            else Ok s
          else if is_up then Ok s
          else
            c ← key_char v (vt_mods s);
            Ok (vt_emit s (VtType a c))
  end.

(** ** The history of a terminal *)

(** The returned value and the bytes copied *)
Definition vt_read (v : option vt_t) (offs size : Z) : res (Z * list (option Z)) :=
  match v with
  | None => Ok (0, [])
  | Some v =>
      if vt_occupied v <=? offs then Ok (0, [])
      else
        let size := if vt_occupied v <=? u32 (offs + size) then u32 (vt_occupied v - offs) else size in
        if size =? 0 then Ok (0, [])
        else if offs + size <=? Z.of_nat (length (vt_data v))
        then Ok (0, take (Z.to_nat size) (drop (Z.to_nat offs) (vt_data v)))
        else Fault
  end.

(** The offset of the caller is ignored. *)
Definition vt_write (v : vt_t) (bytes : list Z) : res (Z * vt_t) :=
  let offs := vt_occupied v in
  let size := Z.of_nat (length bytes) in
  let free_size := u32 (vt_size v - offs) in
  let '(data, nsize) :=
    if free_size <=? size
    then (let n := Z.to_nat (u32 (vt_size v * 2)) in
          (take n (vt_data v) ++ replicate (n - length (vt_data v)) None, u32 (vt_size v * 2)))
    else (vt_data v, vt_size v) in
  if offs + size <=? Z.of_nat (length data) then
    Ok (size, with_history v
      (take (Z.to_nat offs) data ++ (Some <$> bytes) ++ drop (Z.to_nat offs + length bytes) data)
      (u32 (offs + size)) nsize)
  else Fault.

(** The body of the loop of [k_dev_vt_tty_callback]: a character [c] of terminal [id], while
    terminal [a] was active when the callback began.  Taking the characters from the
    terminal is [Tty.vt_drain]. *)
Definition vt_callback_char (a id : nat) (c : Z) (s : vts) : res vts :=
  c_vt ← vt_get s a;
  i_vt ← vt_get s id;
  let s := if (a =? id)%nat && negb (vt_display c_vt =? VT_DISP_MODE_GRAPHIC)
           then vt_emit s (VtPutchar c) else s in
  let s := if (id =? 0)%nat then vt_emit s (VtSerial c) else s in
  if negb (vt_display i_vt =? VT_DISP_MODE_GRAPHIC) then
    '(_, v) ← vt_write i_vt [u8 c]; Ok (vt_put s id v)
  else Ok s.

Fixpoint vt_callback_loop (a id : nat) (cs : list Z) (s : vts) : res vts :=
  match cs with
  | [] => Ok s
  | c :: cs => s' ← vt_callback_char a id c s; vt_callback_loop a id cs s'
  end.

(** [cs]: the characters of the terminal's output buffer up to the first NUL.  Without an
    active terminal the callback dereferences NULL. *)
Definition vt_tty_callback (id : nat) (cs : list Z) (s : vts) : res vts :=
  match vt_active s with
  | None => Fault
  | Some a => vt_callback_loop a id cs s
  end.

(** ** Control requests *)

(** [CHECK_OWNER] *)
Definition not_owner (v : vt_t) (current : Z) : bool :=
  (vm_mode (vt_mode_of v) =? VT_MODE_PROCESS) && truthy (vt_process v) &&
  negb (vt_process v =? current).

(** [args] is the pointer, [mem] the structure there, [None] where [IS_VALID_PTR] fails.
    The number returned is [None] where the function ends without [return].  The structure
    written by [VT_GETMODE] is the third component. *)
Definition vt_ioctl (i : nat) (current req args : Z) (mem : option vt_mode) (s : vts)
    : res (option Z * vts * option vt_mode) :=
  v ← vt_get s i;
  if req =? VT_ACTIVATE then
    if not_owner v current then Ok (Some (- EPERM), s, None)
    else '(r, s) ← k_dev_vt_change (Z.of_nat i) s; Ok (Some r, s, None)
  else if req =? VT_GETMODE then
    match mem with
    | Some _ => Ok (Some 0, s, Some (vt_mode_of v))
    | None => Ok (Some (- EINVAL), s, None)
    end
  else if req =? VT_SETMODE then
    match mem with
    | Some m =>
        if not_owner v current then Ok (Some (- EPERM), s, None)
        else Ok (Some 0, vt_put s i (with_vt_mode v m), None)
    | None => Ok (Some (- EINVAL), s, None)
    end
  else if req =? VT_RELDISP then
    if not_owner v current then Ok (Some (- EPERM), s, None)
    else if vt_next v =? 0 then Ok (Some 0, s, None)
    else
      s ← (if s8 args =? 1 then vt_finish_switch i s else Ok s);
      Ok (None, s, None)
  else if req =? KDGETMODE then Ok (Some (vt_display v), s, None)
  else if req =? KDSETMODE then
    if not_owner v current then Ok (Some (- EPERM), s, None)
    else Ok (Some 0, vt_put s i (with_vt_display v (s8 args)), None)
  else Ok (Some (- EINVAL), s, None).

(** ** Creation *)

(** [__k_dev_vt_create]; the terminal has no process yet *)
Definition vt_create : vt_t :=
  mk_vt (mk_vt_mode VT_MODE_AUTO SIGUSR1 SIGUSR1) VT_DISP_MODE_TEXT 0 (replicate 32 None) 0 32 0.

Definition k_dev_vt_init (pids : list Z) : res vts :=
  '(_, s) ← k_dev_vt_change 0 (mk_vts (replicate (Z.to_nat TTY_AMOUNT) vt_create) None false 0 pids []);
  Ok s.

(** ** Well-formed states *)

(** The block has the size the node says, the text lies in it with a byte to spare, and the
    block is never more than about twice the text. *)
Record vt_wf (v : vt_t) : Prop := {
  vw_block : Z.of_nat (length (vt_data v)) = vt_size v;
  vw_text : 0 ≤ vt_occupied v < vt_size v;
  vw_size : 32 ≤ vt_size v ≤ Z.max 32 (2 * vt_occupied v + 2);
  vw_next : 0 ≤ vt_next v ≤ TTY_AMOUNT
}.

(** Eight terminals, one of them active; only the active one waits for a switch. *)
Record vts_wf (s : vts) : Prop := {
  sw_count : length (vt_list s) = Z.to_nat TTY_AMOUNT;
  sw_each : ∀ i v, vt_list s !! i = Some v → vt_wf v;
  sw_active : ∃ a, vt_active s = Some a ∧ (a < Z.to_nat TTY_AMOUNT)%nat;
  sw_pending : ∀ i v, vt_list s !! i = Some v → vt_active s ≠ Some i → vt_next v = 0
}.

(** What was written to a terminal *)
Definition vt_history (v : vt_t) : list (option Z) := take (Z.to_nat (vt_occupied v)) (vt_data v).

Section vt.
Implicit Types (s : vts) (v : vt_t).

Lemma vt_get_ok s i : vts_wf s → (i < Z.to_nat TTY_AMOUNT)%nat → ∃ v, vt_list s !! i = Some v ∧ vt_wf v.
Proof.
  intros Hs Hi. destruct (lookup_lt_is_Some_2 (vt_list s) i) as [v Hv]; [by rewrite (sw_count s Hs)|].
  exists v. split; [done|]. by apply (sw_each s Hs i).
Qed.

Lemma vt_get_eq s i v : vt_list s !! i = Some v → vt_get s i = Ok v.
Proof. intros H. unfold vt_get. by rewrite H. Qed.

Lemma vt_wf_same v v' :
  vt_data v' = vt_data v → vt_occupied v' = vt_occupied v → vt_size v' = vt_size v →
  0 ≤ vt_next v' ≤ TTY_AMOUNT → vt_wf v → vt_wf v'.
Proof. intros Hd Ho Hs Hn [H1 H2 H3 H4]. constructor; rewrite ?Hd, ?Ho, ?Hs; done. Qed.

(** Replacing a terminal keeps the state well formed if the terminal stays so, and waits for
    nothing unless it is active. *)
Lemma vt_put_wf s i v :
  vts_wf s → vt_wf v → (vt_active s ≠ Some i → vt_next v = 0) → vts_wf (vt_put s i v).
Proof.
  intros [H1 H2 H3 H4] Hv Hn. constructor; cbn; [by rewrite length_insert| |done|].
  - intros j w Hj. destruct (decide (j = i)) as [->|]; [|rewrite list_lookup_insert_ne in Hj by done; eauto].
    assert (i < length (vt_list s))%nat by (apply lookup_lt_Some in Hj; by rewrite length_insert in Hj).
    rewrite list_lookup_insert_eq in Hj by done. by simplify_eq.
  - intros j w Hj Ha. destruct (decide (j = i)) as [->|]; [|rewrite list_lookup_insert_ne in Hj by done; eauto].
    assert (i < length (vt_list s))%nat by (apply lookup_lt_Some in Hj; by rewrite length_insert in Hj).
    rewrite list_lookup_insert_eq in Hj by done. simplify_eq. auto.
Qed.

Lemma vts_wf_emit s e : vts_wf s → vts_wf (vt_emit s e).
Proof. by intros [H1 H2 H3 H4]. Qed.
Lemma vts_wf_keys s ex m : vts_wf s → vts_wf (with_keys s ex m).
Proof. by intros [H1 H2 H3 H4]. Qed.
Lemma vts_wf_signal s pid sig : vts_wf s → vts_wf (vt_signal s pid sig).
Proof. intros. unfold vt_signal. case_if; [by apply vts_wf_emit|done]. Qed.

Lemma vt_list_signal s pid sig : vt_list (vt_signal s pid sig) = vt_list s.
Proof. unfold vt_signal. by case_if. Qed.
Lemma vt_active_signal s pid sig : vt_active (vt_signal s pid sig) = vt_active s.
Proof. unfold vt_signal. by case_if. Qed.

(** Finishing a switch shows the terminal that was asked for. *)
Lemma finish_switch_ok s a v :
  vts_wf s → vt_active s = Some a → vt_list s !! a = Some v → vt_next v ≠ 0 →
  ∃ s', vt_finish_switch a s = Ok s' ∧ vts_wf s' ∧
    vt_active s' = Some (Z.to_nat (vt_next v - 1)) ∧ vt_list s' = <[a := with_next v 0]> (vt_list s).
Proof.
  intros Hs Ha Hv Hn. pose proof (sw_each s Hs a v Hv) as Hvw. pose proof (vw_next v Hvw).
  unfold TTY_AMOUNT in *. set (n := Z.to_nat (vt_next v - 1)).
  assert (Hw : vts_wf (with_active (vt_put s a (with_next v 0)) (Some n))).
  { assert (Hp : vts_wf (vt_put s a (with_next v 0))).
    { apply vt_put_wf; [done| |done]. by apply (vt_wf_same v). }
    destruct Hp as [H1 H2 _ H4]. constructor; cbn in *; [done|done|exists n; split; [done|unfold TTY_AMOUNT, n; lia]|].
    intros i w Hi _. destruct (decide (i = a)) as [->|].
    - rewrite list_lookup_insert_eq in Hi by (apply lookup_lt_Some in Hi; by rewrite length_insert in Hi).
      by simplify_eq.
    - apply (H4 i w Hi). congruence. }
  unfold vt_finish_switch. rewrite (vt_get_eq s a v), bind_ok by done. cbv zeta.
  rewrite u8_small by lia. fold n.
  destruct (vt_get_ok _ n Hw) as (w & Hw' & Hww); [unfold TTY_AMOUNT, n; lia|].
  rewrite (vt_get_eq _ n w), bind_ok by done. case_if; [case_if|].
  - eexists. split; [done|]. by repeat (split; [try by repeat apply vts_wf_emit|]).
  - eexists. split; [done|]. by repeat (split; [try by repeat apply vts_wf_emit|]).
  - eexists. split; [done|]. rewrite vt_active_signal, vt_list_signal.
    split; [by apply vts_wf_signal|done].
Qed.

(** ** Switching as a state machine *)

(** The terminal on the screen, and the one that was asked for while the process that owns
    the screen has not yet released it *)
Record switching := mk_switching { shown : option nat; asked : option nat }.

Definition switching_of s : switching :=
  mk_switching (vt_active s)
    (v ← (a ← vt_active s; vt_list s !! a);
     if vt_next v =? 0 then None else Some (Z.to_nat (vt_next v - 1))).

Definition sw_request (handshake : bool) (n : nat) (w : switching) : switching :=
  if handshake then mk_switching (shown w) (Some n) else mk_switching (Some n) None.
Definition sw_release (w : switching) : switching :=
  match asked w with
  | Some n => mk_switching (Some n) None
  | None => w
  end.

Lemma switching_settled s n :
  vts_wf s → vt_active s = Some n →
  (∀ v, vt_list s !! n = Some v → vt_next v = 0) → switching_of s = mk_switching (Some n) None.
Proof.
  intros Hs Ha Hn. unfold switching_of. rewrite Ha. cbn.
  destruct (sw_active s Hs) as (n' & Ha' & Hlt). replace n' with n in * by congruence.
  destruct (vt_get_ok s n Hs Hlt) as (v & Hv & _). rewrite Hv. cbn. by rewrite (Hn v Hv).
Qed.

Lemma finish_switch_settles s a v :
  vts_wf s → vt_active s = Some a → vt_list s !! a = Some v → vt_next v ≠ 0 →
  ∃ s', vt_finish_switch a s = Ok s' ∧ vts_wf s' ∧
    switching_of s' = mk_switching (Some (Z.to_nat (vt_next v - 1))) None.
Proof.
  intros Hs Ha Hv Hn. destruct (finish_switch_ok s a v Hs Ha Hv Hn) as (s' & He & Hw & Ha' & Hl).
  exists s'. split_and!; [done|done|]. apply switching_settled; [done|done|].
  intros w Hw'. rewrite Hl in Hw'. destruct (decide (a = Z.to_nat (vt_next v - 1))) as [Heq|Hne].
  - rewrite <- Heq, list_lookup_insert_eq in Hw' by by eapply lookup_lt_Some. by simplify_eq.
  - rewrite list_lookup_insert_ne in Hw' by done. apply (sw_pending s Hs _ w Hw'). congruence.
Qed.

Lemma change_ok s a v n :
  vts_wf s → vt_active s = Some a → vt_list s !! a = Some v → 0 ≤ n < TTY_AMOUNT →
  ∃ s', k_dev_vt_change n s = Ok (0, s') ∧ vts_wf s' ∧
    switching_of s' =
      sw_request (negb (vm_mode (vt_mode_of v) =? VT_MODE_AUTO)) (Z.to_nat n) (switching_of s).
Proof.
  intros Hs Ha Hv Hn. unfold k_dev_vt_change. rewrite (proj2 (Z.leb_gt _ _)) by lia.
  rewrite Ha, (vt_get_eq s a v), bind_ok by done. unfold TTY_AMOUNT in *.
  rewrite u8_small by lia. set (v' := with_next v (n + 1)).
  assert (Hw : ∀ s0, vts_wf s0 → vt_active s0 = Some a → vts_wf (vt_put s0 a v')).
  { intros s0 Hs0 Ha0. apply vt_put_wf; [done| |by rewrite Ha0].
    apply (vt_wf_same v); try done; [subst v'; unfold TTY_AMOUNT; cbn; lia|by apply (sw_each s Hs a)]. }
  assert (Hl : (a < length (vt_list s))%nat) by by eapply lookup_lt_Some.
  destruct (vm_mode (vt_mode_of v) =? VT_MODE_AUTO) eqn:Em; cbn [negb sw_request].
  - destruct (finish_switch_settles (vt_put (vt_emit s (VtSave a)) a v') a v') as (s' & He & Hw' & Hsw).
    { apply Hw; [by apply vts_wf_emit|done]. } { done. } { cbn. by apply list_lookup_insert_eq. }
    { subst v'. cbn. lia. }
    exists s'. rewrite He, bind_ok. split_and!; [done|done|]. rewrite Hsw. subst v'. cbn.
    by replace (n + 1 - 1) with n by lia.
  - eexists. split; [done|]. split; [apply vts_wf_signal; by apply Hw|].
    unfold switching_of. rewrite vt_active_signal, vt_list_signal. cbn. rewrite Ha. cbn.
    rewrite list_lookup_insert_eq by done. cbn. rewrite (proj2 (Z.eqb_neq _ _)) by lia.
    by replace (n + 1 - 1) with n by lia.
Qed.

Lemma reldisp_ok s a v cur args mem :
  vts_wf s → vt_active s = Some a → vt_list s !! a = Some v → s8 args = 1 → not_owner v cur = false →
  ∃ r s', vt_ioctl a cur VT_RELDISP args mem s = Ok (r, s', None) ∧ vts_wf s' ∧
    switching_of s' = sw_release (switching_of s).
Proof.
  intros Hs Ha Hv Hargs Hown. unfold vt_ioctl. rewrite (vt_get_eq s a v), bind_ok by done.
  change (VT_RELDISP =? VT_ACTIVATE) with false. change (VT_RELDISP =? VT_GETMODE) with false.
  change (VT_RELDISP =? VT_SETMODE) with false. change (VT_RELDISP =? VT_RELDISP) with true. cbv iota.
  rewrite Hown. destruct (vt_next v =? 0) eqn:En.
  - exists (Some 0), s. split_and!; [done|done|]. unfold sw_release, switching_of at 2. rewrite Ha. cbn.
    rewrite Hv. cbn. by rewrite En.
  - apply Z.eqb_neq in En. destruct (finish_switch_settles s a v Hs Ha Hv En) as (s' & He & Hw & Hsw).
    exists None, s'. rewrite Hargs. cbn. rewrite He. split_and!; [done|done|]. rewrite Hsw.
    unfold sw_release, switching_of. rewrite Ha. cbn. rewrite Hv. cbn.
    by rewrite (proj2 (Z.eqb_neq _ _)).
Qed.
End vt.

(** C29: Switching terminals is the machine above.  Asking for terminal [n] shows it at once when
    the one on the screen is in automatic mode; otherwise the owner is signalled and [n] is
    only noted (a later request replaces it) until the owner releases the screen; another
    process may not. *)
Theorem vt_switching_refines (s : vts) (a : nat) (v : vt_t) (n cur args : Z) (mem : option vt_mode) :
  vts_wf s → vt_active s = Some a → vt_list s !! a = Some v → 0 ≤ n < TTY_AMOUNT → s8 args = 1 →
  (∃ s', k_dev_vt_change n s = Ok (0, s') ∧ vts_wf s' ∧
     switching_of s' =
       sw_request (negb (vm_mode (vt_mode_of v) =? VT_MODE_AUTO)) (Z.to_nat n) (switching_of s)) ∧
  if not_owner v cur
  then vt_ioctl a cur VT_RELDISP args mem s = Ok (Some (- EPERM), s, None)
  else ∃ r s', vt_ioctl a cur VT_RELDISP args mem s = Ok (r, s', None) ∧ vts_wf s' ∧
         switching_of s' = sw_release (switching_of s).
Proof.
  intros Hs Ha Hv Hn Hargs. split; [by apply (change_ok s a v)|]. destruct (not_owner v cur) eqn:Ho.
  - unfold vt_ioctl. rewrite (vt_get_eq s a v), bind_ok by done. cbn. by rewrite Ho.
  - by apply (reldisp_ok s a v).
Qed.

(** The switch of a graphical program that hands the screen over on request *)
Definition demo_vts : vts :=
  mk_vts (mk_vt (mk_vt_mode VT_MODE_PROCESS 12 14) VT_DISP_MODE_GRAPHIC 7 (replicate 32 None) 0 32 0
          :: replicate 7 vt_create) (Some 0%nat) false 0 [7] [].

Lemma vt_create_wf : vt_wf vt_create.
Proof. constructor; cbn; unfold TTY_AMOUNT; lia. Qed.

Lemma demo_vts_wf : vts_wf demo_vts.
Proof.
  constructor; [done| |by exists 0%nat; split; [done|vm_compute; lia]|].
  - intros i v Hi. destruct i as [|i].
    + injection Hi as <-. constructor; cbn; unfold TTY_AMOUNT; lia.
    + do 7 (destruct i as [|i]; [injection Hi as <-; apply vt_create_wf|]). done.
  - intros i v Hi _. do 8 (destruct i as [|i]; [by injection Hi as <-|]). done.
Qed.

Lemma vt_switching_refines_witness :
  (∃ s', k_dev_vt_change 3 demo_vts = Ok (0, s') ∧ vts_wf s' ∧
     switching_of s' = mk_switching (Some 0%nat) (Some 3%nat)) ∧
  vt_ioctl 0 8 VT_RELDISP 1 None demo_vts = Ok (Some (- EPERM), demo_vts, None).
Proof.
  apply (vt_switching_refines demo_vts 0 _ 3 8 1 None demo_vts_wf eq_refl eq_refl);
    [unfold TTY_AMOUNT; lia|done].
Defined.

(** ** The history *)

Section history.
Implicit Types v : vt_t.

Lemma vt_write_ok v bytes :
  vt_wf v → 0 < Z.of_nat (length bytes) ≤ vt_size v → vt_occupied v + Z.of_nat (length bytes) < 2 ^ 30 →
  ∃ v', vt_write v bytes = Ok (Z.of_nat (length bytes), v') ∧ vt_wf v' ∧
    vt_history v' = vt_history v ++ (Some <$> bytes) ∧
    vt_occupied v' = vt_occupied v + Z.of_nat (length bytes) ∧
    vt_mode_of v' = vt_mode_of v ∧ vt_display v' = vt_display v ∧ vt_process v' = vt_process v ∧
    vt_next v' = vt_next v.
Proof.
  intros [Hb Ht Hs Hn] Hl Hmax. set (n := Z.of_nat (length bytes)) in *. unfold vt_write. fold n.
  rewrite (u32_small (vt_size v - _)) by lia. rewrite (u32_small (vt_size v * 2)) by lia.
  rewrite (u32_small (vt_occupied v + n)) by lia.
  set (grow := vt_size v - vt_occupied v <=? n).
  cbv zeta.
  assert (Hgoal : ∃ data nsize, (if grow
      then (take (Z.to_nat (vt_size v * 2)) (vt_data v) ++
              replicate (Z.to_nat (vt_size v * 2) - length (vt_data v)) None, vt_size v * 2)
      else (vt_data v, vt_size v)) = (data, nsize) ∧
    Z.of_nat (length data) = nsize ∧ vt_occupied v + n < nsize ∧
    32 ≤ nsize ≤ Z.max 32 (2 * (vt_occupied v + n) + 2) ∧
    take (Z.to_nat (vt_occupied v)) data = vt_history v).
  { subst grow. case_if; do 2 eexists; (split; [done|]).
    - rewrite length_app, length_take, length_replicate. split_and!; [lia..|].
      rewrite take_app_le, take_take by (rewrite length_take; lia). unfold vt_history. f_equal. lia.
    - split_and!; [lia..|done]. }
  destruct Hgoal as (data & nsize & -> & Hdl & Hlt & Hsz & Htk).
  rewrite (proj2 (Z.leb_le _ _)) by lia. eexists. split; [done|]. split; [|split; [|by split_and!]].
  - constructor; cbn; [|lia|lia|done].
    rewrite !length_app, length_fmap, length_take, length_drop. lia.
  - unfold vt_history at 1. cbn. rewrite app_assoc, take_app_le.
    + rewrite take_ge; [by rewrite Htk|]. rewrite length_app, length_take, length_fmap. lia.
    + rewrite length_app, length_take, length_fmap. lia.
Qed.
End history.

(** Output is appended to the history of the terminal, whose block grows when it is nearly
    full; a single write of more bytes than fit into twice the block runs over its end. *)
Theorem vt_history_appends (v : vt_t) (bytes : list Z) :
  vt_wf v → 0 < Z.of_nat (length bytes) → vt_occupied v + Z.of_nat (length bytes) < 2 ^ 30 →
  vt_occupied v < 2 ^ 29 →
  (Z.of_nat (length bytes) ≤ vt_size v →
   ∃ v', vt_write v bytes = Ok (Z.of_nat (length bytes), v') ∧ vt_wf v' ∧
     vt_history v' = vt_history v ++ (Some <$> bytes)) ∧
  (2 * vt_size v < vt_occupied v + Z.of_nat (length bytes) → vt_write v bytes = Fault).
Proof.
  intros Hv Hl Hmax Ho. split.
  - intros Hle. destruct (vt_write_ok v bytes) as (v' & ? & ? & ? & _); [done|lia|done|]. by exists v'.
  - intros Hgt. destruct Hv as [Hb Ht Hs Hn]. unfold vt_write.
    rewrite !u32_small by lia. rewrite (proj2 (Z.leb_le _ _)) by lia.
    rewrite (proj2 (Z.leb_gt _ _)); [done|].
    rewrite length_app, length_take, length_replicate. lia.
Qed.

Lemma vt_history_appends_witness :
  (5 ≤ 32 → ∃ v', vt_write vt_create [104; 101; 108; 108; 111] = Ok (5, v') ∧ vt_wf v' ∧
     vt_history v' = [] ++ [Some 104; Some 101; Some 108; Some 108; Some 111]) ∧
  (2 * 32 < 5 → vt_write vt_create [104; 101; 108; 108; 111] = Fault).
Proof. apply (vt_history_appends vt_create [104; 101; 108; 108; 111] vt_create_wf); cbn; lia. Defined.

(** Reading the history copies it but always answers 0. *)
Theorem vt_read_answers_0 (v : vt_t) (offs size : Z) :
  vt_wf v → 0 ≤ offs < vt_occupied v → 0 < size → offs + size < 2 ^ 32 →
  vt_read (Some v) offs size =
    Ok (0, take (Z.to_nat size) (drop (Z.to_nat offs) (vt_history v))).
Proof.
  intros [Hb Ht Hs Hn] Ho Hsz Hlt. unfold vt_read, vt_history.
  rewrite (proj2 (Z.leb_gt _ _)), (u32_small (offs + size)) by lia. rewrite skipn_firstn_comm, take_take.
  assert (He : (if vt_occupied v <=? offs + size then u32 (vt_occupied v - offs) else size) =
    Z.min size (vt_occupied v - offs)) by (case_if; rewrite ?u32_small by lia; lia).
  rewrite He, (proj2 (Z.eqb_neq _ _)), (proj2 (Z.leb_le _ _)) by lia. do 3 f_equal. lia.
Qed.

Lemma vt_read_answers_0_witness :
  vt_read (Some (with_history vt_create (Some 65 :: replicate 31 None) 1 32)) 0 8 = Ok (0, [Some 65]).
Proof.
  apply (vt_read_answers_0 (with_history vt_create (Some 65 :: replicate 31 None) 1 32) 0 8);
    [constructor; cbn; unfold TTY_AMOUNT; lia|cbn; lia..].
Defined.

(** ** Typing *)

Fixpoint vt_feed (bytes : list Z) (s : vts) : res vts :=
  match bytes with
  | [] => Ok s
  | b :: bytes => s' ← k_dev_vt_handle_scancode b s; vt_feed bytes s'
  end.

Section typing.
Implicit Types (s : vts) (p : ps2).

Lemma vt_feed_app b1 b2 s s' : vt_feed b1 s = Ok s' → vt_feed (b1 ++ b2) s = vt_feed b2 s'.
Proof.
  revert s. induction b1 as [|b b1 IH]; cbn; intros s H; [by injection H as ->|].
  apply bind_ok_inv in H as (s1 & -> & H). rewrite bind_ok. by apply IH.
Qed.

(** The bytes that reach the terminals are all but the prefixes, whatever the program that
    reads the device does: a full pipe does not stop them. *)
Lemma feed_vt bytes p :
  pipe_wf (kbd_pipe p) →
  ∃ p', feed irq1_handler bytes p = Ok p' ∧ ps_vt p' = ps_vt p ++ filter (λ b, b ≠ 0xE0) bytes.
Proof.
  revert p. induction bytes as [|b bytes IH]; intros p Hwf; cbn [feed].
  { exists p. by rewrite app_nil_r. }
  unfold irq1_handler at 2. destruct (b =? 0xE0) eqn:E; breflect.
  - subst b. rewrite bind_ok, filter_cons_False by tauto.
    exact (IH (mk_ps2 true (ps_count p) (ps_cur p) (kbd_pipe p) (mouse_pipe p) (ps_vt p)) Hwf).
  - unfold ps2_handle_keyboard.
    set (data := if ps_ext p then Z.lor b (Z.shiftl 1 8) else b).
    destruct (pipe_post_takes (kbd_pipe p) [Z.land data 0xFF; Z.shiftr data 8] Hwf) as (q & -> & Hq & _).
    rewrite !bind_ok, filter_cons_True by done.
    destruct (IH (mk_ps2 false (ps_count p) (ps_cur p) q (mouse_pipe p) (ps_vt p ++ [b])) Hq)
      as (p' & -> & Hp').
    exists p'. split; [done|]. rewrite Hp'. cbn. by rewrite <- app_assoc.
Qed.

(** Keys with a character of their own *)
Definition char_key (v : Z) : Prop := 0 ≤ v < 128 ∧ ∀ c, table_get vt_scancodes v = Ok c → c ≠ 0.

Lemma table_get_ok (t : list Z) v : length t = 128%nat → 0 ≤ v < 128 → ∃ c, table_get t v = Ok c.
Proof.
  intros Hl Hv. unfold table_get. destruct (lookup_lt_is_Some_2 t (Z.to_nat v)) as [c ->]; [lia|].
  by exists c.
Qed.

Lemma key_bits v : 0 ≤ v < 128 →
  truthy (Z.land v 0x80) = false ∧ Z.land v 0x7f = v ∧
  truthy (Z.land (v + 128) 0x80) = true ∧ Z.land (v + 128) 0x7f = v.
Proof.
  intros Hv. pose proof (all_bytes (λ v, (128 <=? v) || (negb (truthy (Z.land v 0x80)) &&
    (Z.land v 0x7f =? v) && truthy (Z.land (v + 128) 0x80) && (Z.land (v + 128) 0x7f =? v)))%bool v
    ltac:(by vm_compute) ltac:(lia)) as H.
  cbv beta in H. rewrite (proj2 (Z.leb_gt _ _)), orb_false_l, !andb_true_iff in H by lia.
  destruct H as [[[H1 H2] H3] H4]. apply negb_true_iff in H1. apply Z.eqb_eq in H2, H4. done.
Qed.

(** The character of a key does not depend on caps lock. *)
Lemma key_char_caps v mods :
  0 ≤ v < 128 → 0 ≤ mods < 256 → ∃ c, key_char v mods = Ok c ∧
    key_char v (Z.lxor mods MOD_CAPS) = Ok c.
Proof.
  intros Hv Hm. pose proof (all_bytes (λ mods,
    (Z.land (Z.lxor mods MOD_CAPS) MOD_CTRL =? Z.land mods MOD_CTRL) &&
    (Z.land (Z.lxor mods MOD_CAPS) MOD_SHIFT =? Z.land mods MOD_SHIFT))%bool mods
    ltac:(by vm_compute) Hm) as H.
  cbv beta in H. rewrite andb_true_iff, !Z.eqb_eq in H. destruct H as [Hc Hs].
  destruct (table_get_ok vt_scancodes v eq_refl Hv) as (c1 & Hc1).
  destruct (table_get_ok vt_scancodes_shifted v eq_refl Hv) as (c2 & Hc2).
  unfold key_char. rewrite Hc, Hs, Hc1, Hc2, !bind_ok.
  repeat case_if; rewrite !bind_ok; by eexists.
Qed.

Lemma handle_press s a v :
  vt_active s = Some a → vt_ex s = false → char_key v → 0 ≤ vt_mods s < 256 →
  ∃ c, key_char v (vt_mods s) = Ok c ∧ k_dev_vt_handle_scancode v s = Ok (vt_emit s (VtType a c)).
Proof.
  intros Ha He [Hv Hc] Hm. destruct (key_bits v Hv) as (H1 & H2 & _ & _).
  destruct (table_get_ok vt_scancodes v eq_refl Hv) as (c & Hcv).
  destruct (key_char_caps v (vt_mods s) Hv Hm) as (k & Hk & _). exists k. split; [done|].
  unfold k_dev_vt_handle_scancode. rewrite Ha, He, (proj2 (Z.eqb_neq v _)) by lia. cbv zeta.
  rewrite H2, H1, (proj2 (Z.ltb_ge 128 v)), Hcv, bind_ok by lia.
  rewrite (proj2 (Z.eqb_neq c 0)) by (by apply Hc). by rewrite Hk, bind_ok.
Qed.

Lemma handle_release s a v :
  vt_active s = Some a → vt_ex s = false → char_key v → k_dev_vt_handle_scancode (v + 128) s = Ok s.
Proof.
  intros Ha He [Hv Hc]. destruct (key_bits v Hv) as (_ & _ & H3 & H4).
  destruct (table_get_ok vt_scancodes v eq_refl Hv) as (c & Hcv).
  assert (v ≠ 96) by (intros ->; by apply (Hc 0)).
  unfold k_dev_vt_handle_scancode. rewrite Ha, He, (proj2 (Z.eqb_neq (v + 128) _)) by lia. cbv zeta.
  rewrite H4, H3, (proj2 (Z.ltb_ge 128 v)), Hcv, bind_ok by lia.
  by rewrite (proj2 (Z.eqb_neq c 0)) by (by apply Hc).
Qed.

(** What a list of keys types under the modifiers [mods] *)
Definition typed (mods : Z) (vs : list Z) : list Z :=
  (λ v, match key_char v mods with Ok c => c | _ => 0 end) <$> vs.

Lemma vt_feed_keys vs s a :
  vt_active s = Some a → vt_ex s = false → Forall char_key vs → 0 ≤ vt_mods s < 256 →
  ∃ s', vt_feed (vs ≫= λ v, [v; v + 128]) s = Ok s' ∧
    vt_events s' = vt_events s ++ (VtType a <$> typed (vt_mods s) vs) ∧
    vt_active s' = Some a ∧ vt_list s' = vt_list s ∧ vt_mods s' = vt_mods s.
Proof.
  intros Ha He Hvs. revert s Ha He. induction Hvs as [|v vs Hv Hvs IH]; intros s Ha He Hm.
  { exists s. cbn. by rewrite app_nil_r. }
  cbn [mbind list_bind]. destruct (handle_press s a v) as (c & Hc & Hp); [done..|].
  rewrite (vt_feed_app _ _ s (vt_emit s (VtType a c))).
  2:{ cbn [vt_feed]. rewrite Hp, !bind_ok. by rewrite (handle_release _ a), bind_ok. }
  destruct (IH (vt_emit s (VtType a c))) as (s' & Hs' & He' & Ha' & Hl' & Hm'); [done..|].
  exists s'. split; [done|]. split; [|by split_and!]. rewrite He'. cbn. rewrite Hc.
  by rewrite <- app_assoc.
Qed.

Lemma filter_keys vs : Forall char_key vs →
  filter (λ b, b ≠ 0xE0) (vs ≫= λ v, [v; v + 128]) = vs ≫= λ v, [v; v + 128].
Proof.
  induction 1 as [|v vs [Hv Hc] Hvs IH]; [done|]. cbn [mbind list_bind app].
  assert (v ≠ 96) by (intros ->; by apply (Hc 0)).
  rewrite !filter_cons_True by lia. by rewrite IH.
Qed.
End typing.

(** From the interrupt to the terminal: pressing and releasing keys that have characters
    types exactly those characters, in order, into the master side of the active terminal. *)
Theorem typing_reaches_terminal (p : ps2) (s : vts) (a : nat) (vs : list Z) :
  pipe_wf (kbd_pipe p) → vt_active s = Some a → vt_ex s = false → 0 ≤ vt_mods s < 256 →
  Forall char_key vs →
  ∃ p' s', feed irq1_handler (vs ≫= λ v, [v; v + 128]) p = Ok p' ∧
    vt_feed (drop (length (ps_vt p)) (ps_vt p')) s = Ok s' ∧
    vt_events s' = vt_events s ++ (VtType a <$> typed (vt_mods s) vs).
Proof.
  intros Hwf Ha He Hm Hvs. destruct (feed_vt (vs ≫= λ v, [v; v + 128]) p Hwf) as (p' & Hf & Hp').
  destruct (vt_feed_keys vs s a) as (s' & Hs' & Hev & _); [done..|].
  exists p', s'. split_and!; [done| |done]. by rewrite Hp', drop_app_length, filter_keys.
Qed.

Lemma char_key_dec v :
  (0 <=? v) && (v <? 128) && match table_get vt_scancodes v with Ok c => negb (c =? 0) | _ => false end = true →
  char_key v.
Proof.
  intros H. breflect. split; [lia|]. intros c Hc. rewrite Hc in *. by breflect.
Qed.

(** "Hi" with the left shift key held *)
Lemma typing_reaches_terminal_witness :
  ∃ p' s', feed irq1_handler [35; 163; 23; 151] k_dev_ps2_init = Ok p' ∧
    vt_feed (drop 0 (ps_vt p')) (with_keys demo_vts false MOD_LSHIFT) = Ok s' ∧
    vt_events s' = [] ++ [VtType 0 72; VtType 0 73].
Proof.
  apply (typing_reaches_terminal k_dev_ps2_init (with_keys demo_vts false MOD_LSHIFT) 0 [35; 23]);
    [apply pipe_create_wf; lia|done|done|vm_compute; split; congruence|].
  repeat constructor; by apply char_key_dec.
Defined.

Lemma handle_caps s a up :
  vt_active s = Some a → vt_ex s = false →
  k_dev_vt_handle_scancode (if up : bool then 0xBA else 0x3A) s =
    Ok (with_keys s false (update_mods 0x3A (vt_mods s) up)).
Proof.
  intros Ha He. unfold k_dev_vt_handle_scancode. rewrite Ha, He.
  replace ((if up then 0xBA else 0x3A) =? 0xE0) with false by by destruct up. cbv zeta iota.
  replace (Z.land (if up then 0xBA else 0x3A) 0x7f) with 0x3A by by destruct up.
  replace (truthy (Z.land (if up then 0xBA else 0x3A) 0x80)) with up by by destruct up.
  change (128 <? 0x3A) with false. change (table_get vt_scancodes 0x3A) with (Ok (A:=Z) 0).
  rewrite bind_ok. cbv iota. change (0x3B <=? 0x3A) with false. by rewrite andb_false_r.
Qed.

(** Caps lock toggles a bit that no character depends on: a key types the same after it. *)
Theorem caps_lock_ignored (s : vts) (a : nat) (v : Z) :
  vt_active s = Some a → vt_ex s = false → char_key v → 0 ≤ vt_mods s < 128 →
  ∃ s0 c, vt_feed [0x3A; 0xBA] s = Ok s0 ∧ vt_mods s0 = Z.lxor (vt_mods s) MOD_CAPS ∧
    k_dev_vt_handle_scancode v s = Ok (vt_emit s (VtType a c)) ∧
    k_dev_vt_handle_scancode v s0 = Ok (vt_emit s0 (VtType a c)).
Proof.
  intros Ha He Hk Hm.
  assert (update_mods 0x3A (vt_mods s) true = Z.lxor (vt_mods s) MOD_CAPS
    ∧ 0 ≤ Z.lxor (vt_mods s) MOD_CAPS < 256) as [Hu Hr].
  { pose proof (all_bytes (λ m, (128 <=? m) || ((update_mods 0x3A m true =? Z.lxor m MOD_CAPS) &&
      ((0 <=? Z.lxor m MOD_CAPS) && (Z.lxor m MOD_CAPS <? 256))))%bool (vt_mods s)
      ltac:(by vm_compute) ltac:(lia)) as H.
    cbv beta in H. rewrite (proj2 (Z.leb_gt _ _)), orb_false_l in H by lia. breflect. lia. }
  destruct (handle_press s a v) as (c & Hc & Hp); [done..|lia|].
  set (s0 := with_keys s false (Z.lxor (vt_mods s) MOD_CAPS)).
  destruct (handle_press s0 a v) as (c' & Hc' & Hp'); [done..|].
  destruct (key_char_caps v (vt_mods s)) as (k & Hk1 & Hk2); [apply Hk|lia|].
  assert (c' = c) as -> by (cbn in Hc'; congruence).
  exists s0, c. split_and!; [|done|done|done].
  cbn [vt_feed]. rewrite (handle_caps s a false), bind_ok by done.
  rewrite (handle_caps _ a true), bind_ok by done. subst s0. by rewrite <- Hu.
Qed.

Lemma caps_lock_ignored_witness :
  ∃ s0 c, vt_feed [0x3A; 0xBA] demo_vts = Ok s0 ∧ vt_mods s0 = MOD_CAPS ∧
    k_dev_vt_handle_scancode 30 demo_vts = Ok (vt_emit demo_vts (VtType 0 c)) ∧
    k_dev_vt_handle_scancode 30 s0 = Ok (vt_emit s0 (VtType 0 c)).
Proof.
  apply (caps_lock_ignored demo_vts 0 30); [done|done|by apply char_key_dec|].
  vm_compute. split; congruence.
Defined.

(** The prefix of the extended keys never reaches the terminals, so the code that skips
    such keys is dead: the print screen key types an asterisk. *)
Theorem extended_keys_typed :
  (∀ (p p' : ps2) (bytes : list Z), pipe_wf (kbd_pipe p) → feed irq1_handler bytes p = Ok p' →
     Forall (λ b, b ≠ 0xE0) (drop (length (ps_vt p)) (ps_vt p'))) ∧
  (p' ← feed irq1_handler [0xE0; 0x2A; 0xE0; 0x37] k_dev_ps2_init;
   s' ← vt_feed (ps_vt p') demo_vts; Ok (vt_events s')) = Ok [VtType 0 42].
Proof.
  split; [|by vm_compute]. intros p p' bytes Hwf Hf.
  destruct (feed_vt bytes p Hwf) as (q & Hq & Hv). replace p' with q by congruence.
  rewrite Hv, drop_app_length. apply Forall_forall. intros b [Hb _]%list_elem_of_filter. done.
Qed.

(** ** No operation leaves the well-formed states *)

Inductive vt_op :=
| OpKey (v : Z)
| OpIoctl (i : nat) (current req args : Z) (mem : option vt_mode)
| OpOutput (id : nat) (cs : list Z).

Definition vt_run (o : vt_op) (s : vts) : res vts :=
  match o with
  | OpKey v => k_dev_vt_handle_scancode v s
  | OpIoctl i current req args mem => '(_, s', _) ← vt_ioctl i current req args mem s; Ok s'
  | OpOutput id cs => vt_tty_callback id cs s
  end.

(** A byte; a terminal there is; a history below a quarter of the address space *)
Definition vt_op_ok (s : vts) (o : vt_op) : Prop :=
  match o with
  | OpKey v => 0 ≤ v < 256
  | OpIoctl i _ _ _ _ => (i < Z.to_nat TTY_AMOUNT)%nat
  | OpOutput id cs => ∃ v, vt_list s !! id = Some v ∧ vt_occupied v + Z.of_nat (length cs) < 2 ^ 30
  end.

Section safety.
Implicit Types (s : vts) (v : vt_t).

Lemma change_safe s n : vts_wf s → 0 ≤ n → ∃ r s', k_dev_vt_change n s = Ok (r, s') ∧ vts_wf s'.
Proof.
  intros Hs Hn. destruct (Z.lt_ge_cases n TTY_AMOUNT) as [Hlt|Hge].
  - destruct (sw_active s Hs) as (a & Ha & Hl). destruct (vt_get_ok s a Hs Hl) as (v & Hv & _).
    destruct (change_ok s a v n) as (s' & ? & ? & _); [done..|]. by exists 0, s'.
  - exists (- EINVAL), s. unfold k_dev_vt_change. by rewrite (proj2 (Z.leb_le _ _)).
Qed.

Lemma handle_safe s (v : Z) : vts_wf s → 0 ≤ v < 256 → ∃ s', k_dev_vt_handle_scancode v s = Ok s' ∧ vts_wf s'.
Proof.
  intros Hs Hv. unfold k_dev_vt_handle_scancode. destruct (vt_active s) as [a|]; [|by exists s].
  case_if; [eexists; split; [done|by apply vts_wf_keys]|].
  case_if; [eexists; split; [done|by apply vts_wf_keys]|].
  assert (Hr : 0 ≤ Z.land v 0x7f < 128).
  { pose proof (all_bytes (λ v : Z, (0 <=? Z.land v 0x7f) && (Z.land v 0x7f <? 128))%bool v
      ltac:(by vm_compute) Hv) as H. cbv beta in H. breflect. lia. }
  cbv zeta. rewrite (proj2 (Z.ltb_ge _ _)) by lia.
  destruct (table_get_ok vt_scancodes (Z.land v 0x7f) eq_refl Hr) as (c & ->). rewrite bind_ok.
  case_if; [case_if|case_if].
  - destruct (change_safe (with_keys s false (update_mods (Z.land v 0x7f) (vt_mods s)
      (truthy (Z.land v 0x80)))) (Z.land v 0x7f - 0x3B)) as (r & s' & -> & Hs');
      [by apply vts_wf_keys|lia|]. rewrite bind_ok. by exists s'.
  - eexists. split; [done|by apply vts_wf_keys].
  - by exists s.
  - unfold key_char. destruct (table_get_ok vt_scancodes (Z.land v 0x7f) eq_refl Hr) as (c1 & ->).
    destruct (table_get_ok vt_scancodes_shifted (Z.land v 0x7f) eq_refl Hr) as (c2 & ->).
    rewrite !bind_ok. repeat case_if; rewrite !bind_ok; (eexists; split; [done|by apply vts_wf_emit]).
Qed.

Lemma callback_char_safe s a id v c :
  vts_wf s → (a < Z.to_nat TTY_AMOUNT)%nat → vt_list s !! id = Some v → vt_occupied v + 1 < 2 ^ 30 →
  ∃ s' v', vt_callback_char a id c s = Ok s' ∧ vts_wf s' ∧ vt_active s' = vt_active s ∧
    vt_list s' !! id = Some v' ∧ vt_occupied v' ≤ vt_occupied v + 1.
Proof.
  intros Hs Ha Hv Ho. destruct (vt_get_ok s a Hs Ha) as (va & Hva & _). unfold vt_callback_char.
  rewrite (vt_get_eq s a va), bind_ok, (vt_get_eq s id v), bind_ok by done. cbv zeta.
  set (s1 := if _ : bool then vt_emit s (VtPutchar c) else s).
  set (s2 := if _ : bool then vt_emit s1 (VtSerial c) else s1).
  assert (H1 : vts_wf s1 ∧ vt_list s1 = vt_list s ∧ vt_active s1 = vt_active s)
    by (subst s1; case_if; [split; [by apply vts_wf_emit|done]|done]).
  assert (H2 : vts_wf s2 ∧ vt_list s2 = vt_list s ∧ vt_active s2 = vt_active s)
    by (subst s2; case_if; [split; [by apply vts_wf_emit; apply H1|apply H1]|done]).
  destruct H2 as (Hw & Hl & Hac). clearbody s2. clear H1 s1. case_if.
  - pose proof (sw_each s Hs id v Hv) as Hvw.
    destruct (vt_write_ok v [u8 c] Hvw) as (v' & -> & Hw' & _ & Ho' & _ & _ & _ & Hn');
      [pose proof (vw_size v Hvw); cbn; lia|cbn; lia|].
    rewrite bind_ok. exists (vt_put s2 id v'), v'. split; [done|]. split.
    { apply vt_put_wf; [done|done|]. intros Hna. rewrite Hn'. rewrite Hac in Hna.
      by apply (sw_pending s Hs id). }
    cbn. rewrite Hl, list_lookup_insert_eq by (by eapply lookup_lt_Some). cbn in Ho'. split_and!; [done|done|lia].
  - exists s2, v. rewrite Hl. split_and!; [done..|lia].
Qed.

Lemma callback_safe cs s a id v :
  vts_wf s → (a < Z.to_nat TTY_AMOUNT)%nat → vt_list s !! id = Some v →
  vt_occupied v + Z.of_nat (length cs) < 2 ^ 30 →
  ∃ s', vt_callback_loop a id cs s = Ok s' ∧ vts_wf s'.
Proof.
  revert s v. induction cs as [|c cs IH]; intros s v Hs Ha Hv Ho; cbn [vt_callback_loop]; [by exists s|].
  cbn [length] in Ho. destruct (callback_char_safe s a id v c) as (s1 & v1 & -> & Hs1 & _ & Hv1 & Ho1);
    [done..|lia|]. rewrite bind_ok. apply (IH s1 v1); [done..|lia].
Qed.

Lemma ioctl_safe s i current req args mem :
  vts_wf s → (i < Z.to_nat TTY_AMOUNT)%nat →
  ∃ r s' m, vt_ioctl i current req args mem s = Ok (r, s', m) ∧ vts_wf s'.
Proof.
  intros Hs Hi. destruct (vt_get_ok s i Hs Hi) as (v & Hv & Hvw). unfold vt_ioctl.
  rewrite (vt_get_eq s i v), bind_ok by done.
  assert (Hput : ∀ v', vt_data v' = vt_data v → vt_occupied v' = vt_occupied v → vt_size v' = vt_size v →
    vt_next v' = vt_next v → vts_wf (vt_put s i v')).
  { intros v' Hd Ho Hz Hn. apply vt_put_wf; [done| |].
    - apply (vt_wf_same v); rewrite ?Hn; try done. apply (vw_next v Hvw).
    - rewrite Hn. by apply (sw_pending s Hs i). }
  repeat case_if; try destruct mem; try (do 3 eexists; split; [done|]; first [done|by apply Hput]).
  1-2: destruct (change_safe s (Z.of_nat i) Hs) as (r & s' & -> & Hs'); [lia|rewrite bind_ok; eauto].
  all: destruct (decide (vt_active s = Some i)) as [Ha|Ha];
    [|pose proof (sw_pending s Hs i v Hv Ha); congruence].
  all: destruct (finish_switch_ok s i v Hs Ha Hv) as (s' & -> & Hs' & _); [done|rewrite bind_ok; eauto].
Qed.

Lemma vt_run_safe s o : vts_wf s → vt_op_ok s o → ∃ s', vt_run o s = Ok s' ∧ vts_wf s'.
Proof.
  intros Hs Ho. destruct o as [v|i current req args mem|id cs]; cbn in *.
  - by apply handle_safe.
  - destruct (ioctl_safe s i current req args mem Hs Ho) as (r & s' & m & -> & Hs'). by exists s'.
  - destruct Ho as (v & Hv & Ho). unfold vt_tty_callback.
    destruct (sw_active s Hs) as (a & -> & Ha). by apply (callback_safe _ s a id v).
Qed.

Lemma k_dev_vt_init_ok pids : ∃ s, k_dev_vt_init pids = Ok s ∧ vts_wf s ∧ vt_active s = Some 0%nat.
Proof.
  eexists. split; [reflexivity|]. split; [|done].
  constructor; [done| |by exists 0%nat; split; [done|vm_compute; lia]|].
  - intros i v Hi. do 8 (destruct i as [|i]; [injection Hi as <-; apply vt_create_wf|]). done.
  - intros i v Hi _. do 8 (destruct i as [|i]; [by injection Hi as <-|]). done.
Qed.
End safety.

(** The states the system can be in *)
Inductive vt_reachable : vts → Prop :=
| vt_boot pids s : k_dev_vt_init pids = Ok s → vt_reachable s
| vt_step s o s' : vt_reachable s → vt_op_ok s o → vt_run o s = Ok s' → vt_reachable s'.

Lemma vt_reachable_wf s : vt_reachable s → vts_wf s.
Proof.
  induction 1 as [pids s Hi|s o s' _ IH Ho Hr].
  - destruct (k_dev_vt_init_ok pids) as (s' & Hs' & Hw & _). by replace s with s' by congruence.
  - destruct (vt_run_safe s o IH Ho) as (s1 & Hs1 & Hw). by replace s' with s1 by congruence.
Qed.

(** After start-up, every byte of the keyboard, every control request of every process and
    all output are handled without leaving an object, and keep the terminals well formed. *)
Theorem vt_safety (s : vts) (o : vt_op) :
  vt_reachable s → vt_op_ok s o → ∃ s', vt_run o s = Ok s' ∧ vts_wf s' ∧ vt_reachable s'.
Proof.
  intros Hr Ho. destruct (vt_run_safe s o (vt_reachable_wf s Hr) Ho) as (s' & Hs' & Hw).
  exists s'. split_and!; [done|done|by eapply vt_step].
Qed.

Lemma vt_safety_witness :
  ∃ s s', k_dev_vt_init [] = Ok s ∧ vt_run (OpOutput 2 [72; 105]) s = Ok s' ∧ vts_wf s' ∧ vt_reachable s'.
Proof.
  eexists. assert (Hi : k_dev_vt_init [] = Ok _) by reflexivity.
  destruct (vt_safety _ (OpOutput 2 [72; 105]) (vt_boot [] _ Hi)) as (s' & H);
    [by exists vt_create|]. exists s'. split; [exact Hi|exact H].
Defined.
