(* ===== verification/Compose.v ===== *)
(** * libs/libcompose: the server of the window system

    The server ([compose_server_t], the static variables of compose.c) with its windows,
    clients and grabs, which live in heaps; 0 is NULL, and [free] removes an object, so a
    stale pointer is a [Fault].  Lists are the sequences of TypesList; sorting is its
    insertion sort.  Requests and events arrive and leave as messages, with the sizes that
    are written in them: a request is a block of as many bytes as its client says, and
    reading behind a block is a [Fault].  An event written to a socket whose peer is gone is
    lost.  The pictures of the windows are shared memory: what the server maps, unmaps and
    opens is recorded as calls; making shared memory for a window may fail ([cs_shm] has
    the answers to come), while the object that a client names when it confirms a new size
    is taken to be there.  The structure [compose_gc_t] that a client shares with the server
    is part of the state, for the client changes it. *)

From S2P Require Import Prelude TypesList.
From S2P Require Import Input.

(** ** compose.h, events.h, request.h *)

Definition COMPOSE_WIN_FLAGS_MOVABLE : Z := Z.shiftl 1 0.
Definition COMPOSE_WIN_FLAGS_RESIZABLE : Z := Z.shiftl 1 1.
Definition COMPOSE_WIN_FLAGS_IN_RESIZE : Z := Z.shiftl 1 2.
Definition COMPOSE_WIN_FLAGS_HAS_DELAYED_RESIZE : Z := Z.shiftl 1 3.

Definition COMPOSE_EVENT_KEY : Z := Z.shiftl 1 0.
Definition COMPOSE_EVENT_MOUSE : Z := Z.shiftl 1 1.
Definition COMPOSE_EVENT_BUTTON : Z := Z.shiftl 1 2.
Definition COMPOSE_EVENT_RESIZE : Z := Z.shiftl 1 3.
Definition COMPOSE_EVENT_MOVE : Z := Z.shiftl 1 4.
Definition COMPOSE_EVENT_WIN : Z := Z.shiftl 1 5.
Definition COMPOSE_EVENT_CNN : Z := Z.shiftl 1 6.
Definition COMPOSE_EVENT_FOCUS : Z := Z.shiftl 1 7.
Definition COMPOSE_EVENT_UNFOCUS : Z := Z.shiftl 1 8.
Definition COMPOSE_EVENT_PROPS : Z := Z.shiftl 1 9.
Definition COMPOSE_EVENT_KEEPALIVE : Z := Z.shiftl 1 10.

Definition COMPOSE_RESIZE_STAGE_INITIAL : Z := 1.
Definition COMPOSE_RESIZE_STAGE_FINAL : Z := 2.
Definition COMPOSE_MOVE_X : Z := Z.shiftl 1 0.
Definition COMPOSE_MOVE_Y : Z := Z.shiftl 1 1.
Definition COMPOSE_MOVE_Z : Z := Z.shiftl 1 2.
Definition COMPOSE_MOVE_RAISE : Z := Z.shiftl 1 3.
Definition COMPOSE_MOVE_SUNK : Z := Z.shiftl 1 4.

Record position_t := mk_pos { ps_x : Z; ps_y : Z; ps_z : Z }.
Record sizes_t := mk_sizes { sz_w : Z; sz_h : Z }.
Record compose_client_t := mk_client { cl_id : Z; cl_socket : Z; cl_ping : Z }.

(** The structure shared between a window's client and the server *)
Record compose_gc_t := mk_gc { gc_buff_id : Z; gc_w : Z; gc_h : Z; gc_data_size : Z }.

Record window_properties_t := mk_props {
  pr_x : Z; pr_y : Z; pr_w : Z; pr_h : Z; pr_flags : Z; pr_event_mask : Z
}.

(** [w_old_size] is [gc.old_data_size], [w_mapped] the length of the mapping [gc.data]. *)
Record compose_window_t := mk_window {
  w_id : Z;
  w_client : Z;
  w_parent : Z;
  w_root : Z;
  w_old_size : Z;
  w_mapped : Z;
  w_flags : Z;
  w_pos : position_t;
  w_layer : Z;
  w_sizes : sizes_t;
  w_delayed : sizes_t;
  w_children : list Z;
  w_event_mask : Z
}.

Record grab_t := mk_grab { gr_type : Z; gr_client : Z; gr_window : Z }.

(** What an event carries besides the common header; fields that are never assigned are
    [None]. *)
Inductive payload :=
| PNone
| PConnect (overlay : Z)
| PKey (packet : keyboard_packet_t) (translated : option Z) (modifiers : Z)
| PMouse (packet : mouse_packet_t) (x y abs_x abs_y : Z)
| PMove (old_pos new_pos : position_t)
| PResize (old_size new_size : sizes_t)
| PProps (props : window_properties_t).

(** [ev_size] is the member [size]; [ev_room], which is no member, is the number of bytes
    of the object that the event is the beginning of. *)
Record compose_event_t := mk_sized_event {
  ev_type : Z;
  ev_size : Z;
  ev_room : Z;
  ev_win : option Z;
  ev_child : option Z;
  ev_root : option Z;
  ev_payload : payload
}.

(** [sizeof] of the structure for an event, which begins with the 24 bytes of the header *)
Definition sizeof_event (p : payload) : Z :=
  match p with
  | PNone => 24
  | PConnect _ => 28
  | PKey _ _ _ => 36
  | PMouse _ _ _ _ _ => 52
  | PMove _ _ => 48
  | PResize _ _ => 44
  | PProps _ => 52
  end.

(** The server makes events with [size] assigned to the [sizeof] of their structure. *)
Definition mk_event (type : Z) (win child root : option Z) (p : payload) : compose_event_t :=
  mk_sized_event type (sizeof_event p) (sizeof_event p) win child root p.

Inductive request_body :=
| BodyMove (win flags x y z : Z)
| BodyResize (win stage w h : Z)
| BodyEvent (target : Z) (event : compose_event_t)
| BodyNewWin (parent : Z) (props : window_properties_t)
| BodyEvmask (win mask : Z)
| BodyGrab (win type : Z)
| BodyFocus (win : Z)
| BodyDisconnect
| BodyProps (win : Z)
| BodyKeepalive
| BodyOther. (* COMPOSE_REQ_CLOSE_WIN, COMPOSE_REQ_FLUSH: no case of the switch *)

(** A request as its client sends it: the member [size], and the rest.  The members behind
    the first [size] bytes are not there. *)
Record compose_request_t := mk_request { rq_size : Z; rq_body : request_body }.

(** [sizeof] of the structure for a request *)
Definition sizeof_request (b : request_body) : Z :=
  match b with
  | BodyMove _ _ _ _ _ => 28
  | BodyResize _ _ _ _ => 24
  | BodyEvent _ _ => 36
  | BodyNewWin _ _ => 40
  | BodyEvmask _ _ | BodyGrab _ _ => 20
  | BodyFocus _ | BodyProps _ | BodyOther => 12
  | BodyDisconnect | BodyKeepalive => 8
  end.

(** The requests of clients that use the library *)
Definition request (b : request_body) : compose_request_t := mk_request (sizeof_request b) b.
Definition ReqMove win flags x y z := request (BodyMove win flags x y z).
Definition ReqResize win stage w h := request (BodyResize win stage w h).
Definition ReqEvent target event := request (BodyEvent target event).
Definition ReqNewWin parent props := request (BodyNewWin parent props).
Definition ReqEvmask win mask := request (BodyEvmask win mask).
Definition ReqGrab win type := request (BodyGrab win type).
Definition ReqFocus win := request (BodyFocus win).
Definition ReqDisconnect := request BodyDisconnect.
Definition ReqProps win := request (BodyProps win).
Definition ReqKeepalive := request BodyKeepalive.
Definition ReqOther := request BodyOther.

(** ** The state of the server *)

(** Shared memory objects are named by a window or by a generated identifier. *)
Inductive shm_name := ShmWin (id : Z) | ShmBuf (id : Z).
Inductive sys_call :=
| SysOpen (name : shm_name)
| SysTruncate (name : shm_name) (len : Z)
| SysMap (name : shm_name) (len : Z)
| SysUnmapData (win len : Z)
| SysUnmapGc (win : Z)
| SysCloseGc (win : Z)
| SysCloseBuf (win : Z)
| SysCloseSocket (fd : Z).

(** How [shm_open] and the [mmap] after it end *)
Inductive shm_answer := ShmOk | ShmNoObject | ShmNoMap.

Record compose_server_t := mk_server {
  sv_client_id : Z;
  sv_window_id : Z;
  sv_root : Z;
  sv_overlay : Z;
  sv_clients : list Z;
  sv_remove_queue : list Z;
  sv_windows : list Z;
  sv_grabs : list Z
}.

(** [cs_fb]: the size of the frame buffer; [cs_rand]: the identifiers that
    [compose_generate_uuid] will give; [cs_gone]: the sockets whose peer has left;
    [cs_shm]: how the next shared memory objects turn out (well, where the list ends);
    [cs_now]: the clock; [cs_next]: the address of the next object [calloc] gives. *)
Record comp := mk_comp {
  cs_srv : compose_server_t;
  cs_windows : gmap Z compose_window_t;
  cs_clients : gmap Z compose_client_t;
  cs_grabs : gmap Z grab_t;
  cs_shared : gmap Z compose_gc_t;
  cs_mouse_pos : position_t;
  cs_last_buttons : Z;
  cs_input_focus : Z;
  cs_kbd_mods : Z;
  cs_next : Z;
  cs_fb : sizes_t;
  cs_rand : list Z;
  cs_gone : list Z;
  cs_shm : list shm_answer;
  cs_now : Z;
  cs_out : list (Z * compose_event_t);
  cs_sys : list sys_call
}.

Definition with_srv (s : comp) x := mk_comp x (cs_windows s) (cs_clients s) (cs_grabs s) (cs_shared s) (cs_mouse_pos s) (cs_last_buttons s) (cs_input_focus s) (cs_kbd_mods s) (cs_next s) (cs_fb s) (cs_rand s) (cs_gone s) (cs_shm s) (cs_now s) (cs_out s) (cs_sys s).
Definition with_windows (s : comp) x := mk_comp (cs_srv s) x (cs_clients s) (cs_grabs s) (cs_shared s) (cs_mouse_pos s) (cs_last_buttons s) (cs_input_focus s) (cs_kbd_mods s) (cs_next s) (cs_fb s) (cs_rand s) (cs_gone s) (cs_shm s) (cs_now s) (cs_out s) (cs_sys s).
Definition with_clients (s : comp) x := mk_comp (cs_srv s) (cs_windows s) x (cs_grabs s) (cs_shared s) (cs_mouse_pos s) (cs_last_buttons s) (cs_input_focus s) (cs_kbd_mods s) (cs_next s) (cs_fb s) (cs_rand s) (cs_gone s) (cs_shm s) (cs_now s) (cs_out s) (cs_sys s).
Definition with_grabs (s : comp) x := mk_comp (cs_srv s) (cs_windows s) (cs_clients s) x (cs_shared s) (cs_mouse_pos s) (cs_last_buttons s) (cs_input_focus s) (cs_kbd_mods s) (cs_next s) (cs_fb s) (cs_rand s) (cs_gone s) (cs_shm s) (cs_now s) (cs_out s) (cs_sys s).
Definition with_shared (s : comp) x := mk_comp (cs_srv s) (cs_windows s) (cs_clients s) (cs_grabs s) x (cs_mouse_pos s) (cs_last_buttons s) (cs_input_focus s) (cs_kbd_mods s) (cs_next s) (cs_fb s) (cs_rand s) (cs_gone s) (cs_shm s) (cs_now s) (cs_out s) (cs_sys s).
Definition with_mouse (s : comp) x b := mk_comp (cs_srv s) (cs_windows s) (cs_clients s) (cs_grabs s) (cs_shared s) x b (cs_input_focus s) (cs_kbd_mods s) (cs_next s) (cs_fb s) (cs_rand s) (cs_gone s) (cs_shm s) (cs_now s) (cs_out s) (cs_sys s).
Definition with_focus (s : comp) x := mk_comp (cs_srv s) (cs_windows s) (cs_clients s) (cs_grabs s) (cs_shared s) (cs_mouse_pos s) (cs_last_buttons s) x (cs_kbd_mods s) (cs_next s) (cs_fb s) (cs_rand s) (cs_gone s) (cs_shm s) (cs_now s) (cs_out s) (cs_sys s).
Definition with_kbd_mods (s : comp) x := mk_comp (cs_srv s) (cs_windows s) (cs_clients s) (cs_grabs s) (cs_shared s) (cs_mouse_pos s) (cs_last_buttons s) (cs_input_focus s) x (cs_next s) (cs_fb s) (cs_rand s) (cs_gone s) (cs_shm s) (cs_now s) (cs_out s) (cs_sys s).
Definition with_next_addr (s : comp) x := mk_comp (cs_srv s) (cs_windows s) (cs_clients s) (cs_grabs s) (cs_shared s) (cs_mouse_pos s) (cs_last_buttons s) (cs_input_focus s) (cs_kbd_mods s) x (cs_fb s) (cs_rand s) (cs_gone s) (cs_shm s) (cs_now s) (cs_out s) (cs_sys s).
Definition with_rand (s : comp) x := mk_comp (cs_srv s) (cs_windows s) (cs_clients s) (cs_grabs s) (cs_shared s) (cs_mouse_pos s) (cs_last_buttons s) (cs_input_focus s) (cs_kbd_mods s) (cs_next s) (cs_fb s) x (cs_gone s) (cs_shm s) (cs_now s) (cs_out s) (cs_sys s).
Definition with_out (s : comp) x := mk_comp (cs_srv s) (cs_windows s) (cs_clients s) (cs_grabs s) (cs_shared s) (cs_mouse_pos s) (cs_last_buttons s) (cs_input_focus s) (cs_kbd_mods s) (cs_next s) (cs_fb s) (cs_rand s) (cs_gone s) (cs_shm s) (cs_now s) x (cs_sys s).
Definition sys_calls (s : comp) (l : list sys_call) := mk_comp (cs_srv s) (cs_windows s) (cs_clients s) (cs_grabs s) (cs_shared s) (cs_mouse_pos s) (cs_last_buttons s) (cs_input_focus s) (cs_kbd_mods s) (cs_next s) (cs_fb s) (cs_rand s) (cs_gone s) (cs_shm s) (cs_now s) (cs_out s) (cs_sys s ++ l).

Definition with_shm (s : comp) x := mk_comp (cs_srv s) (cs_windows s) (cs_clients s) (cs_grabs s) (cs_shared s) (cs_mouse_pos s) (cs_last_buttons s) (cs_input_focus s) (cs_kbd_mods s) (cs_next s) (cs_fb s) (cs_rand s) (cs_gone s) x (cs_now s) (cs_out s) (cs_sys s).

Definition get_win (s : comp) (a : Z) : res compose_window_t := of_option (cs_windows s !! a).
Definition get_cli (s : comp) (a : Z) : res compose_client_t := of_option (cs_clients s !! a).
Definition put_win (s : comp) (a : Z) (w : compose_window_t) : comp := with_windows s (<[a := w]> (cs_windows s)).

Definition with_w_flags (w : compose_window_t) x := mk_window (w_id w) (w_client w) (w_parent w) (w_root w) (w_old_size w) (w_mapped w) x (w_pos w) (w_layer w) (w_sizes w) (w_delayed w) (w_children w) (w_event_mask w).
Definition with_w_pos (w : compose_window_t) x := mk_window (w_id w) (w_client w) (w_parent w) (w_root w) (w_old_size w) (w_mapped w) (w_flags w) x (w_layer w) (w_sizes w) (w_delayed w) (w_children w) (w_event_mask w).
Definition with_w_sizes (w : compose_window_t) x := mk_window (w_id w) (w_client w) (w_parent w) (w_root w) (w_old_size w) (w_mapped w) (w_flags w) (w_pos w) (w_layer w) x (w_delayed w) (w_children w) (w_event_mask w).
Definition with_w_delayed (w : compose_window_t) x := mk_window (w_id w) (w_client w) (w_parent w) (w_root w) (w_old_size w) (w_mapped w) (w_flags w) (w_pos w) (w_layer w) (w_sizes w) x (w_children w) (w_event_mask w).
Definition with_w_children (w : compose_window_t) x := mk_window (w_id w) (w_client w) (w_parent w) (w_root w) (w_old_size w) (w_mapped w) (w_flags w) (w_pos w) (w_layer w) (w_sizes w) (w_delayed w) x (w_event_mask w).
Definition with_w_mask (w : compose_window_t) x := mk_window (w_id w) (w_client w) (w_parent w) (w_root w) (w_old_size w) (w_mapped w) (w_flags w) (w_pos w) (w_layer w) (w_sizes w) (w_delayed w) (w_children w) x.
Definition with_w_buffer (w : compose_window_t) old mapped := mk_window (w_id w) (w_client w) (w_parent w) (w_root w) old mapped (w_flags w) (w_pos w) (w_layer w) (w_sizes w) (w_delayed w) (w_children w) (w_event_mask w).

Definition with_win_list (v : compose_server_t) x := mk_server (sv_client_id v) (sv_window_id v) (sv_root v) (sv_overlay v) (sv_clients v) (sv_remove_queue v) x (sv_grabs v).
Definition with_cli_list (v : compose_server_t) x := mk_server (sv_client_id v) (sv_window_id v) (sv_root v) (sv_overlay v) x (sv_remove_queue v) (sv_windows v) (sv_grabs v).
Definition with_grab_list (v : compose_server_t) x := mk_server (sv_client_id v) (sv_window_id v) (sv_root v) (sv_overlay v) (sv_clients v) (sv_remove_queue v) (sv_windows v) x.
Definition with_remove_queue (v : compose_server_t) x := mk_server (sv_client_id v) (sv_window_id v) (sv_root v) (sv_overlay v) (sv_clients v) x (sv_windows v) (sv_grabs v).

(** Recursion over the parents or the children is bounded by the number of windows. *)
Definition win_fuel (s : comp) : nat := S (length (sv_windows (cs_srv s))).

(** The C loops over a list that change the state *)
Section for_each.
Context {A : Type} (f : A → comp → res comp).
Fixpoint for_each (l : list A) (s : comp) : res comp :=
  match l with
  | [] => Ok s
  | x :: l => s ← f x s; for_each l s
  end.
End for_each.

(** ** events.c *)

(** The member [size] and as many bytes as it says are inside the object. *)
Definition ev_fits (ev : compose_event_t) : bool := (12 <=? ev_room ev) && (ev_size ev <=? ev_room ev).

(** [write(cli->socket, event, event->size)]: the member [size] (at offset 8) is read, and
    that many bytes from the beginning of the event.  The answer tells whether it failed with
    [ENOTCONN]. *)
Definition compose_sv_event_send (cli : Z) (ev : compose_event_t) (s : comp) : res (bool * comp) :=
  c ← get_cli s cli;
  if negb (ev_fits ev) then Fault
  else if bool_decide (cl_socket c ∈ cs_gone s) then Ok (true, s)
  else Ok (false, with_out s (cs_out s ++ [(cl_socket c, ev)])).

Definition send (cli : Z) (ev : compose_event_t) (s : comp) : res comp :=
  '(_, s) ← compose_sv_event_send cli ev s; Ok s.

Definition compose_sv_event_send_to_all (ev : compose_event_t) (s : comp) : res comp :=
  for_each (λ c, send c ev) (sv_clients (cs_srv s)) s.

Fixpoint get_grab_loop (grabs : list Z) (root_id type : Z) (s : comp) : res (option grab_t) :=
  match grabs with
  | [] => Ok None
  | g :: grabs =>
      gr ← of_option (cs_grabs s !! g);
      if truthy (Z.land (gr_type gr) type) then
        w ← get_win s (gr_window gr);
        if w_id w =? root_id then Ok (Some gr) else get_grab_loop grabs root_id type s
      else get_grab_loop grabs root_id type s
  end.
Definition get_grab (root_id type : Z) (s : comp) : res (option grab_t) :=
  get_grab_loop (sv_grabs (cs_srv s)) root_id type s.

Definition with_ev_win (e : compose_event_t) (w : Z) := mk_sized_event (ev_type e) (ev_size e) (ev_room e) (Some w) (ev_child e) (ev_root e) (ev_payload e).
Definition with_ev_child (e : compose_event_t) (w : Z) := mk_sized_event (ev_type e) (ev_size e) (ev_room e) (ev_win e) (Some w) (ev_root e) (ev_payload e).
Definition with_ev_type (e : compose_event_t) (t : Z) := mk_sized_event t (ev_size e) (ev_room e) (ev_win e) (ev_child e) (ev_root e) (ev_payload e).
Definition with_ev_room (e : compose_event_t) (n : Z) := mk_sized_event (ev_type e) (ev_size e) n (ev_win e) (ev_child e) (ev_root e) (ev_payload e).

(** What happens at one window: the event, with its window filled in, goes to the owner of
    the window and to the client that grabbed it. *)
Definition propagate_here (w : compose_window_t) (ev : compose_event_t) (s : comp)
    : res (compose_event_t * comp) :=
  gr ← get_grab (w_id w) (ev_type ev) s;
  let selected := truthy (Z.land (w_event_mask w) (ev_type ev)) in
  if selected || bool_decide (is_Some gr) then
    let ev := with_ev_win ev (w_id w) in
    s ← (if selected && truthy (w_client w) then send (w_client w) ev s else Ok s);
    s ← (match gr with Some g => send (gr_client g) ev s | None => Ok s end);
    Ok (ev, s)
  else Ok (ev, s).

(** The event is changed in place: the caller goes on with the result. *)
Fixpoint propagate (fuel : nat) (win : Z) (ev : compose_event_t) (s : comp)
    : res (compose_event_t * comp) :=
  match fuel with
  | O => OutOfFuel
  | S fuel =>
      w ← get_win s win;
      '(ev, s) ← propagate_here w ev s;
      if truthy (w_parent w) then propagate fuel (w_parent w) (with_ev_child ev (w_id w)) s
      else Ok (ev, s)
  end.
Definition compose_sv_event_propagate (win : Z) (ev : compose_event_t) (s : comp)
    : res (compose_event_t * comp) :=
  propagate (win_fuel s) win ev s.

(** ** Focus and the keyboard *)

(** The event of [compose_sv_focus], for the window [win] *)
Definition focus_event (type : Z) (win : Z) (s : comp) : res compose_event_t :=
  w ← get_win s win;
  root ← (if truthy (w_root w) then r ← get_win s (w_root w); Ok (w_id r) else Ok 1);
  Ok (mk_event type (Some (w_id w)) None (Some root) PNone).

Definition compose_sv_focus (win : Z) (s : comp) : res comp :=
  s ← (if truthy (cs_input_focus s) then
         ev ← focus_event COMPOSE_EVENT_UNFOCUS (cs_input_focus s) s;
         '(_, s) ← compose_sv_event_propagate (cs_input_focus s) ev s; Ok s
       else Ok s);
  let win := if truthy win then win else sv_root (cs_srv s) in
  let s := with_focus s win in
  if truthy win then
    ev ← focus_event COMPOSE_EVENT_FOCUS win s;
    '(_, s) ← compose_sv_event_propagate win ev s; Ok s
  else Ok s.

Definition clear_mod (mods m : Z) : Z := u8 (Z.land mods (Z.lnot m)).

(** The modifiers after a key *)
Definition update_kbd_mods (scancode : Z) (is_up : bool) (mods : Z) : Z :=
  if (scancode =? KEY_LEFTSHIFT) || (scancode =? KEY_RIGHTSHIFT) then
    if is_up then clear_mod mods KBD_MOD_SHIFT else Z.lor mods KBD_MOD_SHIFT
  else if (scancode =? KEY_LEFTALT) || (scancode =? KEY_RIGHTALT) then
    if is_up then clear_mod mods KBD_MOD_ALT else Z.lor mods KBD_MOD_ALT
  else if (scancode =? KEY_LEFTCTRL) || (scancode =? KEY_RIGHTCTRL) then
    if is_up then clear_mod mods KBD_MOD_CTRL else Z.lor mods KBD_MOD_CTRL
  else if scancode =? KEY_CAPSLOCK then
    if is_up then mods
    else if truthy (Z.land mods KBD_MOD_CAPS) then clear_mod mods KBD_MOD_CAPS
    else Z.lor mods KBD_MOD_CAPS
  else mods.

Definition compose_handle_key (packet : keyboard_packet_t) (s : comp) : res comp :=
  if truthy (cs_input_focus s) then
    w ← get_win s (cs_input_focus s);
    root ← (if truthy (w_root w) then r ← get_win s (w_root w); Ok (w_id r) else Ok (w_id w));
    let is_up := truthy (Z.land (kb_flags packet) KBD_EVENT_FLAG_UP) in
    let s := with_kbd_mods s (update_kbd_mods (kb_scancode packet) is_up (cs_kbd_mods s)) in
    translated ← (if truthy (Z.land (kb_flags packet) KBD_EVENT_FLAG_EXT) then Ok None
                  else t ← input_kbd_translate (kb_scancode packet) (cs_kbd_mods s); Ok (Some t));
    '(_, s) ← compose_sv_event_propagate (cs_input_focus s)
      (mk_event COMPOSE_EVENT_KEY (Some (w_id w)) None (Some root)
         (PKey packet translated (cs_kbd_mods s))) s;
    Ok s
  else Ok s.

(** ** Geometry and the mouse *)

(** The sum of the positions of a window and of its ancestors *)
Fixpoint abs_origin (fuel : nat) (win : Z) (ox oy : Z) (s : comp) : res (Z * Z) :=
  match fuel with
  | O => OutOfFuel
  | S fuel =>
      w ← get_win s win;
      if truthy (w_parent w) then
        p ← get_win s (w_parent w);
        abs_origin fuel (w_parent w) (s32 (ox + ps_x (w_pos p))) (s32 (oy + ps_y (w_pos p))) s
      else Ok (ox, oy)
  end.
Definition win_origin (win : Z) (s : comp) : res (Z * Z) :=
  w ← get_win s win; abs_origin (win_fuel s) win (ps_x (w_pos w)) (ps_y (w_pos w)) s.

Definition compose_sv_translate_local (win sx sy : Z) (s : comp) : res (Z * Z) :=
  '(ox, oy) ← win_origin win s; Ok (s32 (sx - ox), s32 (sy - oy)).
Definition compose_sv_translate_abs (win x y : Z) (s : comp) : res (Z * Z) :=
  '(ox, oy) ← win_origin win s; Ok (s32 (x + ox), s32 (y + oy)).

(** The sizes are unsigned, so the last two comparisons are. *)
Definition win_hit (w : compose_window_t) (sx sy x y : Z) : bool :=
  (sx <=? x) && (sy <=? y) && (u32 x <=? u32 (sx + sz_w (w_sizes w))) &&
  (u32 y <=? u32 (sy + sz_h (w_sizes w))).

(** [rev_windows]: the windows from the last one of the list on; 0 is NULL *)
Fixpoint window_at_loop (rev_windows : list Z) (x y : Z) (s : comp) : res Z :=
  match rev_windows with
  | [] => Ok 0
  | a :: l =>
      if a =? sv_overlay (cs_srv s) then window_at_loop l x y s
      else
        w ← get_win s a;
        '(sx, sy) ← compose_sv_translate_abs a 0 0 s;
        if win_hit w sx sy x y then Ok a else window_at_loop l x y s
  end.
Definition compose_sv_get_window_at (x y : Z) (s : comp) : res Z :=
  window_at_loop (rev (sv_windows (cs_srv s))) x y s.

(** [if(p < 0) p = 0; if(p >= size) p = size - 4] *)
Definition clamp (p size : Z) : Z :=
  let p := if p <? 0 then 0 else p in
  if size <=? u32 p then s32 (size - 4) else p.

Definition compose_update_mouse (dx dy : Z) (s : comp) : comp :=
  let p := cs_mouse_pos s in
  with_mouse s (mk_pos (clamp (s32 (ps_x p + dx)) (sz_w (cs_fb s)))
                       (clamp (s32 (ps_y p - dy)) (sz_h (cs_fb s))) (ps_z p)) (cs_last_buttons s).

(** The event of the motion is used again for the buttons. *)
Definition compose_handle_mouse (packet : mouse_packet_t) (s : comp) : res comp :=
  let old := cs_mouse_pos s in
  let s := compose_update_mouse (mo_dx packet) (mo_dy packet) s in
  let p := cs_mouse_pos s in
  let real_dx := s32 (ps_x p - ps_x old) in
  let real_dy := s32 (ps_y old - ps_y p) in
  win ← compose_sv_get_window_at (ps_x p) (ps_y p) s;
  w ← get_win s win;
  root ← get_win s (sv_root (cs_srv s));
  '(x, y) ← compose_sv_translate_local win (ps_x p) (ps_y p) s;
  let ev := mk_event COMPOSE_EVENT_MOUSE (Some (w_id w)) None (Some (w_id root))
              (PMouse (mk_mouse real_dx real_dy (mo_buttons packet)) x y (ps_x p) (ps_y p)) in
  '(ev, s) ← (if truthy real_dx || truthy real_dy then compose_sv_event_propagate win ev s
              else Ok (ev, s));
  s ← (if negb (mo_buttons packet =? cs_last_buttons s) then
         '(_, s) ← compose_sv_event_propagate win (with_ev_type ev COMPOSE_EVENT_BUTTON) s; Ok s
       else Ok s);
  Ok (with_mouse s (cs_mouse_pos s) (mo_buttons packet)).

(** ** Stacking *)

(** [list_sort] on a list of pointers: the insertion sort of TypesList *)
Definition isort (pred : Z → Z → bool) (l : list Z) : list Z :=
  rev (foldl (λ acc x, ins_rev pred x acc) [] l).

Definition win_z (s : comp) (a : Z) : Z := from_option (λ w, ps_z (w_pos w)) 0 (cs_windows s !! a).
Definition win_layer (s : comp) (a : Z) : Z := from_option w_layer 0 (cs_windows s !! a).

(** The two comparison functions *)
Definition sort_windows (s : comp) (a b : Z) : bool := win_z s b <? win_z s a.
Definition sort_windows_list (s : comp) (a b : Z) : bool :=
  if win_layer s a =? win_layer s b then win_z s b <? win_z s a else win_layer s b <? win_layer s a.

(** The comparison function reads every element. *)
Definition list_sort_windows (pred : comp → Z → Z → bool) (l : list Z) (s : comp) : res (list Z) :=
  if forallb (λ a, bool_decide (is_Some (cs_windows s !! a))) l then Ok (isort (pred s) l) else Fault.

(** [compose_sv_restack(win->children)] for the window [win] *)
Fixpoint restack (fuel : nat) (win : Z) (s : comp) : res comp :=
  match fuel with
  | O => OutOfFuel
  | S fuel =>
      w ← get_win s win;
      l ← list_sort_windows sort_windows (w_children w) s;
      for_each (restack fuel) l (put_win s win (with_w_children w l))
  end.
Definition compose_sv_restack (win : Z) (s : comp) : res comp := restack (win_fuel s) win s.

Definition bit_on (mask bit : Z) : bool := truthy (Z.land mask bit).

Definition set_pos (a : Z) (f : position_t → position_t) (s : comp) : res comp :=
  w ← get_win s a; Ok (put_win s a (with_w_pos w (f (w_pos w)))).

Section move.
(** [compose_sv_raise], which itself moves the window *)
Context (raise : Z → comp → res comp).
Definition sv_move_with (win x y z mask : Z) (s : comp) : res comp :=
  w ← get_win s win;
  let old := w_pos w in
  if (ps_x old =? x) && (ps_y old =? y) && (ps_z old =? z) then Ok s
  else
    s ← (if bit_on mask COMPOSE_MOVE_X then set_pos win (λ p, mk_pos x (ps_y p) (ps_z p)) s else Ok s);
    s ← (if bit_on mask COMPOSE_MOVE_Y then set_pos win (λ p, mk_pos (ps_x p) y (ps_z p)) s else Ok s);
    s ← (if bit_on mask COMPOSE_MOVE_Z then
           s ← set_pos win (λ p, mk_pos (ps_x p) (ps_y p) z) s;
           if truthy (w_parent w) then compose_sv_restack (w_parent w) s else Ok s
         else Ok s);
    s ← (if bit_on mask COMPOSE_MOVE_RAISE then raise win s else Ok s);
    s ← (if bit_on mask COMPOSE_MOVE_SUNK then raise win s else Ok s);
    w ← get_win s win;
    if truthy (w_client w) then
      send (w_client w) (mk_event COMPOSE_EVENT_MOVE (Some (w_id w)) None None (PMove old (w_pos w))) s
    else Ok s.
End move.

(** The move inside a raise has only the bit of the z coordinate. *)
Definition sv_move_z : Z → Z → Z → Z → Z → comp → res comp := sv_move_with (λ _ _, OutOfFuel).

Definition compose_sv_raise (win : Z) (s : comp) : res comp :=
  w ← get_win s win;
  if negb (truthy (w_parent w)) then Ok s
  else
    p ← get_win s (w_parent w);
    let top := default 0 (last (w_children p)) in
    if top =? win then Ok s
    else
      t ← get_win s top;
      sv_move_z win (ps_x (w_pos w)) (ps_y (w_pos w)) (s32 (ps_z (w_pos t) + 1)) 4 s.

Definition compose_sv_sunk (win : Z) (s : comp) : res comp :=
  w ← get_win s win;
  if negb (truthy (w_parent w)) then Ok s
  else
    p ← get_win s (w_parent w);
    b ← get_win s (default 0 (head (w_children p)));
    sv_move_z win (ps_x (w_pos w)) (ps_y (w_pos w)) (s32 (ps_z (w_pos b) - 1)) 4 s.

Definition compose_sv_move : Z → Z → Z → Z → Z → comp → res comp := sv_move_with compose_sv_raise.

(** ** Resizing *)

Definition compose_sv_start_resize (win w h : Z) (s : comp) : res comp :=
  wi ← get_win s win;
  if bit_on (w_flags wi) COMPOSE_WIN_FLAGS_IN_RESIZE then
    Ok (put_win s win (with_w_flags (with_w_delayed wi (mk_sizes w h))
      (Z.lor (w_flags wi) COMPOSE_WIN_FLAGS_HAS_DELAYED_RESIZE)))
  else if (sz_w (w_sizes wi) =? w) && (sz_h (w_sizes wi) =? h) then Ok s
  else
    let s := put_win s win (with_w_flags wi (Z.lor (w_flags wi) COMPOSE_WIN_FLAGS_IN_RESIZE)) in
    if truthy (w_client wi) then
      send (w_client wi) (mk_event COMPOSE_EVENT_RESIZE (Some (w_id wi)) None None
                            (PResize (w_sizes wi) (mk_sizes w h))) s
    else Ok s.

Definition drop_flag (flags f : Z) : Z := u32 (Z.land flags (Z.lnot f)).

Definition compose_sv_apply_size (win : Z) (s : comp) : res comp :=
  w ← get_win s win;
  if negb (bit_on (w_flags w) COMPOSE_WIN_FLAGS_IN_RESIZE) then Ok s
  else
    gc ← of_option (cs_shared s !! w_id w);
    let s := sys_calls s [SysUnmapData (w_id w) (w_old_size w); SysCloseBuf (w_id w);
      SysOpen (ShmBuf (gc_buff_id gc)); SysMap (ShmBuf (gc_buff_id gc)) (gc_data_size gc)] in
    let w := with_w_buffer w (gc_data_size gc) (gc_data_size gc) in
    let w := with_w_sizes w (mk_sizes (u32 (gc_w gc)) (u32 (gc_h gc))) in
    let w := with_w_flags w (drop_flag (w_flags w) COMPOSE_WIN_FLAGS_IN_RESIZE) in
    if bit_on (w_flags w) COMPOSE_WIN_FLAGS_HAS_DELAYED_RESIZE then
      let w := with_w_flags w (drop_flag (w_flags w) COMPOSE_WIN_FLAGS_HAS_DELAYED_RESIZE) in
      compose_sv_start_resize win (sz_w (w_delayed w)) (sz_h (w_delayed w)) (put_win s win w)
    else Ok (put_win s win w).

(** ** Windows *)

Fixpoint get_window_loop (l : list Z) (id : Z) (s : comp) : res Z :=
  match l with
  | [] => Ok 0
  | a :: l => w ← get_win s a; if w_id w =? id then Ok a else get_window_loop l id s
  end.
Definition compose_sv_get_window (id : Z) (s : comp) : res Z :=
  get_window_loop (sv_windows (cs_srv s)) id s.

(** [compose_generate_uuid]: the clock and eight random bytes *)
Definition compose_generate_uuid (s : comp) : Z * comp :=
  (default 0 (head (cs_rand s)), with_rand s (tail (cs_rand s))).

(** The answer for the next shared memory object *)
Definition next_shm (s : comp) : shm_answer * comp :=
  (default ShmOk (head (cs_shm s)), with_shm s (tail (cs_shm s))).

(** The new window before it has an address, and the calls that make its buffers.  The
    structure shared with the client is written whether it could be made or not ([None]: a
    write through NULL or through the error value of [mmap]); the picture is cleared when
    it could be opened, and left out when not. *)
Definition new_window (client par id uuid : Z) (props : window_properties_t) (gc_made data_made : shm_answer) (s : comp)
    : option (compose_window_t * compose_gc_t * list sys_call) :=
  let buffer_size := u32 (s32 (pr_w props * pr_h props * 4)) in
  let win mapped := mk_window id client par (sv_root (cs_srv s)) buffer_size mapped (pr_flags props)
     (mk_pos (pr_x props) (pr_y props) 0) 0 (mk_sizes (u32 (pr_w props)) (u32 (pr_h props)))
     (mk_sizes 0 0) [] (pr_event_mask props) in
  let gc := mk_gc uuid (pr_w props) (pr_h props) buffer_size in
  let open_gc := [SysOpen (ShmWin id); SysTruncate (ShmWin id) 48; SysMap (ShmWin id) 48] in
  match gc_made, data_made with
  | ShmOk, ShmOk =>
      Some (win buffer_size, gc, open_gc ++ [SysOpen (ShmBuf uuid); SysTruncate (ShmBuf uuid) buffer_size; SysMap (ShmBuf uuid) buffer_size])
  | ShmOk, ShmNoObject => Some (win 0, gc, open_gc ++ [SysOpen (ShmBuf uuid)])
  | _, _ => None
  end.

Definition with_w_layer (w : compose_window_t) x := mk_window (w_id w) (w_client w) (w_parent w) (w_root w) (w_old_size w) (w_mapped w) (w_flags w) (w_pos w) x (w_sizes w) (w_delayed w) (w_children w) (w_event_mask w).

(** The window joins the list and, if it has a parent, its children. *)
Definition link_window (win par : Z) (s : comp) : res comp :=
  let s := with_srv s (with_win_list (cs_srv s) (sv_windows (cs_srv s) ++ [win])) in
  s ← (if truthy par then
         p ← get_win s par;
         w ← get_win s win;
         let s := put_win s win (with_w_layer w (s32 (w_layer p + 1))) in
         let s := put_win s par (with_w_children p (w_children p ++ [win])) in
         compose_sv_restack par s
       else Ok s);
  l ← list_sort_windows sort_windows_list (sv_windows (cs_srv s)) s;
  Ok (with_srv s (with_win_list (cs_srv s) l)).

(** The client learns the number of its window. *)
Definition announce_window (win : Z) (s : comp) : res comp :=
  w ← get_win s win;
  if truthy (w_client w) then
    root ← get_win s (w_root w);
    let ev := mk_event COMPOSE_EVENT_WIN (Some (w_id w)) (Some 0) (Some (w_id root)) PNone in
    s ← send (w_client w) ev s;
    '(_, s) ← compose_sv_event_propagate win ev s; Ok s
  else Ok s.

Definition bump_window_id (v : compose_server_t) : compose_server_t :=
  mk_server (sv_client_id v) (u32 (sv_window_id v + 1)) (sv_root v) (sv_overlay v) (sv_clients v)
    (sv_remove_queue v) (sv_windows v) (sv_grabs v).

Definition compose_sv_create_window (client par : Z) (props : window_properties_t) (s : comp)
    : res (Z * comp) :=
  let win := cs_next s in
  let s := with_srv (with_next_addr s (win + 1)) (bump_window_id (cs_srv s)) in
  let id := sv_window_id (cs_srv s) in
  let '(gc_made, s) := next_shm s in
  let '(uuid, s) := compose_generate_uuid s in
  let '(data_made, s) := next_shm s in
  '(w, gc, calls) ← of_option (new_window client par id uuid props gc_made data_made s);
  let s := sys_calls (with_shared (put_win s win w) (<[id := gc]> (cs_shared s))) calls in
  s ← link_window win par s;
  s ← announce_window win s;
  s ← compose_sv_focus win s;
  Ok (win, s).

(** Does the window have an ancestor [par]? *)
Fixpoint is_child_loop (fuel : nat) (win par : Z) (s : comp) : res bool :=
  match fuel with
  | O => OutOfFuel
  | S fuel =>
      if truthy win then
        w ← get_win s win;
        if w_parent w =? par then Ok true else is_child_loop fuel (w_parent w) par s
      else Ok false
  end.
Definition compose_sv_is_child (win par : Z) (s : comp) : res bool :=
  is_child_loop (S (win_fuel s)) win par s.

(** The grabs that satisfy [p], collected, then deleted and freed one by one *)
Definition delete_grab (g : Z) (s : comp) : comp :=
  with_grabs (with_srv s (with_grab_list (cs_srv s) (remove_first g (sv_grabs (cs_srv s)))))
    (delete g (cs_grabs s)).
Fixpoint select_grabs (p : grab_t → bool) (l : list Z) (s : comp) : res (list Z) :=
  match l with
  | [] => Ok []
  | g :: l =>
      gr ← of_option (cs_grabs s !! g);
      l' ← select_grabs p l s;
      Ok (if p gr then g :: l' else l')
  end.
Definition delete_grabs (p : grab_t → bool) (s : comp) : res comp :=
  l ← select_grabs p (sv_grabs (cs_srv s)) s; Ok (foldl (λ s g, delete_grab g s) s l).

(** The part of [compose_sv_remove_window] after the children *)
Definition unlink_window (win : Z) (notify_parent : bool) (s : comp) : res comp :=
  w ← get_win s win;
  s ← (if notify_parent && truthy (w_parent w) then
         p ← get_win s (w_parent w);
         Ok (put_win s (w_parent w) (with_w_children p (remove_first win (w_children p))))
       else Ok s);
  let s := with_srv s (with_win_list (cs_srv s) (remove_first win (sv_windows (cs_srv s)))) in
  s ← delete_grabs (λ g, gr_window g =? win) s;
  gc ← of_option (cs_shared s !! w_id w);
  let s := sys_calls s [SysUnmapData (w_id w) (gc_data_size gc); SysUnmapGc (w_id w);
                        SysCloseGc (w_id w); SysCloseBuf (w_id w)] in
  Ok (with_windows s (delete win (cs_windows s))).

Fixpoint remove_window (fuel : nat) (win : Z) (notify_parent : bool) (s : comp) : res comp :=
  match fuel with
  | O => OutOfFuel
  | S fuel =>
      let s := if win =? cs_input_focus s then with_focus s 0 else s in
      w ← get_win s win;
      s ← for_each (λ c, remove_window fuel c false) (w_children w) s;
      unlink_window win notify_parent s
  end.
Definition compose_sv_remove_window (win : Z) (notify_parent : bool) (s : comp) : res comp :=
  remove_window (win_fuel s) win notify_parent s.

(** ** Clients *)

Fixpoint get_client_loop (p : compose_client_t → bool) (l : list Z) (s : comp) : res Z :=
  match l with
  | [] => Ok 0
  | c :: l => cl ← get_cli s c; if p cl then Ok c else get_client_loop p l s
  end.
Definition get_client_by_socket (sock : Z) (s : comp) : res Z :=
  get_client_loop (λ c, cl_socket c =? sock) (sv_clients (cs_srv s)) s.
Definition compose_sv_get_client (id : Z) (s : comp) : res Z :=
  get_client_loop (λ c, cl_id c =? id) (sv_clients (cs_srv s)) s.

(** [__compose_add_client], with [compose_create_client] in it; 0 is NULL *)
Definition compose_add_client (fd : Z) (s : comp) : res (Z * comp) :=
  c ← get_client_by_socket fd s;
  if truthy c then Ok (0, s)
  else
    let a := cs_next s in
    let v := cs_srv s in
    let id := u32 (sv_client_id v + 1) in
    let s := with_clients (with_next_addr s (a + 1)) (<[a := mk_client id fd (cs_now s)]> (cs_clients s)) in
    Ok (a, with_srv s (mk_server id (sv_window_id v) (sv_root v) (sv_overlay v) (sv_clients v ++ [a])
                         (sv_remove_queue v) (sv_windows v) (sv_grabs v))).

(** The windows that go with a client: without a parent, or under the root *)
Fixpoint client_windows (client : Z) (l : list Z) (s : comp) : res (list Z) :=
  match l with
  | [] => Ok []
  | a :: l =>
      w ← get_win s a;
      l' ← client_windows client l s;
      Ok (if (w_client w =? client) && (negb (truthy (w_parent w)) || (w_parent w =? sv_root (cs_srv s)))
          then a :: l' else l')
  end.

Definition compose_sv_disconnect (client : Z) (s : comp) : res comp :=
  let s := with_srv s (with_cli_list (cs_srv s) (remove_first client (sv_clients (cs_srv s)))) in
  l ← client_windows client (sv_windows (cs_srv s)) s;
  s ← for_each (λ a, compose_sv_remove_window a true) l s;
  s ← delete_grabs (λ g, gr_client g =? client) s;
  c ← get_cli s client;
  Ok (with_clients (sys_calls s [SysCloseSocket (cl_socket c)]) (delete client (cs_clients s))).

Definition compose_sv_send_props (cli win : Z) (s : comp) : res comp :=
  w ← get_win s win;
  root ← (if truthy (w_root w) then r ← get_win s (w_root w); Ok (w_id r) else Ok (w_id w));
  send cli (mk_event COMPOSE_EVENT_PROPS (Some (w_id w)) None (Some root)
    (PProps (mk_props (ps_x (w_pos w)) (ps_y (w_pos w)) (s32 (sz_w (w_sizes w)))
               (s32 (sz_h (w_sizes w))) (s32 (w_flags w)) (w_event_mask w)))) s.

(** [compose_sv_send_keepalive]: the clients whose socket reports [ENOTCONN], in order *)
Fixpoint keepalive_loop (l : list Z) (s : comp) : res (list Z * comp) :=
  match l with
  | [] => Ok ([], s)
  | c :: l =>
      '(notconn, s) ← compose_sv_event_send c (mk_event COMPOSE_EVENT_KEEPALIVE (Some 0) (Some 0) (Some 0) PNone) s;
      '(reap, s) ← keepalive_loop l s;
      Ok (if notconn : bool then c :: reap else reap, s)
  end.
Definition compose_sv_send_keepalive (s : comp) : res comp :=
  '(reap, s) ← keepalive_loop (sv_clients (cs_srv s)) s; for_each compose_sv_disconnect reap s.

(** ** request.c *)

(** What a socket gives to the server: the header says how many bytes follow, and a block of
    that size is allocated and filled.  [heap]: the largest block there is; beyond it
    [malloc] gives no block that could be written. *)
Definition compose_sv_request_poll (heap : Z) (req : compose_request_t) : res compose_request_t :=
  if (8 <=? rq_size req) && (rq_size req <=? heap) then Ok req else Fault.

(** Reading the members up to the byte [n] of a request *)
Definition req_reads (req : compose_request_t) (n : Z) : res unit :=
  if n <=? rq_size req then Ok tt else Fault.

(** The event inside a request, at offset 12 of its block *)
Definition req_event (req : compose_request_t) (ev : compose_event_t) : compose_event_t :=
  with_ev_room ev (rq_size req - 12).

Definition compose_sv_handle_request (cli : Z) (req : compose_request_t) (s : comp) : res comp :=
  match rq_body req with
  | BodyMove win flags x y z =>
      _ ← req_reads req 12;
      a ← compose_sv_get_window win s;
      if truthy a then _ ← req_reads req 28; compose_sv_move a x y z flags s else Ok s
  | BodyResize win stage w h =>
      _ ← req_reads req 12;
      a ← compose_sv_get_window win s;
      if negb (truthy a) then Ok s
      else
        _ ← req_reads req 13;
        if stage =? COMPOSE_RESIZE_STAGE_INITIAL then
          _ ← req_reads req 24; compose_sv_start_resize a (u32 w) (u32 h) s
        else compose_sv_apply_size a s
  | BodyEvent target ev =>
      _ ← req_reads req 12;
      if negb (truthy target) then compose_sv_event_send_to_all (req_event req ev) s
      else
        t ← compose_sv_get_client target s;
        if truthy t then send t (req_event req ev) s else Ok s
  | BodyNewWin parent props =>
      _ ← req_reads req 12;
      p ← compose_sv_get_window parent s;
      _ ← req_reads req 40;
      '(_, s) ← compose_sv_create_window cli p props s; Ok s
  | BodyEvmask win mask =>
      _ ← req_reads req 12;
      a ← compose_sv_get_window win s;
      if truthy a then
        _ ← req_reads req 20;
        w ← get_win s a; Ok (put_win s a (with_w_mask w mask))
      else Ok s
  | BodyGrab win type =>
      _ ← req_reads req 20;
      a ← compose_sv_get_window win s;
      let g := cs_next s in
      let s := with_grabs (with_next_addr s (g + 1)) (<[g := mk_grab type cli a]> (cs_grabs s)) in
      Ok (with_srv s (with_grab_list (cs_srv s) (sv_grabs (cs_srv s) ++ [g])))
  | BodyFocus win => _ ← req_reads req 12; a ← compose_sv_get_window win s; compose_sv_focus a s
  | BodyDisconnect =>
      Ok (with_srv s (with_remove_queue (cs_srv s) (sv_remove_queue (cs_srv s) ++ [cli])))
  | BodyProps win => _ ← req_reads req 12; a ← compose_sv_get_window win s; compose_sv_send_props cli a s
  | BodyKeepalive =>
      c ← get_cli s cli;
      Ok (with_clients s (<[cli := mk_client (cl_id c) (cl_socket c) (cs_now s)]> (cs_clients s)))
  | BodyOther => Ok s
  end.

(** ** Drawing

    What the server puts on the screen, in order: the background, pictures of windows at
    their absolute positions, the pointer *)

Inductive draw_op :=
| DrawFill
| DrawWindow (win x y w h : Z)
| DrawPointer (x y : Z).

(** [fb_bitmap] goes through all points of the picture; a mapping has whole pages. *)
Definition picture_mapped (w : compose_window_t) : res unit :=
  if 4 * (Z.max 0 (s32 (sz_w (w_sizes w))) * Z.max 0 (s32 (sz_h (w_sizes w)))) <=? (w_mapped w + 4095) / 4096 * 4096 then Ok tt else Fault.

Fixpoint draw_window (fuel : nat) (win : Z) (ox oy : Z) (s : comp) : res (list draw_op) :=
  match fuel with
  | O => OutOfFuel
  | S fuel =>
      w ← get_win s win;
      let x := s32 (ps_x (w_pos w) + ox) in
      let y := s32 (ps_y (w_pos w) + oy) in
      _ ← picture_mapped w;
      l ← (fix each (l : list Z) : res (list draw_op) :=
             match l with
             | [] => Ok []
             | c :: l => d ← draw_window fuel c x y s; d' ← each l; Ok (d ++ d')
             end) (w_children w);
      Ok (DrawWindow win x y (sz_w (w_sizes w)) (sz_h (w_sizes w)) :: l)
  end.

Definition compose_sv_redraw (s : comp) : res (list draw_op * comp) :=
  s ← compose_sv_restack (sv_root (cs_srv s)) s;
  d1 ← draw_window (win_fuel s) (sv_root (cs_srv s)) 0 0 s;
  d2 ← draw_window (win_fuel s) (sv_overlay (cs_srv s)) 0 0 s;
  let p := cs_mouse_pos s in
  Ok (DrawFill :: d1 ++ d2 ++ [DrawPointer (ps_x p) (ps_y p)], s).

(** ** One turn of the server *)

(** What [select] found: new connections, the requests waiting at each socket, the packets
    of the keyboard and of the mouse (Input.v reads them); and the largest block that the
    heap of the server has.  [None]: nothing, or an error. *)
Record ready := mk_ready {
  rd_heap : Z;
  rd_accepted : list Z;
  rd_requests : Z → list compose_request_t;
  rd_keys : list keyboard_packet_t;
  rd_mouse : list (option mouse_packet_t)
}.

Definition accept_one (fd : Z) (s : comp) : res comp :=
  '(c, s) ← compose_add_client fd s;
  if truthy c then
    root ← get_win s (sv_root (cs_srv s));
    ov ← get_win s (sv_overlay (cs_srv s));
    send c (mk_event COMPOSE_EVENT_CNN None None (Some (w_id root)) (PConnect (w_id ov))) s
  else Ok s.

Definition serve_request (heap c : Z) (m : compose_request_t) (s : comp) : res comp :=
  req ← compose_sv_request_poll heap m; compose_sv_handle_request c req s.

Definition serve_client (heap : Z) (requests : Z → list compose_request_t) (c : Z) (s : comp) : res comp :=
  cl ← get_cli s c;
  for_each (serve_request heap c) (requests (cl_socket cl)) s.

(** [list_pop_back] until the queue is empty *)
Fixpoint drain_remove_queue (fuel : nat) (s : comp) : res comp :=
  match fuel with
  | O => OutOfFuel
  | S fuel =>
      match last (sv_remove_queue (cs_srv s)) with
      | None => Ok s
      | Some c =>
          let q := sv_remove_queue (cs_srv s) in
          s ← compose_sv_disconnect c (with_srv s (with_remove_queue (cs_srv s) (take (length q - 1) q)));
          drain_remove_queue fuel s
      end
  end.

(** A movement libinput refuses is skipped. *)
Definition handle_mouse_packet (m : option mouse_packet_t) (s : comp) : res comp :=
  match m with
  | None => Ok s
  | Some m => compose_handle_mouse m s
  end.

Definition compose_sv_tick (r : option ready) (s : comp) : res (list draw_op * comp) :=
  match r with
  | None => s ← compose_sv_send_keepalive s; Ok ([], s)
  | Some r =>
      s ← for_each accept_one (rd_accepted r) s;
      s ← for_each (serve_client (rd_heap r) (rd_requests r)) (sv_clients (cs_srv s)) s;
      s ← drain_remove_queue (S (length (sv_remove_queue (cs_srv s)))) s;
      s ← compose_sv_send_keepalive s;
      s ← for_each compose_handle_key (rd_keys r) s;
      s ← for_each handle_mouse_packet (rd_mouse r) s;
      compose_sv_redraw s
  end.

Definition with_root (v : compose_server_t) root overlay :=
  mk_server (sv_client_id v) (sv_window_id v) root overlay (sv_clients v) (sv_remove_queue v)
    (sv_windows v) (sv_grabs v).

(** Once the socket, the frame buffer of size [fb] and the devices are open *)
Definition compose_sv_create (fb : sizes_t) (rand : list Z) (shm : list shm_answer) (now : Z) : res comp :=
  let s := mk_comp (mk_server 0 0 0 0 [] [] [] []) ∅ ∅ ∅ ∅ (mk_pos 0 0 0) 0 0 0 1 fb rand [] shm now [] [] in
  let props := mk_props 0 0 (s32 (sz_w fb)) (s32 (sz_h fb)) 0 0 in
  '(root, s) ← compose_sv_create_window 0 0 props s;
  let s := with_srv s (with_root (cs_srv s) root (sv_overlay (cs_srv s))) in
  '(overlay, s) ← compose_sv_create_window 0 0 props s;
  Ok (with_srv s (with_root (cs_srv s) (sv_root (cs_srv s)) overlay)).

(** A session: a client connects, opens two windows and types *)
Definition demo_fb : sizes_t := mk_sizes 640 480.
Definition demo_props (x y w h mask : Z) : window_properties_t := mk_props x y w h 0 mask.

(** A server with one client, at socket 5, and the windows it asked for *)
Definition demo_session (reqs : list compose_request_t) : res comp :=
  s ← compose_sv_create demo_fb [11; 12; 13; 14] [] 7;
  s ← accept_one 5 s;
  '(_, s) ← compose_sv_tick (Some (mk_ready 65536 [] (λ fd, if fd =? 5 then reqs else []) [] [])) s; Ok s.
Definition default_comp : comp :=
  mk_comp (mk_server 0 0 0 0 [] [] [] []) ∅ ∅ ∅ ∅ (mk_pos 0 0 0) 0 0 0 1 demo_fb [] [] [] 0 [] [].
Definition state_of (r : res comp) : comp := match r with Ok s => s | _ => default_comp end.
(** Two windows side by side on the root and one inside the first *)
Definition compose_demo : comp := state_of (demo_session
  [ReqNewWin 1 (demo_props 10 20 100 50 COMPOSE_EVENT_KEY);
   ReqNewWin 1 (demo_props 200 20 100 50 COMPOSE_EVENT_BUTTON);
   ReqNewWin 3 (demo_props 5 5 20 10 COMPOSE_EVENT_BUTTON)]).
(** The address of the client *)
Definition demo_client : Z := 3.

Example session_runs :
  (s ← compose_sv_create demo_fb [1; 2; 3; 4] [] 7;
   '(_, s) ← compose_sv_tick (Some (mk_ready 65536 [5] (λ _, []) [] [])) s;
   '(d, s) ← compose_sv_tick (Some (mk_ready 65536 [] (λ fd, if fd =? 5 then
       [ReqNewWin 1 (demo_props 10 20 100 50 COMPOSE_EVENT_KEY);
        ReqNewWin 1 (demo_props 30 40 100 50 COMPOSE_EVENT_BUTTON)] else [])
       [mk_kbd 30 0] [Some (mk_mouse 35 (-45) 1)])) s;
   Ok (d, snd <$> drop 5 (cs_out s))) =
  Ok ([DrawFill; DrawWindow 1 0 0 640 480; DrawWindow 4 10 20 100 50; DrawWindow 5 30 40 100 50;
       DrawWindow 2 0 0 640 480; DrawPointer 35 45],
      [mk_event COMPOSE_EVENT_BUTTON (Some 4) (Some 4) (Some 1)
         (PMouse (mk_mouse 35 (-45) 1) 5 5 35 45)]).
Proof. by vm_compute. Qed.
