(* ===== verification/ComposeFacts.v ===== *)
(** * The server of the window system: its invariant

    Every window, client and grab that is listed is live; the windows form a forest in which
    a parent is older than its children; pointers between them are live.  Operations that
    only change how windows look are summed up in one relation, [reshaped]. *)

From S2P Require Import Prelude TypesList.
From S2P Require Import Input Compose.

Definition live_win (s : comp) (a : Z) : Prop := is_Some (cs_windows s !! a).
Definition live_cli (s : comp) (a : Z) : Prop := is_Some (cs_clients s !! a).

(** The invariant, except for the children of the windows of [D], which are about to be
    removed *)
Record wf_except (D : Z → Prop) (s : comp) : Prop := {
  cw_windows : ∀ a, a ∈ sv_windows (cs_srv s) ↔ live_win s a;
  cw_nodup : NoDup (sv_windows (cs_srv s));
  cw_fresh : ∀ a, live_win s a ∨ live_cli s a ∨ is_Some (cs_grabs s !! a) → 0 < a < cs_next s;
  cw_next : 0 < cs_next s;
  wx_children : ∀ a w, ¬ D a → cs_windows s !! a = Some w → NoDup (w_children w) ∧
    ∀ c, c ∈ w_children w → ∃ cw, cs_windows s !! c = Some cw ∧ w_parent cw = a;
  cw_parent : ∀ a w, cs_windows s !! a = Some w → w_parent w ≠ 0 →
    w_parent w < a ∧ ∃ p, cs_windows s !! w_parent w = Some p ∧ a ∈ w_children p;
  cw_root : (∃ w, cs_windows s !! sv_root (cs_srv s) = Some w ∧ w_parent w = 0) ∧
    (∃ w, cs_windows s !! sv_overlay (cs_srv s) = Some w ∧ w_parent w = 0);
  cw_in_root : ∀ a w, cs_windows s !! a = Some w → w_root w = 0 ∨ w_root w = sv_root (cs_srv s);
  cw_client : ∀ a w, cs_windows s !! a = Some w → w_client w ≠ 0 →
    live_cli s (w_client w) ∧ w_root w ≠ 0;
  cw_shared : ∀ a w, cs_windows s !! a = Some w → is_Some (cs_shared s !! w_id w);
  cw_clients : NoDup (sv_clients (cs_srv s)) ∧ ∀ c, c ∈ sv_clients (cs_srv s) → live_cli s c;
  cw_grabs : ∀ g, g ∈ sv_grabs (cs_srv s) → ∃ gr, cs_grabs s !! g = Some gr ∧
    live_win s (gr_window gr) ∧ live_cli s (gr_client gr);
  cw_grabs_nodup : NoDup (sv_grabs (cs_srv s));
  cw_focus : cs_input_focus s ≠ 0 → live_win s (cs_input_focus s)
}.

Arguments cw_windows {D} s _.
Arguments cw_nodup {D} s _.
Arguments cw_fresh {D} s _.
Arguments cw_next {D} s _.
Arguments wx_children {D} s _.
Arguments cw_parent {D} s _.
Arguments cw_root {D} s _.
Arguments cw_in_root {D} s _.
Arguments cw_client {D} s _.
Arguments cw_shared {D} s _.
Arguments cw_clients {D} s _.
Arguments cw_grabs {D} s _.
Arguments cw_grabs_nodup {D} s _.
Arguments cw_focus {D} s _.

Abbreviation comp_wf := (wf_except (λ _, False)).

Section wf.
Context {D : Z → Prop} (s : comp) (Hs : wf_except D s).

Lemma cw_root_live : live_win s (sv_root (cs_srv s)) ∧ live_win s (sv_overlay (cs_srv s)).
Proof. destruct (cw_root s Hs) as [(w & ? & _) (w' & ? & _)]. split; by eexists. Qed.

Lemma cw_win_root a w : cs_windows s !! a = Some w → w_root w ≠ 0 → live_win s (w_root w).
Proof. intros Ha Hr. destruct (cw_in_root s Hs a w Ha) as [?| ->]; [done|]. apply cw_root_live. Qed.
End wf.

Lemma cw_children s (Hs : comp_wf s) a w : cs_windows s !! a = Some w → NoDup (w_children w) ∧
  ∀ c, c ∈ w_children w → ∃ cw, cs_windows s !! c = Some cw ∧ w_parent cw = a.
Proof. apply (wx_children s Hs). tauto. Qed.

(** ** Changes that keep the forest *)

(** The window keeps its identity and its relatives, the children in any order. *)
Definition reshape (w w' : compose_window_t) : Prop :=
  w_id w' = w_id w ∧ w_client w' = w_client w ∧ w_parent w' = w_parent w ∧ w_root w' = w_root w ∧
  w_children w' ≡ₚ w_children w.

Record reshaped (s s' : comp) : Prop := {
  rs_windows : ∀ a, option_Forall2 reshape (cs_windows s !! a) (cs_windows s' !! a);
  rs_list : sv_windows (cs_srv s') = sv_windows (cs_srv s);
  rs_roots : sv_root (cs_srv s') = sv_root (cs_srv s) ∧ sv_overlay (cs_srv s') = sv_overlay (cs_srv s);
  rs_clis : sv_clients (cs_srv s') = sv_clients (cs_srv s);
  rs_grabs : sv_grabs (cs_srv s') = sv_grabs (cs_srv s) ∧ cs_grabs s' = cs_grabs s;
  rs_clients : ∀ c, live_cli s c ↔ live_cli s' c;
  rs_shared : cs_shared s' = cs_shared s;
  rs_next : cs_next s' = cs_next s;
  rs_focus : cs_input_focus s' = cs_input_focus s ∨ live_win s (cs_input_focus s')
}.

Section reshaped.
Implicit Types (s : comp) (w : compose_window_t).

#[export] Instance reshape_refl : Reflexive reshape.
Proof. by intros w. Qed.
#[export] Instance reshape_trans : Transitive reshape.
Proof.
  intros w1 w2 w3 (H1 & H2 & H3 & H4 & H5) (J1 & J2 & J3 & J4 & J5).
  split_and!; [congruence..|by rewrite J5].
Qed.

Lemma reshaped_live s s' a : reshaped s s' → live_win s' a ↔ live_win s a.
Proof.
  intros H. unfold live_win. destruct (rs_windows s s' H a); [|done]. by split; intros; eexists.
Qed.

Lemma reshaped_some s s' a w : reshaped s s' → cs_windows s !! a = Some w →
  ∃ w', cs_windows s' !! a = Some w' ∧ reshape w w'.
Proof. intros H Hw. pose proof (rs_windows s s' H a) as Ha. rewrite Hw in Ha. inversion Ha; subst. eauto. Qed.

Lemma reshaped_some' s s' a w' : reshaped s s' → cs_windows s' !! a = Some w' →
  ∃ w, cs_windows s !! a = Some w ∧ reshape w w'.
Proof. intros H Hw. pose proof (rs_windows s s' H a) as Ha. rewrite Hw in Ha. inversion Ha; subst. eauto. Qed.

#[export] Instance reshaped_refl : Reflexive reshaped.
Proof. intros s. constructor; try done; by left. Qed.
#[export] Instance reshaped_trans : Transitive reshaped.
Proof.
  intros s1 s2 s3 H J. constructor.
  - intros a. pose proof (rs_windows _ _ H a) as Ha. pose proof (rs_windows _ _ J a) as Ja.
    destruct Ha as [w1 w2 H1|]; inversion Ja; subst; constructor. by etrans.
  - by rewrite (rs_list _ _ J), (rs_list _ _ H).
  - destruct (rs_roots _ _ J) as [-> ->]. apply (rs_roots _ _ H).
  - by rewrite (rs_clis _ _ J), (rs_clis _ _ H).
  - destruct (rs_grabs _ _ J) as [-> ->]. apply (rs_grabs _ _ H).
  - intros c. by rewrite (rs_clients _ _ H), (rs_clients _ _ J).
  - by rewrite (rs_shared _ _ J), (rs_shared _ _ H).
  - by rewrite (rs_next _ _ J), (rs_next _ _ H).
  - destruct (rs_focus _ _ J) as [->|Hl]; [apply (rs_focus _ _ H)|].
    right. by apply (reshaped_live _ _ _ H).
Qed.

Lemma reshaped_wf s s' : comp_wf s → reshaped s s' → comp_wf s'.
Proof.
  intros Hw Hr. pose proof (λ a, reshaped_live s s' a Hr) as Hl.
  constructor.
  - intros a. rewrite (rs_list _ _ Hr), Hl. apply (cw_windows s Hw).
  - rewrite (rs_list _ _ Hr). apply (cw_nodup s Hw).
  - intros a Ha. rewrite (rs_next _ _ Hr). apply (cw_fresh s Hw). rewrite <- Hl, (rs_clients _ _ Hr).
    by rewrite (proj2 (rs_grabs _ _ Hr)) in Ha.
  - rewrite (rs_next _ _ Hr). apply (cw_next s Hw).
  - intros a w' _ Ha. destruct (reshaped_some' s s' a w' Hr Ha) as (w & Hwa & (_ & _ & _ & _ & Hp)).
    destruct (cw_children s Hw a w Hwa) as [Hnd Hc]. split; [by rewrite Hp|].
    intros c Hc'. rewrite Hp in Hc'. destruct (Hc c Hc') as (cw & Hcw & Hpar).
    destruct (reshaped_some s s' c cw Hr Hcw) as (cw' & Hcw' & (_ & _ & Hpe & _)). exists cw'.
    split; [done|congruence].
  - intros a w' Ha Hp. destruct (reshaped_some' s s' a w' Hr Ha) as (w & Hwa & (_ & _ & He & _ & _)).
    rewrite He in *. destruct (cw_parent s Hw a w Hwa Hp) as (Hlt & p & Hpp & Hin). split; [done|].
    destruct (reshaped_some s s' _ p Hr Hpp) as (p' & Hp' & (_ & _ & _ & _ & Hperm)). exists p'.
    split; [done|]. by rewrite Hperm.
  - destruct (rs_roots _ _ Hr) as [-> ->]. destruct (cw_root s Hw) as [(w1 & H1 & P1) (w2 & H2 & P2)].
    destruct (reshaped_some s s' _ w1 Hr H1) as (w1' & ? & (_ & _ & E1 & _)).
    destruct (reshaped_some s s' _ w2 Hr H2) as (w2' & ? & (_ & _ & E2 & _)).
    split; eexists; (split; [done|congruence]).
  - intros a w' Ha. destruct (reshaped_some' s s' a w' Hr Ha) as (w & Hwa & (_ & _ & _ & -> & _)).
    rewrite (proj1 (rs_roots _ _ Hr)). by apply (cw_in_root s Hw a).
  - intros a w' Ha. destruct (reshaped_some' s s' a w' Hr Ha) as (w & Hwa & (_ & -> & _ & -> & _)).
    rewrite <- (rs_clients _ _ Hr). by apply (cw_client s Hw a).
  - intros a w' Ha. destruct (reshaped_some' s s' a w' Hr Ha) as (w & Hwa & (-> & _)).
    rewrite (rs_shared _ _ Hr). by apply (cw_shared s Hw a).
  - rewrite (rs_clis _ _ Hr). destruct (cw_clients s Hw) as [? Hc]. split; [done|].
    intros c Hin. rewrite <- (rs_clients _ _ Hr). by apply Hc.
  - destruct (rs_grabs _ _ Hr) as [-> ->]. intros g Hg.
    destruct (cw_grabs s Hw g Hg) as (gr & ? & ? & ?). exists gr. by rewrite Hl, <- (rs_clients _ _ Hr).
  - rewrite (proj1 (rs_grabs _ _ Hr)). apply (cw_grabs_nodup s Hw).
  - rewrite Hl. destruct (rs_focus _ _ Hr) as [->|]; [apply (cw_focus s Hw)|done].
Qed.

Lemma put_win_reshaped s a w w' : cs_windows s !! a = Some w → reshape w w' → reshaped s (put_win s a w').
Proof.
  intros Ha Hr. constructor; try done; try (by left). intros b. cbn. destruct (decide (b = a)) as [->|].
  - rewrite Ha, lookup_insert_eq. by constructor.
  - rewrite lookup_insert_ne by done. by destruct (cs_windows s !! b); constructor.
Qed.

Lemma with_out_reshaped s o : reshaped s (with_out s o).
Proof. constructor; try done; by left. Qed.
Lemma sys_calls_reshaped s l : reshaped s (sys_calls s l).
Proof. constructor; try done; by left. Qed.
Lemma with_kbd_reshaped s m : reshaped s (with_kbd_mods s m).
Proof. constructor; try done; by left. Qed.
Lemma with_mouse_reshaped s p b : reshaped s (with_mouse s p b).
Proof. constructor; try done; by left. Qed.
Lemma with_focus_reshaped s a : live_win s a → reshaped s (with_focus s a).
Proof. constructor; try done; by right. Qed.
Lemma with_remove_queue_reshaped s q : reshaped s (with_srv s (with_remove_queue (cs_srv s) q)).
Proof. constructor; try done; by left. Qed.
End reshaped.

Create HintDb compose.
#[export] Hint Resolve with_out_reshaped sys_calls_reshaped with_kbd_reshaped with_mouse_reshaped
  with_focus_reshaped with_remove_queue_reshaped reshaped_wf reshaped_live : compose.

(** ** Recursion along parents and children ends *)

(** The number of windows at most as old, and at least as old, as one *)
Definition rank (l : list Z) (a : Z) : nat := length (filter (λ b, b ≤ a) l).
Definition corank (l : list Z) (a : Z) : nat := length (filter (λ b, a ≤ b) l).

Section ranks.
Implicit Types (l : list Z) (a b : Z).

Lemma filter_subset_length (P Q : Z → Prop) `{∀ x, Decision (P x), ∀ x, Decision (Q x)} l :
  (∀ x, P x → Q x) → (length (filter P l) ≤ length (filter Q l))%nat.
Proof.
  intros Hpq. induction l as [|x l IH]; [done|]. rewrite !filter_cons.
  destruct (decide (P x)), (decide (Q x)); cbn; try lia. naive_solver.
Qed.

Lemma filter_strict_length (P Q : Z → Prop) `{∀ x, Decision (P x), ∀ x, Decision (Q x)} l y :
  (∀ x, P x → Q x) → y ∈ l → Q y → ¬ P y → (length (filter P l) < length (filter Q l))%nat.
Proof.
  intros Hpq Hin Hq Hp. induction l as [|x l IH]; [by apply not_elem_of_nil in Hin|].
  pose proof (filter_subset_length P Q l Hpq) as Hsub.
  rewrite !filter_cons. apply elem_of_cons in Hin as [->|Hin].
  - rewrite decide_False, decide_True by done. cbn. lia.
  - specialize (IH Hin). destruct (decide (P x)), (decide (Q x)); cbn; try lia. naive_solver.
Qed.

Lemma rank_lt l a b : b ∈ l → a < b → (rank l a < rank l b)%nat.
Proof. intros Hb Hlt. apply (filter_strict_length _ _ l b); [lia|done|lia|lia]. Qed.
Lemma corank_lt l a b : a ∈ l → a < b → (corank l b < corank l a)%nat.
Proof. intros Hb Hlt. apply (filter_strict_length _ _ l a); [lia|done|lia|lia]. Qed.
Lemma rank_le l a : (rank l a ≤ length l)%nat.
Proof. apply length_filter. Qed.
Lemma corank_le l a : (corank l a ≤ length l)%nat.
Proof. apply length_filter. Qed.
End ranks.

Section events.
Implicit Types (s : comp) (w : compose_window_t) (ev : compose_event_t).

(** Only events were sent, after those sent before. *)
Definition out_only s s' : Prop := ∃ o, s' = with_out s (cs_out s ++ o).

#[export] Instance out_only_refl : Reflexive out_only.
Proof. intros s. exists []. rewrite app_nil_r. by destruct s. Qed.
#[export] Instance out_only_trans : Transitive out_only.
Proof. intros s1 s2 s3 [o ->] [o' ->]. exists (o ++ o'). cbn. by rewrite app_assoc. Qed.
Lemma out_only_reshaped s s' : out_only s s' → reshaped s s'.
Proof. intros [o ->]. apply with_out_reshaped. Qed.

Lemma get_win_ok s a w : cs_windows s !! a = Some w → get_win s a = Ok w.
Proof. intros H. unfold get_win. by rewrite H. Qed.

Lemma live_win_ok s a : live_win s a → ∃ w, cs_windows s !! a = Some w ∧ get_win s a = Ok w.
Proof. intros [w Hw]. exists w. split; [done|by apply get_win_ok]. Qed.

(** The server's own events have the sizes of their structures. *)
Lemma mk_event_fits type win child root p : ev_fits (mk_event type win child root p) = true.
Proof. by destruct p. Qed.

Lemma send_ok s c ev : ev_fits ev = true → live_cli s c → ∃ s', send c ev s = Ok s' ∧ out_only s s'.
Proof.
  intros Hev [cl Hc]. unfold send, compose_sv_event_send, get_cli. rewrite Hc. cbn [of_option].
  rewrite bind_ok, Hev. cbn [negb]. case_if; rewrite bind_ok; eexists; (split; [done|]); [done|by eexists].
Qed.

(** A client whose peer is there gets the event. *)
Lemma send_arrives s c cl ev : ev_fits ev = true → cs_clients s !! c = Some cl → cl_socket cl ∉ cs_gone s →
  send c ev s = Ok (with_out s (cs_out s ++ [(cl_socket cl, ev)])).
Proof.
  intros Hev Hc Hg. unfold send, compose_sv_event_send, get_cli. rewrite Hc. cbn [of_option]. rewrite bind_ok, Hev.
  by rewrite bool_decide_eq_false_2.
Qed.

Lemma get_grab_ok s id type : comp_wf s →
  ∃ o, get_grab id type s = Ok o ∧ ∀ g, o = Some g → live_cli s (gr_client g).
Proof.
  intros Hs. unfold get_grab. pose proof (cw_grabs s Hs) as Hg.
  induction (sv_grabs (cs_srv s)) as [|g l IH]; cbn [get_grab_loop]; [by exists None|].
  destruct (Hg g) as (gr & Hgr & Hw & Hc); [by left|]. rewrite Hgr. cbn [of_option]. rewrite bind_ok.
  assert (IH' := IH (λ g' Hin, Hg g' (list_elem_of_further _ _ _ Hin))).
  case_if; [|done]. destruct (live_win_ok s _ Hw) as (w & _ & ->). rewrite bind_ok.
  case_if; [|done]. exists (Some gr). split; [done|]. by intros g' [= <-].
Qed.

Lemma propagate_here_ok s a w ev : comp_wf s → ev_fits ev = true → cs_windows s !! a = Some w →
  ∃ ev' s', propagate_here w ev s = Ok (ev', s') ∧ out_only s s' ∧ ev_fits ev' = true.
Proof.
  intros Hs Hev Ha. unfold propagate_here. destruct (get_grab_ok s (w_id w) (ev_type ev) Hs) as (o & -> & Ho).
  rewrite bind_ok. cbv zeta. case_if; [|by do 2 eexists].
  set (ev1 := with_ev_win ev (w_id w)).
  assert (∃ s1, (if truthy (Z.land (w_event_mask w) (ev_type ev)) && truthy (w_client w)
    then send (w_client w) ev1 s else Ok s) = Ok s1 ∧ out_only s s1) as (s1 & -> & H1).
  { destruct (truthy (Z.land (w_event_mask w) (ev_type ev)) && truthy (w_client w)) eqn:E1; [|by exists s].
    apply send_ok; [done|]. apply andb_true_iff in E1 as [_ E1]. apply (cw_client s Hs a w Ha). by apply truthy_true. }
  rewrite bind_ok. destruct o as [g|].
  - destruct (send_ok s1 (gr_client g) ev1) as (s2 & -> & H2).
    { done. } { destruct H1 as [o ->]. by apply Ho. }
    rewrite bind_ok. do 2 eexists. split; [done|]. split; [by etrans|done].
  - rewrite bind_ok. by do 2 eexists.
Qed.

Lemma propagate_ok fuel s a ev : comp_wf s → ev_fits ev = true → live_win s a → (rank (sv_windows (cs_srv s)) a < fuel)%nat →
  ∃ ev' s', propagate fuel a ev s = Ok (ev', s') ∧ out_only s s'.
Proof.
  revert s a ev. induction fuel as [|fuel IH]; intros s a ev Hs Hev Ha Hf; [lia|]. cbn [propagate].
  destruct (live_win_ok s a Ha) as (w & Hw & ->). rewrite bind_ok.
  destruct (propagate_here_ok s a w ev Hs Hev Hw) as (ev1 & s1 & -> & H1 & Hev1). rewrite bind_ok.
  destruct (truthy (w_parent w)) eqn:Ep; [|by do 2 eexists]. apply truthy_true in Ep.
  destruct (cw_parent s Hs a w Hw Ep) as (Hlt & p & Hp & _).
  pose proof (out_only_reshaped _ _ H1) as Hr.
  destruct (IH s1 (w_parent w) (with_ev_child ev1 (w_id w))) as (ev2 & s2 & -> & H2).
  - by eapply reshaped_wf.
  - exact Hev1.
  - rewrite (reshaped_live _ _ _ Hr). by exists p.
  - rewrite (rs_list _ _ Hr). pose proof (rank_lt (sv_windows (cs_srv s)) (w_parent w) a).
    rewrite (cw_windows s Hs) in H. specialize (H Ha Hlt). lia.
  - do 2 eexists. split; [done|by etrans].
Qed.

Lemma event_propagate_ok s a ev : comp_wf s → ev_fits ev = true → live_win s a →
  ∃ ev' s', compose_sv_event_propagate a ev s = Ok (ev', s') ∧ out_only s s'.
Proof.
  intros Hs Hev Ha. apply propagate_ok; [done..|]. unfold win_fuel. pose proof (rank_le (sv_windows (cs_srv s)) a). lia.
Qed.

Lemma focus_event_ok s type a : comp_wf s → live_win s a →
  ∃ ev, focus_event type a s = Ok ev ∧ ev_fits ev = true.
Proof.
  intros Hs Ha. unfold focus_event. destruct (live_win_ok s a Ha) as (w & Hw & ->). rewrite bind_ok.
  destruct (truthy (w_root w)) eqn:E; [|rewrite bind_ok; by eexists]. apply truthy_true in E.
  destruct (live_win_ok s _ (cw_win_root s Hs a w Hw E)) as (r & _ & ->). rewrite !bind_ok. by eexists.
Qed.

(** Focusing a window, or with 0 the root *)
Lemma focus_ok s a : comp_wf s → (a ≠ 0 → live_win s a) →
  ∃ s', compose_sv_focus a s = Ok s' ∧ reshaped s s' ∧
    (∃ o, cs_out s' = cs_out s ++ o) ∧ cs_input_focus s' = if a =? 0 then sv_root (cs_srv s) else a.
Proof.
  intros Hs Ha. unfold compose_sv_focus.
  assert (∃ s1, (if truthy (cs_input_focus s) then
         ev ← focus_event COMPOSE_EVENT_UNFOCUS (cs_input_focus s) s;
         '(_, s) ← compose_sv_event_propagate (cs_input_focus s) ev s; Ok s
       else Ok s) = Ok s1 ∧ out_only s s1) as (s1 & -> & H1).
  { destruct (truthy (cs_input_focus s)) eqn:E; [|by exists s]. apply truthy_true, (cw_focus s Hs) in E.
    destruct (focus_event_ok s COMPOSE_EVENT_UNFOCUS _ Hs E) as (ev & -> & Hev). rewrite bind_ok.
    destruct (event_propagate_ok s (cs_input_focus s) ev Hs Hev E) as (ev' & s' & -> & ?).
    rewrite bind_ok. by exists s'. }
  rewrite bind_ok. pose proof (out_only_reshaped _ _ H1) as Hr1.
  assert (Hroot : cs_srv s1 = cs_srv s) by by destruct H1 as [o ->].
  set (b := if truthy a then a else sv_root (cs_srv s1)).
  assert (Hb : live_win s b ∧ b = (if a =? 0 then sv_root (cs_srv s) else a) ∧ b ≠ 0).
  { assert (live_win s b ∧ b = (if a =? 0 then sv_root (cs_srv s) else a)) as [Hl He].
    { subst b. rewrite Hroot. unfold truthy. destruct (Z.eqb_spec a 0); cbn; [|by auto].
      split; [apply (cw_root_live s Hs)|done]. }
    split_and!; [done|done|]. pose proof (cw_fresh s Hs b (or_introl Hl)). lia. }
  destruct Hb as (Hl & He & Hne). rewrite (proj2 (truthy_true b)) by done.
  assert (Hl1 : live_win s1 b) by by rewrite (reshaped_live _ _ _ Hr1).
  set (s2 := with_focus s1 b).
  assert (Hr2 : reshaped s s2) by (etrans; [done|by apply with_focus_reshaped]).
  assert (Hs2 : comp_wf s2) by by eapply reshaped_wf.
  destruct (focus_event_ok s2 COMPOSE_EVENT_FOCUS b Hs2 Hl1) as (ev & -> & Hev). rewrite bind_ok.
  destruct (event_propagate_ok s2 b ev Hs2 Hev Hl1) as (ev' & s' & -> & H'). rewrite bind_ok.
  exists s'. split; [done|]. split; [etrans; [done|by apply out_only_reshaped]|].
  destruct H' as [o ->], H1 as [o1 ->]. cbn. split; [|done]. exists (o1 ++ o). by rewrite app_assoc.
Qed.
End events.

(** ** Stacking *)

Lemma isort_perm pred l : isort pred l ≡ₚ l.
Proof.
  unfold isort. rewrite <- Permutation_rev.
  assert (H : ∀ acc, foldl (λ acc x, ins_rev pred x acc) acc l ≡ₚ acc ++ l); [|apply (H [])].
  induction l as [|x l IH]; intros acc; cbn; [by rewrite app_nil_r|].
  rewrite IH, ins_rev_perm. apply Permutation_middle.
Qed.

(** The insertion sort of the model is what [list_sort] of list.c computes. *)
Lemma isort_is_list_sort pred l xs : repr l xs → xs ≠ [] →
  ∃ l', list_sort pred l = Ok l' ∧ repr l' (isort pred xs).
Proof.
  intros [Hs Hd] Hne. unfold list_sort. rewrite Hs, Hd. destruct xs as [|x xs]; [done|].
  assert (Hloop : ∀ q rl, sort_loop pred (length q) (length rl) (Some <$> (rev rl ++ q)) =
    Ok (Some <$> rev (foldl (λ acc k, ins_rev pred k acc) rl q))).
  { induction q as [|key q IH]; intros rl; cbn [sort_loop length foldl]; [by rewrite app_nil_r|].
    rewrite (slot_get_repr _ _ key), bind_ok by (apply list_lookup_middle; by rewrite length_rev).
    rewrite <- (length_rev rl), sort_shift_ok, bind_ok, rev_involutive, <- IH.
    rewrite (Permutation_length (ins_rev_perm pred key rl)), length_rev. done. }
  specialize (Hloop xs [x]). cbn [rev app length] in Hloop. cbn [length Nat.sub].
  rewrite Nat.sub_0_r, Hloop, bind_ok. eexists. split; [done|].
  change (foldl (λ acc k, ins_rev pred k acc) [x] xs) with (foldl (λ acc k, ins_rev pred k acc) [] (x :: xs)).
  fold (isort pred (x :: xs)).
  rewrite <- (Permutation_length (isort_perm pred (x :: xs))) at 1.
  apply repr_intro; [|done]. intros Hnil. pose proof (isort_perm pred (x :: xs)) as Hp. rewrite Hnil in Hp.
  by apply Permutation_nil_cons in Hp.
Qed.

(** Only the order of children changed. *)
Definition restacked (w w' : compose_window_t) : Prop :=
  w' = with_w_children w (w_children w') ∧ w_children w' ≡ₚ w_children w.
Definition stack_only (s s' : comp) : Prop :=
  s' = with_windows s (cs_windows s') ∧
  ∀ a, option_Forall2 restacked (cs_windows s !! a) (cs_windows s' !! a).

Section stacking.
Implicit Types (s : comp) (w : compose_window_t).

#[export] Instance restacked_refl : Reflexive restacked.
Proof. intros w. by destruct w. Qed.
#[export] Instance restacked_trans : Transitive restacked.
Proof.
  intros w1 w2 w3 [H1 H2] [J1 J2]. split; [|by rewrite J2]. rewrite J1 at 1. rewrite H1 at 1. done.
Qed.

Lemma restacked_reshape w w' : restacked w w' → reshape w w'.
Proof. intros [-> Hp]. done. Qed.

#[export] Instance stack_only_refl : Reflexive stack_only.
Proof. intros s. split; [by destruct s|]. intros a. by destruct (cs_windows s !! a); constructor. Qed.
#[export] Instance stack_only_trans : Transitive stack_only.
Proof.
  intros s1 s2 s3 [H1 H2] [J1 J2]. split; [by rewrite J1, H1|]. intros a. specialize (H2 a). specialize (J2 a).
  destruct H2 as [w1 w2 H2|]; inversion J2; subst; constructor. by etrans.
Qed.

Lemma stack_only_reshaped s s' : stack_only s s' → reshaped s s'.
Proof.
  intros [-> H]. constructor; try done; [|by left]. intros a. specialize (H a). cbn in *.
  destruct H; constructor. by apply restacked_reshape.
Qed.

Lemma sort_windows_ok pred l s : (∀ c, c ∈ l → live_win s c) →
  list_sort_windows pred l s = Ok (isort (pred s) l).
Proof.
  intros Hl. unfold list_sort_windows. rewrite (proj2 (forallb_forall _ _)); [done|].
  intros c Hc. apply bool_decide_eq_true_2, Hl. by apply list_elem_of_In.
Qed.

Lemma child_live s a w c : comp_wf s → cs_windows s !! a = Some w → c ∈ w_children w → live_win s c ∧ a < c.
Proof.
  intros Hs Ha Hc. destruct (cw_children s Hs a w Ha) as [_ H]. destruct (H c Hc) as (cw & Hcw & Hp).
  split; [by exists cw|]. pose proof (cw_fresh s Hs a (or_introl (ex_intro _ w Ha))).
  destruct (cw_parent s Hs c cw Hcw) as [Hlt _]; lia.
Qed.

Lemma restack_ok fuel s a : comp_wf s → live_win s a → (corank (sv_windows (cs_srv s)) a < fuel)%nat →
  ∃ s', restack fuel a s = Ok s' ∧ stack_only s s' ∧
    (∀ b, b < a → cs_windows s' !! b = cs_windows s !! b) ∧
    ∀ w, cs_windows s !! a = Some w →
      cs_windows s' !! a = Some (with_w_children w (isort (sort_windows s) (w_children w))).
Proof.
  revert s a. induction fuel as [|fuel IH]; intros s a Hs Ha Hf; [lia|]. cbn [restack].
  destruct (live_win_ok s a Ha) as (w & Hw & ->). rewrite bind_ok.
  rewrite sort_windows_ok, bind_ok by (intros c Hc; by apply (child_live s a w c Hs Hw Hc)).
  set (l := isort (sort_windows s) (w_children w)).
  set (s1 := put_win s a (with_w_children w l)).
  assert (H1 : stack_only s s1).
  { split; [done|]. intros b. cbn. destruct (decide (b = a)) as [->|].
    - rewrite Hw, lookup_insert_eq. constructor. split; [done|apply isort_perm].
    - rewrite lookup_insert_ne by done. by destruct (cs_windows s !! b); constructor. }
  assert (Hw1 : cs_windows s1 !! a = Some (with_w_children w l)) by (cbn; by rewrite lookup_insert_eq).
  assert (Hl : ∀ c, c ∈ l → live_win s c ∧ a < c).
  { intros c Hc. subst l. rewrite isort_perm in Hc. by apply (child_live s a w c Hs Hw). }
  assert (Heach : ∀ l', (∀ c, c ∈ l' → live_win s c ∧ a < c) → ∀ s2, stack_only s s2 →
    ∃ s', for_each (restack fuel) l' s2 = Ok s' ∧ stack_only s s' ∧
      ∀ b, b ≤ a → cs_windows s' !! b = cs_windows s2 !! b).
  { induction l' as [|c l' IHl]; intros Hl' s2 H2; cbn [for_each]; [by exists s2|].
    destruct (Hl' c) as [Hc Hlt]; [by left|]. pose proof (stack_only_reshaped _ _ H2) as Hr2.
    destruct (IH s2 c) as (s3 & -> & H3 & Hb3 & _).
    - by eapply reshaped_wf.
    - by rewrite (reshaped_live _ _ _ Hr2).
    - rewrite (rs_list _ _ Hr2). pose proof (corank_lt (sv_windows (cs_srv s)) a c) as Hrk.
      rewrite (cw_windows s Hs) in Hrk. specialize (Hrk Ha Hlt). lia.
    - rewrite bind_ok. destruct (IHl (λ c' Hc', Hl' c' (list_elem_of_further _ _ _ Hc')) s3)
        as (s4 & -> & H4 & Hb4); [by etrans|].
      exists s4. split_and!; [done|done|]. intros b Hb. rewrite Hb4, Hb3 by lia. done. }
  destruct (Heach l Hl s1 H1) as (s' & -> & Hst & Hb). exists s'. split_and!; [done|done| |].
  - intros b Hlt. rewrite Hb by lia. cbn. by rewrite lookup_insert_ne by lia.
  - intros w0 Hw0. assert (w0 = w) as -> by congruence. rewrite Hb by lia. cbn.
    by rewrite lookup_insert_eq.
Qed.

Lemma sv_restack_ok s a : comp_wf s → live_win s a →
  ∃ s', compose_sv_restack a s = Ok s' ∧ stack_only s s' ∧
    ∀ w, cs_windows s !! a = Some w →
      cs_windows s' !! a = Some (with_w_children w (isort (sort_windows s) (w_children w))).
Proof.
  intros Hs Ha. destruct (restack_ok (win_fuel s) s a Hs Ha) as (s' & ? & ? & _ & ?); [|by exists s'].
  unfold win_fuel. pose proof (corank_le (sv_windows (cs_srv s)) a). lia.
Qed.

(** ** Moving *)

Lemma set_pos_ok s a f w : cs_windows s !! a = Some w →
  set_pos a f s = Ok (put_win s a (with_w_pos w (f (w_pos w)))).
Proof. intros Ha. unfold set_pos. by rewrite (get_win_ok s a w), bind_ok by done. Qed.

Lemma set_pos_reshaped s a f : live_win s a → ∃ s', set_pos a f s = Ok s' ∧ reshaped s s'.
Proof.
  intros [w Hw]. rewrite (set_pos_ok s a f w Hw). eexists. split; [done|]. by apply (put_win_reshaped s a w).
Qed.

(** A step of a computation that keeps the forest, taken or not *)
Lemma reshaped_step s0 s (b : bool) (f : comp → res comp) :
  comp_wf s0 → reshaped s0 s →
  (b = true → ∀ s, comp_wf s → reshaped s0 s → ∃ s', f s = Ok s' ∧ reshaped s s') →
  ∃ s', (if b then f s else Ok s) = Ok s' ∧ reshaped s0 s'.
Proof.
  intros Hw Hr Hf. destruct b; [|by exists s].
  destruct (Hf eq_refl s) as (s' & ? & ?); [by eapply reshaped_wf|done|]. exists s'. split; [done|by etrans].
Qed.

Lemma parent_live s a w : comp_wf s → cs_windows s !! a = Some w → w_parent w ≠ 0 → live_win s (w_parent w).
Proof. intros Hs Ha Hp. destruct (cw_parent s Hs a w Ha Hp) as (_ & p & ? & _). by exists p. Qed.

Section move.
Context (raise : Z → comp → res comp) (mask : Z).
Context (Hraise : bit_on mask COMPOSE_MOVE_RAISE || bit_on mask COMPOSE_MOVE_SUNK = true →
  ∀ s a, comp_wf s → live_win s a → ∃ s', raise a s = Ok s' ∧ reshaped s s').

Lemma move_with_ok s a x y z : comp_wf s → live_win s a →
  ∃ s', sv_move_with raise a x y z mask s = Ok s' ∧ reshaped s s'.
Proof.
  intros Hs Ha. unfold sv_move_with. destruct (live_win_ok s a Ha) as (w & Hw & ->). rewrite bind_ok.
  cbv zeta. case_if; [by exists s|]. clear E.
  assert (Hlive : ∀ s', reshaped s s' → live_win s' a) by (intros s' Hr; by rewrite (reshaped_live _ _ _ Hr)).
  edestruct (reshaped_step s s (bit_on mask COMPOSE_MOVE_X)
    (set_pos a (λ p, mk_pos x (ps_y p) (ps_z p)))) as (s1 & -> & H1); [done|done| |].
  { intros _ s' _ Hr. by apply set_pos_reshaped, Hlive. }
  rewrite bind_ok.
  edestruct (reshaped_step s s1 (bit_on mask COMPOSE_MOVE_Y)
    (set_pos a (λ p, mk_pos (ps_x p) y (ps_z p)))) as (s2 & -> & H2); [done|done| |].
  { intros _ s' _ Hr. by apply set_pos_reshaped, Hlive. }
  rewrite bind_ok.
  destruct (reshaped_step s s2 (bit_on mask COMPOSE_MOVE_Z) (λ s,
    s ← set_pos a (λ p, mk_pos (ps_x p) (ps_y p) z) s;
    if truthy (w_parent w) then compose_sv_restack (w_parent w) s else Ok s)) as (s3 & H3 & Hr3); [done|done| |].
  { intros _ s' Hs' Hr. destruct (set_pos_reshaped s' a (λ p, mk_pos (ps_x p) (ps_y p) z)) as (s4 & -> & H4);
      [by apply Hlive|]. rewrite bind_ok. destruct (truthy (w_parent w)) eqn:Ep; [|by exists s4].
    apply truthy_true in Ep. assert (Hr4 : reshaped s s4) by by etrans.
    destruct (sv_restack_ok s4 (w_parent w)) as (s5 & H5 & Hst & _).
    - by eapply reshaped_wf.
    - rewrite (reshaped_live _ _ _ Hr4). by apply (parent_live s a w).
    - exists s5. split; [done|]. etrans; [done|by apply stack_only_reshaped]. }
  cbv beta in H3. rewrite H3, bind_ok.
  destruct (reshaped_step s s3 (bit_on mask COMPOSE_MOVE_RAISE) (raise a)) as (s4 & -> & Hr4); [done|done| |].
  { intros Hb s' Hs' Hr. apply Hraise; [by rewrite Hb|done|by apply Hlive]. }
  rewrite bind_ok.
  destruct (reshaped_step s s4 (bit_on mask COMPOSE_MOVE_SUNK) (raise a)) as (s5 & -> & Hr5); [done|done| |].
  { intros Hb s' Hs' Hr. apply Hraise; [by rewrite Hb, orb_true_r|done|by apply Hlive]. }
  rewrite bind_ok. assert (Hs5 : comp_wf s5) by by eapply reshaped_wf.
  destruct (live_win_ok s5 a (Hlive s5 Hr5)) as (w5 & Hw5 & ->). rewrite bind_ok.
  destruct (truthy (w_client w5)) eqn:Ec; [|by exists s5]. apply truthy_true in Ec.
  destruct (send_ok s5 (w_client w5) (mk_event COMPOSE_EVENT_MOVE (Some (w_id w5)) None None
    (PMove (w_pos w) (w_pos w5)))) as (s6 & -> & H6); [done|by apply (cw_client s5 Hs5 a)|].
  exists s6. split; [done|]. etrans; [done|by apply out_only_reshaped].
Qed.
End move.

Lemma move_z_ok s a x y z : comp_wf s → live_win s a →
  ∃ s', sv_move_z a x y z 4 s = Ok s' ∧ reshaped s s'.
Proof. apply move_with_ok. by intros. Qed.

Lemma last_child_live s p w a : comp_wf s → cs_windows s !! p = Some w → a ∈ w_children w →
  live_win s (default 0 (last (w_children w))).
Proof.
  intros Hs Hp Ha. destruct (last (w_children w)) as [c|] eqn:El; cbn.
  - apply (child_live s p w c Hs Hp). rewrite last_lookup in El. by eapply list_elem_of_lookup_2.
  - apply last_None in El. rewrite El in Ha. by apply not_elem_of_nil in Ha.
Qed.

Lemma raise_ok s a : comp_wf s → live_win s a → ∃ s', compose_sv_raise a s = Ok s' ∧ reshaped s s'.
Proof.
  intros Hs Ha. unfold compose_sv_raise. destruct (live_win_ok s a Ha) as (w & Hw & ->). rewrite bind_ok.
  destruct (truthy (w_parent w)) eqn:Ep; cbn [negb]; [|by exists s]. apply truthy_true in Ep.
  destruct (cw_parent s Hs a w Hw Ep) as (_ & p & Hp & Hin). rewrite (get_win_ok s _ p), bind_ok by done.
  cbv zeta. case_if; [by exists s|].
  destruct (live_win_ok s _ (last_child_live s _ p a Hs Hp Hin)) as (t & _ & ->). rewrite bind_ok.
  by apply move_z_ok.
Qed.

Lemma sv_move_ok s a x y z mask : comp_wf s → live_win s a →
  ∃ s', compose_sv_move a x y z mask s = Ok s' ∧ reshaped s s'.
Proof. apply move_with_ok. intros _. apply raise_ok. Qed.

(** ** Resizing *)

Lemma start_resize_ok s a x y : comp_wf s → live_win s a →
  ∃ s', compose_sv_start_resize a x y s = Ok s' ∧ reshaped s s'.
Proof.
  intros Hs Ha. unfold compose_sv_start_resize. destruct (live_win_ok s a Ha) as (w & Hw & ->). rewrite bind_ok.
  case_if; [eexists; split; [done|by apply (put_win_reshaped s a w)]|]. case_if; [by exists s|].
  set (s1 := put_win s a _). assert (H1 : reshaped s s1) by by apply (put_win_reshaped s a w).
  cbv zeta. destruct (truthy (w_client w)) eqn:Ec; [|by exists s1]. apply truthy_true in Ec.
  destruct (send_ok s1 (w_client w) (mk_event COMPOSE_EVENT_RESIZE (Some (w_id w)) None None
    (PResize (w_sizes w) (mk_sizes x y)))) as (s2 & -> & H2); [done|by apply (cw_client s Hs a)|].
  exists s2. split; [done|]. etrans; [done|by apply out_only_reshaped].
Qed.

Lemma apply_size_ok s a : comp_wf s → live_win s a →
  ∃ s', compose_sv_apply_size a s = Ok s' ∧ reshaped s s'.
Proof.
  intros Hs Ha. unfold compose_sv_apply_size. destruct (live_win_ok s a Ha) as (w & Hw & ->). rewrite bind_ok.
  case_if; [by exists s|]. destruct (cw_shared s Hs a w Hw) as [gc Hgc]. rewrite Hgc. cbn [of_option].
  rewrite bind_ok. cbv zeta. set (s1 := sys_calls s _).
  assert (Hput : ∀ w', reshape w w' → reshaped s (put_win s1 a w')).
  { intros w' Hr. etrans; [apply (sys_calls_reshaped s)|]. by apply (put_win_reshaped s1 a w). }
  case_if; [|eexists; split; [done|by apply Hput]].
  set (s2 := put_win s1 a _). assert (H2 : reshaped s s2) by by apply Hput.
  destruct (start_resize_ok s2 a (sz_w (w_delayed w)) (sz_h (w_delayed w))) as (s3 & H3 & Hr3).
  - by eapply reshaped_wf.
  - by rewrite (reshaped_live _ _ _ H2).
  - exists s3. split; [done|by etrans].
Qed.

Lemma get_window_loop_ok s id l : (∀ a, a ∈ l → live_win s a) →
  ∃ a, get_window_loop l id s = Ok a ∧ (a ≠ 0 → a ∈ l).
Proof.
  induction l as [|a l IH]; intros Hl; cbn [get_window_loop]; [by exists 0|].
  destruct (live_win_ok s a) as (w & _ & ->); [apply Hl; by left|]. rewrite bind_ok.
  case_if; [exists a; split; [done|intros; by left]|].
  destruct IH as (b & Hb & Hin); [intros c Hc; apply Hl; by right|]. exists b. split; [done|].
  intros. right. by apply Hin.
Qed.

Lemma get_window_ok s id : comp_wf s →
  ∃ a, compose_sv_get_window id s = Ok a ∧ (a ≠ 0 → live_win s a).
Proof.
  intros Hs. destruct (get_window_loop_ok s id (sv_windows (cs_srv s))) as (a & Ha & Hin).
  - intros a. apply (cw_windows s Hs).
  - exists a. split; [done|]. intros Hne. by apply (cw_windows s Hs), Hin.
Qed.
End stacking.

(** ** A new window *)

Section create.
Implicit Types (s : comp) (w : compose_window_t).

(** The parent takes the new window as its last child. *)
Definition adopt (par new a : Z) (x : compose_window_t) : compose_window_t :=
  if a =? par then with_w_children x (w_children x ++ [new]) else x.

(** The state [t] is [s] with the window [w] at the new address, linked to its parent. *)
Record win_grown (s t : comp) (par : Z) (w : compose_window_t) : Prop := {
  gw_windows : ∀ a, cs_windows t !! a =
    if decide (a = cs_next s) then Some w else adopt par (cs_next s) a <$> (cs_windows s !! a);
  gw_list : sv_windows (cs_srv t) ≡ₚ sv_windows (cs_srv s) ++ [cs_next s];
  gw_roots : sv_root (cs_srv t) = sv_root (cs_srv s) ∧ sv_overlay (cs_srv t) = sv_overlay (cs_srv s);
  gw_clis : sv_clients (cs_srv t) = sv_clients (cs_srv s) ∧ cs_clients t = cs_clients s;
  gw_grabs : sv_grabs (cs_srv t) = sv_grabs (cs_srv s) ∧ cs_grabs t = cs_grabs s;
  gw_shared : ∀ i, is_Some (cs_shared s !! i) → is_Some (cs_shared t !! i);
  gw_next : cs_next t = cs_next s + 1;
  gw_focus : cs_input_focus t = cs_input_focus s
}.

(** A window that can be linked under [par] *)
Record fresh_window (s t : comp) (par : Z) (w : compose_window_t) : Prop := {
  fw_parent : w_parent w = par ∧ (par ≠ 0 → live_win s par);
  fw_root : w_root w = sv_root (cs_srv s);
  fw_children : w_children w = [];
  fw_client : w_client w ≠ 0 → live_cli s (w_client w);
  fw_shared : is_Some (cs_shared t !! w_id w)
}.

Lemma next_not_live s : comp_wf s → cs_windows s !! cs_next s = None.
Proof.
  intros Hs. destruct (cs_windows s !! cs_next s) as [w|] eqn:E; [|done].
  pose proof (cw_fresh s Hs (cs_next s) (or_introl (ex_intro _ w E))). lia.
Qed.

Lemma grown_old s t par w a x : comp_wf s → win_grown s t par w → cs_windows s !! a = Some x →
  cs_windows t !! a = Some (adopt par (cs_next s) a x).
Proof.
  intros Hs Hg Ha. rewrite (gw_windows _ _ _ _ Hg), decide_False, Ha; [done|].
  intros ->. by rewrite (next_not_live s Hs) in Ha.
Qed.

Lemma grown_inv s t par w a x : win_grown s t par w → cs_windows t !! a = Some x →
  a = cs_next s ∧ x = w ∨ a ≠ cs_next s ∧ ∃ x0, cs_windows s !! a = Some x0 ∧ x = adopt par (cs_next s) a x0.
Proof.
  intros Hg. rewrite (gw_windows _ _ _ _ Hg). case_decide; [intros [= <-]; by left|].
  intros (x0 & -> & ?)%fmap_Some. right. split; [done|]. by exists x0.
Qed.

Lemma grown_live s t par w a : comp_wf s → win_grown s t par w → live_win t a ↔ live_win s a ∨ a = cs_next s.
Proof.
  intros Hs Hg. split.
  - intros [x Hx]. destruct (grown_inv _ _ _ _ _ _ Hg Hx) as [[? _]|(_ & x0 & ? & _)]; [by right|].
    left. by exists x0.
  - intros [[x Hx]| ->]; [eexists; by apply (grown_old s t par w)|].
    exists w. by rewrite (gw_windows _ _ _ _ Hg), decide_True.
Qed.

Lemma adopt_fields par new a x : w_id (adopt par new a x) = w_id x ∧ w_client (adopt par new a x) = w_client x ∧
  w_parent (adopt par new a x) = w_parent x ∧ w_root (adopt par new a x) = w_root x.
Proof. unfold adopt. by destruct (a =? par). Qed.

Lemma grown_wf s t par w : comp_wf s → win_grown s t par w → fresh_window s t par w → comp_wf t.
Proof.
  intros Hs Hg Hf. pose proof (λ a, grown_live s t par w a Hs Hg) as Hl.
  destruct (fw_parent _ _ _ _ Hf) as [Hpar Hparl]. pose proof (cw_next s Hs) as Hn.
  destruct (gw_clis _ _ _ _ Hg) as [Hcl Hch]. destruct (gw_grabs _ _ _ _ Hg) as [Hgl Hgh].
  assert (Hc : ∀ c, live_cli t c ↔ live_cli s c) by (intros c; unfold live_cli; by rewrite Hch).
  assert (Hlt : ∀ a, live_win s a → a < cs_next s) by (intros a Ha; apply (cw_fresh s Hs a); by left).
  constructor.
  - intros a. rewrite (gw_list _ _ _ _ Hg), elem_of_app, list_elem_of_singleton, Hl.
    by rewrite (cw_windows s Hs).
  - rewrite (gw_list _ _ _ _ Hg). apply NoDup_app. split_and!; [apply (cw_nodup s Hs)| |apply NoDup_singleton].
    intros a Ha ->%list_elem_of_singleton. apply (cw_windows s Hs), Hlt in Ha. lia.
  - intros a Ha. rewrite (gw_next _ _ _ _ Hg). rewrite Hl, Hc, Hgh in Ha.
    destruct Ha as [[Ha| ->]|Ha]; [| lia|]; [assert (0 < a < cs_next s); [|lia]..];
      apply (cw_fresh s Hs); tauto.
  - rewrite (gw_next _ _ _ _ Hg). lia.
  - intros a x _ Hx. destruct (grown_inv _ _ _ _ _ _ Hg Hx) as [[-> ->]|(Hne & x0 & Hx0 & ->)].
    { rewrite (fw_children _ _ _ _ Hf). split; [constructor|]. by intros c Hin%not_elem_of_nil. }
    destruct (cw_children s Hs a x0 Hx0) as [Hnd Hch0].
    assert (Hold : ∀ c, c ∈ w_children x0 → ∃ cw, cs_windows t !! c = Some cw ∧ w_parent cw = a).
    { intros c Hin. destruct (Hch0 c Hin) as (cw & Hcw & Hp). eexists.
      split; [by apply (grown_old s t par w)|]. by rewrite (proj1 (proj2 (proj2 (adopt_fields _ _ _ _)))). }
    unfold adopt. destruct (Z.eqb_spec a par) as [->|]; [|done]. cbn [w_children with_w_children]. split.
    + apply NoDup_app. split_and!; [done| |apply NoDup_singleton]. intros c Hin ->%list_elem_of_singleton.
      destruct (Hch0 _ Hin) as (cw & Hcw & _). by rewrite (next_not_live s Hs) in Hcw.
    + intros c [Hin| ->%list_elem_of_singleton]%elem_of_app; [by apply Hold|]. exists w.
      split; [|done]. by rewrite (gw_windows _ _ _ _ Hg), decide_True.
  - intros a x Hx Hpx. destruct (grown_inv _ _ _ _ _ _ Hg Hx) as [[-> ->]|(Hne & x0 & Hx0 & ->)].
    { rewrite Hpar in *. specialize (Hparl Hpx). split; [by apply Hlt|]. destruct Hparl as [p Hp].
      eexists. split; [by apply (grown_old s t par w)|]. unfold adopt. rewrite Z.eqb_refl. cbn.
      apply elem_of_app. right. by apply list_elem_of_singleton. }
    rewrite (proj1 (proj2 (proj2 (adopt_fields _ _ _ _)))) in *.
    destruct (cw_parent s Hs a x0 Hx0 Hpx) as (Hpl & p & Hp & Hin). split; [done|].
    eexists. split; [by apply (grown_old s t par w)|]. unfold adopt. destruct (w_parent x0 =? par); [|done].
    cbn. apply elem_of_app. by left.
  - destruct (gw_roots _ _ _ _ Hg) as [-> ->]. destruct (cw_root s Hs) as [(w1 & H1 & P1) (w2 & H2 & P2)].
    split; (eexists; split; [by apply (grown_old s t par w)|];
      by rewrite (proj1 (proj2 (proj2 (adopt_fields _ _ _ _))))).
  - intros a x Hx. rewrite (proj1 (gw_roots _ _ _ _ Hg)).
    destruct (grown_inv _ _ _ _ _ _ Hg Hx) as [[-> ->]|(Hne & x0 & Hx0 & ->)].
    + right. apply (fw_root _ _ _ _ Hf).
    + destruct (adopt_fields par (cs_next s) a x0) as (_ & _ & _ & ->). by apply (cw_in_root s Hs a).
  - intros a x Hx Hr. rewrite Hc.
    destruct (grown_inv _ _ _ _ _ _ Hg Hx) as [[-> ->]|(Hne & x0 & Hx0 & ->)].
    + split; [by apply (fw_client _ _ _ _ Hf)|]. rewrite (fw_root _ _ _ _ Hf).
      pose proof (cw_fresh s Hs _ (or_introl (proj1 (cw_root_live s Hs)))). lia.
    + destruct (adopt_fields par (cs_next s) a x0) as (_ & He & _ & ->). rewrite He in *.
      by apply (cw_client s Hs a x0).
  - intros a x Hx. destruct (grown_inv _ _ _ _ _ _ Hg Hx) as [[-> ->]|(Hne & x0 & Hx0 & ->)].
    + apply (fw_shared _ _ _ _ Hf).
    + destruct (adopt_fields par (cs_next s) a x0) as (-> & _). apply (gw_shared _ _ _ _ Hg).
      by apply (cw_shared s Hs a).
  - rewrite Hcl. destruct (cw_clients s Hs) as [? H]. split; [done|]. intros c. rewrite Hc. apply H.
  - rewrite Hgl. intros g Hin. destruct (cw_grabs s Hs g Hin) as (gr & ? & ? & ?). exists gr.
    rewrite Hgh, Hl, Hc. tauto.
  - rewrite Hgl. apply (cw_grabs_nodup s Hs).
  - rewrite (gw_focus _ _ _ _ Hg), Hl. intros. left. by apply (cw_focus s Hs).
Qed.

(** The new window is in the heap, but not yet linked. *)
Record allocated (s u : comp) (w : compose_window_t) : Prop := {
  al_windows : cs_windows u = <[cs_next s := w]> (cs_windows s);
  al_list : sv_windows (cs_srv u) = sv_windows (cs_srv s);
  al_roots : sv_root (cs_srv u) = sv_root (cs_srv s) ∧ sv_overlay (cs_srv u) = sv_overlay (cs_srv s);
  al_clis : sv_clients (cs_srv u) = sv_clients (cs_srv s) ∧ cs_clients u = cs_clients s;
  al_grabs : sv_grabs (cs_srv u) = sv_grabs (cs_srv s) ∧ cs_grabs u = cs_grabs s;
  al_shared : ∀ i, is_Some (cs_shared s !! i) → is_Some (cs_shared u !! i);
  al_next : cs_next u = cs_next s + 1;
  al_focus : cs_input_focus u = cs_input_focus s;
  al_out : cs_out u = cs_out s ∧ cs_gone u = cs_gone s
}.

Lemma perm_list_reshaped_wf s l : comp_wf s → l ≡ₚ sv_windows (cs_srv s) →
  comp_wf (with_srv s (with_win_list (cs_srv s) l)).
Proof.
  intros [H1 H2 H3 H4 H5 H6 H7 H8 H9 H10 H11 H12 H13 H14] Hl.
  constructor; try done; cbn; [|by rewrite Hl]. intros a.
  change (live_win _ a) with (live_win s a). rewrite <- H1. by rewrite Hl.
Qed.

(** The state in which the parent's children are put in order again *)
Lemma link_grown s u par w p :
  comp_wf s → allocated s u w → (par ≠ 0 → cs_windows s !! par = Some p) →
  let u1 := with_srv u (with_win_list (cs_srv u) (sv_windows (cs_srv u) ++ [cs_next s])) in
  if truthy par then
    let u2 := put_win u1 (cs_next s) (with_w_layer w (s32 (w_layer p + 1))) in
    win_grown s (put_win u2 par (with_w_children p (w_children p ++ [cs_next s]))) par
      (with_w_layer w (s32 (w_layer p + 1)))
  else win_grown s u1 par w.
Proof.
  intros Hs [H1 H2 H3 H4 H5 H6 H7 H8 _] Hp u1. pose proof (next_not_live s Hs) as Hnone.
  destruct (truthy par) eqn:Ep.
  - apply truthy_true in Ep. specialize (Hp Ep). assert (Hne : par ≠ cs_next s) by congruence.
    constructor; try done; [|by rewrite <- H2]. intros a. cbn. rewrite H1. unfold adopt. case_decide as Hd.
    + subst a. by rewrite lookup_insert_ne, lookup_insert_eq by done.
    + destruct (Z.eqb_spec a par) as [->|Hap]; [by rewrite lookup_insert_eq, Hp|].
      rewrite !lookup_insert_ne by done. by destruct (cs_windows s !! a).
  - apply truthy_false in Ep. subst par. constructor; try done; [|by rewrite <- H2]. intros a. cbn. rewrite H1.
    unfold adopt. case_decide as Hd; [subst a; by rewrite lookup_insert_eq|].
    rewrite lookup_insert_ne by done. destruct (cs_windows s !! a) as [x|] eqn:Ea; [|done]. cbn.
    destruct (Z.eqb_spec a 0) as [->|]; [|done].
    pose proof (cw_fresh s Hs 0 (or_introl (ex_intro _ x Ea))). lia.
Qed.

Lemma link_window_ok s u par w :
  comp_wf s → allocated s u w → fresh_window s u par w →
  ∃ u' w', link_window (cs_next s) par u = Ok u' ∧ comp_wf u' ∧ cs_windows u' !! cs_next s = Some w' ∧
    w_client w' = w_client w ∧ w_id w' = w_id w ∧ w_parent w' = par ∧
    (∀ a, live_win u' a ↔ live_win s a ∨ a = cs_next s) ∧ cs_clients u' = cs_clients s ∧
    cs_out u' = cs_out s ∧ cs_gone u' = cs_gone s.
Proof.
  intros Hs Ha Hf. destruct (fw_parent _ _ _ _ Hf) as [Hpar Hlive].
  assert (Hp : ∃ p, par ≠ 0 → cs_windows s !! par = Some p).
  { destruct (decide (par = 0)) as [|Hne]; [by exists w|]. destruct (Hlive Hne) as [p Hp]. by exists p. }
  destruct Hp as [p Hp]. pose proof (link_grown s u par w p Hs Ha Hp) as Hg. cbv zeta in Hg.
  unfold link_window. cbv zeta.
  set (u1 := with_srv u (with_win_list (cs_srv u) (sv_windows (cs_srv u) ++ [cs_next s]))) in *.
  assert (Hmid : ∃ u2 w2, (if truthy par then
         p ← get_win u1 par;
         w ← get_win u1 (cs_next s);
         let s0 := put_win u1 (cs_next s) (with_w_layer w (s32 (w_layer p + 1))) in
         let s0 := put_win s0 par (with_w_children p (w_children p ++ [cs_next s])) in
         compose_sv_restack par s0
       else Ok u1) = Ok u2 ∧ comp_wf u2 ∧ cs_windows u2 !! cs_next s = Some w2 ∧
    w_client w2 = w_client w ∧ w_id w2 = w_id w ∧ w_parent w2 = par ∧
    (∀ a, live_win u2 a ↔ live_win s a ∨ a = cs_next s) ∧ cs_clients u2 = cs_clients s ∧
    cs_out u2 = cs_out s ∧ cs_gone u2 = cs_gone s).
  { destruct (al_out _ _ _ Ha) as [Eo Eg]. destruct (truthy par) eqn:Ep.
    - apply truthy_true in Ep. specialize (Hp Ep). specialize (Hlive Ep).
      rewrite (get_win_ok u1 par p), bind_ok.
      2:{ cbn. rewrite (al_windows _ _ _ Ha), lookup_insert_ne; [done|].
          intros <-. by rewrite (next_not_live s Hs) in Hp. }
      rewrite (get_win_ok u1 (cs_next s) w), bind_ok.
      2:{ cbn. rewrite (al_windows _ _ _ Ha). by rewrite lookup_insert_eq. }
      set (w1 := with_w_layer w (s32 (w_layer p + 1))) in *. set (t := put_win (put_win u1 _ _) par _) in *.
      assert (Hwt : comp_wf t) by (apply (grown_wf s t par w1 Hs Hg); by destruct Hf; constructor).
      pose proof (λ a, grown_live s t par w1 a Hs Hg) as Hlt.
      destruct (sv_restack_ok t par Hwt) as (u2 & Hu2 & Hst & _); [apply Hlt; by left|].
      pose proof (stack_only_reshaped _ _ Hst) as Hr.
      destruct (reshaped_some t u2 (cs_next s) w1 Hr) as (w2 & Hw2 & (Hi & Hc & Hpp & _)).
      { by rewrite (gw_windows _ _ _ _ Hg), decide_True. }
      exists u2, w2. cbv zeta. split_and!; [done|by eapply reshaped_wf|done|done|done|by rewrite Hpp| | | |].
      + intros a. by rewrite (reshaped_live _ _ _ Hr).
      + rewrite (proj1 Hst). apply (proj2 (gw_clis _ _ _ _ Hg)).
      + by rewrite (proj1 Hst).
      + by rewrite (proj1 Hst).
    - exists u1, w. assert (Hw1 : comp_wf u1) by (apply (grown_wf s u1 par w Hs Hg); by destruct Hf; constructor).
      split_and!; [done|done| |done|done|done|intros a; by apply (grown_live s u1 par w)| | |].
      + by rewrite (gw_windows _ _ _ _ Hg), decide_True.
      + apply (proj2 (gw_clis _ _ _ _ Hg)).
      + done.
      + done. }
  destruct Hmid as (u2 & w2 & Hu2 & Hw2 & Hlook & Hc & Hi & Hpp & Hlw & Hlc). cbv zeta in Hu2.
  rewrite Hu2, bind_ok.
  rewrite sort_windows_ok, bind_ok by (intros a; apply (cw_windows u2 Hw2)).
  eexists _, w2. split; [done|]. split; [apply perm_list_reshaped_wf; [done|apply isort_perm]|]. done.
Qed.

Lemma announce_ok s a : comp_wf s → live_win s a →
  ∃ s', announce_window a s = Ok s' ∧ out_only s s' ∧
    ∀ w cl, cs_windows s !! a = Some w → w_client w ≠ 0 → cs_clients s !! w_client w = Some cl →
      cl_socket cl ∉ cs_gone s →
      ∃ root o, cs_out s' = cs_out s ++ (cl_socket cl, mk_event COMPOSE_EVENT_WIN (Some (w_id w)) (Some 0) root PNone) :: o.
Proof.
  intros Hs Ha. unfold announce_window. destruct (live_win_ok s a Ha) as (w & Hw & ->). rewrite bind_ok.
  destruct (truthy (w_client w)) eqn:Ec; 
    [|exists s; split_and!; [done|done|]; intros w' cl Hw' Hne; apply truthy_false in Ec; congruence].
  apply truthy_true in Ec. destruct (cw_client s Hs a w Hw Ec) as [Hcl Hr].
  destruct (live_win_ok s _ (cw_win_root s Hs a w Hw Hr)) as (r & _ & ->). rewrite bind_ok. cbv zeta.
  set (ev := mk_event _ _ _ _ _). destruct (send_ok s (w_client w) ev eq_refl Hcl) as (s1 & Hs1 & H1). rewrite Hs1, bind_ok.
  pose proof (out_only_reshaped _ _ H1) as Hr1.
  destruct (event_propagate_ok s1 a ev) as (ev' & s2 & -> & H2).
  - by eapply reshaped_wf.
  - done.
  - by rewrite (reshaped_live _ _ _ Hr1).
  - rewrite bind_ok. exists s2. split_and!; [done|by etrans|]. intros w' cl Hw' _ Hcl' Hg.
    assert (w' = w) as -> by congruence. rewrite (send_arrives s _ cl) in Hs1 by done. injection Hs1 as <-.
    destruct H2 as [o ->]. exists (Some (w_id r)), o. cbn. by rewrite <- app_assoc.
Qed.

(** The shared memory for a window can be made: the structure for the client in any case,
    the picture or not its object. *)
Definition shm_ready (s : comp) : Prop :=
  default ShmOk (head (cs_shm s)) = ShmOk ∧ default ShmOk (head (tail (cs_shm s))) ≠ ShmNoMap.

Lemma new_window_made client par id uuid props gc_made data_made s :
  gc_made = ShmOk → data_made ≠ ShmNoMap →
  ∃ mapped gc calls, new_window client par id uuid props gc_made data_made s =
    Some (mk_window id client par (sv_root (cs_srv s)) (u32 (s32 (pr_w props * pr_h props * 4))) mapped (pr_flags props)
      (mk_pos (pr_x props) (pr_y props) 0) 0 (mk_sizes (u32 (pr_w props)) (u32 (pr_h props))) (mk_sizes 0 0) [] (pr_event_mask props), gc, calls).
Proof. intros -> Hd. unfold new_window. destruct data_made; [by do 3 eexists..|done]. Qed.

(** Creating a window succeeds, links it under its parent and gives it the focus. *)
Lemma create_window_ok s client par props :
  comp_wf s → shm_ready s → (par ≠ 0 → live_win s par) → (client ≠ 0 → live_cli s client) →
  ∃ s' w, compose_sv_create_window client par props s = Ok (cs_next s, s') ∧ comp_wf s' ∧
    cs_windows s' !! cs_next s = Some w ∧ w_client w = client ∧ w_parent w = par ∧
    w_id w = u32 (sv_window_id (cs_srv s) + 1) ∧ cs_input_focus s' = cs_next s ∧
    (∀ a, live_win s' a ↔ live_win s a ∨ a = cs_next s) ∧ (∀ c, live_cli s' c ↔ live_cli s c) ∧
    ∀ cl, client ≠ 0 → cs_clients s !! client = Some cl → cl_socket cl ∉ cs_gone s →
      ∃ root o, cs_out s' = cs_out s ++ (cl_socket cl, mk_event COMPOSE_EVENT_WIN (Some (w_id w)) (Some 0) root PNone) :: o.
Proof.
  intros Hs [Hshm1 Hshm2] Hpar Hcl. unfold compose_sv_create_window, next_shm, compose_generate_uuid. cbv zeta.
  cbn [with_srv with_next_addr with_shm with_rand cs_shm cs_rand]. rewrite Hshm1.
  set (id := sv_window_id _). set (uuid := default 0 _). set (s1 := with_shm _ (tail (tail _))).
  destruct (new_window_made client par id uuid props ShmOk (default ShmOk (head (tail (cs_shm s)))) s1 eq_refl Hshm2)
    as (mapped & gc & calls & ->). cbn [of_option]. rewrite bind_ok.
  set (w := mk_window id client par _ _ _ _ _ _ _ _ _ _). set (u := sys_calls _ _).
  destruct (link_window_ok s u par w Hs) as (s2 & w2 & -> & Hs2 & Hw2 & Hc2 & Hi2 & Hp2 & Hl2 & Hlc2 & Ho2 & Hg2).
  - constructor; try done. intros i Hi. cbn. destruct (decide (i = id)) as [->|];
      [rewrite lookup_insert_eq|rewrite lookup_insert_ne]; done.
  - constructor; try done. cbn. by rewrite lookup_insert_eq.
  - rewrite bind_ok. destruct (announce_ok s2 (cs_next s) Hs2) as (s3 & -> & H3 & Hann); [by apply Hl2; right|].
    rewrite bind_ok. pose proof (out_only_reshaped _ _ H3) as Hr3.
    assert (Hs3 : comp_wf s3) by by eapply reshaped_wf.
    assert (Hn0 : cs_next s ≠ 0) by (pose proof (cw_next s Hs); lia).
    destruct (focus_ok s3 (cs_next s) Hs3) as (s4 & -> & Hr4 & Ho4 & Hf4).
    { intros _. rewrite (reshaped_live _ _ _ Hr3). apply Hl2. by right. }
    rewrite bind_ok. assert (Hr : reshaped s2 s4) by by etrans.
    destruct (reshaped_some _ _ _ _ Hr Hw2) as (w4 & Hw4 & (Hi4 & Hc4 & Hp4 & _)).
    exists s4, w4. split_and!; [done|by eapply reshaped_wf|done|by rewrite Hc4, Hc2|by rewrite Hp4, Hp2|by rewrite Hi4, Hi2| | | |].
    + rewrite Hf4. by rewrite (proj2 (Z.eqb_neq _ _)).
    + intros a. by rewrite (reshaped_live _ _ _ Hr).
    + intros c. rewrite <- (rs_clients _ _ Hr). unfold live_cli. by rewrite Hlc2.
    + intros cl Hc0 Hcl' Hg. destruct (Hann w2 cl Hw2) as (root & o & Ho); [by rewrite Hc2|by rewrite Hc2, Hlc2|by rewrite Hg2|].
      destruct Ho4 as [o4 ->]. exists root, (o ++ o4). rewrite Ho, Ho2, Hi4, <- app_assoc. done.
Qed.
End create.

(** ** Requests *)

(** A request has all its members, and an event inside it is inside it as a whole; two
    requests must name a window there is; shared memory can be made for a new window. *)
Definition request_ok (s : comp) (r : compose_request_t) : Prop :=
  sizeof_request (rq_body r) ≤ rq_size r ∧
  match rq_body r with
  | BodyEvent _ ev => 12 + ev_size ev ≤ rq_size r
  | BodyNewWin _ _ => shm_ready s
  | BodyGrab win _ | BodyProps win => ∃ a, compose_sv_get_window win s = Ok a ∧ a ≠ 0
  | _ => True
  end.

Section requests.
Implicit Types s : comp.

Lemma for_each_out {A} (f : A → comp → res comp) (l : list A) s :
  (∀ x s', x ∈ l → out_only s s' → ∃ s'', f x s' = Ok s'' ∧ out_only s' s'') →
  ∃ s', for_each f l s = Ok s' ∧ out_only s s'.
Proof.
  intros Hf. assert (H : ∀ s1, out_only s s1 → ∃ s', for_each f l s1 = Ok s' ∧ out_only s s').
  { induction l as [|x l IH]; intros s1 H1; cbn [for_each]; [by exists s1|].
    destruct (Hf x s1) as (s2 & -> & H2); [by left|done|]. rewrite bind_ok.
    apply IH; [|by etrans]. intros y s' Hy. apply Hf. by right. }
  by apply H.
Qed.

Lemma get_client_ok s p : comp_wf s →
  ∃ c, get_client_loop p (sv_clients (cs_srv s)) s = Ok c ∧ (c ≠ 0 → live_cli s c).
Proof.
  intros Hs. destruct (cw_clients s Hs) as [_ Hl].
  induction (sv_clients (cs_srv s)) as [|c l IH]; cbn [get_client_loop]; [by exists 0|].
  destruct (Hl c) as [cl Hc]; [by left|]. unfold get_cli. rewrite Hc. cbn [of_option]. rewrite bind_ok.
  case_if; [exists c; split; [done|by intros; exists cl]|]. apply IH. intros c' Hc'. apply Hl. by right.
Qed.

Lemma grab_request_wf s cli type a : comp_wf s → live_win s a → live_cli s cli →
  comp_wf (let s1 := with_grabs (with_next_addr s (cs_next s + 1))
                       (<[cs_next s := mk_grab type cli a]> (cs_grabs s)) in
           with_srv s1 (with_grab_list (cs_srv s1) (sv_grabs (cs_srv s1) ++ [cs_next s]))).
Proof.
  intros Hs Ha Hc. pose proof Hs as [H1 H2 H3 H4 H5 H6 H7 H8 H9 H10 H11 H12 H13 H14].
  assert (Hng : cs_grabs s !! cs_next s = None).
  { destruct (cs_grabs s !! cs_next s) as [g|] eqn:E; [|done].
    pose proof (H3 (cs_next s) (or_intror (or_intror (ex_intro _ g E)))). lia. }
  constructor; try done; cbn.
  - intros b Hb. destruct (decide (b = cs_next s)) as [->|]; [lia|].
    rewrite lookup_insert_ne in Hb by done. assert (0 < b < cs_next s); [|lia]. by apply H3.
  - lia.
  - intros g [Hg| ->%list_elem_of_singleton]%elem_of_app.
    + destruct (H12 g Hg) as (gr & Hgr & ?). exists gr. rewrite lookup_insert_ne; [done|]. intros <-. congruence.
    + rewrite lookup_insert_eq. by eexists.
  - apply NoDup_app. split_and!; [done| |apply NoDup_singleton]. intros g Hg ->%list_elem_of_singleton.
    destruct (H12 _ Hg) as (gr & Hgr & _). congruence.
Qed.

Lemma handle_request_ok s cli r :
  comp_wf s → live_cli s cli → request_ok s r →
  ∃ s', compose_sv_handle_request cli r s = Ok s' ∧ comp_wf s' ∧ (∀ c, live_cli s' c ↔ live_cli s c).
Proof.
  intros Hs Hcli [Hsize Hok].
  assert (Hread : ∀ n, n ≤ sizeof_request (rq_body r) → req_reads r n = Ok tt).
  { intros n Hn. unfold req_reads. by rewrite (proj2 (Z.leb_le _ _)) by lia. }
  assert (Hresh : ∀ s', reshaped s s' → comp_wf s' ∧ ∀ c, live_cli s' c ↔ live_cli s c).
  { intros s' Hr. split; [by eapply reshaped_wf|]. intros c. by rewrite (rs_clients _ _ Hr). }
  unfold compose_sv_handle_request.
  destruct (rq_body r) as [win flags x y z|win stage x y|target ev|parent props|win mask|win type|win| |win| |] eqn:Eb;
    cbn [sizeof_request] in Hread, Hsize.
  - rewrite (Hread 12), bind_ok by lia. destruct (get_window_ok s win Hs) as (a & -> & Ha). rewrite bind_ok.
    destruct (truthy a) eqn:E; [|by exists s]. apply truthy_true in E. rewrite (Hread 28), bind_ok by lia.
    destruct (sv_move_ok s a x y z flags Hs (Ha E)) as (s' & -> & Hr). exists s'. split; [done|by apply Hresh].
  - rewrite (Hread 12), bind_ok by lia. destruct (get_window_ok s win Hs) as (a & -> & Ha). rewrite bind_ok.
    destruct (truthy a) eqn:E; cbn [negb]; [|by exists s]. apply truthy_true in E. rewrite (Hread 13), bind_ok by lia. case_if.
    + rewrite (Hread 24), bind_ok by lia. destruct (start_resize_ok s a (u32 x) (u32 y) Hs (Ha E)) as (s' & -> & Hr). exists s'. split; [done|by apply Hresh].
    + destruct (apply_size_ok s a Hs (Ha E)) as (s' & -> & Hr). exists s'. split; [done|by apply Hresh].
  - rewrite (Hread 12), bind_ok by lia. assert (Hev : ev_fits (req_event r ev) = true).
    { unfold ev_fits. cbn. by rewrite !(proj2 (Z.leb_le _ _)) by lia. }
    case_if.
    + destruct (for_each_out (λ c, send c (req_event r ev)) (sv_clients (cs_srv s)) s) as (s' & Hf & Ho).
      { intros c s1 Hc [o ->]. apply send_ok; [done|]. by apply (cw_clients s Hs). }
      exists s'. split; [done|]. by apply Hresh, out_only_reshaped.
    + destruct (get_client_ok s (λ c, cl_id c =? target) Hs) as (t & Ht & Hl).
      unfold compose_sv_get_client. rewrite Ht, bind_ok.
      destruct (truthy t) eqn:Et; [|by exists s]. apply truthy_true in Et.
      destruct (send_ok s t (req_event r ev) Hev (Hl Et)) as (s' & -> & Ho). exists s'. split; [done|]. by apply Hresh, out_only_reshaped.
  - rewrite (Hread 12), bind_ok by lia. destruct (get_window_ok s parent Hs) as (p & -> & Hp). rewrite bind_ok.
    rewrite (Hread 40), bind_ok by lia. destruct (create_window_ok s cli p props Hs Hok Hp (λ _, Hcli)) as (s' & w & -> & Hw & _ & _ & _ & _ & _ & _ & Hc & _).
    rewrite bind_ok. by exists s'.
  - rewrite (Hread 12), bind_ok by lia. destruct (get_window_ok s win Hs) as (a & -> & Ha). rewrite bind_ok.
    destruct (truthy a) eqn:E; [|by exists s]. apply truthy_true in E. rewrite (Hread 20), bind_ok by lia.
    destruct (live_win_ok s a (Ha E)) as (w & Hw & ->). rewrite bind_ok. eexists. split; [done|].
    apply Hresh. by apply (put_win_reshaped s a w).
  - rewrite (Hread 20), bind_ok by lia. destruct Hok as (a & Hg & Ha). destruct (get_window_ok s win Hs) as (a' & Hg' & Hl).
    rewrite Hg in *. injection Hg' as <-. rewrite bind_ok. eexists. split; [done|].
    split; [by apply grab_request_wf; [|apply Hl|]|done].
  - rewrite (Hread 12), bind_ok by lia. destruct (get_window_ok s win Hs) as (a & -> & Ha). rewrite bind_ok.
    destruct (focus_ok s a Hs Ha) as (s' & -> & Hr & _). exists s'. split; [done|by apply Hresh].
  - eexists. split; [done|]. apply Hresh, with_remove_queue_reshaped.
  - rewrite (Hread 12), bind_ok by lia. destruct Hok as (a & Hg & Ha). destruct (get_window_ok s win Hs) as (a' & Hg' & Hl).
    rewrite Hg in *. injection Hg' as <-. rewrite bind_ok. unfold compose_sv_send_props.
    destruct (live_win_ok s a (Hl Ha)) as (w & Hw & ->). rewrite bind_ok.
    assert (∃ i, (if truthy (w_root w) then r ← get_win s (w_root w); Ok (w_id r) else Ok (w_id w)) = Ok i) as [i ->].
    { destruct (truthy (w_root w)) eqn:Er; [|by eexists]. apply truthy_true in Er.
      destruct (live_win_ok s _ (cw_win_root s Hs a w Hw Er)) as (rw & _ & ->). rewrite bind_ok. by eexists. }
    rewrite bind_ok. destruct (send_ok s cli (mk_event COMPOSE_EVENT_PROPS (Some (w_id w)) None (Some i)
      (PProps (mk_props (ps_x (w_pos w)) (ps_y (w_pos w)) (s32 (sz_w (w_sizes w)))
                 (s32 (sz_h (w_sizes w))) (s32 (w_flags w)) (w_event_mask w)))) eq_refl Hcli) as (s' & -> & Ho).
    exists s'. split; [done|]. by apply Hresh, out_only_reshaped.
  - destruct Hcli as [c Hc]. unfold get_cli. rewrite Hc. cbn [of_option]. rewrite bind_ok.
    eexists. split; [done|]. apply Hresh. constructor; try done; try (by left).
    intros d. unfold live_cli. cbn. destruct (decide (d = cli)) as [->|];
      [rewrite lookup_insert_eq, Hc; by split; eexists|by rewrite lookup_insert_ne].
  - by exists s.
Qed.
End requests.

(** ** A test for the invariant, for concrete states *)

Definition win_okb (s : comp) (a : Z) (w : compose_window_t) : bool :=
  bool_decide (a ∈ sv_windows (cs_srv s)) && (0 <? a) && (a <? cs_next s) &&
  bool_decide (NoDup (w_children w)) &&
  forallb (λ c, from_option (λ cw, w_parent cw =? a) false (cs_windows s !! c)) (w_children w) &&
  ((w_parent w =? 0) || ((w_parent w <? a) &&
     from_option (λ p, bool_decide (a ∈ w_children p)) false (cs_windows s !! w_parent w))) &&
  ((w_root w =? 0) || (w_root w =? sv_root (cs_srv s))) &&
  ((w_client w =? 0) || (bool_decide (is_Some (cs_clients s !! w_client w)) && negb (w_root w =? 0))) &&
  bool_decide (is_Some (cs_shared s !! w_id w)).

Definition comp_okb (s : comp) : bool :=
  forallb (λ p, win_okb s (fst p) (snd p)) (map_to_list (cs_windows s)) &&
  forallb (λ a, bool_decide (is_Some (cs_windows s !! a))) (sv_windows (cs_srv s)) &&
  bool_decide (NoDup (sv_windows (cs_srv s))) && (0 <? cs_next s) &&
  forallb (λ p, (0 <? fst p) && (fst p <? cs_next s)) (map_to_list (cs_clients s)) &&
  forallb (λ p, (0 <? fst p) && (fst p <? cs_next s)) (map_to_list (cs_grabs s)) &&
  from_option (λ w, w_parent w =? 0) false (cs_windows s !! sv_root (cs_srv s)) &&
  from_option (λ w, w_parent w =? 0) false (cs_windows s !! sv_overlay (cs_srv s)) &&
  bool_decide (NoDup (sv_clients (cs_srv s))) &&
  forallb (λ c, bool_decide (is_Some (cs_clients s !! c))) (sv_clients (cs_srv s)) &&
  forallb (λ g, from_option (λ gr, bool_decide (is_Some (cs_windows s !! gr_window gr)) &&
    bool_decide (is_Some (cs_clients s !! gr_client gr))) false (cs_grabs s !! g)) (sv_grabs (cs_srv s)) &&
  bool_decide (NoDup (sv_grabs (cs_srv s))) &&
  ((cs_input_focus s =? 0) || bool_decide (is_Some (cs_windows s !! cs_input_focus s))).

Lemma forallb_map {A} (f : Z * A → bool) (m : gmap Z A) a x :
  forallb f (map_to_list m) = true → m !! a = Some x → f (a, x) = true.
Proof. rewrite forallb_forall. intros H Ha. by apply H, list_elem_of_In, elem_of_map_to_list. Qed.

Lemma forallb_elem (f : Z → bool) l a : forallb f l = true → a ∈ l → f a = true.
Proof. rewrite forallb_forall. intros H Ha. by apply H, list_elem_of_In. Qed.

Lemma win_okb_sound s a w : win_okb s a w = true →
  a ∈ sv_windows (cs_srv s) ∧ 0 < a < cs_next s ∧
  (NoDup (w_children w) ∧ ∀ c, c ∈ w_children w → ∃ cw, cs_windows s !! c = Some cw ∧ w_parent cw = a) ∧
  (w_parent w ≠ 0 → w_parent w < a ∧ ∃ p, cs_windows s !! w_parent w = Some p ∧ a ∈ w_children p) ∧
  (w_root w = 0 ∨ w_root w = sv_root (cs_srv s)) ∧
  (w_client w ≠ 0 → live_cli s (w_client w) ∧ w_root w ≠ 0) ∧ is_Some (cs_shared s !! w_id w).
Proof.
  unfold win_okb. rewrite !andb_true_iff, !orb_true_iff, !andb_true_iff, !bool_decide_eq_true.
  rewrite negb_true_iff, !Z.eqb_eq, Z.eqb_neq, !Z.ltb_lt.
  intros ((((((((H1 & H2) & H3) & H4) & H5) & H6) & H7) & H8) & H9). split_and!; try done.
  - intros c Hc. pose proof (forallb_elem _ _ _ H5 Hc) as H. cbn in H.
    destruct (cs_windows s !! c) as [cw|]; [|done]. cbn in H. apply Z.eqb_eq in H. by exists cw.
  - intros Hp. destruct H6 as [|[Hlt H]]; [done|]. split; [done|].
    destruct (cs_windows s !! w_parent w) as [p|]; [|done]. cbn in H. apply bool_decide_eq_true in H. by exists p.
  - intros Hc. by destruct H8.
Qed.

Lemma comp_okb_sound s : comp_okb s = true → comp_wf s.
Proof.
  unfold comp_okb. rewrite !andb_true_iff. intros ((((((((((((H1 & H2) & H3) & H4) & H5) & H6) & H7) & H8) & H9) & H10) & H11) & H12) & H13).
  apply bool_decide_eq_true in H3, H9, H12. apply Z.ltb_lt in H4.
  assert (Hw : ∀ a w, cs_windows s !! a = Some w → win_okb s a w = true)
    by (intros a w Ha; exact (forallb_map _ _ _ _ H1 Ha)).
  assert (Hroot : ∀ a, from_option (λ w, w_parent w =? 0) false (cs_windows s !! a) = true →
    ∃ w, cs_windows s !! a = Some w ∧ w_parent w = 0).
  { intros a. destruct (cs_windows s !! a) as [w|]; [|done]. cbn. intros ?%Z.eqb_eq. by exists w. }
  constructor; try done.
  - intros a. split; [|intros [w Ha]; by apply (win_okb_sound s a w), Hw].
    intros Ha. pose proof (forallb_elem _ _ _ H2 Ha) as H. by apply bool_decide_eq_true in H.
  - intros a [[w Ha]|[[c Ha]|[g Ha]]]; [by apply (win_okb_sound s a w), Hw| |].
    + pose proof (forallb_map _ _ _ _ H5 Ha) as H. cbn in H. rewrite andb_true_iff, !Z.ltb_lt in H. lia.
    + pose proof (forallb_map _ _ _ _ H6 Ha) as H. cbn in H. rewrite andb_true_iff, !Z.ltb_lt in H. lia.
  - intros a w _ Ha. by apply (win_okb_sound s a w), Hw.
  - intros a w Ha. by apply (win_okb_sound s a w), Hw.
  - split; by apply Hroot.
  - intros a w Ha. by apply (win_okb_sound s a w), Hw.
  - intros a w Ha. by apply (win_okb_sound s a w), Hw.
  - intros a w Ha. by apply (win_okb_sound s a w), Hw.
  - split; [done|]. intros c Hc. pose proof (forallb_elem _ _ _ H10 Hc) as H. by apply bool_decide_eq_true in H.
  - intros g Hg. pose proof (forallb_elem _ _ _ H11 Hg) as H. cbn in H.
    destruct (cs_grabs s !! g) as [gr|]; [|done]. cbn in H. rewrite andb_true_iff, !bool_decide_eq_true in H.
    by exists gr.
  - intros Hf. apply orb_true_iff in H13 as [H|H]; [by apply Z.eqb_eq in H|by apply bool_decide_eq_true in H].
Qed.

Lemma demo_state_wf : comp_wf compose_demo.
Proof. apply comp_okb_sound. by vm_compute. Qed.

(** Its windows: their parents and their clients *)
Lemma demo_window a pc : (λ w, (w_parent w, w_client w)) <$> cs_windows compose_demo !! a = Some pc →
  ∃ w, cs_windows compose_demo !! a = Some w ∧ w_parent w = fst pc ∧ w_client w = snd pc.
Proof. intros (w & -> & ->)%fmap_Some. by exists w. Qed.
Lemma demo_window_1 : ∃ w, cs_windows compose_demo !! 1 = Some w ∧ w_parent w = 0 ∧ w_client w = 0.
Proof. apply (demo_window 1 (0, 0)). by vm_compute. Qed.
Lemma demo_window_2 : ∃ w, cs_windows compose_demo !! 2 = Some w ∧ w_parent w = 0 ∧ w_client w = 0.
Proof. apply (demo_window 2 (0, 0)). by vm_compute. Qed.
Lemma demo_window_4 : ∃ w, cs_windows compose_demo !! 4 = Some w ∧ w_parent w = 1 ∧ w_client w = 3.
Proof. apply (demo_window 4 (1, 3)). by vm_compute. Qed.
Lemma demo_window_5 : ∃ w, cs_windows compose_demo !! 5 = Some w ∧ w_parent w = 1 ∧ w_client w = 3.
Proof. apply (demo_window 5 (1, 3)). by vm_compute. Qed.
Lemma demo_window_6 : ∃ w, cs_windows compose_demo !! 6 = Some w ∧ w_parent w = 4 ∧ w_client w = 3.
Proof. apply (demo_window 6 (4, 3)). by vm_compute. Qed.
Lemma demo_window_0 : cs_windows compose_demo !! 0 = None.
Proof. by vm_compute. Qed.
Lemma compose_demo_server : sv_root (cs_srv compose_demo) = 1 ∧ sv_overlay (cs_srv compose_demo) = 2 ∧
  ∀ a, a ∈ sv_windows (cs_srv compose_demo) → a = 1 ∨ a = 2 ∨ a = 4 ∨ a = 5 ∨ a = 6.
Proof.
  split_and!; [by vm_compute|by vm_compute|]. intros a Ha.
  assert (E : forallb (λ a, existsb (Z.eqb a) [1; 2; 4; 5; 6]) (sv_windows (cs_srv compose_demo)) = true) by (vm_compute; reflexivity).
  pose proof (forallb_elem _ _ _ E Ha) as Hb. cbn in Hb. rewrite !orb_true_iff, !Z.eqb_eq in Hb. clear -Hb. intuition done.
Qed.
