(* ===== verification/ComposeRemove.v ===== *)
(** * The server of the window system: windows and clients that go away

    [compose_sv_remove_window] takes a window with everything under it; it keeps the
    invariant, as does the disconnection of a client all of whose windows are under its
    windows on the root. *)

From S2P Require Import Prelude TypesList.
From S2P Require Import Input Compose ComposeFacts.

(** ** Deleting grabs *)

Section grabs.
Implicit Types (s : comp) (p : grab_t → bool).

(** Only grabs were taken away: those of the list [L]. *)
Record grabs_removed (L : list Z) s s' : Prop := {
  gd_rest : s' = with_grabs (with_srv s (with_grab_list (cs_srv s) (sv_grabs (cs_srv s')))) (cs_grabs s');
  gd_list : ∀ g, g ∈ sv_grabs (cs_srv s') ↔ g ∈ sv_grabs (cs_srv s) ∧ g ∉ L;
  gd_nodup : NoDup (sv_grabs (cs_srv s'));
  gd_heap : ∀ g, cs_grabs s' !! g = if decide (g ∈ L) then None else cs_grabs s !! g
}.

Lemma foldl_delete_grab L s : NoDup (sv_grabs (cs_srv s)) →
  grabs_removed L s (foldl (λ s g, delete_grab g s) s L).
Proof.
  revert s. induction L as [|x L IH]; intros s Hnd; cbn [foldl].
  - constructor; [by destruct s as [[]]| |done|]; intros g.
    + split; [intros; split; [done|by intros ?%not_elem_of_nil]|by intros []].
    + by rewrite decide_False by (by intros ?%not_elem_of_nil).
  - destruct (IH (delete_grab x s)) as [H1 H2 H3 H4]; [by apply remove_first_nodup|].
    constructor; [by rewrite H1| |done|]; intros g.
    + rewrite H2. cbn. rewrite remove_first_elem, not_elem_of_cons by done. naive_solver.
    + rewrite H4. cbn. destruct (decide (g = x)) as [->|Hne].
      * rewrite lookup_delete_eq. by destruct (decide (x ∈ L)); rewrite decide_True by by left.
      * rewrite lookup_delete_ne by done. destruct (decide (g ∈ L)).
        -- by rewrite decide_True by by right.
        -- by rewrite decide_False by by apply not_elem_of_cons.
Qed.

Lemma select_grabs_ok p l s : (∀ g, g ∈ l → is_Some (cs_grabs s !! g)) →
  ∃ L, select_grabs p l s = Ok L ∧
    ∀ g, g ∈ L ↔ g ∈ l ∧ ∃ gr, cs_grabs s !! g = Some gr ∧ p gr = true.
Proof.
  induction l as [|g l IH]; intros Hl; cbn [select_grabs].
  { exists []. split; [done|]. intros g. split; [by intros ?%not_elem_of_nil|by intros [?%not_elem_of_nil _]]. }
  destruct (Hl g) as [gr Hg]; [by left|]. rewrite Hg. cbn [of_option]. rewrite bind_ok.
  destruct IH as (L & -> & HL); [intros; apply Hl; by right|]. rewrite bind_ok.
  eexists. split; [done|]. intros x. destruct (p gr) eqn:Ep; rewrite ?elem_of_cons, HL.
  - split.
    + intros [->|[Hin Hx]]; [split; [by left|by exists gr]|split; [by right|done]].
    + intros [[->|Hin] Hx]; [by left|by right].
  - split.
    + intros [Hin Hx]. split; [by right|done].
    + intros [[->|Hin] Hx]; [|done]. destruct Hx as (gr' & Hgr' & Hp'). congruence.
Qed.

Lemma delete_grabs_ok p s :
  NoDup (sv_grabs (cs_srv s)) → (∀ g, g ∈ sv_grabs (cs_srv s) → is_Some (cs_grabs s !! g)) →
  ∃ s' L, delete_grabs p s = Ok s' ∧ grabs_removed L s s' ∧
    ∀ g, g ∈ sv_grabs (cs_srv s') ↔
      g ∈ sv_grabs (cs_srv s) ∧ ∃ gr, cs_grabs s !! g = Some gr ∧ p gr = false.
Proof.
  intros Hnd Hlive. unfold delete_grabs.
  destruct (select_grabs_ok p (sv_grabs (cs_srv s)) s Hlive) as (L & -> & HL).
  rewrite bind_ok. eexists _, L. split; [done|].
  pose proof (foldl_delete_grab L s Hnd) as Hd. split; [done|]. intros g.
  rewrite (gd_list _ _ _ Hd), HL. split.
  - intros [Hin Hn]. split; [done|]. destruct (Hlive g Hin) as [gr Hgr]. exists gr. split; [done|].
    destruct (p gr) eqn:E; [|done]. exfalso. apply Hn. split; [done|]. by exists gr.
  - intros [Hin (gr & Hgr & E)]. split; [done|]. intros [_ (gr' & Hgr' & E')]. congruence.
Qed.
End grabs.

(** ** Removing one window *)

(** The window loses a child. *)
Definition orphan_win (par child a : Z) (x : compose_window_t) : compose_window_t :=
  if a =? par then with_w_children x (remove_first child (w_children x)) else x.

Lemma orphan_fields par c a x : w_id (orphan_win par c a x) = w_id x ∧ w_client (orphan_win par c a x) = w_client x ∧
  w_parent (orphan_win par c a x) = w_parent x ∧ w_root (orphan_win par c a x) = w_root x.
Proof. unfold orphan_win. by destruct (a =? par). Qed.

(** The parent that forgets the window: none when [notify_parent] is 0 *)
Definition told (notify : bool) (w : compose_window_t) : Z := if notify then w_parent w else 0.

(** [s'] is [s] without the window [a]. *)
Record unlinked (a par : Z) (s s' : comp) : Prop := {
  ul_windows : ∀ b, cs_windows s' !! b = if decide (b = a) then None else orphan_win par a b <$> cs_windows s !! b;
  ul_list : ∀ b, b ∈ sv_windows (cs_srv s') ↔ b ∈ sv_windows (cs_srv s) ∧ b ≠ a;
  ul_nodup : NoDup (sv_windows (cs_srv s'));
  ul_srv : sv_root (cs_srv s') = sv_root (cs_srv s) ∧ sv_overlay (cs_srv s') = sv_overlay (cs_srv s) ∧
    sv_clients (cs_srv s') = sv_clients (cs_srv s);
  ul_same : cs_clients s' = cs_clients s ∧ cs_shared s' = cs_shared s ∧ cs_next s' = cs_next s ∧
    cs_input_focus s' = cs_input_focus s;
  ul_grabs : NoDup (sv_grabs (cs_srv s')) ∧ ∀ g, g ∈ sv_grabs (cs_srv s') →
    g ∈ sv_grabs (cs_srv s) ∧ ∃ gr, cs_grabs s' !! g = Some gr ∧ cs_grabs s !! g = Some gr ∧ gr_window gr ≠ a;
  ul_heap : ∀ g, is_Some (cs_grabs s' !! g) → is_Some (cs_grabs s !! g)
}.

Section remove.
Context {D : Z → Prop}.
Implicit Types (s : comp) (w : compose_window_t).

Lemma remove_first_keeps (a b : Z) l : b ≠ a → b ∈ l → b ∈ remove_first a l.
Proof.
  intros Hne. induction l as [|x l IH]; [done|]. rewrite elem_of_cons. cbn.
  destruct (Z.eqb_spec x a) as [->|]; [naive_solver|]. rewrite elem_of_cons. naive_solver.
Qed.

Lemma zero_dead s : wf_except D s → cs_windows s !! 0 = None.
Proof.
  intros Hs. destruct (cs_windows s !! 0) as [w|] eqn:E; [|done].
  pose proof (cw_fresh s Hs 0 (or_introl (ex_intro _ w E))). lia.
Qed.

Lemma unlink_ok s a w notify : wf_except D s → cs_windows s !! a = Some w →
  ∃ s', unlink_window a notify s = Ok s' ∧ unlinked a (told notify w) s s'.
Proof.
  intros Hs Ha. unfold unlink_window. rewrite (get_win_ok s a w), bind_ok by done.
  assert (H1 : ∃ s1, (if notify && truthy (w_parent w) then
         p ← get_win s (w_parent w);
         Ok (put_win s (w_parent w) (with_w_children p (remove_first a (w_children p))))
       else Ok s) = Ok s1 ∧ s1 = with_windows s (cs_windows s1) ∧
    ∀ b, cs_windows s1 !! b = orphan_win (told notify w) a b <$> cs_windows s !! b).
  { destruct (notify && truthy (w_parent w)) eqn:E.
    - apply andb_true_iff in E as [-> Ep]. apply truthy_true in Ep.
      destruct (cw_parent s Hs a w Ha Ep) as (_ & p & Hp & _). rewrite (get_win_ok s _ p), bind_ok by done.
      eexists. split_and!; [done|done|]. intros b. cbn. unfold orphan_win.
      destruct (Z.eqb_spec b (w_parent w)) as [->|]; [by rewrite lookup_insert_eq, Hp|].
      rewrite lookup_insert_ne by done. by destruct (cs_windows s !! b).
    - assert (Ht : told notify w = 0).
      { unfold told. destruct notify; [|done]. by apply truthy_false. }
      exists s. split_and!; [done|by destruct s|]. intros b. rewrite Ht. unfold orphan_win.
      destruct (cs_windows s !! b) as [x|] eqn:Eb; [|done]. cbn. destruct (Z.eqb_spec b 0) as [->|]; [|done].
      by rewrite (zero_dead s Hs) in Eb. }
  destruct H1 as (s1 & -> & He & Hw1). rewrite bind_ok.
  set (s2 := with_srv s1 _).
  assert (Hgs : sv_grabs (cs_srv s2) = sv_grabs (cs_srv s) ∧ cs_grabs s2 = cs_grabs s)
    by (subst s2; rewrite He; done).
  destruct Hgs as [Hgl Hgh].
  destruct (delete_grabs_ok (λ g, gr_window g =? a) s2) as (s3 & L & -> & HL & Hmem).
  { rewrite Hgl. apply (cw_grabs_nodup s Hs). }
  { rewrite Hgl, Hgh. intros g Hg. destruct (cw_grabs s Hs g Hg) as (gr & -> & _). by eexists. }
  rewrite bind_ok. rewrite Hgl, Hgh in Hmem.
  destruct (cw_shared s Hs a w Ha) as [gc Hgc].
  assert (Hs3 : cs_shared s3 = cs_shared s ∧ cs_windows s3 = cs_windows s1 ∧ cs_clients s3 = cs_clients s ∧
    cs_next s3 = cs_next s ∧ cs_input_focus s3 = cs_input_focus s)
    by (rewrite (gd_rest _ _ _ HL); subst s2; rewrite He; done).
  destruct Hs3 as (E1 & E2 & E3 & E4 & E5).
  assert (Hsrv : ∃ v, sv_windows (cs_srv s3) = remove_first a (sv_windows (cs_srv s)) ∧
    sv_root (cs_srv s3) = sv_root (cs_srv s) ∧ sv_overlay (cs_srv s3) = sv_overlay (cs_srv s) ∧
    sv_clients (cs_srv s3) = sv_clients (cs_srv s) ∧ v = 0)
    by (exists 0; rewrite (gd_rest _ _ _ HL); subst s2; rewrite He; done).
  destruct Hsrv as (_ & V1 & V2 & V3 & V4 & _).
  rewrite E1, Hgc. cbn [of_option]. rewrite bind_ok. eexists. split; [done|]. constructor; cbn; try done.
  - intros b. rewrite E2. destruct (decide (b = a)) as [->|]; [by rewrite lookup_delete_eq|].
    by rewrite lookup_delete_ne, Hw1 by done.
  - intros b. rewrite V1, remove_first_elem by apply (cw_nodup s Hs). done.
  - rewrite V1. apply remove_first_nodup, (cw_nodup s Hs).
  - split; [apply (gd_nodup _ _ _ HL)|]. intros g Hin. pose proof Hin as Hin'.
    apply Hmem in Hin as (Hg & gr & Hgr & Hne). split; [done|]. exists gr. apply Z.eqb_neq in Hne.
    split_and!; [|done|done]. rewrite (gd_heap _ _ _ HL), Hgh, decide_False; [done|].
    by apply (gd_list _ _ _ HL) in Hin' as [_ ?].
  - intros g Hg. rewrite (gd_heap _ _ _ HL), Hgh in Hg. by case_decide; [destruct Hg|].
Qed.

(** Without a living child, the window can go: what remains is well formed. *)
Lemma unlinked_wf s s' a w notify :
  wf_except D s → cs_windows s !! a = Some w → unlinked a (told notify w) s s' →
  a ≠ sv_root (cs_srv s) → a ≠ sv_overlay (cs_srv s) → a ≠ cs_input_focus s →
  (∀ b x, cs_windows s !! b = Some x → w_parent x ≠ a) →
  (notify = false → w_parent w ≠ 0 → D (w_parent w)) →
  wf_except D s'.
Proof.
  intros Hs Ha Hu Hnr Hno Hnf Hdead Hd.
  assert (Hinv : ∀ b x, cs_windows s' !! b = Some x → b ≠ a ∧ ∃ x0, cs_windows s !! b = Some x0 ∧
    x = orphan_win (told notify w) a b x0).
  { intros b x. rewrite (ul_windows _ _ _ _ Hu). case_decide; [done|]. intros (x0 & -> & ?)%fmap_Some.
    split; [done|]. by exists x0. }
  assert (Hold : ∀ b x, b ≠ a → cs_windows s !! b = Some x →
    cs_windows s' !! b = Some (orphan_win (told notify w) a b x)).
  { intros b x Hne Hb. by rewrite (ul_windows _ _ _ _ Hu), decide_False, Hb. }
  assert (Hl : ∀ b, live_win s' b ↔ live_win s b ∧ b ≠ a).
  { intros b. split.
    - intros [x Hx]. destruct (Hinv b x Hx) as (? & x0 & ? & _). split; [by eexists|done].
    - intros [[x Hx] Hne]. eexists. by apply Hold. }
  destruct (ul_srv _ _ _ _ Hu) as (R1 & R2 & R3). destruct (ul_same _ _ _ _ Hu) as (E1 & E2 & E3 & E4).
  assert (Hc : ∀ c, live_cli s' c ↔ live_cli s c) by (intros c; unfold live_cli; by rewrite E1).
  constructor.
  - intros b. rewrite (ul_list _ _ _ _ Hu), Hl. by rewrite (cw_windows s Hs).
  - apply (ul_nodup _ _ _ _ Hu).
  - intros b Hb. rewrite E3. apply (cw_fresh s Hs). rewrite Hl, Hc in Hb.
    destruct Hb as [[? _]|[?|?]]; [by left|by right; left|right; right; by apply (ul_heap _ _ _ _ Hu)].
  - rewrite E3. apply (cw_next s Hs).
  - intros b x Hnd Hx. destruct (Hinv b x Hx) as (Hne & x0 & Hx0 & ->).
    destruct (wx_children s Hs b x0 Hnd Hx0) as [Hdup Hch].
    assert (Hlive : ∀ c, c ∈ w_children x0 → c ≠ a → ∃ cw, cs_windows s' !! c = Some cw ∧ w_parent cw = b).
    { intros c Hin Hca. destruct (Hch c Hin) as (cw & Hcw & Hp). eexists. split; [by apply Hold|].
      by rewrite (proj1 (proj2 (proj2 (orphan_fields _ _ _ _)))). }
    unfold orphan_win. destruct (Z.eqb_spec b (told notify w)) as [->|Hnt]; cbn [w_children with_w_children].
    + split; [by apply remove_first_nodup|]. intros c Hin. apply remove_first_elem in Hin as [? ?]; [|done]. auto.
    + split; [done|]. intros c Hin. apply Hlive; [done|]. intros ->.
      destruct (Hch a Hin) as (aw & Haw & Hp). assert (aw = w) as -> by congruence.
      unfold told in Hnt. destruct notify; [done|]. apply Hnd. rewrite <- Hp. apply Hd; [done|].
      rewrite Hp. intros ->. by rewrite (zero_dead s Hs) in Hx0.
  - intros b x Hx Hp. destruct (Hinv b x Hx) as (Hne & x0 & Hx0 & ->).
    rewrite (proj1 (proj2 (proj2 (orphan_fields _ _ _ _)))) in *.
    destruct (cw_parent s Hs b x0 Hx0 Hp) as (Hlt & p & Hpp & Hin). split; [done|].
    eexists. split; [apply Hold; [by eapply Hdead|done]|]. unfold orphan_win.
    destruct (w_parent x0 =? told notify w) eqn:Et; [|done]. cbn.
    by apply remove_first_keeps.
  - destruct (cw_root s Hs) as [(w1 & H1 & P1) (w2 & H2 & P2)]. rewrite R1, R2.
    split; (eexists; split; [by apply Hold|]; by rewrite (proj1 (proj2 (proj2 (orphan_fields _ _ _ _))))).
  - intros b x Hx. destruct (Hinv b x Hx) as (Hne & x0 & Hx0 & ->).
    destruct (orphan_fields (told notify w) a b x0) as (_ & _ & _ & ->). rewrite R1. by apply (cw_in_root s Hs b).
  - intros b x Hx. destruct (Hinv b x Hx) as (Hne & x0 & Hx0 & ->).
    destruct (orphan_fields (told notify w) a b x0) as (_ & -> & _ & ->). rewrite Hc. by apply (cw_client s Hs b).
  - intros b x Hx. destruct (Hinv b x Hx) as (Hne & x0 & Hx0 & ->).
    destruct (orphan_fields (told notify w) a b x0) as (-> & _). rewrite E2. by apply (cw_shared s Hs b).
  - rewrite R3. destruct (cw_clients s Hs) as [? H]. split; [done|]. intros c. rewrite Hc. apply H.
  - intros g Hg. destruct (ul_grabs _ _ _ _ Hu) as [_ H]. destruct (H g Hg) as (Hg0 & gr & Hgr & Hgr0 & Hne).
    destruct (cw_grabs s Hs g Hg0) as (gr' & Hgr' & Hw' & Hcl'). assert (gr' = gr) as -> by congruence.
    exists gr. by rewrite Hl, Hc.
  - apply (ul_grabs _ _ _ _ Hu).
  - rewrite E4, Hl. intros Hf. split; [by apply (cw_focus s Hs)|congruence].
Qed.
End remove.

(** ** Removing a window with everything under it *)

Inductive descends (s : comp) (a : Z) : Z → Prop :=
| desc_refl : descends s a a
| desc_child b w : cs_windows s !! b = Some w → descends s a (w_parent w) → descends s a b.

(** [s'] has fewer windows than [s]: those left are the same, except that the window [par]
    may have lost the child [a]. *)
Record thinned (par a : Z) (s s' : comp) : Prop := {
  th_windows : ∀ b x, cs_windows s' !! b = Some x → ∃ x0, cs_windows s !! b = Some x0 ∧ x = orphan_win par a b x0;
  th_srv : sv_root (cs_srv s') = sv_root (cs_srv s) ∧ sv_overlay (cs_srv s') = sv_overlay (cs_srv s) ∧
    sv_clients (cs_srv s') = sv_clients (cs_srv s);
  th_same : cs_clients s' = cs_clients s ∧ cs_shared s' = cs_shared s ∧ cs_next s' = cs_next s;
  th_list : ∀ b, b ∈ sv_windows (cs_srv s') → b ∈ sv_windows (cs_srv s)
}.

Section subtree.
Implicit Types (s : comp) (w : compose_window_t).

Lemma orphan_0 a b x : b ≠ 0 → orphan_win 0 a b x = x.
Proof. intros. unfold orphan_win. by rewrite (proj2 (Z.eqb_neq b 0)). Qed.

Lemma desc_ge D s a b : wf_except D s → descends s a b → a ≤ b.
Proof.
  intros Hs H. induction H as [|b w Hb _ IH]; [lia|].
  destruct (decide (w_parent w = 0)) as [E|Hne].
  - rewrite E in IH. pose proof (cw_fresh s Hs b (or_introl (ex_intro _ w Hb))). lia.
  - destruct (cw_parent s Hs b w Hb Hne). lia.
Qed.

(** Descent in a thinner state is descent. *)
Lemma desc_thinned par c s s' a b : thinned par c s s' → descends s' a b → descends s a b.
Proof.
  intros Ht H. induction H as [|b w Hb _ IH]; [constructor|].
  destruct (th_windows _ _ _ _ Ht b w Hb) as (x0 & Hx0 & ->).
  rewrite (proj1 (proj2 (proj2 (orphan_fields _ _ _ _)))) in IH. by eapply desc_child.
Qed.

Lemma desc_same s s' a b : cs_windows s' = cs_windows s → descends s a b → descends s' a b.
Proof. intros E H. induction H as [|b w Hb _ IH]; [constructor|]. apply (desc_child s' a b w); [by rewrite E|done]. Qed.

Lemma desc_trans s a b c : descends s a b → descends s b c → descends s a c.
Proof. intros Hab H. induction H; [done|by eapply desc_child]. Qed.

(** What leads to a dead window is dead. *)
Lemma desc_dead D1 D2 par c s s' a b : a ≠ 0 → wf_except D1 s → wf_except D2 s' → thinned par c s s' →
  cs_windows s' !! a = None → descends s a b → cs_windows s' !! b = None.
Proof.
  intros Ha0 Hs Hs' Ht Ha H. induction H as [|b w Hb Hd IH]; [done|].
  destruct (cs_windows s' !! b) as [x|] eqn:Eb; [|done].
  destruct (th_windows _ _ _ _ Ht b x Eb) as (x0 & Hx0 & ->). assert (x0 = w) as -> by congruence.
  assert (Hp0 : w_parent w ≠ 0).
  { intros E. rewrite E in Hd. inversion Hd as [|? w' Hw' _]; subst; [done|].
    by rewrite (zero_dead s Hs) in Hw'. }
  destruct (cw_parent s' Hs' b _ Eb) as (_ & p & Hp & _);
    rewrite (proj1 (proj2 (proj2 (orphan_fields _ _ _ _)))) in *; [done|congruence].
Qed.

(** Descent survives as long as the descendant does. *)
Lemma desc_survives D1 D2 par c s s' a b : a ≠ 0 → wf_except D1 s → wf_except D2 s' → thinned par c s s' →
  descends s a b → live_win s' b → descends s' a b.
Proof.
  intros Ha0 Hs Hs' Ht H. induction H as [|b w Hb Hd IH]; intros Hl; [constructor|]. destruct Hl as [x Hx].
  destruct (th_windows _ _ _ _ Ht b x Hx) as (x0 & Hx0 & Ex). assert (x0 = w) as -> by congruence.
  pose proof (proj1 (proj2 (proj2 (orphan_fields par c b w)))) as Hp. rewrite <- Ex in Hp.
  apply (desc_child s' a b x Hx). rewrite Hp. apply IH.
  assert (Hp0 : w_parent w ≠ 0).
  { intros E. rewrite E in Hd. inversion Hd as [|? w' Hw' _]; subst; [done|]. by rewrite (zero_dead s Hs) in Hw'. }
  destruct (cw_parent s' Hs' b x Hx) as (_ & p & Hpp & _); [congruence|]. rewrite Hp in Hpp. by exists p.
Qed.

Lemma thinned_refl D s : wf_except D s → thinned 0 0 s s.
Proof.
  intros Hs. constructor; try done. intros b x Hb. exists x. split; [done|]. rewrite orphan_0; [done|].
  intros ->. by rewrite (zero_dead s Hs) in Hb.
Qed.

Lemma thinned_trans D par a c s1 s2 s3 :
  wf_except D s1 → thinned 0 c s1 s2 → thinned par a s2 s3 → thinned par a s1 s3.
Proof.
  intros Hs [H1 (H2 & H3 & H4) (H5 & H6 & H7) H8] [J1 (J2 & J3 & J4) (J5 & J6 & J7) J8].
  constructor; [|split_and!; congruence|split_and!; congruence|auto].
  intros b x Hb. destruct (J1 b x Hb) as (x1 & Hx1 & ->). destruct (H1 b x1 Hx1) as (x0 & Hx0 & ->).
  exists x0. split; [done|]. rewrite (orphan_0 c b x0); [done|].
  intros ->. by rewrite (zero_dead s1 Hs) in Hx0.
Qed.

Lemma unlinked_thinned a w notify s s' : unlinked a (told notify w) s s' → thinned (told notify w) a s s'.
Proof.
  intros [H1 H2 H3 H4 (E1 & E2 & E3 & E4) H6 H7]. constructor; [|done|done|].
  - intros b x. rewrite H1. case_decide; [done|]. intros (x0 & -> & ->)%fmap_Some. by exists x0.
  - intros b. rewrite H2. tauto.
Qed.

Lemma wf_weaken (D D' : Z → Prop) s : (∀ x, D x → D' x) → wf_except D s → wf_except D' s.
Proof. intros Hd []. constructor; try done. intros b x Hb. auto. Qed.

Lemma wf_dead D s a : cs_windows s !! a = None → wf_except (λ x, D x ∨ x = a) s → wf_except D s.
Proof.
  intros Ha []. constructor; try done. intros b x Hb Hx. apply wx_children; [|done].
  intros [?| ->]; [done|congruence].
Qed.

Lemma corank_mono D s s' a par c : wf_except D s' → thinned par c s s' →
  (corank (sv_windows (cs_srv s')) a ≤ corank (sv_windows (cs_srv s)) a)%nat.
Proof.
  intros Hs' Ht. unfold corank. apply submseteq_length, NoDup_submseteq.
  - apply NoDup_filter, (cw_nodup s' Hs').
  - intros x. rewrite !list_elem_of_filter. intros [? Hx]. split; [done|]. by apply (th_list _ _ _ _ Ht).
Qed.

(** What the removal of [a] achieves *)
Record removed (D : Z → Prop) (a : Z) (notify : bool) (w : compose_window_t) (s s' : comp) : Prop := {
  rm_wf : wf_except D s';
  rm_dead : cs_windows s' !! a = None;
  rm_thin : thinned (told notify w) a s s';
  rm_others : ∀ b, live_win s b → ¬ descends s a b → live_win s' b;
  rm_focus : cs_input_focus s' = cs_input_focus s ∨ cs_input_focus s' = 0
}.

(** The loop over the children, given that removing a younger window works *)
Section children.
Context (fuel : nat) (D : Z → Prop) (s : comp) (a : Z) (w : compose_window_t).
Context (Hs : wf_except D s) (Ha : cs_windows s !! a = Some w) (Ha0 : a ≠ 0).
Context (IH : ∀ s1 c wc, wf_except D s1 → cs_windows s1 !! c = Some wc → w_parent wc = a → a < c →
  sv_root (cs_srv s1) = sv_root (cs_srv s) → sv_overlay (cs_srv s1) = sv_overlay (cs_srv s) →
  (corank (sv_windows (cs_srv s1)) c < fuel)%nat →
  ∃ s', remove_window fuel c false s1 = Ok s' ∧ removed D c false wc s1 s').
Context (Hfuel : (corank (sv_windows (cs_srv s)) a < S fuel)%nat).

Lemma remove_children_ok l s1 :
  wf_except D s1 → thinned 0 0 s s1 → NoDup l →
  (∀ c, c ∈ l → a < c ∧ ∃ wc, cs_windows s1 !! c = Some wc ∧ w_parent wc = a) →
  ∃ s', for_each (λ c, remove_window fuel c false) l s1 = Ok s' ∧ wf_except D s' ∧ thinned 0 0 s s' ∧
    (∀ c, c ∈ l ∨ cs_windows s1 !! c = None → cs_windows s' !! c = None) ∧
    (∀ b, live_win s1 b → (∀ c, c ∈ l → ¬ descends s c b) → live_win s' b) ∧
    (cs_input_focus s' = cs_input_focus s1 ∨ cs_input_focus s' = 0).
Proof.
  revert s1. induction l as [|c l IHl]; intros s1 Hs1 Ht Hnd Hl; cbn [for_each].
  { exists s1. split_and!; try done; [|by left]. by intros c [?%not_elem_of_nil|?]. }
  apply NoDup_cons in Hnd as [Hc Hnd]. destruct (Hl c) as (Hac & wc & Hwc & Hpc); [by left|].
  destruct (IH s1 c wc) as (s2 & -> & Hr); [done..|apply (th_srv _ _ _ _ Ht)|apply (th_srv _ _ _ _ Ht)| |].
  { pose proof (corank_mono _ _ _ c _ _ Hs1 Ht). pose proof (corank_lt (sv_windows (cs_srv s)) a c) as Hrk.
    rewrite (cw_windows s Hs) in Hrk. specialize (Hrk (ex_intro _ w Ha) Hac). lia. }
  rewrite bind_ok. destruct Hr as [Hs2 Hdead Hth Hoth Hfoc]. cbn [told] in Hth.
  assert (Ht2 : thinned 0 0 s s2).
  { pose proof (thinned_trans D 0 c 0 s s1 s2 Hs Ht Hth) as [T1 T2 T3 T4]. constructor; try done.
    intros b x Hb. destruct (T1 b x Hb) as (x0 & Hx0 & ->). exists x0. split; [done|].
    rewrite !orphan_0; [done|..]; intros ->; by rewrite (zero_dead s Hs) in Hx0. }
  assert (Hnotdesc : ∀ c', c' ∈ l → ¬ descends s1 c c').
  { intros c' Hc' Hd. destruct (Hl c') as (Hac' & wc' & Hwc' & Hpc'); [by right|].
    inversion Hd as [|? w' Hw' Hd']; subst; [done|]. assert (w' = wc') as -> by congruence.
    rewrite Hpc' in Hd'. apply (desc_ge D) in Hd'; [lia|done]. }
  destruct (IHl s2) as (s3 & -> & Hs3 & Ht3 & Hd3 & Ho3 & Hf3); [done|done|done| |].
  { intros c' Hc'. destruct (Hl c') as (Hac' & wc' & Hwc' & Hpc'); [by right|]. split; [done|].
    destruct (Hoth c') as [x Hx]; [by eexists|by apply Hnotdesc|]. exists x. split; [done|].
    destruct (th_windows _ _ _ _ Hth c' x Hx) as (x0 & Hx0 & ->).
    rewrite (proj1 (proj2 (proj2 (orphan_fields _ _ _ _)))). congruence. }
  exists s3. split_and!; [done|done|done| | |].
  - intros c' [[->|Hc']%elem_of_cons|Hnone]; apply Hd3; [by right|by left|right].
    destruct (cs_windows s2 !! c') as [x|] eqn:E; [|done].
    destruct (th_windows _ _ _ _ Hth c' x E) as (x0 & ? & _). congruence.
  - intros b Hb Hnd'. apply Ho3; [apply Hoth; [done|]|].
    + intros Hd. apply (Hnd' c); [by left|]. by apply (desc_thinned 0 0 s s1).
    + intros c' Hc'. apply Hnd'. by right.
  - destruct Hf3 as [->|]; [done|by right].
Qed.
End children.

Lemma remove_window_ok fuel D s a notify w :
  wf_except D s → cs_windows s !! a = Some w → a ≠ sv_root (cs_srv s) → a ≠ sv_overlay (cs_srv s) →
  (corank (sv_windows (cs_srv s)) a < fuel)%nat → (notify = false → w_parent w ≠ 0 → D (w_parent w)) →
  (∀ x, D x → x < a) →
  ∃ s', remove_window fuel a notify s = Ok s' ∧ removed D a notify w s s'.
Proof.
  revert D s a notify w. induction fuel as [|fuel IHfuel]; intros D s a notify w Hs Ha Hr Ho Hf Hd HD; [lia|].
  cbn [remove_window]. set (s0 := if a =? cs_input_focus s then with_focus s 0 else s).
  assert (H0 : wf_except D s0 ∧ cs_windows s0 = cs_windows s ∧ cs_srv s0 = cs_srv s ∧ a ≠ cs_input_focus s0 ∧
    thinned 0 0 s s0 ∧ (cs_input_focus s0 = cs_input_focus s ∨ cs_input_focus s0 = 0)).
  { assert (Ha0 : a ≠ 0) by (intros ->; by rewrite (zero_dead s Hs) in Ha).
    subst s0. pose proof (thinned_refl D s Hs) as [T1 T2 T3 T4].
    destruct (Z.eqb_spec a (cs_input_focus s)) as [E|]; [|split_and!; try done; by left].
    split_and!; [|done|done|exact Ha0|by constructor|by right]. destruct Hs. by constructor. }
  destruct H0 as (Hs0 & Ew & Ev & Hf0 & Ht0 & Hfoc0). clearbody s0.
  assert (Ha0 : cs_windows s0 !! a = Some w) by by rewrite Ew.
  rewrite (get_win_ok s0 a w), bind_ok by done.
  set (D' := λ x, D x ∨ x = a). assert (Hs0' : wf_except D' s0) by (eapply wf_weaken; [|done]; by left).
  assert (Hne0 : a ≠ 0) by (intros ->; by rewrite (zero_dead s0 Hs0) in Ha0).
  destruct (wx_children s0 Hs0 a w) as [Hnd Hch]; [intros ?%HD; lia|done|].
  destruct (remove_children_ok fuel D' s0 a w Hs0' Ha0) with (l := w_children w) (s1 := s0)
    as (s1 & -> & Hs1 & Ht1 & Hdead & Hoth & Hfoc1).
  - done.
  - intros s1 c wc Hs1 Hwc Hpc Hac R1 R2 Hfu. apply IHfuel; try done.
    + rewrite R1. intros ->. rewrite Ev in *. destruct (cw_root s1 Hs1) as [(x & Hx & Px) _].
      rewrite R1 in Hx. congruence.
    + rewrite R2. intros ->. destruct (cw_root s1 Hs1) as [_ (x & Hx & Px)]. rewrite R2 in Hx. congruence.
    + intros _ _. rewrite Hpc. by right.
    + intros x [Hx| ->]; [apply HD in Hx; lia|done].
  - rewrite Ev. done.
  - done.
  - by apply (thinned_refl D').
  - done.
  - intros c Hc. destruct (Hch c Hc) as (wc & Hwc & Hpc). split; [|by exists wc].
    destruct (cw_parent s0 Hs0 c wc Hwc); [congruence|lia].
  - rewrite bind_ok.
    assert (Hlive1 : live_win s1 a).
    { apply Hoth; [by exists w|]. intros c Hc Hdc. apply (desc_ge D) in Hdc; [|done].
      destruct (Hch c Hc) as (wc & Hwc & Hpc). destruct (cw_parent s0 Hs0 c wc Hwc); [congruence|lia]. }
    assert (Ha1 : cs_windows s1 !! a = Some w).
    { destruct Hlive1 as [x Hx]. destruct (th_windows _ _ _ _ Ht1 a x Hx) as (x0 & Hx0 & ->).
      rewrite orphan_0 in * by done. congruence. }
    destruct (unlink_ok s1 a w notify Hs1 Ha1) as (s' & -> & Hu). exists s'. split; [done|].
    destruct (th_srv _ _ _ _ Ht1) as (R1 & R2 & _).
    assert (Hw' : wf_except D s').
    { apply (wf_dead D s' a); [by rewrite (ul_windows _ _ _ _ Hu), decide_True|].
      apply (unlinked_wf s1 s' a w notify Hs1 Ha1 Hu).
      - by rewrite R1, Ev.
      - by rewrite R2, Ev.
      - destruct Hfoc1 as [->| ->]; done.
      - intros b x Hb Hp. destruct (cw_parent s1 Hs1 b x Hb) as (_ & p & Hpp & Hin); [congruence|].
        rewrite Hp, Ha1 in Hpp. injection Hpp as <-. specialize (Hdead b (or_introl Hin)). congruence.
      - intros Hn Hp. left. by apply Hd. }
    constructor; [done|by rewrite (ul_windows _ _ _ _ Hu), decide_True| | |].
    + apply (thinned_trans D _ a 0 s s0 s' Hs Ht0).
      apply (thinned_trans D _ a 0 s0 s1 s' Hs0 Ht1). by apply unlinked_thinned.
    + intros b Hb Hnd'. assert (Hb1 : live_win s1 b).
      { apply Hoth; [unfold live_win; by rewrite Ew|]. intros c Hc Hdc. apply Hnd'.
        destruct (Hch c Hc) as (wc & Hwc & Hpc). apply (desc_trans s a c).
        - apply (desc_child s a c wc); [by rewrite <- Ew|]. rewrite Hpc. constructor.
        - by apply (desc_thinned 0 0 s s0). }
      destruct Hb1 as [x Hx]. unfold live_win. rewrite (ul_windows _ _ _ _ Hu), decide_False, Hx.
      * by eexists.
      * intros ->. apply Hnd'. constructor.
    + destruct (ul_same _ _ _ _ Hu) as (_ & _ & _ & ->).
      destruct Hfoc1 as [->| ->]; [done|by right].
Qed.
End subtree.

(** Removing a window other than the two of the server removes exactly the windows that
    descend from it, and the rest is well formed. *)
Theorem remove_window_removes_subtree (s : comp) (a : Z) (w : compose_window_t) :
  comp_wf s → cs_windows s !! a = Some w → a ≠ sv_root (cs_srv s) → a ≠ sv_overlay (cs_srv s) →
  ∃ s', compose_sv_remove_window a true s = Ok s' ∧ comp_wf s' ∧
    (∀ b, live_win s' b → live_win s b ∧ ¬ descends s a b) ∧
    (∀ b, live_win s b → ¬ descends s a b → live_win s' b).
Proof.
  intros Hs Ha Hr Ho.
  destruct (remove_window_ok (win_fuel s) (λ _, False) s a true w) as (s' & He & [Hw Hdead Ht Hoth _]);
    [done..| |done|done|].
  { unfold win_fuel. pose proof (corank_le (sv_windows (cs_srv s)) a). lia. }
  exists s'. split_and!; [done|done| |done]. intros b [x Hx]. split.
  - destruct (th_windows _ _ _ _ Ht b x Hx) as (x0 & Hx0 & _). by exists x0.
  - intros Hd. assert (cs_windows s' !! b = None); [|congruence].
    apply (desc_dead (λ _, False) (λ _, False) (told true w) a s s' a b); try done.
    intros ->. by rewrite (zero_dead s Hs) in Ha.
Qed.

Lemma remove_window_removes_subtree_witness :
  ∃ s', compose_sv_remove_window 4 true compose_demo = Ok s' ∧ comp_wf s' ∧ ¬ live_win s' 6 ∧ live_win s' 5.
Proof.
  destruct demo_window_4 as (w & Hw & P4 & _), demo_window_5 as (w5 & H5 & P5 & _),
    demo_window_6 as (w6 & H6 & P6 & _), demo_window_1 as (w1 & H1 & P1 & _), compose_demo_server as (Er & Eo & _).
  destruct (remove_window_removes_subtree compose_demo 4 w demo_state_wf Hw) as (s' & He & Hs & Hd & Hk);
    [by rewrite Er|by rewrite Eo|].
  exists s'. split_and!; [exact He|exact Hs| |].
  - intros [_ []]%Hd. apply (desc_child _ 4 6 w6 H6). rewrite P6. constructor.
  - apply Hk; [by exists w5|]. intros Hdes. inversion Hdes as [|? x Hx Hdes']; subst.
    rewrite H5 in Hx. injection Hx as <-. rewrite P5 in Hdes'. inversion Hdes' as [|? y Hy Hdes'']; subst.
    rewrite H1 in Hy. injection Hy as <-. rewrite P1 in Hdes''. inversion Hdes'' as [|? z Hz ?]; subst.
    by rewrite demo_window_0 in Hz.
Defined.

(** ** Disconnecting a client *)

(** The windows that go with the client *)
Definition top_window (s : comp) (client a : Z) : Prop :=
  ∃ w, cs_windows s !! a = Some w ∧ w_client w = client ∧ (w_parent w = 0 ∨ w_parent w = sv_root (cs_srv s)).

(** All windows of the client are under such windows. *)
Definition owns_under (s : comp) (client : Z) : Prop :=
  ∀ b w, cs_windows s !! b = Some w → w_client w = client → ∃ a, top_window s client a ∧ descends s a b.

Section disconnect.
Implicit Types (s : comp) (w : compose_window_t).

Lemma client_windows_ok s client l : (∀ a, a ∈ l → live_win s a) → NoDup l →
  ∃ L, client_windows client l s = Ok L ∧ NoDup L ∧ ∀ a, a ∈ L ↔ a ∈ l ∧ top_window s client a.
Proof.
  intros Hl Hnd. induction l as [|a l IH]; cbn [client_windows].
  { exists []. split_and!; [done|constructor|]. intros a. split; [by intros ?%not_elem_of_nil|by intros [? _]]. }
  apply NoDup_cons in Hnd as [Hna Hnd].
  destruct (live_win_ok s a) as (w & Hw & ->); [apply Hl; by left|]. rewrite bind_ok.
  destruct IH as (L & -> & HLn & HL); [intros; apply Hl; by right|done|]. rewrite bind_ok. eexists. split; [done|].
  destruct ((w_client w =? client) && _) eqn:E.
  - split; [apply NoDup_cons; split; [rewrite HL; tauto|done]|]. intros b. rewrite !elem_of_cons, HL.
    assert (top_window s client a); [|naive_solver]. exists w. split; [done|].
    apply andb_true_iff in E as [E1 E2]. apply Z.eqb_eq in E1. split; [done|].
    apply orb_true_iff in E2 as [E2|E2]; [left; by apply negb_true_iff, truthy_false in E2|right; by apply Z.eqb_eq].
  - split; [done|]. intros b. rewrite elem_of_cons, HL. split; [naive_solver|].
    intros [[->|?] Ht]; [|done]. exfalso. destruct Ht as (w' & Hw' & Hc & Hp). assert (w' = w) as -> by congruence.
    apply andb_false_iff in E as [E|E]; [by apply Z.eqb_neq in E|].
    apply orb_false_iff in E as [E1 E2]. apply Z.eqb_neq in E2. apply negb_false_iff, truthy_true in E1. naive_solver.
Qed.

(** Removing a list of unrelated windows under the root *)
Lemma remove_tops_ok L s :
  comp_wf s → NoDup L →
  (∀ a, a ∈ L → a ≠ sv_root (cs_srv s) ∧ a ≠ sv_overlay (cs_srv s) ∧
    ∃ w, cs_windows s !! a = Some w ∧ (w_parent w = 0 ∨ w_parent w = sv_root (cs_srv s))) →
  ∃ s', for_each (λ a, compose_sv_remove_window a true) L s = Ok s' ∧ comp_wf s' ∧
    cs_clients s' = cs_clients s ∧ sv_clients (cs_srv s') = sv_clients (cs_srv s) ∧
    (∀ b w', cs_windows s' !! b = Some w' → ∃ w, cs_windows s !! b = Some w ∧ w_client w' = w_client w ∧
       ∀ a, a ∈ L → ¬ descends s a b) ∧
    (∀ b, live_win s b → (∀ a, a ∈ L → ¬ descends s a b) → live_win s' b).
Proof.
  revert s. induction L as [|a L IH]; intros s Hs Hnd HL; cbn [for_each].
  { exists s. split_and!; try done. intros b w' Hw'. exists w'. split_and!; [done|done|]. by intros a ?%not_elem_of_nil. }
  apply NoDup_cons in Hnd as [Hna Hnd]. destruct (HL a) as (Hr & Ho & w & Hw & Hpar); [by left|].
  destruct (remove_window_ok (win_fuel s) (λ _, False) s a true w) as (s1 & He & [Hs1 Hdead Ht Hoth _]);
    [done..| |done|done|].
  { unfold win_fuel. pose proof (corank_le (sv_windows (cs_srv s)) a). lia. }
  change (compose_sv_remove_window a true s) with (remove_window (win_fuel s) a true s). rewrite He, bind_ok. destruct (th_srv _ _ _ _ Ht) as (R1 & R2 & R3).
  assert (Ha0 : a ≠ 0) by (intros ->; by rewrite (zero_dead s Hs) in Hw).
  assert (Hroot : ∀ b, a ≠ b → ¬ descends s a (sv_root (cs_srv s))).
  { intros _ _ Hd. inversion Hd as [|? x Hx Hd']; subst; [done|].
    destruct (cw_root s Hs) as [(x' & Hx' & Hp') _]. assert (x = x') as -> by congruence. rewrite Hp' in Hd'.
    inversion Hd' as [|? y Hy _]; subst; [done|]. by rewrite (zero_dead s Hs) in Hy. }
  assert (Htop : ∀ b wb, b ≠ a → cs_windows s !! b = Some wb →
    (w_parent wb = 0 ∨ w_parent wb = sv_root (cs_srv s)) → ¬ descends s a b).
  { intros b wb Hne Hb Hp Hd. inversion Hd as [|? x Hx Hd']; subst; [done|]. assert (x = wb) as -> by congruence.
    destruct Hp as [Hp|Hp]; rewrite Hp in Hd'; [|by apply (Hroot b) in Hd'; auto].
    inversion Hd' as [|? y Hy _]; subst; [done|]. by rewrite (zero_dead s Hs) in Hy. }
  destruct (IH s1) as (s2 & -> & Hs2 & Hc2 & Hcl2 & Hw2 & Ho2); [done|done| |].
  { intros b Hb. destruct (HL b) as (Hbr & Hbo & wb & Hwb & Hpb); [by right|]. rewrite R1, R2.
    split_and!; [done|done|]. assert (Hne : b ≠ a) by (by intros ->).
    destruct (Hoth b) as [x Hx]; [by eexists|by eapply Htop|]. exists x. split; [done|].
    destruct (th_windows _ _ _ _ Ht b x Hx) as (x0 & Hx0 & ->).
    rewrite (proj1 (proj2 (proj2 (orphan_fields _ _ _ _)))). by assert (x0 = wb) as -> by congruence. }
  exists s2. split_and!; [done|done| |by rewrite Hcl2, R3| |].
  - rewrite Hc2. apply (th_same _ _ _ _ Ht).
  - intros b w' Hb. destruct (Hw2 b w' Hb) as (w1 & Hw1 & Hc1 & Hnd1).
    destruct (th_windows _ _ _ _ Ht b w1 Hw1) as (w0 & Hw0 & ->). exists w0.
    destruct (orphan_fields (told true w) a b w0) as (_ & Ec & _ & _). split_and!; [done|congruence|].
    intros c [->|Hc]%elem_of_cons Hd.
    + assert (cs_windows s1 !! b = None); [|congruence].
      apply (desc_dead (λ _, False) (λ _, False) (told true w) a s s1 a b); done.
    + apply (Hnd1 c Hc). destruct (HL c) as (_ & _ & wc & Hwc & _); [by right|].
      assert (c ≠ 0) by (intros ->; by rewrite (zero_dead s Hs) in Hwc).
      by apply (desc_survives (λ _, False) (λ _, False) (told true w) a s s1); [..|eexists].
  - intros b Hb Hnd'. apply Ho2; [apply Hoth; [done|apply Hnd'; by left]|].
    intros c Hc Hd. apply (Hnd' c); [by right|]. by apply (desc_thinned (told true w) a s s1).
Qed.

Lemma remove_client_wf s client :
  comp_wf s → (∀ b w, cs_windows s !! b = Some w → w_client w ≠ client) →
  (∀ g gr, g ∈ sv_grabs (cs_srv s) → cs_grabs s !! g = Some gr → gr_client gr ≠ client) →
  client ∉ sv_clients (cs_srv s) → comp_wf (with_clients s (delete client (cs_clients s))).
Proof.
  intros [H1 H2 H3 H4 H5 H6 H7 H8 H9 H10 H11 H12 H13 H14] Hw Hg Hc.
  assert (Hl : ∀ c, c ≠ client → live_cli s c → is_Some (delete client (cs_clients s) !! c))
    by (intros c Hne Hc'; by rewrite lookup_delete_ne).
  constructor; try done.
  - intros a Ha. apply H3. destruct Ha as [?|[Hd|?]]; [tauto| |tauto]. right; left.
    unfold live_cli in *. cbn in Hd. apply lookup_delete_is_Some in Hd. tauto.
  - intros a w Ha Hc0. destruct (H9 a w Ha Hc0) as [? ?]. split; [|done]. apply Hl; [by eapply Hw|done].
  - destruct H11 as [? H11]. split; [done|]. intros c Hin. apply Hl; [by intros ->|]. by apply H11.
  - intros g Hin. destruct (H12 g Hin) as (gr & ? & ? & ?). exists gr. split_and!; [done|done|].
    apply Hl; [by eapply Hg|done].
Qed.

Lemma grabs_removed_wf L s s' : comp_wf s → grabs_removed L s s' → comp_wf s'.
Proof.
  intros [H1 H2 H3 H4 H5 H6 H7 H8 H9 H10 H11 H12 H13 H14] [G1 G2 G3 G4]. rewrite G1. constructor; try done.
  - intros a Ha. apply H3. destruct Ha as [?|[?|Hg]]; [tauto|tauto|]. right; right.
    cbn in Hg. rewrite G4 in Hg. by case_decide; [destruct Hg|].
  - intros g Hin. cbn in *. apply G2 in Hin as [Hin Hn]. destruct (H12 g Hin) as (gr & ? & ?).
    exists gr. rewrite G4, decide_False by done. done.
Qed.
End disconnect.

(** C18: A client whose windows are all under windows it has on the root, or without a parent,
    can be disconnected: it, its windows and its grabs are gone, the windows of others that
    are not under its own remain, and the state is well formed. *)
Theorem disconnect_removes_client (s : comp) (client : Z) :
  comp_wf s → live_cli s client → client ≠ 0 → owns_under s client →
  (∀ a w, a = sv_root (cs_srv s) ∨ a = sv_overlay (cs_srv s) → cs_windows s !! a = Some w → w_client w ≠ client) →
  ∃ s', compose_sv_disconnect client s = Ok s' ∧ comp_wf s' ∧ ¬ live_cli s' client ∧
    client ∉ sv_clients (cs_srv s') ∧
    (∀ b w, cs_windows s' !! b = Some w → w_client w ≠ client) ∧
    (∀ b, live_win s b → (∀ a, top_window s client a → ¬ descends s a b) → live_win s' b).
Proof.
  intros Hs Hcl Hc0 Hown Hroots. unfold compose_sv_disconnect. cbv zeta.
  set (s0 := with_srv s _).
  assert (Hs0 : comp_wf s0).
  { destruct Hs as [H1 H2 H3 H4 H5 H6 H7 H8 H9 H10 [H11 H11'] H12 H13 H14]. constructor; try done. cbn.
    split; [by apply remove_first_nodup|]. intros c Hc. apply remove_first_elem in Hc as [? _]; [|done]. by apply H11'. }
  destruct (client_windows_ok s0 client (sv_windows (cs_srv s0))) as (L & -> & HLn & HL).
  { intros a. apply (cw_windows s0 Hs0). } { apply (cw_nodup s0 Hs0). }
  rewrite bind_ok. destruct (remove_tops_ok L s0 Hs0 HLn) as (s1 & -> & Hs1 & Ec & Ecl & Hw1 & Ho1).
  { intros a Ha. apply HL in Ha as [_ (w & Hw & Hcw & Hp)].
    split_and!; [intros ->; by apply (Hroots _ w (or_introl eq_refl) Hw)|
                 intros ->; by apply (Hroots _ w (or_intror eq_refl) Hw)|by exists w]. }
  rewrite bind_ok.
  destruct (delete_grabs_ok (λ g, gr_client g =? client) s1) as (s2 & Lg & -> & Hrem & Hmem).
  { apply (cw_grabs_nodup s1 Hs1). }
  { intros g Hg. destruct (cw_grabs s1 Hs1 g Hg) as (gr & -> & _). by eexists. }
  rewrite bind_ok. pose proof (grabs_removed_wf _ _ _ Hs1 Hrem) as Hs2.
  assert (E2 : cs_clients s2 = cs_clients s ∧ cs_windows s2 = cs_windows s1 ∧
    sv_clients (cs_srv s2) = remove_first client (sv_clients (cs_srv s)))
    by (rewrite (gd_rest _ _ _ Hrem); cbn; by rewrite Ec, Ecl).
  destruct E2 as (E2 & E3 & E4). destruct Hcl as [cl Hcl]. unfold get_cli. rewrite E2, Hcl. cbn [of_option].
  rewrite bind_ok. eexists. split; [done|].
  assert (Hnone : ∀ b w, cs_windows s2 !! b = Some w → w_client w ≠ client).
  { intros b w Hb Hcw. rewrite E3 in Hb. destruct (Hw1 b w Hb) as (w0 & Hw0 & Hc & Hnd).
    destruct (Hown b w0 Hw0) as (a & Ha & Hd); [congruence|].
    apply (Hnd a); [|by apply (desc_same s)]. apply HL.
    split; [|done]. destruct Ha as (wa & Hwa & _). apply (cw_windows s0 Hs0). by exists wa. }
  assert (Hnin : client ∉ sv_clients (cs_srv s2)).
  { rewrite E4. rewrite remove_first_elem by apply (cw_clients s Hs). tauto. }
  assert (Hs3 : comp_wf (sys_calls s2 [SysCloseSocket (cl_socket cl)])) by by eapply reshaped_wf, sys_calls_reshaped.
  split_and!.
  - rewrite <- E2. apply (remove_client_wf (sys_calls s2 _) client Hs3); [done| |done].
    intros g gr Hg Hgr. pose proof Hg as Hnl. apply (gd_list _ _ _ Hrem) in Hnl as [_ Hnl].
    apply Hmem in Hg as (Hg & gr' & Hgr' & Hne). apply Z.eqb_neq in Hne. cbn in Hgr.
    rewrite (gd_heap _ _ _ Hrem) in Hgr. case_decide; [done|]. congruence.
  - unfold live_cli. cbn. rewrite lookup_delete_eq. by intros [].
  - done.
  - done.
  - intros b Hb Hnd. unfold live_win. cbn. rewrite E3. apply Ho1; [done|].
    intros a Ha Hd. apply HL in Ha as [_ Ha]. by apply (Hnd a Ha), (desc_same s0).
Qed.

(** The client of the demonstration owns all windows but those of the server. *)
Lemma demo_owns : owns_under compose_demo demo_client.
Proof.
  destruct demo_window_1 as (w1 & H1 & _ & C1), demo_window_2 as (w2 & H2 & _ & C2),
    demo_window_4 as (w4 & H4 & P4 & C4), demo_window_5 as (w5 & H5 & P5 & C5),
    demo_window_6 as (w6 & H6 & P6 & C6), compose_demo_server as (Er & _ & Hin).
  assert (T4 : top_window compose_demo demo_client 4) by (exists w4; rewrite Er; tauto).
  assert (T5 : top_window compose_demo demo_client 5) by (exists w5; rewrite Er; tauto).
  unfold demo_client in *. intros b w Hb Hc.
  destruct (Hin b) as [->|[->|[->|[->| ->]]]]; [apply (cw_windows _ demo_state_wf); by exists w| | | | |].
  - rewrite H1 in Hb. injection Hb as <-. by rewrite C1 in Hc.
  - rewrite H2 in Hb. injection Hb as <-. by rewrite C2 in Hc.
  - exists 4. split; [exact T4|constructor].
  - exists 5. split; [exact T5|constructor].
  - exists 4. split; [exact T4|]. apply (desc_child _ 4 6 w6 H6). rewrite P6. constructor.
Qed.

Lemma disconnect_removes_client_witness :
  ∃ s', compose_sv_disconnect demo_client compose_demo = Ok s' ∧ comp_wf s' ∧ ¬ live_cli s' demo_client.
Proof.
  destruct demo_window_1 as (w1 & H1 & _ & C1), demo_window_2 as (w2 & H2 & _ & C2), compose_demo_server as (Er & Eo & _).
  destruct (disconnect_removes_client compose_demo demo_client demo_state_wf) as (s' & He & Hs & Hc & _).
  - by eexists; vm_compute.
  - by unfold demo_client.
  - exact demo_owns.
  - intros a w [->| ->] Hw; [rewrite Er, H1 in Hw|rewrite Eo, H2 in Hw]; injection Hw as <-;
      [by rewrite C1|by rewrite C2].
  - exists s'. split_and!; [exact He|exact Hs|exact Hc].
Defined.
