(* ===== verification/ComposeSpec.v ===== *)
(** * The server of the window system: what its operations achieve

    Requests keep the invariant; coordinates, the pointer, the window under it, stacking,
    resizing and the routing of events; and the requests of a client that bring the server
    down. *)

From S2P Require Import Prelude TypesList.
From S2P Require Import Input Compose ComposeFacts ComposeRemove.

(** C12: A request of a connected client that has all the members of its structure within the
    size it says, that is not larger than a block of the server's heap, that has an event it
    forwards inside itself as a whole, that names a window there is when it grabs or asks for
    properties, and for whose window (when it makes one) shared memory can be made, is taken
    from the socket and answered without leaving an object, and windows, clients and grabs
    stay well formed.  What other requests do is in [hostile_requests_crash]. *)
Theorem requests_keep_wf (s : comp) (cli heap : Z) (r : compose_request_t) :
  comp_wf s → live_cli s cli → request_ok s r → rq_size r ≤ heap →
  ∃ s', serve_request heap cli r s = Ok s' ∧ comp_wf s' ∧ live_cli s' cli.
Proof.
  intros Hs Hc Hr Hheap. destruct (handle_request_ok s cli r Hs Hc Hr) as (s' & ? & ? & Hl).
  unfold serve_request, compose_sv_request_poll.
  assert (8 ≤ rq_size r). { destruct Hr as [Hsz _]. unfold sizeof_request in Hsz. destruct (rq_body r); lia. }
  rewrite !(proj2 (Z.leb_le _ _)) by done. cbn [andb]. rewrite bind_ok. exists s'. by rewrite Hl.
Qed.

Lemma requests_keep_wf_witness :
  ∃ s', serve_request 65536 demo_client (ReqNewWin 5 (demo_props 1 1 8 8 0)) compose_demo = Ok s' ∧
    comp_wf s' ∧ live_cli s' demo_client.
Proof.
  refine (requests_keep_wf compose_demo demo_client 65536 (ReqNewWin 5 (demo_props 1 1 8 8 0)) demo_state_wf _ _ _).
  - eexists. vm_compute. reflexivity.
  - split; [vm_compute; discriminate|]. split; [vm_compute; reflexivity|vm_compute; discriminate].
  - vm_compute. discriminate.
Defined.

(** ** Coordinates *)

Section coordinates.
Implicit Types s : comp.

Lemma abs_origin_ok fuel s a ox oy : comp_wf s → live_win s a → (rank (sv_windows (cs_srv s)) a < fuel)%nat →
  ∃ o, abs_origin fuel a ox oy s = Ok o.
Proof.
  revert a ox oy. induction fuel as [|fuel IH]; intros a ox oy Hs Ha Hf; [lia|]. cbn [abs_origin].
  destruct (live_win_ok s a Ha) as (w & Hw & ->). rewrite bind_ok.
  destruct (truthy (w_parent w)) eqn:Ep; [|by eexists]. apply truthy_true in Ep.
  destruct (cw_parent s Hs a w Hw Ep) as (Hlt & p & Hp & _). rewrite (get_win_ok s _ p), bind_ok by done.
  apply IH; [done|by exists p|]. pose proof (rank_lt (sv_windows (cs_srv s)) (w_parent w) a) as Hrk.
  rewrite (cw_windows s Hs) in Hrk. specialize (Hrk Ha Hlt). lia.
Qed.

Lemma win_origin_ok s a : comp_wf s → live_win s a → ∃ ox oy, win_origin a s = Ok (ox, oy).
Proof.
  intros Hs Ha. unfold win_origin. destruct (live_win_ok s a Ha) as (w & Hw & ->). rewrite bind_ok.
  destruct (abs_origin_ok (win_fuel s) s a (ps_x (w_pos w)) (ps_y (w_pos w)) Hs Ha) as ([ox oy] & ->);
    [|by do 2 eexists]. unfold win_fuel. pose proof (rank_le (sv_windows (cs_srv s)) a). lia.
Qed.

Lemma s32_sub_add x o : -2 ^ 31 ≤ x < 2 ^ 31 → s32 (s32 (x + o) - o) = x.
Proof.
  intros Hx. unfold s32. set (y := x + o).
  replace ((y + 2 ^ 31) mod 2 ^ 32 - 2 ^ 31 - o + 2 ^ 31) with ((y + 2 ^ 31) mod 2 ^ 32 - o) by lia.
  rewrite Zminus_mod_idemp_l. subst y. replace (x + o + 2 ^ 31 - o) with (x + 2 ^ 31) by lia.
  rewrite Z.mod_small by lia. lia.
Qed.
End coordinates.

(** The two translations of coordinates are inverse to each other, at any depth and even
    when the sums wrap around. *)
Theorem translate_roundtrip (s : comp) (a x y : Z) :
  comp_wf s → live_win s a → -2 ^ 31 ≤ x < 2 ^ 31 → -2 ^ 31 ≤ y < 2 ^ 31 →
  ∃ sx sy, compose_sv_translate_abs a x y s = Ok (sx, sy) ∧
    compose_sv_translate_local a sx sy s = Ok (x, y).
Proof.
  intros Hs Ha Hx Hy. destruct (win_origin_ok s a Hs Ha) as (ox & oy & Ho).
  unfold compose_sv_translate_abs, compose_sv_translate_local. rewrite Ho, !bind_ok.
  do 2 eexists. split; [done|]. by rewrite bind_ok, !s32_sub_add.
Qed.

Lemma translate_roundtrip_witness :
  ∃ sx sy, compose_sv_translate_abs 6 1 2 compose_demo = Ok (sx, sy) ∧
    compose_sv_translate_local 6 sx sy compose_demo = Ok (1, 2).
Proof. apply (translate_roundtrip compose_demo 6 1 2 demo_state_wf); [by eexists; vm_compute|lia|lia]. Defined.

(** The pointer never leaves the screen. *)
Theorem pointer_stays_on_screen (s : comp) (dx dy : Z) :
  4 ≤ sz_w (cs_fb s) < 2 ^ 31 → 4 ≤ sz_h (cs_fb s) < 2 ^ 31 →
  0 ≤ ps_x (cs_mouse_pos (compose_update_mouse dx dy s)) < sz_w (cs_fb s) ∧
  0 ≤ ps_y (cs_mouse_pos (compose_update_mouse dx dy s)) < sz_h (cs_fb s).
Proof.
  intros Hw Hh. cbn.
  assert (Hc : ∀ p size, 4 ≤ size < 2 ^ 31 → -2 ^ 31 ≤ p < 2 ^ 31 → 0 ≤ clamp p size < size).
  { intros p size Hs Hp. unfold clamp. cbv zeta. destruct (p <? 0) eqn:E; breflect.
    - change (u32 0) with 0. rewrite (proj2 (Z.leb_gt _ _)); lia.
    - rewrite u32_small by lia. case_if; [rewrite s32_small; lia|lia]. }
  split; apply Hc; auto using s32_range.
Qed.

Lemma pointer_stays_on_screen_witness :
  0 ≤ ps_x (cs_mouse_pos (compose_update_mouse 5000 7 compose_demo)) < 640 ∧
  0 ≤ ps_y (cs_mouse_pos (compose_update_mouse 5000 7 compose_demo)) < 480.
Proof. apply (pointer_stays_on_screen compose_demo 5000 7); vm_compute; split; congruence. Defined.

(** A window that lies to the left of the screen altogether is under the pointer wherever
    that is: the right edge is negative and the comparison unsigned. *)
Theorem offscreen_window_hit (w : compose_window_t) (sx sy x y : Z) :
  -2 ^ 31 ≤ sx → sx + sz_w (w_sizes w) < 0 → 0 ≤ sz_w (w_sizes w) →
  0 ≤ sy → sy ≤ y ≤ sy + sz_h (w_sizes w) → sy + sz_h (w_sizes w) < 2 ^ 32 → 0 ≤ x < 2 ^ 31 →
  win_hit w sx sy x y = true.
Proof.
  intros Hsx Hr Hw Hsy Hy Hh Hx. unfold win_hit.
  assert (Hu : u32 (sx + sz_w (w_sizes w)) = sx + sz_w (w_sizes w) + 2 ^ 32).
  { unfold u32. rewrite <- (Z_mod_plus_full _ 1), Z.mod_small; lia. }
  rewrite Hu, (u32_small x), (u32_small y), (u32_small (sy + _)) by lia.
  rewrite !andb_true_iff, !Z.leb_le. lia.
Qed.

Lemma offscreen_window_hit_witness :
  win_hit (mk_window 3 0 0 0 0 0 0 (mk_pos (-200) 0 0) 0 (mk_sizes 100 480) (mk_sizes 0 0) [] 0)
    (-200) 0 639 100 = true.
Proof. apply offscreen_window_hit; cbn; lia. Defined.

(** The window under a point is the last one of the server's list, the overlay apart, that
    contains it. *)
Theorem window_at_is_last_hit (s : comp) (x y : Z) :
  comp_wf s →
  let contains a := match cs_windows s !! a, compose_sv_translate_abs a 0 0 s with
                    | Some w, Ok (sx, sy) => win_hit w sx sy x y
                    | _, _ => false
                    end in
  compose_sv_get_window_at x y s =
    Ok (default 0 (last (filter (λ a, a ≠ sv_overlay (cs_srv s) ∧ contains a = true) (sv_windows (cs_srv s))))).
Proof.
  intros Hs contains. unfold compose_sv_get_window_at.
  assert (Hl : ∀ a, a ∈ sv_windows (cs_srv s) → live_win s a) by (intros a; apply (cw_windows s Hs)).
  induction (sv_windows (cs_srv s)) as [|a l IH] using rev_ind; [done|].
  rewrite rev_unit, filter_app, last_app. cbn [window_at_loop].
  assert (IH' := IH (λ b Hb, Hl b (proj2 (elem_of_app l [a] b) (or_introl Hb)))).
  destruct (Z.eqb_spec a (sv_overlay (cs_srv s))) as [->|Hne].
  { rewrite filter_cons_False, filter_nil by tauto. done. }
  destruct (live_win_ok s a) as (w & Hw & ->); [apply Hl, elem_of_app; right; by apply list_elem_of_singleton|].
  rewrite bind_ok. destruct (win_origin_ok s a Hs (ex_intro _ w Hw)) as (ox & oy & Ho).
  assert (Ht : compose_sv_translate_abs a 0 0 s = Ok (s32 (0 + ox), s32 (0 + oy)))
    by (unfold compose_sv_translate_abs; by rewrite Ho, bind_ok).
  rewrite Ht, bind_ok. assert (Hc : contains a = win_hit w (s32 (0 + ox)) (s32 (0 + oy)) x y)
    by (subst contains; cbv beta; by rewrite Hw, Ht).
  rewrite <- Hc. destruct (contains a) eqn:Ec.
  - by rewrite filter_cons_True.
  - rewrite filter_cons_False, filter_nil by (intros [_ ?]; congruence). done.
Qed.

Lemma window_at_is_last_hit_witness : compose_sv_get_window_at 16 26 compose_demo = Ok 6.
Proof. etrans; [exact (window_at_is_last_hit compose_demo 16 26 demo_state_wf)|by vm_compute]. Defined.

(** ** Stacking *)

(** Moving a window to the bottom moves it to the top. *)
Theorem sunk_raises (s : comp) (a x y z : Z) :
  compose_sv_move a x y z COMPOSE_MOVE_SUNK s = compose_sv_move a x y z COMPOSE_MOVE_RAISE s.
Proof.
  unfold compose_sv_move, sv_move_with. destruct (get_win s a) as [w| | |]; [|done..]. rewrite !bind_ok.
  cbv zeta. case_if; [done|].
  change (bit_on COMPOSE_MOVE_SUNK COMPOSE_MOVE_X) with false. change (bit_on COMPOSE_MOVE_SUNK COMPOSE_MOVE_Y) with false.
  change (bit_on COMPOSE_MOVE_SUNK COMPOSE_MOVE_Z) with false. change (bit_on COMPOSE_MOVE_SUNK COMPOSE_MOVE_RAISE) with false.
  change (bit_on COMPOSE_MOVE_SUNK COMPOSE_MOVE_SUNK) with true.
  change (bit_on COMPOSE_MOVE_RAISE COMPOSE_MOVE_X) with false. change (bit_on COMPOSE_MOVE_RAISE COMPOSE_MOVE_Y) with false.
  change (bit_on COMPOSE_MOVE_RAISE COMPOSE_MOVE_Z) with false. change (bit_on COMPOSE_MOVE_RAISE COMPOSE_MOVE_RAISE) with true.
  change (bit_on COMPOSE_MOVE_RAISE COMPOSE_MOVE_SUNK) with false.
  cbv iota. rewrite !bind_ok. by destruct (compose_sv_raise a s).
Qed.

(** A window raised above another one is drawn over it, but the pointer still finds the
    other: the server's list is sorted when windows are created only. *)
Theorem raised_window_not_clicked :
  (s ← demo_session
     [ReqNewWin 1 (demo_props 10 10 100 100 0); ReqNewWin 1 (demo_props 50 50 100 100 0);
      ReqMove 3 COMPOSE_MOVE_RAISE (-1) (-1) (-1)];
   '(d, s) ← compose_sv_redraw s;
   win ← compose_sv_get_window_at 60 60 s;
   Ok (d, win)) =
  Ok ([DrawFill; DrawWindow 1 0 0 640 480; DrawWindow 5 50 50 100 100; DrawWindow 4 10 10 100 100;
       DrawWindow 2 0 0 640 480; DrawPointer 0 0], 5).
Proof. by vm_compute. Qed.

(** ** Requests that bring the server down *)

(** Each list is sent by one client; what follows is an event any user causes.  A grab of a
    window there is not stores NULL, asking for its properties reads NULL, leaving twice
    frees the client twice, moving the root leaves the pointer over no window, and a window
    on the overlay outlives its client.  A request that says a size below its header is
    copied behind its block, one above the heap to no block, and one below its structure is
    read behind its block; an event is forwarded with the size it says, from behind its
    block.  Where shared memory cannot be made, a new window writes through NULL, or is
    drawn from there. *)
Theorem hostile_requests_crash :
  (s ← demo_session [ReqGrab 77 COMPOSE_EVENT_KEY]; compose_handle_key (mk_kbd 30 0) s) = Fault ∧
  demo_session [ReqProps 77] = Fault ∧
  demo_session [ReqDisconnect; ReqDisconnect] = Fault ∧
  (s ← demo_session [ReqMove 1 COMPOSE_MOVE_X 5000 0 0]; compose_handle_mouse (mk_mouse 1 1 0) s) = Fault ∧
  (s ← demo_session [ReqNewWin 2 (demo_props 10 20 100 50 COMPOSE_EVENT_KEY); ReqDisconnect];
   compose_handle_key (mk_kbd 30 0) s) = Fault ∧
  demo_session [mk_request 4 BodyKeepalive] = Fault ∧
  demo_session [mk_request 1000000 BodyKeepalive] = Fault ∧
  demo_session [mk_request 8 (BodyFocus 1)] = Fault ∧
  demo_session [mk_request 36 (BodyEvent 0 (mk_sized_event COMPOSE_EVENT_KEY 4096 24 None None None PNone))] = Fault ∧
  (s ← demo_session []; compose_sv_handle_request demo_client (ReqNewWin 1 (demo_props 0 0 8 8 0)) (with_shm s [ShmNoObject])) = Fault ∧
  (s ← demo_session []; s ← compose_sv_handle_request demo_client (ReqNewWin 1 (demo_props 0 0 8 8 0)) (with_shm s [ShmOk; ShmNoObject]);
   compose_sv_redraw s) = Fault.
Proof. split_and!; by vm_compute. Qed.

(** ** Resizing as a protocol *)

(** The size of a window, whether its client is being asked for a new one, and the size that
    was asked for in the meantime *)
Record resizing := mk_resizing { rz_size : sizes_t; rz_asked : bool; rz_wanted : option sizes_t }.

Definition resizing_of (w : compose_window_t) : resizing :=
  mk_resizing (w_sizes w) (bit_on (w_flags w) COMPOSE_WIN_FLAGS_IN_RESIZE)
    (if bit_on (w_flags w) COMPOSE_WIN_FLAGS_HAS_DELAYED_RESIZE then Some (w_delayed w) else None).

#[export] Instance sizes_eq_dec : EqDecision sizes_t.
Proof. solve_decision. Defined.

(** While the client is asked, only the last size is remembered. *)
Definition rz_start (n : sizes_t) (r : resizing) : resizing :=
  if rz_asked r then mk_resizing (rz_size r) true (Some n)
  else if bool_decide (rz_size r = n) then r
  else mk_resizing (rz_size r) true (rz_wanted r).

(** The client answers with the size [n] of its new picture. *)
Definition rz_confirm (n : sizes_t) (r : resizing) : resizing :=
  if rz_asked r then
    match rz_wanted r with
    | Some m => rz_start m (mk_resizing n false None)
    | None => mk_resizing n false None
    end
  else r.

Section resize.
Implicit Types (s : comp) (w : compose_window_t).

Lemma bit_on_lor f i j : 0 ≤ i → 0 ≤ j →
  bit_on (Z.lor f (Z.shiftl 1 i)) (Z.shiftl 1 j) = (i =? j) || bit_on f (Z.shiftl 1 j).
Proof. intros. unfold bit_on. rewrite !truthy_land_bit by done. by rewrite testbit_lor_bit. Qed.

Lemma bit_on_drop f i j : 0 ≤ i → 0 ≤ j < 32 →
  bit_on (drop_flag f (Z.shiftl 1 i)) (Z.shiftl 1 j) = negb (i =? j) && bit_on f (Z.shiftl 1 j).
Proof.
  intros. unfold bit_on. rewrite !truthy_land_bit by lia. unfold drop_flag, u32.
  rewrite Z.mod_pow2_bits_low by lia. by rewrite testbit_clear_bit by lia.
Qed.

Lemma start_resize_state s a w x y : comp_wf s → cs_windows s !! a = Some w →
  ∃ s' w', compose_sv_start_resize a x y s = Ok s' ∧ cs_windows s' !! a = Some w' ∧
    resizing_of w' = rz_start (mk_sizes x y) (resizing_of w) ∧
    (length (cs_out s') ≤ length (cs_out s) + 1)%nat.
Proof.
  intros Hs Ha. unfold compose_sv_start_resize. rewrite (get_win_ok s a w), bind_ok by done.
  unfold rz_start. cbn [rz_asked resizing_of rz_size rz_wanted].
  destruct (bit_on (w_flags w) COMPOSE_WIN_FLAGS_IN_RESIZE) eqn:Er.
  { eexists _, _. split; [done|]. cbn. rewrite lookup_insert_eq. split; [done|]. split; [|lia].
    unfold resizing_of. cbn. unfold COMPOSE_WIN_FLAGS_IN_RESIZE, COMPOSE_WIN_FLAGS_HAS_DELAYED_RESIZE in *.
    rewrite !bit_on_lor by done. cbn. by rewrite Er. }
  assert (Heq : bool_decide (w_sizes w = mk_sizes x y) =
    ((sz_w (w_sizes w) =? x) && (sz_h (w_sizes w) =? y))).
  { destruct (w_sizes w) as [x0 y0]. cbn. apply eq_true_iff_eq.
    rewrite bool_decide_eq_true, andb_true_iff, !Z.eqb_eq. split; [by intros [= -> ->]|by intros [-> ->]]. }
  rewrite Heq. destruct ((sz_w (w_sizes w) =? x) && (sz_h (w_sizes w) =? y)).
  { exists s, w. split_and!; [done|done| |lia]. unfold resizing_of. by rewrite Er. }
  cbv zeta. set (w1 := with_w_flags w _). set (s1 := put_win s a w1).
  assert (H1 : cs_windows s1 !! a = Some w1) by (cbn; by rewrite lookup_insert_eq).
  assert (Hrz : resizing_of w1 = mk_resizing (w_sizes w) true
    (if bit_on (w_flags w) COMPOSE_WIN_FLAGS_HAS_DELAYED_RESIZE then Some (w_delayed w) else None)).
  { unfold resizing_of. cbn. unfold COMPOSE_WIN_FLAGS_IN_RESIZE, COMPOSE_WIN_FLAGS_HAS_DELAYED_RESIZE in *.
    rewrite !bit_on_lor by done. done. }
  destruct (truthy (w_client w)) eqn:Ec; [|exists s1, w1; split_and!; [done..|cbn; lia]].
  apply truthy_true in Ec. destruct (cw_client s Hs a w Ha Ec) as [[c Hc] _].
  unfold send, compose_sv_event_send, get_cli. cbn. rewrite Hc. cbn [of_option]. rewrite bind_ok.
  case_if; rewrite bind_ok; eexists _, w1; (split; [done|]); cbn; rewrite lookup_insert_eq;
    (split_and!; [done|exact Hrz|]); rewrite ?length_app; cbn; lia.
Qed.

Lemma apply_size_state s a w gc : comp_wf s → cs_windows s !! a = Some w → cs_shared s !! w_id w = Some gc →
  ∃ s' w', compose_sv_apply_size a s = Ok s' ∧ cs_windows s' !! a = Some w' ∧
    resizing_of w' = rz_confirm (mk_sizes (u32 (gc_w gc)) (u32 (gc_h gc))) (resizing_of w).
Proof.
  intros Hs Ha Hgc. unfold compose_sv_apply_size. rewrite (get_win_ok s a w), bind_ok by done.
  unfold rz_confirm. cbn [rz_asked resizing_of rz_wanted].
  destruct (bit_on (w_flags w) COMPOSE_WIN_FLAGS_IN_RESIZE) eqn:Er; cbn [negb];
    [|exists s, w; split_and!; [done|done|]; unfold resizing_of; by rewrite Er].
  rewrite Hgc. cbn [of_option]. rewrite bind_ok. cbv zeta. set (s1 := sys_calls s _).
  cbn [with_w_flags with_w_sizes with_w_buffer w_flags w_delayed].
  assert (Hd : bit_on (drop_flag (w_flags w) COMPOSE_WIN_FLAGS_IN_RESIZE) COMPOSE_WIN_FLAGS_HAS_DELAYED_RESIZE =
    bit_on (w_flags w) COMPOSE_WIN_FLAGS_HAS_DELAYED_RESIZE).
  { unfold COMPOSE_WIN_FLAGS_IN_RESIZE, COMPOSE_WIN_FLAGS_HAS_DELAYED_RESIZE. by rewrite bit_on_drop by lia. }
  assert (Hi : bit_on (drop_flag (w_flags w) COMPOSE_WIN_FLAGS_IN_RESIZE) COMPOSE_WIN_FLAGS_IN_RESIZE = false).
  { unfold COMPOSE_WIN_FLAGS_IN_RESIZE. by rewrite bit_on_drop by lia. }
  rewrite Hd. destruct (bit_on (w_flags w) COMPOSE_WIN_FLAGS_HAS_DELAYED_RESIZE) eqn:Ed.
  - match goal with |- context [put_win s1 a ?x] => set (w2 := x) end.
    assert (Hr2 : reshaped s (put_win s1 a w2)).
    { etrans; [apply (sys_calls_reshaped s)|]. by apply (put_win_reshaped s1 a w). }
    destruct (start_resize_state (put_win s1 a w2) a w2 (sz_w (w_delayed w)) (sz_h (w_delayed w)))
      as (s' & w' & Hs' & Hw' & Hrz & _); [by eapply reshaped_wf|cbn; by rewrite lookup_insert_eq|].
    exists s', w'. split_and!; [done|done|]. rewrite Hrz. destruct (w_delayed w) as [dw dh]. cbn [sz_w sz_h].
    f_equal. unfold resizing_of. subst w2. cbn [w_sizes w_flags w_delayed with_w_flags with_w_sizes with_w_buffer].
    unfold COMPOSE_WIN_FLAGS_IN_RESIZE, COMPOSE_WIN_FLAGS_HAS_DELAYED_RESIZE in *.
    rewrite !bit_on_drop by lia. cbn. done.
  - eexists _, _. split; [done|]. cbn. rewrite lookup_insert_eq. split; [done|].
    unfold resizing_of. cbn [w_sizes w_flags with_w_flags with_w_sizes with_w_buffer]. by rewrite Hd, Hi.
Qed.
End resize.

(** The server's side of resizing is the protocol above: the client is asked for one size at
    a time; what is asked meanwhile waits, a later size replacing an earlier one, until the
    client has answered, and is then asked for unless it is the size the client chose. *)
Theorem resize_refines (s : comp) (a : Z) (w : compose_window_t) (gc : compose_gc_t) (x y : Z) :
  comp_wf s → cs_windows s !! a = Some w → cs_shared s !! w_id w = Some gc →
  (∃ s' w', compose_sv_start_resize a x y s = Ok s' ∧ cs_windows s' !! a = Some w' ∧
     resizing_of w' = rz_start (mk_sizes x y) (resizing_of w)) ∧
  (∃ s' w', compose_sv_apply_size a s = Ok s' ∧ cs_windows s' !! a = Some w' ∧
     resizing_of w' = rz_confirm (mk_sizes (u32 (gc_w gc)) (u32 (gc_h gc))) (resizing_of w)).
Proof.
  intros Hs Ha Hgc. split; [|by apply apply_size_state].
  destruct (start_resize_state s a w x y Hs Ha) as (s' & w' & ? & ? & ? & _). by exists s', w'.
Qed.

Lemma demo_window_4' : ∃ w, cs_windows compose_demo !! 4 = Some w ∧
  resizing_of w = mk_resizing (mk_sizes 100 50) false None ∧ w_id w = 3.
Proof.
  assert (H : (λ w, (resizing_of w, w_id w)) <$> cs_windows compose_demo !! 4 =
    Some (mk_resizing (mk_sizes 100 50) false None, 3)) by by vm_compute.
  apply fmap_Some in H as (w & Hw & H1). exists w.
  split_and!; [exact Hw|exact (eq_sym (f_equal fst H1))|exact (eq_sym (f_equal snd H1))].
Qed.

Lemma demo_gc_3 : ∃ gc, cs_shared compose_demo !! 3 = Some gc ∧
  mk_sizes (u32 (gc_w gc)) (u32 (gc_h gc)) = mk_sizes 100 50.
Proof.
  assert (H : (λ gc, mk_sizes (u32 (gc_w gc)) (u32 (gc_h gc))) <$> cs_shared compose_demo !! 3 =
    Some (mk_sizes 100 50)) by by vm_compute.
  apply fmap_Some in H as (gc & Hg & H1). exists gc. split; [exact Hg|exact (eq_sym H1)].
Qed.

(** The first window of the session: asked for a size, and with the answer of its client
    that nobody asked for *)
Lemma resize_refines_witness :
  ∃ gc, cs_shared compose_demo !! 3 = Some gc ∧
  (∃ s' w', compose_sv_start_resize 4 30 40 compose_demo = Ok s' ∧ cs_windows s' !! 4 = Some w' ∧
     resizing_of w' = rz_start (mk_sizes 30 40) (mk_resizing (mk_sizes 100 50) false None)) ∧
  (∃ s' w', compose_sv_apply_size 4 compose_demo = Ok s' ∧ cs_windows s' !! 4 = Some w' ∧
     resizing_of w' = rz_confirm (mk_sizes 100 50) (mk_resizing (mk_sizes 100 50) false None)).
Proof.
  destruct demo_window_4' as (w & Hw & Hr & Hi). destruct demo_gc_3 as (gc & Hg & Hs).
  assert (Hg' : cs_shared compose_demo !! w_id w = Some gc) by (by rewrite Hi).
  destruct (resize_refines compose_demo 4 w gc 30 40 demo_state_wf Hw Hg') as [H1 H2].
  rewrite Hr in H1, H2. rewrite Hs in H2. exists gc. split; [exact Hg|]. split; [exact H1|exact H2].
Defined.
