(* ===== verification/ComposeClient.v ===== *)
(** * libs/libcompose: the clients of the window system

    A client writes requests to its socket and reads events from it.  [cp_in] is what the
    server will still send on each socket before it closes the connection; a [read] that
    finds nothing more returns 0.  While a client waits for one kind of event, the others
    are set aside ([__raised_events]).  An event is one message here: the size that it says is
    taken to be that of its structure, as it is for all the server's own events.  The theorems put the two sides together: the number
    of a new window, and the protocol of a new size. *)

From S2P Require Import Prelude TypesList.
From S2P Require Import Input Compose ComposeFacts ComposeSpec.

(** The [compose_client_t] of a client: [calloc] makes its [id] 0, and nothing changes it. *)
Record connection := mk_conn { cc_id : Z; cc_root : option Z; cc_overlay : option Z; cc_socket : Z }.

Record raised_event_queue := mk_queue { rq_client : Z; rq_queue : list compose_event_t }.

Record client_process := mk_process {
  cp_in : gmap Z (list compose_event_t);
  cp_sent : list (Z * compose_request_t);
  cp_raised : option (list raised_event_queue)
}.

Definition with_in (t : client_process) x := mk_process x (cp_sent t) (cp_raised t).
Definition with_raised (t : client_process) x := mk_process (cp_in t) (cp_sent t) x.

(** ** Requests *)

Definition compose_cl_send_request (client : connection) (req : compose_request_t) (t : client_process)
    : client_process :=
  mk_process (cp_in t) (cp_sent t ++ [(cc_socket client, req)]) (cp_raised t).

Section requests.
Context (cli : connection) (win : Z).
Definition compose_cl_move (x y : Z) := compose_cl_send_request cli (ReqMove win 3 x y (-1)).
Definition compose_cl_raise := compose_cl_send_request cli (ReqMove win COMPOSE_MOVE_RAISE (-1) (-1) (-1)).
Definition compose_cl_sunk := compose_cl_send_request cli (ReqMove win COMPOSE_MOVE_SUNK (-1) (-1) (-1)).
Definition compose_cl_layer (z : Z) := compose_cl_send_request cli (ReqMove win 4 0 0 z).
(** [w] and [h] are not assigned. *)
Definition compose_cl_confirm_resize (w h : Z) :=
  compose_cl_send_request cli (ReqResize win COMPOSE_RESIZE_STAGE_FINAL w h).
Definition compose_cl_resize (w h : Z) :=
  compose_cl_send_request cli (ReqResize win COMPOSE_RESIZE_STAGE_INITIAL (s32 w) (s32 h)).
Definition compose_cl_evmask (mask : Z) := compose_cl_send_request cli (ReqEvmask win mask).
Definition compose_cl_grab (type : Z) := compose_cl_send_request cli (ReqGrab win type).
Definition compose_cl_focus := compose_cl_send_request cli (ReqFocus win).
(** [-1] as an [id_t] *)
Definition compose_cl_unfocus := compose_cl_send_request cli (ReqFocus (u32 (-1))).
Definition compose_cl_flush := compose_cl_send_request cli ReqOther.
End requests.

(** The socket is closed: it delivers nothing more. *)
Definition compose_cl_disconnect (client : connection) (t : client_process) : client_process :=
  let t := compose_cl_send_request client ReqDisconnect t in
  with_in t (delete (cc_socket client) (cp_in t)).

(** ** Events *)

Fixpoint raise_in (queues : list raised_event_queue) (id : Z) (ev : compose_event_t)
    : list raised_event_queue :=
  match queues with
  | [] => [mk_queue id [ev]]
  | q :: l => if rq_client q =? id then mk_queue (rq_client q) (rq_queue q ++ [ev]) :: l
              else q :: raise_in l id ev
  end.
Definition compose_cl_event_raise (client : connection) (ev : compose_event_t) (t : client_process)
    : client_process :=
  with_raised t (Some (raise_in (default [] (cp_raised t)) (cc_id client) ev)).

(** The first event of the queue of [id], if there is one *)
Fixpoint take_raised (queues : list raised_event_queue) (id : Z)
    : option (compose_event_t * list raised_event_queue) :=
  match queues with
  | [] => None
  | q :: l =>
      if rq_client q =? id then
        match rq_queue q with
        | [] => None
        | ev :: evs => Some (ev, mk_queue (rq_client q) evs :: l)
        end
      else '(ev, l) ← take_raised l id; Some (ev, q :: l)
  end.

Definition read_event (cli : connection) (t : client_process) : option compose_event_t * client_process :=
  match cp_in t !! cc_socket cli with
  | Some (ev :: evs) =>
      let t := with_in t (<[cc_socket cli := evs]> (cp_in t)) in
      (Some ev, if ev_type ev =? COMPOSE_EVENT_KEEPALIVE then compose_cl_send_request cli ReqKeepalive t else t)
  | _ => (None, t)
  end.

Definition compose_cl_event_poll (cli : connection) (raised : bool) (t : client_process)
    : option compose_event_t * client_process :=
  match (if raised then take_raised (default [] (cp_raised t)) (cc_id cli) else None) with
  | Some (ev, queues) => (Some ev, with_raised t (Some queues))
  | None => read_event cli t
  end.

(** [ev] is read without a test for NULL; what has never been assigned is [None]. *)
Fixpoint await_window (fuel : nat) (client : connection) (t : client_process)
    : res (option Z * client_process) :=
  match fuel with
  | O => OutOfFuel
  | S fuel =>
      match compose_cl_event_poll client false t with
      | (None, _) => Fault
      | (Some ev, t) =>
          if ev_type ev =? COMPOSE_EVENT_WIN then Ok (ev_win ev, t)
          else await_window fuel client (compose_cl_event_raise client ev t)
      end
  end.
Definition compose_cl_create_window (fuel : nat) (client : connection) (par : Z)
    (props : window_properties_t) (t : client_process) : res (option Z * client_process) :=
  await_window fuel client (compose_cl_send_request client (ReqNewWin par props) t).

(** [None]: the event of this type was not made by the server, and has no properties. *)
Fixpoint await_props (fuel : nat) (cli : connection) (t : client_process)
    : res (option window_properties_t * client_process) :=
  match fuel with
  | O => OutOfFuel
  | S fuel =>
      match compose_cl_event_poll cli false t with
      | (None, t) => await_props fuel cli t
      | (Some ev, t) =>
          if ev_type ev =? COMPOSE_EVENT_PROPS then
            Ok (match ev_payload ev with PProps p => Some p | _ => None end, t)
          else await_props fuel cli (compose_cl_event_raise cli ev t)
      end
  end.
Definition compose_cl_get_properties (fuel : nat) (cli : connection) (win : Z) (t : client_process)
    : res (option window_properties_t * client_process) :=
  await_props fuel cli (compose_cl_send_request cli (ReqProps win) t).

(** [compose_cl_connect] from the new connection [sock] on.  The event is read after it was
    freed; nothing is allocated in between. *)
Fixpoint await_connect (fuel : nat) (cli : connection) (t : client_process) : res (connection * client_process) :=
  match fuel with
  | O => OutOfFuel
  | S fuel =>
      match compose_cl_event_poll cli false t with
      | (None, _) => Fault
      | (Some ev, t) =>
          if ev_type ev =? COMPOSE_EVENT_CNN then
            Ok (mk_conn (cc_id cli) (ev_root ev)
                  (match ev_payload ev with PConnect o => Some o | _ => None end) (cc_socket cli), t)
          else await_connect fuel cli t
      end
  end.
Definition compose_cl_connect (fuel : nat) (sock : Z) (t : client_process) : res (connection * client_process) :=
  await_connect fuel (mk_conn 0 None None sock) t.

(** ** The picture of a window *)

(** [compose_cl_gc_t], with the fields of [fb] that the code uses; what the client asks the
    kernel, all of which succeeds except where the result is tested *)
Record compose_cl_gc_t := mk_cl_gc { cg_win : Z; cg_prev_fd : Z; cg_w : Z; cg_h : Z; cg_memsz : Z }.
Inductive gc_call :=
| GcClose (fd : Z)
| GcOpen (name : shm_name)
| GcTruncate (fd len : Z)
| GcMap (fd len : Z)
| GcUnmapPicture (len : Z)
| GcUnmapContext
| GcClear (len : Z).

(** [fd]: what [shm_open] returns; the context, the shared structure and the calls *)
Definition compose_cl_resize_gc (new_size : sizes_t) (uuid fd : Z) (ctx : compose_cl_gc_t)
    : compose_cl_gc_t * compose_gc_t * list gc_call :=
  let data_size := u32 (sz_w new_size * sz_h new_size * 4) in
  let gc := mk_gc uuid (s32 (sz_w new_size)) (s32 (sz_h new_size)) data_size in
  let calls := (if 0 <=? cg_prev_fd ctx then [GcClose (cg_prev_fd ctx)] else []) ++ [GcOpen (ShmBuf uuid)] in
  if fd <? 0 then (ctx, gc, calls)
  else
    (mk_cl_gc (cg_win ctx) fd (sz_w new_size) (sz_h new_size) data_size, gc,
     calls ++ [GcTruncate fd data_size; GcUnmapPicture (cg_memsz ctx); GcMap fd data_size; GcClear data_size]).

(** The context itself is unmapped, not the structure it points to. *)
Definition compose_cl_release_gc (ctx : compose_cl_gc_t) : list gc_call :=
  (if 0 <=? cg_prev_fd ctx then [GcClose (cg_prev_fd ctx)] else []) ++
  [GcUnmapPicture (cg_memsz ctx); GcUnmapContext].

(** ** What waiting for an event does to the others *)

Fixpoint queue_of (queues : list raised_event_queue) (id : Z) : list compose_event_t :=
  match queues with
  | [] => []
  | q :: l => if rq_client q =? id then rq_queue q else queue_of l id
  end.
(** The events set aside for a connection *)
Definition set_aside (t : client_process) (id : Z) : list compose_event_t :=
  queue_of (default [] (cp_raised t)) id.
(** What a connection will still deliver *)
Definition incoming (t : client_process) (cli : connection) : list compose_event_t :=
  default [] (cp_in t !! cc_socket cli).
(** The answers to the keepalives among some events *)
Definition answers (cli : connection) (evs : list compose_event_t) : list (Z * compose_request_t) :=
  (λ _, (cc_socket cli, ReqKeepalive)) <$> filter (λ ev, ev_type ev = COMPOSE_EVENT_KEEPALIVE) evs.

(** A client that polls until the connection ends *)
Fixpoint poll_all (n : nat) (cli : connection) (t : client_process) : list compose_event_t :=
  match n with
  | O => []
  | S n => match compose_cl_event_poll cli true t with
           | (Some ev, t) => ev :: poll_all n cli t
           | (None, _) => []
           end
  end.

Section queues.
Implicit Types (t : client_process) (cli : connection).

Lemma raise_in_queue queues id ev : queue_of (raise_in queues id ev) id = queue_of queues id ++ [ev].
Proof.
  induction queues as [|q l IH]; cbn; [by rewrite Z.eqb_refl|].
  destruct (rq_client q =? id) eqn:E; cbn; by rewrite E.
Qed.

Lemma raise_set_aside cli ev t : set_aside (compose_cl_event_raise cli ev t) (cc_id cli) = set_aside t (cc_id cli) ++ [ev].
Proof. apply raise_in_queue. Qed.

Lemma take_raised_spec queues id :
  match queue_of queues id with
  | [] => take_raised queues id = None
  | ev :: evs => ∃ queues', take_raised queues id = Some (ev, queues') ∧ queue_of queues' id = evs
  end.
Proof.
  induction queues as [|q l IH]; cbn; [done|]. destruct (rq_client q =? id) eqn:E.
  - destruct (rq_queue q) as [|ev evs]; [done|]. eexists. split; [done|]. cbn. by rewrite E.
  - destruct (queue_of l id) as [|ev evs]; [by rewrite IH|]. destruct IH as (l' & -> & H).
    eexists. split; [done|]. cbn. by rewrite E.
Qed.

(** Reading the next event of the connection *)
Lemma read_event_spec cli t ev evs : incoming t cli = ev :: evs →
  ∃ t', read_event cli t = (Some ev, t') ∧ incoming t' cli = evs ∧ cp_raised t' = cp_raised t ∧
    cp_sent t' = cp_sent t ++ answers cli [ev].
Proof.
  unfold incoming, read_event. destruct (cp_in t !! cc_socket cli) as [l|] eqn:E; [|done]. cbn. intros ->.
  eexists. split; [done|]. unfold answers. destruct (Z.eqb_spec (ev_type ev) COMPOSE_EVENT_KEEPALIVE) as [He|He].
  - cbn. rewrite decide_True by done. by rewrite lookup_insert_eq.
  - cbn. rewrite decide_False by done. by rewrite lookup_insert_eq, app_nil_r.
Qed.

Lemma poll_all_spec cli n t : (length (set_aside t (cc_id cli) ++ incoming t cli) ≤ n)%nat →
  poll_all n cli t = set_aside t (cc_id cli) ++ incoming t cli.
Proof.
  revert t. induction n as [|n IH]; intros t Hn; cbn [poll_all].
  { by destruct (set_aside t (cc_id cli) ++ incoming t cli); [|cbn in Hn; lia]. }
  unfold compose_cl_event_poll. pose proof (take_raised_spec (default [] (cp_raised t)) (cc_id cli)) as Ht.
  fold (set_aside t (cc_id cli)) in Ht. destruct (set_aside t (cc_id cli)) as [|ev evs] eqn:Ea.
  - rewrite Ht. destruct (incoming t cli) as [|ev evs] eqn:Ei.
    + unfold read_event. unfold incoming in Ei. by destruct (cp_in t !! cc_socket cli) as [[]|].
    + destruct (read_event_spec cli t ev evs Ei) as (t' & -> & Hi & Hr & _). cbn. f_equal.
      assert (Ea' : set_aside t' (cc_id cli) = []) by (unfold set_aside; by rewrite Hr).
      rewrite IH, Ea', Hi; [done|]. rewrite Ea', Hi. cbn in Hn |- *. lia.
  - destruct Ht as (queues' & -> & Hq). cbn. f_equal. unfold with_raised at 1.
    rewrite IH; [|unfold set_aside; cbn; rewrite Hq; cbn in Hn; unfold incoming; cbn; unfold incoming in Hn; lia].
    unfold set_aside. cbn. by rewrite Hq.
Qed.

Lemma await_window_spec cli pre ev post fuel t :
  incoming t cli = pre ++ ev :: post → Forall (λ e, ev_type e ≠ COMPOSE_EVENT_WIN) pre →
  ev_type ev = COMPOSE_EVENT_WIN → (length pre < fuel)%nat →
  ∃ t', await_window fuel cli t = Ok (ev_win ev, t') ∧ incoming t' cli = post ∧
    set_aside t' (cc_id cli) = set_aside t (cc_id cli) ++ pre ∧ cp_sent t' = cp_sent t ++ answers cli pre.
Proof.
  revert t fuel. induction pre as [|e pre IH]; intros t fuel Hin Hpre Hev Hf; (destruct fuel as [|fuel]; [cbn in Hf; lia|]);
    cbn [await_window compose_cl_event_poll].
  - destruct (read_event_spec cli t ev post Hin) as (t' & -> & Hi & Hr & Hs). rewrite Hev, Z.eqb_refl.
    exists t'. split_and!; [done|done|by unfold set_aside; rewrite Hr, app_nil_r|]. rewrite Hs. unfold answers. cbn.
    by rewrite decide_False by (rewrite Hev; done).
  - apply Forall_cons in Hpre as [He Hpre].
    destruct (read_event_spec cli t e (pre ++ ev :: post) Hin) as (t1 & -> & Hi & Hr & Hs).
    rewrite (proj2 (Z.eqb_neq _ _) He).
    destruct (IH (compose_cl_event_raise cli e t1) fuel Hi Hpre Hev) as (t' & -> & Hi' & Ha & Hs'); [cbn in Hf; lia|].
    exists t'. split_and!; [done|done| |].
    + rewrite Ha, raise_set_aside. unfold set_aside. by rewrite Hr, <- app_assoc.
    + rewrite Hs'. cbn. rewrite Hs, <- app_assoc. f_equal. unfold answers. by rewrite <- fmap_app, <- filter_app.
Qed.
End queues.

(** A client that asks for a window gets the number in the first event of that kind; no event
    is lost or reordered: polling afterwards gives what had been set aside before, what came
    while it waited, then the rest; and it has answered the keepalives. *)
Theorem create_window_keeps_events (cli : connection) (t : client_process) (par : Z) (props : window_properties_t)
    (pre post : list compose_event_t) (ev : compose_event_t) (fuel n : nat) :
  incoming t cli = pre ++ ev :: post → Forall (λ e, ev_type e ≠ COMPOSE_EVENT_WIN) pre →
  ev_type ev = COMPOSE_EVENT_WIN → (length pre < fuel)%nat →
  (length (set_aside t (cc_id cli)) + length pre + length post ≤ n)%nat →
  ∃ t', compose_cl_create_window fuel cli par props t = Ok (ev_win ev, t') ∧
    cp_sent t' = cp_sent t ++ (cc_socket cli, ReqNewWin par props) :: answers cli pre ∧
    poll_all n cli t' = set_aside t (cc_id cli) ++ pre ++ post.
Proof.
  intros Hin Hpre Hev Hf Hn. unfold compose_cl_create_window. set (t1 := compose_cl_send_request _ _ _).
  destruct (await_window_spec cli pre ev post fuel t1 Hin Hpre Hev Hf) as (t' & -> & Hi & Ha & Hs).
  exists t'. split; [done|]. split; [rewrite Hs; cbn; by rewrite <- app_assoc|].
  rewrite poll_all_spec; rewrite Ha, Hi; [by rewrite <- app_assoc|].
  rewrite !length_app. change (set_aside t1 (cc_id cli)) with (set_aside t (cc_id cli)). lia.
Qed.

Definition demo_conn : connection := mk_conn 0 (Some 1) (Some 2) 5.
Definition demo_event (type win : Z) : compose_event_t := mk_event type (Some win) None (Some 1) PNone.
Lemma create_window_keeps_events_witness :
  ∃ t', compose_cl_create_window 3 demo_conn 1 (demo_props 0 0 8 8 0)
      (mk_process {[5 := [demo_event COMPOSE_EVENT_KEEPALIVE 0; demo_event COMPOSE_EVENT_KEY 3;
                          demo_event COMPOSE_EVENT_WIN 4; demo_event COMPOSE_EVENT_KEY 4]]} [] None) = Ok (Some 4, t') ∧
    cp_sent t' = [(5, ReqNewWin 1 (demo_props 0 0 8 8 0)); (5, ReqKeepalive)] ∧
    poll_all 3 demo_conn t' = [demo_event COMPOSE_EVENT_KEEPALIVE 0; demo_event COMPOSE_EVENT_KEY 3;
                               demo_event COMPOSE_EVENT_KEY 4].
Proof.
  set (t := mk_process _ _ _).
  apply (create_window_keeps_events demo_conn t 1 (demo_props 0 0 8 8 0)
    [demo_event COMPOSE_EVENT_KEEPALIVE 0; demo_event COMPOSE_EVENT_KEY 3] [demo_event COMPOSE_EVENT_KEY 4]
    (demo_event COMPOSE_EVENT_WIN 4) 3 3); [by vm_compute|by repeat constructor|done|cbn; lia|cbn; lia].
Defined.

(** ** The two sides together *)

(** What the server has sent to a socket between two states *)
Definition delivered (sock : Z) (s s' : comp) : list compose_event_t :=
  snd <$> filter (λ p, fst p = sock) (drop (length (cs_out s)) (cs_out s')).

(** C30: A client asks for a window; the server makes it (when shared memory can be made for
    it), and if no other event of that kind is under way, the client gets the number of just
    this window. *)
Theorem new_window_number (s : comp) (c par : Z) (cl : compose_client_t) (props : window_properties_t) :
  comp_wf s → shm_ready s → c ≠ 0 → cs_clients s !! c = Some cl → cl_socket cl ∉ cs_gone s →
  ∃ s' w, compose_sv_handle_request c (ReqNewWin par props) s = Ok s' ∧
    cs_windows s' !! cs_next s = Some w ∧ w_client w = c ∧
    ∀ (t : client_process) (cli : connection) (pre post : list compose_event_t) (fuel : nat),
      incoming t cli = pre ++ delivered (cl_socket cl) s s' ++ post →
      Forall (λ e, ev_type e ≠ COMPOSE_EVENT_WIN) pre → (length pre < fuel)%nat →
      ∃ t', compose_cl_create_window fuel cli par props t = Ok (Some (w_id w), t').
Proof.
  intros Hs Hshm Hc0 Hc Hg. unfold compose_sv_handle_request, ReqNewWin. cbn [request rq_body].
  change (req_reads _ _) with (Ok tt). rewrite bind_ok.
  destruct (get_window_ok s par Hs) as (p & -> & Hp). rewrite bind_ok.
  change (req_reads _ _) with (Ok tt). rewrite bind_ok.
  destruct (create_window_ok s c p props Hs Hshm Hp) as (s' & w & -> & _ & Hw & Hcw & _ & _ & _ & _ & _ & Ho).
  { intros _. by exists cl. }
  rewrite bind_ok. destruct (Ho cl Hc0 Hc Hg) as (root & o & Hout).
  set (ev := mk_event COMPOSE_EVENT_WIN (Some (w_id w)) (Some 0) root PNone) in *.
  assert (Hd : ∃ o', delivered (cl_socket cl) s s' = ev :: o').
  { unfold delivered. rewrite Hout, drop_app_length, filter_cons_True by done. by eexists. }
  destruct Hd as [o' Hd]. exists s', w. split_and!; [done..|]. rewrite Hd. intros t cli pre post fuel Hi Hpre Hf.
  destruct (await_window_spec cli pre ev (o' ++ post) fuel (compose_cl_send_request cli (ReqNewWin par props) t) Hi Hpre)
    as (t' & Ht & _); [done..|]. by exists t'.
Qed.

Lemma demo_client_3 : cs_clients compose_demo !! 3 = Some (mk_client 1 5 7).
Proof. by vm_compute. Qed.

Lemma demo_not_gone : 5 ∉ cs_gone compose_demo.
Proof.
  assert (E : existsb (Z.eqb 5) (cs_gone compose_demo) = false) by by vm_compute.
  intros Hin%list_elem_of_In. apply Bool.not_true_iff_false in E. apply E, existsb_exists.
  exists 5. split; [exact Hin|reflexivity].
Qed.

Lemma new_window_number_witness :
  ∃ s' w, compose_sv_handle_request 3 (ReqNewWin 1 (demo_props 0 0 8 8 0)) compose_demo = Ok s' ∧
    cs_windows s' !! cs_next compose_demo = Some w ∧ w_client w = 3 ∧
    ∀ t, cp_in t !! 5 = Some (delivered 5 compose_demo s') →
      ∃ t', compose_cl_create_window 1 demo_conn 1 (demo_props 0 0 8 8 0) t = Ok (Some (w_id w), t').
Proof.
  destruct (new_window_number compose_demo 3 1 (mk_client 1 5 7) (demo_props 0 0 8 8 0) demo_state_wf)
    as (s' & w & Hs & Hw & Hc & Ht); [split; [vm_compute; reflexivity|vm_compute; discriminate]|done|exact demo_client_3|exact demo_not_gone|].
  exists s', w. split; [exact Hs|]. split; [exact Hw|]. split; [exact Hc|]. intros t Hin.
  apply (Ht t demo_conn [] [] 1%nat); [unfold incoming|by constructor|cbn; lia].
  cbn [demo_conn cc_socket]. rewrite Hin. cbn [default from_option id cl_socket app]. by rewrite app_nil_r.
Defined.

(** Asking, receiving a size, making the picture, answering *)
Section handshake.
Implicit Types (s : comp) (w : compose_window_t).

Lemma get_window_same s s' id : reshaped s s' → compose_sv_get_window id s' = compose_sv_get_window id s.
Proof.
  intros Hr. unfold compose_sv_get_window. rewrite (rs_list _ _ Hr).
  induction (sv_windows (cs_srv s)) as [|a l IH]; cbn [get_window_loop]; [done|].
  pose proof (rs_windows _ _ Hr a) as Ha. unfold get_win. destruct Ha as [w w' (Hi & _)|]; [|done].
  cbn [of_option]. rewrite !bind_ok, Hi, IH. done.
Qed.

Lemma get_window_ext s s' id : cs_windows s' = cs_windows s → cs_srv s' = cs_srv s →
  compose_sv_get_window id s' = compose_sv_get_window id s.
Proof.
  intros Hw Hv. unfold compose_sv_get_window. rewrite Hv.
  induction (sv_windows (cs_srv s)) as [|a l IH]; cbn [get_window_loop]; [done|]. unfold get_win. by rewrite Hw, IH.
Qed.

(** A size that is not the one there is, while none is being asked for, is asked for. *)
Lemma start_resize_asks s a w cl x y : cs_windows s !! a = Some w → w_client w ≠ 0 →
  cs_clients s !! w_client w = Some cl → cl_socket cl ∉ cs_gone s →
  bit_on (w_flags w) COMPOSE_WIN_FLAGS_IN_RESIZE = false → w_sizes w ≠ mk_sizes x y →
  compose_sv_start_resize a x y s =
    Ok (with_out (put_win s a (with_w_flags w (Z.lor (w_flags w) COMPOSE_WIN_FLAGS_IN_RESIZE)))
          (cs_out s ++ [(cl_socket cl, mk_event COMPOSE_EVENT_RESIZE (Some (w_id w)) None None
                                         (PResize (w_sizes w) (mk_sizes x y)))])).
Proof.
  intros Hw Hc0 Hc Hg Hf Hne. unfold compose_sv_start_resize. rewrite (get_win_ok s a w), bind_ok, Hf by done.
  replace ((sz_w (w_sizes w) =? x) && (sz_h (w_sizes w) =? y)) with false.
  - cbv zeta. rewrite (proj2 (truthy_true _)) by done. by rewrite (send_arrives _ _ cl).
  - symmetry. apply andb_false_iff. rewrite !Z.eqb_neq. destruct (w_sizes w) as [x0 y0]. cbn.
    destruct (decide (x0 = x)) as [->|]; [right; by intros ->|by left].
Qed.

(** The answer to it, when nothing else was asked for meanwhile *)
Lemma apply_size_done s a w gc : cs_windows s !! a = Some w → cs_shared s !! w_id w = Some gc →
  bit_on (w_flags w) COMPOSE_WIN_FLAGS_IN_RESIZE = true →
  bit_on (w_flags w) COMPOSE_WIN_FLAGS_HAS_DELAYED_RESIZE = false →
  ∃ s' w', compose_sv_apply_size a s = Ok s' ∧ cs_windows s' !! a = Some w' ∧
    resizing_of w' = mk_resizing (mk_sizes (u32 (gc_w gc)) (u32 (gc_h gc))) false None ∧
    w_mapped w' = gc_data_size gc.
Proof.
  intros Hw Hgc Hi Hd. unfold compose_sv_apply_size. rewrite (get_win_ok s a w), bind_ok, Hi by done. cbn [negb].
  rewrite Hgc. cbn [of_option]. rewrite bind_ok. cbv zeta. cbn [with_w_flags with_w_sizes with_w_buffer w_flags].
  assert (Hd' : bit_on (drop_flag (w_flags w) COMPOSE_WIN_FLAGS_IN_RESIZE) COMPOSE_WIN_FLAGS_HAS_DELAYED_RESIZE = false).
  { unfold COMPOSE_WIN_FLAGS_IN_RESIZE, COMPOSE_WIN_FLAGS_HAS_DELAYED_RESIZE in *. by rewrite bit_on_drop, Hd by lia. }
  assert (Hi' : bit_on (drop_flag (w_flags w) COMPOSE_WIN_FLAGS_IN_RESIZE) COMPOSE_WIN_FLAGS_IN_RESIZE = false).
  { unfold COMPOSE_WIN_FLAGS_IN_RESIZE. by rewrite bit_on_drop by lia. }
  rewrite Hd'. eexists _, _. split; [done|]. cbn. rewrite lookup_insert_eq. split; [done|].
  unfold resizing_of. cbn. by rewrite Hd', Hi'.
Qed.
End handshake.

(** C19: A client that is asked for a new size, makes a picture of it and says so, ends up with
    the size it was asked for, and with a picture as large as what the server has mapped. *)
Theorem resize_handshake (s : comp) (a W H : Z) (w : compose_window_t) (cl : compose_client_t)
    (ctx : compose_cl_gc_t) (uuid fd x y : Z) :
  comp_wf s → cs_windows s !! a = Some w → compose_sv_get_window (w_id w) s = Ok a →
  w_client w ≠ 0 → cs_clients s !! w_client w = Some cl → cl_socket cl ∉ cs_gone s →
  resizing_of w = mk_resizing (w_sizes w) false None → w_sizes w ≠ mk_sizes W H →
  0 ≤ W < 2 ^ 31 → 0 ≤ H < 2 ^ 31 → 0 ≤ fd →
  let request := compose_sv_handle_request (w_client w) in
  let '(ctx', gc, _) := compose_cl_resize_gc (mk_sizes W H) uuid fd ctx in
  ∃ s1 s2 w2,
    request (ReqResize (w_id w) COMPOSE_RESIZE_STAGE_INITIAL W H) s = Ok s1 ∧
    delivered (cl_socket cl) s s1 =
      [mk_event COMPOSE_EVENT_RESIZE (Some (w_id w)) None None (PResize (w_sizes w) (mk_sizes W H))] ∧
    request (ReqResize (w_id w) COMPOSE_RESIZE_STAGE_FINAL x y)
      (with_shared s1 (<[w_id w := gc]> (cs_shared s1))) = Ok s2 ∧
    cs_windows s2 !! a = Some w2 ∧ resizing_of w2 = mk_resizing (mk_sizes W H) false None ∧
    w_mapped w2 = cg_memsz ctx'.
Proof.
  intros Hs Hw Hget Hc0 Hc Hg Hrz Hne HW HH Hfd request. unfold compose_cl_resize_gc.
  rewrite (proj2 (Z.ltb_ge _ _)) by done. injection Hrz as Hi Hd.
  assert (Ha : truthy a = true) by (apply truthy_true; pose proof (cw_fresh s Hs a (or_introl (ex_intro _ w Hw))); lia).
  assert (Hstart := start_resize_asks s a w cl W H Hw Hc0 Hc Hg Hi Hne).
  set (w1 := with_w_flags w _) in *. set (s1 := with_out _ _) in Hstart.
  destruct (start_resize_ok s a W H Hs) as (s1' & Hs1' & Hr); [by exists w|].
  assert (s1' = s1) as -> by congruence.
  set (gc := mk_gc _ _ _ _). set (t := with_shared s1 (<[w_id w := gc]> (cs_shared s1))).
  destruct (apply_size_done t a w1 gc) as (s2 & w2 & Hs2 & Hw2 & Hrz2 & Hm); [| | | |exists s1, s2, w2].
  - cbn. by rewrite lookup_insert_eq.
  - cbn. by rewrite lookup_insert_eq.
  - cbn. unfold COMPOSE_WIN_FLAGS_IN_RESIZE. by rewrite bit_on_lor.
  - cbn. unfold COMPOSE_WIN_FLAGS_IN_RESIZE, COMPOSE_WIN_FLAGS_HAS_DELAYED_RESIZE in *. rewrite bit_on_lor by done.
    apply orb_false_iff. split; [done|]. by destruct (bit_on (w_flags w) (Z.shiftl 1 3)).
  - subst request. unfold compose_sv_handle_request, ReqResize. cbn [Compose.request rq_body].
    change (req_reads _ 12) with (Ok tt). change (req_reads _ 13) with (Ok tt). change (req_reads _ 24) with (Ok tt).
    rewrite !bind_ok, Hget, bind_ok, Ha. cbn [negb].
    change (COMPOSE_RESIZE_STAGE_INITIAL =? COMPOSE_RESIZE_STAGE_INITIAL) with true. cbv iota.
    rewrite !u32_small by lia. split; [done|]. split.
    { unfold delivered. cbn. rewrite drop_app_length. cbn. by rewrite decide_True. }
    change (COMPOSE_RESIZE_STAGE_FINAL =? COMPOSE_RESIZE_STAGE_INITIAL) with false. cbv iota.
    assert (Hget' : compose_sv_get_window (w_id w) t = Ok a).
    { etrans; [by apply (get_window_ext s1 t)|]. by rewrite (get_window_same s s1). }
    match goal with |- context [compose_sv_get_window (w_id w) ?u] => change u with t end.
    change (req_reads _ 12) with (Ok tt). change (req_reads _ 13) with (Ok tt). rewrite ?bind_ok, Hget', ?bind_ok, Ha. cbn [negb]. split_and!; [done|done| |done].
    rewrite Hrz2. cbn. by rewrite !s32_small, !u32_small by lia.
Qed.

(** The first window of the demonstration, for its client *)
Lemma demo_window_client : ∃ w, cs_windows compose_demo !! 4 = Some w ∧
  resizing_of w = mk_resizing (mk_sizes 100 50) false None ∧ w_sizes w = mk_sizes 100 50 ∧ w_id w = 3 ∧ w_client w = 3.
Proof.
  assert (H : (λ w, (resizing_of w, w_sizes w, w_id w, w_client w)) <$> cs_windows compose_demo !! 4 =
    Some (mk_resizing (mk_sizes 100 50) false None, mk_sizes 100 50, 3, 3)) by by vm_compute.
  apply fmap_Some in H as (w & Hw & H1). exists w. injection (eq_sym H1) as E1 E2 E3 E4 E5 E6.
  split; [exact Hw|]. split; [unfold resizing_of; rewrite E1, E2, E3; reflexivity|].
  split; [exact E4|]. split; [exact E5|exact E6].
Qed.

Lemma resize_handshake_witness :
  ∃ s1 s2 w2,
    compose_sv_handle_request 3 (ReqResize 3 COMPOSE_RESIZE_STAGE_INITIAL 30 40) compose_demo = Ok s1 ∧
    compose_sv_handle_request 3 (ReqResize 3 COMPOSE_RESIZE_STAGE_FINAL 0 0)
      (with_shared s1 (<[3 := mk_gc 99 30 40 4800]> (cs_shared s1))) = Ok s2 ∧
    cs_windows s2 !! 4 = Some w2 ∧ w_mapped w2 = 4800.
Proof.
  destruct demo_window_client as (w & Hw & Hr & Hz & Hi & Hc).
  destruct (resize_handshake compose_demo 4 30 40 w (mk_client 1 5 7) (mk_cl_gc 3 (-1) 100 50 20000) 99 6 0 0
    demo_state_wf Hw) as (s1 & s2 & w2 & H1 & _ & H2 & H3 & _ & H4);
    [rewrite Hi; by vm_compute|by rewrite Hc|rewrite Hc; exact demo_client_3|exact demo_not_gone|by rewrite Hz|
     by rewrite Hz|lia|lia|lia|].
  rewrite Hc, Hi in H1. rewrite Hc, Hi in H2. exists s1, s2, w2.
  split; [exact H1|]. split; [exact H2|]. split; [exact H3|exact H4].
Defined.

(** ** What a client cannot rely on *)

(** A client that asks for the properties of a window when the connection has ended polls
    for ever. *)
Theorem properties_never_come (fuel : nat) (cli : connection) (win : Z) (t : client_process) :
  incoming t cli = [] → compose_cl_get_properties fuel cli win t = OutOfFuel.
Proof.
  intros Hin. unfold compose_cl_get_properties. set (t1 := compose_cl_send_request _ _ _).
  assert (H1 : incoming t1 cli = []) by exact Hin. clearbody t1. revert t1 H1.
  induction fuel as [|fuel IH]; intros t1 H1; cbn [await_props]; [done|].
  assert (Hp : compose_cl_event_poll cli false t1 = (None, t1)).
  { cbn. unfold read_event. unfold incoming in H1. by destruct (cp_in t1 !! cc_socket cli) as [[|]|]. }
  rewrite Hp. by apply IH.
Qed.

Lemma properties_never_come_witness :
  compose_cl_get_properties 100 demo_conn 3 (mk_process ∅ [] None) = OutOfFuel.
Proof. apply (properties_never_come 100 demo_conn 3 (mk_process ∅ [] None)). by vm_compute. Defined.

(** All connections of a process have the number 0, so they share one queue: an event that
    one of them set aside is given to the first that polls. *)
Theorem connections_share_queue (t : client_process) (a b : connection) (ev : compose_event_t) :
  cc_id a = cc_id b → set_aside t (cc_id a) = [] →
  fst (compose_cl_event_poll b true (compose_cl_event_raise a ev t)) = Some ev.
Proof.
  intros Hid Hnil. pose proof (raise_set_aside a ev t) as Hr. rewrite Hnil, app_nil_l in Hr. unfold set_aside in Hr.
  pose proof (take_raised_spec (default [] (cp_raised (compose_cl_event_raise a ev t))) (cc_id a)) as Ht.
  rewrite Hr in Ht. destruct Ht as (queues' & Ht & _). unfold compose_cl_event_poll. by rewrite <- Hid, Ht.
Qed.

Lemma connections_share_queue_witness :
  fst (compose_cl_event_poll (mk_conn 0 None None 6) true
    (compose_cl_event_raise demo_conn (demo_event COMPOSE_EVENT_KEY 3) (mk_process ∅ [] None))) =
  Some (demo_event COMPOSE_EVENT_KEY 3).
Proof. by apply (connections_share_queue (mk_process ∅ [] None) demo_conn (mk_conn 0 None None 6)). Defined.

(** The events for the client at [sock] when the client at socket 5 has a window on the root
    that selects the announcements of new windows, and the client at socket 6 opens a window
    in it and then the first client another one on the root *)
Definition nested_session (sock : Z) : res (list compose_event_t) :=
  s ← compose_sv_create demo_fb [11; 12; 13; 14; 15] [] 7;
  s ← accept_one 5 s;
  s ← accept_one 6 s;
  s ← compose_sv_handle_request 3 (ReqNewWin 1 (demo_props 0 0 50 50 COMPOSE_EVENT_WIN)) s;
  s1 ← compose_sv_handle_request 4 (ReqNewWin 3 (demo_props 0 0 20 20 0)) s;
  s2 ← compose_sv_handle_request 3 (ReqNewWin 1 (demo_props 60 0 50 50 0)) s1;
  Ok (delivered sock s s2).

(** The announcement of the other client's window carries the number of the window that
    selects it: the client takes 3, its first window, for its new one, which is 5. *)
Theorem wrong_window_number :
  (evs ← nested_session 5;
   '(win, t) ← compose_cl_create_window 9 demo_conn 1 (demo_props 60 0 50 50 0) (mk_process {[5 := evs]} [] None);
   Ok (win, ev_win <$> incoming t demo_conn)) =
  Ok (Some 3, [Some 5]).
Proof. by vm_compute. Qed.
