(* ===== verification/Fb.v ===== *)
(** * libs/libfb: drawing into a frame buffer

    [fb.c]: pixels, lines, rectangles, characters, bitmaps, clips.  A buffer is the list of
    its 32-bit words; an access outside is a [Fault].  The clips live in a heap; a field
    that was never assigned is [None].  The mixing of two colours ([fb_blend]) computes with
    floating point numbers and is a parameter, and so is the number of steps for which a
    chain of clips is followed.  Opening and closing devices and fonts is not modelled. *)

From S2P Require Import Prelude Ctype.

(** ** fb.h *)

Definition ALPHA (color : Z) : Z := Z.land (Z.shiftr color 24) 255.
Definition FB_FLAG_DOUBLEBUFFER : Z := Z.shiftl 1 0.
Definition FB_BLEND_DEFAULT : Z := 0.
Definition FB_NO_BLEND : Z := 1.

Record fb_info_t := mk_info { fi_w : Z; fi_h : Z; fi_bpp : Z; fi_memsz : Z }.
Record clip_t := mk_clip { cp_x0 : Z; cp_y0 : Z; cp_w : Z; cp_h : Z; cp_next : option Z }.

(** The file behind the memory is not modelled; [fb_heap] holds the clips, [fb_clips] is the
    first one, 0 is NULL. *)
Record fb_t := mk_fb {
  fb_mem : list Z;
  fb_backbuffer : option (list Z);
  fb_info : fb_info_t;
  fb_clips : Z;
  fb_heap : gmap Z clip_t;
  fb_blend_mode : Z
}.

Definition with_fb_mem (fb : fb_t) x := mk_fb x (fb_backbuffer fb) (fb_info fb) (fb_clips fb) (fb_heap fb) (fb_blend_mode fb).
Definition with_back (fb : fb_t) x := mk_fb (fb_mem fb) x (fb_info fb) (fb_clips fb) (fb_heap fb) (fb_blend_mode fb).
Definition with_clips (fb : fb_t) x h := mk_fb (fb_mem fb) (fb_backbuffer fb) (fb_info fb) x h (fb_blend_mode fb).
Definition set_blend_mode (fb : fb_t) x := mk_fb (fb_mem fb) (fb_backbuffer fb) (fb_info fb) (fb_clips fb) (fb_heap fb) x.

(** [fb_open_mem] on a given block of [size] bytes; the old contents of a new back buffer
    are [junk]. *)
Definition fb_open_mem (mem junk : list Z) (size w h flag : Z) : res fb_t :=
  if (w =? 0) || (h =? 0) then Fault
  else Ok (mk_fb mem (if truthy (Z.land flag FB_FLAG_DOUBLEBUFFER) then Some junk else None)
             (mk_info w h (size / w / h) size) 0 ∅ FB_BLEND_DEFAULT).

(** [char] is signed: a component from 128 on sets all bits to its left. *)
Definition fb_color (r g b a : Z) : Z :=
  u32 (Z.lor (Z.lor (Z.lor (Z.shiftl (s8 a) 24) (Z.shiftl (s8 r) 16)) (Z.shiftl (s8 g) 8)) (s8 b)).

(** ** Clips *)

Fixpoint clipped_loop (fuel : nat) (heap : gmap Z clip_t) (cl x0 y0 : Z) : res bool :=
  match fuel with
  | O => OutOfFuel
  | S fuel =>
      if truthy cl then
        c ← of_option (heap !! cl);
        if (cp_x0 c <=? x0) && (cp_y0 c <=? y0) && (u32 x0 <=? u32 (cp_x0 c + cp_w c)) &&
           (u32 y0 <=? u32 (cp_y0 c + cp_h c)) then Ok true
        else
          next ← of_option (cp_next c);
          clipped_loop fuel heap next x0 y0
      else Ok false
  end.
Definition fb_is_clipped (fuel : nat) (fb : fb_t) (x0 y0 : Z) : res bool :=
  clipped_loop fuel (fb_heap fb) (fb_clips fb) x0 y0.

(** The place for a clip: behind the clips with a larger [x0], but never in front of the
    first one *)
Fixpoint clip_place (fuel : nat) (heap : gmap Z clip_t) (last cl x0 : Z) : res (Z * Z) :=
  match fuel with
  | O => OutOfFuel
  | S fuel =>
      if truthy cl then
        c ← of_option (heap !! cl);
        if x0 <? cp_x0 c then next ← of_option (cp_next c); clip_place fuel heap cl next x0
        else Ok (last, cl)
      else Ok (last, cl)
  end.

(** [a]: the address [malloc] gives; the [next] of the first clip is not assigned. *)
Definition fb_clip (fuel : nat) (a x0 y0 w h : Z) (fb : fb_t) : res fb_t :=
  if negb (truthy (fb_clips fb)) then
    Ok (with_clips fb a (<[a := mk_clip x0 y0 w h None]> (fb_heap fb)))
  else
    '(last, cl) ← clip_place fuel (fb_heap fb) (fb_clips fb) (fb_clips fb) x0;
    l ← of_option (fb_heap fb !! last);
    Ok (with_clips fb (fb_clips fb)
          (<[a := mk_clip x0 y0 w h (Some cl)]>
             (<[last := mk_clip (cp_x0 l) (cp_y0 l) (cp_w l) (cp_h l) (Some a)]> (fb_heap fb)))).

Fixpoint unclip_loop (fuel : nat) (heap : gmap Z clip_t) (cl : Z) : res (gmap Z clip_t) :=
  match fuel with
  | O => OutOfFuel
  | S fuel =>
      if truthy cl then
        c ← of_option (heap !! cl);
        next ← of_option (cp_next c);
        unclip_loop fuel (delete cl heap) next
      else Ok heap
  end.
Definition fb_unclip (fuel : nat) (fb : fb_t) : res fb_t :=
  heap ← unclip_loop fuel (fb_heap fb) (fb_clips fb); Ok (with_clips fb 0 heap).

(** ** Drawing *)

(** The words that drawing changes *)
Definition canvas (fb : fb_t) : list Z := default (fb_mem fb) (fb_backbuffer fb).
Definition with_canvas (fb : fb_t) (l : list Z) : fb_t :=
  match fb_backbuffer fb with Some _ => with_back fb (Some l) | None => with_fb_mem fb l end.

Definition get_word (i : Z) (fb : fb_t) : res Z := of_option (canvas fb !! Z.to_nat i).
Definition put_word (i c : Z) (fb : fb_t) : res fb_t :=
  if i <? Z.of_nat (length (canvas fb)) then Ok (with_canvas fb (<[Z.to_nat i := c]> (canvas fb)))
  else Fault.
(** [memset32(buf, color, n)] *)
Definition fill_words (n c : Z) (fb : fb_t) : res fb_t :=
  if n <=? Z.of_nat (length (canvas fb)) then
    Ok (with_canvas fb (replicate (Z.to_nat n) c ++ drop (Z.to_nat n) (canvas fb)))
  else Fault.

Section each.
Context {A : Type} (f : A → fb_t → res fb_t).
Fixpoint draws (l : list A) (fb : fb_t) : res fb_t :=
  match l with
  | [] => Ok fb
  | x :: l => fb ← f x fb; draws l fb
  end.
End each.

Record fb_font_t := mk_font {
  ft_bytes : list Z;
  ft_headersize : Z;
  ft_bytesperglyph : Z;
  ft_height : Z;
  ft_width : Z
}.

Inductive bitmap_t :=
| Bitmap32 (words : list Z)
| Bitmap24 (bytes : list Z)
| BitmapOther.

Section draw.
Context (fb_blend : Z → Z → Z) (fuel : nat).

Definition fb_pixel (x0 y0 color : Z) (fb : fb_t) : res fb_t :=
  if (x0 <? 0) || (fi_w (fb_info fb) <=? x0) || (y0 <? 0) || (fi_h (fb_info fb) <=? y0) then Ok fb
  else
    clipped ← fb_is_clipped fuel fb x0 y0;
    if clipped : bool then Ok fb
    else
      let i := u32 (u32 (y0 * fi_w (fb_info fb)) + x0) in
      if fb_blend_mode fb =? FB_BLEND_DEFAULT then
        if ALPHA color =? 0 then Ok fb
        else if ALPHA color =? 255 then put_word i color fb
        else old ← get_word i fb; put_word i (fb_blend color old) fb
      else if fb_blend_mode fb =? FB_NO_BLEND then put_word i color fb
      else Ok fb.

(** One turn draws a pixel and moves. *)
Fixpoint line_loop (steps : nat) (x0 y0 x1 y1 dx dy sx sy error color : Z) (fb : fb_t) : res fb_t :=
  match steps with
  | O => OutOfFuel
  | S steps =>
      fb ← fb_pixel x0 y0 color fb;
      if (x0 =? x1) && (y0 =? y1) then Ok fb
      else
        let e2 := s32 (2 * error) in
        if (dy <=? e2) && (x0 =? x1) then Ok fb
        else
          let '(x0, error) := if dy <=? e2 then (s32 (x0 + sx), s32 (error + dy)) else (x0, error) in
          if (e2 <=? dx) && (y0 =? y1) then Ok fb
          else
            let '(y0, error) := if e2 <=? dx then (s32 (y0 + sy), s32 (error + dx)) else (y0, error) in
            line_loop steps x0 y0 x1 y1 dx dy sx sy error color fb
  end.
Definition fb_line (x0 y0 x1 y1 color : Z) (fb : fb_t) : res fb_t :=
  let dx := s32 (Z.abs (s32 (x1 - x0))) in
  let sx := if x0 <? x1 then 1 else -1 in
  let dy := s32 (- s32 (Z.abs (s32 (y1 - y0)))) in
  let sy := if y0 <? y1 then 1 else -1 in
  line_loop (S (Z.to_nat (dx - dy))) x0 y0 x1 y1 dx dy sx sy (s32 (dx + dy)) color fb.

Definition fb_rect (x0 y0 w h border : Z) (fb : fb_t) : res fb_t :=
  let x1 := s32 (x0 + w) in
  let y1 := s32 (y0 + h) in
  fb ← fb_line x0 y0 x1 y0 border fb;
  fb ← fb_line x1 y0 x1 y1 border fb;
  fb ← fb_line x1 y1 x0 y1 border fb;
  fb_line x0 y1 x0 y0 border fb.

Definition fb_filled_rect (x0 y0 w h border fill : Z) (fb : fb_t) : res fb_t :=
  fb ← draws (λ i, fb_line x0 (s32 (y0 + i)) (s32 (x0 + w)) (s32 (y0 + i)) fill) (seqZ 0 h) fb;
  fb_rect x0 y0 w h border fb.

Definition fb_fill (color : Z) (fb : fb_t) : res fb_t :=
  if fb_blend_mode fb =? FB_BLEND_DEFAULT then
    if ALPHA color =? 0 then Ok fb
    else if negb (ALPHA color =? 255) then
      fb_filled_rect 0 0 (fi_w (fb_info fb)) (fi_h (fb_info fb)) color color fb
    else fill_words (fi_memsz (fb_info fb) / 4) color fb
  else if fb_blend_mode fb =? FB_NO_BLEND then fill_words (fi_memsz (fb_info fb) / 4) color fb
  else Ok fb.

(** One byte per row of a glyph; [c] is a [char]. *)
Definition fb_char (x0 y0 c : Z) (font : fb_font_t) (b f : Z) (fb : fb_t) : res fb_t :=
  let glyph := ft_headersize font + c * ft_bytesperglyph font in
  draws (λ y, draws (λ x fb,
      row ← (if 0 <=? glyph + y then of_option (ft_bytes font !! Z.to_nat (glyph + y)) else Fault);
      let lit := truthy (Z.land row (Z.shiftl 1 (ft_width font - x))) in
      fb_pixel (s32 (x0 + x)) (s32 (y0 + y)) (if lit then f else b) fb)
    (seqZ 0 (ft_width font))) (seqZ 0 (ft_height font)) fb.

Definition fb_string (x y : Z) (str : list Z) (font : fb_font_t) (b f : Z) (fb : fb_t) : res fb_t :=
  draws (λ p, if truthy (isgraph (snd p))
              then fb_char (s32 (x + fst p * ft_width font)) y (snd p) font b f else Ok)
    (imap (λ i c, (Z.of_nat i, c)) str) fb.

Definition bitmap_color (bitmap : bitmap_t) (index : Z) : res Z :=
  match bitmap with
  | Bitmap32 words => of_option (words !! Z.to_nat index)
  | Bitmap24 bytes =>
      b0 ← of_option (bytes !! Z.to_nat (index * 3));
      b1 ← of_option (bytes !! Z.to_nat (index * 3 + 1));
      b2 ← of_option (bytes !! Z.to_nat (index * 3 + 2));
      Ok (Z.lor (Z.lor (Z.lor 4278190080 b0) (Z.shiftl b1 8)) (Z.shiftl b2 16))
  | BitmapOther => Ok 4278190080
  end.

Definition fb_bitmap (x0 y0 w h : Z) (bitmap : bitmap_t) (fb : fb_t) : res fb_t :=
  let y1 := s32 (y0 + h) in
  let x1 := s32 (x0 + w) in
  draws (λ y, draws (λ x fb,
      col ← bitmap_color bitmap (u32 ((y - y0) * w + x - x0));
      fb_pixel x y col fb)
    (seqZ x0 (x1 - x0))) (seqZ y0 (y1 - y0)) fb.
End draw.

(** [memcpy] of [memsz] bytes, a multiple of 4; [msync] is not modelled. *)
Definition fb_flush (fb : fb_t) : fb_t :=
  match fb_backbuffer fb with
  | Some back => let n := Z.to_nat (fi_memsz (fb_info fb) / 4) in
                 with_fb_mem fb (take n back ++ drop n (fb_mem fb))
  | None => fb
  end.

(** A diagonal on a screen of 4 by 3 *)
Definition demo_screen : fb_t := mk_fb (replicate 12 0) None (mk_info 4 3 4 48) 0 ∅ FB_NO_BLEND.
Example line_drawn : (fb ← fb_line (λ a _, a) 1 0 0 3 2 7 demo_screen; Ok (fb_mem fb)) =
  Ok [7; 0; 0; 0; 0; 7; 7; 0; 0; 0; 0; 7].
Proof. by vm_compute. Qed.
