(* ===== verification/FbFacts.v ===== *)
(** * libs/libfb: what is drawn

    Drawing is plotting a sequence of points; on a buffer that has a word for every pixel no
    operation leaves it.  Lines are digital straight lines; rectangles are one pixel larger
    than asked for; clips form cycles. *)

From S2P Require Import Prelude Ctype.
From S2P Require Import Fb.

(** ** Plotting *)

(** There is a word for every pixel of the screen, in both buffers, and no clip. *)
Record fb_wf (fb : fb_t) : Prop := {
  fw_size : 0 ≤ fi_w (fb_info fb) ∧ 0 ≤ fi_h (fb_info fb) ∧
    fi_w (fb_info fb) * fi_h (fb_info fb) * 4 ≤ fi_memsz (fb_info fb) < 2 ^ 32;
  fw_mem : Z.of_nat (length (fb_mem fb)) = fi_memsz (fb_info fb) / 4;
  fw_back : ∀ b, fb_backbuffer fb = Some b → length b = length (fb_mem fb);
  fw_clips : fb_clips fb = 0
}.

Definition on_screen (fb : fb_t) (p : Z * Z) : Prop :=
  0 ≤ fst p < fi_w (fb_info fb) ∧ 0 ≤ snd p < fi_h (fb_info fb).
#[export] Instance on_screen_dec fb p : Decision (on_screen fb p).
Proof. unfold on_screen. apply _. Defined.

Definition word_of (fb : fb_t) (p : Z * Z) : nat := Z.to_nat (snd p * fi_w (fb_info fb) + fst p).
(** The colour on the screen *)
Definition colour (fb : fb_t) (p : Z * Z) : option Z := canvas fb !! word_of fb p.

(** What a pixel becomes *)
Definition mix (fb_blend : Z → Z → Z) (mode color old : Z) : Z :=
  if mode =? FB_BLEND_DEFAULT then
    if ALPHA color =? 0 then old else if ALPHA color =? 255 then color else fb_blend color old
  else if mode =? FB_NO_BLEND then color else old.

Definition plot (fb_blend : Z → Z → Z) (color : Z) (fb : fb_t) (p : Z * Z) : fb_t :=
  if decide (on_screen fb p) then
    with_canvas fb (alter (mix fb_blend (fb_blend_mode fb) color) (word_of fb p) (canvas fb))
  else fb.
Definition plots (fb_blend : Z → Z → Z) (color : Z) (fb : fb_t) (ps : list (Z * Z)) : fb_t :=
  foldl (plot fb_blend color) fb ps.

(** The colour replaces what was there. *)
Definition opaque (fb : fb_t) (color : Z) : Prop :=
  (fb_blend_mode fb = FB_BLEND_DEFAULT ∧ ALPHA color = 255) ∨ fb_blend_mode fb = FB_NO_BLEND.

Lemma alter_insert_list {A} (f : A → A) (l : list A) i x : l !! i = Some x → alter f i l = <[i := f x]> l.
Proof.
  revert i. induction l as [|y l IH]; intros [|i] Hi; cbn in *; [done|done|by injection Hi as ->|].
  f_equal. by apply IH.
Qed.

Section plotting.
Context (fb_blend : Z → Z → Z) (fuel : nat).
Implicit Types (fb : fb_t) (p : Z * Z).

Lemma word_lt fb p : fb_wf fb → on_screen fb p → (word_of fb p < length (canvas fb))%nat.
Proof.
  intros [[Hw [Hh Hs]] Hm Hb _] [Hx Hy]. unfold word_of. destruct p as [x y]. cbn [fst snd] in *.
  assert (Hc : length (canvas fb) = length (fb_mem fb)).
  { unfold canvas. destruct (fb_backbuffer fb) eqn:E; [by apply Hb|done]. }
  rewrite Hc. apply Nat2Z.inj_lt. rewrite Hm, Z2Nat.id by nia.
  assert (y * fi_w (fb_info fb) + x < fi_w (fb_info fb) * fi_h (fb_info fb)) by nia.
  apply Z.lt_le_trans with (fi_w (fb_info fb) * fi_h (fb_info fb)); [done|]. apply Z.div_le_lower_bound; lia.
Qed.

Lemma word_inj fb p q : on_screen fb p → on_screen fb q → word_of fb p = word_of fb q → p = q.
Proof.
  destruct p as [x y], q as [x' y']. unfold on_screen, word_of. cbn. intros [Hx Hy] [Hx' Hy'] He.
  apply Z2Nat.inj in He; [|nia..]. assert (y = y') as -> by nia. f_equal. lia.
Qed.

Lemma canvas_with fb l : canvas (with_canvas fb l) = l.
Proof. unfold canvas, with_canvas. destruct fb as [? [b|] ? ? ? ?]; done. Qed.

Lemma plot_info fb p color : fb_info (plot fb_blend color fb p) = fb_info fb ∧
  fb_blend_mode (plot fb_blend color fb p) = fb_blend_mode fb.
Proof. unfold plot, with_canvas. case_decide; [|done]. by destruct (fb_backbuffer fb). Qed.

Lemma plot_wf fb p color : fb_wf fb → fb_wf (plot fb_blend color fb p).
Proof.
  intros [H1 H2 H3 H4]. unfold plot, with_canvas. case_decide; [|by constructor].
  destruct (fb_backbuffer fb) as [b|] eqn:E; constructor; cbn; try done.
  - intros b' [= <-]. rewrite length_alter. unfold canvas. rewrite E. by apply H3.
  - rewrite length_alter. unfold canvas. by rewrite E.
  - rewrite E. done.
Qed.

Lemma plots_wf fb ps color : fb_wf fb → fb_wf (plots fb_blend color fb ps).
Proof. revert fb. induction ps as [|p ps IH]; intros fb H; [done|]. cbn. by apply IH, plot_wf. Qed.

Lemma plots_info fb ps color : fb_info (plots fb_blend color fb ps) = fb_info fb ∧
  fb_blend_mode (plots fb_blend color fb ps) = fb_blend_mode fb.
Proof.
  revert fb. induction ps as [|p ps IH]; intros fb; [done|].
  change (plots _ color fb (p :: ps)) with (plots fb_blend color (plot fb_blend color fb p) ps).
  destruct (IH (plot fb_blend color fb p)) as [-> ->]. apply plot_info.
Qed.

Lemma plots_app fb ps qs color :
  plots fb_blend color fb (ps ++ qs) = plots fb_blend color (plots fb_blend color fb ps) qs.
Proof. apply foldl_app. Qed.

Lemma fb_pixel_plot fb x y color : fb_wf fb → (0 < fuel)%nat →
  fb_pixel fb_blend fuel x y color fb = Ok (plot fb_blend color fb (x, y)).
Proof.
  intros Hwf Hf. unfold fb_pixel, plot. destruct (decide (on_screen fb (x, y))) as [Hon|Hoff].
  - pose proof (word_lt fb (x, y) Hwf Hon) as Hlt. destruct Hon as [Hx Hy]. cbn in Hx, Hy.
    destruct Hwf as [[Hw [Hh Hs]] Hm Hb Hcl].
    rewrite (proj2 (Z.ltb_ge _ _)), (proj2 (Z.leb_gt _ _)), (proj2 (Z.ltb_ge _ _)), (proj2 (Z.leb_gt _ _)) by lia.
    cbn [orb]. unfold fb_is_clipped. rewrite Hcl. destruct fuel as [|f]; [lia|]. cbn [clipped_loop truthy Z.eqb negb].
    rewrite bind_ok. assert (Hi : 0 ≤ y * fi_w (fb_info fb) + x < 2 ^ 32) by nia.
    rewrite (u32_small (y * _)), u32_small by nia. cbv zeta.
    destruct (lookup_lt_is_Some_2 _ _ Hlt) as [old Hold]. unfold word_of in Hold, Hlt. cbn [fst snd] in Hold, Hlt.
    assert (Hput : ∀ c, put_word (y * fi_w (fb_info fb) + x) c fb =
      Ok (with_canvas fb (<[word_of fb (x, y) := c]> (canvas fb)))).
    { intros c. unfold put_word. rewrite (proj2 (Z.ltb_lt _ _)) by lia. done. }
    assert (Halt : ∀ f c, f old = c → alter f (word_of fb (x, y)) (canvas fb) = <[word_of fb (x, y) := c]> (canvas fb)).
    { intros g c <-. by apply alter_insert_list. }
    assert (Hid : <[word_of fb (x, y) := old]> (canvas fb) = canvas fb) by by apply list_insert_id.
    assert (Hself : with_canvas fb (canvas fb) = fb).
    { unfold with_canvas, canvas. destruct fb as [? [b|] ? ? ? ?]; done. }
    unfold mix. repeat case_if; try (rewrite Hput; do 2 f_equal; symmetry; by apply Halt).
    + by rewrite (Halt _ old), Hid, Hself.
    + unfold get_word. rewrite Hold. cbn [of_option]. rewrite bind_ok, Hput. do 2 f_equal. symmetry. by apply Halt.
    + by rewrite (Halt _ old), Hid, Hself.
  - assert (He : (x <? 0) || (fi_w (fb_info fb) <=? x) || (y <? 0) || (fi_h (fb_info fb) <=? y) = true); [|by rewrite He].
    apply not_false_iff_true. intros Hf'. apply Hoff. unfold on_screen. cbn.
    rewrite !orb_false_iff, !Z.ltb_ge, !Z.leb_gt in Hf'. lia.
Qed.

(** ** What one sees *)

Lemma colour_plot fb p q color : fb_wf fb → on_screen fb q →
  colour (plot fb_blend color fb p) q =
    if decide (p = q) then mix fb_blend (fb_blend_mode fb) color <$> colour fb q else colour fb q.
Proof.
  intros Hwf Hq. unfold colour. unfold word_of. rewrite (proj1 (plot_info fb p color)). fold (word_of fb q).
  unfold plot. destruct (decide (on_screen fb p)) as [Hp|Hp].
  - rewrite canvas_with. case_decide as Hd; [subst; by rewrite list_lookup_alter_eq|].
    rewrite list_lookup_alter_ne; [done|]. intros He. by apply Hd, (word_inj fb).
  - rewrite decide_False; [done|]. by intros ->.
Qed.

Lemma opaque_mix fb color old : opaque fb color → mix fb_blend (fb_blend_mode fb) color old = color.
Proof. unfold mix. intros [[-> ->]| ->]; done. Qed.

Lemma colour_plots fb ps q color : fb_wf fb → opaque fb color → on_screen fb q →
  colour (plots fb_blend color fb ps) q = if decide (q ∈ ps) then Some color else colour fb q.
Proof.
  intros Hwf Ho Hq. induction ps as [|p ps IH] using rev_ind; [done|]. rewrite plots_app. cbn [plots foldl].
  fold (plots fb_blend color fb ps). destruct (plots_info fb ps color) as [Hi Hm].
  rewrite colour_plot; [|by apply plots_wf|unfold on_screen; by rewrite Hi]. rewrite IH.
  destruct (lookup_lt_is_Some_2 _ _ (word_lt fb q Hwf Hq)) as [old Hold]. fold (colour fb q) in Hold. rewrite Hold.
  destruct (decide (p = q)) as [->|Hne].
  - rewrite (decide_True (P := q ∈ ps ++ [q])) by (apply elem_of_app; right; by apply list_elem_of_singleton).
    rewrite Hm. case_decide; cbn; by rewrite opaque_mix.
  - destruct (decide (q ∈ ps)) as [Hin|Hin].
    + by rewrite decide_True by (apply elem_of_app; by left).
    + rewrite decide_False; [done|]. rewrite elem_of_app, list_elem_of_singleton. intros [?|?]; [done|congruence].
Qed.
End plotting.

(** ** Lines *)

(** A path from [p] to [q] whose points are neighbours *)
Fixpoint path (p : Z * Z) (ps : list (Z * Z)) : Prop :=
  match ps with
  | [] => True
  | q :: ps => Z.abs (fst q - fst p) ≤ 1 ∧ Z.abs (snd q - snd p) ≤ 1 ∧ path q ps
  end.

(** The points [(x0, y0) :: ps] are the digital straight line to [(x1, y1)]: neighbours, as
    many as the longer side, none more than half a pixel from the ideal line. *)
Record digital_line (x0 y0 x1 y1 : Z) (ps : list (Z * Z)) : Prop := {
  dl_length : Z.of_nat (length ps) = Z.max (Z.abs (x1 - x0)) (Z.abs (y1 - y0));
  dl_path : path (x0, y0) ps;
  dl_end : last ((x0, y0) :: ps) = Some (x1, y1);
  dl_near : ∀ p, p ∈ (x0, y0) :: ps →
    2 * Z.abs ((fst p - x0) * (y1 - y0) - (snd p - y0) * (x1 - x0)) ≤ Z.max (Z.abs (x1 - x0)) (Z.abs (y1 - y0));
  dl_box : ∀ p, p ∈ (x0, y0) :: ps →
    Z.min x0 x1 ≤ fst p ≤ Z.max x0 x1 ∧ Z.min y0 y1 ≤ snd p ≤ Z.max y0 y1
}.

(** Coordinates far from overflow *)
Definition near (x : Z) : Prop := - 2 ^ 28 ≤ x ≤ 2 ^ 28.

Section lines.
Context (fb_blend : Z → Z → Z) (fuel : nat).

(** One turn with [rx] columns and [ry] rows to go: which way it moves *)
Lemma line_turn D F rx ry : 0 ≤ rx ≤ D → 0 ≤ ry ≤ F → (rx, ry) ≠ (0, 0) →
  2 * Z.abs (rx * F - ry * D) ≤ Z.max D F →
  let e2 := 2 * (rx * F - ry * D + D - F) in
  ∃ a b : bool, a = (- F <=? e2) ∧ b = (e2 <=? D) ∧ (a = true → 0 < rx) ∧ (b = true → 0 < ry) ∧
    (if F <=? D then a = true else b = true) ∧
    2 * Z.abs ((rx - b2z a) * F - (ry - b2z b) * D) ≤ Z.max D F.
Proof.
  intros Hx Hy Hne Hdev e2. set (v := rx * F - ry * D) in *.
  exists (- F <=? e2), (e2 <=? D).
  assert (Hrx : rx = 0 → v = - (ry * D)) by (intros ->; subst v; lia).
  assert (Hry : ry = 0 → v = rx * F) by (intros ->; subst v; lia).
  assert (Hpos : 0 < rx ∨ 0 < ry) by (destruct (decide (rx = 0)) as [->|]; [|lia]; destruct (decide (ry = 0)) as [->|]; [done|lia]).
  assert (Hpx : rx = 0 → D ≤ ry * D) by nia. assert (Hpy : ry = 0 → F ≤ rx * F) by nia.
  assert (Hd : (rx - b2z (- F <=? e2)) * F - (ry - b2z (e2 <=? D)) * D = v - b2z (- F <=? e2) * F + b2z (e2 <=? D) * D)
    by (subst v; ring).
  rewrite Hd. clear Hd. clearbody v.
  destruct (Z.leb_spec (- F) e2), (Z.leb_spec e2 D), (Z.leb_spec F D); subst e2; cbn [b2z];
    split_and!; try done; try lia; intros _; destruct (decide (rx = 0)), (decide (ry = 0)); lia.
Qed.

Lemma line_loop_points n : ∀ steps fb x y x1 y1 D F rx ry sx sy color,
  fb_wf fb → (0 < fuel)%nat → (n < steps)%nat →
  (sx = 1 ∨ sx = -1) → (sy = 1 ∨ sy = -1) → 0 ≤ rx ≤ D → 0 ≤ ry ≤ F → D ≤ 2 ^ 29 → F ≤ 2 ^ 29 →
  near x → near y → near x1 → near y1 → x1 = x + sx * rx → y1 = y + sy * ry →
  2 * Z.abs (rx * F - ry * D) ≤ Z.max D F → Z.of_nat n = (if F <=? D then rx else ry) →
  ∃ ps, line_loop fb_blend fuel steps x y x1 y1 D (- F) sx sy (rx * F - ry * D + D - F) color fb =
      Ok (plots fb_blend color fb ((x, y) :: ps)) ∧
    length ps = n ∧ path (x, y) ps ∧ last ((x, y) :: ps) = Some (x1, y1) ∧
    (∀ p, p ∈ (x, y) :: ps → ∃ rx' ry', 0 ≤ rx' ≤ rx ∧ 0 ≤ ry' ≤ ry ∧ x1 = fst p + sx * rx' ∧ y1 = snd p + sy * ry' ∧
      2 * Z.abs (rx' * F - ry' * D) ≤ Z.max D F).
Proof.
  induction n as [|n IH]; intros [|steps] fb x y x1 y1 D F rx ry sx sy color Hwf Hf Hst Hsx Hsy Hrx Hry HD HF Hnx Hny Hnx1 Hny1
    Hx1 Hy1 Hdev Hn; try lia; cbn [line_loop]; rewrite fb_pixel_plot, bind_ok by done.
  - assert (rx = 0 ∧ ry = 0) as [-> ->].
    { destruct (Z.leb_spec F D); [assert (rx = 0) as -> by lia|assert (ry = 0) as -> by lia]; (split; [nia|nia]). }
    assert (x1 = x) as -> by lia. assert (y1 = y) as -> by lia. rewrite !Z.eqb_refl. cbn [andb].
    exists []. split_and!; [done..|]. intros p ->%list_elem_of_singleton. exists 0, 0. cbn. lia.
  - destruct (line_turn D F rx ry Hrx Hry) as (a & b & Ha & Hb & Hax & Hby & Hm & Hdev'); [|done|].
    { intros [= -> ->]. destruct (F <=? D); lia. }
    assert (He2 : s32 (2 * (rx * F - ry * D + D - F)) = 2 * (rx * F - ry * D + D - F)).
    { apply s32_small. lia. }
    assert (Hend : (x =? x1) && (y =? y1) = false).
    { apply not_true_iff_false. rewrite andb_true_iff, !Z.eqb_eq. intros [-> ->].
      assert (rx = 0) by (destruct Hsx; lia). assert (ry = 0) by (destruct Hsy; lia). destruct (F <=? D); lia. }
    rewrite Hend. cbv zeta. rewrite He2, <- Ha, <- Hb.
    assert (Hnx' : a && (x =? x1) = false).
    { apply not_true_iff_false. rewrite andb_true_iff, Z.eqb_eq. intros [Hat ->]. specialize (Hax Hat). destruct Hsx; lia. }
    assert (Hny' : b && (y =? y1) = false).
    { apply not_true_iff_false. rewrite andb_true_iff, Z.eqb_eq. intros [Hbt ->]. specialize (Hby Hbt). destruct Hsy; lia. }
    rewrite Hnx'. set (x' := x + sx * b2z a). set (y' := y + sy * b2z b).
    set (e := rx * F - ry * D + D - F) in *.
    assert (Hxm : (if a then (s32 (x + sx), s32 (e + - F)) else (x, e)) = (x', e - b2z a * F)).
    { subst x'. destruct a; cbn [b2z]; [|f_equal; lia]. specialize (Hax eq_refl). unfold near in *.
      rewrite !s32_small; [f_equal; lia|subst e; lia|destruct Hsx; lia]. }
    rewrite Hxm, Hny'. cbv iota beta.
    assert (Hym : (if b then (s32 (y + sy), s32 (e - b2z a * F + D)) else (y, e - b2z a * F)) = (y', e - b2z a * F + b2z b * D)).
    { subst y'. destruct b; cbn [b2z]; [|f_equal; lia]. specialize (Hby eq_refl). unfold near in *.
      rewrite !s32_small; [f_equal; lia|subst e; destruct a; cbn [b2z]; lia|destruct Hsy; lia]. }
    rewrite Hym. cbv iota beta.
    assert (Hrange : ∀ c : bool, 0 ≤ b2z c ≤ 1) by (intros []; cbn; lia).
    assert (Hrx' : 0 ≤ rx - b2z a ≤ D) by (destruct a; cbn [b2z]; [specialize (Hax eq_refl)|]; lia).
    assert (Hry' : 0 ≤ ry - b2z b ≤ F) by (destruct b; cbn [b2z]; [specialize (Hby eq_refl)|]; lia).
    destruct (IH steps (plot fb_blend color fb (x, y)) x' y' x1 y1 D F (rx - b2z a) (ry - b2z b) sx sy color)
      as (ps & Hps & Hl & Hp & Hlast & Hbox); try done; try lia.
    + by apply plot_wf.
    + subst x'. unfold near in *. clear -Hnx Hnx1 Hx1 Hrx' Hrange Hsx Hax. specialize (Hrange a).
      destruct Hsx as [-> | ->], a; cbn [b2z] in *; try specialize (Hax eq_refl); lia.
    + subst y'. unfold near in *. clear -Hny Hny1 Hy1 Hry' Hrange Hsy Hby. specialize (Hrange b).
      destruct Hsy as [-> | ->], b; cbn [b2z] in *; try specialize (Hby eq_refl); lia.
    + destruct (F <=? D); rewrite Hm; cbn [b2z]; lia.
    + exists ((x', y') :: ps). split_and!.
      * replace (e - b2z a * F + b2z b * D) with ((rx - b2z a) * F - (ry - b2z b) * D + D - F) by (subst e; ring). exact Hps.
      * cbn. by rewrite Hl.
      * cbn. subst x' y'. pose proof (Hrange a). pose proof (Hrange b).
        split; [destruct Hsx as [-> | ->]; lia|]. split; [destruct Hsy as [-> | ->]; lia|done].
      * by rewrite last_cons, Hlast.
      * intros p [->|Hin]%elem_of_cons; [exists rx, ry; cbn; lia|].
        destruct (Hbox p Hin) as (rx' & ry' & ? & ? & ? & ? & ?). exists rx', ry'.
        pose proof (Hrange a). pose proof (Hrange b). split_and!; try lia.
Qed.

(** [fb_line] plots a digital straight line. *)
Lemma line_plots fb x0 y0 x1 y1 color :
  fb_wf fb → (0 < fuel)%nat → near x0 → near y0 → near x1 → near y1 →
  ∃ ps, fb_line fb_blend fuel x0 y0 x1 y1 color fb = Ok (plots fb_blend color fb ((x0, y0) :: ps)) ∧
    digital_line x0 y0 x1 y1 ps.
Proof.
  intros Hwf Hf Hx0 Hy0 Hx1 Hy1. unfold fb_line. cbv zeta. unfold near in *.
  set (D := Z.abs (x1 - x0)). set (F := Z.abs (y1 - y0)).
  rewrite !(s32_small (x1 - x0)), !(s32_small (y1 - y0)) by lia. fold D F.
  rewrite !(s32_small D), !(s32_small F), !(s32_small (- F)), !(s32_small (D + - F)) by lia.
  set (sx := if x0 <? x1 then 1 else -1). set (sy := if y0 <? y1 then 1 else -1).
  assert (Hsx : sx = 1 ∨ sx = -1) by (subst sx; case_if; auto).
  assert (Hsy : sy = 1 ∨ sy = -1) by (subst sy; case_if; auto).
  assert (Hxd : x1 - x0 = sx * D) by (subst sx D; destruct (Z.ltb_spec x0 x1); lia).
  assert (Hyd : y1 - y0 = sy * F) by (subst sy F; destruct (Z.ltb_spec y0 y1); lia).
  assert (HD : 0 ≤ D ≤ 2 ^ 29) by lia. assert (HF : 0 ≤ F ≤ 2 ^ 29) by lia.
  destruct (line_loop_points (Z.to_nat (Z.max D F)) (S (Z.to_nat (D - - F))) fb x0 y0 x1 y1 D F D F sx sy color)
    as (ps & Hps & Hl & Hp & Hlast & Hbox); try done; try lia.
  { destruct (Z.leb_spec F D); lia. }
  exists ps. split; [by replace (D + - F) with (D * F - F * D + D - F) by ring|].
  constructor; [by rewrite Hl, Z2Nat.id by lia|done|done| |]; intros p Hin;
    destruct (Hbox p Hin) as (rx' & ry' & Hrx & Hry & Hpx & Hpy & Hdev); fold D F.
  - assert (Hs : ∀ s, s = 1 ∨ s = -1 → s * s = 1) by (intros s [-> | ->]; done).
    replace (fst p - x0) with (sx * (D - rx')) by lia. replace (snd p - y0) with (sy * (F - ry')) by lia.
    rewrite Hxd, Hyd. replace (sx * (D - rx') * (sy * F) - sy * (F - ry') * (sx * D))
      with (sx * sy * - (rx' * F - ry' * D)) by ring. rewrite Z.abs_mul, Z.abs_opp.
    assert (Z.abs (sx * sy) = 1) as -> by (destruct Hsx as [-> | ->], Hsy as [-> | ->]; done).
    rewrite Z.mul_1_l. exact Hdev.
  - split; [destruct Hsx as [E|E]|destruct Hsy as [E|E]]; rewrite E in *; lia.
Qed.
End lines.

(** ** Pictures

    Points with their colours, in the order they are plotted *)

Section last_colour.
Implicit Types l : list ((Z * Z) * Z).

(** The last colour that a point gets *)
Definition last_colour l (q : Z * Z) : option Z := snd <$> last (filter (λ pc, fst pc = q) l).

Definition with_colour (c : Z) (ps : list (Z * Z)) : list ((Z * Z) * Z) := (λ p, (p, c)) <$> ps.

Lemma last_colour_app l l' q :
  last_colour (l ++ l') q = match last_colour l' q with Some c => Some c | None => last_colour l q end.
Proof. unfold last_colour. rewrite filter_app, last_app. by destruct (last (filter _ l')). Qed.

Lemma last_colour_one p c q : last_colour [(p, c)] q = if decide (p = q) then Some c else None.
Proof. unfold last_colour. cbn. by case_decide. Qed.

Lemma last_colour_with c ps q : last_colour (with_colour c ps) q = if decide (q ∈ ps) then Some c else None.
Proof.
  induction ps as [|p ps IH] using rev_ind; [by rewrite decide_False by apply not_elem_of_nil|].
  unfold with_colour in *. rewrite fmap_app, last_colour_app, IH. cbn [fmap list_fmap]. rewrite last_colour_one.
  destruct (decide (p = q)) as [->|Hne].
  - cbn. by rewrite decide_True by (apply elem_of_app; right; by apply list_elem_of_singleton).
  - cbn. apply decide_ext. rewrite elem_of_app, list_elem_of_singleton. naive_solver.
Qed.

End last_colour.

Section paints.
Context (fb_blend : Z → Z → Z).
Implicit Types (fb : fb_t) (l : list ((Z * Z) * Z)).

Definition paints fb l : fb_t := foldl (λ fb pc, plot fb_blend (snd pc) fb (fst pc)) fb l.

Lemma paints_app fb l l' : paints fb (l ++ l') = paints (paints fb l) l'.
Proof. apply foldl_app. Qed.

Lemma plots_paints fb c ps : plots fb_blend c fb ps = paints fb (with_colour c ps).
Proof. revert fb. induction ps as [|p ps IH]; intros fb; [done|]. apply IH. Qed.

Lemma paints_info fb l : fb_info (paints fb l) = fb_info fb ∧ fb_blend_mode (paints fb l) = fb_blend_mode fb.
Proof.
  revert fb. induction l as [|pc l IH]; intros fb; [done|].
  change (paints fb (pc :: l)) with (paints (plot fb_blend (snd pc) fb (fst pc)) l).
  destruct (IH (plot fb_blend (snd pc) fb (fst pc))) as [-> ->]. apply plot_info.
Qed.

Lemma paints_wf fb l : fb_wf fb → fb_wf (paints fb l).
Proof. revert fb. induction l as [|pc l IH]; intros fb H; [done|]. by apply IH, plot_wf. Qed.

Lemma paints_opaque fb l c : opaque fb c → opaque (paints fb l) c.
Proof. unfold opaque. by rewrite (proj2 (paints_info fb l)). Qed.

Lemma colour_paints fb l q : fb_wf fb → (∀ pc, pc ∈ l → opaque fb (snd pc)) → on_screen fb q →
  colour (paints fb l) q = match last_colour l q with Some c => Some c | None => colour fb q end.
Proof.
  intros Hwf Ho Hq. induction l as [|[p c] l IH] using rev_ind; [done|].
  rewrite paints_app, last_colour_app. cbn [paints foldl snd fst]. fold (paints fb l).
  destruct (paints_info fb l) as [Hi Hm].
  rewrite colour_plot; [|by apply paints_wf|unfold on_screen; by rewrite Hi].
  rewrite IH by (intros pc Hpc; apply Ho, elem_of_app; by left).
  assert (Hc : opaque fb c) by (apply (Ho (p, c)), elem_of_app; right; by apply list_elem_of_singleton).
  rewrite last_colour_one. destruct (lookup_lt_is_Some_2 _ _ (word_lt fb q Hwf Hq)) as [old Hold].
  fold (colour fb q) in Hold. destruct (decide (p = q)) as [->|Hne]; [|done]. rewrite Hold.
  cbn. rewrite Hm. destruct (last_colour l q); cbn; by rewrite opaque_mix.
Qed.
End paints.

(** Discrete intermediate values: a path meets every column and every row between its ends. *)
Section covers.
Implicit Types (p q : Z * Z) (ps : list (Z * Z)).

Lemma path_meets (f : Z * Z → Z) p ps q c :
  (∀ a b, Z.abs (fst a - fst b) ≤ 1 → Z.abs (snd a - snd b) ≤ 1 → Z.abs (f a - f b) ≤ 1) →
  path p ps → last (p :: ps) = Some q → Z.min (f p) (f q) ≤ c ≤ Z.max (f p) (f q) →
  ∃ r, r ∈ p :: ps ∧ f r = c.
Proof.
  intros Hf. revert p. induction ps as [|a ps IH]; intros p Hp Hl Hc.
  - injection Hl as ->. exists q. split; [by left|lia].
  - destruct Hp as (H1 & H2 & Hp). specialize (Hf a p H1 H2).
    destruct (decide (f p = c)) as [|Hne]; [exists p; split; [by left|done]|].
    destruct (IH a Hp) as (r & Hr & Hrc); [done| |exists r; split; [by right|done]].
    rewrite last_cons in Hl. destruct (last (a :: ps)) eqn:E; [|by apply last_None in E]. injection Hl as ->. lia.
Qed.

Lemma horizontal_points x0 x1 y ps p : digital_line x0 y x1 y ps →
  p ∈ (x0, y) :: ps ↔ snd p = y ∧ Z.min x0 x1 ≤ fst p ≤ Z.max x0 x1.
Proof.
  intros [_ Hp He _ Hb]. split.
  - intros Hin. destruct (Hb p Hin). lia.
  - destruct p as [a b]. cbn. intros [-> Ha].
    destruct (path_meets fst (x0, y) ps (x1, y) a) as ([a' b'] & Hin & Hr); [done..|].
    cbn in Hr. subst a'. destruct (Hb _ Hin). cbn in *. by assert (b' = y) as -> by lia.
Qed.

Lemma vertical_points x y0 y1 ps p : digital_line x y0 x y1 ps →
  p ∈ (x, y0) :: ps ↔ fst p = x ∧ Z.min y0 y1 ≤ snd p ≤ Z.max y0 y1.
Proof.
  intros [_ Hp He _ Hb]. split.
  - intros Hin. destruct (Hb p Hin). lia.
  - destruct p as [a b]. cbn. intros [-> Ha].
    destruct (path_meets snd (x, y0) ps (x, y1) b) as ([a' b'] & Hin & Hr); [done..|].
    cbn in Hr. subst b'. destruct (Hb _ Hin). cbn in *. by assert (a' = x) as -> by lia.
Qed.
End covers.
