(* ===== verification/FbSpec.v ===== *)
(** * libs/libfb: theorems about drawing

    What lines, rectangles, fills and bitmaps show, that drawing stays inside the buffer, and
    what is wrong with clips, colours and glyphs. *)

From S2P Require Import Prelude Ctype.
From S2P Require Import Fb FbFacts.

Lemma s32_near x : near x → s32 x = x.
Proof. unfold near. intros. apply s32_small. lia. Qed.

Section operations.
Context (fb_blend : Z → Z → Z).
Implicit Types (fb : fb_t) (p q : Z * Z).

(** An operation that plots a picture *)
Definition paints_as (f : fb_t → res fb_t) fb (l : list ((Z * Z) * Z)) : Prop := f fb = Ok (paints fb_blend fb l).

(** Drawing several things of one size of buffer *)
Lemma draws_paints {A} (f : A → fb_t → res fb_t) (Q : A → list ((Z * Z) * Z) → Prop) (xs : list A) fb :
  fb_wf fb →
  (∀ x fb', x ∈ xs → fb_wf fb' → fb_info fb' = fb_info fb → ∃ l, paints_as (f x) fb' l ∧ Q x l) →
  ∃ ls, paints_as (draws f xs) fb (concat ls) ∧ Forall2 Q xs ls.
Proof.
  intros Hwf Hf. unfold paints_as.
  assert (H : ∀ fb', fb_wf fb' → fb_info fb' = fb_info fb →
    ∃ ls, draws f xs fb' = Ok (paints fb_blend fb' (concat ls)) ∧ Forall2 Q xs ls); [|by apply H].
  induction xs as [|x xs IH]; intros fb' Hw Hi; cbn [draws]; [by exists []|].
  destruct (Hf x fb') as (l & Hl & HQ); [by left|done..|]. rewrite Hl, bind_ok.
  destruct (IH (λ y fb'' Hy, Hf y fb'' (list_elem_of_further _ _ _ Hy)) (paints fb_blend fb' l)) as (ls & -> & HQs).
  - by apply paints_wf.
  - by rewrite (proj1 (paints_info _ _ _)).
  - exists (l :: ls). change (concat (l :: ls)) with (l ++ concat ls). rewrite paints_app. by split; [|constructor].
Qed.

Context (fuel : nat) (Hfuel : (0 < fuel)%nat).

Lemma paints_as_line fb x0 y0 x1 y1 c : fb_wf fb → near x0 → near y0 → near x1 → near y1 →
  ∃ ps, paints_as (fb_line fb_blend fuel x0 y0 x1 y1 c) fb (with_colour c ((x0, y0) :: ps)) ∧
    digital_line x0 y0 x1 y1 ps.
Proof.
  intros. destruct (line_plots fb_blend fuel fb x0 y0 x1 y1 c) as (ps & Hps & Hd); [done..|].
  exists ps. split; [|done]. unfold paints_as. by rewrite Hps, plots_paints.
Qed.

(** The border of a rectangle *)
Lemma rect_paints fb x0 y0 w h c : fb_wf fb → near x0 → near y0 → near (x0 + w) → near (y0 + h) → 0 ≤ w → 0 ≤ h →
  ∃ ps, paints_as (fb_rect fb_blend fuel x0 y0 w h c) fb (with_colour c ps) ∧
    ∀ q, q ∈ ps ↔ (x0 ≤ fst q ≤ x0 + w ∧ (snd q = y0 ∨ snd q = y0 + h)) ∨
                  (y0 ≤ snd q ≤ y0 + h ∧ (fst q = x0 ∨ fst q = x0 + w)).
Proof.
  intros Hwf Hx Hy Hxw Hyh Hw Hh. unfold fb_rect. cbv zeta. rewrite !s32_near by done.
  destruct (paints_as_line fb x0 y0 (x0 + w) y0 c) as (p1 & H1 & D1); [done..|].
  set (fb1 := paints fb_blend fb (with_colour c ((x0, y0) :: p1))) in *.
  assert (W1 : fb_wf fb1) by by apply paints_wf.
  destruct (paints_as_line fb1 (x0 + w) y0 (x0 + w) (y0 + h) c) as (p2 & H2 & D2); [done..|].
  set (fb2 := paints fb_blend fb1 (with_colour c ((x0 + w, y0) :: p2))) in *.
  assert (W2 : fb_wf fb2) by by apply paints_wf.
  destruct (paints_as_line fb2 (x0 + w) (y0 + h) x0 (y0 + h) c) as (p3 & H3 & D3); [done..|].
  set (fb3 := paints fb_blend fb2 (with_colour c ((x0 + w, y0 + h) :: p3))) in *.
  assert (W3 : fb_wf fb3) by by apply paints_wf.
  destruct (paints_as_line fb3 x0 (y0 + h) x0 y0 c) as (p4 & H4 & D4); [done..|].
  exists (((x0, y0) :: p1) ++ ((x0 + w, y0) :: p2) ++ ((x0 + w, y0 + h) :: p3) ++ ((x0, y0 + h) :: p4)). split.
  - unfold paints_as in *. rewrite H1, bind_ok. fold fb1. rewrite H2, bind_ok. fold fb2. rewrite H3, bind_ok. fold fb3.
    rewrite H4. unfold with_colour. rewrite !fmap_app, !paints_app. done.
  - intros q. rewrite !elem_of_app, (horizontal_points _ _ _ _ _ D1), (vertical_points _ _ _ _ _ D2),
      (horizontal_points _ _ _ _ _ D3), (vertical_points _ _ _ _ _ D4). lia.
Qed.

Lemma filled_rect_paints fb x0 y0 w h border fill :
  fb_wf fb → near x0 → near y0 → near (x0 + w) → near (y0 + h) → 0 ≤ w → 0 ≤ h →
  ∃ pf pb, paints_as (fb_filled_rect fb_blend fuel x0 y0 w h border fill) fb
      (with_colour fill pf ++ with_colour border pb) ∧
    (∀ q, q ∈ pf ↔ x0 ≤ fst q ≤ x0 + w ∧ y0 ≤ snd q < y0 + h) ∧
    (∀ q, q ∈ pb ↔ (x0 ≤ fst q ≤ x0 + w ∧ (snd q = y0 ∨ snd q = y0 + h)) ∨
                   (y0 ≤ snd q ≤ y0 + h ∧ (fst q = x0 ∨ fst q = x0 + w))).
Proof.
  intros Hwf Hx Hy Hxw Hyh Hw Hh. unfold fb_filled_rect.
  destruct (draws_paints (λ i, fb_line fb_blend fuel x0 (s32 (y0 + i)) (s32 (x0 + w)) (s32 (y0 + i)) fill)
    (λ i l, ∃ ps, l = with_colour fill ps ∧ ∀ q, q ∈ ps ↔ snd q = y0 + i ∧ x0 ≤ fst q ≤ x0 + w) (seqZ 0 h) fb)
    as (ls & Hls & HQ); [done| |].
  { intros i fb' Hi Hwf' _. apply elem_of_seqZ in Hi. assert (near (y0 + i)) by (unfold near in *; lia).
    rewrite !s32_near by done. destruct (paints_as_line fb' x0 (y0 + i) (x0 + w) (y0 + i) fill) as (ps & Hps & Hd); [done..|].
    eexists. split; [exact Hps|]. eexists. split; [done|]. intros q. rewrite (horizontal_points _ _ _ _ _ Hd). lia. }
  unfold paints_as in Hls. unfold paints_as. rewrite Hls, bind_ok.
  destruct (rect_paints (paints fb_blend fb (concat ls)) x0 y0 w h border) as (pb & Hpb & Hin); [by apply paints_wf|done..|].
  assert (Hpf : ∃ pf, concat ls = with_colour fill pf ∧ ∀ q, q ∈ pf ↔ ∃ i, i ∈ seqZ 0 h ∧ snd q = y0 + i ∧ x0 ≤ fst q ≤ x0 + w).
  { clear Hls Hpb. induction HQ as [|i l ixs ls (ps & -> & Hps) _ (pf & Hpf & Hq)].
    - exists []. split; [done|]. intros q. split; [by intros ?%not_elem_of_nil|]. by intros (i & ?%not_elem_of_nil & _).
    - exists (ps ++ pf). cbn. rewrite Hpf. split; [unfold with_colour; by rewrite fmap_app|].
      intros q. rewrite elem_of_app, Hps, Hq. setoid_rewrite elem_of_cons. naive_solver. }
  destruct Hpf as (pf & Hpf & Hq). exists pf, pb. rewrite Hpf in *. split_and!; [|intros q; rewrite Hq|done].
  - unfold paints_as in Hpb. by rewrite Hpb, paints_app.
  - setoid_rewrite elem_of_seqZ. split; [intros (i & ? & ? & ?); lia|]. intros [? ?]. exists (snd q - y0). lia.
Qed.
End operations.

(** A filled rectangle covers one column and one row more than its size: with colours that
    cover, exactly the points up to [x0 + w] and [y0 + h], both included, are painted, those
    on the edge with the colour of the border. *)
Theorem filled_rect_shows (fb_blend : Z → Z → Z) (fuel : nat) (fb : fb_t) (x0 y0 w h border fill : Z) :
  fb_wf fb → (0 < fuel)%nat → near x0 → near y0 → near (x0 + w) → near (y0 + h) → 0 ≤ w → 0 ≤ h →
  opaque fb border → opaque fb fill →
  ∃ fb', fb_filled_rect fb_blend fuel x0 y0 w h border fill fb = Ok fb' ∧ fb_wf fb' ∧
    ∀ q, on_screen fb q → colour fb' q =
      if decide (x0 ≤ fst q ≤ x0 + w ∧ y0 ≤ snd q ≤ y0 + h) then
        Some (if decide (fst q = x0 ∨ fst q = x0 + w ∨ snd q = y0 ∨ snd q = y0 + h) then border else fill)
      else colour fb q.
Proof.
  intros Hwf Hf Hx Hy Hxw Hyh Hw Hh Hob Hof.
  destruct (filled_rect_paints fb_blend fuel Hf fb x0 y0 w h border fill) as (pf & pb & Hp & Hpf & Hpb); [done..|].
  eexists. split; [exact Hp|]. split; [by apply paints_wf|]. intros q Hq.
  rewrite colour_paints; [|done| |done].
  - rewrite last_colour_app, !last_colour_with. specialize (Hpf q). specialize (Hpb q).
    destruct (decide (q ∈ pb)) as [Hb|Hb]; [rewrite Hpb in Hb|rewrite Hpb in Hb; destruct (decide (q ∈ pf)) as [H|H]; rewrite Hpf in H];
      repeat case_decide; first [done|exfalso; lia].
  - intros pc. rewrite elem_of_app. unfold with_colour. rewrite !list_elem_of_fmap. by intros [(? & -> & _)|(? & -> & _)].
Qed.

(** A screen of 8 by 6 that nothing was drawn on *)
Definition small_screen : fb_t := mk_fb (replicate 48 0) None (mk_info 8 6 4 192) 0 ∅ FB_NO_BLEND.
Lemma small_screen_wf : fb_wf small_screen.
Proof. by constructor; vm_compute. Qed.

Lemma filled_rect_shows_witness :
  ∃ fb', fb_filled_rect (λ a _, a) 1 1 1 3 2 5 9 small_screen = Ok fb' ∧ fb_wf fb' ∧
    colour fb' (4, 3) = Some 5 ∧ colour fb' (2, 2) = Some 9 ∧ colour fb' (5, 3) = Some 0.
Proof.
  destruct (filled_rect_shows (λ a _, a) 1 small_screen 1 1 3 2 5 9 small_screen_wf) as (fb' & H1 & H2 & H3);
    [lia|by unfold near..|lia|lia|by right|by right|].
  exists fb'. split; [exact H1|]. split; [exact H2|].
  split; [|split]; (rewrite H3; [vm_compute; reflexivity|unfold on_screen; cbn; lia]).
Defined.

(** A line is a digital straight line in the sense of [digital_line], and nothing else
    changes. *)
Theorem line_shows (fb_blend : Z → Z → Z) (fuel : nat) (fb : fb_t) (x0 y0 x1 y1 color : Z) :
  fb_wf fb → (0 < fuel)%nat → near x0 → near y0 → near x1 → near y1 → opaque fb color →
  ∃ fb' ps, fb_line fb_blend fuel x0 y0 x1 y1 color fb = Ok fb' ∧ fb_wf fb' ∧ digital_line x0 y0 x1 y1 ps ∧
    ∀ q, on_screen fb q → colour fb' q = if decide (q ∈ (x0, y0) :: ps) then Some color else colour fb q.
Proof.
  intros Hwf Hf Hx0 Hy0 Hx1 Hy1 Ho.
  destruct (line_plots fb_blend fuel fb x0 y0 x1 y1 color) as (ps & Hps & Hd); [done..|].
  eexists _, ps. split; [exact Hps|]. split; [by apply plots_wf|]. split; [done|].
  intros q Hq. by apply colour_plots.
Qed.

Lemma line_shows_witness :
  ∃ fb' ps, fb_line (λ a _, a) 1 0 0 7 3 5 small_screen = Ok fb' ∧ digital_line 0 0 7 3 ps ∧
    colour fb' (7, 3) = Some 5.
Proof.
  destruct (line_shows (λ a _, a) 1 small_screen 0 0 7 3 5 small_screen_wf) as (fb' & ps & H1 & _ & H2 & H3);
    [lia|by unfold near..|by right|].
  exists fb', ps. split; [exact H1|]. split; [exact H2|].
  rewrite H3 by (unfold on_screen; cbn; lia). rewrite decide_True; [reflexivity|].
  pose proof (dl_end _ _ _ _ _ H2) as He. apply last_Some_elem_of in He. exact He.
Defined.

(** ** Bitmaps *)

Section once.
Context (fb_blend : Z → Z → Z).
Implicit Types (fb : fb_t) (l : list ((Z * Z) * Z)).

(** Every point is plotted once: translucent colours are mixed with what was there before. *)
Lemma colour_paints_once fb l q : fb_wf fb → NoDup l.*1 → on_screen fb q →
  colour (paints fb_blend fb l) q =
    match last_colour l q with Some c => mix fb_blend (fb_blend_mode fb) c <$> colour fb q | None => colour fb q end.
Proof.
  intros Hwf Hnd Hq. induction l as [|[p c] l IH] using rev_ind; [done|].
  rewrite fmap_app in Hnd. apply NoDup_app in Hnd as (Hnd & Hni & _).
  rewrite paints_app, last_colour_app, last_colour_one. cbn [paints foldl snd fst]. fold (paints fb_blend fb l).
  destruct (paints_info fb_blend fb l) as [Hi Hm].
  rewrite colour_plot; [|by apply paints_wf|unfold on_screen; by rewrite Hi]. rewrite IH, Hm by done.
  destruct (decide (p = q)) as [->|Hne]; [|done].
  assert (Hnone : last_colour l q = None); [|by rewrite Hnone].
  unfold last_colour. destruct (last (filter _ l)) as [[p' c']|] eqn:E; [|done]. exfalso.
  apply last_Some_elem_of, list_elem_of_filter in E as [E1 E2]. cbn in E1. subst p'.
  apply (Hni q); [apply list_elem_of_fmap; by exists (q, c')|by apply list_elem_of_singleton].
Qed.

Lemma last_colour_unique l q c : NoDup l.*1 → (q, c) ∈ l → last_colour l q = Some c.
Proof.
  intros Hnd Hin. unfold last_colour. destruct (last (filter _ l)) as [[p' c']|] eqn:E.
  - apply last_Some_elem_of, list_elem_of_filter in E as [E1 E2]. cbn in *. subst p'. f_equal.
    clear -Hnd Hin E2. induction l as [|[p d] l IH]; [by apply not_elem_of_nil in Hin|]. cbn in Hnd.
    apply NoDup_cons in Hnd as [Hni Hnd].
    assert (Hno : ∀ e, (p, e) ∈ l → False) by (intros e He; apply Hni, list_elem_of_fmap; by exists (p, e)).
    apply elem_of_cons in Hin as [Hin|Hin]; apply elem_of_cons in E2 as [E2|E2]; simplify_eq;
      [done|by apply Hno in E2|by apply Hno in Hin|by apply IH].
  - apply last_None in E. assert (Hf : (q, c) ∈ filter (λ pc, fst pc = q) l) by by apply list_elem_of_filter.
    rewrite E in Hf. by apply not_elem_of_nil in Hf.
Qed.

Lemma last_colour_none l q : q ∉ l.*1 → last_colour l q = None.
Proof.
  intros Hni. unfold last_colour. destruct (last (filter _ l)) as [[p' c']|] eqn:E; [|done]. exfalso.
  apply last_Some_elem_of, list_elem_of_filter in E as [E1 E2]. cbn in *. subst. apply Hni, list_elem_of_fmap. by exists (q, c').
Qed.
End once.

Section bitmap.
Context (fb_blend : Z → Z → Z) (fuel : nat) (Hfuel : (0 < fuel)%nat).
Implicit Types (fb : fb_t).

Lemma pixel_paints fb x y c : fb_wf fb → paints_as fb_blend (fb_pixel fb_blend fuel x y c) fb [((x, y), c)].
Proof. intros. unfold paints_as. by rewrite fb_pixel_plot. Qed.

(** One pixel per point of a grid *)
Lemma grid_paints (col : Z → Z → fb_t → res Z) (shown : Z → Z → Z) (xs ys : list Z) (fx fy : Z → Z) fb :
  fb_wf fb → NoDup xs → NoDup ys → (∀ a b, a ∈ xs → b ∈ xs → fx a = fx b → a = b) →
  (∀ a b, a ∈ ys → b ∈ ys → fy a = fy b → a = b) →
  (∀ x y fb', x ∈ xs → y ∈ ys → col x y fb' = Ok (shown x y)) →
  ∃ l, paints_as fb_blend (draws (λ y, draws (λ x fb, c ← col x y fb; fb_pixel fb_blend fuel (fx x) (fy y) c fb) xs) ys) fb l ∧
    NoDup l.*1 ∧ (∀ q c, (q, c) ∈ l ↔ ∃ x y, x ∈ xs ∧ y ∈ ys ∧ q = (fx x, fy y) ∧ c = shown x y).
Proof.
  intros Hwf Hnx Hny Hix Hiy Hcol.
  destruct (draws_paints fb_blend (λ y, draws (λ x fb, c ← col x y fb; fb_pixel fb_blend fuel (fx x) (fy y) c fb) xs)
    (λ y l, l = (λ x, ((fx x, fy y), shown x y)) <$> xs) ys fb Hwf) as (ls & Hls & HQ).
  { intros y fb' Hy Hwf' _.
    destruct (draws_paints fb_blend (λ x fb, c ← col x y fb; fb_pixel fb_blend fuel (fx x) (fy y) c fb)
      (λ x l, l = [((fx x, fy y), shown x y)]) xs fb' Hwf') as (ls & Hls & HQ).
    - intros x fb'' Hx Hwf'' _. eexists. split; [|done]. unfold paints_as. rewrite Hcol, bind_ok by done. by apply pixel_paints.
    - eexists. split; [exact Hls|]. clear -HQ. by induction HQ as [|x l ixs ls -> _ IH]; [|cbn; rewrite IH]. }
  exists (concat ls). split; [exact Hls|]. clear Hls.
  assert (Hel : concat ls = ys ≫= λ y, (λ x, ((fx x, fy y), shown x y)) <$> xs).
  { clear -HQ. by induction HQ as [|y l iys ls -> _ IH]; [|cbn; rewrite IH]. }
  rewrite Hel. split.
  - clear Hel HQ Hcol. induction ys as [|y ys IH]; [constructor|]. apply NoDup_cons in Hny as [Hni Hny]. cbn.
    rewrite fmap_app. apply NoDup_app. split_and!.
    + rewrite <- list_fmap_compose. clear -Hnx Hix. induction xs as [|x xs IHx]; [constructor|].
      apply NoDup_cons in Hnx as [Hn Hnx]. cbn. apply NoDup_cons. split.
      * rewrite list_elem_of_fmap. intros (x' & [= He] & Hx'). cbn in *.
        rewrite (Hix x x') in Hn by (auto; by constructor). done.
      * apply IHx; [done|]. intros a b ? ?. apply Hix; by right.
    + intros p Hp Hp'. apply list_elem_of_fmap in Hp as ([p1 c1] & -> & Hp). apply list_elem_of_fmap in Hp as (x & [= -> ->] & _).
      apply list_elem_of_fmap in Hp' as ([p2 c2] & Hp2 & Hin). cbn in Hp2. subst p2.
      apply list_elem_of_bind in Hin as (y' & Hin & Hy'). apply list_elem_of_fmap in Hin as (x' & [= _ Hf _] & _).
      apply Hni. rewrite (Hiy y y'); [done|by left|by right|done].
    + apply IH; [done|]. intros a b ? ?. apply Hiy; by right.
  - intros q c. rewrite list_elem_of_bind. setoid_rewrite list_elem_of_fmap. naive_solver.
Qed.
End bitmap.

(** The colour of a grid of pixels *)
Lemma grid_colour fb_blend fb l q c : fb_wf fb → on_screen fb q → NoDup l.*1 → (q, c) ∈ l →
  colour (paints fb_blend fb l) q = mix fb_blend (fb_blend_mode fb) c <$> colour fb q.
Proof. intros. rewrite colour_paints_once by done. by rewrite (last_colour_unique _ _ c). Qed.

Lemma bitmap_paints fb_blend fuel fb x0 y0 w h words :
  fb_wf fb → (0 < fuel)%nat → near x0 → near y0 → near (x0 + w) → near (y0 + h) → 0 ≤ w → 0 ≤ h →
  w * h ≤ Z.of_nat (length words) → w * h ≤ 2 ^ 32 →
  ∃ l, paints_as fb_blend (fb_bitmap fb_blend fuel x0 y0 w h (Bitmap32 words)) fb l ∧ NoDup l.*1 ∧
    ∀ q c, (q, c) ∈ l ↔ ∃ x y, x0 ≤ x < x0 + w ∧ y0 ≤ y < y0 + h ∧ q = (x, y) ∧
      c = words !!! Z.to_nat ((y - y0) * w + (x - x0)).
Proof.
  intros Hwf Hf Hx Hy Hxw Hyh Hw Hh Hl Hl32. unfold fb_bitmap. cbv zeta. rewrite !s32_near by done.
  replace (x0 + w - x0) with w by lia. replace (y0 + h - y0) with h by lia.
  set (shown := λ x y, words !!! Z.to_nat ((y - y0) * w + (x - x0))).
  destruct (grid_paints fb_blend fuel Hf (λ x y _, bitmap_color (Bitmap32 words) (u32 ((y - y0) * w + x - x0)))
    shown (seqZ x0 w) (seqZ y0 h) id id fb) as (l & Hp & Hnd & Hin); [done|apply NoDup_seqZ|apply NoDup_seqZ|done|done| |].
  { intros x y fb' Hxi Hyi. apply elem_of_seqZ in Hxi, Hyi. cbn.
    assert (0 ≤ (y - y0) * w + (x - x0) < w * h) by nia.
    rewrite u32_small by lia. replace ((y - y0) * w + x - x0) with ((y - y0) * w + (x - x0)) by lia.
    subst shown. cbn. destruct (lookup_lt_is_Some_2 words (Z.to_nat ((y - y0) * w + (x - x0)))) as [c Hc]; [lia|].
    rewrite Hc. cbn. by rewrite (list_lookup_total_correct _ _ _ Hc). }
  exists l. split; [exact Hp|]. split; [done|]. intros q c. rewrite Hin. by setoid_rewrite elem_of_seqZ.
Qed.

(** A bitmap with 32-bit words appears at its place, each word mixed with the colour behind
    it; nothing else changes. *)
Theorem bitmap_shows (fb_blend : Z → Z → Z) (fuel : nat) (fb : fb_t) (x0 y0 w h : Z) (words : list Z) :
  fb_wf fb → (0 < fuel)%nat → near x0 → near y0 → near (x0 + w) → near (y0 + h) → 0 ≤ w → 0 ≤ h →
  w * h ≤ Z.of_nat (length words) → w * h ≤ 2 ^ 32 →
  ∃ fb', fb_bitmap fb_blend fuel x0 y0 w h (Bitmap32 words) fb = Ok fb' ∧ fb_wf fb' ∧
    ∀ x y, on_screen fb (x, y) → colour fb' (x, y) =
      if decide (x0 ≤ x < x0 + w ∧ y0 ≤ y < y0 + h) then
        mix fb_blend (fb_blend_mode fb) (words !!! Z.to_nat ((y - y0) * w + (x - x0))) <$> colour fb (x, y)
      else colour fb (x, y).
Proof.
  intros Hwf Hf Hx Hy Hxw Hyh Hw Hh Hl Hl32.
  destruct (bitmap_paints fb_blend fuel fb x0 y0 w h words) as (l & Hp & Hnd & Hin); [done..|].
  eexists. split; [exact Hp|]. split; [by apply paints_wf|]. intros x y Hq. case_decide as Hd.
  - apply grid_colour; [done..|]. apply Hin. exists x, y. split_and!; [lia..|done|done].
  - rewrite colour_paints_once by done. rewrite last_colour_none; [done|].
    intros Hq'. apply list_elem_of_fmap in Hq' as ([q c] & He & Hq'). cbn in He. subst q.
    apply Hin in Hq' as (x' & y' & Hx' & Hy' & He & _). injection He as -> ->. lia.
Qed.

Lemma bitmap_shows_witness :
  ∃ fb', fb_bitmap (λ a _, a) 1 6 2 3 2 (Bitmap32 [1; 2; 3; 4; 5; 6]) small_screen = Ok fb' ∧
    colour fb' (7, 3) = Some 5 ∧ colour fb' (5, 3) = Some 0.
Proof.
  destruct (bitmap_shows (λ a _, a) 1 small_screen 6 2 3 2 [1; 2; 3; 4; 5; 6] small_screen_wf) as (fb' & H1 & _ & H2);
    [lia|by unfold near..|lia|lia|cbn; lia|lia|].
  exists fb'. split; [exact H1|]. split; (rewrite H2; [vm_compute; reflexivity|unfold on_screen; cbn; lia]).
Defined.

(** ** Characters *)

Lemma draws_ext {A} (f g : A → fb_t → res fb_t) xs fb :
  (∀ x fb', x ∈ xs → f x fb' = g x fb') → draws f xs fb = draws g xs fb.
Proof.
  revert fb. induction xs as [|x xs IH]; intros fb Hfg; cbn; [done|].
  rewrite Hfg by by left. destruct (g x fb); try done. rewrite !bind_ok. apply IH. intros y ? Hy. apply Hfg. by right.
Qed.

(** The glyph of [c] lies inside the font, of one byte per row. *)
Definition glyph_ok (font : fb_font_t) (c : Z) : Prop :=
  0 ≤ ft_headersize font + c * ft_bytesperglyph font ∧ 0 ≤ ft_height font ≤ 2 ^ 20 ∧ 0 ≤ ft_width font ≤ 2 ^ 20 ∧
  ft_headersize font + c * ft_bytesperglyph font + ft_height font ≤ Z.of_nat (length (ft_bytes font)).
Definition glyph_row (font : fb_font_t) (c y : Z) : Z :=
  ft_bytes font !!! Z.to_nat (ft_headersize font + c * ft_bytesperglyph font + y).
Definition glyph_colour (font : fb_font_t) (c b f x y : Z) : Z :=
  if truthy (Z.land (glyph_row font c y) (Z.shiftl 1 (ft_width font - x))) then f else b.

Lemma char_paints fb_blend fuel fb x0 y0 c font b f :
  fb_wf fb → (0 < fuel)%nat → near x0 → near y0 → glyph_ok font c →
  ∃ l, paints_as fb_blend (fb_char fb_blend fuel x0 y0 c font b f) fb l ∧ NoDup l.*1 ∧
    ∀ q k, (q, k) ∈ l ↔ ∃ x y, 0 ≤ x < ft_width font ∧ 0 ≤ y < ft_height font ∧
      q = (x0 + x, y0 + y) ∧ k = glyph_colour font c b f x y.
Proof.
  intros Hwf Hf Hx Hy (Hg & Hh & Hw & Hl). unfold fb_char. cbv zeta.
  set (col := λ (x y : Z) (_ : fb_t), Ok (glyph_colour font c b f x y)).
  destruct (grid_paints fb_blend fuel Hf col (λ x y, glyph_colour font c b f x y) (seqZ 0 (ft_width font))
    (seqZ 0 (ft_height font)) (λ x, s32 (x0 + x)) (λ y, s32 (y0 + y)) fb) as (l & Hp & Hnd & Hin);
    [done|apply NoDup_seqZ|apply NoDup_seqZ| | |done|].
  { intros i j Hi Hj. apply elem_of_seqZ in Hi, Hj. unfold near in *. rewrite !s32_small by lia. lia. }
  { intros i j Hi Hj. apply elem_of_seqZ in Hi, Hj. unfold near in *. rewrite !s32_small by lia. lia. }
  exists l. split_and!; [|done|].
  - unfold paints_as in *. rewrite <- Hp. apply draws_ext. intros y fb1 Hyi. apply draws_ext. intros x fb2 Hxi.
    apply elem_of_seqZ in Hyi, Hxi. rewrite (proj2 (Z.leb_le _ _)) by lia.
    destruct (lookup_lt_is_Some_2 (ft_bytes font) (Z.to_nat (ft_headersize font + c * ft_bytesperglyph font + y)))
      as [row Hrow]; [lia|]. rewrite Hrow. cbn [of_option]. rewrite bind_ok. unfold col. rewrite bind_ok.
    unfold glyph_colour, glyph_row. by rewrite (list_lookup_total_correct _ _ _ Hrow).
  - intros q k. rewrite Hin. setoid_rewrite elem_of_seqZ. unfold near in *.
    split; intros (x & y & ? & ? & -> & ->); exists x, y; (split_and!; [lia..| |done]); rewrite !s32_small by lia; done.
Qed.

(** A glyph of 8 columns is shown one column to the right: the first column is always
    background, and the last column of the glyph is lost. *)
Theorem glyph_shifted (fb_blend : Z → Z → Z) (fuel : nat) (fb : fb_t) (x0 y0 c b f : Z) (font : fb_font_t) :
  fb_wf fb → (0 < fuel)%nat → near x0 → near y0 → glyph_ok font c → ft_width font = 8 →
  (∀ r, r ∈ ft_bytes font → 0 ≤ r < 256) → opaque fb b → opaque fb f →
  ∃ fb', fb_char fb_blend fuel x0 y0 c font b f fb = Ok fb' ∧ fb_wf fb' ∧
    ∀ x y, 0 ≤ x < 8 → 0 ≤ y < ft_height font → on_screen fb (x0 + x, y0 + y) →
      colour fb' (x0 + x, y0 + y) =
        Some (if (0 <? x) && Z.testbit (glyph_row font c y) (8 - x) then f else b).
Proof.
  intros Hwf Hf Hx Hy Hg Hw8 Hbytes Hob Hof.
  destruct (char_paints fb_blend fuel fb x0 y0 c font b f) as (l & Hp & Hnd & Hin); [done..|].
  eexists. split; [exact Hp|]. split; [by apply paints_wf|]. intros x y Hxr Hyr Hq.
  rewrite (grid_colour _ _ _ _ (glyph_colour font c b f x y)); [|done..|].
  2:{ apply Hin. exists x, y. rewrite Hw8. done. }
  assert (Hon : is_Some (colour fb (x0 + x, y0 + y))) by by apply lookup_lt_is_Some_2, word_lt.
  destruct Hon as [old ->]. cbn. f_equal. unfold glyph_colour. rewrite Hw8, truthy_land_bit by lia.
  assert (Hrow : 0 ≤ glyph_row font c y < 256).
  { unfold glyph_row. destruct Hg as (? & ? & ? & ?).
    destruct (lookup_lt_is_Some_2 (ft_bytes font) (Z.to_nat (ft_headersize font + c * ft_bytesperglyph font + y)))
      as [row Hrow]; [lia|]. rewrite (list_lookup_total_correct _ _ _ Hrow). apply Hbytes. by eapply list_elem_of_lookup_2. }
  destruct (Z.ltb_spec 0 x); cbn [andb].
  - case_if; by apply opaque_mix.
  - assert (x = 0) as -> by lia. rewrite (testbit_high _ 8) by lia. by apply opaque_mix.
Qed.

(** A font of two rows; the glyph of "!" is a bar at its left edge and one at its right edge. *)
Definition tiny_font : fb_font_t := mk_font (replicate 66 0 ++ [128; 1]) 0 2 2 8.
Lemma glyph_shifted_witness :
  ∃ fb', fb_char (λ a _, a) 1 0 0 33 tiny_font 3 7 small_screen = Ok fb' ∧
    colour fb' (0, 0) = Some 3 ∧ colour fb' (1, 0) = Some 7 ∧ colour fb' (7, 1) = Some 3.
Proof.
  destruct (glyph_shifted (λ a _, a) 1 small_screen 0 0 33 3 7 tiny_font small_screen_wf) as (fb' & H1 & _ & H2);
    [lia|by unfold near..|unfold glyph_ok; cbn; lia|done| |by right|by right|].
  { intros r Hr. assert (Hall : Forall (λ r, 0 ≤ r < 256) (ft_bytes tiny_font)) by by repeat constructor.
    rewrite Forall_forall in Hall. by apply Hall. }
  exists fb'. split; [exact H1|]. split; [|split].
  - etrans; [apply (H2 0 0); [lia|cbn; lia|unfold on_screen; cbn; lia]|vm_compute; reflexivity].
  - etrans; [apply (H2 1 0); [lia|cbn; lia|unfold on_screen; cbn; lia]|vm_compute; reflexivity].
  - etrans; [apply (H2 7 1); [lia|cbn; lia|unfold on_screen; cbn; lia]|vm_compute; reflexivity].
Defined.

(** ** Drawing is safe *)

Inductive drawing :=
| DPixel (x y color : Z)
| DLine (x0 y0 x1 y1 color : Z)
| DRect (x0 y0 w h color : Z)
| DFilledRect (x0 y0 w h border fill : Z)
| DFill (color : Z)
| DBitmap (x0 y0 w h : Z) (words : list Z)
| DString (x y : Z) (str : list Z) (font : fb_font_t) (b f : Z).

Definition draw_one (fb_blend : Z → Z → Z) (fuel : nat) (d : drawing) : fb_t → res fb_t :=
  match d with
  | DPixel x y c => fb_pixel fb_blend fuel x y c
  | DLine x0 y0 x1 y1 c => fb_line fb_blend fuel x0 y0 x1 y1 c
  | DRect x0 y0 w h c => fb_rect fb_blend fuel x0 y0 w h c
  | DFilledRect x0 y0 w h b f => fb_filled_rect fb_blend fuel x0 y0 w h b f
  | DFill c => fb_fill fb_blend fuel c
  | DBitmap x0 y0 w h words => fb_bitmap fb_blend fuel x0 y0 w h (Bitmap32 words)
  | DString x y str font b f => fb_string fb_blend fuel x y str font b f
  end.

(** Coordinates, on the screen or not, are far from overflow; a bitmap has its words, a
    string the glyphs of its characters. *)
Definition area_ok (x0 y0 w h : Z) : Prop :=
  near x0 ∧ near y0 ∧ near (x0 + w) ∧ near (y0 + h) ∧ 0 ≤ w ∧ 0 ≤ h.
Definition drawing_ok (d : drawing) : Prop :=
  match d with
  | DPixel _ _ _ | DFill _ => True
  | DLine x0 y0 x1 y1 _ => near x0 ∧ near y0 ∧ near x1 ∧ near y1
  | DRect x0 y0 w h _ | DFilledRect x0 y0 w h _ _ => area_ok x0 y0 w h
  | DBitmap x0 y0 w h words => area_ok x0 y0 w h ∧ w * h ≤ Z.of_nat (length words) ∧ w * h ≤ 2 ^ 32
  | DString x y str font _ _ => near x ∧ near y ∧ near (x + Z.of_nat (length str) * ft_width font) ∧
      0 ≤ ft_width font ∧ ∀ c, c ∈ str → 33 ≤ c ≤ 126 → glyph_ok font c
  end.

Lemma fill_words_ok fb c : fb_wf fb →
  ∃ fb', fill_words (fi_memsz (fb_info fb) / 4) c fb = Ok fb' ∧ fb_wf fb' ∧ fb_info fb' = fb_info fb ∧
    canvas fb' = replicate (length (canvas fb)) c.
Proof.
  intros [H1 H2 H3 H4]. unfold fill_words.
  assert (Hlen : Z.of_nat (length (canvas fb)) = fi_memsz (fb_info fb) / 4).
  { rewrite <- H2. unfold canvas. destruct (fb_backbuffer fb) eqn:E; [|done]. cbn. by rewrite (H3 _ eq_refl). }
  rewrite (proj2 (Z.leb_le _ _)) by lia.
  assert (Hrep : replicate (Z.to_nat (fi_memsz (fb_info fb) / 4)) c ++ drop (Z.to_nat (fi_memsz (fb_info fb) / 4)) (canvas fb)
    = replicate (length (canvas fb)) c).
  { rewrite <- Hlen, Nat2Z.id, drop_all. apply app_nil_r. }
  rewrite Hrep. eexists. split; [done|]. rewrite canvas_with. unfold with_canvas, canvas in *.
  destruct (fb_backbuffer fb) as [bk|] eqn:E; (split; [|split; done]); constructor; cbn; try done.
  - intros b' [= <-]. rewrite length_replicate. by apply H3.
  - by rewrite length_replicate.
  - by rewrite E.
Qed.

Lemma paints_as_ok fb_blend f fb l : fb_wf fb → paints_as fb_blend f fb l →
  ∃ fb', f fb = Ok fb' ∧ fb_wf fb' ∧ fb_info fb' = fb_info fb.
Proof. intros Hwf Hp. eexists. split; [exact Hp|]. split; [by apply paints_wf|]. apply paints_info. Qed.

(** The frame of a buffer: well formed and of the same size *)
Definition framed (fb fb' : fb_t) : Prop := fb_wf fb' ∧ fb_info fb' = fb_info fb.

Lemma draws_framed {A} (f : A → fb_t → res fb_t) (xs : list A) fb : fb_wf fb →
  (∀ x fb', x ∈ xs → framed fb fb' → ∃ fb'', f x fb' = Ok fb'' ∧ framed fb fb'') →
  ∃ fb', draws f xs fb = Ok fb' ∧ framed fb fb'.
Proof.
  intros Hwf Hf. assert (H : ∀ fb', framed fb fb' → ∃ fb'', draws f xs fb' = Ok fb'' ∧ framed fb fb''); [|by apply H].
  induction xs as [|x xs IH]; intros fb' Hfr; cbn [draws]; [by exists fb'|].
  destruct (Hf x fb') as (fb1 & -> & H1); [by left|done|]. rewrite bind_ok.
  apply IH; [|done]. intros y fb2 Hy. apply Hf. by right.
Qed.

Lemma draw_one_ok fb_blend fuel d fb : fb_wf fb → (0 < fuel)%nat → near (fi_w (fb_info fb)) → near (fi_h (fb_info fb)) →
  drawing_ok d → ∃ fb', draw_one fb_blend fuel d fb = Ok fb' ∧ framed fb fb'.
Proof.
  intros Hwf Hf Hnw Hnh Hd. assert (Hself : ∃ fb', Ok fb = Ok fb' ∧ framed fb fb') by by exists fb.
  assert (Hp : ∀ f l, paints_as fb_blend f fb l → ∃ fb', f fb = Ok fb' ∧ framed fb fb').
  { intros f l Hl. destruct (paints_as_ok fb_blend f fb l Hwf Hl) as (fb' & ? & ?). by exists fb'. }
  destruct d as [x y c|x0 y0 x1 y1 c|x0 y0 w h c|x0 y0 w h b f|c|x0 y0 w h words|x y str font b f]; cbn [draw_one drawing_ok] in *.
  - eapply Hp, pixel_paints; done.
  - destruct Hd as (? & ? & ? & ?). destruct (paints_as_line fb_blend fuel Hf fb x0 y0 x1 y1 c) as (ps & ? & _); [done..|].
    by eapply Hp.
  - destruct Hd as (? & ? & ? & ? & ? & ?). destruct (rect_paints fb_blend fuel Hf fb x0 y0 w h c) as (ps & ? & _); [done..|].
    by eapply Hp.
  - destruct Hd as (? & ? & ? & ? & ? & ?).
    destruct (filled_rect_paints fb_blend fuel Hf fb x0 y0 w h b f) as (? & ? & ? & _); [done..|]. by eapply Hp.
  - destruct (fill_words_ok fb c Hwf) as (fb1 & Hfill & Hw1 & Hi1 & _).
    assert (Hfull : ∃ fb', fill_words (fi_memsz (fb_info fb) / 4) c fb = Ok fb' ∧ framed fb fb') by by exists fb1.
    unfold fb_fill. repeat case_if; try done. destruct (fw_size fb Hwf) as (? & ? & _).
    destruct (filled_rect_paints fb_blend fuel Hf fb 0 0 (fi_w (fb_info fb)) (fi_h (fb_info fb)) c c) as (? & ? & ? & _);
      [done|by unfold near|by unfold near|done..|]. by eapply Hp.
  - destruct Hd as ((? & ? & ? & ? & ? & ?) & ? & ?).
    destruct (bitmap_paints fb_blend fuel fb x0 y0 w h words) as (l & ? & _); [done..|]. by eapply Hp.
  - destruct Hd as (Hx & Hy & Hxe & Hw & Hg). unfold fb_string. apply draws_framed; [done|].
    intros [i c] fb' Hin [Hw' Hi']. cbn [fst snd]. apply elem_of_lookup_imap in Hin as (j & c' & [= -> ->] & Hj).
    destruct (truthy (isgraph c')) eqn:Eg; [|by exists fb'].
    assert (Hc : 33 ≤ c' ≤ 126).
    { unfold isgraph in Eg. destruct ((33 <=? c') && (c' <=? 126)) eqn:E; [|done]. apply andb_true_iff in E. lia. }
    assert (near (x + Z.of_nat j * ft_width font)).
    { apply lookup_lt_Some in Hj. unfold near in *. nia. }
    rewrite s32_near by done.
    destruct (char_paints fb_blend fuel fb' (x + Z.of_nat j * ft_width font) y c' font b f) as (l & Hl & _);
      [done..| |]. { apply Hg; [by eapply list_elem_of_lookup_2|done]. }
    eexists. split; [exact Hl|]. split; [by apply paints_wf|]. by rewrite (proj1 (paints_info _ _ _)).
Qed.

(** C38: On a well-formed buffer without clips, no sequence of drawing operations (pixels, lines,
    rectangles, fills, bitmaps of 32-bit colours that have all their words, strings whose
    printable characters have their glyphs) leaves the buffer, whether what it draws is on
    the screen or not, as long as coordinates and sizes are within 2^28: every operation
    ends, and the buffer stays well formed and of its size. *)
Theorem drawing_safe (fb_blend : Z → Z → Z) (fuel : nat) (ds : list drawing) (fb : fb_t) :
  fb_wf fb → (0 < fuel)%nat → near (fi_w (fb_info fb)) → near (fi_h (fb_info fb)) → Forall drawing_ok ds →
  ∃ fb', draws (draw_one fb_blend fuel) ds fb = Ok fb' ∧ fb_wf fb' ∧ fb_info fb' = fb_info fb.
Proof.
  intros Hwf Hf Hw Hh Hds. rewrite Forall_forall in Hds. apply draws_framed; [done|].
  intros d fb' Hd [Hwf' Hi]. destruct (draw_one_ok fb_blend fuel d fb') as (fb'' & He & Hwf'' & Hi'');
    [done|done|by rewrite Hi..|by apply Hds|]. exists fb''. split; [done|]. split; [done|by rewrite Hi''].
Qed.

Lemma drawing_safe_witness :
  ∃ fb', draws (draw_one (λ a _, a) 1) [DFill 3; DLine (-5) (-5) 20 9 4; DString 2 1 [33; 33] tiny_font 0 1] small_screen
    = Ok fb' ∧ fb_wf fb'.
Proof.
  destruct (drawing_safe (λ a _, a) 1 [DFill 3; DLine (-5) (-5) 20 9 4; DString 2 1 [33; 33] tiny_font 0 1] small_screen
    small_screen_wf) as (fb' & H1 & H2 & _);
    [lia|unfold near; cbn; lia|unfold near; cbn; lia| |exists fb'; split; [exact H1|exact H2]].
  apply Forall_cons; split; [exact I|]. apply Forall_cons; split; [cbn; unfold near; lia|].
  apply Forall_cons; split; [|by apply Forall_nil].
  split; [unfold near; lia|]. split; [unfold near; lia|]. split; [unfold near; cbn; lia|]. split; [cbn; lia|].
  intros c Hc _. assert (c = 33) as -> by (rewrite !elem_of_cons, elem_of_nil in Hc; tauto).
  unfold glyph_ok. cbn. lia.
Defined.

(** ** Clips and colours *)

(** The first clip has no end: asking whether a point outside it is clipped reads a pointer
    that was never assigned. *)
Theorem first_clip_unterminated (fuel : nat) (fb : fb_t) (a x0 y0 w h x y : Z) :
  fb_clips fb = 0 → a ≠ 0 → (0 < fuel)%nat → (x < x0 ∨ y < y0) →
  ∃ fb', fb_clip fuel a x0 y0 w h fb = Ok fb' ∧ fb_is_clipped fuel fb' x y = Fault.
Proof.
  intros Hc Ha Hf Hout. unfold fb_clip. rewrite Hc. cbn [truthy Z.eqb negb]. eexists. split; [done|].
  unfold fb_is_clipped. cbn. destruct fuel as [|fuel]; [lia|]. cbn [clipped_loop].
  rewrite (proj2 (truthy_true a)), lookup_insert_eq by done. cbn [of_option]. rewrite bind_ok. cbn.
  assert ((x0 <=? x) && (y0 <=? y) = false) as ->; [|done].
  rewrite andb_false_iff, !Z.leb_gt. lia.
Qed.

Lemma first_clip_unterminated_witness :
  ∃ fb', fb_clip 1 100 2 2 3 3 small_screen = Ok fb' ∧ fb_is_clipped 1 fb' 1 1 = Fault.
Proof. apply (first_clip_unterminated 1 small_screen 100 2 2 3 3 1 1); [done|done|lia|lia]. Defined.

(** A second clip that starts at or to the right of the first closes the chain to a cycle:
    the test for a point left of both never ends. *)
Theorem second_clip_cycles (fuel : nat) (fb : fb_t) (a b x0 y0 w h x1 y1 w1 h1 x y : Z) :
  fb_clips fb = 0 → a ≠ 0 → b ≠ 0 → a ≠ b → x0 ≤ x1 → x < x0 → (0 < fuel)%nat →
  ∃ fb1 fb2, fb_clip fuel a x0 y0 w h fb = Ok fb1 ∧ fb_clip fuel b x1 y1 w1 h1 fb1 = Ok fb2 ∧
    ∀ n, fb_is_clipped n fb2 x y = OutOfFuel.
Proof.
  intros Hc Ha Hb Hab Hx Hout Hf. unfold fb_clip at 1. rewrite Hc. cbn [truthy Z.eqb negb].
  do 2 eexists. split; [done|]. unfold fb_clip. cbn [fb_clips with_clips]. rewrite (proj2 (truthy_true a)) by done.
  cbn [negb]. destruct fuel as [|fuel]; [lia|]. cbn [clip_place fb_heap with_clips].
  rewrite (proj2 (truthy_true a)), lookup_insert_eq by done. cbn [of_option]. rewrite bind_ok. cbn [cp_x0].
  rewrite (proj2 (Z.ltb_ge _ _)), bind_ok, lookup_insert_eq by done. cbn [of_option]. rewrite bind_ok.
  split; [done|]. intros n. unfold fb_is_clipped. cbn [fb_heap fb_clips with_clips cp_x0 cp_y0 cp_w cp_h].
  set (heap := <[b := _]> _).
  assert (Hla : heap !! a = Some (mk_clip x0 y0 w h (Some b))).
  { subst heap. by rewrite lookup_insert_ne, lookup_insert_eq. }
  assert (Hlb : heap !! b = Some (mk_clip x1 y1 w1 h1 (Some a))) by by (subst heap; rewrite lookup_insert_eq).
  clearbody heap.
  enough (H : clipped_loop n heap a x y = OutOfFuel ∧ clipped_loop n heap b x y = OutOfFuel) by apply H.
  induction n as [|n [IHa IHb]]; [done|]. cbn [clipped_loop].
  rewrite !(proj2 (truthy_true _)), Hla, Hlb by done. cbn [of_option]. rewrite !bind_ok. cbn [cp_x0 cp_y0 cp_w cp_h cp_next of_option].
  rewrite !bind_ok, !(proj2 (Z.leb_gt _ x)) by lia. done.
Qed.

Lemma second_clip_cycles_witness :
  ∃ fb1 fb2, fb_clip 1 100 2 2 3 3 small_screen = Ok fb1 ∧ fb_clip 1 200 4 2 1 1 fb1 = Ok fb2 ∧
    fb_is_clipped 1000 fb2 0 0 = OutOfFuel.
Proof.
  destruct (second_clip_cycles 1 small_screen 100 200 2 2 3 3 4 2 1 1 0 0) as (fb1 & fb2 & H1 & H2 & H3);
    [done|done|done|done|lia|lia|lia|]. exists fb1, fb2. split; [exact H1|]. split; [exact H2|exact (H3 1000%nat)].
Defined.

(** A colour whose blue component is at least 128 has all other components at their maximum:
    blue is white. *)
Theorem bright_blue_floods (r g b a : Z) : 128 ≤ b < 256 → fb_color r g b a = 4294967040 + b.
Proof.
  intros Hb. unfold fb_color.
  set (X := Z.lor (Z.lor (Z.shiftl (s8 a) 24) (Z.shiftl (s8 r) 16)) (Z.shiftl (s8 g) 8)).
  assert (HX : ∀ n, 0 ≤ n < 8 → Z.testbit X n = false).
  { intros n Hn. subst X. rewrite !Z.lor_spec, !Z.shiftl_spec_low by lia. done. }
  assert (Hs : s8 b = b - 256).
  { unfold s8. rewrite <- (Z_mod_plus_full _ (-1)), Z.mod_small; lia. }
  assert (Hl : Z.lor X (s8 b) = s8 b).
  { apply Z.bits_inj'. intros n Hn. rewrite Z.lor_spec. destruct (decide (n < 8)); [by rewrite HX by lia|].
    rewrite Hs. replace (b - 256) with (Z.lnot (255 - b)) by (unfold Z.lnot; lia).
    rewrite Z.lnot_spec, (testbit_high (255 - b) 8) by lia. by rewrite orb_true_r. }
  rewrite Hl, Hs. unfold u32. rewrite <- (Z_mod_plus_full _ 1), Z.mod_small; lia.
Qed.

Lemma bright_blue_floods_witness : fb_color 0 0 255 255 = fb_color 255 255 255 255.
Proof. etrans; [apply (bright_blue_floods 0 0 255 255); lia|reflexivity]. Defined.
